(* ===== verification/_CoqProject ===== *)
-Q . S2P
Prelude.v
Spinlock.v
CString.v
ProcData.v
ProcList.v
Proc.v
ProcWp.v
ProcSpec.v
ProcRefine.v
ProcInv.v
ProcOps.v
ProcBoot.v
ProcThm.v
ProcOrig.v
Sync.v
Block.v
Bio.v
BioSpec.v
Words.v
Log.v
LogSpec.v
LogRefine.v
LogThm.v
LogClaims.v
Pipe.v
PipeThm.v
Format.v
Console.v
ConsoleThm.v
Tx.v
Fs.v
FsBlocks.v
FsInode.v
FsFile.v
FsRw.v
FsDir.v
FsToy.v
FsClaims.v
FsTrunc.v
Dirop.v
FsUnlink.v
DiropThm.v
FsCreate.v
DiropMain.v
Mkfs.v
MkfsFile.v
MkfsInv.v
MkfsThm.v
Shell.v
ShellSpec.v
ShellLex.v
ShellRefine.v
ShellThm.v
Vm.v
VmPages.v
VmSpace.v
VmUser.v
VmCopy.v
VmThm.v
VmCopyThm.v
VmOut.v
Exec.v
ExecVm.v
ExecLoad.v
ExecThm.v
ExecMain.v
File.v
FileInv.v
FileRw.v
Sysfile.v
SysfileInv.v
SysfileOpen.v
SysfileFork.v
SysfileThm.v
Grep.v
GrepLoop.v
Wc.v
Umalloc.v
UmallocHeap.v
UmallocThm.v
