(* ===== verification/Prelude.v ===== *)
(** * xv6-B06: a verification library for the kernel and its tools

    xv6-B06 is an x86 teaching kernel with a multi-level feedback scheduler, user
    and group ids and file modes, built with BAGIAN_ID, BAGIAN_UPROC,
    BAGIAN_INODE, LS_EXEC and USE_BUILTINS.  Sources are under src/xv6-B06/.

    ** How code is modelled

    A C function is a function of the monad [M] below: it takes a state and
    returns, panics, faults (a bad pointer, an index out of an array) or diverges
    (a lock that never comes free, a walk that does not end).  Integers are [Z]
    with the wrap-around of their width written out ([u32], [s32], ...), memory
    is a list of bytes, a pointer to an entry of a table is its index, a null
    pointer is [None].  [wp E m Q s] is total correctness up to panics of [E].
    Loops that are not structural take a fuel, and every theorem that a call
    returns is proved for the fuel the model gives it: the walks over the state
    lists and the buffer ring visit each entry once (NPROC and NBUF bound them),
    the loops of readi, writei and mkfs's iappend take a step per block, the digits
    of an int fit in 17 turns, and the parser of sh.c goes at most four calls deeper per
    character ([parse_fuel]), the loops of vm.c take a step per page, the searches
    of malloc and free go round the ring of free blocks at most twice.

    ** Files

    - Prelude: the monad, weakest preconditions, machine integers, lists.
    - Spinlock (spinlock.c), CString (string.c, ulib.c), Words (structs in memory).
    - Processes, proc.c: ProcData (structs), ProcList (the linked state lists),
      Proc (every entry point, over the class [KSvc] of memory and file
      services), ProcSpec (queues as sequences), ProcWp, ProcRefine (the pointer
      code implements ProcSpec), ProcInv, ProcOps (the invariant and that each
      operation keeps it), ProcBoot (userinit, and CPUs taking turns),
      ProcThm (the theorems), ProcOrig (the table-scanning build, getprocs).
    - Sync: the interface of locks and wakeups, discharged by Proc.
    - Disk: Block (the interface of the buffer cache), Bio and BioSpec (bio.c on
      memide.c implement it), Log (log.c over that interface), LogSpec (what a
      crash leaves and recovery restores), LogRefine, LogThm (the log as a
      transactional store), LogClaims (theorems and a machine that runs them).
    - Files, fs.c: Tx (the interface of the log, discharged by Log on Bio), Fs
      (the code), FsBlocks (free map), FsInode (inodes and their cache), FsFile
      and FsRw (contents), FsDir (directories), FsToy (a disk in memory),
      FsClaims (the theorems).
    - Pipe, PipeThm (pipe.c); Format (printf.c, cprintf), Console, ConsoleThm
      (console.c).
    - Shell, ShellSpec, ShellLex, ShellRefine, ShellThm: the parser of sh.c.
    - Memory, kalloc.c and vm.c: Vm (the code, on pages of physical memory),
      VmPages (the free list), VmSpace (page tables as maps), VmUser (growing and
      shrinking), VmCopy (setupkvm, copyuvm, freevm), VmThm, VmCopyThm and VmOut
      (the theorems, in terms of what the processor's page walk finds).
    - Exec (exec.c, elf.h), ExecVm (the interface of the file system, loaduvm
      and the arguments), ExecLoad (the segments and the stack), ExecThm (the
      whole of exec), ExecMain (its theorems).
    - Open files: File (file.c and pipealloc, over the class [FileIO] of inode and
      pipe operations), FileInv (what that class promises, [FileLaws], and the
      operations on counts), FileRw (reading and writing); Sysfile (the arguments
      of syscall.c and the calls of sysfile.c), SysfileInv (arguments, counts),
      SysfileOpen and SysfileFork (each call keeps the counts), SysfileThm (the
      theorems).
    - Names: Dirop (create, link and unlink of sysfile.c over fs.c), FsTrunc
      (itrunc and the last iput), FsUnlink and DiropThm (unlink on the disk),
      FsCreate (ialloc and create), DiropMain (the theorems).
    - Mkfs (mkfs.c), MkfsFile (how a file grows, iappend), MkfsInv (the files of
      the image), MkfsThm (the image is a file system for fs.c).
    - Umalloc (umalloc.c), UmallocHeap (the heap as a list of blocks), UmallocThm;
      Grep and GrepLoop (grep.c); Wc (wc.c).

    ** What the theorems show

    - Processes: from boot on, however the steps of the CPUs interleave, the code of
      proc.c does not panic, fault or loop (its services may panic, and the
      unlocked failure paths of fork count as one step); a RUNNING process is on
      exactly one CPU; every process has a live parent; scheduler, yield,
      promoteAll, sleep and wakeup, fork, exit, wait, kill and setpriority have
      their exact effect on the queues; the list code agrees with the
      table-scanning build it replaces.
    - Disk: bread returns the latest contents, the cache recycles the least
      recently used idle buffer; a crash at any write of a commit leaves all of
      the transaction or none of it; recovery ends and is repeatable; the log
      implements an abstract transactional store for calls of at most nine blocks.
    - Files: allocation is exact, the inode cache has one entry per inode with a
      true count of references, reading gives back what was written and writing
      one file leaves the others alone, a linked name is found.
    - Pipes are bounded queues without lost wakeups between a reader and a writer
      that are not killed; the console implements a line discipline and stays on
      the screen; printing an integer and reading it back is the identity.
    - The shell's parser accepts exactly its grammar and undoes printing.
    - Memory: every page above the kernel is on the free list once; mapping is
      exact; user memory grows by zeroed pages and shrinks back without loss;
      fork's copy is exact and private; copyout stops at the guard page.  exec
      builds the image, the guard page and the stack of the program and frees the
      old image, or fails without a trace, or panics on an unaligned segment.
    - Open files: over any inode and pipe layer with the laws of [FileLaws], and as
      long as no count passed to read is negative, the count of a file is the number
      of its descriptors, nothing leaks and a call panics only when inodes or
      blocks run out; arguments are fetched from
      the memory of the process only; what one descriptor writes another reads.
    - Names: unlink removes exactly one name, and frees the inode and its blocks only
      with the last link and reference; create makes an empty file with one link
      under the name and changes nothing else.  mkfs makes an image with the layout,
      free map, inodes, contents and root directory that the kernel expects.
    - User programs: malloc (of at most 2^31 - 16 bytes) and free keep disjoint
      blocks that tile the heap, grep's
      matcher decides its patterns and grep prints the selected lines of a file,
      wc counts right however the input is cut up.

    Some theorems show a defect: three calls that the log
    admits overflow it, kill(0) kills the next child, a killed writer of a pipe
    leaves its reader asleep, allocuvm reports success for a page it could not
    map, exec panics on a program file with an unaligned segment, read with a
    negative count faults in the kernel, malloc faults on a request of 2^31 bytes,
    grep loses lines that arrive in pieces.

    ** Not modelled

    Assembly, the boot loader, start-up (main.c), interrupt controllers, timers,
    keyboard tables and serial set-up: registers of the hardware.  The disk is
    the one of memide.c, in memory; ide.c, which the Makefile links, drives the
    controller through I/O ports and is not modelled.  usertests.c and the other
    test programs, and the user programs that only make system calls.
    Debugging output (procdump, the list printers, getcallerpcs).  Of sh.c,
    runcmd and main, which are system calls in sequence.
    The dispatcher of syscall.c and sysproc.c, which pass arguments on; trap.c.
    The process model has the services of vm.c, kalloc.c, file.c and fs.c as the
    class [KSvc], and the file table has inodes and pipes as the class [FileIO]:
    their laws ([KSvcLaws], [FileLaws]) are assumptions that the models of that
    code do not discharge.
    Control transfers by [swtch] are modelled by what runs next, not by the
    registers it saves.  Code of different CPUs interleaves between critical
    sections of ptable.lock, and between the pieces of fork and exit that run
    without it; the two failure paths of fork, which move a slot between the lists
    without the lock (proc.c:157 and 376), are single steps. *)

From Stdlib Require Export ZArith Lia.
From stdpp Require Export prelude gmap strings functions.
#[local] Open Scope Z_scope.

(** ** Outcomes of kernel code

    C code returns, calls [panic] (which never returns), dereferences a bad
    pointer or indexes past an array (undefined behaviour), or fails to return
    (it spins on a lock another CPU holds, or a walk runs out of fuel). *)
Inductive outcome (A : Type) : Type :=
| Ok (a : A)
| Panic (msg : string)
| Fault
| Diverge.
Arguments Ok {A} a.
Arguments Panic {A} msg.
Arguments Fault {A}.
Arguments Diverge {A}.

(** Code with a state of type [S] and a result of type [A]. *)
Definition M (S A : Type) : Type := S → outcome (A * S).

Definition ret {S A} (a : A) : M S A := λ s, Ok (a, s).
Definition bind {S A B} (m : M S A) (f : A → M S B) : M S B := λ s,
  match m s with
  | Ok (a, s') => f a s'
  | Panic e => Panic e
  | Fault => Fault
  | Diverge => Diverge
  end.

Declare Scope kernel_scope.
Delimit Scope kernel_scope with K.
Notation "'let!' x := m 'in' k" := (bind m (λ x, k))
  (at level 10, x name, m at level 100, k at level 200,
   format "'[v' 'let!'  x  :=  m  'in' '/' k ']'") : kernel_scope.
Notation "m ;;; k" := (bind m (λ _ : unit, k))
  (at level 100, right associativity, format "'[v' m ;;; '/' k ']'") : kernel_scope.
Open Scope kernel_scope.

Definition panic {S A} (msg : string) : M S A := λ _, Panic msg.
Definition fault {S A} : M S A := λ _, Fault.
Definition diverge {S A} : M S A := λ _, Diverge.
Definition getS {S} : M S S := λ s, Ok (s, s).
Definition modS {S} (f : S → S) : M S unit := λ s, Ok (tt, f s).
Definition gets {S A} (f : S → A) : M S A := λ s, Ok (f s, s).
Definition skip {S} : M S unit := ret tt.
Definition whenb {S} (b : bool) (m : M S unit) : M S unit := if b then m else skip.

(** An access that faults when it is out of range. *)
Definition of_opt {S A} (o : option A) : M S A :=
  match o with Some a => ret a | None => fault end.

(** A field of a larger state, with its accessor and its setter. *)
Definition zoom {S T A} (get : S → T) (set : T → S → S) (m : M T A) : M S A := λ s,
  match m (get s) with
  | Ok (a, t) => Ok (a, set t s)
  | Panic e => Panic e
  | Fault => Fault
  | Diverge => Diverge
  end.

(** Run [m] for every element, in order. *)
Fixpoint mfor {S A} (l : list A) (m : A → M S unit) : M S unit :=
  match l with
  | [] => skip
  | x :: l' => m x ;;; mfor l' m
  end.

(** Running the first command of a sequence. *)
Lemma bind_Ok {S A B} (m : M S A) (f : A → M S B) s a s' :
  m s = Ok (a, s') → bind m f s = f a s'.
Proof. unfold bind. by intros ->. Qed.
Lemma bind_Panic {S A B} (m : M S A) (f : A → M S B) s e :
  m s = Panic e → bind m f s = Panic e.
Proof. unfold bind. by intros ->. Qed.

(** ** Weakest preconditions

    [wp E m Q s]: from [s] the code either returns with [Q], or panics with a
    message of [E]; it neither faults nor diverges.  With [E] empty this is
    total correctness. *)
Definition wp {S A} (E : string → Prop) (m : M S A) (Q : A → S → Prop) (s : S) : Prop :=
  match m s with
  | Ok (a, s') => Q a s'
  | Panic e => E e
  | Fault | Diverge => False
  end.

Definition no_panic : string → Prop := λ _, False.

Section wp_rules.
Context {S : Type} (E : string → Prop).

Lemma wp_ret {A} (a : A) Q (s : S) : Q a s → wp E (ret a) Q s.
Proof. done. Qed.

Lemma wp_bind {A B} (m : M S A) (f : A → M S B) Q (s : S) :
  wp E m (λ a s', wp E (f a) Q s') s → wp E (bind m f) Q s.
Proof. unfold wp, bind. by destruct (m s) as [[a s']|e| |]. Qed.

Lemma wp_mono {A} (m : M S A) (Q Q' : A → S → Prop) (s : S) :
  wp E m Q s → (∀ a s', Q a s' → Q' a s') → wp E m Q' s.
Proof. unfold wp. destruct (m s) as [[a s']|e| |]; auto. Qed.

Lemma wp_Ok {A} (m : M S A) Q (s : S) a s' : m s = Ok (a, s') → Q a s' → wp E m Q s.
Proof. unfold wp. by intros ->. Qed.

Lemma wp_getS Q (s : S) : Q s s → wp E getS Q s.
Proof. done. Qed.

Lemma wp_modS f Q (s : S) : Q tt (f s) → wp E (modS f) Q s.
Proof. done. Qed.

Lemma wp_gets {A} (f : S → A) Q (s : S) : Q (f s) s → wp E (gets f) Q s.
Proof. done. Qed.

Lemma wp_of_opt {A} (o : option A) a Q (s : S) : o = Some a → Q a s → wp E (of_opt o) Q s.
Proof. by intros ->. Qed.

Lemma wp_skip Q (s : S) : Q tt s → wp E skip Q s.
Proof. done. Qed.

Lemma wp_mfor {A} (l : list A) (m : A → M S unit) (I : list A → S → Prop) (s : S) :
  I l s →
  (∀ x l' s1, I (x :: l') s1 → wp E (m x) (λ _ s2, I l' s2) s1) →
  wp E (mfor l m) (λ _ s', I [] s') s.
Proof.
  intros HI Hstep. revert s HI. induction l as [|x l IH]; intros s HI; simpl.
  - by apply wp_skip.
  - apply wp_bind. eapply wp_mono; [by apply Hstep|]. intros [] s2 H2. by apply IH.
Qed.

Lemma wp_zoom {T A} (get : S → T) (set : T → S → S) (m : M T A) Q (s : S) :
  wp E m (λ a t, Q a (set t s)) (get s) → wp E (zoom get set m) Q s.
Proof. unfold wp, zoom. by destruct (m (get s)) as [[a t]|e| |]. Qed.

End wp_rules.

Lemma wp_total {S A} (m : M S A) Q (s : S) :
  wp no_panic m Q s → ∃ a s', m s = Ok (a, s') ∧ Q a s'.
Proof.
  unfold wp, no_panic. destruct (m s) as [[a s']|e| |] eqn:?; try done. eauto.
Qed.

Lemma wp_panics_mono {S A} (E E' : string → Prop) (m : M S A) Q (s : S) :
  wp E m Q s → (∀ e, E e → E' e) → wp E' m Q s.
Proof. unfold wp. destruct (m s) as [[a s']|e| |]; auto. Qed.

(** [wp_step] exposes the next command of a sequence. *)
Ltac wp_step := apply wp_bind.
Ltac wp_pure :=
  repeat first
    [ apply wp_bind | apply wp_ret | apply wp_getS | apply wp_modS | apply wp_gets
    | apply wp_skip ]; simpl.

(** ** Machine integers *)
Definition u8 (z : Z) : Z := z mod 2 ^ 8.
Definition u16 (z : Z) : Z := z mod 2 ^ 16.
Definition u32 (z : Z) : Z := z mod 2 ^ 32.
Definition s16 (z : Z) : Z := (z + 2 ^ 15) mod 2 ^ 16 - 2 ^ 15.
Definition s32 (z : Z) : Z := (z + 2 ^ 31) mod 2 ^ 32 - 2 ^ 31.

Lemma u32_range z : 0 ≤ u32 z < 2 ^ 32.
Proof. unfold u32. apply Z.mod_pos_bound. lia. Qed.
Lemma s32_range z : - 2 ^ 31 ≤ s32 z < 2 ^ 31.
Proof. unfold s32. pose proof (Z.mod_pos_bound (z + 2 ^ 31) (2 ^ 32)). lia. Qed.
Lemma u32_small z : 0 ≤ z < 2 ^ 32 → u32 z = z.
Proof. apply Z.mod_small. Qed.
Lemma s32_small z : - 2 ^ 31 ≤ z < 2 ^ 31 → s32 z = z.
Proof. intros. unfold s32. rewrite Z.mod_small; lia. Qed.
Lemma u32_s32 z : u32 (s32 z) = u32 z.
Proof.
  unfold u32, s32. rewrite Zminus_mod_idemp_l.
  f_equal. lia.
Qed.
Lemma s32_u32 z : s32 (u32 z) = s32 z.
Proof. unfold u32, s32. by rewrite Zplus_mod_idemp_l. Qed.
Lemma u8_range z : 0 ≤ u8 z < 256.
Proof. unfold u8. apply Z.mod_pos_bound. lia. Qed.
Lemma u8_small z : 0 ≤ z < 256 → u8 z = z.
Proof. apply Z.mod_small. Qed.

(** ** Lists *)

(** Drop the first occurrence of [x]. *)
Fixpoint remove1 {A} `{EqDecision A} (x : A) (l : list A) : list A :=
  match l with
  | [] => []
  | y :: l' => if decide (x = y) then l' else y :: remove1 x l'
  end.

Section remove1_lemmas.
Context {A : Type} `{EqDecision A}.
Implicit Types (x y : A) (l : list A).

Lemma remove1_not_in x l : x ∉ l → remove1 x l = l.
Proof.
  induction l as [|y l IH]; simpl; [done|].
  intros [Hx Hl]%not_elem_of_cons. rewrite decide_False by done. f_equal; auto.
Qed.

Lemma remove1_app_r x l1 l2 : x ∉ l1 → remove1 x (l1 ++ l2) = l1 ++ remove1 x l2.
Proof.
  induction l1 as [|y l1 IH]; simpl; [done|].
  intros [Hx Hl]%not_elem_of_cons. rewrite decide_False by done. f_equal; auto.
Qed.

Lemma remove1_middle x l1 l2 : x ∉ l1 → remove1 x (l1 ++ x :: l2) = l1 ++ l2.
Proof. intros. rewrite remove1_app_r by done. simpl. by rewrite decide_True. Qed.

Lemma remove1_head x l : remove1 x (x :: l) = l.
Proof. simpl. by rewrite decide_True. Qed.

Lemma remove1_cons_ne x y l : x ≠ y → remove1 x (y :: l) = y :: remove1 x l.
Proof. intros. simpl. by rewrite decide_False. Qed.

Lemma elem_of_remove1 x y l : NoDup l → y ∈ remove1 x l ↔ y ∈ l ∧ y ≠ x.
Proof.
  induction 1 as [|z l Hz Hl IH]; simpl; [set_solver|].
  case_decide; subst; set_solver.
Qed.

Lemma NoDup_remove1 x l : NoDup l → NoDup (remove1 x l).
Proof.
  induction 1 as [|z l Hz Hl IH]; simpl; [constructor|].
  case_decide; subst; [done|]. constructor; [|done].
  rewrite elem_of_remove1 by done. set_solver.
Qed.

Lemma length_remove1 x l : x ∈ l → S (length (remove1 x l)) = length l.
Proof.
  induction l as [|y l IH]; simpl; [set_solver|]. intros Hin.
  case_decide; [done|]. simpl. f_equal. apply IH. set_solver.
Qed.

Lemma remove1_perm x l : x ∈ l → l ≡ₚ x :: remove1 x l.
Proof.
  induction l as [|y l IH]; [set_solver|]. intros Hin. simpl. case_decide as Hd.
  - by subst.
  - rewrite IH at 1 by set_solver. constructor.
Qed.
End remove1_lemmas.

(** A list without duplicates whose elements are all below [n] has at most [n]
    elements: this bounds every walk over a linked list of table entries. *)
Lemma NoDup_bounded_length (l : list nat) n :
  NoDup l → (∀ i, i ∈ l → (i < n)%nat) → (length l ≤ n)%nat.
Proof.
  intros Hnd Hlt. rewrite <- (length_seq n 0).
  apply submseteq_length, NoDup_submseteq; [done|].
  intros i Hi. apply elem_of_seq. specialize (Hlt i Hi). lia.
Qed.

Lemma list_lookup_insert_cases {A} (l : list A) i j x y :
  <[i:=x]> l !! j = Some y → (i = j ∧ y = x) ∨ (i ≠ j ∧ l !! j = Some y).
Proof.
  destruct (decide (i = j)) as [->|Hne].
  - intros H. left. split; [done|].
    assert (j < length (<[j:=x]> l))%nat as Hlt by eauto using lookup_lt_Some.
    rewrite length_insert in Hlt. rewrite list_lookup_insert_eq in H by done. congruence.
  - rewrite list_lookup_insert_ne by done. auto.
Qed.

(** ** Hints and tactics shared by the components *)
Create HintDb xv6.
#[export] Hint Resolve u32_range s32_range u8_range : xv6.
#[export] Hint Resolve lookup_lt_Some : xv6.

(** Case analysis on the discriminee of a [match] or [if] in the goal or in a
    hypothesis, keeping the equation. *)
Ltac case_on :=
  match goal with
  | |- context [match ?x with _ => _ end] => destruct x eqn:?
  | H : context [match ?x with _ => _ end] |- _ => destruct x eqn:?
  end.

(** Split conjunctions and existentials of the context. *)
Ltac flatten :=
  repeat match goal with
  | H : _ ∧ _ |- _ => destruct H
  | H : ∃ _, _ |- _ => destruct H
  end.

(** Changing an entry that is there. *)
Lemma list_alter_Some {A} (f : A → A) (l : list A) i x :
  l !! i = Some x → alter f i l = <[i := f x]> l.
Proof.
  revert i. induction l as [|y l IH]; intros [|i] Hx; simplify_eq/=; [done|].
  f_equal. by apply IH.
Qed.
