(* ===== verification/Spinlock.v ===== *)
(** * Spin locks and interrupt nesting (spinlock.c, spinlock.h, struct cpu of proc.h)

    The machine is the table of CPUs with their interrupt flag and [pushcli]
    nesting depth, the locks by name, and the CPU whose code runs (the %gs
    register of proc.h).  [acquire] on a lock that another CPU holds spins: it
    does not return until that CPU runs, which is the outcome [Diverge].  The
    debugging fields [pcs] are not modelled. *)

From S2P Require Import Prelude.
Local Open Scope Z_scope.

(** ** Data *)
Record cpu := mkcpu {
  c_ncli : Z;             (* depth of pushcli nesting *)
  c_intena : bool;        (* were interrupts enabled before pushcli? *)
  c_IF : bool;            (* FL_IF of %eflags *)
  c_proc : option nat     (* the currently running process *)
}.

Record spinlock := mklock { lk_locked : bool; lk_cpu : option nat }.

Record machine := mkmachine {
  m_gs : nat;
  m_cpus : list cpu;
  m_locks : gmap string spinlock
}.

(** A lock that was never touched is zero, as C's static storage is. *)
Definition unlocked : spinlock := mklock false None.
Definition get_lock (lk : string) (m : machine) : spinlock :=
  default unlocked (m_locks m !! lk).
Definition set_lock (lk : string) (v : spinlock) (m : machine) : machine :=
  mkmachine (m_gs m) (m_cpus m) (<[lk := v]> (m_locks m)).
Definition set_cpu (v : cpu) (m : machine) : machine :=
  mkmachine (m_gs m) (<[m_gs m := v]> (m_cpus m)) (m_locks m).
Definition set_c_proc (p : option nat) (c : cpu) : cpu :=
  mkcpu (c_ncli c) (c_intena c) (c_IF c) p.
Definition set_c_IF (b : bool) (c : cpu) : cpu :=
  mkcpu (c_ncli c) (c_intena c) b (c_proc c).
Definition set_c_intena (b : bool) (c : cpu) : cpu :=
  mkcpu (c_ncli c) b (c_IF c) (c_proc c).
Definition set_c_ncli (n : Z) (c : cpu) : cpu :=
  mkcpu n (c_intena c) (c_IF c) (c_proc c).

Definition mycpu : M machine cpu := λ m,
  match m_cpus m !! m_gs m with Some c => Ok (c, m) | None => Fault end.
Definition upd_cpu (f : cpu → cpu) : M machine unit :=
  let! c := mycpu in modS (set_cpu (f c)).

(** ** Operations *)
Definition cli : M machine unit := upd_cpu (set_c_IF false).
Definition sti : M machine unit := upd_cpu (set_c_IF true).

Definition initlock (lk : string) : M machine unit := modS (set_lock lk unlocked).

Definition pushcli : M machine unit :=
  let! c := mycpu in
  let eflags := c_IF c in
  cli ;;;
  let! c := mycpu in
  upd_cpu (set_c_ncli (c_ncli c + 1)) ;;;
  if decide (c_ncli c = 0) then upd_cpu (set_c_intena eflags) else skip.

Definition popcli : M machine unit :=
  let! c := mycpu in
  if c_IF c then panic "popcli - interruptible" else
  upd_cpu (set_c_ncli (c_ncli c - 1)) ;;;
  let! c := mycpu in
  if decide (c_ncli c < 0) then panic "popcli" else
  if decide (c_ncli c = 0) then (if c_intena c then sti else skip) else skip.

Definition holding_by (c : nat) (lk : spinlock) : bool :=
  lk_locked lk && bool_decide (lk_cpu lk = Some c).
Definition holding (lk : string) : M machine bool :=
  gets (λ m, holding_by (m_gs m) (get_lock lk m)).

Definition acquire (lk : string) : M machine unit :=
  pushcli ;;;
  let! h := holding lk in
  if h then panic "acquire" else
  let! l := gets (get_lock lk) in
  if lk_locked l then diverge else
  let! c := gets m_gs in
  modS (set_lock lk (mklock true (Some c))).

Definition release (lk : string) : M machine unit :=
  let! h := holding lk in
  if h then modS (set_lock lk unlocked) ;;; popcli else panic "release".

(** ** Functional behaviour *)

(** The CPU record after the interrupt side of [acquire]. *)
Definition pushed (c : cpu) : cpu :=
  mkcpu (c_ncli c + 1) (if decide (c_ncli c = 0) then c_IF c else c_intena c) false (c_proc c).
Definition popped (c : cpu) : cpu :=
  mkcpu (c_ncli c - 1) (c_intena c)
    (if decide (c_ncli c - 1 = 0) then c_intena c else false) (c_proc c).

Lemma set_cpu_set_cpu v w m : set_cpu v (set_cpu w m) = set_cpu v m.
Proof. unfold set_cpu; simpl. by rewrite list_insert_insert_eq. Qed.
Lemma mycpu_set_cpu c v m : m_cpus m !! m_gs m = Some c → mycpu (set_cpu v m) = Ok (v, set_cpu v m).
Proof.
  intros H. unfold mycpu; simpl. rewrite list_lookup_insert_eq; [done|].
  by eapply lookup_lt_Some.
Qed.

Lemma pushcli_eq c m :
  m_cpus m !! m_gs m = Some c → pushcli m = Ok (tt, set_cpu (pushed c) m).
Proof.
  intros Hc. unfold pushcli, cli, upd_cpu, bind, modS.
  unfold mycpu at 1. rewrite Hc. unfold mycpu at 1. rewrite Hc.
  repeat (rewrite (mycpu_set_cpu c) by done; rewrite ?set_cpu_set_cpu).
  simpl. unfold pushed. case_decide.
  - rewrite (mycpu_set_cpu c) by done. by rewrite set_cpu_set_cpu.
  - done.
Qed.

Lemma popcli_eq c m :
  m_cpus m !! m_gs m = Some c → c_IF c = false → 0 < c_ncli c →
  popcli m = Ok (tt, set_cpu (popped c) m).
Proof.
  intros Hc HIF Hn. unfold popcli, sti, upd_cpu, bind, modS.
  unfold mycpu at 1. rewrite Hc, HIF. unfold mycpu at 1. rewrite Hc.
  rewrite (mycpu_set_cpu c) by done. simpl.
  rewrite decide_False by lia. unfold popped.
  destruct c as [n en fl pr]; simpl in *; subst fl. case_decide; [|done].
  destruct en; [|done]. by erewrite mycpu_set_cpu, set_cpu_set_cpu by done.
Qed.

Lemma get_lock_set_lock lk v m : get_lock lk (set_lock lk v m) = v.
Proof. unfold get_lock, set_lock; simpl. by rewrite lookup_insert_eq. Qed.
Lemma get_lock_set_lock_ne lk lk' v m : lk ≠ lk' → get_lock lk' (set_lock lk v m) = get_lock lk' m.
Proof. intros. unfold get_lock, set_lock; simpl. by rewrite lookup_insert_ne. Qed.
Lemma get_lock_set_cpu lk v m : get_lock lk (set_cpu v m) = get_lock lk m.
Proof. done. Qed.

Lemma acquire_eq lk c m :
  m_cpus m !! m_gs m = Some c → lk_locked (get_lock lk m) = false →
  acquire lk m = Ok (tt, set_lock lk (mklock true (Some (m_gs m))) (set_cpu (pushed c) m)).
Proof.
  intros Hc Hl. unfold acquire, bind. rewrite (pushcli_eq c) by done.
  unfold holding, gets, modS, holding_by. simpl.
  rewrite get_lock_set_cpu, Hl. simpl. rewrite get_lock_set_cpu, Hl. done.
Qed.

Lemma release_eq lk c m :
  m_cpus m !! m_gs m = Some c → holding_by (m_gs m) (get_lock lk m) = true →
  c_IF c = false → 0 < c_ncli c →
  release lk m = Ok (tt, set_cpu (popped c) (set_lock lk unlocked m)).
Proof.
  intros Hc Hl HIF Hn. unfold release, bind, holding, gets, modS. rewrite Hl.
  by apply popcli_eq.
Qed.

(** ** The nesting invariant *)

(** Locks held by CPU [c]. *)
Definition held (m : machine) (c : nat) : gmap string spinlock :=
  filter (λ kv, holding_by c kv.2 = true) (m_locks m).

(** Every CPU's nesting depth is the number of locks it holds, and a CPU that
    holds a lock runs with interrupts off. *)
Record lock_inv (m : machine) : Prop := {
  li_gs : (m_gs m < length (m_cpus m))%nat;
  li_ncli : ∀ c cp, m_cpus m !! c = Some cp → c_ncli cp = Z.of_nat (size (held m c));
  li_IF : ∀ c cp, m_cpus m !! c = Some cp → 0 < c_ncli cp → c_IF cp = false
}.

Lemma held_set_cpu v m c : held (set_cpu v m) c = held m c.
Proof. done. Qed.

Lemma held_acquire_me lk m c :
  lk_locked (get_lock lk m) = false →
  size (held (set_lock lk (mklock true (Some c)) m) c) = S (size (held m c)).
Proof.
  intros Hl. unfold held, set_lock; simpl.
  rewrite map_filter_insert_True by (unfold holding_by; simpl; by rewrite bool_decide_true).
  apply map_size_insert_None, map_lookup_filter_None. right. intros x Hx.
  unfold get_lock in Hl. rewrite Hx in Hl. simpl in Hl. unfold holding_by; simpl. by rewrite Hl.
Qed.

Lemma held_acquire_other lk m c c' :
  lk_locked (get_lock lk m) = false → c ≠ c' →
  size (held (set_lock lk (mklock true (Some c)) m) c') = size (held m c').
Proof.
  intros Hl Hne. unfold held, set_lock; simpl.
  rewrite map_filter_insert_False by (unfold holding_by; simpl; rewrite bool_decide_false; congruence).
  f_equal. apply map_eq; intros k.
  apply option_eq; intros x. rewrite !map_lookup_filter_Some, lookup_delete_Some.
  split; [naive_solver|]. intros [Hk Hh]. split_and!; [|done|done].
  intros <-. unfold get_lock in Hl. rewrite Hk in Hl. simpl in *.
  unfold holding_by in Hh. by rewrite Hl in Hh.
Qed.

Lemma held_release_me lk m c :
  holding_by c (get_lock lk m) = true →
  S (size (held (set_lock lk unlocked m) c)) = size (held m c).
Proof.
  intros Hl. unfold held, set_lock; simpl.
  rewrite map_filter_insert_False by done. rewrite map_filter_delete.
  assert (m_locks m !! lk = Some (get_lock lk m)) as Hlk.
  { unfold get_lock in *. by destruct (m_locks m !! lk). }
  rewrite map_size_delete_Some.
  - assert (size (filter (λ kv, holding_by c kv.2 = true) (m_locks m)) ≠ 0%nat); [|lia].
    apply map_size_non_empty_iff. intros He.
    eapply (lookup_empty_Some lk (get_lock lk m)). rewrite <- He.
    by apply map_lookup_filter_Some.
  - exists (get_lock lk m). by apply map_lookup_filter_Some.
Qed.

Lemma held_release_other lk m c c' :
  holding_by c (get_lock lk m) = true → c ≠ c' →
  size (held (set_lock lk unlocked m) c') = size (held m c').
Proof.
  intros Hl Hne. unfold held, set_lock; simpl.
  rewrite map_filter_insert_False by done. f_equal.
  apply map_eq; intros k. apply option_eq; intros x.
  rewrite !map_lookup_filter_Some, lookup_delete_Some.
  split; [naive_solver|]. intros [Hk Hh]. split_and!; [|done|done].
  intros <-. unfold get_lock in Hl. rewrite Hk in Hl. simpl in *.
  unfold holding_by in *. apply andb_true_iff in Hh as [_ Hh%bool_decide_eq_true].
  apply andb_true_iff in Hl as [_ Hl%bool_decide_eq_true]. congruence.
Qed.

Lemma acquire_inv lk m m' : lock_inv m → acquire lk m = Ok (tt, m') → lock_inv m'.
Proof.
  intros [Hgs Hn HIF] Hacq. apply lookup_lt_is_Some in Hgs as [c Hc].
  destruct (lk_locked (get_lock lk m)) eqn:Hl.
  { unfold acquire, bind in Hacq. rewrite (pushcli_eq c) in Hacq by done.
    unfold holding, gets in Hacq. simpl in Hacq. rewrite get_lock_set_cpu in Hacq.
    destruct (holding_by _ _); [done|]. simpl in Hacq.
    rewrite get_lock_set_cpu in Hacq. by rewrite Hl in Hacq. }
  rewrite (acquire_eq lk c) in Hacq by done. injection Hacq as <-.
  assert (m_gs m < length (m_cpus m))%nat by eauto using lookup_lt_Some.
  split; simpl.
  - by rewrite length_insert.
  - intros c' cp [[<- ->]|[Hne Hcp]]%list_lookup_insert_cases.
    + rewrite held_acquire_me, held_set_cpu by done. simpl. rewrite (Hn _ _ Hc). lia.
    + rewrite held_acquire_other by done. by apply Hn.
  - intros c' cp [[<- ->]|[Hne Hcp]]%list_lookup_insert_cases; simpl; eauto.
Qed.

Lemma release_inv lk m m' : lock_inv m → release lk m = Ok (tt, m') → lock_inv m'.
Proof.
  intros [Hgs Hn HIF] Hrel. apply lookup_lt_is_Some in Hgs as [c Hc].
  destruct (holding_by (m_gs m) (get_lock lk m)) eqn:Hl.
  2:{ unfold release, bind, holding, gets in Hrel. by rewrite Hl in Hrel. }
  pose proof (held_release_me lk m (m_gs m) Hl) as Hsz.
  pose proof (Hn _ _ Hc) as Hnc. assert (0 < c_ncli c) by lia.
  rewrite (release_eq lk c) in Hrel by eauto. injection Hrel as <-.
  assert (m_gs m < length (m_cpus m))%nat by eauto using lookup_lt_Some.
  split; simpl.
  - by rewrite length_insert.
  - intros c' cp [[<- ->]|[Hne Hcp]]%list_lookup_insert_cases; rewrite held_set_cpu; simpl.
    + lia.
    + rewrite (held_release_other lk m (m_gs m)) by done. by apply Hn.
  - intros c' cp [[<- ->]|[Hne Hcp]]%list_lookup_insert_cases; simpl; [|by eauto].
    intros. by rewrite decide_False by lia.
Qed.

(** ** Interleavings of the CPUs *)

(** One CPU takes or drops a lock; the others wait their turn. *)
Inductive lock_step : machine → machine → Prop :=
| step_acquire c lk m m' :
    (c < length (m_cpus m))%nat →
    acquire lk (mkmachine c (m_cpus m) (m_locks m)) = Ok (tt, m') → lock_step m m'
| step_release c lk m m' :
    (c < length (m_cpus m))%nat →
    release lk (mkmachine c (m_cpus m) (m_locks m)) = Ok (tt, m') → lock_step m m'.

Lemma lock_inv_gs m c :
  (c < length (m_cpus m))%nat → lock_inv m → lock_inv (mkmachine c (m_cpus m) (m_locks m)).
Proof. intros Hc [_ Hn HIF]. by split. Qed.

Lemma lock_step_inv m m' : lock_step m m' → lock_inv m → lock_inv m'.
Proof.
  intros [c lk m1 m2 Hc Hs|c lk m1 m2 Hc Hs] Hinv;
    eauto using acquire_inv, release_inv, lock_inv_gs.
Qed.

Definition boot_cpu : cpu := mkcpu 0 false true None.
Definition boot_machine (ncpu : nat) : machine :=
  mkmachine 0 (replicate ncpu boot_cpu) ∅.

Lemma boot_lock_inv n : (0 < n)%nat → lock_inv (boot_machine n).
Proof.
  intros. split; simpl.
  - by rewrite length_replicate.
  - intros c cp [-> _]%lookup_replicate. unfold held; simpl. by rewrite map_filter_empty.
  - intros c cp [-> _]%lookup_replicate. done.
Qed.
