(* ===== verification/CString.v ===== *)
(** * Memory and string routines (string.c, ulib.c, sh.c:strncmp)

    Memory is a list of bytes in 0..255.  A routine that only reads through a
    pointer takes the bytes from the pointer on; reading past the last byte of
    the object is [None].  [memmove] works inside one memory, with the offsets
    of its arguments, because its regions may overlap. *)

From S2P Require Import Prelude.
Local Open Scope Z_scope.

(** ** Reference notions *)

(** The C string stored in a buffer: the bytes before the first NUL. *)
Fixpoint cstr (s : list Z) : list Z :=
  match s with
  | [] => []
  | c :: s' => if decide (c = 0) then [] else c :: cstr s'
  end.
(** The buffer holds a terminated string. *)
Definition terminated (s : list Z) : Prop := 0 ∈ s.
(** Replace the bytes from offset [d] on by [l]. *)
Definition splice (mem : list Z) (d : nat) (l : list Z) : list Z :=
  take d mem ++ l ++ drop (d + length l) mem.

(** ** string.c *)

(** [stosb] and [stosl] of x86.h: store [n] bytes, or [n] little-endian words. *)
Definition stosb (dst : list Z) (c : Z) (n : nat) : option (list Z) :=
  if decide (n ≤ length dst)%nat then Some (replicate n (u8 c) ++ drop n dst) else None.
Definition le_bytes (w : Z) : list Z :=
  [Z.land w 255; Z.land (Z.shiftr w 8) 255; Z.land (Z.shiftr w 16) 255; Z.land (Z.shiftr w 24) 255].
Definition stosl (dst : list Z) (w : Z) (n : nat) : option (list Z) :=
  if decide (4 * n ≤ length dst)%nat
  then Some (concat (replicate n (le_bytes (u32 w))) ++ drop (4 * n) dst) else None.

Definition memset (addr : Z) (dst : list Z) (c : Z) (n : nat) : option (list Z) :=
  if decide (addr mod 4 = 0 ∧ Z.of_nat n mod 4 = 0) then
    let c := Z.land c 255 in
    stosl dst (Z.lor (Z.lor (Z.lor (Z.shiftl c 24) (Z.shiftl c 16)) (Z.shiftl c 8)) c) (n / 4)
  else stosb dst c n.

Fixpoint memcmp (s1 s2 : list Z) (n : nat) {struct n} : option Z :=
  match n with
  | O => Some 0
  | S n' =>
      match s1, s2 with
      | a :: s1', b :: s2' => if decide (a = b) then memcmp s1' s2' n' else Some (a - b)
      | _, _ => None
      end
  end.

(** [while(n-- > 0) *--d = *--s] and [while(n-- > 0) *d++ = *s++] *)
Fixpoint copy_down (mem : list Z) (d s n : nat) {struct n} : list Z :=
  match n with
  | O => mem
  | S n' => copy_down (<[(d + n')%nat := nth (s + n')%nat mem 0]> mem) d s n'
  end.
Fixpoint copy_up (mem : list Z) (d s n : nat) {struct n} : list Z :=
  match n with
  | O => mem
  | S n' => copy_up (<[d := nth s mem 0]> mem) (S d) (S s) n'
  end.
Definition memmove (mem : list Z) (d s n : nat) : option (list Z) :=
  if decide (d + n ≤ length mem ∧ s + n ≤ length mem)%nat then
    Some (if decide (s < d ∧ d < s + n)%nat then copy_down mem d s n else copy_up mem d s n)
  else None.

Fixpoint strncmp (p q : list Z) (n : nat) {struct n} : option Z :=
  match n with
  | O => Some 0
  | S n' =>
      match p, q with
      | a :: p', b :: q' =>
          if decide (a ≠ 0 ∧ a = b) then strncmp p' q' n' else Some (a - b)
      | _, _ => None
      end
  end.

(** The second loop of strncpy. *)
Fixpoint zero_fill (s : list Z) (n : nat) {struct n} : option (list Z) :=
  match n with
  | O => Some s
  | S n' => match s with
            | _ :: s' => (cons 0) <$> zero_fill s' n'
            | [] => None
            end
  end.
Fixpoint strncpy (s t : list Z) (n : nat) {struct n} : option (list Z) :=
  match n with
  | O => Some s
  | S n' =>
      match s, t with
      | _ :: s', c :: t' =>
          if decide (c = 0) then (cons 0) <$> zero_fill s' n'
          else (cons c) <$> strncpy s' t' n'
      | _, _ => None
      end
  end.

(** [n] is the value of the counter before [--n]. *)
Fixpoint safestrcpy_loop (s t : list Z) (n : nat) {struct n} : option (list Z) :=
  match n with
  | O => None
  | S O => match s with _ :: s' => Some (0 :: s') | [] => None end
  | S n' =>
      match s, t with
      | _ :: s', c :: t' =>
          if decide (c = 0) then
            match s' with _ :: s'' => Some (0 :: 0 :: s'') | [] => None end
          else (cons c) <$> safestrcpy_loop s' t' n'
      | _, _ => None
      end
  end.
Definition safestrcpy (s t : list Z) (n : Z) : option (list Z) :=
  if decide (n ≤ 0) then Some s else safestrcpy_loop s t (Z.to_nat n).

Fixpoint strlen (s : list Z) : option nat :=
  match s with
  | [] => None
  | c :: s' => if decide (c = 0) then Some O else S <$> strlen s'
  end.

(** ** ulib.c *)
Fixpoint strcpy (s t : list Z) : option (list Z) :=
  match s, t with
  | _ :: s', c :: t' => if decide (c = 0) then Some (0 :: s') else (cons c) <$> strcpy s' t'
  | _, _ => None
  end.

Fixpoint strcmp (p q : list Z) : option Z :=
  match p, q with
  | a :: p', b :: q' => if decide (a ≠ 0 ∧ a = b) then strcmp p' q' else Some (a - b)
  | _, _ => None
  end.

(** The offset of the first [c]; the terminator is not found. *)
Fixpoint strchr (s : list Z) (c : Z) : option (option nat) :=
  match s with
  | [] => None
  | x :: s' =>
      if decide (x = 0) then Some None
      else if decide (x = c) then Some (Some O)
      else option_map (option_map S) (strchr s' c)
  end.

Definition is_digit (c : Z) : bool := bool_decide (48 ≤ c ≤ 57).
Definition is_octal (c : Z) : bool := bool_decide (48 ≤ c ≤ 55).

Fixpoint skip_spaces (s : list Z) : list Z :=
  match s with 32 :: s' => skip_spaces s' | _ => s end.
Fixpoint digits_value (ok : Z → bool) (base : Z) (n : Z) (s : list Z) : Z :=
  match s with
  | c :: s' => if ok c then digits_value ok base (s32 (n * base + c - 48)) s' else n
  | [] => n
  end.
Definition number (ok : Z → bool) (base : Z) (s : list Z) : Z :=
  let s := skip_spaces s in
  let sign := match s with 45 :: _ => -1 | _ => 1 end in
  let s := match s with 43 :: s' | 45 :: s' => s' | _ => s end in
  s32 (sign * digits_value ok base 0 s).
Definition atoi : list Z → Z := number is_digit 10.
Definition atoo : list Z → Z := number is_octal 8.

(** The user-space memmove copies upwards only. *)
Definition umemmove (mem : list Z) (d s n : nat) : option (list Z) :=
  if decide (d + n ≤ length mem ∧ s + n ≤ length mem)%nat then Some (copy_up mem d s n) else None.

(** ** memset: the word path equals the byte path *)
Definition splat (c : Z) : Z :=
  Z.lor (Z.lor (Z.lor (Z.shiftl c 24) (Z.shiftl c 16)) (Z.shiftl c 8)) c.

Lemma le_bytes_splat c : 0 ≤ c < 256 → le_bytes (u32 (splat c)) = [c; c; c; c].
Proof.
  intros Hc.
  assert (Forall (λ n, le_bytes (u32 (splat (Z.of_nat n))) = repeat (Z.of_nat n) 4) (seq 0 256)) as Hall.
  { apply (bool_decide_unpack _). vm_compute. done. }
  rewrite Forall_seq in Hall. specialize (Hall (Z.to_nat c) ltac:(lia)).
  by rewrite Z2Nat.id in Hall by lia.
Qed.

Lemma concat_replicate_four (c : Z) n :
  concat (replicate n [c; c; c; c]) = replicate (4 * n) c.
Proof.
  induction n as [|n IH]; [done|]. replace (4 * S n)%nat with (S (S (S (S (4 * n))))) by lia.
  simpl. by rewrite IH.
Qed.

(** Both paths of memset store the low byte of [c] [n] times and nothing else. *)
Lemma memset_spec addr dst c n :
  memset addr dst c n =
  if decide (n ≤ length dst)%nat then Some (replicate n (u8 c) ++ drop n dst) else None.
Proof.
  unfold memset. case_decide as Hal; [|done]. destruct Hal as [_ Hn].
  assert (∃ q, n = (4 * q)%nat) as [q ->].
  { exists (n / 4)%nat. pose proof (Nat.div_mod_eq n 4).
    assert (n mod 4 = 0)%nat; [|lia]. apply Nat2Z.inj. by rewrite Nat2Z.inj_mod. }
  replace (4 * q / 4)%nat with q by (rewrite Nat.mul_comm, Nat.div_mul; lia).
  unfold stosl. fold (splat (Z.land c 255)).
  assert (Z.land c 255 = u8 c) as ->.
  { unfold u8. change 255 with (Z.ones 8). by rewrite Z.land_ones by lia. }
  rewrite le_bytes_splat by apply u8_range. by rewrite concat_replicate_four.
Qed.

(** ** memmove: correct for overlapping regions *)
Lemma length_copy_down mem d s n : length (copy_down mem d s n) = length mem.
Proof.
  revert mem. induction n as [|n IH]; intros mem; simpl; [done|]. by rewrite IH, length_insert.
Qed.
Lemma length_copy_up mem d s n : length (copy_up mem d s n) = length mem.
Proof.
  revert mem d s. induction n as [|n IH]; intros mem d s; simpl; [done|].
  by rewrite IH, length_insert.
Qed.

Lemma nth_insert (l : list Z) i j x d :
  (i < length l)%nat → nth j (<[i := x]> l) d = if decide (i = j) then x else nth j l d.
Proof.
  intros Hi. rewrite !nth_lookup. case_decide as Hij.
  - subst. by rewrite list_lookup_insert_eq.
  - by rewrite list_lookup_insert_ne.
Qed.

(** Going down, a byte is overwritten only after it was read. *)
Lemma copy_down_nth mem d s n j :
  (s < d)%nat → (d + n ≤ length mem)%nat →
  nth j (copy_down mem d s n) 0 =
  if decide (d ≤ j < d + n)%nat then nth (s + (j - d)) mem 0 else nth j mem 0.
Proof.
  revert mem. induction n as [|n IH]; intros mem Hsd Hlen; simpl.
  - rewrite decide_False by lia. done.
  - rewrite IH by (rewrite ?length_insert; lia). rewrite !nth_insert by lia.
    repeat case_decide; try lia; try done; f_equal; lia.
Qed.

Lemma copy_up_nth mem d s n j :
  (d ≤ s ∨ s + n ≤ d)%nat → (d + n ≤ length mem)%nat →
  nth j (copy_up mem d s n) 0 =
  if decide (d ≤ j < d + n)%nat then nth (s + (j - d)) mem 0 else nth j mem 0.
Proof.
  revert mem d s. induction n as [|n IH]; intros mem d s Hsd Hlen; simpl.
  - rewrite decide_False by lia. done.
  - rewrite IH by (rewrite ?length_insert; lia). rewrite !nth_insert by lia.
    repeat case_decide; try lia; try done; f_equal; lia.
Qed.

Lemma nth_splice mem d l j :
  (d + length l ≤ length mem)%nat →
  nth j (splice mem d l) 0 =
  if decide (d ≤ j < d + length l)%nat then nth (j - d) l 0 else nth j mem 0.
Proof.
  intros Hlen. unfold splice. rewrite !nth_lookup.
  assert (length (take d mem) = d) as Htd by (rewrite length_take; lia).
  case_decide as Hj.
  - rewrite lookup_app_r, Htd by lia. rewrite lookup_app_l by lia. done.
  - destruct (decide (j < d)%nat).
    + rewrite lookup_app_l by lia. by rewrite lookup_take_lt by lia.
    + rewrite !lookup_app_r, Htd by lia. rewrite lookup_drop. do 2 f_equal. lia.
Qed.

Lemma length_splice mem d l : (d + length l ≤ length mem)%nat → length (splice mem d l) = length mem.
Proof. intros. unfold splice. rewrite !length_app, length_take, length_drop. lia. Qed.

Lemma list_eq_nth (l1 l2 : list Z) :
  length l1 = length l2 → (∀ j, nth j l1 0 = nth j l2 0) → l1 = l2.
Proof.
  intros Hlen Hn. apply list_eq_same_length with (length l1); [done|done|].
  intros i x y Hi Hx Hy. specialize (Hn i). rewrite !nth_lookup, Hx, Hy in Hn. done.
Qed.

Lemma copy_is_splice mem d s n r :
  (d + n ≤ length mem)%nat → (s + n ≤ length mem)%nat → length r = length mem →
  (∀ j, nth j r 0 = if decide (d ≤ j < d + n)%nat then nth (s + (j - d)) mem 0 else nth j mem 0) →
  r = splice mem d (take n (drop s mem)).
Proof.
  intros Hd Hs Hr Hj.
  assert (length (take n (drop s mem)) = n) as Hl by (rewrite length_take, length_drop; lia).
  apply list_eq_nth; [by rewrite length_splice, Hr by lia|]. intros j.
  rewrite Hj, nth_splice, Hl by lia. case_decide; [|done].
  rewrite !nth_lookup, lookup_take_lt, lookup_drop by lia. done.
Qed.

Lemma memmove_spec mem d s n :
  memmove mem d s n =
  if decide (d + n ≤ length mem ∧ s + n ≤ length mem)%nat
  then Some (splice mem d (take n (drop s mem))) else None.
Proof.
  unfold memmove. case_decide as Hb; [|done]. destruct Hb as [Hd Hs]. f_equal. case_decide.
  - apply (copy_is_splice _ d s n); [done|done|apply length_copy_down|].
    intros j. apply copy_down_nth; lia.
  - apply (copy_is_splice _ d s n); [done|done|apply length_copy_up|].
    intros j. apply copy_up_nth; lia.
Qed.

(** ** Strings *)
Lemma strlen_spec s : terminated s → strlen s = Some (length (cstr s)).
Proof.
  unfold terminated. induction s as [|c s IH]; simpl; [set_solver|]. intros Hin.
  case_decide; [done|]. rewrite IH by set_solver. done.
Qed.

Lemma cstr_nonzero s : 0 ∉ cstr s.
Proof. induction s as [|c s IH]; simpl; [set_solver|]. case_decide; set_solver. Qed.

Lemma zero_fill_spec s n :
  (n ≤ length s)%nat → zero_fill s n = Some (replicate n 0 ++ drop n s).
Proof.
  revert s. induction n as [|n IH]; intros [|c s]; simpl; intros; try done; [lia|].
  rewrite IH by lia. done.
Qed.

(** strncpy writes exactly [n] bytes: the string, cut at [n], padded with NULs. *)
Lemma strncpy_spec s t n :
  terminated t → (n ≤ length s)%nat →
  strncpy s t n = Some (take n (cstr t ++ replicate n 0) ++ drop n s).
Proof.
  revert s t. induction n as [|n IH]; intros s t Ht Hn; [done|].
  destruct s as [|x s]; [simpl in Hn; lia|]. unfold terminated in Ht.
  destruct t as [|c t]; [set_solver|]. simpl. case_decide as Hc.
  - rewrite zero_fill_spec by (simpl in Hn; lia). simpl.
    by rewrite firstn_all2 by (rewrite length_replicate; lia).
  - rewrite IH; [|set_solver|simpl in Hn; lia]. simpl. do 3 f_equal.
    change (0 :: replicate n 0) with (replicate (S n) 0).
    rewrite replicate_S_end, app_assoc, (take_app_le (cstr t ++ replicate n 0)); [done|].
    rewrite length_app, length_replicate. lia.
Qed.

Lemma safestrcpy_loop_SS x s c t n :
  safestrcpy_loop (x :: s) (c :: t) (S (S n)) =
  if decide (c = 0) then match s with _ :: s'' => Some (0 :: 0 :: s'') | [] => None end
  else (cons c) <$> safestrcpy_loop s t (S n).
Proof. done. Qed.

Lemma safestrcpy_loop_spec s t n :
  (0 < n)%nat → (n ≤ length s)%nat → (terminated t ∨ n ≤ length t)%nat →
  ∃ s', safestrcpy_loop s t n = Some s' ∧ length s' = length s ∧
        cstr s' = take (n - 1) (cstr t) ∧ terminated s' ∧ drop n s' = drop n s.
Proof.
  unfold terminated. revert s t. induction n as [|n IH]; intros s t Hn Hs Ht; [lia|].
  destruct s as [|x s]; [simpl in Hs; lia|]. destruct n as [|n].
  { simpl. eexists. split_and!; [done|done|by rewrite take_0|set_solver|done]. }
  destruct t as [|c t]; [destruct Ht as [Ht|Ht]; [set_solver|simpl in Ht; lia]|].
  rewrite safestrcpy_loop_SS. case_decide as Hc.
  - destruct s as [|y s]; [simpl in Hs; lia|]. eexists.
    split_and!; [done|done| |set_solver|done].
    by subst c.
  - destruct (IH s t) as (s' & -> & Hl & Hcs & Hz & Hd).
    + lia.
    + simpl in Hs. lia.
    + destruct Ht as [Ht|Ht]; [left; set_solver|right; simpl in Ht; lia].
    + simpl. eexists. split_and!; [done|simpl; lia| |set_solver|].
      * simpl. rewrite !decide_False by done. rewrite Hcs. simpl.
        by replace (n - 0)%nat with n by lia.
      * simpl. done.
Qed.
