(* ===== verification/ProcData.v ===== *)
(** * Data of the process subsystem (proc.h, param.h, the structures of proc.c)

    A pointer to an entry of [ptable.proc] is the index of the entry, the null
    pointer is [None].  Page tables, stacks, files and inodes are named by the
    value of their pointers; what they hold belongs to other components. *)

From S2P Require Import Prelude Spinlock.
Local Open Scope Z_scope.

(** ** param.h *)
Definition NPROC : nat := 64.
Definition KSTACKSIZE : Z := 4096.
Definition NOFILE : nat := 16.
Definition TIME_TO_PROMOTE : Z := 270.
Definition MAX : Z := 2.
Definition BUDGET : Z := 120.
Definition UID : Z := 0.
Definition GID : Z := 0.
Definition PGSIZE : Z := 4096.

(** ** proc.h *)
Inductive procstate := UNUSED | EMBRYO | SLEEPING | RUNNABLE | RUNNING | ZOMBIE.
#[export] Instance procstate_eq_dec : EqDecision procstate.
Proof. solve_decision. Defined.

(** A sleep channel is an address: null, that of a process, or any other. *)
Inductive chan := ChNull | ChProc (i : nat) | ChAddr (a : Z).
#[export] Instance chan_eq_dec : EqDecision chan.
Proof. solve_decision. Defined.
Definition chan_of_proc (p : option nat) : chan :=
  match p with Some i => ChProc i | None => ChNull end.

(** Where a process that left the CPU through [swtch] resumes, with the
    [intena] that its frame of [sched] saved. *)
Inductive kcontext :=
| K_none                                      (* never ran, no context *)
| K_forkret                                   (* context->eip = forkret *)
| K_yield (intena : bool)                     (* in sched, called by yield *)
| K_sleep (intena : bool) (lk : option string)(* in sched, called by sleep *)
| K_exit.                                     (* in sched, called by exit *)

(** The registers of [struct trapframe] that the kernel's C code reads or writes. *)
Record trapframe := mktf {
  tf_eax : Z; tf_cs : Z; tf_ds : Z; tf_es : Z; tf_ss : Z;
  tf_eflags : Z; tf_esp : Z; tf_eip : Z
}.
Definition zero_frame : trapframe := mktf 0 0 0 0 0 0 0 0.
Definition set_eax (v : Z) (t : trapframe) : trapframe :=
  mktf v (tf_cs t) (tf_ds t) (tf_es t) (tf_ss t) (tf_eflags t) (tf_esp t) (tf_eip t).

Record proc := mkproc {
  p_sz : Z  (* size of process memory (bytes) *);
  p_pgdir : Z  (* page table, 0 when none *);
  p_kstack : Z  (* bottom of the kernel stack, 0 when none *);
  p_state : procstate;
  p_pid : Z  (* process ID (uint) *);
  p_parent : option nat  (* parent process *);
  p_tf : Z  (* address of the trap frame *);
  p_frame : trapframe  (* the trap frame at tf *);
  p_context : Z  (* address of the saved context *);
  p_saved : kcontext  (* the context saved there: where swtch resumes *);
  p_chan : chan  (* if not null, sleeping on chan *);
  p_killed : Z  (* if non-zero, have been killed *);
  p_ofile : list (option nat)  (* open files: indices into ftable *);
  p_cwd : option nat  (* current directory: index into icache *);
  p_name : list Z  (* process name, 16 bytes *);
  p_start_ticks : Z;
  p_uid : Z;
  p_gid : Z;
  p_cpu_ticks_total : Z;
  p_cpu_ticks_in : Z;
  p_next : option nat  (* next process of the list it is on *);
  p_priority : Z  (* uint *);
  p_budget : Z  (* int *)
}.

Definition set_p_sz (v : Z) (x : proc) : proc :=
  mkproc v (p_pgdir x) (p_kstack x) (p_state x) (p_pid x) (p_parent x) (p_tf x) (p_frame x)
    (p_context x) (p_saved x) (p_chan x) (p_killed x) (p_ofile x) (p_cwd x) (p_name x) (p_start_ticks x)
    (p_uid x) (p_gid x) (p_cpu_ticks_total x) (p_cpu_ticks_in x) (p_next x) (p_priority x) (p_budget x).
Definition set_p_pgdir (v : Z) (x : proc) : proc :=
  mkproc (p_sz x) v (p_kstack x) (p_state x) (p_pid x) (p_parent x) (p_tf x) (p_frame x) (p_context
    x) (p_saved x) (p_chan x) (p_killed x) (p_ofile x) (p_cwd x) (p_name x) (p_start_ticks x) (p_uid x)
    (p_gid x) (p_cpu_ticks_total x) (p_cpu_ticks_in x) (p_next x) (p_priority x) (p_budget x).
Definition set_p_kstack (v : Z) (x : proc) : proc :=
  mkproc (p_sz x) (p_pgdir x) v (p_state x) (p_pid x) (p_parent x) (p_tf x) (p_frame x) (p_context
    x) (p_saved x) (p_chan x) (p_killed x) (p_ofile x) (p_cwd x) (p_name x) (p_start_ticks x) (p_uid x)
    (p_gid x) (p_cpu_ticks_total x) (p_cpu_ticks_in x) (p_next x) (p_priority x) (p_budget x).
Definition set_p_state (v : procstate) (x : proc) : proc :=
  mkproc (p_sz x) (p_pgdir x) (p_kstack x) v (p_pid x) (p_parent x) (p_tf x) (p_frame x) (p_context
    x) (p_saved x) (p_chan x) (p_killed x) (p_ofile x) (p_cwd x) (p_name x) (p_start_ticks x) (p_uid x)
    (p_gid x) (p_cpu_ticks_total x) (p_cpu_ticks_in x) (p_next x) (p_priority x) (p_budget x).
Definition set_p_pid (v : Z) (x : proc) : proc :=
  mkproc (p_sz x) (p_pgdir x) (p_kstack x) (p_state x) v (p_parent x) (p_tf x) (p_frame x)
    (p_context x) (p_saved x) (p_chan x) (p_killed x) (p_ofile x) (p_cwd x) (p_name x) (p_start_ticks x)
    (p_uid x) (p_gid x) (p_cpu_ticks_total x) (p_cpu_ticks_in x) (p_next x) (p_priority x) (p_budget x).
Definition set_p_parent (v : option nat) (x : proc) : proc :=
  mkproc (p_sz x) (p_pgdir x) (p_kstack x) (p_state x) (p_pid x) v (p_tf x) (p_frame x) (p_context
    x) (p_saved x) (p_chan x) (p_killed x) (p_ofile x) (p_cwd x) (p_name x) (p_start_ticks x) (p_uid x)
    (p_gid x) (p_cpu_ticks_total x) (p_cpu_ticks_in x) (p_next x) (p_priority x) (p_budget x).
Definition set_p_tf (v : Z) (x : proc) : proc :=
  mkproc (p_sz x) (p_pgdir x) (p_kstack x) (p_state x) (p_pid x) (p_parent x) v (p_frame x)
    (p_context x) (p_saved x) (p_chan x) (p_killed x) (p_ofile x) (p_cwd x) (p_name x) (p_start_ticks x)
    (p_uid x) (p_gid x) (p_cpu_ticks_total x) (p_cpu_ticks_in x) (p_next x) (p_priority x) (p_budget x).
Definition set_p_frame (v : trapframe) (x : proc) : proc :=
  mkproc (p_sz x) (p_pgdir x) (p_kstack x) (p_state x) (p_pid x) (p_parent x) (p_tf x) v (p_context
    x) (p_saved x) (p_chan x) (p_killed x) (p_ofile x) (p_cwd x) (p_name x) (p_start_ticks x) (p_uid x)
    (p_gid x) (p_cpu_ticks_total x) (p_cpu_ticks_in x) (p_next x) (p_priority x) (p_budget x).
Definition set_p_context (v : Z) (x : proc) : proc :=
  mkproc (p_sz x) (p_pgdir x) (p_kstack x) (p_state x) (p_pid x) (p_parent x) (p_tf x) (p_frame x) v
    (p_saved x) (p_chan x) (p_killed x) (p_ofile x) (p_cwd x) (p_name x) (p_start_ticks x) (p_uid x)
    (p_gid x) (p_cpu_ticks_total x) (p_cpu_ticks_in x) (p_next x) (p_priority x) (p_budget x).
Definition set_p_saved (v : kcontext) (x : proc) : proc :=
  mkproc (p_sz x) (p_pgdir x) (p_kstack x) (p_state x) (p_pid x) (p_parent x) (p_tf x) (p_frame x)
    (p_context x) v (p_chan x) (p_killed x) (p_ofile x) (p_cwd x) (p_name x) (p_start_ticks x) (p_uid x)
    (p_gid x) (p_cpu_ticks_total x) (p_cpu_ticks_in x) (p_next x) (p_priority x) (p_budget x).
Definition set_p_chan (v : chan) (x : proc) : proc :=
  mkproc (p_sz x) (p_pgdir x) (p_kstack x) (p_state x) (p_pid x) (p_parent x) (p_tf x) (p_frame x)
    (p_context x) (p_saved x) v (p_killed x) (p_ofile x) (p_cwd x) (p_name x) (p_start_ticks x) (p_uid
    x) (p_gid x) (p_cpu_ticks_total x) (p_cpu_ticks_in x) (p_next x) (p_priority x) (p_budget x).
Definition set_p_killed (v : Z) (x : proc) : proc :=
  mkproc (p_sz x) (p_pgdir x) (p_kstack x) (p_state x) (p_pid x) (p_parent x) (p_tf x) (p_frame x)
    (p_context x) (p_saved x) (p_chan x) v (p_ofile x) (p_cwd x) (p_name x) (p_start_ticks x) (p_uid x)
    (p_gid x) (p_cpu_ticks_total x) (p_cpu_ticks_in x) (p_next x) (p_priority x) (p_budget x).
Definition set_p_ofile (v : list (option nat)) (x : proc) : proc :=
  mkproc (p_sz x) (p_pgdir x) (p_kstack x) (p_state x) (p_pid x) (p_parent x) (p_tf x) (p_frame x)
    (p_context x) (p_saved x) (p_chan x) (p_killed x) v (p_cwd x) (p_name x) (p_start_ticks x) (p_uid x)
    (p_gid x) (p_cpu_ticks_total x) (p_cpu_ticks_in x) (p_next x) (p_priority x) (p_budget x).
Definition set_p_cwd (v : option nat) (x : proc) : proc :=
  mkproc (p_sz x) (p_pgdir x) (p_kstack x) (p_state x) (p_pid x) (p_parent x) (p_tf x) (p_frame x)
    (p_context x) (p_saved x) (p_chan x) (p_killed x) (p_ofile x) v (p_name x) (p_start_ticks x) (p_uid
    x) (p_gid x) (p_cpu_ticks_total x) (p_cpu_ticks_in x) (p_next x) (p_priority x) (p_budget x).
Definition set_p_name (v : list Z) (x : proc) : proc :=
  mkproc (p_sz x) (p_pgdir x) (p_kstack x) (p_state x) (p_pid x) (p_parent x) (p_tf x) (p_frame x)
    (p_context x) (p_saved x) (p_chan x) (p_killed x) (p_ofile x) (p_cwd x) v (p_start_ticks x) (p_uid
    x) (p_gid x) (p_cpu_ticks_total x) (p_cpu_ticks_in x) (p_next x) (p_priority x) (p_budget x).
Definition set_p_start_ticks (v : Z) (x : proc) : proc :=
  mkproc (p_sz x) (p_pgdir x) (p_kstack x) (p_state x) (p_pid x) (p_parent x) (p_tf x) (p_frame x)
    (p_context x) (p_saved x) (p_chan x) (p_killed x) (p_ofile x) (p_cwd x) (p_name x) v (p_uid x)
    (p_gid x) (p_cpu_ticks_total x) (p_cpu_ticks_in x) (p_next x) (p_priority x) (p_budget x).
Definition set_p_uid (v : Z) (x : proc) : proc :=
  mkproc (p_sz x) (p_pgdir x) (p_kstack x) (p_state x) (p_pid x) (p_parent x) (p_tf x) (p_frame x)
    (p_context x) (p_saved x) (p_chan x) (p_killed x) (p_ofile x) (p_cwd x) (p_name x) (p_start_ticks x)
    v (p_gid x) (p_cpu_ticks_total x) (p_cpu_ticks_in x) (p_next x) (p_priority x) (p_budget x).
Definition set_p_gid (v : Z) (x : proc) : proc :=
  mkproc (p_sz x) (p_pgdir x) (p_kstack x) (p_state x) (p_pid x) (p_parent x) (p_tf x) (p_frame x)
    (p_context x) (p_saved x) (p_chan x) (p_killed x) (p_ofile x) (p_cwd x) (p_name x) (p_start_ticks x)
    (p_uid x) v (p_cpu_ticks_total x) (p_cpu_ticks_in x) (p_next x) (p_priority x) (p_budget x).
Definition set_p_cpu_ticks_total (v : Z) (x : proc) : proc :=
  mkproc (p_sz x) (p_pgdir x) (p_kstack x) (p_state x) (p_pid x) (p_parent x) (p_tf x) (p_frame x)
    (p_context x) (p_saved x) (p_chan x) (p_killed x) (p_ofile x) (p_cwd x) (p_name x) (p_start_ticks x)
    (p_uid x) (p_gid x) v (p_cpu_ticks_in x) (p_next x) (p_priority x) (p_budget x).
Definition set_p_cpu_ticks_in (v : Z) (x : proc) : proc :=
  mkproc (p_sz x) (p_pgdir x) (p_kstack x) (p_state x) (p_pid x) (p_parent x) (p_tf x) (p_frame x)
    (p_context x) (p_saved x) (p_chan x) (p_killed x) (p_ofile x) (p_cwd x) (p_name x) (p_start_ticks x)
    (p_uid x) (p_gid x) (p_cpu_ticks_total x) v (p_next x) (p_priority x) (p_budget x).
Definition set_p_next (v : option nat) (x : proc) : proc :=
  mkproc (p_sz x) (p_pgdir x) (p_kstack x) (p_state x) (p_pid x) (p_parent x) (p_tf x) (p_frame x)
    (p_context x) (p_saved x) (p_chan x) (p_killed x) (p_ofile x) (p_cwd x) (p_name x) (p_start_ticks x)
    (p_uid x) (p_gid x) (p_cpu_ticks_total x) (p_cpu_ticks_in x) v (p_priority x) (p_budget x).
Definition set_p_priority (v : Z) (x : proc) : proc :=
  mkproc (p_sz x) (p_pgdir x) (p_kstack x) (p_state x) (p_pid x) (p_parent x) (p_tf x) (p_frame x)
    (p_context x) (p_saved x) (p_chan x) (p_killed x) (p_ofile x) (p_cwd x) (p_name x) (p_start_ticks x)
    (p_uid x) (p_gid x) (p_cpu_ticks_total x) (p_cpu_ticks_in x) (p_next x) v (p_budget x).
Definition set_p_budget (v : Z) (x : proc) : proc :=
  mkproc (p_sz x) (p_pgdir x) (p_kstack x) (p_state x) (p_pid x) (p_parent x) (p_tf x) (p_frame x)
    (p_context x) (p_saved x) (p_chan x) (p_killed x) (p_ofile x) (p_cwd x) (p_name x) (p_start_ticks x)
    (p_uid x) (p_gid x) (p_cpu_ticks_total x) (p_cpu_ticks_in x) (p_next x) (p_priority x) v.

(** Static storage: every byte zero. *)
Definition zero_proc : proc :=
  mkproc 0 0 0 UNUSED 0 None 0 zero_frame 0 K_none ChNull 0 (replicate NOFILE None) None
    (replicate 16 0) 0 0 0 0 0 None 0 0.

(** ** The lists of proc.c *)
Record StateLists := mklists {
  l_ready : list (option nat);  (* ready[MAX+1], RUNNABLE *)
  l_free : option nat;          (* UNUSED *)
  l_sleep : option nat;         (* SLEEPING *)
  l_zombie : option nat;        (* ZOMBIE *)
  l_running : option nat;       (* RUNNING *)
  l_embryo : option nat         (* EMBRYO *)
}.
Definition zero_lists : StateLists := mklists (replicate 3 None) None None None None None.

Record ptable := mkptable {
  pt_proc : list proc;
  pt_pLists : StateLists;
  pt_promoteAtTime : Z
}.
Definition set_pt_proc (v : list proc) (t : ptable) : ptable :=
  mkptable v (pt_pLists t) (pt_promoteAtTime t).
Definition set_pt_pLists (v : StateLists) (t : ptable) : ptable :=
  mkptable (pt_proc t) v (pt_promoteAtTime t).
Definition set_pt_promoteAtTime (v : Z) (t : ptable) : ptable :=
  mkptable (pt_proc t) (pt_pLists t) v.
Definition zero_ptable : ptable := mkptable (replicate NPROC zero_proc) zero_lists 0.

(** The address of a list head: a field of [ptable.pLists]. *)
Inductive slist := LReady (i : Z) | LFree | LSleep | LZombie | LRunning | LEmbryo.
#[export] Instance slist_eq_dec : EqDecision slist.
Proof. solve_decision. Defined.

(** The head stored there; [None] when the index of [ready] is out of bounds. *)
Definition get_head (k : slist) (L : StateLists) : option (option nat) :=
  match k with
  | LReady i => if decide (0 ≤ i) then l_ready L !! Z.to_nat i else None
  | LFree => Some (l_free L)
  | LSleep => Some (l_sleep L)
  | LZombie => Some (l_zombie L)
  | LRunning => Some (l_running L)
  | LEmbryo => Some (l_embryo L)
  end.
Definition set_head (k : slist) (h : option nat) (L : StateLists) : StateLists :=
  match k with
  | LReady i => mklists (<[Z.to_nat i := h]> (l_ready L)) (l_free L) (l_sleep L) (l_zombie L)
                  (l_running L) (l_embryo L)
  | LFree => mklists (l_ready L) h (l_sleep L) (l_zombie L) (l_running L) (l_embryo L)
  | LSleep => mklists (l_ready L) (l_free L) h (l_zombie L) (l_running L) (l_embryo L)
  | LZombie => mklists (l_ready L) (l_free L) (l_sleep L) h (l_running L) (l_embryo L)
  | LRunning => mklists (l_ready L) (l_free L) (l_sleep L) (l_zombie L) h (l_embryo L)
  | LEmbryo => mklists (l_ready L) (l_free L) (l_sleep L) (l_zombie L) (l_running L) h
  end.

(** The list a process belongs on, by its state and its priority. *)
Definition list_of (p : proc) : slist :=
  match p_state p with
  | UNUSED => LFree
  | EMBRYO => LEmbryo
  | SLEEPING => LSleep
  | RUNNABLE => LReady (p_priority p)
  | RUNNING => LRunning
  | ZOMBIE => LZombie
  end.

(** ** Lemmas on the list heads *)
Lemma get_set_head k h h' L : get_head k L = Some h' → get_head k (set_head k h L) = Some h.
Proof.
  destruct k; simpl; try done. case_decide; [|done].
  intros Hl%lookup_lt_Some. by apply list_lookup_insert_eq.
Qed.

Lemma get_set_head_ne k k' h h' L :
  k ≠ k' → get_head k L = Some h' → get_head k' (set_head k h L) = get_head k' L.
Proof.
  intros Hne Hk. destruct k as [i| | | | |], k' as [j| | | | |]; simpl; try done.
  simpl in Hk. case_decide; [|done]. case_decide; [|done].
  apply list_lookup_insert_ne. intros Hij. apply Hne. f_equal. lia.
Qed.

Lemma length_ready_set_head k h L : length (l_ready (set_head k h L)) = length (l_ready L).
Proof. destruct k; simpl; try done. by rewrite length_insert. Qed.
