(* ===== verification/ProcList.v ===== *)
(** * The state lists of proc.c (addToStateListHead and its companions)

    The eight lists of [ptable.pLists] are singly linked through the [next]
    field of the process entries.  The operations below follow the pointer
    manipulation of the code; [wfx] relates the heap they work on to one
    abstract list of process indices per head, and the [wp_] lemmas show that
    they implement insertion and removal on those abstract lists. *)

From S2P Require Import Prelude Spinlock ProcData.
Local Open Scope Z_scope.

(** ** Operations *)
Definition get_proc (i : nat) : M ptable proc := λ t,
  match pt_proc t !! i with Some p => Ok (p, t) | None => Fault end.
Definition upd_proc (i : nat) (f : proc → proc) : M ptable unit := λ t,
  match pt_proc t !! i with
  | Some p => Ok (tt, set_pt_proc (<[i := f p]> (pt_proc t)) t)
  | None => Fault
  end.
Definition get_list (k : slist) : M ptable (option nat) := λ t,
  match get_head k (pt_pLists t) with Some h => Ok (h, t) | None => Fault end.
Definition set_list (k : slist) (h : option nat) : M ptable unit := λ t,
  match get_head k (pt_pLists t) with
  | Some _ => Ok (tt, set_pt_pLists (set_head k h (pt_pLists t)) t)
  | None => Fault
  end.

(** Loops over a list run at most once per entry of the table. *)
Definition walk_fuel : nat := S NPROC.

Definition assertState (p : option nat) (st : procstate) : M ptable unit :=
  match p with
  | None => panic "assertState: invalid proc argument."
  | Some i =>
      let! pr := get_proc i in
      if decide (p_state pr = st) then skip
      else panic "assertState: process in wrong state."
  end.

Definition addToStateListHead (k : slist) (p : option nat) : M ptable Z :=
  match p with
  | None => panic "Invalid process."
  | Some i =>
      let! hd := get_list k in
      match hd with
      | None =>
          set_list k (Some i) ;;; upd_proc i (set_p_next None) ;;; ret 0
      | Some _ =>
          upd_proc i (set_p_next hd) ;;; set_list k (Some i) ;;;
          let! hd' := get_list k in
          if decide (hd' = Some i) then ret 0 else ret (-1)
      end
  end.

(** [while (current->next) current = current->next] *)
Fixpoint last_of (fuel : nat) (current : nat) : M ptable nat :=
  match fuel with
  | O => diverge
  | S f =>
      let! c := get_proc current in
      match p_next c with
      | None => ret current
      | Some n => last_of f n
      end
  end.

Definition addToStateListEnd (k : slist) (p : option nat) : M ptable Z :=
  match p with
  | None => panic "Invalid process."
  | Some i =>
      let! hd := get_list k in
      match hd with
      | None =>
          set_list k (Some i) ;;; upd_proc i (set_p_next None) ;;; ret 0
      | Some h =>
          let! current := last_of walk_fuel h in
          upd_proc current (set_p_next (Some i)) ;;;
          upd_proc i (set_p_next None) ;;;
          ret 0
      end
  end.

(** The search of removeFromStateList past the head. *)
Fixpoint remove_walk (fuel : nat) (prev : nat) (current : option nat) (i : nat) : M ptable Z :=
  match fuel with
  | O => diverge
  | S f =>
      match current with
      | None => ret (-1)
      | Some c =>
          let! pc := get_proc c in
          if decide (c = i) then
            upd_proc prev (set_p_next (p_next pc)) ;;;
            upd_proc i (set_p_next None) ;;;
            ret 0
          else remove_walk f c (p_next pc) i
      end
  end.

Definition removeFromStateList (k : slist) (p : option nat) : M ptable Z :=
  match p with
  | None => panic "Invalid process structures."
  | Some i =>
      let! hd := get_list k in
      match hd with
      | None => ret (-1)
      | Some h =>
          if decide (i = h) then
            let! ph := get_proc h in
            match p_next ph with
            | None => set_list k None ;;; upd_proc i (set_p_next None) ;;; ret 0
            | Some temp =>
                upd_proc i (set_p_next None) ;;; set_list k (Some temp) ;;; ret 0
            end
          else
            let! ph := get_proc h in
            remove_walk walk_fuel h (p_next ph) i
      end
  end.

Definition removeHead (k : slist) : M ptable (option nat) :=
  let! hd := get_list k in
  match hd with
  | None => ret None
  | Some h =>
      let! ph := get_proc h in
      let temp := p_next ph in
      upd_proc h (set_p_next None) ;;;
      set_list k temp ;;;
      ret (Some h)
  end.

Lemma set_head_id k h L : get_head k L = Some h → set_head k h L = L.
Proof.
  destruct L, k; simpl; try (intros; simplify_eq; done).
  case_decide; [|done]. intros Hl. by rewrite list_insert_id.
Qed.

(** ** List segments in the process table *)

(** Following [next] from [h] visits [l] and then reaches [e]. *)
Fixpoint lseg (t : list proc) (h : option nat) (l : list nat) (e : option nat) : Prop :=
  match l with
  | [] => h = e
  | i :: l' => h = Some i ∧ ∃ p, t !! i = Some p ∧ lseg t (p_next p) l' e
  end.
Abbreviation chain t h l := (lseg t h l None).

Lemma lseg_app t h l1 l2 e : lseg t h (l1 ++ l2) e ↔ ∃ m, lseg t h l1 m ∧ lseg t m l2 e.
Proof.
  revert h. induction l1 as [|i l1 IH]; intros h; simpl.
  - split; [eauto|]. by intros (m & -> & ?).
  - split.
    + intros (-> & p & Hp & (m & ? & ?)%IH). naive_solver.
    + intros (m & (-> & p & Hp & ?) & ?). split; [done|]. exists p. split; [done|].
      apply IH; eauto.
Qed.

Lemma lseg_frame t t' h l e :
  lseg t h l e → (∀ i, i ∈ l → p_next <$> t' !! i = p_next <$> t !! i) → lseg t' h l e.
Proof.
  revert h. induction l as [|i l IH]; intros h; simpl; [done|].
  intros (-> & p & Hp & Hl) Hfr. split; [done|].
  pose proof (Hfr i ltac:(set_solver)) as Hi. rewrite Hp in Hi.
  destruct (t' !! i) as [p'|]; simplify_eq/=. exists p'. split; [done|].
  apply IH; [congruence|]. set_solver.
Qed.

Lemma lseg_lookup t h l e i : lseg t h l e → i ∈ l → is_Some (t !! i).
Proof.
  revert h. induction l as [|j l IH]; intros h; simpl; [set_solver|].
  intros (-> & p & Hp & Hl) [->|Hi]%elem_of_cons; eauto.
Qed.

Lemma chain_det t h l1 l2 : chain t h l1 → chain t h l2 → l1 = l2.
Proof.
  revert h l2. induction l1 as [|i l1 IH]; intros h [|j l2]; simpl; naive_solver.
Qed.

Lemma chain_NoDup t h l : chain t h l → NoDup l.
Proof.
  revert h. induction l as [|i l IH]; intros h Hl; [constructor|].
  pose proof Hl as (-> & p & Hp & Hl'). constructor; [|eauto].
  intros (l1 & l2 & ->)%list_elem_of_split.
  apply lseg_app in Hl' as (m & _ & Hm). pose proof Hm as [-> _].
  pose proof (chain_det _ _ _ _ Hl Hm) as Heq.
  apply (f_equal length) in Heq. simpl in Heq. rewrite length_app in Heq. simpl in Heq. lia.
Qed.

Lemma chain_length t h l : chain t h l → (length l ≤ length t)%nat.
Proof.
  intros Hl. apply NoDup_bounded_length; [by eapply chain_NoDup|].
  intros i Hi. apply lookup_lt_is_Some. by eapply lseg_lookup.
Qed.

Lemma chain_cons_inv t i l :
  chain t (Some i) l → ∃ l' p, l = i :: l' ∧ t !! i = Some p ∧ chain t (p_next p) l'.
Proof. destruct l as [|j l]; simpl; [done|]. intros (? & p & ? & ?). naive_solver. Qed.

(** ** Tables that differ in their [next] fields only *)
Definition erase (p : proc) : proc := set_p_next None p.
Definition same_but_next (t t' : list proc) : Prop := erase <$> t = erase <$> t'.

#[export] Instance same_but_next_equiv : Equivalence same_but_next.
Proof. unfold same_but_next. split; red; congruence. Qed.

Lemma erase_eq p p' : erase p = erase p' → p' = set_p_next (p_next p') p.
Proof. destruct p, p'. unfold erase, set_p_next. simpl. intros H. injection H. intros. subst. reflexivity. Qed.

Lemma same_but_next_lookup t t' i p' :
  same_but_next t t' → t' !! i = Some p' →
  ∃ p, t !! i = Some p ∧ p' = set_p_next (p_next p') p.
Proof.
  unfold same_but_next. intros Heq Hp'.
  assert ((erase <$> t) !! i = Some (erase p')) as Hi.
  { by rewrite Heq, list_lookup_fmap, Hp'. }
  rewrite list_lookup_fmap in Hi. destruct (t !! i) as [p|]; [|done].
  exists p. split; [done|]. apply erase_eq. simpl in Hi. congruence.
Qed.

Lemma same_but_next_length t t' : same_but_next t t' → length t = length t'.
Proof. intros H%(f_equal length). by rewrite !length_fmap in H. Qed.

Lemma same_but_next_set t i p n :
  t !! i = Some p → same_but_next t (<[i := set_p_next n p]> t).
Proof.
  intros Hp. unfold same_but_next. rewrite list_fmap_insert.
  symmetry. apply list_insert_id. by rewrite list_lookup_fmap, Hp.
Qed.

Lemma list_of_set_next n p : list_of (set_p_next n p) = list_of p.
Proof. done. Qed.
#[export] Hint Rewrite list_of_set_next : xv6.

(** ** Well-formed tables

    [wfx X t a]: the linked list at every head [k] is [a k]; every process is
    on exactly the list that its state and priority call for, except [X], the
    process a list operation has in hand, which is on none. *)
Abbreviation alists := (slist → list nat).

Record wfx (X : option nat) (t : ptable) (a : alists) : Prop := mkwfx {
  wf_len : length (pt_proc t) = NPROC;
  wf_ready : length (l_ready (pt_pLists t)) = 3%nat;
  wf_chain : ∀ k h, get_head k (pt_pLists t) = Some h → chain (pt_proc t) h (a k);
  wf_none : ∀ k, get_head k (pt_pLists t) = None → a k = [];
  wf_mem : ∀ i p, pt_proc t !! i = Some p → ∀ k, i ∈ a k ↔ X ≠ Some i ∧ k = list_of p;
  wf_prio : ∀ i p, pt_proc t !! i = Some p → 0 ≤ p_priority p ≤ MAX
}.
Abbreviation wf := (wfx None).

(** The table changed in its links only. *)
Definition links_only (t t' : ptable) : Prop :=
  same_but_next (pt_proc t) (pt_proc t') ∧ pt_promoteAtTime t' = pt_promoteAtTime t.

#[export] Instance links_only_equiv : Equivalence links_only.
Proof.
  split.
  - intros t. by split.
  - intros t t' [H1 H2]. by split; [symmetry|].
  - intros t1 t2 t3 [H1 H2] [H3 H4]. split; [by etransitivity|congruence].
Qed.

Section wfx_facts.
Context (X : option nat) (t : ptable) (a : alists) (Hwf : wfx X t a).

Lemma wfx_head_valid k : get_head k (pt_pLists t) = None ∨ ∃ h, get_head k (pt_pLists t) = Some h.
Proof. destruct (get_head k (pt_pLists t)); eauto. Qed.

Lemma wfx_head_ready i : 0 ≤ i ≤ MAX → ∃ h, get_head (LReady i) (pt_pLists t) = Some h.
Proof.
  intros Hi. simpl. rewrite decide_True by lia. apply lookup_lt_is_Some.
  rewrite (wf_ready _ _ _ Hwf). unfold MAX in Hi. lia.
Qed.

Lemma wfx_head_list_of i p :
  pt_proc t !! i = Some p → ∃ h, get_head (list_of p) (pt_pLists t) = Some h.
Proof.
  intros Hp. pose proof (wf_prio _ _ _ Hwf i p Hp).
  unfold list_of. destruct (p_state p); simpl; eauto using wfx_head_ready.
Qed.

Lemma wfx_in_lookup i k : i ∈ a k → ∃ p, pt_proc t !! i = Some p ∧ k = list_of p ∧ X ≠ Some i.
Proof.
  intros Hi. destruct (wfx_head_valid k) as [Hk|[h Hk]].
  { rewrite (wf_none _ _ _ Hwf k Hk) in Hi. set_solver. }
  destruct (lseg_lookup _ _ _ _ i (wf_chain _ _ _ Hwf k h Hk) Hi) as [p Hp].
  exists p. split; [done|]. pose proof (proj1 (wf_mem _ _ _ Hwf i p Hp k) Hi). naive_solver.
Qed.

Lemma wfx_disjoint i k k' : i ∈ a k → i ∈ a k' → k = k'.
Proof.
  intros (p & Hp & -> & _)%wfx_in_lookup (p' & Hp' & -> & _)%wfx_in_lookup. congruence.
Qed.

Lemma wfx_head_in i k : i ∈ a k → ∃ h, get_head k (pt_pLists t) = Some h.
Proof. intros (p & Hp & -> & _)%wfx_in_lookup. by eapply wfx_head_list_of. Qed.

Lemma wfx_NoDup k : NoDup (a k).
Proof.
  destruct (wfx_head_valid k) as [Hk|[h Hk]].
  - rewrite (wf_none _ _ _ Hwf k Hk). constructor.
  - eapply chain_NoDup, (wf_chain _ _ _ Hwf), Hk.
Qed.

Lemma wfx_length k : (length (a k) ≤ NPROC)%nat.
Proof.
  apply NoDup_bounded_length; [apply wfx_NoDup|].
  intros i (p & Hp & _)%wfx_in_lookup. rewrite <- (wf_len _ _ _ Hwf).
  by eapply lookup_lt_Some.
Qed.
End wfx_facts.

(** Replacing one list, and the links of the processes concerned, keeps the
    table well formed for a new process in hand. *)
Lemma wfx_change X X' t a k h0 h' ps l' :
  wfx X t a →
  get_head k (pt_pLists t) = Some h0 →
  same_but_next (pt_proc t) ps →
  chain ps h' l' →
  (∀ j, j ∉ l' → j ∉ a k → ps !! j = pt_proc t !! j) →
  (∀ j p, pt_proc t !! j = Some p → j ∈ l' ↔ X' ≠ Some j ∧ k = list_of p) →
  (∀ j p, pt_proc t !! j = Some p → k ≠ list_of p → X = Some j ↔ X' = Some j) →
  wfx X' (mkptable ps (set_head k h' (pt_pLists t)) (pt_promoteAtTime t)) (<[k := l']> a).
Proof.
  intros Hwf Hk Hsame Hl' Hfr Hmem HX. pose proof Hwf as [Hlen Hrd Hch Hno Hm Hpr].
  assert (∀ j p', ps !! j = Some p' →
     ∃ p, pt_proc t !! j = Some p ∧ list_of p' = list_of p ∧ p_priority p' = p_priority p) as Hps.
  { intros j p' Hp'. destruct (same_but_next_lookup _ _ _ _ Hsame Hp') as (p & Hp & ->).
    exists p. by destruct p. }
  split; simpl.
  - rewrite <- (same_but_next_length _ _ Hsame). done.
  - by rewrite length_ready_set_head.
  - intros k' h. destruct (decide (k = k')) as [<-|Hne].
    + rewrite (get_set_head k h' h0) by done. intros [= <-]. by rewrite fn_lookup_insert.
    + rewrite (get_set_head_ne k k' h' h0) by done. intros Hk'. rewrite fn_lookup_insert_ne by done.
      eapply lseg_frame; [by apply Hch|]. intros j Hj. f_equal. apply Hfr.
      * destruct (wfx_in_lookup _ _ _ Hwf _ _ Hj) as (p & Hp & -> & _).
        rewrite (Hmem _ _ Hp). naive_solver.
      * intros Hj'. by pose proof (wfx_disjoint _ _ _ Hwf _ _ _ Hj Hj').
  - intros k'. destruct (decide (k = k')) as [<-|Hne].
    + by rewrite (get_set_head k h' h0) by done.
    + rewrite (get_set_head_ne k k' h' h0) by done. rewrite fn_lookup_insert_ne by done. apply Hno.
  - intros j p' Hp' k'. destruct (Hps _ _ Hp') as (p & Hp & -> & _).
    destruct (decide (k = k')) as [<-|Hne].
    + rewrite fn_lookup_insert. by apply Hmem.
    + rewrite fn_lookup_insert_ne by done. rewrite (Hm _ _ Hp).
      pose proof (HX _ _ Hp). naive_solver.
  - intros j p' Hp'. destruct (Hps _ _ Hp') as (p & Hp & _ & ->). eauto.
Qed.

(** ** The operations implement insertion and removal *)
Section list_ops.
Context (E : string → Prop).

Lemma wp_get_proc i p t Q : pt_proc t !! i = Some p → Q p t → wp E (get_proc i) Q t.
Proof. intros Hp HQ. unfold wp, get_proc. by rewrite Hp. Qed.

Lemma wp_upd_proc i f p t Q :
  pt_proc t !! i = Some p → Q tt (set_pt_proc (<[i := f p]> (pt_proc t)) t) →
  wp E (upd_proc i f) Q t.
Proof. intros Hp HQ. unfold wp, upd_proc. by rewrite Hp. Qed.

Lemma wp_get_list k h t Q : get_head k (pt_pLists t) = Some h → Q h t → wp E (get_list k) Q t.
Proof. intros Hk HQ. unfold wp, get_list. by rewrite Hk. Qed.

Lemma wp_set_list k h0 h t Q :
  get_head k (pt_pLists t) = Some h0 →
  Q tt (set_pt_pLists (set_head k h (pt_pLists t)) t) → wp E (set_list k h) Q t.
Proof. intros Hk HQ. unfold wp, set_list. by rewrite Hk. Qed.

Lemma wp_assertState i st p t Q :
  pt_proc t !! i = Some p → p_state p = st → Q tt t → wp E (assertState (Some i) st) Q t.
Proof.
  intros Hp Hst HQ. unfold assertState. apply wp_bind. eapply wp_get_proc; [done|].
  by rewrite decide_True.
Qed.

(** [last_of] stops at the last node of the list. *)
Lemma wp_last_of fuel h l z t Q :
  chain (pt_proc t) (Some h) (l ++ [z]) → (length l < fuel)%nat →
  Q z t → wp E (last_of fuel h) Q t.
Proof.
  revert h l. induction fuel as [|fuel IH]; intros h l Hch Hlen HQ; [lia|]. simpl.
  destruct (chain_cons_inv _ _ _ Hch) as (l' & p & Heq & Hp & Hl').
  apply wp_bind. eapply wp_get_proc; [done|].
  destruct l as [|i l]; simplify_eq/=.
  - simpl in Hl'. rewrite Hl'. by apply wp_ret.
  - assert (∃ n, p_next p = Some n) as [n Hn].
    { destruct l; simpl in Hl'; naive_solver. }
    rewrite Hn in *. eapply IH; [done| |done]. lia.
Qed.

#[local] Arguments last_of : simpl never.
#[local] Arguments remove_walk : simpl never.

(** Appending a free-standing process to a chain. *)
Lemma chain_snoc ps h l z pz i pi :
  chain ps h (l ++ [z]) → i ∉ l ++ [z] →
  ps !! z = Some pz → ps !! i = Some pi →
  chain (<[i := set_p_next None pi]> (<[z := set_p_next (Some i) pz]> ps)) h ((l ++ [z]) ++ [i]).
Proof.
  intros Hch Hi Hz Hpi. pose proof (chain_NoDup _ _ _ Hch) as Hnd.
  apply list.NoDup_app in Hnd as (_ & Hzl & _).
  apply not_elem_of_app in Hi as [Hil Hiz%not_elem_of_cons]. destruct Hiz as [Hiz _].
  apply lseg_app in Hch as (m & Hm & Hzz). simpl in Hzz. destruct Hzz as (-> & pz' & Hpz' & Hn).
  apply lseg_app. exists (Some i). split; [apply lseg_app; exists (Some z); split|]; simpl.
  - eapply lseg_frame; [done|]. intros j Hj. rewrite !list_lookup_insert_ne; [done| |];
      intros ->; set_solver.
  - split; [done|]. exists (set_p_next (Some i) pz). split; [|done].
    rewrite list_lookup_insert_ne by done. apply list_lookup_insert_eq. by eapply lookup_lt_Some.
  - split; [done|]. exists (set_p_next None pi). split; [|done].
    apply list_lookup_insert_eq. rewrite length_insert. by eapply lookup_lt_Some.
Qed.

(** Inserting the process in hand: the membership side conditions. *)
Lemma add_mem_iff i t a p (l' : list nat) :
  wfx (Some i) t a → pt_proc t !! i = Some p →
  (∀ j, j ∈ l' ↔ j = i ∨ j ∈ a (list_of p)) →
  ∀ j q, pt_proc t !! j = Some q → j ∈ l' ↔ None ≠ Some j ∧ list_of p = list_of q.
Proof.
  intros Hwf Hp Hl' j q Hq. rewrite Hl', (wf_mem _ _ _ Hwf j q Hq).
  destruct (decide (j = i)) as [->|Hne]; naive_solver.
Qed.

Lemma wp_addHead i t a p Q :
  wfx (Some i) t a → pt_proc t !! i = Some p →
  (∀ t', wf t' (<[list_of p := i :: a (list_of p)]> a) → links_only t t' → Q 0 t') →
  wp E (addToStateListHead (list_of p) (Some i)) Q t.
Proof.
  intros Hwf Hp HQ. destruct (wfx_head_list_of _ _ _ Hwf _ _ Hp) as [h Hk].
  pose proof (wf_chain _ _ _ Hwf _ _ Hk) as Hch.
  assert (i ∉ a (list_of p)) as Hi.
  { intros (? & _ & _ & ?)%(wfx_in_lookup _ _ _ Hwf). done. }
  assert (wf (mkptable (<[i := set_p_next h p]> (pt_proc t))
               (set_head (list_of p) (Some i) (pt_pLists t)) (pt_promoteAtTime t))
             (<[list_of p := i :: a (list_of p)]> a)) as Hwf'.
  { eapply wfx_change; [done|done|by apply same_but_next_set| | | |].
    - simpl. split; [done|]. exists (set_p_next h p). split.
      + apply list_lookup_insert_eq. by eapply lookup_lt_Some.
      + eapply lseg_frame; [done|]. intros j Hj. rewrite list_lookup_insert_ne; [done|].
        intros ->. done.
    - intros j [Hj _]%not_elem_of_cons _. by apply list_lookup_insert_ne.
    - eapply add_mem_iff; [done|done|]. set_solver.
    - intros j q Hq Hne. split; [|done]. intros [= ->]. congruence. }
  assert (links_only t (mkptable (<[i := set_p_next h p]> (pt_proc t))
               (set_head (list_of p) (Some i) (pt_pLists t)) (pt_promoteAtTime t))) as Hlo.
  { split; [by apply same_but_next_set|done]. }
  simpl. apply wp_bind. eapply wp_get_list; [done|]. destruct h as [h|].
  - apply wp_bind. eapply wp_upd_proc; [done|]. apply wp_bind. eapply wp_set_list; [done|].
    apply wp_bind. eapply wp_get_list; [by eapply get_set_head|].
    rewrite decide_True by done. apply wp_ret. by apply HQ.
  - apply wp_bind. eapply wp_set_list; [done|]. apply wp_bind. eapply wp_upd_proc; [done|].
    apply wp_ret. by apply HQ.
Qed.

Lemma wp_addEnd i t a p Q :
  wfx (Some i) t a → pt_proc t !! i = Some p →
  (∀ t', wf t' (<[list_of p := a (list_of p) ++ [i]]> a) → links_only t t' → Q 0 t') →
  wp E (addToStateListEnd (list_of p) (Some i)) Q t.
Proof.
  intros Hwf Hp HQ. destruct (wfx_head_list_of _ _ _ Hwf _ _ Hp) as [h Hk].
  pose proof (wf_chain _ _ _ Hwf _ _ Hk) as Hch.
  assert (i ∉ a (list_of p)) as Hi.
  { intros (? & _ & _ & ?)%(wfx_in_lookup _ _ _ Hwf). done. }
  simpl. apply wp_bind. eapply wp_get_list; [done|].
  assert (∀ ps h', same_but_next (pt_proc t) ps → chain ps h' (a (list_of p) ++ [i]) →
    (∀ j, j ∉ a (list_of p) ++ [i] → ps !! j = pt_proc t !! j) →
    wf (mkptable ps (set_head (list_of p) h' (pt_pLists t)) (pt_promoteAtTime t))
       (<[list_of p := a (list_of p) ++ [i]]> a)) as Hchange.
  { intros ps h' Hs Hc Hfr. eapply wfx_change; [done|done|done|done|auto| |].
    - eapply add_mem_iff; [done|done|]. set_solver.
    - intros j q Hq Hne. split; [|done]. intros [= ->]. congruence. }
  destruct h as [h|].
  - destruct (a (list_of p)) as [|z l _] eqn:Ha using rev_ind; [done|].
    assert (∃ pz, pt_proc t !! z = Some pz) as [pz Hz].
    { eapply lseg_lookup; [done|]. set_solver. }
    assert (z ≠ i) as Hzi by set_solver.
    apply wp_bind. eapply wp_last_of; [done| |].
    { pose proof (chain_length _ _ _ Hch) as Hlen. rewrite (wf_len _ _ _ Hwf), length_app in Hlen.
      simpl in Hlen. unfold walk_fuel. lia. }
    apply wp_bind. eapply wp_upd_proc; [done|]. apply wp_bind.
    eapply (wp_upd_proc _ _ p); [by simpl; rewrite list_lookup_insert_ne|]. apply wp_ret. simpl.
    assert (same_but_next (pt_proc t)
      (<[i:=set_p_next None p]> (<[z:=set_p_next (Some i) pz]> (pt_proc t)))) as Hs.
    { transitivity (<[z:=set_p_next (Some i) pz]> (pt_proc t)); [by apply same_but_next_set|].
      apply same_but_next_set. by rewrite list_lookup_insert_ne. }
    apply HQ; [|by split]. unfold set_pt_proc; simpl.
    replace (pt_pLists t) with (set_head (list_of p) (Some h) (pt_pLists t))
      by (by apply set_head_id).
    apply Hchange; [done|by apply chain_snoc|].
    intros j Hj. rewrite !list_lookup_insert_ne; set_solver.
  - destruct (a (list_of p)) as [|j l] eqn:Ha; [|naive_solver].
    apply wp_bind. eapply wp_set_list; [done|]. apply wp_bind. eapply wp_upd_proc; [done|].
    apply wp_ret. apply HQ; [|split; [by apply same_but_next_set|done]].
    apply Hchange; [by apply same_but_next_set| |].
    + simpl. split; [done|]. exists (set_p_next None p). split; [|done].
      apply list_lookup_insert_eq. by eapply lookup_lt_Some.
    + intros j Hj. rewrite list_lookup_insert_ne; set_solver.
Qed.

(** Unlinking the process after [prev]. *)
Lemma chain_unlink ps h l1 prev i l2 pprev pi :
  chain ps h (l1 ++ prev :: i :: l2) →
  ps !! prev = Some pprev → ps !! i = Some pi →
  chain (<[i := set_p_next None pi]> (<[prev := set_p_next (p_next pi) pprev]> ps)) h
    (l1 ++ prev :: l2).
Proof.
  intros Hch Hprev Hi. pose proof (chain_NoDup _ _ _ Hch) as Hnd.
  apply lseg_app in Hch as (m & Hm & (-> & p1 & Hp1 & (Hn1 & p2 & Hp2 & Hl2))). simplify_eq.
  apply list.NoDup_app in Hnd as (_ & Hd & [Hpn [Hin _]%list.NoDup_cons]%list.NoDup_cons).
  apply lseg_app. exists (Some prev). split; [|simpl; split; [done|]].
  - eapply lseg_frame; [done|]. intros j Hj. rewrite !list_lookup_insert_ne; set_solver.
  - eexists. split.
    + rewrite list_lookup_insert_ne by set_solver. apply list_lookup_insert_eq.
      by eapply lookup_lt_Some.
    + eapply lseg_frame; [done|]. intros j Hj. rewrite !list_lookup_insert_ne; set_solver.
Qed.

(** The search finds [i] wherever it stands after [prev]. *)
Lemma wp_remove_walk fuel h l1 prev pprev l2 i l3 pi t Q :
  chain (pt_proc t) h (l1 ++ prev :: l2 ++ i :: l3) →
  pt_proc t !! prev = Some pprev → pt_proc t !! i = Some pi → (length l2 < fuel)%nat →
  (∀ ps', same_but_next (pt_proc t) ps' → chain ps' h (l1 ++ prev :: l2 ++ l3) →
     (∀ j, j ∉ l1 ++ prev :: l2 ++ i :: l3 → ps' !! j = pt_proc t !! j) →
     Q 0 (set_pt_proc ps' t)) →
  wp E (remove_walk fuel prev (p_next pprev) i) Q t.
Proof.
  revert l1 prev pprev l2. induction fuel as [|fuel IH]; intros l1 prev pprev l2 Hch Hpv Hi Hf HQ;
    [lia|]. unfold remove_walk; fold remove_walk.
  pose proof Hch as Hch'. apply lseg_app in Hch' as (m & _ & (-> & p1 & Hp1 & Hrest)).
  assert (p1 = pprev) as -> by congruence. pose proof (chain_NoDup _ _ _ Hch) as Hnd.
  destruct l2 as [|c l2]; simpl in Hrest; destruct Hrest as (Hn & pc & Hpc & Hl).
  - assert (pc = pi) as -> by congruence. rewrite Hn. apply wp_bind. eapply wp_get_proc; [done|]. rewrite decide_True by done.
    assert (prev ≠ i) as Hne.
    { apply list.NoDup_app in Hnd as (_ & _ & [Hpn _]%list.NoDup_cons). set_solver. }
    apply wp_bind. eapply wp_upd_proc; [done|]. apply wp_bind.
    eapply wp_upd_proc; [by simpl; rewrite list_lookup_insert_ne|]. apply wp_ret.
    apply (HQ (<[i := set_p_next None pi]> (<[prev := set_p_next (p_next pi) pprev]> (pt_proc t)))).
    + transitivity (<[prev := set_p_next (p_next pi) pprev]> (pt_proc t));
        apply same_but_next_set; [done|]. by rewrite list_lookup_insert_ne.
    + by apply chain_unlink.
    + intros j Hj. rewrite !list_lookup_insert_ne; set_solver.
  - rewrite Hn. apply wp_bind. eapply wp_get_proc; [done|].
    assert (c ≠ i) as Hne.
    { apply list.NoDup_app in Hnd as (_ & _ & [_ Hnd]%list.NoDup_cons). simpl in Hnd.
      apply list.NoDup_cons in Hnd as [Hc _]. set_solver. }
    rewrite decide_False by done.
    apply (IH (l1 ++ [prev]) c pc l2); [by rewrite <- app_assoc|done|done|simpl in Hf; lia|].
    rewrite <- !app_assoc. simpl. done.
Qed.

(** Taking a process in hand: the membership side conditions. *)
Lemma remove_wfx t a k h h' i l' ps :
  wf t a → i ∈ a k → get_head k (pt_pLists t) = Some h →
  same_but_next (pt_proc t) ps → chain ps h' l' →
  (∀ j, j ∈ l' ↔ j ∈ a k ∧ j ≠ i) →
  (∀ j, j ∉ a k → ps !! j = pt_proc t !! j) →
  wfx (Some i) (mkptable ps (set_head k h' (pt_pLists t)) (pt_promoteAtTime t)) (<[k := l']> a).
Proof.
  intros Hwf Hi Hk Hs Hc Hl' Hfr.
  destruct (wfx_in_lookup _ _ _ Hwf _ _ Hi) as (p & Hp & Hpk & _).
  eapply wfx_change; [done|done|done|done|auto| |].
  - intros j q Hq. rewrite Hl', (wf_mem _ _ _ Hwf j q Hq). naive_solver.
  - intros j q Hq Hne. split; [done|]. intros [= ->]. congruence.
Qed.

(** Unlinking the first process. *)
Lemma remove_first_wfx t a k i l ph :
  wf t a → a k = i :: l → get_head k (pt_pLists t) = Some (Some i) →
  pt_proc t !! i = Some ph →
  wfx (Some i) (mkptable (<[i := set_p_next None ph]> (pt_proc t))
                  (set_head k (p_next ph) (pt_pLists t)) (pt_promoteAtTime t)) (<[k := l]> a).
Proof.
  intros Hwf Ha Hk Hp. pose proof (wf_chain _ _ _ Hwf _ _ Hk) as Hch.
  pose proof (wfx_NoDup _ _ _ Hwf k) as Hnd. rewrite Ha in Hch, Hnd.
  apply list.NoDup_cons in Hnd as [Hil Hnd]. destruct Hch as (_ & p & Hp' & Hl). simplify_eq.
  eapply remove_wfx; [done| |done|by apply same_but_next_set| | |].
  - rewrite Ha. set_solver.
  - eapply lseg_frame; [done|]. intros j Hj. rewrite list_lookup_insert_ne; set_solver.
  - rewrite Ha. set_solver.
  - rewrite Ha. intros j Hj. rewrite list_lookup_insert_ne; set_solver.
Qed.

Lemma wp_removeFrom i t a k Q :
  wf t a → i ∈ a k →
  (∀ t', wfx (Some i) t' (<[k := remove1 i (a k)]> a) → links_only t t' → Q 0 t') →
  wp E (removeFromStateList k (Some i)) Q t.
Proof.
  intros Hwf Hi HQ. destruct (wfx_head_in _ _ _ Hwf _ _ Hi) as [h Hk].
  destruct (wfx_in_lookup _ _ _ Hwf _ _ Hi) as (pi & Hpi & Hpk & _).
  pose proof (wf_chain _ _ _ Hwf _ _ Hk) as Hch. pose proof (wfx_NoDup _ _ _ Hwf k) as Hnd.
  unfold removeFromStateList. apply wp_bind. eapply wp_get_list; [done|].
  destruct h as [h|]; [|destruct (a k); [set_solver|naive_solver]].
  destruct (chain_cons_inv _ _ _ Hch) as (l & ph & Ha & Hph & Hl).
  case_decide as Hih.
  - subst h. assert (ph = pi) as -> by congruence. apply wp_bind. eapply wp_get_proc; [done|].
    pose proof (remove_first_wfx _ _ _ _ _ _ Hwf Ha Hk Hpi) as Hwf'.
    assert (remove1 i (a k) = l) as Hrm by (rewrite Ha; simpl; by rewrite decide_True).
    rewrite Hrm in HQ.
    assert (links_only t (mkptable (<[i := set_p_next None pi]> (pt_proc t))
                  (set_head k (p_next pi) (pt_pLists t)) (pt_promoteAtTime t))).
    { split; [by apply same_but_next_set|done]. }
    destruct (p_next pi) as [n|].
    + apply wp_bind. eapply wp_upd_proc; [done|]. apply wp_bind. eapply wp_set_list; [done|].
      apply wp_ret. by apply HQ.
    + apply wp_bind. eapply wp_set_list; [done|]. apply wp_bind. eapply wp_upd_proc; [done|].
      apply wp_ret. by apply HQ.
  - apply wp_bind. eapply wp_get_proc; [done|]. rewrite Ha in Hi, Hnd.
    assert (i ∈ l) as (l2 & l3 & ->)%list_elem_of_split by set_solver.
    assert (i ∉ h :: l2) as Hi2.
    { apply list.NoDup_cons in Hnd as [_ Hnd]. apply list.NoDup_app in Hnd. set_solver. }
    eapply (wp_remove_walk _ _ [] h ph l2 i l3 pi); [by rewrite <- Ha|done|done| |].
    { pose proof (wfx_length _ _ _ Hwf k) as Hlen. rewrite Ha in Hlen. simpl in Hlen.
      rewrite length_app in Hlen. unfold walk_fuel. lia. }
    simpl. intros ps' Hs Hc Hfr. apply HQ; [|by split].
    assert (remove1 i (a k) = h :: l2 ++ l3) as -> by (rewrite Ha; by apply (remove1_middle i (h :: l2))).
    unfold set_pt_proc. replace (pt_pLists t) with (set_head k (Some h) (pt_pLists t))
      by (by apply set_head_id).
    eapply remove_wfx; [done|rewrite Ha; set_solver|done|done|done| |].
    + intros j. rewrite Ha. apply list.NoDup_cons in Hnd as [? Hnd].
      apply list.NoDup_app in Hnd as (_ & ? & [? _]%list.NoDup_cons). set_solver.
    + rewrite Ha. done.
Qed.

Lemma wp_removeHead i l t a k Q :
  wf t a → a k = i :: l →
  (∀ t', wfx (Some i) t' (<[k := l]> a) → links_only t t' → Q (Some i) t') →
  wp E (removeHead k) Q t.
Proof.
  intros Hwf Ha HQ. assert (i ∈ a k) as Hi by (rewrite Ha; set_solver).
  destruct (wfx_head_in _ _ _ Hwf _ _ Hi) as [h Hk].
  pose proof (wf_chain _ _ _ Hwf _ _ Hk) as Hch. rewrite Ha in Hch.
  destruct Hch as (-> & ph & Hph & _).
  unfold removeHead. apply wp_bind. eapply wp_get_list; [done|].
  apply wp_bind. eapply wp_get_proc; [done|]. apply wp_bind. eapply wp_upd_proc; [done|].
  apply wp_bind. eapply wp_set_list; [done|]. apply wp_ret. apply HQ.
  - exact (remove_first_wfx _ _ _ _ _ _ Hwf Ha Hk Hph).
  - split; [by apply same_but_next_set|done].
Qed.

(** An empty list has no head to remove, and a process is not found on it. *)
Lemma wf_head_nil t a k h :
  wf t a → get_head k (pt_pLists t) = Some h → h = None ↔ a k = [].
Proof.
  intros Hwf Hk. pose proof (wf_chain _ _ _ Hwf _ _ Hk) as Hch.
  destruct (a k); simpl in Hch; naive_solver.
Qed.

(** A change to a process in hand that keeps its link and a legal priority. *)
Lemma wfx_upd_inhand i p f t a :
  wfx (Some i) t a → pt_proc t !! i = Some p →
  p_next (f p) = p_next p → 0 ≤ p_priority (f p) ≤ MAX →
  wfx (Some i) (set_pt_proc (<[i := f p]> (pt_proc t)) t) a.
Proof.
  intros Hwf Hp Hn Hpr. destruct Hwf as [Hlen Hrd Hch Hno Hm Hprio]. split; simpl; try done.
  - by rewrite length_insert.
  - intros k h Hk. eapply lseg_frame; [by apply Hch|]. intros j Hj.
    destruct (decide (i = j)) as [<-|]; [|by rewrite list_lookup_insert_ne].
    rewrite list_lookup_insert_eq by (by eapply lookup_lt_Some). rewrite Hp. simpl. by rewrite Hn.
  - intros j q [[<- ->]|[Hne Hq]]%list_lookup_insert_cases k; [|by apply Hm].
    rewrite (Hm _ _ Hp). naive_solver.
  - intros j q [[<- ->]|[Hne Hq]]%list_lookup_insert_cases; eauto.
Qed.

(** A change to any process that keeps its link, its list and a legal priority. *)
Lemma wfx_upd X i p f t a :
  wfx X t a → pt_proc t !! i = Some p →
  p_next (f p) = p_next p → list_of (f p) = list_of p → 0 ≤ p_priority (f p) ≤ MAX →
  wfx X (set_pt_proc (<[i := f p]> (pt_proc t)) t) a.
Proof.
  intros Hwf Hp Hn Hl Hpr. destruct Hwf as [Hlen Hrd Hch Hno Hm Hprio]. split; simpl; try done.
  - by rewrite length_insert.
  - intros k h Hk. eapply lseg_frame; [by apply Hch|]. intros j Hj.
    destruct (decide (i = j)) as [<-|]; [|by rewrite list_lookup_insert_ne].
    rewrite list_lookup_insert_eq by (by eapply lookup_lt_Some). rewrite Hp. simpl. by rewrite Hn.
  - intros j q [[<- ->]|[Hne Hq]]%list_lookup_insert_cases k; [|by apply Hm].
    by rewrite (Hm _ _ Hp), Hl.
  - intros j q [[<- ->]|[Hne Hq]]%list_lookup_insert_cases; eauto.
Qed.
End list_ops.

(** ** Removing a process that is not on the list *)
Lemma remove_walk_absent fuel prev h l i t :
  chain (pt_proc t) h l → i ∉ l → (length l < fuel)%nat →
  remove_walk fuel prev h i t = Ok (-1, t).
Proof.
  revert prev h l. induction fuel as [|f IH]; intros prev h l Hch Hi Hf; [lia|].
  destruct l as [|c l]; simpl in Hch.
  - by subst h.
  - destruct Hch as (-> & p & Hp & Hch). cbn [remove_walk]. unfold bind, get_proc. rewrite Hp.
    rewrite decide_False by set_solver. apply (IH c _ l); [done|set_solver|simpl in Hf; lia].
Qed.

Lemma removeFrom_absent i k X t a :
  wfx X t a → is_Some (get_head k (pt_pLists t)) → i ∉ a k →
  removeFromStateList k (Some i) t = Ok (-1, t).
Proof.
  intros Hwf [h Hk] Hi. pose proof (wf_chain _ _ _ Hwf _ _ Hk) as Hch.
  pose proof (wfx_length _ _ _ Hwf k) as Hlen.
  unfold removeFromStateList, bind, get_list. rewrite Hk.
  destruct (a k) as [|c l]; simpl in Hch; [by subst h|].
  destruct Hch as (-> & p & Hp & Hch). rewrite decide_False by set_solver.
  unfold get_proc. rewrite Hp.
  apply (remove_walk_absent _ _ _ l); [done|set_solver|]. unfold walk_fuel. simpl in Hlen. lia.
Qed.

(** Operations stay folded under [simpl]. *)
#[global] Arguments get_proc : simpl never.
#[global] Arguments upd_proc : simpl never.
#[global] Arguments get_list : simpl never.
#[global] Arguments set_list : simpl never.
#[global] Arguments assertState : simpl never.
#[global] Arguments addToStateListHead : simpl never.
#[global] Arguments addToStateListEnd : simpl never.
#[global] Arguments removeFromStateList : simpl never.
#[global] Arguments removeHead : simpl never.
