(* ===== verification/Proc.v ===== *)
(** * Processes and the MLFQ scheduler (proc.c)

    The kernel state is the machine (CPUs and locks), [ptable], and the
    variables of proc.c and trap.c that its functions use.  Physical memory,
    page tables, files and inodes are a state of their own type [W], reached
    through the operations of the class [KSvc]; the theorems about processes
    are proved against the laws of [KSvcLaws].

    [swtch] transfers control: a process that calls [sched] continues in the
    body of [scheduler] that started it, so [sched] below ends with the rest of
    that body ([scheduler_tail]), and a process that [scheduler] starts
    continues where its saved context says ([resume]).  The functions are the
    ones compiled with BAGIAN_ID, BAGIAN_UPROC, BAGIAN_INODE and LS_EXEC, as the
    Makefile sets; the other variants are in ProcOrig. *)

From S2P Require Import Prelude Spinlock CString ProcData ProcList.
Local Open Scope Z_scope.

(** ** What proc.c calls in kalloc.c, vm.c, file.c, fs.c and log.c *)
Class KSvc (W : Type) := {
  svc_kalloc : M W (option Z);
  svc_kfree : Z → M W unit;
  svc_setupkvm : M W (option Z);
  svc_inituvm : Z → M W unit;                    (* with the image of initcode *)
  svc_copyuvm : Z → Z → M W (option Z);
  svc_freevm : Z → M W unit;
  svc_allocuvm : Z → Z → Z → M W Z;
  svc_deallocuvm : Z → Z → Z → M W Z;
  svc_filedup : nat → M W unit;
  svc_fileclose : nat → M W unit;
  svc_idup : option nat → M W unit;
  svc_iput_op : option nat → M W unit;           (* begin_op; iput; end_op *)
  svc_namei_root : M W (option nat);             (* namei("/") *)
  svc_fsinit : M W unit                          (* iinit; initlog *)
}.

(** What is assumed of the services, for every argument and state: they return or
    panic with a message of [svc_panics], and pages and page tables they return
    are not null.  The code of kalloc.c, vm.c, file.c and fs.c keeps this only for
    arguments it has given out itself (kfree of a page in use faults); which
    pages, directories and files belong to a process is not followed here, so
    the theorems over this class speak of proc.c with services that do not
    fault.  The files Vm, File and Fs treat that code in its own terms, and do not
    make instances of this class. *)
Class KSvcLaws (W : Type) `{KSvc W} := {
  svc_panics : string → Prop;
  kalloc_law w : wp svc_panics svc_kalloc (λ r _, r ≠ Some 0) w;
  kfree_law v w : wp svc_panics (svc_kfree v) (λ _ _, True) w;
  setupkvm_law w : wp svc_panics svc_setupkvm (λ r _, r ≠ Some 0) w;
  inituvm_law d w : wp svc_panics (svc_inituvm d) (λ _ _, True) w;
  copyuvm_law d sz w : wp svc_panics (svc_copyuvm d sz) (λ r _, r ≠ Some 0) w;
  freevm_law d w : wp svc_panics (svc_freevm d) (λ _ _, True) w;
  allocuvm_law d o n w : wp svc_panics (svc_allocuvm d o n) (λ _ _, True) w;
  deallocuvm_law d o n w : wp svc_panics (svc_deallocuvm d o n) (λ _ _, True) w;
  filedup_law f w : wp svc_panics (svc_filedup f) (λ _ _, True) w;
  fileclose_law f w : wp svc_panics (svc_fileclose f) (λ _ _, True) w;
  idup_law i w : wp svc_panics (svc_idup i) (λ _ _, True) w;
  iput_law i w : wp svc_panics (svc_iput_op i) (λ _ _, True) w;
  namei_root_law w : wp svc_panics svc_namei_root (λ _ _, True) w;
  fsinit_law w : wp svc_panics svc_fsinit (λ _ _, True) w
}.

(** ** The kernel state *)
Record kstate (W : Type) := mkstate {
  k_mach : machine  (* the CPUs and the locks *);
  k_ptable : ptable;
  k_initproc : option nat;
  k_nextpid : Z  (* int *);
  k_ticks : Z  (* uint, trap.c *);
  k_first : bool  (* the static of forkret *);
  k_console : list string  (* what cprintf wrote, oldest first *);
  k_world : W  (* memory and files *)
}.
Arguments mkstate {W}.
Arguments k_mach {W}.
Arguments k_ptable {W}.
Arguments k_initproc {W}.
Arguments k_nextpid {W}.
Arguments k_ticks {W}.
Arguments k_first {W}.
Arguments k_console {W}.
Arguments k_world {W}.

Definition set_k_mach {W} (v : machine) (x : kstate W) : kstate W :=
  mkstate v (k_ptable x) (k_initproc x) (k_nextpid x) (k_ticks x) (k_first x) (k_console x) (k_world
    x).
Definition set_k_ptable {W} (v : ptable) (x : kstate W) : kstate W :=
  mkstate (k_mach x) v (k_initproc x) (k_nextpid x) (k_ticks x) (k_first x) (k_console x) (k_world
    x).
Definition set_k_initproc {W} (v : option nat) (x : kstate W) : kstate W :=
  mkstate (k_mach x) (k_ptable x) v (k_nextpid x) (k_ticks x) (k_first x) (k_console x) (k_world x).
Definition set_k_nextpid {W} (v : Z) (x : kstate W) : kstate W :=
  mkstate (k_mach x) (k_ptable x) (k_initproc x) v (k_ticks x) (k_first x) (k_console x) (k_world
    x).
Definition set_k_ticks {W} (v : Z) (x : kstate W) : kstate W :=
  mkstate (k_mach x) (k_ptable x) (k_initproc x) (k_nextpid x) v (k_first x) (k_console x) (k_world
    x).
Definition set_k_first {W} (v : bool) (x : kstate W) : kstate W :=
  mkstate (k_mach x) (k_ptable x) (k_initproc x) (k_nextpid x) (k_ticks x) v (k_console x) (k_world
    x).
Definition set_k_console {W} (v : list string) (x : kstate W) : kstate W :=
  mkstate (k_mach x) (k_ptable x) (k_initproc x) (k_nextpid x) (k_ticks x) (k_first x) v (k_world
    x).
Definition set_k_world {W} (v : W) (x : kstate W) : kstate W :=
  mkstate (k_mach x) (k_ptable x) (k_initproc x) (k_nextpid x) (k_ticks x) (k_first x) (k_console x)
    v.

Section proc.
Context {W : Type} `{KSvc W}.
Abbreviation K := (M (kstate W)).

Definition pt {A} (m : M ptable A) : K A := zoom k_ptable set_k_ptable m.
Definition mch {A} (m : M machine A) : K A := zoom k_mach set_k_mach m.
Definition svc {A} (m : M W A) : K A := zoom k_world set_k_world m.

Definition cprintf (msg : string) : K unit :=
  modS (λ s, set_k_console (k_console s ++ [msg]) s).
(** [if (r < 0) cprintf(msg)] *)
Definition complain (r : Z) (msg : string) : K unit :=
  if decide (r < 0) then cprintf msg else skip.

(** The per-CPU variable [proc], and a dereference of it. *)
Definition curproc : K (option nat) := mch (let! c := mycpu in ret (c_proc c)).
Definition deref_cur : K nat :=
  let! p := curproc in
  match p with Some i => ret i | None => fault end.
Definition set_curproc (p : option nat) : K unit := mch (upd_cpu (set_c_proc p)).

(** [safestrcpy(p->name, src, sizeof(p->name))] *)
Definition SIZEOF_NAME : Z := 16.
Definition copy_name (i : nat) (src : list Z) : K unit :=
  let! p := pt (get_proc i) in
  match safestrcpy (p_name p) src SIZEOF_NAME with
  | Some nm => pt (upd_proc i (set_p_name nm))
  | None => fault
  end.

(** ** allocproc *)
Definition SIZEOF_TRAPFRAME : Z := 76.
Definition SIZEOF_CONTEXT : Z := 20.

Definition init_proc (kstack ticks : Z) (p : proc) : proc :=
  let sp := kstack + KSTACKSIZE in
  let sp := sp - SIZEOF_TRAPFRAME in
  let p := set_p_tf (u32 sp) p in
  let sp := sp - 4 in
  let sp := sp - SIZEOF_CONTEXT in
  let p := set_p_context (u32 sp) p in
  let p := set_p_saved K_forkret p in
  let p := set_p_start_ticks ticks p in
  let p := set_p_cpu_ticks_total 0 p in
  let p := set_p_cpu_ticks_in 0 p in
  let p := set_p_budget BUDGET p in
  set_p_priority 0 p.

(** Under ptable.lock, a slot goes from the free list to the list of embryos. *)
Definition allocproc_slot : K (option nat) :=
  mch (acquire "ptable") ;;;
  let! p := pt (get_list LFree) in
  match p with
  | None => mch (release "ptable") ;;; ret None
  | Some i =>
      pt (assertState p UNUSED) ;;;
      let! r := pt (removeFromStateList LFree p) in
      complain r "Failed to remove proc from UNUSED list (allocproc)." ;;;
      pt (upd_proc i (set_p_state EMBRYO)) ;;;
      let! r := pt (addToStateListHead LEmbryo p) in
      complain r "Failed to add proc to EMBRYO list (allocproc)." ;;;
      let! n := gets k_nextpid in
      pt (upd_proc i (set_p_pid (u32 n))) ;;;
      modS (set_k_nextpid (s32 (n + 1))) ;;;
      mch (release "ptable") ;;;
      ret (Some i)
  end.
(** Without the lock: the kernel stack; when there is none the slot is given
    back. *)
Definition allocproc_stack (i : nat) : K (option nat) :=
  let! k := svc svc_kalloc in
  match k with
  | None =>
      pt (upd_proc i (set_p_kstack 0)) ;;;
      pt (assertState (Some i) EMBRYO) ;;;
      let! r := pt (removeFromStateList LEmbryo (Some i)) in
      pt (upd_proc i (set_p_state UNUSED)) ;;;
      let! r := pt (addToStateListHead LFree (Some i)) in
      complain r "Not enough room for process stack; Failed to add proc to UNUSED list (allocproc)." ;;;
      ret None
  | Some ks =>
      pt (upd_proc i (set_p_kstack ks)) ;;;
      let! now := gets k_ticks in
      pt (upd_proc i (init_proc ks now)) ;;;
      ret (Some i)
  end.
Definition allocproc : K (option nat) :=
  let! o := allocproc_slot in
  match o with
  | None => ret None
  | Some i => allocproc_stack i
  end.

(** ** userinit *)
Definition SEG_UCODE_SEL : Z := Z.lor (Z.shiftl 4 3) 3.   (* (SEG_UCODE << 3) | DPL_USER *)
Definition SEG_UDATA_SEL : Z := Z.lor (Z.shiftl 5 3) 3.   (* (SEG_UDATA << 3) | DPL_USER *)
Definition FL_IF : Z := 512.
Definition user_frame : trapframe :=
  mktf 0 SEG_UCODE_SEL SEG_UDATA_SEL SEG_UDATA_SEL SEG_UDATA_SEL FL_IF PGSIZE 0.
(** The string literal ["initcode"], with its terminator. *)
Definition initcode_name : list Z := [105; 110; 105; 116; 99; 111; 100; 101; 0].

(** Every entry goes to the end of the free list. *)
Definition build_free_list : K unit :=
  mfor (seq 0 NPROC) (λ i,
    pt (assertState (Some i) UNUSED) ;;;
    let! r := pt (addToStateListEnd LFree (Some i)) in
    if decide (r = -1) then panic "Failed to add proc to UNUSED list." else skip).

(** The first process is the only one on a list: every head is set. *)
Definition userinit_lists (i : nat) : M ptable unit :=
  set_list (LReady 0) (Some i) ;;;
  upd_proc i (set_p_next None) ;;;
  mfor [1; 2] (λ q, set_list (LReady q) None) ;;;
  set_list LSleep None ;;;
  set_list LZombie None ;;;
  set_list LRunning None ;;;
  set_list LEmbryo None.

(** The first process [i], with its page table [d]. *)
Definition userinit_proc (i : nat) (d : Z) : K unit :=
  pt (upd_proc i (set_p_pgdir d)) ;;;
  svc (svc_inituvm d) ;;;
  pt (upd_proc i (set_p_sz PGSIZE)) ;;;
  pt (upd_proc i (set_p_frame user_frame)) ;;;
  pt (upd_proc i (set_p_uid UID)) ;;;
  pt (upd_proc i (set_p_gid GID)) ;;;
  pt (upd_proc i (set_p_parent (Some i))) ;;;
  copy_name i initcode_name ;;;
  let! root := svc svc_namei_root in
  pt (upd_proc i (set_p_cwd root)) ;;;
  pt (assertState (Some i) EMBRYO) ;;;
  let! r := pt (removeFromStateList LEmbryo (Some i)) in
  complain r "Failed to remove EMBRYO proc from list (userinit)." ;;;
  pt (upd_proc i (set_p_state RUNNABLE)) ;;;
  pt (userinit_lists i).

Definition userinit : K unit :=
  modS (λ s, set_k_ptable (set_pt_promoteAtTime TIME_TO_PROMOTE (k_ptable s)) s) ;;;
  build_free_list ;;;
  let! p := allocproc in
  modS (set_k_initproc p) ;;;
  let! d := svc svc_setupkvm in
  match p with
  | None => fault
  | Some i =>
      match d with
      | None => pt (upd_proc i (set_p_pgdir 0)) ;;; panic "userinit: out of memory?"
      | Some d =>
          userinit_proc i d
      end
  end.

(** ** growproc *)

(** [switchuvm]: the segment registers and %cr3 are not part of the state. *)
Definition switchuvm (i : nat) : K unit :=
  mch pushcli ;;;
  let! c := deref_cur in
  let! cur := pt (get_proc c) in
  let! p := pt (get_proc i) in
  if decide (p_pgdir p = 0) then panic "switchuvm: no pgdir" else mch popcli.

Definition growproc (n : Z) : K Z :=
  let! i := deref_cur in
  let! p := pt (get_proc i) in
  let sz := p_sz p in
  let! r :=
    (if decide (n > 0) then
       let! sz' := svc (svc_allocuvm (p_pgdir p) sz (u32 (sz + n))) in
       ret (if decide (sz' = 0) then None else Some sz')
     else if decide (n < 0) then
       let! sz' := svc (svc_deallocuvm (p_pgdir p) sz (u32 (sz + n))) in
       ret (if decide (sz' = 0) then None else Some sz')
     else ret (Some sz)) in
  match r with
  | None => ret (-1)
  | Some sz' =>
      pt (upd_proc i (set_p_sz sz')) ;;;
      switchuvm i ;;;
      ret 0
  end.

(** ** fork *)

(** Duplicate every open file of [p] into the process [np]. *)
Definition dup_files (p : proc) (np : nat) : K unit :=
  mfor (seq 0 NOFILE) (λ fd,
    match p_ofile p !! fd with
    | Some (Some f) =>
        svc (svc_filedup f) ;;;
        pt (upd_proc np (λ q, set_p_ofile (<[fd := Some f]> (p_ofile q)) q))
    | _ => skip
    end).

(** [copyuvm] failed: the slot [np] goes back to the free list, and fork returns
    -1. *)
Definition fork_fail (np : nat) : K unit :=
  pt (upd_proc np (set_p_pgdir 0)) ;;;
  let! q := pt (get_proc np) in
  svc (svc_kfree (p_kstack q)) ;;;
  pt (upd_proc np (set_p_kstack 0)) ;;;
  pt (assertState (Some np) EMBRYO) ;;;
  let! r := pt (removeFromStateList LEmbryo (Some np)) in
  (if decide (r < 0) then panic "Failed to remove proc from EMBRYO list (fork)." else skip) ;;;
  pt (upd_proc np (set_p_state UNUSED)) ;;;
  let! r := pt (addToStateListHead LFree (Some np)) in
  (if decide (r < 0) then panic "Failed to add proc to UNUSED list (fork)." else skip).
(** The child [np] of [i], whose entry is [p], with the page table [d]. *)
Definition fork_fill (i : nat) (p : proc) (d : Z) (np : nat) : K unit :=
  pt (upd_proc np (set_p_pgdir d)) ;;;
  pt (upd_proc np (set_p_sz (p_sz p))) ;;;
  pt (upd_proc np (set_p_parent (Some i))) ;;;
  pt (upd_proc np (set_p_frame (set_eax 0 (p_frame p)))) ;;;
  dup_files p np ;;;
  svc (svc_idup (p_cwd p)) ;;;
  pt (upd_proc np (set_p_cwd (p_cwd p))) ;;;
  copy_name np (p_name p) ;;;
  pt (upd_proc np (set_p_uid (p_uid p))) ;;;
  pt (upd_proc np (set_p_gid (p_gid p))).
(** Under ptable.lock, the child becomes RUNNABLE. *)
Definition fork_publish (np : nat) : K Z :=
  let! q := pt (get_proc np) in
  let pid := p_pid q in
  mch (acquire "ptable") ;;;
  pt (assertState (Some np) EMBRYO) ;;;
  let! r := pt (removeFromStateList LEmbryo (Some np)) in
  complain r "Failed to remove EMBRYO proc from list (fork)." ;;;
  pt (upd_proc np (set_p_state RUNNABLE)) ;;;
  let! q := pt (get_proc np) in
  let! r := pt (addToStateListEnd (LReady (p_priority q)) (Some np)) in
  complain r "Failed to add RUNNABLE proc to list (fork)." ;;;
  mch (release "ptable") ;;;
  ret (s32 pid).

(** The memory, the files and the name of the child [np]: false when there is no
    memory for it. *)
Definition fork_copy (np : nat) : K bool :=
  let! i := deref_cur in
  let! p := pt (get_proc i) in
  let! d := svc (svc_copyuvm (p_pgdir p) (p_sz p)) in
  match d with
  | None => fork_fail np ;;; ret false
  | Some d => fork_fill i p d np ;;; ret true
  end.

Definition fork : K Z :=
  let! o := allocproc in
  match o with
  | None => ret (-1)
  | Some np =>
      let! b := fork_copy np in
      if b then fork_publish np else ret (-1)
  end.

(** ** Walking a list *)

(** [while (p) { body; p = p->next }] *)
Fixpoint walk (fuel : nat) (p : option nat) (body : nat → K unit) : K unit :=
  match fuel with
  | O => diverge
  | S f =>
      match p with
      | None => skip
      | Some i =>
          body i ;;;
          let! pr := pt (get_proc i) in
          walk f (p_next pr) body
      end
  end.
(** [while (current) { p = current; current = current->next; body }] *)
Fixpoint walk_ahead (fuel : nat) (p : option nat) (body : nat → K unit) : K unit :=
  match fuel with
  | O => diverge
  | S f =>
      match p with
      | None => skip
      | Some i =>
          let! pr := pt (get_proc i) in
          body i ;;;
          walk_ahead f (p_next pr) body
      end
  end.
(** [while (p) { if (test(p)) ...return...; p = p->next }]: the process found. *)
Fixpoint find_from (fuel : nat) (p : option nat) (test : proc → bool) : M ptable (option nat) :=
  match fuel with
  | O => diverge
  | S f =>
      match p with
      | None => ret None
      | Some i =>
          let! pr := get_proc i in
          if test pr then ret (Some i) else find_from f (p_next pr) test
      end
  end.
Definition walk_list (k : slist) (body : nat → K unit) : K unit :=
  let! h := pt (get_list k) in walk walk_fuel h body.
Definition walk_ahead_list (k : slist) (body : nat → K unit) : K unit :=
  let! h := pt (get_list k) in walk_ahead walk_fuel h body.
(** The first process that passes the test, on the lists taken in turn. *)
Fixpoint find_on (ks : list slist) (test : proc → bool) : M ptable (option (slist * nat)) :=
  match ks with
  | [] => ret None
  | k :: ks' =>
      let! h := get_list k in
      let! r := find_from walk_fuel h test in
      match r with
      | Some i => ret (Some (k, i))
      | None => find_on ks' test
      end
  end.
Definition ready_lists : list slist := [LReady 0; LReady 1; LReady 2].

(** ** wakeup *)
Definition wakeup1_body (ch : chan) (i : nat) : K unit :=
  pt (assertState (Some i) SLEEPING) ;;;
  let! p := pt (get_proc i) in
  if decide (p_chan p = ch) then
    let! r := pt (removeFromStateList LSleep (Some i)) in
    complain r "Failed to remove SLEEPING proc to list (wakeup1)." ;;;
    pt (upd_proc i (set_p_state RUNNABLE)) ;;;
    let! p := pt (get_proc i) in
    let! r := pt (addToStateListEnd (LReady (p_priority p)) (Some i)) in
    complain r "Failed to add RUNNABLE proc to list (wakeup1)."
  else skip.
Definition wakeup1 (ch : chan) : K unit := walk_ahead_list LSleep (wakeup1_body ch).
Definition wakeup (ch : chan) : K unit :=
  mch (acquire "ptable") ;;; wakeup1 ch ;;; mch (release "ptable").

(** ** sched, and the part of scheduler that runs after it *)
Definition scheduler_tail : K unit :=
  (* switchkvm(): %cr3 only *)
  set_curproc None ;;;
  mch (release "ptable").

(** [k] is the continuation that the caller's stack holds. *)
Definition sched (k : bool → kcontext) : K unit :=
  let! h := mch (holding "ptable") in
  if negb h then panic "sched ptable.lock" else
  let! c := mch mycpu in
  if decide (c_ncli c ≠ 1) then panic "sched locks" else
  let! i := deref_cur in
  let! p := pt (get_proc i) in
  if decide (p_state p = RUNNING) then panic "sched running" else
  if c_IF c then panic "sched interruptible" else
  let intena := c_intena c in
  let! now := gets k_ticks in
  pt (upd_proc i (λ p, set_p_cpu_ticks_total
        (u32 (p_cpu_ticks_total p + (now - p_cpu_ticks_in p))) p)) ;;;
  (* swtch(&proc->context, cpu->scheduler) *)
  pt (upd_proc i (set_p_saved (k intena))) ;;;
  scheduler_tail.

(** ** The budget of a process that leaves the CPU *)
Definition charge (now : Z) (p : proc) : proc :=
  let p := set_p_budget (s32 (p_budget p - u32 (now - p_cpu_ticks_in p))) p in
  if decide (p_budget p ≤ 0) then
    let p := if decide (p_priority p < MAX) then set_p_priority (p_priority p + 1) p else p in
    set_p_budget BUDGET p
  else p.

(** ** yield *)
Definition yield : K unit :=
  mch (acquire "ptable") ;;;
  let! cur := curproc in
  pt (assertState cur RUNNING) ;;;
  let! r := pt (removeFromStateList LRunning cur) in
  complain r "Failed to remove RUNNING proc to list (yeild)." ;;;
  let! i := deref_cur in
  pt (upd_proc i (set_p_state RUNNABLE)) ;;;
  let! now := gets k_ticks in
  pt (upd_proc i (charge now)) ;;;
  let! p := pt (get_proc i) in
  let! r := pt (addToStateListEnd (LReady (p_priority p)) cur) in
  complain r "Failed to add RUNNABLE proc to list (yeild)." ;;;
  sched K_yield.

(** ** sleep, up to the switch *)
Definition sleep (ch : chan) (lk : option string) : K unit :=
  let! cur := curproc in
  match cur with
  | None => panic "sleep"
  | Some i =>
      (if decide (lk = Some "ptable") then skip else
         mch (acquire "ptable") ;;;
         match lk with Some l => mch (release l) | None => skip end) ;;;
      pt (upd_proc i (set_p_chan ch)) ;;;
      pt (assertState cur RUNNING) ;;;
      let! r := pt (removeFromStateList LRunning cur) in
      complain r "Could not remove RUNNING proc from list (sleep())." ;;;
      pt (upd_proc i (set_p_state SLEEPING)) ;;;
      let! now := gets k_ticks in
      pt (upd_proc i (charge now)) ;;;
      let! r := pt (addToStateListEnd LSleep cur) in
      complain r "Could not add SLEEPING proc to list (sleep())." ;;;
      sched (λ en, K_sleep en lk)
  end.

(** ** exit *)

(** Close the files and drop the current directory. *)
Definition exit_check : K unit :=
  let! cur := curproc in
  let! init := gets k_initproc in
  if decide (cur = init) then panic "init exiting" else skip.
Definition exit_ofile (fd : nat) : K unit :=
  let! i := deref_cur in
  let! p := pt (get_proc i) in
  match p_ofile p !! fd with
  | Some (Some f) =>
      svc (svc_fileclose f) ;;;
      pt (upd_proc i (λ q, set_p_ofile (<[fd := None]> (p_ofile q)) q))
  | _ => skip
  end.
Definition exit_cwd : K unit :=
  let! i := deref_cur in
  let! p := pt (get_proc i) in
  svc (svc_iput_op (p_cwd p)) ;;;
  pt (upd_proc i (set_p_cwd None)).
Definition exit_files : K unit :=
  exit_check ;;; mfor (seq 0 NOFILE) exit_ofile ;;; exit_cwd.

(** [if (p->parent == proc) p->parent = initproc] *)
Definition reparent (cur : nat) (init : option nat) (i : nat) : K unit :=
  let! p := pt (get_proc i) in
  if decide (p_parent p = Some cur) then pt (upd_proc i (set_p_parent init)) else skip.
Definition reparent_zombie (cur : nat) (init : option nat) (i : nat) : K unit :=
  let! p := pt (get_proc i) in
  if decide (p_parent p = Some cur) then
    pt (upd_proc i (set_p_parent init)) ;;;
    wakeup1 (chan_of_proc init)
  else skip.

(** The loops of exit that give the children of [i] to init. *)
Definition pass_children (i : nat) (init : option nat) : K unit :=
  walk_ahead_list LZombie (reparent_zombie i init) ;;;
  walk_list LRunning (reparent i init) ;;;
  mfor ready_lists (λ k, walk_list k (reparent i init)) ;;;
  walk_list LSleep (reparent i init) ;;;
  walk_list LEmbryo (reparent i init) ;;;
  walk_list LFree (reparent i init).

Definition exit_sched : K unit :=
  mch (acquire "ptable") ;;;
  let! i := deref_cur in
  let! init := gets k_initproc in
  let! p := pt (get_proc i) in
  wakeup1 (chan_of_proc (p_parent p)) ;;;
  pass_children i init ;;;
  pt (assertState (Some i) RUNNING) ;;;
  let! r := pt (removeFromStateList LRunning (Some i)) in
  complain r "Failed to remove RUNNING proc from list (exit)." ;;;
  pt (upd_proc i (set_p_state ZOMBIE)) ;;;
  let! r := pt (addToStateListHead LZombie (Some i)) in
  complain r "Failed to add ZOMBIE proc to list (exit)." ;;;
  sched (λ _, K_exit).

Definition exit : K unit := exit_files ;;; exit_sched.

(** ** wait *)

(** Free a zombie child: the branch of wait that returns its pid. *)
Definition reap (j : nat) : K Z :=
  let! p := pt (get_proc j) in
  let pid := p_pid p in
  svc (svc_kfree (p_kstack p)) ;;;
  pt (upd_proc j (set_p_kstack 0)) ;;;
  svc (svc_freevm (p_pgdir p)) ;;;
  pt (assertState (Some j) ZOMBIE) ;;;
  let! r := pt (removeFromStateList LZombie (Some j)) in
  complain r "Failed to remove ZOMBIE process from list (wait)." ;;;
  pt (upd_proc j (set_p_state UNUSED)) ;;;
  let! r := pt (addToStateListHead LFree (Some j)) in
  complain r "Failed to add UNUSED process to list (wait)." ;;;
  pt (upd_proc j (set_p_pid 0)) ;;;
  pt (upd_proc j (set_p_parent None)) ;;;
  pt (upd_proc j (λ p, set_p_name (<[O := 0]> (p_name p)) p)) ;;;
  pt (upd_proc j (set_p_killed 0)) ;;;
  mch (release "ptable") ;;;
  ret (s32 pid).

Definition child_of (i : nat) (p : proc) : bool := bool_decide (p_parent p = Some i).

(** One turn of the loop of wait, with ptable.lock held: the value returned, or
    [None] when the process went to sleep. *)
Definition wait_iter : K (option Z) :=
  let! i := deref_cur in
  let! z := pt (find_on [LZombie] (child_of i)) in
  match z with
  | Some (_, j) => let! pid := reap j in ret (Some pid)
  | None =>
      let! kid := pt (find_on (ready_lists ++ [LRunning; LSleep]) (child_of i)) in
      let! p := pt (get_proc i) in
      if decide (kid = None ∨ p_killed p ≠ 0) then
        mch (release "ptable") ;;; ret (Some (-1))
      else
        sleep (ChProc i) (Some "ptable") ;;; ret None
  end.
Definition wait : K (option Z) := mch (acquire "ptable") ;;; wait_iter.

(** ** Where a process continues when scheduler switches to it *)
Definition forkret : K unit :=
  mch (release "ptable") ;;;
  let! f := gets k_first in
  if f then modS (set_k_first false) ;;; svc svc_fsinit else skip.

(** The end of sleep; for wait (which sleeps with ptable.lock) the next turn of
    its loop. *)
Definition sleep_return (i : nat) (lk : option string) : K unit :=
  pt (upd_proc i (set_p_chan ChNull)) ;;;
  if decide (lk = Some "ptable") then let! _ := wait_iter in skip
  else
    mch (release "ptable") ;;;
    match lk with Some l => mch (acquire l) | None => skip end.

Definition resume (i : nat) : K unit :=
  let! p := pt (get_proc i) in
  match p_saved p with
  | K_none => fault
  | K_forkret => forkret
  | K_yield en => mch (upd_cpu (set_c_intena en)) ;;; mch (release "ptable")
  | K_sleep en lk => mch (upd_cpu (set_c_intena en)) ;;; sleep_return i lk
  | K_exit => panic "zombie exit"
  end.

(** ** promoteAll *)
Definition raise_priority (p : proc) : proc :=
  if decide (p_priority p > 0) then set_p_priority (p_priority p - 1) p else p.

Definition promote_body (i : nat) : K unit :=
  pt (assertState (Some i) RUNNABLE) ;;;
  let! p := pt (get_proc i) in
  let! r := pt (removeFromStateList (LReady (p_priority p)) (Some i)) in
  complain r "promoteAll: Could not remove from ready list." ;;;
  pt (upd_proc i raise_priority) ;;;
  let! p := pt (get_proc i) in
  let! r := pt (addToStateListEnd (LReady (p_priority p)) (Some i)) in
  complain r "promoteAll: Could not add to ready list.".

Definition promoteAll : K unit :=
  mfor [1; 2] (λ q, walk_ahead_list (LReady q) promote_body) ;;;
  walk_list LSleep (λ i, pt (upd_proc i raise_priority)) ;;;
  walk_list LRunning (λ i, pt (upd_proc i raise_priority)).

(** ** scheduler *)
Fixpoint pick (qs : list Z) : K (option nat) :=
  match qs with
  | [] => ret None
  | q :: qs' =>
      let! p := pt (get_list (LReady q)) in
      match p with
      | None => pick qs'
      | Some i =>
          pt (assertState p RUNNABLE) ;;;
          let! pr := pt (get_proc i) in
          let! h := pt (removeHead (LReady (p_priority pr))) in
          match h with
          | None => panic "Scheduler: removeHead failed."
          | Some j =>
              set_curproc (Some j) ;;;
              switchuvm j ;;;
              pt (upd_proc j (set_p_state RUNNING)) ;;;
              let! r := pt (addToStateListEnd LRunning (Some j)) in
              complain r "Failed to add RUNNING proc to list (scheduler)." ;;;
              let! now := gets k_ticks in
              pt (upd_proc j (set_p_cpu_ticks_in now)) ;;;
              ret (Some j)
          end
      end
  end.

Definition promote_if_due : K unit :=
  let! now := gets k_ticks in
  let! t := gets k_ptable in
  if decide (pt_promoteAtTime t = now) then
    promoteAll ;;;
    modS (λ s, set_k_ptable (set_pt_promoteAtTime (u32 (now + TIME_TO_PROMOTE)) (k_ptable s)) s)
  else skip.

(** One turn of the endless loop: the process that was started, if any. *)
Definition scheduler : K (option nat) :=
  mch sti ;;;
  mch (acquire "ptable") ;;;
  promote_if_due ;;;
  let! r := pick [0; 1; 2] in
  match r with
  | Some j => resume j ;;; ret (Some j)
  | None => mch (release "ptable") ;;; mch sti (* hlt *) ;;; ret None
  end.

(** ** kill and setpriority *)
Definition has_pid (pid : Z) (p : proc) : bool := bool_decide (p_pid p = u32 pid).

Definition kill (pid : Z) : K Z :=
  mch (acquire "ptable") ;;;
  let! s := pt (find_on [LSleep] (has_pid pid)) in
  match s with
  | Some (_, i) =>
      pt (upd_proc i (set_p_killed 1)) ;;;
      pt (assertState (Some i) SLEEPING) ;;;
      let! r := pt (removeFromStateList LSleep (Some i)) in
      complain r "Could not remove SLEEPING proc from list (kill)." ;;;
      pt (upd_proc i (set_p_state RUNNABLE)) ;;;
      let! p := pt (get_proc i) in
      let! r := pt (addToStateListEnd (LReady (p_priority p)) (Some i)) in
      complain r "Could not add RUNNABLE proc to list (kill)." ;;;
      mch (release "ptable") ;;;
      ret 0
  | None =>
      let! o := pt (find_on (ready_lists ++ [LRunning; LFree; LZombie; LEmbryo]) (has_pid pid)) in
      match o with
      | Some (_, i) =>
          pt (upd_proc i (set_p_killed 1)) ;;; mch (release "ptable") ;;; ret 0
      | None => mch (release "ptable") ;;; ret (-1)
      end
  end.

Definition setpriority (pid priority : Z) : K Z :=
  mch (acquire "ptable") ;;;
  let! o := pt (find_on ready_lists (has_pid pid)) in
  match o with
  | Some (_, i) =>
      let! p := pt (get_proc i) in
      let! r := pt (removeFromStateList (LReady (p_priority p)) (Some i)) in
      complain r "setpriority: remove from ready list failed." ;;;
      pt (upd_proc i (set_p_priority (u32 priority))) ;;;
      let! p := pt (get_proc i) in
      let! r := pt (addToStateListEnd (LReady (p_priority p)) (Some i)) in
      complain r "setpriority: add to ready list failed." ;;;
      pt (upd_proc i (set_p_budget BUDGET)) ;;;
      mch (release "ptable") ;;;
      ret 0
  | None =>
      let! o := pt (find_on [LRunning; LSleep] (has_pid pid)) in
      match o with
      | Some (_, i) =>
          pt (upd_proc i (set_p_priority (u32 priority))) ;;;
          pt (upd_proc i (set_p_budget BUDGET)) ;;;
          mch (release "ptable") ;;;
          ret 0
      | None => mch (release "ptable") ;;; ret (-1)
      end
  end.

End proc.
