(* ===== verification/ProcWp.v ===== *)
(** * Proof rules for the process subsystem

    Rules for the steps that proc.c repeats: taking and dropping ptable.lock,
    walking a list, searching the lists, moving a process from one list to
    another.  Each operation's proof in ProcInv is a sequence of these. *)

From S2P Require Import Prelude Spinlock CString ProcData ProcList Proc.
Local Open Scope Z_scope.

(** ** The CPU's view of ptable.lock *)

(** CPU [c] runs and nobody holds ptable.lock. *)
Definition lock_free (m : machine) (c : cpu) : Prop :=
  m_cpus m !! m_gs m = Some c ∧ lk_locked (get_lock "ptable" m) = false.
(** CPU [c] runs and holds ptable.lock, with interrupts off. *)
Definition lock_mine (m : machine) (c : cpu) : Prop :=
  m_cpus m !! m_gs m = Some c ∧ get_lock "ptable" m = mklock true (Some (m_gs m)) ∧
  c_IF c = false ∧ 0 < c_ncli c.

(** The running CPU changed its own state and the locks of [L] only. *)
Definition cpu_step (L : list string) (m m' : machine) : Prop :=
  m_gs m' = m_gs m ∧ (∃ c', m_cpus m' = <[m_gs m := c']> (m_cpus m)) ∧
  ∀ lk, lk ∉ L → get_lock lk m' = get_lock lk m.

#[export] Instance cpu_step_preorder L : PreOrder (cpu_step L).
Proof.
  split.
  - intros m. split_and!; [done| |done].
    destruct (m_cpus m !! m_gs m) as [c|] eqn:Hc.
    + exists c. by rewrite list_insert_id.
    + exists boot_cpu. rewrite list_insert_ge; [done|]. by apply lookup_ge_None.
  - intros m1 m2 m3 (Hg & [c Hc] & Hl) (Hg' & [c' Hc'] & Hl'). split_and!; [congruence| |].
    + exists c'. by rewrite Hc', Hg, Hc, list_insert_insert_eq.
    + intros lk Hlk. by rewrite Hl', Hl.
Qed.
Lemma cpu_step_mono L L' m m' : cpu_step L m m' → L ⊆ L' → cpu_step L' m m'.
Proof. intros (?&?&Hl) HL. split_and!; [done|done|]. intros lk Hlk. apply Hl. set_solver. Qed.

(** The processes on the CPUs. *)
Definition running (m : machine) : list nat := omap c_proc (m_cpus m).

Lemma cpu_step_cpus L m m' c' :
  cpu_step L m m' → m_cpus m' !! m_gs m' = Some c' → m_cpus m' = <[m_gs m := c']> (m_cpus m).
Proof.
  intros (Hg & [c Hc] & _) Hc'. rewrite Hc, Hg in Hc'. rewrite Hc.
  apply list_lookup_insert_cases in Hc' as [[_ ->]|[? _]]; done.
Qed.

Lemma running_insert m n c c' :
  m_cpus m !! n = Some c →
  ∃ l1 l2, running m = l1 ++ option_list (c_proc c) ++ l2 ∧
           omap c_proc (<[n := c']> (m_cpus m)) = l1 ++ option_list (c_proc c') ++ l2.
Proof.
  intros Hc. pose proof (lookup_lt_Some _ _ _ Hc) as Hlt. unfold running.
  exists (omap c_proc (take n (m_cpus m))), (omap c_proc (drop (S n) (m_cpus m))).
  rewrite insert_take_drop by done. rewrite <- (take_drop_middle _ _ _ Hc) at 1.
  rewrite !omap_app. simpl. by destruct (c_proc c), (c_proc c').
Qed.

Section running_step.
Context (L : list string) (m m' : machine) (c c' : cpu).
Context (Hc : m_cpus m !! m_gs m = Some c) (Hc' : m_cpus m' !! m_gs m' = Some c').
Context (Hs : cpu_step L m m').

Lemma running_same : c_proc c' = c_proc c → running m' = running m.
Proof.
  intros Hp. destruct (running_insert m _ c c' Hc) as (l1 & l2 & Hr & Hr').
  rewrite Hr. unfold running at 1. by rewrite (cpu_step_cpus _ _ _ _ Hs Hc'), Hr', Hp.
Qed.
Lemma running_drop i : c_proc c = Some i → c_proc c' = None → running m ≡ₚ i :: running m'.
Proof.
  intros Hi Hn. destruct (running_insert m _ c c' Hc) as (l1 & l2 & Hr & Hr').
  unfold running at 2. rewrite (cpu_step_cpus _ _ _ _ Hs Hc'), Hr', Hr, Hi, Hn. simpl.
  by rewrite Permutation_middle.
Qed.
Lemma running_start i : c_proc c = None → c_proc c' = Some i → running m' ≡ₚ i :: running m.
Proof.
  intros Hi Hn. destruct (running_insert m _ c c' Hc) as (l1 & l2 & Hr & Hr').
  unfold running at 1. rewrite (cpu_step_cpus _ _ _ _ Hs Hc'), Hr', Hr, Hi, Hn. simpl.
  by rewrite Permutation_middle.
Qed.
End running_step.

Lemma lookup_set_cpu m c v : m_cpus m !! m_gs m = Some c → m_cpus (set_cpu v m) !! m_gs m = Some v.
Proof. intros Hc. simpl. apply list_lookup_insert_eq. by eapply lookup_lt_Some. Qed.

Lemma set_cpu_id m c : m_cpus m !! m_gs m = Some c → set_cpu c m = m.
Proof. destruct m. unfold set_cpu; simpl. intros. by rewrite list_insert_id. Qed.

(** A table and a machine put back unchanged. *)
Lemma set_k_mach_id {W} (s : kstate W) : set_k_mach (k_mach s) s = s.
Proof. by destruct s. Qed.
Lemma set_k_ptable_id {W} (s : kstate W) : set_k_ptable (k_ptable s) s = s.
Proof. by destruct s. Qed.

(** ** The table up to its links

    [tbl X ps a pr t]: [t] is well formed with the lists [a] and the process [X]
    in hand, its entries are those of [ps] except for their [next] fields, and
    its promotion time is [pr]. *)
Record tbl (X : option nat) (ps : list proc) (a : alists) (pr : Z) (t : ptable) : Prop := mktbl {
  tb_wf : wfx X t a;
  tb_ps : same_but_next ps (pt_proc t);
  tb_pr : pt_promoteAtTime t = pr
}.

(** A change of a process entry that neither reads nor writes its link. *)
Class NextBlind (f : proc → proc) : Prop :=
  next_blind : ∀ n p, f (set_p_next n p) = set_p_next n (f p).
#[export] Hint Extern 0 (NextBlind _) => (intros ? []; reflexivity) : typeclass_instances.

Lemma next_blind_next f `{!NextBlind f} p : p_next (f p) = p_next p.
Proof.
  assert (p = set_p_next (p_next p) p) as Hp by (by destruct p).
  rewrite Hp at 1. rewrite (next_blind (p_next p) p). done.
Qed.
Lemma next_blind_erase f `{!NextBlind f} p q : erase p = erase q → erase (f p) = erase (f q).
Proof.
  unfold erase. intros Heq. by rewrite <- !(next_blind (f := f) None), Heq.
Qed.

Lemma tbl_lookup X ps a pr t i p :
  tbl X ps a pr t → ps !! i = Some p → ∃ n, pt_proc t !! i = Some (set_p_next n p).
Proof.
  intros [_ Hs _] Hp. symmetry in Hs.
  destruct (same_but_next_lookup _ _ _ _ Hs Hp) as (p' & Hp' & Heq).
  exists (p_next p'). rewrite Hp'. f_equal. rewrite Heq. by destruct p'.
Qed.
Lemma tbl_lookup_rev X ps a pr t i p' :
  tbl X ps a pr t → pt_proc t !! i = Some p' →
  ∃ p, ps !! i = Some p ∧ p' = set_p_next (p_next p') p.
Proof. intros [_ Hs _] Hp. by apply same_but_next_lookup with (pt_proc t). Qed.
Lemma tbl_in X ps a pr t i k :
  tbl X ps a pr t → i ∈ a k → ∃ p, ps !! i = Some p ∧ k = list_of p ∧ X ≠ Some i.
Proof.
  intros Ht Hi. destruct (wfx_in_lookup _ _ _ (tb_wf _ _ _ _ _ Ht) _ _ Hi) as (p' & Hp' & -> & HX).
  destruct (tbl_lookup_rev _ _ _ _ _ _ _ Ht Hp') as (p & Hp & ->). eauto.
Qed.
Lemma tbl_mem X ps a pr t i p k :
  tbl X ps a pr t → ps !! i = Some p → i ∈ a k ↔ X ≠ Some i ∧ k = list_of p.
Proof.
  intros Ht Hp. destruct (tbl_lookup _ _ _ _ _ _ _ Ht Hp) as [n Hn].
  by rewrite (wf_mem _ _ _ (tb_wf _ _ _ _ _ Ht) _ _ Hn).
Qed.
Lemma tbl_prio X ps a pr t i p :
  tbl X ps a pr t → ps !! i = Some p → 0 ≤ p_priority p ≤ MAX.
Proof.
  intros Ht Hp. destruct (tbl_lookup _ _ _ _ _ _ _ Ht Hp) as [n Hn].
  exact (wf_prio _ _ _ (tb_wf _ _ _ _ _ Ht) _ _ Hn).
Qed.
Lemma tbl_length X ps a pr t : tbl X ps a pr t → length ps = NPROC.
Proof.
  intros [Hwf Hs _]. rewrite (same_but_next_length _ _ Hs). by apply (wf_len _ _ _ Hwf).
Qed.
Lemma tbl_self X t a : wfx X t a → tbl X (pt_proc t) a (pt_promoteAtTime t) t.
Proof. by split. Qed.

Lemma same_but_next_insert ps qs i p q :
  same_but_next ps qs → erase p = erase q → same_but_next (<[i := p]> ps) (<[i := q]> qs).
Proof. unfold same_but_next. intros Hs Hpq. by rewrite !list_fmap_insert, Hs, Hpq. Qed.

Lemma erase_set_next n p : erase (set_p_next n p) = erase p.
Proof. done. Qed.

(** After the nodes [kept], the list goes on with [rest]. *)
Lemma lseg_head t h l : chain t h l → h = head l.
Proof. destruct l; simpl; naive_solver. Qed.
Lemma chain_next t h kept i rest :
  chain t h (kept ++ i :: rest) → ∃ p, t !! i = Some p ∧ p_next p = head rest.
Proof.
  intros (m & _ & (-> & p & Hp & Hrest))%lseg_app. exists p. split; [done|]. by eapply lseg_head.
Qed.
Lemma tbl_next X ps a pr t k kept i rest :
  tbl X ps a pr t → a k = kept ++ i :: rest →
  ∃ p, pt_proc t !! i = Some p ∧ p_next p = head rest.
Proof.
  intros [Hwf _ _] Ha.
  destruct (wfx_head_in _ _ _ Hwf i k) as [h Hk]; [rewrite Ha; set_solver|].
  pose proof (wf_chain _ _ _ Hwf _ _ Hk) as Hch. rewrite Ha in Hch. by eapply chain_next.
Qed.
Lemma tbl_head X ps a pr t k h :
  tbl X ps a pr t → get_head k (pt_pLists t) = Some h → h = head (a k).
Proof. intros [Hwf _ _] Hk. eapply lseg_head, (wf_chain _ _ _ Hwf), Hk. Qed.

(** The first process of a list that passes a test. *)
Fixpoint first_match (ps : list proc) (test : proc → bool) (l : list nat) : option nat :=
  match l with
  | [] => None
  | i :: l' =>
      match ps !! i with
      | Some p => if test p then Some i else first_match ps test l'
      | None => first_match ps test l'
      end
  end.
Fixpoint first_on (ps : list proc) (a : alists) (test : proc → bool) (ks : list slist)
    : option (slist * nat) :=
  match ks with
  | [] => None
  | k :: ks' =>
      match first_match ps test (a k) with
      | Some i => Some (k, i)
      | None => first_on ps a test ks'
      end
  end.

Lemma first_match_Some ps test l i :
  first_match ps test l = Some i → i ∈ l ∧ ∃ p, ps !! i = Some p ∧ test p = true.
Proof.
  induction l as [|j l IH]; simpl; [done|].
  destruct (ps !! j) as [p|] eqn:Hp; [destruct (test p) eqn:Ht|]; set_solver.
Qed.
Lemma first_match_None ps test l i p :
  first_match ps test l = None → i ∈ l → ps !! i = Some p → test p = false.
Proof.
  induction l as [|j l IH]; simpl; [set_solver|]. intros Hm Hi Hp.
  apply elem_of_cons in Hi as [->|Hi].
  - rewrite Hp in Hm. by destruct (test p).
  - destruct (ps !! j) as [q|]; [destruct (test q)|]; [done|auto|auto].
Qed.
Lemma first_on_Some ps a test ks k i :
  first_on ps a test ks = Some (k, i) →
  k ∈ ks ∧ i ∈ a k ∧ ∃ p, ps !! i = Some p ∧ test p = true.
Proof.
  induction ks as [|k' ks IH]; simpl; [done|].
  destruct (first_match ps test (a k')) eqn:Hm.
  - intros [= -> ->]. apply first_match_Some in Hm. set_solver.
  - set_solver.
Qed.
Lemma first_on_None ps a test ks k i p :
  first_on ps a test ks = None → k ∈ ks → i ∈ a k → ps !! i = Some p → test p = false.
Proof.
  induction ks as [|k' ks IH]; simpl; [set_solver|].
  destruct (first_match ps test (a k')) eqn:Hm; [done|].
  intros Ho Hk Hi Hp. apply elem_of_cons in Hk as [->|Hk]; eauto using first_match_None.
Qed.

(** A test that does not look at the link. *)
Class TestBlind (test : proc → bool) : Prop :=
  test_blind : ∀ n p, test (set_p_next n p) = test p.
#[export] Hint Extern 0 (TestBlind _) => (intros ? []; reflexivity) : typeclass_instances.

Lemma first_match_same ps qs test `{!TestBlind test} l :
  same_but_next ps qs → first_match qs test l = first_match ps test l.
Proof.
  intros Hs. induction l as [|i l IH]; simpl; [done|]. rewrite IH.
  destruct (qs !! i) as [q|] eqn:Hq.
  - destruct (same_but_next_lookup _ _ _ _ Hs Hq) as (p & -> & ->). by rewrite test_blind.
  - apply lookup_ge_None in Hq. rewrite <- (same_but_next_length _ _ Hs) in Hq.
    apply lookup_ge_None in Hq. by rewrite Hq.
Qed.

#[global] Arguments find_from : simpl never.
#[global] Arguments walk_list : simpl never.
#[global] Arguments walk_ahead_list : simpl never.
#[global] Arguments wakeup1 : simpl never.
#[global] Arguments sched : simpl never.
#[global] Arguments acquire : simpl never.
#[global] Arguments release : simpl never.
#[global] Arguments remove1 : simpl never.
#[global] Arguments walk : simpl never.
#[global] Arguments walk_ahead : simpl never.

Section rules.
Context {W : Type} `{KSvc W} (E : string → Prop).
Implicit Types (s : kstate W).

Lemma wp_pt {A} (m : M ptable A) Q s :
  wp E m (λ a t, Q a (set_k_ptable t s)) (k_ptable s) → wp E (pt m) Q s.
Proof. apply wp_zoom. Qed.
Lemma wp_mch {A} (m : M machine A) Q s :
  wp E m (λ a t, Q a (set_k_mach t s)) (k_mach s) → wp E (mch m) Q s.
Proof. apply wp_zoom. Qed.
Lemma wp_svc {A} (m : M W A) Q s :
  wp E m (λ a t, Q a (set_k_world t s)) (k_world s) → wp E (svc m) Q s.
Proof. apply wp_zoom. Qed.

(** *** Locks and the current process *)
Lemma wp_acquire_pt c Q s :
  lock_free (k_mach s) c →
  (∀ m', lock_mine m' (pushed c) → cpu_step ["ptable"] (k_mach s) m' → Q tt (set_k_mach m' s)) →
  0 ≤ c_ncli c →
  wp E (mch (acquire "ptable")) Q s.
Proof.
  intros [Hc Hl] HQ Hn. apply wp_mch. eapply wp_Ok; [by apply acquire_eq|]. apply HQ.
  - split_and!.
    + exact (lookup_set_cpu (k_mach s) c (pushed c) Hc).
    + apply get_lock_set_lock.
    + done.
    + simpl. lia.
  - split_and!; [done|by exists (pushed c)|].
    intros lk Hlk. by rewrite get_lock_set_lock_ne by set_solver.
Qed.

Lemma wp_release_pt c Q s :
  lock_mine (k_mach s) c →
  (∀ m', lock_free m' (popped c) → cpu_step ["ptable"] (k_mach s) m' → Q tt (set_k_mach m' s)) →
  wp E (mch (release "ptable")) Q s.
Proof.
  intros (Hc & Hl & HIF & Hn) HQ. apply wp_mch.
  eapply wp_Ok; [apply release_eq; [done| |done|done]|].
  { rewrite Hl. unfold holding_by. simpl. by rewrite bool_decide_true. }
  apply HQ.
  - split; [exact (lookup_set_cpu (k_mach s) c (popped c) Hc)|].
    by rewrite get_lock_set_cpu, get_lock_set_lock.
  - split_and!; [done|by exists (popped c)|].
    intros lk Hlk. by rewrite get_lock_set_cpu, get_lock_set_lock_ne by set_solver.
Qed.

Lemma wp_curproc c Q s :
  m_cpus (k_mach s) !! m_gs (k_mach s) = Some c → Q (c_proc c) s → wp E curproc Q s.
Proof.
  intros Hc HQ. apply wp_mch. eapply (wp_Ok _ _ _ _ (c_proc c) (k_mach s)).
  - unfold bind, mycpu. by rewrite Hc.
  - by rewrite set_k_mach_id.
Qed.

Lemma wp_deref_cur c i Q s :
  m_cpus (k_mach s) !! m_gs (k_mach s) = Some c → c_proc c = Some i → Q i s →
  wp E deref_cur Q s.
Proof.
  intros Hc Hi HQ. apply wp_bind. eapply wp_curproc; [done|]. by rewrite Hi.
Qed.

Lemma wp_complain r msg Q s : 0 ≤ r → Q tt s → wp E (complain r msg) Q s.
Proof. intros Hr HQ. unfold complain. by rewrite decide_False by lia. Qed.

(** *** Single accesses to the table *)
Lemma wp_pt_get i p Q s :
  pt_proc (k_ptable s) !! i = Some p → Q p s → wp E (pt (get_proc i)) Q s.
Proof.
  intros Hp HQ. apply wp_pt. eapply wp_get_proc; [done|]. by rewrite set_k_ptable_id.
Qed.
Lemma wp_pt_upd i f p Q s :
  pt_proc (k_ptable s) !! i = Some p →
  Q tt (set_k_ptable (set_pt_proc (<[i := f p]> (pt_proc (k_ptable s))) (k_ptable s)) s) →
  wp E (pt (upd_proc i f)) Q s.
Proof. intros Hp HQ. apply wp_pt. by eapply wp_upd_proc. Qed.
Lemma wp_pt_list k h Q s :
  get_head k (pt_pLists (k_ptable s)) = Some h → Q h s → wp E (pt (get_list k)) Q s.
Proof.
  intros Hk HQ. apply wp_pt. eapply wp_get_list; [done|]. by rewrite set_k_ptable_id.
Qed.
Lemma wp_pt_assert i st p Q s :
  pt_proc (k_ptable s) !! i = Some p → p_state p = st → Q tt s →
  wp E (pt (assertState (Some i) st)) Q s.
Proof.
  intros Hp Hst HQ. apply wp_pt. eapply wp_assertState; [done|done|]. by rewrite set_k_ptable_id.
Qed.

(** *** Accesses to the table up to its links *)
Section with_tbl.
Context (X : option nat) (ps : list proc) (a : alists) (pr : Z) (s : kstate W).
Context (Ht : tbl X ps a pr (k_ptable s)).

Lemma wp_tget i p Q :
  ps !! i = Some p → (∀ n, Q (set_p_next n p) s) → wp E (pt (get_proc i)) Q s.
Proof.
  intros Hp HQ. destruct (tbl_lookup _ _ _ _ _ _ _ Ht Hp) as [n Hn]. by eapply wp_pt_get.
Qed.

Lemma wp_tassert i p st Q :
  ps !! i = Some p → p_state p = st → Q tt s → wp E (pt (assertState (Some i) st)) Q s.
Proof.
  intros Hp Hst HQ. destruct (tbl_lookup _ _ _ _ _ _ _ Ht Hp) as [n Hn].
  by eapply wp_pt_assert.
Qed.

Lemma wp_tupd i p f `{!NextBlind f} Q :
  ps !! i = Some p → (X = Some i ∨ list_of (f p) = list_of p) → 0 ≤ p_priority (f p) ≤ MAX →
  (∀ t', tbl X (<[i := f p]> ps) a pr t' → Q tt (set_k_ptable t' s)) →
  wp E (pt (upd_proc i f)) Q s.
Proof.
  intros Hp Hl Hpr HQ. destruct (tbl_lookup _ _ _ _ _ _ _ Ht Hp) as [n Hn].
  eapply wp_pt_upd; [done|]. apply HQ. destruct Ht as [Hwf Hs Hpt].
  assert (f (set_p_next n p) = set_p_next n (f p)) as Hf by apply next_blind.
  split; [|simpl; apply same_but_next_insert; [done|by rewrite Hf]|done].
  destruct Hl as [->|Hl].
  - apply wfx_upd_inhand; [done|done|by apply next_blind_next|by rewrite Hf].
  - apply wfx_upd; [done|done|by apply next_blind_next|by rewrite Hf|by rewrite Hf].
Qed.

Lemma wp_taddHead i p k Q :
  X = Some i → ps !! i = Some p → k = list_of p →
  (∀ t', tbl None ps (<[k := i :: a k]> a) pr t' → Q 0 (set_k_ptable t' s)) →
  wp E (pt (addToStateListHead k (Some i))) Q s.
Proof.
  intros HX Hp -> HQ. destruct (tbl_lookup _ _ _ _ _ _ _ Ht Hp) as [n Hn].
  destruct Ht as [Hwf Hs Hpr]. rewrite HX in Hwf.
  apply wp_pt, (wp_addHead E i _ a (set_p_next n p)); [done|done|].
  intros t' Hwf' [Hlo Hpt]. apply HQ. split; [done|by etransitivity|congruence].
Qed.

Lemma wp_taddEnd i p k Q :
  X = Some i → ps !! i = Some p → k = list_of p →
  (∀ t', tbl None ps (<[k := a k ++ [i]]> a) pr t' → Q 0 (set_k_ptable t' s)) →
  wp E (pt (addToStateListEnd k (Some i))) Q s.
Proof.
  intros HX Hp -> HQ. destruct (tbl_lookup _ _ _ _ _ _ _ Ht Hp) as [n Hn].
  destruct Ht as [Hwf Hs Hpr]. rewrite HX in Hwf.
  apply wp_pt, (wp_addEnd E i _ a (set_p_next n p)); [done|done|].
  intros t' Hwf' [Hlo Hpt]. apply HQ. split; [done|by etransitivity|congruence].
Qed.

Lemma wp_tremove i k Q :
  X = None → i ∈ a k →
  (∀ t', tbl (Some i) ps (<[k := remove1 i (a k)]> a) pr t' → Q 0 (set_k_ptable t' s)) →
  wp E (pt (removeFromStateList k (Some i))) Q s.
Proof.
  intros HX Hi HQ. destruct Ht as [Hwf Hs Hpr]. rewrite HX in Hwf.
  apply wp_pt, (wp_removeFrom E i _ a); [done|done|].
  intros t' Hwf' [Hlo Hpt]. apply HQ. split; [done|by etransitivity|congruence].
Qed.

Lemma wp_tremoveHead i l k Q :
  X = None → a k = i :: l →
  (∀ t', tbl (Some i) ps (<[k := l]> a) pr t' → Q (Some i) (set_k_ptable t' s)) →
  wp E (pt (removeHead k)) Q s.
Proof.
  intros HX Hi HQ. destruct Ht as [Hwf Hs Hpr]. rewrite HX in Hwf.
  apply wp_pt, (wp_removeHead E i l _ a); [done|done|].
  intros t' Hwf' [Hlo Hpt]. apply HQ. split; [done|by etransitivity|congruence].
Qed.

Lemma wp_tlist k h Q :
  get_head k (pt_pLists (k_ptable s)) = Some h → Q (head (a k)) s → wp E (pt (get_list k)) Q s.
Proof.
  intros Hk HQ. eapply wp_pt_list; [done|].
  by rewrite (tbl_head _ _ _ _ _ _ _ Ht Hk).
Qed.

(** The valid list heads. *)
Lemma tbl_head_ok k :
  match k with LReady q => 0 ≤ q ≤ MAX | _ => True end →
  ∃ h, get_head k (pt_pLists (k_ptable s)) = Some h.
Proof.
  destruct k; simpl; eauto. intros Hq. apply (wfx_head_ready _ _ _ (tb_wf _ _ _ _ _ Ht) i Hq).
Qed.

(** Searches. *)
Lemma wp_find_from fuel kept rest k test `{!TestBlind test} Q :
  a k = kept ++ rest → (length rest < fuel)%nat → Q (first_match ps test rest) (k_ptable s) →
  wp E (find_from fuel (head rest) test) Q (k_ptable s).
Proof.
  revert kept rest. induction fuel as [|fuel IH]; intros kept rest Ha Hf HQ; [lia|].
  destruct rest as [|i rest]; [by apply wp_ret|]. cbn [find_from head].
  destruct (tbl_next _ _ _ _ _ _ _ _ _ Ht Ha) as (p & Hp & Hn).
  apply wp_bind. eapply wp_get_proc; [done|].
  destruct (tbl_lookup_rev _ _ _ _ _ _ _ Ht Hp) as (q & Hq & Hpq).
  simpl in HQ. rewrite Hq in HQ. rewrite Hpq at 1. rewrite test_blind.
  destruct (test q).
  - by apply wp_ret.
  - rewrite Hn. apply (IH (kept ++ [i])); [by rewrite <- app_assoc|simpl in Hf; lia|done].
Qed.

Lemma wp_find_on_t ks test `{!TestBlind test} Q :
  (∀ k, k ∈ ks → ∃ h, get_head k (pt_pLists (k_ptable s)) = Some h) →
  Q (first_on ps a test ks) (k_ptable s) → wp E (find_on ks test) Q (k_ptable s).
Proof.
  induction ks as [|k ks IH]; intros Hks HQ; simpl; [by apply wp_ret|].
  destruct (Hks k ltac:(set_solver)) as [h Hk].
  apply wp_bind. eapply wp_get_list; [done|].
  rewrite (tbl_head _ _ _ _ _ _ _ Ht Hk). apply wp_bind.
  eapply (wp_find_from _ [] _ k test); [done| |].
  { pose proof (wfx_length _ _ _ (tb_wf _ _ _ _ _ Ht) k). unfold walk_fuel. lia. }
  simpl in HQ. destruct (first_match ps test (a k)); [by apply wp_ret|].
  apply IH; [set_solver|done].
Qed.

Lemma wp_tfind ks test `{!TestBlind test} Q :
  (∀ k, k ∈ ks → match k with LReady q => 0 ≤ q ≤ MAX | _ => True end) →
  Q (first_on ps a test ks) s → wp E (pt (find_on ks test)) Q s.
Proof.
  intros Hks HQ. apply wp_pt, wp_find_on_t; [done| |by rewrite set_k_ptable_id].
  intros k Hk. apply tbl_head_ok. by apply Hks.
Qed.
End with_tbl.

(** *** Accesses to one process of the table

    [foc X i p ps a pr t]: the entry [i] of the table is now [p], the others are
    those of [ps]. *)
Definition foc (X : option nat) (i : nat) (p : proc) (ps : list proc) (a : alists) (pr : Z)
    (t : ptable) : Prop :=
  (i < length ps)%nat ∧ tbl X (<[i := p]> ps) a pr t.

Lemma foc_intro X i p ps a pr t : tbl X ps a pr t → ps !! i = Some p → foc X i p ps a pr t.
Proof.
  intros Ht Hp. split; [by eapply lookup_lt_Some|]. by rewrite list_insert_id.
Qed.
Lemma foc_tbl X i p ps a pr t : foc X i p ps a pr t → tbl X (<[i := p]> ps) a pr t.
Proof. by intros [_ Ht]. Qed.
Lemma foc_lookup X i p ps a pr t : foc X i p ps a pr t → <[i := p]> ps !! i = Some p.
Proof. intros [Hi _]. by apply list_lookup_insert_eq. Qed.

Lemma foc_prio X i p ps a pr t : foc X i p ps a pr t → 0 ≤ p_priority p ≤ MAX.
Proof. intros Hf. eapply tbl_prio; [by apply foc_tbl|by eapply foc_lookup]. Qed.

Section with_foc.
Context (X : option nat) (i : nat) (p : proc) (ps : list proc) (a : alists) (pr : Z).
Context (s : kstate W) (Hf : foc X i p ps a pr (k_ptable s)).

Lemma wp_fget Q : (∀ n, Q (set_p_next n p) s) → wp E (pt (get_proc i)) Q s.
Proof. by eapply wp_tget; [apply foc_tbl|eapply foc_lookup]. Qed.

Lemma wp_fassert st Q : p_state p = st → Q tt s → wp E (pt (assertState (Some i) st)) Q s.
Proof. by eapply wp_tassert; [apply foc_tbl|eapply foc_lookup]. Qed.

Lemma wp_fupd f `{!NextBlind f} Q :
  (X = Some i ∨ list_of (f p) = list_of p) → 0 ≤ p_priority (f p) ≤ MAX →
  (∀ t', foc X i (f p) ps a pr t' → Q tt (set_k_ptable t' s)) →
  wp E (pt (upd_proc i f)) Q s.
Proof.
  intros Hl Hpr HQ.
  eapply wp_tupd; [by apply foc_tbl|done|by eapply foc_lookup|done|done|].
  rewrite list_insert_insert_eq. intros t' Ht'. apply HQ. split; [apply Hf|done].
Qed.

Lemma wp_faddHead k Q :
  X = Some i → k = list_of p →
  (∀ t', foc None i p ps (<[k := i :: a k]> a) pr t' → Q 0 (set_k_ptable t' s)) →
  wp E (pt (addToStateListHead k (Some i))) Q s.
Proof.
  intros HX Hk HQ. eapply wp_taddHead; [by apply foc_tbl|done|by eapply foc_lookup|done|].
  intros t' Ht'. apply HQ. split; [apply Hf|done].
Qed.

Lemma wp_faddEnd k Q :
  X = Some i → k = list_of p →
  (∀ t', foc None i p ps (<[k := a k ++ [i]]> a) pr t' → Q 0 (set_k_ptable t' s)) →
  wp E (pt (addToStateListEnd k (Some i))) Q s.
Proof.
  intros HX Hk HQ. eapply wp_taddEnd; [by apply foc_tbl|done|by eapply foc_lookup|done|].
  intros t' Ht'. apply HQ. split; [apply Hf|done].
Qed.

Lemma wp_fremove k Q :
  X = None → k = list_of p →
  (∀ t', foc (Some i) i p ps (<[k := remove1 i (a k)]> a) pr t' → Q 0 (set_k_ptable t' s)) →
  wp E (pt (removeFromStateList k (Some i))) Q s.
Proof.
  intros HX Hk HQ. eapply wp_tremove; [by apply foc_tbl|done| |].
  - eapply tbl_mem; [by apply foc_tbl|by eapply foc_lookup|]. by rewrite HX.
  - intros t' Ht'. apply HQ. split; [apply Hf|done].
Qed.
End with_foc.

(** *** Loops over a list *)
Lemma wp_walk_ahead fuel rest body (I : list nat → kstate W → Prop) Q s :
  (∀ i rest s, I (i :: rest) s →
     ∃ p, pt_proc (k_ptable s) !! i = Some p ∧ p_next p = head rest) →
  (∀ i rest s, I (i :: rest) s → wp E (body i) (λ _ s', I rest s') s) →
  (length rest < fuel)%nat → I rest s → (∀ s', I [] s' → Q tt s') →
  wp E (walk_ahead fuel (head rest) body) Q s.
Proof.
  intros Hnext Hbody. revert rest s. induction fuel as [|fuel IH]; intros rest s Hf HI HQ; [lia|].
  destruct rest as [|i rest]; [by apply wp_skip, HQ|]. cbn [walk_ahead head].
  destruct (Hnext _ _ _ HI) as (p & Hp & Hn).
  apply wp_bind. eapply wp_pt_get; [done|]. apply wp_bind.
  eapply wp_mono; [by apply Hbody|]. intros [] s' HI'. simpl. rewrite Hn.
  apply IH; [simpl in Hf; lia|done|done].
Qed.

Lemma wp_walk fuel rest body (I : list nat → kstate W → Prop) Q s :
  (∀ i rest s, I (i :: rest) s →
     wp E (body i) (λ _ s', I rest s' ∧
       ∃ p, pt_proc (k_ptable s') !! i = Some p ∧ p_next p = head rest) s) →
  (length rest < fuel)%nat → I rest s → (∀ s', I [] s' → Q tt s') →
  wp E (walk fuel (head rest) body) Q s.
Proof.
  intros Hbody. revert rest s. induction fuel as [|fuel IH]; intros rest s Hf HI HQ; [lia|].
  destruct rest as [|i rest]; [by apply wp_skip, HQ|]. cbn [walk head].
  apply wp_bind. eapply wp_mono; [by apply Hbody|]. intros [] s' (HI' & p & Hp & Hn).
  apply wp_bind. eapply wp_pt_get; [done|]. simpl. rewrite Hn.
  apply IH; [simpl in Hf; lia|done|done].
Qed.

End rules.

(** ** The charge for the time on the CPU *)
#[export] Instance charge_blind now : NextBlind (charge now).
Proof. intros n []. unfold charge. simpl. by repeat case_decide. Qed.
Lemma charge_prio now p : 0 ≤ p_priority p ≤ MAX → 0 ≤ p_priority (charge now p) ≤ MAX.
Proof. unfold charge, MAX. intros Hp. repeat (case_decide; simpl in *); lia. Qed.
Lemma charge_state now p : p_state (charge now p) = p_state p.
Proof. unfold charge. by repeat (case_decide; simpl in *). Qed.
#[export] Hint Rewrite charge_state : xv6.

#[export] Instance raise_blind : NextBlind raise_priority.
Proof. intros n []. unfold raise_priority. simpl. by case_decide. Qed.
Lemma raise_prio p : 0 ≤ p_priority p ≤ MAX → 0 ≤ p_priority (raise_priority p) ≤ MAX.
Proof. unfold raise_priority, MAX. intros Hp. case_decide; simpl in *; lia. Qed.
Lemma raise_state p : p_state (raise_priority p) = p_state p.
Proof. unfold raise_priority. by case_decide. Qed.

(** ** Stepping through the code of a critical section

    [fstep] runs the next command on the process in focus, [cstep] drops a
    complaint that cannot be made; the bounds on priorities are left to lia. *)
Ltac prio_ok :=
  simpl; first [ assumption
               | match goal with H : foc _ _ _ _ _ _ _ |- _ => pose proof (foc_prio _ _ _ _ _ _ _ H) end;
                 auto using charge_prio, raise_prio; done
               | match goal with H : foc _ _ _ _ _ _ _ |- _ => pose proof (foc_prio _ _ _ _ _ _ _ H) end;
                 simpl in *; unfold MAX in *; lia ].
Ltac st_ok :=
  first [ reflexivity | assumption | symmetry; assumption
        | unfold list_of; simpl;
          rewrite ?charge_state, ?raise_state; simpl;
          try match goal with H : p_state ?p = _ |- context [p_state ?p] => rewrite H end;
          reflexivity ].
Ltac cstep := apply wp_bind; apply wp_complain; [lia|].
Ltac fstep_core H :=
  lazymatch goal with
  | |- wp _ (pt (get_proc _)) _ _ => eapply wp_fget; [exact H|]; intros ?; cbv beta
  | |- wp _ (pt (assertState _ _)) _ _ => eapply wp_fassert; [exact H|st_ok|]
  | |- wp _ (pt (upd_proc _ _)) _ _ =>
      eapply wp_fupd; [exact H|apply _|first [left; reflexivity|right; st_ok]|prio_ok|];
      clear H; intros ? H
  | |- wp _ (pt (addToStateListHead _ _)) _ _ =>
      eapply wp_faddHead; [exact H|reflexivity|st_ok|]; clear H; intros ? H
  | |- wp _ (pt (addToStateListEnd _ _)) _ _ =>
      eapply wp_faddEnd; [exact H|reflexivity|st_ok|]; clear H; intros ? H
  | |- wp _ (pt (removeFromStateList _ _)) _ _ =>
      eapply wp_fremove; [exact H|reflexivity|st_ok|]; clear H; intros ? H
  | |- wp _ (gets _) _ _ => apply wp_gets
  end.
Ltac fstep H := try apply wp_bind; fstep_core H.
