(* ===== verification/ProcSpec.v ===== *)
(** * The scheduler's specification: queues as lists

    The abstract state of the process table has its entries without links and
    the contents of each list as a sequence.  The operations of proc.c become
    functions on it; ProcRefine proves that the linked-list code implements
    them, and the theorems about scheduling are proved here, on sequences. *)

From S2P Require Import Prelude Spinlock CString ProcData ProcList Proc ProcWp.
Local Open Scope Z_scope.

Record astate := mka { as_ps : list proc; as_q : alists }.

(** ** Moves between queues *)
Definition take_off (i : nat) (k : slist) (q : alists) : alists := <[k := remove1 i (q k)]> q.
Definition put_last (i : nat) (k : slist) (q : alists) : alists := <[k := q k ++ [i]]> q.
Definition put_first (i : nat) (k : slist) (q : alists) : alists := <[k := i :: q k]> q.

(** ** Operations *)

(** One sleeper is examined by [wakeup1]. *)
Definition abs_wake (ch : chan) (st : astate) (i : nat) : astate :=
  match as_ps st !! i with
  | Some p =>
      if decide (p_chan p = ch) then
        mka (<[i := set_p_state RUNNABLE p]> (as_ps st))
            (put_last i (LReady (p_priority p)) (take_off i LSleep (as_q st)))
      else st
  | None => st
  end.
Definition abs_wakeup1 (ch : chan) (st : astate) : astate :=
  foldl (abs_wake ch) st (as_q st LSleep).

(** What [sched] records in the process that leaves the CPU. *)
Definition leave (now : Z) (k : kcontext) (p : proc) : proc :=
  set_p_saved k (set_p_cpu_ticks_total (u32 (p_cpu_ticks_total p + (now - p_cpu_ticks_in p))) p).

Definition abs_yield (now : Z) (en : bool) (i : nat) (p : proc) (st : astate) : astate :=
  let p' := charge now (set_p_state RUNNABLE p) in
  mka (<[i := leave now (K_yield en) p']> (as_ps st))
      (put_last i (LReady (p_priority p')) (take_off i LRunning (as_q st))).

Definition abs_sleep (now : Z) (en : bool) (ch : chan) (lk : option string) (i : nat) (p : proc)
    (st : astate) : astate :=
  let p' := charge now (set_p_state SLEEPING (set_p_chan ch p)) in
  mka (<[i := leave now (K_sleep en lk) p']> (as_ps st))
      (put_last i LSleep (take_off i LRunning (as_q st))).

(** A child of [cur] is given to [init]. *)
Definition adopt (cur : nat) (init : option nat) (p : proc) : proc :=
  if decide (p_parent p = Some cur) then set_p_parent init p else p.
Definition abs_reparent (cur : nat) (init : option nat) (st : astate) (i : nat) : astate :=
  mka (alter (adopt cur init) i (as_ps st)) (as_q st).
Definition abs_reparent_zombie (cur : nat) (init : option nat) (st : astate) (i : nat) : astate :=
  match as_ps st !! i with
  | Some p =>
      if decide (p_parent p = Some cur) then
        abs_wakeup1 (chan_of_proc init) (abs_reparent cur init st i)
      else st
  | None => st
  end.
Definition abs_reparent_list (cur : nat) (init : option nat) (st : astate) (k : slist) : astate :=
  foldl (abs_reparent cur init) st (as_q st k).
(** The children of an exiting process change parent. *)
Definition abs_pass_children (cur : nat) (init : option nat) (st : astate) : astate :=
  let st := foldl (abs_reparent_zombie cur init) st (as_q st LZombie) in
  foldl (abs_reparent_list cur init) st
    ([LRunning] ++ ready_lists ++ [LSleep; LEmbryo; LFree]).
Definition abs_zombie (now : Z) (i : nat) (st : astate) : astate :=
  mka (alter (λ p, leave now K_exit (set_p_state ZOMBIE p)) i (as_ps st))
      (put_first i LZombie (take_off i LRunning (as_q st))).
Definition abs_exit (now : Z) (i : nat) (init parent : option nat) (st : astate) : astate :=
  abs_zombie now i (abs_pass_children i init (abs_wakeup1 (chan_of_proc parent) st)).

(** The open files after the loop of exit over the descriptors [fds]. *)
Fixpoint close_ofile (fds : list nat) (ofs : list (option nat)) : list (option nat) :=
  match fds with
  | [] => ofs
  | fd :: fds' =>
      close_ofile fds' (match ofs !! fd with Some (Some _) => <[fd := None]> ofs | _ => ofs end)
  end.
Definition closed (p : proc) : proc :=
  set_p_cwd None (set_p_ofile (close_ofile (seq 0 NOFILE) (p_ofile p)) p).

(** A reaped child. *)
Definition reaped (p : proc) : proc :=
  set_p_killed 0 (set_p_name (<[O := 0]> (p_name p)) (set_p_parent None (set_p_pid 0
    (set_p_state UNUSED (set_p_kstack 0 p))))).
Definition abs_reap (j : nat) (st : astate) : astate :=
  mka (alter reaped j (as_ps st)) (put_first j LFree (take_off j LZombie (as_q st))).

(** What [wait] finds: a zombie child, no child at all or a kill, or a child
    that still lives. *)
Inductive wait_case := WaitZombie (j : nat) (q : proc) | WaitNone | WaitSleep.
Definition wait_find (st : astate) (i : nat) (p : proc) : wait_case :=
  match first_on (as_ps st) (as_q st) (child_of i) [LZombie] with
  | Some (_, j) =>
      match as_ps st !! j with Some q => WaitZombie j q | None => WaitNone end
  | None =>
      if decide (first_on (as_ps st) (as_q st) (child_of i) (ready_lists ++ [LRunning; LSleep]) = None
                 ∨ p_killed p ≠ 0) then WaitNone else WaitSleep
  end.

(** A slot taken by [allocproc] with the pid [n], and given back when memory is
    short. *)
Definition embryo (n : Z) (p : proc) : proc := set_p_pid (u32 n) (set_p_state EMBRYO p).
Definition abs_embryo (i : nat) (p' : proc) (st : astate) : astate :=
  mka (<[i := p']> (as_ps st)) (put_first i LEmbryo (take_off i LFree (as_q st))).
Definition abs_give_back (i : nat) (p' : proc) (st : astate) : astate :=
  mka (<[i := set_p_state UNUSED (set_p_kstack 0 p')]> (as_ps st))
      (put_first i LFree (take_off i LEmbryo (as_q st))).

(** The child that [fork] makes of the process [p] in the slot [q]. *)
Fixpoint dup_ofile (fds : list nat) (src dst : list (option nat)) : list (option nat) :=
  match fds with
  | [] => dst
  | fd :: fds' =>
      dup_ofile fds' src (match src !! fd with
                          | Some (Some f) => <[fd := Some f]> dst
                          | _ => dst
                          end)
  end.
Definition forked (d : Z) (i : nat) (p : proc) (nm : list Z) (q : proc) : proc :=
  let q := set_p_frame (set_eax 0 (p_frame p)) (set_p_parent (Some i) (set_p_sz (p_sz p)
             (set_p_pgdir d q))) in
  let q := set_p_ofile (dup_ofile (seq 0 NOFILE) (p_ofile p) (p_ofile q)) q in
  set_p_gid (p_gid p) (set_p_uid (p_uid p) (set_p_name nm (set_p_cwd (p_cwd p) q))).
Definition abs_ready (np : nat) (q : proc) (st : astate) : astate :=
  mka (<[np := set_p_state RUNNABLE q]> (as_ps st))
      (put_last np (LReady (p_priority q)) (take_off np LEmbryo (as_q st))).

(** [kill] and [setpriority] on the process they found. *)
Definition abs_kill (pid : Z) (st : astate) : Z * astate :=
  match first_on (as_ps st) (as_q st) (has_pid pid) [LSleep] with
  | Some (_, i) =>
      (0, match as_ps st !! i with
          | Some p =>
              mka (<[i := set_p_state RUNNABLE (set_p_killed 1 p)]> (as_ps st))
                  (put_last i (LReady (p_priority p)) (take_off i LSleep (as_q st)))
          | None => st
          end)
  | None =>
      match first_on (as_ps st) (as_q st) (has_pid pid)
              (ready_lists ++ [LRunning; LFree; LZombie; LEmbryo]) with
      | Some (_, i) => (0, mka (alter (set_p_killed 1) i (as_ps st)) (as_q st))
      | None => (-1, st)
      end
  end.

Definition reprioritise (prio : Z) (p : proc) : proc :=
  set_p_budget BUDGET (set_p_priority (u32 prio) p).
Definition abs_setpriority (pid prio : Z) (st : astate) : Z * astate :=
  match first_on (as_ps st) (as_q st) (has_pid pid) ready_lists with
  | Some (k, i) =>
      (0, mka (alter (reprioritise prio) i (as_ps st))
              (put_last i (LReady (u32 prio)) (take_off i k (as_q st))))
  | None =>
      match first_on (as_ps st) (as_q st) (has_pid pid) [LRunning; LSleep] with
      | Some (_, i) => (0, mka (alter (reprioritise prio) i (as_ps st)) (as_q st))
      | None => (-1, st)
      end
  end.

(** [promoteAll] *)
Definition abs_promote (st : astate) (i : nat) : astate :=
  match as_ps st !! i with
  | Some p =>
      let p' := raise_priority p in
      mka (<[i := p']> (as_ps st))
          (put_last i (LReady (p_priority p')) (take_off i (LReady (p_priority p)) (as_q st)))
  | None => st
  end.
Definition abs_raise (st : astate) (i : nat) : astate :=
  mka (alter raise_priority i (as_ps st)) (as_q st).
Definition abs_promoteAll (st : astate) : astate :=
  let st := foldl abs_promote st (as_q st (LReady 1)) in
  let st := foldl abs_promote st (as_q st (LReady 2)) in
  let st := foldl abs_raise st (as_q st LSleep) in
  foldl abs_raise st (as_q st LRunning).

(** The scheduler's choice: the head of the first non-empty ready queue. *)
Fixpoint abs_pick (now : Z) (qs : list Z) (st : astate) : option nat * astate :=
  match qs with
  | [] => (None, st)
  | q :: qs' =>
      match as_q st (LReady q) with
      | [] => abs_pick now qs' st
      | i :: l =>
          (Some i,
           mka (alter (λ p, set_p_cpu_ticks_in now (set_p_state RUNNING p)) i (as_ps st))
               (put_last i LRunning (<[LReady q := l]> (as_q st))))
      end
  end.

(** ** Well-formed abstract states *)
Record awf (st : astate) : Prop := mkawf {
  aw_mem : ∀ i p, as_ps st !! i = Some p → ∀ k, i ∈ as_q st k ↔ k = list_of p;
  aw_in : ∀ i k, i ∈ as_q st k → ∃ p, as_ps st !! i = Some p ∧ k = list_of p;
  aw_NoDup : ∀ k, NoDup (as_q st k);
  aw_prio : ∀ i p, as_ps st !! i = Some p → 0 ≤ p_priority p ≤ MAX
}.

Lemma tbl_awf st pr t : tbl None (as_ps st) (as_q st) pr t → awf st.
Proof.
  intros Ht. split.
  - intros i p Hp k. rewrite (tbl_mem _ _ _ _ _ _ _ _ Ht Hp). naive_solver.
  - intros i k Hi. destruct (tbl_in _ _ _ _ _ _ _ Ht Hi) as (p & Hp & Hk & _). eauto.
  - intros k. exact (wfx_NoDup _ _ _ (tb_wf _ _ _ _ _ Ht) k).
  - intros i p Hp. by eapply tbl_prio.
Qed.

(** Which state the processes of a list are in. *)
Lemma awf_in_state st i k :
  awf st → i ∈ as_q st k → ∃ p, as_ps st !! i = Some p ∧
    p_state p = match k with
                | LReady _ => RUNNABLE | LFree => UNUSED | LSleep => SLEEPING
                | LZombie => ZOMBIE | LRunning => RUNNING | LEmbryo => EMBRYO end.
Proof.
  intros Hw Hi. destruct (aw_in _ Hw _ _ Hi) as (p & Hp & ->). exists p. split; [done|].
  unfold list_of. by destruct (p_state p).
Qed.

(** ** Folds that change the entries of a list one by one *)
Lemma foldl_alter_lookup (f : proc → proc) (l : list nat) (ps : list proc) j :
  NoDup l →
  foldl (λ ps i, alter f i ps) ps l !! j = if decide (j ∈ l) then f <$> ps !! j else ps !! j.
Proof.
  intros Hnd. revert ps. induction Hnd as [|i l Hi Hl IH]; intros ps; cbn [foldl].
  - by rewrite decide_False by set_solver.
  - rewrite IH. destruct (decide (i = j)) as [->|Hne].
    + rewrite decide_False by done. rewrite decide_True by set_solver.
      apply list_lookup_alter_eq.
    + rewrite list_lookup_alter_ne by done. repeat case_decide; set_solver.
Qed.

Section fold_ps.
Context (step : astate → nat → astate) (f : proc → proc).
Context (Hstep : ∀ st i, as_ps (step st i) = alter f i (as_ps st)).
Lemma foldl_as_ps st l :
  as_ps (foldl step st l) = foldl (λ ps i, alter f i ps) (as_ps st) l.
Proof. revert st. induction l as [|i l IH]; intros st; cbn [foldl]; [done|]. by rewrite IH, Hstep. Qed.
Lemma foldl_step_lookup st l j :
  NoDup l → as_ps (foldl step st l) !! j =
    if decide (j ∈ l) then f <$> as_ps st !! j else as_ps st !! j.
Proof. intros Hl. rewrite foldl_as_ps. by apply foldl_alter_lookup. Qed.
End fold_ps.

Lemma alter_id_at {A} (f : A → A) (l : list A) i :
  (∀ x, l !! i = Some x → f x = x) → alter f i l = l.
Proof.
  intros Hf. destruct (l !! i) as [x|] eqn:Hx.
  - rewrite (list_alter_Some _ _ _ _ Hx), Hf by done. by apply list_insert_id.
  - apply list_eq. intros j. destruct (decide (i = j)) as [->|Hne].
    + by rewrite list_lookup_alter_eq, Hx.
    + by rewrite list_lookup_alter_ne.
Qed.

(** ** wakeup, in closed form *)
Definition wake_if (ch : chan) (p : proc) : proc :=
  if decide (p_chan p = ch) then set_p_state RUNNABLE p else p.
Lemma abs_wake_ps ch st i : as_ps (abs_wake ch st i) = alter (wake_if ch) i (as_ps st).
Proof.
  unfold abs_wake. destruct (as_ps st !! i) as [p|] eqn:Hp.
  - rewrite (list_alter_Some _ _ _ _ Hp). unfold wake_if. case_decide; [done|].
    by rewrite list_insert_id.
  - symmetry. apply alter_id_at. by rewrite Hp.
Qed.

(** A sleeper on [ch] becomes RUNNABLE. *)
Definition wake (ch : chan) (p : proc) : proc :=
  if decide (p_state p = SLEEPING) then wake_if ch p else p.
Lemma abs_wakeup1_ps ch st : awf st → as_ps (abs_wakeup1 ch st) = wake ch <$> as_ps st.
Proof.
  intros Hw. apply list_eq. intros j. unfold abs_wakeup1.
  rewrite (foldl_step_lookup _ _ (abs_wake_ps ch)) by apply (aw_NoDup _ Hw).
  rewrite list_lookup_fmap. destruct (as_ps st !! j) as [p|] eqn:Hp; [|by case_decide].
  unfold wake. pose proof (aw_mem _ Hw _ _ Hp LSleep) as Hm. simpl.
  unfold list_of in Hm. destruct (p_state p); simpl;
    repeat case_decide; simpl; try done; naive_solver.
Qed.

Definition sleeps_on (ps : list proc) (ch : chan) (i : nat) : bool :=
  match ps !! i with Some p => bool_decide (p_chan p = ch) | None => false end.
Definition has_prio (ps : list proc) (r : Z) (i : nat) : bool :=
  match ps !! i with Some p => bool_decide (p_priority p = r) | None => false end.
Lemma sleeps_on_wake ch st i ch' j :
  sleeps_on (as_ps (abs_wake ch st i)) ch' j = sleeps_on (as_ps st) ch' j.
Proof.
  unfold sleeps_on. rewrite abs_wake_ps. destruct (decide (i = j)) as [->|Hne].
  - rewrite list_lookup_alter_eq. destruct (as_ps st !! j); simpl; [|done].
    unfold wake_if. by case_decide.
  - by rewrite list_lookup_alter_ne.
Qed.
Lemma has_prio_wake ch st i r j :
  has_prio (as_ps (abs_wake ch st i)) r j = has_prio (as_ps st) r j.
Proof.
  unfold has_prio. rewrite abs_wake_ps. destruct (decide (i = j)) as [->|Hne].
  - rewrite list_lookup_alter_eq. destruct (as_ps st !! j); simpl; [|done].
    unfold wake_if. by case_decide.
  - by rewrite list_lookup_alter_ne.
Qed.

Lemma abs_wake_miss ch st i : sleeps_on (as_ps st) ch i = false → abs_wake ch st i = st.
Proof.
  unfold abs_wake, sleeps_on. destruct (as_ps st !! i); [|done].
  intros Hs%bool_decide_eq_false. by rewrite decide_False.
Qed.
Lemma abs_wake_hit ch st i kept l :
  sleeps_on (as_ps st) ch i = true → i ∉ kept → as_q st LSleep = kept ++ i :: l →
  as_q (abs_wake ch st i) LSleep = kept ++ l ∧
  ∀ r, as_q (abs_wake ch st i) (LReady r) =
    as_q st (LReady r) ++ if has_prio (as_ps st) r i then [i] else [].
Proof.
  unfold abs_wake, sleeps_on, has_prio. intros Hs Hi Hq.
  destruct (as_ps st !! i) as [p|]; [|done]. apply bool_decide_eq_true in Hs.
  rewrite decide_True by done. unfold put_last, take_off. simpl. split.
  - rewrite fn_lookup_insert_ne by done. rewrite fn_lookup_insert, Hq. by apply remove1_middle.
  - intros r. case_bool_decide as Hr.
    + subst r. rewrite fn_lookup_insert. by rewrite fn_lookup_insert_ne.
    + rewrite fn_lookup_insert_ne by congruence. rewrite fn_lookup_insert_ne by done.
      by rewrite app_nil_r.
Qed.

Lemma wake_fold ch l kept st :
  NoDup (kept ++ l) → as_q st LSleep = kept ++ l →
  let st' := foldl (abs_wake ch) st l in
  as_q st' LSleep = kept ++ filter (λ i, sleeps_on (as_ps st) ch i = false) l ∧
  ∀ r, as_q st' (LReady r) = as_q st (LReady r) ++
    filter (λ i, sleeps_on (as_ps st) ch i = true ∧ has_prio (as_ps st) r i = true) l.
Proof.
  revert kept st. induction l as [|i l IH]; intros kept st Hnd Hq; cbn [foldl].
  { split; [done|]. intros r. by rewrite app_nil_r. }
  assert (i ∉ kept ∧ NoDup (kept ++ l)) as [Hi Hnd'].
  { rewrite <- Permutation_middle in Hnd. apply list.NoDup_cons in Hnd. set_solver. }
  destruct (sleeps_on (as_ps st) ch i) eqn:Hs.
  - destruct (abs_wake_hit _ _ _ _ _ Hs Hi Hq) as [Hq1 Hq2].
    destruct (IH kept _ Hnd' Hq1) as [IH1 IH2]. split.
    + rewrite IH1, filter_cons_False by congruence. f_equal.
      apply list_filter_iff. intros j. by rewrite sleeps_on_wake.
    + intros r. rewrite IH2, Hq2, <- app_assoc. f_equal.
      destruct (has_prio (as_ps st) r i) eqn:Hpr;
        [rewrite filter_cons_True by done|rewrite filter_cons_False by (intros [? ?]; congruence)];
        simpl; f_equal; apply list_filter_iff; intros j;
        by rewrite sleeps_on_wake, has_prio_wake.
  - rewrite abs_wake_miss by done.
    destruct (IH (kept ++ [i]) st) as [IH1 IH2]; [by rewrite <- app_assoc..|].
    rewrite filter_cons_True, IH1, <- app_assoc by done. split; [done|].
    intros r. rewrite IH2, filter_cons_False by (intros [? ?]; congruence). done.
Qed.

(** ** promoteAll, in closed form *)
Lemma abs_promote_ps st i : as_ps (abs_promote st i) = alter raise_priority i (as_ps st).
Proof.
  unfold abs_promote. destruct (as_ps st !! i) as [p|] eqn:Hp.
  - by rewrite (list_alter_Some _ _ _ _ Hp).
  - symmetry. apply alter_id_at. by rewrite Hp.
Qed.

(** Promoting the whole queue [q] appends it to the queue [q - 1]. *)
Lemma promote_fold q l st :
  0 < q → NoDup l → as_q st (LReady q) = l →
  (∀ i, i ∈ l → ∃ p, as_ps st !! i = Some p ∧ p_priority p = q) →
  let st' := foldl abs_promote st l in
  as_q st' (LReady q) = [] ∧ as_q st' (LReady (q - 1)) = as_q st (LReady (q - 1)) ++ l ∧
  ∀ k, k ≠ LReady q → k ≠ LReady (q - 1) → as_q st' k = as_q st k.
Proof.
  intros Hq Hnd. revert st. induction Hnd as [|i l Hi Hl IH]; intros st Ha Hp; cbn [foldl].
  { by rewrite app_nil_r. }
  destruct (Hp i) as (p & Hpi & Hpq); [set_solver|].
  assert (as_q (abs_promote st i) = put_last i (LReady (q - 1)) (take_off i (LReady q) (as_q st)))
    as Hst.
  { unfold abs_promote. rewrite Hpi. simpl. unfold raise_priority. by rewrite Hpq, decide_True by lia. }
  destruct (IH (abs_promote st i)) as (IH1 & IH2 & IH3).
  - rewrite Hst. unfold put_last, take_off. rewrite fn_lookup_insert_ne by (intros [=]; lia).
    rewrite fn_lookup_insert, Ha. apply (remove1_middle i []). set_solver.
  - intros j Hj. destruct (Hp j) as (pj & Hpj & Hpjq); [set_solver|]. exists pj.
    rewrite abs_promote_ps, list_lookup_alter_ne by set_solver. done.
  - split_and!; [done| |].
    + rewrite IH2, Hst. unfold put_last, take_off. rewrite fn_lookup_insert.
      rewrite fn_lookup_insert_ne by (intros [=]; lia). by rewrite <- app_assoc.
    + intros k Hk Hk'. rewrite IH3, Hst by done. unfold put_last, take_off.
      by rewrite !fn_lookup_insert_ne by congruence.
Qed.

Lemma raise_fold_q l st : as_q (foldl abs_raise st l) = as_q st.
Proof. revert st. induction l as [|i l IH]; intros st; cbn [foldl]; [done|]. by rewrite IH. Qed.

Definition promoted (p : proc) : proc :=
  match p_state p with
  | RUNNABLE | SLEEPING | RUNNING => raise_priority p
  | _ => p
  end.

(** The queue [k] after [promoteAll]. *)
Definition promoted_queue (q : alists) (k : slist) : list nat :=
  match k with
  | LReady 0 => q (LReady 0) ++ q (LReady 1)
  | LReady 1 => q (LReady 2)
  | LReady 2 => []
  | _ => q k
  end.

Section promote_closed.
Context (st : astate) (Hw : awf st).
Let st1 := foldl abs_promote st (as_q st (LReady 1)).
Let st2 := foldl abs_promote st1 (as_q st1 (LReady 2)).

Lemma ready_prio q i : i ∈ as_q st (LReady q) → ∃ p, as_ps st !! i = Some p ∧ p_priority p = q.
Proof.
  intros Hi. destruct (aw_in _ Hw _ _ Hi) as (p & Hp & Hk). exists p. split; [done|].
  unfold list_of in Hk. by destruct (p_state p); simplify_eq.
Qed.
Lemma ready_disjoint i q q' : i ∈ as_q st (LReady q) → i ∈ as_q st (LReady q') → q = q'.
Proof. intros (p & ? & ?)%ready_prio (p' & ? & ?)%ready_prio. congruence. Qed.

Lemma promote_st1 :
  as_q st1 (LReady 1) = [] ∧ as_q st1 (LReady 0) = as_q st (LReady 0) ++ as_q st (LReady 1) ∧
  ∀ k, k ≠ LReady 1 → k ≠ LReady 0 → as_q st1 k = as_q st k.
Proof.
  apply (promote_fold 1); [lia|apply (aw_NoDup _ Hw)|done|apply ready_prio].
Qed.
Lemma promote_st2 :
  as_q st2 (LReady 2) = [] ∧ as_q st2 (LReady 1) = as_q st (LReady 2) ∧
  ∀ k, k ≠ LReady 2 → k ≠ LReady 1 → as_q st2 k = as_q st1 k.
Proof.
  destruct promote_st1 as (H1 & H0 & Hk).
  assert (as_q st1 (LReady 2) = as_q st (LReady 2)) as H2 by (by apply Hk).
  destruct (promote_fold 2 (as_q st (LReady 2)) st1) as (? & Hr & ?).
  - lia.
  - apply (aw_NoDup _ Hw).
  - done.
  - intros i Hi. destruct (ready_prio _ _ Hi) as (p & Hp & Hpq). exists p.
    unfold st1. rewrite (foldl_step_lookup _ _ abs_promote_ps) by apply (aw_NoDup _ Hw).
    rewrite decide_False; [done|]. intros Hi1. by pose proof (ready_disjoint _ _ _ Hi Hi1).
  - unfold st2. rewrite H2. change (2 - 1) with 1 in *. rewrite H1 in Hr. done.
Qed.

Lemma abs_promoteAll_q k : as_q (abs_promoteAll st) k = promoted_queue (as_q st) k.
Proof.
  change (as_q (foldl abs_raise (foldl abs_raise st2 (as_q st2 LSleep))
    (as_q (foldl abs_raise st2 (as_q st2 LSleep)) LRunning)) k = promoted_queue (as_q st) k).
  rewrite !raise_fold_q. destruct promote_st1 as (H11 & H10 & H1k), promote_st2 as (H22 & H21 & H2k).
  destruct k as [q| | | | |]; simpl; try (rewrite H2k, H1k by done; done).
  destruct (decide (q = 0)) as [->|]; [by rewrite H2k|].
  destruct (decide (q = 1)) as [->|]; [done|].
  destruct (decide (q = 2)) as [->|]; [done|].
  rewrite H2k, H1k by congruence. destruct q as [|[[]|[]|]|]; done.
Qed.

Lemma abs_raise_ps st' i : as_ps (abs_raise st' i) = alter raise_priority i (as_ps st').
Proof. done. Qed.

Lemma abs_promoteAll_ps : as_ps (abs_promoteAll st) = promoted <$> as_ps st.
Proof.
  change (as_ps (foldl abs_raise (foldl abs_raise st2 (as_q st2 LSleep))
    (as_q (foldl abs_raise st2 (as_q st2 LSleep)) LRunning)) = promoted <$> as_ps st).
  destruct promote_st1 as (_ & _ & H1k), promote_st2 as (_ & _ & H2k).
  rewrite raise_fold_q, !H2k, !H1k by done.
  apply list_eq. intros j. rewrite list_lookup_fmap.
  rewrite !(foldl_step_lookup _ _ abs_raise_ps) by apply (aw_NoDup _ Hw).
  unfold st2. rewrite H1k by done.
  rewrite (foldl_step_lookup _ _ abs_promote_ps) by apply (aw_NoDup _ Hw).
  unfold st1. rewrite (foldl_step_lookup _ _ abs_promote_ps) by apply (aw_NoDup _ Hw).
  destruct (as_ps st !! j) as [p|] eqn:Hp; [|by repeat case_decide].
  pose proof (aw_mem _ Hw _ _ Hp) as Hm. pose proof (aw_prio _ Hw _ _ Hp) as Hpr.
  unfold MAX in Hpr. unfold promoted. unfold list_of in Hm.
  assert (p_priority p = 0 → raise_priority p = p) as H0.
  { intros Hz. unfold raise_priority. by rewrite decide_False by lia. }
  destruct (p_state p) eqn:Hst;
    repeat (let Hd := fresh "Hd" in case_decide as Hd; rewrite Hm in Hd; [try discriminate Hd|]);
    simpl; rewrite ?Hst; try done; try congruence.
  rewrite H0; [done|].
  destruct (decide (p_priority p = 1)); [congruence|].
  destruct (decide (p_priority p = 2)); [congruence|]. lia.
Qed.
End promote_closed.

(** ** Well-formedness of abstract moves *)
Lemma awf_same st i p p' :
  awf st → as_ps st !! i = Some p → list_of p' = list_of p → 0 ≤ p_priority p' ≤ MAX →
  awf (mka (<[i := p']> (as_ps st)) (as_q st)).
Proof.
  intros [Hm Hin Hnd Hpr] Hp Hl Hpr'. split; simpl; [| |done|].
  - intros j q [[-> ->]|[_ Hq]]%list_lookup_insert_cases k; [rewrite Hl|]; by apply Hm.
  - intros j k Hj. destruct (decide (i = j)) as [->|Hne].
    + exists p'. rewrite list_lookup_insert_eq by (by eapply lookup_lt_Some).
      rewrite Hl. split; [done|]. by apply (Hm _ _ Hp).
    + rewrite list_lookup_insert_ne by done. by apply Hin.
  - intros j q [[-> ->]|[_ Hq]]%list_lookup_insert_cases; eauto.
Qed.

Lemma awf_move st i p p' k (l : list nat) :
  awf st → as_ps st !! i = Some p → list_of p' = k → 0 ≤ p_priority p' ≤ MAX →
  l ≡ₚ i :: take_off i (list_of p) (as_q st) k →
  awf (mka (<[i := p']> (as_ps st)) (<[k := l]> (take_off i (list_of p) (as_q st)))).
Proof.
  intros [Hm Hin Hnd Hpr] Hp Hl Hpr' Hperm.
  assert (∀ j k', j ∈ take_off i (list_of p) (as_q st) k' ↔ j ∈ as_q st k' ∧ j ≠ i) as Hoff.
  { intros j k'. unfold take_off. destruct (decide (list_of p = k')) as [<-|Hne].
    - rewrite fn_lookup_insert. apply elem_of_remove1, Hnd.
    - rewrite fn_lookup_insert_ne by done. split; [|naive_solver]. intros Hj. split; [done|].
      intros ->. by apply (Hm _ _ Hp) in Hj. }
  assert (∀ j k', j ∈ <[k := l]> (take_off i (list_of p) (as_q st)) k' ↔
            (j = i ∧ k' = k) ∨ (j ≠ i ∧ j ∈ as_q st k')) as Hnew.
  { intros j k'. destruct (decide (k = k')) as [<-|Hne].
    - rewrite fn_lookup_insert, Hperm, elem_of_cons, Hoff. naive_solver.
    - rewrite fn_lookup_insert_ne by done. rewrite Hoff. naive_solver. }
  split; simpl.
  - intros j q [[<- ->]|[Hne Hq]]%list_lookup_insert_cases k'; rewrite Hnew; [naive_solver|].
    rewrite <- (Hm _ _ Hq). naive_solver.
  - intros j k' [[-> ->]|[Hne Hj]]%Hnew.
    + exists p'. by rewrite list_lookup_insert_eq by (by eapply lookup_lt_Some).
    + rewrite list_lookup_insert_ne by done. by apply Hin.
  - intros k'. destruct (decide (k = k')) as [<-|Hne].
    + rewrite fn_lookup_insert, Hperm. apply list.NoDup_cons. split; [rewrite Hoff; naive_solver|].
      unfold take_off. destruct (decide (list_of p = k)) as [<-|Hne].
      * rewrite fn_lookup_insert. by apply NoDup_remove1.
      * by rewrite fn_lookup_insert_ne.
    + rewrite fn_lookup_insert_ne by done. unfold take_off.
      destruct (decide (list_of p = k')) as [<-|Hne'].
      * rewrite fn_lookup_insert. by apply NoDup_remove1.
      * by rewrite fn_lookup_insert_ne.
  - intros j q [[-> ->]|[_ Hq]]%list_lookup_insert_cases; eauto.
Qed.

Lemma awf_put_last st i p p' :
  awf st → as_ps st !! i = Some p → 0 ≤ p_priority p' ≤ MAX →
  awf (mka (<[i := p']> (as_ps st)) (put_last i (list_of p') (take_off i (list_of p) (as_q st)))).
Proof. intros. apply awf_move; try done. by rewrite Permutation_app_comm. Qed.

Lemma abs_wake_awf ch st i : awf st → i ∈ as_q st LSleep → awf (abs_wake ch st i).
Proof.
  intros Hw Hi. destruct (aw_in _ Hw _ _ Hi) as (p & Hp & Hk). unfold abs_wake. rewrite Hp.
  case_decide; [|done]. rewrite Hk.
  apply (awf_put_last st i p (set_p_state RUNNABLE p) Hw Hp). by apply (aw_prio _ Hw _ _ Hp).
Qed.
Lemma wake_fold_awf ch l kept st :
  awf st → as_q st LSleep = kept ++ l → awf (foldl (abs_wake ch) st l).
Proof.
  revert kept st. induction l as [|i l IH]; intros kept st Hw Hq; cbn [foldl]; [done|].
  pose proof (aw_NoDup _ Hw LSleep) as Hnd. rewrite Hq in Hnd.
  assert (awf (abs_wake ch st i)) as Hw' by (apply abs_wake_awf; [done|rewrite Hq; set_solver]).
  destruct (sleeps_on (as_ps st) ch i) eqn:Hs.
  - apply (IH kept); [done|]. eapply abs_wake_hit; [done| |done].
    apply list.NoDup_app in Hnd. set_solver.
  - rewrite abs_wake_miss by done. apply (IH (kept ++ [i])); [done|]. by rewrite <- app_assoc.
Qed.
Lemma abs_wakeup1_awf ch st : awf st → awf (abs_wakeup1 ch st).
Proof. intros Hw. by apply (wake_fold_awf ch _ []). Qed.

(** ** exit, in closed form *)
Lemma abs_wakeup1_other ch st k :
  k ≠ LSleep → (∀ q, k ≠ LReady q) → as_q (abs_wakeup1 ch st) k = as_q st k.
Proof.
  intros Hs Hr. unfold abs_wakeup1. generalize (as_q st LSleep) as l. intros l. revert st.
  induction l as [|i l IH]; intros st; simpl; [done|]. rewrite IH. unfold abs_wake.
  destruct (as_ps st !! i) as [p|]; [|done]. case_decide; [|done]. simpl.
  unfold put_last, take_off. by rewrite !fn_lookup_insert_ne by congruence.
Qed.
Lemma abs_reparent_list_q cur init ks st :
  as_q (foldl (abs_reparent_list cur init) st ks) = as_q st.
Proof.
  revert st. induction ks as [|k ks IH]; intros st; [done|]. cbn [foldl]. rewrite IH.
  unfold abs_reparent_list. generalize (as_q st k) as l. intros l. revert st.
  induction l as [|i l IHl]; intros st; [done|]. cbn [foldl]. by rewrite IHl.
Qed.
Lemma abs_pass_children_other cur init st k :
  k ≠ LSleep → (∀ q, k ≠ LReady q) → as_q (abs_pass_children cur init st) k = as_q st k.
Proof.
  intros Hs Hr. unfold abs_pass_children. rewrite abs_reparent_list_q.
  generalize (as_q st LZombie) as l. intros l. revert st.
  induction l as [|i l IH]; intros st; [done|]. cbn [foldl]. rewrite IH.
  unfold abs_reparent_zombie. destruct (as_ps st !! i); [|done]. case_decide; [|done].
  by rewrite abs_wakeup1_other.
Qed.

Lemma adopt_idemp cur init p : adopt cur init (adopt cur init p) = adopt cur init p.
Proof. unfold adopt. repeat case_decide; simpl in *; try done. Qed.
Lemma adopt_list_of cur init p :
  list_of (adopt cur init p) = list_of p ∧ p_priority (adopt cur init p) = p_priority p.
Proof. unfold adopt. by case_decide. Qed.
Lemma adopt_wake cur init ch p : adopt cur init (wake ch p) = wake ch (adopt cur init p).
Proof. unfold adopt, wake, wake_if. by repeat (case_decide; simpl in *). Qed.
Lemma wake_idemp ch p : wake ch (wake ch p) = wake ch p.
Proof. unfold wake, wake_if. by repeat (case_decide; simpl in *). Qed.

Lemma abs_reparent_awf cur init st i : awf st → awf (abs_reparent cur init st i).
Proof.
  intros Hw. unfold abs_reparent. destruct (as_ps st !! i) as [p|] eqn:Hp.
  - rewrite (list_alter_Some _ _ _ _ Hp). destruct (adopt_list_of cur init p) as [Hl Hpr].
    eapply awf_same; [done|done|done|]. rewrite Hpr. by apply (aw_prio _ Hw _ _ Hp).
  - rewrite alter_id_at by (by rewrite Hp). by destruct st.
Qed.

(** Does the list hold a child of [cur]? *)
Definition has_child (ps : list proc) (cur : nat) (l : list nat) : bool :=
  existsb (λ i, match ps !! i with Some p => bool_decide (p_parent p = Some cur) | None => false end) l.
Definition wake_when (b : bool) (ch : chan) (p : proc) : proc := if b then wake ch p else p.

Lemma abs_reparent_zombie_ps cur init st i :
  awf st → as_ps (abs_reparent_zombie cur init st i) =
    wake_when (has_child (as_ps st) cur [i]) (chan_of_proc init) <$>
      alter (adopt cur init) i (as_ps st).
Proof.
  intros Hw. unfold abs_reparent_zombie, has_child. simpl. rewrite orb_false_r.
  destruct (as_ps st !! i) as [p|] eqn:Hp; simpl.
  - case_decide as Hd.
    + rewrite abs_wakeup1_ps by (by apply abs_reparent_awf). by rewrite bool_decide_true.
    + rewrite bool_decide_false by done. simpl. rewrite alter_id_at, list_fmap_id; [done|].
      intros x Hx. unfold adopt. rewrite decide_False; congruence.
  - rewrite alter_id_at, list_fmap_id; [done|]. by rewrite Hp.
Qed.
Lemma abs_reparent_zombie_awf cur init st i : awf st → awf (abs_reparent_zombie cur init st i).
Proof.
  intros Hw. unfold abs_reparent_zombie. destruct (as_ps st !! i); [|done].
  case_decide; [|done]. by apply abs_wakeup1_awf, abs_reparent_awf.
Qed.

Lemma has_child_step cur init st i l :
  awf st → i ∉ l →
  has_child (as_ps (abs_reparent_zombie cur init st i)) cur l = has_child (as_ps st) cur l.
Proof.
  intros Hw Hi. rewrite abs_reparent_zombie_ps by done. generalize (has_child (as_ps st) cur [i]).
  intros b. unfold has_child. induction l as [|j l IH]; [done|]. simpl.
  rewrite IH by set_solver. f_equal.
  rewrite list_lookup_fmap, list_lookup_alter_ne by set_solver.
  destruct (as_ps st !! j) as [p|]; simpl; [|done]. f_equal.
  destruct b; simpl; [|done]. unfold wake, wake_if. by repeat case_decide.
Qed.

Lemma zombie_fold cur init l st j :
  awf st → NoDup l →
  as_ps (foldl (abs_reparent_zombie cur init) st l) !! j =
    wake_when (has_child (as_ps st) cur l) (chan_of_proc init) <$>
      (if decide (j ∈ l) then adopt cur init <$> as_ps st !! j else as_ps st !! j).
Proof.
  intros Hw Hnd. revert st Hw. induction Hnd as [|i l Hi Hl IH]; intros st Hw; cbn [foldl].
  { rewrite decide_False by set_solver. simpl. by rewrite option_fmap_id. }
  rewrite IH by (by apply abs_reparent_zombie_awf). rewrite has_child_step by done.
  rewrite abs_reparent_zombie_ps by done. rewrite list_lookup_fmap.
  change (has_child (as_ps st) cur (i :: l)) with
    (match as_ps st !! i with Some p => bool_decide (p_parent p = Some cur) | None => false end
     || has_child (as_ps st) cur l).
  assert (has_child (as_ps st) cur [i] =
    match as_ps st !! i with Some p => bool_decide (p_parent p = Some cur) | None => false end) as ->
    by (unfold has_child; simpl; by rewrite orb_false_r).
  generalize (match as_ps st !! i with Some p => bool_decide (p_parent p = Some cur) | None => false end).
  intros b. generalize (has_child (as_ps st) cur l) as b'. intros b'.
  assert (∀ p, wake_when b' (chan_of_proc init) (wake_when b (chan_of_proc init) p) =
               wake_when (b || b') (chan_of_proc init) p) as Hww.
  { intros p. destruct b, b'; simpl; try done. apply wake_idemp. }
  assert (∀ p, adopt cur init (wake_when b (chan_of_proc init) p) =
               wake_when b (chan_of_proc init) (adopt cur init p)) as Hcomm.
  { intros p. destruct b; simpl; [apply adopt_wake|done]. }
  destruct (decide (i = j)) as [->|Hne].
  - rewrite list_lookup_alter_eq. rewrite (decide_False (P := j ∈ l)) by done.
    rewrite (decide_True (P := j ∈ j :: l)) by set_solver.
    destruct (as_ps st !! j) as [p|]; simpl; [|done]. by rewrite Hww.
  - rewrite list_lookup_alter_ne by done. destruct (as_ps st !! j) as [p|]; simpl.
    + case_decide as Hj; simpl.
      * rewrite decide_True by set_solver. simpl. by rewrite Hcomm, Hww.
      * rewrite decide_False by set_solver. simpl. by rewrite Hww.
    + by repeat case_decide.
Qed.

Lemma abs_reparent_ps cur init st i :
  as_ps (abs_reparent cur init st i) = alter (adopt cur init) i (as_ps st).
Proof. done. Qed.
Lemma reparent_lists_lookup cur init ks st j :
  (∀ k, NoDup (as_q st k)) →
  as_ps (foldl (abs_reparent_list cur init) st ks) !! j =
    if existsb (λ k, bool_decide (j ∈ as_q st k)) ks then adopt cur init <$> as_ps st !! j
    else as_ps st !! j.
Proof.
  revert st. induction ks as [|k ks IH]; intros st Hnd; [done|]. cbn [foldl existsb].
  assert (as_q (abs_reparent_list cur init st k) = as_q st) as Hq
    by apply (abs_reparent_list_q cur init [k] st).
  rewrite IH by (by rewrite Hq). rewrite Hq. unfold abs_reparent_list.
  rewrite (foldl_step_lookup _ _ (abs_reparent_ps cur init)) by done.
  case_bool_decide as Hj; simpl.
  - rewrite decide_True by done. destruct (as_ps st !! j) as [p|]; simpl; [|by case_match].
    rewrite adopt_idemp. by case_match.
  - by rewrite decide_False by done.
Qed.

Lemma zombie_fold_awf cur init l st : awf st → awf (foldl (abs_reparent_zombie cur init) st l).
Proof.
  revert st. induction l as [|i l IH]; intros st Hw; cbn [foldl]; [done|].
  by apply IH, abs_reparent_zombie_awf.
Qed.

Lemma abs_pass_children_ps cur init st :
  awf st →
  as_ps (abs_pass_children cur init st) =
    (λ p, adopt cur init (wake_when (has_child (as_ps st) cur (as_q st LZombie))
                            (chan_of_proc init) p)) <$> as_ps st.
Proof.
  intros Hw. apply list_eq. intros j. rewrite list_lookup_fmap. unfold abs_pass_children.
  set (b := has_child _ _ _). set (st1 := foldl _ st _).
  assert (awf st1) as Hw1 by (by apply zombie_fold_awf).
  pose proof (zombie_fold cur init (as_q st LZombie) st j Hw (aw_NoDup _ Hw _)) as Hz.
  fold st1 b in Hz. rewrite reparent_lists_lookup by apply (aw_NoDup _ Hw1). rewrite Hz.
  assert (as_q st1 LZombie = as_q st LZombie) as HqZ.
  { rewrite <- (abs_pass_children_other cur init st) by done.
    unfold abs_pass_children. by rewrite abs_reparent_list_q. }
  destruct (as_ps st !! j) as [p|] eqn:Hp; [|by repeat case_match].
  assert (∀ b ch p, adopt cur init (wake_when b ch p) = wake_when b ch (adopt cur init p)) as Hcomm.
  { intros [] ch q; simpl; [apply adopt_wake|done]. }
  destruct (decide (j ∈ as_q st LZombie)) as [Hj|Hj].
  - case_match; simpl; by rewrite ?Hcomm, ?adopt_idemp.
  - simpl in Hz.
    pose proof (aw_mem _ Hw1 _ _ Hz) as Hm. pose proof (aw_prio _ Hw1 _ _ Hz) as Hpr.
    assert (existsb (λ k, bool_decide (j ∈ as_q st1 k))
              ([LRunning] ++ ready_lists ++ [LSleep; LEmbryo; LFree]) = true) as ->; [|done].
    apply existsb_exists. eexists. rewrite bool_decide_eq_true, Hm. split; [|done].
    assert (j ∉ as_q st1 LZombie) as HjZ by (by rewrite HqZ). rewrite Hm in HjZ.
    unfold list_of in *. unfold MAX in Hpr.
    destruct (p_state _); try done; simpl; try tauto.
    assert (∃ q, p_priority (wake_when b (chan_of_proc init) p) = q ∧ (q = 0 ∨ q = 1 ∨ q = 2))
      as (q & -> & [->|[->| ->]]) by (eexists; split; [done|lia]); tauto.
Qed.

(** The entries after exit: woken sleepers, adopted children, and a zombie. *)
Lemma abs_exit_ps now i init parent st :
  awf st →
  as_ps (abs_exit now i init parent st) =
    alter (λ p, leave now K_exit (set_p_state ZOMBIE p)) i
      ((λ p, adopt i init (wake_when (has_child (wake (chan_of_proc parent) <$> as_ps st) i
               (as_q st LZombie)) (chan_of_proc init) (wake (chan_of_proc parent) p))) <$> as_ps st).
Proof.
  intros Hw. unfold abs_exit, abs_zombie. simpl.
  rewrite abs_pass_children_ps by (by apply abs_wakeup1_awf).
  rewrite abs_wakeup1_ps by done. rewrite abs_wakeup1_other by done.
  by rewrite <- list_fmap_compose.
Qed.

(** ** Descriptors *)
Lemma close_ofile_lookup fds ofs j :
  close_ofile fds ofs !! j = if decide (j ∈ fds) then (λ _, None) <$> ofs !! j else ofs !! j.
Proof.
  revert ofs. induction fds as [|fd fds IH]; intros ofs; cbn [close_ofile].
  { by rewrite decide_False by set_solver. }
  rewrite IH. destruct (decide (fd = j)) as [->|Hne].
  - rewrite (decide_True (P := j ∈ j :: fds)) by set_solver.
    destruct (ofs !! j) as [[f|]|] eqn:Hj; rewrite ?list_lookup_insert_eq, ?Hj
      by (by eapply lookup_lt_Some); by case_decide.
  - assert ((match ofs !! fd with Some (Some _) => <[fd := None]> ofs | _ => ofs end) !! j = ofs !! j) as ->.
    { destruct (ofs !! fd) as [[]|]; [by rewrite list_lookup_insert_ne|done|done]. }
    repeat case_decide; set_solver.
Qed.
Lemma close_all ofs : length ofs = NOFILE → close_ofile (seq 0 NOFILE) ofs = replicate NOFILE None.
Proof.
  intros Hl. apply list_eq. intros j. rewrite close_ofile_lookup.
  destruct (decide (j < NOFILE)%nat) as [Hj|Hj].
  - rewrite decide_True by (apply elem_of_seq; lia). rewrite lookup_replicate_2 by done.
    destruct (lookup_lt_is_Some_2 ofs j) as [x ->]; [lia|done].
  - rewrite decide_False by (rewrite elem_of_seq; lia).
    rewrite !lookup_ge_None_2; [done|rewrite length_replicate; lia|lia].
Qed.
Lemma dup_ofile_lookup fds src dst j :
  dup_ofile fds src dst !! j =
    if decide (j ∈ fds) then
      match src !! j with Some (Some f) => (λ _, Some f) <$> dst !! j | _ => dst !! j end
    else dst !! j.
Proof.
  revert dst. induction fds as [|fd fds IH]; intros dst; cbn [dup_ofile].
  { by rewrite decide_False by set_solver. }
  rewrite IH. destruct (decide (fd = j)) as [->|Hne].
  - rewrite (decide_True (P := j ∈ j :: fds)) by set_solver.
    destruct (src !! j) as [[f|]|]; [|by case_decide..].
    destruct (dst !! j) as [x|] eqn:Hj.
    + rewrite list_lookup_insert_eq by (by eapply lookup_lt_Some). by case_decide.
    + rewrite list_insert_ge by (by apply lookup_ge_None). rewrite Hj. by case_decide.
  - assert ((match src !! fd with Some (Some f) => <[fd := Some f]> dst | _ => dst end) !! j
      = dst !! j) as ->.
    { destruct (src !! fd) as [[]|]; [by rewrite list_lookup_insert_ne|done|done]. }
    repeat case_decide; set_solver.
Qed.
(** A fresh slot gets exactly the parent's files. *)
Lemma dup_all src : length src = NOFILE → dup_ofile (seq 0 NOFILE) src (replicate NOFILE None) = src.
Proof.
  intros Hl. apply list_eq. intros j. rewrite dup_ofile_lookup.
  destruct (decide (j < NOFILE)%nat) as [Hj|Hj].
  - rewrite decide_True by (apply elem_of_seq; lia). rewrite lookup_replicate_2 by done.
    destruct (lookup_lt_is_Some_2 src j) as [[f|] ->]; [lia|done|done].
  - rewrite decide_False by (rewrite elem_of_seq; lia).
    rewrite !lookup_ge_None_2; [done|lia|rewrite length_replicate; lia].
Qed.

Lemma forked_state d i p nm q : p_state (forked d i p nm q) = p_state q.
Proof. reflexivity. Qed.
Lemma forked_pid d i p nm q : p_pid (forked d i p nm q) = p_pid q.
Proof. reflexivity. Qed.
Lemma forked_priority d i p nm q : p_priority (forked d i p nm q) = p_priority q.
Proof. reflexivity. Qed.

(** The lists that searches go over cover every process. *)
Lemma ready_in p : 0 ≤ p_priority p ≤ MAX → LReady (p_priority p) ∈ ready_lists.
Proof.
  unfold MAX, ready_lists. intros Hp.
  assert (p_priority p = 0 ∨ p_priority p = 1 ∨ p_priority p = 2) as [->|[->| ->]] by lia; set_solver.
Qed.
Lemma list_of_cover p :
  0 ≤ p_priority p ≤ MAX →
  list_of p = LSleep ∨ list_of p ∈ ready_lists ++ [LRunning; LFree; LZombie; LEmbryo].
Proof.
  intros Hp%ready_in. unfold list_of. rewrite elem_of_app, !elem_of_cons. destruct (p_state p); tauto.
Qed.
Lemma list_of_alive p :
  0 ≤ p_priority p ≤ MAX → p_state p = RUNNABLE ∨ p_state p = RUNNING ∨ p_state p = SLEEPING →
  list_of p ∈ ready_lists ++ [LRunning; LSleep].
Proof.
  intros Hp%ready_in Hst. unfold list_of. rewrite elem_of_app, !elem_of_cons.
  destruct Hst as [->|[->| ->]]; tauto.
Qed.
