(* ===== verification/ProcRefine.v ===== *)
(** * The linked-list code implements the specification of ProcSpec

    Each critical section of proc.c, run on a well-formed table that represents
    an abstract state, ends with a table that represents the specified state:
    it neither panics nor faults nor walks for ever, and no list operation
    fails. *)

From S2P Require Import Prelude Spinlock CString ProcData ProcList Proc ProcWp ProcSpec.
Local Open Scope Z_scope.

Abbreviation rep st := (tbl None (as_ps st) (as_q st)).

(** Loops leave the rest of the kernel state alone: [s'] is [s] with another
    table, which represents [st]. *)
Definition retabled {W} (s : kstate W) (st : astate) (pr : Z) (s' : kstate W) : Prop :=
  ∃ t', s' = set_k_ptable t' s ∧ rep st pr t'.

Section refine.
Context {W : Type} `{KSvc W} (E : string → Prop).
Implicit Types (s : kstate W) (st : astate).

Lemma retabled_self s st pr : rep st pr (k_ptable s) → retabled s st pr s.
Proof. intros Ht. exists (k_ptable s). by rewrite set_k_ptable_id. Qed.

(** A walk that reads the next link before the body: the body may move the node. *)
Lemma wp_walk_ahead_list k body (f : astate → nat → astate) st pr Q s :
  rep st pr (k_ptable s) → is_Some (get_head k (pt_pLists (k_ptable s))) →
  (∀ st i kept rest s', retabled s st pr s' → as_q st k = kept ++ i :: rest →
     wp E (body i) (λ _ s'', retabled s (f st i) pr s'' ∧
       ∃ kept', as_q (f st i) k = kept' ++ rest) s') →
  (∀ t', rep (foldl f st (as_q st k)) pr t' → Q tt (set_k_ptable t' s)) →
  wp E (walk_ahead_list k body) Q s.
Proof.
  intros Ht [h Hh] Hbody HQ. apply wp_bind. eapply wp_tlist; [done|done|].
  eapply (wp_walk_ahead E _ _ _ (λ rest s', ∃ st' kept, retabled s st' pr s' ∧
            as_q st' k = kept ++ rest ∧ foldl f st' rest = foldl f st (as_q st k))).
  - intros i rest s' (st' & kept & (t' & -> & Ht') & Ha & _). by eapply tbl_next.
  - intros i rest s' (st' & kept & Hre & Ha & Hf). eapply wp_mono; [by eapply Hbody|].
    intros [] s'' [Hre' [kept' Ha']]. by exists (f st' i), kept'.
  - pose proof (wfx_length _ _ _ (tb_wf _ _ _ _ _ Ht) k). unfold walk_fuel. lia.
  - exists st, []. split_and!; [by apply retabled_self|done|done].
  - intros s' (st' & kept & (t' & -> & Ht') & Ha & Hf). simpl in Hf. subst st'. by apply HQ.
Qed.

(** A walk that reads the next link after the body: the list stays as it is. *)
Lemma wp_walk_list k body (f : astate → nat → astate) st pr Q s :
  rep st pr (k_ptable s) → is_Some (get_head k (pt_pLists (k_ptable s))) →
  (∀ st i s', retabled s st pr s' → i ∈ as_q st k →
     wp E (body i) (λ _ s'', retabled s (f st i) pr s'') s') →
  (∀ st i, as_q (f st i) k = as_q st k) →
  (∀ t', rep (foldl f st (as_q st k)) pr t' → Q tt (set_k_ptable t' s)) →
  wp E (walk_list k body) Q s.
Proof.
  intros Ht [h Hh] Hbody Hsame HQ. apply wp_bind. eapply wp_tlist; [done|done|].
  eapply (wp_walk E _ _ _ (λ rest s', ∃ st' kept, retabled s st' pr s' ∧
            as_q st' k = kept ++ rest ∧ foldl f st' rest = foldl f st (as_q st k))).
  - intros i rest s' (st' & kept & Hre & Ha & Hf).
    eapply wp_mono; [apply Hbody; [done|rewrite Ha; set_solver]|].
    intros [] s'' Hre'. split.
    + exists (f st' i), (kept ++ [i]). by rewrite Hsame, Ha, <- app_assoc.
    + destruct Hre' as (t' & -> & Ht'). eapply tbl_next; [done|]. by rewrite Hsame.
  - pose proof (wfx_length _ _ _ (tb_wf _ _ _ _ _ Ht) k). unfold walk_fuel. lia.
  - exists st, []. split_and!; [by apply retabled_self|done|done].
  - intros s' (st' & kept & (t' & -> & Ht') & Ha & Hf). simpl in Hf. subst st'. by apply HQ.
Qed.

(** ** wakeup1 *)
Lemma wp_wakeup1_body ch st pr i kept rest s :
  rep st pr (k_ptable s) → as_q st LSleep = kept ++ i :: rest →
  wp E (wakeup1_body ch i) (λ _ s', retabled s (abs_wake ch st i) pr s' ∧
    ∃ kept', as_q (abs_wake ch st i) LSleep = kept' ++ rest) s.
Proof.
  intros Ht Ha. assert (i ∈ as_q st LSleep) as Hi by (rewrite Ha; set_solver).
  destruct (tbl_in _ _ _ _ _ _ _ Ht Hi) as (p & Hp & Hst & _).
  assert (p_state p = SLEEPING) as Hsl by (unfold list_of in Hst; by destruct (p_state p)).
  pose proof (tbl_prio _ _ _ _ _ _ _ Ht Hp) as Hpr.
  pose proof (wfx_NoDup _ _ _ (tb_wf _ _ _ _ _ Ht) LSleep) as Hnd.
  unfold wakeup1_body, abs_wake. rewrite Hp.
  pose proof (foc_intro _ _ _ _ _ _ _ Ht Hp) as Hf.
  fstep Hf. fstep Hf. simpl. case_decide.
  - fstep Hf. cstep. fstep Hf. fstep Hf. fstep Hf. apply wp_complain; [lia|]. split.
    + eexists. split; [reflexivity|]. apply Hf.
    + exists kept. unfold put_last, take_off. simpl. rewrite fn_lookup_insert_ne by done.
      rewrite fn_lookup_insert, Ha. apply remove1_middle.
      rewrite Ha in Hnd. apply list.NoDup_app in Hnd. set_solver.
  - apply wp_skip. split; [by apply retabled_self|].
    exists (kept ++ [i]). by rewrite <- app_assoc.
Qed.

Lemma wp_wakeup1 ch st pr Q s :
  rep st pr (k_ptable s) →
  (∀ t', rep (abs_wakeup1 ch st) pr t' → Q tt (set_k_ptable t' s)) →
  wp E (wakeup1 ch) Q s.
Proof.
  intros Ht HQ. eapply wp_walk_ahead_list; [done|done| |done].
  intros st' i kept rest s' (t' & -> & Ht') Ha.
  eapply wp_mono; [by eapply wp_wakeup1_body|].
  intros [] s'' [(t'' & -> & Ht'') Hk]. split; [|done]. by exists t''.
Qed.

(** ** sched: the process leaves the CPU *)

(** The state after the running CPU gave up its process and ptable.lock. *)
Definition left_cpu (L : list string) (s : kstate W) (st : astate) (pr : Z) (s' : kstate W) : Prop :=
  ∃ t' m' c', s' = set_k_ptable t' (set_k_mach m' s) ∧ rep st pr t' ∧
    lock_free m' c' ∧ c_proc c' = None ∧ c_ncli c' = 0 ∧ cpu_step L (k_mach s) m'.

Lemma lock_mine_set m c v :
  lock_mine m c → c_IF v = c_IF c → c_ncli v = c_ncli c → lock_mine (set_cpu v m) v.
Proof.
  intros (Hc & Hl & HIF & Hn) HI HN. split_and!.
  - exact (lookup_set_cpu m c v Hc).
  - by rewrite get_lock_set_cpu.
  - congruence.
  - lia.
Qed.
Lemma cpu_step_set L m v : cpu_step L m (set_cpu v m).
Proof. split_and!; [done|by exists v|done]. Qed.

Lemma wp_set_curproc o c Q s :
  m_cpus (k_mach s) !! m_gs (k_mach s) = Some c →
  Q tt (set_k_mach (set_cpu (set_c_proc o c) (k_mach s)) s) → wp E (set_curproc o) Q s.
Proof.
  intros Hc HQ. apply wp_mch. eapply wp_Ok; [|exact HQ].
  unfold upd_cpu, bind, mycpu. by rewrite Hc.
Qed.

Lemma wp_scheduler_tail c Q s :
  lock_mine (k_mach s) c →
  (∀ m', lock_free m' (popped (set_c_proc None c)) → cpu_step ["ptable"] (k_mach s) m' →
     Q tt (set_k_mach m' s)) →
  wp E scheduler_tail Q s.
Proof.
  intros Hm HQ. apply wp_bind. eapply wp_set_curproc; [apply Hm|].
  eapply wp_release_pt; [by eapply lock_mine_set|].
  intros m' Hf Hs. apply (HQ m' Hf). etransitivity; [|exact Hs]. apply cpu_step_set.
Qed.

Lemma wp_sched k i p ps a pr c Q s :
  foc None i p ps a pr (k_ptable s) → lock_mine (k_mach s) c →
  c_ncli c = 1 → c_proc c = Some i → p_state p ≠ RUNNING →
  (∀ s', left_cpu ["ptable"] s (mka (<[i := leave (k_ticks s) (k (c_intena c)) p]> ps) a) pr s' →
     Q tt s') →
  wp E (sched k) Q s.
Proof.
  intros Hf Hm Hn Hi Hst HQ. pose proof Hm as (Hc & Hl & HIF & _).
  apply wp_bind, wp_mch. eapply wp_Ok.
  { unfold holding, gets. rewrite Hl. unfold holding_by. simpl. by rewrite bool_decide_true. }
  rewrite set_k_mach_id. cbv [negb]. apply wp_bind, wp_mch. eapply wp_Ok.
  { unfold mycpu. by rewrite Hc. }
  rewrite set_k_mach_id, decide_False by lia.
  apply wp_bind. eapply wp_deref_cur; [done..|]. fstep Hf.
  rewrite decide_False by done. rewrite HIF.
  fstep Hf. fstep Hf. fstep Hf.
  eapply wp_scheduler_tail; [exact Hm|]. intros m' Hfree Hs. apply HQ.
  eexists _, m', _. split_and!; [reflexivity|apply Hf|exact Hfree|done|simpl; lia|done].
Qed.

Lemma left_cpu_mach L L' s m st pr s' :
  cpu_step L (k_mach s) m → left_cpu L' (set_k_mach m s) st pr s' → left_cpu (L ++ L') s st pr s'.
Proof.
  intros Hm (t' & m' & c' & -> & Ht & Hl & Hp & Hn & Hs).
  exists t', m', c'. split_and!; [done..|]. etransitivity; eapply cpu_step_mono; [exact Hm| |exact Hs|];
    set_solver.
Qed.
Lemma left_cpu_mono L L' s st pr s' : left_cpu L s st pr s' → L ⊆ L' → left_cpu L' s st pr s'.
Proof.
  intros (t' & m' & c' & -> & Ht & Hl & Hp & Hn & Hs) HL.
  exists t', m', c'. split_and!; [done..|]. by eapply cpu_step_mono.
Qed.

Lemma left_cpu_same L s m st pr s' :
  cpu_step L (k_mach s) m → left_cpu L (set_k_mach m s) st pr s' → left_cpu L s st pr s'.
Proof. intros Hm Hl. eapply left_cpu_mono; [by eapply left_cpu_mach|set_solver]. Qed.
Lemma left_cpu_lock L s st pr s' l :
  left_cpu L s st pr s' → l ∉ L → get_lock l (k_mach s') = get_lock l (k_mach s).
Proof. intros (t' & m' & c' & -> & _ & _ & _ & _ & (_ & _ & Hs)) Hl. by apply Hs. Qed.
Lemma cpu_step_trans L L' m1 m2 m3 :
  cpu_step L m1 m2 → cpu_step L' m2 m3 → cpu_step (L ++ L') m1 m3.
Proof. intros H1 H2. etransitivity; eapply cpu_step_mono; [exact H1| |exact H2|]; set_solver. Qed.

(** Releasing a second lock, with ptable.lock still held. *)
Lemma wp_release_other c l Q s :
  lock_mine (k_mach s) c → l ≠ "ptable" →
  holding_by (m_gs (k_mach s)) (get_lock l (k_mach s)) = true → 1 < c_ncli c →
  (∀ m', lock_mine m' (popped c) → cpu_step [l] (k_mach s) m' → get_lock l m' = unlocked →
     Q tt (set_k_mach m' s)) →
  wp E (mch (release l)) Q s.
Proof.
  intros (Hc & Hl & HIF & Hn) Hne Hh Hn1 HQ. apply wp_mch.
  eapply wp_Ok; [by apply release_eq|]. apply HQ.
  - split_and!.
    + exact (lookup_set_cpu (k_mach s) c (popped c) Hc).
    + by rewrite get_lock_set_cpu, get_lock_set_lock_ne.
    + simpl. by rewrite decide_False by lia.
    + simpl. lia.
  - split_and!; [done|by exists (popped c)|].
    intros lk Hlk. by rewrite get_lock_set_cpu, get_lock_set_lock_ne by set_solver.
  - by rewrite get_lock_set_cpu, get_lock_set_lock.
Qed.

(** ** yield *)

(** Process [i], with entry [p], runs on this CPU; nothing is locked by it. *)
Record on_cpu (s : kstate W) (st : astate) (c : cpu) (i : nat) (p : proc) : Prop := {
  oc_cpu : lock_free (k_mach s) c;
  oc_ncli : c_ncli c = 0;
  oc_proc : c_proc c = Some i;
  oc_entry : as_ps st !! i = Some p;
  oc_state : p_state p = RUNNING
}.

Lemma wp_yield c i p st pr s :
  rep st pr (k_ptable s) → on_cpu s st c i p →
  wp E yield (λ _ s', left_cpu ["ptable"] s
    (abs_yield (k_ticks s) (c_intena (pushed c)) i p st) pr s') s.
Proof.
  intros Ht [Hl Hn Hi Hp Hst]. pose proof (foc_intro _ _ _ _ _ _ _ Ht Hp) as Hf.
  unfold yield. apply wp_bind. eapply wp_acquire_pt; [exact Hl| |lia]. intros m1 Hm1 Hs1.
  pose proof Hm1 as (Hc1 & _ & _ & _).
  apply wp_bind. eapply wp_curproc; [exact Hc1|]. simpl. rewrite Hi.
  fstep Hf. fstep Hf. cstep. apply wp_bind. eapply wp_deref_cur; [exact Hc1|exact Hi|].
  fstep Hf. fstep Hf. fstep Hf. fstep Hf. simpl. fstep Hf. cstep.
  eapply wp_sched; [exact Hf|exact Hm1|simpl; lia|exact Hi|by rewrite charge_state|].
  intros s' Hleft. exact (left_cpu_same _ _ _ _ _ _ Hs1 Hleft).
Qed.

Lemma wp_sleep_locked c i p ch st pr s :
  rep st pr (k_ptable s) → lock_mine (k_mach s) c → c_ncli c = 1 → c_proc c = Some i →
  as_ps st !! i = Some p → p_state p = RUNNING →
  wp E (sleep ch (Some "ptable")) (λ _ s', left_cpu ["ptable"] s
    (abs_sleep (k_ticks s) (c_intena c) ch (Some "ptable") i p st) pr s') s.
Proof.
  intros Ht Hm Hn Hi Hp Hst. pose proof (foc_intro _ _ _ _ _ _ _ Ht Hp) as Hf.
  pose proof Hm as (Hc & _ & _ & _).
  unfold sleep. apply wp_bind. eapply wp_curproc; [exact Hc|]. rewrite Hi.
  apply wp_bind. rewrite decide_True by done. apply wp_skip.
  fstep Hf. fstep Hf. fstep Hf. cstep. fstep Hf. fstep Hf. fstep Hf. fstep Hf. cstep.
  eapply wp_sched; [exact Hf|exact Hm|done|exact Hi|by rewrite charge_state|].
  intros s' Hleft. exact Hleft.
Qed.

(** [sleep] with another lock [l], which the caller holds. *)
Lemma wp_sleep c i p ch l st pr s :
  rep st pr (k_ptable s) → lock_free (k_mach s) c → l ≠ "ptable" →
  holding_by (m_gs (k_mach s)) (get_lock l (k_mach s)) = true →
  c_IF c = false → c_ncli c = 1 → c_proc c = Some i →
  as_ps st !! i = Some p → p_state p = RUNNING →
  wp E (sleep ch (Some l)) (λ _ s', left_cpu ["ptable"; l] s
    (abs_sleep (k_ticks s) (c_intena c) ch (Some l) i p st) pr s' ∧
    get_lock l (k_mach s') = unlocked) s.
Proof.
  intros Ht Hl Hne Hh HIF Hn Hi Hp Hst. pose proof (foc_intro _ _ _ _ _ _ _ Ht Hp) as Hf.
  pose proof Hl as [Hc _].
  unfold sleep. apply wp_bind. eapply wp_curproc; [exact Hc|]. rewrite Hi.
  apply wp_bind. rewrite decide_False by congruence.
  apply wp_bind. eapply wp_acquire_pt; [exact Hl| |lia]. intros m1 Hm1 Hs1.
  eapply wp_release_other; [exact Hm1|done| |simpl; lia|].
  { simpl. destruct Hs1 as (-> & _ & ->); [done|set_solver]. }
  intros m2 Hm2 Hs2 Hu.
  fstep Hf. fstep Hf. fstep Hf. cstep. fstep Hf. fstep Hf. fstep Hf. fstep Hf. cstep.
  eapply wp_sched; [exact Hf|exact Hm2|simpl; lia|exact Hi|by rewrite charge_state|].
  intros s' Hleft. split; [|rewrite <- Hu; exact (left_cpu_lock _ _ _ _ _ l Hleft ltac:(set_solver))].
  assert (c_intena c = c_intena (popped (pushed c))) as ->
    by (simpl; by rewrite decide_False by lia).
  eapply left_cpu_mono; [exact (left_cpu_mach _ _ _ _ _ _ _ (cpu_step_trans _ _ _ _ _ Hs1 Hs2) Hleft)|].
  set_solver.
Qed.

(** [sleep] with a null lock. *)
Lemma wp_sleep_null c i p ch st pr s :
  rep st pr (k_ptable s) → on_cpu s st c i p →
  wp E (sleep ch None) (λ _ s', left_cpu ["ptable"] s
    (abs_sleep (k_ticks s) (c_intena (pushed c)) ch None i p st) pr s') s.
Proof.
  intros Ht [Hl Hn Hi Hp Hst]. pose proof (foc_intro _ _ _ _ _ _ _ Ht Hp) as Hf.
  pose proof Hl as [Hc _].
  unfold sleep. apply wp_bind. eapply wp_curproc; [exact Hc|]. rewrite Hi.
  apply wp_bind. rewrite decide_False by congruence.
  apply wp_bind. eapply wp_acquire_pt; [exact Hl| |lia]. intros m1 Hm1 Hs1. apply wp_skip.
  fstep Hf. fstep Hf. fstep Hf. cstep. fstep Hf. fstep Hf. fstep Hf. fstep Hf. cstep.
  eapply wp_sched; [exact Hf|exact Hm1|simpl; lia|exact Hi|by rewrite charge_state|].
  intros s' Hleft. exact (left_cpu_same _ _ _ _ _ _ Hs1 Hleft).
Qed.

(** ** wakeup, with ptable.lock taken and given back *)
Definition unlocked_again (s : kstate W) (st : astate) (pr : Z) (c : cpu) (s' : kstate W) : Prop :=
  ∃ t' m', s' = set_k_ptable t' (set_k_mach m' s) ∧ rep st pr t' ∧
    lock_free m' (popped (pushed c)) ∧ cpu_step ["ptable"] (k_mach s) m'.

Lemma wp_wakeup ch c st pr s :
  rep st pr (k_ptable s) → lock_free (k_mach s) c → 0 ≤ c_ncli c →
  wp E (wakeup ch) (λ _ s', unlocked_again s (abs_wakeup1 ch st) pr c s') s.
Proof.
  intros Ht Hl Hn. apply wp_bind. eapply wp_acquire_pt; [exact Hl| |done]. intros m1 Hm1 Hs1.
  apply wp_bind. eapply wp_wakeup1; [exact Ht|]. intros t' Ht'.
  eapply wp_release_pt; [exact Hm1|]. intros m2 Hm2 Hs2.
  exists t', m2. split_and!; [done|done|done|]. by etransitivity.
Qed.

(** ** exit: the children *)
Lemma wp_reparent cur init k st pr i s :
  rep st pr (k_ptable s) → i ∈ as_q st k →
  wp E (reparent cur init i) (λ _ s', retabled s (abs_reparent cur init st i) pr s') s.
Proof.
  intros Ht Hi. destruct (tbl_in _ _ _ _ _ _ _ Ht Hi) as (p & Hp & _ & _).
  pose proof (tbl_prio _ _ _ _ _ _ _ Ht Hp) as Hpr.
  pose proof (foc_intro _ _ _ _ _ _ _ Ht Hp) as Hf.
  unfold reparent, abs_reparent. rewrite (list_alter_Some _ _ _ _ Hp). unfold adopt.
  fstep Hf. simpl. case_decide.
  - fstep Hf. eexists. split; [reflexivity|apply Hf].
  - apply wp_skip. exists (k_ptable s). rewrite set_k_ptable_id. split; [done|apply Hf].
Qed.

Lemma retabled_trans s st pr st' s' s'' :
  retabled s st pr s' → retabled s' st' pr s'' → retabled s st' pr s''.
Proof. intros (t' & -> & _) (t'' & -> & Ht''). by exists t''. Qed.

Lemma wp_reparent_list cur init k st pr Q s :
  rep st pr (k_ptable s) → is_Some (get_head k (pt_pLists (k_ptable s))) →
  (∀ t', rep (abs_reparent_list cur init st k) pr t' → Q tt (set_k_ptable t' s)) →
  wp E (walk_list k (reparent cur init)) Q s.
Proof.
  intros Ht Hk HQ. eapply (wp_walk_list _ _ (abs_reparent cur init)); [done|done| |done|done].
  intros st' i s' Hre Hi. pose proof Hre as (t' & -> & Ht').
  eapply wp_mono; [by eapply wp_reparent|]. intros [] s''. by apply retabled_trans with st'.
Qed.

Lemma wp_reparent_zombie cur init st pr i kept rest s :
  rep st pr (k_ptable s) → as_q st LZombie = kept ++ i :: rest →
  wp E (reparent_zombie cur init i)
    (λ _ s', retabled s (abs_reparent_zombie cur init st i) pr s' ∧
       ∃ kept', as_q (abs_reparent_zombie cur init st i) LZombie = kept' ++ rest) s.
Proof.
  intros Ht Ha. assert (i ∈ as_q st LZombie) as Hi by (rewrite Ha; set_solver).
  destruct (tbl_in _ _ _ _ _ _ _ Ht Hi) as (p & Hp & _ & _).
  pose proof (tbl_prio _ _ _ _ _ _ _ Ht Hp) as Hpr.
  pose proof (foc_intro _ _ _ _ _ _ _ Ht Hp) as Hf.
  unfold reparent_zombie, abs_reparent_zombie. rewrite Hp. fstep Hf. simpl. case_decide as Hc.
  - fstep Hf. assert (rep (abs_reparent cur init st i) pr t') as Hr.
    { unfold abs_reparent. rewrite (list_alter_Some _ _ _ _ Hp). unfold adopt.
      rewrite decide_True by done. apply Hf. }
    eapply wp_wakeup1; [exact Hr|]. intros t'' Ht''. split; [by exists t''|].
    exists (kept ++ [i]). rewrite abs_wakeup1_other by done. simpl. by rewrite Ha, <- app_assoc.
  - apply wp_skip. split; [by apply retabled_self|].
    exists (kept ++ [i]). by rewrite <- app_assoc.
Qed.

Lemma wp_reparent_zombies cur init st pr Q s :
  rep st pr (k_ptable s) →
  (∀ t', rep (foldl (abs_reparent_zombie cur init) st (as_q st LZombie)) pr t' →
     Q tt (set_k_ptable t' s)) →
  wp E (walk_ahead_list LZombie (reparent_zombie cur init)) Q s.
Proof.
  intros Ht HQ. eapply (wp_walk_ahead_list _ _ (abs_reparent_zombie cur init)); [done|done| |done].
  intros st' i kept rest s' Hre Ha. pose proof Hre as (t' & -> & Ht').
  eapply wp_mono; [by eapply wp_reparent_zombie|]. intros [] s'' [Hre' Hk].
  split; [exact (retabled_trans _ _ _ _ _ _ Hre Hre')|done].
Qed.

Lemma wp_reparent_lists cur init ks st pr Q s :
  rep st pr (k_ptable s) → (∀ k, k ∈ ks → match k with LReady q => 0 ≤ q ≤ MAX | _ => True end) →
  (∀ t', rep (foldl (abs_reparent_list cur init) st ks) pr t' → Q tt (set_k_ptable t' s)) →
  wp E (mfor ks (λ k, walk_list k (reparent cur init))) Q s.
Proof.
  revert st s Q. induction ks as [|k ks IH]; intros st s Q Ht Hks HQ; simpl.
  - apply wp_skip. specialize (HQ (k_ptable s) Ht). by rewrite set_k_ptable_id in HQ.
  - apply wp_bind. eapply wp_reparent_list; [done| |].
    { destruct (tbl_head_ok _ _ _ _ _ Ht k) as [h Hh]; [apply Hks; set_solver|by exists h]. }
    intros t' Ht'. eapply IH; [exact Ht'|set_solver|]. intros t'' Ht''. by apply HQ.
Qed.

(** ** exit, from the acquisition of ptable.lock *)
Lemma wp_pass_children i init st pr Q s :
  rep st pr (k_ptable s) →
  (∀ t', rep (abs_pass_children i init st) pr t' → Q tt (set_k_ptable t' s)) →
  wp E (pass_children i init) Q s.
Proof.
  intros Ht1 HQ.
  apply wp_bind. eapply wp_reparent_zombies; [exact Ht1|]. intros t2 Ht2.
  apply wp_bind. eapply wp_reparent_list; [exact Ht2|by eexists|]. intros t3 Ht3.
  apply wp_bind. eapply wp_reparent_lists; [exact Ht3| |].
  { unfold ready_lists, MAX. intros k Hk. repeat (apply elem_of_cons in Hk as [->|Hk]; [lia|]).
    by apply elem_of_nil in Hk. }
  intros t4 Ht4.
  apply wp_bind. eapply wp_reparent_list; [exact Ht4|by eexists|]. intros t5 Ht5.
  apply wp_bind. eapply wp_reparent_list; [exact Ht5|by eexists|]. intros t6 Ht6.
  eapply wp_reparent_list; [exact Ht6|by eexists|]. intros t7 Ht7.
  apply HQ. exact Ht7.
Qed.

Lemma in_running_state X ps a pr t i :
  tbl X ps a pr t → i ∈ a LRunning → ∃ p, ps !! i = Some p ∧ p_state p = RUNNING.
Proof.
  intros Ht Hi. destruct (tbl_in _ _ _ _ _ _ _ Ht Hi) as (p & Hp & Hst & _). exists p.
  split; [done|]. unfold list_of in Hst. by destruct (p_state p).
Qed.

Lemma wp_exit_sched c i p st pr s :
  rep st pr (k_ptable s) → on_cpu s st c i p →
  wp E exit_sched (λ _ s', left_cpu ["ptable"] s
    (abs_exit (k_ticks s) i (k_initproc s) (p_parent p) st) pr s') s.
Proof.
  intros Ht [Hl Hn Hi Hp Hst].
  assert (i ∈ as_q st LRunning) as Hrun.
  { eapply tbl_mem; [exact Ht|exact Hp|]. split; [done|]. unfold list_of. by rewrite Hst. }
  unfold exit_sched. apply wp_bind. eapply wp_acquire_pt; [exact Hl| |lia]. intros m1 Hm1 Hs1.
  pose proof Hm1 as (Hc1 & _ & _ & _).
  apply wp_bind. eapply wp_deref_cur; [exact Hc1|exact Hi|].
  apply wp_bind, wp_gets, wp_bind. eapply wp_tget; [exact Ht|exact Hp|]. intros n.
  apply wp_bind. eapply wp_wakeup1; [exact Ht|]. intros t1 Ht1.
  apply wp_bind. eapply wp_pass_children; [exact Ht1|]. intros t2 Ht2.
  unfold abs_exit. change (p_parent (set_p_next n p)) with (p_parent p) in *.
  change (k_initproc (set_k_mach m1 s)) with (k_initproc s) in *.
  set (st2 := abs_pass_children i _ _) in *.
  assert (i ∈ as_q st2 LRunning) as Hrun2.
  { unfold st2. by rewrite abs_pass_children_other, abs_wakeup1_other. }
  destruct (in_running_state _ _ _ _ _ _ Ht2 Hrun2) as (p2 & Hp2 & Hst2).
  unfold abs_zombie. rewrite (list_alter_Some _ _ _ _ Hp2).
  pose proof (foc_intro _ _ _ _ _ _ _ Ht2 Hp2) as Hf.
  pose proof (foc_prio _ _ _ _ _ _ _ Hf) as Hpr.
  fstep Hf. fstep Hf. cstep. fstep Hf. fstep Hf. cstep.
  eapply wp_sched; [exact Hf|exact Hm1|simpl; lia|exact Hi|done|].
  intros s' Hleft.
  exact (left_cpu_same _ _ _ _ _ _ Hs1 Hleft).
Qed.
End refine.

(** Lists that exist. *)
Ltac lists_ok :=
  let k := fresh in let Hk := fresh in
  intros k Hk; unfold ready_lists in Hk; simpl in Hk;
  repeat (apply elem_of_cons in Hk as [->|Hk]; [unfold MAX; simpl; lia|]);
  by apply elem_of_nil in Hk.

Section refine_locked.
Context {W : Type} `{KSvc W} (E : string → Prop).
Implicit Types (s : kstate W) (st : astate).

(** ** kill *)
Lemma wp_kill pid c st pr s :
  rep st pr (k_ptable s) → lock_free (k_mach s) c → 0 ≤ c_ncli c →
  wp E (kill pid) (λ r s', r = (abs_kill pid st).1 ∧
    unlocked_again s (abs_kill pid st).2 pr c s') s.
Proof.
  intros Ht Hl Hn. unfold kill. apply wp_bind. eapply wp_acquire_pt; [exact Hl| |done].
  intros m1 Hm1 Hs1. apply wp_bind. eapply wp_tfind; [exact Ht|apply _|lists_ok|].
  unfold abs_kill. destruct (first_on _ _ _ [LSleep]) as [[k i]|] eqn:Hfind.
  - apply first_on_Some in Hfind as (Hk & Hi & p & Hp & _).
    apply list_elem_of_singleton in Hk as ->. rewrite Hp.
    destruct (tbl_in _ _ _ _ _ _ _ Ht Hi) as (p' & Hp' & Hst & _). simplify_eq.
    assert (p_state p = SLEEPING) as Hsl by (unfold list_of in Hst; by destruct (p_state p)).
    pose proof (foc_intro _ _ _ _ _ _ _ Ht Hp) as Hf.
    fstep Hf. fstep Hf. fstep Hf. cstep. fstep Hf. fstep Hf. fstep Hf. cstep.
    apply wp_bind. eapply wp_release_pt; [exact Hm1|]. intros m2 Hm2 Hs2. apply wp_ret.
    split; [done|]. eexists _, m2. split_and!; [reflexivity|apply Hf|done|by etransitivity].
  - apply wp_bind. eapply wp_tfind; [exact Ht|apply _|lists_ok|].
    destruct (first_on _ _ _ (ready_lists ++ _)) as [[k i]|] eqn:Hfind'.
    + apply first_on_Some in Hfind' as (Hk & Hi & p & Hp & _).
      rewrite (list_alter_Some _ _ _ _ Hp).
      pose proof (foc_intro _ _ _ _ _ _ _ Ht Hp) as Hf. fstep Hf.
      apply wp_bind. eapply wp_release_pt; [exact Hm1|]. intros m2 Hm2 Hs2. apply wp_ret.
      split; [done|]. eexists _, m2. split_and!; [reflexivity|apply Hf|done|by etransitivity].
    + apply wp_bind. eapply wp_release_pt; [exact Hm1|]. intros m2 Hm2 Hs2. apply wp_ret.
      split; [done|]. exists (k_ptable s), m2.
      split_and!; [by destruct s|apply Ht|done|by etransitivity].
Qed.

(** ** setpriority *)
Lemma wp_setpriority pid prio c st pr s :
  rep st pr (k_ptable s) → lock_free (k_mach s) c → 0 ≤ c_ncli c → 0 ≤ prio ≤ MAX →
  wp E (setpriority pid prio) (λ r s', r = (abs_setpriority pid prio st).1 ∧
    unlocked_again s (abs_setpriority pid prio st).2 pr c s') s.
Proof.
  intros Ht Hl Hn Hprio. assert (0 ≤ u32 prio ≤ MAX) as Hu.
  { rewrite u32_small; [done|]. unfold MAX in *. lia. }
  unfold setpriority. apply wp_bind. eapply wp_acquire_pt; [exact Hl| |done].
  intros m1 Hm1 Hs1. apply wp_bind. eapply wp_tfind; [exact Ht|apply _|lists_ok|].
  unfold abs_setpriority. destruct (first_on _ _ _ ready_lists) as [[k i]|] eqn:Hfind.
  - apply first_on_Some in Hfind as (Hk & Hi & p & Hp & _).
    rewrite (list_alter_Some _ _ _ _ Hp).
    destruct (tbl_in _ _ _ _ _ _ _ Ht Hi) as (p' & Hp' & Hst & _). simplify_eq.
    assert (p_state p = RUNNABLE) as Hsl.
    { unfold ready_lists in Hk. unfold list_of in Hk. destruct (p_state p); set_solver. }
    assert (list_of p = LReady (p_priority p)) as -> by (unfold list_of; by rewrite Hsl).
    pose proof (foc_intro _ _ _ _ _ _ _ Ht Hp) as Hf.
    fstep Hf. fstep Hf. cstep. fstep Hf. fstep Hf. fstep Hf. cstep. fstep Hf.
    apply wp_bind. eapply wp_release_pt; [exact Hm1|]. intros m2 Hm2 Hs2. apply wp_ret.
    split; [done|]. eexists _, m2. split_and!; [reflexivity|apply Hf|done|by etransitivity].
  - apply wp_bind. eapply wp_tfind; [exact Ht|apply _|lists_ok|].
    destruct (first_on _ _ _ [LRunning; _]) as [[k i]|] eqn:Hfind'.
    + apply first_on_Some in Hfind' as (Hk & Hi & p & Hp & _).
      rewrite (list_alter_Some _ _ _ _ Hp).
      destruct (tbl_in _ _ _ _ _ _ _ Ht Hi) as (p' & Hp' & Hst & _). simplify_eq.
      pose proof (foc_intro _ _ _ _ _ _ _ Ht Hp) as Hf.
      assert (list_of (set_p_priority (u32 prio) p) = list_of p) as Hsame.
      { unfold list_of in *. simpl. destruct (p_state p); set_solver. }
      fstep Hf. fstep Hf.
      apply wp_bind. eapply wp_release_pt; [exact Hm1|]. intros m2 Hm2 Hs2. apply wp_ret.
      split; [done|]. eexists _, m2. split_and!; [reflexivity|apply Hf|done|by etransitivity].
    + apply wp_bind. eapply wp_release_pt; [exact Hm1|]. intros m2 Hm2 Hs2. apply wp_ret.
      split; [done|]. exists (k_ptable s), m2.
      split_and!; [by destruct s|apply Ht|done|by etransitivity].
Qed.

(** ** promoteAll *)
Lemma wp_promote_body q st pr i kept rest s :
  rep st pr (k_ptable s) → 1 ≤ q ≤ MAX → as_q st (LReady q) = kept ++ i :: rest →
  wp E (promote_body i) (λ _ s', retabled s (abs_promote st i) pr s' ∧
    ∃ kept', as_q (abs_promote st i) (LReady q) = kept' ++ rest) s.
Proof.
  intros Ht Hq Ha. assert (i ∈ as_q st (LReady q)) as Hi by (rewrite Ha; set_solver).
  destruct (tbl_in _ _ _ _ _ _ _ Ht Hi) as (p & Hp & Hst & _).
  assert (p_state p = RUNNABLE ∧ p_priority p = q) as [Hsl Hpq]
    by (unfold list_of in Hst; by destruct (p_state p); simplify_eq).
  pose proof (tbl_prio _ _ _ _ _ _ _ Ht Hp) as Hpr.
  pose proof (wfx_NoDup _ _ _ (tb_wf _ _ _ _ _ Ht) (LReady q)) as Hnd.
  unfold promote_body, abs_promote. rewrite Hp.
  pose proof (foc_intro _ _ _ _ _ _ _ Ht Hp) as Hf.
  fstep Hf. fstep Hf. fstep Hf. cstep. fstep Hf. fstep Hf. fstep Hf.
  apply wp_complain; [lia|]. split.
  - eexists. split; [reflexivity|]. apply Hf.
  - exists kept. unfold put_last, take_off. simpl.
    assert (p_priority (raise_priority p) = q - 1) as ->.
    { unfold raise_priority. rewrite decide_True by lia. simpl. lia. }
    rewrite Hpq, fn_lookup_insert_ne by (intros [=]; lia).
    rewrite fn_lookup_insert, Ha. apply remove1_middle.
    rewrite Ha in Hnd. apply list.NoDup_app in Hnd. set_solver.
Qed.

Lemma wp_promote_list q st pr Q s :
  rep st pr (k_ptable s) → 1 ≤ q ≤ MAX →
  (∀ t', rep (foldl abs_promote st (as_q st (LReady q))) pr t' → Q tt (set_k_ptable t' s)) →
  wp E (walk_ahead_list (LReady q) promote_body) Q s.
Proof.
  intros Ht Hq HQ. eapply (wp_walk_ahead_list _ _ _ abs_promote); [done| | |done].
  { destruct (tbl_head_ok _ _ _ _ _ Ht (LReady q)) as [h Hh]; [lia|by exists h]. }
  intros st' i kept rest s' Hre Ha. pose proof Hre as (t' & -> & Ht').
  eapply wp_mono; [by eapply wp_promote_body|]. intros [] s'' [Hre' Hk].
  split; [exact (retabled_trans _ _ _ _ _ _ Hre Hre')|done].
Qed.

Lemma wp_raise_list k st pr Q s :
  rep st pr (k_ptable s) → k = LSleep ∨ k = LRunning →
  (∀ t', rep (foldl abs_raise st (as_q st k)) pr t' → Q tt (set_k_ptable t' s)) →
  wp E (walk_list k (λ i, pt (upd_proc i raise_priority))) Q s.
Proof.
  intros Ht Hk HQ. eapply (wp_walk_list _ _ _ abs_raise); [done| | |done|done].
  { by destruct Hk as [->| ->]. }
  intros st' i s' Hre Hi. pose proof Hre as (t' & -> & Ht').
  destruct (tbl_in _ _ _ _ _ _ _ Ht' Hi) as (p & Hp & Hst & _).
  pose proof (foc_intro _ _ _ _ _ _ _ Ht' Hp) as Hf.
  assert (list_of (raise_priority p) = list_of p) as Hsame.
  { unfold list_of in *. rewrite raise_state. destruct (p_state p); naive_solver. }
  fstep Hf. eexists. split; [reflexivity|]. unfold abs_raise. simpl.
  rewrite (list_alter_Some _ _ _ _ Hp). apply Hf.
Qed.

Lemma wp_promoteAll st pr Q s :
  rep st pr (k_ptable s) →
  (∀ t', rep (abs_promoteAll st) pr t' → Q tt (set_k_ptable t' s)) →
  wp E promoteAll Q s.
Proof.
  intros Ht HQ. unfold promoteAll. apply wp_bind. cbn [mfor].
  apply wp_bind. eapply wp_promote_list; [exact Ht|unfold MAX; lia|]. intros t1 Ht1.
  apply wp_bind. eapply wp_promote_list; [exact Ht1|unfold MAX; lia|]. intros t2 Ht2.
  apply wp_skip.
  apply wp_bind. eapply wp_raise_list; [exact Ht2|by left|]. intros t3 Ht3.
  eapply wp_raise_list; [exact Ht3|by right|]. intros t4 Ht4. apply HQ. exact Ht4.
Qed.

(** ** scheduler: choosing a process *)
Lemma popped_pushed c : c_IF c = false → 0 < c_ncli c → popped (pushed c) = c.
Proof.
  destruct c as [n en fl o]. unfold popped, pushed; simpl. intros -> Hn.
  rewrite decide_False by lia. rewrite decide_False by lia. f_equal. lia.
Qed.

Lemma wp_switchuvm c i p X ps a pr Q s :
  lock_mine (k_mach s) c → c_proc c = Some i → foc X i p ps a pr (k_ptable s) →
  p_pgdir p ≠ 0 → Q tt s → wp E (switchuvm i) Q s.
Proof.
  intros (Hc & Hl & HIF & Hn) Hi Hf Hpg HQ. unfold switchuvm.
  apply wp_bind, wp_mch. eapply wp_Ok; [by apply pushcli_eq|].
  pose proof (lookup_set_cpu (k_mach s) c (pushed c) Hc) as Hc1.
  apply wp_bind. eapply wp_deref_cur; [exact Hc1|exact Hi|].
  fstep Hf. fstep Hf. simpl. rewrite decide_False by done.
  apply wp_mch. eapply wp_Ok; [by eapply popcli_eq; [exact Hc1|done|simpl; lia]|]. simpl.
  rewrite set_cpu_set_cpu, popped_pushed, set_cpu_id by done.
  change (Q tt (set_k_mach (k_mach s) s)). by rewrite set_k_mach_id.
Qed.

(** The state after [scheduler] put the process [j] on the CPU. *)
Definition started (s : kstate W) (c : cpu) (j : nat) (st : astate) (pr : Z) (s' : kstate W) : Prop :=
  ∃ t' m', s' = set_k_ptable t' (set_k_mach m' s) ∧ rep st pr t' ∧
    lock_mine m' (set_c_proc (Some j) c) ∧ cpu_step [] (k_mach s) m'.

Lemma tbl_ready_head ps a pr t q i l :
  tbl None ps a pr t → a (LReady q) = i :: l →
  0 ≤ q ≤ MAX ∧ ∃ p, ps !! i = Some p ∧ p_state p = RUNNABLE ∧ p_priority p = q.
Proof.
  intros Ht Ha. assert (i ∈ a (LReady q)) as Hi by (rewrite Ha; set_solver).
  destruct (tbl_in _ _ _ _ _ _ _ Ht Hi) as (p & Hp & Hst & _).
  pose proof (tbl_prio _ _ _ _ _ _ _ Ht Hp).
  unfold list_of in Hst. destruct (p_state p) eqn:?; simplify_eq. eauto 6.
Qed.

Lemma wp_pick qs c st pr s :
  rep st pr (k_ptable s) → lock_mine (k_mach s) c → (∀ q, q ∈ qs → 0 ≤ q ≤ MAX) →
  (∀ i p, as_ps st !! i = Some p → p_state p = RUNNABLE → p_pgdir p ≠ 0) →
  wp E (pick qs) (λ r s', r = (abs_pick (k_ticks s) qs st).1 ∧
    match r with
    | None => s' = s
    | Some j => started s c j (abs_pick (k_ticks s) qs st).2 pr s'
    end) s.
Proof.
  intros Ht Hm Hqs Hpg. induction qs as [|q qs IH]; cbn [pick abs_pick]; [by apply wp_ret|].
  destruct (tbl_head_ok _ _ _ _ _ Ht (LReady q)) as [h Hh]; [apply Hqs; set_solver|].
  apply wp_bind. eapply wp_tlist; [exact Ht|exact Hh|].
  destruct (as_q st (LReady q)) as [|i l] eqn:Ha; cbn [head].
  { apply IH. set_solver. }
  destruct (tbl_ready_head _ _ _ _ _ _ _ Ht Ha) as (Hq & p & Hp & Hst & Hpq).
  specialize (Hpg _ _ Hp Hst).
  apply wp_bind. eapply wp_tassert; [exact Ht|exact Hp|exact Hst|].
  apply wp_bind. eapply wp_tget; [exact Ht|exact Hp|]. intros n. simpl. rewrite Hpq.
  apply wp_bind. eapply wp_tremoveHead; [exact Ht|done|exact Ha|]. intros t1 Ht1.
  apply wp_bind. eapply wp_set_curproc; [apply Hm|].
  pose proof (foc_intro _ _ _ _ _ _ _ Ht1 Hp) as Hf.
  assert (lock_mine (set_cpu (set_c_proc (Some i) c) (k_mach s)) (set_c_proc (Some i) c)) as Hm1
    by (by eapply lock_mine_set).
  apply wp_bind. eapply wp_switchuvm; [exact Hm1|done|exact Hf|done|].
  fstep Hf. fstep Hf. cstep. fstep Hf. fstep Hf. apply wp_ret. split; [done|].
  rewrite (list_alter_Some _ _ _ _ Hp).
  eexists _, _. split_and!; [reflexivity|apply Hf|exact Hm1|apply cpu_step_set].
Qed.

Lemma wp_promote_if_due st pr Q s :
  rep st pr (k_ptable s) →
  (pr = k_ticks s → ∀ t', rep (abs_promoteAll st) (u32 (k_ticks s + TIME_TO_PROMOTE)) t' →
     Q tt (set_k_ptable t' s)) →
  (pr ≠ k_ticks s → Q tt s) →
  wp E promote_if_due Q s.
Proof.
  intros Ht Hdue Hnot. unfold promote_if_due. apply wp_bind, wp_gets, wp_bind, wp_gets.
  rewrite (tb_pr _ _ _ _ _ Ht). case_decide; [|by apply wp_skip, Hnot].
  apply wp_bind. eapply wp_promoteAll; [exact Ht|]. intros t' Ht'. apply wp_modS.
  apply (Hdue ltac:(done)). destruct Ht' as [Hwf Hs _]. split; [|done|done].
  by destruct Hwf.
Qed.
End refine_locked.

Section refine_services.
Context {W : Type} `{KSvcLaws W}.
Implicit Types (s : kstate W) (st : astate).

(** A service call: the world changes, its law holds of the result. *)
Lemma wp_svc_law {A} (m : M W A) (P : A → W → Prop) Q s :
  (∀ w, wp svc_panics m P w) → (∀ r w', P r w' → Q r (set_k_world w' s)) →
  wp svc_panics (svc m) Q s.
Proof. intros Hlaw HQ. apply wp_svc. eapply wp_mono; [apply Hlaw|]. auto. Qed.

(** The same, with the run of the service. *)
Lemma wp_svc_run {A} (m : M W A) (P : A → W → Prop) Q s :
  (∀ w, wp svc_panics m P w) →
  (∀ r w', m (k_world s) = Ok (r, w') → P r w' → Q r (set_k_world w' s)) →
  wp svc_panics (svc m) Q s.
Proof.
  intros Hlaw HQ. apply wp_svc. specialize (Hlaw (k_world s)). unfold wp in *.
  destruct (m (k_world s)) as [[r w']|e| |]; auto.
Qed.

(** The lock is given back, the world may have changed. *)
Definition unlocked_world (s : kstate W) (st : astate) (pr : Z) (c : cpu) (s' : kstate W) : Prop :=
  ∃ w' t' m', s' = set_k_world w' (set_k_ptable t' (set_k_mach m' s)) ∧ rep st pr t' ∧
    lock_free m' (popped c) ∧ cpu_step ["ptable"] (k_mach s) m'.

(** ** wait *)
Lemma wp_reap j p c st pr s :
  rep st pr (k_ptable s) → lock_mine (k_mach s) c → as_ps st !! j = Some p → p_state p = ZOMBIE →
  wp svc_panics (reap j) (λ r s', r = s32 (p_pid p) ∧ unlocked_world s (abs_reap j st) pr c s') s.
Proof.
  intros Ht Hm Hp Hst. pose proof (foc_intro _ _ _ _ _ _ _ Ht Hp) as Hf.
  unfold reap. fstep Hf. simpl.
  apply wp_bind. eapply wp_svc_law; [apply kfree_law|]. intros _ w1 _.
  fstep Hf. simpl. apply wp_bind. eapply wp_svc_law; [apply freevm_law|]. intros _ w2 _.
  fstep Hf. fstep Hf. cstep. fstep Hf. fstep Hf. cstep.
  fstep Hf. fstep Hf. fstep Hf. fstep Hf.
  apply wp_bind. eapply wp_release_pt; [exact Hm|]. intros m' Hfree Hs. apply wp_ret.
  split; [done|]. exists w2. eexists _, m'. split_and!; [reflexivity| |exact Hfree|exact Hs].
  unfold abs_reap. simpl. rewrite (list_alter_Some _ _ _ _ Hp). apply Hf.
Qed.

Lemma wp_wait_iter c i p st pr s :
  rep st pr (k_ptable s) → lock_mine (k_mach s) c → c_ncli c = 1 → c_proc c = Some i →
  as_ps st !! i = Some p → p_state p = RUNNING →
  wp svc_panics wait_iter (λ r s',
    match wait_find st i p with
    | WaitZombie j q =>
        r = Some (s32 (p_pid q)) ∧ p_state q = ZOMBIE ∧ unlocked_world s (abs_reap j st) pr c s'
    | WaitNone => r = Some (-1) ∧ unlocked_world s st pr c s'
    | WaitSleep => r = None ∧ left_cpu ["ptable"] s
        (abs_sleep (k_ticks s) (c_intena c) (ChProc i) (Some "ptable") i p st) pr s'
    end) s.
Proof.
  intros Ht Hm Hn Hi Hp Hst. pose proof Hm as (Hc & _ & _ & _). unfold wait_iter, wait_find.
  apply wp_bind. eapply wp_deref_cur; [exact Hc|exact Hi|].
  apply wp_bind. eapply wp_tfind; [exact Ht|apply _|lists_ok|].
  destruct (first_on _ _ _ [LZombie]) as [[k j]|] eqn:Hz.
  - apply first_on_Some in Hz as (Hk & Hj & q & Hq & _).
    apply list_elem_of_singleton in Hk as ->. rewrite Hq.
    destruct (tbl_in _ _ _ _ _ _ _ Ht Hj) as (q' & Hq' & Hstq & _). simplify_eq.
    assert (p_state q = ZOMBIE) as Hzq by (unfold list_of in Hstq; by destruct (p_state q)).
    apply wp_bind. eapply wp_mono; [by eapply wp_reap|]. intros r s' [-> Hu]. by apply wp_ret.
  - apply wp_bind. eapply wp_tfind; [exact Ht|apply _|lists_ok|].
    apply wp_bind. eapply wp_tget; [exact Ht|exact Hp|]. intros n. simpl p_killed.
    case_decide.
    + apply wp_bind. eapply wp_release_pt; [exact Hm|]. intros m' Hfree Hs. apply wp_ret.
      split; [done|]. exists (k_world s), (k_ptable s), m'.
      split_and!; [by destruct s|done|done|done].
    + apply wp_bind. eapply wp_mono; [by eapply wp_sleep_locked|].
      intros [] s' Hleft. by apply wp_ret.
Qed.

(** ** allocproc *)
Definition alloc_post (s : kstate W) (st : astate) (pr : Z) (c : cpu)
    (st' : astate) (n' : Z) (s' : kstate W) : Prop :=
  ∃ w' t' m', s' = set_k_nextpid n' (set_k_world w' (set_k_ptable t' (set_k_mach m' s))) ∧
    rep st' pr t' ∧ lock_free m' (popped (pushed c)) ∧ cpu_step ["ptable"] (k_mach s) m'.

Lemma wp_allocproc_slot c st pr s :
  rep st pr (k_ptable s) → lock_free (k_mach s) c → 0 ≤ c_ncli c →
  wp svc_panics allocproc_slot (λ r s', k_world s' = k_world s ∧ r = head (as_q st LFree) ∧
    match as_q st LFree with
    | [] => alloc_post s st pr c st (k_nextpid s) s'
    | i :: _ => ∃ p, as_ps st !! i = Some p ∧ p_state p = UNUSED ∧
        alloc_post s st pr c (abs_embryo i (embryo (k_nextpid s) p) st) (s32 (k_nextpid s + 1)) s'
    end) s.
Proof.
  intros Ht Hl Hn. unfold allocproc_slot. apply wp_bind. eapply wp_acquire_pt; [exact Hl| |done].
  intros m1 Hm1 Hs1. apply wp_bind. eapply wp_tlist; [exact Ht|reflexivity|].
  destruct (as_q st LFree) as [|i l] eqn:Hfree; cbn [head].
  - apply wp_bind. eapply wp_release_pt; [exact Hm1|]. intros m2 Hm2 Hs2. apply wp_ret.
    split_and!; [done|done|]. exists (k_world s), (k_ptable s), m2.
    split_and!; [by destruct s|done|done|by etransitivity].
  - assert (i ∈ as_q st LFree) as Hi by (rewrite Hfree; set_solver).
    destruct (tbl_in _ _ _ _ _ _ _ Ht Hi) as (p & Hp & Hst & _).
    assert (p_state p = UNUSED) as Hun by (unfold list_of in Hst; by destruct (p_state p)).
    pose proof (foc_intro _ _ _ _ _ _ _ Ht Hp) as Hf.
    fstep Hf. fstep Hf. cstep. fstep Hf. fstep Hf. cstep. fstep Hf. fstep Hf.
    apply wp_bind, wp_modS.
    apply wp_bind. eapply wp_release_pt; [exact Hm1|]. intros m2 Hm2 Hs2. apply wp_ret.
    split_and!; [done|done|]. exists p. split_and!; [done|done|].
    exists (k_world s). eexists _, m2. split_and!; [by destruct s|apply Hf|done|by etransitivity].
Qed.

(** The stack: the slot [i] holds [q], an EMBRYO. *)
Lemma wp_allocproc_stack (P : option Z → W → Prop) i q ps a pr s :
  foc None i q ps a pr (k_ptable s) → p_state q = EMBRYO →
  wp svc_panics svc_kalloc P (k_world s) →
  wp svc_panics (allocproc_stack i) (λ r s', ∃ t' w', s' = set_k_world w' (set_k_ptable t' s) ∧
    (r = None ∧ P None w' ∧
       foc None i (set_p_state UNUSED (set_p_kstack 0 q)) ps (put_first i LFree (take_off i LEmbryo a)) pr t' ∨
     r = Some i ∧ ∃ ks, P (Some ks) w' ∧
       foc None i (init_proc ks (k_ticks s) (set_p_kstack ks q)) ps a pr t')) s.
Proof.
  intros Hf Hst HP. unfold allocproc_stack.
  apply wp_bind, wp_svc. eapply wp_mono; [exact HP|]. intros [ks|] w1 HP1.
  - fstep Hf. fstep Hf. fstep Hf. apply wp_ret. eexists _, w1. split; [by destruct s|]. right. eauto.
  - fstep Hf. fstep Hf. fstep Hf. fstep Hf. fstep Hf. cstep. apply wp_ret.
    eexists _, w1. split; [by destruct s|]. by left.
Qed.

Lemma wp_allocproc (P : option Z → W → Prop) c st pr s :
  rep st pr (k_ptable s) → lock_free (k_mach s) c → 0 ≤ c_ncli c →
  wp svc_panics svc_kalloc P (k_world s) →
  wp svc_panics allocproc (λ r s',
    match as_q st LFree with
    | [] => r = None ∧ k_world s' = k_world s ∧ alloc_post s st pr c st (k_nextpid s) s'
    | i :: _ => ∃ p, as_ps st !! i = Some p ∧ p_state p = UNUSED ∧
        let n := k_nextpid s in
        (r = None ∧ P None (k_world s') ∧ alloc_post s st pr c (abs_give_back i (embryo n p)
                      (abs_embryo i (embryo n p) st)) (s32 (n + 1)) s' ∨
         r = Some i ∧ ∃ ks, P (Some ks) (k_world s') ∧ alloc_post s st pr c
             (abs_embryo i (init_proc ks (k_ticks s) (set_p_kstack ks (embryo n p))) st)
             (s32 (n + 1)) s')
    end) s.
Proof.
  intros Ht Hl Hn HP. unfold allocproc. apply wp_bind.
  eapply wp_mono; [by eapply wp_allocproc_slot|]. intros r s1 (Hw1 & -> & Hpost).
  destruct (as_q st LFree) as [|i l]; cbn [head]; [by apply wp_ret|].
  destruct Hpost as (p & Hp & Hun & w1 & t1 & m1 & -> & Ht1 & Hf1 & Hs1). simpl in Hw1. subst w1.
  assert (foc None i (embryo (k_nextpid s) p) (as_ps st) (put_first i LEmbryo (take_off i LFree (as_q st))) pr t1)
    as Hf by (split; [by eapply lookup_lt_Some|exact Ht1]).
  eapply wp_mono; [by eapply wp_allocproc_stack; [exact Hf| |exact HP]|].
  intros r s2 (t2 & w2 & -> & [(-> & HP2 & Hf2)|(-> & ks & HP2 & Hf2)]); exists p; (split_and!; [done|done|]).
  - left. split_and!; [done|done|]. exists w2, t2, m1. split_and!; [by destruct s| |done|done].
    unfold abs_give_back, abs_embryo. simpl. rewrite list_insert_insert_eq. apply Hf2.
  - right. split; [done|]. exists ks. split; [done|]. exists w2, t2, m1. split_and!; [by destruct s| |done|done].
    apply Hf2.
Qed.

(** ** fork *)
Lemma wp_fcopy_name X i p ps a pr src Q s :
  foc X i p ps a pr (k_ptable s) → length (p_name p) = 16%nat →
  terminated src ∨ (16 ≤ length src)%nat →
  (∀ nm t', length nm = 16%nat → cstr nm = take 15 (cstr src) → terminated nm →
     foc X i (set_p_name nm p) ps a pr t' → Q tt (set_k_ptable t' s)) →
  wp svc_panics (copy_name i src) Q s.
Proof.
  intros Hf Hlen Hsrc HQ. unfold copy_name. fstep Hf. unfold safestrcpy, SIZEOF_NAME. simpl p_name.
  rewrite decide_False by lia.
  destruct (safestrcpy_loop_spec (p_name p) src 16) as (nm & Hnm & Hl & Hc & Hz & _);
    [lia|lia|done|].
  change (Z.to_nat 16) with 16%nat. rewrite Hnm. fstep Hf. refine (HQ nm _ _ Hc Hz Hf). congruence.
Qed.

(** A service called for every open file, in the order of the descriptors. *)
Definition each_open (m : nat → M W unit) (fds : list nat) (ofs : list (option nat)) : M W unit :=
  mfor fds (λ fd, match ofs !! fd with Some (Some f) => m f | _ => skip end).
Lemma each_open_all m ofs w : each_open m (seq 0 (length ofs)) ofs w = mfor (omap id ofs) m w.
Proof.
  change ofs with ([] ++ ofs) at 2. change 0%nat with (length (@nil (option nat))).
  generalize (@nil (option nat)). revert w. induction ofs as [|o ofs IH]; intros w pre; [done|].
  cbn [length seq each_open mfor omap list_omap]. unfold each_open in *. cbn [mfor].
  unfold bind at 1. rewrite (list_lookup_middle pre ofs o) by done.
  specialize (λ w, IH w (pre ++ [o])). rewrite length_app, Nat.add_1_r in IH.
  destruct o as [f|]; cbn [id mfor].
  - unfold bind at 1. destruct (m f w) as [[[] w1]|e| |]; try done. rewrite <- IH. by rewrite <- app_assoc.
  - rewrite <- IH. by rewrite <- app_assoc.
Qed.
(** What fork and exit ask of the rest of the kernel for the files of [p]. *)
Definition sharing (p : proc) : M W unit := mfor (omap id (p_ofile p)) svc_filedup ;;; svc_idup (p_cwd p).
Definition closing (p : proc) : M W unit := mfor (omap id (p_ofile p)) svc_fileclose ;;; svc_iput_op (p_cwd p).

Lemma wp_dup_files p np q ps a pr fds Q s :
  foc None np q ps a pr (k_ptable s) →
  (∀ t' w', each_open svc_filedup fds (p_ofile p) (k_world s) = Ok (tt, w') →
     foc None np (set_p_ofile (dup_ofile fds (p_ofile p) (p_ofile q)) q) ps a pr t' →
     Q tt (set_k_world w' (set_k_ptable t' s))) →
  wp svc_panics (mfor fds (λ fd,
    match p_ofile p !! fd with
    | Some (Some f) =>
        svc (svc_filedup f) ;;;
        pt (upd_proc np (λ q, set_p_ofile (<[fd := Some f]> (p_ofile q)) q))
    | _ => skip
    end)) Q s.
Proof.
  revert q s Q. induction fds as [|fd fds IH]; intros q s Q Hf HQ; cbn [mfor dup_ofile].
  - apply wp_skip. specialize (HQ (k_ptable s) (k_world s)).
    assert (set_k_world (k_world s) (set_k_ptable (k_ptable s) s) = s) as Heq by (by destruct s).
    rewrite Heq in HQ. apply HQ; [done|]. by destruct q.
  - apply wp_bind. unfold each_open in *. cbn [mfor dup_ofile] in HQ. unfold bind at 1 in HQ.
    destruct (p_ofile p !! fd) as [[f|]|] eqn:Hfd.
    + apply wp_bind. eapply wp_svc_run; [apply filedup_law|]. intros [] w1 Hrun _. rewrite Hrun in HQ.
      fstep Hf. eapply IH; [exact Hf|]. intros t2 w2 Hw Hf'. by apply HQ.
    + apply wp_skip. eapply IH; [exact Hf|]. intros t2 w2 Hw Hf'. by apply HQ.
    + apply wp_skip. eapply IH; [exact Hf|]. intros t2 w2 Hw Hf'. by apply HQ.
Qed.

Lemma wp_fork_fail np q ps a pr s :
  foc None np q ps a pr (k_ptable s) → p_state q = EMBRYO →
  wp svc_panics (fork_fail np) (λ _ s', ∃ w' t',
    s' = set_k_world w' (set_k_ptable t' s) ∧ svc_kfree (p_kstack q) (k_world s) = Ok (tt, w') ∧
    foc None np (set_p_state UNUSED (set_p_kstack 0 (set_p_pgdir 0 q))) ps
      (put_first np LFree (take_off np LEmbryo a)) pr t') s.
Proof.
  intros Hf Hst. unfold fork_fail. fstep Hf. fstep Hf.
  apply wp_bind. eapply wp_svc_run; [apply kfree_law|]. intros [] w1 Hw _.
  fstep Hf. fstep Hf. fstep Hf. apply wp_bind. rewrite decide_False by lia. apply wp_skip.
  fstep Hf. fstep Hf. rewrite decide_False by lia. apply wp_skip.
  eexists w1, _. split_and!; [reflexivity|exact Hw|exact Hf].
Qed.

Lemma wp_fork_fill i p d np q ps a pr s :
  foc None np q ps a pr (k_ptable s) → length (p_name q) = 16%nat →
  length (p_name p) = 16%nat → length (p_ofile p) = NOFILE →
  wp svc_panics (fork_fill i p d np) (λ _ s', ∃ w' t' nm,
    s' = set_k_world w' (set_k_ptable t' s) ∧ sharing p (k_world s) = Ok (tt, w') ∧ length nm = 16%nat ∧
    terminated nm ∧ cstr nm = take 15 (cstr (p_name p)) ∧
    foc None np (forked d i p nm q) ps a pr t') s.
Proof.
  intros Hf Hq Hp Ho. unfold fork_fill. fstep Hf. fstep Hf. fstep Hf. fstep Hf.
  apply wp_bind. unfold dup_files. eapply wp_dup_files; [exact Hf|]. clear Hf. intros t1 w1 Hw1 Hf.
  rewrite <- Ho, each_open_all in Hw1.
  apply wp_bind. eapply wp_svc_run; [apply idup_law|]. intros [] w2 Hw2 _.
  fstep Hf. apply wp_bind. eapply wp_fcopy_name; [exact Hf|done|right; lia|].
  clear Hf. intros nm t2 Hnm Hc Hz Hf. fstep Hf. fstep Hf.
  eexists w2, _, nm. split_and!; [reflexivity| |done|done|done|exact Hf].
  unfold sharing. by rewrite (bind_Ok _ _ _ _ _ Hw1).
Qed.

Lemma wp_fork_publish c np q ps a pr s :
  foc None np q ps a pr (k_ptable s) → p_state q = EMBRYO →
  lock_free (k_mach s) c → 0 ≤ c_ncli c →
  wp svc_panics (fork_publish np) (λ r s', r = s32 (p_pid q) ∧
    ∃ t' m', s' = set_k_ptable t' (set_k_mach m' s) ∧
      rep (abs_ready np q (mka ps a)) pr t' ∧
      lock_free m' (popped (pushed c)) ∧ cpu_step ["ptable"] (k_mach s) m') s.
Proof.
  intros Hf Hst Hl Hn. unfold fork_publish. fstep Hf.
  apply wp_bind. eapply wp_acquire_pt; [exact Hl| |done]. intros m1 Hm1 Hs1.
  fstep Hf. fstep Hf. cstep. fstep Hf. fstep Hf. fstep Hf. cstep.
  apply wp_bind. eapply wp_release_pt; [exact Hm1|]. intros m2 Hm2 Hs2. apply wp_ret.
  split; [done|]. eexists _, m2. split_and!; [reflexivity|apply Hf|exact Hm2|by etransitivity].
Qed.

(** ** exit, before ptable.lock is taken *)
Lemma wp_exit_ofile c fd i p ps a pr s :
  foc None i p ps a pr (k_ptable s) → m_cpus (k_mach s) !! m_gs (k_mach s) = Some c → c_proc c = Some i →
  wp svc_panics (exit_ofile fd) (λ _ s', ∃ w' t', s' = set_k_world w' (set_k_ptable t' s) ∧
    each_open svc_fileclose [fd] (p_ofile p) (k_world s) = Ok (tt, w') ∧
    foc None i (set_p_ofile (close_ofile [fd] (p_ofile p)) p) ps a pr t') s.
Proof.
  intros Hf Hc Hi. unfold exit_ofile, each_open. cbn [mfor close_ofile].
  apply wp_bind. eapply wp_deref_cur; [exact Hc|exact Hi|].
  fstep Hf. simpl p_ofile. destruct (p_ofile p !! fd) as [[f|]|] eqn:Hfd.
  - apply wp_bind. eapply wp_svc_run; [apply fileclose_law|]. intros [] w1 Hrun _.
    fstep Hf. eexists w1, _. split_and!; [done|by rewrite (bind_Ok _ _ _ _ _ Hrun)|exact Hf].
  - apply wp_skip. exists (k_world s), (k_ptable s). split_and!; [by destruct s|done|by destruct p].
  - apply wp_skip. exists (k_world s), (k_ptable s). split_and!; [by destruct s|done|by destruct p].
Qed.
Lemma wp_close_files c ofs i p ps a pr fds Q s :
  foc None i p ps a pr (k_ptable s) → m_cpus (k_mach s) !! m_gs (k_mach s) = Some c → c_proc c = Some i →
  NoDup fds → (∀ fd, fd ∈ fds → p_ofile p !! fd = ofs !! fd) →
  (∀ t' w', each_open svc_fileclose fds ofs (k_world s) = Ok (tt, w') →
     foc None i (set_p_ofile (close_ofile fds (p_ofile p)) p) ps a pr t' →
     Q tt (set_k_world w' (set_k_ptable t' s))) →
  wp svc_panics (mfor fds exit_ofile) Q s.
Proof.
  revert p s Q. induction fds as [|fd fds IH]; intros p s Q Hf Hc Hi Hnd Hof HQ; cbn [mfor].
  - apply wp_skip. specialize (HQ (k_ptable s) (k_world s)).
    assert (set_k_world (k_world s) (set_k_ptable (k_ptable s) s) = s) as Heq by (by destruct s).
    rewrite Heq in HQ. apply HQ; [done|]. by destruct p.
  - apply list.NoDup_cons in Hnd as [Hni Hnd]. apply wp_bind. eapply wp_mono; [by eapply wp_exit_ofile|].
    intros [] s1 (w1 & t1 & -> & Hw1 & Hf1). eapply IH; [exact Hf1|done|done|done| |].
    + intros fd' Hfd'. rewrite <- Hof by set_solver. cbn [p_ofile set_p_ofile close_ofile].
      destruct (p_ofile p !! fd) as [[f|]|]; [|done..]. apply list_lookup_insert_ne. set_solver.
    + intros t2 w2 Hw2 Hf2. apply (HQ t2 w2); [|exact Hf2].
      unfold each_open in *. cbn [mfor] in *. unfold bind in *. rewrite <- (Hof fd) by set_solver.
      destruct (p_ofile p !! fd) as [[f|]|]; [destruct (svc_fileclose f (k_world s)) as [[[] w]|e| |]; try done|..];
        injection Hw1 as <-; exact Hw2.
Qed.
Lemma wp_exit_cwd c i p ps a pr s :
  foc None i p ps a pr (k_ptable s) → m_cpus (k_mach s) !! m_gs (k_mach s) = Some c → c_proc c = Some i →
  wp svc_panics exit_cwd (λ _ s', ∃ w' t', s' = set_k_world w' (set_k_ptable t' s) ∧
    svc_iput_op (p_cwd p) (k_world s) = Ok (tt, w') ∧ foc None i (set_p_cwd None p) ps a pr t') s.
Proof.
  intros Hf Hc Hi. unfold exit_cwd. apply wp_bind. eapply wp_deref_cur; [exact Hc|exact Hi|].
  fstep Hf. apply wp_bind. eapply wp_svc_run; [apply iput_law|]. intros [] w1 Hw1 _.
  fstep Hf. by eexists w1, _.
Qed.
Lemma wp_exit_check c i Q s :
  m_cpus (k_mach s) !! m_gs (k_mach s) = Some c → c_proc c = Some i → k_initproc s ≠ Some i → Q tt s →
  wp svc_panics exit_check Q s.
Proof.
  intros Hc Hi Hinit HQ. unfold exit_check. apply wp_bind. eapply wp_curproc; [exact Hc|]. rewrite Hi.
  apply wp_bind, wp_gets. rewrite decide_False by congruence. by apply wp_skip.
Qed.

Lemma wp_exit_files c i p st pr s :
  rep st pr (k_ptable s) → on_cpu s st c i p → k_initproc s ≠ Some i → length (p_ofile p) = NOFILE →
  wp svc_panics exit_files (λ _ s', ∃ w' t', s' = set_k_world w' (set_k_ptable t' s) ∧
    closing p (k_world s) = Ok (tt, w') ∧ rep (mka (<[i := closed p]> (as_ps st)) (as_q st)) pr t') s.
Proof.
  intros Ht [[Hc _] Hn Hi Hp Hst] Hinit Ho. unfold exit_files.
  apply wp_bind. eapply wp_exit_check; [done..|].
  pose proof (foc_intro _ _ _ _ _ _ _ Ht Hp) as Hf.
  apply wp_bind. eapply (wp_close_files c (p_ofile p)); [exact Hf|exact Hc|exact Hi|apply NoDup_seq|done|].
  clear Hf. intros t1 w1 Hw1 Hf. rewrite <- Ho, each_open_all in Hw1.
  eapply wp_mono; [by eapply wp_exit_cwd|]. intros [] s' (w2 & t2 & -> & Hw2 & Hf2).
  exists w2, t2. split_and!; [done| |apply Hf2]. unfold closing. by rewrite (bind_Ok _ _ _ _ _ Hw1).
Qed.
End refine_services.

(** Loops over descriptors stay folded. *)
#[global] Arguments close_ofile : simpl never.
#[global] Arguments dup_ofile : simpl never.
#[global] Arguments abs_pass_children : simpl never.
