(* ===== verification/ProcInv.v ===== *)
(** * The invariant of the process subsystem

    [kinv s st]: the table of [s] represents the abstract state [st], every
    entry is sound for its state, every born process has a live parent, and the
    RUNNING list holds exactly the processes on the CPUs. *)

From S2P Require Import Prelude Spinlock CString ProcData ProcList Proc ProcWp ProcSpec ProcRefine.
Local Open Scope Z_scope.

(** ** Sound entries *)
Definition alive (st : procstate) : bool :=
  match st with SLEEPING | RUNNABLE | RUNNING => true | _ => false end.
Definition born (st : procstate) : bool :=
  match st with UNUSED | EMBRYO => false | _ => true end.

(** A slot with nothing open: free, or of a process that has exited. *)
Definition vacant (st : procstate) : bool :=
  match st with UNUSED | ZOMBIE => true | _ => false end.

(** A context that [scheduler] can switch to. *)
Definition resumable (k : kcontext) : bool :=
  match k with K_forkret | K_yield _ | K_sleep _ _ => true | _ => false end.
Definition asleep_context (k : kcontext) : bool :=
  match k with K_sleep _ _ => true | _ => false end.

Record proc_ok (p : proc) : Prop := mkpok {
  ok_name : length (p_name p) = 16%nat;
  ok_term : terminated (p_name p);
  ok_ofile : length (p_ofile p) = NOFILE;
  ok_closed : vacant (p_state p) = true → p_ofile p = replicate NOFILE None;
  ok_pgdir : born (p_state p) = true → p_pgdir p ≠ 0;
  ok_runnable : p_state p = RUNNABLE → resumable (p_saved p) = true;
  ok_sleeping : p_state p = SLEEPING → asleep_context (p_saved p) = true
}.

Definition live (ps : list proc) (o : option nat) : Prop :=
  ∃ j q, o = Some j ∧ ps !! j = Some q ∧ alive (p_state q) = true.

Record procs_ok (ps : list proc) (init : option nat) : Prop := mkpsok {
  po_each : ∀ i p, ps !! i = Some p → proc_ok p;
  po_init : live ps init;
  po_parent : ∀ i p, ps !! i = Some p → born (p_state p) = true → live ps (p_parent p)
}.

Lemma live_insert ps i p p' o :
  ps !! i = Some p → (alive (p_state p) = true → alive (p_state p') = true) →
  live ps o → live (<[i := p']> ps) o.
Proof.
  intros Hp Ha (j & q & -> & Hq & Hal). destruct (decide (i = j)) as [->|Hne].
  - simplify_eq. exists j, p'. split_and!; [done| |auto].
    apply list_lookup_insert_eq. by eapply lookup_lt_Some.
  - exists j, q. by rewrite list_lookup_insert_ne.
Qed.

(** A change of one entry that does not end a live process. *)
Lemma procs_ok_insert ps init i p p' :
  procs_ok ps init → ps !! i = Some p → proc_ok p' →
  (alive (p_state p) = true → alive (p_state p') = true) →
  (born (p_state p') = true → live ps (p_parent p')) →
  procs_ok (<[i := p']> ps) init.
Proof.
  intros [He Hi Hpar] Hp Hok Hal Hb. split.
  - intros j q [[-> ->]|[_ Hq]]%list_lookup_insert_cases; [done|by eapply He].
  - by eapply live_insert.
  - intros j q [[-> ->]|[_ Hq]]%list_lookup_insert_cases Hbq; eapply live_insert; eauto.
Qed.

(** The same, when parent and birth are unchanged. *)
Lemma procs_ok_update ps init i p p' :
  procs_ok ps init → ps !! i = Some p → proc_ok p' →
  (alive (p_state p) = true → alive (p_state p') = true) →
  (born (p_state p') = true → born (p_state p) = true) → p_parent p' = p_parent p →
  procs_ok (<[i := p']> ps) init.
Proof.
  intros Hps Hp Hok Hal Hb Hpar. eapply procs_ok_insert; [done..|].
  rewrite Hpar. intros Hb'. eapply po_parent; eauto.
Qed.

(** [proc_ok] reads the name's length, files, page table, state and context. *)
Lemma proc_ok_change p p' :
  proc_ok p → p_name p' = p_name p → p_ofile p' = p_ofile p →
  p_pgdir p' = p_pgdir p →
  vacant (p_state p') = vacant (p_state p) → born (p_state p') = born (p_state p) →
  (p_state p' = RUNNABLE → resumable (p_saved p') = true) →
  (p_state p' = SLEEPING → asleep_context (p_saved p') = true) → proc_ok p'.
Proof.
  intros [Hn Ht Ho Hc Hg _ _] Hn' Ho' Hg' Ha Hb Hr Hs.
  split; rewrite ?Hn', ?Ho', ?Hg', ?Ha, ?Hb; auto.
Qed.

(** ** The charge leaves what [proc_ok] reads *)
Lemma charge_fields now p :
  p_name (charge now p) = p_name p ∧ p_ofile (charge now p) = p_ofile p ∧
  p_pgdir (charge now p) = p_pgdir p ∧ p_parent (charge now p) = p_parent p ∧
  p_saved (charge now p) = p_saved p.
Proof. unfold charge. by repeat (case_decide; simpl in *). Qed.
Lemma raise_fields p :
  p_name (raise_priority p) = p_name p ∧ p_ofile (raise_priority p) = p_ofile p ∧
  p_pgdir (raise_priority p) = p_pgdir p ∧ p_parent (raise_priority p) = p_parent p ∧
  p_saved (raise_priority p) = p_saved p.
Proof. unfold raise_priority. by case_decide. Qed.

(** ** What a process may count on while others run

    [undisturbed ex q q']: an entry [q] that has become [q'] still lives with the
    same files, or is still the same embryo; only a child of [ex] may have got
    another parent. *)
Definition undisturbed (ex : option nat) (q q' : proc) : Prop :=
  (alive (p_state q) = true → alive (p_state q') = true ∧ p_ofile q' = p_ofile q) ∧
  (p_state q = EMBRYO → p_state q' = EMBRYO ∧ p_ofile q' = p_ofile q ∧ p_pgdir q' = p_pgdir q ∧
     p_saved q' = p_saved q ∧ ((∀ i, ex = Some i → p_parent q ≠ Some i) → p_parent q' = p_parent q)).
(** All entries but [X]. *)
Definition gentle (ex X : option nat) (ps ps' : list proc) : Prop :=
  ∀ j q, X ≠ Some j → ps !! j = Some q → ∃ q', ps' !! j = Some q' ∧ undisturbed ex q q'.

Lemma undisturbed_refl ex q : undisturbed ex q q.
Proof. by split. Qed.
Lemma undisturbed_trans ex q1 q2 q3 : undisturbed ex q1 q2 → undisturbed ex q2 q3 → undisturbed ex q1 q3.
Proof.
  intros [A1 B1] [A2 B2]. split.
  - intros Ha. destruct (A1 Ha) as [Ha2 Ho]. destruct (A2 Ha2) as [? Ho2]. split; [done|congruence].
  - intros He. destruct (B1 He) as (He2 & Ho & Hg & Hs & Hp). destruct (B2 He2) as (He3 & Ho3 & Hg3 & Hs3 & Hp3).
    split_and!; [done|congruence..|]. intros Hne. rewrite Hp3, Hp; [done|done|]. by rewrite Hp.
Qed.
Lemma undisturbed_mono ex q q' : undisturbed None q q' → undisturbed ex q q'.
Proof. intros [A B]. split; [done|]. intros He. destruct (B He) as (? & ? & ? & ? & Hp). split_and!; auto. Qed.
(** States other than EMBRYO. *)
Lemma undisturbed_alive ex q q' :
  p_state q ≠ EMBRYO → (alive (p_state q) = true → alive (p_state q') = true ∧ p_ofile q' = p_ofile q) →
  undisturbed ex q q'.
Proof. intros Hne Ha. by split. Qed.
Lemma gentle_refl ex X ps : gentle ex X ps ps.
Proof. intros j q _ Hq. exists q. split; [done|apply undisturbed_refl]. Qed.
Lemma gentle_trans ex X ps1 ps2 ps3 : gentle ex X ps1 ps2 → gentle ex X ps2 ps3 → gentle ex X ps1 ps3.
Proof.
  intros H1 H2 j q HX Hq. destruct (H1 j q HX Hq) as (q2 & Hq2 & Hu1).
  destruct (H2 j q2 HX Hq2) as (q3 & Hq3 & Hu2). exists q3. split; [done|]. by eapply undisturbed_trans.
Qed.
Lemma gentle_insert ex X i p p' ps :
  (X ≠ Some i → ps !! i = Some p ∧ undisturbed ex p p') → gentle ex X ps (<[i := p']> ps).
Proof.
  intros Hi j q HX Hq. destruct (decide (i = j)) as [->|Hne].
  - destruct (Hi HX) as [Hp Hu]. simplify_eq. exists p'. split; [|done].
    apply list_lookup_insert_eq. by eapply lookup_lt_Some.
  - exists q. rewrite list_lookup_insert_ne by done. split; [done|apply undisturbed_refl].
Qed.
Lemma gentle_alter ex X i f ps :
  (X ≠ Some i → ∀ p, ps !! i = Some p → undisturbed ex p (f p)) → gentle ex X ps (alter f i ps).
Proof.
  intros Hi j q HX Hq. destruct (decide (i = j)) as [->|Hne].
  - exists (f q). rewrite list_lookup_alter_eq, Hq. auto.
  - exists q. rewrite list_lookup_alter_ne by done. split; [done|apply undisturbed_refl].
Qed.
Lemma gentle_fmap ex X f ps : (∀ q, undisturbed ex q (f q)) → gentle ex X ps (f <$> ps).
Proof. intros Hf j q _ Hq. exists (f q). by rewrite list_lookup_fmap, Hq. Qed.

(** ** Abstract operations keep the entries sound *)
Section abs_ok.
Context (init : option nat) (st : astate) (Hok : procs_ok (as_ps st) init).

Lemma abs_yield_ok now en i p :
  as_ps st !! i = Some p → p_state p = RUNNING → procs_ok (as_ps (abs_yield now en i p st)) init.
Proof.
  intros Hp Hst. pose proof (po_each _ _ Hok _ _ Hp) as Hpok.
  pose proof (charge_fields now (set_p_state RUNNABLE p)) as (H1 & H2 & H3 & H4 & H5).
  eapply procs_ok_update; [done|done| | | |]; simpl; rewrite ?charge_state, ?H4; simpl; try done.
  - apply (proc_ok_change p); simpl; rewrite ?charge_state, ?H1, ?Hst; done.
  - by rewrite Hst.
Qed.

Lemma abs_sleep_ok now en ch lk i p :
  as_ps st !! i = Some p → p_state p = RUNNING →
  procs_ok (as_ps (abs_sleep now en ch lk i p st)) init.
Proof.
  intros Hp Hst. pose proof (po_each _ _ Hok _ _ Hp) as Hpok.
  pose proof (charge_fields now (set_p_state SLEEPING (set_p_chan ch p))) as (H1 & H2 & H3 & H4 & H5).
  eapply procs_ok_update; [done|done| | | |]; simpl; rewrite ?charge_state, ?H4; simpl; try done.
  - apply (proc_ok_change p); simpl; rewrite ?charge_state, ?H1, ?Hst; done.
  - by rewrite Hst.
Qed.

(** A change of every entry that keeps states (up to waking) and parents. *)
Lemma procs_ok_fmap (f : proc → proc) :
  (∀ p, proc_ok p → proc_ok (f p)) → (∀ p, alive (p_state (f p)) = alive (p_state p)) →
  (∀ p, born (p_state (f p)) = born (p_state p)) → (∀ p, p_parent (f p) = p_parent p) →
  procs_ok (f <$> as_ps st) init.
Proof.
  intros Hf Ha Hb Hpar.
  assert (∀ o, live (as_ps st) o → live (f <$> as_ps st) o) as Hlive.
  { intros o (j & q & -> & Hq & Hal). exists j, (f q). rewrite list_lookup_fmap, Hq.
    by rewrite Ha. }
  destruct Hok as [He Hi Hp]. split; [| by apply Hlive|].
  - intros j q'. rewrite list_lookup_fmap. destruct (as_ps st !! j) eqn:Hq; [|done].
    intros [= <-]. eauto.
  - intros j q'. rewrite list_lookup_fmap. destruct (as_ps st !! j) eqn:Hq; [|done].
    intros [= <-]. rewrite Hb, Hpar. eauto.
Qed.

Lemma wake_fields ch p :
  p_name (wake ch p) = p_name p ∧ p_ofile (wake ch p) = p_ofile p ∧
  p_pgdir (wake ch p) = p_pgdir p ∧ p_parent (wake ch p) = p_parent p ∧
  p_saved (wake ch p) = p_saved p.
Proof. unfold wake, wake_if. by repeat case_decide. Qed.
Lemma wake_state ch p :
  p_state (wake ch p) = p_state p ∨ p_state p = SLEEPING ∧ p_state (wake ch p) = RUNNABLE.
Proof. unfold wake, wake_if. repeat case_decide; auto. Qed.
Lemma resumable_asleep k : asleep_context k = true → resumable k = true.
Proof. by destruct k. Qed.

Lemma wake_ok ch p : proc_ok p → proc_ok (wake ch p).
Proof.
  intros Hpok. destruct (wake_fields ch p) as (H1 & H2 & H3 & _ & H5).
  apply (proc_ok_change p); try done.
  - destruct (wake_state ch p) as [->|[E ->]]; [done|by rewrite E].
  - destruct (wake_state ch p) as [->|[E ->]]; [done|by rewrite E].
  - rewrite H5. destruct (wake_state ch p) as [->|[E ->]]; [apply Hpok|].
    intros _. by apply resumable_asleep, Hpok.
  - rewrite H5. destruct (wake_state ch p) as [->|[E ->]]; [apply Hpok|done].
Qed.
Lemma wake_alive ch p : alive (p_state (wake ch p)) = alive (p_state p).
Proof. destruct (wake_state ch p) as [->|[-> ->]]; done. Qed.
Lemma wake_born ch p : born (p_state (wake ch p)) = born (p_state p).
Proof. destruct (wake_state ch p) as [->|[-> ->]]; done. Qed.

Lemma abs_wakeup1_ok ch : awf st → procs_ok (as_ps (abs_wakeup1 ch st)) init.
Proof.
  intros Hw. rewrite abs_wakeup1_ps by done.
  apply procs_ok_fmap; [apply wake_ok|apply wake_alive|apply wake_born|].
  intros p. apply wake_fields.
Qed.

Lemma promoted_ok p : proc_ok p → proc_ok (promoted p).
Proof.
  intros Hpok. destruct (raise_fields p) as (H1 & H2 & H3 & _ & H5). unfold promoted.
  destruct (p_state p) eqn:E; try done;
    (apply (proc_ok_change p); [done|by rewrite H1|done|done|..]; rewrite raise_state, ?H5, E; try done).
  - intros _. by apply (ok_sleeping _ Hpok).
  - intros _. by apply (ok_runnable _ Hpok).
Qed.
Lemma abs_promoteAll_ok : awf st → procs_ok (as_ps (abs_promoteAll st)) init.
Proof.
  intros Hw. rewrite abs_promoteAll_ps by done. apply procs_ok_fmap; [apply promoted_ok|..];
    intros p; unfold promoted; destruct (p_state p) eqn:E; rewrite ?raise_state, ?E; try done;
    apply raise_fields.
Qed.

(** The scheduler's choice. *)
Lemma abs_pick_ok now qs : awf st → procs_ok (as_ps (abs_pick now qs st).2) init.
Proof.
  intros Hw. induction qs as [|q qs IH]; cbn [abs_pick]; [done|].
  destruct (as_q st (LReady q)) as [|i l] eqn:Ha; [done|]. simpl.
  destruct (awf_in_state st i (LReady q) Hw) as (p & Hp & Hst); [rewrite Ha; set_solver|].
  rewrite (list_alter_Some _ _ _ _ Hp). eapply procs_ok_update; [done|done| |by rewrite Hst..|done].
  apply (proc_ok_change p); try done; [exact (po_each _ _ Hok _ _ Hp)|by rewrite Hst..].
Qed.

(** [kill] marks a process and may wake it; [setpriority] changes neither. *)
Lemma abs_kill_ok pid : awf st → procs_ok (as_ps (abs_kill pid st).2) init.
Proof.
  intros Hw. unfold abs_kill.
  destruct (first_on _ _ _ [LSleep]) as [[k i]|] eqn:Hf.
  - apply first_on_Some in Hf as (Hk & Hi & p & Hp & _).
    apply list_elem_of_singleton in Hk as ->. simpl. rewrite Hp.
    destruct (awf_in_state _ _ _ Hw Hi) as (p' & Hp' & Hst). simplify_eq. simpl in Hst.
    pose proof (po_each _ _ Hok _ _ Hp) as Hpok.
    eapply procs_ok_update; [done|done| |by rewrite Hst..|done].
    apply (proc_ok_change p); try done; [by rewrite Hst..|].
    intros _. by apply resumable_asleep, (ok_sleeping _ Hpok).
  - destruct (first_on _ _ _ (_ ++ _)) as [[k i]|] eqn:Hf'; [|done].
    apply first_on_Some in Hf' as (_ & _ & p & Hp & _). simpl.
    rewrite (list_alter_Some _ _ _ _ Hp). pose proof (po_each _ _ Hok _ _ Hp) as Hpok.
    eapply procs_ok_update; [done|done| |done..]. by destruct Hpok.
Qed.
Lemma abs_setpriority_ok pid prio : procs_ok (as_ps (abs_setpriority pid prio st).2) init.
Proof.
  assert (∀ i p, as_ps st !! i = Some p →
    procs_ok (alter (reprioritise prio) i (as_ps st)) init) as Hset.
  { intros i p Hp. rewrite (list_alter_Some _ _ _ _ Hp).
    pose proof (po_each _ _ Hok _ _ Hp) as Hpok.
    eapply procs_ok_update; [done|done| |done..]. by destruct Hpok. }
  unfold abs_setpriority. destruct (first_on _ _ _ ready_lists) as [[k i]|] eqn:Hf.
  - apply first_on_Some in Hf as (_ & _ & p & Hp & _). by eapply Hset.
  - destruct (first_on _ _ _ [LRunning; LSleep]) as [[k i]|] eqn:Hf'; [|done].
    apply first_on_Some in Hf' as (_ & _ & p & Hp & _). by eapply Hset.
Qed.

(** A zombie's slot becomes free. *)
Lemma reaped_ok p : proc_ok p → p_state p = ZOMBIE → proc_ok (reaped p).
Proof.
  intros [Hn Ht Ho Hc Hg Hr Hs] Hst. split; simpl; try done.
  - by rewrite length_insert.
  - unfold terminated. destruct (p_name p); [done|]. simpl. set_solver.
  - intros _. apply Hc. by rewrite Hst.
Qed.
Lemma abs_reap_ok j q :
  as_ps st !! j = Some q → p_state q = ZOMBIE → procs_ok (as_ps (abs_reap j st)) init.
Proof.
  intros Hq Hst. simpl. rewrite (list_alter_Some _ _ _ _ Hq).
  eapply procs_ok_insert; [done|done| |by rewrite Hst|done].
  apply reaped_ok; [exact (po_each _ _ Hok _ _ Hq)|done].
Qed.

(** What exit does to the entries of the other processes. *)
Definition survivor (i : nat) (parent : option nat) (b : bool) (p : proc) : proc :=
  adopt i init (wake_when b (chan_of_proc init) (wake (chan_of_proc parent) p)).

Lemma adopt_ok i p : proc_ok p → proc_ok (adopt i init p).
Proof. intros Hpok. unfold adopt. case_decide; [|done]. by destruct Hpok. Qed.
Lemma survivor_ok i parent b p : proc_ok p → proc_ok (survivor i parent b p).
Proof. intros Hpok. apply adopt_ok. destruct b; simpl; auto using wake_ok. Qed.
Lemma survivor_facts i parent b p :
  alive (p_state (survivor i parent b p)) = alive (p_state p) ∧
  born (p_state (survivor i parent b p)) = born (p_state p) ∧
  p_ofile (survivor i parent b p) = p_ofile p ∧
  p_parent (survivor i parent b p) = if decide (p_parent p = Some i) then init else p_parent p.
Proof.
  assert (∀ p, p_state (adopt i init p) = p_state p ∧ p_ofile (adopt i init p) = p_ofile p ∧
    p_parent (adopt i init p) = if decide (p_parent p = Some i) then init else p_parent p) as Ha
    by (intros q; unfold adopt; by case_decide).
  unfold survivor. destruct (Ha (wake_when b (chan_of_proc init) (wake (chan_of_proc parent) p)))
    as (-> & -> & ->).
  destruct (wake_fields (chan_of_proc parent) p) as (_ & H2 & _ & H4 & _).
  destruct b; simpl.
  - destruct (wake_fields (chan_of_proc init) (wake (chan_of_proc parent) p)) as (_ & -> & _ & -> & _).
    by rewrite H2, H4, !wake_alive, !wake_born.
  - by rewrite H2, H4, wake_alive, wake_born.
Qed.

(** exit: the process has closed its files and is not init. *)
Lemma abs_exit_ok now i p parent :
  awf st → as_ps st !! i = Some p → p_ofile p = replicate NOFILE None → init ≠ Some i →
  p_state p = RUNNING → procs_ok (as_ps (abs_exit now i init parent st)) init.
Proof.
  intros Hw Hp Hcl Hinit Hst. rewrite abs_exit_ps by done.
  set (b := has_child _ _ _). change (λ p, adopt i init _) with (survivor i parent b).
  set (z := λ p, leave now K_exit (set_p_state ZOMBIE p)).
  assert (∀ o, o ≠ Some i → live (as_ps st) o →
            live (alter z i (survivor i parent b <$> as_ps st)) o) as Hlive.
  { intros o Ho (j & q & -> & Hq & Hal). exists j, (survivor i parent b q). split; [done|].
    rewrite list_lookup_alter_ne, list_lookup_fmap, Hq by congruence.
    split; [done|]. by rewrite (proj1 (survivor_facts i parent b q)). }
  assert (∀ j q', alter z i (survivor i parent b <$> as_ps st) !! j = Some q' →
    ∃ q, as_ps st !! j = Some q ∧
      q' = if decide (j = i) then z (survivor i parent b q) else survivor i parent b q) as Hlook.
  { intros j q'. destruct (decide (j = i)) as [->|Hne].
    - rewrite list_lookup_alter_eq, list_lookup_fmap, Hp. intros [= <-]. eauto.
    - rewrite list_lookup_alter_ne, list_lookup_fmap by done.
      destruct (as_ps st !! j); [|done]. intros [= <-]. eauto. }
  destruct Hok as [He Hi Hpar]. split.
  - intros j q' (q & Hq & ->)%Hlook. pose proof (survivor_ok i parent b q (He _ _ Hq)) as Hs.
    case_decide; [|done]. subst j. simplify_eq. destruct Hs as [Hn Ht Ho Hc Hg Hr Hsl].
    destruct (survivor_facts i parent b p) as (_ & Hb & Hof & _). split; simpl; try done.
    + by rewrite Hof.
    + intros _. apply Hg. by rewrite Hb, Hst.
  - by apply Hlive.
  - intros j q' (q & Hq & ->)%Hlook Hborn.
    destruct (survivor_facts i parent b q) as (_ & Hb & _ & Hpq).
    assert (live (alter z i (survivor i parent b <$> as_ps st)) (p_parent (survivor i parent b q)))
      as Hl; [|by destruct (decide (j = i))].
    rewrite Hpq. destruct (decide (p_parent q = Some i)); [by apply Hlive|].
    apply Hlive; [done|]. apply (Hpar _ _ Hq).
    destruct (decide (j = i)) as [->|]; [simplify_eq; by rewrite Hst|]. by rewrite <- Hb.
Qed.
End abs_ok.

(** Each operation leaves the other processes undisturbed. *)
Section gentle_ops.
Context (st : astate).

Lemma wake_undisturbed ch p : undisturbed None p (wake ch p).
Proof.
  destruct (wake_fields ch p) as (_ & H2 & _ & _ & _). split; [by rewrite wake_alive|].
  intros He. unfold wake, wake_if. rewrite decide_False by (by rewrite He). by split_and!.
Qed.
Lemma gentle_yield now en i p : as_ps st !! i = Some p → p_state p = RUNNING →
  gentle None None (as_ps st) (as_ps (abs_yield now en i p st)).
Proof.
  intros Hp Hst. apply (gentle_insert _ _ i p). intros _. split; [done|]. apply undisturbed_alive; [by rewrite Hst|].
  intros _. simpl. rewrite charge_state. by destruct (charge_fields now (set_p_state RUNNABLE p)) as (_ & -> & _).
Qed.
Lemma gentle_sleep now en ch lk i p : as_ps st !! i = Some p → p_state p = RUNNING →
  gentle None None (as_ps st) (as_ps (abs_sleep now en ch lk i p st)).
Proof.
  intros Hp Hst. apply (gentle_insert _ _ i p). intros _. split; [done|]. apply undisturbed_alive; [by rewrite Hst|].
  intros _. simpl. rewrite charge_state.
  by destruct (charge_fields now (set_p_state SLEEPING (set_p_chan ch p))) as (_ & -> & _).
Qed.
Lemma gentle_wakeup ch : awf st → gentle None None (as_ps st) (as_ps (abs_wakeup1 ch st)).
Proof. intros Hw. rewrite abs_wakeup1_ps by done. apply gentle_fmap, wake_undisturbed. Qed.
Lemma gentle_promote : awf st → gentle None None (as_ps st) (as_ps (abs_promoteAll st)).
Proof.
  intros Hw. rewrite abs_promoteAll_ps by done. apply gentle_fmap. intros q.
  destruct (raise_fields q) as (_ & H2 & _). unfold promoted.
  destruct (p_state q) eqn:E; try (by apply undisturbed_refl);
    (apply undisturbed_alive; [by rewrite E|]; by rewrite raise_state, E).
Qed.
Lemma gentle_pick now qs : awf st → gentle None None (as_ps st) (as_ps (abs_pick now qs st).2).
Proof.
  intros Hw. induction qs as [|q qs IH]; cbn [abs_pick]; [apply gentle_refl|].
  destruct (as_q st (LReady q)) as [|i l] eqn:Ha; [done|]. apply gentle_alter. intros _ p Hp.
  destruct (awf_in_state st i (LReady q) Hw) as (p' & Hp' & Hst); [rewrite Ha; set_solver|]. simplify_eq.
  simpl in Hst. apply undisturbed_alive; by rewrite Hst.
Qed.
Lemma gentle_kill pid : awf st → gentle None None (as_ps st) (as_ps (abs_kill pid st).2).
Proof.
  intros Hw. unfold abs_kill. destruct (first_on _ _ _ [LSleep]) as [[k i]|] eqn:Hf.
  - apply first_on_Some in Hf as (Hk & Hi & p & Hp & _). apply list_elem_of_singleton in Hk as ->. simpl. rewrite Hp.
    destruct (awf_in_state _ _ _ Hw Hi) as (p' & Hp' & Hst). simplify_eq. simpl in Hst.
    apply (gentle_insert _ _ i p). intros _. split; [done|]. apply undisturbed_alive; by rewrite Hst.
  - destruct (first_on _ _ _ (_ ++ _)) as [[k i]|]; [|apply gentle_refl]. apply gentle_alter. by intros _ p _.
Qed.
Lemma gentle_setpriority pid prio : gentle None None (as_ps st) (as_ps (abs_setpriority pid prio st).2).
Proof.
  unfold abs_setpriority. destruct (first_on _ _ _ ready_lists) as [[k i]|]; [by apply gentle_alter; intros _ p _|].
  destruct (first_on _ _ _ [LRunning; LSleep]) as [[k i]|]; [|apply gentle_refl]. by apply gentle_alter; intros _ p _.
Qed.
Lemma gentle_reap j q : as_ps st !! j = Some q → p_state q = ZOMBIE →
  gentle None None (as_ps st) (as_ps (abs_reap j st)).
Proof. intros Hq Hst. apply gentle_alter. intros _ p Hp. simplify_eq. apply undisturbed_alive; by rewrite Hst. Qed.
Lemma gentle_exit now i init parent : awf st →
  gentle (Some i) (Some i) (as_ps st) (as_ps (abs_exit now i init parent st)).
Proof.
  intros Hw. rewrite abs_exit_ps by done. set (b := has_child _ _ _).
  eapply gentle_trans; [apply gentle_fmap|apply gentle_alter; naive_solver]. intros q.
  set (q1 := wake (chan_of_proc parent) q). apply (undisturbed_trans _ _ q1); [apply undisturbed_mono, wake_undisturbed|].
  apply (undisturbed_trans _ _ (wake_when b (chan_of_proc init) q1)).
  - apply undisturbed_mono. destruct b; [apply wake_undisturbed|apply undisturbed_refl].
  - unfold adopt. case_decide as Hd; [|apply undisturbed_refl]. split; [done|]. intros He. split_and!; [done..|].
    intros Hne. by destruct (Hne i).
Qed.

End gentle_ops.

(** ** The invariant *)
Record kinv {W} (s : kstate W) (st : astate) : Prop := mkkinv {
  ki_rep : rep st (pt_promoteAtTime (k_ptable s)) (k_ptable s);
  ki_ok : procs_ok (as_ps st) (k_initproc s);
  ki_run : running (k_mach s) ≡ₚ as_q st LRunning
}.

(** Between critical sections no lock is held. *)
Definition quiet (m : machine) : Prop :=
  (∀ lk, lk_locked (get_lock lk m) = false) ∧ ∀ n c, m_cpus m !! n = Some c → c_ncli c = 0.

Lemma rep_pr st pr t : rep st pr t → rep st (pt_promoteAtTime t) t.
Proof. intros [H1 H2 H3]. by split. Qed.

Section kinv_lemmas.
Context {W : Type}.
Implicit Types (s : kstate W) (st : astate).

Lemma kinv_awf s st : kinv s st → awf st.
Proof. intros [Hr _ _]. by eapply tbl_awf. Qed.

Lemma cpu_running s st n c i :
  kinv s st → m_cpus (k_mach s) !! n = Some c → c_proc c = Some i →
  ∃ p, as_ps st !! i = Some p ∧ p_state p = RUNNING ∧ i ∈ as_q st LRunning.
Proof.
  intros Hk Hc Hi. assert (i ∈ as_q st LRunning) as Hin.
  { rewrite <- (ki_run _ _ Hk). unfold running. apply list_elem_of_omap. exists c.
    split; [by eapply list_elem_of_lookup_2|done]. }
  destruct (awf_in_state _ _ _ (kinv_awf _ _ Hk) Hin) as (p & Hp & Hst). eauto.
Qed.

Lemma kinv_on_cpu s st c i :
  kinv s st → quiet (k_mach s) → m_cpus (k_mach s) !! m_gs (k_mach s) = Some c →
  c_proc c = Some i → ∃ p, on_cpu s st c i p.
Proof.
  intros Hk [Hl Hn] Hc Hi. destruct (cpu_running _ _ _ _ _ Hk Hc Hi) as (p & Hp & Hst & _).
  exists p. split; [by split|by eapply Hn|done..].
Qed.

(** Nothing is held, but for ptable.lock and what this CPU holds. *)
Definition quiet_others (m : machine) : Prop :=
  (∀ lk, lk ≠ "ptable" → lk_locked (get_lock lk m) = false) ∧
  ∀ n c, n ≠ m_gs m → m_cpus m !! n = Some c → c_ncli c = 0.
Lemma quiet_quiet_others m : quiet m → quiet_others m.
Proof. intros [Hl Hn]. split; eauto. Qed.

Lemma quiet_others_step L m m' :
  quiet_others m → cpu_step L m m' → (∀ lk, lk ∈ L → lk ≠ "ptable" → lk_locked (get_lock lk m') = false) →
  quiet_others m'.
Proof.
  intros [Hl Hn] (Hg & [c' Hc'] & Hlk) HL. split.
  - intros lk Hne. destruct (decide (lk ∈ L)); [auto|]. rewrite Hlk by done. auto.
  - intros n c. rewrite Hg, Hc'. intros Hne. rewrite list_lookup_insert_ne by done. eauto.
Qed.
Lemma quiet_intro m c :
  quiet_others m → lock_free m c → c_ncli c = 0 → quiet m.
Proof.
  intros [Hl Hn] [Hc Hf] Hz. split.
  - intros lk. destruct (decide (lk = "ptable")) as [->|]; auto.
  - intros n c'. destruct (decide (n = m_gs m)) as [->|]; [congruence|eauto].
Qed.

(** A process left its CPU. *)
Lemma kinv_left L s st c i p st' s' :
  kinv s st → m_cpus (k_mach s) !! m_gs (k_mach s) = Some c → c_proc c = Some i →
  as_ps st !! i = Some p → p_state p = RUNNING →
  left_cpu L s st' (pt_promoteAtTime (k_ptable s)) s' →
  procs_ok (as_ps st') (k_initproc s) → as_q st' LRunning = remove1 i (as_q st LRunning) →
  kinv s' st'.
Proof.
  intros [Hr Ho Hrun] Hc Hi Hp Hst (t' & m' & c' & -> & Ht' & [Hc' _] & Hnone & _ & Hs) Hok Hq.
  split; simpl; [by eapply rep_pr|done|].
  assert (i ∈ as_q st LRunning) as Hin.
  { apply (tbl_mem _ _ _ _ _ _ _ _ Hr Hp). split; [done|]. unfold list_of. by rewrite Hst. }
  rewrite Hq. apply (Permutation_cons_inv (a := i)).
  rewrite <- (running_drop L (k_mach s) m' c c' Hc Hc' Hs i Hi Hnone), Hrun.
  by apply remove1_perm.
Qed.
Lemma quiet_left L s st' pr s' :
  quiet_others (k_mach s) → left_cpu L s st' pr s' →
  (∀ lk, lk ∈ L → lk ≠ "ptable" → lk_locked (get_lock lk (k_mach s')) = false) → quiet (k_mach s').
Proof.
  intros Hqt (t' & m' & c' & -> & Ht' & Hf & _ & Hn & Hs) HL.
  eapply quiet_intro; [|exact Hf|done]. by eapply quiet_others_step.
Qed.

(** A critical section after which the process goes on. *)
Lemma kinv_again L s st c c' st' s' t' m' n' w' :
  kinv s st → m_cpus (k_mach s) !! m_gs (k_mach s) = Some c →
  s' = set_k_nextpid n' (set_k_world w' (set_k_ptable t' (set_k_mach m' s))) →
  rep st' (pt_promoteAtTime (k_ptable s)) t' →
  m_cpus m' !! m_gs m' = Some c' → c_proc c' = c_proc c → cpu_step L (k_mach s) m' →
  procs_ok (as_ps st') (k_initproc s) → as_q st' LRunning = as_q st LRunning →
  kinv s' st'.
Proof.
  intros [Hr Ho Hrun] Hc -> Ht' Hc' Hcp Hs Hok Hq.
  split; simpl; [by eapply rep_pr|done|].
  rewrite Hq, <- Hrun. by rewrite (running_same _ _ _ _ _ Hc Hc' Hs).
Qed.
Lemma quiet_again m c m' :
  quiet m → m_cpus m !! m_gs m = Some c → lock_free m' (popped (pushed c)) →
  cpu_step ["ptable"] m m' → quiet m'.
Proof.
  intros Hqt Hc Hf Hs. eapply quiet_intro; [|exact Hf|].
  - eapply quiet_others_step; [by apply quiet_quiet_others|exact Hs|].
    intros lk ->%list_elem_of_singleton. done.
  - simpl. pose proof (proj2 Hqt _ _ Hc). lia.
Qed.
End kinv_lemmas.
