(* ===== verification/ProcOps.v ===== *)
(** * Every operation keeps the invariant

    From a state that satisfies [kinv] and in which no lock is held, each entry
    point of proc.c ends in a state that satisfies [kinv] with the abstract
    state that ProcSpec computes; it panics only with a message of the services
    it calls, and never faults or walks for ever. *)

From S2P Require Import Prelude Spinlock CString ProcData ProcList Proc ProcWp ProcSpec ProcRefine ProcInv.
Local Open Scope Z_scope.

Section ops.
Context {W : Type} `{KSvc W} (E : string → Prop).
Implicit Types (s : kstate W) (st : astate).

(** What every operation guarantees: the invariant, no lock held, no complaint on
    the console, and the same init. *)
Definition silent (s s' : kstate W) : Prop := k_console s' = k_console s ∧ k_initproc s' = k_initproc s.
Definition settled (s : kstate W) (s' : kstate W) (st' : astate) : Prop :=
  kinv s' st' ∧ quiet (k_mach s') ∧ silent s s'.

Lemma left_cpu_console L s st pr s' : left_cpu L s st pr s' → silent s s'.
Proof. by intros (t' & m' & c' & -> & _). Qed.

Lemma yield_keeps s st c i p :
  kinv s st → quiet (k_mach s) → on_cpu s st c i p →
  wp E yield (λ _ s', settled s s' (abs_yield (k_ticks s) (c_intena (pushed c)) i p st)) s.
Proof.
  intros Hk Hq Hon. eapply wp_mono; [by eapply wp_yield; [apply Hk|]|].
  intros [] s' Hl. destruct Hon as [[Hc _] _ Hi Hp Hst]. split_and!.
  - eapply kinv_left; [done..|exact Hl|by eapply abs_yield_ok; [apply Hk|..]|].
    unfold abs_yield, put_last, take_off. simpl. rewrite fn_lookup_insert_ne by done.
    by rewrite fn_lookup_insert.
  - eapply quiet_left; [by apply quiet_quiet_others|exact Hl|].
    intros lk ->%list_elem_of_singleton. done.
  - by eapply left_cpu_console.
Qed.

(** A critical section of a process that keeps its CPU. *)
Lemma settled_again s st c st' s' :
  kinv s st → quiet (k_mach s) → m_cpus (k_mach s) !! m_gs (k_mach s) = Some c →
  unlocked_again s st' (pt_promoteAtTime (k_ptable s)) c s' →
  procs_ok (as_ps st') (k_initproc s) → as_q st' LRunning = as_q st LRunning →
  settled s s' st'.
Proof.
  intros Hk Hq Hc (t' & m' & -> & Ht' & [Hc' Hf'] & Hs) Hok Hrun. split_and!.
  - eapply (kinv_again _ s st c _ _ _ t' m' (k_nextpid s) (k_world s)); try done.
  - by eapply quiet_again; [|exact Hc|split|].
  - done.
Qed.
Lemma quiet_free m c : quiet m → m_cpus m !! m_gs m = Some c → lock_free m c ∧ 0 ≤ c_ncli c.
Proof. intros Hq Hc. split; [by split; [|apply Hq]|]. by rewrite (proj2 Hq _ _ Hc). Qed.

Lemma wakeup_keeps s st c ch :
  kinv s st → quiet (k_mach s) → m_cpus (k_mach s) !! m_gs (k_mach s) = Some c →
  wp E (wakeup ch) (λ _ s', settled s s' (abs_wakeup1 ch st)) s.
Proof.
  intros Hk Hq Hc. destruct (quiet_free _ _ Hq Hc) as [Hf Hn].
  eapply wp_mono; [by eapply wp_wakeup; [apply Hk|exact Hf|]|].
  intros [] s' Hu. eapply settled_again; [done..| |].
  - eapply abs_wakeup1_ok; [apply Hk|by eapply kinv_awf].
  - by rewrite abs_wakeup1_other.
Qed.

Lemma abs_kill_running pid st : as_q (abs_kill pid st).2 LRunning = as_q st LRunning.
Proof.
  unfold abs_kill. destruct (first_on _ _ _ [LSleep]) as [[k i]|].
  - simpl. destruct (as_ps st !! i); [|done]. unfold put_last, take_off. simpl.
    by rewrite !fn_lookup_insert_ne by done.
  - by destruct (first_on _ _ _ (_ ++ _)) as [[k i]|].
Qed.
Lemma kill_keeps s st c pid :
  kinv s st → quiet (k_mach s) → m_cpus (k_mach s) !! m_gs (k_mach s) = Some c →
  wp E (kill pid) (λ r s', r = (abs_kill pid st).1 ∧ settled s s' (abs_kill pid st).2) s.
Proof.
  intros Hk Hq Hc. destruct (quiet_free _ _ Hq Hc) as [Hf Hn].
  eapply wp_mono; [by eapply wp_kill; [apply Hk|exact Hf|]|].
  intros r s' [-> Hu]. split; [done|]. eapply settled_again; [done..| |].
  - apply abs_kill_ok; [apply Hk|by eapply kinv_awf].
  - apply abs_kill_running.
Qed.

Lemma abs_setpriority_running pid prio st :
  as_q (abs_setpriority pid prio st).2 LRunning = as_q st LRunning.
Proof.
  unfold abs_setpriority. destruct (first_on _ _ _ ready_lists) as [[k i]|] eqn:Hf.
  - apply first_on_Some in Hf as (Hk & _). simpl. unfold put_last, take_off.
    rewrite !fn_lookup_insert_ne; [done| |done]. unfold ready_lists in Hk. set_solver.
  - by destruct (first_on _ _ _ [LRunning; LSleep]) as [[k i]|].
Qed.
Lemma setpriority_keeps s st c pid prio :
  kinv s st → quiet (k_mach s) → m_cpus (k_mach s) !! m_gs (k_mach s) = Some c →
  0 ≤ prio ≤ MAX →
  wp E (setpriority pid prio) (λ r s', r = (abs_setpriority pid prio st).1 ∧
    settled s s' (abs_setpriority pid prio st).2) s.
Proof.
  intros Hk Hq Hc Hprio. destruct (quiet_free _ _ Hq Hc) as [Hf Hn].
  eapply wp_mono; [by eapply wp_setpriority; [apply Hk|exact Hf|..]|].
  intros r s' [-> Hu]. split; [done|]. eapply settled_again; [done..| |].
  - apply abs_setpriority_ok, Hk.
  - apply abs_setpriority_running.
Qed.

(** [acquire(lk); sleep(chan, lk)], as the callers of sleep do; sys_sleep calls
    it with a null lock. *)
Definition lock_and_sleep (ch : chan) (lk : option string) : M (kstate W) unit :=
  match lk with Some l => mch (acquire l) | None => skip end ;;; sleep ch lk.

Lemma sleep_null_keeps s st c i p ch :
  kinv s st → quiet (k_mach s) → on_cpu s st c i p →
  wp E (lock_and_sleep ch None) (λ _ s', settled s s'
    (abs_sleep (k_ticks s) (c_intena (pushed c)) ch None i p st)) s.
Proof.
  intros Hk Hq Hon. apply wp_bind, wp_skip.
  eapply wp_mono; [by eapply wp_sleep_null; [apply Hk|]|].
  intros [] s' Hl. destruct Hon as [[Hc _] _ Hi Hp Hst]. split_and!.
  - eapply kinv_left; [done..|exact Hl|by eapply abs_sleep_ok; [apply Hk|..]|].
    unfold abs_sleep, put_last, take_off. simpl. rewrite fn_lookup_insert_ne by done.
    by rewrite fn_lookup_insert.
  - eapply quiet_left; [by apply quiet_quiet_others|exact Hl|].
    intros lk ->%list_elem_of_singleton. done.
  - by eapply left_cpu_console.
Qed.

Lemma sleep_keeps s st c i p ch l :
  kinv s st → quiet (k_mach s) → on_cpu s st c i p → l ≠ "ptable" →
  wp E (lock_and_sleep ch (Some l)) (λ _ s', settled s s'
    (abs_sleep (k_ticks s) (c_IF c) ch (Some l) i p st)) s.
Proof.
  intros Hk Hq [[Hc Hf] Hn Hi Hp Hst] Hl. unfold lock_and_sleep.
  apply wp_bind, wp_mch. eapply wp_Ok; [by apply acquire_eq; [exact Hc|apply Hq]|].
  set (m1 := set_lock l _ _). assert (cpu_step [l] (k_mach s) m1) as Hs1.
  { split_and!; [done|by exists (pushed c)|]. intros lk Hlk.
    unfold m1. by rewrite get_lock_set_lock_ne by set_solver. }
  assert (m_cpus m1 !! m_gs m1 = Some (pushed c)) as Hc1
    by exact (lookup_set_cpu (k_mach s) c (pushed c) Hc).
  eapply wp_mono; [eapply (wp_sleep E (pushed c) i p ch l st); [apply Hk| |done|..]|].
  - split; [exact Hc1|]. cbn [k_mach set_k_mach]. unfold m1. by rewrite get_lock_set_lock_ne.
  - cbn [k_mach set_k_mach]. unfold m1. rewrite get_lock_set_lock. unfold holding_by. simpl.
    by rewrite bool_decide_true.
  - done.
  - simpl. lia.
  - done.
  - done.
  - done.
  - intros [] s' [Hleft Hu]. assert (c_intena (pushed c) = c_IF c) as Hen
      by (simpl; by rewrite decide_True by lia). rewrite Hen in Hleft.
    pose proof (left_cpu_mach E [l] _ _ _ _ _ _ Hs1 Hleft) as Hleft'. split_and!.
    + eapply kinv_left; [done..|exact Hleft'|by eapply abs_sleep_ok; [apply Hk|..]|].
      unfold abs_sleep, put_last, take_off. simpl. rewrite fn_lookup_insert_ne by done.
      by rewrite fn_lookup_insert.
    + eapply quiet_left; [by apply quiet_quiet_others|exact Hleft'|].
      intros lk Hlk Hne. assert (lk = l) as -> by set_solver. by rewrite Hu.
    + by eapply left_cpu_console in Hleft'.
Qed.
End ops.

Section ops_services.
Context {W : Type} `{KSvcLaws W}.
Implicit Types (s : kstate W) (st : astate).

(** Inside a critical section, between two operations on the lists. *)
Record mid (s : kstate W) (st : astate) (c : cpu) : Prop := mkmid {
  mi_inv : kinv s st;
  mi_lock : lock_mine (k_mach s) c;
  mi_ncli : c_ncli c = 1;
  mi_quiet : quiet_others (k_mach s)
}.

Lemma wp_enter c st Q s :
  kinv s st → quiet (k_mach s) → m_cpus (k_mach s) !! m_gs (k_mach s) = Some c →
  (∀ m', mid (set_k_mach m' s) st (pushed c) → Q tt (set_k_mach m' s)) →
  wp svc_panics (mch (acquire "ptable")) Q s.
Proof.
  intros Hk Hq Hc HQ. destruct (quiet_free _ _ Hq Hc) as [Hf Hn].
  eapply wp_acquire_pt; [exact Hf| |done]. intros m' Hm Hs. apply HQ.
  pose proof (proj2 Hq _ _ Hc). split; [|done|simpl; lia|].
  - destruct Hk as [Hr Ho Hrun]. split; [done|done|]. simpl.
    destruct Hm as (Hc' & _). by rewrite (running_same _ _ _ _ _ Hc Hc' Hs).
  - eapply quiet_others_step; [by apply quiet_quiet_others|exact Hs|].
    intros lk ->%list_elem_of_singleton. done.
Qed.

(** The end of a critical section: the process goes on with its CPU. *)
Lemma settled_world s st c st' s' :
  mid s st c → unlocked_world s st' (pt_promoteAtTime (k_ptable s)) c s' →
  procs_ok (as_ps st') (k_initproc s) → as_q st' LRunning = as_q st LRunning →
  settled s s' st'.
Proof.
  intros [Hk Hm Hn Hq] (w' & t' & m' & -> & Ht' & Hf' & Hs) Hok Hrun.
  destruct Hm as (Hc & _). pose proof Hf' as [Hc' _]. split_and!.
  - eapply (kinv_again _ s st c _ _ _ t' m' (k_nextpid s) w'); try done.
  - eapply quiet_intro; [|exact Hf'|simpl; lia].
    eapply quiet_others_step; [exact Hq|exact Hs|]. intros lk ->%list_elem_of_singleton. done.
  - done.
Qed.

Definition wait_post (s : kstate W) (st : astate) (c : cpu) (i : nat) (p : proc)
    (r : option Z) (s' : kstate W) : Prop :=
  match wait_find st i p with
  | WaitZombie j q =>
      r = Some (s32 (p_pid q)) ∧ p_state q = ZOMBIE ∧ settled s s' (abs_reap j st)
  | WaitNone => r = Some (-1) ∧ settled s s' st
  | WaitSleep => r = None ∧
      settled s s' (abs_sleep (k_ticks s) (c_intena c) (ChProc i) (Some "ptable") i p st)
  end.

Lemma wait_find_zombie st i p j q :
  wait_find st i p = WaitZombie j q → as_ps st !! j = Some q ∧ j ∈ as_q st LZombie ∧ p_parent q = Some i.
Proof.
  unfold wait_find. destruct (first_on _ _ _ [LZombie]) as [[k j']|] eqn:Hf; [|by case_decide].
  apply first_on_Some in Hf as (Hk & Hj & q' & Hq & Hc). rewrite Hq. intros [= -> ->].
  apply list_elem_of_singleton in Hk as ->. split_and!; [done|done|].
  by apply bool_decide_eq_true in Hc.
Qed.

Lemma wait_iter_keeps c i p st s :
  mid s st c → c_proc c = Some i → as_ps st !! i = Some p → p_state p = RUNNING →
  wp svc_panics wait_iter (wait_post s st c i p) s.
Proof.
  intros Hmid Hi Hp Hst. pose proof Hmid as [Hk Hm Hn Hq].
  eapply wp_mono; [by eapply wp_wait_iter; [apply Hk|exact Hm|..]|].
  intros r s' Hpost. unfold wait_post. destruct (wait_find st i p) as [j q| |] eqn:Hw.
  - destruct Hpost as (-> & Hz & Hu). split_and!; [done|done|].
    apply wait_find_zombie in Hw as (Hq' & _ & _).
    eapply settled_world; [exact Hmid|exact Hu|by eapply abs_reap_ok; [apply Hk|..]|].
    unfold abs_reap, put_first, take_off. simpl. by rewrite !fn_lookup_insert_ne by done.
  - destruct Hpost as [-> Hu]. split; [done|].
    eapply settled_world; [exact Hmid|exact Hu|apply Hk|done].
  - destruct Hpost as [-> Hl]. split; [done|]. destruct Hm as (Hc & _). split_and!.
    + eapply kinv_left; [done..|exact Hl|by eapply abs_sleep_ok; [apply Hk|..]|].
      unfold abs_sleep, put_last, take_off. simpl. rewrite fn_lookup_insert_ne by done.
      by rewrite fn_lookup_insert.
    + eapply quiet_left; [exact Hq|exact Hl|]. intros lk ->%list_elem_of_singleton. done.
    + by eapply left_cpu_console.
Qed.

Lemma wait_keeps c i p st s :
  kinv s st → quiet (k_mach s) → on_cpu s st c i p →
  wp svc_panics wait (wait_post s st (pushed c) i p) s.
Proof.
  intros Hk Hq [[Hc _] Hn Hi Hp Hst]. apply wp_bind. eapply wp_enter; [done..|].
  intros m' Hmid. eapply wp_mono; [by eapply wait_iter_keeps|]. done.
Qed.

(** ** exit *)
Lemma closed_ok p : proc_ok p → proc_ok (closed p).
Proof.
  intros [Hn Ht Ho Hc Hg Hr Hs]. unfold closed. rewrite close_all by done. by split.
Qed.

Lemma exit_running now i init parent st :
  as_q (abs_exit now i init parent st) LRunning = remove1 i (as_q st LRunning).
Proof.
  unfold abs_exit, abs_zombie, put_first, take_off. simpl. rewrite fn_lookup_insert_ne by done.
  by rewrite fn_lookup_insert, abs_pass_children_other, abs_wakeup1_other.
Qed.

Lemma exit_sched_keeps c i p st s :
  kinv s st → quiet (k_mach s) → on_cpu s st c i p → k_initproc s ≠ Some i → p_ofile p = replicate NOFILE None →
  wp svc_panics exit_sched (λ _ s', k_world s' = k_world s ∧
    settled s s' (abs_exit (k_ticks s) i (k_initproc s) (p_parent p) st)) s.
Proof.
  intros Hk Hq Hon Hinit Hcl. pose proof Hon as [[Hc Hf] Hn Hi Hp Hst].
  eapply wp_mono; [by eapply wp_exit_sched; [apply Hk|]|].
  intros [] s' Hl. split; [by destruct Hl as (t' & m' & c' & -> & _)|]. split_and!.
  - eapply kinv_left; [exact Hk|exact Hc|done|exact Hp|done|exact Hl| |apply exit_running].
    apply (abs_exit_ok _ _ (ki_ok _ _ Hk) _ _ p); [by eapply kinv_awf|done..].
  - eapply (quiet_left _ s); [exact (quiet_quiet_others _ Hq)|exact Hl|].
    intros lk ->%list_elem_of_singleton. done.
  - by apply left_cpu_console in Hl.
Qed.

(** A piece of code that changes the table and the rest of the kernel, but not
    the machine. *)
Lemma settled_table w' t' s s' st st' :
  s' = set_k_world w' (set_k_ptable t' s) → kinv s st → quiet (k_mach s) →
  rep st' (pt_promoteAtTime (k_ptable s)) t' → procs_ok (as_ps st') (k_initproc s) →
  as_q st' LRunning = as_q st LRunning → settled s s' st'.
Proof.
  intros -> [Hr Ho Hrun] Hq Ht Hok HR. split_and!; [|done|done]. split; [by eapply rep_pr|done|].
  simpl. by rewrite HR.
Qed.

Lemma exit_keeps c i p st s :
  kinv s st → quiet (k_mach s) → on_cpu s st c i p → k_initproc s ≠ Some i →
  wp svc_panics exit (λ _ s', closing p (k_world s) = Ok (tt, k_world s') ∧ settled s s'
    (abs_exit (k_ticks s) i (k_initproc s) (p_parent p)
       (mka (<[i := closed p]> (as_ps st)) (as_q st)))) s.
Proof.
  intros Hk Hq Hon Hinit. pose proof Hon as [[Hc Hf] Hn Hi Hp Hst].
  pose proof (po_each _ _ (ki_ok _ _ Hk) _ _ Hp) as Hpok.
  apply wp_bind. eapply wp_mono; [eapply wp_exit_files; [apply Hk|exact Hon|done|apply Hpok]|].
  intros [] s1 (w1 & t1 & -> & Hw1 & Ht1). set (st1 := mka _ _) in *.
  set (s1 := set_k_world w1 (set_k_ptable t1 s)).
  assert (settled s s1 st1) as (Hk1 & Hq1 & _).
  { eapply settled_table; [reflexivity|done|done|exact Ht1| |done].
    eapply procs_ok_update; [apply Hk|exact Hp|by apply closed_ok|done..]. }
  assert (as_ps st1 !! i = Some (closed p)) as Hp1.
  { apply list_lookup_insert_eq. by eapply lookup_lt_Some. }
  eapply wp_mono; [eapply (exit_sched_keeps c i (closed p) st1 s1); [exact Hk1|exact Hq1|by split|done|apply close_all, Hpok]|].
  intros [] s' (Hw & Hset). split; [by rewrite Hw|exact Hset].
Qed.

(** ** fork *)

(** Slots that no process uses may have changed. *)
Definition unborn_only (st st' : astate) : Prop :=
  (∀ k, as_q st' k = as_q st k) ∧
  ∀ j q, as_ps st !! j = Some q → p_state q ≠ UNUSED → as_ps st' !! j = Some q.

(** What fork asks of the rest of the kernel: a page for the stack, a copy of the
    memory, the files and the directory of [p] once more.  The stack and the page
    directory of the child, or [None] when memory is short. *)
Definition fork_world (p : proc) : M W (option (Z * Z)) :=
  let! k := svc_kalloc in
  match k with
  | None => ret None
  | Some ks =>
      let! d := svc_copyuvm (p_pgdir p) (p_sz p) in
      match d with
      | None => svc_kfree ks ;;; ret None
      | Some d => sharing p ;;; ret (Some (ks, d))
      end
  end.

Definition fork_child (s : kstate W) (i : nat) (p q : proc) (ks d : Z) (nm : list Z) : proc :=
  forked d i p nm (init_proc ks (k_ticks s) (set_p_kstack ks (embryo (k_nextpid s) q))).

(** With the slot [np] at the head of the free list: [o] is what the rest of the
    kernel gave. *)
Definition fork_outcome (s : kstate W) (st : astate) (i : nat) (p : proc) (np : nat) (q : proc)
    (o : option (Z * Z)) (r : Z) (s' : kstate W) : Prop :=
  k_nextpid s' = s32 (k_nextpid s + 1) ∧
  match o with
  | None => r = -1 ∧ ∃ st', settled s s' st' ∧ unborn_only st st'
  | Some (ks, d) => r = s32 (u32 (k_nextpid s)) ∧ d ≠ 0 ∧ ∃ nm,
      length nm = 16%nat ∧ terminated nm ∧ cstr nm = take 15 (cstr (p_name p)) ∧
      settled s s' (abs_ready np (fork_child s i p q ks d nm)
        (mka (as_ps st) (put_first np LEmbryo (take_off np LFree (as_q st)))))
  end.
Definition fork_post (s : kstate W) (st : astate) (i : nat) (p : proc) (r : Z) (s' : kstate W) : Prop :=
  match as_q st LFree with
  | [] => r = -1 ∧ settled s s' st ∧ k_world s' = k_world s ∧ k_nextpid s' = k_nextpid s
  | np :: _ => ∃ q o, as_ps st !! np = Some q ∧ p_state q = UNUSED ∧
      fork_world p (k_world s) = Ok (o, k_world s') ∧ fork_outcome s st i p np q o r s'
  end.

(** A slot taken and given back leaves the queues as they were. *)
Lemma give_back_q np l (q : alists) k :
  q LFree = np :: l → np ∉ q LEmbryo →
  put_first np LFree (take_off np LEmbryo (put_first np LEmbryo (take_off np LFree q))) k = q k.
Proof.
  intros Hq Hne. unfold put_first, take_off.
  destruct (decide (k = LFree)) as [->|Hk1].
  - rewrite fn_lookup_insert. rewrite !fn_lookup_insert_ne by done. by rewrite fn_lookup_insert, Hq, remove1_head.
  - rewrite (fn_lookup_insert_ne _ LFree) by congruence. destruct (decide (k = LEmbryo)) as [->|Hk2].
    + rewrite !fn_lookup_insert. rewrite remove1_head. by rewrite fn_lookup_insert_ne.
    + by rewrite !fn_lookup_insert_ne by congruence.
Qed.

Lemma forked_ok d i p nm q ks now n :
  proc_ok p → proc_ok q → p_state q = UNUSED → d ≠ 0 → length nm = 16%nat → terminated nm →
  proc_ok (set_p_state RUNNABLE (forked d i p nm (init_proc ks now (set_p_kstack ks (embryo n q))))).
Proof.
  intros Hp Hq Hst Hd Hnm Hnz.
  assert (p_ofile q = replicate NOFILE None) as Hof by (apply Hq; by rewrite Hst).
  unfold forked. change (p_ofile (set_p_frame _ _)) with (p_ofile q).
  rewrite Hof, dup_all by apply Hp. split; simpl; try done. apply Hp.
Qed.

(** The end of fork, on both branches. *)
Lemma unborn_give_back st i p p' :
  awf st → as_q st LFree = i :: tail (as_q st LFree) → as_ps st !! i = Some p → p_state p = UNUSED →
  unborn_only st (abs_give_back i p' (abs_embryo i p' st)).
Proof.
  intros Hw Hl Hp Hst. split.
  - intros k. eapply give_back_q; [exact Hl|]. rewrite (aw_mem _ Hw _ _ Hp). unfold list_of.
    by rewrite Hst.
  - intros j q Hq Hne. simpl. rewrite list_insert_insert_eq, list_lookup_insert_ne; [done|].
    intros ->. congruence.
Qed.

(** Where fork ends: memory, table, machine and nextpid have changed. *)
Lemma settled_end n' w' t' m' s s' st c c' st' :
  s' = set_k_nextpid n' (set_k_world w' (set_k_ptable t' (set_k_mach m' s))) → kinv s st → quiet (k_mach s) → m_cpus (k_mach s) !! m_gs (k_mach s) = Some c →
  rep st' (pt_promoteAtTime (k_ptable s)) t' → lock_free m' c' → c_ncli c' = 0 →
  c_proc c' = c_proc c → cpu_step ["ptable"] (k_mach s) m' →
  procs_ok (as_ps st') (k_initproc s) → as_q st' LRunning = as_q st LRunning →
  settled s s' st'.
Proof.
  intros -> Hk Hq Hc Ht Hf Hn Hcp Hs Hok Hrun. split_and!; [|simpl|done].
  - eapply kinv_again; [exact Hk|exact Hc|reflexivity|exact Ht|apply Hf|exact Hcp|exact Hs|done|done].
  - eapply quiet_intro; [|exact Hf|done].
    eapply quiet_others_step; [by apply quiet_quiet_others|exact Hs|].
    intros lk ->%list_elem_of_singleton. done.
Qed.

Lemma forked_procs_ok st init d i p nm np q ks now n :
  procs_ok (as_ps st) init → as_ps st !! i = Some p → p_state p = RUNNING →
  as_ps st !! np = Some q → p_state q = UNUSED → d ≠ 0 → length nm = 16%nat → terminated nm →
  procs_ok (<[np := set_p_state RUNNABLE (forked d i p nm (init_proc ks now
              (set_p_kstack ks (embryo n q))))]> (as_ps st)) init.
Proof.
  intros Hok Hp Hst Hq Hstq Hd Hnm Hnz. eapply procs_ok_insert; [done|exact Hq| | |].
  - apply forked_ok; [by eapply po_each|by eapply po_each|done..].
  - by rewrite Hstq.
  - intros _. exists i, p. split_and!; [done|done|]. by rewrite Hst.
Qed.
Lemma give_back_procs_ok st init np q q' :
  procs_ok (as_ps st) init → as_ps st !! np = Some q → p_state q = UNUSED →
  p_name q' = p_name q → p_ofile q' = p_ofile q →
  procs_ok (<[np := set_p_state UNUSED (set_p_kstack 0 q')]> (as_ps st)) init.
Proof.
  intros Hok Hq Hst Hn Ho. pose proof (po_each _ _ Hok _ _ Hq) as [Hn1 Hz1 Ho1 Hc1 _ _ _].
  eapply procs_ok_insert; [done|exact Hq| |by rewrite Hst|done].
  split; simpl; rewrite ?Hn, ?Ho; try done. intros _. apply Hc1. by rewrite Hst.
Qed.

Lemma fork_child_keeps c i p np l q ks st s s1 :
  kinv s st → quiet (k_mach s) → on_cpu s st c i p →
  as_q st LFree = np :: l → as_ps st !! np = Some q → p_state q = UNUSED →
  svc_kalloc (k_world s) = Ok (Some ks, k_world s1) →
  alloc_post s st (pt_promoteAtTime (k_ptable s)) c
    (abs_embryo np (init_proc ks (k_ticks s) (set_p_kstack ks (embryo (k_nextpid s) q))) st)
    (s32 (k_nextpid s + 1)) s1 →
  wp svc_panics (let! b := fork_copy np in if b then fork_publish np else ret (-1)) (fork_post s st i p) s1.
Proof.
  intros Hk Hq [[Hc Hf] Hn Hi Hp Hst] Hfree Hnp Hstq Hka (w1 & t1 & m1 & -> & Ht1 & Hf1 & Hs1).
  set (q1 := init_proc _ _ _) in *. assert (p_state q1 = EMBRYO) as Hq1 by done.
  pose proof Hf1 as [Hc1 _]. assert (i ≠ np) as Hne by congruence.
  assert (np < length (as_ps st))%nat as Hlt by (by eapply lookup_lt_Some).
  assert (foc None np q1 (as_ps st) (put_first np LEmbryo (take_off np LFree (as_q st)))
            (pt_promoteAtTime (k_ptable s)) t1) as Hfoc by (by split).
  unfold fork_post. rewrite Hfree. simpl in Hka. unfold fork_world.
  unfold fork_copy. apply wp_bind, wp_bind. eapply wp_deref_cur; [exact Hc1|exact Hi|].
  apply wp_bind. eapply wp_tget; [exact Ht1|simpl; rewrite list_lookup_insert_ne by done; exact Hp|].
  intros nx.
  apply wp_bind. eapply wp_svc_run; [apply copyuvm_law|]. cbn [k_world set_k_world set_k_nextpid p_pgdir p_sz set_p_next].
  intros [d|] w2 Hcopy Hd.
  - apply wp_bind. eapply wp_mono; [eapply wp_fork_fill; [exact Hfoc|..]|].
    { apply (po_each _ _ (ki_ok _ _ Hk) _ _ Hnp). }
    { apply (po_each _ _ (ki_ok _ _ Hk) _ _ Hp). }
    { apply (po_each _ _ (ki_ok _ _ Hk) _ _ Hp). }
    intros [] s2 (w3 & t3 & nm & -> & Hshare & Hnm & Hnz & Hcs & Hf3). apply wp_ret.
    eapply wp_mono; [eapply wp_fork_publish; [exact Hf3|exact (forked_state _ _ _ _ _)|exact Hf1|simpl; lia]|].
    intros r s3 (-> & t4 & m4 & -> & Ht4 & Hf4 & Hs4).
    exists q, (Some (ks, d)). split_and!; [exact Hnp|exact Hstq| |].
    { rewrite (bind_Ok _ _ _ _ _ Hka), (bind_Ok _ _ _ _ _ Hcopy). exact (bind_Ok _ _ _ _ _ Hshare). }
    split; [done|]. split_and!; [by rewrite forked_pid|by intros ->|]. exists nm.
    split_and!; [exact Hnm|exact Hnz|exact Hcs|].
    eapply (settled_end (s32 (k_nextpid s + 1)) w3 t4 m4);
      [reflexivity|exact Hk|exact Hq|exact Hc|exact Ht4|exact Hf4|simpl; lia|done| | |].
    + by etransitivity.
    + refine (forked_procs_ok st _ d i p nm np q ks _ _ (ki_ok _ _ Hk) Hp Hst Hnp Hstq _ Hnm Hnz).
      by intros ->.
    + unfold abs_ready, put_last, put_first, take_off. simpl. by rewrite !fn_lookup_insert_ne by done.
  - apply wp_bind. eapply wp_mono; [by eapply wp_fork_fail; [exact Hfoc|]|].
    intros [] s2 (w3 & t3 & -> & Hkf & Hf3). apply wp_ret, wp_ret.
    exists q, None. split_and!; [exact Hnp|exact Hstq| |].
    { rewrite (bind_Ok _ _ _ _ _ Hka), (bind_Ok _ _ _ _ _ Hcopy). exact (bind_Ok _ _ _ _ _ Hkf). }
    split; [done|]. split; [done|]. eexists (mka _ _). split.
    + eapply (settled_end (s32 (k_nextpid s + 1)) w3 t3 m1);
        [reflexivity|exact Hk|exact Hq|exact Hc|apply Hf3|exact Hf1|simpl; lia|done|done| |].
      * by eapply give_back_procs_ok; [apply Hk|..].
      * unfold put_first, take_off. simpl. by rewrite !fn_lookup_insert_ne by done.
    + split.
      * intros k. eapply give_back_q; [exact Hfree|].
        rewrite (aw_mem _ (kinv_awf _ _ Hk) _ _ Hnp). unfold list_of. by rewrite Hstq.
      * intros j q' Hq' Hne'. simpl. rewrite list_lookup_insert_ne; [done|congruence].
Qed.

Lemma kalloc_run w : wp svc_panics svc_kalloc (λ r w', svc_kalloc w = Ok (r, w')) w.
Proof. pose proof (kalloc_law w) as Hl. unfold wp in *. by destruct (svc_kalloc w) as [[r w']|e| |]. Qed.

Lemma fork_keeps c i p st s :
  kinv s st → quiet (k_mach s) → on_cpu s st c i p →
  wp svc_panics fork (fork_post s st i p) s.
Proof.
  intros Hk Hq Hon. pose proof Hon as [[Hc Hf] Hn Hi Hp Hst].
  apply wp_bind. eapply wp_mono; [eapply (wp_allocproc (λ r w', svc_kalloc (k_world s) = Ok (r, w')));
    [apply Hk|exact (conj Hc Hf)|lia|apply kalloc_run]|].
  intros r s1 Hpost. destruct (as_q st LFree) as [|np l] eqn:Hfree.
  - destruct Hpost as (-> & Hw & (w1 & t1 & m1 & -> & Ht1 & Hf1 & Hs1)). apply wp_ret.
    unfold fork_post. rewrite Hfree. split; [done|]. split; [|done]. eapply (settled_end _ w1 t1 m1);
      [reflexivity|exact Hk|exact Hq|exact Hc|exact Ht1|exact Hf1|simpl; lia|done|done|apply Hk|done].
  - destruct Hpost as (q & Hq1 & Hst1 & [(-> & Hka & Hpost)|(-> & ks & Hka & Hpost)]).
    + destruct Hpost as (w1 & t1 & m1 & -> & Ht1 & Hf1 & Hs1). apply wp_ret.
      unfold fork_post. rewrite Hfree. exists q, None. split_and!; [done|done|exact (bind_Ok _ _ _ _ _ Hka)|].
      split; [done|]. split; [done|]. eexists. split; [eapply (settled_end _ w1 t1 m1);
        [reflexivity|exact Hk|exact Hq|exact Hc|exact Ht1|exact Hf1|..]|].
      * simpl. lia.
      * done.
      * done.
      * simpl. rewrite list_insert_insert_eq. by eapply give_back_procs_ok; [apply Hk|..].
      * unfold abs_give_back, abs_embryo, put_first, take_off. simpl.
        by rewrite !fn_lookup_insert_ne by done.
      * eapply unborn_give_back; [by eapply kinv_awf|by rewrite Hfree|done|done].
    + by eapply fork_child_keeps.
Qed.

(** ** The pieces of fork and exit

    Between its critical sections a process is preempted and other CPUs go on:
    what each piece does on its own. *)

(** The entry of a slot on its way to be a child, before and after its stack. *)
Record unborn (q : proc) : Prop := mkunborn {
  ub_state : p_state q = EMBRYO;
  ub_closed : p_ofile q = replicate NOFILE None
}.
(** A child that only has to be published by its parent [i]. *)
Record complete (i : nat) (q : proc) : Prop := mkcomplete {
  cm_state : p_state q = EMBRYO;
  cm_parent : p_parent q = Some i;
  cm_pgdir : p_pgdir q ≠ 0;
  cm_saved : resumable (p_saved q) = true
}.

Lemma slot_keeps c i p st s :
  kinv s st → quiet (k_mach s) → on_cpu s st c i p →
  wp svc_panics allocproc_slot (λ r s', ∃ st', settled s s' st' ∧ gentle None None (as_ps st) (as_ps st') ∧
    ∀ np, r = Some np → ∃ q q', as_ps st !! np = Some q ∧ p_state q = UNUSED ∧
      as_ps st' !! np = Some q' ∧ unborn q') s.
Proof.
  intros Hk Hq [[Hc Hf] Hn Hi Hp Hst].
  eapply wp_mono; [eapply wp_allocproc_slot; [apply Hk|by split|lia]|].
  intros r s' (_ & -> & Hpost). destruct (as_q st LFree) as [|np l] eqn:Hfree; cbn [head].
  - destruct Hpost as (w1 & t1 & m1 & -> & Ht1 & Hf1 & Hs1). exists st. split_and!; [|apply gentle_refl|done].
    eapply (settled_end _ w1 t1 m1);
      [reflexivity|exact Hk|exact Hq|exact Hc|exact Ht1|exact Hf1|simpl; lia|done|done|apply Hk|done].
  - destruct Hpost as (q & Hnp & Hun & w1 & t1 & m1 & -> & Ht1 & Hf1 & Hs1).
    pose proof (po_each _ _ (ki_ok _ _ Hk) _ _ Hnp) as [Hn1 Hz1 Ho1 Hc1 _ _ _].
    exists (abs_embryo np (embryo (k_nextpid s) q) st). split_and!.
    + eapply (settled_end _ w1 t1 m1);
        [reflexivity|exact Hk|exact Hq|exact Hc|exact Ht1|exact Hf1|simpl; lia|done|done| |].
      * eapply procs_ok_insert; [apply Hk|exact Hnp|by split|by rewrite Hun|done].
      * unfold abs_embryo, put_first, take_off. simpl. by rewrite !fn_lookup_insert_ne by done.
    + apply (gentle_insert _ _ np q). intros _. split; [done|]. apply undisturbed_alive; by rewrite Hun.
    + intros np' [= <-]. exists q, (embryo (k_nextpid s) q). split_and!; [done|done| |].
      * apply list_lookup_insert_eq. by eapply lookup_lt_Some.
      * split; [done|]. apply Hc1. by rewrite Hun.
Qed.

(** An EMBRYO goes back to the free list. *)
Lemma embryo_back_ok st init np q q' :
  procs_ok (as_ps st) init → as_ps st !! np = Some q → unborn q →
  p_name q' = p_name q → p_ofile q' = p_ofile q →
  procs_ok (<[np := set_p_state UNUSED (set_p_kstack 0 q')]> (as_ps st)) init.
Proof.
  intros Hok Hq [Hst Hcl] Hn Ho. pose proof (po_each _ _ Hok _ _ Hq) as [Hn1 Hz1 Ho1 _ _ _ _].
  eapply procs_ok_insert; [done|exact Hq| |by rewrite Hst|done].
  split; simpl; rewrite ?Hn, ?Ho; done.
Qed.
Lemma slot_foc s st np q : kinv s st → as_ps st !! np = Some q →
  foc None np q (as_ps st) (as_q st) (pt_promoteAtTime (k_ptable s)) (k_ptable s).
Proof. intros Hk Hq. by apply foc_intro; [apply Hk|]. Qed.

Lemma stack_keeps np q st s :
  kinv s st → quiet (k_mach s) → as_ps st !! np = Some q → unborn q →
  wp svc_panics (allocproc_stack np) (λ r s', ∃ st', settled s s' st' ∧ gentle None (Some np) (as_ps st) (as_ps st') ∧
    ∀ np', r = Some np' → np' = np ∧ ∃ q', as_ps st' !! np = Some q' ∧ unborn q' ∧ resumable (p_saved q') = true) s.
Proof.
  intros Hk Hq Hnp Hu. pose proof Hu as [Hst Hcl].
  pose proof (po_each _ _ (ki_ok _ _ Hk) _ _ Hnp) as [Hn1 Hz1 Ho1 _ _ _ _].
  eapply wp_mono; [eapply (wp_allocproc_stack (λ _ _, True)); [by apply slot_foc|done|]|].
  { eapply wp_mono; [apply kalloc_law|done]. }
  intros r s' (t' & w' & -> & [(-> & _ & Hf)|(-> & ks & _ & Hf)]).
  - exists (mka (<[np := set_p_state UNUSED (set_p_kstack 0 q)]> (as_ps st))
      (put_first np LFree (take_off np LEmbryo (as_q st)))). split_and!; [|by apply (gentle_insert _ _ np q)|done].
    eapply settled_table; [reflexivity|done|done|apply Hf|by eapply embryo_back_ok; [apply Hk|..]|].
    unfold put_first, take_off. simpl. by rewrite !fn_lookup_insert_ne by done.
  - exists (mka (<[np := init_proc ks (k_ticks s) (set_p_kstack ks q)]> (as_ps st)) (as_q st)).
    split_and!; [|by apply (gentle_insert _ _ np q)|].
    + eapply settled_table; [reflexivity|done|done|apply Hf| |done].
      eapply procs_ok_insert; [apply Hk|exact Hnp| |by rewrite Hst|]; [split; simpl; rewrite ?Hst; done|].
      simpl. by rewrite Hst.
    + intros np' [= <-]. split; [done|]. eexists. split; [apply list_lookup_insert_eq; by eapply lookup_lt_Some|].
      split; [by split|done].
Qed.

Lemma copy_keeps c i p np q st s :
  kinv s st → quiet (k_mach s) → on_cpu s st c i p → as_ps st !! np = Some q → unborn q →
  resumable (p_saved q) = true →
  wp svc_panics (fork_copy np) (λ r s', ∃ st', settled s s' st' ∧ gentle None (Some np) (as_ps st) (as_ps st') ∧
    (r = true → ∃ q', as_ps st' !! np = Some q' ∧ complete i q')) s.
Proof.
  intros Hk Hq [[Hc Hf] Hn Hi Hp Hst] Hnp Hu Hsv. pose proof Hu as [Hstq Hcl].
  pose proof (po_each _ _ (ki_ok _ _ Hk) _ _ Hnp) as Hqok.
  pose proof (po_each _ _ (ki_ok _ _ Hk) _ _ Hp) as Hpok.
  unfold fork_copy. apply wp_bind. eapply wp_deref_cur; [exact Hc|exact Hi|].
  apply wp_bind. eapply wp_tget; [apply Hk|exact Hp|]. intros nx.
  apply wp_bind. eapply wp_svc_law; [apply copyuvm_law|]. intros [d|] w2 Hd.
  - apply wp_bind. eapply wp_mono.
    { eapply wp_fork_fill; [exact (slot_foc _ _ _ _ Hk Hnp)|apply Hqok|apply Hpok|apply Hpok]. }
    intros [] s2 (w3 & t3 & nm & -> & _ & Hnm & Hnz & _ & Hf3). apply wp_ret.
    exists (mka (<[np := forked d i (set_p_next nx p) nm q]> (as_ps st)) (as_q st)).
    split_and!; [|by apply (gentle_insert _ _ np q)|].
    + eapply (settled_table w3 t3); [by destruct s|done|done|apply Hf3| |done].
      eapply procs_ok_insert; [apply Hk|exact Hnp| |by rewrite Hstq|by rewrite forked_state, Hstq].
      unfold forked. change (p_ofile (set_p_frame _ _)) with (p_ofile q). rewrite Hcl, dup_all by apply Hpok.
      split; simpl; rewrite ?Hstq; try done. apply Hpok.
    + intros _. eexists. split; [apply list_lookup_insert_eq; by eapply lookup_lt_Some|].
      split; [by rewrite forked_state|done|change (d ≠ 0); by intros ->|done].
  - apply wp_bind. eapply wp_mono; [by eapply wp_fork_fail; [exact (slot_foc _ _ _ _ Hk Hnp)|]|].
    intros [] s2 (w3 & t3 & -> & _ & Hf3). apply wp_ret.
    exists (mka (<[np := set_p_state UNUSED (set_p_kstack 0 (set_p_pgdir 0 q))]> (as_ps st))
      (put_first np LFree (take_off np LEmbryo (as_q st)))). split_and!; [|by apply (gentle_insert _ _ np q)|done].
    eapply (settled_table w3 t3); [by destruct s|done|done|apply Hf3|by eapply embryo_back_ok; [apply Hk|..]|].
    unfold put_first, take_off. simpl. by rewrite !fn_lookup_insert_ne by done.
Qed.

Lemma publish_keeps c i p np q st s :
  kinv s st → quiet (k_mach s) → on_cpu s st c i p → as_ps st !! np = Some q → complete i q →
  wp svc_panics (fork_publish np) (λ _ s', ∃ st', settled s s' st' ∧ gentle None (Some np) (as_ps st) (as_ps st')) s.
Proof.
  intros Hk Hq [[Hc Hf] Hn Hi Hp Hst] Hnp [Hs Hpar Hpg Hsv].
  pose proof (po_each _ _ (ki_ok _ _ Hk) _ _ Hnp) as [Hn1 Hz1 Ho1 _ _ _ _].
  eapply wp_mono; [eapply wp_fork_publish; [exact (slot_foc _ _ _ _ Hk Hnp)|done|by split|lia]|].
  intros r s' (_ & t' & m' & -> & Ht' & Hf' & Hs').
  exists (abs_ready np q (mka (as_ps st) (as_q st))). split; [|by apply (gentle_insert _ _ np q)].
  eapply (settled_end (k_nextpid s) (k_world s) t' m'); [by destruct s|exact Hk|exact Hq|exact Hc|exact Ht'|exact Hf'|..].
  - simpl. lia.
  - done.
  - done.
  - eapply procs_ok_insert; [apply Hk|exact Hnp|by split|by rewrite Hs|]. intros _. exists i, p. simpl.
    by rewrite Hst.
  - unfold abs_ready, put_last, take_off. simpl. by rewrite !fn_lookup_insert_ne by done.
Qed.

(** The process [i] changes its own entry. *)
Lemma own_keeps w' t' i p p' s s' st :
  s' = set_k_world w' (set_k_ptable t' s) → kinv s st → quiet (k_mach s) → as_ps st !! i = Some p → proc_ok p' →
  p_state p' = p_state p → p_parent p' = p_parent p →
  foc None i p' (as_ps st) (as_q st) (pt_promoteAtTime (k_ptable s)) t' →
  settled s s' (mka (<[i := p']> (as_ps st)) (as_q st)).
Proof.
  intros -> Hk Hq Hp Hok Hst Hpar Hf. eapply settled_table; [reflexivity|done|done|apply Hf| |done].
  eapply procs_ok_update; [apply Hk|exact Hp|done|by rewrite Hst|by rewrite Hst|done].
Qed.
Lemma close_keeps fd c i p st s :
  kinv s st → quiet (k_mach s) → on_cpu s st c i p →
  wp svc_panics (exit_ofile fd) (λ _ s', ∃ st', settled s s' st' ∧ gentle None (Some i) (as_ps st) (as_ps st') ∧
    ∃ p', as_ps st' !! i = Some p' ∧ p_state p' = RUNNING ∧ p_ofile p' = close_ofile [fd] (p_ofile p)) s.
Proof.
  intros Hk Hq [[Hc Hf] Hn Hi Hp Hst]. pose proof (po_each _ _ (ki_ok _ _ Hk) _ _ Hp) as [Hn1 Hz1 Ho1 Hc1 Hg1 Hr1 Hs1].
  eapply wp_mono; [by eapply wp_exit_ofile; [exact (slot_foc _ _ _ _ Hk Hp)|..]|].
  intros [] s' (w' & t' & -> & _ & Hf').
  exists (mka (<[i := set_p_ofile (close_ofile [fd] (p_ofile p)) p]> (as_ps st)) (as_q st)). split_and!.
  - eapply (own_keeps w' t' i p); [reflexivity|done..| |done|done|exact Hf'].
    split; simpl; try done; [|by rewrite Hst]. rewrite <- Ho1. unfold close_ofile.
    destruct (p_ofile p !! fd) as [[f|]|]; [by rewrite length_insert|done..].
  - by apply (gentle_insert _ _ i p).
  - eexists. split; [apply list_lookup_insert_eq; by eapply lookup_lt_Some|]. by rewrite <- Hst.
Qed.
Lemma cwd_keeps c i p st s :
  kinv s st → quiet (k_mach s) → on_cpu s st c i p →
  wp svc_panics exit_cwd (λ _ s', ∃ st', settled s s' st' ∧ gentle None (Some i) (as_ps st) (as_ps st') ∧
    ∃ p', as_ps st' !! i = Some p' ∧ p_state p' = RUNNING ∧ p_ofile p' = p_ofile p) s.
Proof.
  intros Hk Hq [[Hc Hf] Hn Hi Hp Hst]. pose proof (po_each _ _ (ki_ok _ _ Hk) _ _ Hp) as [Hn1 Hz1 Ho1 Hc1 Hg1 Hr1 Hs1].
  eapply wp_mono; [by eapply wp_exit_cwd; [exact (slot_foc _ _ _ _ Hk Hp)|..]|].
  intros [] s' (w' & t' & -> & _ & Hf').
  exists (mka (<[i := set_p_cwd None p]> (as_ps st)) (as_q st)). split_and!.
  - by eapply (own_keeps w' t' i p); [reflexivity|done..|split|done|done|exact Hf'].
  - by apply (gentle_insert _ _ i p).
  - eexists. split; [apply list_lookup_insert_eq; by eapply lookup_lt_Some|]. by rewrite <- Hst.
Qed.

(** growproc: the size of the process, and a turn through switchuvm. *)
Lemma wp_switchuvm_free c i p ps a pr Q s :
  lock_free (k_mach s) c → c_ncli c = 0 → c_proc c = Some i → foc None i p ps a pr (k_ptable s) → p_pgdir p ≠ 0 →
  Q tt (set_k_mach (set_cpu (popped (pushed c)) (k_mach s)) s) → wp svc_panics (switchuvm i) Q s.
Proof.
  intros [Hc Hl] Hn Hi Hf Hpg HQ. unfold switchuvm.
  apply wp_bind, wp_mch. eapply wp_Ok; [by apply pushcli_eq|].
  pose proof (lookup_set_cpu (k_mach s) c (pushed c) Hc) as Hc1.
  apply wp_bind. eapply wp_deref_cur; [exact Hc1|exact Hi|].
  fstep Hf. fstep Hf. simpl. rewrite decide_False by done.
  apply wp_mch. eapply wp_Ok; [by eapply popcli_eq; [exact Hc1|done|simpl; lia]|]. simpl.
  by rewrite set_cpu_set_cpu.
Qed.
Lemma grow_keeps n c i p st s :
  kinv s st → quiet (k_mach s) → on_cpu s st c i p →
  wp svc_panics (growproc n) (λ _ s', ∃ st', settled s s' st' ∧ gentle None None (as_ps st) (as_ps st')) s.
Proof.
  intros Hk Hq [Hlf Hn Hi Hp Hst]. pose proof Hlf as [Hc Hl].
  pose proof (po_each _ _ (ki_ok _ _ Hk) _ _ Hp) as [Hn1 Hz1 Ho1 Hc1 Hg1 Hr1 Hs1].
  unfold growproc. apply wp_bind. eapply wp_deref_cur; [exact Hc|exact Hi|].
  apply wp_bind. eapply wp_tget; [apply Hk|exact Hp|]. intros nx. simpl p_sz. simpl p_pgdir. apply wp_bind.
  pose (rest := λ r : option Z, match r with None => ret (-1)
    | Some sz' => pt (upd_proc i (set_p_sz sz')) ;;; switchuvm i ;;; ret 0 end : M (kstate W) Z).
  assert (∀ r w, wp svc_panics (rest r) (λ _ s', ∃ st', settled s s' st' ∧ gentle None None (as_ps st) (as_ps st'))
    (set_k_world w s)) as Hrest.
  { intros [sz'|] w; unfold rest.
    - pose proof (slot_foc _ _ _ _ Hk Hp) as Hf. fstep Hf. apply wp_bind.
      eapply wp_switchuvm_free; [exact Hlf|done|exact Hi|exact Hf|by apply Hg1; rewrite Hst|]. apply wp_ret.
      exists (mka (<[i := set_p_sz sz' p]> (as_ps st)) (as_q st)). split.
      + eapply (settled_end (k_nextpid s) w _ (set_cpu (popped (pushed c)) (k_mach s)));
          [by destruct s|exact Hk|exact Hq|exact Hc|apply Hf|split; [exact (lookup_set_cpu _ _ _ Hc)|exact Hl]|
           simpl; lia|done|apply cpu_step_set| |done].
        eapply procs_ok_update; [apply Hk|exact Hp|by split|done..].
      + apply (gentle_insert _ _ i p). intros _. split; [done|]. apply undisturbed_alive; simpl; by rewrite Hst.
    - apply wp_ret. exists st. split; [|apply gentle_refl].
      eapply (settled_table w (k_ptable s)); [by destruct s|done|done|apply Hk|apply Hk|done]. }
  case_decide; [|case_decide].
  - apply wp_bind. eapply wp_svc_law; [apply allocuvm_law|]. intros sz' w _. apply wp_ret, Hrest.
  - apply wp_bind. eapply wp_svc_law; [apply deallocuvm_law|]. intros sz' w _. apply wp_ret, Hrest.
  - apply wp_ret. specialize (Hrest (Some (p_sz p)) (k_world s)). by destruct s.
Qed.

(** ** scheduler *)
Lemma abs_pick_Some now qs st j st2 :
  awf st → abs_pick now qs st = (Some j, st2) →
  as_q st2 LRunning = as_q st LRunning ++ [j] ∧
  ∃ p, as_ps st !! j = Some p ∧ p_state p = RUNNABLE ∧
       as_ps st2 !! j = Some (set_p_cpu_ticks_in now (set_p_state RUNNING p)).
Proof.
  intros Hw. induction qs as [|q qs IH]; cbn [abs_pick]; [done|].
  destruct (as_q st (LReady q)) as [|i l] eqn:Ha; [done|]. intros [= <- <-]. simpl.
  destruct (awf_in_state st i (LReady q) Hw) as (p & Hp & Hst); [rewrite Ha; set_solver|].
  split.
  - unfold put_last. rewrite fn_lookup_insert. by rewrite fn_lookup_insert_ne.
  - exists p. split_and!; [done|done|]. by rewrite list_lookup_alter_eq, Hp.
Qed.

(** The state after [acquire] of one lock on a quiet machine. *)
Definition holds_one (m : machine) : Prop :=
  ∃ l m0 c0, l ≠ "ptable" ∧ quiet m0 ∧ m_cpus m0 !! m_gs m0 = Some c0 ∧ acquire l m0 = Ok (tt, m).
Definition returned (s s' : kstate W) (st' : astate) : Prop :=
  kinv s' st' ∧ (quiet (k_mach s') ∨ holds_one (k_mach s')) ∧ silent s s'.

Lemma mid_release s st c Q :
  mid s st c →
  (∀ m', lock_free m' (popped c) → settled s (set_k_mach m' s) st → Q tt (set_k_mach m' s)) →
  wp svc_panics (mch (release "ptable")) Q s.
Proof.
  intros Hmid HQ. pose proof Hmid as [Hk Hm Hn Hq]. eapply wp_release_pt; [exact Hm|].
  intros m' Hf Hs. apply HQ; [done|]. eapply settled_world; [exact Hmid| |apply Hk|done].
  exists (k_world s), (k_ptable s), m'. split_and!; [by destruct s|apply Hk|done|done].
Qed.

Lemma mid_intena en s st c Q :
  mid s st c → (∀ m', mid (set_k_mach m' s) st (set_c_intena en c) → Q tt (set_k_mach m' s)) →
  wp svc_panics (mch (upd_cpu (set_c_intena en))) Q s.
Proof.
  intros [Hk Hm Hn Hq] HQ. pose proof Hm as (Hc & _). apply wp_mch. eapply wp_Ok.
  { unfold upd_cpu, bind, mycpu. by rewrite Hc. }
  apply HQ. pose proof (lookup_set_cpu _ _ (set_c_intena en c) Hc) as Hc'.
  split; [|by eapply lock_mine_set|done|].
  - destruct Hk as [Hr Ho Hrun]. split; [done|done|]. simpl.
    by rewrite (running_same [] _ _ _ _ Hc Hc' (cpu_step_set _ _ _)).
  - eapply quiet_others_step; [exact Hq|apply (cpu_step_set [])|set_solver].
Qed.

Lemma mid_upd_chan s st c i p Q :
  mid s st c → as_ps st !! i = Some p → p_state p = RUNNING →
  (∀ t', mid (set_k_ptable t' s) (mka (<[i := set_p_chan ChNull p]> (as_ps st)) (as_q st)) c →
     Q tt (set_k_ptable t' s)) →
  wp svc_panics (pt (upd_proc i (set_p_chan ChNull))) Q s.
Proof.
  intros [Hk Hm Hn Hq] Hp Hst HQ. pose proof (foc_intro _ _ _ _ _ _ _ (ki_rep _ _ Hk) Hp) as Hf.
  fstep Hf. apply HQ. split; [|done..]. destruct Hk as [Hr Ho Hrun].
  split; [exact (rep_pr (mka _ _) _ _ (foc_tbl _ _ _ _ _ _ _ Hf))| |done].
  eapply procs_ok_update; [done|exact Hp| |done..].
  by destruct (po_each _ _ Ho _ _ Hp).
Qed.

Lemma settled_returned s s' st' : settled s s' st' → returned s s' st'.
Proof. intros (? & ? & ?). split_and!; auto. Qed.

Lemma wait_post_settled s st c i p r s' :
  as_ps st !! i = Some p → p_state p = RUNNING → wait_post s st c i p r s' →
  ∃ st', settled s s' st' ∧ gentle None None (as_ps st) (as_ps st').
Proof.
  intros Hp Hst. unfold wait_post. destruct (wait_find st i p) as [j q| |] eqn:Hf.
  - apply wait_find_zombie in Hf as (Hj & _ & _). intros (_ & Hz & Hs). eauto using gentle_reap.
  - intros (_ & Hs). eauto using gentle_refl.
  - intros (_ & Hs). eauto using gentle_sleep.
Qed.

Lemma sleep_return_keeps i p lk st c s :
  mid s st c → c_proc c = Some i → as_ps st !! i = Some p → p_state p = RUNNING →
  wp svc_panics (sleep_return i lk) (λ _ s', ∃ st', returned s s' st' ∧ gentle None None (as_ps st) (as_ps st')) s.
Proof.
  intros Hmid Hi Hp Hst. unfold sleep_return. apply wp_bind.
  eapply mid_upd_chan; [exact Hmid|exact Hp|exact Hst|]. intros t1 Hmid1.
  assert (gentle None None (as_ps st) (<[i := set_p_chan ChNull p]> (as_ps st))) as Hg.
  { apply (gentle_insert _ _ i p). intros _. split; [done|]. apply undisturbed_alive; simpl; by rewrite Hst. }
  case_decide as Hl.
  - apply wp_bind. eapply wp_mono.
    + eapply (wait_iter_keeps c i (set_p_chan ChNull p)); [exact Hmid1|done| |done].
      apply list_lookup_insert_eq. by eapply lookup_lt_Some.
    + intros r s' Hpost. apply wp_skip. eapply wait_post_settled in Hpost as (st' & Hset & Hg'); [| |done].
      * exists st'. split; [by apply settled_returned|]. by eapply gentle_trans.
      * apply list_lookup_insert_eq. by eapply lookup_lt_Some.
  - apply wp_bind. eapply mid_release; [exact Hmid1|]. intros m2 Hfree Hset.
    pose proof Hset as ([Hr Ho Hrun] & Hq2 & Hcon). destruct Hfree as [Hc2 _].
    destruct lk as [l|]; [|apply wp_skip; eexists; split; [by apply settled_returned|exact Hg]].
    apply wp_mch. eapply wp_Ok; [by apply acquire_eq; [exact Hc2|apply Hq2]|].
    set (m3 := set_lock l _ _). exists (mka (<[i := set_p_chan ChNull p]> (as_ps st)) (as_q st)). split; [|exact Hg]. split_and!.
    + split; [exact Hr|exact Ho|]. simpl.
      rewrite (running_same [l] m2 m3 _ (pushed (popped c)) Hc2); [exact Hrun| | |done].
      * exact (lookup_set_cpu m2 _ (pushed (popped c)) Hc2).
      * split_and!; [done|by eexists|]. intros lk Hlk. unfold m3.
        by rewrite get_lock_set_lock_ne by set_solver.
    + right. exists l, m2, (popped c). split_and!; [congruence|done|done|].
      by rewrite (acquire_eq l (popped c)) by (done || apply Hq2).
    + done.
Qed.

Lemma resume_keeps i p st c s :
  mid s st c → c_proc c = Some i → as_ps st !! i = Some p → p_state p = RUNNING →
  resumable (p_saved p) = true →
  wp svc_panics (resume i) (λ _ s', ∃ st', returned s s' st' ∧ gentle None None (as_ps st) (as_ps st')) s.
Proof.
  intros Hmid Hi Hp Hst Hsv. unfold resume. apply wp_bind.
  eapply wp_tget; [apply Hmid|exact Hp|]. intros n. simpl p_saved.
  destruct (p_saved p) as [| |en|en lk|]; try done.
  - unfold forkret. apply wp_bind. eapply mid_release; [exact Hmid|]. intros m' _ Hset.
    apply wp_bind, wp_gets. destruct (k_first _).
    + apply wp_bind, wp_modS. eapply wp_svc_law; [apply fsinit_law|]. intros _ w' _.
      exists st. split; [|apply gentle_refl]. apply settled_returned. destruct Hset as ([? ? ?] & ? & ?). by split_and!.
    + apply wp_skip. exists st. split; [by apply settled_returned|apply gentle_refl].
  - apply wp_bind. eapply mid_intena; [exact Hmid|]. intros m1 Hmid1.
    eapply mid_release; [exact Hmid1|]. intros m' _ Hset. exists st.
    split; [by apply settled_returned|apply gentle_refl].
  - apply wp_bind. eapply mid_intena; [exact Hmid|]. intros m1 Hmid1.
    eapply wp_mono; [by eapply sleep_return_keeps|]. intros [] s' [st' Hret]. by exists st'.
Qed.

Lemma wp_sti s st c Q :
  kinv s st → quiet (k_mach s) → m_cpus (k_mach s) !! m_gs (k_mach s) = Some c →
  (∀ m', settled s (set_k_mach m' s) st → m_cpus m' !! m_gs m' = Some (set_c_IF true c) →
     Q tt (set_k_mach m' s)) →
  wp svc_panics (mch sti) Q s.
Proof.
  intros Hk Hq Hc HQ. apply wp_mch. eapply wp_Ok.
  { unfold sti, upd_cpu, bind, mycpu. by rewrite Hc. }
  pose proof (lookup_set_cpu _ _ (set_c_IF true c) Hc) as Hc'.
  apply HQ; [|exact Hc']. split_and!; [| |done].
  - destruct Hk as [Hr Ho Hrun]. split; [done|done|]. simpl.
    by rewrite (running_same [] _ _ _ _ Hc Hc' (cpu_step_set _ _ _)).
  - eapply (quiet_intro _ (set_c_IF true c)).
    + eapply quiet_others_step; [by apply quiet_quiet_others|apply (cpu_step_set [])|set_solver].
    + split; [exact Hc'|apply Hq].
    + exact (proj2 Hq _ _ Hc).
Qed.

(** The table that [scheduler] chooses from. *)
Definition due (s : kstate W) (st : astate) : astate :=
  if decide (pt_promoteAtTime (k_ptable s) = k_ticks s) then abs_promoteAll st else st.

Lemma promote_running st : awf st → as_q (abs_promoteAll st) LRunning = as_q st LRunning.
Proof. intros Hw. by rewrite abs_promoteAll_q. Qed.

Lemma gentle_due s st : awf st → gentle None None (as_ps st) (as_ps (due s st)).
Proof. intros Hw. unfold due. case_decide; [by apply gentle_promote|apply gentle_refl]. Qed.

Lemma due_keeps s st c Q :
  mid s st c → (∀ t', mid (set_k_ptable t' s) (due s st) c → Q tt (set_k_ptable t' s)) →
  wp svc_panics promote_if_due Q s.
Proof.
  intros [Hk Hm Hn Hq] HQ. pose proof (kinv_awf _ _ Hk) as Hw. unfold due in HQ.
  eapply wp_promote_if_due; [apply Hk|..]; intros Hd.
  - intros t' Ht'. apply HQ. rewrite decide_True by done. split; [|done..].
    destruct Hk as [Hr Ho Hrun]. split; [exact (rep_pr _ _ _ Ht')| |].
    + by apply abs_promoteAll_ok.
    + by rewrite promote_running.
  - rewrite decide_False in HQ by done. rewrite <- (set_k_ptable_id s). apply HQ.
    by rewrite set_k_ptable_id.
Qed.

Lemma scheduler_keeps s st c :
  kinv s st → quiet (k_mach s) → m_cpus (k_mach s) !! m_gs (k_mach s) = Some c →
  c_proc c = None →
  wp svc_panics scheduler (λ r s', r = (abs_pick (k_ticks s) [0; 1; 2] (due s st)).1 ∧
    ∃ st', returned s s' st' ∧ gentle None None (as_ps st) (as_ps st') ∧
      match r with None => quiet (k_mach s') ∧ st' = due s st | Some _ => True end) s.
Proof.
  intros Hk Hq Hc Hidle. unfold scheduler. apply wp_bind. eapply wp_sti; [exact Hk|done|exact Hc|].
  intros m1 (Hk1 & Hq1 & _) Hc1.
  apply wp_bind. eapply wp_enter; [exact Hk1|exact Hq1|exact Hc1|]. intros m2 Hmid2.
  apply wp_bind. eapply due_keeps; [exact Hmid2|]. intros t3 Hmid3.
  change (due _ st) with (due s st) in *. set (s3 := set_k_ptable t3 _) in *.
  pose proof Hmid3 as [Hk3 Hm3 Hn3 Hq3]. pose proof (kinv_awf _ _ Hk3) as Hw3.
  pose proof (gentle_due s st (kinv_awf _ _ Hk)) as Hg3.
  apply wp_bind. eapply wp_mono.
  { eapply (wp_pick _ [0; 1; 2]); [apply Hk3|exact Hm3| |].
    - unfold MAX. intros q Hqq. repeat (apply elem_of_cons in Hqq as [->|Hqq]; [lia|]).
      by apply elem_of_nil in Hqq.
    - intros i p Hp Hst. apply (ok_pgdir _ (po_each _ _ (ki_ok _ _ Hk3) _ _ Hp)). by rewrite Hst. }
  intros r s4 [-> Hpost]. change (k_ticks s3) with (k_ticks s) in *.
  destruct (abs_pick (k_ticks s) [0; 1; 2] (due s st)) as [[j|] st4] eqn:Hpick; cbn [fst snd] in Hpost |- *.
  - destruct Hpost as (t4 & m4 & -> & Ht4 & Hm4 & Hs4).
    destruct (abs_pick_Some _ _ _ _ _ Hw3 Hpick) as (Hrun4 & p & Hp & Hst & Hp4).
    assert (mid (set_k_ptable t4 (set_k_mach m4 s3)) st4 (set_c_proc (Some j)
              (pushed (set_c_IF true c)))) as Hmid4.
    { split; [split|done|done|].
      - exact (rep_pr _ _ _ Ht4).
      - pose proof (abs_pick_ok _ _ (ki_ok _ _ Hk3) (k_ticks s) [0; 1; 2] Hw3) as Hok.
        by rewrite Hpick in Hok.
      - simpl. rewrite (running_start [] (k_mach s3) m4 _ _ (proj1 Hm3) (proj1 Hm4) Hs4 j Hidle eq_refl).
        rewrite Hrun4, (ki_run _ _ Hk3). by rewrite Permutation_app_comm.
      - eapply quiet_others_step; [exact Hq3|exact Hs4|set_solver]. }
    apply wp_bind. eapply wp_mono; [eapply resume_keeps; [exact Hmid4|done|exact Hp4|done|]|].
    { simpl. apply (ok_runnable _ (po_each _ _ (ki_ok _ _ Hk3) _ _ Hp)), Hst. }
    intros [] s5 (st5 & Hret & Hg5). apply wp_ret. split; [done|]. exists st5. split_and!; [done| |done].
    eapply gentle_trans; [exact Hg3|]. eapply gentle_trans; [|exact Hg5].
    pose proof (gentle_pick (due s st) (k_ticks s) [0; 1; 2] Hw3) as Hg4. by rewrite Hpick in Hg4.
  - subst s4. apply wp_bind. eapply mid_release; [exact Hmid3|]. intros m5 [Hc5 _] (Hk5 & Hq5 & Hcon5).
    apply wp_bind. eapply wp_sti; [exact Hk5|exact Hq5|exact Hc5|].
    intros m6 (Hk6 & Hq6 & Hcon6) _. apply wp_ret. split; [done|]. exists (due s st).
    split; [|done]. split_and!; [done|by left|done].
Qed.
End ops_services.
