(* ===== verification/ProcBoot.v ===== *)
(** * Booting: userinit makes the first process

    From the zeroed table of a fresh kernel, [userinit] threads every slot on
    the free list, takes one and leaves it RUNNABLE at the top priority: the
    invariant holds and the only process is initcode. *)

From S2P Require Import Prelude Spinlock CString ProcData ProcList Proc ProcWp ProcSpec ProcRefine ProcInv ProcOps.
Local Open Scope Z_scope.

(** ** The free list that userinit builds *)
Definition threaded : list proc :=
  imap (λ i p, set_p_next (if decide (S i = NPROC) then None else Some (S i)) p)
       (replicate NPROC zero_proc).
Definition booted_table (pr : Z) : ptable :=
  mkptable threaded (mklists (replicate 3 None) (Some O) None None None None) pr.

Definition build_free : M ptable unit :=
  mfor (seq 0 NPROC) (λ i,
    assertState (Some i) UNUSED ;;;
    let! r := addToStateListEnd LFree (Some i) in
    if decide (r = -1) then panic "Failed to add proc to UNUSED list." else skip).

Lemma build_free_boot : build_free (set_pt_promoteAtTime TIME_TO_PROMOTE zero_ptable) =
  Ok (tt, booted_table TIME_TO_PROMOTE).
Proof. vm_compute. reflexivity. Qed.

Definition booted : astate :=
  mka (replicate NPROC zero_proc) (<[LFree := seq 0 NPROC]> (λ _, [])).

Lemma threaded_chain : chain threaded (Some O) (seq 0 NPROC).
Proof.
  vm_compute. repeat (split; [reflexivity|]; eexists; split; [reflexivity|]). reflexivity.
Qed.

Lemma threaded_lookup i p :
  threaded !! i = Some p → (i < NPROC)%nat ∧ list_of p = LFree ∧ p_priority p = 0.
Proof.
  unfold threaded. rewrite list_lookup_imap. intros Hp.
  destruct (replicate NPROC zero_proc !! i) as [z|] eqn:Hz; [|done].
  apply lookup_replicate in Hz as [-> Hlt]. simpl in Hp. by simplify_eq.
Qed.

Lemma booted_wf pr : wfx None (booted_table pr) (as_q booted).
Proof.
  split.
  - done.
  - done.
  - intros k h. destruct k as [q| | | | |]; simpl.
    + case_decide; [|done]. destruct (Z.to_nat q) as [|[|[|]]]; simpl; by intros [= <-].
    + intros [= <-]. exact threaded_chain.
    + by intros [= <-].
    + by intros [= <-].
    + by intros [= <-].
    + by intros [= <-].
  - intros k. by destruct k as [q| | | | |].
  - intros i p (Hlt & Hl & _)%threaded_lookup k. rewrite Hl. unfold booted, as_q.
    destruct (decide (k = LFree)) as [->|Hk].
    + rewrite fn_lookup_insert, (elem_of_seq 0 NPROC). split; [done|]. intros _. lia.
    + rewrite fn_lookup_insert_ne by done. split; [set_solver|naive_solver].
  - intros i p (_ & _ & ->)%threaded_lookup. unfold MAX. lia.
Qed.

Lemma booted_rep pr : rep booted pr (booted_table pr).
Proof. split; [apply booted_wf|vm_compute; reflexivity|done]. Qed.

Section boot.
Context {W : Type} `{KSvcLaws W}.
Implicit Types (s : kstate W).

Lemma pt_bind {A B} (m : M ptable A) (f : A → M ptable B) s :
  pt (bind m f) s = bind (pt m) (λ a, pt (f a)) s.
Proof.
  unfold pt, zoom, bind. destruct (m (k_ptable s)) as [[a t]|e| |]; [|done..]. simpl.
  by destruct (f a t) as [[b t']|e| |].
Qed.

Lemma build_free_list_eq s : build_free_list s = pt build_free s.
Proof.
  unfold build_free_list, build_free. generalize (seq 0 NPROC) as l. intros l. revert s.
  induction l as [|i l IH]; intros s; cbn [mfor].
  - unfold pt, zoom. simpl. by rewrite set_k_ptable_id.
  - rewrite !pt_bind. unfold bind.
    destruct (pt (assertState (Some i) UNUSED) s) as [[[] s1]|e| |] eqn:H1.
    all: unfold pt, zoom in H1; unfold pt, zoom, bind.
    all: destruct (assertState (Some i) UNUSED (k_ptable s)) as [[[] t1]|e1| |]; simplify_eq/=; try done.
    destruct (addToStateListEnd LFree (Some i) t1) as [[r t2]|e| |]; simpl; [|done..].
    case_decide; simpl; [done|]. apply IH.
Qed.

(** Emptying a list that is empty. *)
Lemma wp_set_nil E k t a Q :
  wf t a → a k = [] → is_Some (get_head k (pt_pLists t)) → Q tt t → wp E (set_list k None) Q t.
Proof.
  intros Hwf Ha [h Hk] HQ. assert (h = None) as -> by (by apply (wf_head_nil t a k h)).
  eapply wp_set_list; [done|]. rewrite set_head_id by done. by destruct t.
Qed.

Lemma wp_userinit_lists E i p ps a pr t Q :
  foc (Some i) i p ps a pr t → list_of p = LReady 0 →
  (∀ k, k ≠ LFree → a k = []) →
  (∀ t', foc None i p ps (<[LReady 0 := [i]]> a) pr t' → Q tt t') →
  wp E (userinit_lists i) Q t.
Proof.
  intros [Hlt Ht] Hl Ha HQ. pose proof Ht as [Hwf Hs Hpr].
  assert (<[i := p]> ps !! i = Some p) as Hp by (by apply list_lookup_insert_eq).
  destruct (tbl_lookup _ _ _ _ _ _ _ Ht Hp) as [n Hn].
  destruct (wfx_head_ready _ _ _ Hwf 0) as [h Hh]; [unfold MAX; lia|].
  set (t' := mkptable (<[i := set_p_next None p]> (pt_proc t)) (set_head (LReady 0) (Some i) (pt_pLists t))
               (pt_promoteAtTime t)).
  assert (same_but_next (pt_proc t) (<[i := set_p_next None p]> (pt_proc t))) as Hsn
    by exact (same_but_next_set _ _ (set_p_next n p) None Hn).
  assert (wfx None t' (<[LReady 0 := [i]]> a)) as Hwf'.
  { apply (wfx_change (Some i) None t a (LReady 0) h (Some i)); try done.
    - simpl. split; [done|]. exists (set_p_next None p). split; [|done].
      apply list_lookup_insert_eq. by eapply lookup_lt_Some.
    - intros j Hj _. apply list_lookup_insert_ne. set_solver.
    - intros j q Hq. rewrite list_elem_of_singleton. split.
      + intros ->. split; [done|]. rewrite Hn in Hq. by simplify_eq.
      + intros [_ Hk]. destruct (decide (i = j)); [done|].
        assert (j ∈ a (LReady 0)) as Hj by (apply (wf_mem _ _ _ Hwf _ _ Hq); split; congruence).
        rewrite Ha in Hj by done. set_solver.
    - intros j q Hq Hk. split; [|done]. intros [= ->]. rewrite Hn in Hq. by simplify_eq. }
  unfold userinit_lists. apply wp_bind. eapply wp_set_list; [exact Hh|].
  apply wp_bind. eapply wp_upd_proc; [exact Hn|]. fold t'. change (set_pt_proc _ _) with t'.
  assert (∀ k, k ≠ LFree → k ≠ LReady 0 → (<[LReady 0 := [i]]> a) k = []) as Hnil.
  { intros k H1 H2. rewrite fn_lookup_insert_ne by done. by apply Ha. }
  apply wp_bind. cbn [mfor]. apply wp_bind.
  eapply wp_set_nil; [exact Hwf'|by apply Hnil|apply (wfx_head_ready _ _ _ Hwf' 1); unfold MAX; lia|].
  apply wp_bind.
  eapply wp_set_nil; [exact Hwf'|by apply Hnil|apply (wfx_head_ready _ _ _ Hwf' 2); unfold MAX; lia|].
  apply wp_skip.
  apply wp_bind. eapply wp_set_nil; [exact Hwf'|by apply Hnil|done|].
  apply wp_bind. eapply wp_set_nil; [exact Hwf'|by apply Hnil|done|].
  apply wp_bind. eapply wp_set_nil; [exact Hwf'|by apply Hnil|done|].
  eapply wp_set_nil; [exact Hwf'|by apply Hnil|done|].
  apply HQ. split; [done|]. split; [done| |done]. simpl. etransitivity; [exact Hs|exact Hsn].
Qed.

Definition first_fill (i : nat) (d : Z) (root : option nat) (nm : list Z) (q : proc) : proc :=
  set_p_state RUNNABLE (set_p_cwd root (set_p_name nm (set_p_parent (Some i) (set_p_gid GID
    (set_p_uid UID (set_p_frame user_frame (set_p_sz PGSIZE (set_p_pgdir d q)))))))).

(** The entry of the first process, and the state that userinit leaves. *)
Definition first_proc (ks now n d : Z) (root : option nat) (nm : list Z) : proc :=
  first_fill O d root nm (init_proc ks now (set_p_kstack ks (embryo n zero_proc))).
Definition first_state (p : proc) : astate :=
  mka (<[O := p]> (replicate NPROC zero_proc))
      (<[LReady 0 := [O]]> (take_off O LEmbryo (put_first O LEmbryo (take_off O LFree (as_q booted))))).

Lemma first_state_other k :
  k ≠ LFree →
  take_off O LEmbryo (put_first O LEmbryo (take_off O LFree (as_q booted))) k = [].
Proof.
  intros Hk. unfold put_first, take_off, booted, as_q.
  destruct (decide (k = LEmbryo)) as [->|Hk'].
  - rewrite !fn_lookup_insert, remove1_head. by rewrite !fn_lookup_insert_ne by done.
  - by rewrite !fn_lookup_insert_ne by congruence.
Qed.

Lemma first_proc_ok ks now n d root nm :
  d ≠ 0 → length nm = 16%nat → terminated nm →
  procs_ok (<[O := first_proc ks now n d root nm]> (replicate NPROC zero_proc)) (Some O).
Proof.
  intros Hd Hnm Hnz. set (p := first_proc _ _ _ _ _ _).
  assert (live (<[O := p]> (replicate NPROC zero_proc)) (Some O)) as Hlive by (by exists O, p).
  split; [|exact Hlive|].
  - intros i q [[_ ->]|[_ Hq]]%list_lookup_insert_cases.
    + by split.
    + apply lookup_replicate in Hq as [-> _]. split; try done. unfold terminated. simpl. set_solver.
  - intros i q [[_ ->]|[_ Hq]]%list_lookup_insert_cases; [done|].
    by apply lookup_replicate in Hq as [-> _].
Qed.

Lemma wp_userinit_proc i d q ps a pr s :
  foc None i q ps a pr (k_ptable s) → p_state q = EMBRYO → p_priority q = 0 →
  length (p_name q) = 16%nat → (∀ k, k ≠ LFree → take_off i LEmbryo a k = []) →
  wp svc_panics (userinit_proc i d) (λ _ s', ∃ w' t' root nm,
    s' = set_k_world w' (set_k_ptable t' s) ∧ length nm = 16%nat ∧ terminated nm ∧
    foc None i (first_fill i d root nm q) ps (<[LReady 0 := [i]]> (take_off i LEmbryo a)) pr t') s.
Proof.
  intros Hf Hst Hprio Hname Hnil. unfold userinit_proc. fstep Hf.
  apply wp_bind. eapply wp_svc_law; [apply inituvm_law|]. intros _ w1 _.
  do 5 fstep Hf. apply wp_bind. eapply wp_fcopy_name; [exact Hf|done| |].
  { left. unfold terminated, initcode_name. set_solver. }
  clear Hf. intros nm t2 Hnm _ Hnz Hf.
  apply wp_bind. eapply wp_svc_law; [apply namei_root_law|]. intros root w2 _.
  fstep Hf. fstep Hf. fstep Hf. cstep. fstep Hf.
  apply wp_pt. eapply wp_userinit_lists; [exact Hf| |exact Hnil|].
  { unfold list_of. simpl. by rewrite Hprio. }
  intros t3 Hf3. exists w2, t3, root, nm. split_and!; [reflexivity|done|done|exact Hf3].
Qed.

Lemma userinit_boots s c :
  k_ptable s = zero_ptable → quiet (k_mach s) → running (k_mach s) = [] →
  m_cpus (k_mach s) !! m_gs (k_mach s) = Some c →
  wp svc_panics svc_kalloc (λ r _, is_Some r) (k_world s) →
  (∀ w, wp svc_panics svc_setupkvm (λ r _, is_Some r ∧ r ≠ Some 0) w) →
  wp svc_panics userinit (λ _ s', ∃ ks d root nm,
    kinv s' (first_state (first_proc ks (k_ticks s) (k_nextpid s) d root nm)) ∧
    quiet (k_mach s') ∧ k_console s' = k_console s ∧ k_initproc s' = Some O) s.
Proof.
  intros Hzero Hq Hrun Hc Hmem Hkvm. destruct (quiet_free _ _ Hq Hc) as [Hf Hn].
  unfold userinit. apply wp_bind, wp_modS, wp_bind. eapply wp_Ok.
  { rewrite build_free_list_eq. unfold pt, zoom. simpl. by rewrite Hzero, build_free_boot. }
  apply wp_bind. eapply wp_mono.
  { eapply wp_allocproc; [exact (booted_rep TIME_TO_PROMOTE)|exact Hf|done|exact Hmem]. }
  intros r s1 (p0 & Hp0 & _ & [(_ & [? [=]] & _)|(-> & ks & _ & (w1 & t1 & m1 & -> & Ht1 & Hf1 & Hs1))]).
  assert (p0 = zero_proc) as -> by (by apply lookup_replicate in Hp0 as [-> _]).
  apply wp_bind, wp_modS, wp_bind, wp_svc. eapply wp_mono; [apply Hkvm|]. simpl.
  intros r w2 [[d ->] Hd].
  assert (foc None O (init_proc ks (k_ticks s) (set_p_kstack ks (embryo (k_nextpid s) zero_proc)))
    (replicate NPROC zero_proc) (put_first O LEmbryo (take_off O LFree (as_q booted)))
    TIME_TO_PROMOTE t1) as Hfoc
    by (split; [rewrite length_replicate; unfold NPROC; lia|exact Ht1]).
  eapply wp_mono.
  { eapply wp_userinit_proc; [exact Hfoc|done|done|done|exact first_state_other]. }
  intros [] s2 (w3 & t3 & root & nm & -> & Hnm & Hnz & [_ Ht3]).
  exists ks, d, root, nm. split_and!; [| |done|done].
  - split; [exact (rep_pr (first_state _) _ _ Ht3)| |].
    + by apply first_proc_ok; [intros ->|..].
    + assert (running m1 = []) as Hr1 by (by rewrite (running_same _ _ _ _ _ Hc (proj1 Hf1) Hs1)).
      change (running m1 ≡ₚ as_q (first_state (first_proc ks (k_ticks s) (k_nextpid s) d root nm)) LRunning).
      rewrite Hr1. unfold first_state, as_q at 1. rewrite fn_lookup_insert_ne by done.
      by rewrite first_state_other.
  - exact (quiet_again _ _ _ Hq Hc Hf1 Hs1).
Qed.
End boot.

(** ** The process subsystem as a transition system

    CPUs take turns.  A step is one critical section of ptable.lock, or one piece
    of the code of fork or exit between two of them: whatever other CPUs do, and
    a timer interrupt or a wait for the disk, can come between two steps.  Where
    a process is inside fork or exit is its [stage].

    The two failure paths of fork (no page for the stack, no memory for the
    copy) move the slot between the lists without ptable.lock; each of them is
    taken as one step here, so an interleaving inside them is not covered. *)

Section sys.
Context {W : Type} `{KSvcLaws W}.
Implicit Types (s : kstate W) (st : astate).

(** CPU [n] executes the next instructions. *)
Definition on_gs (n : nat) (s : kstate W) : kstate W :=
  set_k_mach (mkmachine n (m_cpus (k_mach s)) (m_locks (k_mach s))) s.

(** What a process may call. *)
Inductive call :=
| CYield
| CSleep (ch : chan) (lk : option string)
| CWakeup (ch : chan)
| CWait
| CGrow (n : Z)
| CKill (pid : Z)
| CSetpriority (pid prio : Z).
Definition run (op : call) : M (kstate W) unit :=
  match op with
  | CYield => yield
  | CSleep ch lk => lock_and_sleep ch lk
  | CWakeup ch => wakeup ch
  | CWait => let! _ := wait in skip
  | CGrow n => let! _ := growproc n in skip
  | CKill pid => let! _ := kill pid in skip
  | CSetpriority pid prio => let! _ := setpriority pid prio in skip
  end.

(** Inside fork: the slot of the child, before its stack, before the copy of the
    memory, and before it is made RUNNABLE.  Inside exit: the descriptors below
    [fd] are closed; the directory is given back. *)
Inductive stage :=
| AtStack (np : nat)
| AtCopy (np : nat)
| AtPublish (np : nat)
| AtClose (fd : nat)
| AtGone.
Definition begin_fork : M (kstate W) (option stage) := let! o := allocproc_slot in ret (AtStack <$> o).
Definition begin_exit : M (kstate W) (option stage) := exit_check ;;; ret (Some (AtClose 0)).
Definition advance (g : stage) : M (kstate W) (option stage) :=
  match g with
  | AtStack np => let! o := allocproc_stack np in ret (AtCopy <$> o)
  | AtCopy np => let! b := fork_copy np in ret (if b then Some (AtPublish np) else None)
  | AtPublish np => let! _ := fork_publish np in ret None
  | AtClose fd =>
      if decide (fd < NOFILE)%nat then exit_ofile fd ;;; ret (Some (AtClose (S fd)))
      else exit_cwd ;;; ret (Some AtGone)
  | AtGone => exit_sched ;;; ret None
  end.

(** The stages taken one after the other are fork and exit. *)
Fixpoint drive (fuel : nat) (o : option stage) : M (kstate W) unit :=
  match o, fuel with
  | None, _ => skip
  | Some _, O => diverge
  | Some g, S f => let! o' := advance g in drive f o'
  end.
Lemma fork_staged s : (let! o := begin_fork in drive 3 o) s = (let! _ := fork in skip) s.
Proof.
  unfold begin_fork, fork, allocproc, bind.
  destruct (allocproc_slot s) as [[[np|] s1]|e| |]; [|done..]. cbn [drive advance ret fmap option_fmap option_map].
  unfold bind. destruct (allocproc_stack np s1) as [[[np'|] s2]|e| |]; [|done..].
  cbn [drive advance ret fmap option_fmap option_map]. unfold bind.
  destruct (fork_copy np' s2) as [[[] s3]|e| |]; [|done..].
  cbn [drive advance ret]. unfold bind. by destruct (fork_publish np' s3) as [[r s4]|e| |].
Qed.
Lemma drive_close k fd f s : (fd + k = NOFILE)%nat →
  drive (k + f) (Some (AtClose fd)) s = (mfor (seq fd k) exit_ofile ;;; drive f (Some (AtClose NOFILE))) s.
Proof.
  revert fd s. induction k as [|k IH]; intros fd s Hk; cbn [seq mfor Nat.add].
  - rewrite Nat.add_0_r in Hk. by subst fd.
  - cbn [drive advance]. rewrite decide_True by lia. unfold bind at 1 2 3 4.
    destruct (exit_ofile fd s) as [[[] s1]|e| |]; [|done..]. apply IH. lia.
Qed.
Lemma exit_staged s : (let! o := begin_exit in drive (NOFILE + 2) o) s = exit s.
Proof.
  unfold begin_exit, exit, exit_files, bind at 1 2 3 4. destruct (exit_check s) as [[[] s1]|e| |]; [|done..].
  cbn [ret]. rewrite (drive_close NOFILE 0 2) by done. unfold bind.
  destruct (mfor (seq 0 NOFILE) exit_ofile s1) as [[[] s2]|e| |]; [|done..]. cbn [drive advance].
  rewrite decide_False by lia. unfold bind. destruct (exit_cwd s2) as [[[] s3]|e| |]; [|done..]. cbn [ret drive advance].
  unfold bind. by destruct (exit_sched s3) as [[[] s4]|e| |].
Qed.

(** The kernel, and the stages of the processes that are in fork or exit. *)
Record ksys := mksys { sy_k : kstate W; sy_at : gmap nat stage }.

Inductive act := ACall (op : call) | AFork | AExit | ANext.
(** The pieces of fork and exit come in order, and a process inside them can only
    be preempted, sleep (in a service) or wake others; init does not exit,
    ptable.lock is not given to [sleep] by other files, and sys_setpriority
    passes valid priorities only. *)
Definition allowed (y : ksys) (i : nat) (a : act) : Prop :=
  match a with
  | ACall CYield | ACall (CWakeup _) => True
  | ACall (CSleep _ lk) => lk ≠ Some "ptable"
  | ACall op => sy_at y !! i = None ∧
      match op with CSetpriority _ prio => 0 ≤ prio ≤ MAX | _ => True end
  | AFork => sy_at y !! i = None
  | AExit => sy_at y !! i = None ∧ k_initproc (sy_k y) ≠ Some i
  | ANext => is_Some (sy_at y !! i)
  end.
Definition moved (i : nat) (o : option stage) (g : gmap nat stage) : gmap nat stage := partial_alter (λ _, o) i g.
Definition perform (y : ksys) (i : nat) (a : act) : M (kstate W) (gmap nat stage) :=
  match a with
  | ACall op => run op ;;; ret (sy_at y)
  | AFork => let! o := begin_fork in ret (moved i o (sy_at y))
  | AExit => let! o := begin_exit in ret (moved i o (sy_at y))
  | ANext =>
      match sy_at y !! i with
      | Some g => let! o := advance g in ret (moved i o (sy_at y))
      | None => ret (sy_at y)
      end
  end.

(** A process that returns from [sleep(chan, lk)] holds [lk] and releases it. *)
Inductive let_go : kstate W → kstate W → Prop :=
| let_go_none s : quiet (k_mach s) → let_go s s
| let_go_lock l s s' :
    l ≠ "ptable" → holding_by (m_gs (k_mach s)) (get_lock l (k_mach s)) = true →
    mch (release l) s = Ok (tt, s') → let_go s s'.

Inductive kstep : ksys → ksys → Prop :=
| step_tick y : kstep y (mksys (set_k_ticks (u32 (k_ticks (sy_k y) + 1)) (sy_k y)) (sy_at y))
| step_act n c i a y s' g' :
    m_cpus (k_mach (sy_k y)) !! n = Some c → c_proc c = Some i → allowed y i a →
    perform y i a (on_gs n (sy_k y)) = Ok (g', s') → kstep y (mksys s' g')
| step_sched n c r y s1 s2 :
    m_cpus (k_mach (sy_k y)) !! n = Some c → c_proc c = None →
    scheduler (on_gs n (sy_k y)) = Ok (r, s1) → let_go s1 s2 → kstep y (mksys s2 (sy_at y)).

(** *** The invariant *)
Definition slot_of (g : stage) : option nat :=
  match g with AtStack np | AtCopy np | AtPublish np => Some np | _ => None end.
Definition stage_ok (init : option nat) (ps : list proc) (i : nat) (p : proc) (g : stage) : Prop :=
  match g with
  | AtStack np => ∃ q, ps !! np = Some q ∧ unborn q
  | AtCopy np => ∃ q, ps !! np = Some q ∧ unborn q ∧ resumable (p_saved q) = true
  | AtPublish np => ∃ q, ps !! np = Some q ∧ complete i q
  | AtClose fd => init ≠ Some i ∧ ∀ k, (k < fd)%nat → (k < NOFILE)%nat → p_ofile p !! k = Some None
  | AtGone => init ≠ Some i ∧ p_ofile p = replicate NOFILE None
  end.
Record stages_ok (init : option nat) (ps : list proc) (gs : gmap nat stage) : Prop := mkstages {
  so_each : ∀ i g, gs !! i = Some g → ∃ p, ps !! i = Some p ∧ alive (p_state p) = true ∧ stage_ok init ps i p g;
  so_apart : ∀ i j g g' np, gs !! i = Some g → gs !! j = Some g' → slot_of g = Some np → slot_of g' = Some np → i = j
}.
Definition inv (y : ksys) : Prop :=
  ∃ st, kinv (sy_k y) st ∧ quiet (k_mach (sy_k y)) ∧ stages_ok (k_initproc (sy_k y)) (as_ps st) (sy_at y).

Lemma stage_slot init ps i p g np : stage_ok init ps i p g → slot_of g = Some np →
  ∃ q, ps !! np = Some q ∧ p_state q = EMBRYO.
Proof. destruct g; simpl; intros Hg [= <-]; [destruct Hg as (q & ? & [? ?])|destruct Hg as (q & ? & [? ?] & ?)|destruct Hg as (q & ? & [? ? ? ?])]; eauto. Qed.

(** Stages of processes that a step does not touch. *)
Lemma stages_gentle ex X init ps ps' gs :
  stages_ok init ps gs → gentle ex X ps ps' →
  (∀ j g, gs !! j = Some g → X ≠ Some j ∧ ex ≠ Some j ∧ ∀ np, slot_of g = Some np → X ≠ Some np) →
  stages_ok init ps' gs.
Proof.
  intros [He Ha] Hg Hout. split; [|exact Ha]. intros i g Hi. destruct (He i g Hi) as (p & Hp & Hal & Hok).
  destruct (Hout i g Hi) as (HX & Hex & Hnp). destruct (Hg i p HX Hp) as (p' & Hp' & Hu).
  exists p'. destruct (proj1 Hu Hal) as [Hal' Hof]. split_and!; [done|done|].
  destruct g as [np|np|np|fd|]; simpl in *.
  - destruct Hok as (q & Hq & [Hs Hc]). destruct (Hg np q (Hnp np eq_refl) Hq) as (q' & Hq' & _ & Hv).
    destruct (Hv Hs) as (Hs' & Ho' & _). exists q'. split; [done|]. split; congruence.
  - destruct Hok as (q & Hq & [Hs Hc] & Hr). destruct (Hg np q (Hnp np eq_refl) Hq) as (q' & Hq' & _ & Hv).
    destruct (Hv Hs) as (Hs' & Ho' & _ & Hsv & _). exists q'. split_and!; [done|split|]; congruence.
  - destruct Hok as (q & Hq & [Hs Hc Hpg Hr]). destruct (Hg np q (Hnp np eq_refl) Hq) as (q' & Hq' & _ & Hv).
    destruct (Hv Hs) as (Hs' & Ho' & Hg' & Hsv & Hpar). exists q'. split; [done|]. split; [done| |congruence..].
    rewrite Hpar; [done|]. congruence.
  - by rewrite Hof.
  - by rewrite Hof.
Qed.
Lemma stages_delete init ps gs i : stages_ok init ps gs → stages_ok init ps (delete i gs).
Proof.
  intros [He Ha]. split.
  - intros j g [_ Hj]%lookup_delete_Some. by apply He.
  - intros j j' g g' np [_ Hj]%lookup_delete_Some [_ Hj']%lookup_delete_Some. by apply Ha.
Qed.
Lemma stages_moved init ps gs i p o :
  stages_ok init ps (delete i gs) → ps !! i = Some p → alive (p_state p) = true →
  (∀ g, o = Some g → stage_ok init ps i p g ∧
     ∀ j g' np, j ≠ i → gs !! j = Some g' → slot_of g' = Some np → slot_of g ≠ Some np) →
  stages_ok init ps (moved i o gs).
Proof.
  intros [He Ha] Hp Hal Ho. unfold moved. destruct o as [g|]; [|by split].
  destruct (Ho g eq_refl) as [Hok Hap]. change (stages_ok init ps (<[i := g]> gs)). split.
  - intros j g' [[<- <-]|[Hne Hj]]%lookup_insert_Some; [eauto|]. apply He. by apply lookup_delete_Some.
  - intros j j' g1 g2 np [[<- <-]|[Hne Hj]]%lookup_insert_Some [[<- <-]|[Hne' Hj']]%lookup_insert_Some H1 H2.
    + done.
    + by destruct (Hap j' g2 np).
    + by destruct (Hap j g1 np).
    + eapply Ha; [by apply lookup_delete_Some|by apply lookup_delete_Some|done|done].
Qed.

Lemma kinv_on_gs n s st : kinv s st → kinv (on_gs n s) st.
Proof. intros [Hr Ho Hrun]. by split. Qed.
Lemma quiet_on_gs n s : quiet (k_mach s) → quiet (k_mach (on_gs n s)).
Proof. done. Qed.

(** A call returns or panics in a service. *)
Lemma run_keeps op s st c i p :
  kinv s st → quiet (k_mach s) → on_cpu s st c i p →
  match op with CSleep _ lk => lk ≠ Some "ptable" | CSetpriority _ prio => 0 ≤ prio ≤ MAX | _ => True end →
  wp svc_panics (run op) (λ _ s', ∃ st', settled s s' st' ∧ gentle None None (as_ps st) (as_ps st')) s.
Proof.
  intros Hk Hq Hon Hok. pose proof Hon as [[Hc _] _ _ Hp Hst]. pose proof (kinv_awf _ _ Hk) as Hw.
  destruct op as [|ch [l|]|ch| |n|pid|pid prio]; simpl in *.
  - eapply wp_mono; [by eapply yield_keeps|]. intros [] s' Hs. eauto using gentle_yield.
  - eapply wp_mono; [eapply sleep_keeps; [done..|congruence]|]. intros [] s' Hs. eauto using gentle_sleep.
  - eapply wp_mono; [by eapply sleep_null_keeps|]. intros [] s' Hs. eauto using gentle_sleep.
  - eapply wp_mono; [by eapply wakeup_keeps|]. intros [] s' Hs. eauto using gentle_wakeup.
  - apply wp_bind. eapply wp_mono; [by eapply wait_keeps|]. intros r s' Hpost. apply wp_skip.
    by eapply wait_post_settled.
  - apply wp_bind. eapply wp_mono; [by eapply grow_keeps|]. done.
  - apply wp_bind. eapply wp_mono; [by eapply kill_keeps|]. intros r s' [_ Hs]. apply wp_skip. eauto using gentle_kill.
  - apply wp_bind. eapply wp_mono; [by eapply setpriority_keeps|]. intros r s' [_ Hs]. apply wp_skip.
    eauto using gentle_setpriority.
Qed.

Lemma wp_Ok_inv {S A} E (m : M S A) Q (s s' : S) a : wp E m Q s → m s = Ok (a, s') → Q a s'.
Proof. unfold wp. intros Hw Hm. by rewrite Hm in Hw. Qed.

(** The machine while one lock is held, and after it is released. *)
Lemma running_lock v lk m c : m_cpus m !! m_gs m = Some c → c_proc v = c_proc c →
  running (set_lock lk (mklock true (Some (m_gs m))) (set_cpu v m)) = running m.
Proof.
  intros Hc Hv. apply (running_same [lk] _ _ c v Hc); [|split_and!; [done|by exists v|]|done].
  - exact (lookup_set_cpu m c v Hc).
  - intros l Hl. by rewrite get_lock_set_lock_ne by set_solver.
Qed.

Lemma release_held l c0 m0 :
  l ≠ "ptable" → quiet m0 → m_cpus m0 !! m_gs m0 = Some c0 →
  ∃ m', release l (set_lock l (mklock true (Some (m_gs m0))) (set_cpu (pushed c0) m0)) = Ok (tt, m') ∧
    quiet m' ∧ running m' = running m0.
Proof.
  intros Hl Hq Hc0. pose proof (proj2 Hq _ _ Hc0) as Hn.
  pose proof (lookup_set_cpu m0 c0 (pushed c0) Hc0) as Hc1.
  eexists. split.
  { apply (release_eq l (pushed c0)); [exact Hc1| |done|simpl; lia].
    rewrite get_lock_set_lock. unfold holding_by. simpl. by rewrite bool_decide_true. }
  set (m' := set_cpu _ _).
  assert (cpu_step [l] m0 m') as Hs.
  { split_and!; [done|exists (popped (pushed c0)); simpl; by rewrite list_insert_insert_eq|].
    intros lk Hlk. unfold m'. rewrite get_lock_set_cpu. by rewrite !get_lock_set_lock_ne by set_solver. }
  assert (m_cpus m' !! m_gs m' = Some (popped (pushed c0))) as Hc'.
  { simpl. apply list_lookup_insert_eq. rewrite length_insert. by eapply lookup_lt_Some. }
  split; [|exact (running_same [l] m0 m' _ _ Hc0 Hc' Hs eq_refl)].
  assert (∀ lk, lk_locked (get_lock lk m') = false) as Hfree.
  { intros lk. unfold m'. rewrite get_lock_set_cpu. destruct (decide (l = lk)) as [->|Hne].
    - by rewrite get_lock_set_lock.
    - rewrite !get_lock_set_lock_ne by done. apply Hq. }
  eapply (quiet_intro _ (popped (pushed c0))); [|by split|simpl; lia].
  eapply quiet_others_step; [by apply quiet_quiet_others|exact Hs|auto].
Qed.

(** Releasing the lock that a resumed sleeper took again. *)
Lemma let_go_keeps s st s' :
  kinv s st → quiet (k_mach s) ∨ holds_one (k_mach s) → let_go s s' →
  kinv s' st ∧ quiet (k_mach s') ∧ k_initproc s' = k_initproc s.
Proof.
  intros Hk Hm Hgo. destruct Hgo as [s Hq|l s s' Hl Hh Hrel]; [done|].
  destruct Hm as [[Hq _]|(l0 & m0 & c0 & Hl0 & Hq & Hc0 & Hacq)].
  { unfold holding_by in Hh. by rewrite Hq in Hh. }
  rewrite (acquire_eq l0 c0) in Hacq by (done || apply Hq). injection Hacq as Hm.
  assert (l = l0) as ->.
  { destruct (decide (l = l0)); [done|]. rewrite <- Hm in Hh.
    rewrite get_lock_set_lock_ne, get_lock_set_cpu in Hh by done.
    unfold holding_by in Hh. by rewrite (proj1 Hq) in Hh. }
  destruct (release_held l0 c0 m0 Hl Hq Hc0) as (m' & Hrel' & Hq' & Hrun').
  unfold mch, zoom in Hrel. rewrite <- Hm, Hrel' in Hrel. simplify_eq.
  split; [|done]. destruct Hk as [Hr Ho Hrun]. split; [done|done|]. simpl.
  rewrite Hrun', <- Hrun, <- Hm. by rewrite (running_lock _ _ _ c0).
Qed.

(** *** Steps keep the invariant *)
Lemma inv_intro n s st' s' gs : settled (on_gs n s) s' st' → stages_ok (k_initproc s) (as_ps st') gs → inv (mksys s' gs).
Proof. intros (Hk & Hq & _ & Hi) Hs. exists st'. split_and!; [done|done|]. simpl. by rewrite Hi. Qed.

(** The slot of one process, and a running process, are nobody else's. *)
Lemma others_slot init ps gs i g np :
  stages_ok init ps gs → gs !! i = Some g → slot_of g = Some np →
  ∀ j g', delete i gs !! j = Some g' →
    Some np ≠ Some j ∧ None ≠ Some j ∧ ∀ np', slot_of g' = Some np' → Some np ≠ Some np'.
Proof.
  intros [He Ha] Hi Hnp j g' [Hne Hj]%lookup_delete_Some. destruct (He i g Hi) as (p & _ & _ & Hok).
  destruct (stage_slot _ _ _ _ _ _ Hok Hnp) as (q & Hq & Hs). destruct (He j g' Hj) as (pj & Hpj & Hal & _).
  split_and!; [intros [= ->]; simplify_eq; by rewrite Hs in Hal|done|]. intros np' Hnp' [= <-]. by destruct Hne; eapply Ha.
Qed.
Lemma others_self init ps gs i p :
  stages_ok init ps gs → ps !! i = Some p → p_state p = RUNNING →
  ∀ j g', delete i gs !! j = Some g' →
    Some i ≠ Some j ∧ Some i ≠ Some j ∧ ∀ np', slot_of g' = Some np' → Some i ≠ Some np'.
Proof.
  intros [He Ha] Hp Hst j g' [Hne Hj]%lookup_delete_Some. split_and!; [congruence..|]. intros np' Hnp' [= <-].
  destruct (He j g' Hj) as (pj & _ & _ & Hok). destruct (stage_slot _ _ _ _ _ _ Hok Hnp') as (q & Hq & Hs). congruence.
Qed.

(** The processes inside fork and exit, after a step of [i] on its slot [np]. *)
Lemma stages_slot_step init ps ps' gs i p g np o :
  stages_ok init ps gs → gs !! i = Some g → slot_of g = Some np → ps !! i = Some p → p_state p = RUNNING →
  gentle None (Some np) ps ps' →
  (∀ g', o = Some g' → slot_of g' = Some np ∧ ∀ p', stage_ok init ps' i p' g') →
  stages_ok init ps' (moved i o gs).
Proof.
  intros Hs Hi Hnp Hp Hst Hg Ho. pose proof (others_slot _ _ _ _ _ _ Hs Hi Hnp) as Hout.
  destruct Hs as [He Ha]. destruct (He i g Hi) as (p0 & Hp0 & Hal & Hok). simplify_eq.
  destruct (stage_slot _ _ _ _ _ _ Hok Hnp) as (q & Hq & Hsq).
  destruct (Hg i p) as (p' & Hp' & Hu & _); [congruence|done|]. destruct (Hu Hal) as [Hal' _].
  eapply (stages_moved _ _ _ _ p'); [|done|done|].
  - eapply stages_gentle; [apply stages_delete; by split|exact Hg|]. intros j g' Hj.
    destruct (Hout j g' Hj) as (H1 & _ & H3). by split_and!.
  - intros g' ->. destruct (Ho g' eq_refl) as [Hnp' Hok']. split; [done|]. intros j gj npj Hne Hj Hnpj Heq.
    destruct (Hout j gj) as (_ & _ & H3); [by apply lookup_delete_Some|]. apply (H3 npj Hnpj). congruence.
Qed.
(** The same, when the step is on the entry of [i] itself. *)
Lemma stages_self_step ex init ps ps' gs i p p' o :
  stages_ok init ps gs → ps !! i = Some p → p_state p = RUNNING → ex = None ∨ ex = Some i → gentle ex (Some i) ps ps' →
  ps' !! i = Some p' → alive (p_state p') = true ∨ o = None →
  (∀ g', o = Some g' → slot_of g' = None ∧ stage_ok init ps' i p' g') →
  stages_ok init ps' (moved i o gs).
Proof.
  intros Hs Hp Hst Hex Hg Hp' Hal Ho. pose proof (others_self _ _ _ _ _ Hs Hp Hst) as Hout.
  assert (stages_ok init ps' (delete i gs)) as Hd.
  { eapply stages_gentle; [by apply stages_delete|exact Hg|]. intros j g' Hj.
    destruct (Hout j g' Hj) as (H1 & H2 & H3). destruct Hex as [->| ->]; by split_and!. }
  destruct o as [g'|]; [|exact Hd]. destruct Hal as [Hal|]; [|done]. eapply (stages_moved _ _ _ _ p'); [done..|].
  intros g0 [= <-]. destruct (Ho g' eq_refl) as [Hnone Hok]. split; [done|]. by rewrite Hnone.
Qed.

Lemma advance_keeps n g gs i p c s st :
  kinv s st → quiet (k_mach s) → stages_ok (k_initproc s) (as_ps st) gs → gs !! i = Some g →
  on_cpu (on_gs n s) st c i p →
  wp svc_panics (advance g) (λ o s', inv (mksys s' (moved i o gs)) ∧ k_console s' = k_console s) (on_gs n s).
Proof.
  intros Hk Hq Hs Hi Hon. pose proof (kinv_on_gs n _ _ Hk) as Hk'. pose proof (quiet_on_gs n _ Hq) as Hq'.
  pose proof Hon as [[Hc _] _ _ Hp Hst].
  assert (∀ st' o s', settled (on_gs n s) s' st' → stages_ok (k_initproc s) (as_ps st') (moved i o gs) →
    inv (mksys s' (moved i o gs)) ∧ k_console s' = k_console s) as Hend.
  { intros st' o s' Hset Hso. split; [by eapply inv_intro|]. apply Hset. }
  destruct (so_each _ _ _ Hs i g Hi) as (p0 & Hp0 & _ & Hg). simplify_eq.
  destruct g as [np|np|np|fd|]; cbn [advance]; simpl in Hg.
  - destruct Hg as (q & Hnp & Hu). apply wp_bind. eapply wp_mono; [by eapply stack_keeps|].
    intros r s' (st' & Hset & Hgen & Hr). apply wp_ret. apply (Hend st'); [done|].
    eapply stages_slot_step; [done..|]. intros g' Hg'. destruct r as [np'|]; [|done]. injection Hg' as <-.
    destruct (Hr np' eq_refl) as (-> & q' & Hq1 & Hu' & Hsv). split; [done|]. intros p'. by exists q'.
  - destruct Hg as (q & Hnp & Hu & Hsv). apply wp_bind. eapply wp_mono; [by eapply copy_keeps|].
    intros r s' (st' & Hset & Hgen & Hr). apply wp_ret. apply (Hend st'); [done|].
    eapply stages_slot_step; [done..|]. intros g' Hg'. destruct r; [|done]. injection Hg' as <-.
    split; [done|]. intros p'. by apply Hr.
  - destruct Hg as (q & Hnp & Hcm). apply wp_bind. eapply wp_mono; [by eapply publish_keeps|].
    intros r s' (st' & Hset & Hgen). apply wp_ret. apply (Hend st'); [done|]. by eapply stages_slot_step.
  - destruct Hg as [Hinit Hcl]. pose proof (po_each _ _ (ki_ok _ _ Hk) _ _ Hp) as Hpok. case_decide as Hfd.
    + apply wp_bind. eapply wp_mono; [by eapply close_keeps|].
      intros [] s' (st' & Hset & Hgen & p' & Hp' & Hst' & Hof). apply wp_ret. apply (Hend st'); [done|].
      eapply (stages_self_step None); [done..|by left|done|done|left; by rewrite Hst'|]. intros g' [= <-].
      split; [done|]. split; [done|]. intros k Hk1 Hk2. rewrite Hof, close_ofile_lookup.
      assert (is_Some (p_ofile p !! k)) as [o Ho] by (apply lookup_lt_is_Some; rewrite (ok_ofile _ Hpok); done).
      case_decide as Hin; [by rewrite Ho|]. apply Hcl; [|done]. destruct (decide (k = fd)); [set_solver|lia].
    + apply wp_bind. eapply wp_mono; [by eapply cwd_keeps|].
      intros [] s' (st' & Hset & Hgen & p' & Hp' & Hst' & Hof). apply wp_ret. apply (Hend st'); [done|].
      eapply (stages_self_step None); [done..|by left|done|done|left; by rewrite Hst'|]. intros g' [= <-].
      split; [done|]. split; [done|]. rewrite Hof. apply list_eq. intros k. destruct (decide (k < NOFILE)%nat).
      * rewrite lookup_replicate_2 by done. apply Hcl; lia.
      * rewrite !lookup_ge_None_2; [done|rewrite length_replicate; lia|rewrite (ok_ofile _ Hpok); lia].
  - destruct Hg as [Hinit Hcl]. apply wp_bind. eapply wp_mono; [by eapply exit_sched_keeps|].
    intros [] s' (_ & Hset). apply wp_ret. apply (Hend _ _ _ Hset).
    pose proof (gentle_exit st (k_ticks s) i (k_initproc s) (p_parent p) (kinv_awf _ _ Hk)) as Hgen.
    destruct (lookup_lt_is_Some_2 (as_ps (abs_exit (k_ticks s) i (k_initproc s) (p_parent p) st)) i) as [p' Hp'].
    { rewrite abs_exit_ps by (by eapply kinv_awf). rewrite length_alter, length_fmap. by eapply lookup_lt_Some. }
    by eapply (stages_self_step (Some i)); [done..|right|exact Hgen|exact Hp'|right|].
Qed.

Lemma begin_fork_keeps n gs i p c s st :
  kinv s st → quiet (k_mach s) → stages_ok (k_initproc s) (as_ps st) gs → gs !! i = None →
  on_cpu (on_gs n s) st c i p →
  wp svc_panics begin_fork (λ o s', inv (mksys s' (moved i o gs)) ∧ k_console s' = k_console s) (on_gs n s).
Proof.
  intros Hk Hq Hs Hi Hon. pose proof Hon as [[Hc _] _ _ Hp Hst].
  apply wp_bind. eapply wp_mono; [by eapply slot_keeps; [apply (kinv_on_gs n)|..]|].
  intros r s' (st' & Hset & Hgen & Hr). apply wp_ret. split; [|apply Hset]. eapply inv_intro; [exact Hset|].
  destruct (Hgen i p) as (p' & Hp' & Hu & _); [done|done|]. destruct Hu as [Hal' _]; [by rewrite Hst|].
  eapply (stages_moved _ _ _ _ p'); [|done|done|].
  - eapply stages_gentle; [apply stages_delete; exact Hs|exact Hgen|done].
  - intros g Hg. destruct r as [np|]; [|done]. injection Hg as <-. destruct (Hr np eq_refl) as (q & q' & Hq1 & Hun & Hq2 & Hu).
    split; [by exists q'|]. intros j gj npj Hne Hj Hnpj [= <-].
    destruct (so_each _ _ _ Hs j gj Hj) as (pj & _ & _ & Hok). destruct (stage_slot _ _ _ _ _ _ Hok Hnpj) as (q0 & Hq0 & He).
    congruence.
Qed.
Lemma begin_exit_keeps n gs i p c s st :
  kinv s st → quiet (k_mach s) → stages_ok (k_initproc s) (as_ps st) gs → gs !! i = None → k_initproc s ≠ Some i →
  on_cpu (on_gs n s) st c i p →
  wp svc_panics begin_exit (λ o s', inv (mksys s' (moved i o gs)) ∧ k_console s' = k_console s) (on_gs n s).
Proof.
  intros Hk Hq Hs Hi Hinit Hon. pose proof Hon as [[Hc _] _ Hcp Hp Hst].
  apply wp_bind. eapply wp_exit_check; [exact Hc|exact Hcp|done|]. apply wp_ret. split; [|done].
  exists st. split_and!; [by apply kinv_on_gs|done|].
  eapply (stages_self_step None _ _ _ _ _ p p); [exact Hs|done|done|by left|apply gentle_refl|done|left; by rewrite Hst|].
  intros g' [= <-]. split; [done|]. split; [done|]. lia.
Qed.

(** Whatever a running process does next returns, or panics in a service, in a
    state that satisfies the invariant, and says nothing on the console. *)
Lemma perform_keeps y n c i a :
  inv y → m_cpus (k_mach (sy_k y)) !! n = Some c → c_proc c = Some i → allowed y i a →
  wp svc_panics (perform y i a) (λ g' s', inv (mksys s' g') ∧ k_console s' = k_console (sy_k y)) (on_gs n (sy_k y)).
Proof.
  intros (st & Hk & Hq & Hs) Hc Hi Hal. destruct y as [s gs]. simpl in *.
  pose proof (kinv_on_gs n _ _ Hk) as Hk'. pose proof (quiet_on_gs n _ Hq) as Hq'.
  destruct (kinv_on_cpu _ _ c i Hk' Hq') as [p Hon]; [done|done|]. destruct a as [op| | |]; cbn [perform sy_at].
  - apply wp_bind. eapply wp_mono; [eapply run_keeps; [done..|destruct op; first [exact I|exact Hal|apply Hal]]|].
    intros [] s' (st' & Hset & Hgen). apply wp_ret. split; [|apply Hset]. eapply inv_intro; [exact Hset|].
    by eapply stages_gentle.
  - apply wp_bind. eapply wp_mono; [by eapply begin_fork_keeps|]. intros o s' Hpost. by apply wp_ret.
  - destruct Hal as [Hnone Hinit]. apply wp_bind. eapply wp_mono; [by eapply begin_exit_keeps|]. intros o s' Hpost. by apply wp_ret.
  - destruct Hal as [g Hg]. simpl in Hg. rewrite Hg. apply wp_bind. eapply wp_mono; [by eapply advance_keeps|].
    intros o s' Hpost. by apply wp_ret.
Qed.

(** So does a turn of scheduler. *)
Lemma scheduler_safe y n c :
  inv y → m_cpus (k_mach (sy_k y)) !! n = Some c → c_proc c = None →
  wp svc_panics scheduler (λ _ s', (∀ s'', let_go s' s'' → inv (mksys s'' (sy_at y))) ∧
    k_console s' = k_console (sy_k y)) (on_gs n (sy_k y)).
Proof.
  intros (st & Hk & Hq & Hs) Hc Hi.
  eapply wp_mono; [exact (scheduler_keeps _ _ c (kinv_on_gs n _ _ Hk) (quiet_on_gs n _ Hq) Hc Hi)|].
  intros r s' (_ & st' & (Hk1 & Hm1 & Hcon & Hi1) & Hgen & _). split; [|done]. intros s'' Hgo.
  destruct (let_go_keeps _ _ _ Hk1 Hm1 Hgo) as (Hk2 & Hq2 & Hi2). exists st'. split_and!; [done|done|]. simpl.
  rewrite Hi2, Hi1. by eapply stages_gentle.
Qed.

Lemma kstep_inv y y' : inv y → kstep y y' → inv y'.
Proof.
  intros Hinv Hstep. destruct Hstep as [y|n c i a y s' g' Hc Hi Hok Hrun|n c r y s1 s2 Hc Hi Hsch Hgo].
  - destruct Hinv as (st & [Hr Ho Hrun] & Hq & Hs). exists st. by split_and!.
  - by destruct (wp_Ok_inv _ _ _ _ _ _ (perform_keeps y n c i a Hinv Hc Hi Hok) Hrun).
  - destruct (wp_Ok_inv _ _ _ _ _ _ (scheduler_safe y n c Hinv Hc Hi) Hsch) as [Hs _]. by apply Hs.
Qed.

Lemma reachable_inv y y' : inv y → rtc kstep y y' → inv y'.
Proof. intros Hinv Hr. induction Hr; eauto using kstep_inv. Qed.
End sys.
