(* ===== verification/ProcThm.v ===== *)
(** * What the process subsystem guarantees

    The theorems about proc.c, stated on its code, and their instances on a
    concrete kernel: two CPUs and a memory that hands out the next page. *)

From S2P Require Import Prelude Spinlock CString ProcData ProcList Proc ProcWp ProcSpec ProcRefine ProcInv ProcOps ProcBoot.
Local Open Scope Z_scope.

(** ** A concrete kernel *)

(** The world is the address of the next free page; nothing fails. *)
#[export] Instance bump : KSvc positive := {|
  svc_kalloc := λ w, Ok (Some (Zpos w), (w + 4096)%positive);
  svc_kfree _ := skip;
  svc_setupkvm := λ w, Ok (Some (Zpos w), (w + 4096)%positive);
  svc_inituvm _ := skip;
  svc_copyuvm _ _ := λ w, Ok (Some (Zpos w), (w + 4096)%positive);
  svc_freevm _ := skip;
  svc_allocuvm _ _ n := ret n;
  svc_deallocuvm _ _ n := ret n;
  svc_filedup _ := skip;
  svc_fileclose _ := skip;
  svc_idup _ := skip;
  svc_iput_op _ := skip;
  svc_namei_root := ret (Some 1%nat);
  svc_fsinit := skip
|}.
#[export] Instance bump_laws : KSvcLaws positive.
Proof. refine {| svc_panics := no_panic |}; intros; done. Defined.

Definition boot : kstate positive := mkstate (boot_machine 2) zero_ptable None 1 0 true [] 1048576%positive.
(** The state after a command; the old state when it does not return. *)
Definition after {A} (m : M (kstate positive) A) (s : kstate positive) : kstate positive :=
  match m s with Ok (_, s') => s' | _ => s end.
(** initcode has been made, and runs on CPU 0. *)
Definition booted0 : kstate positive := after userinit boot.
Definition running0 : kstate positive := after scheduler booted0.

(** [quiet], decided. *)
Definition quietb (m : machine) : bool :=
  bool_decide (map_Forall (λ _ l, lk_locked l = false) (m_locks m)) &&
  bool_decide (Forall (λ c, c_ncli c = 0) (m_cpus m)).
Lemma quietb_ok m : quietb m = true → quiet m.
Proof.
  unfold quietb. intros [Hl Hc]%andb_prop.
  apply bool_decide_eq_true in Hl, Hc. split.
  - intros lk. unfold get_lock. destruct (m_locks m !! lk) as [l|] eqn:Hlk; [|done].
    exact (Hl _ _ Hlk).
  - intros n c Hn. by eapply (Forall_lookup_1 _ _ _ _ Hc).
Qed.

Lemma booted0_Ok : userinit boot = Ok (tt, booted0).
Proof. vm_compute. reflexivity. Qed.
(** No process is inside fork or exit. *)
Abbreviation at_rest s := (mksys s ∅).
Lemma stages_none init ps : stages_ok init ps ∅.
Proof. by split. Qed.
Lemma inv_kinv {W} `{KSvcLaws W} (s : kstate W) gs : inv (mksys s gs) → ∃ st, kinv s st ∧ quiet (k_mach s).
Proof. intros (st & Hk & Hq & _). by exists st. Qed.
Lemma booted0_inv : inv (at_rest booted0).
Proof.
  assert (wp svc_panics userinit (λ _ s', inv (at_rest s')) boot) as Hw.
  { eapply wp_mono; [apply (userinit_boots boot boot_cpu)|].
    - reflexivity.
    - apply quietb_ok. vm_compute. reflexivity.
    - reflexivity.
    - reflexivity.
    - vm_compute. eauto.
    - intros w. split; [by eexists|done].
    - intros [] s' (ks & d & root & nm & Hk & Hq & _). eexists. split_and!; [exact Hk|exact Hq|apply stages_none]. }
  exact (wp_Ok_inv _ _ _ _ _ _ Hw booted0_Ok).
Qed.
Lemma running0_Ok : scheduler (on_gs 0 booted0) = Ok (Some O, running0).
Proof. vm_compute. reflexivity. Qed.
Lemma running0_step : kstep (at_rest booted0) (at_rest running0).
Proof.
  eapply (step_sched 0 (popped (pushed boot_cpu)) _ (at_rest booted0));
    [vm_compute; reflexivity|reflexivity|exact running0_Ok|].
  apply let_go_none, quietb_ok. vm_compute. reflexivity.
Qed.
Lemma running0_inv : inv (at_rest running0).
Proof. exact (kstep_inv _ _ booted0_inv running0_step). Qed.

(** ** A kernel that has booted *)
Record fresh {W} `{KSvcLaws W} (s : kstate W) : Prop := mkfresh {
  fr_table : k_ptable s = zero_ptable;
  fr_quiet : quiet (k_mach s);
  fr_idle : running (k_mach s) = [];
  fr_cpu : is_Some (m_cpus (k_mach s) !! m_gs (k_mach s));
  fr_page : wp svc_panics svc_kalloc (λ r _, is_Some r) (k_world s);
  fr_kvm : ∀ w, wp svc_panics svc_setupkvm (λ r _, is_Some r ∧ r ≠ Some 0) w
}.

Lemma fresh_inv {W} `{KSvcLaws W} (s0 s1 : kstate W) y :
  fresh s0 → userinit s0 = Ok (tt, s1) → rtc kstep (mksys s1 ∅) y → inv y.
Proof.
  intros [Hz Hq Hi [c Hc] Hp Hv] Hu Hr. eapply reachable_inv; [|exact Hr].
  destruct (wp_Ok_inv _ _ _ _ _ _ (userinit_boots s0 c Hz Hq Hi Hc Hp Hv) Hu)
    as (ks & d & root & nm & Hk & Hq1 & _). eexists. split_and!; [exact Hk|exact Hq1|by split].
Qed.

Lemma boot_fresh : fresh boot.
Proof.
  split; [reflexivity|apply quietb_ok; vm_compute; reflexivity|reflexivity|by eexists| |].
  - vm_compute. eauto.
  - intros w. split; [by eexists|done].
Qed.

Lemma omap_NoDup_inj {A} (f : A → option nat) (l : list A) n n' x y i :
  NoDup (omap f l) → l !! n = Some x → l !! n' = Some y → f x = Some i → f y = Some i → n = n'.
Proof.
  revert n n'. induction l as [|a l IH]; intros [|n] [|n'] Hnd Hx Hy Hfx Hfy; simplify_eq/=.
  - done.
  - rewrite Hfx in Hnd. apply list.NoDup_cons in Hnd as [Hni _]. destruct Hni.
    apply list_elem_of_omap. exists y. split; [by eapply list_elem_of_lookup_2|done].
  - rewrite Hfy in Hnd. apply list.NoDup_cons in Hnd as [Hni _]. destruct Hni.
    apply list_elem_of_omap. exists x. split; [by eapply list_elem_of_lookup_2|done].
  - f_equal. eapply IH; [|done..]. destruct (f a); [by apply list.NoDup_cons in Hnd as [_ ?]|done].
Qed.


(** C2. In every reachable state no process is on two CPUs, and a process is
    RUNNING exactly when some CPU has it as its current process. *)
Theorem one_cpu_per_process {W} `{KSvcLaws W} (s0 s1 s : kstate W) gs :
  fresh s0 → userinit s0 = Ok (tt, s1) → rtc kstep (mksys s1 ∅) (mksys s gs) →
  (∀ n n' c c' i, m_cpus (k_mach s) !! n = Some c → m_cpus (k_mach s) !! n' = Some c' →
     c_proc c = Some i → c_proc c' = Some i → n = n') ∧
  (∀ i p, pt_proc (k_ptable s) !! i = Some p →
     p_state p = RUNNING ↔ ∃ n c, m_cpus (k_mach s) !! n = Some c ∧ c_proc c = Some i).
Proof.
  intros Hf Hu Hr. destruct (fresh_inv _ _ _ Hf Hu Hr) as (st & Hk & Hq & _). simpl in Hk, Hq.
  pose proof Hk as [Hrep Hok Hrun]. split.
  - intros n n' c c' i Hc Hc' Hi Hi'.
    eapply (omap_NoDup_inj c_proc (m_cpus (k_mach s))); [|done..].
    change (omap c_proc _) with (running (k_mach s)). rewrite Hrun. apply (kinv_awf _ _ Hk).
  - intros i p Hp. destruct (tbl_lookup_rev _ _ _ _ _ _ _ Hrep Hp) as (q & Hq1 & ->).
    change (p_state (set_p_next _ q)) with (p_state q).
    assert (p_state q = RUNNING ↔ i ∈ as_q st LRunning) as ->.
    { rewrite (aw_mem _ (kinv_awf _ _ Hk) _ _ Hq1). unfold list_of. by destruct (p_state q). }
    rewrite <- Hrun. unfold running. rewrite list_elem_of_omap. split.
    + intros (c & Hc & Hi). apply list_elem_of_lookup_1 in Hc as [n Hn]. eauto.
    + intros (n & c & Hc & Hi). exists c. split; [by eapply list_elem_of_lookup_2|done].
Qed.
Lemma one_cpu_per_process_witness :
  fresh boot ∧ userinit boot = Ok (tt, booted0) ∧ rtc kstep (at_rest booted0) (at_rest running0) ∧
  ∃ n c, m_cpus (k_mach running0) !! n = Some c ∧ c_proc c = Some O.
Proof.
  split_and!; [exact boot_fresh|exact booted0_Ok|by apply rtc_once, running0_step|].
  destruct (one_cpu_per_process boot booted0 running0 ∅ boot_fresh booted0_Ok
              (rtc_once _ _ running0_step)) as [_ Hon].
  assert (∃ p, pt_proc (k_ptable running0) !! O = Some p ∧ p_state p = RUNNING) as (p & Hp & Hst)
    by (vm_compute; eauto).
  exact (proj1 (Hon O p Hp) Hst).
Defined.

(** C3. In every reachable state each process that has been born and not
    reaped has a parent that still lives, and so does init: exit leaves no
    orphan, and every zombie can be reaped. *)
Theorem no_orphans {W} `{KSvcLaws W} (s0 s1 s : kstate W) gs :
  fresh s0 → userinit s0 = Ok (tt, s1) → rtc kstep (mksys s1 ∅) (mksys s gs) →
  live (pt_proc (k_ptable s)) (k_initproc s) ∧
  ∀ i p, pt_proc (k_ptable s) !! i = Some p → born (p_state p) = true →
    live (pt_proc (k_ptable s)) (p_parent p).
Proof.
  intros Hf Hu Hr. destruct (fresh_inv _ _ _ Hf Hu Hr) as (st & Hk & Hq & _). simpl in Hk, Hq.
  pose proof Hk as [Hrep [_ Hinit Hpar] _].
  assert (∀ o, live (as_ps st) o → live (pt_proc (k_ptable s)) o) as Hlive.
  { intros o (j & q & -> & Hq1 & Hal). destruct (tbl_lookup _ _ _ _ _ _ _ Hrep Hq1) as [n Hn].
    exists j, (set_p_next n q). by split_and!. }
  split; [by apply Hlive|]. intros i p Hp Hb.
  destruct (tbl_lookup_rev _ _ _ _ _ _ _ Hrep Hp) as (q & Hq1 & Heq).
  rewrite Heq in *. apply Hlive. exact (Hpar _ _ Hq1 Hb).
Qed.
Lemma no_orphans_witness :
  fresh boot ∧ userinit boot = Ok (tt, booted0) ∧ rtc kstep (at_rest booted0) (at_rest running0) ∧
  live (pt_proc (k_ptable running0)) (k_initproc running0).
Proof.
  split_and!; [exact boot_fresh|exact booted0_Ok|by apply rtc_once, running0_step|].
  exact (proj1 (no_orphans boot booted0 running0 ∅ boot_fresh booted0_Ok
                  (rtc_once _ _ running0_step))).
Defined.

(** ** The state lists *)

(** On a table whose lists are well formed, removeFromStateList finds a
    process wherever it is on the list, unlinks it, returns 0 and changes
    nothing but links; a process that is not on the list is reported with -1
    and the table stays as it was. *)
Theorem removeFromStateList_exact t a k i :
  wf t a → is_Some (get_head k (pt_pLists t)) →
  (i ∈ a k → wp no_panic (removeFromStateList k (Some i)) (λ r t',
     r = 0 ∧ wfx (Some i) t' (<[k := remove1 i (a k)]> a) ∧ links_only t t') t) ∧
  (i ∉ a k → removeFromStateList k (Some i) t = Ok (-1, t)).
Proof.
  intros Hwf Hk. split; intros Hi.
  - by apply (wp_removeFrom _ i t a).
  - by eapply removeFrom_absent.
Qed.
Lemma removeFromStateList_exact_witness :
  wf (booted_table 270) (as_q booted) ∧
  removeFromStateList LSleep (Some 5%nat) (booted_table 270) = Ok (-1, booted_table 270).
Proof.
  split; [apply booted_wf|].
  apply (proj2 (removeFromStateList_exact (booted_table 270) (as_q booted) LSleep 5%nat
                  (booted_wf 270) ltac:(by eexists))).
  vm_compute. intros Hin. inversion Hin.
Defined.

(** addToStateListEnd puts a process that is on no list behind the last
    one of the list of its state, addToStateListHead before the first one: the
    table is well formed again, with that list extended and only links
    changed. *)
Theorem addToStateList_exact t a i p :
  wfx (Some i) t a → pt_proc t !! i = Some p →
  wp no_panic (addToStateListEnd (list_of p) (Some i)) (λ r t',
    r = 0 ∧ wf t' (<[list_of p := a (list_of p) ++ [i]]> a) ∧ links_only t t') t ∧
  wp no_panic (addToStateListHead (list_of p) (Some i)) (λ r t',
    r = 0 ∧ wf t' (<[list_of p := i :: a (list_of p)]> a) ∧ links_only t t') t.
Proof.
  intros Hwf Hp. split.
  - by apply (wp_addEnd _ i t a p).
  - by apply (wp_addHead _ i t a p).
Qed.
Lemma addToStateList_exact_witness :
  ∃ t a, wfx (Some 5%nat) t a ∧
    wp no_panic (addToStateListEnd LFree (Some 5%nat)) (λ r t',
      r = 0 ∧ wf t' (<[LFree := a LFree ++ [5%nat]]> a) ∧ links_only t t') t.
Proof.
  assert (wp no_panic (removeFromStateList LFree (Some 5%nat)) (λ _ t',
    wfx (Some 5%nat) t' (<[LFree := remove1 5%nat (as_q booted LFree)]> (as_q booted)))
    (booted_table 270)) as Hr.
  { apply (wp_removeFrom _ 5%nat (booted_table 270) (as_q booted)); [apply booted_wf| |done].
    vm_compute. repeat constructor. }
  unfold wp in Hr. destruct (removeFromStateList LFree (Some 5%nat) (booted_table 270))
    as [[r t']|e| |] eqn:Hrun; try done. rename Hr into Hwf.
  exists t', (<[LFree := remove1 5%nat (as_q booted LFree)]> (as_q booted)). split; [done|].
  assert (∃ p, pt_proc t' !! 5%nat = Some p ∧ list_of p = LFree) as (p & Hp & Hlp).
  { vm_compute in Hrun. injection Hrun as _ <-. by eexists. }
  pose proof (proj1 (addToStateList_exact t' _ 5%nat p Hwf Hp)) as Hadd.
  rewrite Hlp in Hadd. exact Hadd.
Defined.

(** ** Scheduling *)

(** Process 0 runs on the CPU of the concrete kernel. *)
Lemma running0_cpu :
  ∃ st c p, kinv running0 st ∧ quiet (k_mach running0) ∧ on_cpu running0 st c O p.
Proof.
  destruct (inv_kinv _ _ running0_inv) as (st & Hk & Hq). exists st.
  destruct (kinv_on_cpu _ _ (mkcpu 0 true true (Some O)) O Hk Hq) as [p Hon];
    [vm_compute; reflexivity|done|]. eauto.
Qed.

(** C20. On an idle CPU scheduler runs the process at the head of the first
    non-empty ready queue, from the highest priority 0 to the lowest 2, after
    the promotion that is due; when all queues are empty it runs nothing. *)
Theorem scheduler_picks_highest {W} `{KSvcLaws W} (s : kstate W) st c :
  kinv s st → quiet (k_mach s) → m_cpus (k_mach s) !! m_gs (k_mach s) = Some c → c_proc c = None →
  wp svc_panics scheduler (λ r s',
    r = head (as_q (due s st) (LReady 0) ++ as_q (due s st) (LReady 1) ++ as_q (due s st) (LReady 2)) ∧
    ∃ st', returned s s' st') s.
Proof.
  intros Hk Hq Hc Hi. eapply wp_mono; [exact (scheduler_keeps _ _ c Hk Hq Hc Hi)|].
  intros r s' [-> (st' & Hret & _)]. split; [|by exists st']. cbn [abs_pick].
  destruct (as_q (due s st) (LReady 0)); [|done]. destruct (as_q (due s st) (LReady 1)); [|done].
  by destruct (as_q (due s st) (LReady 2)).
Qed.
Lemma scheduler_picks_highest_witness :
  ∃ st, kinv booted0 st ∧ wp svc_panics scheduler (λ r s',
    r = head (as_q (due booted0 st) (LReady 0) ++ as_q (due booted0 st) (LReady 1) ++
              as_q (due booted0 st) (LReady 2)) ∧ ∃ st', returned booted0 s' st') booted0.
Proof.
  destruct (inv_kinv _ _ booted0_inv) as (st & Hk & Hq). exists st. split; [done|].
  apply (scheduler_picks_highest booted0 st (popped (pushed boot_cpu)) Hk Hq);
    [vm_compute; reflexivity|reflexivity].
Defined.

(** The table depends on the queues only through their contents. *)
Lemma tbl_ext X ps a a' pr t : (∀ k, a k = a' k) → tbl X ps a pr t → tbl X ps a' pr t.
Proof.
  intros Ha [[Hl Hr Hc Hn Hm Hp] Hs Hpr]. split; [|done|done]. split; try done.
  - intros k h Hk. rewrite <- Ha. eauto.
  - intros k Hk. rewrite <- Ha. eauto.
  - intros i p Hi k. rewrite <- Ha. eauto.
Qed.

(** promoteAll raises the priority of every RUNNABLE, SLEEPING and RUNNING
    process by one level: queue 1 is appended to queue 0 in order, queue 2
    becomes queue 1, queue 2 is left empty, the other lists keep their order,
    and no other field of any process changes. *)
Theorem promoteAll_exact {W} `{KSvc W} (s : kstate W) st pr :
  rep st pr (k_ptable s) →
  wp no_panic promoteAll (λ _ s', ∃ t', s' = set_k_ptable t' s ∧
    tbl None (promoted <$> as_ps st) (promoted_queue (as_q st)) pr t') s.
Proof.
  intros Ht. eapply wp_promoteAll; [exact Ht|]. intros t' Ht'. exists t'. split; [done|].
  pose proof (tbl_awf _ _ _ Ht) as Hw. rewrite <- (abs_promoteAll_ps _ Hw).
  eapply tbl_ext; [|exact Ht']. intros k. by apply abs_promoteAll_q.
Qed.
Lemma promoteAll_exact_witness :
  ∃ st pr, rep st pr (k_ptable booted0) ∧
    wp no_panic promoteAll (λ _ s', ∃ t', s' = set_k_ptable t' booted0 ∧
      tbl None (promoted <$> as_ps st) (promoted_queue (as_q st)) pr t') booted0.
Proof.
  destruct (inv_kinv _ _ booted0_inv) as (st & Hk & _). eexists st, _. split; [apply Hk|].
  apply promoteAll_exact, Hk.
Defined.

(** wakeup(chan) makes exactly the processes that sleep on chan RUNNABLE:
    they leave the sleep list, which keeps the order of the rest, and join the
    end of the ready queue of their priority in the order in which they
    slept. *)
Theorem wakeup_exact {W} `{KSvc W} (s : kstate W) st c ch :
  kinv s st → quiet (k_mach s) → m_cpus (k_mach s) !! m_gs (k_mach s) = Some c →
  wp no_panic (wakeup ch) (λ _ s', ∃ st', settled s s' st' ∧
    as_ps st' = wake ch <$> as_ps st ∧
    as_q st' LSleep = filter (λ i, sleeps_on (as_ps st) ch i = false) (as_q st LSleep) ∧
    (∀ r, as_q st' (LReady r) = as_q st (LReady r) ++
       filter (λ i, sleeps_on (as_ps st) ch i = true ∧ has_prio (as_ps st) r i = true)
         (as_q st LSleep)) ∧
    ∀ k, k ≠ LSleep → (∀ r, k ≠ LReady r) → as_q st' k = as_q st k) s.
Proof.
  intros Hk Hq Hc. eapply wp_mono; [by eapply wakeup_keeps|]. intros [] s' Hs.
  exists (abs_wakeup1 ch st). pose proof (kinv_awf _ _ Hk) as Hw.
  destruct (wake_fold ch (as_q st LSleep) [] st (aw_NoDup _ Hw _) eq_refl) as [H1 H2].
  split_and!; [done|by apply abs_wakeup1_ps|exact H1|exact H2|].
  intros k Hne Hr. by apply abs_wakeup1_other.
Qed.
Lemma wakeup_exact_witness :
  ∃ st, kinv running0 st ∧
    wp no_panic (wakeup (ChProc 0)) (λ _ s', ∃ st', settled running0 s' st' ∧
      as_ps st' = wake (ChProc 0) <$> as_ps st) running0.
Proof.
  destruct running0_cpu as (st & c & p & Hk & Hq & Hon). exists st. split; [done|].
  eapply wp_mono; [apply (wakeup_exact running0 st c (ChProc 0) Hk Hq), Hon|].
  intros [] s' (st' & Hs & Hps & _). by exists st'.
Defined.

(** C21. A process that gives up the CPU by yield leaves the RUNNING list and
    joins the end of the ready queue of its priority after the charge for the
    ticks it used; nothing else on any list moves, and its CPU is idle. *)
Theorem yield_exact {W} `{KSvc W} (s : kstate W) st c i p :
  kinv s st → quiet (k_mach s) → on_cpu s st c i p →
  let p' := charge (k_ticks s) (set_p_state RUNNABLE p) in
  wp no_panic yield (λ _ s', ∃ st', settled s s' st' ∧
    as_ps st' = <[i := leave (k_ticks s) (K_yield (c_intena (pushed c))) p']> (as_ps st) ∧
    as_q st' LRunning = remove1 i (as_q st LRunning) ∧
    as_q st' (LReady (p_priority p')) = as_q st (LReady (p_priority p')) ++ [i] ∧
    ∀ k, k ≠ LRunning → k ≠ LReady (p_priority p') → as_q st' k = as_q st k) s.
Proof.
  intros Hk Hq Hon p'. eapply wp_mono; [by eapply yield_keeps|]. intros [] s' Hs.
  exists (abs_yield (k_ticks s) (c_intena (pushed c)) i p st).
  split; [done|]. split; [done|]. unfold abs_yield, put_last, take_off. simpl. fold p'.
  split_and!.
  - rewrite fn_lookup_insert_ne by done. by rewrite fn_lookup_insert.
  - rewrite fn_lookup_insert. by rewrite fn_lookup_insert_ne.
  - intros k H1 H2. by rewrite !fn_lookup_insert_ne by congruence.
Qed.
Lemma yield_exact_witness :
  ∃ st c p, kinv running0 st ∧ quiet (k_mach running0) ∧ on_cpu running0 st c O p ∧
    wp no_panic yield (λ _ s', ∃ st', settled running0 s' st') running0.
Proof.
  destruct running0_cpu as (st & c & p & Hk & Hq & Hon). exists st, c, p. split_and!; [done..|].
  pose proof (yield_exact running0 st c O p Hk Hq Hon) as Hy. cbv zeta in Hy.
  eapply wp_mono; [exact Hy|].
  intros [] s' (st' & Hs & _). by exists st'.
Defined.

(** The charge keeps the budget of a process in 1..BUDGET and its priority
    in 0..MAX, as long as fewer than 2^31 ticks passed since it got the CPU;
    it is demoted by exactly one level (never below MAX) when its budget is used
    up, and then gets a full budget. *)
Theorem charge_bounds now p :
  0 < p_budget p ≤ BUDGET → 0 ≤ p_priority p ≤ MAX → u32 (now - p_cpu_ticks_in p) < 2 ^ 31 →
  let used := u32 (now - p_cpu_ticks_in p) in
  let p' := charge now p in
  0 < p_budget p' ≤ BUDGET ∧ 0 ≤ p_priority p' ≤ MAX ∧
  (used < p_budget p → p_budget p' = p_budget p - used ∧ p_priority p' = p_priority p) ∧
  (p_budget p ≤ used → p_budget p' = BUDGET ∧ p_priority p' = Z.min MAX (p_priority p + 1)).
Proof.
  intros Hb Hp Hu. unfold charge, BUDGET, MAX in *. simpl.
  pose proof (u32_range (now - p_cpu_ticks_in p)) as Hr.
  rewrite s32_small by lia.
  repeat (case_decide; simpl in *); lia.
Qed.
Lemma charge_bounds_witness :
  0 < 120 ≤ BUDGET ∧ 0 ≤ p_priority (charge 500 (set_p_budget 120 (set_p_cpu_ticks_in 370 zero_proc))) ≤ MAX.
Proof.
  split; [unfold BUDGET; lia|].
  apply (charge_bounds 500 (set_p_budget 120 (set_p_cpu_ticks_in 370 zero_proc)));
    vm_compute; split; congruence.
Defined.

Lemma has_child_true ps cur l :
  has_child ps cur l = true ↔ ∃ j q, j ∈ l ∧ ps !! j = Some q ∧ p_parent q = Some cur.
Proof.
  unfold has_child. rewrite existsb_exists. split.
  - intros (j & Hj & Hc). apply list_elem_of_In in Hj. destruct (ps !! j) as [q|] eqn:Hq; [|done].
    apply bool_decide_eq_true in Hc. eauto.
  - intros (j & q & Hj & Hq & Hc). exists j. split; [by apply list_elem_of_In|]. rewrite Hq. by apply bool_decide_eq_true.
Qed.
(** A child that has exited and was not waited for. *)
Definition has_zombie (st : astate) (i : nat) : Prop :=
  ∃ j q, as_ps st !! j = Some q ∧ p_state q = ZOMBIE ∧ p_parent q = Some i.
Lemma exit_zombies st i p f : awf st → as_ps st !! i = Some p → p_state p = RUNNING →
  (∀ q, p_parent (f q) = p_parent q) →
  has_child (f <$> <[i := closed p]> (as_ps st)) i (as_q st LZombie) = true ↔ has_zombie st i.
Proof.
  intros Hw Hp Hst Hf. rewrite has_child_true. split.
  - intros (j & q & Hj & Hq & Hpar). destruct (awf_in_state _ _ _ Hw Hj) as (q0 & Hq0 & Hz). simpl in Hz.
    rewrite list_lookup_fmap, list_lookup_insert_ne, Hq0 in Hq by congruence. injection Hq as <-.
    rewrite Hf in Hpar. by exists j, q0.
  - intros (j & q & Hq & Hz & Hpar). exists j, (f q). split_and!; [|by rewrite list_lookup_fmap, list_lookup_insert_ne, Hq by congruence|by rewrite Hf].
    apply (aw_mem _ Hw _ _ Hq). unfold list_of. by rewrite Hz.
Qed.

(** C22. exit: fileclose is called for each open file of the process, in the order
    of the descriptors, then its current directory is given back, and nothing
    else is asked of the rest of the kernel; the process becomes a ZOMBIE without
    open files at the head of the zombie list; every child it had is given to
    init and every other process keeps its parent; the sleepers on the channel of
    the parent become RUNNABLE, those on the channel of init exactly when a
    zombie child is handed over, and no other entry changes. *)
Theorem exit_exact {W} `{KSvcLaws W} (s : kstate W) st c i p :
  kinv s st → quiet (k_mach s) → on_cpu s st c i p → k_initproc s ≠ Some i →
  wp svc_panics exit (λ _ s', ∃ st' b, settled s s' st' ∧
    closing p (k_world s) = Ok (tt, k_world s') ∧ (b = true ↔ has_zombie st i) ∧
    as_ps st' = alter (λ p, leave (k_ticks s) K_exit (set_p_state ZOMBIE p)) i
      (survivor (k_initproc s) i (p_parent p) b <$> <[i := closed p]> (as_ps st)) ∧
    as_q st' LZombie = i :: as_q st LZombie ∧
    as_q st' LRunning = remove1 i (as_q st LRunning) ∧
    p_ofile (closed p) = replicate NOFILE None ∧
    (∀ j q, as_ps st' !! j = Some q → p_parent q ≠ Some i)) s.
Proof.
  intros Hk Hq Hon Hinit. eapply wp_mono; [exact (exit_keeps c i p st s Hk Hq Hon Hinit)|].
  intros [] s' [Hcl Hs]. pose proof Hon as [_ _ _ Hp Hst]. pose proof (po_each _ _ (ki_ok _ _ Hk) _ _ Hp) as Hpok.
  set (st1 := mka (<[i := closed p]> (as_ps st)) (as_q st)) in *.
  assert (awf st1) as Hw1.
  { apply (awf_same st i p); [by eapply kinv_awf|done|done|].
    exact (aw_prio _ (kinv_awf _ _ Hk) _ _ Hp). }
  eexists _, (has_child (wake (chan_of_proc (p_parent p)) <$> as_ps st1) i (as_q st1 LZombie)).
  split; [exact Hs|]. split; [exact Hcl|]. split; [|split; [by rewrite abs_exit_ps|]]. 2: split_and!.
  - refine (exit_zombies st i p _ _ Hp Hst _); [by eapply kinv_awf|]. intros q. apply wake_fields.
  - unfold abs_exit, abs_zombie, put_first, take_off. simpl. rewrite fn_lookup_insert.
    rewrite fn_lookup_insert_ne by done. by rewrite abs_pass_children_other, abs_wakeup1_other.
  - by rewrite exit_running.
  - apply close_all, Hpok.
  - intros j q. rewrite abs_exit_ps by done. set (b := has_child _ _ _).
    change (λ p0, adopt i _ _) with (survivor (k_initproc s) i (p_parent p) b).
    assert (∀ q0, p_parent (survivor (k_initproc s) i (p_parent p) b q0) ≠ Some i) as Hne.
    { intros q0. destruct (survivor_facts (k_initproc s) i (p_parent p) b q0) as (_ & _ & _ & ->).
      by case_decide. }
    destruct (decide (i = j)) as [->|Hij].
    + rewrite list_lookup_alter_eq, list_lookup_fmap. destruct (as_ps st1 !! j); [|done].
      intros [= <-]. apply Hne.
    + rewrite list_lookup_alter_ne, list_lookup_fmap by done. destruct (as_ps st1 !! j); [|done].
      intros [= <-]. apply Hne.
Qed.

(** After one fork, the child (slot 1) is on CPU 0 and may exit. *)
Definition forked0 : kstate positive := after fork running0.
Definition child0 : kstate positive := after (yield ;;; let! _ := scheduler in skip) forked0.
(** fork in its pieces. *)
Definition cpu0 (i : option nat) : cpu := mkcpu 0 true true i.
Definition slot0 : kstate positive := after begin_fork running0.
Definition stack0 : kstate positive := after (advance (AtStack 1)) slot0.
Definition copy0 : kstate positive := after (advance (AtCopy 1)) stack0.
Lemma slot0_step : kstep (at_rest running0) (mksys slot0 {[ O := AtStack 1 ]}).
Proof.
  eapply (step_act 0 (cpu0 (Some O)) O AFork (at_rest running0)); [vm_compute; reflexivity|done|exact (lookup_empty O)|].
  vm_compute. reflexivity.
Qed.
Lemma stack0_step : kstep (mksys slot0 {[ O := AtStack 1 ]}) (mksys stack0 {[ O := AtCopy 1 ]}).
Proof.
  eapply (step_act 0 (cpu0 (Some O)) O ANext (mksys slot0 {[ O := AtStack 1 ]})); [vm_compute; reflexivity|done|by exists (AtStack 1)|].
  vm_compute. reflexivity.
Qed.
Lemma copy0_step : kstep (mksys stack0 {[ O := AtCopy 1 ]}) (mksys copy0 {[ O := AtPublish 1 ]}).
Proof.
  eapply (step_act 0 (cpu0 (Some O)) O ANext (mksys stack0 {[ O := AtCopy 1 ]})); [vm_compute; reflexivity|done|by exists (AtCopy 1)|].
  vm_compute. reflexivity.
Qed.
Lemma forked0_step : kstep (mksys copy0 {[ O := AtPublish 1 ]}) (at_rest forked0).
Proof.
  eapply (step_act 0 (cpu0 (Some O)) O ANext (mksys copy0 {[ O := AtPublish 1 ]})); [vm_compute; reflexivity|done|by exists (AtPublish 1)|].
  vm_compute. reflexivity.
Qed.
Lemma yielded0_step : kstep (at_rest forked0) (at_rest (after yield forked0)).
Proof.
  eapply (step_act 0 (cpu0 (Some O)) O (ACall CYield) (at_rest forked0)); [vm_compute; reflexivity|done|done|].
  vm_compute. reflexivity.
Qed.
Lemma child0_step : kstep (at_rest (after yield forked0)) (at_rest child0).
Proof.
  eapply (step_sched 0 (cpu0 None) (Some 1%nat) (at_rest (after yield forked0)) _ child0);
    [vm_compute; reflexivity|done|vm_compute; reflexivity|].
  apply let_go_none, quietb_ok. vm_compute. reflexivity.
Qed.
Lemma child0_inv : inv (at_rest child0).
Proof.
  pose proof (kstep_inv _ _ (kstep_inv _ _ (kstep_inv _ _ running0_inv slot0_step) stack0_step) copy0_step) as Hc.
  exact (kstep_inv _ _ (kstep_inv _ _ (kstep_inv _ _ Hc forked0_step) yielded0_step) child0_step).
Qed.
Lemma child0_cpu : ∃ st c p, kinv child0 st ∧ quiet (k_mach child0) ∧ on_cpu child0 st c 1 p.
Proof.
  destruct (inv_kinv _ _ child0_inv) as (st & Hk & Hq). exists st.
  destruct (kinv_on_cpu _ _ (mkcpu 0 true true (Some 1%nat)) 1%nat Hk Hq) as [p Hon];
    [vm_compute; reflexivity|done|]. eauto.
Qed.
Lemma child0_not_init : k_initproc child0 ≠ Some 1%nat.
Proof. assert (k_initproc child0 = Some O) as -> by (vm_compute; reflexivity). done. Qed.

#[local] Opaque booted0 running0 slot0 stack0 copy0 forked0 child0.

Lemma exit_exact_witness :
  ∃ st c p, kinv child0 st ∧ quiet (k_mach child0) ∧ on_cpu child0 st c 1 p ∧
    wp svc_panics exit (λ _ s', ∃ st', settled child0 s' st' ∧
      as_q st' LZombie = 1%nat :: as_q st LZombie) child0.
Proof.
  destruct child0_cpu as (st & c & p & Hk & Hq & Hon). exists st, c, p. split_and!; [done..|].
  pose proof (exit_exact child0 st c 1 p Hk Hq Hon child0_not_init) as Hx.
  eapply wp_mono; [exact Hx|]. intros [] s' (st' & b & Hs & _ & _ & _ & Hz & _). exists st'. exact (conj Hs Hz).
Defined.

(** C23. wait either reaps a zombie child, returning its pid and giving its slot
    back at the head of the free list; or, with no zombie child, returns -1 when
    the process has no child RUNNABLE, RUNNING or SLEEPING or has been killed;
    or puts the process to sleep on its own channel. *)
Theorem wait_exact {W} `{KSvcLaws W} (s : kstate W) st c i p :
  kinv s st → quiet (k_mach s) → on_cpu s st c i p →
  wp svc_panics wait (λ r s',
    (∃ j q, as_ps st !! j = Some q ∧ p_state q = ZOMBIE ∧ p_parent q = Some i ∧
       r = Some (s32 (p_pid q)) ∧ settled s s' (abs_reap j st)) ∨
    ((∀ j q, as_ps st !! j = Some q → p_parent q = Some i → p_state q ≠ ZOMBIE) ∧
     ((r = Some (-1) ∧ settled s s' st ∧
       (p_killed p ≠ 0 ∨ ∀ j q, as_ps st !! j = Some q → p_parent q = Some i →
          alive (p_state q) = false)) ∨
      (r = None ∧ p_killed p = 0 ∧ settled s s' (abs_sleep (k_ticks s) (c_intena (pushed c)) (ChProc i)
                          (Some "ptable") i p st))))) s.
Proof.
  intros Hk Hq Hon. pose proof (kinv_awf _ _ Hk) as Hw.
  eapply wp_mono; [exact (wait_keeps c i p st s Hk Hq Hon)|].
  intros r s' Hpost. unfold wait_post in Hpost.
  destruct (wait_find st i p) as [j q| |] eqn:Hfind.
  { left. destruct Hpost as (-> & Hz & Hs). apply wait_find_zombie in Hfind as (Hj & _ & Hpar).
    exists j, q. by split_and!. }
  all: right; unfold wait_find in Hfind;
    destruct (first_on _ _ _ [LZombie]) as [[k j]|] eqn:Hz;
    [apply first_on_Some in Hz as (_ & _ & q & Hq' & _); by rewrite Hq' in Hfind|].
  all: split; [intros j q Hj Hpar Hst;
    assert (j ∈ as_q st LZombie) as Hin by (apply (aw_mem _ Hw _ _ Hj); unfold list_of; by rewrite Hst);
    pose proof (first_on_None _ _ _ _ LZombie j q Hz ltac:(set_solver) Hin Hj) as Hc;
    by apply bool_decide_eq_false in Hc|].
  all: case_decide as Hcond; [|]; try done.
  - left. destruct Hpost as [-> Hs]. split_and!; [done|done|].
    destruct Hcond as [Hnone|Hkill]; [right|by left]. intros j q Hj Hpar.
    destruct (alive (p_state q)) eqn:Hal; [|done].
    assert (list_of q ∈ ready_lists ++ [LRunning; LSleep]) as Hin.
    { apply list_of_alive; [exact (aw_prio _ Hw _ _ Hj)|]. destruct (p_state q); naive_solver. }
    pose proof (first_on_None _ _ _ _ _ j q Hnone Hin) as Hc.
    rewrite (aw_mem _ Hw _ _ Hj) in Hc. specialize (Hc eq_refl Hj).
    by apply bool_decide_eq_false in Hc.
  - right. destruct Hpost as [-> Hs]. split_and!; [done| |done].
    destruct (decide (p_killed p = 0)); [done|]. destruct Hcond. by right.
Qed.
Lemma wait_exact_witness :
  ∃ st c p, kinv running0 st ∧ quiet (k_mach running0) ∧ on_cpu running0 st c O p ∧
    wp svc_panics wait (λ r s', ∃ st', settled running0 s' st') running0.
Proof.
  destruct running0_cpu as (st & c & p & Hk & Hq & Hon). exists st, c, p. split_and!; [done..|].
  pose proof (wait_exact running0 st c O p Hk Hq Hon) as Hx.
  eapply wp_mono; [exact Hx|].
  intros r s' [(j & q & _ & _ & _ & _ & Hs)|(_ & [(_ & Hs & _)|(_ & _ & Hs)])]; by eexists.
Defined.

(** The entry of the child that [i], whose entry is [p], forks with the stack [ks]
    and the page directory [d]. *)
Record child_entry {W} (s : kstate W) (i : nat) (p : proc) (ks d : Z) (ch : proc) : Prop := mkchild {
  ce_pid : p_pid ch = u32 (k_nextpid s);
  ce_state : p_state ch = RUNNABLE;
  ce_parent : p_parent ch = Some i;
  ce_queue : p_priority ch = 0 ∧ p_budget ch = BUDGET;
  ce_memory : p_kstack ch = ks ∧ p_pgdir ch = d ∧ p_sz ch = p_sz p;
  ce_files : p_ofile ch = p_ofile p ∧ p_cwd ch = p_cwd p;
  ce_owner : p_uid ch = p_uid p ∧ p_gid ch = p_gid p;
  ce_start : p_frame ch = set_eax 0 (p_frame p) ∧ p_saved ch = K_forkret;
  ce_name : cstr (p_name ch) = take 15 (cstr (p_name p))
}.
Lemma fork_child_entry {W} `{KSvcLaws W} (s : kstate W) init ps i p np q ks d nm :
  procs_ok ps init → ps !! i = Some p → ps !! np = Some q → p_state q = UNUSED →
  cstr nm = take 15 (cstr (p_name p)) →
  child_entry s i p ks d (set_p_state RUNNABLE (fork_child s i p q ks d nm)).
Proof.
  intros Hok Hp Hq Hst Hnm. pose proof (po_each _ _ Hok _ _ Hq) as Hqok. pose proof (po_each _ _ Hok _ _ Hp) as Hpok.
  split; try done. split; [|done].
  change (dup_ofile (seq 0 NOFILE) (p_ofile p) (p_ofile q) = p_ofile p).
  rewrite (ok_closed _ Hqok) by (by rewrite Hst). apply dup_all, Hpok.
Qed.

(** C24. fork returns -1 exactly when there is no free slot (then it changes
    nothing), or kalloc gives no stack or copyuvm no memory (then the queues and
    every used slot are as they were, the stack is given back, and a pid is used
    up).  Otherwise it returns the next pid, and in the first free slot there is a
    RUNNABLE child of the caller at the end of the top-priority queue with a full
    budget, on the stack and the page directory that kalloc and copyuvm gave, with
    the caller's size, owner and registers (but 0 in eax), the first 15 characters
    of its name, and its open files and directory, for each of which filedup and
    idup have been called once; the killed mark is what the slot had, and every
    other slot and queue is unchanged. *)
Theorem fork_exact {W} `{KSvcLaws W} (s : kstate W) st c i p :
  kinv s st → quiet (k_mach s) → on_cpu s st c i p →
  wp svc_panics fork (λ r s', ∃ st', settled s s' st' ∧
    match as_q st LFree with
    | [] => r = -1 ∧ st' = st ∧ k_world s' = k_world s ∧ k_nextpid s' = k_nextpid s
    | np :: l => ∃ q o, as_ps st !! np = Some q ∧ p_state q = UNUSED ∧
        fork_world p (k_world s) = Ok (o, k_world s') ∧ k_nextpid s' = s32 (k_nextpid s + 1) ∧
        match o with
        | None => r = -1 ∧ unborn_only st st'
        | Some (ks, d) => r = s32 (u32 (k_nextpid s)) ∧ ∃ ch,
            child_entry s i p ks d ch ∧ p_killed ch = p_killed q ∧ as_ps st' = <[np := ch]> (as_ps st) ∧
            as_q st' LFree = l ∧ as_q st' (LReady 0) = as_q st (LReady 0) ++ [np] ∧
            (∀ k, k ≠ LFree → k ≠ LReady 0 → as_q st' k = as_q st k)
        end
    end) s.
Proof.
  intros Hk Hq Hon. eapply wp_mono; [exact (fork_keeps c i p st s Hk Hq Hon)|].
  intros r s' Hpost. unfold fork_post in Hpost. destruct (as_q st LFree) as [|np l] eqn:Hfree.
  { destruct Hpost as (-> & Hs & Hw & Hn). by exists st. }
  destruct Hpost as (q & o & Hnp & Hst & Hworld & Hn & Hout). destruct o as [[ks d]|].
  2: { destruct Hout as (-> & st' & Hs & Hun). exists st'. split; [done|]. by exists q, None. }
  destruct Hout as (-> & Hd & nm & Hnm & Hnz & Hcs & Hs). eexists. split; [exact Hs|].
  exists q, (Some (ks, d)). do 5 (split; [done|]).
  exists (set_p_state RUNNABLE (fork_child s i p q ks d nm)).
  assert (np ∉ as_q st LEmbryo) as Hne.
  { rewrite (aw_mem _ (kinv_awf _ _ Hk) _ _ Hnp). unfold list_of. by rewrite Hst. }
  split_and!; [by eapply fork_child_entry; [apply (ki_ok _ _ Hk)|exact (oc_entry _ _ _ _ _ Hon)|exact Hnp|..]|done|done|..];
    unfold abs_ready, put_last, put_first, take_off; cbn [as_q]; change (p_priority (fork_child s i p q ks d nm)) with 0.
  - rewrite !fn_lookup_insert_ne by done. by rewrite fn_lookup_insert, Hfree, remove1_head.
  - rewrite fn_lookup_insert. by rewrite !fn_lookup_insert_ne by done.
  - intros k H1 H2. rewrite fn_lookup_insert_ne by congruence. destruct (decide (k = LEmbryo)) as [->|H3].
    + rewrite !fn_lookup_insert, remove1_head. by rewrite fn_lookup_insert_ne.
    + by rewrite !fn_lookup_insert_ne by congruence.
Qed.
Lemma forked0_Ok : fork running0 = Ok (2, forked0).
Proof. vm_compute. reflexivity. Qed.
Lemma running0_pid : k_nextpid running0 = 2.
Proof. vm_compute. reflexivity. Qed.
Lemma fork_exact_witness :
  ∃ st c p, kinv running0 st ∧ quiet (k_mach running0) ∧ on_cpu running0 st c O p ∧
    ∃ st' np ch ks d, settled running0 forked0 st' ∧ as_ps st' = <[np := ch]> (as_ps st) ∧
      child_entry running0 O p ks d ch.
Proof.
  destruct running0_cpu as (st & c & p & Hk & Hq & Hon). exists st, c, p. split_and!; [done..|].
  pose proof (wp_Ok_inv _ _ _ _ _ _ (fork_exact running0 st c O p Hk Hq Hon) forked0_Ok) as (st' & Hs & Hout).
  destruct (as_q st LFree) as [|np l]; [by destruct Hout as (Hr & _)|].
  destruct Hout as (q & [[ks d]|] & _ & _ & _ & _ & Hout); [|by destruct Hout as (Hr & _)].
  destruct Hout as (_ & ch & Hch & _ & Hps & _). by exists st', np, ch, ks, d.
Defined.

(** kill(pid) of a process that has that pid sets its killed flag, makes it
    RUNNABLE at the end of its queue when it sleeps, and returns 0; without such
    a slot it returns -1 and changes nothing. *)
Theorem kill_exact {W} `{KSvc W} (s : kstate W) st c pid :
  kinv s st → quiet (k_mach s) → m_cpus (k_mach s) !! m_gs (k_mach s) = Some c →
  wp no_panic (kill pid) (λ r s', ∃ st', settled s s' st' ∧
    ((r = -1 ∧ st' = st ∧ ∀ j q, as_ps st !! j = Some q → p_pid q ≠ u32 pid) ∨
     (r = 0 ∧ ∃ j q q', as_ps st !! j = Some q ∧ p_pid q = u32 pid ∧ as_ps st' = <[j := q']> (as_ps st) ∧
        p_killed q' = 1 ∧ p_state q' = (if decide (p_state q = SLEEPING) then RUNNABLE else p_state q)))) s.
Proof.
  intros Hk Hq Hc. pose proof (kinv_awf _ _ Hk) as Hw.
  eapply wp_mono; [exact (kill_keeps _ s st c pid Hk Hq Hc)|]. intros r s' [-> Hs].
  exists (abs_kill pid st).2. split; [done|]. clear Hs. unfold abs_kill.
  destruct (first_on _ _ _ [LSleep]) as [[k j]|] eqn:Hf.
  { right. split; [done|]. apply first_on_Some in Hf as (Hkk & Hj & q & Hqj & Hpid).
    apply list_elem_of_singleton in Hkk as ->. apply bool_decide_eq_true in Hpid.
    destruct (awf_in_state _ _ _ Hw Hj) as (q1 & Hq1 & Hst). simplify_eq.
    cbn [fst snd]. rewrite Hqj. eexists j, q, _. split_and!; [done|done|reflexivity|done|].
    cbn [p_state set_p_state] in *. by rewrite decide_True. }
  destruct (first_on _ _ _ (ready_lists ++ _)) as [[k j]|] eqn:Hf'.
  - right. split; [done|]. apply first_on_Some in Hf' as (Hkk & Hj & q & Hqj & Hpid).
    apply bool_decide_eq_true in Hpid. cbn [fst snd as_ps]. rewrite (list_alter_Some _ _ _ _ Hqj).
    eexists j, q, _. split_and!; [done|done|reflexivity|done|].
    rewrite decide_False; [done|]. intros Hst.
    assert (k = LSleep) as -> by (apply (aw_mem _ Hw _ _ Hqj) in Hj; unfold list_of in Hj; by rewrite Hst in Hj).
    unfold ready_lists in Hkk. set_solver.
  - left. split_and!; [done|done|]. intros j q Hj Hpid.
    assert (has_pid pid q = true) as Htrue by (by apply bool_decide_eq_true).
    assert (j ∈ as_q st (list_of q)) as Hin by (by apply (aw_mem _ Hw _ _ Hj)).
    destruct (list_of_cover q (aw_prio _ Hw _ _ Hj)) as [Hl|Hl].
    + rewrite Hl in Hin.
      by rewrite (first_on_None _ _ _ _ LSleep j q Hf ltac:(set_solver) Hin Hj) in Htrue.
    + by rewrite (first_on_None _ _ _ _ _ j q Hf' Hl Hin Hj) in Htrue.
Qed.
Lemma kill_exact_witness :
  ∃ st c, kinv running0 st ∧ quiet (k_mach running0) ∧
    wp no_panic (kill 1) (λ r s', ∃ st', settled running0 s' st') running0 ∧ c_ncli c = 0.
Proof.
  destruct running0_cpu as (st & c & p & Hk & Hq & Hon). exists st, c.
  split_and!; [done..| |apply Hon].
  pose proof (kill_exact running0 st c 1 Hk Hq (proj1 (oc_cpu _ _ _ _ _ Hon))) as Hx.
  eapply wp_mono; [exact Hx|]. intros r s' (st' & Hs & _). by exists st'.
Defined.

Lemma first_match_absent ps test l :
  (∀ j q, j ∈ l → ps !! j = Some q → test q = false) → first_match ps test l = None.
Proof.
  induction l as [|j l IH]; intros Hl; cbn [first_match]; [done|].
  destruct (ps !! j) as [q|] eqn:Hq; [rewrite (Hl j q) by (done || set_solver)|]; apply IH; set_solver.
Qed.
(** No process has pid 0: kill(0) finds the head of the free list. *)
Lemma abs_kill_zero st np l q :
  awf st → as_q st LFree = np :: l → as_ps st !! np = Some q → p_pid q = 0 →
  (∀ j q, as_ps st !! j = Some q → p_pid q = 0 → p_state q = UNUSED) →
  abs_kill 0 st = (0, mka (alter (set_p_killed 1) np (as_ps st)) (as_q st)).
Proof.
  intros Hw Hfree Hq Hpid Hun.
  assert (∀ k, k ≠ LFree → first_match (as_ps st) (has_pid 0) (as_q st k) = None) as Hnone.
  { intros k Hk. apply first_match_absent. intros j r Hj Hr. apply bool_decide_eq_false. intros H0.
    apply (aw_mem _ Hw _ _ Hr) in Hj. destruct Hk. subst k. unfold list_of. by rewrite (Hun _ _ Hr H0). }
  unfold abs_kill, ready_lists. cbn [first_on app]. rewrite !Hnone by done. rewrite Hfree. cbn [first_match].
  rewrite Hq. unfold has_pid. by rewrite bool_decide_true by (rewrite Hpid; done).
Qed.

(** C25. kill does not ignore free slots: in any state in which no process has
    pid 0 and the first free slot has (as after boot, and after every wait),
    kill(0) returns 0 and marks that slot as killed; allocproc never clears the
    mark, so when the next fork finds its memory the child it makes is born
    killed. *)
Theorem kill_zero_kills_next_child {W} `{KSvcLaws W} (s : kstate W) st c i p np l q :
  kinv s st → quiet (k_mach s) → on_cpu s st c i p →
  (∀ j q, as_ps st !! j = Some q → p_pid q = 0 → p_state q = UNUSED) →
  as_q st LFree = np :: l → as_ps st !! np = Some q → p_pid q = 0 →
  wp svc_panics (let! r := kill 0 in let! r' := fork in ret (r, r')) (λ rr s',
    ∃ st' o, settled s s' st' ∧ fork_world p (k_world s) = Ok (o, k_world s') ∧
    match o with
    | None => rr = (0, -1)
    | Some (ks, d) => rr = (0, s32 (u32 (k_nextpid s))) ∧ ∃ ch,
        as_ps st' !! np = Some ch ∧ child_entry s i p ks d ch ∧ p_killed ch = 1
    end) s.
Proof.
  intros Hk Hq Hon Hun Hfree Hnp Hpid. pose proof Hon as [Hlf Hn Hi Hp Hst]. pose proof Hlf as [Hc _].
  assert (i ≠ np) as Hne by (intros ->; rewrite Hnp in Hp; injection Hp as ->; by rewrite (Hun _ _ Hnp Hpid) in Hst).
  pose proof (kinv_awf _ _ Hk) as Hw. pose proof (Hun _ _ Hnp Hpid) as Hunp.
  apply wp_bind. eapply wp_mono; [eapply wp_kill; [apply Hk|exact Hlf|lia]|].
  rewrite (abs_kill_zero st np l q) by done. cbn [fst snd]. intros r s1 [-> Hu].
  assert (settled s s1 (mka (alter (set_p_killed 1) np (as_ps st)) (as_q st))) as Hset.
  { eapply settled_again; [done|done|exact Hc|exact Hu| |done].
    pose proof (abs_kill_ok _ _ (ki_ok _ _ Hk) 0 Hw) as Hok. by rewrite (abs_kill_zero st np l q) in Hok. }
  pose proof Hset as (Hk1 & Hq1 & Hsil). destruct Hu as (t1 & m1 & -> & _ & Hf1 & _).
  set (s1 := set_k_ptable t1 _) in *. set (st1 := mka _ _) in *. pose proof Hf1 as [Hc1 _].
  assert (as_ps st1 !! i = Some p) as Hp1 by (unfold st1; cbn [as_ps]; by rewrite list_lookup_alter_ne).
  assert (as_ps st1 !! np = Some (set_p_killed 1 q)) as Hnp1 by (unfold st1; cbn [as_ps]; by rewrite list_lookup_alter_eq, Hnp).
  assert (on_cpu s1 st1 (popped (pushed c)) i p) as Hon1 by (split; [done|simpl; lia|done..]).
  apply wp_bind. eapply wp_mono; [exact (fork_keeps _ i p st1 s1 Hk1 Hq1 Hon1)|].
  intros r s' Hpost. apply wp_ret. unfold fork_post in Hpost.
  change (as_q st1 LFree) with (as_q st LFree) in Hpost. rewrite Hfree in Hpost.
  destruct Hpost as (q1 & o & Hq2 & _ & Hworld & _ & Hout). simplify_eq.
  assert (∀ st', settled s1 s' st' → settled s s' st') as Htr.
  { intros st' (? & ? & [? ?]). destruct Hsil as [? ?]. split_and!; [done|done|split; congruence]. }
  destruct o as [[ks d]|].
  - destruct Hout as (-> & _ & nm & _ & _ & Hcs & Hs). eexists _, _. split; [by apply Htr|].
    split; [exact Hworld|]. split; [done|]. eexists. split.
    { apply list_lookup_insert_eq. by eapply lookup_lt_Some. }
    split; [|done]. destruct (fork_child_entry s1 _ _ i p np (set_p_killed 1 q) ks d nm (ki_ok _ _ Hk1) Hp1 Hnp1 Hunp Hcs).
    by split.
  - destruct Hout as (-> & st' & Hs & _). exists st', None. split_and!; [by apply Htr|done|done].
Qed.
Lemma slot1_free : get_head LFree (pt_pLists (k_ptable running0)) = Some (Some 1%nat).
Proof. vm_compute. reflexivity. Qed.
Lemma slot1_pid : p_pid <$> pt_proc (k_ptable running0) !! 1%nat = Some 0.
Proof. vm_compute. reflexivity. Qed.
Lemma pids_unused : Forall (λ p, p_pid p = 0 → p_state p = UNUSED) (pt_proc (k_ptable running0)).
Proof. apply (bool_decide_unpack _). vm_compute. exact I. Qed.
Definition killed0 : kstate positive := after (let! r := kill 0 in let! r' := fork in ret (r, r')) running0.
Lemma killed0_Ok : (let! r := kill 0 in let! r' := fork in ret (r, r')) running0 = Ok ((0, 2), killed0).
Proof. vm_compute. reflexivity. Qed.
#[local] Opaque killed0.
Lemma kill_zero_kills_next_child_witness :
  ∃ st p np ch ks d, settled running0 killed0 st ∧ as_ps st !! np = Some ch ∧ child_entry running0 O p ks d ch ∧
    p_killed ch = 1.
Proof.
  destruct running0_cpu as (st & c & p & Hk & Hq & Hon). pose proof (ki_rep _ _ Hk) as Hrep.
  pose proof (tbl_head _ _ _ _ _ _ _ Hrep slot1_free) as Hhead.
  destruct (as_q st LFree) as [|np l] eqn:Hfree; [done|]. injection Hhead as <-.
  assert (∀ j q, as_ps st !! j = Some q → p_pid q = 0 → p_state q = UNUSED) as Hun.
  { intros j q Hj. destruct (tbl_lookup _ _ _ _ _ _ _ Hrep Hj) as [nx Hnx].
    exact (Forall_lookup_1 _ _ _ _ pids_unused Hnx). }
  destruct (tbl_in _ _ _ _ _ 1%nat LFree Hrep) as (q & Hq1 & _); [rewrite Hfree; set_solver|].
  assert (p_pid q = 0) as Hpid.
  { destruct (tbl_lookup _ _ _ _ _ _ _ Hrep Hq1) as [nx Hnx]. pose proof slot1_pid as Hp. rewrite Hnx in Hp.
    by injection Hp. }
  pose proof (wp_Ok_inv _ _ _ _ _ _ (kill_zero_kills_next_child running0 st c O p 1 l q Hk Hq Hon Hun Hfree Hq1 Hpid)
    killed0_Ok) as (st' & [[ks d]|] & Hs & _ & Hout); [|done].
  destruct Hout as (_ & ch & Hch & Hce & Hkl). by exists st', p, 1%nat, ch, ks, d.
Defined.

(** setpriority(pid, prio) with a valid priority gives the RUNNABLE, RUNNING
    or SLEEPING process that has that pid the new priority and a full budget,
    moves a RUNNABLE one to the end of the queue of the new priority, and
    returns 0; it returns -1, changing nothing, when there is no such process. *)
Theorem setpriority_exact {W} `{KSvc W} (s : kstate W) st c pid prio :
  kinv s st → quiet (k_mach s) → m_cpus (k_mach s) !! m_gs (k_mach s) = Some c → 0 ≤ prio ≤ MAX →
  wp no_panic (setpriority pid prio) (λ r s', ∃ st', settled s s' st' ∧
    ((r = -1 ∧ st' = st ∧
      ∀ j q, as_ps st !! j = Some q → alive (p_state q) = true → p_pid q ≠ u32 pid) ∨
     (r = 0 ∧ ∃ j q, as_ps st !! j = Some q ∧ p_pid q = u32 pid ∧ alive (p_state q) = true ∧
        as_ps st' = <[j := set_p_budget BUDGET (set_p_priority prio q)]> (as_ps st) ∧
        (p_state q = RUNNABLE → ∃ l, as_q st' (LReady prio) = l ++ [j])))) s.
Proof.
  intros Hk Hq Hc Hprio. pose proof (kinv_awf _ _ Hk) as Hw.
  assert (u32 prio = prio) as Hu by (apply u32_small; unfold MAX in Hprio; lia).
  eapply wp_mono; [exact (setpriority_keeps _ s st c pid prio Hk Hq Hc Hprio)|]. intros r s' [-> Hs].
  exists (abs_setpriority pid prio st).2. split; [done|]. clear Hs. unfold abs_setpriority.
  destruct (first_on _ _ _ ready_lists) as [[k j]|] eqn:Hf.
  { right. split; [done|]. apply first_on_Some in Hf as (Hkk & Hj & q & Hqj & Hpid).
    apply bool_decide_eq_true in Hpid. cbn [fst snd as_ps as_q].
    rewrite (list_alter_Some _ _ _ _ Hqj). unfold reprioritise. rewrite Hu.
    apply (aw_mem _ Hw _ _ Hqj) in Hj. exists j, q. split_and!; [done|done| |done|].
    - unfold ready_lists, list_of in *. subst k. destruct (p_state q); set_solver.
    - intros _. unfold put_last. rewrite fn_lookup_insert. by eexists. }
  destruct (first_on _ _ _ [LRunning; LSleep]) as [[k j]|] eqn:Hf'.
  - right. split; [done|]. apply first_on_Some in Hf' as (Hkk & Hj & q & Hqj & Hpid).
    apply bool_decide_eq_true in Hpid. cbn [fst snd as_ps as_q].
    rewrite (list_alter_Some _ _ _ _ Hqj). unfold reprioritise. rewrite Hu.
    apply (aw_mem _ Hw _ _ Hqj) in Hj. exists j, q.
    assert (p_state q = RUNNING ∨ p_state q = SLEEPING) as Hst.
    { unfold list_of in Hj. subst k. destruct (p_state q); set_solver. }
    split_and!; [done|done| |done|]; destruct Hst as [->| ->]; done.
  - left. split_and!; [done|done|]. intros j q Hj Hal Hpid.
    assert (has_pid pid q = true) as Htrue by (by apply bool_decide_eq_true).
    assert (j ∈ as_q st (list_of q)) as Hin by (by apply (aw_mem _ Hw _ _ Hj)).
    assert (list_of q ∈ ready_lists ++ [LRunning; LSleep]) as Hl.
    { apply list_of_alive; [exact (aw_prio _ Hw _ _ Hj)|]. destruct (p_state q); naive_solver. }
    apply elem_of_app in Hl as [Hl|Hl].
    + by rewrite (first_on_None _ _ _ _ _ j q Hf Hl Hin Hj) in Htrue.
    + by rewrite (first_on_None _ _ _ _ _ j q Hf' Hl Hin Hj) in Htrue.
Qed.
Lemma setpriority_exact_witness :
  ∃ st c, kinv running0 st ∧ quiet (k_mach running0) ∧ c_ncli c = 0 ∧
    wp no_panic (setpriority 1 2) (λ r s', ∃ st', settled running0 s' st') running0.
Proof.
  destruct running0_cpu as (st & c & p & Hk & Hq & Hon). exists st, c.
  split_and!; [done..|apply Hon|].
  pose proof (setpriority_exact running0 st c 1 2 Hk Hq (proj1 (oc_cpu _ _ _ _ _ Hon))
                ltac:(unfold MAX; lia)) as Hx.
  eapply wp_mono; [exact Hx|]. intros r s' (st' & Hs & _). by exists st'.
Defined.
