(* ===== verification/ProcOrig.v ===== *)
(** * The table-scanning variants of proc.c, and getprocs

    Without BAGIAN_INODE, proc.c finds processes by scanning [ptable.proc].  These
    functions are the reference for the list-based ones: on the entries of the
    table both have the same effect.  getprocs and elapsed_time, which scan the
    table in every build, are here too. *)

From S2P Require Import Prelude Spinlock CString ProcData ProcList Proc ProcWp ProcSpec ProcRefine ProcInv ProcOps ProcThm.
Local Open Scope Z_scope.

Module Orig.
Section orig.
Context {W : Type} `{KSvc W}.
Abbreviation K := (M (kstate W)).

(** [for(p = ptable.proc; p < &ptable.proc[NPROC]; p++) body] *)
Definition scan (body : nat → K unit) : K unit := mfor (seq 0 NPROC) body.

(** The first entry from index [i] that passes the test. *)
Fixpoint find_entry (n i : nat) (test : proc → bool) : M ptable (option nat) :=
  match n with
  | O => ret None
  | S n' =>
      let! p := get_proc i in
      if test p then ret (Some i) else find_entry n' (S i) test
  end.

Definition allocproc : K (option nat) :=
  mch (acquire "ptable") ;;;
  let! o := pt (find_entry NPROC 0 (λ p, bool_decide (p_state p = UNUSED))) in
  match o with
  | None => mch (release "ptable") ;;; ret None
  | Some i =>
      pt (upd_proc i (set_p_state EMBRYO)) ;;;
      let! n := gets k_nextpid in
      pt (upd_proc i (set_p_pid (u32 n))) ;;;
      modS (set_k_nextpid (s32 (n + 1))) ;;;
      mch (release "ptable") ;;;
      let! k := svc svc_kalloc in
      match k with
      | None =>
          pt (upd_proc i (set_p_kstack 0)) ;;;
          pt (upd_proc i (set_p_state UNUSED)) ;;;
          ret None
      | Some ks =>
          pt (upd_proc i (set_p_kstack ks)) ;;;
          let! now := gets k_ticks in
          pt (upd_proc i (λ p,
            let sp := ks + KSTACKSIZE - SIZEOF_TRAPFRAME in
            let p := set_p_tf (u32 sp) p in
            let sp := sp - 4 - SIZEOF_CONTEXT in
            let p := set_p_saved K_forkret (set_p_context (u32 sp) p) in
            set_p_cpu_ticks_in 0 (set_p_cpu_ticks_total 0 (set_p_start_ticks now p)))) ;;;
          ret (Some i)
      end
  end.

Definition userinit : K unit :=
  let! p := allocproc in
  modS (set_k_initproc p) ;;;
  let! d := svc svc_setupkvm in
  match p with
  | None => fault
  | Some i =>
      match d with
      | None => pt (upd_proc i (set_p_pgdir 0)) ;;; panic "userinit: out of memory?"
      | Some d =>
          pt (upd_proc i (set_p_pgdir d)) ;;;
          svc (svc_inituvm d) ;;;
          pt (upd_proc i (set_p_sz PGSIZE)) ;;;
          pt (upd_proc i (set_p_frame user_frame)) ;;;
          pt (upd_proc i (set_p_uid UID)) ;;;
          pt (upd_proc i (set_p_gid GID)) ;;;
          pt (upd_proc i (set_p_parent p)) ;;;
          copy_name i initcode_name ;;;
          let! root := svc svc_namei_root in
          pt (upd_proc i (set_p_cwd root)) ;;;
          pt (upd_proc i (set_p_state RUNNABLE))
      end
  end.

Definition fork : K Z :=
  let! o := allocproc in
  match o with
  | None => ret (-1)
  | Some np =>
      let! i := deref_cur in
      let! p := pt (get_proc i) in
      let! d := svc (svc_copyuvm (p_pgdir p) (p_sz p)) in
      match d with
      | None =>
          pt (upd_proc np (set_p_pgdir 0)) ;;;
          let! q := pt (get_proc np) in
          svc (svc_kfree (p_kstack q)) ;;;
          pt (upd_proc np (set_p_kstack 0)) ;;;
          pt (upd_proc np (set_p_state UNUSED)) ;;;
          ret (-1)
      | Some d =>
          fork_fill i p d np ;;;
          let! q := pt (get_proc np) in
          mch (acquire "ptable") ;;;
          pt (upd_proc np (set_p_state RUNNABLE)) ;;;
          mch (release "ptable") ;;;
          ret (s32 (p_pid q))
      end
  end.

Definition wakeup1 (ch : chan) : K unit :=
  scan (λ i,
    let! p := pt (get_proc i) in
    if decide (p_state p = SLEEPING ∧ p_chan p = ch)
    then pt (upd_proc i (set_p_state RUNNABLE)) else skip).

(** The loop of exit over the children of [cur]. *)
Definition pass_children (cur : nat) (init : option nat) : K unit :=
  scan (λ i,
    let! p := pt (get_proc i) in
    if decide (p_parent p = Some cur) then
      pt (upd_proc i (set_p_parent init)) ;;;
      if decide (p_state p = ZOMBIE) then wakeup1 (chan_of_proc init) else skip
    else skip).

Definition exit : K unit :=
  exit_files ;;;
  mch (acquire "ptable") ;;;
  let! i := deref_cur in
  let! init := gets k_initproc in
  let! p := pt (get_proc i) in
  wakeup1 (chan_of_proc (p_parent p)) ;;;
  pass_children i init ;;;
  pt (upd_proc i (set_p_state ZOMBIE)) ;;;
  sched (λ _, K_exit).

(** One turn of the loop of wait: the value returned, or [None] on sleep. *)
Definition wait_iter : K (option Z) :=
  let! i := deref_cur in
  let! z := pt (find_entry NPROC 0 (λ p, child_of i p && bool_decide (p_state p = ZOMBIE))) in
  match z with
  | Some j =>
      let! p := pt (get_proc j) in
      svc (svc_kfree (p_kstack p)) ;;;
      pt (upd_proc j (set_p_kstack 0)) ;;;
      svc (svc_freevm (p_pgdir p)) ;;;
      pt (upd_proc j (set_p_state UNUSED)) ;;;
      pt (upd_proc j (set_p_pid 0)) ;;;
      pt (upd_proc j (set_p_parent None)) ;;;
      pt (upd_proc j (λ p, set_p_name (<[O := 0]> (p_name p)) p)) ;;;
      pt (upd_proc j (set_p_killed 0)) ;;;
      mch (release "ptable") ;;;
      ret (Some (s32 (p_pid p)))
  | None =>
      let! kid := pt (find_entry NPROC 0 (child_of i)) in
      let! p := pt (get_proc i) in
      if decide (kid = None ∨ p_killed p ≠ 0) then
        mch (release "ptable") ;;; ret (Some (-1))
      else Proc.sleep (ChProc i) (Some "ptable") ;;; ret None
  end.
Definition wait : K (option Z) := mch (acquire "ptable") ;;; wait_iter.

(** scheduler, up to the switch to the next RUNNABLE process from index [i]. *)
Definition scheduler_from (i : nat) : K (option nat) :=
  let! o := pt (find_entry (NPROC - i) i (λ p, bool_decide (p_state p = RUNNABLE))) in
  match o with
  | Some j =>
      set_curproc (Some j) ;;;
      switchuvm j ;;;
      pt (upd_proc j (set_p_state RUNNING)) ;;;
      let! now := gets k_ticks in
      pt (upd_proc j (set_p_cpu_ticks_in now)) ;;;
      ret (Some j)
  | None => ret None
  end.

Definition kill (pid : Z) : K Z :=
  mch (acquire "ptable") ;;;
  let! o := pt (find_entry NPROC 0 (has_pid pid)) in
  match o with
  | Some i =>
      pt (upd_proc i (set_p_killed 1)) ;;;
      let! p := pt (get_proc i) in
      (if decide (p_state p = SLEEPING) then pt (upd_proc i (set_p_state RUNNABLE)) else skip) ;;;
      mch (release "ptable") ;;;
      ret 0
  | None => mch (release "ptable") ;;; ret (-1)
  end.
End orig.
End Orig.

(** ** getprocs and elapsed_time *)
Definition STRMAX : Z := 32.
Record uproc := mkuproc {
  u_pid : Z; u_uid : Z; u_gid : Z; u_ppid : Z; u_elapsed_ticks : Z; u_CPU_total_ticks : Z;
  u_state : list Z; u_size : Z; u_name : list Z; u_priority : Z
}.
(** The strings of [states], with their terminators. *)
Definition state_name (st : procstate) : list Z :=
  match st with
  | UNUSED => [117; 110; 117; 115; 101; 100; 0]     (* "unused" *)
  | EMBRYO => [101; 109; 98; 114; 121; 111; 0]      (* "embryo" *)
  | SLEEPING => [115; 108; 101; 101; 112; 32; 0]    (* "sleep " *)
  | RUNNABLE => [114; 117; 110; 98; 108; 101; 0]    (* "runble" *)
  | RUNNING => [114; 117; 110; 32; 32; 32; 0]       (* "run   " *)
  | ZOMBIE => [122; 111; 109; 98; 105; 101; 0]      (* "zombie" *)
  end.

Section getprocs.
Context {W : Type} `{KSvc W}.

(** One row of the caller's table, which has the row [u] before. *)
Definition uproc_row (now : Z) (p : proc) (ppid : Z) (u : uproc) : option uproc :=
  match safestrcpy (u_state u) (state_name (p_state p)) STRMAX,
        safestrcpy (u_name u) (p_name p) STRMAX with
  | Some st, Some nm =>
      Some (mkuproc (p_pid p) (p_uid p) (p_gid p) ppid (u32 (now - p_start_ticks p))
              (p_cpu_ticks_total p) st (p_sz p) nm (p_priority p))
  | _, _ => None
  end.

(** The loop from entry [i] of [ptable.proc], [n] entries left, [k] rows written. *)
Fixpoint getprocs_loop (n i : nat) (max : Z) (k : nat) (table : list uproc)
    : M (kstate W) (nat * list uproc) :=
  match n with
  | O => ret (k, table)
  | S n' =>
      if decide (max ≤ Z.of_nat k) then ret (k, table) else
      let! p := pt (get_proc i) in
      match p_state p with
      | RUNNABLE | RUNNING | SLEEPING =>
          let! ppid :=
            (if decide (p_pid p = 1) then ret 1 else
             match p_parent p with
             | None => fault
             | Some j => let! q := pt (get_proc j) in ret (p_pid q)
             end) in
          let! now := gets k_ticks in
          match table !! k with
          | None => fault
          | Some u =>
              match uproc_row now p ppid u with
              | None => fault
              | Some u' => getprocs_loop n' (S i) max (S k) (<[k := u']> table)
              end
          end
      | _ => getprocs_loop n' (S i) max k table
      end
  end.
Definition getprocs (max : Z) (table : list uproc) : M (kstate W) (nat * list uproc) :=
  mch (acquire "ptable") ;;;
  let! r := getprocs_loop NPROC 0 (u32 max) 0 table in
  mch (release "ptable") ;;;
  ret r.
End getprocs.

(** The digits that elapsed_time prints for [t] ticks of a millisecond:
    seconds, tenths, hundredths and thousandths. *)
Definition elapsed_time (p_ticks : Z) : Z * Z * Z * Z :=
  let elapsed := u32 p_ticks in
  let whole_sec := elapsed / 1000 in
  let elapsed := elapsed mod 1000 in
  let milisec_ten := elapsed / 100 in
  let elapsed := elapsed mod 100 in
  let milisec_hund := elapsed / 10 in
  let milisec_thou := elapsed mod 10 in
  (whole_sec, milisec_ten, milisec_hund, milisec_thou).

(** ** What the scans do to the entries *)
Section orig_rules.
Context {W : Type} `{KSvc W} (E : string → Prop).
Implicit Types (s : kstate W).

Definition set_entries (ps : list proc) (s : kstate W) : kstate W :=
  set_k_ptable (set_pt_proc ps (k_ptable s)) s.

Lemma set_entries_id s : set_entries (pt_proc (k_ptable s)) s = s.
Proof. by destruct s as [? [? ? ?]]. Qed.

Lemma entries_of_set ps s : pt_proc (k_ptable (set_entries ps s)) = ps.
Proof. done. Qed.

(** A scan whose body changes the entries by [f]. *)
Lemma wp_scan (f : list proc → nat → list proc) (body : nat → M (kstate W) unit) s Q :
  (∀ ps i, length (f ps i) = length ps) →
  (∀ ps i, length ps = NPROC → (i < length ps)%nat → wp E (body i) (λ _ s', s' = set_entries (f ps i) s) (set_entries ps s)) →
  length (pt_proc (k_ptable s)) = NPROC →
  Q tt (set_entries (foldl f (pt_proc (k_ptable s)) (seq 0 NPROC)) s) →
  wp E (Orig.scan body) Q s.
Proof.
  intros Hlen Hbody Hn HQ. unfold Orig.scan. eapply wp_mono.
  - eapply (wp_mfor E _ _ (λ rest s', ∃ ps, s' = set_entries ps s ∧ length ps = NPROC ∧
      (∀ i, i ∈ rest → i < NPROC)%nat ∧
      foldl f ps rest = foldl f (pt_proc (k_ptable s)) (seq 0 NPROC))).
    + exists (pt_proc (k_ptable s)). rewrite set_entries_id. split_and!; [done|done| |done].
      intros i Hi%elem_of_seq. lia.
    + intros i rest s1 (ps & -> & Hl & Hi & Hf). eapply wp_mono.
      * apply Hbody; [done|]. rewrite Hl. apply Hi. set_solver.
      * intros [] s2 ->. exists (f ps i). rewrite Hlen. split_and!; [done|done|set_solver|done].
  - intros [] s' (ps & -> & _ & _ & Hf). simpl in Hf. by subst ps.
Qed.

Lemma wp_entry_get ps s i p Q :
  ps !! i = Some p → Q p (set_entries ps s) → wp E (pt (get_proc i)) Q (set_entries ps s).
Proof. intros Hp HQ. by eapply wp_pt_get. Qed.
Lemma wp_entry_upd ps s i p f Q :
  ps !! i = Some p → Q tt (set_entries (<[i := f p]> ps) s) →
  wp E (pt (upd_proc i f)) Q (set_entries ps s).
Proof. intros Hp HQ. by eapply wp_pt_upd. Qed.

Lemma foldl_alter_all (f : proc → proc) (ps : list proc) :
  length ps = NPROC → foldl (λ ps i, alter f i ps) ps (seq 0 NPROC) = f <$> ps.
Proof.
  intros Hl. apply list_eq. intros j.
  rewrite foldl_alter_lookup, list_lookup_fmap by apply NoDup_seq.
  case_decide as Hj; [done|]. rewrite elem_of_seq in Hj.
  by rewrite lookup_ge_None_2 by lia.
Qed.

Lemma wp_orig_wakeup1 ch s Q :
  length (pt_proc (k_ptable s)) = NPROC →
  Q tt (set_entries (wake ch <$> pt_proc (k_ptable s)) s) → wp E (Orig.wakeup1 ch) Q s.
Proof.
  intros Hn HQ. unfold Orig.wakeup1.
  eapply (wp_scan (λ ps i, alter (wake ch) i ps)); [|intros ps i _ Hi|done|].
  - intros ps i. apply length_alter.
  - destruct (lookup_lt_is_Some_2 ps i Hi) as [p Hp]. rewrite (list_alter_Some _ _ _ _ Hp).
    apply wp_bind. eapply wp_entry_get; [done|]. unfold wake, wake_if.
    case_decide as Hc.
    + rewrite decide_True, decide_True by tauto. eapply wp_entry_upd; [done|done].
    + apply wp_skip. f_equal. symmetry.
      destruct (decide (p_state p = SLEEPING)), (decide (p_chan p = ch)); try tauto;
        by apply list_insert_id.
  - by rewrite foldl_alter_all.
Qed.

(** One entry examined by the loop of exit. *)
Definition orig_child (cur : nat) (init : option nat) (ps : list proc) (i : nat) : list proc :=
  match ps !! i with
  | Some p =>
      if decide (p_parent p = Some cur) then
        wake_when (bool_decide (p_state p = ZOMBIE)) (chan_of_proc init) <$>
          alter (adopt cur init) i ps
      else ps
  | None => ps
  end.

Lemma wp_orig_pass_children cur init s Q :
  length (pt_proc (k_ptable s)) = NPROC →
  Q tt (set_entries (foldl (orig_child cur init) (pt_proc (k_ptable s)) (seq 0 NPROC)) s) →
  wp E (Orig.pass_children cur init) Q s.
Proof.
  intros Hn HQ. unfold Orig.pass_children.
  assert (∀ ps i, length (orig_child cur init ps i) = length ps) as Hlen.
  { intros ps i. unfold orig_child. destruct (ps !! i); [|done]. case_decide; [|done].
    by rewrite length_fmap, length_alter. }
  eapply (wp_scan (orig_child cur init)); [done| |done|done]. intros ps i Hl Hi.
  destruct (lookup_lt_is_Some_2 ps i Hi) as [p Hp]. unfold orig_child. rewrite Hp.
  apply wp_bind. eapply wp_entry_get; [done|]. case_decide as Hpar; [|by apply wp_skip].
  apply wp_bind. eapply wp_entry_upd; [done|].
  rewrite (list_alter_Some _ _ _ _ Hp). unfold adopt at 1.
  rewrite (decide_True (P := p_parent p = Some cur)) by done.
  destruct (decide (p_state p = ZOMBIE)) as [Hz|Hz].
  - rewrite bool_decide_true by done.
    eapply wp_orig_wakeup1; [simpl; by rewrite length_insert|done].
  - rewrite bool_decide_false by done. apply wp_skip. f_equal. symmetry. apply list_fmap_id.
Qed.

Definition zombie_child (cur : nat) (p : proc) : bool :=
  bool_decide (p_parent p = Some cur) && bool_decide (p_state p = ZOMBIE).
Definition has_zombie_child (ps : list proc) (cur : nat) (l : list nat) : bool :=
  existsb (λ i, match ps !! i with Some p => zombie_child cur p | None => false end) l.

Lemma wake_when_same b ch p :
  p_parent (wake_when b ch p) = p_parent p ∧
  (p_state (wake_when b ch p) = ZOMBIE ↔ p_state p = ZOMBIE).
Proof.
  destruct b; simpl; [|done]. split; [apply wake_fields|].
  destruct (wake_state ch p) as [->|[-> ->]]; done.
Qed.

Lemma orig_child_step cur init ps i l :
  i ∉ l → has_zombie_child (orig_child cur init ps i) cur l = has_zombie_child ps cur l.
Proof.
  intros Hi. unfold has_zombie_child. induction l as [|j l IH]; [done|]. simpl.
  rewrite IH by set_solver. f_equal. unfold orig_child.
  destruct (ps !! i) as [p|] eqn:Hp; [|done]. case_decide; [|done].
  rewrite list_lookup_fmap, list_lookup_alter_ne by set_solver.
  destruct (ps !! j) as [q|]; [|done]. simpl. unfold zombie_child.
  destruct (wake_when_same (bool_decide (p_state p = ZOMBIE)) (chan_of_proc init) q) as [-> Hz].
  f_equal. by apply bool_decide_ext.
Qed.

Lemma orig_fold cur init l ps j :
  NoDup l →
  foldl (orig_child cur init) ps l !! j =
    wake_when (has_zombie_child ps cur l) (chan_of_proc init) <$>
      (if decide (j ∈ l) then adopt cur init <$> ps !! j else ps !! j).
Proof.
  intros Hnd. revert ps. induction Hnd as [|i l Hi Hl IH]; intros ps; cbn [foldl].
  { rewrite decide_False by set_solver. simpl. by rewrite option_fmap_id. }
  rewrite IH, orig_child_step by done.
  change (has_zombie_child ps cur (i :: l)) with
    (match ps !! i with Some p => zombie_child cur p | None => false end || has_zombie_child ps cur l).
  generalize (has_zombie_child ps cur l) as b'. intros b'.
  assert (∀ b p, wake_when b' (chan_of_proc init) (wake_when b (chan_of_proc init) p) =
                 wake_when (b || b') (chan_of_proc init) p) as Hww.
  { intros b p. destruct b, b'; simpl; try done. apply wake_idemp. }
  assert (∀ b p, adopt cur init (wake_when b (chan_of_proc init) p) =
                 wake_when b (chan_of_proc init) (adopt cur init p)) as Hcomm.
  { intros b p. destruct b; simpl; [apply adopt_wake|done]. }
  unfold orig_child. destruct (ps !! i) as [p|] eqn:Hp.
  - clear IH. unfold zombie_child. destruct (decide (p_parent p = Some cur)) as [Hpar|Hpar].
    + rewrite (bool_decide_true (p_parent p = Some cur)) by done. rewrite list_lookup_fmap. simpl andb.
      destruct (decide (i = j)) as [->|Hne].
      * rewrite list_lookup_alter_eq, Hp, (decide_False (P := j ∈ l)) by done.
        rewrite (decide_True (P := j ∈ j :: l)) by set_solver. simpl. by rewrite Hww.
      * rewrite list_lookup_alter_ne by done. destruct (ps !! j) as [q|]; simpl.
        -- destruct (decide (j ∈ l)); [rewrite decide_True by set_solver|rewrite decide_False by set_solver];
             simpl; by rewrite ?Hcomm, Hww.
        -- by repeat case_decide.
    + rewrite (bool_decide_false (p_parent p = Some cur)) by done. simpl orb.
      destruct (decide (i = j)) as [->|Hne].
      * rewrite (decide_False (P := j ∈ l)) by done.
        rewrite (decide_True (P := j ∈ j :: l)) by set_solver. rewrite Hp. simpl.
        unfold adopt. by rewrite decide_False.
      * destruct (decide (j ∈ l)); [rewrite decide_True by set_solver|rewrite decide_False by set_solver];
          done.
  - simpl orb. destruct (decide (i = j)) as [->|Hne]; [by rewrite Hp; repeat case_decide|].
    destruct (decide (j ∈ l)); [rewrite decide_True by set_solver|rewrite decide_False by set_solver]; done.
Qed.
End orig_rules.


(** ** Lists and scans agree

    [bare t]: the process entries of [t], without the links of the lists. *)
Definition bare (t : ptable) : list proc := set_p_next None <$> pt_proc t.

Lemma bare_tbl X ps a pr t : tbl X ps a pr t → bare t = set_p_next None <$> ps.
Proof.
  intros Ht. unfold bare. apply list_eq. intros j. rewrite !list_lookup_fmap.
  destruct (ps !! j) as [p|] eqn:Hp.
  - destruct (tbl_lookup _ _ _ _ _ _ _ Ht Hp) as [n ->]. done.
  - destruct (pt_proc t !! j) as [p'|] eqn:Hp'; [|done].
    destruct (tbl_lookup_rev _ _ _ _ _ _ _ Ht Hp') as (p & Hp2 & _). congruence.
Qed.

Lemma has_zombie_child_awf st cur :
  awf st → length (as_ps st) = NPROC →
  has_zombie_child (as_ps st) cur (seq 0 NPROC) = has_child (as_ps st) cur (as_q st LZombie).
Proof.
  intros Hw Hl. apply eq_bool_prop_intro. unfold has_zombie_child, has_child.
  rewrite !Is_true_true, !existsb_exists. split; intros (i & Hi & Ht).
  - destruct (as_ps st !! i) as [p|] eqn:Hp; [|done]. exists i. rewrite Hp.
    apply andb_true_iff in Ht as [Hpar Hz]. split; [|done].
    apply bool_decide_eq_true in Hz. apply list_elem_of_In, (aw_mem _ Hw _ _ Hp).
    unfold list_of. by rewrite Hz.
  - apply list_elem_of_In in Hi. destruct (aw_in _ Hw _ _ Hi) as (p & Hp & Hk).
    rewrite Hp in Ht. exists i. rewrite Hp. unfold zombie_child. rewrite Ht.
    assert (p_state p = ZOMBIE) as Hz by (unfold list_of in Hk; by destruct (p_state p)).
    split; [|by rewrite bool_decide_true]. apply list_elem_of_In, elem_of_seq.
    apply lookup_lt_Some in Hp. lia.
Qed.

Lemma has_zombie_child_bare ps ps' cur l :
  set_p_next None <$> ps = set_p_next None <$> ps' →
  has_zombie_child ps cur l = has_zombie_child ps' cur l.
Proof.
  intros Heq. unfold has_zombie_child. induction l as [|j l IH]; [done|]. simpl. rewrite IH. f_equal.
  pose proof (f_equal (.!! j) Heq) as Hj. rewrite !list_lookup_fmap in Hj.
  destruct (ps !! j) as [p|], (ps' !! j) as [p'|]; simplify_eq/=; [|done].
  destruct p, p'; simplify_eq/=. done.
Qed.

Lemma wake_blind ch n p : wake ch (set_p_next n p) = set_p_next n (wake ch p).
Proof. unfold wake, wake_if. simpl. by repeat case_decide. Qed.
Lemma wake_bare ch (ps : list proc) : set_p_next None <$> (wake ch <$> ps) = wake ch <$> (set_p_next None <$> ps).
Proof.
  rewrite <- !list_fmap_compose. apply list_fmap_ext. intros i p _. simpl. by rewrite wake_blind.
Qed.
Lemma adopt_blind cur init n p : adopt cur init (set_p_next n p) = set_p_next n (adopt cur init p).
Proof. unfold adopt. simpl. by case_decide. Qed.
Lemma wake_when_blind b ch n p : wake_when b ch (set_p_next n p) = set_p_next n (wake_when b ch p).
Proof. destruct b; [apply wake_blind|done]. Qed.

(** C26. When a process exits, waking its parent and handing its children to init
    has the same effect whether the lists are walked, as compiled, or the whole
    process table is scanned, as in the original kernel: both return, and the
    entries differ only in the links of the lists. *)
Theorem lists_match_scans {W} `{KSvc W} (s : kstate W) st pr ch cur init :
  rep st pr (k_ptable s) →
  ∃ s1 s2,
    (wakeup1 ch ;;; pass_children cur init) s = Ok (tt, s1) ∧
    (Orig.wakeup1 ch ;;; Orig.pass_children cur init) s = Ok (tt, s2) ∧
    bare (k_ptable s1) = bare (k_ptable s2).
Proof.
  intros Ht. pose proof (tbl_awf _ _ _ Ht) as Hw. pose proof (tbl_length _ _ _ _ _ Ht) as Hl.
  pose proof (abs_wakeup1_awf ch _ Hw) as Hw1.
  assert (length (pt_proc (k_ptable s)) = NPROC) as Hn.
  { apply (wf_len _ _ _ (tb_wf _ _ _ _ _ Ht)). }
  assert (wp no_panic (wakeup1 ch ;;; pass_children cur init) (λ _ s1, bare (k_ptable s1) =
    set_p_next None <$> as_ps (abs_pass_children cur init (abs_wakeup1 ch st))) s) as H1.
  { apply wp_bind. eapply wp_wakeup1; [exact Ht|]. intros t1 Ht1.
    eapply wp_pass_children; [exact Ht1|]. intros t2 Ht2. exact (bare_tbl _ _ _ _ _ Ht2). }
  assert (wp no_panic (Orig.wakeup1 ch ;;; Orig.pass_children cur init) (λ _ s2, bare (k_ptable s2) =
    set_p_next None <$> as_ps (abs_pass_children cur init (abs_wakeup1 ch st))) s) as H2.
  { apply wp_bind. eapply wp_orig_wakeup1; [done|].
    eapply wp_orig_pass_children; rewrite entries_of_set; [by rewrite length_fmap|].
    unfold bare. rewrite entries_of_set, abs_pass_children_ps by done.
    rewrite <- has_zombie_child_awf by (rewrite ?abs_wakeup1_ps, ?length_fmap by done; done).
    rewrite abs_wakeup1_ps by done. apply list_eq. intros j.
    rewrite !list_lookup_fmap, orig_fold by apply NoDup_seq.
    rewrite (has_zombie_child_bare _ (wake ch <$> as_ps st)).
    2:{ rewrite !wake_bare. f_equal. exact (bare_tbl _ _ _ _ _ Ht). }
    rewrite list_lookup_fmap. generalize (has_zombie_child (wake ch <$> as_ps st) cur (seq 0 NPROC)).
    intros b. destruct (as_ps st !! j) as [p|] eqn:Hp.
    - destruct (tbl_lookup _ _ _ _ _ _ _ Ht Hp) as [n Hpn]. rewrite Hpn.
      rewrite decide_True by (apply elem_of_seq; apply lookup_lt_Some in Hp; lia). simpl.
      rewrite wake_blind, adopt_blind, wake_when_blind. simpl.
      destruct b; simpl; [by rewrite (adopt_wake _ _ (chan_of_proc init) (wake ch p))|done].
    - destruct (pt_proc (k_ptable s) !! j) as [p'|] eqn:Hp'.
      + destruct (tbl_lookup_rev _ _ _ _ _ _ _ Ht Hp') as (p & Hp2 & _). congruence.
      + by destruct (decide _). }
  apply wp_total in H1 as ([] & s1 & E1 & H1), H2 as ([] & s2 & E2 & H2).
  exists s1, s2. split_and!; [done|done|congruence].
Qed.
Lemma lists_match_scans_witness :
  ∃ st pr, rep st pr (k_ptable child0) ∧ ∃ s1 s2,
    (wakeup1 (ChProc 0) ;;; pass_children 0 (Some 1%nat)) child0 = Ok (tt, s1) ∧
    (Orig.wakeup1 (ChProc 0) ;;; Orig.pass_children 0 (Some 1%nat)) child0 = Ok (tt, s2) ∧
    bare (k_ptable s1) = bare (k_ptable s2).
Proof.
  destruct (inv_kinv _ _ child0_inv) as (st & Hk & Hq). destruct Hk as [Hrep _ _].
  exists st, (pt_promoteAtTime (k_ptable child0)). split; [exact Hrep|].
  exact (lists_match_scans child0 st _ _ _ _ Hrep).
Defined.

(** ** getprocs reports the active processes *)
Definition active (ps : list proc) : list proc := filter (λ p, alive (p_state p) = true) ps.

(** The pid that getprocs reports as the parent's. *)
Definition reported_parent (ps : list proc) (p : proc) : option Z :=
  if decide (p_pid p = 1) then Some 1 else p_parent p ≫= λ j, p_pid <$> ps !! j.

Record row_for (now : Z) (ps : list proc) (p : proc) (u : uproc) : Prop := mkrow {
  row_ids : u_pid u = p_pid p ∧ u_uid u = p_uid p ∧ u_gid u = p_gid p;
  row_ppid : reported_parent ps p = Some (u_ppid u);
  row_times : u_elapsed_ticks u = u32 (now - p_start_ticks p) ∧ u_CPU_total_ticks u = p_cpu_ticks_total p;
  row_state : cstr (u_state u) = cstr (state_name (p_state p));
  row_name : cstr (u_name u) = cstr (p_name p);
  row_rest : u_size u = p_sz p ∧ u_priority u = p_priority p
}.
Definition row_room (u : uproc) : Prop := length (u_state u) = 32%nat ∧ length (u_name u) = 32%nat.

(** The entry of an active process can be reported. *)
Definition reportable (ps : list proc) (p : proc) : Prop :=
  terminated (p_name p) ∧ (length (p_name p) ≤ 16)%nat ∧ is_Some (reported_parent ps p).

Lemma length_cstr s : (length (cstr s) ≤ length s)%nat.
Proof. induction s as [|c s IH]; simpl; [lia|]. case_decide; simpl; lia. Qed.

Lemma uproc_row_ok now ps p ppid u :
  reportable ps p → row_room u → reported_parent ps p = Some ppid →
  ∃ u', uproc_row now p ppid u = Some u' ∧ row_for now ps p u' ∧ row_room u'.
Proof.
  intros (Ht & Hl & _) [Hs Hn] Hpp. unfold uproc_row, safestrcpy, STRMAX.
  rewrite !decide_False by lia.
  destruct (safestrcpy_loop_spec (u_state u) (state_name (p_state p)) (Z.to_nat 32))
    as (st & -> & Hl1 & Hc1 & _); [lia|lia|left; destruct (p_state p); simpl; set_solver|].
  destruct (safestrcpy_loop_spec (u_name u) (p_name p) (Z.to_nat 32))
    as (nm & -> & Hl2 & Hc2 & _); [lia|lia|by left|].
  eexists. split; [reflexivity|]. split; [|by split; simpl; lia].
  split; simpl; try done.
  - rewrite Hc1. by destruct (p_state p).
  - rewrite Hc2. apply take_ge. pose proof (length_cstr (p_name p)). lia.
Qed.

Lemma active_drop ps i p :
  ps !! i = Some p →
  active (drop i ps) = (if alive (p_state p) then [p] else []) ++ active (drop (S i) ps).
Proof.
  intros Hp. rewrite (drop_S _ _ _ Hp). unfold active. rewrite filter_cons.
  by destruct (alive (p_state p)).
Qed.

(** What the loop has done when it ends: [r] is its result. *)
Record reported (now : Z) (ps act : list proc) (max k : nat) (table : list uproc)
    (r : nat * list uproc) : Prop := mkrep {
  re_count : r.1 = Nat.min max (k + length act);
  re_length : length r.2 = length table;
  re_rows : ∀ j p, act !! j = Some p → (k + j < r.1)%nat →
    ∃ u, r.2 !! (k + j)%nat = Some u ∧ row_for now ps p u;
  re_rest : ∀ j, (j < k ∨ r.1 ≤ j)%nat → r.2 !! j = table !! j
}.

Lemma reported_nil now ps act max k table :
  (act = [] ∧ k ≤ max ∨ k = max)%nat → reported now ps act max k table (k, table).
Proof.
  intros Hc. split; simpl; try done.
  - destruct Hc as [[-> ?]| ->]; simpl; lia.
  - intros j p Hj. destruct Hc as [[-> ?]| ->]; [done|lia].
Qed.

Lemma reported_cons now ps act max k table r p u :
  (k < max)%nat → (k < length table)%nat → row_for now ps p u →
  reported now ps act max (S k) (<[k := u]> table) r → reported now ps (p :: act) max k table r.
Proof.
  intros Hk Hl Hu [Hc Hlen Hrows Hrest]. split.
  - rewrite Hc. simpl. lia.
  - by rewrite Hlen, length_insert.
  - intros [|j] q Hq Hj.
    + simplify_eq/=. exists u. replace (k + 0)%nat with k by lia. split; [|done].
      rewrite Hrest by lia. by apply list_lookup_insert_eq.
    + replace (k + S j)%nat with (S k + j)%nat in * by lia. by apply Hrows.
  - intros j Hj. destruct (decide (j = k)) as [->|Hne]; [lia|].
    rewrite Hrest by lia. by apply list_lookup_insert_ne.
Qed.

Section getprocs_rules.
Context {W : Type} `{KSvc W} (E : string → Prop).
Implicit Types (s : kstate W).

Lemma wp_getprocs_loop n i max k table s :
  let ps := pt_proc (k_ptable s) in
  length ps = (i + n)%nat → (k ≤ max ≤ length table)%nat → Forall row_room table →
  (∀ p, p ∈ ps → alive (p_state p) = true → reportable ps p) →
  wp E (getprocs_loop n i (Z.of_nat max) k table)
    (λ r s', s' = s ∧ reported (k_ticks s) ps (active (drop i ps)) max k table r) s.
Proof.
  intros ps. revert i k table. induction n as [|n IH]; intros i k table Hl Hk Hrows Hrep; simpl.
  { apply wp_ret. split; [done|]. apply reported_nil. left. split; [|lia].
    by rewrite drop_ge by lia. }
  case_decide as Hm. { apply wp_ret. split; [done|]. apply reported_nil. right. lia. }
  destruct (lookup_lt_is_Some_2 ps i) as [p Hp]; [lia|].
  apply wp_bind. eapply wp_pt_get; [exact Hp|]. rewrite (active_drop _ _ _ Hp).
  assert (alive (p_state p) = false → wp E (getprocs_loop n (S i) (Z.of_nat max) k table)
    (λ r s', s' = s ∧ reported (k_ticks s) ps (active (drop (S i) ps)) max k table r) s) as Hskip.
  { intros _. apply IH; [lia|lia|done|done]. }
  assert (alive (p_state p) = true → wp E
    (let! ppid := (if decide (p_pid p = 1) then ret 1 else
             match p_parent p with
             | None => fault
             | Some j => let! q := pt (get_proc j) in ret (p_pid q)
             end) in
     let! now := gets k_ticks in
     match table !! k with
     | None => fault
     | Some u =>
         match uproc_row now p ppid u with
         | None => fault
         | Some u' => getprocs_loop n (S i) (Z.of_nat max) (S k) (<[k := u']> table)
         end
     end)
    (λ r s', s' = s ∧ reported (k_ticks s) ps (p :: active (drop (S i) ps)) max k table r) s) as Hrow.
  { intros Ha. pose proof (Hrep p (list_elem_of_lookup_2 _ _ _ Hp) Ha) as Hr.
    pose proof Hr as (_ & _ & [ppid Hpp]). apply wp_bind.
    eapply wp_mono with (Q := λ a s', a = ppid ∧ s' = s).
    { unfold reported_parent in Hpp. case_decide; [apply wp_ret; split; congruence|].
      destruct (p_parent p) as [j|]; [|done]. simpl in Hpp.
      destruct (ps !! j) as [q|] eqn:Hq; [|done]. apply wp_bind.
      eapply wp_pt_get; [exact Hq|]. apply wp_ret. split; [|done]. simpl in Hpp. congruence. }
    intros ? ? [-> ->]. apply wp_bind, wp_gets.
    destruct (lookup_lt_is_Some_2 table k) as [u Hu]; [lia|]. rewrite Hu.
    destruct (uproc_row_ok (k_ticks s) ps p ppid u Hr) as (u' & -> & Hu' & Hroom);
      [by eapply Forall_lookup_1|done|].
    eapply wp_mono.
    - apply IH; [lia|rewrite length_insert; lia|by apply Forall_insert|done].
    - intros r s' [-> Hre]. split; [done|]. eapply reported_cons; [lia|lia|exact Hu'|exact Hre]. }
  destruct (p_state p); simpl; auto.
Qed.
End getprocs_rules.

Lemma kinv_reportable {W} (s : kstate W) st p :
  kinv s st → p ∈ pt_proc (k_ptable s) → alive (p_state p) = true →
  reportable (pt_proc (k_ptable s)) p.
Proof.
  intros [Hrep [He _ Hpar] _] [i Hp]%list_elem_of_lookup Ha.
  destruct (tbl_lookup_rev _ _ _ _ _ _ _ Hrep Hp) as (q & Hq & Heq).
  assert (p_state q = p_state p) as Hst by (by rewrite Heq).
  assert (p_name q = p_name p) as Hnm by (by rewrite Heq).
  destruct (He _ _ Hq) as [Hn Ht _ _ _ _ _]. rewrite Hnm in *. split_and!; [done|lia|].
  destruct (Hpar _ _ Hq) as (j & w & Hj & Hw & _); [rewrite Hst; by destruct (p_state p)|].
  destruct (tbl_lookup _ _ _ _ _ _ _ Hrep Hw) as [n Hn'].
  unfold reported_parent. case_decide; [by eexists|].
  replace (p_parent p) with (Some j) by (by rewrite Heq). simpl. rewrite Hn'. by eexists.
Qed.

(** getprocs fills the caller's table with one row for each RUNNABLE, RUNNING or
    SLEEPING process, in the order of the process table, up to the given maximum:
    it returns the number of rows written, each row holds the fields of its
    process (the elapsed time modulo 2^32, the name and state as strings), the
    other rows of the table are untouched, and the kernel state is unchanged. *)
Theorem getprocs_exact {W} `{KSvc W} (s : kstate W) st c max table :
  kinv s st → quiet (k_mach s) → m_cpus (k_mach s) !! m_gs (k_mach s) = Some c →
  (max ≤ length table)%nat → Z.of_nat max < 2 ^ 32 → Forall row_room table →
  wp no_panic (getprocs (Z.of_nat max) table) (λ r s',
    settled s s' st ∧ k_ptable s' = k_ptable s ∧
    reported (k_ticks s) (pt_proc (k_ptable s)) (active (pt_proc (k_ptable s))) max 0 table r) s.
Proof.
  intros Hk Hq Hc Hm Hm32 Hrows. destruct (quiet_free _ _ Hq Hc) as [Hf Hn].
  apply wp_bind. eapply wp_acquire_pt; [exact Hf| |done]. intros m1 Hm1 Hs1.
  apply wp_bind. rewrite u32_small by lia. eapply wp_mono.
  { apply wp_getprocs_loop; [|lia|done|intros p Hp Ha; exact (kinv_reportable s st p Hk Hp Ha)].
    apply (wf_len _ _ _ (tb_wf _ _ _ _ _ (ki_rep _ _ Hk))). }
  intros r s' [-> Hre]. apply wp_bind. eapply wp_release_pt; [exact Hm1|]. intros m2 Hm2 Hs2.
  apply wp_ret. split_and!; [|done|done].
  eapply settled_again; [done..| |apply Hk|done].
  exists (k_ptable s), m2. split_and!; [by destruct s|apply Hk|done|].
  etransitivity; [exact Hs1|exact Hs2].
Qed.
Definition blank_row : uproc := mkuproc 0 0 0 0 0 0 (replicate 32 0) 0 (replicate 32 0) 0.
Lemma getprocs_exact_witness :
  wp no_panic (getprocs 3 (replicate 4 blank_row)) (λ r s',
    (∃ st, settled child0 s' st) ∧ k_ptable s' = k_ptable child0 ∧
    reported (k_ticks child0) (pt_proc (k_ptable child0)) (active (pt_proc (k_ptable child0)))
      3 0 (replicate 4 blank_row) r) child0.
Proof.
  destruct child0_cpu as (st & c & p & Hk & Hq & Hon).
  eapply wp_mono.
  - apply (getprocs_exact child0 st c 3 (replicate 4 blank_row) Hk Hq).
    + apply Hon.
    + simpl. lia.
    + done.
    + repeat constructor.
  - intros r s' (H1 & H2 & H3). split; [exists st; exact H1|split; [exact H2|exact H3]].
Defined.
