(* ===== verification/Sync.v ===== *)
(** * What the kernel's synchronisation promises to its clients

    The buffer cache, the log, pipes and the console use acquire, release and
    wakeup.  [Sync] is that interface and [SyncLaws] what the clients rely on:
    a CPU that holds the locks [L] can take a further one, drop the one taken
    last, and wake the sleepers on a channel, and is then again a CPU that holds
    the right locks.  The process subsystem discharges the laws at the end. *)

From S2P Require Import Prelude Spinlock ProcData ProcList Proc ProcWp ProcSpec ProcRefine ProcInv.
Local Open Scope Z_scope.

Class Sync (W : Type) := {
  k_initlock : string → M W unit;
  k_acquire : string → M W unit;
  k_release : string → M W unit;
  k_wakeup : chan → M W unit
}.

(** [holds L w]: in [w] the running CPU holds exactly the locks [L], last taken
    first, and no other CPU holds any. *)
Class SyncLaws (W : Type) `{Sync W} := {
  holds : list string → W → Prop;
  k_initlock_law E l L w Q :
    holds L w → l ∉ L → (∀ w', holds L w' → Q tt w') → wp E (k_initlock l) Q w;
  k_acquire_law E l L w Q :
    holds L w → l ∉ L → (∀ w', holds (l :: L) w' → Q tt w') → wp E (k_acquire l) Q w;
  k_release_law E l L w Q :
    holds (l :: L) w → (∀ w', holds L w' → Q tt w') → wp E (k_release l) Q w;
  k_wakeup_law E ch L w Q :
    holds L w → "ptable" ∉ L → (∀ w', holds L w' → Q tt w') → wp E (k_wakeup ch) Q w
}.

(** ** The process subsystem as a [Sync] *)
#[export] Instance proc_sync {W} `{KSvc W} : Sync (kstate W) := {|
  k_initlock l := mch (initlock l);
  k_acquire l := mch (acquire l);
  k_release l := mch (release l);
  k_wakeup := wakeup
|}.

(** The machine side of [holds]. *)
Record holding_locks (L : list string) (m : machine) (c : cpu) : Prop := mkhl {
  hl_nodup : NoDup L;
  hl_cpu : m_cpus m !! m_gs m = Some c;
  hl_ncli : c_ncli c = Z.of_nat (length L);
  hl_IF : L ≠ [] → c_IF c = false;
  hl_mine : ∀ l, l ∈ L → get_lock l m = mklock true (Some (m_gs m));
  hl_free : ∀ l, l ∉ L → lk_locked (get_lock l m) = false
}.

Lemma acquire_holding l L m c :
  holding_locks L m c → l ∉ L →
  ∃ m', acquire l m = Ok (tt, m') ∧ holding_locks (l :: L) m' (pushed c) ∧ cpu_step [l] m m'.
Proof.
  intros [Hnd Hc Hn HIF Hm Hf] Hl. eexists. split; [by apply acquire_eq; [|apply Hf]|]. split.
  - split.
    + by constructor.
    + exact (lookup_set_cpu m c (pushed c) Hc).
    + simpl. rewrite Hn. lia.
    + done.
    + intros l' [->|Hl']%elem_of_cons; [by rewrite get_lock_set_lock|].
      rewrite get_lock_set_lock_ne by congruence. by apply Hm.
    + intros l' [Hne Hl']%not_elem_of_cons. rewrite get_lock_set_lock_ne by congruence. by apply Hf.
  - split_and!; [done|by eexists|]. intros l' Hl'. rewrite get_lock_set_lock_ne by set_solver. done.
Qed.

Lemma release_holding l L m c :
  holding_locks (l :: L) m c →
  ∃ m', release l m = Ok (tt, m') ∧ holding_locks L m' (popped c) ∧ cpu_step [l] m m'.
Proof.
  intros [[Hnl Hnd]%list.NoDup_cons Hc Hn HIF Hm Hf]. simpl in Hn.
  assert (get_lock l m = mklock true (Some (m_gs m))) as Hl by (apply Hm; set_solver).
  eexists. split.
  { apply release_eq; [done| |by apply HIF|lia]. rewrite Hl. unfold holding_by. simpl.
    by rewrite bool_decide_true. }
  split.
  - split.
    + done.
    + exact (lookup_set_cpu m c (popped c) Hc).
    + simpl. lia.
    + intros HL. simpl. rewrite decide_False; [done|]. destruct L; [done|]. simpl in Hn. lia.
    + intros l' Hl'. rewrite get_lock_set_cpu, get_lock_set_lock_ne by set_solver.
      apply Hm. set_solver.
    + intros l' Hl'. rewrite get_lock_set_cpu. destruct (decide (l = l')) as [->|Hne].
      * by rewrite get_lock_set_lock.
      * rewrite get_lock_set_lock_ne by done. apply Hf. set_solver.
  - split_and!; [done|by eexists|]. intros l' Hl'. rewrite get_lock_set_cpu.
    rewrite get_lock_set_lock_ne by set_solver. done.
Qed.

Definition proc_holds {W} (L : list string) (s : kstate W) : Prop :=
  ∃ st c, kinv s st ∧ holding_locks L (k_mach s) c.

Lemma kinv_mach {W} (s : kstate W) st c m' c' l :
  kinv s st → m_cpus (k_mach s) !! m_gs (k_mach s) = Some c →
  m_cpus m' !! m_gs m' = Some c' → c_proc c' = c_proc c → cpu_step l (k_mach s) m' →
  kinv (set_k_mach m' s) st.
Proof.
  intros Hk Hc Hc' Hp Hs. pose proof Hk as [Hr Ho Hq].
  eapply (kinv_again l s st c c' st _ (k_ptable s) m' (k_nextpid s) (k_world s)); done.
Qed.

#[export] Instance proc_sync_laws {W} `{KSvc W} : SyncLaws (kstate W).
Proof.
  refine {| holds := proc_holds |}.
  - intros E l L s Q (st & c & Hk & Hh) Hl HQ. apply wp_mch, wp_modS, HQ.
    pose proof Hh as [Hnd Hc Hn HIF Hm Hf]. exists st, c. split.
    + eapply (kinv_mach _ _ c _ c [l]); [done|exact Hc|exact Hc|done|].
      split_and!; [done| |intros l' Hl'; apply get_lock_set_lock_ne; set_solver].
      exists c. simpl. by rewrite list_insert_id.
    + split; simpl; try done.
      * intros l' Hl'. rewrite get_lock_set_lock_ne by congruence. by apply Hm.
      * intros l' Hl'. destruct (decide (l = l')) as [->|Hne]; [by rewrite get_lock_set_lock|].
        rewrite get_lock_set_lock_ne by done. by apply Hf.
  - intros E l L s Q (st & c & Hk & Hh) Hl HQ.
    destruct (acquire_holding l L _ c Hh Hl) as (m' & Heq & Hh' & Hs).
    apply wp_mch. eapply wp_Ok; [exact Heq|]. apply HQ. exists st, (pushed c). split; [|done].
    eapply kinv_mach; [done|apply Hh|apply Hh'|done|exact Hs].
  - intros E l L s Q (st & c & Hk & Hh) HQ.
    destruct (release_holding l L _ c Hh) as (m' & Heq & Hh' & Hs).
    apply wp_mch. eapply wp_Ok; [exact Heq|]. apply HQ. exists st, (popped c). split; [|done].
    eapply kinv_mach; [done|apply Hh|apply Hh'|done|exact Hs].
  - intros E ch L s Q (st & c & Hk & Hh) Hpt HQ. pose proof Hh as [Hnd Hc Hn HIF Hm Hf].
    eapply wp_mono; [eapply wp_wakeup; [apply Hk|split; [exact Hc|by apply Hf]|lia]|].
    intros [] s' (t' & m' & -> & Ht' & [Hc' Hf'] & Hs). apply HQ.
    exists (abs_wakeup1 ch st), (popped (pushed c)). split.
    + eapply (kinv_again _ s st c _ _ _ t' m' (k_nextpid s) (k_world s)); try done.
      * eapply abs_wakeup1_ok; [apply Hk|by eapply kinv_awf].
      * by rewrite abs_wakeup1_other.
    + pose proof Hs as (Hg & _ & Hlk). split; [done|done| | | |].
      * simpl. lia.
      * intros HL. specialize (HIF HL). simpl. case_decide; [|done]. destruct L; [done|simpl in *; lia].
      * intros l Hl. cbn [k_mach set_k_ptable set_k_mach]. rewrite Hlk, Hg by set_solver. by apply Hm.
      * intros l Hl. cbn [k_mach set_k_ptable set_k_mach].
        destruct (decide (l = "ptable")) as [->|Hne]; [done|]. rewrite Hlk by set_solver. by apply Hf.
Defined.

(** A CPU between critical sections holds no lock. *)
Lemma quiet_holds {W} `{KSvc W} (s : kstate W) st c :
  kinv s st → quiet (k_mach s) → m_cpus (k_mach s) !! m_gs (k_mach s) = Some c → holds [] s.
Proof.
  intros Hk [Hl Hn] Hc. exists st, c. split; [done|].
  split; [constructor|done|by rewrite (Hn _ _ Hc)|done|set_solver|auto].
Qed.

(** ** A world whose locks are always free *)
#[export] Instance free_sync : Sync unit := {|
  k_initlock _ := skip; k_acquire _ := skip; k_release _ := skip; k_wakeup _ := skip |}.
#[export] Instance free_laws : SyncLaws unit.
Proof. refine {| holds _ _ := True |}; intros; apply wp_skip; auto. Defined.
