(* ===== verification/Block.v ===== *)
(** * Blocks: what the buffer cache promises to the log and the file system

    A client sees the disk, the contents of every block as the cache gives them,
    the buffers it holds, and the blocks pinned in memory by B_DIRTY.  [BlockIO]
    are the operations of bio.c with the accesses of their callers to a held
    buffer; [BlockIOLaws] states their effect on that view. *)

From S2P Require Import Prelude ProcData Sync.
Local Open Scope Z_scope.

(** param.h, fs.h *)
Definition BSIZE : Z := 512.
Definition NBUF : nat := 30.
Definition ROOTDEV : Z := 1.

Definition block : Type := list Z.
Definition is_block (x : block) : Prop := Z.of_nat (length x) = BSIZE.

Record bview := mkview {
  v_size : Z;                     (* blocks of the disk *)
  v_disk : Z → block;             (* their contents on the disk *)
  v_mem : Z → block;              (* their contents as bread gives them *)
  v_held : list (nat * Z);        (* buffers held, with their blocks *)
  v_pinned : gset Z;              (* blocks whose buffer is dirty *)
  v_trail : list (Z * block)      (* the block writes so far, oldest first *)
}.
Definition v_hold b n (v : bview) : bview :=
  mkview (v_size v) (v_disk v) (v_mem v) ((b, n) :: v_held v) (v_pinned v) (v_trail v).
Definition v_drop b n (v : bview) : bview :=
  mkview (v_size v) (v_disk v) (v_mem v) (remove1 (b, n) (v_held v)) (v_pinned v) (v_trail v).
Definition v_store n x (v : bview) : bview :=
  mkview (v_size v) (v_disk v) (<[n := x]> (v_mem v)) (v_held v) (v_pinned v) (v_trail v).
Definition v_pin n (v : bview) : bview :=
  mkview (v_size v) (v_disk v) (v_mem v) (v_held v) ({[n]} ∪ v_pinned v) (v_trail v).
Definition v_write n (v : bview) : bview :=
  mkview (v_size v) (<[n := v_mem v n]> (v_disk v)) (v_mem v) (v_held v) (v_pinned v ∖ {[n]})
    (v_trail v ++ [(n, v_mem v n)]).

(** The blocks whose buffers cannot be recycled. *)
Definition v_busy (v : bview) : gset Z := list_to_set (v_held v).*2 ∪ v_pinned v.

Class BlockIO (S : Type) := {
  io_sync :: Sync S;
  io_bread : Z → Z → M S nat;
  io_bwrite : nat → M S unit;
  io_brelse : nat → M S unit;
  io_blockno : nat → M S Z;              (* b->blockno *)
  io_data : nat → M S block;             (* the bytes of b->data *)
  io_store : nat → block → M S unit;     (* all of b->data replaced *)
  io_set_dirty : nat → M S unit          (* b->flags |= B_DIRTY *)
}.

Class BlockIOLaws (S : Type) `{BlockIO S} := {
  (** The running CPU holds the locks [L] and sees [v]. *)
  view : list string → S → bview → Prop;
  view_held_blocks L s v b n : view L s v → (b, n) ∈ v_held v → 0 ≤ n < v_size v;
  view_blocks L s v n : view L s v → 0 ≤ n < v_size v → is_block (v_mem v n) ∧ is_block (v_disk v n);
  view_unpinned L s v n :
    view L s v → 0 ≤ n < v_size v → n ∉ v_busy v → v_mem v n = v_disk v n;

  io_initlock_law E l L s v Q : view L s v → l ∉ L →
    (∀ s', view L s' v → Q tt s') → wp E (k_initlock l) Q s;
  io_acquire_law E l L s v Q : view L s v → l ∉ L →
    (∀ s', view (l :: L) s' v → Q tt s') → wp E (k_acquire l) Q s;
  io_release_law E l L s v Q : view (l :: L) s v →
    (∀ s', view L s' v → Q tt s') → wp E (k_release l) Q s;
  io_wakeup_law E ch L s v Q : view L s v → "ptable" ∉ L →
    (∀ s', view L s' v → Q tt s') → wp E (k_wakeup ch) Q s;

  io_bread_law E n L s v Q :
    view L s v → "bcache" ∉ L → 0 ≤ n < v_size v → n ∉ (v_held v).*2 →
    (n ∈ v_pinned v ∨ size (v_busy v) < NBUF)%nat →
    (∀ b s', b ∉ (v_held v).*1 → view L s' (v_hold b n v) → Q b s') →
    wp E (io_bread ROOTDEV n) Q s;
  io_bwrite_law E b n L s v Q : view L s v → (b, n) ∈ v_held v →
    (∀ s', view L s' (v_write n v) → Q tt s') → wp E (io_bwrite b) Q s;
  io_brelse_law E b n L s v Q :
    view L s v → "bcache" ∉ L → "ptable" ∉ L → (b, n) ∈ v_held v →
    n ∈ v_pinned v ∨ v_mem v n = v_disk v n →
    (∀ s', view L s' (v_drop b n v) → Q tt s') → wp E (io_brelse b) Q s;
  io_blockno_law E b n L s v Q :
    view L s v → (b, n) ∈ v_held v → Q n s → wp E (io_blockno b) Q s;
  io_data_law E b n L s v Q :
    view L s v → (b, n) ∈ v_held v → Q (v_mem v n) s → wp E (io_data b) Q s;
  io_store_law E b n x L s v Q :
    view L s v → (b, n) ∈ v_held v → is_block x →
    (∀ s', view L s' (v_store n x v) → Q tt s') → wp E (io_store b x) Q s;
  io_set_dirty_law E b n L s v Q :
    view L s v → (b, n) ∈ v_held v →
    (∀ s', view L s' (v_pin n v) → Q tt s') → wp E (io_set_dirty b) Q s
}.
