(* ===== verification/Bio.v ===== *)
(** * The buffer cache (bio.c, buf.h) over the memory disk (memide.c)

    The cache is the array [bcache.buf] threaded on a ring through [prev] and
    [next], the most recently used buffer first.  The disk is the array of
    blocks of memide.c, the disk in memory that has the interface of ide.c (which
    the Makefile links, and which drives the controller); [d_trail] records the block writes in their order, which
    is what a crash can cut short.  [sleep] is a parameter on the whole state:
    what other processes do while the caller waits for a busy buffer. *)

From S2P Require Import Prelude Spinlock ProcData Sync Block.
Local Open Scope Z_scope.

Definition B_BUSY : Z := 1.
Definition B_VALID : Z := 2.
Definition B_DIRTY : Z := 4.
(** (uint)-1 *)
Definition NODEV : Z := 4294967295.

(** A pointer to a struct buf: &bcache.head or &bcache.buf[i]. *)
Inductive bref := BHead | BBuf (i : nat).
#[export] Instance bref_eq_dec : EqDecision bref.
Proof. solve_decision. Defined.

Record buf := mkbuf {
  b_flags : Z; b_dev : Z; b_blockno : Z; b_prev : bref; b_next : bref; b_data : list Z
}.
Definition set_b_flags x b := mkbuf x (b_dev b) (b_blockno b) (b_prev b) (b_next b) (b_data b).
Definition set_b_dev x b := mkbuf (b_flags b) x (b_blockno b) (b_prev b) (b_next b) (b_data b).
Definition set_b_blockno x b := mkbuf (b_flags b) (b_dev b) x (b_prev b) (b_next b) (b_data b).
Definition set_b_prev x b := mkbuf (b_flags b) (b_dev b) (b_blockno b) x (b_next b) (b_data b).
Definition set_b_next x b := mkbuf (b_flags b) (b_dev b) (b_blockno b) (b_prev b) x (b_data b).
Definition set_b_data x b := mkbuf (b_flags b) (b_dev b) (b_blockno b) (b_prev b) (b_next b) x.

(** Of [bcache.head] only the links are used. *)
Record bcache := mkbc { bc_buf : list buf; bc_hprev : bref; bc_hnext : bref }.
Record disk := mkdisk { d_blocks : list (list Z); d_trail : list (Z * list Z) }.
Record bstate (W : Type) := mkbs { bs_cache : bcache; bs_disk : disk; bs_world : W }.
Arguments mkbs {W}.
Arguments bs_cache {W}.
Arguments bs_disk {W}.
Arguments bs_world {W}.
Definition set_bs_cache {W} x (s : bstate W) := mkbs x (bs_disk s) (bs_world s).
Definition set_bs_disk {W} x (s : bstate W) := mkbs (bs_cache s) x (bs_world s).
Definition set_bs_world {W} (x : W) (s : bstate W) := mkbs (bs_cache s) (bs_disk s) x.

(** [(flags & m) != 0] *)
Definition has (flags m : Z) : bool := negb (Z.land flags m =? 0).

(** ** The ring *)
Definition next_of (c : bcache) (r : bref) : option bref :=
  match r with BHead => Some (bc_hnext c) | BBuf i => b_next <$> bc_buf c !! i end.
Definition prev_of (c : bcache) (r : bref) : option bref :=
  match r with BHead => Some (bc_hprev c) | BBuf i => b_prev <$> bc_buf c !! i end.
Definition with_next (r x : bref) (c : bcache) : bcache :=
  match r with
  | BHead => mkbc (bc_buf c) (bc_hprev c) x
  | BBuf i => mkbc (alter (set_b_next x) i (bc_buf c)) (bc_hprev c) (bc_hnext c)
  end.
Definition with_prev (r x : bref) (c : bcache) : bcache :=
  match r with
  | BHead => mkbc (bc_buf c) x (bc_hnext c)
  | BBuf i => mkbc (alter (set_b_prev x) i (bc_buf c)) (bc_hprev c) (bc_hnext c)
  end.


Definition get_next (r : bref) : M bcache bref := let! c := getS in of_opt (next_of c r).
Definition get_prev (r : bref) : M bcache bref := let! c := getS in of_opt (prev_of c r).
(** Stores through a bad pointer fault. *)
Definition put_next (r x : bref) : M bcache unit := let! _ := get_next r in modS (with_next r x).
Definition put_prev (r x : bref) : M bcache unit := let! _ := get_prev r in modS (with_prev r x).
Definition get_buf (i : nat) : M bcache buf := let! c := getS in of_opt (bc_buf c !! i).
Definition upd_buf (i : nat) (f : buf → buf) : M bcache unit :=
  let! _ := get_buf i in modS (λ c, mkbc (alter f i (bc_buf c)) (bc_hprev c) (bc_hnext c)).

(** One buffer of the loop of binit. *)
Definition binit_buf (i : nat) : M bcache unit :=
  let! n := get_next BHead in
  put_next (BBuf i) n ;;;
  put_prev (BBuf i) BHead ;;;
  upd_buf i (set_b_dev NODEV) ;;;
  let! n := get_next BHead in
  put_prev n (BBuf i) ;;;
  put_next BHead (BBuf i).
Definition binit_ring : M bcache unit :=
  put_prev BHead BHead ;;;
  put_next BHead BHead ;;;
  mfor (seq 0 NBUF) binit_buf.

(** The first loop of bget: the buffer that caches the block. *)
Fixpoint find_cached (fuel : nat) (r : bref) (dev blockno : Z) : M bcache (option nat) :=
  match fuel with
  | O => diverge
  | S fuel' =>
      match r with
      | BHead => ret None
      | BBuf i =>
          let! b := get_buf i in
          if decide (b_dev b = dev ∧ b_blockno b = blockno) then ret (Some i)
          else find_cached fuel' (b_next b) dev blockno
      end
  end.
(** The second loop: a buffer that is neither busy nor dirty, least recent first. *)
Fixpoint find_clean (fuel : nat) (r : bref) : M bcache (option nat) :=
  match fuel with
  | O => diverge
  | S fuel' =>
      match r with
      | BHead => ret None
      | BBuf i =>
          let! b := get_buf i in
          if negb (has (b_flags b) B_BUSY) && negb (has (b_flags b) B_DIRTY) then ret (Some i)
          else find_clean fuel' (b_prev b)
      end
  end.
(** A walk meets each buffer once, then the head. *)
Definition ring_fuel : nat := S NBUF.

(** Unlink the buffer and link it in at the head: the list part of brelse. *)
Definition unlink_buf (i : nat) : M bcache unit :=
  let! n := get_next (BBuf i) in
  let! p := get_prev (BBuf i) in
  put_prev n p ;;;
  put_next p n.
Definition link_first (i : nat) : M bcache unit :=
  let! n := get_next BHead in
  put_next (BBuf i) n ;;;
  put_prev (BBuf i) BHead ;;;
  let! n := get_next BHead in
  put_prev n (BBuf i) ;;;
  put_next BHead (BBuf i).

(** ** The operations *)
Section bio.
Context {W : Type} `{Sync W}.
Abbreviation B := (M (bstate W)).
Context (sleep : chan → string → B unit).

Definition cache {A} (m : M bcache A) : B A := zoom bs_cache set_bs_cache m.
Definition world {A} (m : M W A) : B A := zoom bs_world set_bs_world m.
Definition chan_of_buf (i : nat) : chan := ChAddr (Z.of_nat i).

Definition binit : B unit := world (k_initlock "bcache") ;;; cache binit_ring.

(** iderw of memide.c: sync the buffer with the disk. *)
Definition iderw (i : nat) : B unit :=
  let! b := cache (get_buf i) in
  if negb (has (b_flags b) B_BUSY) then panic "iderw: buf not busy" else
  if decide (Z.land (b_flags b) (Z.lor B_VALID B_DIRTY) = B_VALID) then panic "iderw: nothing to do" else
  if negb (b_dev b =? 1) then panic "iderw: request not for disk 1" else
  let! d := gets bs_disk in
  if decide (Z.of_nat (length (d_blocks d)) ≤ b_blockno b) then panic "iderw: block out of range" else
  (if has (b_flags b) B_DIRTY then
     cache (upd_buf i (λ b, set_b_flags (Z.land (b_flags b) (Z.lnot B_DIRTY)) b)) ;;;
     modS (set_bs_disk (mkdisk (<[Z.to_nat (b_blockno b) := b_data b]> (d_blocks d))
                               (d_trail d ++ [(b_blockno b, b_data b)])))
   else
     let! x := of_opt (d_blocks d !! Z.to_nat (b_blockno b)) in
     cache (upd_buf i (set_b_data x))) ;;;
  cache (upd_buf i (λ b, set_b_flags (Z.lor (b_flags b) B_VALID) b)).

(** One pass of bget from [loop:]; [None] after a sleep, when it starts again. *)
Definition bget_pass (dev blockno : Z) : B (option nat) :=
  let! n := cache (get_next BHead) in
  let! o := cache (find_cached ring_fuel n dev blockno) in
  match o with
  | Some i =>
      let! b := cache (get_buf i) in
      if negb (has (b_flags b) B_BUSY) then
        cache (upd_buf i (λ b, set_b_flags (Z.lor (b_flags b) B_BUSY) b)) ;;;
        world (k_release "bcache") ;;;
        ret (Some i)
      else
        sleep (chan_of_buf i) "bcache" ;;; ret None
  | None =>
      let! p := cache (get_prev BHead) in
      let! o := cache (find_clean ring_fuel p) in
      match o with
      | Some i =>
          cache (upd_buf i (set_b_dev dev)) ;;;
          cache (upd_buf i (set_b_blockno blockno)) ;;;
          cache (upd_buf i (set_b_flags B_BUSY)) ;;;
          world (k_release "bcache") ;;;
          ret (Some i)
      | None => panic "bget: no buffers"
      end
  end.
Fixpoint bget_loop (fuel : nat) (dev blockno : Z) : B nat :=
  match fuel with
  | O => diverge
  | S fuel' =>
      let! o := bget_pass dev blockno in
      match o with Some i => ret i | None => bget_loop fuel' dev blockno end
  end.
(** The number of times a caller may be woken before it gets the buffer. *)
Definition wake_fuel : nat := 64.
Definition bget (dev blockno : Z) : B nat :=
  world (k_acquire "bcache") ;;; bget_loop wake_fuel dev blockno.

Definition bread (dev blockno : Z) : B nat :=
  let! i := bget dev blockno in
  let! b := cache (get_buf i) in
  (if negb (has (b_flags b) B_VALID) then iderw i else skip) ;;;
  ret i.

Definition bwrite (i : nat) : B unit :=
  let! b := cache (get_buf i) in
  if negb (has (b_flags b) B_BUSY) then panic "bwrite" else
  cache (upd_buf i (λ b, set_b_flags (Z.lor (b_flags b) B_DIRTY) b)) ;;;
  iderw i.

Definition brelse (i : nat) : B unit :=
  let! b := cache (get_buf i) in
  if negb (has (b_flags b) B_BUSY) then panic "brelse" else
  world (k_acquire "bcache") ;;;
  cache (unlink_buf i) ;;;
  cache (link_first i) ;;;
  cache (upd_buf i (λ b, set_b_flags (Z.land (b_flags b) (Z.lnot B_BUSY)) b)) ;;;
  world (k_wakeup (chan_of_buf i)) ;;;
  world (k_release "bcache").
End bio.

(** ** The ring as a list of buffers *)

(** From [r], [next] leads through the buffers [l] to [e], and [prev] back. *)
Fixpoint ring_seg (c : bcache) (r : bref) (l : list nat) (e : bref) : Prop :=
  match l with
  | [] => next_of c r = Some e ∧ prev_of c e = Some r
  | i :: l' => next_of c r = Some (BBuf i) ∧ prev_of c (BBuf i) = Some r ∧ ring_seg c (BBuf i) l' e
  end.
Definition ring (c : bcache) (l : list nat) : Prop := ring_seg c BHead l BHead.

Lemma next_with_next c r x r' :
  is_Some (next_of c r) → next_of (with_next r x c) r' = if decide (r = r') then Some x else next_of c r'.
Proof.
  intros Hr. destruct r as [|i], r' as [|j]; simpl; try done.
  destruct (decide (i = j)) as [->|Hne].
  - rewrite decide_True, list_lookup_alter_eq by done. simpl in Hr.
    destruct (bc_buf c !! j); simpl; [done|by destruct Hr].
  - rewrite decide_False by congruence. by rewrite list_lookup_alter_ne.
Qed.
Lemma prev_with_prev c r x r' :
  is_Some (prev_of c r) → prev_of (with_prev r x c) r' = if decide (r = r') then Some x else prev_of c r'.
Proof.
  intros Hr. destruct r as [|i], r' as [|j]; simpl; try done.
  destruct (decide (i = j)) as [->|Hne].
  - rewrite decide_True, list_lookup_alter_eq by done. simpl in Hr.
    destruct (bc_buf c !! j); simpl; [done|by destruct Hr].
  - rewrite decide_False by congruence. by rewrite list_lookup_alter_ne.
Qed.
Lemma next_with_prev c r x r' : next_of (with_prev r x c) r' = next_of c r'.
Proof.
  destruct r as [|i], r' as [|j]; simpl; try done.
  destruct (decide (i = j)) as [->|Hne]; [|by rewrite list_lookup_alter_ne].
  rewrite list_lookup_alter_eq. by destruct (bc_buf c !! j).
Qed.
Lemma prev_with_next c r x r' : prev_of (with_next r x c) r' = prev_of c r'.
Proof.
  destruct r as [|i], r' as [|j]; simpl; try done.
  destruct (decide (i = j)) as [->|Hne]; [|by rewrite list_lookup_alter_ne].
  rewrite list_lookup_alter_eq. by destruct (bc_buf c !! j).
Qed.
Lemma next_prev_some c r : is_Some (next_of c r) ↔ is_Some (prev_of c r).
Proof. destruct r as [|i]; simpl; [by split; eexists|]. by rewrite !fmap_is_Some. Qed.

#[global] Arguments next_of : simpl never.
#[global] Arguments prev_of : simpl never.
#[global] Arguments with_next : simpl never.
#[global] Arguments with_prev : simpl never.

Lemma ring_seg_frame c c' r l e :
  (∀ x, x = r ∨ (∃ i, x = BBuf i ∧ i ∈ l) → next_of c' x = next_of c x) →
  (∀ x, x = e ∨ (∃ i, x = BBuf i ∧ i ∈ l) → prev_of c' x = prev_of c x) →
  ring_seg c r l e → ring_seg c' r l e.
Proof.
  revert r. induction l as [|i l IH]; intros r Hn Hp; simpl.
  - intros [H1 H2]. rewrite Hn, Hp by auto. done.
  - intros (H1 & H2 & H3). rewrite Hn by auto. rewrite Hp by (right; exists i; set_solver).
    split_and!; [done|done|]. apply IH; [| |done].
    + intros x Hx. apply Hn. right. destruct Hx as [->|(j & -> & Hj)]; eexists; split; try done; set_solver.
    + intros x Hx. apply Hp. destruct Hx as [->|(j & -> & Hj)]; [by left|right]; eexists; split; [done|set_solver].
Qed.

Lemma ring_seg_first c r l e :
  ring_seg c r l e → ∃ n, next_of c r = Some n ∧ prev_of c n = Some r ∧
    match l with [] => n = e | i :: _ => n = BBuf i end.
Proof. destruct l; simpl; intros; flatten; eauto. Qed.

Lemma ring_seg_unlink c r l1 i l2 e :
  ring_seg c r (l1 ++ i :: l2) e → NoDup (l1 ++ i :: l2) →
  (∀ j, j ∈ l1 ++ i :: l2 → r ≠ BBuf j ∧ e ≠ BBuf j) →
  ∃ p n, prev_of c (BBuf i) = Some p ∧ next_of c (BBuf i) = Some n ∧
    is_Some (next_of c p) ∧ is_Some (prev_of c n) ∧
    (p = r ∨ ∃ j, p = BBuf j ∧ j ∈ l1) ∧
    ring_seg (with_next p n (with_prev n p c)) r (l1 ++ l2) e.
Proof.
  revert r. induction l1 as [|k l1 IH]; intros r Hs Hnd Hre; simpl in *.
  - destruct Hs as (Hrn & Hip & Hs). destruct (ring_seg_first _ _ _ _ Hs) as (n & Hn & Hnp & Hcase).
    apply list.NoDup_cons in Hnd as [Hi Hnd].
    exists r, n. split_and!; [done|done|by eexists|by eexists|by left|].
    assert (is_Some (next_of (with_prev n r c) r)) as Hsn by (rewrite next_with_prev; by eexists).
    assert (is_Some (prev_of c n)) as Hsp by (by eexists).
    destruct l2 as [|j l2]; subst n; simpl.
    + rewrite next_with_next, prev_with_next, prev_with_prev by done. by rewrite !decide_True.
    + rewrite next_with_next, prev_with_next, prev_with_prev by done. rewrite !decide_True by done.
      split_and!; [done|done|]. destruct Hs as (_ & _ & Hs). apply list.NoDup_cons in Hnd as [Hj Hnd].
      eapply ring_seg_frame; [| |exact Hs]; intros x Hx.
      * rewrite next_with_next, next_with_prev by done. apply decide_False.
        intros ->. destruct Hx as [->|(k & -> & Hk)]; [by destruct (Hre j); set_solver|].
        destruct (Hre k); [set_solver|done].
      * rewrite prev_with_next, prev_with_prev by done. apply decide_False.
        intros <-. destruct Hx as [Hx|(k & [= <-] & Hk)]; [|done].
        destruct (Hre j); [set_solver|]. congruence.
  - destruct Hs as (Hrn & Hkp & Hs). apply list.NoDup_cons in Hnd as [Hk Hnd].
    destruct (IH (BBuf k) Hs Hnd) as (p & n & Hp & Hn & Hsp & Hsn & Hpc & Hs').
    { intros j Hj. split; [intros [= ->]; done|]. apply Hre. set_solver. }
    exists p, n. assert (∃ j, p = BBuf j ∧ j ∈ k :: l1) as Hpj
      by (destruct Hpc as [->|(j & -> & Hj)]; eexists; split; [done|set_solver|done|set_solver]).
    assert (is_Some (next_of (with_prev n p c) p)) by (by rewrite next_with_prev).
    rewrite next_with_next, next_with_prev, prev_with_next, prev_with_prev by done.
    split_and!; [done|done|done|done|by right| | |done].
    + rewrite decide_False; [done|]. destruct Hpj as (j & -> & Hj). intros <-.
      destruct (Hre j); [set_solver|done].
    + rewrite decide_False; [done|]. intros ->.
      (* the successor of [i] is not [k] *)
      destruct (ring_seg_first c (BBuf i) l2 e) as (n' & Hn' & _ & Hcase).
      { clear -Hs. revert Hs. generalize (BBuf k). induction l1; simpl; intros; flatten; eauto. }
      rewrite Hn in Hn'. injection Hn' as <-. destruct l2 as [|j l2].
      * destruct (Hre k); [set_solver|]. congruence.
      * injection Hcase as ->. set_solver.
Qed.

(** Linking a buffer that is not in the ring in front of it. *)
Definition linked_first (i : nat) (n : bref) (c : bcache) : bcache :=
  with_next BHead (BBuf i) (with_prev n (BBuf i) (with_prev (BBuf i) BHead (with_next (BBuf i) n c))).

Lemma ring_link_first c i l n :
  ring c l → NoDup (i :: l) → (i < length (bc_buf c))%nat → next_of c BHead = Some n →
  ring (linked_first i n c) (i :: l).
Proof.
  intros Hr [Hi Hnd]%list.NoDup_cons Hlt Hn. unfold linked_first.
  destruct (ring_seg_first _ _ _ _ Hr) as (n' & Hn' & Hnp & Hcase). rewrite Hn in Hn'.
  injection Hn' as <-.
  assert (is_Some (next_of c (BBuf i))) as Hbi
    by (unfold next_of; apply fmap_is_Some; by apply lookup_lt_is_Some).
  assert (is_Some (prev_of c (BBuf i))) as Hbp by (by apply next_prev_some).
  assert (n ≠ BBuf i) as Hni by (destruct l; subst n; [done|intros [= ->]; set_solver]).
  set (c1 := with_next (BBuf i) n c). set (c2 := with_prev (BBuf i) BHead c1).
  set (c3 := with_prev n (BBuf i) c2).
  assert (∀ x, next_of (with_next BHead (BBuf i) c3) x =
    if decide (BHead = x) then Some (BBuf i) else if decide (BBuf i = x) then Some n else next_of c x) as HN.
  { intros x. rewrite next_with_next by (by eexists). unfold c3, c2, c1.
    by rewrite !next_with_prev, next_with_next. }
  assert (∀ x, prev_of (with_next BHead (BBuf i) c3) x =
    if decide (n = x) then Some (BBuf i) else if decide (BBuf i = x) then Some BHead else prev_of c x) as HP.
  { intros x. rewrite prev_with_next. unfold c3, c2, c1.
    assert (is_Some (prev_of (with_next (BBuf i) n c) (BBuf i))) by (by rewrite prev_with_next).
    rewrite prev_with_prev; [rewrite prev_with_prev by done; by rewrite prev_with_next|].
    rewrite prev_with_prev by done. rewrite decide_False, prev_with_next by congruence. by eexists. }
  unfold ring. simpl. rewrite HN, HP, decide_True, (decide_False (P := n = _)), decide_True by done.
  split_and!; [done|done|]. destruct l as [|j l]; subst n; simpl.
  - rewrite HN, HP. by rewrite decide_False, !decide_True.
  - destruct Hr as (_ & _ & Hr). rewrite HN, HP. rewrite decide_False, !decide_True by done.
    split_and!; [done|done|]. eapply ring_seg_frame; [| |exact Hr]; intros x Hx.
    + rewrite HN, !decide_False; [done| |];
        intros <-; destruct Hx as [Hx|(k & Hx & Hk)]; simplify_eq; set_solver.
    + apply list.NoDup_cons in Hnd as [Hj _].
      rewrite HP, !decide_False; [done| |];
        intros <-; destruct Hx as [Hx|(k & Hx & Hk)]; simplify_eq; set_solver.
Qed.

Lemma ring_seg_app c r l1 i l2 e :
  ring_seg c r (l1 ++ i :: l2) e ↔ ring_seg c r l1 (BBuf i) ∧ ring_seg c (BBuf i) l2 e.
Proof.
  revert r. induction l1 as [|j l1 IH]; intros r; simpl; [tauto|]. rewrite IH. tauto.
Qed.

(** ** What the list code does *)

(** The buffers without their links. *)
Definition bare_buf (b : buf) : buf := mkbuf (b_flags b) (b_dev b) (b_blockno b) BHead BHead (b_data b).
Definition contents (c : bcache) : list buf := bare_buf <$> bc_buf c.

Lemma contents_with_next r x c : contents (with_next r x c) = contents c.
Proof.
  unfold contents, with_next. destruct r as [|i]; [done|]. simpl. apply list_eq. intros j.
  rewrite !list_lookup_fmap. destruct (decide (i = j)) as [->|Hne]; [|by rewrite list_lookup_alter_ne].
  rewrite list_lookup_alter_eq. by destruct (bc_buf c !! j).
Qed.
Lemma contents_with_prev r x c : contents (with_prev r x c) = contents c.
Proof.
  unfold contents, with_prev. destruct r as [|i]; [done|]. simpl. apply list_eq. intros j.
  rewrite !list_lookup_fmap. destruct (decide (i = j)) as [->|Hne]; [|by rewrite list_lookup_alter_ne].
  rewrite list_lookup_alter_eq. by destruct (bc_buf c !! j).
Qed.
Lemma contents_length c c' : contents c' = contents c → length (bc_buf c') = length (bc_buf c).
Proof. intros Hc. pose proof (f_equal length Hc) as Hl. unfold contents in Hl. by rewrite !length_fmap in Hl. Qed.

Section list_code.
Context (E : string → Prop).

Lemma wp_get_next r x Q c : next_of c r = Some x → Q x c → wp E (get_next r) Q c.
Proof. intros Hx HQ. unfold get_next. apply wp_bind, wp_getS. rewrite Hx. by apply wp_ret. Qed.
Lemma wp_get_prev r x Q c : prev_of c r = Some x → Q x c → wp E (get_prev r) Q c.
Proof. intros Hx HQ. unfold get_prev. apply wp_bind, wp_getS. rewrite Hx. by apply wp_ret. Qed.
Lemma wp_put_next r x Q c : is_Some (next_of c r) → Q tt (with_next r x c) → wp E (put_next r x) Q c.
Proof. intros [y Hy] HQ. apply wp_bind. by eapply wp_get_next. Qed.
Lemma wp_put_prev r x Q c : is_Some (prev_of c r) → Q tt (with_prev r x c) → wp E (put_prev r x) Q c.
Proof. intros [y Hy] HQ. apply wp_bind. by eapply wp_get_prev. Qed.
Lemma wp_get_buf i b Q c : bc_buf c !! i = Some b → Q b c → wp E (get_buf i) Q c.
Proof. intros Hb HQ. unfold get_buf. apply wp_bind, wp_getS. rewrite Hb. by apply wp_ret. Qed.
Lemma wp_upd_buf i b f Q c :
  bc_buf c !! i = Some b → Q tt (mkbc (<[i := f b]> (bc_buf c)) (bc_hprev c) (bc_hnext c)) →
  wp E (upd_buf i f) Q c.
Proof.
  intros Hb HQ. apply wp_bind. eapply wp_get_buf; [done|]. apply wp_modS.
  by rewrite (list_alter_Some _ _ _ _ Hb).
Qed.

Lemma wp_link_first i l c :
  ring c l → NoDup (i :: l) → (i < length (bc_buf c))%nat →
  wp E (link_first i) (λ _ c', ring c' (i :: l) ∧ contents c' = contents c) c.
Proof.
  intros Hr Hnd Hi. destruct (ring_seg_first _ _ _ _ Hr) as (n & Hn & Hnp & Hcase).
  assert (is_Some (next_of c (BBuf i))) as Hbi
    by (unfold next_of; apply fmap_is_Some; by apply lookup_lt_is_Some).
  assert (next_of (with_prev (BBuf i) BHead (with_next (BBuf i) n c)) BHead = Some n) as Hn2
    by (rewrite next_with_prev, next_with_next by done; by rewrite decide_False).
  apply wp_bind. eapply wp_get_next; [exact Hn|].
  apply wp_bind. apply wp_put_next; [done|].
  apply wp_bind. apply wp_put_prev; [rewrite prev_with_next; by apply next_prev_some|].
  apply wp_bind. eapply wp_get_next; [exact Hn2|].
  apply wp_bind. apply wp_put_prev.
  { rewrite prev_with_prev by (rewrite prev_with_next; by apply next_prev_some).
    case_decide; [by eexists|]. rewrite prev_with_next. by eexists. }
  apply wp_put_next; [by eexists|]. split.
  - by apply ring_link_first.
  - by rewrite contents_with_next, !contents_with_prev, contents_with_next.
Qed.

Lemma wp_unlink i l1 l2 c :
  ring c (l1 ++ i :: l2) → NoDup (l1 ++ i :: l2) →
  wp E (unlink_buf i) (λ _ c', ring c' (l1 ++ l2) ∧ contents c' = contents c) c.
Proof.
  intros Hr Hnd. destruct (ring_seg_unlink _ _ _ _ _ _ Hr Hnd) as (p & n & Hp & Hn & Hsp & Hsn & _ & Hr');
    [done|].
  apply wp_bind. eapply wp_get_next; [exact Hn|]. apply wp_bind. eapply wp_get_prev; [exact Hp|].
  apply wp_bind. apply wp_put_prev; [done|]. apply wp_put_next; [by rewrite next_with_prev|].
  split; [done|]. by rewrite contents_with_next, contents_with_prev.
Qed.

(** Moving a buffer to the front, as brelse does. *)
Lemma wp_move_first i l c :
  ring c l → NoDup l → i ∈ l → (i < length (bc_buf c))%nat →
  wp E (unlink_buf i ;;; link_first i)
    (λ _ c', ring c' (i :: remove1 i l) ∧ contents c' = contents c) c.
Proof.
  intros Hr Hnd Hi Hlt. apply list_elem_of_split in Hi as (l1 & l2 & ->).
  pose proof Hnd as (Hnd1 & Hx & [Hi2 Hnd2]%list.NoDup_cons)%list.NoDup_app.
  assert (i ∉ l1) as Hi1 by set_solver. rewrite remove1_middle by done.
  apply wp_bind. eapply wp_mono; [by apply wp_unlink|]. intros [] c1 [Hr1 Hc1].
  eapply wp_mono; [apply wp_link_first; [exact Hr1| |by rewrite (contents_length _ _ Hc1)]|].
  - constructor; [set_solver|]. apply list.NoDup_app. split_and!; [done|set_solver|done].
  - intros [] c2 [Hr2 Hc2]. split; [done|congruence].
Qed.

Lemma wp_find_cached fuel n r l dev blk c :
  ring_seg c r l BHead → next_of c r = Some n → (length l < fuel)%nat →
  (∀ i, i ∈ l → (i < length (bc_buf c))%nat) →
  wp E (find_cached fuel n dev blk) (λ o c', c' = c ∧
    match o with
    | Some i => ∃ b, i ∈ l ∧ bc_buf c !! i = Some b ∧ b_dev b = dev ∧ b_blockno b = blk
    | None => ∀ i b, i ∈ l → bc_buf c !! i = Some b → ¬ (b_dev b = dev ∧ b_blockno b = blk)
    end) c.
Proof.
  revert n r l. induction fuel as [|fuel IH]; intros n r l Hs Hn Hf Hlt; [lia|].
  destruct l as [|i l]; simpl in Hs.
  { destruct Hs as [Hs _]. rewrite Hn in Hs. injection Hs as ->. apply wp_ret. split; [done|].
    intros ? ? Hi. set_solver. }
  destruct Hs as (Hs1 & Hs2 & Hs3). rewrite Hn in Hs1. injection Hs1 as ->.
  destruct (lookup_lt_is_Some_2 (bc_buf c) i) as [b Hb]; [apply Hlt; set_solver|]. simpl.
  apply wp_bind. eapply wp_get_buf; [exact Hb|]. case_decide as Hd.
  { apply wp_ret. split; [done|]. exists b. split_and!; [set_solver|done|apply Hd..]. }
  eapply wp_mono.
  - apply (IH _ (BBuf i) l); [done|by unfold next_of; rewrite Hb|simpl in Hf; lia|set_solver].
  - intros o c' [-> Ho]. split; [done|]. destruct o as [j|].
    + destruct Ho as (b' & ? & ?). exists b'. split; [set_solver|done].
    + intros j b' [->|Hj]%elem_of_cons Hb'; [by simplify_eq|eauto].
Qed.

Lemma wp_find_clean fuel n e l c :
  ring_seg c BHead l e → prev_of c e = Some n → (length l < fuel)%nat →
  (∀ i, i ∈ l → (i < length (bc_buf c))%nat) →
  wp E (find_clean fuel n) (λ o c', c' = c ∧
    match o with
    | Some i => ∃ b l1 l2, l = l1 ++ i :: l2 ∧ bc_buf c !! i = Some b ∧
                  has (b_flags b) B_BUSY = false ∧ has (b_flags b) B_DIRTY = false ∧
                  ∀ j b', j ∈ l2 → bc_buf c !! j = Some b' →
                    has (b_flags b') B_BUSY = true ∨ has (b_flags b') B_DIRTY = true
    | None => ∀ i b, i ∈ l → bc_buf c !! i = Some b →
                  has (b_flags b) B_BUSY = true ∨ has (b_flags b) B_DIRTY = true
    end) c.
Proof.
  revert n e l. induction fuel as [|fuel IH]; intros n e l Hs Hn Hf Hlt; [lia|].
  destruct (decide (l = [])) as [->|Hne]; simpl in Hs.
  { destruct Hs as [_ Hs]. rewrite Hn in Hs. injection Hs as ->. apply wp_ret. split; [done|].
    intros ? ? Hi. set_solver. }
  apply exists_last in Hne as (l' & i & ->). apply ring_seg_app in Hs as [Hs [Hs1 Hs2]].
  rewrite Hn in Hs2. injection Hs2 as ->. rewrite length_app in Hf. simpl in Hf.
  destruct (lookup_lt_is_Some_2 (bc_buf c) i) as [b Hb]; [apply Hlt; set_solver|]. simpl.
  apply wp_bind. eapply wp_get_buf; [exact Hb|].
  destruct (negb _ && negb _) eqn:Hfl.
  { apply andb_true_iff in Hfl as [H1%negb_true_iff H2%negb_true_iff]. apply wp_ret.
    split; [done|]. exists b, l', []. split_and!; [done..|]. intros j b' []%elem_of_nil. }
  apply andb_false_iff in Hfl. rewrite !negb_false_iff in Hfl. eapply wp_mono.
  - apply (IH _ (BBuf i) l'); [done|by unfold prev_of; rewrite Hb|lia|set_solver].
  - intros o c' [-> Ho]. split; [done|]. destruct o as [j|].
    + destruct Ho as (b' & l1 & l2 & -> & Hj & Hb1 & Hd1 & Hrest). exists b', l1, (l2 ++ [i]).
      split_and!; [by rewrite <- app_assoc|done..|].
      intros k bk [Hk| ->%list_elem_of_singleton]%elem_of_app Hbk; [by eapply Hrest|by simplify_eq].
    + intros j b' [Hj| ->%list_elem_of_singleton]%elem_of_app Hb'; [eauto|]. by simplify_eq.
Qed.
End list_code.
