(* ===== verification/BioSpec.v ===== *)
(** * The buffer cache implements its interface

    [bio_view]: how a state of bio.c represents a view of the blocks.  The ring
    threads every buffer once, no block is cached twice, a cached block is
    valid, and an idle clean buffer agrees with the disk. *)

From S2P Require Import Prelude Spinlock ProcData Sync Block Bio.
Local Open Scope Z_scope.

(** ** Flags *)
Lemma has_bit f k : 0 ≤ k → has f (2 ^ k) = Z.testbit f k.
Proof.
  intros Hk. unfold has. apply eq_bool_prop_intro.
  rewrite !Is_true_true, negb_true_iff, Z.eqb_neq. split.
  - intros Hne. destruct (Z.testbit f k) eqn:Hb; [done|]. destruct Hne.
    apply Z.bits_inj'. intros n Hn. rewrite Z.land_spec, Z.pow2_bits_eqb, Z.bits_0 by done.
    destruct (Z.eqb_spec k n) as [->|]; [by rewrite Hb|by rewrite andb_false_r].
  - intros Hb He. apply (f_equal (λ z, Z.testbit z k)) in He.
    by rewrite Z.land_spec, Hb, Z.pow2_bits_true, Z.bits_0 in He.
Qed.
Lemma has_busy f : has f B_BUSY = Z.testbit f 0. Proof. by apply (has_bit f 0). Qed.
Lemma has_valid f : has f B_VALID = Z.testbit f 1. Proof. by apply (has_bit f 1). Qed.
Lemma has_dirty f : has f B_DIRTY = Z.testbit f 2. Proof. by apply (has_bit f 2). Qed.


(** Evaluate a flag of an updated flag word. *)
Ltac flag_simpl :=
  rewrite ?has_busy, ?has_valid, ?has_dirty;
  repeat (rewrite ?Z.lor_spec, ?Z.land_spec; rewrite ?Z.lnot_spec by lia);
  change (Z.testbit B_BUSY 0) with true; change (Z.testbit B_BUSY 1) with false;
  change (Z.testbit B_BUSY 2) with false; change (Z.testbit B_VALID 0) with false;
  change (Z.testbit B_VALID 1) with true; change (Z.testbit B_VALID 2) with false;
  change (Z.testbit B_DIRTY 0) with false; change (Z.testbit B_DIRTY 1) with false;
  change (Z.testbit B_DIRTY 2) with true; cbn [negb];
  rewrite ?orb_false_r, ?orb_true_r, ?andb_true_r, ?andb_false_r, ?orb_false_r, ?orb_true_r;
  rewrite <- ?has_busy, <- ?has_valid, <- ?has_dirty.

Lemma valid_clean f :
  Z.land f (Z.lor B_VALID B_DIRTY) = B_VALID ↔ has f B_VALID = true ∧ has f B_DIRTY = false.
Proof.
  rewrite has_valid, has_dirty. split.
  - intros He. split; [apply (f_equal (λ z, Z.testbit z 1)) in He|apply (f_equal (λ z, Z.testbit z 2)) in He];
      rewrite Z.land_spec in He; simpl in He; by rewrite ?andb_true_r in He.
  - intros [Hv Hd]. apply Z.bits_inj'. intros n Hn. rewrite Z.land_spec.
    destruct (decide (n = 1)) as [->|]; [by rewrite Hv|].
    destruct (decide (n = 2)) as [->|]; [by rewrite Hd|].
    change (Z.lor B_VALID B_DIRTY) with (Z.lor (2 ^ 1) (2 ^ 2)). change B_VALID with (2 ^ 1).
    rewrite Z.lor_spec, !Z.pow2_bits_eqb by lia.
    rewrite !(proj2 (Z.eqb_neq _ _)) by lia. by rewrite andb_false_r.
Qed.

(** ** The representation *)
Record buf_ok (v : bview) (i : nat) (b : buf) : Prop := mkbok {
  bk_range : 0 ≤ b_blockno b < v_size v;
  bk_valid : has (b_flags b) B_VALID = true;
  bk_data : v_mem v (b_blockno b) = b_data b;
  bk_busy : has (b_flags b) B_BUSY = true ↔ (i, b_blockno b) ∈ v_held v;
  bk_dirty : has (b_flags b) B_DIRTY = true ↔ b_blockno b ∈ v_pinned v
}.
(** A buffer that was never used. *)
Definition buf_idle (b : buf) : Prop := b_dev b = NODEV ∧ b_flags b = 0.

Record contents_ok (bs : list buf) (d : disk) (v : bview) : Prop := mkco {
  co_len : length bs = NBUF;
  co_size : Z.of_nat (length (d_blocks d)) = v_size v;
  co_disk : ∀ n, 0 ≤ n < v_size v → d_blocks d !! Z.to_nat n = Some (v_disk v n);
  co_block : ∀ n, 0 ≤ n < v_size v → is_block (v_mem v n) ∧ is_block (v_disk v n);
  co_trail : d_trail d = v_trail v;
  co_each : ∀ i b, bs !! i = Some b → buf_idle b ∨ b_dev b = ROOTDEV ∧ buf_ok v i b;
  co_once : ∀ i j b b', bs !! i = Some b → bs !! j = Some b' →
    b_dev b = ROOTDEV → b_dev b' = ROOTDEV → b_blockno b = b_blockno b' → i = j;
  co_held : ∀ i n, (i, n) ∈ v_held v → ∃ b, bs !! i = Some b ∧ b_dev b = ROOTDEV ∧ b_blockno b = n;
  co_held_once : NoDup (v_held v).*1;
  co_pinned : ∀ n, n ∈ v_pinned v → ∃ i b, bs !! i = Some b ∧ b_dev b = ROOTDEV ∧ b_blockno b = n;
  co_stable : ∀ n, 0 ≤ n < v_size v → n ∉ v_busy v → v_mem v n = v_disk v n
}.

Definition bio_view {W} `{SyncLaws W} (L : list string) (s : bstate W) (v : bview) : Prop :=
  holds L (bs_world s) ∧ contents_ok (contents (bs_cache s)) (bs_disk s) v ∧
  ∃ l, ring (bs_cache s) l ∧ l ≡ₚ seq 0 NBUF.


(** ** Changing one buffer *)
Lemma contents_ok_update bs d v i b b' d' v' :
  contents_ok bs d v → bs !! i = Some b → b_dev b = ROOTDEV →
  b_dev b' = ROOTDEV → b_blockno b' = b_blockno b →
  v_size v' = v_size v → length (d_blocks d') = length (d_blocks d) → d_trail d' = v_trail v' →
  (∀ n, 0 ≤ n < v_size v → d_blocks d' !! Z.to_nat n = Some (v_disk v' n)) →
  (∀ n, 0 ≤ n < v_size v → is_block (v_mem v' n) ∧ is_block (v_disk v' n)) →
  (∀ j bj, j ≠ i → b_blockno bj ≠ b_blockno b → buf_ok v j bj → buf_ok v' j bj) →
  buf_ok v' i b' →
  (∀ j m, (j, m) ∈ v_held v' → (j, m) ∈ v_held v ∨ (j, m) = (i, b_blockno b)) →
  NoDup (v_held v').*1 →
  (∀ m, m ∈ v_pinned v' → m ∈ v_pinned v ∨ m = b_blockno b) →
  (∀ n, 0 ≤ n < v_size v → n ∉ v_busy v' → v_mem v' n = v_disk v' n) →
  contents_ok (<[i := b']> bs) d' v'.
Proof.
  intros [Hlen Hsz Hd Hbl Htr Heach Honce Hheld Hh1 Hpin Hst] Hb Hdev Hdev' Hn Hs Hdl Ht' Hd' Hbl'
    Hother Hi Hheld' Hnd Hpin' Hst'.
  pose proof (lookup_lt_Some _ _ _ Hb) as Hlt.
  assert (∀ j c, <[i := b']> bs !! j = Some c → ∃ c0, bs !! j = Some c0 ∧ b_dev c0 = b_dev c ∧
    b_blockno c0 = b_blockno c) as Hback.
  { intros j c [[<- ->]|[Hne Hc]]%list_lookup_insert_cases; [exists b|exists c]; split_and!; congruence. }
  assert (∀ j c, bs !! j = Some c → ∃ c', <[i := b']> bs !! j = Some c' ∧ b_dev c' = b_dev c ∧
    b_blockno c' = b_blockno c) as Hforth.
  { intros j c Hc. destruct (decide (i = j)) as [<-|Hne].
    - exists b'. rewrite list_lookup_insert_eq by done. simplify_eq. split_and!; congruence.
    - exists c. by rewrite list_lookup_insert_ne. }
  split; rewrite ?length_insert, ?Hs; try done; try lia.
  - intros j c [[<- ->]|[Hne Hc]]%list_lookup_insert_cases; [by right|].
    destruct (Heach _ _ Hc) as [?|[Hdc Hok]]; [by left|right]. split; [done|].
    apply Hother; [done| |done]. intros Heq. apply Hne. by eapply Honce.
  - intros j k c c' Hc Hc' H1 H2 H3.
    destruct (Hback _ _ Hc) as (c0 & Hc0 & ? & ?), (Hback _ _ Hc') as (c0' & Hc0' & ? & ?).
    eapply Honce; [exact Hc0|exact Hc0'|congruence..].
  - intros j m Hjm. destruct (Hheld' _ _ Hjm) as [Ho|[= -> ->]].
    + destruct (Hheld _ _ Ho) as (c & Hc & ? & ?). destruct (Hforth _ _ Hc) as (c' & ? & ? & ?).
      exists c'. split_and!; congruence.
    + exists b'. rewrite list_lookup_insert_eq by done. done.
  - intros m Hm. destruct (Hpin' _ Hm) as [Ho| ->].
    + destruct (Hpin _ Ho) as (j & c & Hc & ? & ?). destruct (Hforth _ _ Hc) as (c' & ? & ? & ?).
      exists j, c'. split_and!; congruence.
    + exists i, b'. rewrite list_lookup_insert_eq by done. done.
Qed.

Lemma contents_ok_held bs d v i n :
  contents_ok bs d v → (i, n) ∈ v_held v →
  ∃ b, bs !! i = Some b ∧ b_dev b = ROOTDEV ∧ b_blockno b = n ∧ buf_ok v i b ∧
    has (b_flags b) B_BUSY = true.
Proof.
  intros Hc Hin. destruct (co_held _ _ _ Hc _ _ Hin) as (b & Hb & Hdev & Hn).
  destruct (co_each _ _ _ Hc _ _ Hb) as [[Hd _]|[_ Hok]].
  - rewrite Hd in Hdev. done.
  - exists b. split_and!; try done. apply (bk_busy _ _ _ Hok). by rewrite Hn.
Qed.
Lemma contents_ok_range bs d v i n : contents_ok bs d v → (i, n) ∈ v_held v → 0 ≤ n < v_size v.
Proof.
  intros Hc Hin. destruct (contents_ok_held _ _ _ _ _ Hc Hin) as (b & _ & _ & <- & Hok & _). apply Hok.
Qed.
(** A block is held in one buffer only. *)
Lemma contents_ok_held_unique bs d v i j n :
  contents_ok bs d v → (i, n) ∈ v_held v → (j, n) ∈ v_held v → i = j.
Proof.
  intros Hc Hi Hj. destruct (co_held _ _ _ Hc _ _ Hi) as (b & Hb & Hd & Hn).
  destruct (co_held _ _ _ Hc _ _ Hj) as (b' & Hb' & Hd' & Hn').
  eapply (co_once _ _ _ Hc); [exact Hb|exact Hb'|congruence..].
Qed.

Lemma v_busy_hold i n v : v_busy (v_hold i n v) = {[n]} ∪ v_busy v.
Proof. unfold v_busy. simpl. by rewrite union_assoc_L. Qed.
Lemma elem_of_held (i : nat) (n : Z) l : (i, n) ∈ l → n ∈ l.*2 ∧ i ∈ l.*1.
Proof. intros Hin. split; apply list_elem_of_fmap; by exists (i, n). Qed.

Lemma remove1_sublist {A B} `{EqDecision A} (f : A → B) x (l : list A) :
  (f <$> remove1 x l) `sublist_of` (f <$> l).
Proof.
  induction l as [|y l IH]; [constructor|]. 
  change (remove1 x (y :: l)) with (if decide (x = y) then l else y :: remove1 x l).
  destruct (decide (x = y)); [apply sublist_cons; reflexivity|by apply sublist_skip].
Qed.

Lemma contents_hold bs d v i b n :
  contents_ok bs d v → bs !! i = Some b → b_dev b = ROOTDEV → b_blockno b = n →
  n ∉ (v_held v).*2 →
  contents_ok (<[i := set_b_flags (Z.lor (b_flags b) B_BUSY) b]> bs) d (v_hold i n v).
Proof.
  intros Hc Hb Hdev Hn Hfree. pose proof (co_each _ _ _ Hc _ _ Hb) as [[Hd _]|[_ Hok]].
  { rewrite Hd in Hdev. done. }
  eapply contents_ok_update; [exact Hc|exact Hb|exact Hdev|exact Hdev|..]; try apply Hc; try done.
  - intros j bj Hj Hne [H1 H2 H3 H4 H5]. split; try done. simpl. rewrite H4, elem_of_cons.
    split; [by right|]. intros [[= ]|?]; [congruence|done].
  - destruct Hok as [H1 H2 H3 H4 H5]. split; simpl; try done.
    + by flag_simpl.
    + flag_simpl. split; [intros _|done]. rewrite Hn. by left.
    + by flag_simpl.
  - simpl. intros j m [[= -> ->]|?]%elem_of_cons; [right; by rewrite Hn|by left].
  - simpl. apply list.NoDup_cons. split; [|apply Hc]. intros ((i', m) & -> & Hin)%list_elem_of_fmap.
    destruct (co_held _ _ _ Hc _ _ Hin) as (b' & Hb' & _ & Hm). simpl in *. simplify_eq.
    by apply Hfree, (elem_of_held _ _ _ Hin).
  - by left.
  - intros m Hm. rewrite v_busy_hold. intros Hnb. apply (co_stable _ _ _ Hc); [done|set_solver].
Qed.

Lemma contents_write bs d v i b n :
  contents_ok bs d v → bs !! i = Some b → (i, n) ∈ v_held v →
  contents_ok
    (<[i := set_b_flags (Z.lor (Z.land (Z.lor (b_flags b) B_DIRTY) (Z.lnot B_DIRTY)) B_VALID) b]> bs)
    (mkdisk (<[Z.to_nat n := b_data b]> (d_blocks d)) (d_trail d ++ [(n, b_data b)])) (v_write n v).
Proof.
  intros Hc Hb Hin. destruct (contents_ok_held _ _ _ _ _ Hc Hin) as (b' & Hb' & Hdev & Hn & Hok & Hbusy).
  rewrite Hb in Hb'. injection Hb' as <-. pose proof (bk_range _ _ _ Hok) as Hr. rewrite Hn in Hr.
  pose proof (bk_data _ _ _ Hok) as Hdata. rewrite Hn in Hdata.
  assert (Z.to_nat n < length (d_blocks d))%nat as Hlt by (pose proof (co_size _ _ _ Hc); lia).
  eapply contents_ok_update; [exact Hc|exact Hb|exact Hdev|exact Hdev|..]; try done; simpl.
  - by rewrite length_insert.
  - by rewrite (co_trail _ _ _ Hc), Hdata.
  - intros m Hm. destruct (decide (n = m)) as [<-|Hne].
    + by rewrite list_lookup_insert_eq, fn_lookup_insert, Hdata.
    + rewrite list_lookup_insert_ne by lia. rewrite fn_lookup_insert_ne by done. by apply Hc.
  - intros m Hm. pose proof (co_block _ _ _ Hc) as Hbl. destruct (decide (n = m)) as [<-|Hne].
    + rewrite fn_lookup_insert. split; by apply Hbl.
    + rewrite fn_lookup_insert_ne by done. by apply Hbl.
  - intros j bj Hj Hne [H1 H2 H3 H4 H5]. split; try done. simpl. rewrite H5. set_solver.
  - destruct Hok as [H1 H2 H3 H4 H5]. split; simpl; try done.
    + by flag_simpl.
    + rewrite Hn in *. by flag_simpl.
    + rewrite Hn. flag_simpl. split; [done|set_solver].
  - by left.
  - apply Hc.
  - set_solver.
  - intros m Hm Hnb. destruct (decide (n = m)) as [<-|Hne]; [by rewrite fn_lookup_insert|].
    rewrite fn_lookup_insert_ne by done. apply (co_stable _ _ _ Hc); [done|].
    unfold v_busy in *. simpl in *. set_solver.
Qed.

Lemma contents_drop bs d v i b n :
  contents_ok bs d v → bs !! i = Some b → (i, n) ∈ v_held v →
  n ∈ v_pinned v ∨ v_mem v n = v_disk v n →
  contents_ok (<[i := set_b_flags (Z.land (b_flags b) (Z.lnot B_BUSY)) b]> bs) d (v_drop i n v).
Proof.
  intros Hc Hb Hin Hclean.
  destruct (contents_ok_held _ _ _ _ _ Hc Hin) as (b' & Hb' & Hdev & Hn & Hok & Hbusy).
  rewrite Hb in Hb'. injection Hb' as <-.
  assert (NoDup (v_held v)) as Hnd by (eapply NoDup_fmap_1; apply Hc).
  eapply contents_ok_update; [exact Hc|exact Hb|exact Hdev|exact Hdev|..]; try done; simpl; try apply Hc.
  - intros j bj Hj Hne [H1 H2 H3 H4 H5]. split; try done. simpl.
    rewrite H4, elem_of_remove1 by done. split; [intros ?; split; congruence|tauto].
  - destruct Hok as [H1 H2 H3 H4 H5]. split; simpl; try done.
    + by flag_simpl.
    + flag_simpl. rewrite elem_of_remove1 by done. rewrite Hn. split; [done|tauto].
    + by flag_simpl.
  - intros j m. rewrite elem_of_remove1 by done. tauto.
  - eapply sublist_NoDup; [apply Hc|apply remove1_sublist].
  - by left.
  - intros m Hm Hnb. destruct (decide (m = n)) as [->|Hne].
    + destruct Hclean as [Hp|?]; [|done]. destruct Hnb. unfold v_busy. simpl. set_solver.
    + apply (co_stable _ _ _ Hc); [done|]. unfold v_busy in *. simpl in *. intros [Hh|Hp]%elem_of_union; [|set_solver].
      apply Hnb, elem_of_union_l. rewrite elem_of_list_to_set in Hh |- *.
      apply list_elem_of_fmap in Hh as ((j, m') & -> & Hj). simpl in *.
      apply (elem_of_held j). rewrite elem_of_remove1 by done. split; [done|congruence].
Qed.

Lemma contents_store bs d v i b n x :
  contents_ok bs d v → bs !! i = Some b → (i, n) ∈ v_held v → is_block x →
  contents_ok (<[i := set_b_data x b]> bs) d (v_store n x v).
Proof.
  intros Hc Hb Hin Hx.
  destruct (contents_ok_held _ _ _ _ _ Hc Hin) as (b' & Hb' & Hdev & Hn & Hok & Hbusy).
  rewrite Hb in Hb'. injection Hb' as <-.
  eapply contents_ok_update; [exact Hc|exact Hb|exact Hdev|exact Hdev|..]; try done; simpl; try apply Hc.
  - intros m Hm. pose proof (co_block _ _ _ Hc m Hm) as [? ?]. split; [|done].
    destruct (decide (n = m)) as [<-|Hne]; [by rewrite fn_lookup_insert|by rewrite fn_lookup_insert_ne].
  - intros j bj Hj Hne [H1 H2 H3 H4 H5]. split; try done. simpl. rewrite fn_lookup_insert_ne; congruence.
  - destruct Hok as [H1 H2 H3 H4 H5]. split; simpl; try done. by rewrite Hn, fn_lookup_insert.
  - by left.
  - by left.
  - intros m Hm Hnb. rewrite fn_lookup_insert_ne.
    + by apply (co_stable _ _ _ Hc).
    + intros <-. apply Hnb. unfold v_busy. simpl. apply elem_of_union_l, elem_of_list_to_set.
      by apply (elem_of_held _ _ _ Hin).
Qed.

Lemma contents_pin bs d v i b n :
  contents_ok bs d v → bs !! i = Some b → (i, n) ∈ v_held v →
  contents_ok (<[i := set_b_flags (Z.lor (b_flags b) B_DIRTY) b]> bs) d (v_pin n v).
Proof.
  intros Hc Hb Hin.
  destruct (contents_ok_held _ _ _ _ _ Hc Hin) as (b' & Hb' & Hdev & Hn & Hok & Hbusy).
  rewrite Hb in Hb'. injection Hb' as <-.
  eapply contents_ok_update; [exact Hc|exact Hb|exact Hdev|exact Hdev|..]; try done; simpl; try apply Hc.
  - intros j bj Hj Hne [H1 H2 H3 H4 H5]. split; try done. simpl. rewrite H5. set_solver.
  - destruct Hok as [H1 H2 H3 H4 H5]. split; simpl; try done.
    + by flag_simpl.
    + by flag_simpl.
    + flag_simpl. split; [rewrite Hn; set_solver|done].
  - by left.
  - rewrite Hn. set_solver.
  - intros m Hm Hnb. apply (co_stable _ _ _ Hc); [done|]. unfold v_busy in *. simpl in *. set_solver.
Qed.

Lemma contents_recycle bs d v i b n :
  contents_ok bs d v → bs !! i = Some b →
  has (b_flags b) B_BUSY = false → has (b_flags b) B_DIRTY = false →
  0 ≤ n < v_size v → n ∉ (v_held v).*2 →
  (∀ j c, bs !! j = Some c → ¬ (b_dev c = ROOTDEV ∧ b_blockno c = n)) →
  contents_ok (<[i := mkbuf (Z.lor B_BUSY B_VALID) ROOTDEV n BHead BHead (v_disk v n)]> bs) d (v_hold i n v).
Proof.
  intros Hc Hb Hnb Hnd Hn Hfree Hun. pose proof (lookup_lt_Some _ _ _ Hb) as Hlt.
  pose proof Hc as [Hlen Hsz Hd Hbl Htr Heach Honce Hheld Hh1 Hpin Hst].
  assert (∀ m, (i, m) ∉ v_held v) as Hi.
  { intros m Hin. destruct (contents_ok_held _ _ _ _ _ Hc Hin) as (b' & Hb' & _ & _ & _ & Hbu).
    simplify_eq. congruence. }
  assert (n ∉ v_pinned v) as Hnp.
  { intros (j & c & Hj & Hdc & Hnc)%Hpin. by apply (Hun j c). }
  split; rewrite ?length_insert; try done.
  - intros j c [[<- ->]|[Hne Hj]]%list_lookup_insert_cases.
    + right. split; [done|]. split; simpl; try done.
      * apply Hst; [done|]. unfold v_busy. rewrite elem_of_union, elem_of_list_to_set. tauto.
      * rewrite elem_of_cons. split; [by left|done].
    + destruct (Heach _ _ Hj) as [?|[Hdc [H1 H2 H3 H4 H5]]]; [by left|right].
      split; [done|]. split; try done. simpl. rewrite H4, elem_of_cons.
      split; [by right|]. intros [[= -> _]|?]; done.
  - intros j k c c' [[<- ->]|[Hne Hj]]%list_lookup_insert_cases [[<- ->]|[Hne' Hk]]%list_lookup_insert_cases
      H1 H2 H3; simpl in *; try done.
    + destruct (Hun k c' Hk); auto.
    + destruct (Hun j c Hj); auto.
    + by eapply Honce.
  - intros j m [[= -> ->]|Hin]%elem_of_cons.
    + eexists. by rewrite list_lookup_insert_eq.
    + destruct (Hheld _ _ Hin) as (c & Hj & ? & ?). exists c. rewrite list_lookup_insert_ne; [done|].
      intros ->. by apply (Hi m).
  - simpl. apply list.NoDup_cons. split; [|done]. intros ((j & m) & -> & Hin)%list_elem_of_fmap.
    by apply (Hi m).
  - intros m Hm. destruct (Hpin m Hm) as (j & c & Hj & Hdc & Hnc). exists j, c.
    rewrite list_lookup_insert_ne; [done|]. intros ->. simplify_eq.
    destruct (Heach _ _ Hb) as [[Hx _]|[_ Hok]]; [by rewrite Hx in Hdc|].
    apply (bk_dirty _ _ _ Hok) in Hm. congruence.
  - intros m Hm. rewrite v_busy_hold. intros Hnb'. apply Hst; [done|set_solver].
Qed.

(** With every buffer busy or dirty, as many blocks are held or pinned as there are buffers. *)
Lemma contents_full bs d v :
  contents_ok bs d v →
  (∀ i b, bs !! i = Some b → has (b_flags b) B_BUSY = true ∨ has (b_flags b) B_DIRTY = true) →
  (NBUF ≤ size (v_busy v))%nat.
Proof.
  intros Hc Hall.
  assert (∀ i b, bs !! i = Some b → b_dev b = ROOTDEV ∧ b_blockno b ∈ v_busy v) as Hin.
  { intros i b Hb. destruct (co_each _ _ _ Hc _ _ Hb) as [[_ Hf]|[Hd Hok]].
    - destruct (Hall _ _ Hb) as [Hx|Hx]; rewrite Hf in Hx; done.
    - split; [done|]. unfold v_busy. rewrite elem_of_union, elem_of_list_to_set.
      destruct (Hall _ _ Hb) as [Hx|Hx].
      + left. apply (bk_busy _ _ _ Hok) in Hx. by apply (elem_of_held _ _ _ Hx).
      + right. by apply (bk_dirty _ _ _ Hok). }
  assert (NoDup (b_blockno <$> bs)) as Hnd.
  { apply NoDup_alt. intros i j x Hi Hj. rewrite list_lookup_fmap in Hi, Hj.
    destruct (bs !! i) as [b|] eqn:Hb, (bs !! j) as [b'|] eqn:Hb'; try done.
    simpl in *. eapply (co_once _ _ _ Hc); [exact Hb|exact Hb'|by eapply Hin..|congruence]. }
  rewrite <- (co_len _ _ _ Hc), <- (length_fmap b_blockno bs).
  rewrite <- (size_list_to_set (C := gset Z) _ Hnd). apply subseteq_size.
  intros x (b & -> & (i & Hi)%list_elem_of_lookup)%elem_of_list_to_set%list_elem_of_fmap.
  by eapply Hin.
Qed.

Section bio_laws.
Context {W : Type} `{SyncLaws W} (E : string → Prop) (sleep : chan → string → M (bstate W) unit).
Implicit Types (s : bstate W) (v : bview) (b : buf).

Lemma wp_cache {A} (m : M bcache A) Q s :
  wp E m (λ a c, Q a (set_bs_cache c s)) (bs_cache s) → wp E (cache m) Q s.
Proof. apply wp_zoom. Qed.
(** Code that only reads the cache. *)
Lemma wp_cache_read {A} (m : M bcache A) P Q s :
  wp E m (λ a c, c = bs_cache s ∧ P a) (bs_cache s) → (∀ a, P a → Q a s) → wp E (cache m) Q s.
Proof.
  intros Hm HQ. apply wp_cache. eapply wp_mono; [exact Hm|]. intros a c [-> Ha].
  destruct s. by apply HQ.
Qed.
Lemma wp_world {A} (m : M W A) Q s :
  wp E m (λ a w, Q a (set_bs_world w s)) (bs_world s) → wp E (world m) Q s.
Proof. apply wp_zoom. Qed.

Lemma contents_lookup c i b : contents c !! i = Some b → ∃ b', bc_buf c !! i = Some b' ∧ b = bare_buf b'.
Proof. unfold contents. rewrite list_lookup_fmap, fmap_Some. naive_solver. Qed.

(** A read or an update of a buffer, seen on the contents. *)
Lemma wp_read_buf i b Q s :
  contents (bs_cache s) !! i = Some b → (∀ b', b = bare_buf b' → Q b' s) → wp E (cache (get_buf i)) Q s.
Proof.
  intros (b' & Hb' & ->)%contents_lookup HQ. apply wp_cache. eapply wp_get_buf; [exact Hb'|].
  destruct s. by apply HQ.
Qed.
Lemma wp_change_buf i b f Q s l :
  contents (bs_cache s) !! i = Some b → ring (bs_cache s) l →
  (∀ b, bare_buf (f b) = f (bare_buf b) ∧ b_next (f b) = b_next b ∧ b_prev (f b) = b_prev b) →
  (∀ c', contents c' = <[i := f b]> (contents (bs_cache s)) → ring c' l → Q tt (set_bs_cache c' s)) →
  wp E (cache (upd_buf i f)) Q s.
Proof.
  intros (b' & Hb' & ->)%contents_lookup Hr Hf HQ. apply wp_cache. eapply wp_upd_buf; [exact Hb'|].
  destruct (Hf b') as (Hbare & Hn & Hp). apply HQ.
  - unfold contents. simpl. by rewrite list_fmap_insert, Hbare.
  - eapply ring_seg_frame; [| |exact Hr]; intros [|j] _; unfold next_of, prev_of; simpl; try done;
      destruct (decide (i = j)) as [->|Hne]; rewrite ?list_lookup_insert_ne by done; try done;
      rewrite list_lookup_insert_eq by (by eapply lookup_lt_Some); rewrite Hb'; simpl; congruence.
Qed.

Lemma ring_perm_bound c l i :
  ring c l → l ≡ₚ seq 0 NBUF → length (bc_buf c) = NBUF → i ∈ l → (i < length (bc_buf c))%nat.
Proof. intros _ Hp Hl. rewrite Hp, elem_of_seq, Hl. lia. Qed.
Lemma ring_perm_length c l : ring c l → l ≡ₚ seq 0 NBUF → (length l < ring_fuel)%nat.
Proof. intros _ Hp. rewrite Hp, length_seq. unfold ring_fuel. lia. Qed.
Lemma ring_perm_all c l i b :
  l ≡ₚ seq 0 NBUF → length (bc_buf c) = NBUF → bc_buf c !! i = Some b → i ∈ l.
Proof. intros Hp Hl Hb. rewrite Hp, elem_of_seq. apply lookup_lt_Some in Hb. lia. Qed.
Lemma contents_NBUF c d v : contents_ok (contents c) d v → length (bc_buf c) = NBUF.
Proof. intros Hc. rewrite <- (co_len _ _ _ Hc). unfold contents. by rewrite length_fmap. Qed.
Lemma lookup_contents c i b : bc_buf c !! i = Some b → contents c !! i = Some (bare_buf b).
Proof. intros Hb. unfold contents. by rewrite list_lookup_fmap, Hb. Qed.

(** Between bget and the read: the buffer [i] was recycled for block [n]. *)
Definition recycled (l : list nat) (i : nat) (n : Z) s s' : Prop :=
  ∃ b, contents (bs_cache s) !! i = Some b ∧
    has (b_flags b) B_BUSY = false ∧ has (b_flags b) B_DIRTY = false ∧
    (∀ j c, contents (bs_cache s) !! j = Some c → ¬ (b_dev c = ROOTDEV ∧ b_blockno c = n)) ∧
    contents (bs_cache s') =
      <[i := mkbuf B_BUSY ROOTDEV n BHead BHead (b_data b)]> (contents (bs_cache s)) ∧
    ∃ l1 l2, l = l1 ++ i :: l2 ∧ ∀ j c, j ∈ l2 → contents (bs_cache s) !! j = Some c →
      has (b_flags c) B_BUSY = true ∨ has (b_flags c) B_DIRTY = true.

Lemma wp_bget_pass L s v n l :
  holds ("bcache" :: L) (bs_world s) → contents_ok (contents (bs_cache s)) (bs_disk s) v →
  ring (bs_cache s) l → l ≡ₚ seq 0 NBUF → 0 ≤ n < v_size v → n ∉ (v_held v).*2 →
  (n ∈ v_pinned v ∨ size (v_busy v) < NBUF)%nat →
  wp E (bget_pass sleep ROOTDEV n) (λ o s', ∃ i, o = Some i ∧ holds L (bs_world s') ∧
    bs_disk s' = bs_disk s ∧ ring (bs_cache s') l ∧ (i < NBUF)%nat ∧
    ((∃ b, contents (bs_cache s) !! i = Some b ∧ b_dev b = ROOTDEV ∧ b_blockno b = n) ∧
     contents_ok (contents (bs_cache s')) (bs_disk s) (v_hold i n v) ∨ recycled l i n s s')) s.
Proof.
  intros Hh Hc Hr Hp Hn Hfree Hroom. pose proof (contents_NBUF _ _ _ Hc) as Hlen.
  destruct (ring_seg_first _ _ _ _ Hr) as (f & Hf & _ & _).
  unfold bget_pass. apply wp_bind. eapply (wp_cache_read _ (λ x, x = f)); [by eapply wp_get_next|].
  intros ? ->. apply wp_bind. eapply wp_cache_read.
  { eapply wp_find_cached; [exact Hr|exact Hf|by eapply ring_perm_length|].
    intros i Hi. by eapply ring_perm_bound. }
  intros o Ho. destruct o as [i|].
  - destruct Ho as (b & Hi & Hb & Hdev & Hbn). pose proof (lookup_contents _ _ _ Hb) as Hcb.
    apply wp_bind. eapply (wp_cache_read _ (λ x, x = b)); [by eapply wp_get_buf|]. intros ? ->.
    assert (has (b_flags b) B_BUSY = false) as Hnb.
    { destruct (co_each _ _ _ Hc _ _ Hcb) as [[Hx _]|[_ Hok]]; [simpl in Hx; by rewrite Hdev in Hx|].
      apply not_true_iff_false. intros Hx. apply (bk_busy _ _ _ Hok) in Hx. simpl in Hx.
      apply Hfree. rewrite <- Hbn. by apply (elem_of_held _ _ _ Hx). }
    rewrite Hnb. simpl. apply wp_bind.
    eapply wp_change_buf; [exact Hcb|exact Hr|done|]. intros c1 Hc1 Hr1.
    apply wp_bind, wp_world. eapply k_release_law; [exact Hh|]. intros w' Hw'. apply wp_ret.
    exists i. split_and!; [done|done|done|done| |].
    + apply lookup_lt_Some in Hb. lia.
    + left. split; [by exists (bare_buf b)|]. simpl. rewrite Hc1. by apply contents_hold.
  - assert (∃ e, prev_of (bs_cache s) BHead = Some e) as [e He] by (by eexists).
    apply wp_bind. eapply (wp_cache_read _ (λ x, x = e)); [by eapply wp_get_prev|].
    intros ? ->. apply wp_bind. eapply wp_cache_read.
    { eapply wp_find_clean; [exact Hr|exact He|by eapply ring_perm_length|].
      intros i Hi. by eapply ring_perm_bound. }
    intros o Ho2.
    destruct o as [i|].
    + destruct Ho2 as (b & l1 & l2 & Hl12 & Hb & Hnb & Hnd & Hrest). pose proof (lookup_contents _ _ _ Hb) as Hcb.
      apply wp_bind. eapply wp_change_buf; [exact Hcb|exact Hr|done|]. intros c1 Hc1 Hr1.
      apply wp_bind. eapply wp_change_buf; [simpl; rewrite Hc1; apply list_lookup_insert_eq;
        by eapply lookup_lt_Some|exact Hr1|done|]. intros c2 Hc2 Hr2.
      apply wp_bind. eapply wp_change_buf; [simpl in *; rewrite Hc2; apply list_lookup_insert_eq;
        rewrite Hc1, length_insert; by eapply lookup_lt_Some|exact Hr2|done|]. intros c3 Hc3 Hr3.
      apply wp_bind, wp_world. eapply k_release_law; [exact Hh|]. intros w' Hw'. apply wp_ret.
      exists i. split_and!; [done|done|done|done| |].
      * apply lookup_lt_Some in Hb. lia.
      * right. exists (bare_buf b). split_and!; [done|done|done| | |].
        -- intros j c (c0 & Hj & ->)%contents_lookup. simpl. apply (Ho j c0); [|done].
           by eapply ring_perm_all.
        -- simpl in *. rewrite Hc3, Hc2, Hc1, !list_insert_insert_eq. done.
        -- exists l1, l2. split; [done|]. intros j c Hj (c0 & Hc0 & ->)%contents_lookup.
           exact (Hrest j c0 Hj Hc0).
    + destruct Hroom as [Hpin|Hsz].
      * destruct (co_pinned _ _ _ Hc _ Hpin) as (i & b & (b0 & Hb & ->)%contents_lookup & Hdev & Hbn).
        destruct (Ho i b0); [by eapply ring_perm_all|done|done].
      * pose proof (contents_full _ _ _ Hc) as Hfull. exfalso. apply (Nat.lt_irrefl (size (v_busy v))).
        eapply Nat.lt_le_trans; [exact Hsz|]. apply Hfull.
        intros i b (b0 & Hb & ->)%contents_lookup. apply (Ho2 i b0); [|done]. by eapply ring_perm_all.
Qed.

(** iderw on a buffer just recycled: the block is read. *)
Lemma wp_iderw_read i n x data Q s l :
  contents (bs_cache s) !! i = Some (mkbuf B_BUSY ROOTDEV n BHead BHead data) →
  ring (bs_cache s) l → 0 ≤ n < Z.of_nat (length (d_blocks (bs_disk s))) →
  d_blocks (bs_disk s) !! Z.to_nat n = Some x →
  (∀ c', contents c' = <[i := mkbuf (Z.lor B_BUSY B_VALID) ROOTDEV n BHead BHead x]>
                         (contents (bs_cache s)) →
     ring c' l → Q tt (set_bs_cache c' s)) →
  wp E (iderw i) Q s.
Proof.
  intros Hb Hr Hn Hx HQ. unfold iderw. apply wp_bind. eapply wp_read_buf; [exact Hb|].
  intros b Heq. destruct b as [fl dv bn pr nx dt]. injection Heq as <- <- <- <-. simpl.
  apply wp_bind, wp_gets. rewrite decide_False by lia. apply wp_bind. apply wp_bind.
  rewrite Hx. apply wp_ret. eapply wp_change_buf; [exact Hb|exact Hr|done|].
  intros c1 Hc1 Hr1. eapply wp_change_buf; [simpl; rewrite Hc1; apply list_lookup_insert_eq;
    by eapply lookup_lt_Some|exact Hr1|done|].
  intros c2 Hc2 Hr2. apply HQ; [|done]. simpl in *. by rewrite Hc2, Hc1, list_insert_insert_eq.
Qed.

Lemma wp_bread L s v n Q :
  bio_view L s v → "bcache" ∉ L → 0 ≤ n < v_size v → n ∉ (v_held v).*2 →
  (n ∈ v_pinned v ∨ size (v_busy v) < NBUF)%nat →
  (∀ i s', i ∉ (v_held v).*1 → bio_view L s' (v_hold i n v) → Q i s') →
  wp E (bread sleep ROOTDEV n) Q s.
Proof.
  intros (Hh & Hc & l & Hr & Hp) HL Hn Hfree Hroom HQ. unfold bread, bget.
  apply wp_bind, wp_bind, wp_world. eapply k_acquire_law; [exact Hh|done|]. intros w1 Hw1.
  unfold wake_fuel. cbn [bget_loop]. apply wp_bind.
  eapply wp_mono; [by eapply (wp_bget_pass L _ v n l)|].
  intros o s1 (i & -> & Hh1 & Hd1 & Hr1 & Hi & Hcase). apply wp_ret.
  assert (∀ c', contents_ok c' (bs_disk s) (v_hold i n v) → i ∉ (v_held v).*1) as Hfresh.
  { intros c' Hc'. pose proof (co_held_once _ _ _ Hc') as Hnd. by apply list.NoDup_cons in Hnd as [? _]. }
  simpl in *. destruct Hcase as [[_ Hok]|(b & Hb & Hnb & Hndi & Hun & Hcs & _)].
  - destruct (contents_ok_held _ _ _ i n Hok) as (b & Hb & _ & _ & Hbok & _); [by left|].
    apply wp_bind. eapply wp_read_buf; [exact Hb|]. intros b' Heq.
    pose proof (bk_valid _ _ _ Hbok) as Hv. rewrite Heq in Hv. simpl in Hv. rewrite Hv. simpl.
    apply wp_bind, wp_skip, wp_ret. apply HQ; [by eapply Hfresh|]. split_and!; [done| |by exists l].
    by rewrite Hd1.
  - assert (contents (bs_cache s1) !! i = Some (mkbuf B_BUSY ROOTDEV n BHead BHead (b_data b))) as Hb1.
    { rewrite Hcs. apply list_lookup_insert_eq. by eapply lookup_lt_Some. }
    apply wp_bind. eapply wp_read_buf; [exact Hb1|]. intros b' Heq.
    assert (b_flags b' = B_BUSY) as -> by (by injection Heq). simpl. apply wp_bind.
    eapply wp_iderw_read; [exact Hb1|exact Hr1| | |].
    + rewrite Hd1, (co_size _ _ _ Hc). done.
    + rewrite Hd1. by apply Hc.
    + intros c' Hc' Hr'. apply wp_ret.
      assert (contents_ok (contents c') (bs_disk s) (v_hold i n v)) as Hok.
      { rewrite Hc', Hcs, list_insert_insert_eq. by eapply contents_recycle. }
      apply HQ; [by eapply Hfresh|]. split_and!; [done|simpl; by rewrite Hd1|by exists l].
Qed.

Lemma bio_view_held L s v i n :
  bio_view L s v → (i, n) ∈ v_held v →
  ∃ b l, contents (bs_cache s) !! i = Some b ∧ b_dev b = ROOTDEV ∧ b_blockno b = n ∧
    buf_ok v i b ∧ has (b_flags b) B_BUSY = true ∧ ring (bs_cache s) l ∧ l ≡ₚ seq 0 NBUF.
Proof.
  intros (Hh & Hc & l & Hr & Hp) Hin.
  destruct (contents_ok_held _ _ _ _ _ Hc Hin) as (b & ? & ? & ? & ? & ?). by exists b, l.
Qed.

Lemma wp_bwrite L s v i n Q :
  bio_view L s v → (i, n) ∈ v_held v →
  (∀ s', bio_view L s' (v_write n v) → Q tt s') → wp E (bwrite i) Q s.
Proof.
  intros Hv Hin HQ.
  destruct (bio_view_held _ _ _ _ _ Hv Hin) as (b & l & Hb & Hdev & Hbn & Hok & Hbusy & Hr & Hp).
  destruct Hv as (Hh & Hc & _). pose proof (lookup_lt_Some _ _ _ Hb) as Hlt.
  unfold bwrite. apply wp_bind. eapply wp_read_buf; [exact Hb|]. intros b0 Hb0.
  assert (b_flags b0 = b_flags b) as Hfl by (by rewrite Hb0). rewrite Hfl, Hbusy. simpl.
  apply wp_bind. eapply wp_change_buf; [exact Hb|exact Hr|done|]. intros c1 Hc1 Hr1.
  set (b1 := set_b_flags _ b) in *.
  assert (contents c1 !! i = Some b1) as Hb1 by (rewrite Hc1; by apply list_lookup_insert_eq).
  assert (has (b_flags b1) B_BUSY = true) as HB by (unfold b1; simpl; by flag_simpl).
  assert (has (b_flags b1) B_DIRTY = true) as HD by (unfold b1; simpl; by flag_simpl).
  unfold iderw. apply wp_bind. eapply wp_read_buf; [exact Hb1|]. intros b2 Hb2.
  assert (b_flags b2 = b_flags b1 ∧ b_dev b2 = ROOTDEV ∧ b_blockno b2 = n ∧ b_data b2 = b_data b)
    as (-> & -> & -> & ->).
  { unfold b1, bare_buf, set_b_flags in Hb2 |- *. injection Hb2 as ? ? ? _ _ ?.
    split_and!; simpl; congruence. }
  rewrite HB, HD. cbn [negb]. rewrite decide_False by (rewrite valid_clean, HD; by intros [_ ?]). simpl.
  apply wp_bind, wp_gets. simpl. rewrite decide_False.
  2:{ pose proof (bk_range _ _ _ Hok) as Hrg. rewrite (co_size _ _ _ Hc). lia. }
  apply wp_bind, wp_bind. eapply wp_change_buf; [exact Hb1|exact Hr1|done|]. intros c2 Hc2 Hr2.
  apply wp_modS. eapply wp_change_buf.
  { simpl. rewrite Hc2. apply list_lookup_insert_eq. simpl. by rewrite Hc1, length_insert. }
  { exact Hr2. } { done. }
  intros c3 Hc3 Hr3. apply HQ. split_and!; [done| |by exists l]. simpl in *.
  rewrite Hc3, Hc2, Hc1, !list_insert_insert_eq. exact (contents_write _ _ _ i b n Hc Hb Hin).
Qed.

Lemma wp_brelse L s v i n l Q :
  bio_view L s v → ring (bs_cache s) l → l ≡ₚ seq 0 NBUF → "bcache" ∉ L → "ptable" ∉ L → (i, n) ∈ v_held v →
  n ∈ v_pinned v ∨ v_mem v n = v_disk v n →
  (∀ s', bio_view L s' (v_drop i n v) → ring (bs_cache s') (i :: remove1 i l) → Q tt s') →
  wp E (brelse i) Q s.
Proof.
  intros Hv Hr Hp HL HL' Hin Hclean HQ.
  destruct (bio_view_held _ _ _ _ _ Hv Hin) as (b & _ & Hb & Hdev & Hbn & Hok & Hbusy & _ & _).
  destruct Hv as (Hh & Hc & _). pose proof (lookup_lt_Some _ _ _ Hb) as Hlt.
  pose proof (contents_NBUF _ _ _ Hc) as HN.
  assert (i < NBUF)%nat as HiN by (unfold contents in Hlt; rewrite length_fmap in Hlt; lia).
  unfold brelse. apply wp_bind. eapply wp_read_buf; [exact Hb|]. intros b0 Hb0.
  assert (b_flags b0 = b_flags b) as -> by (by rewrite Hb0). rewrite Hbusy. simpl.
  apply wp_bind, wp_world. eapply k_acquire_law; [exact Hh|done|]. intros w1 Hw1.
  assert (∀ (m1 m2 : M bcache unit) (k : M (bstate W) unit) s0, wp E (cache (m1 ;;; m2)) (λ _ s', wp E k Q s') s0 →
    wp E (cache m1 ;;; cache m2 ;;; k) Q s0) as Hseq.
  { intros m1 m2 k s0. unfold cache, wp, bind, zoom.
    destruct (m1 (bs_cache s0)) as [[? c1]|?| |]; try done. cbn [bs_cache set_bs_cache].
    by destruct (m2 c1) as [[? ?]|?| |]. }
  apply Hseq, wp_cache. eapply wp_mono.
  { apply (wp_move_first _ i l); [exact Hr|rewrite Hp; apply NoDup_seq| |].
    - rewrite Hp, elem_of_seq. lia.
    - simpl. lia. }
  intros [] c1 [Hr1 Hc1]. apply wp_bind. eapply wp_change_buf; [simpl in *; rewrite Hc1; exact Hb|exact Hr1|done|].
  intros c2 Hc2 Hr2. apply wp_bind, wp_world. eapply k_wakeup_law; [exact Hw1|set_solver|].
  intros w2 Hw2. apply wp_world. eapply k_release_law; [exact Hw2|]. intros w3 Hw3.
  apply HQ; [|exact Hr2]. split_and!; [done| |].
  - simpl in *. rewrite Hc2, Hc1. by apply contents_drop.
  - eexists. split; [exact Hr2|]. rewrite <- remove1_perm; [done|]. rewrite Hp, elem_of_seq. lia.
Qed.
End bio_laws.

(** ** The instance *)

(** What the other processes do while the caller sleeps in bget. *)
Class BioSleep (W : Type) := bio_sleep : chan → string → M (bstate W) unit.

#[export] Instance bio_sync {W} `{Sync W} : Sync (bstate W) := {|
  k_initlock l := world (k_initlock l);
  k_acquire l := world (k_acquire l);
  k_release l := world (k_release l);
  k_wakeup ch := world (k_wakeup ch)
|}.
#[export] Instance bio_io {W} `{Sync W, BioSleep W} : BlockIO (bstate W) := {|
  io_bread := bread bio_sleep;
  io_bwrite := bwrite;
  io_brelse := brelse;
  io_blockno i := let! b := cache (get_buf i) in ret (b_blockno b);
  io_data i := let! b := cache (get_buf i) in ret (b_data b);
  io_store i x := cache (upd_buf i (set_b_data x));
  io_set_dirty i := cache (upd_buf i (λ b, set_b_flags (Z.lor (b_flags b) B_DIRTY) b))
|}.

#[export] Instance bio_io_laws {W} `{SyncLaws W, BioSleep W} : BlockIOLaws (bstate W).
Proof.
  refine {| view := bio_view |}.
  - intros L s v i n (_ & Hc & _) Hin. by eapply contents_ok_range.
  - intros L s v n (_ & Hc & _). apply Hc.
  - intros L s v n (_ & Hc & _). apply Hc.
  - intros E l L s v Q (Hh & Hc) Hl HQ. apply wp_world. eapply k_initlock_law; [done..|].
    intros w Hw. apply HQ. by split.
  - intros E l L s v Q (Hh & Hc) Hl HQ. apply wp_world. eapply k_acquire_law; [done..|].
    intros w Hw. apply HQ. by split.
  - intros E l L s v Q (Hh & Hc) HQ. apply wp_world. eapply k_release_law; [done..|].
    intros w Hw. apply HQ. by split.
  - intros E ch L s v Q (Hh & Hc) Hl HQ. apply wp_world. eapply k_wakeup_law; [done..|].
    intros w Hw. apply HQ. by split.
  - intros E n L s v Q. apply wp_bread.
  - intros E b n L s v Q. by apply wp_bwrite.
  - intros E b n L s v Q Hv HL HL' Hin Hcl HQ. pose proof Hv as (_ & _ & l & Hr & Hp).
    eapply wp_brelse; [exact Hv|exact Hr|exact Hp|done|done|exact Hin|done|]. intros s' Hs' _. by apply HQ.
  - intros E i n L s v Q Hv Hin HQ.
    destruct (bio_view_held _ _ _ _ _ Hv Hin) as (b & l & Hb & _ & <- & _).
    apply wp_bind. eapply wp_read_buf; [exact Hb|]. intros b' ->. by apply wp_ret.
  - intros E i n L s v Q Hv Hin HQ.
    destruct (bio_view_held _ _ _ _ _ Hv Hin) as (b & l & Hb & _ & <- & Hok & _).
    apply wp_bind. eapply wp_read_buf; [exact Hb|]. intros b' ->. apply wp_ret.
    by rewrite (bk_data _ _ _ Hok) in HQ.
  - intros E i n x L s v Q Hv Hin Hx HQ.
    destruct (bio_view_held _ _ _ _ _ Hv Hin) as (b & l & Hb & _ & _ & _ & _ & Hr & Hp).
    destruct Hv as (Hh & Hc & _). eapply wp_change_buf; [exact Hb|exact Hr|done|].
    intros c' Hc' Hr'. apply HQ. split_and!; [done| |by exists l]. simpl. rewrite Hc'.
    by apply contents_store.
  - intros E i n L s v Q Hv Hin HQ.
    destruct (bio_view_held _ _ _ _ _ Hv Hin) as (b & l & Hb & _ & _ & _ & _ & Hr & Hp).
    destruct Hv as (Hh & Hc & _). eapply wp_change_buf; [exact Hb|exact Hr|done|].
    intros c' Hc' Hr'. apply HQ. split_and!; [done| |by exists l]. simpl. rewrite Hc'.
    by apply contents_pin.
Defined.

(** ** binit *)
Definition zero_buf : buf := mkbuf 0 0 0 BHead BHead (replicate 512 0).
Definition zero_cache : bcache := mkbc (replicate NBUF zero_buf) BHead BHead.


(** The cache after boot: buffer 29 first, none of them in use. *)
Lemma binit_ring_ok :
  ∃ c, binit_ring zero_cache = Ok (tt, c) ∧ ring c (reverse (seq 0 NBUF)) ∧
    contents c = replicate NBUF (set_b_dev NODEV zero_buf).
Proof. eexists. split; [vm_compute; reflexivity|]. split; vm_compute; repeat split. Qed.

Lemma contents_idle b d (f : Z → block) :
  buf_idle b → d_trail d = [] →
  (∀ n, 0 ≤ n < Z.of_nat (length (d_blocks d)) →
     d_blocks d !! Z.to_nat n = Some (f n) ∧ is_block (f n)) →
  contents_ok (replicate NBUF b) d (mkview (Z.of_nat (length (d_blocks d))) f f [] ∅ []).
Proof.
  intros Hb Ht Hd. split; cbn [v_size v_disk v_mem v_held v_pinned v_trail].
  - apply length_replicate.
  - reflexivity.
  - apply Hd.
  - intros n Hn. split; by apply Hd.
  - exact Ht.
  - intros i b' [-> _]%lookup_replicate. by left.
  - intros i j b1 b2 [-> _]%lookup_replicate _ Hr. destruct Hb as [Hn _]. by rewrite Hn in Hr.
  - intros i n []%elem_of_nil.
  - constructor.
  - intros n []%elem_of_empty.
  - reflexivity.
Qed.

Lemma wp_binit {W} `{SyncLaws W} E (s : bstate W) (f : Z → block) Q :
  bs_cache s = zero_cache → holds [] (bs_world s) → d_trail (bs_disk s) = [] →
  (∀ n, 0 ≤ n < Z.of_nat (length (d_blocks (bs_disk s))) →
     d_blocks (bs_disk s) !! Z.to_nat n = Some (f n) ∧ is_block (f n)) →
  (∀ s', bio_view [] s' (mkview (Z.of_nat (length (d_blocks (bs_disk s)))) f f [] ∅ []) → Q tt s') →
  wp E binit Q s.
Proof.
  intros Hz Hh Ht Hd HQ. destruct binit_ring_ok as (c & Hc & Hr & Hcs).
  apply wp_bind, wp_world. eapply k_initlock_law; [exact Hh|apply not_elem_of_nil|]. intros w Hw.
  apply wp_cache. eapply wp_Ok; [cbn [bs_cache set_bs_world]; rewrite Hz; exact Hc|]. apply HQ. split_and!; [done| |].
  - cbn [bs_cache set_bs_cache]. rewrite Hcs. clear Hc Hr Hcs.
    apply contents_idle; [split; reflexivity|exact Ht|exact Hd].
  - eexists. split; [exact Hr|]. apply reverse_Permutation.
Qed.
