(* ===== verification/Words.v ===== *)
(** * Integers in memory

    The kernel reads and writes on-disk structures through C structs: integers
    of one, two or four bytes, least significant byte first, at fixed offsets.
    An access past the end of the bytes is [None]. *)

From S2P Require Import Prelude CString.
Local Open Scope Z_scope.

Fixpoint le_split (k : nat) (w : Z) : list Z :=
  match k with O => [] | S k' => u8 w :: le_split k' (w / 256) end.
Fixpoint le_combine (bs : list Z) : Z :=
  match bs with [] => 0 | b :: bs' => b + 256 * le_combine bs' end.

Definition get_le (k : nat) (x : list Z) (off : nat) : option Z :=
  if decide (off + k ≤ length x)%nat then Some (le_combine (take k (drop off x))) else None.
Definition put_le (k : nat) (x : list Z) (off : nat) (w : Z) : option (list Z) :=
  if decide (off + k ≤ length x)%nat then Some (splice x off (le_split k w)) else None.

Definition get_word := get_le 4.
Definition put_word := put_le 4.
Definition get_half := get_le 2.
Definition put_half := put_le 2.

Lemma length_le_split k w : length (le_split k w) = k.
Proof. revert w. induction k as [|k IH]; intros w; simpl; [done|]. by rewrite IH. Qed.

Lemma le_combine_split k w : le_combine (le_split k w) = w mod 256 ^ Z.of_nat k.
Proof.
  revert w. induction k as [|k IH]; intros w; simpl; [by rewrite Z.mod_1_r|].
  rewrite IH. unfold u8. change (2 ^ 8) with 256.
  rewrite Nat2Z.inj_succ, Z.pow_succ_r by lia.
  rewrite (Z.rem_mul_r w 256) by lia. lia.
Qed.

Lemma length_put_le k x off w y : put_le k x off w = Some y → length y = length x.
Proof.
  unfold put_le. case_decide; [|done]. intros [= <-].
  apply length_splice. by rewrite length_le_split.
Qed.
Lemma put_le_Some k x off w : (off + k ≤ length x)%nat → is_Some (put_le k x off w).
Proof. intros. unfold put_le. rewrite decide_True by done. by eexists. Qed.
Lemma get_le_Some k x off : (off + k ≤ length x)%nat → is_Some (get_le k x off).
Proof. intros. unfold get_le. rewrite decide_True by done. by eexists. Qed.

Lemma take_drop_splice x d l : (d + length l ≤ length x)%nat → take (length l) (drop d (splice x d l)) = l.
Proof.
  intros Hl. unfold splice. rewrite drop_app_ge by (rewrite length_take; lia).
  rewrite length_take, Nat.min_l by lia. by rewrite Nat.sub_diag, drop_0, take_app_length.
Qed.

Lemma get_put_le k x off w y : put_le k x off w = Some y → get_le k y off = Some (w mod 256 ^ Z.of_nat k).
Proof.
  intros Hp. pose proof (length_put_le _ _ _ _ _ Hp) as Hl. unfold put_le in Hp.
  case_decide as Hd; [|done]. injection Hp as <-. unfold get_le. rewrite decide_True by lia.
  f_equal. rewrite <- (length_le_split k w) at 1.
  rewrite take_drop_splice by (by rewrite length_le_split). apply le_combine_split.
Qed.

Lemma lookup_splice_out x d l i :
  (d + length l ≤ length x)%nat → (i < d ∨ d + length l ≤ i)%nat → splice x d l !! i = x !! i.
Proof.
  intros Hl Hi. unfold splice. destruct Hi as [Hi|Hi].
  - rewrite lookup_app_l by (rewrite length_take; lia). by rewrite lookup_take_lt.
  - rewrite lookup_app_r by (rewrite length_take; lia).
    rewrite lookup_app_r by (rewrite length_take; lia).
    rewrite length_take, lookup_drop. f_equal. lia.
Qed.

Lemma get_put_le_ne k k' x off off' w y :
  put_le k x off w = Some y → (off' + k' ≤ off ∨ off + k ≤ off')%nat → get_le k' y off' = get_le k' x off'.
Proof.
  intros Hp Hd. pose proof (length_put_le _ _ _ _ _ Hp) as Hl. unfold put_le in Hp.
  case_decide as Hd'; [|done]. injection Hp as <-. unfold get_le. rewrite Hl.
  case_decide; [|done]. do 2 f_equal. apply list_eq. intros i.
  destruct (decide (i < k')%nat) as [Hi|Hi].
  - rewrite !lookup_take_lt, !lookup_drop by done.
    apply lookup_splice_out; rewrite length_le_split; lia.
  - by rewrite !lookup_take_ge by lia.
Qed.
Lemma get_put_word x off w y : put_word x off w = Some y → get_word y off = Some (u32 w).
Proof. apply (get_put_le 4). Qed.
Lemma get_put_half x off w y : put_half x off w = Some y → get_half y off = Some (u16 w).
Proof. apply (get_put_le 2). Qed.
#[export] Hint Resolve length_put_le put_le_Some get_le_Some get_put_word get_put_half : xv6.
