(* ===== verification/Log.v ===== *)
(** * The log (log.c)

    A transaction gathers the block writes of the file-system calls in progress;
    end_op of the last of them commits: the blocks go to the log on disk, then
    the header (the commit point), then to their home locations, then the
    header is cleared.  The code runs on any [BlockIO]; the log's own state is
    [log].  [sleep] is what other processes do while the caller sleeps. *)

From S2P Require Import Prelude CString Words ProcData Sync Block.
Local Open Scope Z_scope.

Definition MAXOPBLOCKS : Z := 10.
Definition LOGSIZE : Z := MAXOPBLOCKS * 3.

Record logheader := mklh { lh_n : Z; lh_block : list Z }.
Definition SIZEOF_LOGHEADER : Z := 4 + 4 * LOGSIZE.
Record log := mklog {
  log_start : Z; log_size : Z;
  log_outstanding : Z;       (* how many FS sys calls are executing *)
  log_committing : bool;     (* in commit(), please wait *)
  log_dev : Z; log_lh : logheader
}.
Definition set_log_start x l := mklog x (log_size l) (log_outstanding l) (log_committing l) (log_dev l) (log_lh l).
Definition set_log_size x l := mklog (log_start l) x (log_outstanding l) (log_committing l) (log_dev l) (log_lh l).
Definition set_log_outstanding x l := mklog (log_start l) (log_size l) x (log_committing l) (log_dev l) (log_lh l).
Definition set_log_committing x l := mklog (log_start l) (log_size l) (log_outstanding l) x (log_dev l) (log_lh l).
Definition set_log_dev x l := mklog (log_start l) (log_size l) (log_outstanding l) (log_committing l) x (log_lh l).
Definition set_log_lh x l := mklog (log_start l) (log_size l) (log_outstanding l) (log_committing l) (log_dev l) x.
Definition set_lh_n x h := mklh x (lh_block h).
Definition set_lh_block x h := mklh (lh_n h) x.

(** struct superblock of fs.h, in block 1. *)
Record superblock := mksb {
  sb_size : Z; sb_nblocks : Z; sb_ninodes : Z; sb_nlog : Z; sb_logstart : Z; sb_inodestart : Z; sb_bmapstart : Z
}.
Definition sb_of_bytes (x : block) : option superblock :=
  a ← get_word x 0; b ← get_word x 4; c ← get_word x 8; d ← get_word x 12;
  e ← get_word x 16; f ← get_word x 20; g ← get_word x 24; Some (mksb a b c d e f g).

Record lstate (S : Type) := mkls { ls_log : log; ls_io : S }.
Arguments mkls {S}.
Arguments ls_log {S}.
Arguments ls_io {S}.
Definition set_ls_log {S} x (s : lstate S) : lstate S := mkls x (ls_io s).
Definition set_ls_io {S} (x : S) (s : lstate S) : lstate S := mkls (ls_log s) x.

Section log.
Context {C : Type} `{BlockIO C}.
Abbreviation L := (M (lstate C)).
Context (sleep : chan → string → L unit).

Definition io {A} (m : M C A) : L A := zoom ls_io set_ls_io m.
Definition the {A} (f : log → A) : L A := gets (λ s, f (ls_log s)).
Definition upd_log (f : log → log) : L unit := modS (λ s, set_ls_log (f (ls_log s)) s).
Definition chan_log : chan := ChAddr (-1).

Definition readsb (dev : Z) : L superblock :=
  let! bp := io (io_bread dev 1) in
  let! x := io (io_data bp) in
  let! sb := of_opt (sb_of_bytes x) in
  io (io_brelse bp) ;;;
  ret sb.

(** log.lh.block[i]; the argument of bread is unsigned. *)
Definition get_lh_block (i : nat) : L Z :=
  let! h := the log_lh in of_opt (lh_block h !! i).
Definition put_lh_block (i : nat) (v : Z) : L unit :=
  let! h := the log_lh in
  let! _ := of_opt (lh_block h !! i) in
  upd_log (set_log_lh (set_lh_block (<[i := v]> (lh_block h)) h)).
Definition set_n (n : Z) : L unit := upd_log (λ l, set_log_lh (set_lh_n n (log_lh l)) l).

(** Copy committed blocks from log to their home location *)
Definition install_one (tail : nat) : L unit :=
  let! dev := the log_dev in
  let! start := the log_start in
  let! lbuf := io (io_bread dev (u32 (start + Z.of_nat tail + 1))) in
  let! b := get_lh_block tail in
  let! dbuf := io (io_bread dev (u32 b)) in
  let! x := io (io_data lbuf) in
  io (io_store dbuf x) ;;;
  io (io_bwrite dbuf) ;;;
  io (io_brelse lbuf) ;;;
  io (io_brelse dbuf).
Definition install_trans : L unit :=
  let! n := the (λ l, lh_n (log_lh l)) in
  mfor (seq 0 (Z.to_nat n)) install_one.

(** The offset of block[i] in a struct logheader. *)
Definition lh_off (i : nat) : nat := (4 + 4 * i)%nat.

Definition read_head : L unit :=
  let! dev := the log_dev in
  let! start := the log_start in
  let! buf := io (io_bread dev (u32 start)) in
  let! x := io (io_data buf) in
  let! n := of_opt (get_word x 0) in
  set_n (s32 n) ;;;
  mfor (seq 0 (Z.to_nat (s32 n))) (λ i,
    let! b := of_opt (get_word x (lh_off i)) in
    put_lh_block i (s32 b)) ;;;
  io (io_brelse buf).

(** The header block with the entries of [h] stored from index [i] on. *)
Fixpoint put_blocks (x : block) (i : nat) (bs : list Z) : option block :=
  match bs with
  | [] => Some x
  | b :: bs' => y ← put_word x (lh_off i) b; put_blocks y (S i) bs'
  end.
Definition write_head : L unit :=
  let! dev := the log_dev in
  let! start := the log_start in
  let! buf := io (io_bread dev (u32 start)) in
  let! x := io (io_data buf) in
  let! h := the log_lh in
  let! x := of_opt (put_word x 0 (lh_n h)) in
  (* the loop reads block[i] for i < n: past the array it faults *)
  let! x := (if decide (Z.to_nat (lh_n h) ≤ length (lh_block h))%nat
             then of_opt (put_blocks x 0 (take (Z.to_nat (lh_n h)) (lh_block h))) else fault) in
  io (io_store buf x) ;;;
  io (io_bwrite buf) ;;;
  io (io_brelse buf).

Definition recover_from_log : L unit :=
  read_head ;;;
  install_trans ;;;
  set_n 0 ;;;
  write_head.

Definition initlog (dev : Z) : L unit :=
  if decide (BSIZE ≤ SIZEOF_LOGHEADER) then panic "initlog: too big logheader" else
  io (k_initlock "log") ;;;
  let! sb := readsb dev in
  upd_log (set_log_start (s32 (sb_logstart sb))) ;;;
  upd_log (set_log_size (s32 (sb_nlog sb))) ;;;
  upd_log (set_log_dev dev) ;;;
  recover_from_log.

(** One turn of the loop of begin_op: [true] when the call may go on. *)
Definition begin_op_turn : L bool :=
  let! l := the id in
  if log_committing l then
    sleep chan_log "log" ;;; ret false
  else if decide (LOGSIZE < lh_n (log_lh l) + (log_outstanding l + 1) * MAXOPBLOCKS) then
    sleep chan_log "log" ;;; ret false
  else
    upd_log (set_log_outstanding (log_outstanding l + 1)) ;;;
    io (k_release "log") ;;;
    ret true.
Fixpoint begin_op_loop (fuel : nat) : L unit :=
  match fuel with
  | O => diverge
  | S fuel' =>
      let! go := begin_op_turn in
      if go then skip else begin_op_loop fuel'
  end.
(** How often the caller may be woken without getting in. *)
Definition op_fuel : nat := 64.
Definition begin_op : L unit := io (k_acquire "log") ;;; begin_op_loop op_fuel.

(** Copy modified blocks from cache to log. *)
Definition write_one (tail : nat) : L unit :=
  let! dev := the log_dev in
  let! start := the log_start in
  let! to := io (io_bread dev (u32 (start + Z.of_nat tail + 1))) in
  let! b := get_lh_block tail in
  let! from := io (io_bread dev (u32 b)) in
  let! x := io (io_data from) in
  io (io_store to x) ;;;
  io (io_bwrite to) ;;;
  io (io_brelse from) ;;;
  io (io_brelse to).
Definition write_log : L unit :=
  let! n := the (λ l, lh_n (log_lh l)) in
  mfor (seq 0 (Z.to_nat n)) write_one.

Definition commit : L unit :=
  let! n := the (λ l, lh_n (log_lh l)) in
  if decide (0 < n) then
    write_log ;;;
    write_head ;;;
    install_trans ;;;
    set_n 0 ;;;
    write_head
  else skip.

Definition end_op : L unit :=
  io (k_acquire "log") ;;;
  let! l := the id in
  upd_log (set_log_outstanding (log_outstanding l - 1)) ;;;
  if log_committing l then panic "log.committing" else
  let! l := the id in
  let do_commit := bool_decide (log_outstanding l = 0) in
  (if do_commit then upd_log (set_log_committing true) else io (k_wakeup chan_log)) ;;;
  io (k_release "log") ;;;
  if do_commit then
    commit ;;;
    io (k_acquire "log") ;;;
    upd_log (set_log_committing false) ;;;
    io (k_wakeup chan_log) ;;;
    io (k_release "log")
  else skip.

(** The absorption loop: the first of [bs] equal to [b], else their number. *)
Fixpoint absorb (bs : list Z) (b : Z) : nat :=
  match bs with
  | [] => O
  | x :: bs' => if decide (u32 x = b) then O else S (absorb bs' b)
  end.
Definition log_write (b : nat) : L unit :=
  let! l := the id in
  if decide (LOGSIZE ≤ lh_n (log_lh l) ∨ log_size l - 1 ≤ lh_n (log_lh l))
  then panic "too big a transaction" else
  if decide (log_outstanding l < 1) then panic "log_write outside of trans" else
  io (k_acquire "log") ;;;
  let! bn := io (io_blockno b) in
  let! h := the log_lh in
  let i := absorb (take (Z.to_nat (lh_n h)) (lh_block h)) bn in
  put_lh_block i (s32 bn) ;;;
  (if decide (Z.of_nat i = lh_n h) then set_n (lh_n h + 1) else skip) ;;;
  io (io_set_dirty b) ;;;
  io (k_release "log").
End log.
