(* ===== verification/LogSpec.v ===== *)
(** * Crash safety of the log

    [apply_puts ws d] is the disk [d] after the block writes [ws]: the disk a
    crash leaves behind is [apply_puts] of a prefix of the writes issued.
    [logical start d] is what recovery makes of the disk [d]: the contents of
    the file system.  The code of log.c is related to both below. *)

From S2P Require Import Prelude CString Words ProcData Sync Block Log.
Local Open Scope Z_scope.

(** ** Writes *)
Definition apply_put (d : Z → block) (w : Z * block) : Z → block := <[w.1 := w.2]> d.
Definition apply_puts (ws : list (Z * block)) (d : Z → block) : Z → block := foldl apply_put d ws.

(** The last write of [ws] to block [n]. *)
Fixpoint last_put (ws : list (Z * block)) (n : Z) : option block :=
  match ws with
  | [] => None
  | (m, x) :: ws' =>
      match last_put ws' n with
      | Some y => Some y
      | None => if decide (m = n) then Some x else None
      end
  end.
Lemma apply_puts_lookup ws d n : apply_puts ws d n = default (d n) (last_put ws n).
Proof.
  revert d. induction ws as [|[m x] ws IH]; intros d; [done|].
  change (apply_puts ((m, x) :: ws) d) with (apply_puts ws (apply_put d (m, x))). rewrite IH. simpl.
  destruct (last_put ws n); simpl; [done|]. unfold apply_put. simpl.
  case_decide; simplify_eq; [by rewrite fn_lookup_insert|by rewrite fn_lookup_insert_ne].
Qed.
Lemma apply_puts_app ws ws' d : apply_puts (ws ++ ws') d = apply_puts ws' (apply_puts ws d).
Proof. apply foldl_app. Qed.
Lemma last_put_None ws n : n ∉ ws.*1 → last_put ws n = None.
Proof.
  induction ws as [|[m x] ws IH]; [done|]. simpl. intros Hn.
  rewrite IH, decide_False by set_solver. done.
Qed.
Lemma last_put_is_Some ws n : n ∈ ws.*1 → is_Some (last_put ws n).
Proof.
  induction ws as [|[m x] ws IH]; simpl; [by intros []%elem_of_nil|].
  intros [->|Hn]%elem_of_cons.
  - destruct (last_put ws m); [by eexists|]. rewrite decide_True by done. by eexists.
  - destruct (IH Hn) as [y ->]. by eexists.
Qed.
Lemma apply_puts_out ws d n : n ∉ ws.*1 → apply_puts ws d n = d n.
Proof. intros. by rewrite apply_puts_lookup, last_put_None. Qed.
Lemma take_fst_sub k (ws : list (Z * block)) n : n ∈ (take k ws).*1 → n ∈ ws.*1.
Proof. intros Hn. rewrite <- (take_drop k ws), fmap_app. set_solver. Qed.
(** Writing some of the blocks first does not change the result of writing all. *)
Lemma apply_puts_again ws ws' d n :
  (∀ m, m ∈ ws'.*1 → m ∈ ws.*1) → apply_puts ws (apply_puts ws' d) n = apply_puts ws d n.
Proof.
  intros Hsub. rewrite !(apply_puts_lookup ws). destruct (last_put ws n) eqn:Hl; [done|]. simpl.
  apply apply_puts_out. intros Hn. destruct (last_put_is_Some ws n (Hsub _ Hn)) as [? ?]. congruence.
Qed.

(** ** The header block *)
Definition hdr_n (x : block) : Z := s32 (default 0 (get_word x 0)).
Definition hdr_entries (x : block) : list Z :=
  (λ i, default 0 (get_word x (lh_off i))) <$> seq 0 (Z.to_nat (hdr_n x)).

Lemma length_put_blocks x i bs y : put_blocks x i bs = Some y → length y = length x.
Proof.
  revert x i. induction bs as [|b bs IH]; intros x i; simpl; [by intros [= ->]|].
  destruct (put_word x _ b) as [z|] eqn:Hz; [|done]. simpl. intros Hy.
  rewrite (IH _ _ Hy). exact (length_put_le _ _ _ _ _ Hz).
Qed.
Lemma put_blocks_Some x i bs : (lh_off (i + length bs) ≤ length x)%nat → is_Some (put_blocks x i bs).
Proof.
  revert x i. induction bs as [|b bs IH]; intros x i Hl; simpl in *; [by eexists|].
  unfold lh_off in *.
  destruct (put_le_Some 4 x (lh_off i) b) as [y Hy]; [unfold lh_off; lia|].
  change (put_word x _ b) with (put_le 4 x (lh_off i) b). rewrite Hy. simpl. apply IH.
  rewrite (length_put_le _ _ _ _ _ Hy). lia.
Qed.
Lemma put_blocks_before x i bs y off :
  put_blocks x i bs = Some y → (off + 4 ≤ lh_off i)%nat → get_word y off = get_word x off.
Proof.
  revert x i. induction bs as [|b bs IH]; intros x i; simpl; [by intros [= ->]|].
  destruct (put_word x _ b) as [z|] eqn:Hz; [|done]. simpl. intros Hy Ho.
  rewrite (IH _ _ Hy) by (unfold lh_off in *; lia).
  apply (get_put_le_ne 4 4 _ _ _ _ _ Hz). by left.
Qed.
Lemma put_blocks_get x i bs y k b :
  put_blocks x i bs = Some y → bs !! k = Some b → get_word y (lh_off (i + k)) = Some (u32 b).
Proof.
  revert x i k. induction bs as [|c bs IH]; intros x i k; simpl; [done|].
  destruct (put_word x _ c) as [z|] eqn:Hz; [|done]. simpl. intros Hy Hk. destruct k as [|k].
  - simplify_eq/=. rewrite Nat.add_0_r. rewrite (put_blocks_before _ _ _ _ _ Hy) by (unfold lh_off; lia).
    by apply (get_put_word _ _ _ _ Hz).
  - replace (i + S k)%nat with (S i + k)%nat by lia. by eapply IH.
Qed.

(** What write_head stores: the header [n, bs] over the old bytes [x]. *)
Definition header_of (x : block) (bs : list Z) (y : block) : Prop :=
  ∃ z, put_word x 0 (Z.of_nat (length bs)) = Some z ∧ put_blocks z 0 bs = Some y.

Lemma header_exists x bs : is_block x → Z.of_nat (length bs) ≤ LOGSIZE → ∃ y, header_of x bs y.
Proof.
  unfold is_block, BSIZE, LOGSIZE, MAXOPBLOCKS, header_of. intros Hx Hb.
  destruct (put_le_Some 4 x 0 (Z.of_nat (length bs))) as [z Hz]; [lia|].
  destruct (put_blocks_Some z 0 bs) as [y Hy].
  { rewrite (length_put_le _ _ _ _ _ Hz). unfold lh_off. lia. }
  by exists y, z.
Qed.
Lemma header_is_block x bs y : header_of x bs y → is_block x → is_block y.
Proof.
  intros (z & Hz & Hy) Hx. unfold is_block in *.
  by rewrite (length_put_blocks _ _ _ _ Hy), (length_put_le _ _ _ _ _ Hz).
Qed.
(** Reading a header back gives the list that was stored. *)
Lemma header_roundtrip x bs y :
  header_of x bs y → Z.of_nat (length bs) ≤ LOGSIZE → Forall (λ b, 0 ≤ b < 2 ^ 31) bs →
  hdr_n y = Z.of_nat (length bs) ∧ hdr_entries y = bs.
Proof.
  unfold LOGSIZE, MAXOPBLOCKS. intros (z & Hz & Hy) Hl Hbs.
  assert (hdr_n y = Z.of_nat (length bs)) as Hn.
  { unfold hdr_n. rewrite (put_blocks_before _ _ _ _ _ Hy) by (unfold lh_off; lia).
    rewrite (get_put_word _ _ _ _ Hz). simpl. rewrite u32_small, s32_small by lia. done. }
  split; [done|]. unfold hdr_entries. rewrite Hn, Nat2Z.id. apply list_eq. intros k.
  rewrite list_lookup_fmap. destruct (decide (k < length bs)%nat) as [Hk|Hk].
  - destruct (lookup_lt_is_Some_2 bs k Hk) as [b Hb]. rewrite lookup_seq_lt by done. simpl.
    pose proof (put_blocks_get _ _ _ _ _ _ Hy Hb) as Hg. cbn [Nat.add] in Hg. rewrite Hg, Hb. simpl.
    rewrite Forall_lookup in Hbs. specialize (Hbs _ _ Hb). by rewrite u32_small by lia.
  - rewrite lookup_seq_ge by lia. symmetry. apply lookup_ge_None_2. lia.
Qed.

(** ** What recovery makes of a disk *)
Definition log_puts (start : Z) (d : Z → block) : list (Z * block) :=
  imap (λ k b, (b, d (start + 1 + Z.of_nat k))) (hdr_entries (d start)).
Definition logical (start : Z) (d : Z → block) : Z → block := apply_puts (log_puts start d) d.

(** Block [n] is not part of the log. *)
Definition home (start size n : Z) : Prop := n < start ∨ start + size ≤ n.

Record log_layout (start lsize size : Z) : Prop := mklay {
  lay_start : 0 ≤ start; lay_size : 1 ≤ lsize; lay_end : start + lsize ≤ size; lay_disk : size < 2 ^ 31
}.
(** Block numbers that a transaction may hold. *)
Record entries_ok (start lsize size : Z) (bs : list Z) : Prop := mkent {
  en_logsize : Z.of_nat (length bs) ≤ LOGSIZE;
  en_room : Z.of_nat (length bs) ≤ lsize - 1;
  en_home : Forall (λ b, 0 ≤ b < size ∧ home start lsize b) bs
}.

Lemma imap_fst {A B} (g : nat → A → B) (l : list A) : (imap (λ k b, (b, g k b)) l).*1 = l.
Proof.
  rewrite fmap_imap. apply list_eq. intros i. rewrite list_lookup_imap. by destruct (l !! i).
Qed.
Lemma log_puts_fst start d : (log_puts start d).*1 = hdr_entries (d start).
Proof. apply (imap_fst (λ k _, d (start + 1 + Z.of_nat k))). Qed.

(** Two disks with the same log area have the same committed writes. *)
Lemma log_puts_ext start lsize size d d' :
  log_layout start lsize size → entries_ok start lsize size (hdr_entries (d start)) →
  (∀ n, ¬ home start lsize n → d' n = d n) → log_puts start d' = log_puts start d.
Proof.
  intros [H0 H1 H2 H3] [Hl Hr _] Hd. unfold log_puts.
  rewrite (Hd start) by (unfold home; lia). apply imap_ext. intros k b Hk. simpl. f_equal.
  apply Hd. apply lookup_lt_Some in Hk. unfold home. lia.
Qed.

(** ** Crashes, on disks *)
Section crash.
Context (start lsize size : Z) (Hlay : log_layout start lsize size).

Lemma puts_keep_log ws d n :
  Forall (λ b, 0 ≤ b < size ∧ home start lsize b) ws.*1 → ¬ home start lsize n →
  apply_puts ws d n = d n.
Proof.
  intros Hws Hn. apply apply_puts_out. intros Hin. rewrite list.Forall_forall in Hws.
  by destruct (Hws _ Hin).
Qed.
Lemma start_in_log : ¬ home start lsize start.
Proof. destruct Hlay. unfold home. lia. Qed.

(** Clearing the header of an installed log. *)
Lemma logical_empty d n : hdr_entries (d start) = [] → logical start d n = d n.
Proof. intros He. unfold logical, log_puts. by rewrite He. Qed.

(** Recovery may be cut short anywhere, and any number of times. *)
Lemma crash_in_recovery d y k n :
  entries_ok start lsize size (hdr_entries (d start)) → hdr_entries y = [] → home start lsize n →
  logical start (apply_puts (take k (log_puts start d ++ [(start, y)])) d) n = logical start d n.
Proof.
  intros Hok Hy Hn. set (ws := log_puts start d).
  assert (n ≠ start) as Hne by (intros ->; by apply start_in_log).
  destruct (decide (k ≤ length ws)%nat) as [Hk|Hk].
  - rewrite take_app_le by done. unfold logical at 1.
    rewrite (log_puts_ext start lsize size d); [|done|done|].
    + apply apply_puts_again. intros m. apply take_fst_sub.
    + intros m Hm. apply puts_keep_log; [|done]. apply Forall_fmap. apply Forall_take.
      apply Forall_fmap. unfold ws. rewrite log_puts_fst. apply Hok.
  - rewrite take_ge by (rewrite length_app; simpl; lia). rewrite apply_puts_app.
    rewrite logical_empty; [|by simpl; unfold apply_put; simpl; rewrite fn_lookup_insert].
    simpl. unfold apply_put. simpl. by rewrite fn_lookup_insert_ne.
Qed.

(** The writes of a commit of the blocks [bs] with contents [mem]. *)
Definition log_writes (mem : Z → block) (bs : list Z) : list (Z * block) :=
  imap (λ k b, (start + 1 + Z.of_nat k, mem b)) bs.
Definition home_writes (mem : Z → block) (bs : list Z) : list (Z * block) := (λ b, (b, mem b)) <$> bs.
Definition commit_writes (mem : Z → block) bs y y0 : list (Z * block) :=
  log_writes mem bs ++ [(start, y)] ++ home_writes mem bs ++ [(start, y0)].

Lemma last_put_log_writes (mem : Z → block) bs k b i :
  bs !! k = Some b → last_put (imap (λ j b, (start + 1 + Z.of_nat (i + j), mem b)) bs)
    (start + 1 + Z.of_nat (i + k)) = Some (mem b).
Proof.
  revert k i. induction bs as [|c bs IH]; intros k i; [done|]. intros Hk. simpl.
  destruct k as [|k]; simplify_eq/=.
  - rewrite last_put_None; [by rewrite decide_True|].
    intros ((m & x) & Hm & Hin)%list_elem_of_fmap.
    apply elem_of_lookup_imap in Hin as (j & c & [= -> ->] & _). simpl in Hm. lia.
  - specialize (IH k (S i) Hk).
    rewrite (imap_ext _ (λ j b, (start + 1 + Z.of_nat (S i + j), mem b)))
      by (intros j c' _; simpl; do 2 f_equal; lia).
    replace (start + 1 + Z.of_nat (i + S k)) with (start + 1 + Z.of_nat (S i + k)) by lia.
    by rewrite IH.
Qed.
Lemma log_writes_read mem bs k b d :
  bs !! k = Some b → apply_puts (log_writes mem bs) d (start + 1 + Z.of_nat k) = mem b.
Proof.
  intros Hk. rewrite apply_puts_lookup.
  pose proof (last_put_log_writes mem bs k b 0 Hk) as Hl. simpl in Hl. unfold log_writes. by rewrite Hl.
Qed.
Lemma log_writes_fst_log mem bs n :
  Z.of_nat (length bs) ≤ lsize - 1 → n ∈ (log_writes mem bs).*1 → ¬ home start lsize n ∧ n ≠ start.
Proof.
  intros Hl ((m & x) & -> & Hin)%list_elem_of_fmap.
  apply elem_of_lookup_imap in Hin as (j & c & [= -> ->] & Hj%lookup_lt_Some).
  unfold home. simpl. destruct Hlay. lia.
Qed.
Lemma home_writes_apply mem bs d n :
  apply_puts (home_writes mem bs) d n = if decide (n ∈ bs) then mem n else d n.
Proof.
  rewrite apply_puts_lookup. case_decide as Hn.
  - assert (last_put (home_writes mem bs) n = Some (mem n)) as ->; [|done].
    induction bs as [|b bs IH]; [by apply elem_of_nil in Hn|]. simpl.
    destruct (decide (n ∈ bs)) as [Hin|Hin]; [by rewrite IH|].
    apply elem_of_cons in Hn as [->|?]; [|done]. rewrite last_put_None.
    + by rewrite decide_True.
    + unfold home_writes. rewrite <- list_fmap_compose, list_fmap_id. done.
  - rewrite last_put_None; [done|]. unfold home_writes. by rewrite <- list_fmap_compose, list_fmap_id.
Qed.

(** A commit is atomic: cut at any point, recovery finds all of its writes or none. *)
Lemma crash_in_commit d mem bs y y0 k :
  hdr_entries (d start) = [] → entries_ok start lsize size bs →
  hdr_entries y = bs → hdr_entries y0 = [] →
  (∀ n, home start lsize n → n ∉ bs → mem n = d n) →
  let d' := apply_puts (take k (commit_writes mem bs y y0)) d in
  (∀ n, home start lsize n → logical start d' n = d n) ∨
  (∀ n, home start lsize n → logical start d' n = mem n).
Proof.
  intros Hd Hok Hy Hy0 Hsame. set (w1 := log_writes mem bs). cbv zeta.
  assert (∀ j n, n ∈ (take j w1).*1 → n ∈ w1.*1) as Htake.
  { intros j n. apply take_fst_sub. }
  assert (∀ n, n ∈ w1.*1 → ¬ home start lsize n ∧ n ≠ start) as Hw1.
  { intros n. apply log_writes_fst_log, Hok. }
  unfold commit_writes. fold w1. destruct (decide (k ≤ length w1)%nat) as [Hk|Hk].
  - left. intros n Hn. rewrite take_app_le by done.
    assert (start ∉ (take k w1).*1) as Hs by (intros Hin%Htake%Hw1; tauto).
    rewrite logical_empty by (by rewrite apply_puts_out).
    apply apply_puts_out. intros Hin%Htake%Hw1. tauto.
  - right. intros n Hn. rewrite take_app_ge by lia. rewrite apply_puts_app.
    set (d1 := apply_puts w1 d).
    assert (n ≠ start) as Hne by (intros ->; by apply start_in_log).
    assert (∀ m, home start lsize m → d1 m = d m) as Hd1.
    { intros m Hm. apply apply_puts_out. intros Hin%Hw1. tauto. }
    destruct (k - length w1)%nat as [|k'] eqn:Hk'; [lia|]. cbn [app take].
    change (apply_puts ((start, y) :: ?l) ?d) with (apply_puts l (apply_put d (start, y))).
    set (d2 := apply_put d1 (start, y)).
    assert (∀ m, m ≠ start → d2 m = d1 m) as Hd2 by (intros m Hm; by apply fn_lookup_insert_ne).
    assert (log_puts start d2 = home_writes mem bs) as Hlp.
    { unfold log_puts, home_writes. unfold d2 at 2. unfold apply_put. simpl. rewrite fn_lookup_insert, Hy.
      apply list_eq. intros j. rewrite list_lookup_imap, list_lookup_fmap.
      destruct (bs !! j) as [b|] eqn:Hj; [|done]. simpl. do 2 f_equal.
      rewrite Hd2 by lia. by apply log_writes_read. }
    assert (entries_ok start lsize size (hdr_entries (d2 start))) as Hok2.
    { unfold d2, apply_put. simpl. by rewrite fn_lookup_insert, Hy. }
    rewrite <- Hlp. rewrite crash_in_recovery by done. unfold logical. rewrite Hlp, home_writes_apply.
    case_decide as Hin; [done|]. rewrite Hd2, Hd1 by done. symmetry. by apply Hsame.
Qed.
End crash.
