(* ===== verification/LogRefine.v ===== *)
(** * log.c issues the writes that LogSpec describes *)

From S2P Require Import Prelude CString Words ProcData Sync Block Log LogSpec.
Local Open Scope Z_scope.

(** A block written through the cache. *)
Definition v_put (v : bview) (w : Z * block) : bview :=
  mkview (v_size v) (<[w.1 := w.2]> (v_disk v)) (<[w.1 := w.2]> (v_mem v)) (v_held v)
    (v_pinned v ∖ {[w.1]}) (v_trail v ++ [w]).
Definition v_puts (ws : list (Z * block)) (v : bview) : bview := foldl v_put v ws.

Lemma v_puts_app ws ws' v : v_puts (ws ++ ws') v = v_puts ws' (v_puts ws v).
Proof. apply foldl_app. Qed.
Lemma v_puts_size ws v : v_size (v_puts ws v) = v_size v.
Proof. revert v. induction ws as [|w ws IH]; intros v; [done|]. simpl. by rewrite IH. Qed.
Lemma v_puts_held ws v : v_held (v_puts ws v) = v_held v.
Proof. revert v. induction ws as [|w ws IH]; intros v; [done|]. simpl. by rewrite IH. Qed.
Lemma v_puts_disk ws v : v_disk (v_puts ws v) = apply_puts ws (v_disk v).
Proof. revert v. induction ws as [|w ws IH]; intros v; [done|]. simpl. by rewrite IH. Qed.
Lemma v_puts_mem ws v : v_mem (v_puts ws v) = apply_puts ws (v_mem v).
Proof. revert v. induction ws as [|w ws IH]; intros v; [done|]. simpl. by rewrite IH. Qed.
Lemma v_puts_trail ws v : v_trail (v_puts ws v) = v_trail v ++ ws.
Proof.
  revert v. induction ws as [|w ws IH]; intros v; simpl; [by rewrite app_nil_r|].
  rewrite IH. simpl. by rewrite <- app_assoc.
Qed.
Lemma v_puts_pinned ws v : v_pinned (v_puts ws v) = v_pinned v ∖ list_to_set ws.*1.
Proof.
  revert v. induction ws as [|w ws IH]; intros v; simpl; [set_solver|]. rewrite IH. simpl. set_solver.
Qed.

Section rules.
Context {C : Type} `{BlockIOLaws C} (E : string → Prop).
Implicit Types (s : lstate C) (v : bview) (l : log).

Lemma wp_io {A} (m : M C A) Q s :
  wp E m (λ a c, Q a (set_ls_io c s)) (ls_io s) → wp E (io m) Q s.
Proof. apply wp_zoom. Qed.

(** The log is [l] and the blocks are [v], with no lock and no buffer held. *)
Definition at_rest (l : log) (v : bview) (s : lstate C) : Prop :=
  ls_log s = l ∧ view [] (ls_io s) v ∧ v_held v = [].

Lemma wp_get_lh_block l i b Q s :
  ls_log s = l → lh_block (log_lh l) !! i = Some b → Q b s → wp E (get_lh_block i) Q s.
Proof. intros <- Hb HQ. apply wp_bind, wp_gets. by eapply wp_of_opt. Qed.
Lemma wp_the {A} (f : log → A) Q s : Q (f (ls_log s)) s → wp E (the f) Q s.
Proof. done. Qed.

(** Two buffers are taken, the contents of one written to the other. *)
Lemma remove1_pair (x y : nat * Z) : x ≠ y → remove1 x [y; x] = [y] ∧ remove1 x [x; y] = [y].
Proof. intros Hne. by rewrite remove1_cons_ne, !remove1_head. Qed.
Lemma copy_view v (a b : nat) (m n : Z) x held :
  v_held v = [] → a ≠ b → x = v_mem v m →
  held = [(b, n); (a, m)] ∨ held = [(a, m); (b, n)] →
  v_drop b n (v_drop a m (v_write n (v_store n x
    (mkview (v_size v) (v_disk v) (v_mem v) held (v_pinned v) (v_trail v))))) = v_put v (n, x).
Proof.
  intros Hh Hab -> Hcase. unfold v_drop, v_write, v_store, v_put. cbn [v_size v_disk v_mem v_held v_pinned v_trail fst snd].
  assert (remove1 (a, m) held = [(b, n)]) as ->.
  { destruct (remove1_pair (a, m) (b, n)) as [H1 H2]; [congruence|]. by destruct Hcase as [->| ->]. }
  by rewrite remove1_head, fn_lookup_insert, Hh.
Qed.

Lemma busy_none v : v_held v = [] → v_busy v = v_pinned v.
Proof. intros Hh. unfold v_busy. rewrite Hh. set_solver. Qed.
Lemma busy_one v b n : v_held v = [] → v_busy (v_hold b n v) = {[n]} ∪ v_pinned v.
Proof. intros Hh. unfold v_busy. simpl. rewrite Hh. set_solver. Qed.

(** An unpinned block agrees with the disk. *)
Lemma unpinned_clean s v n :
  view [] (ls_io s) v → v_held v = [] → 0 ≤ n < v_size v → n ∉ v_pinned v → v_mem v n = v_disk v n.
Proof. intros Hv Hh Hn Hp. eapply view_unpinned; [exact Hv|done|]. by rewrite busy_none. Qed.

(** install_one: the log block [m] goes to its home [n]. *)
Lemma wp_install_one l v s tail n :
  at_rest l v s → log_dev l = ROOTDEV → lh_block (log_lh l) !! tail = Some n →
  let m := log_start l + Z.of_nat tail + 1 in
  0 ≤ m < v_size v → 0 ≤ n < v_size v → v_size v < 2 ^ 31 → m ≠ n → m ∉ v_pinned v →
  (size (v_pinned v) < NBUF)%nat → (n ∈ v_pinned v ∨ S (size (v_pinned v)) < NBUF)%nat →
  wp E (install_one tail) (λ _ s', at_rest l (v_put v (n, v_mem v m)) s') s.
Proof.
  intros (Hl & Hv & Hh) Hdev Hb m Hm Hn Hsz Hne Hmp Hroom Hroom2.
  pose proof (unpinned_clean s v m Hv Hh Hm Hmp) as Hclean.
  pose proof (view_blocks _ _ _ m Hv Hm) as [Hblk _].
  apply wp_bind, wp_the. rewrite Hl, Hdev. apply wp_bind, wp_the. rewrite Hl.
  rewrite u32_small by (fold m; lia). fold m.
  apply wp_bind, wp_io. eapply io_bread_law; [exact Hv|set_solver|exact Hm|by rewrite Hh; set_solver|right; by rewrite busy_none|].
  intros a c1 _ Hv1. apply wp_bind. eapply wp_get_lh_block; [exact Hl|exact Hb|]. simpl.
  apply wp_bind, wp_io. rewrite u32_small by lia.
  eapply io_bread_law; [exact Hv1|set_solver|exact Hn|simpl; rewrite Hh; set_solver| |].
  { destruct Hroom2 as [Hp|Hr]; [by left|right]. rewrite busy_one by done.
    rewrite size_union_alt, size_singleton.
    pose proof (subseteq_size (v_pinned v ∖ {[m]}) (v_pinned v)) as Hs. specialize (Hs ltac:(set_solver)).
    unfold NBUF in *. lia. }
  intros b c2 Hba Hv2. simpl in Hba.
  assert (a ≠ b) as Hab by set_solver.
  apply wp_bind, wp_io. eapply io_data_law; [exact Hv2|right; by left|]. simpl.
  apply wp_bind, wp_io. eapply io_store_law; [exact Hv2|by left|exact Hblk|]. intros c3 Hv3.
  apply wp_bind, wp_io. eapply io_bwrite_law; [exact Hv3|by left|]. intros c4 Hv4.
  apply wp_bind, wp_io. eapply (io_brelse_law _ a m); [exact Hv4|set_solver|set_solver|right; by left| |].
  { right. simpl. rewrite !fn_lookup_insert_ne by done. exact Hclean. }
  intros c5 Hv5. apply wp_io. eapply (io_brelse_law _ b n); [exact Hv5|set_solver|set_solver| | |].
  { simpl. rewrite Hh, remove1_cons_ne by congruence. by left. }
  { right. simpl. by rewrite !fn_lookup_insert. }
  intros c6 Hv6. split_and!; [done| |exact Hh]. unfold v_hold in Hv6. simpl in Hv6. rewrite Hh in Hv6.
  by rewrite (copy_view v a b) in Hv6 by auto.
Qed.

(** write_one: the cached block [n] goes to the log block [m]. *)
Lemma wp_write_one l v s tail n :
  at_rest l v s → log_dev l = ROOTDEV → lh_block (log_lh l) !! tail = Some n →
  let m := log_start l + Z.of_nat tail + 1 in
  0 ≤ m < v_size v → 0 ≤ n < v_size v → v_size v < 2 ^ 31 → m ≠ n → m ∉ v_pinned v →
  (size (v_pinned v) < NBUF)%nat → n ∈ v_pinned v →
  wp E (write_one tail) (λ _ s', at_rest l (v_put v (m, v_mem v n)) s') s.
Proof.
  intros (Hl & Hv & Hh) Hdev Hb m Hm Hn Hsz Hne Hmp Hroom Hpin.
  pose proof (view_blocks _ _ _ n Hv Hn) as [Hblk _].
  apply wp_bind, wp_the. rewrite Hl, Hdev. apply wp_bind, wp_the. rewrite Hl.
  rewrite u32_small by (fold m; lia). fold m.
  apply wp_bind, wp_io. eapply io_bread_law; [exact Hv|set_solver|exact Hm|by rewrite Hh; set_solver|right; by rewrite busy_none|].
  intros a c1 _ Hv1. apply wp_bind. eapply wp_get_lh_block; [exact Hl|exact Hb|]. simpl.
  apply wp_bind, wp_io. rewrite u32_small by lia.
  eapply io_bread_law; [exact Hv1|set_solver|exact Hn|simpl; rewrite Hh; set_solver|by left|].
  intros b c2 Hba Hv2. simpl in Hba.
  assert (b ≠ a) as Hab by set_solver.
  apply wp_bind, wp_io. eapply io_data_law; [exact Hv2|by left|]. simpl.
  apply wp_bind, wp_io. eapply (io_store_law _ a m); [exact Hv2|right; by left|exact Hblk|]. intros c3 Hv3.
  apply wp_bind, wp_io. eapply (io_bwrite_law _ a m); [exact Hv3|right; by left|]. intros c4 Hv4.
  apply wp_bind, wp_io. eapply (io_brelse_law _ b n); [exact Hv4|set_solver|set_solver|by left| |].
  { left. simpl. set_solver. }
  intros c5 Hv5. apply wp_io. eapply (io_brelse_law _ a m); [exact Hv5|set_solver|set_solver| | |].
  { simpl. rewrite Hh, remove1_head. by left. }
  { right. simpl. by rewrite !fn_lookup_insert. }
  intros c6 Hv6. split_and!; [done| |exact Hh]. unfold v_hold in Hv6. simpl in Hv6. rewrite Hh in Hv6.
  by rewrite (copy_view v b a) in Hv6 by auto.
Qed.

(** write_head *)
Lemma wp_write_head l v s bs y :
  at_rest l v s → log_dev l = ROOTDEV → lh_n (log_lh l) = Z.of_nat (length bs) →
  take (length bs) (lh_block (log_lh l)) = bs → header_of (v_mem v (log_start l)) bs y →
  0 ≤ log_start l < v_size v → v_size v < 2 ^ 31 → log_start l ∉ v_pinned v →
  (size (v_pinned v) < NBUF)%nat →
  wp E write_head (λ _ s', at_rest l (v_put v (log_start l, y)) s') s.
Proof.
  intros (Hl & Hv & Hh) Hdev Hn Hbs Hy Hst Hsz Hp Hroom.
  pose proof (view_blocks _ _ _ _ Hv Hst) as [Hblk _].
  apply wp_bind, wp_the. rewrite Hl, Hdev. apply wp_bind, wp_the. rewrite Hl.
  rewrite u32_small by lia.
  apply wp_bind, wp_io. eapply io_bread_law; [exact Hv|set_solver|exact Hst|by rewrite Hh; set_solver|right; by rewrite busy_none|].
  intros a c1 _ Hv1. apply wp_bind, wp_io. eapply io_data_law; [exact Hv1|by left|]. simpl.
  apply wp_bind, wp_the. simpl. rewrite Hl, Hn. destruct Hy as (z & Hz & Hy').
  apply wp_bind. eapply wp_of_opt; [exact Hz|]. apply wp_bind.
  rewrite Nat2Z.id. rewrite decide_True.
  2:{ pose proof (f_equal length Hbs) as Hlen. rewrite length_take in Hlen. lia. }
  rewrite Hbs. eapply wp_of_opt; [exact Hy'|].
  apply wp_bind, wp_io. eapply io_store_law; [exact Hv1|by left| |].
  { eapply header_is_block; [by exists z|done]. }
  intros c2 Hv2. apply wp_bind, wp_io. eapply io_bwrite_law; [exact Hv2|by left|]. intros c3 Hv3.
  apply wp_io. eapply io_brelse_law; [exact Hv3|set_solver|set_solver|by left| |].
  { right. simpl. by rewrite !fn_lookup_insert. }
  intros c4 Hv4. split_and!; [done| |exact Hh].
  assert (v_drop a (log_start l) (v_write (log_start l) (v_store (log_start l) y (v_hold a (log_start l) v))) =
    v_put v (log_start l, y)) as Heq; [|by rewrite Heq in Hv4].
  unfold v_drop, v_write, v_store, v_hold, v_put. simpl. rewrite Hh.
  by rewrite remove1_head, fn_lookup_insert.
Qed.

(** ** The loops *)

(** A loop over [tail] whose turn [k] performs the [k]-th write of [ws]. *)
Lemma wp_put_loop l v s (body : nat → M (lstate C) unit) ws n :
  at_rest l v s → length ws = n →
  (∀ k w s', ws !! k = Some w → at_rest l (v_puts (take k ws) v) s' →
     wp E (body k) (λ _ s'', at_rest l (v_put (v_puts (take k ws) v) w) s'') s') →
  wp E (mfor (seq 0 n) body) (λ _ s', at_rest l (v_puts ws v) s') s.
Proof.
  intros Hs Hlen Hbody. eapply wp_mono.
  - apply (wp_mfor E _ _ (λ rest s', ∃ k, rest = seq k (n - k) ∧ (k ≤ n)%nat ∧
      at_rest l (v_puts (take k ws) v) s')).
    + exists O. rewrite Nat.sub_0_r. split_and!; [done|lia|exact Hs].
    + intros x rest s1 (k & Hr & Hk & Hs1).
      destruct (n - k)%nat as [|m] eqn:Hm; [done|]. simpl in Hr. injection Hr as -> ->.
      destruct (lookup_lt_is_Some_2 ws k) as [w Hw]; [lia|].
      eapply wp_mono; [by apply Hbody|]. intros [] s2 Hs2. exists (S k).
      split_and!; [f_equal; lia|lia|].
      rewrite (take_S_r _ _ _ Hw), v_puts_app. exact Hs2.
  - intros [] s' (k & Hr & Hk & Hs'). destruct (n - k)%nat eqn:Hm; [|done].
    by rewrite take_ge in Hs' by lia.
Qed.

Section loops.
Context (l : log) (v : bview) (lsize : Z) (bs : list Z).
Abbreviation start := (log_start l).
Context (Hlay : log_layout start lsize (v_size v)) (Hent : entries_ok start lsize (v_size v) bs).
Context (Hdev : log_dev l = ROOTDEV) (Hn : lh_n (log_lh l) = Z.of_nat (length bs)).
Context (Hbs : take (length bs) (lh_block (log_lh l)) = bs).
Context (Hpin : ∀ m, ¬ home start lsize m → m ∉ v_pinned v).

Lemma entry_lookup k b : bs !! k = Some b → lh_block (log_lh l) !! k = Some b.
Proof.
  intros Hk. rewrite <- Hbs in Hk. pose proof (lookup_lt_Some _ _ _ Hk) as Hlt.
  rewrite lookup_take in Hk. by case_decide.
Qed.
Lemma entry_home k b : bs !! k = Some b → 0 ≤ b < v_size v ∧ home start lsize b.
Proof. intros Hk. pose proof (en_home _ _ _ _ Hent) as Hf. rewrite Forall_lookup in Hf. eauto. Qed.
Lemma entry_home_in k b : b ∈ take k bs → home start lsize b.
Proof.
  intros Hin. assert (b ∈ bs) as (j & Hj)%list_elem_of_lookup by (rewrite <- (take_drop k bs); set_solver).
  by eapply entry_home.
Qed.
Lemma log_block_range k b :
  bs !! k = Some b → 0 ≤ start + Z.of_nat k + 1 < v_size v ∧ ¬ home start lsize (start + Z.of_nat k + 1).
Proof.
  intros Hk%lookup_lt_Some. destruct Hlay, Hent. unfold home. lia.
Qed.

Definition install_writes : list (Z * block) :=
  imap (λ k b, (b, v_mem v (start + 1 + Z.of_nat k))) bs.
Lemma install_writes_fst : install_writes.*1 = bs.
Proof. apply (imap_fst (λ k _, v_mem v (start + 1 + Z.of_nat k))). Qed.

Lemma wp_install_trans s :
  at_rest l v s →
  v_pinned v = ∅ ∨ NoDup bs ∧ list_to_set bs ⊆ v_pinned v ∧ (size (v_pinned v) < NBUF)%nat →
  wp E install_trans (λ _ s', at_rest l (v_puts install_writes v) s') s.
Proof.
  intros Hs Hroom. unfold install_trans. apply wp_bind, wp_the.
  pose proof Hs as (Hl & _). rewrite Hl, Hn, Nat2Z.id.
  apply wp_put_loop; [done|by unfold install_writes; rewrite length_imap|].
  intros k w s' Hw Hs'. unfold install_writes in Hw. rewrite list_lookup_imap in Hw.
  destruct (bs !! k) as [b|] eqn:Hb; [|done]. simpl in Hw. injection Hw as <-.
  destruct (entry_home _ _ Hb) as [Hbr Hbh]. destruct (log_block_range _ _ Hb) as [Hmr Hmh].
  set (v' := v_puts (take k install_writes) v) in *.
  assert (∀ m, m ∈ (take k install_writes).*1 ↔ m ∈ take k bs) as Hk.
  { intros m. by rewrite fmap_take, install_writes_fst. }
  assert (v_pinned v' = v_pinned v ∖ list_to_set (take k bs)) as Hp'.
  { unfold v'. rewrite v_puts_pinned, fmap_take, install_writes_fst. done. }
  assert (v_mem v' (start + Z.of_nat k + 1) = v_mem v (start + 1 + Z.of_nat k)) as Hmem.
  { unfold v'. rewrite v_puts_mem. replace (start + Z.of_nat k + 1) with (start + 1 + Z.of_nat k) by lia.
    apply apply_puts_out. rewrite Hk. intros Hin.
    apply Hmh. replace (start + Z.of_nat k + 1) with (start + 1 + Z.of_nat k) by lia.
    by eapply entry_home_in. }
  assert (v_size v' = v_size v) as Hsz by apply v_puts_size.
  assert (size (v_pinned v') ≤ size (v_pinned v))%nat as Hle by (rewrite Hp'; apply subseteq_size; set_solver).
  rewrite <- Hmem. apply wp_install_one; rewrite ?Hsz; try done.
  - by apply entry_lookup.
  - apply Hlay.
  - intros Heq. by rewrite Heq in Hmh.
  - rewrite Hp'. intros [Hin _]%elem_of_difference. by apply (Hpin _ Hmh).
  - destruct Hroom as [He|(_ & _ & Hlt)]; [|unfold NBUF in *; lia].
    rewrite He, size_empty in Hle. unfold NBUF. lia.
  - destruct Hroom as [He|(Hnd & Hsub & Hlt)].
    + right. rewrite He, size_empty in Hle. unfold NBUF. lia.
    + left. rewrite Hp'. apply elem_of_difference. split.
      * apply Hsub, elem_of_list_to_set. by eapply list_elem_of_lookup_2.
      * rewrite elem_of_list_to_set. intros (j & Hj)%list_elem_of_lookup.
        pose proof (lookup_lt_Some _ _ _ Hj) as Hjk. rewrite length_take in Hjk.
        rewrite lookup_take_lt in Hj by lia. pose proof (NoDup_lookup _ _ _ _ Hnd Hj Hb). lia.
Qed.

Lemma wp_write_log s :
  at_rest l v s → list_to_set bs ⊆ v_pinned v → (size (v_pinned v) < NBUF)%nat →
  wp E write_log (λ _ s', at_rest l (v_puts (log_writes start (v_mem v) bs) v) s') s.
Proof.
  intros Hs Hsub Hlt. unfold write_log. apply wp_bind, wp_the.
  pose proof Hs as (Hl & _). rewrite Hl, Hn, Nat2Z.id.
  apply wp_put_loop; [done|by unfold log_writes; rewrite length_imap|].
  intros k w s' Hw Hs'. unfold log_writes in Hw. rewrite list_lookup_imap in Hw.
  destruct (bs !! k) as [b|] eqn:Hb; [|done]. simpl in Hw. injection Hw as <-.
  destruct (entry_home _ _ Hb) as [Hbr Hbh]. destruct (log_block_range _ _ Hb) as [Hmr Hmh].
  set (v' := v_puts _ v) in *.
  assert (∀ m, m ∈ (take k (log_writes start (v_mem v) bs)).*1 → ¬ home start lsize m) as Hk.
  { intros m Hm%take_fst_sub. eapply (log_writes_fst_log start lsize _ Hlay); [|exact Hm]. apply Hent. }
  assert (v_pinned v' = v_pinned v) as Hp'.
  { unfold v'. rewrite v_puts_pinned. apply set_eq. intros m. rewrite elem_of_difference, elem_of_list_to_set.
    split; [tauto|]. intros Hm. split; [done|]. intros Hin%Hk. by apply (Hpin _ Hin). }
  assert (v_mem v' b = v_mem v b) as Hmem.
  { unfold v'. rewrite v_puts_mem. apply apply_puts_out. intros Hin%Hk. done. }
  assert (v_size v' = v_size v) as Hsz by apply v_puts_size.
  rewrite <- Hmem. replace (start + 1 + Z.of_nat k) with (start + Z.of_nat k + 1) by lia.
  apply wp_write_one; rewrite ?Hsz, ?Hp'; try done.
  - by apply entry_lookup.
  - apply Hlay.
  - intros Heq. by rewrite Heq in Hmh.
  - by apply Hpin.
  - apply Hsub, elem_of_list_to_set. by eapply list_elem_of_lookup_2.
Qed.
End loops.
End rules.

(** A disk whose log recovery can read. *)
Record log_ok (start lsize size : Z) (d : Z → block) : Prop := mklok {
  lo_layout : log_layout start lsize size;
  lo_count : 0 ≤ hdr_n (d start);
  lo_entries : entries_ok start lsize size (hdr_entries (d start))
}.

Lemma length_hdr_entries x : length (hdr_entries x) = Z.to_nat (hdr_n x).
Proof. unfold hdr_entries. by rewrite length_fmap, length_seq. Qed.

Lemma hold_drop v a n : v_drop a n (v_hold a n v) = v.
Proof. destruct v. unfold v_drop, v_hold. simpl. by rewrite remove1_head. Qed.

Section recovery.
Context {C : Type} `{BlockIOLaws C} (E : string → Prop).
Implicit Types (s : lstate C) (v : bview) (l : log).

(** The loop of read_head over the entries of [x]. *)
Lemma wp_read_entries x n l s :
  ls_log s = l → length x = 512%nat → (n ≤ 30)%nat → (n ≤ length (lh_block (log_lh l)))%nat →
  ∀ c : C, ls_io s = c →
  wp E (mfor (seq 0 n) (λ i, let! b := of_opt (get_word x (lh_off i)) in put_lh_block i (s32 b)))
    (λ _ s', ls_io s' = c ∧ ∃ bl, ls_log s' = set_log_lh (mklh (lh_n (log_lh l)) bl) l ∧
       length bl = length (lh_block (log_lh l)) ∧
       take n bl = (λ i, s32 (default 0 (get_word x (lh_off i)))) <$> seq 0 n) s.
Proof.
  intros Hl Hx Hn Hlen c Hc. eapply wp_mono.
  - apply (wp_mfor E _ _ (λ rest s', ∃ k bl, rest = seq k (n - k) ∧ (k ≤ n)%nat ∧ ls_io s' = c ∧
      ls_log s' = set_log_lh (mklh (lh_n (log_lh l)) bl) l ∧
      length bl = length (lh_block (log_lh l)) ∧
      take k bl = (λ i, s32 (default 0 (get_word x (lh_off i)))) <$> seq 0 k)).
    + exists O, (lh_block (log_lh l)). rewrite Nat.sub_0_r. split_and!; [done|lia|done| |done|done].
      rewrite Hl. by destruct l as [? ? ? ? ? []].
    + intros i rest s1 (k & bl & Hr & Hk & Hc1 & Hl1 & Hlb & Ht).
      destruct (n - k)%nat as [|m] eqn:Hm; [done|]. simpl in Hr. injection Hr as -> ->.
      destruct (get_le_Some 4 x (lh_off k)) as [b Hb]; [unfold lh_off; lia|].
      apply wp_bind. eapply wp_of_opt; [exact Hb|]. unfold put_lh_block. apply wp_bind, wp_the.
      rewrite Hl1. simpl. destruct (lookup_lt_is_Some_2 bl k) as [z Hz]; [lia|].
      apply wp_bind. eapply wp_of_opt; [exact Hz|]. apply wp_modS.
      exists (S k), (<[k := s32 b]> bl). rewrite length_insert.
      split_and!; [f_equal; lia|lia|done|simpl; by rewrite Hl1|done|].
      rewrite (take_S_r _ k (s32 b)) by (apply list_lookup_insert_eq; lia).
      rewrite take_insert_ge by lia. rewrite Ht, seq_S, fmap_app. simpl.
      change (get_word x (lh_off k)) with (get_le 4 x (lh_off k)). by rewrite Hb.
  - intros [] s' (k & bl & Hr & Hk & Hc1 & Hl1 & Hlb & Ht).
    destruct (n - k)%nat eqn:Hm; [|done]. assert (k = n) as -> by lia. split; [done|]. by exists bl.
Qed.

Lemma wp_read_head l v s lsize :
  at_rest l v s → log_dev l = ROOTDEV → v_pinned v = ∅ →
  Z.of_nat (length (lh_block (log_lh l))) = LOGSIZE →
  log_ok (log_start l) lsize (v_size v) (v_disk v) →
  wp E read_head (λ _ s', ∃ bl, at_rest
      (set_log_lh (mklh (hdr_n (v_disk v (log_start l))) bl) l) v s' ∧
    Z.of_nat (length bl) = LOGSIZE ∧
    take (length (hdr_entries (v_disk v (log_start l)))) bl = hdr_entries (v_disk v (log_start l))) s.
Proof.
  intros Hs Hdev Hpin Hlen [Hlay Hcnt Hent]. pose proof Hs as (Hl & Hv & Hh).
  pose proof Hlay as [L1 L2 L3 L4]. pose proof Hent as [E1 E2 E3].
  assert (0 ≤ log_start l < v_size v) as Hst by lia.
  assert (v_mem v (log_start l) = v_disk v (log_start l)) as Hmem
    by (eapply unpinned_clean; [exact Hv|done|done|rewrite Hpin; set_solver]).
  set (x := v_disk v (log_start l)) in *.
  assert (length x = 512%nat) as Hx.
  { pose proof (view_blocks _ _ _ _ Hv Hst) as [_ Hb]. unfold is_block, BSIZE in Hb. fold x in Hb. lia. }
  destruct (get_le_Some 4 x 0) as [w Hw]; [lia|].
  assert (s32 w = hdr_n x) as Hwn.
  { unfold hdr_n. change (get_word x 0) with (get_le 4 x 0). by rewrite Hw. }
  rewrite length_hdr_entries in *. unfold LOGSIZE, MAXOPBLOCKS in *.
  apply wp_bind, wp_the. rewrite Hl, Hdev. apply wp_bind, wp_the. rewrite Hl, u32_small by lia.
  apply wp_bind, wp_io. eapply io_bread_law; [exact Hv|set_solver|exact Hst|by rewrite Hh; set_solver| |].
  { right. rewrite busy_none, Hpin, size_empty by done. unfold NBUF. lia. }
  intros a c1 _ Hv1. apply wp_bind, wp_io. eapply io_data_law; [exact Hv1|by left|]. simpl.
  rewrite Hmem. apply wp_bind. eapply wp_of_opt; [exact Hw|]. rewrite Hwn.
  apply wp_bind, wp_modS. apply wp_bind. simpl. rewrite Hl. eapply wp_mono.
  { eapply (wp_read_entries x _ (set_log_lh (mklh (hdr_n x) (lh_block (log_lh l))) l));
      [done|done|lia|simpl; lia|reflexivity]. }
  intros [] s1 (Hc1 & bl & Hl1 & Hlb & Ht). apply wp_io. simpl in Hc1, Hlb. rewrite Hc1.
  eapply io_brelse_law; [exact Hv1|set_solver|set_solver|by left|right; exact Hmem|].
  rewrite hold_drop. intros c2 Hv2. exists bl. split_and!; [|lia|].
  - split_and!; [exact Hl1|done|done].
  - rewrite Ht. unfold hdr_entries. apply list_fmap_ext. intros i k Hk. 
    rewrite list.Forall_forall in E3.
    assert (default 0 (get_word x (lh_off k)) ∈ hdr_entries x) as Hin.
    { unfold hdr_entries. apply list_elem_of_fmap. exists k. split; [done|].
      by eapply list_elem_of_lookup_2. }
    destruct (E3 _ Hin) as [? _]. apply s32_small. lia.
Qed.

(** The committed writes are those install_trans performs. *)
Lemma install_writes_log_puts l v s lsize :
  view [] (ls_io s) v → v_held v = [] → v_pinned v = ∅ →
  log_layout (log_start l) lsize (v_size v) →
  entries_ok (log_start l) lsize (v_size v) (hdr_entries (v_disk v (log_start l))) →
  install_writes l v (hdr_entries (v_disk v (log_start l))) = log_puts (log_start l) (v_disk v).
Proof.
  intros Hv Hh Hp [] []. unfold install_writes, log_puts. apply imap_ext. intros k b Hk%lookup_lt_Some.
  f_equal. eapply unpinned_clean; [exact Hv|done|lia|rewrite Hp; set_solver].
Qed.

Lemma wp_recover l v s lsize :
  at_rest l v s → log_dev l = ROOTDEV → v_pinned v = ∅ →
  Z.of_nat (length (lh_block (log_lh l))) = LOGSIZE →
  log_ok (log_start l) lsize (v_size v) (v_disk v) →
  wp E recover_from_log (λ _ s', ∃ bl y, at_rest (set_log_lh (mklh 0 bl) l)
      (v_puts (log_puts (log_start l) (v_disk v) ++ [(log_start l, y)]) v) s' ∧
    Z.of_nat (length bl) = LOGSIZE ∧ hdr_entries y = []) s.
Proof.
  intros Hs Hdev Hpin Hlen Hok. pose proof Hok as [Hlay Hcnt Hent]. pose proof Hs as (Hl & Hv & Hh).
  pose proof (install_writes_log_puts l v s lsize Hv Hh Hpin Hlay Hent) as Hiw.
  apply wp_bind. eapply wp_mono; [by eapply wp_read_head|]. intros [] s1 (bl & Hs1 & Hlb & Ht).
  set (bs := hdr_entries (v_disk v (log_start l))) in *.
  apply wp_bind. eapply wp_mono.
  { eapply (wp_install_trans E (set_log_lh (mklh (hdr_n (v_disk v (log_start l))) bl) l) v lsize bs); [done|done|done| |exact Ht|intros; rewrite Hpin; set_solver|exact Hs1|by left].
    unfold bs. rewrite length_hdr_entries. simpl. lia. }
  intros [] s2 Hs2. change (install_writes _ v bs) with (install_writes l v bs) in Hs2. rewrite Hiw in Hs2.
  set (v2 := v_puts (log_puts _ _) v) in *.
  apply wp_bind, wp_modS. destruct Hs2 as (Hl2 & Hv2 & Hh2).
  assert (v_size v2 = v_size v) as Hsz by apply v_puts_size.
  destruct Hlay as [L1 L2 L3 L4].
  assert (0 ≤ log_start l < v_size v2) as Hst by (rewrite Hsz; lia).
  destruct (header_exists (v_mem v2 (log_start l)) []) as [y Hy].
  { eapply view_blocks; [exact Hv2|done]. } { simpl. unfold LOGSIZE, MAXOPBLOCKS. lia. }
  assert (v_pinned v2 = ∅) as Hp2 by (unfold v2; rewrite v_puts_pinned, Hpin; set_solver).
  eapply wp_mono.
  { eapply (wp_write_head E (set_log_lh (mklh 0 bl) l) v2 _ [] y);
      [|done|done|done|exact Hy|done|by rewrite Hsz|rewrite Hp2; set_solver|rewrite Hp2, size_empty; unfold NBUF; lia].
    split_and!; [simpl; by rewrite Hl2|done|done]. }
  intros [] s3 Hs3. exists bl, y. split_and!; [by rewrite v_puts_app|done|].
  destruct (header_roundtrip _ _ _ Hy) as [_ He]; [simpl; unfold LOGSIZE, MAXOPBLOCKS; lia|constructor|done].
Qed.
End recovery.
