(* ===== verification/LogThm.v ===== *)
(** * The log: commits, operations in progress, and the theorems *)

From S2P Require Import Prelude CString Words ProcData Sync Block Log LogSpec LogRefine.
Local Open Scope Z_scope.

(** A transaction in memory: its blocks [bs], all pinned, and a clear log on disk. *)
Record trans_ok (l : log) (v : bview) (lsize : Z) (bs : list Z) : Prop := mktr {
  tr_dev : log_dev l = ROOTDEV;
  tr_layout : log_layout (log_start l) lsize (v_size v);
  tr_len : Z.of_nat (length (lh_block (log_lh l))) = LOGSIZE;
  tr_n : lh_n (log_lh l) = Z.of_nat (length bs);
  tr_bs : take (length bs) (lh_block (log_lh l)) = bs;
  tr_entries : entries_ok (log_start l) lsize (v_size v) bs;
  tr_once : NoDup bs;
  tr_pinned : v_pinned v = list_to_set bs;
  tr_room : (length bs < NBUF)%nat;
  tr_clear : hdr_entries (v_disk v (log_start l)) = []
}.

Lemma trans_home l v lsize bs b :
  trans_ok l v lsize bs → b ∈ bs → 0 ≤ b < v_size v ∧ home (log_start l) lsize b.
Proof.
  intros Ht Hb. pose proof (en_home _ _ _ _ (tr_entries _ _ _ _ Ht)) as Hf.
  rewrite list.Forall_forall in Hf. by apply Hf.
Qed.

Section commit.
Context {C : Type} `{BlockIOLaws C} (E : string → Prop).
Context (l : log) (v : bview) (lsize : Z) (bs : list Z) (Ht : trans_ok l v lsize bs).
Abbreviation start := (log_start l).

Lemma trans_log_unpinned m : ¬ home start lsize m → m ∉ v_pinned v.
Proof.
  intros Hm Hin. rewrite (tr_pinned _ _ _ _ Ht), elem_of_list_to_set in Hin.
  by destruct (trans_home _ _ _ _ _ Ht Hin).
Qed.
Lemma trans_size : (size (v_pinned v) < NBUF)%nat.
Proof.
  rewrite (tr_pinned _ _ _ _ Ht), size_list_to_set by apply Ht. apply Ht.
Qed.
Lemma start_unpinned : start ∉ v_pinned v.
Proof. apply trans_log_unpinned. eapply start_in_log, Ht. Qed.

(** After write_log. *)
Abbreviation v1 := (v_puts (log_writes start (v_mem v) bs) v).
Lemma v1_pinned : v_pinned v1 = v_pinned v.
Proof.
  rewrite v_puts_pinned. apply set_eq. intros m. rewrite elem_of_difference, elem_of_list_to_set.
  split; [tauto|]. intros Hm. split; [done|]. intros Hin.
  destruct (log_writes_fst_log start lsize _ (tr_layout _ _ _ _ Ht) (v_mem v) bs m) as [Hh _];
    [apply Ht|exact Hin|]. by apply (trans_log_unpinned m).
Qed.

(** After the header is written. *)
Lemma install_is_home y :
  install_writes l (v_put v1 (start, y)) bs = home_writes (v_mem v) bs.
Proof.
  unfold install_writes, home_writes. apply list_eq. intros k. rewrite list_lookup_imap, list_lookup_fmap.
  destruct (bs !! k) as [b|] eqn:Hk; [|done]. simpl. do 2 f_equal.
  rewrite fn_lookup_insert_ne by lia. rewrite v_puts_mem. by apply log_writes_read.
Qed.

Lemma wp_commit s :
  at_rest l v s → (0 < length bs)%nat →
  wp E commit (λ _ s', ∃ y y0, hdr_entries y = bs ∧ hdr_entries y0 = [] ∧
    at_rest (set_log_lh (mklh 0 (lh_block (log_lh l))) l)
      (v_puts (commit_writes start (v_mem v) bs y y0) v) s') s.
Proof.
  intros Hs Hpos. pose proof Ht as [Hdev Hlay Hlen Hn Hbs Hent Hnd Hpin Hroom _].
  pose proof Hlay as [L1 L2 L3 L4]. pose proof trans_size as Hsz.
  unfold commit. apply wp_bind, wp_the. rewrite (proj1 Hs), Hn. rewrite decide_True by lia.
  apply wp_bind. eapply wp_mono.
  { eapply (wp_write_log E l v lsize bs); [done..| |exact Hs|by rewrite Hpin|done].
    apply trans_log_unpinned. }
  intros [] s1 Hs1. pose proof Hs1 as (_ & Hv1 & _).
  assert (v_size v1 = v_size v) as Hsz1 by apply v_puts_size.
  destruct (header_exists (v_mem v1 start) bs) as [y Hy]; [apply (view_blocks _ _ _ _ Hv1); lia|apply Hent|].
  assert (hdr_entries y = bs) as Hye.
  { eapply header_roundtrip; [exact Hy|apply Hent|]. eapply list.Forall_impl; [apply Hent|].
    intros b [? _]. lia. }
  apply wp_bind. eapply wp_mono.
  { eapply (wp_write_head E l v1 _ bs y); [exact Hs1|done|done|done|exact Hy|rewrite Hsz1; lia|by rewrite Hsz1| |].
    - rewrite v1_pinned. apply start_unpinned.
    - by rewrite v1_pinned. }
  intros [] s2 Hs2. set (v2 := v_put v1 (start, y)) in *.
  assert (v_pinned v2 = v_pinned v) as Hp2.
  { unfold v2. cbn [v_put v_pinned fst]. rewrite v1_pinned. apply set_eq. intros m.
    rewrite elem_of_difference, elem_of_singleton. split; [tauto|]. intros Hm. split; [done|].
    intros ->. by apply start_unpinned. }
  assert (v_size v2 = v_size v) as Hsz2 by exact Hsz1.
  apply wp_bind. eapply wp_mono.
  { eapply (wp_install_trans E l v2 lsize bs); rewrite ?Hsz2, ?Hp2; [done..| |exact Hs2|].
    - apply trans_log_unpinned.
    - right. split_and!; [done|by rewrite Hpin|done]. }
  intros [] s3 Hs3. unfold v2 in Hs3 at 1. rewrite install_is_home in Hs3. fold v2 in Hs3. set (v3 := v_puts _ v2) in *.
  apply wp_bind, wp_modS. destruct Hs3 as (Hl3 & Hv3 & Hh3).
  assert (v_size v3 = v_size v) as Hsz3 by (unfold v3; by rewrite v_puts_size).
  assert (v_pinned v3 = ∅) as Hp3.
  { unfold v3. rewrite v_puts_pinned, Hp2, Hpin. unfold home_writes.
    rewrite <- list_fmap_compose. change (fst ∘ _) with (id (A := Z)). rewrite list_fmap_id.
    apply set_eq. intros m. rewrite elem_of_difference, elem_of_empty. tauto. }
  destruct (header_exists (v_mem v3 start) []) as [y0 Hy0];
    [apply (view_blocks _ _ _ _ Hv3); lia|simpl; unfold LOGSIZE, MAXOPBLOCKS; lia|].
  eapply wp_mono.
  { eapply (wp_write_head E (set_log_lh (mklh 0 (lh_block (log_lh l))) l) v3 _ [] y0).
    - split_and!; [simpl; by rewrite Hl3|done|done].
    - done.
    - done.
    - done.
    - exact Hy0.
    - rewrite Hsz3. simpl. lia.
    - by rewrite Hsz3.
    - rewrite Hp3. apply not_elem_of_empty.
    - rewrite Hp3, size_empty. unfold NBUF. lia. }
  intros [] s4 Hs4. exists y, y0. split_and!; [done| |].
  - eapply header_roundtrip; [exact Hy0|simpl; unfold LOGSIZE, MAXOPBLOCKS; lia|constructor].
  - unfold commit_writes. rewrite !v_puts_app. exact Hs4.
Qed.
End commit.

(** ** Operations *)
Section operations.
Context {C : Type} `{BlockIOLaws C} (E : string → Prop).
Implicit Types (s : lstate C) (v : bview) (l : log).

Lemma absorb_in bs n : Forall (λ b, 0 ≤ b < 2 ^ 31) bs → n ∈ bs → bs !! absorb bs n = Some n.
Proof.
  intros Hf. induction Hf as [|b bs Hb Hf IH]; [by intros []%elem_of_nil|]. intros Hn. simpl.
  rewrite u32_small by lia. case_decide as Hd; [by subst|]. simpl. apply IH. set_solver.
Qed.
Lemma absorb_notin bs n : Forall (λ b, 0 ≤ b < 2 ^ 31) bs → n ∉ bs → absorb bs n = length bs.
Proof.
  intros Hf. induction Hf as [|b bs Hb Hf IH]; [done|]. intros Hn. simpl.
  rewrite u32_small by lia. rewrite decide_False by set_solver. rewrite IH; [done|set_solver].
Qed.

(** The blocks of the transaction after a write of block [n]. *)
Definition joined (bs : list Z) (n : Z) : list Z := if decide (n ∈ bs) then bs else bs ++ [n].

Lemma wp_log_write l v lsize bs s b n :
  ls_log s = l → view [] (ls_io s) v → (b, n) ∈ v_held v → trans_ok l v lsize bs →
  home (log_start l) lsize n → log_size l = lsize →
  Z.of_nat (length bs) < LOGSIZE → Z.of_nat (length bs) < lsize - 1 → 1 ≤ log_outstanding l →
  wp E (log_write b) (λ _ s', ∃ bl,
    ls_log s' = set_log_lh (mklh (Z.of_nat (length (joined bs n))) bl) l ∧
    Z.of_nat (length bl) = LOGSIZE ∧ take (length (joined bs n)) bl = joined bs n ∧
    view [] (ls_io s') (v_pin n v)) s.
Proof.
  intros Hl Hv Hin Ht Hhome Hsz Hr1 Hr2 Hout.
  pose proof Ht as [Hdev Hlay Hlen Hn Hbs Hent Hnd Hpin Hroom _].
  pose proof (view_held_blocks _ _ _ _ _ Hv Hin) as Hnr. pose proof Hlay as [_ _ _ L4].
  assert (Forall (λ b, 0 ≤ b < 2 ^ 31) bs) as Hf.
  { eapply list.Forall_impl; [apply Hent|]. intros x [? _]. lia. }
  unfold log_write. apply wp_bind, wp_the. rewrite Hl. cbn [id]. rewrite decide_False by lia.
  rewrite decide_False by lia. apply wp_bind, wp_io. eapply io_acquire_law; [exact Hv|set_solver|].
  intros c1 Hv1. apply wp_bind, wp_io. eapply io_blockno_law; [exact Hv1|exact Hin|].
  apply wp_bind, wp_the. simpl. rewrite Hl, Hn, Nat2Z.id, Hbs. rewrite s32_small by lia.
  set (i := absorb bs n).
  assert (i ≤ length bs ∧ i < length (lh_block (log_lh l)))%nat as [Hi Hil].
  { unfold i. destruct (decide (n ∈ bs)) as [Hd|Hd].
    - pose proof (lookup_lt_Some _ _ _ (absorb_in bs n Hf Hd)). lia.
    - rewrite absorb_notin by done. lia. }
  unfold put_lh_block. apply wp_bind, wp_bind, wp_the. simpl. rewrite Hl. apply wp_bind.
  destruct (lookup_lt_is_Some_2 _ _ Hil) as [z Hz]. eapply wp_of_opt; [exact Hz|].
  apply wp_modS. simpl. rewrite Hl. apply wp_bind.
  assert (∀ s1, ls_log s1 = set_log_lh (mklh (Z.of_nat (length (joined bs n))) (<[i := n]> (lh_block (log_lh l)))) l →
    ls_io s1 = c1 → wp E (io (io_set_dirty b) ;;; io (k_release "log")) (λ _ s', ∃ bl,
      ls_log s' = set_log_lh (mklh (Z.of_nat (length (joined bs n))) bl) l ∧
      Z.of_nat (length bl) = LOGSIZE ∧ take (length (joined bs n)) bl = joined bs n ∧
      view [] (ls_io s') (v_pin n v)) s1) as Hfin.
  { intros s1 Hl1 Hc1. apply wp_bind, wp_io. rewrite Hc1. eapply io_set_dirty_law; [exact Hv1|exact Hin|].
    intros c2 Hv2. apply wp_io. eapply io_release_law; [exact Hv2|]. intros c3 Hv3.
    eexists. split; [exact Hl1|]. rewrite length_insert. split_and!; [done| |done].
    unfold joined, i. destruct (decide (n ∈ bs)) as [Hd|Hd].
    - pose proof (absorb_in bs n Hf Hd) as Ha. rewrite list_insert_id; [done|].
      assert (take (length bs) (lh_block (log_lh l)) !! absorb bs n = Some n) as Ha' by (by rewrite Hbs).
      rewrite lookup_take in Ha'. by case_decide.
    - rewrite absorb_notin by done. rewrite length_app. simpl. rewrite Nat.add_1_r.
      rewrite (take_S_r _ _ n) by (apply list_lookup_insert_eq; lia). by rewrite take_insert_ge, Hbs by lia. }
  unfold joined, i in *. destruct (decide (n ∈ bs)) as [Hd|Hd].
  - rewrite decide_False.
    2:{ pose proof (lookup_lt_Some _ _ _ (absorb_in bs n Hf Hd)). lia. }
    apply wp_skip. apply Hfin; [|done]. simpl. unfold set_lh_block. by rewrite Hn.
  - rewrite absorb_notin in * by done. rewrite decide_True by done. apply wp_modS. apply Hfin; [|done].
    replace (Z.of_nat (length bs) + 1) with (Z.of_nat (length (bs ++ [n]))) by (rewrite length_app; simpl; lia).
    reflexivity.
Qed.
End operations.

(** ** The log as a transactional store

    The abstract store has the contents callers see, the contents a crash falls
    back to, and the number of calls in progress.  [logged] relates a state of
    log.c, with the writes each call in progress may still issue, to a store.
    Every call refines the store's transition and does not panic. *)

(** ** The abstract store *)
Record store := mkstore { st_cur : Z → block; st_saved : Z → block; st_open : nat }.
Definition store_begin (a : store) : store := mkstore (st_cur a) (st_saved a) (S (st_open a)).
Definition store_write (n : Z) (x : block) (a : store) : store :=
  mkstore (<[n := x]> (st_cur a)) (st_saved a) (st_open a).
(** When the last call ends, its writes and those of its peers are saved together. *)
Definition store_end (a : store) : store :=
  mkstore (st_cur a) (if decide (st_open a = 1%nat) then st_cur a else st_saved a) (st_open a - 1).

(** ** The code *)
Section sys.
Context {C : Type} `{BlockIOLaws C} (sleep : chan → string → M (lstate C) unit).
Context (lsize : Z).

(** How a call changes a block: bread, modify, log_write, brelse. *)
Definition update (n : Z) (x : block) : M (lstate C) unit :=
  let! b := io (io_bread ROOTDEV n) in
  io (io_store b x) ;;;
  log_write b ;;;
  io (io_brelse b).

Record logged (s : lstate C) (ops : list nat) (a : store) (l : log) (v : bview) (bs : list Z) : Prop := mklg {
  lg_rest : at_rest l v s;
  lg_trans : trans_ok l v lsize bs;
  lg_size : log_size l = lsize;
  lg_idle : log_committing l = false;
  lg_open : log_outstanding l = Z.of_nat (length ops);
  lg_count : st_open a = length ops;
  lg_room : Z.of_nat (length bs + sum_list ops) ≤ 29;
  lg_quiet : ops = [] → bs = [];
  lg_cur : ∀ n, 0 ≤ n < v_size v → home (log_start l) lsize n → v_mem v n = st_cur a n;
  lg_saved : ∀ n, 0 ≤ n < v_size v → home (log_start l) lsize n → v_disk v n = st_saved a n
}.
Context (E : string → Prop).

(** begin_op lets a call in when its reservation fits. *)
Definition admits (l : log) : Prop :=
  lh_n (log_lh l) + (log_outstanding l + 1) * MAXOPBLOCKS ≤ LOGSIZE.

Lemma wp_begin_op s ops a l v bs budget :
  logged s ops a l v bs → admits l → (budget < Z.to_nat MAXOPBLOCKS)%nat →
  Forall (λ r, r < Z.to_nat MAXOPBLOCKS)%nat ops →
  wp E (begin_op sleep) (λ _ s', ∃ l', logged s' (budget :: ops) (store_begin a) l' v bs ∧
    log_start l' = log_start l) s.
Proof.
  intros [Hr Ht Hsz Hidle Hopen Hcnt Hroom Hq Hcur Hsav] Had Hb Hops.
  pose proof Hr as (Hl & Hv & Hh). unfold begin_op, op_fuel. apply wp_bind, wp_io.
  eapply io_acquire_law; [exact Hv|set_solver|]. intros c1 Hv1. cbn [begin_op_loop].
  apply wp_bind. unfold begin_op_turn. apply wp_bind, wp_the. simpl. rewrite Hl. unfold id.
  rewrite Hidle. unfold admits in Had. rewrite decide_False by lia.
  apply wp_bind, wp_modS. apply wp_bind, wp_io. eapply io_release_law; [exact Hv1|].
  intros c2 Hv2. apply wp_ret, wp_skip. simpl. rewrite Hl.
  exists (set_log_outstanding (log_outstanding l + 1) l).
  assert (sum_list (budget :: ops) ≤ 9 * S (length ops))%nat as Hsum.
  { assert (∀ xs, Forall (λ r, r < Z.to_nat MAXOPBLOCKS)%nat xs → sum_list xs ≤ 9 * length xs)%nat as Hx.
    { intros xs Hf. induction Hf as [|r xs Hr' Hf IH]; simpl; [lia|].
      unfold MAXOPBLOCKS in Hr'. lia. }
    apply (Hx (budget :: ops)). by constructor. }
  destruct Ht as [T1 T2 T3 T4 T5 T6 T7 T8 T9 T10].
  split; [|done]. split; simpl; try done.
  - lia.
  - by rewrite Hcnt.
  - unfold LOGSIZE, MAXOPBLOCKS in *. rewrite T4 in Had. simpl in Hsum. lia.
Qed.

Lemma joined_spec bs n m : m ∈ joined bs n ↔ m ∈ bs ∨ m = n.
Proof.
  unfold joined. case_decide; [naive_solver|]. rewrite elem_of_app, list_elem_of_singleton. done.
Qed.
Lemma joined_length bs n : (length (joined bs n) ≤ S (length bs))%nat.
Proof. unfold joined. case_decide; [lia|]. rewrite length_app. simpl. lia. Qed.
Lemma joined_nodup bs n : NoDup bs → NoDup (joined bs n).
Proof.
  unfold joined. intros. case_decide; [done|]. apply list.NoDup_app. split_and!; [done| |].
  - intros x Hx ->%list_elem_of_singleton. done.
  - apply NoDup_singleton.
Qed.

Lemma wp_update s ops1 r ops2 a l v bs n x :
  logged s (ops1 ++ S r :: ops2) a l v bs → lsize = LOGSIZE →
  0 ≤ n < v_size v → home (log_start l) lsize n → is_block x →
  wp E (update n x) (λ _ s', ∃ l' v', logged s' (ops1 ++ r :: ops2) (store_write n x a) l' v' (joined bs n) ∧
    log_start l' = log_start l ∧ v_size v' = v_size v) s.
Proof.
  intros [Hr Ht Hsz Hidle Hopen Hcnt Hroom Hq Hcur Hsav] Hls Hn Hhome Hx.
  pose proof Hr as (Hl & Hv & Hh). pose proof Ht as [T1 T2 T3 T4 T5 T6 T7 T8 T9 T10].
  assert (sum_list (ops1 ++ S r :: ops2) = S (sum_list (ops1 ++ r :: ops2))) as Hsum.
  { clear. induction ops1; simpl in *; lia. }
  rewrite Hsum in Hroom. rewrite length_app in Hopen, Hcnt. simpl in Hopen, Hcnt.
  unfold update. apply wp_bind, wp_io.
  eapply io_bread_law; [exact Hv|set_solver|exact Hn|by rewrite Hh; set_solver| |].
  { right. rewrite busy_none by done. eapply trans_size, Ht. }
  intros b c1 _ Hv1. apply wp_bind, wp_io. eapply io_store_law; [exact Hv1|by left|exact Hx|].
  intros c2 Hv2. apply wp_bind. eapply wp_mono.
  { eapply (wp_log_write E l _ lsize bs _ b n); [exact Hl|exact Hv2|by left| |done|done| | |lia].
    - split; simpl; try done.
    - unfold LOGSIZE, MAXOPBLOCKS in *. lia.
    - unfold LOGSIZE, MAXOPBLOCKS in *. lia. }
  intros [] s3 (bl & Hl3 & Hbl & Htk & Hv3). apply wp_io.
  eapply io_brelse_law; [exact Hv3|set_solver|set_solver|by left|left; simpl; set_solver|].
  intros c4 Hv4. pose proof (joined_length bs n) as Hjl. destruct T6 as [E1 E2 E3].
  eexists _, _. split; [split; [split_and!; [exact Hl3|exact Hv4|]|..]|]; simpl; try done.
  - by rewrite remove1_head.
  - split; simpl; try done.
    + split; [unfold LOGSIZE, MAXOPBLOCKS in *; lia..|].
      apply list.Forall_forall. intros m [Hm| ->]%joined_spec; [|done].
      rewrite list.Forall_forall in E3. by apply E3.
    + by apply joined_nodup.
    + rewrite T8. apply set_eq. intros m. rewrite elem_of_union, elem_of_singleton, !elem_of_list_to_set.
      rewrite joined_spec. tauto.
    + unfold NBUF. lia.
  - rewrite length_app. simpl. lia.
  - rewrite length_app. simpl. lia.
  - lia.
  - by destruct ops1.
  - intros m Hm Hmh. destruct (decide (n = m)) as [->|Hne]; [by rewrite !fn_lookup_insert|].
    rewrite !fn_lookup_insert_ne by done. by apply Hcur.
Qed.

(** Reservations may be shared out among the open calls in another way. *)
Lemma logged_budgets s ops ops' a l v bs :
  logged s ops a l v bs → length ops' = length ops → Z.of_nat (length bs + sum_list ops') ≤ 29 → logged s ops' a l v bs.
Proof.
  intros [Hr Ht Hsz Hidle Hopen Hcnt Hroom Hq Hcur Hsav] Hlen Hroom'. split; try done; [by rewrite Hlen..|].
  intros ->. apply Hq. by destruct ops.
Qed.

Lemma commit_final start size mem bs y y0 d n :
  log_layout start lsize size → entries_ok start lsize size bs → home start lsize n →
  apply_puts (commit_writes start mem bs y y0) d n = if decide (n ∈ bs) then mem n else d n.
Proof.
  intros Hlay Hent Hn. unfold commit_writes. rewrite !apply_puts_app.
  assert (n ≠ start) as Hne by (intros ->; by eapply start_in_log).
  rewrite apply_puts_out by (simpl; set_solver). rewrite home_writes_apply.
  destruct (decide (n ∈ bs)); [done|]. rewrite apply_puts_out by (simpl; set_solver).
  apply apply_puts_out. intros Hin.
  destruct (log_writes_fst_log start lsize _ Hlay mem bs n); [apply Hent|done|tauto].
Qed.
Lemma commit_final_start start mem bs y y0 d :
  apply_puts (commit_writes start mem bs y y0) d start = y0.
Proof.
  unfold commit_writes. rewrite !apply_puts_app. simpl. unfold apply_put. simpl. apply fn_lookup_insert.
Qed.

(** A block outside the transaction agrees with the disk. *)
Lemma trans_clean s l v bs n :
  at_rest l v s → trans_ok l v lsize bs → 0 ≤ n < v_size v → n ∉ bs → v_mem v n = v_disk v n.
Proof.
  intros (_ & Hv & Hh) Ht Hn Hin. eapply unpinned_clean; [exact Hv|done|done|].
  by rewrite (tr_pinned _ _ _ _ Ht), elem_of_list_to_set.
Qed.

(** The view after the commit of [bs] (none when [bs] is empty). *)
Definition committed (l : log) (v : bview) (bs : list Z) (v' : bview) : Prop :=
  bs = [] ∧ v' = v ∨
  ∃ y y0, hdr_entries y = bs ∧ hdr_entries y0 = [] ∧
    v' = v_puts (commit_writes (log_start l) (v_mem v) bs y y0) v.

Lemma committed_trans s l v bs v' :
  at_rest l v s → trans_ok l v lsize bs → committed l v bs v' →
  v_size v' = v_size v ∧ v_pinned v' = ∅ ∧ hdr_entries (v_disk v' (log_start l)) = [] ∧
  ∀ n, 0 ≤ n < v_size v → home (log_start l) lsize n → v_mem v' n = v_mem v n ∧ v_disk v' n = v_mem v n.
Proof.
  intros Hs Ht [[-> ->]|(y & y0 & Hy & Hy0 & ->)]; pose proof Ht as [T1 T2 T3 T4 T5 T6 T7 T8 T9 T10].
  - split_and!; [done|done|done|]. intros n Hn _. split; [done|]. symmetry.
    eapply trans_clean; [exact Hs|exact Ht|done|]. set_solver.
  - rewrite v_puts_size, v_puts_pinned, v_puts_disk, v_puts_mem, commit_final_start, T8.
    split_and!; [done| |done|].
    + apply set_eq. intros n. rewrite elem_of_difference, !elem_of_list_to_set, elem_of_empty.
      split; [|done]. intros [Hin Hnot]. destruct Hnot. unfold commit_writes, home_writes.
      rewrite !fmap_app, <- list_fmap_compose. change (fst ∘ _) with (id (A := Z)).
      rewrite list_fmap_id. set_solver.
    + intros n Hn Hh. rewrite !(commit_final _ (v_size v)) by done. split; [by case_decide|].
      case_decide; [done|]. symmetry. by eapply trans_clean.
Qed.

Lemma wp_end_op s ops1 r ops2 a l v bs :
  logged s (ops1 ++ r :: ops2) a l v bs →
  wp E end_op (λ _ s', ∃ l' v' bs', logged s' (ops1 ++ ops2) (store_end a) l' v' bs' ∧
    log_start l' = log_start l ∧
    (ops1 ++ ops2 = [] → committed l v bs v') ∧ (ops1 ++ ops2 ≠ [] → v' = v)) s.
Proof.
  intros [Hr Ht Hsz Hidle Hopen Hcnt Hroom Hq Hcur Hsav].
  pose proof Hr as (Hl & Hv & Hh). pose proof Ht as [T1 T2 T3 T4 T5 T6 T7 T8 T9 T10].
  assert (length (ops1 ++ r :: ops2) = S (length (ops1 ++ ops2))) as Hlen
    by (rewrite !length_app; simpl; lia).
  assert (sum_list (ops1 ++ ops2) ≤ sum_list (ops1 ++ r :: ops2))%nat as Hsum
    by (clear; induction ops1; simpl in *; lia).
  rewrite Hlen in Hopen, Hcnt. set (ops := ops1 ++ ops2) in *.
  unfold end_op. apply wp_bind, wp_io. eapply io_acquire_law; [exact Hv|set_solver|]. intros c1 Hv1.
  apply wp_bind, wp_the. simpl. rewrite Hl. unfold id. apply wp_bind, wp_modS. rewrite Hidle.
  apply wp_bind, wp_the. simpl. rewrite Hl. apply wp_bind.
  destruct (decide (ops = [])) as [Hnil|Hne].
  - rewrite Hnil in *. simpl in *. rewrite bool_decide_true by lia. apply wp_modS. simpl.
    apply wp_bind, wp_io. eapply io_release_law; [exact Hv1|]. intros c2 Hv2. simpl. rewrite ?Hl.
    set (l1 := set_log_committing true (set_log_outstanding (log_outstanding l - 1) l)).
    assert (at_rest l1 v (mkls l1 c2)) as Hr1 by (by split_and!).
    assert (trans_ok l1 v lsize bs) as Ht1 by (by split).
    assert (wp E commit (λ _ s', ∃ bl v', committed l v bs v' ∧ Z.of_nat (length bl) = LOGSIZE ∧
      at_rest (set_log_lh (mklh 0 bl) l1) v' s') (mkls l1 c2)) as Hc.
    { destruct (decide (bs = [])) as [->|Hbs].
      - unfold commit. apply wp_bind, wp_the. rewrite decide_False by (simpl in *; lia). apply wp_skip.
        exists (lh_block (log_lh l)), v. split_and!; [by left|done|]. split_and!; [simpl|done|done].
        unfold l1. destruct l as [? ? ? ? ? []]; simpl in *. by subst.
      - eapply wp_mono; [eapply wp_commit; [exact Ht1|exact Hr1|destruct bs; [done|simpl; lia]]|].
        intros [] s' (y & y0 & Hy & Hy0 & Hr'). eexists _, _. split_and!; [|exact T3|exact Hr'].
        right. by exists y, y0. }
    apply wp_bind. eapply wp_mono; [exact Hc|]. intros [] s3 (bl & v' & Hcom & Hbl & Hl3 & Hv3 & Hh3).
    apply wp_bind, wp_io. eapply io_acquire_law; [exact Hv3|set_solver|]. intros c4 Hv4.
    apply wp_bind, wp_modS. apply wp_bind, wp_io. eapply io_wakeup_law; [exact Hv4|set_solver|].
    intros c5 Hv5. apply wp_io. eapply io_release_law; [exact Hv5|]. intros c6 Hv6. simpl.
    destruct (committed_trans _ _ _ _ _ Hr Ht Hcom) as (Hvs & Hvp & Hvc & Hvm).
    exists (set_log_committing false (set_log_lh (mklh 0 bl) l1)), v', [].
    split_and!; [|done|done|done]. destruct T2. split; simpl; try done; try lia.
    + split_and!; [by rewrite Hl3|done|done].
    + split; simpl; try done; rewrite ?Hvs; try done.
      * split; [unfold LOGSIZE, MAXOPBLOCKS; simpl; lia|simpl; lia|constructor].
      * constructor.
      * unfold NBUF. lia.
    + rewrite Hvs. intros n Hn Hhm. destruct (Hvm n Hn Hhm) as [-> _]. by apply Hcur.
    + rewrite Hvs. intros n Hn Hhm. destruct (Hvm n Hn Hhm) as [_ ->].
      rewrite decide_True by done. by apply Hcur.
  - assert (0 < length ops)%nat as Hpos by (destruct ops; [done|simpl; lia]).
    rewrite bool_decide_false by (simpl; lia). apply wp_io.
    eapply io_wakeup_law; [exact Hv1|set_solver|]. intros c2 Hv2.
    apply wp_bind, wp_io. eapply io_release_law; [exact Hv2|]. intros c3 Hv3. apply wp_skip. simpl.
    rewrite ?Hl. exists (set_log_outstanding (log_outstanding l - 1) l), v, bs.
    split_and!; [|done|done|done]. split; simpl; try done; try lia.
    rewrite decide_False by lia. done.
Qed.

(** ** Boot: recovery *)
Lemma wp_readsb s l v sb :
  at_rest l v s → v_pinned v = ∅ → 1 < v_size v → sb_of_bytes (v_disk v 1) = Some sb →
  wp E (readsb ROOTDEV) (λ r s', r = sb ∧ at_rest l v s') s.
Proof.
  intros (Hl & Hv & Hh) Hp Hsz Hsb. unfold readsb. apply wp_bind, wp_io.
  eapply io_bread_law; [exact Hv|set_solver|lia|by rewrite Hh; set_solver| |].
  { right. rewrite busy_none, Hp, size_empty by done. unfold NBUF. lia. }
  intros b c1 _ Hv1. apply wp_bind, wp_io. eapply io_data_law; [exact Hv1|by left|]. simpl.
  assert (v_mem v 1 = v_disk v 1) as Hm
    by (eapply unpinned_clean; [exact Hv|done|lia|rewrite Hp; set_solver]).
  rewrite Hm. apply wp_bind. eapply wp_of_opt; [exact Hsb|]. apply wp_bind, wp_io.
  eapply io_brelse_law; [exact Hv1|set_solver|set_solver|by left|right; exact Hm|].
  rewrite hold_drop. intros c2 Hv2. apply wp_ret. split; [done|]. split_and!; [done|done|exact Hh].
Qed.

Lemma wp_initlog s l v sb :
  at_rest l v s → v_pinned v = ∅ → 1 < v_size v → sb_of_bytes (v_disk v 1) = Some sb →
  Z.of_nat (length (lh_block (log_lh l))) = LOGSIZE →
  log_outstanding l = 0 → log_committing l = false →
  sb_nlog sb = lsize → log_ok (sb_logstart sb) lsize (v_size v) (v_disk v) →
  wp E (initlog ROOTDEV) (λ _ s', ∃ l' y, let start := sb_logstart sb in
    logged s' [] (mkstore (logical start (v_disk v)) (logical start (v_disk v)) 0) l'
      (v_puts (log_puts start (v_disk v) ++ [(start, y)]) v) [] ∧
    log_start l' = start ∧ hdr_entries y = []) s.
Proof.
  intros (Hl & Hv & Hh) Hp Hsz Hsb Hlen Hout Hcom Hnlog Hok.
  pose proof Hok as [[L1 L2 L3 L4] Hcnt Hent]. unfold initlog.
  rewrite decide_False by (unfold BSIZE, SIZEOF_LOGHEADER, LOGSIZE, MAXOPBLOCKS; lia).
  apply wp_bind, wp_io. eapply io_initlock_law; [exact Hv|set_solver|]. intros c1 Hv1.
  apply wp_bind. eapply wp_mono; [eapply (wp_readsb _ l v); [split_and!; [exact Hl|exact Hv1|done]|done..]|].
  intros sb' s2 [-> (Hl2 & Hv2 & _)]. apply wp_bind, wp_modS. apply wp_bind, wp_modS. apply wp_bind, wp_modS.
  simpl. rewrite Hl2, Hnlog, !s32_small by lia.
  set (l3 := set_log_dev ROOTDEV (set_log_size lsize (set_log_start (sb_logstart sb) l))).
  eapply wp_mono.
  { eapply (wp_recover E l3 v _ lsize); [split_and!; [done|exact Hv2|done]|done|done|exact Hlen|exact Hok]. }
  intros [] s' (bl & y & Hr & Hbl & Hy). cbv zeta. exists (set_log_lh (mklh 0 bl) l3), y.
  split_and!; [|done|done]. change (log_start l3) with (sb_logstart sb) in Hr.
  set (start := sb_logstart sb) in *. set (v' := v_puts _ v) in *.
  assert (v_size v' = v_size v) as Hvs by apply v_puts_size.
  assert (v_pinned v' = ∅) as Hvp by (unfold v'; rewrite v_puts_pinned, Hp; apply set_eq; intros ?; set_solver).
  assert (∀ n, home start lsize n → v_disk v' n = logical start (v_disk v) n) as Hd.
  { intros n Hn. unfold v'. rewrite v_puts_disk, apply_puts_app. simpl. unfold apply_put. simpl.
    rewrite fn_lookup_insert_ne; [done|]. intros <-.
    exact (start_in_log _ _ _ (lo_layout _ _ _ _ Hok) Hn). }
  assert (trans_ok (set_log_lh (mklh 0 bl) l3) v' lsize []) as Ht.
  { split; simpl; try done; rewrite ?Hvs; try done.
    - split; [unfold LOGSIZE, MAXOPBLOCKS; simpl; lia|simpl; lia|constructor].
    - constructor.
    - unfold NBUF. lia.
    - unfold v'. rewrite v_puts_disk, apply_puts_app. simpl. unfold apply_put. simpl.
      by rewrite fn_lookup_insert. }
  split; simpl; try done; rewrite ?Hvs.
  - intros n Hn Hhm. rewrite <- Hd by done. rewrite <- Hvs in Hn.
    eapply trans_clean; [exact Hr|exact Ht|exact Hn|set_solver].
  - intros n Hn Hhm. by apply Hd.
Qed.
End sys.
