(* ===== verification/LogClaims.v ===== *)
(** * Buffer cache and log: the theorems, with a small machine that meets them

    The machine has one CPU whose locks are always free, the disk of 100 blocks
    that mkfs lays out with a log of LOGSIZE blocks at block 2, and bio.c as its
    buffer cache. *)

From S2P Require Import Prelude CString Words Spinlock ProcData Sync Block Bio BioSpec Log LogSpec LogRefine LogThm.
Local Open Scope Z_scope.

(** ** The machine *)
#[local] Instance toy_sleep : BioSleep unit := λ _ _, diverge.
Definition toy_lsleep (_ : chan) (_ : string) : M (lstate (bstate unit)) unit := diverge.

Definition zero_block : block := replicate 512 0.
Definition toy_super : block :=
  le_split 4 100 ++ le_split 4 60 ++ le_split 4 16 ++ le_split 4 LOGSIZE ++ le_split 4 2 ++
  le_split 4 32 ++ le_split 4 36 ++ replicate 484 0.
Definition toy_blocks (n : Z) : block := if decide (n = 1) then toy_super else zero_block.
Definition toy_disk : disk := mkdisk (toy_blocks <$> seqZ 0 100) [].
Definition toy_boot : bstate unit := mkbs zero_cache toy_disk tt.
Definition toy_log : log := mklog 0 0 0 false 0 (mklh 0 (replicate 30 0)).
Definition toy_v : bview := mkview 100 toy_blocks toy_blocks [] ∅ [].

Definition toy_after {S A} (m : M S A) (s : S) : S := match m s with Ok (_, s') => s' | _ => s end.
Definition toy_bio : bstate unit := toy_after binit toy_boot.
Definition toy_ready : lstate (bstate unit) := toy_after (initlog ROOTDEV) (mkls toy_log toy_bio).

Lemma toy_block_ok n : is_block (toy_blocks n).
Proof. unfold toy_blocks. by case_decide. Qed.
Lemma toy_after_ok {S A} (m : M S A) (Q : S → Prop) s :
  wp no_panic m (λ _ s', Q s') s → Q (toy_after m s).
Proof. unfold wp, toy_after. by destruct (m s) as [[? ?]|?| |]. Qed.
Lemma toy_size : Z.of_nat (length (d_blocks (bs_disk toy_boot))) = 100.
Proof. by vm_compute. Qed.
Lemma toy_lookup n : 0 ≤ n < 100 → d_blocks (bs_disk toy_boot) !! Z.to_nat n = Some (toy_blocks n).
Proof.
  intros Hn. unfold toy_boot, toy_disk. cbn [bs_disk d_blocks].
  rewrite list_lookup_fmap, lookup_seqZ_lt by lia. cbn [fmap option_fmap option_map].
  do 2 f_equal. lia.
Qed.
Lemma toy_bio_view : bio_view [] toy_bio toy_v.
Proof.
  apply (toy_after_ok binit (λ s', bio_view [] s' toy_v)).
  apply (wp_binit _ toy_boot toy_blocks); rewrite ?toy_size; [reflexivity|exact I|reflexivity| |].
  - intros n Hn. split; [by apply toy_lookup|apply toy_block_ok].
  - intros s' Hs'. exact Hs'.
Qed.

Lemma toy_bio_idle j c : contents (bs_cache toy_bio) !! j = Some c → ¬ (b_dev c = ROOTDEV ∧ b_blockno c = 7).
Proof.
  assert (contents (bs_cache toy_bio) = replicate NBUF (set_b_dev NODEV zero_buf)) as -> by (by vm_compute).
  intros [-> _]%lookup_replicate [Hd _]. done.
Qed.

(** ** The buffer cache *)

(** bread of a block that no one holds returns a buffer of its own, marked
    busy, with the block's latest contents: those of the cached buffer, or those
    of the disk when the block was not cached.  It needs a buffer that is neither
    busy nor dirty only if the block is not cached; nothing else changes. *)
Theorem bread_exact {W} `{SyncLaws W} sleep L (s : bstate W) v n :
  bio_view L s v → "bcache" ∉ L → 0 ≤ n < v_size v → n ∉ (v_held v).*2 →
  (n ∈ v_pinned v ∨ size (v_busy v) < NBUF)%nat →
  wp no_panic (bread sleep ROOTDEV n) (λ i s', i ∉ (v_held v).*1 ∧ bio_view L s' (v_hold i n v) ∧
    ∃ b, bc_buf (bs_cache s') !! i = Some b ∧ b_blockno b = n ∧ b_data b = v_mem v n ∧
      has (b_flags b) B_BUSY = true ∧ has (b_flags b) B_VALID = true) s.
Proof.
  intros Hv HL Hn Hh Hroom. eapply wp_bread; [exact Hv|done|done|done|done|].
  intros i s' Hi Hv'. split_and!; [done|done|].
  destruct (bio_view_held _ _ _ i n Hv') as (b & l & Hb & _ & Hbn & Hok & Hbusy & _); [by left|].
  apply contents_lookup in Hb as (b' & Hb' & ->). exists b'. split_and!; [done|done| |done|apply Hok].
  rewrite <- Hbn. symmetry. apply (bk_data _ _ _ Hok).
Qed.
Lemma bread_exact_witness :
  wp no_panic (bread toy_sleep ROOTDEV 1) (λ i s', i ∉ (v_held toy_v).*1 ∧ bio_view [] s' (v_hold i 1 toy_v) ∧
    ∃ b, bc_buf (bs_cache s') !! i = Some b ∧ b_blockno b = 1 ∧ b_data b = v_mem toy_v 1 ∧
      has (b_flags b) B_BUSY = true ∧ has (b_flags b) B_VALID = true) toy_bio.
Proof.
  apply (bread_exact toy_sleep [] toy_bio toy_v 1 toy_bio_view).
  - apply not_elem_of_nil.
  - simpl. lia.
  - apply not_elem_of_nil.
  - right. vm_compute. lia.
Defined.

(** C7. Replacement is least recently used: on a miss bget recycles the buffer
    nearest the end of the ring that is neither busy nor dirty, for the block
    asked for, and returns it busy and not yet valid; brelse moves the buffer it
    releases to the front of the ring and keeps the order of the others. *)
Theorem bcache_lru {W} `{SyncLaws W} sleep L (s : bstate W) v n l :
  bio_view L s v → "bcache" ∉ L → "ptable" ∉ L → ring (bs_cache s) l →
  l ≡ₚ seq 0 NBUF →
  (0 ≤ n < v_size v → n ∉ (v_held v).*2 → (size (v_busy v) < NBUF)%nat →
   (∀ j c, contents (bs_cache s) !! j = Some c → ¬ (b_dev c = ROOTDEV ∧ b_blockno c = n)) →
   wp no_panic (bget sleep ROOTDEV n) (λ i s', recycled l i n s s' ∧ ring (bs_cache s') l) s) ∧
  (∀ i m, (i, m) ∈ v_held v → m ∈ v_pinned v ∨ v_mem v m = v_disk v m →
   wp no_panic (brelse i) (λ _ s', ring (bs_cache s') (i :: remove1 i l)) s).
Proof.
  intros Hv HL HL' Hr Hp. pose proof Hv as (Hh & Hc & _). split.
  - intros Hn Hfree Hroom Hmiss. unfold bget. apply wp_bind, wp_world.
    eapply k_acquire_law; [exact Hh|done|]. intros w1 Hw1. unfold wake_fuel. cbn [bget_loop]. apply wp_bind.
    eapply wp_mono; [eapply (wp_bget_pass no_panic sleep L _ v n l); try done; by right|].
    intros o s1 (i & -> & _ & _ & Hr1 & _ & Hcase). apply wp_ret. split; [|done].
    destruct Hcase as [[(b & Hb & Hdev & Hbn) _]|Hrec]; [|exact Hrec]. by destruct (Hmiss i b Hb).
  - intros i m Hin Hcl. eapply wp_brelse; [exact Hv|exact Hr|exact Hp|done|done|exact Hin|done|]. auto.
Qed.
Lemma bcache_lru_witness :
  ∃ l, ring (bs_cache toy_bio) l ∧ l ≡ₚ seq 0 NBUF ∧
    wp no_panic (bget toy_sleep ROOTDEV 7) (λ i s', recycled l i 7 toy_bio s' ∧ ring (bs_cache s') l) toy_bio.
Proof.
  pose proof toy_bio_view as (_ & _ & l & Hr & Hp). exists l. split_and!; [exact Hr|exact Hp|].
  destruct (bcache_lru toy_sleep [] toy_bio toy_v 7 l toy_bio_view) as [Hget _];
    [apply not_elem_of_nil|apply not_elem_of_nil|exact Hr|exact Hp|].
  apply Hget; [simpl; lia|apply not_elem_of_nil|vm_compute; lia|exact toy_bio_idle].
Defined.

Definition toy_sb : superblock := mksb 100 60 16 30 2 32 36.
Lemma toy_sb_ok : sb_of_bytes (v_disk toy_v 1) = Some toy_sb.
Proof. by vm_compute. Qed.
Lemma toy_log_ok : log_ok 2 LOGSIZE (v_size toy_v) (v_disk toy_v).
Proof.
  assert (v_disk toy_v 2 = zero_block) as Hz by reflexivity.
  assert (hdr_n zero_block = 0) as Hn by (by vm_compute).
  assert (hdr_entries zero_block = []) as He by (by vm_compute).
  split; rewrite ?Hz, ?Hn, ?He; [split; unfold LOGSIZE, MAXOPBLOCKS; simpl; lia|lia|].
  split; [unfold LOGSIZE, MAXOPBLOCKS; simpl; lia..|constructor].
Qed.
Lemma toy_rest : at_rest toy_log toy_v (mkls toy_log toy_bio).
Proof. split_and!; [reflexivity|exact toy_bio_view|reflexivity]. Qed.

(** C6. At boot initlog recovers the file system: whatever committed transaction
    the log on disk holds is installed, so that outside the log the disk is the
    logical disk, and the log is then clear and ready for calls.  A crash
    during recovery is harmless: the disk after any prefix of its writes has the
    same logical contents, so that recovery may be cut short and repeated. *)
Theorem initlog_recovers {C} `{BlockIOLaws C} (s : lstate C) l v sb :
  at_rest l v s → v_pinned v = ∅ → 1 < v_size v → sb_of_bytes (v_disk v 1) = Some sb →
  Z.of_nat (length (lh_block (log_lh l))) = LOGSIZE →
  log_outstanding l = 0 → log_committing l = false →
  log_ok (sb_logstart sb) (sb_nlog sb) (v_size v) (v_disk v) →
  let old := logical (sb_logstart sb) (v_disk v) in
  wp no_panic (initlog ROOTDEV) (λ _ s', ∃ l' v' ws,
    logged (sb_nlog sb) s' [] (mkstore old old 0) l' v' [] ∧ v_trail v' = v_trail v ++ ws ∧
    ∀ k n, home (sb_logstart sb) (sb_nlog sb) n →
      logical (sb_logstart sb) (apply_puts (take k ws) (v_disk v)) n = old n) s.
Proof.
  intros Hr Hp Hsz Hsb Hlen Hout Hcom Hok old. eapply wp_mono.
  { exact (wp_initlog (sb_nlog sb) no_panic s l v sb Hr Hp Hsz Hsb Hlen Hout Hcom eq_refl Hok). }
  intros [] s' (l' & y & Hl & Hst & Hy). cbv zeta in Hl. eexists l', _, _.
  split_and!; [exact Hl|apply v_puts_trail|]. intros k n Hn.
  destruct Hok as [Hlay _ Hent]. eapply crash_in_recovery; [exact Hlay|exact Hent|exact Hy|exact Hn].
Qed.
Lemma initlog_recovers_witness :
  let old := logical 2 (v_disk toy_v) in
  wp no_panic (initlog ROOTDEV) (λ _ s', ∃ l' v' ws,
    logged LOGSIZE s' [] (mkstore old old 0) l' v' [] ∧ v_trail v' = v_trail toy_v ++ ws ∧
    ∀ k n, home 2 LOGSIZE n → logical 2 (apply_puts (take k ws) (v_disk toy_v)) n = old n)
    (mkls toy_log toy_bio).
Proof.
  exact (initlog_recovers (mkls toy_log toy_bio) toy_log toy_v toy_sb toy_rest eq_refl eq_refl toy_sb_ok
    eq_refl eq_refl eq_refl toy_log_ok).
Defined.

(** The machine after boot. *)
Lemma toy_ready_logged : ∃ l v, logged LOGSIZE toy_ready []
  (mkstore (logical 2 toy_blocks) (logical 2 toy_blocks) 0) l v [] ∧ log_start l = 2 ∧ v_size v = 100.
Proof.
  apply (toy_after_ok (initlog ROOTDEV) (λ s', ∃ l v, logged LOGSIZE s' []
    (mkstore (logical 2 toy_blocks) (logical 2 toy_blocks) 0) l v [] ∧ log_start l = 2 ∧ v_size v = 100)).
  eapply wp_mono.
  { exact (wp_initlog LOGSIZE no_panic (mkls toy_log toy_bio) toy_log toy_v toy_sb toy_rest eq_refl eq_refl
      toy_sb_ok eq_refl eq_refl eq_refl eq_refl toy_log_ok). }
  intros [] s' (l' & y & Hl & Hst & Hy). cbv zeta in Hl. eexists l', _.
  split_and!; [exact Hl|exact Hst|by rewrite v_puts_size].
Qed.

(** C5. The log implements the transactional store for calls that write at most
    nine blocks each, one less than MAXOPBLOCKS (at ten log_write can panic), with
    the log of LOGSIZE blocks that mkfs makes: begin_op, called when its
    reservation fits, admits the call, a block updated inside a call
    (bread, modify, log_write, brelse) changes the current contents and nothing
    on disk outside the log, and end_op of the last call saves all of them.
    None of them panics, blocks or runs out of buffers. *)
Theorem log_refines_store {C} `{BlockIOLaws C} sleep (s : lstate C) ops a l v bs :
  logged LOGSIZE s ops a l v bs →
  (∀ budget, admits l → (budget < Z.to_nat MAXOPBLOCKS)%nat →
     Forall (λ r, r < Z.to_nat MAXOPBLOCKS)%nat ops →
     wp no_panic (begin_op sleep) (λ _ s', ∃ l', logged LOGSIZE s' (budget :: ops) (store_begin a) l' v bs) s) ∧
  (∀ ops1 r ops2 n x, ops = ops1 ++ S r :: ops2 → 0 ≤ n < v_size v → home (log_start l) LOGSIZE n →
     is_block x → wp no_panic (update n x) (λ _ s', ∃ l' v',
       logged LOGSIZE s' (ops1 ++ r :: ops2) (store_write n x a) l' v' (joined bs n)) s) ∧
  (∀ ops1 r ops2, ops = ops1 ++ r :: ops2 →
     wp no_panic end_op (λ _ s', ∃ l' v' bs', logged LOGSIZE s' (ops1 ++ ops2) (store_end a) l' v' bs') s).
Proof.
  intros Hlg. split_and!.
  - intros budget Had Hb Hops. eapply wp_mono; [by apply (wp_begin_op sleep LOGSIZE no_panic s ops a l v bs)|].
    intros [] s' (l' & Hl' & _). by exists l'.
  - intros ops1 r ops2 n x -> Hn Hh Hx. eapply wp_mono; [by eapply wp_update|].
    intros [] s' (l' & v' & Hl' & _). by exists l', v'.
  - intros ops1 r ops2 ->. eapply wp_mono; [by eapply wp_end_op|].
    intros [] s' (l' & v' & bs' & Hl' & _). by exists l', v', bs'.
Qed.
Lemma log_refines_store_witness :
  ∃ l v a, logged LOGSIZE toy_ready [] a l v [] ∧
    wp no_panic (begin_op toy_lsleep) (λ _ s', ∃ l', logged LOGSIZE s' [9%nat] (store_begin a) l' v []) toy_ready.
Proof.
  destruct toy_ready_logged as (l & v & Hl & Hst & Hsz). eexists l, v, _. split; [exact Hl|].
  apply (proj1 (log_refines_store toy_lsleep toy_ready [] _ l v [] Hl)).
  - destruct Hl as [_ Ht _ _ Ho _ _ _ _ _]. unfold admits. rewrite Ho, (tr_n _ _ _ _ Ht).
    unfold LOGSIZE, MAXOPBLOCKS. simpl. lia.
  - unfold MAXOPBLOCKS. lia.
  - constructor.
Defined.

(** C4. A commit is atomic: end_op of the last call saves the transaction, and if
    the machine crashes after any prefix of the block writes it issues, recovery
    finds either the contents before the transaction or all of its writes. *)
Theorem commit_atomic {C} `{BlockIOLaws C} (s : lstate C) r a l v bs lsize :
  logged lsize s [r] a l v bs →
  wp no_panic end_op (λ _ s', ∃ l' v' ws, logged lsize s' [] (store_end a) l' v' [] ∧
    v_trail v' = v_trail v ++ ws ∧
    ∀ k, let after_crash := logical (log_start l) (apply_puts (take k ws) (v_disk v)) in
      (∀ n, 0 ≤ n < v_size v → home (log_start l) lsize n → after_crash n = st_saved a n) ∨
      (∀ n, 0 ≤ n < v_size v → home (log_start l) lsize n → after_crash n = st_cur a n)) s.
Proof.
  intros Hlg. eapply wp_mono; [exact (wp_end_op lsize no_panic s [] r [] a l v bs Hlg)|].
  intros [] s' (l' & v' & bs' & Hl' & _ & Hc & _). specialize (Hc eq_refl).
  rewrite (lg_quiet _ _ _ _ _ _ _ Hl' eq_refl) in Hl'. destruct Hlg as [Hr Ht _ _ _ _ _ _ Hcur Hsav].
  destruct Hc as [[-> ->]|(y & y0 & Hy & Hy0 & ->)].
  - exists l', v, []. split_and!; [done|by rewrite app_nil_r|]. intros k. left. intros n Hn Hh.
    rewrite take_nil. rewrite logical_empty by apply Ht. by apply Hsav.
  - eexists l', _, _. split_and!; [exact Hl'|apply v_puts_trail|]. intros k.
    set (mem := λ n, if decide (n ∈ bs) then v_mem v n else v_disk v n).
    assert (commit_writes (log_start l) (v_mem v) bs y y0 = commit_writes (log_start l) mem bs y y0) as ->.
    { unfold commit_writes, log_writes, home_writes. f_equal; [|f_equal; f_equal].
      - apply imap_ext. intros i b Hb%list_elem_of_lookup_2. unfold mem. by rewrite decide_True.
      - apply list_fmap_ext. intros i b Hb%list_elem_of_lookup_2. unfold mem. by rewrite decide_True. }
    destruct (crash_in_commit (log_start l) lsize (v_size v) (tr_layout _ _ _ _ Ht) (v_disk v) mem bs y y0 k)
      as [Hd|Hd]; [apply Ht|apply Ht|done|done| |left|right].
    + intros n _ Hn. unfold mem. by rewrite decide_False.
    + intros n Hn Hh. rewrite Hd by done. by apply Hsav.
    + intros n Hn Hh. rewrite Hd by done. rewrite <- Hcur by done. unfold mem. case_decide; [done|].
      symmetry. by eapply trans_clean.
Qed.
(** One call in progress, which has changed block 50. *)
Definition toy_ones : block := replicate 512 1.
Lemma toy_open : ∃ s a l v bs, logged LOGSIZE s [8%nat] a l v bs.
Proof.
  destruct toy_ready_logged as (l & v & Hl & Hst & Hsz).
  pose proof (wp_begin_op toy_lsleep LOGSIZE no_panic toy_ready [] _ l v [] 9 Hl) as Hb.
  apply wp_total in Hb as ([] & s1 & _ & l1 & Hl1 & Hst1).
  - pose proof (wp_update LOGSIZE no_panic s1 [] 8 [] _ l1 v [] 50 toy_ones Hl1 eq_refl) as Hu.
    apply wp_total in Hu as ([] & s2 & _ & l2 & v2 & Hl2 & _).
    + by eexists _, _, _, _, _.
    + lia.
    + right. rewrite Hst1, Hst. unfold LOGSIZE, MAXOPBLOCKS. lia.
    + by vm_compute.
  - destruct Hl as [_ Ht _ _ Ho _ _ _ _ _]. unfold admits. rewrite Ho, (tr_n _ _ _ _ Ht).
    unfold LOGSIZE, MAXOPBLOCKS. simpl. lia.
  - unfold MAXOPBLOCKS. lia.
  - constructor.
Qed.
Lemma commit_atomic_witness :
  ∃ (s : lstate (bstate unit)) a l v bs, logged LOGSIZE s [8%nat] a l v bs ∧
    wp no_panic end_op (λ _ s', ∃ l' v' ws, logged LOGSIZE s' [] (store_end a) l' v' [] ∧
    v_trail v' = v_trail v ++ ws ∧
    ∀ k, let after_crash := logical (log_start l) (apply_puts (take k ws) (v_disk v)) in
      (∀ n, 0 ≤ n < v_size v → home (log_start l) LOGSIZE n → after_crash n = st_saved a n) ∨
      (∀ n, 0 ≤ n < v_size v → home (log_start l) LOGSIZE n → after_crash n = st_cur a n)) s.
Proof.
  destruct toy_open as (s & a & l & v & bs & Hl). exists s, a, l, v, bs. split; [exact Hl|].
  exact (commit_atomic s 8 a l v bs LOGSIZE Hl).
Defined.

(** ** A full log *)
Section overflow.
Context {C : Type} `{BlockIOLaws C} (sleep : chan → string → M (lstate C) unit).
Implicit Types (s : lstate C).

(** Calls that begin one after the other, while nothing is written. *)
Lemma wp_begin_ops j k s ops a l v :
  logged LOGSIZE s ops a l v [] → Forall (λ r, r < Z.to_nat MAXOPBLOCKS)%nat ops → (length ops + k ≤ 3)%nat →
  wp no_panic (mfor (seq j k) (λ _, begin_op sleep)) (λ _ s', ∃ ops' a' l', length ops' = (length ops + k)%nat ∧
    logged LOGSIZE s' ops' a' l' v [] ∧ log_start l' = log_start l) s.
Proof.
  revert j s ops a l. induction k as [|k IH]; intros j s ops a l Hl Hops Hk; cbn [seq mfor].
  { apply wp_skip. exists ops, a, l. split_and!; [lia|done|done]. }
  apply wp_bind. eapply wp_mono; [apply (wp_begin_op sleep LOGSIZE no_panic s ops a l v [] 0 Hl)|].
  - destruct Hl as [_ Ht _ _ Ho _ _ _ _ _]. unfold admits. rewrite Ho, (tr_n _ _ _ _ Ht).
    unfold LOGSIZE, MAXOPBLOCKS. simpl. lia.
  - unfold MAXOPBLOCKS. lia.
  - done.
  - intros [] s1 (l1 & Hl1 & Hst1). eapply wp_mono; [eapply (IH (S j) s1 (0%nat :: ops) _ l1); [exact Hl1| |simpl; lia]|].
    + constructor; [unfold MAXOPBLOCKS; lia|done].
    + intros [] s2 (ops' & a' & l' & Hlen & Hl' & Hst'). exists ops', a', l'. simpl in Hlen.
      split_and!; [lia|done|congruence].
Qed.

(** Updates of new blocks, as long as the budget lasts. *)
Lemma wp_updates ns x r ops s a l v bs :
  logged LOGSIZE s ((length ns + r)%nat :: ops) a l v bs → NoDup (bs ++ ns) → is_block x →
  Forall (λ n, 0 ≤ n < v_size v ∧ home (log_start l) LOGSIZE n) ns →
  wp no_panic (mfor ns (λ n, update n x)) (λ _ s', ∃ a' l' v', logged LOGSIZE s' (r :: ops) a' l' v' (bs ++ ns) ∧
    log_start l' = log_start l ∧ v_size v' = v_size v) s.
Proof.
  revert s a l v bs. induction ns as [|n ns IH]; intros s a l v bs Hl Hnd Hx Hns; cbn [mfor].
  { apply wp_skip. exists a, l, v. by rewrite (right_id_L [] (++)). }
  apply list.Forall_cons in Hns as [[Hn Hh] Hns].
  apply wp_bind. eapply wp_mono; [by apply (wp_update LOGSIZE no_panic s [] (length ns + r) ops a l v bs n x)|].
  intros [] s1 (l1 & v1 & Hl1 & Hst1 & Hsz1). simpl in Hl1.
  assert (n ∉ bs) as Hni. { apply list.NoDup_app in Hnd as (_ & Hd & _). intros Hin. eapply Hd; [done|set_solver]. }
  unfold joined in Hl1. rewrite decide_False in Hl1 by done.
  eapply wp_mono; [eapply IH; [exact Hl1|by rewrite <- app_assoc|done|by rewrite Hst1, Hsz1]|].
  intros [] s2 (a2 & l2 & v2 & Hl2 & Hst2 & Hsz2). exists a2, l2, v2. rewrite <- app_assoc in Hl2.
  split_and!; [exact Hl2|congruence|congruence].
Qed.

(** An update when only the place of the header is left. *)
Lemma wp_update_full s ops a l v bs n x :
  logged LOGSIZE s ops a l v bs → Z.of_nat (length bs) = LOGSIZE - 1 → 0 ≤ n < v_size v → is_block x →
  wp (λ e, e = "too big a transaction") (update n x) (λ _ _, False) s.
Proof.
  intros [Hr Ht Hsz Hidle Hopen Hcnt Hroom Hq Hcur Hsav] Hfull Hn Hx. pose proof Hr as (Hl & Hv & Hh).
  unfold update. apply wp_bind, wp_io.
  eapply io_bread_law; [exact Hv|set_solver|exact Hn|by rewrite Hh; set_solver| |].
  { right. rewrite busy_none by done. eapply trans_size, Ht. }
  intros b c1 _ Hv1. apply wp_bind, wp_io. eapply io_store_law; [exact Hv1|by left|exact Hx|].
  intros c2 Hv2. apply wp_bind. unfold log_write. apply wp_bind, wp_the. simpl. rewrite Hl. cbn [id].
  rewrite decide_True; [done|]. right. rewrite Hsz, (tr_n _ _ _ _ Ht). lia.
Qed.
End overflow.

(** C8. With the sizes of param.h the reservation of begin_op is one block too
    generous: from any state of the log with no call in progress, begin_op admits
    three calls at once, which may then write 29 different blocks between them;
    writing any thirtieth block, still within ten blocks (MAXOPBLOCKS) for each
    call, panics with "too big a transaction", because log_write leaves no room
    for the header in a log of LOGSIZE blocks. *)
Theorem admitted_calls_overflow_log {C} `{BlockIOLaws C} sleep (s : lstate C) a l v ns n x :
  logged LOGSIZE s [] a l v [] → NoDup (n :: ns) → Z.of_nat (length (n :: ns)) = 3 * MAXOPBLOCKS → is_block x →
  Forall (λ m, 0 ≤ m < v_size v ∧ home (log_start l) LOGSIZE m) (n :: ns) →
  wp no_panic (mfor (seq 0 3) (λ _, begin_op sleep) ;;; mfor ns (λ m, update m x))
    (λ _ s', wp (λ e, e = "too big a transaction") (update n x) (λ _ _, False) s') s.
Proof.
  intros Hl Hnd Hlen Hx Hns. unfold MAXOPBLOCKS in Hlen. simpl in Hlen. apply list.NoDup_cons in Hnd as [_ Hnd].
  apply list.Forall_cons in Hns as [[Hn _] Hns].
  apply wp_bind. eapply wp_mono; [by eapply (wp_begin_ops sleep 0 3 s [] a l v Hl)|].
  intros [] s1 (ops & a1 & l1 & Hops & Hl1 & Hst1).
  eapply (logged_budgets _ s1 ops [29; 0; 0]%nat) in Hl1; [|by rewrite Hops|simpl; lia].
  replace 29%nat with (length ns + 0)%nat in Hl1 by lia. rewrite <- Hst1 in Hns.
  eapply wp_mono; [by eapply (wp_updates ns x 0 _ s1 a1 l1 v [] Hl1)|].
  intros [] s2 (a2 & l2 & v2 & Hl2 & _ & Hsz2). simpl in Hl2.
  eapply (wp_update_full s2); [exact Hl2| |by rewrite Hsz2|done].
  unfold LOGSIZE, MAXOPBLOCKS. lia.
Qed.
Lemma admitted_calls_overflow_log_witness :
  wp no_panic (mfor (seq 0 3) (λ _, begin_op toy_lsleep) ;;; mfor (seqZ 41 29) (λ m, update m toy_ones))
    (λ _ s', wp (λ e, e = "too big a transaction") (update 40 toy_ones) (λ _ _, False) s') toy_ready.
Proof.
  destruct toy_ready_logged as (l & v & Hl & Hst & Hsz).
  apply (admitted_calls_overflow_log toy_lsleep toy_ready _ l v (seqZ 41 29) 40 toy_ones Hl).
  - apply (bool_decide_unpack _). vm_compute. exact I.
  - reflexivity.
  - by vm_compute.
  - rewrite Hst, Hsz. change (40 :: seqZ 41 29) with (seqZ 40 30). apply list.Forall_forall. intros m Hm.
    apply elem_of_seqZ in Hm. split; [lia|]. right. unfold LOGSIZE, MAXOPBLOCKS. lia.
Defined.
