(* ===== verification/Pipe.v ===== *)
(** * Pipes (pipe.c)

    A call runs until it returns or goes to sleep; [Slept i] is a call asleep
    with [i] bytes done, which goes on from there, lock held, when it is woken.
    [nread] and [nwrite] are unsigned and wrap around; their difference is the
    number of bytes in the ring.  pipealloc is in File.v, with the file table. *)

From S2P Require Import Prelude ProcData Sync.
Local Open Scope Z_scope.

Definition PIPESIZE : Z := 512.
Record pipe := mkpipe {
  pi_data : list Z; pi_nread : Z; pi_nwrite : Z; pi_readopen : Z; pi_writeopen : Z
}.
Definition set_pi_nread x p := mkpipe (pi_data p) x (pi_nwrite p) (pi_readopen p) (pi_writeopen p).
Definition set_pi_readopen x p := mkpipe (pi_data p) (pi_nread p) (pi_nwrite p) x (pi_writeopen p).
Definition set_pi_writeopen x p := mkpipe (pi_data p) (pi_nread p) (pi_nwrite p) (pi_readopen p) x.

Record pstate (W : Type) := mkps { ps_pipe : pipe; ps_world : W }.
Arguments mkps {W}.
Arguments ps_pipe {W}.
Arguments ps_world {W}.
Definition set_ps_pipe {W} x (s : pstate W) : pstate W := mkps x (ps_world s).
Definition set_ps_world {W} (x : W) (s : pstate W) : pstate W := mkps (ps_pipe s) x.

Inductive turn := Returned (r : Z) | Slept (i : nat).

(** &p->nread and &p->nwrite *)
Definition chan_nread : chan := ChAddr (-2).
Definition chan_nwrite : chan := ChAddr (-3).

Section pipe.
Context {W : Type} `{Sync W}.
Abbreviation P := (M (pstate W)).
Context (sleep : chan → string → M W unit) (kfree : M W unit).
Definition pworld {A} (m : M W A) : P A := zoom ps_world set_ps_world m.
Definition pupd (f : pipe → pipe) : P unit := modS (λ s, set_ps_pipe (f (ps_pipe s)) s).

Definition pipeclose (writable : bool) : P unit :=
  pworld (k_acquire "pipe") ;;;
  (if writable then
     pupd (set_pi_writeopen 0) ;;; pworld (k_wakeup chan_nread)
   else
     pupd (set_pi_readopen 0) ;;; pworld (k_wakeup chan_nwrite)) ;;;
  let! p := gets ps_pipe in
  if decide (pi_readopen p = 0 ∧ pi_writeopen p = 0) then
    pworld (k_release "pipe") ;;; pworld kfree
  else pworld (k_release "pipe").

Definition pipe_full (p : pipe) : bool := bool_decide (pi_nwrite p = u32 (pi_nread p + PIPESIZE)).

(** The loop of pipewrite from byte [i] on; [bytes] are those not yet written. *)
Fixpoint pipewrite_from (killed : bool) (i : nat) (bytes : list Z) : P turn :=
  match bytes with
  | [] =>
      pworld (k_wakeup chan_nread) ;;;
      pworld (k_release "pipe") ;;;
      ret (Returned (Z.of_nat i))
  | c :: rest =>
      let! p := gets ps_pipe in
      if pipe_full p then
        if bool_decide (pi_readopen p = 0) || killed then
          pworld (k_release "pipe") ;;; ret (Returned (-1))
        else
          pworld (k_wakeup chan_nread) ;;;
          pworld (sleep chan_nwrite "pipe") ;;;
          ret (Slept i)
      else
        let k := Z.to_nat (pi_nwrite p mod PIPESIZE) in
        let! _ := of_opt (pi_data p !! k) in
        pupd (λ p, mkpipe (<[k := c]> (pi_data p)) (pi_nread p) (u32 (pi_nwrite p + 1))
                     (pi_readopen p) (pi_writeopen p)) ;;;
        pipewrite_from killed (S i) rest
  end.
Definition pipewrite (killed : bool) (addr : list Z) : P turn :=
  pworld (k_acquire "pipe") ;;; pipewrite_from killed 0 addr.

(** The copy loop of piperead: up to [n] bytes, and the bytes copied so far. *)
Fixpoint piperead_copy (n : nat) (got : list Z) : P (list Z) :=
  match n with
  | O => ret got
  | S n' =>
      let! p := gets ps_pipe in
      if decide (pi_nread p = pi_nwrite p) then ret got else
      let! c := of_opt (pi_data p !! Z.to_nat (pi_nread p mod PIPESIZE)) in
      pupd (set_pi_nread (u32 (pi_nread p + 1))) ;;;
      piperead_copy n' (got ++ [c])
  end.
(** piperead with the lock held: the outcome and the bytes stored at [addr]. *)
Definition piperead_from (killed : bool) (n : nat) : P (turn * list Z) :=
  let! p := gets ps_pipe in
  if decide (pi_nread p = pi_nwrite p ∧ pi_writeopen p ≠ 0) then
    if killed then pworld (k_release "pipe") ;;; ret (Returned (-1), [])
    else pworld (sleep chan_nread "pipe") ;;; ret (Slept 0, [])
  else
    let! got := piperead_copy n [] in
    pworld (k_wakeup chan_nwrite) ;;;
    pworld (k_release "pipe") ;;;
    ret (Returned (Z.of_nat (length got)), got).
Definition piperead (killed : bool) (n : nat) : P (turn * list Z) :=
  pworld (k_acquire "pipe") ;;; piperead_from killed n.
End pipe.

(** ** The bytes in the ring *)
Definition pcount (p : pipe) : nat := Z.to_nat (u32 (pi_nwrite p - pi_nread p)).
Definition pcontents (p : pipe) : list Z :=
  (λ k, nth (Z.to_nat ((pi_nread p + Z.of_nat k) mod PIPESIZE)) (pi_data p) 0) <$> seq 0 (pcount p).

Record pipe_ok (p : pipe) : Prop := mkpo {
  po_len : length (pi_data p) = 512%nat;
  po_read : 0 ≤ pi_nread p < 2 ^ 32;
  po_write : 0 ≤ pi_nwrite p < 2 ^ 32;
  po_bound : (pcount p ≤ 512)%nat
}.

(** PIPESIZE divides 2^32, so wrapping around does not move a byte. *)
Lemma u32_mod_pipe z : u32 z mod PIPESIZE = z mod PIPESIZE.
Proof.
  unfold u32, PIPESIZE. rewrite <- (Z.mod_mod_divide z (2 ^ 32) 512); [done|].
  exists 8388608. reflexivity.
Qed.

Lemma pipe_full_count p : pipe_ok p → pipe_full p = bool_decide (pcount p = 512%nat).
Proof.
  intros [_ Hr Hw Hb]. unfold pipe_full, pcount, PIPESIZE in *. apply bool_decide_ext.
  unfold u32 in *. split; intros Heq.
  - rewrite Heq. rewrite Zminus_mod_idemp_l.
    replace (pi_nread p + 512 - pi_nread p) with 512 by lia. done.
  - assert ((pi_nwrite p - pi_nread p) mod 2 ^ 32 = 512) as Hm.
    { pose proof (Z.mod_pos_bound (pi_nwrite p - pi_nread p) (2 ^ 32)). lia. }
    rewrite <- Hm, Zplus_mod_idemp_r.
    replace (pi_nread p + (pi_nwrite p - pi_nread p)) with (pi_nwrite p) by lia.
    symmetry. apply Z.mod_small. lia.
Qed.
Lemma pipe_empty_count p : pipe_ok p → pi_nread p = pi_nwrite p ↔ pcount p = O.
Proof.
  intros [_ Hr Hw Hb]. unfold pcount, u32 in *. split; intros Heq.
  - rewrite Heq, Z.sub_diag. done.
  - assert ((pi_nwrite p - pi_nread p) mod 2 ^ 32 = 0) as Hm.
    { pose proof (Z.mod_pos_bound (pi_nwrite p - pi_nread p) (2 ^ 32)). lia. }
    apply Z.mod_divide in Hm as [q Hq]; [|lia]. nia.
Qed.

(** Storing a byte appends it, fetching one removes the first. *)
Definition stored (c : Z) (p : pipe) : pipe :=
  mkpipe (<[Z.to_nat (pi_nwrite p mod PIPESIZE) := c]> (pi_data p)) (pi_nread p) (u32 (pi_nwrite p + 1))
    (pi_readopen p) (pi_writeopen p).

Lemma stored_count c p : pipe_ok p → (pcount p < 512)%nat → pcount (stored c p) = S (pcount p).
Proof.
  intros [_ Hr Hw Hb] Hlt. unfold pcount, stored in *. simpl. unfold u32 in *.
  rewrite Zminus_mod_idemp_l.
  replace (pi_nwrite p + 1 - pi_nread p) with (pi_nwrite p - pi_nread p + 1) by lia.
  rewrite <- Zplus_mod_idemp_l.
  pose proof (Z.mod_pos_bound (pi_nwrite p - pi_nread p) (2 ^ 32)) as Hm.
  rewrite Z.mod_small by lia. lia.
Qed.
Lemma stored_ok c p : pipe_ok p → (pcount p < 512)%nat → pipe_ok (stored c p).
Proof.
  intros Hok Hlt. pose proof (stored_count c p Hok Hlt) as Hc. destruct Hok as [Hl Hr Hw Hb].
  split; [simpl; by rewrite length_insert|done|apply u32_range|lia].
Qed.

Lemma nwrite_slot p : pipe_ok p → pi_nwrite p mod PIPESIZE = (pi_nread p + Z.of_nat (pcount p)) mod PIPESIZE.
Proof.
  intros [_ Hr Hw _]. unfold pcount. rewrite Z2Nat.id by apply u32_range.
  rewrite <- Zplus_mod_idemp_r, u32_mod_pipe, Zplus_mod_idemp_r. f_equal. lia.
Qed.
Lemma slot_ne a j k : (j < k < 512)%nat → (a + Z.of_nat j) mod PIPESIZE ≠ (a + Z.of_nat k) mod PIPESIZE.
Proof.
  unfold PIPESIZE. intros Hjk Heq.
  assert ((Z.of_nat k - Z.of_nat j) mod 512 = 0) as Hm.
  { replace (Z.of_nat k - Z.of_nat j) with (a + Z.of_nat k - (a + Z.of_nat j)) by lia.
    rewrite Zminus_mod, Heq, Z.sub_diag. done. }
  rewrite Z.mod_small in Hm by lia. lia.
Qed.
Lemma slot_wrap a k : (u32 a + k) mod PIPESIZE = (a + k) mod PIPESIZE.
Proof. by rewrite <- Zplus_mod_idemp_l, u32_mod_pipe, Zplus_mod_idemp_l. Qed.
Lemma slot_bound a : (Z.to_nat (a mod PIPESIZE) < 512)%nat.
Proof. unfold PIPESIZE. pose proof (Z.mod_pos_bound a 512). lia. Qed.

Lemma stored_contents c p : pipe_ok p → (pcount p < 512)%nat → pcontents (stored c p) = pcontents p ++ [c].
Proof.
  intros Hok Hlt. unfold pcontents. rewrite stored_count, seq_S, fmap_app by done. f_equal.
  - apply list_fmap_ext. intros i k [-> Hi]%lookup_seq. simpl.
    rewrite !nth_lookup, list_lookup_insert_ne; [done|].
    rewrite nwrite_slot by done. intros Heq. apply (slot_ne (pi_nread p) i (pcount p)); [lia|].
    pose proof (Z.mod_pos_bound (pi_nread p + Z.of_nat i) 512).
    pose proof (Z.mod_pos_bound (pi_nread p + Z.of_nat (pcount p)) 512). unfold PIPESIZE in *. lia.
  - simpl. f_equal. rewrite nth_lookup, nwrite_slot by done. rewrite list_lookup_insert_eq; [done|].
    rewrite (po_len _ Hok). apply slot_bound.
Qed.

Lemma fetched_spec p :
  pipe_ok p → (0 < pcount p)%nat →
  let p' := set_pi_nread (u32 (pi_nread p + 1)) p in
  ∃ c, pi_data p !! Z.to_nat (pi_nread p mod PIPESIZE) = Some c ∧ pipe_ok p' ∧
    pcontents p = c :: pcontents p' ∧ S (pcount p') = pcount p.
Proof.
  intros Hok Hpos p'. pose proof Hok as [Hl Hr Hw Hb].
  assert (S (pcount p') = pcount p) as Hc.
  { unfold p', pcount in *. simpl. unfold u32 in *. rewrite Zminus_mod_idemp_r.
    replace (pi_nwrite p - (pi_nread p + 1)) with (pi_nwrite p - pi_nread p - 1) by lia.
    rewrite <- Zminus_mod_idemp_l.
    pose proof (Z.mod_pos_bound (pi_nwrite p - pi_nread p) (2 ^ 32)) as Hm.
    rewrite (Z.mod_small (_ - 1)) by lia. lia. }
  destruct (lookup_lt_is_Some_2 (pi_data p) (Z.to_nat (pi_nread p mod PIPESIZE))) as [c Hcd].
  { rewrite Hl. apply slot_bound. }
  exists c. split_and!; [done| | |done].
  - split; [done|apply u32_range|done|lia].
  - unfold pcontents. rewrite <- Hc. cbn [seq fmap list_fmap]. f_equal.
    + rewrite Z.add_0_r, nth_lookup, Hcd. done.
    + rewrite <- fmap_S_seq, <- list_fmap_compose. apply list_fmap_ext. intros i k _. simpl.
      rewrite slot_wrap. do 3 f_equal. lia.
Qed.

(** ** What the calls do to the ring *)
Section rules.
Context {W : Type} `{Sync W} (E : string → Prop).
Context (sleep : chan → string → M W unit).
Implicit Types (s : pstate W).

Lemma wp_pworld {A} (m : M W A) Q s :
  wp E m (λ a w, Q a (set_ps_world w s)) (ps_world s) → wp E (pworld m) Q s.
Proof. apply wp_zoom. Qed.

(** pipewrite stores bytes in order until it is done or the ring is full. *)
Lemma wp_pipewrite_from killed i bytes s Q :
  pipe_ok (ps_pipe s) →
  (∀ p' k, pipe_ok p' → (k ≤ length bytes)%nat →
     pcontents p' = pcontents (ps_pipe s) ++ take k bytes →
     pi_readopen p' = pi_readopen (ps_pipe s) → pi_writeopen p' = pi_writeopen (ps_pipe s) →
     (k = length bytes →
        wp E (pworld (k_wakeup chan_nread) ;;; pworld (k_release "pipe") ;;; ret (Returned (Z.of_nat (i + k)))) Q
          (set_ps_pipe p' s)) ∧
     ((k < length bytes)%nat → pcount p' = 512%nat →
        wp E (if bool_decide (pi_readopen p' = 0) || killed then
                pworld (k_release "pipe") ;;; ret (Returned (-1))
              else pworld (k_wakeup chan_nread) ;;; pworld (sleep chan_nwrite "pipe") ;;; ret (Slept (i + k)))
          Q (set_ps_pipe p' s))) →
  wp E (pipewrite_from sleep killed i bytes) Q s.
Proof.
  revert i s. induction bytes as [|c rest IH]; intros i s Hok HQ; cbn [pipewrite_from].
  - destruct (HQ (ps_pipe s) O) as [Hfin _]; [done|simpl; lia|by rewrite app_nil_r|done|done|].
    rewrite Nat.add_0_r in Hfin. destruct s. by apply Hfin.
  - apply wp_bind, wp_gets. rewrite pipe_full_count by done. case_bool_decide as Hfull.
    + destruct (HQ (ps_pipe s) O) as [_ Hsl]; [done|simpl; lia|by rewrite app_nil_r|done|done|].
      rewrite Nat.add_0_r in Hsl. destruct s. apply Hsl; [simpl; lia|done].
    + assert (pcount (ps_pipe s) < 512)%nat as Hlt by (pose proof (po_bound _ Hok); lia).
      destruct (lookup_lt_is_Some_2 (pi_data (ps_pipe s)) (Z.to_nat (pi_nwrite (ps_pipe s) mod PIPESIZE)))
        as [x Hx]; [rewrite (po_len _ Hok); apply slot_bound|].
      apply wp_bind. eapply wp_of_opt; [exact Hx|]. apply wp_bind, wp_modS.
      change (set_ps_pipe _ s) with (set_ps_pipe (stored c (ps_pipe s)) s).
      apply IH; [by apply stored_ok|]. intros p' k Hp' Hk Hcs Hro Hwo.
      simpl in Hcs. rewrite stored_contents in Hcs by done.
      destruct (HQ p' (S k)) as [Hfin Hsl]; [done|simpl; lia| |done|done|].
      { by rewrite Hcs, <- app_assoc. }
      rewrite Nat.add_succ_r in Hfin, Hsl. cbn [Nat.add]. split.
      * intros Hk'. apply Hfin. simpl. lia.
      * intros Hk' Hc. apply Hsl; [simpl; lia|done].
Qed.

(** piperead takes bytes in order until it has [n] or the ring is empty. *)
Lemma wp_piperead_copy n got s Q :
  pipe_ok (ps_pipe s) →
  (∀ p' bs, pipe_ok p' → pcontents (ps_pipe s) = bs ++ pcontents p' →
     length bs = Nat.min n (pcount (ps_pipe s)) →
     pi_readopen p' = pi_readopen (ps_pipe s) → pi_writeopen p' = pi_writeopen (ps_pipe s) →
     Q (got ++ bs) (set_ps_pipe p' s)) →
  wp E (piperead_copy n got) Q s.
Proof.
  revert got s. induction n as [|n IH]; intros got s Hok HQ; cbn [piperead_copy].
  - apply wp_ret. rewrite <- (app_nil_r got). destruct s. by apply (HQ ps_pipe0 []).
  - apply wp_bind, wp_gets. case_decide as He.
    + apply pipe_empty_count in He; [|done]. apply wp_ret. rewrite <- (app_nil_r got). destruct s.
      apply (HQ ps_pipe0 []); [done|done|cbn [ps_pipe] in *; by rewrite He, Nat.min_0_r|done|done].
    + assert (0 < pcount (ps_pipe s))%nat as Hpos.
      { destruct (pcount (ps_pipe s)) eqn:Hc; [|lia]. by apply pipe_empty_count in Hc. }
      destruct (fetched_spec _ Hok Hpos) as (c & Hc & Hok' & Hcs & Hcnt).
      apply wp_bind. eapply wp_of_opt; [exact Hc|]. apply wp_bind, wp_modS.
      apply IH; [done|]. intros p' bs Hp' Hbs Hl Hro Hwo. cbn [ps_pipe set_ps_pipe] in *. rewrite <- app_assoc.
      apply (HQ p' (c :: bs)); [done| | |done|done].
      * rewrite Hcs, Hbs. done.
      * cbn [length]. lia.
Qed.
End rules.
