(* ===== verification/PipeThm.v ===== *)
(** * Pipes: first in, first out, and no lost wakeups *)

From S2P Require Import Prelude ProcData Sync Pipe.
Local Open Scope Z_scope.

(** ** The stream of bytes *)

(** What a run of pipewrite over [bytes] reports, [k] bytes having gone in. *)
Definition write_report (killed : bool) (i : nat) (bytes : list Z) (k : nat) (p : pipe) (t : turn) : Prop :=
  match t with
  | Returned r =>
      r = Z.of_nat (i + length bytes) ∧ k = length bytes ∨
      r = -1 ∧ (k < length bytes)%nat ∧ pcount p = 512%nat ∧ (pi_readopen p = 0 ∨ killed = true)
  | Slept j => j = (i + k)%nat ∧ (k < length bytes)%nat ∧ pcount p = 512%nat ∧ pi_readopen p ≠ 0
  end.
(** What a run of piperead of [n] bytes reports, [got] having come out of [p0]. *)
Definition read_report (killed : bool) (n : nat) (p0 : pipe) (t : turn) (got : list Z) : Prop :=
  match t with
  | Returned r =>
      r = Z.of_nat (length got) ∧ length got = Nat.min n (pcount p0) ∧
        (pcount p0 = O → pi_writeopen p0 = 0) ∨
      r = -1 ∧ got = [] ∧ killed = true ∧ pcount p0 = O ∧ pi_writeopen p0 ≠ 0
  | Slept _ => got = [] ∧ pcount p0 = O ∧ pi_writeopen p0 ≠ 0
  end.

Section stream.
Context {W : Type} `{SyncLaws W} (E : string → Prop) (sleep : chan → string → M W unit).
Implicit Types (s : pstate W).
(** sleep gives up the lock it is passed. *)
Context (Hsleep : ∀ ch w Q, holds ["pipe"] w → (∀ w', Q tt w') → wp E (sleep ch "pipe") Q w).

Lemma pipewrite_from_stream killed i bytes s :
  pipe_ok (ps_pipe s) → holds ["pipe"] (ps_world s) →
  wp E (pipewrite_from sleep killed i bytes) (λ t s', ∃ k, (k ≤ length bytes)%nat ∧
    pipe_ok (ps_pipe s') ∧ pcontents (ps_pipe s') = pcontents (ps_pipe s) ++ take k bytes ∧
    write_report killed i bytes k (ps_pipe s') t) s.
Proof.
  intros Hok Hh. apply wp_pipewrite_from; [done|]. intros p' k Hp' Hk Hcs Hro Hwo. split.
  - intros ->. apply wp_bind, wp_pworld. eapply k_wakeup_law; [exact Hh|set_solver|]. intros w1 Hw1.
    apply wp_bind, wp_pworld. eapply k_release_law; [exact Hw1|]. intros w2 Hw2. apply wp_ret.
    exists (length bytes). split_and!; [done|done|done|]. by left.
  - intros Hlt Hfull. destruct (bool_decide (pi_readopen p' = 0) || killed) eqn:Hb.
    + apply wp_bind, wp_pworld. eapply k_release_law; [exact Hh|]. intros w1 Hw1. apply wp_ret.
      exists k. split_and!; [done|done|done|]. right. split_and!; [done|done|done|].
      apply orb_true_iff in Hb as [Hb%bool_decide_eq_true|Hb]; auto.
    + apply orb_false_iff in Hb as [Hb%bool_decide_eq_false Hkl].
      apply wp_bind, wp_pworld. eapply k_wakeup_law; [exact Hh|set_solver|]. intros w1 Hw1.
      apply wp_bind, wp_pworld. apply Hsleep; [exact Hw1|]. intros w2. apply wp_ret.
      exists k. by split_and!.
Qed.

Lemma piperead_from_stream killed n s :
  pipe_ok (ps_pipe s) → holds ["pipe"] (ps_world s) →
  wp E (piperead_from sleep killed n) (λ r s', pipe_ok (ps_pipe s') ∧
    pcontents (ps_pipe s) = r.2 ++ pcontents (ps_pipe s') ∧
    read_report killed n (ps_pipe s) r.1 r.2) s.
Proof.
  intros Hok Hh. unfold piperead_from. apply wp_bind, wp_gets. case_decide as Hd.
  - destruct Hd as [He Hwo]. apply pipe_empty_count in He; [|done]. destruct killed.
    + apply wp_bind, wp_pworld. eapply k_release_law; [exact Hh|]. intros w1 Hw1. apply wp_ret.
      split_and!; [done|done|]. right. done.
    + apply wp_bind, wp_pworld. apply Hsleep; [exact Hh|]. intros w1. apply wp_ret. done.
  - apply wp_bind. apply wp_piperead_copy; [done|]. intros p' bs Hp' Hcs Hl Hro Hwo.
    apply wp_bind, wp_pworld. eapply k_wakeup_law; [exact Hh|set_solver|]. intros w1 Hw1.
    apply wp_bind, wp_pworld. eapply k_release_law; [exact Hw1|]. intros w2 Hw2. apply wp_ret.
    split_and!; [done|done|]. left. split_and!; [done|done|]. intros He.
    destruct (decide (pi_writeopen (ps_pipe s) = 0)); [done|]. destruct Hd. split; [|done].
    by apply pipe_empty_count.
Qed.
End stream.

(** C27. A pipe is a bounded queue: pipewrite appends its bytes in order, at most
    512 unread at a time, until all are in, or the pipe is full, when it fails
    if no reader is left or it was killed and sleeps otherwise; piperead removes
    bytes from the front, as many as asked for and there are, and sleeps only on
    an empty pipe that can still be written.  The indices may wrap around 2^32. *)
Theorem pipe_fifo {W} `{SyncLaws W} E sleep (s : pstate W) killed bytes n :
  (∀ ch w Q, holds ["pipe"] w → (∀ w', Q tt w') → wp E (sleep ch "pipe") Q w) →
  pipe_ok (ps_pipe s) → holds [] (ps_world s) →
  wp E (pipewrite sleep killed bytes) (λ t s', ∃ k, (k ≤ length bytes)%nat ∧
    pipe_ok (ps_pipe s') ∧ pcontents (ps_pipe s') = pcontents (ps_pipe s) ++ take k bytes ∧
    write_report killed 0 bytes k (ps_pipe s') t) s ∧
  wp E (piperead sleep killed n) (λ r s', pipe_ok (ps_pipe s') ∧
    pcontents (ps_pipe s) = r.2 ++ pcontents (ps_pipe s') ∧
    read_report killed n (ps_pipe s) r.1 r.2) s.
Proof.
  intros Hsleep Hok Hh. split; apply wp_bind, wp_pworld;
    (eapply k_acquire_law; [exact Hh|set_solver|]); intros w Hw.
  - exact (pipewrite_from_stream E sleep Hsleep killed 0 bytes (set_ps_world w s) Hok Hw).
  - exact (piperead_from_stream E sleep Hsleep killed n (set_ps_world w s) Hok Hw).
Qed.

Definition new_pipe : pipe := mkpipe (replicate 512 0) 0 0 1 1.
Lemma new_pipe_ok : pipe_ok new_pipe.
Proof. split; [done|simpl; lia|simpl; lia|vm_compute; lia]. Qed.
Lemma pipe_fifo_witness :
  wp no_panic (pipewrite (λ _ _, skip) false [1; 2; 3]) (λ t s', ∃ k, (k ≤ 3)%nat ∧
    pipe_ok (ps_pipe s') ∧ pcontents (ps_pipe s') = pcontents new_pipe ++ take k [1; 2; 3] ∧
    write_report false 0 [1; 2; 3] k (ps_pipe s') t) (mkps new_pipe tt).
Proof.
  refine (proj1 (pipe_fifo no_panic (λ _ _, skip) (mkps new_pipe tt) false [1; 2; 3] 0 _ new_pipe_ok I)).
  intros ch w Q _ HQ. apply wp_skip, HQ.
Defined.

(** ** One writer, one reader *)

(** Who sleeps, and whether the pipe is locked: the view of sleep and wakeup
    that pipe.c depends on. *)
Record two := mktwo { t_locked : bool; t_writer : bool; t_reader : bool }.
Definition two_wakeup (ch : chan) (w : two) : two :=
  mktwo (t_locked w) (if decide (ch = chan_nwrite) then false else t_writer w)
    (if decide (ch = chan_nread) then false else t_reader w).
Definition two_sleep (ch : chan) (_ : string) : M two unit :=
  modS (λ w, mktwo false (if decide (ch = chan_nwrite) then true else t_writer w)
               (if decide (ch = chan_nread) then true else t_reader w)).
#[export] Instance two_sync : Sync two := {|
  k_initlock _ := modS (λ w, mktwo false (t_writer w) (t_reader w));
  k_acquire _ := let! w := getS in
    if t_locked w then diverge else modS (λ w, mktwo true (t_writer w) (t_reader w));
  k_release _ := modS (λ w, mktwo false (t_writer w) (t_reader w));
  k_wakeup ch := modS (two_wakeup ch)
|}.

(** A writer that has [bytes] left of its call, and a reader waiting for [n]. *)
Record duo := mkduo { du_s : pstate two; du_write : option (list Z); du_read : option nat }.
Definition rest_of (bytes : list Z) (t : turn) : option (list Z) :=
  match t with Returned _ => None | Slept i => Some (drop i bytes) end.
Definition wait_of (n : nat) (t : turn) : option nat :=
  match t with Returned _ => None | Slept _ => Some n end.
(** A process woken in sleep takes the lock again. *)
Definition relock (s : pstate two) : pstate two :=
  set_ps_world (mktwo true (t_writer (ps_world s)) (t_reader (ps_world s))) s.

Inductive duo_step : duo → duo → Prop :=
| step_write s r bytes t s' :
    pi_writeopen (ps_pipe s) ≠ 0 → pipewrite two_sleep false bytes s = Ok (t, s') →
    duo_step (mkduo s None r) (mkduo s' (rest_of bytes t) r)
| step_write_on s r bytes t s' :
    t_writer (ps_world s) = false →
    pipewrite_from two_sleep false 0 bytes (relock s) = Ok (t, s') →
    duo_step (mkduo s (Some bytes) r) (mkduo s' (rest_of bytes t) r)
| step_read s w killed n t got s' :
    pi_readopen (ps_pipe s) ≠ 0 → piperead two_sleep killed n s = Ok ((t, got), s') →
    duo_step (mkduo s w None) (mkduo s' w (wait_of n t))
| step_read_on s w killed n t got s' :
    t_reader (ps_world s) = false →
    piperead_from two_sleep killed n (relock s) = Ok ((t, got), s') →
    duo_step (mkduo s w (Some n)) (mkduo s' w (wait_of n t))
| step_close s w r writable s' :
    (writable = true → w = None) → (writable = false → r = None) →
    pipeclose skip writable s = Ok (tt, s') → duo_step (mkduo s w r) (mkduo s' w r)
| step_kill s w r :
    (** kill makes a sleeping reader runnable *)
    duo_step (mkduo s w r)
      (mkduo (set_ps_world (mktwo (t_locked (ps_world s)) (t_writer (ps_world s)) false) s) w r).

Record duo_ok (d : duo) : Prop := mkdo {
  do_pipe : pipe_ok (ps_pipe (du_s d));
  do_unlocked : t_locked (ps_world (du_s d)) = false;
  do_wopen : du_write d ≠ None → pi_writeopen (ps_pipe (du_s d)) ≠ 0;
  do_ropen : du_read d ≠ None → pi_readopen (ps_pipe (du_s d)) ≠ 0;
  do_writer : t_writer (ps_world (du_s d)) = true →
    du_write d ≠ None ∧ pcount (ps_pipe (du_s d)) = 512%nat ∧ pi_readopen (ps_pipe (du_s d)) ≠ 0;
  do_reader : t_reader (ps_world (du_s d)) = true →
    du_read d ≠ None ∧ pcount (ps_pipe (du_s d)) = O ∧ pi_writeopen (ps_pipe (du_s d)) ≠ 0
}.

Lemma pcount_contents p : length (pcontents p) = pcount p.
Proof. unfold pcontents. by rewrite length_fmap, length_seq. Qed.
Lemma wp_of_Ok {S A} (m : M S A) (Q : A → S → Prop) s a s' :
  m s = Ok (a, s') → wp no_panic m Q s → Q a s'.
Proof. unfold wp. by intros ->. Qed.

(** A run of the writer, which holds the lock and is awake. *)
Lemma writer_run i bytes s t s' :
  pipe_ok (ps_pipe s) → t_writer (ps_world s) = false →
  (t_reader (ps_world s) = true → pi_readopen (ps_pipe s) ≠ 0) →
  pipewrite_from two_sleep false i bytes s = Ok (t, s') →
  pipe_ok (ps_pipe s') ∧ t_locked (ps_world s') = false ∧ t_reader (ps_world s') = false ∧
  pi_readopen (ps_pipe s') = pi_readopen (ps_pipe s) ∧
  pi_writeopen (ps_pipe s') = pi_writeopen (ps_pipe s) ∧
  (t_writer (ps_world s') = true →
    rest_of bytes t ≠ None ∧ pcount (ps_pipe s') = 512%nat ∧ pi_readopen (ps_pipe s') ≠ 0).
Proof.
  intros Hok Hw Hr Heq.
  eapply (wp_of_Ok _ (λ t s', pipe_ok (ps_pipe s') ∧ t_locked (ps_world s') = false ∧
    t_reader (ps_world s') = false ∧
    pi_readopen (ps_pipe s') = pi_readopen (ps_pipe s) ∧
    pi_writeopen (ps_pipe s') = pi_writeopen (ps_pipe s) ∧
    (t_writer (ps_world s') = true → rest_of bytes t ≠ None ∧ pcount (ps_pipe s') = 512%nat ∧
       pi_readopen (ps_pipe s') ≠ 0))) in Heq; [exact Heq|].
  apply wp_pipewrite_from; [done|]. intros p' k Hp' Hk Hcs Hro Hwo. split.
  - intros ->. by split_and!; simpl; rewrite ?Hw.
  - intros Hlt Hfull. rewrite orb_false_r. case_bool_decide as Hb.
    + split_and!; simpl; rewrite ?Hw; try done.
      destruct (t_reader (ps_world s)); [|done]. rewrite Hro in Hb. by destruct Hr.
    + by split_and!.
Qed.

(** A run of the reader. *)
Lemma reader_run killed n s t got s' :
  pipe_ok (ps_pipe s) → t_reader (ps_world s) = false →
  (t_writer (ps_world s) = true → pcount (ps_pipe s) = 512%nat) →
  piperead_from two_sleep killed n s = Ok ((t, got), s') →
  pipe_ok (ps_pipe s') ∧ t_locked (ps_world s') = false ∧
  pi_readopen (ps_pipe s') = pi_readopen (ps_pipe s) ∧
  pi_writeopen (ps_pipe s') = pi_writeopen (ps_pipe s) ∧
  t_writer (ps_world s') = false ∧
  (t_reader (ps_world s') = true →
    wait_of n t ≠ None ∧ pcount (ps_pipe s') = O ∧ pi_writeopen (ps_pipe s') ≠ 0).
Proof.
  intros Hok Hr Hw Heq.
  eapply (wp_of_Ok _ (λ r s', pipe_ok (ps_pipe s') ∧ t_locked (ps_world s') = false ∧
    pi_readopen (ps_pipe s') = pi_readopen (ps_pipe s) ∧
    pi_writeopen (ps_pipe s') = pi_writeopen (ps_pipe s) ∧
    t_writer (ps_world s') = false ∧
    (t_reader (ps_world s') = true → wait_of n r.1 ≠ None ∧ pcount (ps_pipe s') = O ∧
       pi_writeopen (ps_pipe s') ≠ 0))) in Heq; [exact Heq|].
  unfold piperead_from. apply wp_bind, wp_gets. case_decide as Hd.
  - destruct Hd as [He Hwo]. apply pipe_empty_count in He; [|done].
    assert (t_writer (ps_world s) = false) as Hw' by (destruct (t_writer _); [lia|done]).
    destruct killed; by split_and!; simpl; rewrite ?Hr, ?Hw'.
  - apply wp_bind. apply wp_piperead_copy; [done|]. intros p' bs Hp' Hcs Hl Hro Hwo.
    by split_and!; simpl; rewrite ?Hr.
Qed.

Lemma acquire_two s : t_locked (ps_world s) = false → pworld (k_acquire "pipe") s = Ok (tt, relock s).
Proof.
  intros Hu. unfold pworld, zoom, k_acquire, two_sync, bind, getS. by rewrite Hu.
Qed.

Lemma duo_step_ok d d' : duo_step d d' → duo_ok d → duo_ok d'.
Proof.
  intros Hstep [Hp Hu Hwo Hro Hw Hr]. destruct Hstep as
    [s r bytes t s' Hopen Heq|s r bytes t s' Haw Heq|s w killed n t got s' Hopen Heq
    |s w killed n t got s' Haw Heq|s w r writable s' Hwc Hrc Heq|s w r]; simpl in *.
  - assert (t_writer (ps_world s) = false) as Hw0 by (destruct (t_writer _); [by destruct Hw|done]).
    unfold pipewrite, bind in Heq. rewrite acquire_two in Heq by done.
    apply writer_run in Heq as (H1 & H2 & H3 & H4 & H5 & H6); [|done|done|].
    + split; simpl; [done|done|rewrite H5; intros _; exact Hopen|rewrite H4; exact Hro|exact H6|by rewrite H3].
    + simpl. intros Hrd. by apply Hro, Hr.
  - apply writer_run in Heq as (H1 & H2 & H3 & H4 & H5 & H6); [|done|done|].
    + split; simpl; [done|done|rewrite H5; intros _; by apply Hwo|rewrite H4; exact Hro|exact H6|by rewrite H3].
    + simpl. intros Hrd. by apply Hro, Hr.
  - assert (t_reader (ps_world s) = false) as Hr0 by (destruct (t_reader _); [by destruct Hr|done]).
    unfold piperead, bind in Heq. rewrite acquire_two in Heq by done.
    apply reader_run in Heq as (H1 & H2 & H3 & H4 & H5 & H6); [|done|done|].
    + split; simpl; [done|done|rewrite H4; exact Hwo|rewrite H3; intros _; exact Hopen|by rewrite H5|exact H6].
    + simpl. intros Hwr. by apply Hw.
  - apply reader_run in Heq as (H1 & H2 & H3 & H4 & H5 & H6); [|done|done|].
    + split; simpl; [done|done|rewrite H4; exact Hwo|rewrite H3; intros _; by apply Hro|by rewrite H5|exact H6].
    + simpl. intros Hwr. by apply Hw.
  - unfold pipeclose, bind in Heq. rewrite acquire_two in Heq by done.
    unfold pupd, pworld, zoom, gets, modS in Heq. simpl in Heq. destruct writable; simpl in Heq.
    + rewrite (Hwc eq_refl) in *.
      assert (t_writer (ps_world s) = false) as Hw0 by (destruct (t_writer _); [by destruct Hw|done]).
      destruct Hp. case_decide; injection Heq as <-; split; simpl; try done; by rewrite Hw0.
    + rewrite (Hrc eq_refl) in *.
      assert (t_reader (ps_world s) = false) as Hr0 by (destruct (t_reader _); [by destruct Hr|done]).
      destruct Hp. case_decide; injection Heq as <-; split; simpl; try done; by rewrite Hr0.
  - by split.
Qed.

Definition duo0 : duo := mkduo (mkps new_pipe (mktwo false false false)) None None.
Lemma duo0_ok : duo_ok duo0.
Proof. split; simpl; try done. apply new_pipe_ok. Qed.

(** C28. No wakeup is lost between one writer that is not killed and one reader:
    in every reachable state a sleeping writer faces a full pipe that can be
    read and a sleeping reader an empty pipe that can be written, so the two
    never sleep at once and neither sleeps while the other has nothing to do. *)
Theorem pipe_wakeups d :
  rtc duo_step duo0 d →
  let w := ps_world (du_s d) in let p := ps_pipe (du_s d) in
  (t_writer w = true → pcount p = 512%nat ∧ pi_readopen p ≠ 0) ∧
  (t_reader w = true → pcontents p = [] ∧ pi_writeopen p ≠ 0) ∧
  t_writer w && t_reader w = false.
Proof.
  intros Hr. assert (duo_ok d) as [_ _ _ _ Hw Hrd].
  { revert Hr. generalize duo0_ok. generalize duo0. intros d0 Hok Hr.
    induction Hr as [|x y z Hxy Hyz IH]; [done|]. apply IH. by eapply duo_step_ok. }
  cbv zeta. split_and!.
  - intros H1. by apply Hw.
  - intros H1. destruct (Hrd H1) as (_ & He & Ho). split; [|done].
    apply nil_length_inv. by rewrite pcount_contents.
  - destruct (t_writer _), (t_reader _); try done. destruct (Hw eq_refl) as (_ & ? & _).
    destruct (Hrd eq_refl) as (_ & ? & _). lia.
Qed.
(** The reader sleeps, then the writer sends 600 bytes and sleeps. *)
Definition run_read (n : nat) (d : duo) : duo :=
  match piperead two_sleep false n (du_s d) with
  | Ok ((t, _), s) => mkduo s (du_write d) (wait_of n t) | _ => d end.
Definition run_write (bytes : list Z) (d : duo) : duo :=
  match pipewrite two_sleep false bytes (du_s d) with
  | Ok (t, s) => mkduo s (rest_of bytes t) (du_read d) | _ => d end.
Definition duo1 : duo := run_read 10 duo0.
Definition duo2 : duo := run_write (replicate 600 7) duo1.
Lemma run_read_step n d :
  du_read d = None → pi_readopen (ps_pipe (du_s d)) ≠ 0 → rtc duo_step d (run_read n d).
Proof.
  intros Hr Ho. unfold run_read. destruct (piperead _ _ _ _) as [[[t got] s]|?| |] eqn:Heq; try apply rtc_refl.
  destruct d as [s0 w r]. simpl in *. subst r. apply rtc_once. by eapply step_read.
Qed.
Lemma run_write_step bytes d :
  du_write d = None → pi_writeopen (ps_pipe (du_s d)) ≠ 0 → rtc duo_step d (run_write bytes d).
Proof.
  intros Hr Ho. unfold run_write. destruct (pipewrite _ _ _ _) as [[t s]|?| |] eqn:Heq; try apply rtc_refl.
  destruct d as [s0 w r]. simpl in *. subst w. apply rtc_once. by eapply step_write.
Qed.
Lemma duo2_reachable : rtc duo_step duo0 duo2.
Proof.
  transitivity duo1; [by apply run_read_step|].
  apply run_write_step; vm_compute; [reflexivity|discriminate].
Qed.
Lemma duo2_writer : t_writer (ps_world (du_s duo2)) = true.
Proof. vm_compute. reflexivity. Qed.
Lemma pipe_wakeups_witness :
  t_writer (ps_world (du_s duo2)) = true ∧ pcount (ps_pipe (du_s duo2)) = 512%nat.
Proof.
  split; [exact duo2_writer|].
  exact (proj1 (proj1 (pipe_wakeups duo2 duo2_reachable) duo2_writer)).
Defined.

(** A killed writer does lose a wakeup: it fills the pipe that a reader sleeps
    on and returns -1 without waking it, so the reader sleeps on a full pipe
    until the write end is closed. *)
Theorem killed_writer_loses_wakeup :
  match pipewrite two_sleep true (replicate 600 7) (du_s duo1) with
  | Ok (t, s) =>
      t_reader (ps_world (du_s duo1)) = true ∧ t = Returned (-1) ∧
      t_reader (ps_world s) = true ∧ pcount (ps_pipe s) = 512%nat
  | _ => False
  end.
Proof. vm_compute. split_and!; reflexivity. Qed.

