(* ===== verification/Format.v ===== *)
(** * Formatted output (printint and cprintf of console.c, user-space printf.c)

    Both printers are written against a [putc] that emits one character: for
    console.c it is consputc, for printf.c a one-byte write.  A format and a
    string are byte lists, an argument is an unsigned word, and [str a] is the
    memory from address [a] on.  [-xx] wraps around at the smallest integer, as
    the generated code does. *)

From S2P Require Import Prelude CString.
Local Open Scope Z_scope.

Definition lower_digits : list Z := [48;49;50;51;52;53;54;55;56;57;97;98;99;100;101;102].
Definition upper_digits : list Z := [48;49;50;51;52;53;54;55;56;57;65;66;67;68;69;70].

(** [buf[i++] = c] with [char buf[16]]. *)
Definition push16 (buf : list Z) (c : Z) : option (list Z) :=
  if decide (length buf < 16)%nat then Some (buf ++ [c]) else None.

(** The do-while loop; [buf] runs over before 17 rounds are done. *)
Fixpoint print_digits (fuel : nat) (digits : list Z) (base x : Z) (buf : list Z) : option (list Z) :=
  match fuel with
  | O => None
  | S fuel' =>
      c ← digits !! Z.to_nat (x mod base);
      buf' ← push16 buf c;
      if decide (x / base = 0) then Some buf' else print_digits fuel' digits base (x / base) buf'
  end.
Definition printint_buf (digits : list Z) (xx base : Z) (sign : bool) : option (list Z) :=
  let neg := sign && bool_decide (xx < 0) in
  let x := if neg then u32 (- xx) else u32 xx in
  buf ← print_digits 17 digits base x [];
  if neg then push16 buf 45 else Some buf.

Definition null_text : list Z := [40; 110; 117; 108; 108; 41].

Section printers.
Context {S : Type} (putc : Z → M S unit) (str : Z → list Z).

Definition put_buf (buf : option (list Z)) : M S unit :=
  let! b := of_opt buf in mfor (reverse b) putc.
(** printint of console.c *)
Definition printint (xx base : Z) (sign : bool) : M S unit :=
  put_buf (printint_buf lower_digits xx base sign).
(** printint of printf.c *)
Definition uprintint (xx base : Z) (sgn : bool) : M S unit :=
  put_buf (printint_buf upper_digits xx base sgn).

(** [for(; *s; s++) putc( *s)] *)
Fixpoint puts (s : list Z) : M S unit :=
  match s with
  | [] => fault
  | c :: s' => if decide (c = 0) then skip else putc c ;;; puts s'
  end.
Definition string_at (a : Z) : list Z := if decide (a = 0) then null_text ++ [0] else str a.

(** *argp++ *)
Definition with_arg (args : list Z) (k : Z → list Z → M S unit) : M S unit :=
  match args with a :: args' => k a args' | [] => fault end.

(** The loop of cprintf: ['%' = 37], ['d' = 100], ['x' = 120], ['p' = 112], ['s' = 115]. *)
Fixpoint cprintf_loop (fmt : list Z) (args : list Z) : M S unit :=
  match fmt with
  | [] => fault
  | c :: rest =>
      if decide (c = 0) then skip
      else if decide (c ≠ 37) then putc c ;;; cprintf_loop rest args
      else
        match rest with
        | [] => fault
        | c :: rest =>
            if decide (c = 0) then skip
            else if decide (c = 100) then
              with_arg args (λ a args, printint (s32 a) 10 true ;;; cprintf_loop rest args)
            else if decide (c = 120 ∨ c = 112) then
              with_arg args (λ a args, printint (s32 a) 16 false ;;; cprintf_loop rest args)
            else if decide (c = 115) then
              with_arg args (λ a args, puts (string_at a) ;;; cprintf_loop rest args)
            else if decide (c = 37) then putc 37 ;;; cprintf_loop rest args
            else putc 37 ;;; putc c ;;; cprintf_loop rest args
        end
  end.

(** The loop of printf.c, with its [state]; ['c' = 99]. *)
Fixpoint printf_loop (state : Z) (fmt : list Z) (ap : list Z) : M S unit :=
  match fmt with
  | [] => fault
  | c :: rest =>
      if decide (c = 0) then skip
      else if decide (state = 0) then
        if decide (c = 37) then printf_loop 37 rest ap else putc c ;;; printf_loop state rest ap
      else if decide (state = 37) then
        if decide (c = 100) then
          with_arg ap (λ a ap, uprintint (s32 a) 10 true ;;; printf_loop 0 rest ap)
        else if decide (c = 120 ∨ c = 112) then
          with_arg ap (λ a ap, uprintint (s32 a) 16 false ;;; printf_loop 0 rest ap)
        else if decide (c = 115) then
          with_arg ap (λ a ap, puts (string_at a) ;;; printf_loop 0 rest ap)
        else if decide (c = 99) then
          with_arg ap (λ a ap, putc (u8 a) ;;; printf_loop 0 rest ap)
        else if decide (c = 37) then putc c ;;; printf_loop 0 rest ap
        else putc 37 ;;; putc c ;;; printf_loop 0 rest ap
      else printf_loop state rest ap
  end.
Definition printf (fmt : list Z) (ap : list Z) : M S unit := printf_loop 0 fmt ap.
End printers.

(** ** The digits of a number *)
Definition digit_value (c : Z) : Z :=
  if decide (c ≤ 57) then c - 48 else if decide (c ≤ 70) then c - 55 else c - 87.
(** Least significant digit first. *)
Fixpoint value_of (base : Z) (ds : list Z) : Z :=
  match ds with [] => 0 | c :: ds' => digit_value c + base * value_of base ds' end.

Definition digit_table (digits : list Z) : Prop :=
  ∀ d, 0 ≤ d < 16 → ∃ c, digits !! Z.to_nat d = Some c ∧ digit_value c = d ∧ c ≠ 0 ∧ c ≠ 45 ∧
    c ≠ 32 ∧ c ≠ 43 ∧ (d < 10 → c = 48 + d).
Lemma digit_table_check digits :
  forallb (λ d, match digits !! d with
    | Some c => bool_decide (digit_value c = Z.of_nat d ∧ c ≠ 0 ∧ c ≠ 45 ∧ c ≠ 32 ∧ c ≠ 43 ∧
        (Z.of_nat d < 10 → c = 48 + Z.of_nat d))
    | None => false end) (seq 0 16) = true →
  digit_table digits.
Proof.
  rewrite forallb_forall. intros H d Hd. specialize (H (Z.to_nat d)).
  rewrite in_seq in H. specialize (H ltac:(lia)). destruct (digits !! Z.to_nat d) as [c|]; [|done].
  apply bool_decide_eq_true in H. rewrite Z2Nat.id in H by lia. eauto 10.
Qed.
Lemma lower_digits_table : digit_table lower_digits.
Proof. apply digit_table_check. vm_compute. reflexivity. Qed.
Lemma upper_digits_table : digit_table upper_digits.
Proof. apply digit_table_check. vm_compute. reflexivity. Qed.

(** The text is the number's digits, without leading zeros. *)
Record numeral (base x : Z) (ds : list Z) : Prop := mknum {
  nu_value : value_of base ds = x;
  nu_digits : Forall (λ c, 0 ≤ digit_value c < base ∧ c ≠ 0 ∧ c ≠ 45 ∧ c ≠ 32 ∧ c ≠ 43 ∧
                (base ≤ 10 → c = 48 + digit_value c)) ds;
  nu_canonical : x ≠ 0 → ∃ c, list.last ds = Some c ∧ digit_value c ≠ 0
}.

Lemma push16_Some buf c : (length buf < 16)%nat → push16 buf c = Some (buf ++ [c]).
Proof. intros. unfold push16. by rewrite decide_True. Qed.

Lemma print_digits_spec digits base (k : nat) fuel x buf :
  digit_table digits → 2 ≤ base ≤ 16 → 0 ≤ x < base ^ Z.of_nat k → (0 < k)%nat →
  (length buf + k ≤ 16)%nat → (k ≤ fuel)%nat →
  ∃ ds, print_digits fuel digits base x buf = Some (buf ++ ds) ∧ numeral base x ds ∧
    ds ≠ [] ∧ (length ds ≤ k)%nat.
Proof.
  intros Ht Hb. revert fuel x buf.
  induction k as [|k IH]; intros fuel x buf Hx Hk Hbuf Hf; [lia|].
  destruct fuel as [|fuel]; [lia|]. cbn [print_digits].
  pose proof (Z.mod_pos_bound x base ltac:(lia)) as Hm. pose proof (Z.div_mod x base ltac:(lia)) as Hdm.
  destruct (Ht (x mod base) ltac:(lia)) as (c & -> & Hc & Hc0 & Hc1 & Hc2 & Hc3 & Hc4). simpl.
  rewrite push16_Some by lia. simpl.
  assert (0 ≤ digit_value c < base ∧ c ≠ 0 ∧ c ≠ 45 ∧ c ≠ 32 ∧ c ≠ 43 ∧ (base ≤ 10 → c = 48 + digit_value c)) as Hd.
  { split_and!; try done; try lia. }
  destruct (decide (x / base = 0)) as [Hz|Hz].
  - exists [c]. split_and!; [done| |done|simpl; lia]. split; [simpl; lia|constructor; [exact Hd|constructor]|].
    intros Hx0. exists c. split; [done|]. lia.
  - assert (0 ≤ x / base) as Hd0 by (apply Z.div_pos; lia).
    assert (x / base < base ^ Z.of_nat k).
    { apply Z.div_lt_upper_bound; [lia|]. rewrite Nat2Z.inj_succ, Z.pow_succ_r in Hx by lia. lia. }
    assert (0 < k)%nat. { destruct k; [simpl in *; lia|lia]. }
    destruct (IH fuel (x / base) (buf ++ [c])) as (ds & -> & [Hv Hds Hcan] & Hne & Hl);
      [lia|done|rewrite length_app; simpl; lia|lia|].
    exists (c :: ds). rewrite <- app_assoc. split_and!; [done| |done|simpl; lia].
    split; [simpl; lia|constructor; [exact Hd|done]|].
    intros _. destruct (Hcan Hz) as (c' & Hl' & Hc'). exists c'. split; [|done].
    destruct ds; [done|exact Hl'].
Qed.

(** printint's buffer is large enough for the bases in use. *)
Lemma printint_buf_spec digits xx base sign :
  digit_table digits → 8 ≤ base ≤ 16 →
  let neg := sign && bool_decide (xx < 0) in
  let x := if neg then u32 (- xx) else u32 xx in
  ∃ ds, printint_buf digits xx base sign = Some (ds ++ (if neg then [45] else [])) ∧
    numeral base x ds ∧ ds ≠ [].
Proof.
  intros Ht Hb neg x. unfold printint_buf. fold neg. fold x.
  assert (0 ≤ x < 2 ^ 32) as Hx by (unfold x; destruct neg; apply u32_range).
  assert (2 ^ 32 ≤ base ^ Z.of_nat 11).
  { trans (8 ^ 11); [lia|]. apply Z.pow_le_mono_l. lia. }
  destruct (print_digits_spec digits base 11 17 x []) as (ds & -> & Hn & Hne & Hl); simpl; try lia; [done|].
  exists ds. destruct neg; simpl; [rewrite push16_Some by lia|rewrite app_nil_r]; done.
Qed.

(** ** Numerals, as they are written: the most significant digit first *)
(** The digits of [x] in base [base]; 32 of them are enough for a word. *)
Fixpoint digits_of (fuel : nat) (base x : Z) : list Z :=
  match fuel with
  | O => []
  | S fuel' => if decide (x < base) then [x] else digits_of fuel' base (x / base) ++ [x mod base]
  end.
Definition numeral_text (digits : list Z) (base x : Z) : list Z :=
  (if decide (x < 0) then [45] else []) ++ ((λ d, nth (Z.to_nat d) digits 0) <$> digits_of 32 base (Z.abs x)).

(** It is the numeral: its digits have the value [x] (read from the left), and the
    first is not zero, except in the numeral of zero. *)
Lemma digits_of_value fuel base x : 2 ≤ base → 0 ≤ x < base ^ Z.of_nat fuel → (0 < fuel)%nat →
  foldl (λ n d, n * base + d) 0 (digits_of fuel base x) = x ∧ Forall (λ d, 0 ≤ d < base) (digits_of fuel base x) ∧
  (x ≠ 0 → head (digits_of fuel base x) ≠ Some 0).
Proof.
  intros Hb. revert x. induction fuel as [|fuel IH]; intros x Hx Hf; [lia|]. cbn [digits_of]. case_decide as Hlt.
  - simpl. split_and!; [lia|constructor; [lia|constructor]|]. congruence.
  - pose proof (Z.div_mod x base ltac:(lia)) as Hdm. pose proof (Z.mod_pos_bound x base ltac:(lia)) as Hm.
    assert (1 ≤ x / base) as Hd1 by (apply Z.div_le_lower_bound; lia).
    assert (x / base < base ^ Z.of_nat fuel) as Hd2.
    { apply Z.div_lt_upper_bound; [lia|]. rewrite Nat2Z.inj_succ, Z.pow_succ_r in Hx by lia. lia. }
    destruct (IH (x / base) ltac:(lia)) as (Hv & Hall & Hh); [destruct fuel; [simpl in Hd2; lia|lia]|].
    rewrite foldl_app, Hv. simpl. split_and!; [lia|apply list.Forall_app; split; [done|constructor; [lia|constructor]]|].
    intros _. destruct (digits_of fuel base (x / base)) as [|d l] eqn:He; [simpl in Hv; lia|]. apply Hh. lia.
Qed.

(** The loop of printint collects these digits, the last one first. *)
Lemma print_digits_text digits base (k : nat) f1 f2 x buf :
  digit_table digits → 2 ≤ base ≤ 16 → 0 ≤ x < base ^ Z.of_nat k → (0 < k)%nat →
  (length buf + k ≤ 16)%nat → (k ≤ f1)%nat → (k ≤ f2)%nat →
  print_digits f1 digits base x buf = Some (buf ++ reverse ((λ d, nth (Z.to_nat d) digits 0) <$> digits_of f2 base x)).
Proof.
  intros Ht Hb. revert f1 f2 x buf.
  induction k as [|k IH]; intros f1 f2 x buf Hx Hk Hbuf Hf1 Hf2; [lia|].
  destruct f1 as [|f1], f2 as [|f2]; [lia..|]. cbn [print_digits digits_of].
  pose proof (Z.mod_pos_bound x base ltac:(lia)) as Hm. pose proof (Z.div_mod x base ltac:(lia)) as Hdm.
  destruct (Ht (x mod base) ltac:(lia)) as (c & Hc & _). rewrite Hc. simpl. rewrite push16_Some by lia. simpl.
  assert (nth (Z.to_nat (x mod base)) digits 0 = c) as En by (by rewrite nth_lookup, Hc).
  assert (0 ≤ x / base) as Hd0 by (apply Z.div_pos; lia).
  destruct (decide (x < base)) as [Hlt|Hge].
  - rewrite Z.div_small, decide_True by lia. rewrite Z.mod_small in En by lia. cbn [fmap list_fmap]. by rewrite En.
  - assert (1 ≤ x / base) as Hd1 by (apply Z.div_le_lower_bound; lia). rewrite decide_False by lia.
    assert (x / base < base ^ Z.of_nat k).
    { apply Z.div_lt_upper_bound; [lia|]. rewrite Nat2Z.inj_succ, Z.pow_succ_r in Hx by lia. lia. }
    rewrite (IH f1 f2); [|lia|destruct k; [simpl in *; lia|lia]|rewrite length_app; simpl; lia|lia..].
    rewrite fmap_app, reverse_app. cbn [fmap list_fmap]. rewrite En. by rewrite <- app_assoc.
Qed.
Lemma length_digits_of (k : nat) fuel base x : 2 ≤ base → 0 ≤ x < base ^ Z.of_nat k → (0 < k)%nat → (length (digits_of fuel base x) ≤ k)%nat.
Proof.
  intros Hb. revert k x. induction fuel as [|fuel IH]; intros k x Hx Hk; cbn [digits_of]; [simpl; lia|].
  case_decide as Hlt; [simpl; lia|]. rewrite length_app. cbn [length].
  assert (1 ≤ x / base) by (apply Z.div_le_lower_bound; lia). destruct k as [|k]; [lia|].
  assert (x / base < base ^ Z.of_nat k) as Hd.
  { apply Z.div_lt_upper_bound; [lia|]. rewrite Nat2Z.inj_succ, Z.pow_succ_r in Hx by lia. lia. }
  assert (0 < k)%nat by (destruct k; [simpl in Hd; lia|lia]). specialize (IH k (x / base) ltac:(lia) ltac:(done)). lia.
Qed.
(** printint's buffer holds the numeral, back to front. *)
Lemma printint_text digits xx base sign :
  digit_table digits → 8 ≤ base ≤ 16 → - 2 ^ 31 ≤ xx < 2 ^ 31 →
  printint_buf digits xx base sign = Some (reverse (numeral_text digits base (if sign then xx else u32 xx))).
Proof.
  intros Ht Hb Hx. unfold printint_buf, numeral_text. set (neg := sign && bool_decide (xx < 0)).
  assert (2 ^ 32 ≤ base ^ Z.of_nat 11) by (trans (8 ^ 11); [lia|apply Z.pow_le_mono_l; lia]).
  pose proof (u32_range xx) as Hu. assert ((if neg then u32 (- xx) else u32 xx) = Z.abs (if sign then xx else u32 xx) ∧
    neg = bool_decide ((if sign then xx else u32 xx) < 0)) as [-> En].
  { unfold neg. destruct sign; cbn [andb]; [case_bool_decide; rewrite u32_small by lia; lia|].
    rewrite bool_decide_false by lia. lia. }
  assert (0 ≤ Z.abs (if sign then xx else u32 xx) < base ^ Z.of_nat 11) as Ha by (destruct sign; lia).
  rewrite (print_digits_text _ _ 11 17 32); [|done|lia|exact Ha|lia|cbn [length]; lia|lia|lia]. rewrite En. cbn [mbind option_bind app].
  case_bool_decide as Hn; [|by rewrite decide_False, app_nil_l by lia]. rewrite decide_True, reverse_app by done.
  apply push16_Some. rewrite length_reverse, length_fmap.
  assert (length (digits_of 32 base (Z.abs (if sign then xx else u32 xx))) ≤ 11)%nat as Hl; [|lia].
  apply length_digits_of; [lia|exact Ha|lia].
Qed.

(** ** Reading a printed number back *)
Lemma s32_cong a b : (a - b) mod 2 ^ 32 = 0 → s32 a = s32 b.
Proof.
  intros [q Hq]%Z.mod_divide; [|lia]. unfold s32. f_equal.
  replace (a + 2 ^ 31) with (b + 2 ^ 31 + q * 2 ^ 32) by lia. apply Z.mod_add. lia.
Qed.
Lemma s32_mod z : (s32 z - z) mod 2 ^ 32 = 0.
Proof.
  unfold s32. replace (_ - z) with ((z + 2 ^ 31) mod 2 ^ 32 - (z + 2 ^ 31)) by lia.
  rewrite Zminus_mod_idemp_l, Z.sub_diag. done.
Qed.
Lemma s32_mul_add a b c : s32 (s32 a * b + c) = s32 (a * b + c).
Proof.
  apply s32_cong. replace (_ - _) with ((s32 a - a) * b) by lia.
  rewrite Z.mul_mod, s32_mod by lia. done.
Qed.
Lemma s32_idem a : s32 (s32 a) = s32 a.
Proof. apply s32_cong, s32_mod. Qed.
Lemma s32_neg a : s32 (-1 * s32 a) = s32 (- a).
Proof. apply s32_cong. replace (_ - _) with ((s32 a - a) * -1) by lia. by rewrite Z.mul_mod, s32_mod by lia. Qed.
Lemma s32_neg_u32 a : s32 (- u32 (- a)) = s32 a.
Proof.
  apply s32_cong. unfold u32. replace (_ - _) with (-1 * ((- a) mod 2 ^ 32 - (- a))) by lia.
  rewrite Z.mul_mod, Zminus_mod_idemp_l, Z.sub_diag by lia. done.
Qed.

(** The most significant digit is read first. *)
Lemma digits_value_rev ok base ds n rest :
  Forall (λ c, ok c = true ∧ c = 48 + digit_value c) ds →
  digits_value ok base n (reverse ds ++ rest) =
  digits_value ok base (match ds with [] => n | _ => s32 (n * base ^ Z.of_nat (length ds) + value_of base ds) end) rest.
Proof.
  intros Hall. revert n rest. induction ds as [|c ds IH]; intros n rest; [done|].
  apply list.Forall_cons in Hall as [[Hok Hc] Hds].
  rewrite reverse_cons, <- app_assoc, IH by done. simpl. rewrite Hok. f_equal. destruct ds as [|c' ds'].
  - simpl. apply s32_cong. replace (_ - _) with 0 by lia. done.
  - remember (c' :: ds') as ds. cbn [length value_of]. rewrite Nat2Z.inj_succ, Z.pow_succ_r by lia.
    rewrite <- Z.add_sub_assoc, s32_mul_add. apply s32_cong. replace (_ - _) with 0 by lia. done.
Qed.

Ltac by_char c := destruct c as [|c|c]; try done; do 6 (try destruct c as [c|c|]; try done).
Lemma skip_no_space c l : c ≠ 32 → skip_spaces (c :: l) = c :: l.
Proof. intros. by_char c. Qed.
Lemma no_sign c l : c ≠ 43 → c ≠ 45 → match c :: l with 43 :: s' | 45 :: s' => s' | _ => c :: l end = c :: l.
Proof. intros. by_char c. Qed.

(** A number printed in base 8 or 10, read back by atoo or atoi. *)
Lemma number_reads ok base x ds (neg : bool) :
  ok 0 = false → ok 45 = false → base ≤ 10 → (∀ d, 0 ≤ d < base → ok (48 + d) = true) →
  numeral base x ds → ds ≠ [] →
  number ok base (reverse (ds ++ (if neg then [45] else [])) ++ [0]) = s32 (if neg then - x else x).
Proof.
  intros Hok0 Hok45 Hb Hok [Hv Hds _] Hne.
  assert (Forall (λ c, ok c = true ∧ c = 48 + digit_value c) ds) as Hall.
  { eapply list.Forall_impl; [exact Hds|]. simpl. intros c (Hc & _ & _ & _ & _ & Hc').
    specialize (Hc' Hb). split; [|done]. rewrite Hc'. by apply Hok. }
  assert (digits_value ok base 0 (reverse ds ++ [0]) = s32 x) as Hval.
  { rewrite digits_value_rev by done. simpl. rewrite Hok0. destruct ds; [done|]. by rewrite Z.mul_0_l, Z.add_0_l, Hv. }
  destruct neg.
  - rewrite reverse_app. change (reverse [45]) with [45]. unfold number.
    cbn [app skip_spaces]. rewrite Hval. apply s32_neg.
  - rewrite app_nil_r. unfold number.
    destruct (reverse ds) as [|c l] eqn:Hr; [by apply (f_equal reverse) in Hr; rewrite reverse_involutive in Hr|].
    assert (c ∈ ds) as Hin by (apply elem_of_reverse; rewrite Hr; set_solver).
    pose proof (proj1 (list.Forall_forall _ _) Hds _ Hin) as (_ & H0 & H1 & H2 & H3 & _).
    cbn [app] in *. rewrite skip_no_space, no_sign by done.
    assert (match c with 45 => -1 | _ => 1 end = 1) as -> by by_char c.
    rewrite Z.mul_1_l, Hval. apply s32_idem.
Qed.

(** ** Code that behaves alike from every state *)
Record meq {S A} (m1 m2 : M S A) : Prop := mkmeq { meq_at : ∀ s, m1 s = m2 s }.
Infix "≈" := meq (at level 70) : kernel_scope.
#[export] Instance meq_equiv {S A} : Equivalence (@meq S A).
Proof. split; [by split|by intros m1 m2 [H]; split|intros m1 m2 m3 [H1] [H2]; split; intros s; by rewrite H1]. Qed.
#[export] Instance bind_proper {S A B} :
  Proper (meq ==> pointwise_relation A meq ==> meq) (@bind S A B).
Proof.
  intros m1 m2 [Hm] f1 f2 Hf. split. intros s. unfold bind. rewrite Hm.
  destruct (m2 s) as [[a s']|e| |]; [apply Hf|done..].
Qed.
Lemma bind_assoc {S A B C} (m : M S A) (f : A → M S B) (g : B → M S C) :
  bind (bind m f) g ≈ bind m (λ a, bind (f a) g).
Proof. split. intros s. unfold bind. by destruct (m s) as [[a s']|e| |]. Qed.
Lemma bind_ret_l {S A B} (a : A) (f : A → M S B) : bind (ret a) f ≈ f a.
Proof. by split. Qed.
Lemma bind_skip_r {S} (m : M S unit) : (m ;;; skip) ≈ m.
Proof. split. intros s. unfold bind, skip, ret. by destruct (m s) as [[[] s']|e| |]. Qed.

Lemma bind_skip_l {S A} (m : M S A) : (skip ;;; m) ≈ m.
Proof. by split. Qed.

Section render.
Context {S : Type} (putc : Z → M S unit) (str : Z → list Z).

Lemma mfor_app {A} (l1 l2 : list A) (m : A → M S unit) : mfor (l1 ++ l2) m ≈ (mfor l1 m ;;; mfor l2 m).
Proof.
  induction l1 as [|x l1 IH]; simpl.
  - by rewrite bind_skip_l.
  - rewrite bind_assoc. f_equiv. intros []. exact IH.
Qed.
Lemma puts_cstr t : terminated t → puts putc t ≈ mfor (cstr t) putc.
Proof.
  unfold terminated. induction t as [|c t IH]; intros Ht; [set_solver|]. simpl.
  destruct (decide (c = 0)) as [->|Hc]; [done|]. simpl. f_equiv. intros []. apply IH. set_solver.
Qed.

(** The pieces a format is made of, each with its argument. *)
Inductive piece := Lit (c : Z) | Dec (a : Z) | Hex (a : Z) | Ptr (a : Z) | Text (a : Z) | Percent | Chr (a : Z).
Definition piece_ok (p : piece) : Prop :=
  match p with
  | Lit c => c ≠ 0 ∧ c ≠ 37
  | Text a => terminated (string_at str a)
  | _ => True
  end.
Definition spelled (p : piece) : list Z :=
  match p with
  | Lit c => [c] | Dec _ => [37; 100] | Hex _ => [37; 120] | Ptr _ => [37; 112]
  | Text _ => [37; 115] | Percent => [37; 37] | Chr _ => [37; 99]
  end.
Definition arg_of (p : piece) : list Z :=
  match p with Dec a | Hex a | Ptr a | Text a | Chr a => [a] | _ => [] end.
(** Decimal numerals are signed, hexadecimal ones are those of the unsigned word. *)
Definition rendered (digits : list Z) (p : piece) : list Z :=
  match p with
  | Lit c => [c]
  | Dec a => numeral_text digits 10 (s32 a)
  | Hex a | Ptr a => numeral_text digits 16 (u32 a)
  | Text a => cstr (string_at str a)
  | Percent => [37]
  | Chr a => [u8 a]
  end.
Definition format (ps : list piece) : list Z := concat (spelled <$> ps) ++ [0].
Definition arguments (ps : list piece) : list Z := concat (arg_of <$> ps).
Definition text (digits : list Z) (ps : list piece) : list Z := concat (rendered digits <$> ps).

Lemma put_buf_text digits xx base sign :
  digit_table digits → 8 ≤ base ≤ 16 → - 2 ^ 31 ≤ xx < 2 ^ 31 →
  put_buf putc (printint_buf digits xx base sign) ≈ mfor (numeral_text digits base (if sign then xx else u32 xx)) putc.
Proof.
  intros Ht Hb Hx. unfold put_buf. rewrite printint_text by done. simpl. rewrite bind_ret_l. by rewrite reverse_involutive.
Qed.
Lemma put_dec digits a : digit_table digits → put_buf putc (printint_buf digits (s32 a) 10 true) ≈ mfor (numeral_text digits 10 (s32 a)) putc.
Proof. intros Ht. apply put_buf_text; [done|lia|apply s32_range]. Qed.
Lemma put_hex digits a : digit_table digits → put_buf putc (printint_buf digits (s32 a) 16 false) ≈ mfor (numeral_text digits 16 (u32 a)) putc.
Proof. intros Ht. rewrite <- (u32_s32 a). apply put_buf_text; [done|lia|apply s32_range]. Qed.

Ltac render_piece IH :=
  simpl; unfold printint, uprintint; rewrite ?bind_assoc; first
    [ rewrite put_dec by (apply lower_digits_table || apply upper_digits_table)
    | rewrite put_hex by (apply lower_digits_table || apply upper_digits_table)
    | rewrite puts_cstr by done | idtac ];
  rewrite ?mfor_app; simpl; rewrite ?bind_assoc;
  repeat (f_equiv; intros []); rewrite ?bind_skip_l; exact IH.

(** cprintf has no %c. *)
Lemma cprintf_text ps :
  Forall piece_ok ps → Forall (λ p, match p with Chr _ => False | _ => True end) ps →
  cprintf_loop putc str (format ps) (arguments ps) ≈ mfor (text lower_digits ps) putc.
Proof.
  induction ps as [|p ps IH]; intros [Hp Hps]%list.Forall_cons [Hk Hks]%list.Forall_cons || intros _ _; [done|].
  specialize (IH Hps Hks). unfold format, arguments, text in *. rewrite !fmap_cons. cbn [concat].
  destruct p as [c|a|a|a|a| |a]; [|render_piece IH..|done].
  destruct Hp as [Hc0 Hc1]. simpl. rewrite decide_False, decide_True by done. render_piece IH.
Qed.
Lemma printf_text ps :
  Forall piece_ok ps →
  printf_loop putc str 0 (format ps) (arguments ps) ≈ mfor (text upper_digits ps) putc.
Proof.
  induction ps as [|p ps IH]; intros Hall; [done|].
  apply list.Forall_cons in Hall as [Hp Hps].
  specialize (IH Hps). unfold format, arguments, text in *. rewrite !fmap_cons. cbn [concat].
  destruct p as [c|a|a|a|a| |a]; [|render_piece IH..].
  destruct Hp as [Hc0 Hc1]. simpl. rewrite !decide_False by done. render_piece IH.
Qed.
End render.

Lemma push16_length buf c buf' : push16 buf c = Some buf' → (length buf' ≤ 16)%nat.
Proof. unfold push16. case_decide; [|done]. intros [= <-]. rewrite length_app. simpl. lia. Qed.
Lemma print_digits_length fuel digits base x buf buf' :
  print_digits fuel digits base x buf = Some buf' → (length buf' ≤ 16)%nat.
Proof.
  revert x buf. induction fuel as [|fuel IH]; intros x buf; simpl; [done|].
  destruct (digits !! _) as [c|]; simpl; [|done].
  destruct (push16 buf c) as [b|] eqn:Hb; simpl; [|done].
  case_decide; [|by apply IH]. intros [= <-]. by eapply push16_length.
Qed.
Lemma printint_buf_length digits xx base sign buf :
  printint_buf digits xx base sign = Some buf → (length buf ≤ 16)%nat.
Proof.
  unfold printint_buf. destruct (print_digits _ _ _ _ _) as [b|] eqn:Hb; simpl; [|done].
  destruct (sign && _); [apply push16_length|]. intros [= <-]. by eapply print_digits_length.
Qed.
Lemma is_digit_range d : 0 ≤ d < 10 → is_digit (48 + d) = true.
Proof. intros. unfold is_digit. apply bool_decide_eq_true. lia. Qed.

(** Printing an int in decimal and reading it back with atoi gives the int
    again, for every int, the smallest included; printint's 16-byte buffer is
    always large enough; in hexadecimal the digits are those of the unsigned
    word, without leading zeros.  This holds of the kernel's and of the user
    library's printint. *)
Theorem printint_roundtrip (n : Z) digits :
  digits = lower_digits ∨ digits = upper_digits →
  (∃ buf, printint_buf digits (s32 n) 10 true = Some buf ∧ (length buf ≤ 16)%nat ∧
     atoi (reverse buf ++ [0]) = s32 n) ∧
  (∃ buf, printint_buf digits (s32 n) 16 false = Some buf ∧ numeral 16 (u32 n) buf).
Proof.
  intros Hd. assert (digit_table digits) as Ht.
  { destruct Hd as [->| ->]; [apply lower_digits_table|apply upper_digits_table]. }
  split.
  - destruct (printint_buf_spec digits (s32 n) 10 true Ht) as (ds & Heq & Hnum & Hne); [lia|].
    eexists. split_and!; [exact Heq|by eapply printint_buf_length|]. unfold atoi.
    rewrite (number_reads is_digit 10 _ _ _ eq_refl eq_refl (Z.le_refl 10) is_digit_range Hnum Hne).
    cbn [andb]. destruct (bool_decide (s32 n < 0)); [by rewrite s32_neg_u32, s32_idem|by rewrite s32_u32, s32_idem].
  - destruct (printint_buf_spec digits (s32 n) 16 false Ht) as (ds & Heq & Hnum & Hne); [lia|].
    rewrite app_nil_r in Heq. eexists. split; [exact Heq|]. simpl in Hnum. by rewrite u32_s32 in Hnum.
Qed.
Lemma printint_roundtrip_witness :
  ∃ buf, printint_buf lower_digits (-2147483648) 10 true = Some buf ∧ atoi (reverse buf ++ [0]) = -2147483648.
Proof.
  destruct (printint_roundtrip (-2147483648) lower_digits (or_introl eq_refl)) as [(buf & H1 & _ & H2) _].
  exists buf. split; [exact H1|exact H2].
Defined.

(** The case of a letter. *)
Definition lower_case (c : Z) : Z := if decide (65 ≤ c ≤ 70) then c + 32 else c.
Definition hex_piece (p : piece) : bool := match p with Hex _ | Ptr _ => true | _ => false end.
Lemma digit_case d : 0 ≤ d < 16 →
  nth (Z.to_nat d) lower_digits 0 = lower_case (nth (Z.to_nat d) upper_digits 0) ∧
  (d < 10 → nth (Z.to_nat d) lower_digits 0 = nth (Z.to_nat d) upper_digits 0).
Proof.
  intros Hd. assert (∀ k, (k < 16)%nat → nth k lower_digits 0 = lower_case (nth k upper_digits 0) ∧
    ((k < 10)%nat → nth k lower_digits 0 = nth k upper_digits 0)) as Hk.
  { intros k Hk. do 16 (destruct k as [|k]; [split; [reflexivity|done || (intros; lia)]|]). lia. }
  destruct (Hk (Z.to_nat d) ltac:(lia)) as [H1 H2]. split; [done|]. intros ?. apply H2. lia.
Qed.
Lemma numeral_case base x : 8 ≤ base ≤ 16 → - 2 ^ 31 ≤ x < 2 ^ 32 →
  numeral_text lower_digits base x = lower_case <$> numeral_text upper_digits base x ∧
  (base = 10 → numeral_text lower_digits base x = numeral_text upper_digits base x).
Proof.
  intros Hb Hx. unfold numeral_text. assert (2 ^ 32 ≤ base ^ Z.of_nat 32).
  { trans (8 ^ 32); [lia|]. apply Z.pow_le_mono_l. lia. }
  destruct (digits_of_value 32 base (Z.abs x) ltac:(lia) ltac:(lia) ltac:(lia)) as (_ & Hall & _).
  rewrite fmap_app, <- list_fmap_compose. split; [f_equal; [by case_decide|]|intros ->; f_equal].
  - apply list_fmap_ext. intros i d Hd. rewrite list.Forall_forall in Hall. apply digit_case.
    specialize (Hall d (list_elem_of_lookup_2 _ _ _ Hd)). lia.
  - apply list_fmap_ext. intros i d Hd. rewrite list.Forall_forall in Hall.
    specialize (Hall d (list_elem_of_lookup_2 _ _ _ Hd)). simpl in Hall. apply digit_case; lia.
Qed.

(** C29. The kernel's cprintf and the user library's printf emit exactly the text
    of their format: literal characters, the decimal numeral of the signed
    argument for %d and the hexadecimal numeral of the unsigned one for %x and %p
    (the most significant digit first, without leading zeros, with a minus sign
    when it is negative), %s strings ("(null)" for a null pointer), %% and, for
    printf, %c (which cprintf does not know: its formats are without %c), in
    order, each argument used by its own conversion.  The texts of the two are
    the same except that hexadecimal letters are lower case in cprintf and upper
    case in printf. *)
Theorem printf_renders {S} (putc : Z → M S unit) (str : Z → list Z) ps :
  Forall (piece_ok str) ps →
  printf putc str (format ps) (arguments ps) ≈ mfor (text str upper_digits ps) putc ∧
  (Forall (λ p, match p with Chr _ => False | _ => True end) ps →
   cprintf_loop putc str (format ps) (arguments ps) ≈ mfor (text str lower_digits ps) putc) ∧
  (∀ p, rendered str lower_digits p = (if hex_piece p then lower_case <$> rendered str upper_digits p else rendered str upper_digits p)).
Proof.
  intros Hps. split_and!; [by apply printf_text|by apply cprintf_text|].
  intros [c|a|a|a|a| |a]; cbn [rendered hex_piece]; try done.
  - apply numeral_case; [lia|pose proof (s32_range a); lia|done].
  - apply numeral_case; [lia|pose proof (u32_range a); lia].
  - apply numeral_case; [lia|pose proof (u32_range a); lia].
Qed.

Lemma printf_renders_witness :
  let str := λ a : Z, if decide (a = 7) then [104; 105; 0] else [0] in
  let ps := [Lit 97; Hex 171; Percent; Text 7; Text 0; Dec 4294967295] in
  printf (λ c, modS (λ out, out ++ [c])) str (format ps) (arguments ps) [] =
  Ok (tt, [97; 65; 66; 37; 104; 105; 40; 110; 117; 108; 108; 41; 45; 49]).
Proof.
  intros str ps. unfold ps.
  assert (Forall (piece_ok str) ps) as Hps.
  { repeat constructor; try lia; apply (bool_decide_unpack (0 ∈ _)); vm_compute; exact I. }
  destruct (printf_renders (λ c, modS (λ out, out ++ [c])) str ps Hps) as [H1 _].
  rewrite (meq_at _ _ H1). vm_compute. reflexivity.
Defined.
