(* ===== verification/Console.v ===== *)
(** * The console (console.c, uart.c:uartputc)

    The screen is the CGA text memory [crt], one word per cell, and the cursor
    register; the serial line is the bytes written to it.  A line typed on the
    keyboard is edited in the ring [input] and read from it by consoleread, which
    runs until it returns or goes to sleep. *)

From S2P Require Import Prelude CString ProcData Sync Pipe Format.
Local Open Scope Z_scope.

Definition BACKSPACE : Z := 256.
Definition INPUT_BUF : Z := 128.
(** #define C(x) ((x)-'@') *)
Definition C (x : Z) : Z := x - 64.

Record screen := mkscreen { sc_pos : Z; sc_crt : list Z }.
Record input := mkinput { in_buf : list Z; in_r : Z; in_w : Z; in_e : Z }.
Definition set_in_r x i := mkinput (in_buf i) x (in_w i) (in_e i).
Definition set_in_w x i := mkinput (in_buf i) (in_r i) x (in_e i).
Definition set_in_e x i := mkinput (in_buf i) (in_r i) (in_w i) x.

(** ** The screen *)
Definition crt_store (pos v : Z) : M screen unit :=
  let! s := getS in
  let! _ := of_opt (sc_crt s !! Z.to_nat pos) in
  modS (λ s, mkscreen (sc_pos s) (<[Z.to_nat pos := v]> (sc_crt s))).
(** memset(crt+pos, 0, sizeof(crt[0])*n) *)
Definition crt_clear (pos n : Z) : M screen unit :=
  let! s := getS in
  let! tl := of_opt (zero_fill (drop (Z.to_nat pos) (sc_crt s)) (Z.to_nat n)) in
  modS (λ s, mkscreen (sc_pos s) (take (Z.to_nat pos) (sc_crt s) ++ tl)).

Definition cgaputc (c : Z) : M screen unit :=
  let! pos := gets sc_pos in
  let! pos :=
    (if decide (c = 10) then ret (pos + (80 - pos mod 80))
     else if decide (c = BACKSPACE) then ret (if decide (pos > 0) then pos - 1 else pos)
     else crt_store pos (Z.lor (Z.land c 255) 1792) ;;; ret (pos + 1)) in
  if decide (pos < 0 ∨ pos > 25 * 80) then panic "pos under/overflow" else
  let! pos :=
    (if decide (24 ≤ pos / 80) then
       let! s := getS in
       let! crt := of_opt (memmove (sc_crt s) 0 80 (23 * 80)) in
       modS (λ s, mkscreen (sc_pos s) crt) ;;;
       crt_clear (pos - 80) (24 * 80 - (pos - 80)) ;;;
       ret (pos - 80)
     else ret pos) in
  modS (λ s, mkscreen (u16 pos) (sc_crt s)) ;;;
  crt_store pos (Z.lor 32 1792).

(** ** The console's state *)
Record cstate (W : Type) := mkcs {
  cs_panicked : bool; cs_locking : bool; cs_uart : bool; cs_serial : list Z;
  cs_screen : screen; cs_input : input; cs_world : W
}.
Arguments mkcs {W}.
Arguments cs_panicked {W}.
Arguments cs_locking {W}.
Arguments cs_uart {W}.
Arguments cs_serial {W}.
Arguments cs_screen {W}.
Arguments cs_input {W}.
Arguments cs_world {W}.

Definition set_cs_serial {W} x (s : cstate W) :=
  mkcs (cs_panicked s) (cs_locking s) (cs_uart s) x (cs_screen s) (cs_input s) (cs_world s).
Definition set_cs_screen {W} x (s : cstate W) :=
  mkcs (cs_panicked s) (cs_locking s) (cs_uart s) (cs_serial s) x (cs_input s) (cs_world s).
Definition set_cs_input {W} x (s : cstate W) :=
  mkcs (cs_panicked s) (cs_locking s) (cs_uart s) (cs_serial s) (cs_screen s) x (cs_world s).
Definition set_cs_world {W} (x : W) (s : cstate W) :=
  mkcs (cs_panicked s) (cs_locking s) (cs_uart s) (cs_serial s) (cs_screen s) (cs_input s) x.

(** &input.r *)
Definition chan_input : chan := ChAddr (-4).

Section console.
Context {W : Type} `{Sync W}.
Abbreviation K := (M (cstate W)).
Definition cworld {A} (m : M W A) : K A := zoom cs_world set_cs_world m.
Definition cupd (f : input → input) : K unit := modS (λ s, set_cs_input (f (cs_input s)) s).

(** The transmitter is waited for, at most 128 times, and then written to. *)
Definition uartputc (c : Z) : K unit :=
  let! u := gets cs_uart in
  whenb u (modS (λ s, set_cs_serial (cs_serial s ++ [u8 c]) s)).

Definition consputc (c : Z) : K unit :=
  let! p := gets cs_panicked in
  if p then diverge else
  (if decide (c = BACKSPACE) then uartputc 8 ;;; uartputc 32 ;;; uartputc 8 else uartputc c) ;;;
  zoom cs_screen set_cs_screen (cgaputc c).

Definition cprintf (str : Z → list Z) (fmt : option (list Z)) (args : list Z) : K unit :=
  let! locking := gets cs_locking in
  whenb locking (cworld (k_acquire "console")) ;;;
  match fmt with
  | None => panic "null fmt"
  | Some fmt =>
      cprintf_loop consputc str fmt args ;;;
      whenb locking (cworld (k_release "console"))
  end.

(** The kill-line loop; a line has at most 128 characters. *)
Fixpoint kill_line (fuel : nat) : K unit :=
  match fuel with
  | O => diverge
  | S fuel' =>
      let! i := gets cs_input in
      if decide (in_e i = in_w i) then skip else
      let! c := of_opt (in_buf i !! Z.to_nat (u32 (in_e i - 1) mod INPUT_BUF)) in
      if decide (c = 10) then skip else
      cupd (λ i, set_in_e (u32 (in_e i - 1)) i) ;;;
      consputc BACKSPACE ;;;
      kill_line fuel'
  end.

(** doprocdump and ctrlkey *)
Definition flags : Type := bool * Z.
(** One character of the loop of consoleintr. *)
Definition consoleintr_key (c : Z) (f : flags) : K flags :=
  if decide (c = C 80) then ret (true, f.2)
  else if decide (c = C 85) then kill_line 129 ;;; ret f
  else if decide (c = C 72 ∨ c = 127) then
    let! i := gets cs_input in
    (if decide (in_e i ≠ in_w i) then
       cupd (λ i, set_in_e (u32 (in_e i - 1)) i) ;;; consputc BACKSPACE
     else skip) ;;; ret f
  else if decide (c = C 82) then ret (f.1, 1)
  else if decide (c = C 70) then ret (f.1, 2)
  else if decide (c = C 83) then ret (f.1, 3)
  else if decide (c = C 90) then ret (f.1, 4)
  else
    let! i := gets cs_input in
    if decide (c ≠ 0 ∧ u32 (in_e i - in_r i) < INPUT_BUF) then
      let c := if decide (c = 13) then 10 else c in
      let k := Z.to_nat (in_e i mod INPUT_BUF) in
      let! _ := of_opt (in_buf i !! k) in
      cupd (λ i, mkinput (<[k := u8 c]> (in_buf i)) (in_r i) (in_w i) (u32 (in_e i + 1))) ;;;
      consputc c ;;;
      let! i := gets cs_input in
      (if decide (c = 10 ∨ c = C 68 ∨ in_e i = u32 (in_r i + INPUT_BUF)) then
         cupd (λ i, set_in_w (in_e i) i) ;;; cworld (k_wakeup chan_input)
       else skip) ;;;
      ret f
    else ret f.

(** What getc returns, call by call; it has nothing more when the list ends. *)
Fixpoint consoleintr_loop (keys : list Z) (f : flags) : K flags :=
  match keys with
  | [] => ret f
  | c :: keys' =>
      if decide (c < 0) then ret f
      else let! f := consoleintr_key c f in consoleintr_loop keys' f
  end.

(** The listings of proc.c, which print through cprintf. *)
Context (procdump printReadyList printFreeList printSleepList printZombieList : K unit).
Definition consoleintr (keys : list Z) : K unit :=
  cworld (k_acquire "console") ;;;
  let! f := consoleintr_loop keys (false, 0) in
  cworld (k_release "console") ;;;
  whenb f.1 procdump ;;;
  (if decide (f.2 = 1) then printReadyList
   else if decide (f.2 = 2) then printFreeList
   else if decide (f.2 = 3) then printSleepList
   else if decide (f.2 = 4) then printZombieList else skip).

Context (iunlock ilock : M W unit) (sleep : chan → string → M W unit).

(** The end of consoleread. *)
Definition consoleread_done (got : list Z) : K (turn * list Z) :=
  cworld (k_release "console") ;;;
  cworld ilock ;;;
  ret (Returned (Z.of_nat (length got)), got).
(** The loop of consoleread, with [n] bytes still wanted of [target]. *)
Fixpoint consoleread_from (killed : bool) (target n : nat) (got : list Z) : K (turn * list Z) :=
  match n with
  | O => consoleread_done got
  | S n' =>
      let! i := gets cs_input in
      if decide (in_r i = in_w i) then
        if killed then
          cworld (k_release "console") ;;; cworld ilock ;;; ret (Returned (-1), got)
        else
          cworld (sleep chan_input "console") ;;; ret (Slept (length got), got)
      else
        let! c := of_opt (in_buf i !! Z.to_nat (in_r i mod INPUT_BUF)) in
        cupd (λ i, set_in_r (u32 (in_r i + 1)) i) ;;;
        if decide (c = C 68) then
          (if decide (n < target)%nat then cupd (λ i, set_in_r (u32 (in_r i - 1)) i) else skip) ;;;
          consoleread_done got
        else if decide (c = 10) then consoleread_done (got ++ [c])
        else consoleread_from killed target n' (got ++ [c])
  end.
Definition consoleread (killed : bool) (n : Z) : K (turn * list Z) :=
  cworld iunlock ;;;
  cworld (k_acquire "console") ;;;
  consoleread_from killed (Z.to_nat n) (Z.to_nat n) [].

Definition consolewrite (buf : list Z) : K Z :=
  cworld iunlock ;;;
  cworld (k_acquire "console") ;;;
  mfor buf (λ c, consputc (Z.land c 255)) ;;;
  cworld (k_release "console") ;;;
  cworld ilock ;;;
  ret (Z.of_nat (length buf)).
End console.
