(* ===== verification/ConsoleThm.v ===== *)
(** * The console: the screen and the line discipline *)

From S2P Require Import Prelude CString ProcData Sync Pipe Format Console.
Local Open Scope Z_scope.

(** ** The screen: 24 rows of 80 cells, scrolled up when the cursor leaves them *)
Record screen_ok (s : screen) : Prop := mkso {
  so_pos : 0 ≤ sc_pos s < 1920;
  so_len : (1920 ≤ length (sc_crt s))%nat
}.
Definition cell (c : Z) : Z := Z.lor (Z.land c 255) 1792.
Definition scrolled (crt : list Z) : list Z :=
  take 1840 (drop 80 crt) ++ replicate 80 0 ++ drop 1920 crt.
(** The cursor moves to [pos], and stays on the screen. *)
Definition settle (pos : Z) (crt : list Z) : screen :=
  if decide (pos < 1920) then mkscreen pos (<[Z.to_nat pos := cell 32]> crt)
  else mkscreen (pos - 80) (<[Z.to_nat (pos - 80) := cell 32]> (scrolled crt)).
Definition scr_put (s : screen) (c : Z) : screen :=
  if decide (c = 10) then settle (80 * (sc_pos s / 80 + 1)) (sc_crt s)
  else if decide (c = BACKSPACE) then settle (Z.max 0 (sc_pos s - 1)) (sc_crt s)
  else settle (sc_pos s + 1) (<[Z.to_nat (sc_pos s) := cell c]> (sc_crt s)).

Lemma length_scrolled crt : (1920 ≤ length crt)%nat → length (scrolled crt) = length crt.
Proof.
  intros. unfold scrolled. rewrite !length_app, length_take, !length_drop, length_replicate. lia.
Qed.
Lemma settle_ok pos crt : 0 ≤ pos ≤ 1920 → (1920 ≤ length crt)%nat → screen_ok (settle pos crt).
Proof.
  intros Hp Hl. unfold settle. case_decide; split; simpl; rewrite ?length_insert, ?length_scrolled by done; lia.
Qed.
Lemma next_row pos : 0 ≤ pos < 1920 → 80 ≤ 80 * (pos / 80 + 1) ≤ 1920 ∧ pos < 80 * (pos / 80 + 1).
Proof.
  intros. pose proof (Z.div_mod pos 80). pose proof (Z.mod_pos_bound pos 80).
  assert (pos / 80 < 24) by (apply Z.div_lt_upper_bound; lia). lia.
Qed.
Lemma scr_put_ok s c : screen_ok s → screen_ok (scr_put s c).
Proof.
  intros [Hp Hl]. pose proof (next_row _ Hp). unfold scr_put.
  repeat case_decide; apply settle_ok; rewrite ?length_insert; lia.
Qed.

Lemma crt_store_eq s pos v :
  0 ≤ pos < Z.of_nat (length (sc_crt s)) →
  crt_store pos v s = Ok (tt, mkscreen (sc_pos s) (<[Z.to_nat pos := v]> (sc_crt s))).
Proof.
  intros Hp. destruct (lookup_lt_is_Some_2 (sc_crt s) (Z.to_nat pos)) as [x Hx]; [lia|].
  unfold crt_store, bind, getS. rewrite Hx. done.
Qed.

(** The move and the clearing shift the rows up by one. *)
Lemma scroll_eq crt :
  (1920 ≤ length crt)%nat →
  ∃ crt1 tl, memmove crt 0 80 (23 * 80) = Some crt1 ∧ zero_fill (drop 1840 crt1) 80 = Some tl ∧
    take 1840 crt1 ++ tl = scrolled crt.
Proof.
  intros Hl. set (m := take 1840 (drop 80 crt)).
  assert (length m = 1840%nat) as Hm by (unfold m; rewrite length_take, length_drop; lia).
  exists (m ++ drop 1840 crt), (replicate 80 0 ++ drop 1920 crt). split_and!.
  - rewrite memmove_spec, decide_True by (clear m Hm; lia). unfold splice. rewrite take_0.
    change (23 * 80)%nat with 1840%nat. fold m. by rewrite Hm.
  - rewrite drop_app_length' by done. rewrite zero_fill_spec by (rewrite length_drop; lia).
    by rewrite drop_drop.
  - by rewrite take_app_length' by done.
Qed.

Lemma u16_small z : 0 ≤ z < 2 ^ 16 → u16 z = z.
Proof. apply Z.mod_small. Qed.

(** From the bounds check of cgaputc on. *)
Lemma settle_eq s pos :
  0 ≤ pos < 1920 ∨ pos = 1920 → (1920 ≤ length (sc_crt s))%nat →
  (if decide (pos < 0 ∨ pos > 25 * 80) then panic "pos under/overflow" else
   let! pos :=
     (if decide (24 ≤ pos / 80) then
        let! s := getS in
        let! crt := of_opt (memmove (sc_crt s) 0 80 (23 * 80)) in
        modS (λ s, mkscreen (sc_pos s) crt) ;;;
        crt_clear (pos - 80) (24 * 80 - (pos - 80)) ;;;
        ret (pos - 80)
      else ret pos) in
   modS (λ s, mkscreen (u16 pos) (sc_crt s)) ;;;
   crt_store pos (Z.lor 32 1792)) s = Ok (tt, settle pos (sc_crt s)).
Proof.
  intros Hpos Hl. rewrite decide_False by lia. unfold settle. destruct (decide (pos < 1920)) as [Hlt|Hge].
  - assert (pos / 80 < 24) by (apply Z.div_lt_upper_bound; lia). rewrite decide_False by lia.
    unfold bind at 1 2, ret, modS. rewrite u16_small by lia. by rewrite crt_store_eq by (simpl; lia).
  - assert (pos = 1920) as -> by lia. rewrite decide_True by done.
    destruct (scroll_eq _ Hl) as (crt1 & tl & Hm & Hz & Hsc).
    unfold bind, getS, crt_clear, bind, of_opt, ret, modS. rewrite Hm. cbn [sc_crt sc_pos].
    change (Z.to_nat (1920 - 80)) with 1840%nat. change (Z.to_nat (24 * 80 - (1920 - 80))) with 80%nat.
    unfold getS. cbn [sc_crt sc_pos]. rewrite Hz. cbn [sc_crt sc_pos]. rewrite Hsc, u16_small by done.
    rewrite crt_store_eq by (cbn [sc_crt]; rewrite length_scrolled by done; lia). done.
Qed.

Lemma cgaputc_eq s c : screen_ok s → cgaputc c s = Ok (tt, scr_put s c).
Proof.
  intros [Hp Hl]. pose proof (next_row _ Hp) as Hrow. unfold cgaputc, scr_put.
  unfold bind at 1, gets at 1. destruct (decide (c = 10)) as [->|Hc]; [|destruct (decide (c = BACKSPACE))].
  - unfold bind at 1, ret at 1. replace (sc_pos s + _) with (80 * (sc_pos s / 80 + 1)).
    + apply settle_eq; [lia|done].
    + pose proof (Z.div_mod (sc_pos s) 80). lia.
  - unfold bind at 1, ret at 1. replace (if decide (sc_pos s > 0) then _ else _) with (Z.max 0 (sc_pos s - 1)).
    + apply settle_eq; [lia|done].
    + case_decide; lia.
  - unfold bind at 1 2. rewrite crt_store_eq by lia. unfold ret at 1.
    apply (settle_eq (mkscreen (sc_pos s) _)); [lia|]. simpl. by rewrite length_insert.
Qed.

(** Plain characters that fit on the screen appear as a run of cells, followed by
    the cursor. *)
Definition plain (c : Z) : Prop := c ≠ 10 ∧ c ≠ BACKSPACE.
Lemma insert_splice (crt : list Z) (p : nat) v :
  (p < length crt)%nat → <[p := v]> crt = splice crt p [v].
Proof. intros. unfold splice. rewrite insert_take_drop by done. simpl. by rewrite Nat.add_1_r. Qed.
Lemma splice_splice crt p l1 l2 :
  (p + length l1 + length l2 ≤ length crt)%nat →
  splice (splice crt p l1) (p + length l1) l2 = splice crt p (l1 ++ l2).
Proof.
  intros Hl. apply list_eq_nth.
  - rewrite !length_splice; rewrite ?length_splice, ?length_app; lia.
  - intros j. rewrite !nth_splice; rewrite ?length_splice, ?length_app; try lia.
    rewrite !nth_lookup. repeat case_decide; try lia.
    + rewrite lookup_app_r by lia. do 2 f_equal. lia.
    + by rewrite lookup_app_l by lia.
Qed.
Lemma splice_over crt p v l :
  l ≠ [] → (p + length l ≤ length crt)%nat → splice (splice crt p [v]) p l = splice crt p l.
Proof.
  intros Hne Hl. destruct l as [|x l]; [done|]. simpl in Hl. apply list_eq_nth.
  - rewrite !length_splice; rewrite ?length_splice; simpl; lia.
  - intros j. rewrite !nth_splice; rewrite ?length_splice; simpl; try lia. repeat case_decide; lia || done.
Qed.
Lemma scr_put_plain s c :
  screen_ok s → plain c → sc_pos s + 1 < 1920 →
  scr_put s c = mkscreen (sc_pos s + 1) (splice (sc_crt s) (Z.to_nat (sc_pos s)) [cell c; cell 32]).
Proof.
  intros [Hp Hl] [Hc1 Hc2] Hfit. unfold scr_put, settle. rewrite !decide_False, decide_True by done.
  f_equal. rewrite (insert_splice (sc_crt s)), insert_splice by (rewrite ?length_splice; simpl; lia).
  replace (Z.to_nat (sc_pos s + 1)) with (Z.to_nat (sc_pos s) + length [cell c])%nat by (simpl; lia).
  by rewrite splice_splice by (simpl; lia).
Qed.
Lemma scr_text s l :
  screen_ok s → Forall plain l → l ≠ [] → sc_pos s + Z.of_nat (length l) < 1920 →
  foldl scr_put s l =
  mkscreen (sc_pos s + Z.of_nat (length l)) (splice (sc_crt s) (Z.to_nat (sc_pos s)) ((cell <$> l) ++ [cell 32])).
Proof.
  intros Hs Hl Hne. revert s Hs. induction l as [|c l IH]; [done|].
  apply list.Forall_cons in Hl as [Hc Hl]. intros s Hs Hfit. cbn [length] in Hfit. simpl foldl.
  assert (sc_pos s + 1 < 1920) as Hfit1 by lia.
  pose proof (scr_put_ok s c Hs) as Hs'. rewrite (scr_put_plain s c Hs Hc Hfit1) in *.
  destruct l as [|c' l']; [simpl; f_equal; lia|]. remember (c' :: l') as l.
  assert (l ≠ []) as Hl0 by (by subst). specialize (IH Hl Hl0 _ Hs').
  rewrite IH by (simpl; lia). cbn [sc_pos sc_crt]. destruct Hs as [Hp Hlen].
  f_equal; [simpl; lia|]. clear IH Heql Hs'.
  assert (length (cell <$> l) = length l) as Hlf by apply length_fmap.
  change [cell c; cell 32] with ([cell c] ++ [cell 32]). rewrite <- (splice_splice _ _ [cell c] [cell 32]) by (simpl; lia).
  replace (Z.to_nat (sc_pos s + 1)) with (Z.to_nat (sc_pos s) + length [cell c])%nat by (simpl; lia).
  rewrite splice_over; [|by destruct (cell <$> l)|rewrite length_splice, !length_app, Hlf by (simpl; lia); simpl; lia].
  rewrite splice_splice by (rewrite !length_app, Hlf; simpl; lia). done.
Qed.

(** ** The line discipline *)
Record line := mkline { committed : list Z; editing : list Z }.
(** What a key does to the line; characters beyond 128 are dropped. *)
Definition commits (l : line) (c : Z) : bool :=
  bool_decide (c = 10 ∨ c = 4 ∨ (length (committed l) + length (editing l) = 127)%nat).
Definition enter (l : line) (c : Z) : line :=
  if commits l c then mkline (committed l ++ editing l ++ [u8 c]) []
  else mkline (committed l) (editing l ++ [u8 c]).
Definition key (l : line) (c : Z) : line :=
  if decide (c ∈ [16; 18; 6; 19; 26; 0]) then l
  else if decide (c = 21) then mkline (committed l) []
  else if decide (c = 8 ∨ c = 127) then mkline (committed l) (removelast (editing l))
  else if decide (length (committed l) + length (editing l) < 128)%nat
  then enter l (if decide (c = 13) then 10 else c)
  else l.

(** The ring holds the line. *)
Record line_at (i : input) (l : line) : Prop := mkla {
  la_len : length (in_buf i) = 128%nat;
  la_r : 0 ≤ in_r i < 2 ^ 32;
  la_w : in_w i = u32 (in_r i + Z.of_nat (length (committed l)));
  la_e : in_e i = u32 (in_r i + Z.of_nat (length (committed l) + length (editing l)));
  la_bound : (length (committed l) + length (editing l) ≤ 128)%nat;
  la_bytes : ∀ k x, (committed l ++ editing l) !! k = Some x →
    in_buf i !! Z.to_nat ((in_r i + Z.of_nat k) mod 128) = Some x;
  la_plain : 10 ∉ editing l;
  la_full : (length (committed l) + length (editing l) = 128)%nat → editing l = []
}.

Lemma u32_add_l a b : u32 (u32 a + b) = u32 (a + b).
Proof. unfold u32. apply Zplus_mod_idemp_l. Qed.
Lemma u32_sub_l a b : u32 (u32 a - b) = u32 (a - b).
Proof. unfold u32. apply Zminus_mod_idemp_l. Qed.
Lemma u32_near r (a b : nat) :
  (a ≤ 128)%nat → (b ≤ 128)%nat → u32 (r + Z.of_nat a) = u32 (r + Z.of_nat b) ↔ a = b.
Proof.
  intros Ha Hb. split; [|by intros ->]. intros Heq.
  assert (u32 (Z.of_nat a) = u32 (Z.of_nat b)) as H.
  { replace (Z.of_nat a) with (r + Z.of_nat a - r) by lia. replace (Z.of_nat b) with (r + Z.of_nat b - r) by lia.
    by rewrite <- (u32_sub_l (r + Z.of_nat a)), Heq, u32_sub_l. }
  rewrite !u32_small in H by lia. lia.
Qed.
Lemma u32_mod128 z : u32 z mod 128 = z mod 128.
Proof.
  unfold u32. rewrite <- (Z.mod_mod_divide z (2 ^ 32) 128); [done|]. exists (2 ^ 25). reflexivity.
Qed.
Lemma mod128_lt z : (Z.to_nat (z mod 128) < 128)%nat.
Proof. pose proof (Z.mod_pos_bound z 128). lia. Qed.
Lemma mod128_ne r (a b : nat) : (a < b)%nat → (b < 128)%nat →
  Z.to_nat ((r + Z.of_nat a) mod 128) ≠ Z.to_nat ((r + Z.of_nat b) mod 128).
Proof.
  intros Hab Hb Heq. pose proof (Z.mod_pos_bound (r + Z.of_nat a) 128).
  pose proof (Z.mod_pos_bound (r + Z.of_nat b) 128).
  assert ((Z.of_nat b - Z.of_nat a) mod 128 = 0) as Hm.
  { replace (Z.of_nat b - Z.of_nat a) with (r + Z.of_nat b - (r + Z.of_nat a)) by lia.
    rewrite Zminus_mod. replace ((r + Z.of_nat a) mod 128) with ((r + Z.of_nat b) mod 128) by lia.
    rewrite Z.sub_diag. done. }
  rewrite Z.mod_small in Hm by lia. lia.
Qed.

Lemma list_snoc_case {A} (l : list A) : l = [] ∨ ∃ l' x, l = l' ++ [x].
Proof. induction l using rev_ind; eauto. Qed.

(** *** Steps on the ring *)
Lemma line_empty i l : line_at i l → in_e i = in_w i ↔ editing l = [].
Proof.
  intros [_ Hr Hw He Hb _ _ _]. rewrite Hw, He, u32_near by lia.
  destruct (editing l); simpl; split; intros; try lia; done.
Qed.
Lemma line_nothing i l : line_at i l → in_r i = in_w i ↔ committed l = [].
Proof.
  intros [_ Hr Hw He Hb _ _ _]. rewrite Hw.
  assert (in_r i = u32 (in_r i + Z.of_nat 0)) as H0 by (rewrite Z.add_0_r, u32_small; done).
  rewrite H0 at 1. rewrite u32_near by lia. destruct (committed l); simpl; split; intros; try lia; done.
Qed.
Lemma line_count i l : line_at i l → u32 (in_e i - in_r i) = Z.of_nat (length (committed l) + length (editing l)).
Proof.
  intros [_ Hr Hw He Hb _ _ _]. rewrite He, u32_sub_l, Z.add_simpl_l. apply u32_small. lia.
Qed.
Lemma line_at_full i l : line_at i l →
  in_e i = u32 (in_r i + 128) ↔ (length (committed l) + length (editing l) = 128)%nat.
Proof. intros [_ Hr Hw He Hb _ _ _]. rewrite He. change 128 with (Z.of_nat 128). by rewrite u32_near by lia. Qed.

(** Erasing the last character. *)
Lemma line_erase i com ed x :
  line_at i (mkline com (ed ++ [x])) →
  in_buf i !! Z.to_nat (u32 (in_e i - 1) mod 128) = Some x ∧ x ≠ 10 ∧
  line_at (set_in_e (u32 (in_e i - 1)) i) (mkline com ed).
Proof.
  intros [Hl Hr Hw He Hb Hk Hp Hf]. cbn [committed editing] in *.
  assert (u32 (in_e i - 1) = u32 (in_r i + Z.of_nat (length com + length ed))) as He'.
  { rewrite He, u32_sub_l, length_app. f_equal. simpl. lia. }
  rewrite length_app in *. simpl in Hb, Hf. split_and!.
  - rewrite He', u32_mod128. apply Hk. rewrite app_assoc, lookup_app_r by (rewrite length_app; lia).
    rewrite length_app, Nat.sub_diag. done.
  - set_solver.
  - split; cbn [committed editing in_buf in_r in_w in_e set_in_e]; try done.
    + lia.
    + intros k y Hy. apply Hk. rewrite app_assoc, lookup_app_l; [done|]. by eapply lookup_lt_Some.
    + set_solver.
    + lia.
Qed.

(** Appending a character, without and with a commit. *)
Lemma line_append i l c :
  line_at i l → (length (committed l) + length (editing l) < 128)%nat →
  let k := Z.to_nat (in_e i mod 128) in
  let i' := mkinput (<[k := c]> (in_buf i)) (in_r i) (in_w i) (u32 (in_e i + 1)) in
  is_Some (in_buf i !! k) ∧
  (c ≠ 10 → (length (committed l) + length (editing l) ≠ 127)%nat →
     line_at i' (mkline (committed l) (editing l ++ [c]))) ∧
  line_at (set_in_w (in_e i') i') (mkline (committed l ++ editing l ++ [c]) []) ∧
  (in_e i' = u32 (in_r i + 128) ↔ (length (committed l) + length (editing l) = 127)%nat).
Proof.
  intros [Hl Hr Hw He Hb Hk Hp Hf] Hlt k i'.
  assert (k = Z.to_nat ((in_r i + Z.of_nat (length (committed l) + length (editing l))) mod 128)) as Hkeq.
  { unfold k. by rewrite He, u32_mod128. }
  assert (u32 (in_e i + 1) = u32 (in_r i + Z.of_nat (length (committed l) + length (editing l) + 1))) as He'.
  { rewrite He, u32_add_l. f_equal. lia. }
  assert (∀ j x, (committed l ++ editing l ++ [c]) !! j = Some x →
    <[k := c]> (in_buf i) !! Z.to_nat ((in_r i + Z.of_nat j) mod 128) = Some x) as Hby.
  { intros j x Hj. rewrite app_assoc in Hj. apply lookup_app_Some in Hj as [Hj|[Hge Hj]].
    - pose proof (lookup_lt_Some _ _ _ Hj) as Hjl. rewrite length_app in Hjl.
      rewrite list_lookup_insert_ne; [by apply Hk|]. rewrite Hkeq. intros Heq. symmetry in Heq. revert Heq.
      apply mod128_ne; lia.
    - rewrite length_app in *. apply list_lookup_singleton_Some in Hj as [Hj <-].
      replace j with (length (committed l) + length (editing l))%nat by lia. rewrite <- Hkeq.
      rewrite list_lookup_insert_eq; [done|]. rewrite Hl, Hkeq. apply mod128_lt. }
  split_and!.
  - apply lookup_lt_is_Some_2. rewrite Hl, Hkeq. apply mod128_lt.
  - intros Hc Hn. split; cbn [committed editing in_buf in_r in_w in_e i']; rewrite ?length_insert, ?length_app; try done.
    + rewrite He'. f_equal. simpl. lia.
    + simpl. lia.
    + set_solver.
    + simpl. lia.
  - split; cbn [committed editing in_buf in_r in_w in_e i' set_in_w]; rewrite ?length_insert, ?app_nil_r; try done.
    + rewrite He', !length_app. do 2 f_equal. simpl. lia.
    + rewrite He', !length_app. do 2 f_equal. simpl. lia.
    + rewrite !length_app. simpl. lia.
    + set_solver.
  - cbn [in_e i']. rewrite He'. change 128 with (Z.of_nat 128). rewrite u32_near by lia. lia.
Qed.

(** Taking the first committed character. *)
Lemma line_take i c com ed :
  line_at i (mkline (c :: com) ed) →
  let i' := set_in_r (u32 (in_r i + 1)) i in
  in_buf i !! Z.to_nat (in_r i mod 128) = Some c ∧ line_at i' (mkline com ed) ∧
  set_in_r (u32 (in_r i' - 1)) i' = i.
Proof.
  intros [Hl Hr Hw He Hb Hk Hp Hf] i'. cbn [committed editing length] in *.
  assert (∀ n, u32 (in_r i + Z.of_nat (S n)) = u32 (u32 (in_r i + 1) + Z.of_nat n)) as Hs.
  { intros n. rewrite u32_add_l. f_equal. lia. }
  split_and!.
  - specialize (Hk O c eq_refl). by rewrite Z.add_0_r in Hk.
  - split; cbn [committed editing in_buf in_r in_w in_e i' set_in_r]; try done.
    + apply u32_range.
    + by rewrite Hw, Hs.
    + by rewrite He, <- Hs.
    + lia.
    + intros k x Hx. rewrite <- (Hk (S k) x Hx). do 2 f_equal.
      rewrite <- Zplus_mod_idemp_l, u32_mod128, Zplus_mod_idemp_l. f_equal. lia.
    + lia.
  - unfold i'. destruct i as [b r w e]. unfold set_in_r. cbn [in_r in_buf in_w in_e] in *. f_equal.
    rewrite u32_sub_l. replace (r + 1 - 1) with r by lia. by apply u32_small.
Qed.

(** ** The console's code *)
Record cs_ok {W} (s : cstate W) : Prop := mkcok {
  co_alive : cs_panicked s = false;
  co_screen : screen_ok (cs_screen s)
}.
(** The state after output to the screen. *)
Definition shown {W} (s s' : cstate W) : Prop :=
  cs_ok s' ∧ cs_input s' = cs_input s ∧ cs_world s' = cs_world s ∧ cs_locking s' = cs_locking s.

Section rules.
Context {W : Type} `{SyncLaws W} (E : string → Prop).
Implicit Types (s : cstate W).

Lemma wp_cworld {A} (m : M W A) Q s :
  wp E m (λ a w, Q a (set_cs_world w s)) (cs_world s) → wp E (cworld m) Q s.
Proof. apply wp_zoom. Qed.

Lemma wp_uartputc c Q s :
  (∀ out, Q tt (set_cs_serial out s)) → wp E (uartputc c) Q s.
Proof.
  intros HQ. unfold uartputc. apply wp_bind, wp_gets. destruct (cs_uart s); simpl.
  - apply wp_modS, HQ.
  - apply wp_skip. destruct s. apply HQ.
Qed.

Lemma wp_consputc c Q s :
  cs_ok s →
  (∀ s', shown s s' → cs_screen s' = scr_put (cs_screen s) c → Q tt s') →
  wp E (consputc c) Q s.
Proof.
  intros [Hal Hsc] HQ. unfold consputc. apply wp_bind, wp_gets. rewrite Hal.
  assert (∀ out, wp E (zoom cs_screen set_cs_screen (cgaputc c)) Q (set_cs_serial out s)) as Hfin.
  { intros out. apply wp_zoom. eapply wp_Ok; [by apply cgaputc_eq|]. apply HQ; [|done].
    split_and!; [|done..]. split; [done|]. by apply scr_put_ok. }
  apply wp_bind. case_decide.
  - apply wp_bind, wp_uartputc. intros o1. apply wp_bind, wp_uartputc. intros o2.
    apply wp_uartputc. intros o3. apply Hfin.
  - apply wp_uartputc. intros o1. apply Hfin.
Qed.

Lemma wp_consputcs (l : list Z) (f : Z → Z) Q s :
  cs_ok s →
  (∀ s', shown s s' → cs_screen s' = foldl scr_put (cs_screen s) (f <$> l) → Q tt s') →
  wp E (mfor l (λ c, consputc (f c))) Q s.
Proof.
  revert s. induction l as [|c l IH]; intros s Hok HQ; simpl.
  - apply wp_skip, HQ; done.
  - apply wp_bind, wp_consputc; [done|]. intros s1 (Hok1 & Hi1 & Hw1 & Hl1) Hs1.
    apply IH; [done|]. intros s2 (Hok2 & Hi2 & Hw2 & Hl2) Hs2. apply HQ.
    + split_and!; [done|by rewrite Hi2|by rewrite Hw2|by rewrite Hl2].
    + by rewrite Hs2, Hs1.
Qed.

(** *** Keys *)
Definition keyed (s : cstate W) (l : line) (s' : cstate W) : Prop :=
  cs_ok s' ∧ line_at (cs_input s') l ∧ cs_locking s' = cs_locking s.

Lemma wp_kill_line fuel com ed Q s :
  cs_ok s → line_at (cs_input s) (mkline com ed) → (length ed < fuel)%nat →
  (∀ s', keyed s (mkline com []) s' → cs_world s' = cs_world s → Q tt s') →
  wp E (kill_line fuel) Q s.
Proof.
  revert ed s. induction fuel as [|fuel IH]; intros ed s Hok Hl Hf HQ; [lia|].
  cbn [kill_line]. apply wp_bind, wp_gets.
  destruct (list_snoc_case ed) as [->|(ed' & x & ->)].
  - rewrite decide_True by (by apply (line_empty _ _ Hl)). apply wp_skip, HQ; done.
  - rewrite decide_False; [|intros He; apply (line_empty _ _ Hl) in He; by destruct ed'].
    destruct (line_erase _ _ _ _ Hl) as (Hx & Hne & Hl').
    apply wp_bind. eapply wp_of_opt; [exact Hx|]. rewrite decide_False by done.
    apply wp_bind, wp_modS. apply wp_bind, wp_consputc; [by destruct Hok|].
    intros s1 (Hok1 & Hi1 & Hw1 & Hk1) _. simpl in Hi1, Hw1, Hk1. rewrite <- Hi1 in Hl'.
    apply (IH ed'); [done|done|rewrite length_app in Hf; simpl in Hf; lia|].
    intros s2 (Hok2 & Hl2 & Hk2) Hw2. apply HQ; [|by rewrite Hw2].
    split_and!; [done|done|by rewrite Hk2].
Qed.

(** The code of the two backspace keys. *)
Lemma wp_erase (f : flags) com ed Q s L :
  cs_ok s → line_at (cs_input s) (mkline com ed) → holds L (cs_world s) →
  (∀ f' s', keyed s (mkline com (removelast ed)) s' → holds L (cs_world s') → Q f' s') →
  wp E (let! i := gets cs_input in
    (if decide (in_e i ≠ in_w i) then
       cupd (λ i, set_in_e (u32 (in_e i - 1)) i) ;;; consputc BACKSPACE
     else skip) ;;; ret f) Q s.
Proof.
  intros Hok Hl Hh HQ. apply wp_bind, wp_gets. destruct (list_snoc_case ed) as [->|(ed' & x & ->)].
  - rewrite decide_False by (intros Hne; apply Hne; by apply (line_empty _ _ Hl)).
    apply wp_bind, wp_skip, wp_ret, HQ; done.
  - rewrite decide_True; [|intros He; apply (line_empty _ _ Hl) in He; by destruct ed'].
    destruct (line_erase _ _ _ _ Hl) as (_ & _ & Hl'). rewrite removelast_last in HQ.
    apply wp_bind, wp_bind, wp_modS, wp_consputc; [by destruct Hok|].
    intros s1 (Hok1 & Hi1 & Hw1 & Hk1) _. simpl in Hi1, Hw1, Hk1. rewrite <- Hi1 in Hl'.
    apply wp_ret, HQ; [done|]. by rewrite Hw1.
Qed.

Lemma key_view l c : c ∈ [16; 18; 6; 19; 26; 0] → key l c = l.
Proof. intros. unfold key. by rewrite decide_True. Qed.

(** A character that is not a control key. *)
Lemma wp_typed c f l Q s L :
  0 < c < 256 → c ∉ [16; 18; 6; 19; 26; 0; 21; 8; 127] →
  cs_ok s → line_at (cs_input s) l → holds L (cs_world s) → "ptable" ∉ L →
  (∀ s', keyed s (key l c) s' → holds L (cs_world s') → Q f s') →
  wp E (consoleintr_key c f) Q s.
Proof.
  intros Hc Hctl Hok Hl Hh HL HQ. rewrite !not_elem_of_cons in Hctl.
  destruct Hctl as (N16 & N18 & N6 & N19 & N26 & N0 & N21 & N8 & N127 & _).
  unfold consoleintr_key, key in *. change (C 80) with 16. change (C 85) with 21. change (C 72) with 8.
  change (C 82) with 18. change (C 70) with 6. change (C 83) with 19. change (C 90) with 26. change (C 68) with 4.
  rewrite decide_False in HQ by set_solver. rewrite (decide_False (P := c = 21)) in HQ by done.
  rewrite (decide_False (P := c = 8 ∨ c = 127)) in HQ by lia.
  rewrite (decide_False (P := c = 16)), (decide_False (P := c = 21)), (decide_False (P := c = 8 ∨ c = 127)),
    (decide_False (P := c = 18)), (decide_False (P := c = 6)), (decide_False (P := c = 19)),
    (decide_False (P := c = 26)) by lia.
  apply wp_bind, wp_gets. rewrite (line_count _ _ Hl). unfold INPUT_BUF.
  destruct (decide (length (committed l) + length (editing l) < 128)%nat) as [Hlt|Hge];
    [rewrite decide_True by lia|rewrite decide_False by lia; apply wp_ret, HQ; done].
  set (c' := if decide (c = 13) then 10 else c) in *.
  assert (u8 c' = c') as Hu by (unfold c'; case_decide; apply u8_small; lia).
  destruct (line_append _ l (u8 c') Hl Hlt) as ([x Hx] & Hkeep & Hcom & Hfull).
  apply wp_bind. eapply wp_of_opt; [exact Hx|]. apply wp_bind, wp_modS.
  apply wp_bind, wp_consputc; [by destruct Hok|]. intros s1 (Hok1 & Hi1 & Hw1 & Hk1) _.
  cbn [cs_input set_cs_input cs_world cs_locking] in Hi1, Hw1, Hk1.
  apply wp_bind, wp_gets. rewrite Hi1. cbn [in_r]. apply wp_bind.
  unfold enter, commits in HQ. rewrite bool_decide_decide in HQ.
  destruct (decide (c' = 10 ∨ c' = 4 ∨ (length (committed l) + length (editing l) = 127)%nat)) as [Hy|Hn].
  - rewrite decide_True by (rewrite Hfull; done). apply wp_bind, wp_modS, wp_cworld. rewrite Hi1. cbn [cs_world set_cs_input]. rewrite Hw1.
    eapply k_wakeup_law; [exact Hh|done|]. intros w' Hw'. apply wp_ret, HQ; [|exact Hw'].
    split_and!; [by destruct Hok1|exact Hcom|exact Hk1].
  - rewrite decide_False by (rewrite Hfull; done). apply wp_skip, wp_ret, HQ; [|by rewrite Hw1].
    split_and!; [done| |done]. rewrite Hi1. apply Hkeep; [rewrite Hu; tauto|tauto].
Qed.

Lemma wp_key c f l Q s L :
  0 ≤ c < 256 →
  cs_ok s → line_at (cs_input s) l → holds L (cs_world s) → "ptable" ∉ L →
  (∀ f' s', keyed s (key l c) s' → holds L (cs_world s') → Q f' s') →
  wp E (consoleintr_key c f) Q s.
Proof.
  intros Hc Hok Hl Hh HL HQ.
  destruct (decide (c ∈ [16; 18; 6; 19; 26; 0; 21; 8; 127])) as [Hctl|Hn].
  2:{ assert (c ≠ 0) by set_solver. eapply wp_typed; try done; [lia|]. intros s'. by apply HQ. }
  destruct l as [com ed]. assert (length ed < 129)%nat by (pose proof (la_bound _ _ Hl); simpl in *; lia).
  assert (keyed s (mkline com ed) s) as Hsame by done.
  repeat (apply elem_of_cons in Hctl as [->|Hctl]).
  10:{ set_solver. }
  1-5: apply wp_ret, HQ; [by rewrite key_view by set_solver|done].
  - apply wp_bind, wp_gets. rewrite decide_False by tauto. apply wp_ret, HQ; [by rewrite key_view by set_solver|done].
  - change (key (mkline com ed) 21) with (mkline com []) in HQ. apply wp_bind. eapply wp_kill_line; try done.
    intros s' Hk Hw. apply wp_ret, HQ; [done|]. by rewrite Hw.
  - change (key (mkline com ed) 8) with (mkline com (removelast ed)) in HQ. by eapply wp_erase.
  - change (key (mkline com ed) 127) with (mkline com (removelast ed)) in HQ. by eapply wp_erase.
Qed.
End rules.

(** A read of at most [n] characters from the committed ones: what it gets, what
    is left, and whether it is done or has to wait for more. *)
Fixpoint read_line (n : nat) (fresh : bool) (com : list Z) : list Z * list Z * bool :=
  match n, com with
  | O, _ => ([], com, true)
  | S _, [] => ([], [], false)
  | S n', c :: com' =>
      if decide (c = 4) then ([], if fresh then com' else com, true)
      else if decide (c = 10) then ([c], com', true)
      else let '(got, rest, fin) := read_line n' false com' in (c :: got, rest, fin)
  end.
Definition read_turn (killed fin : bool) (got : list Z) : turn :=
  if fin then Returned (Z.of_nat (length got))
  else if killed then Returned (-1) else Slept (length got).

(** What the console relies on: the inode lock comes and goes with no spinlock
    held, sleep gives up the console lock, and the listings only print. *)
Definition keeps_locks {W} `{SyncLaws W} (E : string → Prop) (m : M W unit) : Prop :=
  ∀ w Q, holds [] w → (∀ w', holds [] w' → Q tt w') → wp E m Q w.
Definition gives_up {W} `{SyncLaws W} (E : string → Prop) (sleep : chan → string → M W unit) : Prop :=
  ∀ ch l w Q, holds [l] w → (∀ w', Q tt w') → wp E (sleep ch l) Q w.
Definition only_prints {W} `{SyncLaws W} (E : string → Prop) (m : M (cstate W) unit) : Prop :=
  ∀ s Q, cs_ok s → holds [] (cs_world s) →
    (∀ s', cs_ok s' → cs_input s' = cs_input s → holds [] (cs_world s') → Q tt s') → wp E m Q s.

Section calls.
Context {W : Type} `{SyncLaws W} (E : string → Prop).
Context (procdump ready free sleeping zombie : M (cstate W) unit).
Context (Hpd : only_prints E procdump) (Hrd : only_prints E ready) (Hfr : only_prints E free)
  (Hsl : only_prints E sleeping) (Hzb : only_prints E zombie).
Context (iunlock ilock : M W unit) (sleep : chan → string → M W unit).
Context (Hiu : keeps_locks E iunlock) (Hil : keeps_locks E ilock) (Hsleep : gives_up E sleep).
Implicit Types (s : cstate W).

Lemma wp_consoleintr_loop keys f l Q s L :
  Forall (λ c, 0 ≤ c < 256) keys →
  cs_ok s → line_at (cs_input s) l → holds L (cs_world s) → "ptable" ∉ L →
  (∀ f' s', keyed s (foldl key l keys) s' → holds L (cs_world s') → Q f' s') →
  wp E (consoleintr_loop keys f) Q s.
Proof.
  intros Hk. revert f l s. induction Hk as [|c keys Hc Hks IH]; intros f l s Hok Hl Hh HL HQ.
  - apply wp_ret, HQ; done.
  - cbn [consoleintr_loop]. rewrite decide_False by lia. apply wp_bind. eapply wp_key; try done.
    intros f1 s1 (Hok1 & Hl1 & Hk1) Hh1. eapply IH; try done.
    intros f2 s2 (Hok2 & Hl2 & Hk2) Hh2. apply HQ; [|done]. split_and!; [done|done|by rewrite Hk2].
Qed.

Lemma wp_consoleintr keys l Q s :
  Forall (λ c, 0 ≤ c < 256) keys →
  cs_ok s → line_at (cs_input s) l → holds [] (cs_world s) →
  (∀ s', cs_ok s' → line_at (cs_input s') (foldl key l keys) → holds [] (cs_world s') → Q tt s') →
  wp E (consoleintr procdump ready free sleeping zombie keys) Q s.
Proof.
  intros Hk Hok Hl Hh HQ. unfold consoleintr. apply wp_bind, wp_cworld.
  eapply k_acquire_law; [exact Hh|set_solver|]. intros w1 Hw1.
  apply wp_bind. eapply (wp_consoleintr_loop keys _ l _ _ ["console"]); [done|by destruct Hok|exact Hl|exact Hw1|set_solver|].
  intros f s2 (Hok2 & Hl2 & _) Hh2. apply wp_bind, wp_cworld.
  eapply k_release_law; [exact Hh2|]. intros w3 Hw3. apply wp_bind.
  assert (∀ s3, cs_ok s3 → cs_input s3 = cs_input s2 → holds [] (cs_world s3) →
    wp E (if decide (f.2 = 1) then ready else if decide (f.2 = 2) then free
          else if decide (f.2 = 3) then sleeping else if decide (f.2 = 4) then zombie else skip) Q s3) as Htl.
  { intros s3 Hok3 Hi3 Hh3. rewrite <- Hi3 in Hl2.
    assert (∀ s', cs_ok s' → cs_input s' = cs_input s3 → holds [] (cs_world s') → Q tt s') as HQ'.
    { intros s' Hs' Hi' Hw'. apply HQ; [done| |done]. by rewrite Hi'. }
    destruct (decide (f.2 = 1)); [by apply Hrd|]. destruct (decide (f.2 = 2)); [by apply Hfr|].
    destruct (decide (f.2 = 3)); [by apply Hsl|]. destruct (decide (f.2 = 4)); [by apply Hzb|].
    by apply wp_skip, HQ'. }
  destruct f.1; simpl.
  - apply Hpd; [by destruct Hok2|done|]. intros s4 Hok4 Hi4 Hh4. by apply Htl.
  - apply wp_skip, Htl; [by destruct Hok2|done|done].
Qed.

Lemma wp_consoleread_done got l Q s :
  cs_ok s → line_at (cs_input s) l → holds ["console"] (cs_world s) →
  (∀ s', cs_ok s' → line_at (cs_input s') l → Q (Returned (Z.of_nat (length got)), got) s') →
  wp E (consoleread_done ilock got) Q s.
Proof.
  intros Hok Hl Hh HQ. unfold consoleread_done. apply wp_bind, wp_cworld.
  eapply k_release_law; [exact Hh|]. intros w1 Hw1. apply wp_bind, wp_cworld. apply Hil; [exact Hw1|].
  intros w2 Hw2. apply wp_ret, HQ; [by destruct Hok|exact Hl].
Qed.

Lemma wp_consoleread_from killed target n got0 com ed Q s :
  (n ≤ target)%nat →
  cs_ok s → line_at (cs_input s) (mkline com ed) → holds ["console"] (cs_world s) →
  (∀ s' got rest fin, read_line n (bool_decide (n = target)) com = (got, rest, fin) →
     cs_ok s' → line_at (cs_input s') (mkline rest ed) →
     Q (read_turn killed fin (got0 ++ got), got0 ++ got) s') →
  wp E (consoleread_from ilock sleep killed target n got0) Q s.
Proof.
  revert got0 com s. induction n as [|n IH]; intros got0 com s Hn Hok Hl Hh HQ; cbn [consoleread_from].
  { eapply wp_consoleread_done; try done. intros s' Hok' Hl'.
    specialize (HQ s' [] com true). rewrite app_nil_r in HQ. by apply HQ. }
  apply wp_bind, wp_gets. cbn [read_line] in HQ. destruct com as [|c com].
  - rewrite decide_True by (by apply (line_nothing _ _ Hl)).
    specialize (λ s', HQ s' [] [] false eq_refl). rewrite app_nil_r in HQ. simpl in HQ. destruct killed.
    + apply wp_bind, wp_cworld. eapply k_release_law; [exact Hh|]. intros w1 Hw1.
      apply wp_bind, wp_cworld. apply Hil; [exact Hw1|]. intros w2 Hw2. apply wp_ret, HQ; [by destruct Hok|done].
    + apply wp_bind, wp_cworld. apply Hsleep; [exact Hh|]. intros w1. apply wp_ret, HQ; [by destruct Hok|done].
  - rewrite decide_False by (intros He; apply (line_nothing _ _ Hl) in He; done).
    destruct (line_take _ _ _ _ Hl) as (Hc & Hl' & Hback).
    apply wp_bind. eapply wp_of_opt; [exact Hc|]. apply wp_bind, wp_modS. change (C 68) with 4.
    destruct (decide (c = 4)) as [->|Hc4]; [|destruct (decide (c = 10)) as [->|Hc10]].
    + specialize (λ s', HQ s' _ _ _ eq_refl). simpl in HQ. rewrite app_nil_r in HQ. apply wp_bind.
      destruct (decide (S n < target)%nat) as [Hlt|Hge].
      * rewrite bool_decide_false in HQ by lia. apply wp_modS.
        cbn [cs_input set_cs_input]. rewrite Hback. eapply wp_consoleread_done; [by destruct Hok|exact Hl|exact Hh|done].
      * rewrite bool_decide_true in HQ by lia. apply wp_skip.
        eapply wp_consoleread_done; [by destruct Hok|exact Hl'|exact Hh|done].
    + eapply wp_consoleread_done; [by destruct Hok|exact Hl'|exact Hh|]. intros s' Hok' Hl2.
      exact (HQ s' [10] com true eq_refl Hok' Hl2).
    + eapply (IH _ com); [lia|by destruct Hok|exact Hl'|exact Hh|].
      intros s' got rest fin Hrd' Hok' Hl2. rewrite bool_decide_false in Hrd' by lia.
      rewrite <- app_assoc. apply (HQ s' (c :: got) rest fin); [|done|done]. by rewrite Hrd'.
Qed.

Lemma wp_consoleread killed n l Q s :
  cs_ok s → line_at (cs_input s) l → holds [] (cs_world s) →
  (∀ s' got rest fin, read_line (Z.to_nat n) true (committed l) = (got, rest, fin) →
     cs_ok s' → line_at (cs_input s') (mkline rest (editing l)) →
     Q (read_turn killed fin got, got) s') →
  wp E (consoleread iunlock ilock sleep killed n) Q s.
Proof.
  intros Hok Hl Hh HQ. unfold consoleread. apply wp_bind, wp_cworld. apply Hiu; [exact Hh|]. intros w1 Hw1.
  apply wp_bind, wp_cworld. eapply k_acquire_law; [exact Hw1|set_solver|]. intros w2 Hw2.
  destruct l as [com ed]. eapply wp_consoleread_from; [done|by destruct Hok|exact Hl|exact Hw2|].
  rewrite bool_decide_true by done. exact HQ.
Qed.
End calls.

(** ** Typing and reading a line *)
Definition printable (c : Z) : Prop := 32 ≤ c < 127.
Lemma key_printable com ed c :
  printable c → (length com + length ed < 127)%nat → key (mkline com ed) c = mkline com (ed ++ [c]).
Proof.
  intros Hc Hl. unfold printable in Hc. unfold key, enter, commits. simpl.
  rewrite decide_False by (rewrite !elem_of_cons, elem_of_nil; lia).
  rewrite decide_False, decide_False, decide_True, decide_False by lia.
  rewrite bool_decide_false by lia. by rewrite u8_small by lia.
Qed.
Lemma keys_printable com ed l :
  Forall printable l → (length com + length ed + length l ≤ 127)%nat →
  foldl key (mkline com ed) l = mkline com (ed ++ l).
Proof.
  intros Hl. revert ed. induction Hl as [|c l Hc Hl IH]; intros ed Hlen; simpl.
  - by rewrite app_nil_r.
  - simpl in Hlen. rewrite key_printable by (done || lia).
    rewrite IH by (rewrite length_app; simpl; lia). by rewrite <- app_assoc.
Qed.
Lemma keys_erase com ed j :
  foldl key (mkline com (ed ++ j)) (replicate (length j) 8) = mkline com ed.
Proof.
  induction j as [|x j IH] using rev_ind; simpl; [by rewrite app_nil_r|].
  rewrite length_app. simpl. rewrite Nat.add_1_r. simpl. rewrite app_assoc, <- IH. f_equal.
  change (key (mkline com ((ed ++ j) ++ [x])) 8) with (mkline com (removelast ((ed ++ j) ++ [x]))).
  by rewrite removelast_last.
Qed.
Lemma key_return com ed :
  (length com + length ed < 128)%nat → key (mkline com ed) 13 = mkline (com ++ ed ++ [10]) [].
Proof. intros Hl. unfold key, enter, commits. simpl. by rewrite decide_True by lia. Qed.
Lemma typed_keys l erased :
  Forall printable l → Forall printable erased → (length l + length erased ≤ 127)%nat →
  foldl key (mkline [] []) (l ++ erased ++ replicate (length erased) 8 ++ [13]) = mkline (l ++ [10]) [].
Proof.
  intros Hl He Hlen. rewrite app_assoc, foldl_app, keys_printable; [|by apply Forall_app|rewrite length_app; simpl; lia].
  rewrite foldl_app. cbn [app]. rewrite keys_erase. cbn [foldl]. by rewrite key_return by (simpl; lia).
Qed.
Lemma read_line_whole n fresh l rest :
  Forall printable l → (length l < n)%nat → read_line n fresh (l ++ 10 :: rest) = (l ++ [10], rest, true).
Proof.
  intros Hl. revert n fresh. induction Hl as [|c l Hc Hl IH]; intros n fresh Hn;
    (destruct n as [|n]; [simpl in Hn; lia|]); [done|].
  simpl in *. unfold printable in Hc. rewrite decide_False, decide_False by lia. by rewrite IH by lia.
Qed.

Definition idle_console : cstate unit :=
  mkcs false true true [] (mkscreen 0 (replicate 2000 0)) (mkinput (replicate 128 0) 0 0 0) tt.
Lemma idle_console_ok : cs_ok idle_console.
Proof. split; [done|]. split; [simpl; lia|]. cbn [cs_screen idle_console sc_crt]. rewrite length_replicate. lia. Qed.
Lemma idle_console_line : line_at (cs_input idle_console) (mkline [] []).
Proof. split; simpl; try done; try lia. set_solver. Qed.
Lemma idle_keeps E : keeps_locks E (@skip unit).
Proof. intros w Q _ HQ. by apply wp_skip, HQ. Qed.
Lemma idle_gives_up E : gives_up E (λ _ _, @skip unit).
Proof. intros ch l w Q _ HQ. apply wp_skip, HQ. Qed.
Lemma idle_prints E : only_prints E (@skip (cstate unit)).
Proof. intros s Q Hok Hh HQ. by apply wp_skip, HQ. Qed.

(** Writing to the console never panics and never touches memory outside the
    text screen: each character moves the cursor to a position on the 24 rows, a
    newline to the start of the next row, and rows scroll up by one when the
    cursor leaves the last; plain text that fits appears in consecutive cells.
    The input line is not disturbed. *)
Theorem console_output {W} `{SyncLaws W} E iunlock ilock (s : cstate W) buf :
  keeps_locks E iunlock → keeps_locks E ilock → cs_ok s → holds [] (cs_world s) →
  let chars := (λ c, Z.land c 255) <$> buf in
  wp E (consolewrite iunlock ilock buf) (λ r s',
    r = Z.of_nat (length buf) ∧ cs_ok s' ∧ cs_input s' = cs_input s ∧
    cs_screen s' = foldl scr_put (cs_screen s) chars ∧
    (Forall plain chars → chars ≠ [] → sc_pos (cs_screen s) + Z.of_nat (length chars) < 1920 →
     cs_screen s' = mkscreen (sc_pos (cs_screen s) + Z.of_nat (length chars))
       (splice (sc_crt (cs_screen s)) (Z.to_nat (sc_pos (cs_screen s))) ((cell <$> chars) ++ [cell 32])))) s.
Proof.
  intros Hiu Hil Hok Hh chars. unfold consolewrite. apply wp_bind, wp_cworld. apply Hiu; [done|]. intros w1 Hw1.
  apply wp_bind, wp_cworld. eapply k_acquire_law; [exact Hw1|set_solver|]. intros w2 Hw2.
  apply wp_bind, wp_consputcs; [by destruct Hok|]. intros s3 (Hok3 & Hi3 & Hw3 & _) Hs3.
  apply wp_bind, wp_cworld. rewrite Hw3. eapply k_release_law; [exact Hw2|]. intros w4 Hw4.
  apply wp_bind, wp_cworld. apply Hil; [exact Hw4|]. intros w5 Hw5. apply wp_ret.
  split_and!; [done|by destruct Hok3|done|done|]. intros Hp Hne Hfit.
  cbn [cs_screen set_cs_world]. rewrite Hs3. apply scr_text; [apply Hok|done|done|done].
Qed.
Lemma console_output_witness :
  wp no_panic (consolewrite skip skip [104; 105]) (λ r s',
    r = 2 ∧ sc_pos (cs_screen s') = 2 ∧ take 3 (sc_crt (cs_screen s')) = [cell 104; cell 105; cell 32]) idle_console.
Proof.
  eapply wp_mono.
  - apply (console_output no_panic skip skip idle_console [104; 105]);
      [apply idle_keeps|apply idle_keeps|apply idle_console_ok|exact I].
  - intros r s' (Hr & _ & _ & _ & Hsc). rewrite Hsc.
    + split_and!; [exact Hr|reflexivity|vm_compute; reflexivity].
    + repeat constructor; done.
    + done.
    + vm_compute. reflexivity.
Defined.

(** C30. The line discipline: consoleintr does to the ring exactly what the keys do
    to an abstract line (characters are appended, backspace and control-U edit
    the part not yet committed, return, control-D and a full buffer commit it),
    and consoleread removes from the front of the committed part up to a newline,
    an end-of-file mark or the number of bytes asked for, and sleeps only when
    nothing is committed.  A full ring is always committed, so it can be read. *)
Theorem line_discipline {W} `{SyncLaws W} E procdump ready free sleeping zombie iunlock ilock sleep
    (s : cstate W) l keys killed n :
  only_prints E procdump → only_prints E ready → only_prints E free → only_prints E sleeping →
  only_prints E zombie → keeps_locks E iunlock → keeps_locks E ilock → gives_up E sleep →
  Forall (λ c, 0 ≤ c < 256) keys →
  cs_ok s → line_at (cs_input s) l → holds [] (cs_world s) →
  wp E (consoleintr procdump ready free sleeping zombie keys)
    (λ _ s', cs_ok s' ∧ line_at (cs_input s') (foldl key l keys)) s ∧
  wp E (consoleread iunlock ilock sleep killed n) (λ r s', ∃ rest fin,
    cs_ok s' ∧ line_at (cs_input s') (mkline rest (editing l)) ∧
    read_line (Z.to_nat n) true (committed l) = (r.2, rest, fin) ∧ r.1 = read_turn killed fin r.2) s.
Proof.
  intros Hpd Hrd Hfr Hsl Hzb Hiu Hil Hsleep Hk Hok Hl Hh. split.
  - by eapply wp_consoleintr.
  - eapply wp_consoleread; try done. intros s' got rest fin Hrl Hok' Hl'. by exists rest, fin.
Qed.
Lemma line_discipline_witness :
  wp no_panic (consoleintr skip skip skip skip skip [97; 8; 98; 10])
    (λ _ s', cs_ok s' ∧ line_at (cs_input s') (mkline [98; 10] [])) idle_console.
Proof.
  replace (mkline [98; 10] []) with (foldl key (mkline [] []) [97; 8; 98; 10]) by (vm_compute; reflexivity).
  refine (proj1 (line_discipline no_panic skip skip skip skip skip skip skip (λ _ _, skip) idle_console
    (mkline [] []) [97; 8; 98; 10] false 0 _ _ _ _ _ _ _ _ _ _ _ _));
    [apply idle_prints..|apply idle_keeps|apply idle_keeps|apply idle_gives_up|
     repeat constructor; lia|apply idle_console_ok|apply idle_console_line|exact I].
Defined.

(** A line that is typed is the line that is read: printable characters, then
    characters that are all erased again with backspace, then return, on a console
    with no input pending, make a read that asks for enough bytes return the
    first characters and a newline, and nothing else. *)
Theorem typed_line_read {W} `{SyncLaws W} E procdump ready free sleeping zombie iunlock ilock sleep
    (s : cstate W) l erased killed n :
  only_prints E procdump → only_prints E ready → only_prints E free → only_prints E sleeping →
  only_prints E zombie → keeps_locks E iunlock → keeps_locks E ilock → gives_up E sleep →
  cs_ok s → line_at (cs_input s) (mkline [] []) → holds [] (cs_world s) →
  Forall printable l → Forall printable erased → (length l + length erased ≤ 127)%nat →
  Z.of_nat (length l) < n →
  wp E (consoleintr procdump ready free sleeping zombie (l ++ erased ++ replicate (length erased) 8 ++ [13]) ;;;
        consoleread iunlock ilock sleep killed n)
    (λ r s', r = (Returned (Z.of_nat (length l) + 1), l ++ [10]) ∧ line_at (cs_input s') (mkline [] [])) s.
Proof.
  intros Hpd Hrd Hfr Hsl Hzb Hiu Hil Hsleep Hok Hl Hh Hpl Hpe Hlen Hn.
  apply wp_bind. eapply wp_consoleintr; try done.
  { rewrite !Forall_app. split_and!; [eapply list.Forall_impl; [done|unfold printable; lia]..| |].
    - apply Forall_replicate. lia.
    - repeat constructor; lia. }
  intros s1 Hok1 Hl1 Hh1. eapply wp_consoleread; try done.
  rewrite typed_keys in * by done. cbn [committed editing]. rewrite read_line_whole by (done || lia).
  intros s2 got rest fin [= <- <- <-] Hok2 Hl2. split; [|done]. unfold read_turn. rewrite length_app. simpl.
  by rewrite Nat2Z.inj_add.
Qed.
Lemma typed_line_read_witness :
  wp no_panic (consoleintr skip skip skip skip skip [108; 115; 120; 8; 13] ;;;
        consoleread skip skip (λ _ _, skip) false 100)
    (λ r s', r = (Returned 3, [108; 115; 10]) ∧ line_at (cs_input s') (mkline [] [])) idle_console.
Proof.
  apply (typed_line_read no_panic skip skip skip skip skip skip skip (λ _ _, skip) idle_console
    [108; 115] [120] false 100);
    [apply idle_prints..|apply idle_keeps|apply idle_keeps|apply idle_gives_up|apply idle_console_ok|
     apply idle_console_line|exact I|repeat constructor; done|repeat constructor; done|simpl; lia|simpl; lia].
Defined.
