(* ===== verification/Tx.v ===== *)
(** * What the log and the buffer cache promise to the file system

    fs.c reads blocks with bread, changes them in place, passes them to log_write
    and releases them.  [tview] is what it sees: the current contents of the
    blocks, the buffers it holds, the blocks of the current transaction and the
    number the transaction may grow to, and the held blocks that were changed
    and not yet logged.  log.c on bio.c discharges the laws at the end. *)

From S2P Require Import Prelude CString Words ProcData Sync Block Log LogSpec LogRefine LogThm.
Local Open Scope Z_scope.

Record tview := mktview {
  t_size : Z;                  (* blocks of the disk *)
  t_lo : Z; t_hi : Z;          (* the log's own blocks: lo .. hi-1 *)
  t_cur : Z → block;           (* the contents of the blocks *)
  t_held : list (nat * Z);     (* the buffers held, with their blocks *)
  t_logged : gset Z;           (* the blocks of the transaction *)
  t_cap : nat;                 (* how many they may become *)
  t_loose : gset Z             (* blocks changed but not logged *)
}.
Definition t_hold b n v := mktview (t_size v) (t_lo v) (t_hi v) (t_cur v) ((b, n) :: t_held v)
  (t_logged v) (t_cap v) (t_loose v).
Definition t_drop b n v := mktview (t_size v) (t_lo v) (t_hi v) (t_cur v) (remove1 (b, n) (t_held v))
  (t_logged v) (t_cap v) (t_loose v).
Definition t_store n x v := mktview (t_size v) (t_lo v) (t_hi v) (<[n := x]> (t_cur v)) (t_held v)
  (t_logged v) (t_cap v) ({[n]} ∪ t_loose v).
Definition t_log n v := mktview (t_size v) (t_lo v) (t_hi v) (t_cur v) (t_held v)
  ({[n]} ∪ t_logged v) (t_cap v) (t_loose v ∖ {[n]}).
(** The blocks the file system may use. *)
Definition t_ours (v : tview) (n : Z) : Prop := 0 ≤ n < t_size v ∧ (n < t_lo v ∨ t_hi v ≤ n).

Class TxIO (S : Type) := {
  tx_sync :: Sync S;
  tx_bread : Z → Z → M S nat;
  tx_brelse : nat → M S unit;
  tx_log_write : nat → M S unit;
  tx_data : nat → M S block;
  tx_store : nat → block → M S unit
}.

Class TxLaws (S : Type) `{TxIO S} := {
  tv : list string → S → tview → Prop;
  tv_blocks L s v n : tv L s v → t_ours v n → is_block (t_cur v n);
  tv_cap L s v : tv L s v → (size (t_logged v) ≤ t_cap v < NBUF)%nat;

  tx_initlock_law E l L s v Q : tv L s v → l ∉ L →
    (∀ s', tv L s' v → Q tt s') → wp E (k_initlock l) Q s;
  tx_acquire_law E l L s v Q : tv L s v → l ∉ L →
    (∀ s', tv (l :: L) s' v → Q tt s') → wp E (k_acquire l) Q s;
  tx_release_law E l L s v Q : tv (l :: L) s v →
    (∀ s', tv L s' v → Q tt s') → wp E (k_release l) Q s;
  tx_wakeup_law E ch L s v Q : tv L s v → "ptable" ∉ L →
    (∀ s', tv L s' v → Q tt s') → wp E (k_wakeup ch) Q s;

  tx_bread_law E n L s v Q :
    tv L s v → "bcache" ∉ L → t_ours v n → n ∉ (t_held v).*2 →
    (size (t_logged v) + length (t_held v) < NBUF)%nat →
    (∀ b s', b ∉ (t_held v).*1 → tv L s' (t_hold b n v) → Q b s') →
    wp E (tx_bread ROOTDEV n) Q s;
  tx_brelse_law E b n L s v Q :
    tv L s v → "bcache" ∉ L → "ptable" ∉ L → (b, n) ∈ t_held v → n ∉ t_loose v →
    (∀ s', tv L s' (t_drop b n v) → Q tt s') → wp E (tx_brelse b) Q s;
  tx_log_write_law E b n s v Q :
    tv [] s v → (b, n) ∈ t_held v → t_ours v n → (size (t_logged v) < t_cap v)%nat →
    (∀ s', tv [] s' (t_log n v) → Q tt s') → wp E (tx_log_write b) Q s;
  tx_data_law E b n L s v Q :
    tv L s v → (b, n) ∈ t_held v → Q (t_cur v n) s → wp E (tx_data b) Q s;
  tx_store_law E b n x L s v Q :
    tv L s v → (b, n) ∈ t_held v → is_block x →
    (∀ s', tv L s' (t_store n x v) → Q tt s') → wp E (tx_store b x) Q s
}.

(** ** log.c on a block store *)
#[export] Instance log_sync {C} `{BlockIO C} : Sync (lstate C) := {|
  k_initlock l := io (k_initlock l);
  k_acquire l := io (k_acquire l);
  k_release l := io (k_release l);
  k_wakeup ch := io (k_wakeup ch)
|}.
#[export] Instance log_tx {C} `{BlockIO C} : TxIO (lstate C) := {|
  tx_bread dev n := io (io_bread dev n);
  tx_brelse b := io (io_brelse b);
  tx_log_write b := log_write b;
  tx_data b := io (io_data b);
  tx_store b x := io (io_store b x)
|}.

(** The log with calls in progress, [ops] giving the blocks each may still add,
    and buffers held by the running one. *)
Record tx_state {C} `{BlockIOLaws C} (L : list string) (s : lstate C) (v : tview)
    (bv : bview) (bs : list Z) (ops : list nat) : Prop := mktx {
  x_view : view L (ls_io s) bv;
  x_trans : trans_ok (ls_log s) bv LOGSIZE bs;
  x_size : log_size (ls_log s) = LOGSIZE;
  x_idle : log_committing (ls_log s) = false;
  x_open : log_outstanding (ls_log s) = Z.of_nat (length ops);
  x_room : (length bs + sum_list ops ≤ 29)%nat;
  x_clean : ∀ n, 0 ≤ n < v_size bv → n ∉ v_pinned bv → n ∉ t_loose v → v_mem bv n = v_disk bv n;
  x_bsize : t_size v = v_size bv;
  x_lo : t_lo v = log_start (ls_log s);
  x_hi : t_hi v = log_start (ls_log s) + LOGSIZE;
  x_cur : t_cur v = v_mem bv;
  x_held : t_held v = v_held bv;
  x_logged : t_logged v = list_to_set bs;
  x_cap : t_cap v = (length bs + sum_list ops)%nat
}.

Section log_laws.
Context {C : Type} `{BlockIOLaws C}.
Implicit Types (s : lstate C) (v : tview).

Lemma tx_state_io L L' s v bv bs ops c' :
  tx_state L s v bv bs ops → view L' c' bv → tx_state L' (set_ls_io c' s) v bv bs ops.
Proof. intros [] Hv. by split. Qed.

Lemma size_logged L s v bv bs ops : tx_state L s v bv bs ops → size (t_logged v) = length bs.
Proof.
  intros Hx. rewrite (x_logged _ _ _ _ _ _ Hx). apply size_list_to_set.
  apply (tr_once _ _ _ _ (x_trans _ _ _ _ _ _ Hx)).
Qed.

Lemma size_list_le (l : list Z) : (size (list_to_set l : gset Z) ≤ length l)%nat.
Proof.
  induction l as [|x l IH]; [vm_compute; lia|].
  rewrite list_to_set_cons, size_union_alt, size_singleton. cbn [length].
  assert (size (list_to_set l ∖ {[x]} : gset Z) ≤ size (list_to_set l : gset Z))%nat
    by (apply subseteq_size; set_solver). lia.
Qed.
Lemma size_busy bv bs : v_pinned bv = list_to_set bs →
  (size (v_busy bv) ≤ length bs + length (v_held bv))%nat.
Proof.
  intros Hp. unfold v_busy. rewrite Hp, Nat.add_comm.
  assert (list_to_set (v_held bv).*2 ∪ list_to_set bs = (list_to_set ((v_held bv).*2 ++ bs) : gset Z)) as ->
    by (by rewrite list_to_set_app_L).
  etrans; [apply size_list_le|]. by rewrite length_app, length_fmap.
Qed.

Lemma tx_bread_ok E n L s v bv bs ops Q :
  tx_state L s v bv bs ops → "bcache" ∉ L → t_ours v n → n ∉ (t_held v).*2 →
  (size (t_logged v) + length (t_held v) < NBUF)%nat →
  (∀ b s' bv', b ∉ (t_held v).*1 → tx_state L s' (t_hold b n v) bv' bs ops → Q b s') →
  wp E (tx_bread ROOTDEV n) Q s.
Proof.
  intros Hx HL [Hn _] Hnh Hsz HQ. rewrite (size_logged _ _ _ _ _ _ Hx) in Hsz.
  pose proof Hx as [Hv Ht X1 X2 X3 X4 X5 X6 X7 X8 X9 X10 X11 X12].
  apply wp_io. eapply io_bread_law; [exact Hv|done|by rewrite <- X6|by rewrite <- X10| |].
  { right. pose proof (size_busy bv bs (tr_pinned _ _ _ _ Ht)). rewrite X10 in Hsz. lia. }
  intros b c' Hb Hc'. eapply (HQ b _ (v_hold b n bv)); [by rewrite X10|].
  destruct Ht. split; simpl; rewrite ?X10; done.
Qed.
Lemma tx_brelse_ok E b n L s v bv bs ops Q :
  tx_state L s v bv bs ops → "bcache" ∉ L → "ptable" ∉ L → (b, n) ∈ t_held v → n ∉ t_loose v →
  (∀ s' bv', tx_state L s' (t_drop b n v) bv' bs ops → Q tt s') → wp E (tx_brelse b) Q s.
Proof.
  intros Hx HL HL' Hin Hnl HQ. pose proof Hx as [Hv Ht X1 X2 X3 X4 X5 X6 X7 X8 X9 X10 X11 X12].
  rewrite X10 in Hin. apply wp_io. eapply io_brelse_law; [exact Hv|done|done|exact Hin| |].
  { destruct (decide (n ∈ v_pinned bv)); [by left|right]. apply X5; [|done|done].
    by eapply view_held_blocks. }
  intros c' Hc'. eapply (HQ _ (v_drop b n bv)).
  destruct Ht. split; simpl; rewrite ?X10; done.
Qed.
Lemma tx_store_ok E b n x L s v bv bs ops Q :
  tx_state L s v bv bs ops → (b, n) ∈ t_held v → is_block x →
  (∀ s' bv', tx_state L s' (t_store n x v) bv' bs ops → Q tt s') → wp E (tx_store b x) Q s.
Proof.
  intros Hx Hin Hxb HQ. pose proof Hx as [Hv Ht X1 X2 X3 X4 X5 X6 X7 X8 X9 X10 X11 X12].
  rewrite X10 in Hin. apply wp_io. eapply io_store_law; [exact Hv|exact Hin|done|].
  intros c' Hc'. eapply (HQ _ (v_store n x bv)).
  destruct Ht. split; simpl; rewrite ?X9; try done.
  intros m Hm Hp Hl. rewrite fn_lookup_insert_ne by set_solver. apply X5; set_solver.
Qed.

Lemma size_joined bs n (X : gset Z) :
  NoDup bs → X = list_to_set bs → {[n]} ∪ X = list_to_set (joined bs n).
Proof.
  intros _ ->. apply set_eq. intros m.
  rewrite elem_of_union, elem_of_singleton, !elem_of_list_to_set, joined_spec. tauto.
Qed.

(** A block written for the first time uses up one of the running call's blocks. *)
Lemma spend (ops : list nat) : (0 < sum_list ops)%nat →
  ∃ ops', length ops' = length ops ∧ S (sum_list ops') = sum_list ops.
Proof.
  induction ops as [|r ops IH]; simpl; [lia|]. intros Hs. destruct r as [|r].
  - destruct IH as (ops' & Hl & Hs'); [lia|]. exists (O :: ops'). simpl. by rewrite Hl.
  - exists (r :: ops). simpl. split; [done|lia].
Qed.

Lemma tx_log_write_ok E b n s v bv bs ops Q :
  tx_state [] s v bv bs ops → (b, n) ∈ t_held v → t_ours v n → (size (t_logged v) < t_cap v)%nat →
  (∀ s' bv' bs' ops', tx_state [] s' (t_log n v) bv' bs' ops' → Q tt s') → wp E (tx_log_write b) Q s.
Proof.
  intros Hx Hin [Hn Hhome] Hsz HQ. rewrite (size_logged _ _ _ _ _ _ Hx) in Hsz.
  pose proof Hx as [Hv Ht X1 X2 X3 X4 X5 X6 X7 X8 X9 X10 X11 X12]. rewrite X12 in Hsz. rewrite X10 in Hin.
  assert (0 < length ops)%nat by (destruct ops; simpl in *; lia).
  pose proof Ht as [T1 T2 T3 T4 T5 [E1 E2 E3] T7 T8 T9 T10].
  assert (home (log_start (ls_log s)) LOGSIZE n) as Hhm by (unfold home; lia).
  eapply wp_mono.
  { eapply (wp_log_write E _ bv LOGSIZE bs s b n eq_refl Hv Hin Ht Hhm X1); unfold LOGSIZE, MAXOPBLOCKS; lia. }
  intros [] s3 (bl & Hl3 & Hbl & Htk & Hv3).
  assert (∃ ops', length ops' = length ops ∧ (length (joined bs n) + sum_list ops' = length bs + sum_list ops)%nat)
    as (ops' & Hol & Hos).
  { unfold joined. destruct (decide (n ∈ bs)); [by exists ops|]. destruct (spend ops) as (ops' & Hl & Hs); [lia|].
    exists ops'. rewrite length_app. simpl. split; [done|lia]. }
  pose proof (joined_length bs n) as Hjl.
  apply (HQ _ (v_pin n bv) (joined bs n) ops'). rewrite X6 in Hn.
  split; cbn [t_log t_size t_lo t_hi t_cur t_held t_logged t_cap t_loose v_pin v_size v_pinned v_mem v_disk v_held];
    rewrite ?Hl3, ?Hol; try done.
  - split; simpl; try done.
    + split; [unfold LOGSIZE, MAXOPBLOCKS in *; lia..|].
      apply list.Forall_forall. intros m [Hm| ->]%joined_spec; [|done].
      rewrite list.Forall_forall in E3. by apply E3.
    + by apply joined_nodup.
    + by apply size_joined.
    + unfold NBUF. lia.
  - lia.
  - intros m Hm Hp Hl. apply X5; set_solver.
  - by apply size_joined.
  - lia.
Qed.

#[export] Instance log_tx_laws : TxLaws (lstate C).
Proof.
  refine {| tv L s v := ∃ bv bs ops, tx_state L s v bv bs ops |}.
  - intros L s v n (bv & bs & ops & Hx) [Hn _]. destruct Hx as [Hv ? ? ? ? ? ? X6 ? ? X9 ? ? ?].
    rewrite X9. rewrite X6 in Hn. by eapply view_blocks in Hn as [? _].
  - intros L s v (bv & bs & ops & Hx). rewrite (size_logged _ _ _ _ _ _ Hx), (x_cap _ _ _ _ _ _ Hx).
    pose proof (x_room _ _ _ _ _ _ Hx). unfold NBUF. lia.
  - intros E l L s v Q (bv & bs & ops & Hx) Hl HQ. apply wp_io.
    eapply io_initlock_law; [apply Hx|done|]. intros c' Hc'. apply HQ. exists bv, bs, ops. by eapply tx_state_io.
  - intros E l L s v Q (bv & bs & ops & Hx) Hl HQ. apply wp_io.
    eapply io_acquire_law; [apply Hx|done|]. intros c' Hc'. apply HQ. exists bv, bs, ops. by eapply tx_state_io.
  - intros E l L s v Q (bv & bs & ops & Hx) HQ. apply wp_io.
    eapply io_release_law; [apply Hx|]. intros c' Hc'. apply HQ. exists bv, bs, ops. by eapply tx_state_io.
  - intros E ch L s v Q (bv & bs & ops & Hx) Hl HQ. apply wp_io.
    eapply io_wakeup_law; [apply Hx|done|]. intros c' Hc'. apply HQ. exists bv, bs, ops. by eapply tx_state_io.
  - intros E n L s v Q (bv & bs & ops & Hx) HL Hn Hnh Hsz HQ. eapply tx_bread_ok; try done.
    intros b s' bv' Hb Hx'. apply HQ; [done|]. by exists bv', bs, ops.
  - intros E b n L s v Q (bv & bs & ops & Hx) HL HL' Hin Hnl HQ. eapply tx_brelse_ok; try done.
    intros s' bv' Hx'. apply HQ. by exists bv', bs, ops.
  - intros E b n s v Q (bv & bs & ops & Hx) Hin Hn Hsz HQ. eapply tx_log_write_ok; try done.
    intros s' bv' bs' ops' Hx'. apply HQ. by exists bv', bs', ops'.
  - intros E b n L s v Q (bv & bs & ops & Hx) Hin HQ. apply wp_io.
    eapply io_data_law; [apply Hx|by rewrite <- (x_held _ _ _ _ _ _ Hx)|].
    rewrite <- (x_cur _ _ _ _ _ _ Hx). by destruct s.
  - intros E b n x L s v Q (bv & bs & ops & Hx) Hin Hxb HQ. eapply tx_store_ok; try done.
    intros s' bv' Hx'. apply HQ. by exists bv', bs, ops.
Defined.

(** The store of a log between calls of the running process. *)
Lemma logged_tv s ops a l bv bs :
  logged LOGSIZE s ops a l bv bs →
  tv [] s (mktview (v_size bv) (log_start l) (log_start l + LOGSIZE) (v_mem bv) [] (list_to_set bs)
    (length bs + sum_list ops) ∅).
Proof.
  intros Hl. pose proof Hl as [(Hls & Hv & Hh) Ht Hsz Hid Hop Hcnt Hroom Hq Hc Hs].
  exists bv, bs, ops. split; simpl; rewrite ?Hls; try done; [lia|].
  intros n Hn Hp _. eapply view_unpinned; [exact Hv|done|]. unfold v_busy. rewrite Hh. set_solver.
Qed.
End log_laws.
