(* ===== verification/Fs.v ===== *)
(** * The file system (fs.c)

    Blocks, inodes, directories and path names, over the [TxIO] interface of the
    log and the buffer cache.  A pointer to a struct inode is an index of
    icache.inode.  ilock sleeps while another process has the inode; [sleep] is
    what happens meanwhile.  [dev_read] and [dev_write] are the table devsw, and
    [cwd] is proc->cwd. *)

From S2P Require Import Prelude CString Words ProcData Sync Block Log Tx.
Local Open Scope Z_scope.

(** param.h, fs.h, file.h, stat.h *)
Definition NINODE : nat := 50.
Definition NDEV : Z := 10.
Definition DEFAULT_UID : Z := 0.
Definition DEFAULT_GID : Z := 0.
Definition DEFAULT_MODE : Z := 493.
Definition ROOTINO : Z := 1.
Definition NDIRECT : Z := 25.
Definition NINDIRECT : Z := BSIZE / 4.
Definition MAXFILE : Z := NDIRECT + NINDIRECT.
Definition SIZEOF_DINODE : Z := 128.
Definition IPB : Z := BSIZE / SIZEOF_DINODE.
Definition BPB : Z := BSIZE * 8.
Definition DIRSIZ : nat := 14.
Definition SIZEOF_DIRENT : Z := 16.
Definition T_DIR : Z := 1.
Definition T_FILE : Z := 2.
Definition T_DEV : Z := 3.
Definition I_BUSY : Z := 1.
Definition I_VALID : Z := 2.
Definition IBLOCK (i : Z) (sb : superblock) : Z := u32 (i / IPB + sb_inodestart sb).
Definition BBLOCK (b : Z) (sb : superblock) : Z := u32 (b / BPB + sb_bmapstart sb).

(** struct dinode; the mode bits as one integer (mode.asInt). *)
Record dinode := mkdi {
  di_type : Z; di_major : Z; di_minor : Z; di_nlink : Z;
  di_uid : Z; di_gid : Z; di_mode : Z; di_size : Z; di_addrs : list Z
}.
(** It has no padding: 4 shorts, 4 words and 26 addresses make 128 bytes. *)
Definition dinode_bytes (d : dinode) : list Z :=
  le_split 2 (di_type d) ++ le_split 2 (di_major d) ++ le_split 2 (di_minor d) ++ le_split 2 (di_nlink d) ++
  le_split 4 (di_uid d) ++ le_split 4 (di_gid d) ++ le_split 4 (di_mode d) ++ le_split 4 (di_size d) ++
  concat (le_split 4 <$> di_addrs d).
Definition get_words (x : list Z) (off n : nat) : option (list Z) :=
  mapM (λ k, get_word x (off + 4 * k)) (seq 0 n).
Definition get_dinode (x : list Z) (off : nat) : option dinode :=
  ty ← get_half x off; ma ← get_half x (off + 2); mi ← get_half x (off + 4); nl ← get_half x (off + 6);
  u ← get_word x (off + 8); g ← get_word x (off + 12); mo ← get_word x (off + 16);
  sz ← get_word x (off + 20); ad ← get_words x (off + 24) 26;
  Some (mkdi (s16 ty) (s16 ma) (s16 mi) (s16 nl) u g mo sz ad).
Definition put_dinode (x : list Z) (off : nat) (d : dinode) : option (list Z) :=
  if decide (off + 128 ≤ length x)%nat then Some (splice x off (dinode_bytes d)) else None.

(** struct inode *)
Record inode := mkinode {
  i_dev : Z; i_inum : Z; i_ref : Z; i_flags : Z; i_d : dinode   (* copy of disk inode *)
}.
Definition set_i_ref x i := mkinode (i_dev i) (i_inum i) x (i_flags i) (i_d i).
Definition set_i_flags x i := mkinode (i_dev i) (i_inum i) (i_ref i) x (i_d i).
Definition set_i_d x i := mkinode (i_dev i) (i_inum i) (i_ref i) (i_flags i) x.
Definition set_di_type x d :=
  mkdi x (di_major d) (di_minor d) (di_nlink d) (di_uid d) (di_gid d) (di_mode d) (di_size d) (di_addrs d).
Definition set_di_size x d :=
  mkdi (di_type d) (di_major d) (di_minor d) (di_nlink d) (di_uid d) (di_gid d) (di_mode d) x (di_addrs d).
Definition set_di_addrs x d :=
  mkdi (di_type d) (di_major d) (di_minor d) (di_nlink d) (di_uid d) (di_gid d) (di_mode d) (di_size d) x.
Definition set_di_owner u g d :=
  mkdi (di_type d) (di_major d) (di_minor d) (di_nlink d) u g (di_mode d) (di_size d) (di_addrs d).
Definition i_busy (i : inode) : bool := Z.testbit (i_flags i) 0.
Definition i_valid (i : inode) : bool := Z.testbit (i_flags i) 1.

(** struct stat *)
Record stat := mkstat {
  st_type : Z; st_dev : Z; st_ino : Z; st_nlink : Z; st_uid : Z; st_gid : Z; st_mode : Z; st_size : Z
}.

(** struct dirent *)
Definition dirent_inum (x : list Z) : option Z := get_half x 0.
Definition dirent_name (x : list Z) : list Z := take DIRSIZ (drop 2 x).
Definition dirent_bytes (inum : Z) (name : list Z) : list Z := le_split 2 inum ++ name.

Record fstate (S : Type) := mkfs { f_sb : superblock; f_inode : list inode; f_io : S }.
Arguments mkfs {S}.
Arguments f_sb {S}.
Arguments f_inode {S}.
Arguments f_io {S}.
Definition set_f_sb {S} x (s : fstate S) : fstate S := mkfs x (f_inode s) (f_io s).
Definition set_f_inode {S} x (s : fstate S) : fstate S := mkfs (f_sb s) x (f_io s).
Definition set_f_io {S} (x : S) (s : fstate S) : fstate S := mkfs (f_sb s) (f_inode s) x.

(** &icache.inode[i] *)
Definition chan_of_inode (i : nat) : chan := ChAddr (1000 + Z.of_nat i).

(** The inner loop of balloc: the first clear bit of [n] bits from [bi] on. *)
Fixpoint free_bit (n : nat) (x : list Z) (bi : Z) : option (option Z) :=
  match n with
  | O => Some None
  | S n' =>
      c ← x !! Z.to_nat (bi / 8);
      if decide (Z.land c (Z.shiftl 1 (bi mod 8)) = 0) then Some (Some bi) else free_bit n' x (bi + 1)
  end.
(** bp->data[bi/8] |= m and &= ~m *)
Definition set_bit (x : list Z) (bi : Z) : option (list Z) :=
  c ← x !! Z.to_nat (bi / 8); Some (<[Z.to_nat (bi / 8) := u8 (Z.lor c (Z.shiftl 1 (bi mod 8)))]> x).
Definition clear_bit (x : list Z) (bi : Z) : option (list Z) :=
  c ← x !! Z.to_nat (bi / 8); Some (<[Z.to_nat (bi / 8) := u8 (Z.ldiff c (Z.shiftl 1 (bi mod 8)))]> x).

(** ** skipelem: the rest of the path and the name copied, or 0 *)
Fixpoint skip_slashes (path : list Z) : list Z :=
  match path with 47 :: p => skip_slashes p | _ => path end.
Fixpoint elem_len (path : list Z) : option nat :=
  match path with
  | [] => None
  | c :: p => if decide (c ≠ 47 ∧ c ≠ 0) then S <$> elem_len p else Some O
  end.
Definition skipelem (path name : list Z) : option (option (list Z * list Z)) :=
  match skip_slashes path with
  | [] => None
  | c :: _ as s =>
      if decide (c = 0) then Some None else
      len ← elem_len s;
      let name' := if decide (DIRSIZ ≤ len)%nat then splice name 0 (take DIRSIZ s)
                   else splice name 0 (take len s ++ [0]) in
      match skip_slashes (drop len s) with
      | [] => None
      | rest => Some (Some (rest, name'))
      end
  end.

Definition namecmp (s t : list Z) : option Z := strncmp s t DIRSIZ.

Section fs.
Context {S : Type} `{TxIO S}.
Abbreviation F := (M (fstate S)).
Context (sleep : chan → string → M (fstate S) unit).
Context (dev_read : Z → option (nat → Z → M (fstate S) (Z * list Z))).
Context (dev_write : Z → option (nat → list Z → Z → M (fstate S) Z)).

Definition fio {A} (m : M S A) : F A := zoom f_io set_f_io m.
Definition the_inode (i : nat) : F inode := let! l := gets f_inode in of_opt (l !! i).
Definition upd_inode (i : nat) (f : inode → inode) : F unit :=
  let! ip := the_inode i in modS (λ s, set_f_inode (<[i := f ip]> (f_inode s)) s).

(** readsb(dev, &sb) *)
Definition fs_readsb (dev : Z) : F unit :=
  let! bp := fio (tx_bread dev 1) in
  let! x := fio (tx_data bp) in
  let! sb := of_opt (sb_of_bytes x) in
  modS (set_f_sb sb) ;;;
  fio (tx_brelse bp).

(** ** Blocks *)
Definition bzero (dev bno : Z) : F unit :=
  let! bp := fio (tx_bread dev bno) in
  let! x := fio (tx_data bp) in
  let! y := of_opt (memset 0 x 0 512) in
  fio (tx_store bp y) ;;;
  fio (tx_log_write bp) ;;;
  fio (tx_brelse bp).

Fixpoint balloc_from (fuel : nat) (dev b : Z) : F Z :=
  match fuel with
  | O => diverge
  | Datatypes.S fuel' =>
      let! sb := gets f_sb in
      if decide (b < sb_size sb) then
        let! bp := fio (tx_bread dev (BBLOCK b sb)) in
        let! x := fio (tx_data bp) in
        let! r := of_opt (free_bit (Z.to_nat (Z.min BPB (sb_size sb - b))) x 0) in
        match r with
        | Some bi =>
            let! y := of_opt (set_bit x bi) in
            fio (tx_store bp y) ;;;
            fio (tx_log_write bp) ;;;
            fio (tx_brelse bp) ;;;
            bzero dev (b + bi) ;;;
            ret (b + bi)
        | None =>
            fio (tx_brelse bp) ;;;
            balloc_from fuel' dev (b + BPB)
        end
      else panic "balloc: out of blocks"
  end.
Definition balloc (dev : Z) : F Z :=
  let! sb := gets f_sb in
  balloc_from (Z.to_nat (sb_size sb / BPB) + 2) dev 0.

Definition bfree (dev b : Z) : F unit :=
  fs_readsb dev ;;;
  let! sb := gets f_sb in
  let! bp := fio (tx_bread dev (BBLOCK b sb)) in
  let bi := b mod BPB in
  let! x := fio (tx_data bp) in
  let! c := of_opt (x !! Z.to_nat (bi / 8)) in
  if decide (Z.land c (Z.shiftl 1 (bi mod 8)) = 0) then panic "freeing free block" else
  let! y := of_opt (clear_bit x bi) in
  fio (tx_store bp y) ;;;
  fio (tx_log_write bp) ;;;
  fio (tx_brelse bp).

(** ** The inode cache *)
Definition iinit (print_sb : superblock → F unit) (dev : Z) : F unit :=
  fio (k_initlock "icache") ;;;
  fs_readsb dev ;;;
  let! sb := gets f_sb in
  print_sb sb.

(** The scan of iget from entry [i] on: a cached entry, or the first free one. *)
Fixpoint iget_scan (l : list inode) (i : nat) (dev inum : Z) (empty : option nat) : nat + option nat :=
  match l with
  | [] => inr empty
  | ip :: l' =>
      if decide (0 < i_ref ip ∧ i_dev ip = dev ∧ i_inum ip = inum) then inl i
      else iget_scan l' (Datatypes.S i) dev inum
             (match empty with
              | None => if decide (i_ref ip = 0) then Some i else None
              | Some e => Some e end)
  end.
Definition iget (dev inum : Z) : F nat :=
  fio (k_acquire "icache") ;;;
  let! l := gets f_inode in
  match iget_scan l 0 dev inum None with
  | inl i =>
      upd_inode i (λ ip, set_i_ref (i_ref ip + 1) ip) ;;;
      fio (k_release "icache") ;;;
      ret i
  | inr None => panic "iget: no inodes"
  | inr (Some i) =>
      upd_inode i (λ ip, mkinode dev inum 1 0 (i_d ip)) ;;;
      fio (k_release "icache") ;;;
      ret i
  end.

Definition idup (i : nat) : F nat :=
  fio (k_acquire "icache") ;;;
  upd_inode i (λ ip, set_i_ref (i_ref ip + 1) ip) ;;;
  fio (k_release "icache") ;;;
  ret i.

(** [while(ip->flags & I_BUSY) sleep(ip, &icache.lock)] *)
Fixpoint ilock_wait (fuel : nat) (i : nat) : F unit :=
  match fuel with
  | O => diverge
  | Datatypes.S fuel' =>
      let! ip := the_inode i in
      if i_busy ip then sleep (chan_of_inode i) "icache" ;;; ilock_wait fuel' i else skip
  end.
(** How often the caller may be woken while the inode is busy again. *)
Definition ilock_fuel : nat := 64.
Definition ilock (i : option nat) : F unit :=
  match i with
  | None => panic "ilock"
  | Some i =>
      let! ip := the_inode i in
      if decide (i_ref ip < 1) then panic "ilock" else
      fio (k_acquire "icache") ;;;
      ilock_wait ilock_fuel i ;;;
      upd_inode i (λ ip, set_i_flags (Z.lor (i_flags ip) I_BUSY) ip) ;;;
      fio (k_release "icache") ;;;
      let! ip := the_inode i in
      if i_valid ip then skip else
      let! sb := gets f_sb in
      let! bp := fio (tx_bread (i_dev ip) (IBLOCK (i_inum ip) sb)) in
      let! x := fio (tx_data bp) in
      let! d := of_opt (get_dinode x (Z.to_nat (128 * (i_inum ip mod IPB)))) in
      upd_inode i (set_i_d d) ;;;
      fio (tx_brelse bp) ;;;
      upd_inode i (λ ip, set_i_flags (Z.lor (i_flags ip) I_VALID) ip) ;;;
      if decide (di_type d = 0) then panic "ilock: no type" else skip
  end.

Definition iunlock (i : option nat) : F unit :=
  match i with
  | None => panic "iunlock"
  | Some i =>
      let! ip := the_inode i in
      if negb (i_busy ip) || bool_decide (i_ref ip < 1) then panic "iunlock" else
      fio (k_acquire "icache") ;;;
      upd_inode i (λ ip, set_i_flags (Z.ldiff (i_flags ip) I_BUSY) ip) ;;;
      fio (k_wakeup (chan_of_inode i)) ;;;
      fio (k_release "icache")
  end.

(** ** Disk inodes *)
Fixpoint ialloc_from (fuel : nat) (dev type inum : Z) : F nat :=
  match fuel with
  | O => diverge
  | Datatypes.S fuel' =>
      let! sb := gets f_sb in
      if decide (inum < sb_ninodes sb) then
        let! bp := fio (tx_bread dev (IBLOCK inum sb)) in
        let off := Z.to_nat (128 * (inum mod IPB)) in
        let! x := fio (tx_data bp) in
        let! d := of_opt (get_dinode x off) in
        if decide (di_type d = 0) then
          let d := mkdi type 0 0 0 DEFAULT_UID DEFAULT_GID DEFAULT_MODE 0 (replicate 26 0) in
          let! y := of_opt (put_dinode x off d) in
          fio (tx_store bp y) ;;;
          fio (tx_log_write bp) ;;;
          fio (tx_brelse bp) ;;;
          iget dev inum
        else
          fio (tx_brelse bp) ;;;
          ialloc_from fuel' dev type (inum + 1)
      else panic "ialloc: no inodes"
  end.
Definition ialloc (dev type : Z) : F nat :=
  let! sb := gets f_sb in
  ialloc_from (Z.to_nat (sb_ninodes sb) + 1) dev type 1.

Definition iupdate (i : nat) : F unit :=
  let! ip := the_inode i in
  let! sb := gets f_sb in
  let! bp := fio (tx_bread (i_dev ip) (IBLOCK (i_inum ip) sb)) in
  let! x := fio (tx_data bp) in
  let! y := of_opt (put_dinode x (Z.to_nat (128 * (i_inum ip mod IPB))) (i_d ip)) in
  fio (tx_store bp y) ;;;
  fio (tx_log_write bp) ;;;
  fio (tx_brelse bp).

(** ip->addrs[k] *)
Definition get_addr (i k : nat) : F Z :=
  let! ip := the_inode i in of_opt (di_addrs (i_d ip) !! k).
Definition put_addr (i k : nat) (a : Z) : F unit :=
  upd_inode i (λ ip, set_i_d (set_di_addrs (<[k := a]> (di_addrs (i_d ip))) (i_d ip)) ip).

Definition bmap (i : nat) (bn : Z) : F Z :=
  let! ip := the_inode i in
  if decide (bn < NDIRECT) then
    let! addr := get_addr i (Z.to_nat bn) in
    if decide (addr = 0) then
      let! addr := balloc (i_dev ip) in
      put_addr i (Z.to_nat bn) addr ;;; ret addr
    else ret addr
  else
    let bn := bn - NDIRECT in
    if decide (bn < NINDIRECT) then
      let! addr := get_addr i (Z.to_nat NDIRECT) in
      let! addr :=
        (if decide (addr = 0) then
           let! addr := balloc (i_dev ip) in
           put_addr i (Z.to_nat NDIRECT) addr ;;; ret addr
         else ret addr) in
      let! bp := fio (tx_bread (i_dev ip) addr) in
      let! x := fio (tx_data bp) in
      let! addr := of_opt (get_word x (4 * Z.to_nat bn)) in
      let! addr :=
        (if decide (addr = 0) then
           let! addr := balloc (i_dev ip) in
           let! y := of_opt (put_word x (4 * Z.to_nat bn) addr) in
           fio (tx_store bp y) ;;;
           fio (tx_log_write bp) ;;;
           ret addr
         else ret addr) in
      fio (tx_brelse bp) ;;;
      ret addr
    else panic "bmap: out of range".

Definition itrunc (i : nat) : F unit :=
  let! ip := the_inode i in
  mfor (seq 0 (Z.to_nat NDIRECT)) (λ k,
    let! a := get_addr i k in
    if decide (a ≠ 0) then bfree (i_dev ip) a ;;; put_addr i k 0 else skip) ;;;
  let! ia := get_addr i (Z.to_nat NDIRECT) in
  (if decide (ia ≠ 0) then
     let! bp := fio (tx_bread (i_dev ip) ia) in
     let! x := fio (tx_data bp) in
     mfor (seq 0 (Z.to_nat NINDIRECT)) (λ j,
       let! a := of_opt (get_word x (4 * j)) in
       if decide (a ≠ 0) then bfree (i_dev ip) a else skip) ;;;
     fio (tx_brelse bp) ;;;
     bfree (i_dev ip) ia ;;;
     put_addr i (Z.to_nat NDIRECT) 0
   else skip) ;;;
  upd_inode i (λ ip, set_i_d (set_di_size 0 (i_d ip)) ip) ;;;
  iupdate i.

Definition iput (i : nat) : F unit :=
  fio (k_acquire "icache") ;;;
  let! ip := the_inode i in
  (if decide (i_ref ip = 1 ∧ i_valid ip = true ∧ di_nlink (i_d ip) = 0) then
     if i_busy ip then panic "iput busy" else
     upd_inode i (λ ip, set_i_flags (Z.lor (i_flags ip) I_BUSY) ip) ;;;
     fio (k_release "icache") ;;;
     itrunc i ;;;
     upd_inode i (λ ip, set_i_d (set_di_type 0 (i_d ip)) ip) ;;;
     iupdate i ;;;
     fio (k_acquire "icache") ;;;
     upd_inode i (set_i_flags 0) ;;;
     fio (k_wakeup (chan_of_inode i))
   else skip) ;;;
  upd_inode i (λ ip, set_i_ref (i_ref ip - 1) ip) ;;;
  fio (k_release "icache").
Definition iunlockput (i : nat) : F unit := iunlock (Some i) ;;; iput i.

Definition stati (i : nat) : F stat :=
  let! ip := the_inode i in
  let d := i_d ip in
  ret (mkstat (di_type d) (i_dev ip) (i_inum ip) (di_nlink d) (di_uid d) (di_gid d) (di_mode d) (di_size d)).

(** ** Contents *)
Fixpoint readi_loop (fuel : nat) (i : nat) (tot off n : Z) (dst : list Z) : F (list Z) :=
  match fuel with
  | O => diverge
  | Datatypes.S fuel' =>
      if decide (tot < n) then
        let! ip := the_inode i in
        let! a := bmap i (off / BSIZE) in
        let! bp := fio (tx_bread (i_dev ip) a) in
        let m := Z.min (n - tot) (BSIZE - off mod BSIZE) in
        let! x := fio (tx_data bp) in
        let got := take (Z.to_nat m) (drop (Z.to_nat (off mod BSIZE)) x) in
        fio (tx_brelse bp) ;;;
        readi_loop fuel' i (tot + m) (off + m) n (dst ++ got)
      else ret dst
  end.
(** The count returned and the bytes stored at [dst]. *)
Definition readi (i : nat) (off n : Z) : F (Z * list Z) :=
  let! ip := the_inode i in
  let d := i_d ip in
  if decide (di_type d = T_DEV) then
    if decide (di_major d < 0 ∨ NDEV ≤ di_major d) then ret (-1, []) else
    match dev_read (di_major d) with
    | None => ret (-1, [])
    | Some f => f i (s32 n)
    end
  else if decide (off > di_size d ∨ u32 (off + n) < off) then ret (-1, []) else
  let n := if decide (u32 (off + n) > di_size d) then di_size d - off else n in
  let! dst := readi_loop (Z.to_nat (n / BSIZE) + 3) i 0 off n [] in
  ret (s32 n, dst).

(** [src] are the [n] bytes at the caller's pointer. *)
Fixpoint writei_loop (fuel : nat) (i : nat) (tot off n : Z) (src : list Z) : F Z :=
  match fuel with
  | O => diverge
  | Datatypes.S fuel' =>
      if decide (tot < n) then
        let! ip := the_inode i in
        let! a := bmap i (off / BSIZE) in
        let! bp := fio (tx_bread (i_dev ip) a) in
        let m := Z.min (n - tot) (BSIZE - off mod BSIZE) in
        let! x := fio (tx_data bp) in
        fio (tx_store bp (splice x (Z.to_nat (off mod BSIZE)) (take (Z.to_nat m) src))) ;;;
        fio (tx_log_write bp) ;;;
        fio (tx_brelse bp) ;;;
        writei_loop fuel' i (tot + m) (off + m) n (drop (Z.to_nat m) src)
      else ret off
  end.
Definition writei (i : nat) (src : list Z) (off n : Z) : F Z :=
  let! ip := the_inode i in
  let d := i_d ip in
  if decide (di_type d = T_DEV) then
    if decide (di_major d < 0 ∨ NDEV ≤ di_major d) then ret (-1) else
    match dev_write (di_major d) with
    | None => ret (-1)
    | Some f => f i src (s32 n)
    end
  else if decide (off > di_size d ∨ u32 (off + n) < off) then ret (-1)
  else if decide (u32 (off + n) > MAXFILE * BSIZE) then ret (-1) else
  let! off := writei_loop (Z.to_nat (n / BSIZE) + 3) i 0 off n src in
  let! ip := the_inode i in
  (if decide (n > 0 ∧ off > di_size (i_d ip)) then
     upd_inode i (λ ip, set_i_d (set_di_size off (i_d ip)) ip) ;;; iupdate i
   else skip) ;;;
  ret (s32 n).

(** ** Directories *)
(** Read the entry at [off]; dirlookup and dirlink panic with the same words. *)
Definition read_dirent (i : nat) (off : Z) : F (list Z) :=
  let! r := readi i off SIZEOF_DIRENT in
  if decide (r.1 ≠ SIZEOF_DIRENT) then panic "dirlink read" else ret r.2.

(** The inode found and the offset of its entry. *)
Fixpoint dirlookup_from (fuel : nat) (dp : nat) (name : list Z) (off : Z) : F (option (nat * Z)) :=
  match fuel with
  | O => diverge
  | Datatypes.S fuel' =>
      let! ip := the_inode dp in
      if decide (off < di_size (i_d ip)) then
        let! de := read_dirent dp off in
        let! inum := of_opt (dirent_inum de) in
        if decide (inum = 0) then dirlookup_from fuel' dp name (u32 (off + SIZEOF_DIRENT)) else
        let! c := of_opt (namecmp name (dirent_name de)) in
        if decide (c = 0) then
          let! j := iget (i_dev ip) inum in ret (Some (j, off))
        else dirlookup_from fuel' dp name (u32 (off + SIZEOF_DIRENT))
      else ret None
  end.
Definition dirlookup (dp : nat) (name : list Z) : F (option (nat * Z)) :=
  let! ip := the_inode dp in
  if decide (di_type (i_d ip) ≠ T_DIR) then panic "dirlookup not DIR" else
  dirlookup_from (Z.to_nat (di_size (i_d ip) / SIZEOF_DIRENT) + 2) dp name 0.

(** The offset of an empty entry, or of the end. *)
Fixpoint empty_dirent (fuel : nat) (dp : nat) (off : Z) : F Z :=
  match fuel with
  | O => diverge
  | Datatypes.S fuel' =>
      let! ip := the_inode dp in
      if decide (off < di_size (i_d ip)) then
        let! de := read_dirent dp off in
        let! inum := of_opt (dirent_inum de) in
        if decide (inum = 0) then ret off else empty_dirent fuel' dp (off + SIZEOF_DIRENT)
      else ret off
  end.
Definition dirlink (dp : nat) (name : list Z) (inum : Z) : F Z :=
  let! r := dirlookup dp name in
  match r with
  | Some (j, _) => iput j ;;; ret (-1)
  | None =>
      let! ip := the_inode dp in
      let! off := empty_dirent (Z.to_nat (di_size (i_d ip) / SIZEOF_DIRENT) + 2) dp 0 in
      let! nm := of_opt (strncpy (replicate DIRSIZ 0) name DIRSIZ) in
      let! r := writei dp (dirent_bytes inum nm) off SIZEOF_DIRENT in
      if decide (r ≠ SIZEOF_DIRENT) then panic "dirlink" else ret 0
  end.

(** ** Paths *)
Context (cwd : nat).
(** The loop of namex; [name] is the caller's buffer. *)
Fixpoint namex_from (fuel : nat) (ip : nat) (path : list Z) (parent : bool) (name : list Z)
    : F (option nat * list Z) :=
  match fuel with
  | O => diverge
  | Datatypes.S fuel' =>
      let! r := of_opt (skipelem path name) in
      match r with
      | None => if parent then iput ip ;;; ret (None, name) else ret (Some ip, name)
      | Some (path, name) =>
          ilock (Some ip) ;;;
          let! p := the_inode ip in
          if decide (di_type (i_d p) ≠ T_DIR) then iunlockput ip ;;; ret (None, name)
          else if parent && bool_decide (path !! 0%nat = Some 0) then
            iunlock (Some ip) ;;; ret (Some ip, name)
          else
            let! next := dirlookup ip name in
            match next with
            | None => iunlockput ip ;;; ret (None, name)
            | Some (next, _) => iunlockput ip ;;; namex_from fuel' next path parent name
            end
      end
  end.
Definition namex (path : list Z) (parent : bool) (name : list Z) : F (option nat * list Z) :=
  let! c := of_opt (path !! 0%nat) in
  let! ip := (if decide (c = 47) then iget ROOTDEV ROOTINO else idup cwd) in
  namex_from (length path + 1) ip path parent name.
Definition namei (path : list Z) : F (option nat) :=
  let! r := namex path false (replicate DIRSIZ 0) in ret r.1.
Definition nameiparent (path name : list Z) : F (option nat * list Z) := namex path true name.

(** chown, inside the transaction that begin_op and end_op delimit; the line it
    prints first is left out. *)
Context (begin_op end_op : F unit).
Definition chown (pathname : list Z) (owner group : Z) : F Z :=
  begin_op ;;;
  let! r := namei pathname in
  match r with
  | None => end_op ;;; ret (-1)
  | Some i =>
      ilock (Some i) ;;;
      upd_inode i (λ ip, set_i_d (set_di_owner (u32 owner) (u32 group) (i_d ip)) ip) ;;;
      iupdate i ;;;
      iunlockput i ;;;
      end_op ;;;
      ret 0
  end.
End fs.
