(* ===== verification/FsBlocks.v ===== *)
(** * The block allocator: the free map and balloc, bfree *)

From S2P Require Import Prelude CString Words ProcData Sync Block Log Tx Fs.
Local Open Scope Z_scope.

Implicit Types (x y : list Z).

(** ** Bits of a block of the free map *)
Definition bit (x : list Z) (bi : Z) : bool := Z.testbit (nth (Z.to_nat (bi / 8)) x 0) (bi mod 8).

Lemma byte_index x bi : is_block x → 0 ≤ bi < BPB →
  (Z.to_nat (bi / 8) < length x)%nat ∧ 0 ≤ bi mod 8 < 8.
Proof.
  unfold is_block, BPB, BSIZE. intros Hx Hb. pose proof (Z.mod_pos_bound bi 8).
  assert (bi / 8 < 512) by (apply Z.div_lt_upper_bound; lia).
  assert (0 ≤ bi / 8) by (apply Z.div_pos; lia). split; lia.
Qed.
Lemma land_bit c k : 0 ≤ k → Z.land c (Z.shiftl 1 k) = 0 ↔ Z.testbit c k = false.
Proof.
  intros Hk. rewrite Z.shiftl_1_l. split; intros H.
  - assert (Z.testbit (Z.land c (2 ^ k)) k = false) as Ht by (rewrite H; apply Z.bits_0).
    rewrite Z.land_spec, Z.pow2_bits_true, andb_true_r in Ht; done.
  - apply Z.bits_inj. intros j. rewrite Z.land_spec, Z.bits_0.
    destruct (decide (j = k)) as [->|Hj]; [by rewrite H|].
    rewrite Z.pow2_bits_false by lia. apply andb_false_r.
Qed.

Lemma free_bit_spec n x bi :
  is_block x → 0 ≤ bi → bi + Z.of_nat n ≤ BPB →
  match free_bit n x bi with
  | None => False
  | Some None => ∀ bj, bi ≤ bj < bi + Z.of_nat n → bit x bj = true
  | Some (Some bk) => bi ≤ bk < bi + Z.of_nat n ∧ bit x bk = false ∧ ∀ bj, bi ≤ bj < bk → bit x bj = true
  end.
Proof.
  intros Hx. revert bi. induction n as [|n IH]; intros bi Hb Hn; cbn [free_bit]; [lia|].
  destruct (byte_index x bi Hx) as [Hi Hk]; [lia|].
  destruct (lookup_lt_is_Some_2 x _ Hi) as [c Hc]. rewrite Hc. cbn [mbind option_bind].
  assert (bit x bi = Z.testbit c (bi mod 8)) as Hbit by (unfold bit; by rewrite nth_lookup, Hc).
  destruct (decide (Z.land c (Z.shiftl 1 (bi mod 8)) = 0)) as [Hz|Hz].
  - apply land_bit in Hz; [|lia]. split_and!; [lia|lia|by rewrite Hbit|]. lia.
  - assert (bit x bi = true) as Hone.
    { rewrite Hbit. destruct (Z.testbit c (bi mod 8)) eqn:Ht; [done|]. apply land_bit in Ht; [done|lia]. }
    specialize (IH (bi + 1) ltac:(lia) ltac:(lia)). destruct (free_bit n x (bi + 1)) as [[bk|]|]; [| |done].
    + destruct IH as (H1 & H2 & H3). split_and!; [lia|lia|done|]. intros bj Hj.
      destruct (decide (bj = bi)) as [->|]; [done|]. apply H3. lia.
    + intros bj Hj. destruct (decide (bj = bi)) as [->|]; [done|]. apply IH. lia.
Qed.

(** Setting or clearing one bit. *)
Lemma bit_insert x bi bj w :
  is_block x → 0 ≤ bi < BPB → 0 ≤ bj < BPB →
  bit (<[Z.to_nat (bi / 8) := u8 w]> x) bj =
  if decide (bj / 8 = bi / 8) then Z.testbit w (bj mod 8) else bit x bj.
Proof.
  intros Hx Hi Hj. destruct (byte_index x bi Hx Hi) as [Hi1 Hi2]. destruct (byte_index x bj Hx Hj) as [Hj1 Hj2].
  unfold bit. rewrite !nth_lookup. case_decide as Hd.
  - rewrite Hd, list_lookup_insert_eq by done. simpl. unfold u8. apply Z.mod_pow2_bits_low. lia.
  - rewrite list_lookup_insert_ne; [done|]. intros Heq. apply Hd.
    assert (0 ≤ bi / 8) by (apply Z.div_pos; lia). assert (0 ≤ bj / 8) by (apply Z.div_pos; lia). lia.
Qed.
Lemma same_bit bi bj : bj / 8 = bi / 8 → bj mod 8 = bi mod 8 → bj = bi.
Proof. intros. rewrite (Z.div_mod bi 8), (Z.div_mod bj 8) by lia. lia. Qed.

Lemma set_bit_spec x bi : is_block x → 0 ≤ bi < BPB →
  ∃ y, set_bit x bi = Some y ∧ is_block y ∧
    ∀ bj, 0 ≤ bj < BPB → bit y bj = bit x bj || bool_decide (bj = bi).
Proof.
  intros Hx Hi. destruct (byte_index x bi Hx Hi) as [Hi1 Hi2].
  destruct (lookup_lt_is_Some_2 x _ Hi1) as [c Hc]. unfold set_bit. rewrite Hc. eexists. split_and!; [done| |].
  - unfold is_block. by rewrite length_insert.
  - intros bj Hj. rewrite bit_insert by done. case_decide as Hd.
    + assert (bit x bj = Z.testbit c (bj mod 8)) as -> by (unfold bit; by rewrite Hd, nth_lookup, Hc).
      rewrite Z.lor_spec, Z.shiftl_1_l. f_equal. case_bool_decide as He.
      * subst. apply Z.pow2_bits_true. lia.
      * apply Z.pow2_bits_false. intros Heq. apply He. by apply same_bit.
    + rewrite bool_decide_false; [by rewrite orb_false_r|]. by intros ->.
Qed.
Lemma clear_bit_spec x bi : is_block x → 0 ≤ bi < BPB →
  ∃ y, clear_bit x bi = Some y ∧ is_block y ∧
    ∀ bj, 0 ≤ bj < BPB → bit y bj = bit x bj && negb (bool_decide (bj = bi)).
Proof.
  intros Hx Hi. destruct (byte_index x bi Hx Hi) as [Hi1 Hi2].
  destruct (lookup_lt_is_Some_2 x _ Hi1) as [c Hc]. unfold clear_bit. rewrite Hc. eexists. split_and!; [done| |].
  - unfold is_block. by rewrite length_insert.
  - intros bj Hj. rewrite bit_insert by done. case_decide as Hd.
    + assert (bit x bj = Z.testbit c (bj mod 8)) as -> by (unfold bit; by rewrite Hd, nth_lookup, Hc).
      rewrite Z.ldiff_spec, Z.shiftl_1_l. f_equal. f_equal. case_bool_decide as He.
      * subst. apply Z.pow2_bits_true. lia.
      * apply Z.pow2_bits_false. intros Heq. apply He. by apply same_bit.
    + rewrite bool_decide_false; [by rewrite andb_true_r|]. by intros ->.
Qed.

(** ** The layout of the disk, as mkfs makes it *)
Definition data_start (sb : superblock) : Z := sb_bmapstart sb + sb_size sb / BPB + 1.
Record layout (sb : superblock) (v : tview) : Prop := mkly {
  ly_size : sb_size sb ≤ t_size v;
  ly_bound : t_size v < 2 ^ 31;
  ly_lo : 2 ≤ t_lo v ≤ t_hi v;
  ly_log : t_hi v ≤ sb_inodestart sb;
  ly_ninodes : 1 < sb_ninodes sb;
  ly_inodes : sb_inodestart sb + sb_ninodes sb / IPB < sb_bmapstart sb;
  ly_data : data_start sb ≤ sb_size sb;
  ly_super : sb_of_bytes (t_cur v 1) = Some sb
}.
(** A block is in use. *)
Definition used (sb : superblock) (cur : Z → block) (b : Z) : bool := bit (cur (BBLOCK b sb)) (b mod BPB).
Definition is_data (sb : superblock) (b : Z) : Prop := data_start sb ≤ b < sb_size sb.

Section layout.
Context (sb : superblock) (v : tview) (Hly : layout sb v).
Lemma bmapstart_pos : t_hi v ≤ sb_bmapstart sb ∧ 2 ≤ sb_bmapstart sb < 2 ^ 31 ∧ 0 < sb_size sb < 2 ^ 31.
Proof.
  destruct Hly as [Hs Hb Hlo Hlog Hni Hin Hd _]. unfold data_start in Hd.
  assert (0 ≤ sb_ninodes sb / IPB) by (change IPB with 4; apply Z.div_pos; lia).
  assert (0 < sb_size sb).
  { destruct (decide (0 < sb_size sb)); [done|].
    assert (sb_size sb ≤ sb_size sb / BPB); [|lia]. unfold BPB, BSIZE.
    pose proof (Z.div_mod (sb_size sb) (512 * 8)). pose proof (Z.mod_pos_bound (sb_size sb) (512 * 8)). lia. }
  assert (0 ≤ sb_size sb / BPB) by (apply Z.div_pos; unfold BPB, BSIZE; lia). lia.
Qed.
Lemma BBLOCK_range b : 0 ≤ b < sb_size sb →
  BBLOCK b sb = b / BPB + sb_bmapstart sb ∧ sb_bmapstart sb ≤ BBLOCK b sb < data_start sb.
Proof.
  intros Hb. destruct bmapstart_pos as (H1 & H2 & H3). destruct Hly as [Hs Hbd Hlo Hlog Hni Hin Hd _].
  assert (0 ≤ b / BPB) by (apply Z.div_pos; unfold BPB, BSIZE; lia).
  assert (b / BPB ≤ sb_size sb / BPB) by (apply Z.div_le_mono; unfold BPB, BSIZE; lia).
  unfold data_start in *. unfold BBLOCK. rewrite u32_small by lia. lia.
Qed.
Lemma BBLOCK_ours b : 0 ≤ b < sb_size sb → t_ours v (BBLOCK b sb).
Proof.
  intros Hb. destruct (BBLOCK_range b Hb). destruct bmapstart_pos. destruct Hly. unfold t_ours. lia.
Qed.
Lemma data_ours b : is_data sb b → t_ours v b.
Proof.
  intros [H1 H2]. destruct bmapstart_pos as (? & ? & ?). unfold data_start in *. destruct Hly.
  assert (0 ≤ sb_size sb / BPB) by (apply Z.div_pos; unfold BPB, BSIZE; lia). unfold t_ours. lia.
Qed.
Lemma data_not_map b b' : is_data sb b → 0 ≤ b' < sb_size sb → b ≠ BBLOCK b' sb.
Proof. intros [H1 H2] Hb' ->. destruct (BBLOCK_range b' Hb'). lia. Qed.
Lemma data_small b : is_data sb b → 2 < b < 2 ^ 31.
Proof.
  intros [H1 H2]. destruct bmapstart_pos as (? & ? & ?). unfold data_start in *.
  assert (0 ≤ sb_size sb / BPB) by (apply Z.div_pos; unfold BPB, BSIZE; lia). lia.
Qed.
Lemma super_ours : t_ours v 1.
Proof.
  destruct bmapstart_pos as (? & ? & ?). pose proof Hly as [Hs _ Hlo _ _ _ Hd _]. unfold data_start in Hd.
  assert (0 ≤ sb_size sb / BPB) by (apply Z.div_pos; unfold BPB, BSIZE; lia). unfold t_ours. lia.
Qed.
End layout.

(** The layout depends on the super block only. *)
Lemma layout_mono sb v v' :
  layout sb v → t_size v' = t_size v → t_lo v' = t_lo v → t_hi v' = t_hi v → t_cur v' 1 = t_cur v 1 → layout sb v'.
Proof. intros [] H1 H2 H3 H4. split; rewrite ?H1, ?H2, ?H3, ?H4; done. Qed.

(** ** Block reads and updates *)
(** The block [n] now holds [x], as part of the transaction. *)
Definition t_put (n : Z) (x : block) (v : tview) : tview :=
  mktview (t_size v) (t_lo v) (t_hi v) (<[n := x]> (t_cur v)) (t_held v) ({[n]} ∪ t_logged v) (t_cap v)
    (t_loose v ∖ {[n]}).
Lemma drop_hold b n v : t_drop b n (t_hold b n v) = v.
Proof. unfold t_drop, t_hold. cbn [t_held t_size t_lo t_hi t_cur t_logged t_cap t_loose]. rewrite remove1_head. by destruct v. Qed.
Lemma put_eq b n x v : t_drop b n (t_log n (t_store n x (t_hold b n v))) = t_put n x v.
Proof.
  unfold t_drop, t_log, t_store, t_hold, t_put. cbn [t_held t_size t_lo t_hi t_cur t_logged t_cap t_loose].
  rewrite remove1_head. f_equal. set_solver.
Qed.

Section blocks.
Context {S : Type} `{TxLaws S} (E : string → Prop).
Implicit Types (s : fstate S) (v : tview).

Lemma wp_fio {A} (m : M S A) Q s : wp E m (λ a c, Q a (set_f_io c s)) (f_io s) → wp E (fio m) Q s.
Proof. apply wp_zoom. Qed.

Lemma wp_hold {A} n s v (k : nat → M (fstate S) A) Q :
  tv [] (f_io s) v → t_ours v n → n ∉ (t_held v).*2 → (size (t_logged v) + length (t_held v) < NBUF)%nat →
  (∀ b c', b ∉ (t_held v).*1 → tv [] c' (t_hold b n v) → wp E (k b) Q (set_f_io c' s)) →
  wp E (let! bp := fio (tx_bread ROOTDEV n) in k bp) Q s.
Proof.
  intros Hv Hn Hh Hs HQ. apply wp_bind, wp_fio. eapply tx_bread_law; [exact Hv|set_solver|done|done|done|].
  intros b c' Hb Hv'. by apply HQ.
Qed.
Lemma wp_peek {A} b n s v (k : block → M (fstate S) A) Q :
  tv [] (f_io s) v → (b, n) ∈ t_held v → wp E (k (t_cur v n)) Q s →
  wp E (let! x := fio (tx_data b) in k x) Q s.
Proof.
  intros Hv Hin HQ. apply wp_bind, wp_fio. eapply tx_data_law; [exact Hv|exact Hin|]. by destruct s.
Qed.
Lemma wp_drop b n s v Q :
  tv [] (f_io s) (t_hold b n v) → n ∉ t_loose v → (∀ c', tv [] c' v → Q tt (set_f_io c' s)) →
  wp E (fio (tx_brelse b)) Q s.
Proof.
  intros Hv Hl HQ. apply wp_fio. eapply tx_brelse_law; [exact Hv|set_solver|set_solver|by left|done|].
  intros c'. rewrite drop_hold. apply HQ.
Qed.
(** Change a held block, log it and release it. *)
Lemma wp_put {A} b n x s v (k : M (fstate S) A) Q :
  tv [] (f_io s) (t_hold b n v) → is_block x → t_ours v n → (size (t_logged v) < t_cap v)%nat →
  (∀ c', tv [] c' (t_put n x v) → wp E k Q (set_f_io c' s)) →
  wp E (fio (tx_store b x) ;;; fio (tx_log_write b) ;;; fio (tx_brelse b) ;;; k) Q s.
Proof.
  intros Hv Hx Hn Hs HQ. apply wp_bind, wp_fio. eapply tx_store_law; [exact Hv|by left|done|]. intros c1 Hv1.
  apply wp_bind, wp_fio. eapply tx_log_write_law; [exact Hv1|by left|done|done|]. intros c2 Hv2.
  apply wp_bind, wp_fio. eapply tx_brelse_law; [exact Hv2|set_solver|set_solver|by left|set_solver|].
  intros c3. rewrite put_eq. apply HQ.
Qed.
Lemma wp_put_last b n x s v Q :
  tv [] (f_io s) (t_hold b n v) → is_block x → t_ours v n → (size (t_logged v) < t_cap v)%nat →
  (∀ c', tv [] c' (t_put n x v) → Q tt (set_f_io c' s)) →
  wp E (fio (tx_store b x) ;;; fio (tx_log_write b) ;;; fio (tx_brelse b)) Q s.
Proof.
  intros Hv Hx Hn Hs HQ. apply wp_bind, wp_fio. eapply tx_store_law; [exact Hv|by left|done|]. intros c1 Hv1.
  apply wp_bind, wp_fio. eapply tx_log_write_law; [exact Hv1|by left|done|done|]. intros c2 Hv2.
  apply wp_fio. eapply tx_brelse_law; [exact Hv2|set_solver|set_solver|by left|set_solver|].
  intros c3. rewrite put_eq. apply HQ.
Qed.

Definition zeros : block := replicate 512 0.
Lemma zeros_block : is_block zeros.
Proof. done. Qed.
Lemma memset_zeros x : is_block x → memset 0 x 0 512 = Some zeros.
Proof.
  unfold is_block, BSIZE. intros Hx. unfold memset, stosl. rewrite decide_True by done.
  rewrite decide_True by (change (4 * (512 / 4))%nat with 512%nat; lia).
  rewrite drop_ge by (change (4 * (512 / 4))%nat with 512%nat; lia). rewrite app_nil_r.
  reflexivity.
Qed.

Lemma wp_bzero n s v Q :
  tv [] (f_io s) v → t_ours v n → n ∉ (t_held v).*2 →
  (size (t_logged v) + length (t_held v) < NBUF)%nat → (size (t_logged v) < t_cap v)%nat →
  (∀ c', tv [] c' (t_put n zeros v) → Q tt (set_f_io c' s)) →
  wp E (bzero ROOTDEV n) Q s.
Proof.
  intros Hv Hn Hh Hs1 Hs2 HQ. unfold bzero. eapply wp_hold; try done. intros b c1 Hb Hv1.
  eapply wp_peek; [exact Hv1|by left|]. apply wp_bind. eapply wp_of_opt.
  { apply memset_zeros. exact (tv_blocks _ _ _ _ Hv Hn). }
  eapply wp_put_last; [exact Hv1|apply zeros_block|done|done|]. intros c2 Hv2. by apply HQ.
Qed.

Lemma wp_fs_readsb sb s v Q :
  layout sb v → tv [] (f_io s) v → 1 ∉ (t_held v).*2 → t_loose v = ∅ →
  (size (t_logged v) + length (t_held v) < NBUF)%nat →
  (∀ c', tv [] c' v → Q tt (mkfs sb (f_inode s) c')) →
  wp E (fs_readsb ROOTDEV) Q s.
Proof.
  intros Hly Hv Hh Hl Hs HQ. unfold fs_readsb. eapply wp_hold; try done; [by eapply super_ours|].
  intros b c1 Hb Hv1. eapply wp_peek; [exact Hv1|by left|]. apply wp_bind.
  eapply wp_of_opt; [apply Hly|]. apply wp_bind, wp_modS.
  eapply wp_drop; [exact Hv1|rewrite Hl; set_solver|]. intros c2 Hv2. by apply HQ.
Qed.

(** What the caller of balloc and bfree has: the layout, the metadata in use, and
    held blocks that are data blocks in use. *)
Record fs_blocks (sb : superblock) (v : tview) : Prop := mkfb {
  fb_layout : layout sb v;
  fb_meta : ∀ b, 0 ≤ b < data_start sb → used sb (t_cur v) b = true;
  fb_held : ∀ n, n ∈ (t_held v).*2 → is_data sb n ∧ used sb (t_cur v) n = true;
  fb_loose : t_loose v = ∅
}.

Lemma map_block_free sb v b : fs_blocks sb v → 0 ≤ b < sb_size sb → BBLOCK b sb ∉ (t_held v).*2.
Proof.
  intros Hfb Hb Hin. destruct (fb_held _ _ Hfb _ Hin) as [Hd _].
  eapply (data_not_map _ _ (fb_layout _ _ Hfb)); [exact Hd|exact Hb|done].
Qed.

(** One bit of the map changed. *)
Lemma used_put sb v (cur : Z → block) b (y : block) (f : bool → bool) :
  layout sb v → 0 ≤ b < sb_size sb →
  (∀ bj, 0 ≤ bj < BPB → bit y bj = if bool_decide (bj = b mod BPB) then f (bit (cur (BBLOCK b sb)) bj)
                                    else bit (cur (BBLOCK b sb)) bj) →
  ∀ b', 0 ≤ b' < sb_size sb →
  used sb (<[BBLOCK b sb := y]> cur) b' = if bool_decide (b' = b) then f (used sb cur b') else used sb cur b'.
Proof.
  intros Hly Hb Hy b' Hb'. destruct (BBLOCK_range _ _ Hly b Hb) as [He _].
  destruct (BBLOCK_range _ _ Hly b' Hb') as [He' _]. unfold used.
  assert (0 ≤ b' mod BPB < BPB) by (apply Z.mod_pos_bound; unfold BPB, BSIZE; lia).
  destruct (decide (BBLOCK b sb = BBLOCK b' sb)) as [Hbb|Hne].
  - rewrite <- Hbb, fn_lookup_insert, Hy by done. rewrite (bool_decide_ext _ (b' = b)); [done|].
    split; [|by intros ->]. intros Hm. rewrite (Z.div_mod b BPB), (Z.div_mod b' BPB) by (unfold BPB, BSIZE; lia).
    rewrite Hm. f_equal. f_equal. lia.
  - rewrite fn_lookup_insert_ne by done. rewrite bool_decide_false; [done|]. by intros ->.
Qed.

(** The block [b], the first free one, is zeroed and marked. *)
Record allocated (sb : superblock) (v : tview) (b : Z) (v' : tview) : Prop := mkal {
  al_data : is_data sb b;
  al_free : used sb (t_cur v) b = false;
  al_first : ∀ b', 0 ≤ b' < b → used sb (t_cur v) b' = true;
  al_put : ∃ y, is_block y ∧ v' = t_put b zeros (t_put (BBLOCK b sb) y v);
  al_used : ∀ b', 0 ≤ b' < sb_size sb →
    used sb (t_cur v') b' = used sb (t_cur v) b' || bool_decide (b' = b)
}.

Lemma size_put n x v : (size (t_logged (t_put n x v)) ≤ Datatypes.S (size (t_logged v)))%nat.
Proof.
  cbn [t_logged t_put]. rewrite size_union_alt, size_singleton.
  assert (size (t_logged v ∖ {[n]}) ≤ size (t_logged v))%nat by (apply subseteq_size; set_solver). lia.
Qed.

Lemma wp_take_block sb v s b0 bi bp (y : block) Q :
  fs_blocks sb v → let b := b0 + bi in is_data sb b →
  used sb (t_cur v) b = false → (∀ b', 0 ≤ b' < b → used sb (t_cur v) b' = true) →
  tv [] (f_io s) (t_hold bp (BBLOCK b sb) v) → is_block y →
  (∀ bj, 0 ≤ bj < BPB → bit y bj = bit (t_cur v (BBLOCK b sb)) bj || bool_decide (bj = b mod BPB)) →
  (size (t_logged v) + length (t_held v) + 1 < NBUF)%nat → (size (t_logged v) + 1 < t_cap v)%nat →
  (∀ v' c', allocated sb v b v' → tv [] c' v' → Q b (set_f_io c' s)) →
  wp E (fio (tx_store bp y) ;;; fio (tx_log_write bp) ;;; fio (tx_brelse bp) ;;;
        bzero ROOTDEV b ;;; ret b) Q s.
Proof.
  intros Hfb b Hd Hfree Hfirst Hv1 Hy Hyb Hs1 Hs2 HQ. pose proof Hfb as [Hly Hm Hh Hl].
  pose proof (data_ours _ _ Hly _ Hd) as Hours. pose proof (data_small _ _ Hly _ Hd) as Hsm.
  assert (0 ≤ b < sb_size sb) as Hb by (destruct Hd; lia).
  pose proof (BBLOCK_ours _ _ Hly _ Hb) as Hbo.
  eapply wp_put; [exact Hv1|exact Hy|exact Hbo|lia|]. intros c2 Hv2.
  pose proof (size_put (BBLOCK b sb) y v) as Hsp.
  apply wp_bind. eapply wp_bzero; [exact Hv2|exact Hours| |cbn [t_held t_put] in *; lia|cbn [t_cap t_put] in *; lia|].
  { cbn [t_held t_put]. intros Hin. destruct (Hh _ Hin) as [_ Hu]. congruence. }
  intros c3 Hv3. apply wp_ret. eapply (HQ _ c3); [|exact Hv3]. split; [done|done|done|by eexists|].
  intros b' Hb'. cbn [t_cur t_put].
  assert (used sb (<[b := zeros]> (<[BBLOCK b sb := y]> (t_cur v))) b' = used sb (<[BBLOCK b sb := y]> (t_cur v)) b') as ->.
  { unfold used. rewrite fn_lookup_insert_ne; [done|]. by eapply data_not_map. }
  rewrite (used_put sb v _ b y (λ _, true) Hly Hb); [| |done].
  2:{ intros bj Hj. rewrite Hyb by done. case_bool_decide; [by rewrite orb_true_r|by rewrite orb_false_r]. }
  case_bool_decide; [by rewrite orb_true_r|by rewrite orb_false_r].
Qed.

Lemma wp_balloc_from sb v fuel b s Q :
  f_sb s = sb → fs_blocks sb v → tv [] (f_io s) v →
  b mod BPB = 0 → 0 ≤ b → sb_size sb ≤ b + (Z.of_nat fuel - 1) * BPB → (0 < fuel)%nat →
  (∀ b', 0 ≤ b' < b → b' < sb_size sb → used sb (t_cur v) b' = true) →
  (size (t_logged v) + length (t_held v) + 1 < NBUF)%nat → (size (t_logged v) + 1 < t_cap v)%nat →
  (∀ b v' c', allocated sb v b v' → tv [] c' v' → Q b (set_f_io c' s)) →
  ((∀ b, 0 ≤ b < sb_size sb → used sb (t_cur v) b = true) → E "balloc: out of blocks") →
  wp E (balloc_from fuel ROOTDEV b) Q s.
Proof.
  revert b s. induction fuel as [|fuel IH]; intros b s Hsb Hfb Hv Hmod Hb Hfuel Hf0 Hlow Hs1 Hs2 HQ HE; [lia|].
  cbn [balloc_from]. apply wp_bind, wp_gets. rewrite Hsb. destruct (decide (b < sb_size sb)) as [Hlt|Hge].
  2:{ apply HE. intros b' Hb'. apply Hlow; lia. }
  pose proof (fb_layout _ _ Hfb) as Hly. assert (BPB = 4096) as HBPB by done.
  eapply wp_hold; [exact Hv|by apply (BBLOCK_ours _ _ Hly)|by eapply map_block_free|lia|]. intros bp c1 Hbp Hv1.
  eapply wp_peek; [exact Hv1|by left|]. cbn [t_cur t_hold].
  pose proof (tv_blocks _ _ _ _ Hv (BBLOCK_ours _ _ Hly b ltac:(lia))) as Hblk.
  set (x := t_cur v (BBLOCK b sb)) in *. set (n := Z.to_nat (Z.min BPB (sb_size sb - b))).
  assert (Z.of_nat n = Z.min BPB (sb_size sb - b)) as Hn by (unfold n; lia).
  assert (∀ bi, 0 ≤ bi < Z.of_nat n → BBLOCK (b + bi) sb = BBLOCK b sb ∧ (b + bi) mod BPB = bi) as Hin.
  { intros bi Hbi. destruct (BBLOCK_range _ _ Hly (b + bi)) as [-> _]; [lia|].
    destruct (BBLOCK_range _ _ Hly b) as [-> _]; [lia|].
    rewrite (Z.div_mod b BPB), Hmod, Z.add_0_r, (Z.mul_comm BPB) by lia.
    rewrite Z.div_add_l, Z.div_mul, (Z.div_small bi) by lia. split; [lia|].
    rewrite Z.add_comm, Z.mod_add by lia. apply Z.mod_small. lia. }
  pose proof (free_bit_spec n x 0 Hblk ltac:(lia) ltac:(lia)) as Hfree.
  destruct (free_bit n x 0) as [[bi|]|] eqn:Hfb'; [| |done]; apply wp_bind; (eapply wp_of_opt; [done|]).
  - destruct Hfree as (Hbi & Hbit & Hbl). destruct (Hin bi) as [HB HM]; [lia|].
    destruct (set_bit_spec x bi Hblk) as (y & Hy & Hyb & Hys); [lia|].
    apply wp_bind. eapply wp_of_opt; [exact Hy|].
    assert (∀ b', 0 ≤ b' < b + bi → used sb (t_cur v) b' = true) as Hfst.
    { intros b' Hb'. destruct (decide (b' < b)); [apply Hlow; lia|].
      destruct (Hin (b' - b)) as [HB' HM']; [lia|]. replace (b + (b' - b)) with b' in * by lia.
      unfold used. rewrite HB', HM'. apply Hbl. lia. }
    assert (used sb (t_cur v) (b + bi) = false) as Hnu by (unfold used; by rewrite HB, HM).
    eapply (wp_take_block sb v _ b bi bp y); [done| |done|done|by rewrite HB|done| |lia|lia|].
    + split; [|lia]. destruct (decide (data_start sb ≤ b + bi)); [done|].
      rewrite (fb_meta _ _ Hfb) in Hnu; [done|lia].
    + intros bj Hj. rewrite Hys by done. by rewrite HB, HM.
    + intros v' c' Hal Hv'. exact (HQ _ v' c' Hal Hv').
  - apply wp_bind. eapply wp_drop; [exact Hv1|rewrite (fb_loose _ _ Hfb); set_solver|]. intros c2 Hv2.
    apply IH; try done; [| |lia| |].
    + rewrite Z.add_mod, Hmod, Z.mod_same by lia. done.
    + lia.
    + destruct fuel; [|lia]. simpl in Hfuel. lia.
    + intros b' Hb' Hbs. destruct (decide (b' < b)); [apply Hlow; lia|].
      destruct (Hin (b' - b)) as [HB' HM']; [lia|]. replace (b + (b' - b)) with b' in * by lia.
      unfold used. rewrite HB', HM'. apply Hfree. lia.
Qed.

Lemma wp_balloc sb v s Q :
  f_sb s = sb → fs_blocks sb v → tv [] (f_io s) v →
  (size (t_logged v) + length (t_held v) + 1 < NBUF)%nat → (size (t_logged v) + 1 < t_cap v)%nat →
  (∀ b v' c', allocated sb v b v' → tv [] c' v' → Q b (set_f_io c' s)) →
  ((∀ b, 0 ≤ b < sb_size sb → used sb (t_cur v) b = true) → E "balloc: out of blocks") →
  wp E (balloc ROOTDEV) Q s.
Proof.
  intros Hsb Hfb Hv Hs1 Hs2 HQ HE. unfold balloc. apply wp_bind, wp_gets. rewrite Hsb.
  destruct (bmapstart_pos _ _ (fb_layout _ _ Hfb)) as (_ & _ & Hsz).
  eapply wp_balloc_from; try done; [|lia|lia].
  pose proof (Z.div_mod (sb_size sb) BPB). pose proof (Z.mod_pos_bound (sb_size sb) BPB).
  assert (0 ≤ sb_size sb / BPB) by (apply Z.div_pos; unfold BPB, BSIZE; lia). unfold BPB, BSIZE in *. lia.
Qed.

(** The block [b] is marked free again. *)
Record freed (sb : superblock) (v : tview) (b : Z) (v' : tview) : Prop := mkfr {
  fr_put : ∃ y, is_block y ∧ v' = t_put (BBLOCK b sb) y v;
  fr_used : ∀ b', 0 ≤ b' < sb_size sb →
    used sb (t_cur v') b' = used sb (t_cur v) b' && negb (bool_decide (b' = b))
}.

Lemma wp_bfree sb v b s Q :
  fs_blocks sb v → tv [] (f_io s) v → 0 ≤ b < sb_size sb →
  (size (t_logged v) + length (t_held v) < NBUF)%nat → (size (t_logged v) < t_cap v)%nat →
  (∀ v' c', used sb (t_cur v) b = true → freed sb v b v' → tv [] c' v' → Q tt (mkfs sb (f_inode s) c')) →
  (used sb (t_cur v) b = false → E "freeing free block") →
  wp E (bfree ROOTDEV b) Q s.
Proof.
  intros Hfb Hv Hb Hs1 Hs2 HQ HE. pose proof Hfb as [Hly Hm Hh Hl].
  pose proof (bmapstart_pos _ _ Hly) as Hpos. pose proof (BBLOCK_range _ _ Hly b Hb) as [_ Hbr].
  assert (1 ∉ (t_held v).*2) as H1.
  { intros Hin. destruct (Hh _ Hin) as [Hd _]. pose proof (data_small _ _ Hly _ Hd). lia. }
  unfold bfree. apply wp_bind. eapply wp_fs_readsb; try done. intros c1 Hv1.
  apply wp_bind, wp_gets. cbn [f_sb].
  eapply wp_hold; [exact Hv1|by apply (BBLOCK_ours _ _ Hly)|by eapply map_block_free|done|].
  intros bp c2 Hbp Hv2. eapply wp_peek; [exact Hv2|by left|]. cbn [t_cur t_hold].
  pose proof (tv_blocks _ _ _ _ Hv (BBLOCK_ours _ _ Hly b Hb)) as Hblk.
  assert (0 ≤ b mod BPB < BPB) as Hbm by (apply Z.mod_pos_bound; unfold BPB, BSIZE; lia).
  destruct (byte_index _ _ Hblk Hbm) as [Hi Hk].
  destruct (lookup_lt_is_Some_2 (t_cur v (BBLOCK b sb) : list Z) _ Hi) as [c Hc].
  assert (used sb (t_cur v) b = Z.testbit c ((b mod BPB) mod 8)) as Hu by (unfold used, bit; by rewrite nth_lookup, Hc).
  apply wp_bind. eapply wp_of_opt; [exact Hc|].
  destruct (decide (Z.land c (Z.shiftl 1 ((b mod BPB) mod 8)) = 0)) as [Hz|Hz].
  { apply HE. rewrite Hu. apply land_bit in Hz; [done|lia]. }
  assert (used sb (t_cur v) b = true) as Hut.
  { rewrite Hu. destruct (Z.testbit c _) eqn:Ht; [done|]. apply land_bit in Ht; [done|lia]. }
  destruct (clear_bit_spec _ _ Hblk Hbm) as (y & Hy & Hyb & Hys).
  apply wp_bind. eapply wp_of_opt; [exact Hy|].
  eapply wp_put_last; [exact Hv2|done|by apply (BBLOCK_ours _ _ Hly)|done|]. intros c3 Hv3.
  apply (HQ (t_put (BBLOCK b sb) y v) c3 Hut); [|exact Hv3]. split; [by exists y|]. intros b' Hb'. cbn [t_cur t_put].
  rewrite (used_put sb v _ b y (λ _, false) Hly Hb); [| |done].
  - case_bool_decide; [by rewrite andb_false_r|by rewrite andb_true_r].
  - intros bj Hj. rewrite Hys by done. case_bool_decide; [by rewrite andb_false_r|by rewrite andb_true_r].
Qed.

(** The invariant of the allocator survives both. *)
Lemma allocated_fields sb v b v' : allocated sb v b v' →
  t_size v' = t_size v ∧ t_lo v' = t_lo v ∧ t_hi v' = t_hi v ∧ t_held v' = t_held v ∧ t_cap v' = t_cap v ∧
  t_loose v' = t_loose v ∖ {[BBLOCK b sb]} ∖ {[b]} ∧
  (∀ n, n ≠ b → n ≠ BBLOCK b sb → t_cur v' n = t_cur v n) ∧ t_cur v' b = zeros ∧
  t_logged v' = {[b]} ∪ ({[BBLOCK b sb]} ∪ t_logged v).
Proof.
  intros [_ _ _ (y & _ & ->) _]. cbn. split_and!; try done.
  - intros n H1 H2. by rewrite !fn_lookup_insert_ne.
  - by rewrite fn_lookup_insert.
Qed.
Lemma allocated_blocks sb v b v' : fs_blocks sb v → allocated sb v b v' → fs_blocks sb v'.
Proof.
  intros [Hly Hm Hh Hl] Hal. pose proof (al_data _ _ _ _ Hal) as Hd.
  assert (0 ≤ b < sb_size sb) as Hb by (pose proof (data_small _ _ Hly _ Hd); destruct Hd; lia).
  destruct (BBLOCK_range _ _ Hly b Hb) as [_ HB]. pose proof (bmapstart_pos _ _ Hly) as Hp.
  destruct (allocated_fields _ _ _ _ Hal) as (E1 & E2 & E3 & E4 & E5 & E6 & E7 & E8 & E9).
  pose proof (data_small _ _ Hly _ Hd) as Hsm. split.
  - eapply layout_mono; [exact Hly|done|done|done|]. apply E7; lia.
  - intros b' Hb'. rewrite (al_used _ _ _ _ Hal), Hm by (destruct Hd; lia). done.
  - intros n. rewrite E4. intros Hn. destruct (Hh n Hn) as [Hnd Hnu]. split; [done|].
    pose proof (data_small _ _ Hly _ Hnd).
    rewrite (al_used _ _ _ _ Hal), Hnu by (destruct Hnd; lia). done.
  - rewrite E6, Hl. set_solver.
Qed.
Lemma freed_blocks sb v b v' : fs_blocks sb v → is_data sb b → b ∉ (t_held v).*2 → freed sb v b v' → fs_blocks sb v'.
Proof.
  intros [Hly Hm Hh Hl] Hd Hnh [(y & _ & ->) Hu].
  assert (0 ≤ b < sb_size sb) as Hb by (pose proof (data_small _ _ Hly _ Hd); destruct Hd; lia).
  destruct (BBLOCK_range _ _ Hly b Hb) as [_ HB]. pose proof (bmapstart_pos _ _ Hly) as Hp. split.
  - eapply layout_mono; [exact Hly|done|done|done|]. cbn [t_cur t_put]. rewrite fn_lookup_insert_ne by lia. done.
  - intros b' Hb'. rewrite Hu, Hm by (destruct Hd; lia). rewrite bool_decide_false by (destruct Hd; lia). done.
  - intros n Hn. cbn [t_held t_put] in Hn. destruct (Hh n Hn) as [Hnd Hnu]. split; [done|].
    pose proof (data_small _ _ Hly _ Hnd). rewrite Hu, Hnu by (destruct Hnd; lia).
    rewrite bool_decide_false by (intros ->; done). done.
  - cbn [t_loose t_put]. rewrite Hl. set_solver.
Qed.
End blocks.
