(* ===== verification/FsInode.v ===== *)
(** * Inodes: the disk format, and the cache with its references and locks *)

From S2P Require Import Prelude CString Words ProcData Sync Block Log Tx Fs FsBlocks.
Local Open Scope Z_scope.
Implicit Types (x y : list Z).

(** ** The disk format *)
Record dinode_ok (d : dinode) : Prop := mkdo {
  do_type : - 2 ^ 15 ≤ di_type d < 2 ^ 15;
  do_major : - 2 ^ 15 ≤ di_major d < 2 ^ 15;
  do_minor : - 2 ^ 15 ≤ di_minor d < 2 ^ 15;
  do_nlink : - 2 ^ 15 ≤ di_nlink d < 2 ^ 15;
  do_uid : 0 ≤ di_uid d < 2 ^ 32;
  do_gid : 0 ≤ di_gid d < 2 ^ 32;
  do_mode : 0 ≤ di_mode d < 2 ^ 32;
  do_size : 0 ≤ di_size d < 2 ^ 32;
  do_len : length (di_addrs d) = 26%nat;
  do_addrs : Forall (λ a, 0 ≤ a < 2 ^ 32) (di_addrs d)
}.

Lemma get_le_splice k x off l i :
  (off + length l ≤ length x)%nat → (i + k ≤ length l)%nat →
  get_le k (splice x off l) (off + i) = Some (le_combine (take k (drop i l))).
Proof.
  intros Hl Hi. unfold get_le. rewrite length_splice, decide_True by lia. do 2 f_equal.
  unfold splice. rewrite drop_app_ge by (rewrite length_take; lia).
  rewrite length_take, Nat.min_l by lia. replace (off + i - off)%nat with i by lia.
  rewrite drop_app_le by lia. rewrite take_app_le by (rewrite length_drop; lia). done.
Qed.
Lemma get_le_field k x off l1 w l2 :
  let l := l1 ++ le_split k w ++ l2 in
  (off + length l ≤ length x)%nat →
  get_le k (splice x off l) (off + length l1) = Some (w mod 256 ^ Z.of_nat k).
Proof.
  intros l Hl. rewrite get_le_splice; [|done|unfold l; rewrite !length_app, length_le_split; lia].
  unfold l. rewrite drop_app_length. rewrite take_app_le by (rewrite length_le_split; lia).
  rewrite firstn_all2 by (rewrite length_le_split; lia). by rewrite le_combine_split.
Qed.

Lemma length_words ws : length (concat (le_split 4 <$> ws)) = (4 * length ws)%nat.
Proof. induction ws as [|w ws IH]; [done|]. cbn [fmap list_fmap concat]. rewrite length_app, IH, length_le_split. simpl. lia. Qed.
Lemma length_dinode_bytes d : length (di_addrs d) = 26%nat → length (dinode_bytes d) = 128%nat.
Proof. intros Hl. unfold dinode_bytes. rewrite !length_app, !length_le_split, length_words, Hl. done. Qed.

Lemma s16_u16 z : - 2 ^ 15 ≤ z < 2 ^ 15 → s16 (z mod 256 ^ Z.of_nat 2) = z.
Proof.
  intros Hz. unfold s16. change (256 ^ Z.of_nat 2) with (2 ^ 16). rewrite Zplus_mod_idemp_l, Z.mod_small by lia. lia.
Qed.
Lemma word_small z : 0 ≤ z < 2 ^ 32 → z mod 256 ^ Z.of_nat 4 = z.
Proof. apply Z.mod_small. Qed.

Lemma get_words_splice x off l1 ws l2 :
  let l := l1 ++ concat (le_split 4 <$> ws) ++ l2 in
  (off + length l ≤ length x)%nat → Forall (λ a, 0 ≤ a < 2 ^ 32) ws →
  get_words (splice x off l) (off + length l1) (length ws) = Some ws.
Proof.
  intros l Hl Hws. unfold get_words. apply mapM_Some. apply Forall2_same_length_lookup_2.
  { by rewrite length_seq. }
  intros k j w Hj Hw. apply lookup_seq in Hj as [-> Hk]. rewrite Nat.add_0_l.
  pose proof Hws as Hall. rewrite Forall_lookup in Hall. specialize (Hall _ _ Hw).
  apply list_elem_of_split_length in Hw as (w1 & w2 & -> & ->). unfold l in *.
  rewrite fmap_app, concat_app in *. cbn [fmap list_fmap concat] in *.
  assert (l1 ++ (concat (le_split 4 <$> w1) ++ le_split 4 w ++ concat (le_split 4 <$> w2)) ++ l2 =
    (l1 ++ concat (le_split 4 <$> w1)) ++ le_split 4 w ++ (concat (le_split 4 <$> w2) ++ l2)) as Heq
    by (by rewrite <- !app_assoc).
  rewrite Heq in *. unfold get_word.
  replace (off + length l1 + 4 * length w1)%nat with (off + length (l1 ++ concat (le_split 4 <$> w1)))%nat
    by (rewrite length_app, length_words; lia).
  rewrite get_le_field by done. f_equal. by apply word_small.
Qed.

Lemma get_put_dinode x off d y :
  dinode_ok d → put_dinode x off d = Some y → get_dinode y off = Some d.
Proof.
  intros [H1 H2 H3 H4 H5 H6 H7 H8 H9 H10] Hp. unfold put_dinode in Hp.
  case_decide as Hlen; [|done]. injection Hp as <-.
  pose proof (length_dinode_bytes d H9) as Hl. rewrite <- Hl in Hlen.
  destruct d as [ty ma mi nl u g mo sz ad]. cbn [di_type di_major di_minor di_nlink di_uid di_gid di_mode di_size di_addrs] in *.
  unfold dinode_bytes in *. cbn [di_type di_major di_minor di_nlink di_uid di_gid di_mode di_size di_addrs] in *.
  set (p0 := le_split 2 ty) in *. set (p1 := le_split 2 ma) in *. set (p2 := le_split 2 mi) in *.
  set (p3 := le_split 2 nl) in *. set (p4 := le_split 4 u) in *. set (p5 := le_split 4 g) in *.
  set (p6 := le_split 4 mo) in *. set (p7 := le_split 4 sz) in *. set (p8 := concat (le_split 4 <$> ad)) in *.
  unfold get_dinode.
  assert (∀ k l1 w l2, p0 ++ p1 ++ p2 ++ p3 ++ p4 ++ p5 ++ p6 ++ p7 ++ p8 = l1 ++ le_split k w ++ l2 →
    get_le k (splice x off (p0 ++ p1 ++ p2 ++ p3 ++ p4 ++ p5 ++ p6 ++ p7 ++ p8)) (off + length l1) =
    Some (w mod 256 ^ Z.of_nat k)) as Hf.
  { intros k l1 w l2 Heq. rewrite Heq in *. by apply get_le_field. }
  pose proof (Hf 2%nat [] ty (p1 ++ p2 ++ p3 ++ p4 ++ p5 ++ p6 ++ p7 ++ p8) eq_refl) as F0.
  pose proof (Hf 2%nat p0 ma (p2 ++ p3 ++ p4 ++ p5 ++ p6 ++ p7 ++ p8) eq_refl) as F1.
  pose proof (Hf 2%nat (p0 ++ p1) mi (p3 ++ p4 ++ p5 ++ p6 ++ p7 ++ p8) eq_refl) as F2.
  pose proof (Hf 2%nat (p0 ++ p1 ++ p2) nl (p4 ++ p5 ++ p6 ++ p7 ++ p8) eq_refl) as F3.
  pose proof (Hf 4%nat (p0 ++ p1 ++ p2 ++ p3) u (p5 ++ p6 ++ p7 ++ p8) eq_refl) as F4.
  pose proof (Hf 4%nat (p0 ++ p1 ++ p2 ++ p3 ++ p4) g (p6 ++ p7 ++ p8) eq_refl) as F5.
  pose proof (Hf 4%nat (p0 ++ p1 ++ p2 ++ p3 ++ p4 ++ p5) mo (p7 ++ p8) eq_refl) as F6.
  pose proof (Hf 4%nat (p0 ++ p1 ++ p2 ++ p3 ++ p4 ++ p5 ++ p6) sz p8 eq_refl) as F7.
  assert (get_words (splice x off (p0 ++ p1 ++ p2 ++ p3 ++ p4 ++ p5 ++ p6 ++ p7 ++ p8)) (off + 24) 26 = Some ad) as F8.
  { rewrite <- H9. assert (p0 ++ p1 ++ p2 ++ p3 ++ p4 ++ p5 ++ p6 ++ p7 ++ p8 =
      (p0 ++ p1 ++ p2 ++ p3 ++ p4 ++ p5 ++ p6 ++ p7) ++ p8 ++ []) as Heq
      by (rewrite app_nil_r, <- !app_assoc; reflexivity).
    rewrite Heq in *. exact (get_words_splice x off (p0 ++ p1 ++ p2 ++ p3 ++ p4 ++ p5 ++ p6 ++ p7) ad [] Hlen H10). }
  change (length []) with 0%nat in F0. rewrite Nat.add_0_r in F0.
  change (length p0) with 2%nat in F1. change (length (p0 ++ p1)) with 4%nat in F2.
  change (length (p0 ++ p1 ++ p2)) with 6%nat in F3. change (length (p0 ++ p1 ++ p2 ++ p3)) with 8%nat in F4.
  change (length (p0 ++ p1 ++ p2 ++ p3 ++ p4)) with 12%nat in F5.
  change (length (p0 ++ p1 ++ p2 ++ p3 ++ p4 ++ p5)) with 16%nat in F6.
  change (length (p0 ++ p1 ++ p2 ++ p3 ++ p4 ++ p5 ++ p6)) with 20%nat in F7.
  unfold get_half, get_word. rewrite F0, F1, F2, F3, F4, F5, F6, F7, F8. cbn [mbind option_bind].
  rewrite !s16_u16, !word_small by done. done.
Qed.

Lemma mapM_ext_in {A B} (f g : A → option B) (l : list A) :
  (∀ a, a ∈ l → f a = g a) → mapM f l = mapM g l.
Proof.
  induction l as [|a l IH]; intros Hfg; [done|]. cbn [mapM]. rewrite Hfg by set_solver.
  rewrite IH by set_solver. done.
Qed.

(** Other inodes of the block are not touched. *)
Lemma get_dinode_other x off off' d y :
  length (di_addrs d) = 26%nat → put_dinode x off d = Some y → (off' + 128 ≤ off ∨ off + 128 ≤ off')%nat →
  get_dinode y off' = get_dinode x off'.
Proof.
  intros Hl Hp Hd. unfold put_dinode in Hp.
  destruct (decide (off + 128 ≤ length x)%nat) as [Hlen|]; [|discriminate Hp]. injection Hp as <-.
  pose proof (length_dinode_bytes d Hl) as Hlb.
  assert (∀ k i, (i + k ≤ 128)%nat → get_le k (splice x off (dinode_bytes d)) (off' + i) = get_le k x (off' + i)) as Hg.
  { intros k i Hi. unfold get_le. rewrite length_splice by lia.
    destruct (decide (off' + i + k ≤ length x)%nat); [|reflexivity]. do 2 f_equal.
    apply list_eq. intros j. destruct (decide (j < k)%nat).
    - rewrite !lookup_take_lt, !lookup_drop by assumption. apply lookup_splice_out; lia.
    - by rewrite !lookup_take_ge by lia. }
  assert (get_words (splice x off (dinode_bytes d)) (off' + 24) 26 = get_words x (off' + 24) 26) as Hw.
  { apply mapM_ext_in. intros k [_ Hk]%elem_of_seq. rewrite <- Nat.add_assoc. apply Hg. lia. }
  pose proof (Hg 2%nat 0%nat ltac:(lia)) as H0. rewrite Nat.add_0_r in H0.
  unfold get_dinode. rewrite Hw. unfold get_half, get_word. rewrite H0, !Hg by lia. done.
Qed.

(** ** Inodes on the disk *)
Definition disk_inode (sb : superblock) (cur : Z → block) (inum : Z) : option dinode :=
  get_dinode (cur (IBLOCK inum sb)) (Z.to_nat (128 * (inum mod IPB))).
Definition inum_ok (sb : superblock) (inum : Z) : Prop := 0 ≤ inum < sb_ninodes sb.

Section ilayout.
Context (sb : superblock) (v : tview) (Hly : layout sb v).
Lemma IBLOCK_range inum : inum_ok sb inum →
  IBLOCK inum sb = inum / IPB + sb_inodestart sb ∧ sb_inodestart sb ≤ IBLOCK inum sb < sb_bmapstart sb.
Proof.
  intros Hi. destruct (bmapstart_pos _ _ Hly) as (H1 & H2 & H3). pose proof Hly as [Hs Hbd Hlo Hlog Hni Hin Hd _].
  unfold inum_ok in Hi. assert (IPB = 4) as HI by done.
  assert (0 ≤ inum / IPB) by (apply Z.div_pos; lia).
  assert (inum / IPB ≤ sb_ninodes sb / IPB) by (apply Z.div_le_mono; lia).
  unfold IBLOCK. rewrite u32_small by lia. lia.
Qed.
Lemma IBLOCK_ours inum : inum_ok sb inum → t_ours v (IBLOCK inum sb).
Proof.
  intros Hi. destruct (IBLOCK_range _ Hi) as [_ Hr]. destruct (bmapstart_pos _ _ Hly) as (H1 & H2 & H3).
  pose proof Hly as [Hs Hbd Hlo Hlog Hni Hin Hd _]. unfold data_start in Hd.
  assert (0 ≤ sb_size sb / BPB) by (apply Z.div_pos; unfold BPB, BSIZE; lia). unfold t_ours. lia.
Qed.
Lemma data_not_inode b inum : is_data sb b → inum_ok sb inum → b ≠ IBLOCK inum sb.
Proof.
  intros [Hb _] Hi ->. destruct (IBLOCK_range _ Hi) as [_ Hr]. destruct (bmapstart_pos _ _ Hly) as (? & ? & ?).
  unfold data_start in Hb. assert (0 ≤ sb_size sb / BPB) by (apply Z.div_pos; unfold BPB, BSIZE; lia). lia.
Qed.
Lemma map_not_inode b inum : 0 ≤ b < sb_size sb → inum_ok sb inum → BBLOCK b sb ≠ IBLOCK inum sb.
Proof.
  intros Hb Hi. destruct (IBLOCK_range _ Hi) as [_ Hr]. destruct (BBLOCK_range _ _ Hly b Hb) as [_ ?]. lia.
Qed.
End ilayout.

Lemma inode_off inum : (Z.to_nat (128 * (inum mod IPB)) + 128 ≤ 512)%nat.
Proof. change IPB with 4. pose proof (Z.mod_pos_bound inum 4). lia. Qed.

(** One inode of its block replaced. *)
Lemma disk_inode_put sb v inum d (cur : Z → block) y :
  layout sb v → inum_ok sb inum → dinode_ok d →
  put_dinode (cur (IBLOCK inum sb)) (Z.to_nat (128 * (inum mod IPB))) d = Some y →
  ∀ inum', inum_ok sb inum' →
  disk_inode sb (<[IBLOCK inum sb := (y : block)]> cur) inum' =
  if decide (inum' = inum) then Some d else disk_inode sb cur inum'.
Proof.
  intros Hly Hi Hd Hy inum' Hi'. unfold disk_inode.
  destruct (IBLOCK_range _ _ Hly _ Hi) as [He _]. destruct (IBLOCK_range _ _ Hly _ Hi') as [He' _].
  destruct (decide (IBLOCK inum' sb = IBLOCK inum sb)) as [Hb|Hb].
  - rewrite Hb, fn_lookup_insert. case_decide as Hn.
    + subst. by eapply get_put_dinode.
    + apply (get_dinode_other _ _ _ _ _ (do_len _ Hd) Hy).
      change IPB with 4 in *. pose proof (Z.mod_pos_bound inum 4). pose proof (Z.mod_pos_bound inum' 4).
      assert (inum' mod 4 ≠ inum mod 4).
      { intros Hm. apply Hn. rewrite (Z.div_mod inum 4), (Z.div_mod inum' 4) by lia. lia. }
      lia.
  - rewrite fn_lookup_insert_ne by done. rewrite decide_False; [done|]. by intros ->.
Qed.
Lemma disk_inode_frame sb (cur cur' : Z → block) inum :
  cur' (IBLOCK inum sb) = cur (IBLOCK inum sb) → disk_inode sb cur' inum = disk_inode sb cur inum.
Proof. unfold disk_inode. by intros ->. Qed.

Section inodes.
Context {S : Type} `{TxLaws S} (E : string → Prop).
Implicit Types (s : fstate S) (v : tview) (ip : inode).

Lemma wp_the_inode {A} s i ip (k : inode → M (fstate S) A) Q :
  f_inode s !! i = Some ip → wp E (k ip) Q s → wp E (let! p := the_inode i in k p) Q s.
Proof. intros Hi HQ. apply wp_bind, wp_bind, wp_gets. eapply wp_of_opt; [exact Hi|]. done. Qed.
Lemma wp_upd_inode s i ip f Q :
  f_inode s !! i = Some ip → Q tt (set_f_inode (<[i := f ip]> (f_inode s)) s) → wp E (upd_inode i f) Q s.
Proof. intros Hi HQ. unfold upd_inode. eapply wp_the_inode; [exact Hi|]. by apply wp_modS. Qed.

Lemma wp_lock {A} s v l L (k : M (fstate S) A) Q :
  tv L (f_io s) v → l ∉ L → (∀ c', tv (l :: L) c' v → wp E k Q (set_f_io c' s)) →
  wp E (fio (k_acquire l) ;;; k) Q s.
Proof. intros Hv Hl HQ. apply wp_bind, wp_fio. eapply tx_acquire_law; [exact Hv|done|]. intros c'. apply HQ. Qed.
Lemma wp_unlock s v l L Q :
  tv (l :: L) (f_io s) v → (∀ c', tv L c' v → Q tt (set_f_io c' s)) → wp E (fio (k_release l)) Q s.
Proof. intros Hv HQ. apply wp_fio. eapply tx_release_law; [exact Hv|]. intros c'. apply HQ. Qed.

(** Inode [inum] is [d] on the disk; nothing else changed. *)
Record updated (sb : superblock) (v : tview) (inum : Z) (d : dinode) (v' : tview) : Prop := mkup {
  up_put : ∃ y, is_block y ∧ v' = t_put (IBLOCK inum sb) y v;
  up_inode : ∀ inum', inum_ok sb inum' →
    disk_inode sb (t_cur v') inum' = if decide (inum' = inum) then Some d else disk_inode sb (t_cur v) inum'
}.
Lemma inode_not_held sb v inum : fs_blocks sb v → inum_ok sb inum → IBLOCK inum sb ∉ (t_held v).*2.
Proof.
  intros Hfb Hi Hin. destruct (fb_held _ _ Hfb _ Hin) as [Hd _].
  by eapply (data_not_inode _ _ (fb_layout _ _ Hfb)).
Qed.
Lemma put_dinode_block x off d y :
  is_block x → length (di_addrs d) = 26%nat → put_dinode x off d = Some y → is_block y.
Proof.
  unfold is_block, put_dinode. intros Hx Hl Hp.
  destruct (decide (off + 128 ≤ length x)%nat); [|discriminate Hp]. injection Hp as <-.
  rewrite length_splice; [exact Hx|]. by rewrite length_dinode_bytes.
Qed.

Lemma wp_iupdate sb v s i ip Q :
  f_sb s = sb → f_inode s !! i = Some ip → i_dev ip = ROOTDEV → inum_ok sb (i_inum ip) → dinode_ok (i_d ip) →
  fs_blocks sb v → tv [] (f_io s) v →
  (size (t_logged v) + length (t_held v) < NBUF)%nat → (size (t_logged v) < t_cap v)%nat →
  (∀ v' c', updated sb v (i_inum ip) (i_d ip) v' → tv [] c' v' → Q tt (set_f_io c' s)) →
  wp E (iupdate i) Q s.
Proof.
  intros Hsb Hi Hdev Hnum Hd Hfb Hv Hs1 Hs2 HQ. pose proof (fb_layout _ _ Hfb) as Hly.
  unfold iupdate. eapply wp_the_inode; [exact Hi|]. apply wp_bind, wp_gets. rewrite Hsb, Hdev.
  eapply wp_hold; [exact Hv|by apply IBLOCK_ours|by apply inode_not_held|done|]. intros bp c1 Hbp Hv1.
  eapply wp_peek; [exact Hv1|by left|]. cbn [t_cur t_hold].
  pose proof (tv_blocks _ _ _ _ Hv (IBLOCK_ours _ _ Hly _ Hnum)) as Hblk.
  destruct (put_dinode (t_cur v (IBLOCK (i_inum ip) sb)) (Z.to_nat (128 * (i_inum ip mod IPB))) (i_d ip)) as [y|] eqn:Hy.
  2:{ unfold put_dinode in Hy. rewrite decide_True in Hy; [done|].
      unfold is_block, BSIZE in Hblk. pose proof (inode_off (i_inum ip)). lia. }
  apply wp_bind. eapply wp_of_opt; [done|].
  eapply wp_put_last; [exact Hv1| |by apply IBLOCK_ours|done|].
  { eapply put_dinode_block; [exact Hblk|apply Hd|exact Hy]. }
  intros c2 Hv2. eapply (HQ (t_put (IBLOCK (i_inum ip) sb) y v)); [|exact Hv2]. split.
  - exists y. split; [|done]. eapply put_dinode_block; [exact Hblk|apply Hd|exact Hy].
  - by eapply disk_inode_put.
Qed.

Lemma updated_blocks sb v inum d v' : inum_ok sb inum → fs_blocks sb v → updated sb v inum d v' → fs_blocks sb v'.
Proof.
  intros Hi [Hly Hm Hh Hl] [(y & Hy & ->) _]. pose proof (IBLOCK_range _ _ Hly _ Hi) as [_ Hr].
  pose proof (bmapstart_pos _ _ Hly) as Hp. pose proof Hly as [Hs Hbd Hlo Hlog Hni Hin Hd _].
  assert (∀ b, 0 ≤ b < sb_size sb → used sb (t_cur (t_put (IBLOCK inum sb) y v)) b = used sb (t_cur v) b) as Hu.
  { intros b Hb. unfold used. cbn [t_cur t_put]. rewrite fn_lookup_insert_ne; [done|].
    intros Heq. symmetry in Heq. revert Heq. by eapply map_not_inode. }
  split.
  - eapply layout_mono; [exact Hly|done|done|done|]. cbn [t_cur t_put]. rewrite fn_lookup_insert_ne by lia. done.
  - intros b Hb. rewrite Hu by lia. by apply Hm.
  - intros n Hn. cbn [t_held t_put] in Hn. destruct (Hh n Hn) as [H1 H2]. split; [done|].
    pose proof (data_small _ _ Hly _ H1). rewrite Hu by (destruct H1; lia). done.
  - cbn [t_loose t_put]. rewrite Hl. set_solver.
Qed.

(** ** Locking *)
Lemma lor_busy f : Z.testbit (Z.lor f I_BUSY) 0 = true ∧ Z.testbit (Z.lor f I_BUSY) 1 = Z.testbit f 1.
Proof. rewrite !Z.lor_spec. split; [by rewrite orb_true_r|by rewrite orb_false_r]. Qed.

(** ilock on an inode nobody else has locked. *)
Definition locked (ip : inode) : inode := set_i_flags (Z.lor (i_flags ip) I_BUSY) ip.
Definition loaded (d : dinode) (ip : inode) : inode :=
  mkinode (i_dev ip) (i_inum ip) (i_ref ip) (Z.lor (Z.lor (i_flags ip) I_BUSY) I_VALID) d.
Lemma wp_ilock sleep sb v s i ip d Q :
  f_sb s = sb → f_inode s !! i = Some ip → i_dev ip = ROOTDEV → inum_ok sb (i_inum ip) → 1 ≤ i_ref ip →
  i_busy ip = false → fs_blocks sb v → tv [] (f_io s) v →
  (size (t_logged v) + length (t_held v) < NBUF)%nat →
  (i_valid ip = false → disk_inode sb (t_cur v) (i_inum ip) = Some d ∧ di_type d ≠ 0) →
  (∀ c', tv [] c' v →
     Q tt (mkfs sb (<[i := if i_valid ip then locked ip else loaded d ip]> (f_inode s)) c')) →
  wp E (ilock sleep (Some i)) Q s.
Proof.
  intros Hsb Hi Hdev Hnum Href Hbusy Hfb Hv Hs1 Hd HQ. pose proof (fb_layout _ _ Hfb) as Hly.
  assert (i < length (f_inode s))%nat as Hlt by (by eapply lookup_lt_Some).
  unfold ilock. eapply wp_the_inode; [exact Hi|]. rewrite decide_False by lia.
  eapply wp_lock; [exact Hv|set_solver|]. intros c1 Hv1. apply wp_bind.
  cbn [ilock_wait ilock_fuel]. eapply wp_the_inode; [exact Hi|]. rewrite Hbusy. apply wp_skip.
  apply wp_bind. eapply wp_upd_inode; [exact Hi|]. apply wp_bind. eapply wp_unlock; [exact Hv1|]. intros c2 Hv2.
  cbn [f_inode set_f_inode set_f_io].
  eapply wp_the_inode; [by apply list_lookup_insert_eq|]. destruct (lor_busy (i_flags ip)) as [_ Hb1].
  unfold i_valid at 1. cbn [set_i_flags i_flags i_dev i_inum]. rewrite Hb1. fold (i_valid ip).
  destruct (i_valid ip) eqn:Hval.
  { apply wp_skip. rewrite <- Hsb in *. by apply HQ. }
  destruct (Hd eq_refl) as [Hdisk Hty]. apply wp_bind, wp_gets. cbn [f_sb set_f_inode set_f_io]. rewrite Hsb, Hdev.
  eapply wp_hold; [exact Hv2|by apply IBLOCK_ours|by apply inode_not_held|done|]. intros bp c3 Hbp Hv3.
  eapply wp_peek; [exact Hv3|by left|]. cbn [t_cur t_hold]. apply wp_bind. eapply wp_of_opt; [exact Hdisk|].
  apply wp_bind. eapply wp_upd_inode; [by apply list_lookup_insert_eq|].
  apply wp_bind. eapply wp_drop; [exact Hv3|rewrite (fb_loose _ _ Hfb); set_solver|]. intros c4 Hv4.
  apply wp_bind. eapply wp_upd_inode.
  { cbn [f_inode set_f_inode set_f_io]. apply list_lookup_insert_eq. by rewrite length_insert. }
  rewrite decide_False by done. apply wp_skip. cbn [f_inode set_f_inode set_f_io f_sb f_io].
  rewrite !list_insert_insert_eq. specialize (HQ c4 Hv4). rewrite <- Hsb in HQ. exact HQ.
Qed.

Definition unlocked (ip : inode) : inode := set_i_flags (Z.ldiff (i_flags ip) I_BUSY) ip.
Lemma wp_iunlock v s i ip Q :
  f_inode s !! i = Some ip → i_busy ip = true → 1 ≤ i_ref ip → tv [] (f_io s) v →
  (∀ c', tv [] c' v → Q tt (mkfs (f_sb s) (<[i := unlocked ip]> (f_inode s)) c')) →
  wp E (iunlock (Some i)) Q s.
Proof.
  intros Hi Hb Hr Hv HQ. unfold iunlock. eapply wp_the_inode; [exact Hi|]. rewrite Hb. cbn [negb orb].
  rewrite bool_decide_false by lia. eapply wp_lock; [exact Hv|set_solver|]. intros c1 Hv1.
  apply wp_bind. eapply wp_upd_inode; [exact Hi|]. apply wp_bind, wp_fio.
  eapply tx_wakeup_law; [exact Hv1|set_solver|]. intros c2 Hv2. eapply wp_unlock; [exact Hv2|]. intros c3 Hv3.
  exact (HQ c3 Hv3).
Qed.

(** ** References *)
Definition in_use (dev inum : Z) (ip : inode) : Prop := 0 < i_ref ip ∧ i_dev ip = dev ∧ i_inum ip = inum.
#[export] Instance in_use_dec dev inum ip : Decision (in_use dev inum ip).
Proof. unfold in_use. apply _. Defined.
Record icache_ok (l : list inode) : Prop := mkic {
  ic_len : length l = NINODE;
  ic_refs : ∀ i ip, l !! i = Some ip → 0 ≤ i_ref ip;
  ic_unique : ∀ i j ip jp dev inum, l !! i = Some ip → l !! j = Some jp →
    in_use dev inum ip → in_use dev inum jp → i = j
}.
(** The number of references to an inode. *)
Definition count (dev inum : Z) (ip : inode) : Z := if decide (in_use dev inum ip) then i_ref ip else 0.
Definition refs (l : list inode) (dev inum : Z) : Z := foldr Z.add 0 (count dev inum <$> l).
Lemma sum_insert (zs : list Z) i z z' :
  zs !! i = Some z → foldr Z.add 0 (<[i := z']> zs) = foldr Z.add 0 zs - z + z'.
Proof.
  revert i. induction zs as [|y zs IH]; intros [|i] Hi; simplify_eq/=; [lia|]. rewrite (IH i Hi). lia.
Qed.
Lemma refs_insert l i ip ip' dev inum :
  l !! i = Some ip → refs (<[i := ip']> l) dev inum = refs l dev inum - count dev inum ip + count dev inum ip'.
Proof. intros Hi. unfold refs. rewrite list_fmap_insert. apply sum_insert. by rewrite list_lookup_fmap, Hi. Qed.

Lemma iget_scan_spec l k dev inum e :
  match iget_scan l k dev inum e with
  | inl i => ∃ ip, (k ≤ i)%nat ∧ l !! (i - k)%nat = Some ip ∧ in_use dev inum ip
  | inr e' => (∀ ip, ip ∈ l → ¬ in_use dev inum ip) ∧
      match e' with
      | Some i => e = Some i ∨ ∃ ip, (k ≤ i)%nat ∧ l !! (i - k)%nat = Some ip ∧ i_ref ip = 0
      | None => e = None ∧ ∀ ip, ip ∈ l → i_ref ip ≠ 0
      end
  end.
Proof.
  revert k e. induction l as [|ip l IH]; intros k e; cbn [iget_scan].
  { split; [set_solver|]. destruct e; [by left|]. split; [done|set_solver]. }
  destruct (decide (0 < i_ref ip ∧ i_dev ip = dev ∧ i_inum ip = inum)) as [Hu|Hu].
  { exists ip. split_and!; [done|by rewrite Nat.sub_diag|done..]. }
  specialize (IH (Datatypes.S k) (match e with
    | None => if decide (i_ref ip = 0) then Some k else None | Some e0 => Some e0 end)).
  assert (∀ i, (Datatypes.S k ≤ i)%nat → (ip :: l) !! (i - k)%nat = l !! (i - Datatypes.S k)%nat) as Hsh.
  { intros i Hi. replace (i - k)%nat with (Datatypes.S (i - Datatypes.S k)) by lia. done. }
  destruct (iget_scan l _ dev inum _) as [i|e'].
  - destruct IH as (jp & Hk & Hl & Hj). exists jp. split_and!; [lia|by rewrite Hsh|apply Hj..].
  - destruct IH as [Hno He]. split; [intros jp [->|Hin]%elem_of_cons; [done|by apply Hno]|].
    destruct e' as [i|].
    + destruct He as [He|(jp & Hk & Hl & Hr)]; [|right; exists jp; split_and!; [lia|by rewrite Hsh|done]].
      destruct e as [e0|]; [by left|]. destruct (decide (i_ref ip = 0)) as [Hz|]; [|done].
      injection He as <-. right. exists ip. split_and!; [done|by rewrite Nat.sub_diag|done].
    + destruct He as [He Hno0]. destruct e; [done|]. destruct (decide (i_ref ip = 0)); [done|].
      split; [done|]. intros jp [->|Hin]%elem_of_cons; [done|by apply Hno0].
Qed.

(** [i] is the entry of the inode, with a reference more. *)
Definition got (l : list inode) (dev inum : Z) (i : nat) (l' : list inode) : Prop :=
  ∃ ip, l !! i = Some ip ∧
    (in_use dev inum ip ∧ l' = <[i := set_i_ref (i_ref ip + 1) ip]> l ∨
     i_ref ip = 0 ∧ (∀ jp, jp ∈ l → ¬ in_use dev inum jp) ∧ l' = <[i := mkinode dev inum 1 0 (i_d ip)]> l).

Lemma got_ok l dev inum i l' :
  icache_ok l → got l dev inum i l' →
  icache_ok l' ∧ (∃ ip', l' !! i = Some ip' ∧ in_use dev inum ip') ∧
  refs l' dev inum = refs l dev inum + 1 ∧
  ∀ dev' inum', (dev', inum') ≠ (dev, inum) → refs l' dev' inum' = refs l dev' inum'.
Proof.
  intros [Hlen Hr Hun] (ip & Hi & Hc). pose proof (lookup_lt_Some _ _ _ Hi) as Hlt.
  assert (∃ ip', l' = <[i := ip']> l ∧ in_use dev inum ip' ∧
    count dev inum ip' = count dev inum ip + 1 ∧
    (∀ d n, (d, n) ≠ (dev, inum) → count d n ip' = count d n ip) ∧
    (∀ j jp, j ≠ i → l !! j = Some jp → ¬ in_use dev inum jp)) as (ip' & -> & Hu & Hcnt & Hoth & Hnot).
  { destruct Hc as [[Hu ->]|(Hz & Hno & ->)].
    - pose proof Hu as (Hp & Hd & Hn). eexists. split; [done|].
      assert (in_use dev inum (set_i_ref (i_ref ip + 1) ip)) as Hu' by (split_and!; simpl; [lia|done|done]).
      split_and!; [done| | |].
      + unfold count. by rewrite !decide_True by done.
      + intros d n Hne. unfold count. rewrite !decide_False; [done| |].
        * intros (_ & E1 & E2). simpl in *. congruence.
        * intros (_ & E1 & E2). simpl in *. congruence.
      + intros j jp Hj Hjp Hju. apply Hj. by eapply Hun.
    - eexists. split; [done|].
      assert (in_use dev inum (mkinode dev inum 1 0 (i_d ip))) as Hu' by (split_and!; simpl; [lia|done|done]).
      split_and!; [done| | |].
      + unfold count. rewrite decide_True by done. rewrite decide_False; [done|]. intros (? & _). lia.
      + intros d n Hne. unfold count. rewrite !decide_False; [done| |].
        * intros (? & _). lia.
        * intros (_ & E1 & E2). simpl in *. congruence.
      + intros j jp _ Hjp. apply Hno. by eapply list_elem_of_lookup_2. }
  split_and!.
  - split.
    + by rewrite length_insert.
    + intros j jp [[-> ->]|[_ Hj]]%list_lookup_insert_cases; [destruct Hu; lia|by eapply Hr].
    + intros j k jp kp d n [[-> ->]|[Hj Hjp]]%list_lookup_insert_cases [[-> ->]|[Hk Hkp]]%list_lookup_insert_cases U1 U2.
      * done.
      * exfalso. destruct U1 as (_ & E1 & E2), Hu as (_ & E3 & E4). subst. eapply Hnot; [|exact Hkp|exact U2]. done.
      * exfalso. destruct U2 as (_ & E1 & E2), Hu as (_ & E3 & E4). subst. eapply Hnot; [|exact Hjp|exact U1]. done.
      * by eapply Hun.
  - exists ip'. split; [by apply list_lookup_insert_eq|done].
  - rewrite (refs_insert _ _ _ _ _ _ Hi). lia.
  - intros d n Hne. rewrite (refs_insert _ _ _ _ _ _ Hi), Hoth by done. lia.
Qed.

Lemma wp_iget v s dev inum Q :
  tv [] (f_io s) v →
  (∀ i l' c', got (f_inode s) dev inum i l' → tv [] c' v → Q i (mkfs (f_sb s) l' c')) →
  ((∀ ip, ip ∈ f_inode s → i_ref ip ≠ 0 ∧ ¬ in_use dev inum ip) → E "iget: no inodes") →
  wp E (iget dev inum) Q s.
Proof.
  intros Hv HQ HE. unfold iget. eapply wp_lock; [exact Hv|set_solver|]. intros c1 Hv1.
  apply wp_bind, wp_gets. cbn [f_inode set_f_io]. pose proof (iget_scan_spec (f_inode s) 0 dev inum None) as Hsc.
  destruct (iget_scan (f_inode s) 0 dev inum None) as [i|[i|]].
  - destruct Hsc as (ip & _ & Hi & Hu). rewrite Nat.sub_0_r in Hi.
    apply wp_bind. eapply wp_upd_inode; [exact Hi|]. apply wp_bind. eapply wp_unlock; [exact Hv1|]. intros c2 Hv2.
    apply wp_ret, HQ; [|done]. exists ip. split; [done|]. by left.
  - destruct Hsc as [Hno [He|(ip & _ & Hi & Hz)]]; [done|]. rewrite Nat.sub_0_r in Hi.
    apply wp_bind. eapply wp_upd_inode; [exact Hi|]. apply wp_bind. eapply wp_unlock; [exact Hv1|]. intros c2 Hv2.
    apply wp_ret, HQ; [|done]. exists ip. split; [done|]. by right.
  - destruct Hsc as [Hno [_ Hz]]. apply HE. intros ip Hip. split; [by apply Hz|by apply Hno].
Qed.

(** iput of a reference that is not the last one to an unlinked inode. *)
Lemma wp_iput_keep v s i ip Q :
  f_inode s !! i = Some ip → ¬ (i_ref ip = 1 ∧ i_valid ip = true ∧ di_nlink (i_d ip) = 0) → tv [] (f_io s) v →
  (∀ c', tv [] c' v → Q tt (mkfs (f_sb s) (<[i := set_i_ref (i_ref ip - 1) ip]> (f_inode s)) c')) →
  wp E (iput i) Q s.
Proof.
  intros Hi Hn Hv HQ. unfold iput. eapply wp_lock; [exact Hv|set_solver|]. intros c1 Hv1.
  eapply wp_the_inode; [exact Hi|]. apply wp_bind. rewrite decide_False by done. apply wp_skip.
  apply wp_bind. eapply wp_upd_inode; [exact Hi|]. eapply wp_unlock; [exact Hv1|]. intros c2 Hv2. exact (HQ c2 Hv2).
Qed.
(** A reference just taken by iget is such a one. *)
Lemma got_keep l dev inum i l' : got l dev inum i l' →
  ∃ ip', l' !! i = Some ip' ∧ ¬ (i_ref ip' = 1 ∧ i_valid ip' = true ∧ di_nlink (i_d ip') = 0).
Proof.
  intros (ip & Hi & Hc). pose proof (lookup_lt_Some _ _ _ Hi) as Hlt. destruct Hc as [[(Hr & _) ->]|(_ & _ & ->)].
  - eexists. split; [by apply list_lookup_insert_eq|]. simpl. lia.
  - eexists. split; [by apply list_lookup_insert_eq|]. unfold i_valid. simpl. by intros (_ & ? & _).
Qed.
End inodes.
