(* ===== verification/FsFile.v ===== *)
(** * The contents of a file: bmap, readi, writei, itrunc

    A file's blocks are the nonzero entries of [slots]: the 25 direct addresses,
    the indirect block and the addresses in it.  [faddr] is the address of block
    [bn] and [fbyte] the byte at an offset. *)

From S2P Require Import Prelude CString Words ProcData Sync Block Log Tx Fs FsBlocks FsInode.
Local Open Scope Z_scope.
Implicit Types (x y : list Z).

(** The words of an indirect block. *)
Definition words (x : list Z) : list Z := (λ k, default 0 (get_word x (4 * k))) <$> seq 0 128.
Definition iaddr (d : dinode) : Z := nth 25 (di_addrs d) 0.
Definition slots (cur : Z → block) (d : dinode) : list Z :=
  di_addrs d ++ (if decide (iaddr d = 0) then [] else words (cur (iaddr d))).
Definition slot (bn : nat) : nat := if decide (bn < 25)%nat then bn else S bn.
Definition faddr (cur : Z → block) (d : dinode) (bn : nat) : Z := nth (slot bn) (slots cur d) 0.
Definition fbyte (cur : Z → block) (d : dinode) (k : nat) : Z :=
  nth (k mod 512) (cur (faddr cur d (k / 512)) : list Z) 0.
Definition footprint (cur : Z → block) (d : dinode) : list Z := filter (λ a, a ≠ 0) (slots cur d).

(** A file whose first [sz] bytes are in place. *)
Record file_ok (sb : superblock) (cur : Z → block) (d : dinode) (sz : Z) : Prop := mkfo {
  fo_len : length (di_addrs d) = 26%nat;
  fo_data : ∀ a, a ∈ footprint cur d → is_data sb a ∧ used sb cur a = true;
  fo_nodup : NoDup (footprint cur d);
  fo_mapped : ∀ bn, 512 * Z.of_nat bn < sz → (bn < 153)%nat ∧ faddr cur d bn ≠ 0
}.

(** ** Lists of addresses *)
Lemma filter_grow (l : list Z) i b :
  l !! i = Some 0 → b ≠ 0 → filter (λ a, a ≠ 0) (<[i := b]> l) ≡ₚ b :: filter (λ a, a ≠ 0) l.
Proof.
  intros Hi Hb. revert i Hi. induction l as [|a l IH]; intros [|i] Hi; simplify_eq/=.
  - rewrite filter_cons_True by done. rewrite filter_cons_False by (intros Hn; by apply Hn). done.
  - destruct (decide (a = 0)) as [->|Ha].
    + rewrite !filter_cons_False by (intros Hn; by apply Hn). by apply IH.
    + rewrite !filter_cons_True by done. rewrite IH by done. apply Permutation_swap.
Qed.
Lemma filter_zeros n : filter (λ a : Z, a ≠ 0) (replicate n 0) = [].
Proof. induction n as [|n IH]; [done|]. simpl. by rewrite filter_cons_False by (intros Hn; by apply Hn). Qed.
Lemma filter_inj (l : list Z) i j a :
  NoDup (filter (λ a, a ≠ 0) l) → l !! i = Some a → l !! j = Some a → a ≠ 0 → i = j.
Proof.
  revert i j. induction l as [|c l IH]; intros i j Hnd Hi Hj Ha; [done|].
  assert (∀ k, l !! k = Some a → c ≠ a) as Hne.
  { intros k Hk ->. rewrite filter_cons_True in Hnd by done. apply list.NoDup_cons in Hnd as [Hn _].
    apply Hn. apply list_elem_of_filter. split; [done|]. by eapply list_elem_of_lookup_2. }
  destruct i as [|i], j as [|j]; simpl in Hi, Hj; [done|..].
  - injection Hi as ->. by destruct (Hne _ Hj).
  - injection Hj as ->. by destruct (Hne _ Hi).
  - f_equal. apply IH; try done. destruct (decide (c = 0)).
    + rewrite filter_cons_False in Hnd by (intros Hn; by apply Hn). done.
    + rewrite filter_cons_True in Hnd by done. by apply list.NoDup_cons in Hnd as [_ ?].
Qed.

(** ** The indirect block *)
Lemma length_words' x : length (words x) = 128%nat.
Proof. unfold words. by rewrite length_fmap, length_seq. Qed.
Lemma words_lookup x k : (k < 128)%nat → words x !! k = Some (default 0 (get_word x (4 * k))).
Proof. intros Hk. unfold words. by rewrite list_lookup_fmap, lookup_seq_lt. Qed.
Lemma get_word_words x k : is_block x → (k < 128)%nat → get_word x (4 * k) = Some (nth k (words x) 0).
Proof.
  unfold is_block, BSIZE. intros Hx Hk. destruct (get_le_Some 4 x (4 * k)) as [w Hw]; [lia|].
  rewrite nth_lookup, words_lookup by done. unfold get_word. by rewrite Hw.
Qed.
Lemma words_put x k b : is_block x → (k < 128)%nat → 0 ≤ b < 2 ^ 32 →
  ∃ y, put_word x (4 * k) b = Some y ∧ is_block y ∧ words y = <[k := b]> (words x).
Proof.
  intros Hx Hk Hb. unfold is_block, BSIZE in *. destruct (put_le_Some 4 x (4 * k) b) as [y Hy]; [lia|].
  exists y. pose proof (length_put_le _ _ _ _ _ Hy) as Hl. split_and!; [done|lia|].
  apply list_eq. intros j. destruct (decide (j < 128)%nat) as [Hj|Hj].
  - rewrite words_lookup by done. destruct (decide (j = k)) as [->|Hne].
    + rewrite list_lookup_insert_eq by (by rewrite length_words').
      unfold get_word. rewrite (get_put_le _ _ _ _ _ Hy). simpl. f_equal. by apply Z.mod_small.
    + rewrite list_lookup_insert_ne, words_lookup by done. unfold get_word.
      rewrite (get_put_le_ne _ _ _ _ _ _ _ Hy) by lia. done.
  - rewrite !lookup_ge_None_2; [done|rewrite length_insert, length_words'; lia|rewrite length_words'; lia].
Qed.
Lemma words_zeros : words zeros = replicate 128 0.
Proof. vm_compute. reflexivity. Qed.

(** ** Addresses *)
Section addresses.
Context (cur : Z → block) (d : dinode) (Hlen : length (di_addrs d) = 26%nat).
Lemma length_slots : length (slots cur d) = 26%nat ∧ iaddr d = 0 ∨ length (slots cur d) = 154%nat ∧ iaddr d ≠ 0.
Proof.
  unfold slots. rewrite length_app, Hlen. case_decide; [left|right]; split; rewrite ?length_words'; done.
Qed.
Lemma slots_iaddr : slots cur d !! 25%nat = Some (iaddr d).
Proof.
  unfold slots. rewrite lookup_app_l by lia. unfold iaddr.
  destruct (lookup_lt_is_Some_2 (di_addrs d) 25) as [a Ha]; [lia|]. by rewrite nth_lookup, Ha.
Qed.
Lemma addrs_iaddr : di_addrs d !! 25%nat = Some (iaddr d).
Proof.
  unfold iaddr. destruct (lookup_lt_is_Some_2 (di_addrs d) 25) as [a Ha]; [lia|]. by rewrite nth_lookup, Ha.
Qed.
Lemma faddr_slot bn : faddr cur d bn ≠ 0 → slots cur d !! slot bn = Some (faddr cur d bn).
Proof.
  unfold faddr. rewrite nth_lookup. destruct (slots cur d !! slot bn); [done|]. by intros [].
Qed.
Lemma faddr_footprint bn : faddr cur d bn ≠ 0 → faddr cur d bn ∈ footprint cur d.
Proof.
  intros Hn. apply list_elem_of_filter. split; [done|]. eapply list_elem_of_lookup_2, faddr_slot, Hn.
Qed.
Lemma iaddr_footprint : iaddr d ≠ 0 → iaddr d ∈ footprint cur d.
Proof. intros Hn. apply list_elem_of_filter. split; [done|]. eapply list_elem_of_lookup_2, slots_iaddr. Qed.
Lemma slot_inj a b : slot a = slot b → a = b.
Proof. unfold slot. repeat case_decide; lia. Qed.
Lemma faddr_inj a b : NoDup (footprint cur d) → faddr cur d a ≠ 0 → faddr cur d a = faddr cur d b → a = b.
Proof.
  intros Hnd Hn Heq. apply slot_inj. eapply filter_inj; [exact Hnd|by apply faddr_slot| |exact Hn].
  rewrite Heq. apply faddr_slot. by rewrite <- Heq.
Qed.
Lemma faddr_not_iaddr bn : NoDup (footprint cur d) → faddr cur d bn ≠ 0 → faddr cur d bn ≠ iaddr d.
Proof.
  intros Hnd Hn Heq. assert (slot bn = 25%nat).
  { eapply filter_inj; [exact Hnd|by apply faddr_slot|rewrite Heq; apply slots_iaddr|done]. }
  unfold slot in *. case_decide; lia.
Qed.
Lemma faddr_direct bn : (bn < 25)%nat → di_addrs d !! bn = Some (faddr cur d bn).
Proof.
  intros Hb. unfold faddr, slot, slots. rewrite decide_True by done. rewrite nth_lookup, lookup_app_l by lia.
  by destruct (lookup_lt_is_Some_2 (di_addrs d) bn) as [a ->]; [lia|].
Qed.
Lemma faddr_indirect bn : (25 ≤ bn)%nat → iaddr d ≠ 0 → faddr cur d bn = nth (bn - 25) (words (cur (iaddr d))) 0.
Proof.
  intros Hb Hi. unfold faddr, slot, slots. rewrite decide_False, (decide_False (P := iaddr d = 0)) by (done || lia).
  rewrite !nth_lookup, lookup_app_r by lia. do 2 f_equal. lia.
Qed.
Lemma faddr_no_indirect bn : (25 ≤ bn)%nat → iaddr d = 0 → faddr cur d bn = 0.
Proof.
  intros Hb Hi. unfold faddr, slot, slots. rewrite decide_False, decide_True by (done || lia).
  rewrite nth_lookup, lookup_ge_None_2; [done|]. rewrite app_nil_r. lia.
Qed.
End addresses.

(** ** Growing a file by a block *)
(** What a step that may add blocks to the file [d] leaves alone. *)
Record ext (sb : superblock) (v : tview) (d : dinode) (v' : tview) (d' : dinode) : Prop := mkext {
  ex_keep : ∀ bn, faddr (t_cur v) d bn ≠ 0 →
    faddr (t_cur v') d' bn = faddr (t_cur v) d bn ∧
    t_cur v' (faddr (t_cur v) d bn) = t_cur v (faddr (t_cur v) d bn);
  ex_meta : ∀ n, n < sb_bmapstart sb → t_cur v' n = t_cur v n;
  ex_frame : ∀ n, is_data sb n → used sb (t_cur v) n = true → n ∉ footprint (t_cur v) d → t_cur v' n = t_cur v n;
  ex_used : ∀ n, 0 ≤ n < sb_size sb → used sb (t_cur v) n = true → used sb (t_cur v') n = true;
  ex_foot : ∀ a, a ∈ footprint (t_cur v') d' → a ∈ footprint (t_cur v) d ∨
    is_data sb a ∧ used sb (t_cur v) a = false;
  ex_same : d' = set_di_addrs (di_addrs d') d;
  ex_iaddr : iaddr d ≠ 0 → iaddr d' = iaddr d;
  ex_fields : t_size v' = t_size v ∧ t_lo v' = t_lo v ∧ t_hi v' = t_hi v ∧ t_held v' = t_held v ∧
    t_cap v' = t_cap v
}.

Lemma data_pos sb v n : layout sb v → is_data sb n → 0 ≤ n < sb_size sb.
Proof. intros Hly Hd. pose proof (data_small _ _ Hly _ Hd). destruct Hd. lia. Qed.

Lemma data_after_map sb v n : layout sb v → is_data sb n → sb_bmapstart sb < n.
Proof.
  intros Hly [Hn _]. destruct (bmapstart_pos _ _ Hly) as (_ & _ & ?). unfold data_start in Hn.
  assert (0 ≤ sb_size sb / BPB) by (apply Z.div_pos; unfold BPB, BSIZE; lia). lia.
Qed.

Lemma ext_refl sb v d : ext sb v d v d.
Proof. split; try done; [auto|]. by destruct d. Qed.
Lemma ext_trans sb v d v1 d1 v2 d2 :
  layout sb v → ext sb v d v1 d1 → ext sb v1 d1 v2 d2 → ext sb v d v2 d2.
Proof.
  intros Hly [K1 M1 F1 U1 P1 S1 I1 (A1 & A2 & A3 & A4 & A5)] [K2 M2 F2 U2 P2 S2 I2 (B1 & B2 & B3 & B4 & B5)]. split.
  - intros bn Hn. destruct (K1 bn Hn) as [E1 E2]. destruct (K2 bn) as [E3 E4]; [by rewrite E1|].
    rewrite E1 in *. split; [done|]. by rewrite E4.
  - intros n Hn. by rewrite M2, M1.
  - intros n Hd Hu Hn. rewrite F2, F1; try done; [apply U1; [by eapply data_pos|done]|].
    intros Hin. destruct (P1 n Hin) as [|[_ ?]]; [done|congruence].
  - auto.
  - intros a Ha. destruct (P2 a Ha) as [Ha'|[Hd Hu]]; [by apply P1|].
    destruct (used sb (t_cur v) a) eqn:Hua; [|by right].
    rewrite U1 in Hu; [done|by eapply data_pos|done].
  - rewrite S2, S1. by destruct d.
  - intros Hi. rewrite I2; [by apply I1|]. by rewrite I1.
  - split_and!; congruence.
Qed.

(** One more block [b]: taken from the free ones and entered in an empty slot. *)
Record grown (sb : superblock) (v : tview) (d : dinode) (b : Z) (v' : tview) (d' : dinode) : Prop := mkgr {
  gr_len : length (di_addrs d') = 26%nat;
  gr_same : d' = set_di_addrs (di_addrs d') d;
  gr_data : is_data sb b;
  gr_free : used sb (t_cur v) b = false;
  gr_used : ∀ b', 0 ≤ b' < sb_size sb → used sb (t_cur v') b' = used sb (t_cur v) b' || bool_decide (b' = b);
  gr_perm : footprint (t_cur v') d' ≡ₚ b :: footprint (t_cur v) d;
  gr_slots : ∀ i a, slots (t_cur v) d !! i = Some a → a ≠ 0 → slots (t_cur v') d' !! i = Some a;
  gr_iaddr : iaddr d' = iaddr d ∨ iaddr d = 0 ∧ iaddr d' = b;
  gr_cur : ∀ n, n < sb_bmapstart sb ∨ is_data sb n → n ≠ b → n ≠ iaddr d' ∨ iaddr d' = 0 →
    t_cur v' n = t_cur v n;
  gr_fields : t_size v' = t_size v ∧ t_lo v' = t_lo v ∧ t_hi v' = t_hi v ∧ t_held v' = t_held v ∧ t_cap v' = t_cap v
}.

Lemma grown_keeps sb v d b v' d' bn :
  grown sb v d b v' d' → faddr (t_cur v) d bn ≠ 0 → faddr (t_cur v') d' bn = faddr (t_cur v) d bn.
Proof.
  intros Hg Hn. pose proof (gr_slots _ _ _ _ _ _ Hg _ _ (faddr_slot _ _ bn Hn) Hn) as Hs.
  unfold faddr at 1. by rewrite nth_lookup, Hs.
Qed.
Lemma grown_file sb v d b v' d' sz :
  layout sb v → file_ok sb (t_cur v) d sz → grown sb v d b v' d' → file_ok sb (t_cur v') d' sz.
Proof.
  intros Hly [Hl Hd Hnd Hm] Hg. pose proof Hg as [G1 G2 G3 G4 G5 G6 G7 G8 G9 _]. split; [done| | |].
  - intros a Ha. rewrite G6 in Ha. apply elem_of_cons in Ha as [->|Ha].
    + split; [done|]. rewrite G5 by (by eapply data_pos). rewrite bool_decide_true by done. apply orb_true_r.
    + destruct (Hd a Ha) as [H1 H2]. split; [done|]. rewrite G5, H2 by (by eapply data_pos). done.
  - rewrite G6. constructor; [|done]. intros Hin. destruct (Hd b Hin). congruence.
  - intros bn Hbn. destruct (Hm bn Hbn) as [H1 H2]. split; [done|]. by rewrite (grown_keeps _ _ _ _ _ _ _ Hg).
Qed.
Lemma grown_ext sb v d b v' d' sz :
  layout sb v → file_ok sb (t_cur v) d sz → grown sb v d b v' d' → ext sb v d v' d'.
Proof.
  intros Hly [Hl Hd Hnd Hm] Hg. pose proof Hg as [G1 G2 G3 G4 G5 G6 G7 G8 G9 G10].
  pose proof (bmapstart_pos _ _ Hly) as Hp.
  assert (iaddr d' = b ∨ iaddr d' = 0 ∨ iaddr d' = iaddr d ∧ iaddr d ∈ footprint (t_cur v) d) as Hia.
  { destruct G8 as [->|[_ ->]]; [|by left]. destruct (decide (iaddr d = 0)); [by right; left|].
    right; right. split; [done|]. by apply iaddr_footprint. }
  assert (∀ n, is_data sb n → used sb (t_cur v) n = true → n ≠ iaddr d ∨ iaddr d = 0 → t_cur v' n = t_cur v n) as Hcur.
  { intros n Hn Hu Hni. apply G9; [by right|congruence|]. pose proof (data_small _ _ Hly _ Hn).
    destruct G8 as [->|[_ ->]]; [tauto|left; congruence]. }
  split; try done.
  - intros bn Hn. split; [by apply (grown_keeps _ _ _ _ _ _ _ Hg)|].
    destruct (Hd _ (faddr_footprint _ _ _ Hn)) as [H1 H2]. apply Hcur; [done|done|]. left. by apply faddr_not_iaddr.
  - intros n Hn. apply G9; [by left| |].
    + intros ->. pose proof (data_after_map _ _ _ Hly G3). lia.
    + destruct (decide (iaddr d' = 0)) as [|Hz]; [by right|left]. intros ->.
      assert (is_data sb (iaddr d')) as Hid by (destruct Hia as [->|[?|[-> Hin]]]; [done|done|by apply Hd]).
      pose proof (data_after_map _ _ _ Hly Hid). lia.
  - intros n Hn Hu Hnf. apply Hcur; [done|done|].
    destruct (decide (iaddr d = 0)); [by right|left]. intros ->. apply Hnf. by apply iaddr_footprint.
  - intros n Hn Hu. rewrite G5, Hu by done. done.
  - intros a Ha. rewrite G6 in Ha. apply elem_of_cons in Ha as [->|Ha]; [by right|by left].
  - intros Hi. by destruct G8 as [?|[? _]].
Qed.

Lemma slots_insert_keep (l l' : list Z) k :
  l !! k = Some 0 → (∀ i, i ≠ k → (i < length l)%nat → l' !! i = l !! i) →
  ∀ i a, l !! i = Some a → a ≠ 0 → l' !! i = Some a.
Proof.
  intros Hk Hl i a Hi Ha. assert (i ≠ k) by (intros ->; congruence).
  rewrite Hl; [done|done|by eapply lookup_lt_Some].
Qed.

Section grow.
Context (sb : superblock) (v v1 : tview) (d : dinode) (sz b : Z).
Context (Hfb : fs_blocks sb v) (Hf : file_ok sb (t_cur v) d sz) (Hal : allocated sb v b v1).

Lemma alloc_cur n : n < sb_bmapstart sb ∨ is_data sb n → n ≠ b → t_cur v1 n = t_cur v n.
Proof.
  intros Hn Hb. destruct (allocated_fields _ _ _ _ Hal) as (_ & _ & _ & _ & _ & _ & Hc & _).
  apply Hc; [done|]. pose proof (fb_layout _ _ Hfb) as Hly. intros ->.
  pose proof (data_pos _ _ _ Hly (al_data _ _ _ _ Hal)) as Hbr. destruct (BBLOCK_range _ _ Hly b Hbr) as [_ Hr].
  destruct Hn as [Hn|[Hn _]]; lia.
Qed.
Lemma alloc_new a : a ∈ footprint (t_cur v) d → a ≠ b ∧ is_data sb a.
Proof.
  intros Ha. destruct (fo_data _ _ _ _ Hf a Ha) as [H1 H2]. split; [|done]. intros ->.
  pose proof (al_free _ _ _ _ Hal). congruence.
Qed.
Lemma alloc_nonzero : b ≠ 0.
Proof. pose proof (data_small _ _ (fb_layout _ _ Hfb) _ (al_data _ _ _ _ Hal)). lia. Qed.

(** The new block as a direct block, or as the indirect one. *)
Lemma grow_addr k : (k ≤ 25)%nat → di_addrs d !! k = Some 0 →
  let d' := set_di_addrs (<[k := b]> (di_addrs d)) d in
  grown sb v d b v1 d' ∧ ((k < 25)%nat → faddr (t_cur v1) d' k = b) ∧ (k = 25%nat → iaddr d' = b).
Proof.
  intros Hk Hk0 d'. pose proof (fo_len _ _ _ _ Hf) as Hl. pose proof alloc_nonzero as Hb0.
  destruct (allocated_fields _ _ _ _ Hal) as (A1 & A2 & A3 & A4 & A5 & A6 & A7 & A8 & A9).
  assert (length (di_addrs d') = 26%nat) as Hl' by (cbn [d' di_addrs set_di_addrs]; by rewrite length_insert).
  assert (k = 25%nat → iaddr d = 0 ∧ iaddr d' = b) as Hk25.
  { intros ->. unfold iaddr. cbn [d' di_addrs set_di_addrs]. rewrite !nth_lookup, Hk0, list_lookup_insert_eq by lia. done. }
  assert (k ≠ 25%nat → iaddr d' = iaddr d) as Hkn.
  { intros Hne. unfold iaddr. cbn [d' di_addrs set_di_addrs]. by rewrite !nth_lookup, list_lookup_insert_ne. }
  assert (slots (t_cur v) d !! k = Some 0) as Hs0 by (unfold slots; rewrite lookup_app_l by lia; done).
  assert (∃ zs, slots (t_cur v1) d' = <[k := b]> (slots (t_cur v) d) ++ zs ∧ filter (λ a, a ≠ 0) zs = []) as (zs & Hsl & Hzs).
  { destruct (decide (k = 25%nat)) as [->|Hne].
    - destruct (Hk25 eq_refl) as [Hi Hi']. exists (replicate 128 0). split; [|apply filter_zeros].
      unfold slots. rewrite Hi', decide_False, Hi, decide_True, app_nil_r by done. f_equal. rewrite A8. apply words_zeros.
    - exists []. split; [|done]. rewrite app_nil_r. unfold slots. rewrite Hkn by done.
      rewrite insert_app_l by lia. f_equal. case_decide as Hi; [done|].
      rewrite alloc_cur; [done| |]; [right|]; apply alloc_new, iaddr_footprint; done. }
  assert (∀ i, i ≠ k → (i < length (slots (t_cur v) d))%nat → slots (t_cur v1) d' !! i = slots (t_cur v) d !! i) as Hsk.
  { intros i Hi Hil. rewrite Hsl, lookup_app_l by (by rewrite length_insert). by rewrite list_lookup_insert_ne. }
  assert (slots (t_cur v1) d' !! k = Some b) as Hsb.
  { pose proof (lookup_lt_Some _ _ _ Hs0). rewrite Hsl, lookup_app_l by (by rewrite length_insert).
    by apply list_lookup_insert_eq. }
  split_and!; [split|..].
  - done.
  - by destruct d.
  - apply Hal.
  - apply Hal.
  - apply Hal.
  - unfold footprint. rewrite Hsl, list.filter_app, Hzs, app_nil_r. by apply filter_grow.
  - by apply (slots_insert_keep _ _ k).
  - destruct (decide (k = 25%nat)); [right; by apply Hk25|left; by apply Hkn].
  - intros n Hn Hnb _. by apply alloc_cur.
  - done.
  - intros Hlt. unfold faddr, slot. rewrite decide_True by done. by rewrite nth_lookup, Hsb.
  - intros H25. by apply Hk25.
Qed.

(** The new block in the indirect one. *)
Lemma grow_word j (y : block) : iaddr d ≠ 0 → (j < 128)%nat → words (t_cur v (iaddr d)) !! j = Some 0 →
  words y = <[j := b]> (words (t_cur v (iaddr d))) →
  let v' := t_put (iaddr d) y v1 in
  grown sb v d b v' d ∧ faddr (t_cur v') d (25 + j) = b.
Proof.
  intros Hi Hj Hj0 Hy v'. pose proof (fo_len _ _ _ _ Hf) as Hl. pose proof alloc_nonzero as Hb0.
  pose proof (fb_layout _ _ Hfb) as Hly. destruct (alloc_new _ (iaddr_footprint _ _ Hl Hi)) as [Hib Hid].
  destruct (allocated_fields _ _ _ _ Hal) as (A1 & A2 & A3 & A4 & A5 & A6 & A7 & A8 & A9).
  assert (slots (t_cur v') d = <[(26 + j)%nat := b]> (slots (t_cur v) d)) as Hsl.
  { unfold slots. rewrite !decide_False by done. cbn [v' t_cur t_put]. rewrite fn_lookup_insert, Hy.
    rewrite insert_app_r_alt by lia. by rewrite Hl, Nat.add_comm, Nat.add_sub. }
  assert (slots (t_cur v) d !! (26 + j)%nat = Some 0) as Hs0.
  { unfold slots. rewrite decide_False, lookup_app_r by (done || lia). by rewrite Hl, Nat.add_comm, Nat.add_sub. }
  split; [split|].
  - done.
  - by destruct d.
  - apply Hal.
  - apply Hal.
  - intros b' Hb'. rewrite <- (al_used _ _ _ _ Hal) by done. unfold used. cbn [v' t_cur t_put].
    rewrite fn_lookup_insert_ne; [done|]. by eapply data_not_map.
  - unfold footprint. rewrite Hsl. by apply filter_grow.
  - apply (slots_insert_keep _ _ (26 + j)); [done|]. intros i Hi' _. by rewrite Hsl, list_lookup_insert_ne.
  - by left.
  - intros n Hn Hnb [Hni|?]; [|done]. cbn [v' t_cur t_put]. rewrite fn_lookup_insert_ne by done. by apply alloc_cur.
  - done.
  - unfold faddr, slot. rewrite decide_False by lia. rewrite nth_lookup, Hsl.
    change (S (25 + j)) with (26 + j)%nat. rewrite list_lookup_insert_eq; [done|]. by eapply lookup_lt_Some.
Qed.
End grow.

(** ** bmap *)
Definition inds (d : dinode) : gset Z := if decide (iaddr d = 0) then ∅ else {[iaddr d]}.
(** Block [bn] of the file is at [a]; [X] bounds the transaction's blocks. *)
Record bmapped (sb : superblock) (sz : Z) (X : gset Z) (v : tview) (d : dinode) (bn : nat) (a : Z)
    (v' : tview) (d' : dinode) : Prop := mkbm {
  bm_ext : ext sb v d v' d';
  bm_file : file_ok sb (t_cur v') d' sz;
  bm_addr : faddr (t_cur v') d' bn = a ∧ a ≠ 0;
  bm_blocks : fs_blocks sb v';
  bm_old : faddr (t_cur v) d bn ≠ 0 → v' = v ∧ d' = d;
  bm_logged : faddr (t_cur v) d bn = 0 → t_logged v' ⊆ X ∪ inds d' ∪ {[a]}
}.
(** The transaction has room for the blocks of [X] and three more. *)
Record room (sb : superblock) (v : tview) (X : gset Z) : Prop := mkroom {
  rm_logged : t_logged v ⊆ X;
  rm_map : ∀ b, 0 ≤ b < sb_size sb → BBLOCK b sb ∈ X;
  rm_size : (size X + 2 < t_cap v)%nat
}.

Lemma size_two (X Y : gset Z) a b : Y ⊆ X ∪ {[a]} ∪ {[b]} → (size Y ≤ size X + 2)%nat.
Proof.
  intros HY. etrans; [apply subseteq_size, HY|]. rewrite !size_union_alt.
  assert (size ({[a]} ∖ X) ≤ size ({[a]} : gset Z))%nat by (apply subseteq_size; set_solver).
  assert (size ({[b]} ∖ (X ∪ {[a]})) ≤ size ({[b]} : gset Z))%nat by (apply subseteq_size; set_solver).
  rewrite !size_singleton in *. lia.
Qed.
Lemma size_one (X Y : gset Z) a : Y ⊆ X ∪ {[a]} → (size Y ≤ size X + 1)%nat.
Proof.
  intros HY. etrans; [apply subseteq_size, HY|]. rewrite !size_union_alt.
  assert (size ({[a]} ∖ X) ≤ size ({[a]} : gset Z))%nat by (apply subseteq_size; set_solver).
  rewrite !size_singleton in *. lia.
Qed.

(** Holding a data block does not disturb the allocator. *)
Lemma hold_blocks sb v bp n :
  fs_blocks sb v → is_data sb n → used sb (t_cur v) n = true → fs_blocks sb (t_hold bp n v).
Proof.
  intros [Hly Hm Hh Hl] Hd Hu. split; [by eapply layout_mono|exact Hm| |exact Hl].
  intros m. cbn [t_hold t_held]. rewrite fmap_cons. intros [->|Hin]%elem_of_cons; [done|by apply Hh].
Qed.
Lemma hold_allocated sb v bp n b v1 :
  allocated sb (t_hold bp n v) b v1 → ∃ v1', v1 = t_hold bp n v1' ∧ allocated sb v b v1'.
Proof.
  intros [A1 A2 A3 (y & Hy & ->) A5]. exists (t_put b zeros (t_put (BBLOCK b sb) y v)).
  split; [done|]. split; try done. by exists y.
Qed.

Section bmap.
Context {S : Type} `{TxLaws S} (E : string → Prop).
Implicit Types (s : fstate S) (v : tview) (ip : inode).

Lemma wp_get_addr {A} s i ip k a (f : Z → M (fstate S) A) Q :
  f_inode s !! i = Some ip → di_addrs (i_d ip) !! k = Some a → wp E (f a) Q s →
  wp E (let! a := get_addr i k in f a) Q s.
Proof.
  intros Hi Ha HQ. apply wp_bind. unfold get_addr. eapply wp_the_inode; [exact Hi|]. by eapply wp_of_opt.
Qed.
Lemma wp_put_addr s i ip k a Q :
  f_inode s !! i = Some ip →
  Q tt (set_f_inode (<[i := set_i_d (set_di_addrs (<[k := a]> (di_addrs (i_d ip))) (i_d ip)) ip]> (f_inode s)) s) →
  wp E (put_addr i k a) Q s.
Proof. intros Hi HQ. unfold put_addr. by eapply wp_upd_inode. Qed.

Lemma tv_size L (c : S) v : tv L c v → (size (t_logged v) < NBUF)%nat.
Proof. intros Hv. pose proof (tv_cap _ _ _ Hv). lia. Qed.

(** The indirect block is there; find or add the address in it. *)
Lemma wp_bmap_word sb v s i ip sz X j Q :
  f_sb s = sb → f_inode s !! i = Some ip → fs_blocks sb v → t_held v = [] → tv [] (f_io s) v →
  file_ok sb (t_cur v) (i_d ip) sz → (j < 128)%nat → iaddr (i_d ip) ≠ 0 →
  (faddr (t_cur v) (i_d ip) (25 + j) = 0 →
     t_logged v ⊆ X ∪ {[iaddr (i_d ip)]} ∧ (∀ b, 0 ≤ b < sb_size sb → BBLOCK b sb ∈ X) ∧ (size X + 2 < t_cap v)%nat ∧
     E "balloc: out of blocks") →
  (∀ a v' c', bmapped sb sz X v (i_d ip) (25 + j) a v' (i_d ip) → tv [] c' v' → Q a (mkfs sb (f_inode s) c')) →
  wp E (let! bp := fio (tx_bread ROOTDEV (iaddr (i_d ip))) in
        let! x := fio (tx_data bp) in
        let! addr := of_opt (get_word x (4 * j)) in
        let! addr :=
          (if decide (addr = 0) then
             let! addr := balloc ROOTDEV in
             let! y := of_opt (put_word x (4 * j) addr) in
             fio (tx_store bp y) ;;; fio (tx_log_write bp) ;;; ret addr
           else ret addr) in
        fio (tx_brelse bp) ;;; ret addr) Q s.
Proof.
  intros Hsb Hi Hfb Hh Hv Hf Hj Hia Hroom HQ. set (d := i_d ip) in *.
  pose proof (fb_layout _ _ Hfb) as Hly. pose proof (fo_len _ _ _ _ Hf) as Hl.
  destruct (fo_data _ _ _ _ Hf _ (iaddr_footprint (t_cur v) _ Hl Hia)) as [Hid Hiu].
  pose proof (data_ours _ _ Hly _ Hid) as Hio. pose proof (tv_blocks _ _ _ _ Hv Hio) as Hblk.
  pose proof (tv_cap _ _ _ Hv) as Hcap.
  eapply wp_hold; [exact Hv|exact Hio|rewrite Hh; apply not_elem_of_nil|rewrite Hh; simpl; lia|]. intros bp c1 Hbp Hv1.
  eapply wp_peek; [exact Hv1|by left|]. cbn [t_cur t_hold]. apply wp_bind.
  eapply wp_of_opt; [by apply get_word_words|]. pose proof (faddr_indirect (t_cur v) d Hl (25 + j) ltac:(lia) Hia) as Hfa.
  replace (25 + j - 25)%nat with j in Hfa by lia. rewrite <- Hfa. apply wp_bind.
  destruct (decide (faddr (t_cur v) d (25 + j) = 0)) as [Hz|Hnz].
  2:{ apply wp_ret. apply wp_bind. eapply wp_drop; [exact Hv1|rewrite (fb_loose _ _ Hfb); apply not_elem_of_empty|].
      intros c2 Hv2. apply wp_ret. rewrite <- Hsb in *. eapply (HQ _ v); [|exact Hv2].
      split; try done. apply ext_refl. }
  destruct (Hroom Hz) as (Hlog & HB & Hsz & HE).
  pose proof (size_one _ _ _ Hlog) as Hs1.
  apply wp_bind. eapply wp_balloc; [exact Hsb|by eapply hold_blocks|exact Hv1| | | |done].
  { cbn [t_logged t_held t_hold]. rewrite Hh. simpl. lia. }
  { cbn [t_logged t_cap t_hold]. lia. }
  intros b v1h c2 Halh Hv2. apply hold_allocated in Halh as (v1 & -> & Hal).
  destruct (allocated_fields _ _ _ _ Hal) as (A1 & A2 & A3 & A4 & A5 & A6 & A7 & A8 & A9).
  pose proof (data_small _ _ Hly _ (al_data _ _ _ _ Hal)) as Hbs.
  assert (words (t_cur v (iaddr d)) !! j = Some 0) as Hw0.
  { destruct (lookup_lt_is_Some_2 (words (t_cur v (iaddr d))) j) as [w Hw]; [by rewrite length_words'|].
    rewrite Hfa, nth_lookup, Hw in Hz. simpl in Hz. by rewrite Hw, Hz. }
  destruct (words_put _ j b Hblk Hj ltac:(lia)) as (y & Hy & Hyb & Hyw).
  destruct (grow_word sb v v1 d sz b Hfb Hf Hal j y Hia Hj Hw0 Hyw) as [Hgr Hfb'].
  apply wp_bind. eapply wp_of_opt; [exact Hy|].
  assert (t_ours v1 (iaddr d)) as Hio1 by (unfold t_ours in *; by rewrite A1, A2, A3).
  assert (t_logged v1 ⊆ X ∪ {[iaddr d]} ∪ {[b]}) as Hlog1.
  { rewrite A9. pose proof (HB b (data_pos _ _ _ Hly (al_data _ _ _ _ Hal))) as HBb. clear - Hlog HBb. set_solver. }
  pose proof (size_two _ _ _ _ Hlog1) as Hs2.
  apply wp_bind, wp_fio. eapply tx_store_law; [exact Hv2|by left|exact Hyb|]. intros c3 Hv3.
  apply wp_bind, wp_fio. eapply tx_log_write_law; [exact Hv3|by left|exact Hio1|cbn [t_logged t_cap t_store t_hold]; lia|].
  intros c4 Hv4. apply wp_ret. apply wp_bind, wp_fio.
  eapply tx_brelse_law; [exact Hv4|apply not_elem_of_nil|apply not_elem_of_nil|by left|cbn [t_loose t_log t_store]; clear; set_solver|].
  intros c5 Hv5. apply wp_ret. rewrite put_eq in Hv5.
  change (Q b (mkfs (f_sb s) (f_inode s) c5)). rewrite Hsb.
  eapply (HQ b (t_put (iaddr d) y v1)); [|exact Hv5].
  assert (file_ok sb (t_cur (t_put (iaddr d) y v1)) d sz) as Hf' by (by eapply grown_file).
  split; [by eapply grown_ext|done|split; [done|lia]| |by intros []|].
  - pose proof (allocated_blocks _ _ _ _ Hfb Hal) as [Hly1 Hm1 Hh1 Hl1]. split.
    + eapply layout_mono; [exact Hly1|done|done|done|]. cbn [t_cur t_put]. apply fn_lookup_insert_ne.
      pose proof (data_small _ _ Hly _ Hid). lia.
    + intros b' Hb'. rewrite (gr_used _ _ _ _ _ _ Hgr) by (pose proof (ly_data _ _ Hly); lia).
      rewrite (fb_meta _ _ Hfb) by done. done.
    + cbn [t_held t_put]. rewrite A4, Hh. intros n Hn. by apply elem_of_nil in Hn.
    + cbn [t_loose t_put]. rewrite Hl1. clear. set_solver.
  - intros _. cbn [t_logged t_put]. unfold inds. rewrite decide_False by done. clear - Hlog1. set_solver.
Qed.

Lemma bmapped_after sb v d v1 d1 sz X bn a v2 :
  layout sb v → ext sb v d v1 d1 → faddr (t_cur v) d bn = 0 → faddr (t_cur v1) d1 bn = 0 →
  bmapped sb sz X v1 d1 bn a v2 d1 → bmapped sb sz X v d bn a v2 d1.
Proof.
  intros Hly He Hz Hz1 [B1 B2 B3 B4 B5 B6]. split; try done; [by eapply ext_trans|]. intros _. by apply B6.
Qed.

Section one_block.
Context (sb : superblock) (v : tview) (s : fstate S) (i : nat) (ip : inode) (sz : Z) (X : gset Z) (bn : nat) (Q : Z → fstate S → Prop).
Context (Hsb : f_sb s = sb) (Hi : f_inode s !! i = Some ip) (Hdev : i_dev ip = ROOTDEV) (Hfb : fs_blocks sb v) (Hh : t_held v = []).
Context (Hv : tv [] (f_io s) v) (Hf : file_ok sb (t_cur v) (i_d ip) sz).
Context (Hroom : faddr (t_cur v) (i_d ip) bn = 0 → room sb v X ∧ E "balloc: out of blocks").
Context (HQ : ∀ a v' d' c', bmapped sb sz X v (i_d ip) bn a v' d' → tv [] c' v' →
  Q a (mkfs sb (<[i := set_i_d d' ip]> (f_inode s)) c')).

Lemma bmap_keep a v' c' : bmapped sb sz X v (i_d ip) bn a v' (i_d ip) → tv [] c' v' → Q a (mkfs sb (f_inode s) c').
Proof.
  intros Hb Hv'. assert (<[i := set_i_d (i_d ip) ip]> (f_inode s) = f_inode s) as <-; [|by eapply HQ].
  rewrite list_insert_id; [done|]. rewrite Hi. by destruct ip.
Qed.
Lemma wp_bmap_direct : (bn < 25)%nat → wp E (bmap i (Z.of_nat bn)) Q s.
Proof.
  intros Hlt.
  pose proof bmap_keep as HQ0. set (d := i_d ip) in *. pose proof (fb_layout _ _ Hfb) as Hly. pose proof (fo_len _ _ _ _ Hf) as Hl.
  unfold bmap. eapply wp_the_inode; [exact Hi|]. rewrite Hdev. change NDIRECT with 25. rewrite decide_True by lia.
  rewrite Nat2Z.id. eapply wp_get_addr; [exact Hi|by apply (faddr_direct (t_cur v) d Hl bn); lia|].
  destruct (decide (faddr (t_cur v) d bn = 0)) as [Hz|Hnz].
  2:{ apply wp_ret. destruct s as [sb0 l0 c0]. cbn [f_sb f_inode f_io] in *. subst sb0.
      eapply (HQ0 _ v); [|exact Hv]. split; try done. apply ext_refl. }
  destruct (Hroom Hz) as [[Hlog HB Hsz] HE]. pose proof (tv_cap _ _ _ Hv) as Hcap.
  pose proof (subseteq_size _ _ Hlog) as Hls.
  apply wp_bind. eapply wp_balloc; [exact Hsb|exact Hfb|exact Hv|rewrite Hh; simpl; lia|lia| |done].
  intros b v1 c1 Hal Hv1. apply wp_bind. eapply wp_put_addr; [exact Hi|]. apply wp_ret.
  destruct (grow_addr sb v v1 d sz b Hfb Hf Hal bn) as (Hgr & Hfa & _);
    [lia|rewrite <- Hz; apply (faddr_direct (t_cur v) d Hl bn); lia|].
  change (Q b (mkfs (f_sb s) (<[i := set_i_d (set_di_addrs (<[bn := b]> (di_addrs d)) d) ip]> (f_inode s)) c1)).
  rewrite Hsb. eapply HQ; [|exact Hv1].
  destruct (allocated_fields _ _ _ _ Hal) as (_ & _ & _ & _ & _ & _ & _ & _ & A9).
  pose proof (HB b (data_pos _ _ _ Hly (al_data _ _ _ _ Hal))) as HBb.
  split; [by eapply grown_ext|by eapply grown_file|split; [by apply Hfa; lia|by eapply alloc_nonzero]
         |by eapply allocated_blocks|by intros []|].
  intros _. rewrite A9. clear - Hlog HBb. set_solver.
Qed.
Lemma wp_bmap_indirect : (25 ≤ bn < 153)%nat → wp E (bmap i (Z.of_nat bn)) Q s.
Proof.
  intros Hbn. assert (i < length (f_inode s))%nat as Hil by (by eapply lookup_lt_Some).
  pose proof bmap_keep as HQ0. set (d := i_d ip) in *. pose proof (fb_layout _ _ Hfb) as Hly. pose proof (fo_len _ _ _ _ Hf) as Hl.
  unfold bmap. eapply wp_the_inode; [exact Hi|]. rewrite Hdev. change NDIRECT with 25. rewrite decide_False by lia.
  change NINDIRECT with 128. rewrite decide_True by lia.
  replace (Z.to_nat (Z.of_nat bn - 25)) with (bn - 25)%nat by lia.
  change (Z.to_nat 25) with 25%nat.
  assert (25 + (bn - 25) = bn)%nat as Hbe by lia.
  eapply wp_get_addr; [exact Hi|by apply addrs_iaddr|]. apply wp_bind. fold d.
  destruct (decide (iaddr d = 0)) as [Hi0|Hi0].
  + pose proof (faddr_no_indirect (t_cur v) d Hl bn ltac:(lia) Hi0) as Hz.
    destruct (Hroom Hz) as [[Hlog HB Hsz] HE]. pose proof (tv_cap _ _ _ Hv) as Hcap.
    pose proof (subseteq_size _ _ Hlog) as Hls.
    apply wp_bind. eapply wp_balloc; [exact Hsb|exact Hfb|exact Hv|rewrite Hh; simpl; lia|lia| |done].
    intros b v1 c1 Hal Hv1. apply wp_bind. eapply wp_put_addr; [exact Hi|]. apply wp_ret.
    destruct (grow_addr sb v v1 d sz b Hfb Hf Hal 25) as (Hgr & _ & Hia');
      [lia|by rewrite <- Hi0; apply addrs_iaddr|]. specialize (Hia' eq_refl).
    set (d1 := set_di_addrs (<[25%nat := b]> (di_addrs d)) d) in *. set (ip1 := set_i_d d1 ip).
    destruct (allocated_fields _ _ _ _ Hal) as (A1 & A2 & A3 & A4 & A5 & A6 & A7 & A8 & A9).
    pose proof (HB b (data_pos _ _ _ Hly (al_data _ _ _ _ Hal))) as HBb.
    assert (b ≠ 0) as Hb0 by (by eapply alloc_nonzero).
    assert (faddr (t_cur v1) d1 bn = 0) as Hz1.
    { rewrite faddr_indirect; [|apply Hgr|lia|by rewrite Hia']. rewrite Hia', A8, words_zeros.
      rewrite nth_lookup. destruct (replicate 128 0 !! (bn - 25)%nat) as [z|] eqn:Hr; [|done].
      by apply lookup_replicate in Hr as [-> _]. }
    change (wp E (let! bp := fio (tx_bread ROOTDEV b) in
      let! x := fio (tx_data bp) in
      let! addr := of_opt (get_word x (4 * (bn - 25))) in
      let! addr :=
        (if decide (addr = 0) then
           let! addr := balloc ROOTDEV in
           let! y := of_opt (put_word x (4 * (bn - 25)) addr) in
           fio (tx_store bp y) ;;; fio (tx_log_write bp) ;;; ret addr
         else ret addr) in
      fio (tx_brelse bp) ;;; ret addr) Q (mkfs (f_sb s) (<[i := ip1]> (f_inode s)) c1)).
    rewrite <- Hia'.
    eapply (wp_bmap_word sb v1 _ i ip1 sz X (bn - 25)); [exact Hsb|by apply list_lookup_insert_eq| | |exact Hv1|
      by eapply grown_file|lia|by change (i_d ip1) with d1; rewrite Hia'| |].
    * by eapply allocated_blocks.
    * by rewrite A4.
    * intros _. change (i_d ip1) with d1. rewrite Hia', A5, A9. split_and!; [|done|done|done]. clear - Hlog HBb. set_solver.
    * intros a v2 c2 Hbm Hv2. rewrite Hbe in Hbm. cbn [f_inode]. eapply HQ; [|exact Hv2].
      eapply (bmapped_after sb v d v1 d1); [done|by eapply grown_ext|done|done|exact Hbm].
  + apply wp_ret. eapply (wp_bmap_word sb v s i ip sz X (bn - 25)); try done; [lia| |].
    * rewrite Hbe. intros Hz. destruct (Hroom Hz) as [[Hlog HB Hsz] HE]. split_and!; try done.
      clear - Hlog. set_solver.
    * rewrite Hbe. exact HQ0.
Qed.
End one_block.

Lemma wp_bmap sb v s i ip sz X bn Q :
  f_sb s = sb → f_inode s !! i = Some ip → i_dev ip = ROOTDEV → fs_blocks sb v → t_held v = [] →
  tv [] (f_io s) v → file_ok sb (t_cur v) (i_d ip) sz → (bn < 153)%nat →
  (faddr (t_cur v) (i_d ip) bn = 0 → room sb v X ∧ E "balloc: out of blocks") →
  (∀ a v' d' c', bmapped sb sz X v (i_d ip) bn a v' d' → tv [] c' v' →
     Q a (mkfs sb (<[i := set_i_d d' ip]> (f_inode s)) c')) →
  wp E (bmap i (Z.of_nat bn)) Q s.
Proof.
  intros. destruct (decide (bn < 25)%nat); [by eapply wp_bmap_direct|eapply wp_bmap_indirect; (done || lia)].
Qed.
End bmap.
