(* ===== verification/FsRw.v ===== *)
(** * Reading and writing files: readi and writei *)

From S2P Require Import Prelude CString Words ProcData Sync Block Log Tx Fs FsBlocks FsInode FsFile.
Local Open Scope Z_scope.
Implicit Types (x y : list Z).

(** The [n] bytes of a file from offset [o] on. *)
Definition fbytes (cur : Z → block) (d : dinode) (o n : nat) : list Z := fbyte cur d <$> seq o n.

Lemma length_fbytes cur d o n : length (fbytes cur d o n) = n.
Proof. unfold fbytes. by rewrite length_fmap, length_seq. Qed.
Lemma fbytes_app cur d o n m : fbytes cur d o (n + m) = fbytes cur d o n ++ fbytes cur d (o + n) m.
Proof. unfold fbytes. by rewrite seq_app, fmap_app. Qed.

(** A run of bytes inside one block. *)
Lemma same_block o m k : (o mod 512 + m ≤ 512)%nat → (k < m)%nat →
  ((o + k) / 512 = o / 512)%nat ∧ ((o + k) mod 512 = o mod 512 + k)%nat.
Proof.
  intros Hm Hk. pose proof (Nat.div_mod_eq o 512). pose proof (Nat.mod_upper_bound o 512).
  assert (o + k = 512 * (o / 512) + (o mod 512 + k))%nat as He by lia. split.
  - symmetry. eapply Nat.div_unique; [|exact He]. lia.
  - symmetry. eapply Nat.mod_unique; [|exact He]. lia.
Qed.
Lemma block_bytes (cur : Z → block) d o m :
  length (cur (faddr cur d (o / 512)) : list Z) = 512%nat → (o mod 512 + m ≤ 512)%nat →
  take m (drop (o mod 512) (cur (faddr cur d (o / 512)) : list Z)) = fbytes cur d o m.
Proof.
  intros Hl Hm. set (x := cur (faddr cur d (o / 512)) : list Z) in *.
  assert (length (take m (drop (o mod 512) x)) = m) as Hlt by (rewrite length_take, length_drop; lia).
  apply list_eq_nth; [by rewrite Hlt, length_fbytes|]. intros j.
  destruct (decide (j < m)%nat) as [Hj|Hj].
  - rewrite !nth_lookup, lookup_take_lt, lookup_drop by done. unfold fbytes.
    rewrite list_lookup_fmap, lookup_seq_lt by done. cbn [fmap option_fmap option_map default]. unfold fbyte.
    destruct (same_block o m j Hm Hj) as [-> ->]. fold x. by rewrite nth_lookup.
  - rewrite !nth_overflow; [done|rewrite length_fbytes; lia|rewrite Hlt; lia].
Qed.

Section readi.
Context {S : Type} `{TxLaws S} (E : string → Prop).
Implicit Types (s : fstate S) (v : tview) (ip : inode).

(** An inode locked by the caller, with its contents on the disk. *)
Record file_at (sb : superblock) (v : tview) (s : fstate S) (i : nat) (ip : inode) (sz : Z) : Prop := mkfa {
  fa_sb : f_sb s = sb;
  fa_inode : f_inode s !! i = Some ip;
  fa_dev : i_dev ip = ROOTDEV;
  fa_blocks : fs_blocks sb v;
  fa_held : t_held v = [];
  fa_tv : tv [] (f_io s) v;
  fa_file : file_ok sb (t_cur v) (i_d ip) sz
}.
Lemma file_at_io sb v s i ip sz c' : file_at sb v s i ip sz → tv [] c' v → file_at sb v (set_f_io c' s) i ip sz.
Proof. intros [] ?. by split. Qed.

Lemma mapped_block sb v s i ip sz bn :
  file_at sb v s i ip sz → faddr (t_cur v) (i_d ip) bn ≠ 0 →
  t_ours v (faddr (t_cur v) (i_d ip) bn) ∧ length (t_cur v (faddr (t_cur v) (i_d ip) bn) : list Z) = 512%nat.
Proof.
  intros Hfa Hn. pose proof (fb_layout _ _ (fa_blocks _ _ _ _ _ _ Hfa)) as Hly.
  destruct (fo_data _ _ _ _ (fa_file _ _ _ _ _ _ Hfa) _ (faddr_footprint _ _ _ Hn)) as [Hd _].
  pose proof (data_ours _ _ Hly _ Hd) as Ho. split; [done|].
  pose proof (tv_blocks _ _ _ _ (fa_tv _ _ _ _ _ _ Hfa) Ho) as Hb. unfold is_block, BSIZE in Hb. lia.
Qed.

Lemma wp_readi_loop sb v s i ip sz fuel tot o r dst Q :
  file_at sb v s i ip sz → Z.of_nat (o + r) ≤ sz → (0 < fuel)%nat →
  (0 < r → o mod 512 + r ≤ (fuel - 1) * 512)%nat →
  (∀ c', tv [] c' v → Q (dst ++ fbytes (t_cur v) (i_d ip) o r) (set_f_io c' s)) →
  wp E (readi_loop fuel i tot (Z.of_nat o) (tot + Z.of_nat r) dst) Q s.
Proof.
  revert s tot o r dst. induction fuel as [|fuel IH]; intros s tot o r dst Hfa Hsz Hf0 Hfuel HQ; [lia|].
  cbn [readi_loop]. destruct (decide (tot < tot + Z.of_nat r)) as [Hlt|Hge].
  2:{ assert (r = 0)%nat as -> by lia. apply wp_ret. specialize (HQ (f_io s) (fa_tv _ _ _ _ _ _ Hfa)).
      unfold fbytes in HQ. cbn [seq fmap list_fmap] in HQ. rewrite app_nil_r in HQ. by destruct s. }
  specialize (Hfuel ltac:(lia)). pose proof Hfa as [F1 F2 F3 F4 F5 F6 F7].
  pose proof (Nat.mod_upper_bound o 512 ltac:(lia)) as Hmo. pose proof (Nat.div_mod_eq o 512) as Hdm.
  destruct (fo_mapped _ _ _ _ F7 (o / 512)%nat) as [Hbn Hmap]; [lia|].
  eapply wp_the_inode; [exact F2|]. unfold BSIZE.
  replace (Z.of_nat o / 512) with (Z.of_nat (o / 512)) by (by rewrite Nat2Z.inj_div).
  replace (Z.of_nat o mod 512) with (Z.of_nat (o mod 512)) by (by rewrite Nat2Z.inj_mod).
  apply wp_bind. eapply (wp_bmap E sb v s i ip sz ∅); try done.
  intros a v' d' c1 Hbm Hv1. destruct (bm_old _ _ _ _ _ _ _ _ _ Hbm Hmap) as [-> ->].
  destruct (bm_addr _ _ _ _ _ _ _ _ _ Hbm) as [<- _].
  destruct (mapped_block _ _ _ _ _ _ _ Hfa Hmap) as [Hours Hblk]. rewrite F3.
  replace (set_i_d (i_d ip) ip) with ip by (by destruct ip). rewrite list_insert_id by done.
  eapply wp_hold; [exact Hv1|exact Hours|rewrite F5; apply not_elem_of_nil|rewrite F5; simpl|].
  { pose proof (tv_cap _ _ _ F6). lia. }
  intros bp c2 Hbp Hv2. eapply wp_peek; [exact Hv2|by left|]. cbn [t_cur t_hold].
  apply wp_bind. eapply wp_drop; [exact Hv2|rewrite (fb_loose _ _ F4); apply not_elem_of_empty|]. intros c3 Hv3.
  set (m := Nat.min r (512 - o mod 512)).
  replace (Z.min (tot + Z.of_nat r - tot) (512 - Z.of_nat (o mod 512))) with (Z.of_nat m) by (unfold m; lia).
  rewrite !Nat2Z.id, block_bytes by (done || (unfold m; lia)).
  replace (Z.of_nat o + Z.of_nat m) with (Z.of_nat (o + m)) by lia.
  replace (tot + Z.of_nat r) with (tot + Z.of_nat m + Z.of_nat (r - m)) by (unfold m; lia).
  subst sb. destruct s as [sb l c]. cbn [set_f_io f_sb f_inode f_io] in *.
  apply IH; [by apply (file_at_io _ _ _ _ _ _ c3 Hfa)|unfold m; lia|lia| |].
  - intros Hr. assert (m = 512 - o mod 512)%nat as Hm by (unfold m in *; lia).
    assert ((o + m) mod 512 = 0)%nat as ->.
    { symmetry. apply (Nat.mod_unique _ _ (Datatypes.S (o / 512))); lia. }
    unfold m in *. lia.
  - intros c4 Hv4. rewrite <- app_assoc, <- fbytes_app. replace (m + (r - m))%nat with r by (unfold m; lia).
    by apply HQ.
Qed.

(** Reading past the end is cut short; an offset past the end or one that wraps
    around is an error. *)
Definition read_count (d : dinode) (off n : Z) : nat := Z.to_nat (Z.min n (di_size d - off)).
Lemma wp_readi dr sb v s i ip off n Q :
  file_at sb v s i ip (di_size (i_d ip)) → di_type (i_d ip) ≠ T_DEV →
  0 ≤ di_size (i_d ip) < 2 ^ 31 → 0 ≤ off < 2 ^ 32 → 0 ≤ n < 2 ^ 32 →
  (off > di_size (i_d ip) ∨ 2 ^ 32 ≤ off + n → Q (-1, []) s) →
  (off ≤ di_size (i_d ip) → off + n < 2 ^ 32 → ∀ c', tv [] c' v →
     let k := read_count (i_d ip) off n in
     Q (Z.of_nat k, fbytes (t_cur v) (i_d ip) (Z.to_nat off) k) (set_f_io c' s)) →
  wp E (readi dr i off n) Q s.
Proof.
  intros Hfa Hty Hsz Hoff Hn Herr HQ. set (d := i_d ip) in *. unfold readi.
  eapply wp_the_inode; [apply Hfa|]. fold d. rewrite (decide_False (P := di_type d = T_DEV)) by done.
  assert (u32 (off + n) < off ↔ 2 ^ 32 ≤ off + n) as Hwrap.
  { unfold u32. destruct (decide (off + n < 2 ^ 32)).
    - rewrite Z.mod_small by lia. lia.
    - replace (off + n) with (off + n - 2 ^ 32 + 1 * 2 ^ 32) by lia. rewrite Z.mod_add by lia.
      rewrite Z.mod_small by lia. lia. }
  destruct (decide (off > di_size d ∨ u32 (off + n) < off)) as [He|He].
  { apply wp_ret, Herr. rewrite Hwrap in He. done. }
  assert (off ≤ di_size d ∧ off + n < 2 ^ 32) as [Ho Hov] by (rewrite Hwrap in He; lia).
  rewrite u32_small by lia. set (k := read_count d off n).
  assert ((if decide (off + n > di_size d) then di_size d - off else n) = Z.of_nat k) as ->.
  { unfold k, read_count. case_decide; lia. }
  assert (Z.of_nat k ≤ n ∧ Z.of_nat k ≤ di_size d - off) as [Hk1 Hk2] by (unfold k, read_count; lia).
  apply wp_bind. replace off with (Z.of_nat (Z.to_nat off)) at 1 by lia.
  replace (Z.of_nat k) with (0 + Z.of_nat k) at 2 by lia.
  eapply wp_readi_loop; [exact Hfa|lia|lia| |].
  - intros Hk. pose proof (Nat.mod_upper_bound (Z.to_nat off) 512).
    replace (Z.to_nat (Z.of_nat k / BSIZE)) with (k / 512)%nat
      by (unfold BSIZE; rewrite <- (Nat2Z.id (k / 512)), Nat2Z.inj_div; done).
    pose proof (Nat.div_mod_eq k 512). pose proof (Nat.mod_upper_bound k 512). lia.
  - intros c' Hv'. apply wp_ret. rewrite s32_small by lia. by apply HQ.
Qed.
End readi.

(** ** Writing *)
(** What writing to the file [d] leaves alone. *)
Record evolves (sb : superblock) (v : tview) (d : dinode) (v' : tview) (d' : dinode) : Prop := mkev {
  ev_faddr : ∀ bn, faddr (t_cur v) d bn ≠ 0 → faddr (t_cur v') d' bn = faddr (t_cur v) d bn;
  ev_meta : ∀ n, n < sb_bmapstart sb → t_cur v' n = t_cur v n;
  ev_frame : ∀ n, is_data sb n → used sb (t_cur v) n = true → n ∉ footprint (t_cur v) d → t_cur v' n = t_cur v n;
  ev_used : ∀ n, 0 ≤ n < sb_size sb → used sb (t_cur v) n = true → used sb (t_cur v') n = true;
  ev_foot : ∀ a, a ∈ footprint (t_cur v') d' → a ∈ footprint (t_cur v) d ∨
    is_data sb a ∧ used sb (t_cur v) a = false;
  ev_same : d' = set_di_addrs (di_addrs d') d;
  ev_iaddr : iaddr d ≠ 0 → iaddr d' = iaddr d;
  ev_fields : t_size v' = t_size v ∧ t_lo v' = t_lo v ∧ t_hi v' = t_hi v ∧ t_held v' = t_held v ∧
    t_cap v' = t_cap v
}.
Lemma evolves_refl sb v d : evolves sb v d v d.
Proof. split; try done; [auto|]. by destruct d. Qed.
Lemma evolves_trans sb v d v1 d1 v2 d2 :
  layout sb v → evolves sb v d v1 d1 → evolves sb v1 d1 v2 d2 → evolves sb v d v2 d2.
Proof.
  intros Hly [K1 M1 F1 U1 P1 S1 I1 (A1 & A2 & A3 & A4 & A5)] [K2 M2 F2 U2 P2 S2 I2 (B1 & B2 & B3 & B4 & B5)]. split.
  - intros bn Hn. rewrite K2; [by apply K1|]. by rewrite K1.
  - intros n Hn. by rewrite M2, M1.
  - intros n Hd Hu Hn. rewrite F2, F1; try done; [apply U1; [by eapply data_pos|done]|].
    intros Hin. destruct (P1 n Hin) as [|[_ ?]]; [done|congruence].
  - auto.
  - intros a Ha. destruct (P2 a Ha) as [Ha'|[Hd Hu]]; [by apply P1|].
    destruct (used sb (t_cur v) a) eqn:Hua; [|by right].
    rewrite U1 in Hu; [done|by eapply data_pos|done].
  - rewrite S2, S1. by destruct d.
  - intros Hi. rewrite I2; [by apply I1|]. by rewrite I1.
  - split_and!; congruence.
Qed.

(** A data block of the file overwritten. *)
Section overwrite.
Context (sb : superblock) (v : tview) (d : dinode) (sz : Z) (bn : nat) (y : block).
Context (Hly : layout sb v) (Hf : file_ok sb (t_cur v) d sz) (Hn : faddr (t_cur v) d bn ≠ 0).
Let a := faddr (t_cur v) d bn.
Let v' := t_put a y v.

Lemma overwrite_data : is_data sb a ∧ used sb (t_cur v) a = true ∧ a ≠ iaddr d.
Proof.
  destruct (fo_data _ _ _ _ Hf a (faddr_footprint _ _ _ Hn)). split_and!; [done|done|].
  apply faddr_not_iaddr; [apply Hf|apply Hf|exact Hn].
Qed.
Lemma overwrite_slots : slots (t_cur v') d = slots (t_cur v) d.
Proof.
  destruct overwrite_data as (_ & _ & Hi). unfold slots. f_equal. case_decide; [done|].
  cbn [v' t_cur t_put]. by rewrite fn_lookup_insert_ne.
Qed.
Lemma overwrite_faddr b : faddr (t_cur v') d b = faddr (t_cur v) d b.
Proof. unfold faddr. by rewrite overwrite_slots. Qed.
Lemma overwrite_used n : 0 ≤ n < sb_size sb → used sb (t_cur v') n = used sb (t_cur v) n.
Proof.
  intros Hn'. destruct overwrite_data as (Hd & _ & _). unfold used. cbn [v' t_cur t_put].
  rewrite fn_lookup_insert_ne; [done|]. by eapply data_not_map.
Qed.
Lemma overwrite_evolves : evolves sb v d v' d.
Proof.
  destruct overwrite_data as (Hd & Hu & Hi). split; try done.
  - intros b _. apply overwrite_faddr.
  - intros n Hn'. cbn [v' t_cur t_put]. rewrite fn_lookup_insert_ne; [done|].
    pose proof (data_after_map _ _ _ Hly Hd). lia.
  - intros n Hnd Hnu Hnf. cbn [v' t_cur t_put]. rewrite fn_lookup_insert_ne; [done|].
    intros <-. apply Hnf. by apply faddr_footprint.
  - intros n Hn' Hu'. by rewrite overwrite_used.
  - intros b. unfold footprint. rewrite overwrite_slots. by left.
  - by destruct d.
Qed.
Lemma overwrite_file : file_ok sb (t_cur v') d sz.
Proof.
  destruct Hf as [F1 F2 F3 F4]. split; [done| | |].
  - unfold footprint. rewrite overwrite_slots. intros b Hb. destruct (F2 b Hb) as [H1 H2]. split; [done|].
    rewrite overwrite_used; [done|]. by eapply data_pos.
  - unfold footprint. by rewrite overwrite_slots.
  - intros b Hb. rewrite overwrite_faddr. by apply F4.
Qed.
Lemma overwrite_blocks : fs_blocks sb v → fs_blocks sb v'.
Proof.
  intros [_ Hm Hh Hl]. destruct overwrite_data as (Hd & Hu & Hi). pose proof (data_small _ _ Hly _ Hd).
  pose proof (ly_data _ _ Hly). split.
  - eapply layout_mono; [exact Hly|done|done|done|]. cbn [v' t_cur t_put]. rewrite fn_lookup_insert_ne by lia. done.
  - intros b Hb. rewrite overwrite_used by lia. by apply Hm.
  - intros n Hn'. destruct (Hh n Hn') as [H1 H2]. split; [done|]. rewrite overwrite_used; [done|]. by eapply data_pos.
  - cbn [v' t_loose t_put]. rewrite Hl. clear. set_solver.
Qed.
Lemma overwrite_byte k :
  fbyte (t_cur v') d k =
  if decide ((k / 512)%nat = bn) then nth (k mod 512) (y : list Z) 0
  else if decide (faddr (t_cur v) d (k / 512) = 0) then fbyte (t_cur v') d k
  else fbyte (t_cur v) d k.
Proof.
  unfold fbyte. rewrite overwrite_faddr. case_decide as Hk.
  - rewrite Hk. cbn [v' t_cur t_put]. by rewrite fn_lookup_insert.
  - case_decide as Hz; [done|]. cbn [v' t_cur t_put]. rewrite fn_lookup_insert_ne; [done|].
    intros Heq. apply Hk. exact (faddr_inj _ _ (fo_len _ _ _ _ Hf) _ _ (fo_nodup _ _ _ _ Hf) Hz (eq_sym Heq)).
Qed.
End overwrite.

Lemma ext_evolves sb v d v' d' : ext sb v d v' d' → evolves sb v d v' d'.
Proof. intros [K M F U P S' I A]. split; try done. intros bn Hbn. by destruct (K bn Hbn). Qed.
Lemma ext_bytes sb v d v' d' k :
  ext sb v d v' d' → faddr (t_cur v) d (k / 512) ≠ 0 → fbyte (t_cur v') d' k = fbyte (t_cur v) d k.
Proof. intros Hx Hn. destruct (ex_keep _ _ _ _ _ Hx _ Hn) as [H1 H2]. unfold fbyte. by rewrite H1, H2. Qed.

(** The bytes [src] are in the file from offset [o] on, the others as before. *)
Record wrote (sb : superblock) (v : tview) (d : dinode) (o : nat) (src : list Z)
    (v' : tview) (d' : dinode) (sz' : Z) : Prop := mkwt {
  wt_ev : evolves sb v d v' d';
  wt_file : file_ok sb (t_cur v') d' sz';
  wt_blocks : fs_blocks sb v';
  wt_new : ∀ k, (o ≤ k < o + length src)%nat →
    faddr (t_cur v') d' (k / 512) ≠ 0 ∧ fbyte (t_cur v') d' k = nth (k - o) src 0;
  wt_old : ∀ k, (k < o ∨ o + length src ≤ k)%nat → faddr (t_cur v) d (k / 512) ≠ 0 →
    fbyte (t_cur v') d' k = fbyte (t_cur v) d k
}.
Lemma wrote_nil sb v d o sz : fs_blocks sb v → file_ok sb (t_cur v) d sz → wrote sb v d o [] v d sz.
Proof. intros Hb Hf. split; [apply evolves_refl|done|done| |done]. simpl. lia. Qed.
Lemma wrote_app sb v d o s1 v1 d1 sz1 s2 v2 d2 sz2 :
  layout sb v → wrote sb v d o s1 v1 d1 sz1 → wrote sb v1 d1 (o + length s1) s2 v2 d2 sz2 →
  wrote sb v d o (s1 ++ s2) v2 d2 sz2.
Proof.
  intros Hly [E1 F1 B1 N1 O1] [E2 F2 B2 N2 O2]. split; [by eapply evolves_trans|done|done| |].
  - intros k Hk. rewrite length_app in Hk. destruct (decide (k < o + length s1)%nat) as [Hlt|Hge].
    + destruct (N1 k) as [Hm Hb]; [lia|]. split; [by rewrite (ev_faddr _ _ _ _ _ E2)|].
      rewrite O2, Hb by (done || lia). rewrite !nth_lookup, lookup_app_l by lia. done.
    + destruct (N2 k) as [Hm Hb]; [lia|]. split; [done|]. rewrite Hb, !nth_lookup, lookup_app_r by lia.
      do 2 f_equal. lia.
  - intros k Hk Hn. rewrite length_app in Hk. rewrite O2; [apply O1; [lia|done]|lia|].
    by rewrite (ev_faddr _ _ _ _ _ E1).
Qed.

(** One round of the loop: part of one block. *)
Lemma wrote_block sb sz X v d o src a v1 d1 (x : list Z) :
  layout sb v → bmapped sb sz X v d (o / 512) a v1 d1 → t_cur v1 a = x → length x = 512%nat →
  src ≠ [] → (o mod 512 + length src ≤ 512)%nat → Z.of_nat o ≤ sz → (o / 512 < 153)%nat →
  wrote sb v d o src (t_put a (splice x (o mod 512) src) v1) d1 (Z.max sz (Z.of_nat (o + length src))).
Proof.
  intros Hly Hbm Hx Hlx Hne Hfit Ho Hbn. pose proof Hbm as [Bx Bf [Ba Ba0] Bb _ _].
  pose proof (fb_layout _ _ Bb) as Hly1. assert (faddr (t_cur v1) d1 (o / 512) ≠ 0) as Hn1 by (by rewrite Ba).
  pose proof (overwrite_evolves sb v1 d1 sz (o / 512) (splice x (o mod 512) src) Hly1 Bf Hn1) as Ov.
  pose proof (overwrite_file sb v1 d1 sz (o / 512) (splice x (o mod 512) src) Hly1 Bf Hn1) as Of.
  pose proof (overwrite_blocks sb v1 d1 sz (o / 512) (splice x (o mod 512) src) Hly1 Bf Hn1 Bb) as Ob.
  pose proof (overwrite_byte sb v1 d1 sz (o / 512) (splice x (o mod 512) src) Bf Hn1) as Oy.
  pose proof (overwrite_faddr sb v1 d1 sz (o / 512) (splice x (o mod 512) src) Bf Hn1) as Oa.
  rewrite Ba in *. set (v2 := t_put a (splice x (o mod 512) src) v1) in *.
  pose proof (Nat.div_mod_eq o 512) as Hdm. pose proof (Nat.mod_upper_bound o 512 ltac:(lia)) as Hmu.
  assert (0 < length src)%nat as Hpos by (destruct src; [done|simpl; lia]).
  split; [| |done| |].
  - eapply evolves_trans; [exact Hly|by apply ext_evolves|done].
  - destruct Of as [F1 F2 F3 F4]. split; try done. intros b Hb.
    destruct (decide (512 * Z.of_nat b < sz)); [by apply F4|].
    assert (b = o / 512)%nat as -> by lia. split; [done|]. by rewrite Oa, Ba.
  - intros k Hk. destruct (same_block o (length src) (k - o) Hfit ltac:(lia)) as [Hq Hr].
    replace (o + (k - o))%nat with k in Hq, Hr by lia. rewrite Hq. split; [by rewrite Oa, Ba|].
    rewrite Oy, Hq, decide_True, Hr by done. rewrite nth_splice by (rewrite Hlx; lia).
    rewrite decide_True by lia. f_equal. lia.
  - intros k Hk Hn. rewrite Oy. pose proof (ex_keep _ _ _ _ _ Bx _ Hn) as [Hka Hkc].
    case_decide as Hq.
    + rewrite nth_splice by (rewrite Hlx; lia). rewrite decide_False.
      * rewrite <- (ext_bytes _ _ _ _ _ _ Bx Hn). unfold fbyte. by rewrite Hq, Ba, Hx.
      * pose proof (Nat.div_mod_eq k 512). lia.
    + rewrite decide_False by (by rewrite Hka). by eapply ext_bytes.
Qed.

Section writei.
Context {S : Type} `{TxLaws S} (E : string → Prop).
Implicit Types (s : fstate S) (v : tview) (ip : inode).

(** The transaction has room for [nb] more blocks of the file, beside the blocks
    of [Y], the indirect block and the inode. *)
Record wroom (sb : superblock) (v : tview) (d : dinode) (Y : gset Z) (nb : nat) : Prop := mkwr {
  wr_logged : t_logged v ⊆ Y ∪ inds d;
  wr_map : ∀ b, 0 ≤ b < sb_size sb → BBLOCK b sb ∈ Y;
  wr_size : (size Y + nb + 2 < t_cap v)%nat
}.
Lemma size_inds (Y : gset Z) d : (size (Y ∪ inds d) ≤ size Y + 1)%nat.
Proof.
  unfold inds. case_decide.
  - rewrite union_empty_r_L. lia.
  - apply (size_one Y _ (iaddr d)). done.
Qed.
Lemma wroom_room sb v d Y nb : wroom sb v d Y (Datatypes.S nb) → room sb v (Y ∪ inds d).
Proof.
  intros [W1 W2 W3]. split; [done| |].
  - intros b Hb. apply elem_of_union_l. by apply W2.
  - pose proof (size_inds Y d). lia.
Qed.
Lemma wroom_step sb sz v d bn a v1 d1 Y nb (x : block) :
  bmapped sb sz (Y ∪ inds d) v d bn a v1 d1 → wroom sb v d Y (Datatypes.S nb) →
  wroom sb (t_put a x v1) d1 (Y ∪ {[a]}) nb.
Proof.
  intros [Bx _ _ _ Bo Bl] [W1 W2 W3]. destruct (ex_fields _ _ _ _ _ Bx) as (_ & _ & _ & _ & Hc).
  assert (inds d ⊆ inds d1) as Hi.
  { unfold inds. destruct (decide (iaddr d = 0)) as [|Hne]; [apply empty_subseteq|].
    rewrite (ex_iaddr _ _ _ _ _ Bx Hne), decide_False by done. done. }
  assert (t_logged v1 ⊆ Y ∪ inds d1 ∪ {[a]}) as Hl.
  { destruct (decide (faddr (t_cur v) d bn = 0)) as [Hz|Hz].
    - specialize (Bl Hz). clear - Bl Hi. set_solver.
    - destruct (Bo Hz) as [-> ->]. clear - W1. set_solver. }
  split.
  - cbn [t_logged t_put]. clear - Hl. set_solver.
  - intros b Hb. apply elem_of_union_l. by apply W2.
  - cbn [t_cap t_put]. rewrite Hc. pose proof (size_one Y (Y ∪ {[a]}) a ltac:(done)). lia.
Qed.

Lemma wp_writei_loop sb v s i ip sz fuel tot o src Y nb Q :
  file_at sb v s i ip sz → Z.of_nat o ≤ sz → (o + length src ≤ 153 * 512)%nat → (0 < fuel)%nat →
  (0 < length src → o mod 512 + length src ≤ (fuel - 1) * 512)%nat →
  (0 < length src → o mod 512 + length src ≤ nb * 512)%nat →
  wroom sb v (i_d ip) Y nb → (sz < Z.of_nat (o + length src) → E "balloc: out of blocks") →
  (∀ v' d' c', wrote sb v (i_d ip) o src v' d' (Z.max sz (Z.of_nat (o + length src))) →
     (size (t_logged v') + 1 < t_cap v')%nat → (Z.of_nat (o + length src) ≤ sz → d' = i_d ip) → tv [] c' v' →
     Q (Z.of_nat (o + length src)) (mkfs sb (<[i := set_i_d d' ip]> (f_inode s)) c')) →
  wp E (writei_loop fuel i tot (Z.of_nat o) (tot + Z.of_nat (length src)) src) Q s.
Proof.
  revert v s ip sz tot o src Y nb. induction fuel as [|fuel IH];
    intros v s ip sz tot o src Y nb Hfa Ho Hmax Hf0 Hfuel Hnb Hwr HE HQ; [lia|].
  cbn [writei_loop]. pose proof Hfa as [F1 F2 F3 F4 F5 F6 F7].
  destruct (decide (tot < tot + Z.of_nat (length src))) as [Hlt|Hge].
  2:{ assert (length src = 0)%nat as Hl0 by lia. apply nil_length_inv in Hl0 as ->. apply wp_ret.
      specialize (HQ v (i_d ip) (f_io s)). cbn [length] in HQ. rewrite Nat.add_0_r in HQ.
      replace (set_i_d (i_d ip) ip) with ip in HQ by (by destruct ip). rewrite list_insert_id in HQ by done.
      rewrite Z.max_l in HQ by lia. subst sb. destruct s as [sb l c]. apply HQ; [by apply wrote_nil| |done|done].
      destruct Hwr as [W1 W2 W3]. pose proof (size_inds Y (i_d ip)). pose proof (subseteq_size _ _ W1). lia. }
  specialize (Hfuel ltac:(lia)). specialize (Hnb ltac:(lia)).
  pose proof (Nat.mod_upper_bound o 512 ltac:(lia)) as Hmo. pose proof (Nat.div_mod_eq o 512) as Hdm.
  destruct nb as [|nb]; [lia|]. assert (o / 512 < 153)%nat as Hbn by lia.
  eapply wp_the_inode; [exact F2|]. unfold BSIZE.
  replace (Z.of_nat o / 512) with (Z.of_nat (o / 512)) by (by rewrite Nat2Z.inj_div).
  replace (Z.of_nat o mod 512) with (Z.of_nat (o mod 512)) by (by rewrite Nat2Z.inj_mod).
  apply wp_bind. eapply (wp_bmap E sb v s i ip sz (Y ∪ inds (i_d ip))); try done.
  { intros Hz. split; [by eapply wroom_room|]. apply HE.
    destruct (decide (512 * Z.of_nat (o / 512) < sz)) as [Hs|Hs]; [|lia].
    by destruct (fo_mapped _ _ _ _ F7 _ Hs) as [_ []]. }
  intros a v1 d1 c1 Hbm Hv1. pose proof Hbm as [Bx Bf [Ba Ba0] Bb Bo Bl]. rewrite F3.
  set (ip1 := set_i_d d1 ip). destruct (ex_fields _ _ _ _ _ Bx) as (X1 & X2 & X3 & X4 & X5).
  assert (file_at sb v1 (mkfs sb (<[i := ip1]> (f_inode s)) c1) i ip1 sz) as Hfa1.
  { split; [done| |done|done|by rewrite X4|done|done]. apply list_lookup_insert_eq. by eapply lookup_lt_Some. }
  assert (faddr (t_cur v1) (i_d ip1) (o / 512) ≠ 0) as Hmap1 by (unfold ip1; cbn [i_d set_i_d]; by rewrite Ba).
  destruct (mapped_block _ _ _ _ _ _ _ Hfa1 Hmap1) as [Hours Hblk]. cbn [ip1 i_d set_i_d] in Hours, Hblk.
  rewrite Ba in Hours, Hblk.
  eapply wp_hold; [exact Hv1|exact Hours|rewrite X4, F5; apply not_elem_of_nil|rewrite X4, F5; simpl|].
  { pose proof (tv_cap _ _ _ Hv1). lia. }
  intros bp c2 Hbp Hv2. eapply wp_peek; [exact Hv2|by left|]. cbn [t_cur t_hold].
  set (m := Nat.min (length src) (512 - o mod 512)).
  replace (Z.min (tot + Z.of_nat (length src) - tot) (512 - Z.of_nat (o mod 512))) with (Z.of_nat m) by (unfold m; lia).
  rewrite !Nat2Z.id.
  assert (length (take m src) = m) as Hlm by (rewrite length_take; unfold m; lia).
  assert (wroom sb (t_put a (splice (t_cur v1 a) (o mod 512) (take m src)) v1) d1 (Y ∪ {[a]}) nb) as Hwr'
    by (by eapply wroom_step).
  assert (size (t_logged v1) < t_cap v1)%nat as Hroom.
  { destruct Hwr' as [W1 _ W3]. cbn [t_logged t_cap t_put] in *. pose proof (size_inds (Y ∪ {[a]}) d1).
    assert (t_logged v1 ⊆ Y ∪ {[a]} ∪ inds d1) as Hs by (clear - W1; set_solver).
    pose proof (subseteq_size _ _ Hs). lia. }
  eapply wp_put; [exact Hv2| |exact Hours|exact Hroom|].
  { unfold is_block, BSIZE. rewrite length_splice; [lia|]. rewrite Hlm. unfold m. lia. }
  intros c3 Hv3.
  pose proof (wrote_block sb sz _ v (i_d ip) o (take m src) a v1 d1 (t_cur v1 a) (fb_layout _ _ F4) Hbm eq_refl Hblk) as Hwt.
  specialize (Hwt ltac:(intros Hnil; rewrite Hnil in Hlm; unfold m in Hlm; simpl in Hlm; lia)
    ltac:(rewrite Hlm; unfold m; lia) Ho Hbn). rewrite Hlm in Hwt.
  replace (Z.of_nat o + Z.of_nat m) with (Z.of_nat (o + m)) by lia.
  replace (tot + Z.of_nat (length src)) with (tot + Z.of_nat m + Z.of_nat (length (drop m src)))
    by (rewrite length_drop; unfold m; lia).
  set (v2 := t_put a _ v1) in *.
  assert (length (drop m src) = length src - m)%nat as Hld by apply length_drop.
  assert (m ≤ length src)%nat as Hml by (unfold m; lia).
  assert (0 < length src - m → (o + m) mod 512 = 0 ∧ o mod 512 + m = 512)%nat as Hal.
  { intros Hr. assert (m = 512 - o mod 512)%nat as Hm by (unfold m in *; lia). split; [|lia].
    symmetry. apply (Nat.mod_unique _ _ (Datatypes.S (o / 512))); lia. }
  eapply (IH v2 _ ip1 (Z.max sz (Z.of_nat (o + m))) _ (o + m)%nat (drop m src) (Y ∪ {[a]}) nb);
    rewrite ?Hld; [|lia|lia|lia| | |exact Hwr'| |].
  - destruct Hfa1 as [_ G2 G3 _ G5 _ _]. split; [done|exact G2|done|apply Hwt|done|exact Hv3|apply Hwt].
  - intros Hr. destruct (Hal Hr) as [-> ?]. lia.
  - intros Hr. destruct (Hal Hr) as [-> ?]. lia.
  - intros Hlt'. apply HE. lia.
  - intros v3 d3 c4 Hw3 Hs3 Hd3 Hv4. replace (o + m + (length src - m))%nat with (o + length src)%nat in * by lia.
    change (f_inode _) with (<[i := ip1]> (f_inode s)). rewrite list_insert_insert_eq.
    change (set_i_d d3 ip1) with (set_i_d d3 ip). apply (HQ v3); [|done| |done].
    2:{ intros Hle. rewrite Hd3 by lia. cbn [ip1 i_d set_i_d]. apply Bo.
        by destruct (fo_mapped _ _ _ _ F7 (o / 512)%nat ltac:(lia)). }
    rewrite <- (take_drop m src) at 1. eapply wrote_app; [apply F4|exact Hwt|]. rewrite Hlm.
    replace (Z.max sz (Z.of_nat (o + length src))) with (Z.max (Z.max sz (Z.of_nat (o + m))) (Z.of_nat (o + length src))) by lia.
    exact Hw3.
Qed.

(** A block before the free map changed: the file is as it was. *)
Section meta.
Context (sb : superblock) (v v' : tview) (d : dinode) (sz : Z) (Hly : layout sb v).
Context (Hf : file_ok sb (t_cur v) d sz) (Hcur : ∀ n, sb_bmapstart sb ≤ n → t_cur v' n = t_cur v n).
Lemma meta_slots : slots (t_cur v') d = slots (t_cur v) d.
Proof.
  unfold slots. f_equal. case_decide as Hi; [done|]. rewrite Hcur; [done|].
  destruct (fo_data _ _ _ _ Hf _ (iaddr_footprint (t_cur v) _ (fo_len _ _ _ _ Hf) Hi)) as [Hd _].
  pose proof (data_after_map _ _ _ Hly Hd). lia.
Qed.
Lemma meta_used n : 0 ≤ n < sb_size sb → used sb (t_cur v') n = used sb (t_cur v) n.
Proof. intros Hn. unfold used. rewrite Hcur; [done|]. by apply (BBLOCK_range _ _ Hly). Qed.
Lemma meta_byte k : faddr (t_cur v) d (k / 512) ≠ 0 → fbyte (t_cur v') d k = fbyte (t_cur v) d k.
Proof.
  intros Hn. destruct (fo_data _ _ _ _ Hf _ (faddr_footprint _ _ _ Hn)) as [Hd _].
  pose proof (data_after_map _ _ _ Hly Hd). unfold fbyte, faddr in *. rewrite meta_slots, Hcur; [done|lia].
Qed.
Lemma meta_file : file_ok sb (t_cur v') d sz.
Proof.
  destruct Hf as [F1 F2 F3 F4]. split; [done| | |].
  - unfold footprint. rewrite meta_slots. intros a Ha. destruct (F2 a Ha) as [H1 H2]. split; [done|].
    rewrite meta_used; [done|]. by eapply data_pos.
  - unfold footprint. by rewrite meta_slots.
  - intros b Hb. unfold faddr. rewrite meta_slots. by apply F4.
Qed.
End meta.

Lemma grown_dinode_ok sb v d d' sz n :
  layout sb v → dinode_ok d → d' = set_di_addrs (di_addrs d') d → file_ok sb (t_cur v) d' sz →
  0 ≤ n < 2 ^ 32 → dinode_ok (set_di_size n d').
Proof.
  intros Hly [D1 D2 D3 D4 D5 D6 D7 D8 D9 D10] Hd [F1 F2 F3 F4] Hn. rewrite Hd. split; simpl; try done.
  apply list.Forall_forall. intros a Ha. destruct (decide (a = 0)) as [->|Hne]; [lia|].
  destruct (F2 a) as [Hda _]; [|pose proof (data_small _ _ Hly _ Hda); lia].
  apply list_elem_of_filter. split; [done|]. apply elem_of_app. by left.
Qed.

(** The whole effect of a successful write on the file and on the disk. *)
Record written (sb : superblock) (v : tview) (inum : Z) (d : dinode) (o : nat) (src : list Z)
    (v' : tview) (d' : dinode) : Prop := mkwn {
  wn_size : di_size d' = Z.max (di_size d) (Z.of_nat (o + length src));
  wn_same : d' = set_di_size (di_size d') (set_di_addrs (di_addrs d') d);
  wn_file : file_ok sb (t_cur v') d' (di_size d');
  wn_blocks : fs_blocks sb v';
  wn_held : t_held v' = [];
  wn_bytes : ∀ k, Z.of_nat k < di_size d' →
    fbyte (t_cur v') d' k = if decide (o ≤ k < o + length src)%nat then nth (k - o) src 0 else fbyte (t_cur v) d k;
  wn_frame : ∀ n, is_data sb n → used sb (t_cur v) n = true → n ∉ footprint (t_cur v) d → t_cur v' n = t_cur v n;
  wn_used : ∀ n, 0 ≤ n < sb_size sb → used sb (t_cur v) n = true → used sb (t_cur v') n = true;
  wn_inodes : ∀ inum', inum_ok sb inum' → inum' ≠ inum → disk_inode sb (t_cur v') inum' = disk_inode sb (t_cur v) inum';
  wn_disk : disk_inode sb (t_cur v) inum = Some d → disk_inode sb (t_cur v') inum = Some d'
}.

Lemma file_ok_size sb cur d sz n : file_ok sb cur d sz → file_ok sb cur (set_di_size n d) sz.
Proof. intros [F1 F2 F3 F4]. split; [exact F1|exact F2|exact F3|exact F4]. Qed.

Lemma write_frame sb v inum d o src v1 d1 :
  fs_blocks sb v → t_held v = [] → inum_ok sb inum → file_ok sb (t_cur v) d (di_size d) → Z.of_nat o ≤ di_size d →
  wrote sb v d o src v1 d1 (Z.max (di_size d) (Z.of_nat (o + length src))) →
  (Z.of_nat (o + length src) ≤ di_size d → d1 = d) →
  (Z.of_nat (o + length src) ≤ di_size d → written sb v inum d o src v1 d1) ∧
  (let d2 := set_di_size (Z.of_nat (o + length src)) d1 in
   di_size d < Z.of_nat (o + length src) → ∀ v2, updated sb v1 inum d2 v2 → written sb v inum d o src v2 d2).
Proof.
  intros Hfb Hh Hi Hf Hsz0 [[K M F U P S' I (A1 & A2 & A3 & A4 & A5)] Wf Wb Wn Wo] Hfix.
  pose proof (fb_layout _ _ Hfb) as Hly. pose proof (fb_layout _ _ Wb) as Hly1.
  assert (∀ k, Z.of_nat k < Z.max (di_size d) (Z.of_nat (o + length src)) →
    fbyte (t_cur v1) d1 k = if decide (o ≤ k < o + length src)%nat then nth (k - o) src 0 else fbyte (t_cur v) d k) as Hby.
  { intros k Hk. case_decide as Hr; [by apply Wn|]. apply Wo; [lia|].
    pose proof (Nat.div_mod_eq k 512). by apply (fo_mapped _ _ _ _ Hf); lia. }
  assert (∀ inum', inum_ok sb inum' → disk_inode sb (t_cur v1) inum' = disk_inode sb (t_cur v) inum') as Hdi.
  { intros inum' Hi'. apply disk_inode_frame, M. by apply (IBLOCK_range _ _ Hly). }
  split.
  - intros Hle. specialize (Hfix Hle) as ->. rewrite Z.max_l in * by lia. split.
    + rewrite Z.max_l by lia. reflexivity.
    + by destruct d.
    + exact Wf.
    + exact Wb.
    + by rewrite A4.
    + exact Hby.
    + exact F.
    + exact U.
    + intros inum' Hi' _. by apply Hdi.
    + intros Hd. by rewrite Hdi.
  - intros d2 Hlt v2 Hup. pose proof Hup as [(y & Hy & ->) Hui]. rewrite Z.max_r in * by lia.
    pose proof (IBLOCK_range _ _ Hly1 _ Hi) as [_ Hir].
    set (v2 := t_put (IBLOCK inum sb) y v1) in *.
    assert (∀ n, sb_bmapstart sb ≤ n → t_cur v2 n = t_cur v1 n) as Hcur.
    { intros n Hn. cbn [v2 t_cur t_put]. apply fn_lookup_insert_ne. lia. }
    split.
    + cbn [d2 di_size set_di_size]. lia.
    + cbn [d2 di_size di_addrs set_di_size]. by rewrite <- S'.
    + apply file_ok_size. exact (meta_file sb v1 v2 d1 _ Hly1 Wf Hcur).
    + by eapply updated_blocks.
    + cbn [v2 t_held t_put]. by rewrite A4.
    + cbn [d2 di_size set_di_size]. intros k Hk. rewrite <- Hby by done.
      apply (meta_byte sb v1 v2 d1 _ Hly1 Wf Hcur). pose proof (Nat.div_mod_eq k 512).
      by apply (fo_mapped _ _ _ _ Wf); lia.
    + intros n Hn Hu Hnf. pose proof (data_after_map _ _ _ Hly Hn). rewrite Hcur by lia. by apply F.
    + intros n Hn Hu. rewrite (meta_used sb v1 v2 Hly1 Hcur) by done. by apply U.
    + intros inum' Hi' Hne. rewrite Hui, decide_False by done. by apply Hdi.
    + intros _. by rewrite Hui, decide_True.
Qed.

Lemma wp_writei dw sb v s i ip src off Y nb Q :
  let d := i_d ip in let n := Z.of_nat (length src) in
  file_at sb v s i ip (di_size d) → di_type d ≠ T_DEV → dinode_ok d → inum_ok sb (i_inum ip) →
  0 ≤ di_size d < 2 ^ 31 → 0 ≤ off < 2 ^ 32 → n < 2 ^ 32 →
  (Z.to_nat off mod 512 + length src ≤ nb * 512)%nat → wroom sb v d Y nb →
  (di_size d < off ∨ MAXFILE * BSIZE < off + n → Q (-1) s) →
  (off ≤ di_size d → off + n ≤ MAXFILE * BSIZE → di_size d < off + n → E "balloc: out of blocks") →
  (off ≤ di_size d → off + n ≤ MAXFILE * BSIZE → ∀ v' d' c',
     written sb v (i_inum ip) d (Z.to_nat off) src v' d' → tv [] c' v' →
     Q n (mkfs sb (<[i := set_i_d d' ip]> (f_inode s)) c')) →
  wp E (writei dw i src off n) Q s.
Proof.
  intros d n Hfa Hty Hdok Hnum Hsz Hoff Hn Hnb Hwr Herr HE HQ. change (MAXFILE * BSIZE) with 78336 in *.
  unfold writei. eapply wp_the_inode; [apply Hfa|]. fold d. rewrite (decide_False (P := di_type d = T_DEV)) by assumption.
  assert (u32 (off + n) < off ↔ 2 ^ 32 ≤ off + n) as Hwrap.
  { unfold u32. destruct (decide (off + n < 2 ^ 32)).
    - rewrite Z.mod_small by lia. lia.
    - replace (off + n) with (off + n - 2 ^ 32 + 1 * 2 ^ 32) by lia. rewrite Z.mod_add by lia.
      rewrite Z.mod_small by lia. lia. }
  change (MAXFILE * BSIZE) with 78336.
  destruct (decide (off > di_size d ∨ u32 (off + n) < off)) as [He|He].
  { apply wp_ret, Herr. rewrite Hwrap in He. lia. }
  assert (off ≤ di_size d ∧ off + n < 2 ^ 32) as [Ho Hov] by (rewrite Hwrap in He; lia).
  rewrite u32_small by lia. destruct (decide (off + n > 78336)) as [He2|He2].
  { apply wp_ret, Herr. lia. }
  apply wp_bind. set (o := Z.to_nat off) in *. replace off with (Z.of_nat o) at 1 by lia.
  change n with (0 + Z.of_nat (length src)) at 2.
  eapply (wp_writei_loop sb v s i ip (di_size d) _ 0 o src Y nb); [exact Hfa|lia|lia|lia| |done|exact Hwr| |].
  { intros Hk. pose proof (Nat.mod_upper_bound o 512 ltac:(lia)).
    replace (Z.to_nat (n / BSIZE)) with (length src / 512)%nat
      by (unfold BSIZE, n; rewrite <- (Nat2Z.id (length src / 512)), Nat2Z.inj_div; reflexivity).
    pose proof (Nat.div_mod_eq (length src) 512). pose proof (Nat.mod_upper_bound (length src) 512 ltac:(lia)). lia. }
  { intros Hlt. apply HE; lia. }
  intros v1 d1 c1 Hw Hlog Hfix Hv1. pose proof Hfa as [F1 F2 F3 F4 F5 F6 F7].
  destruct (write_frame sb v (i_inum ip) d o src v1 d1) as [Hno Hyes]; [done|done|done|done|lia|done|done|].
  assert (i < length (f_inode s))%nat as Hil by (by eapply lookup_lt_Some).
  eapply wp_the_inode; [by apply list_lookup_insert_eq|]. cbn [i_d set_i_d].
  assert (di_size d1 = di_size d) as Hds by (by rewrite (ev_same _ _ _ _ _ (wt_ev _ _ _ _ _ _ _ _ Hw))).
  rewrite Hds. apply wp_bind. replace (Z.of_nat (o + length src)) with (off + n) in * by lia.
  destruct (decide (n > 0 ∧ off + n > di_size d)) as [[Hn0 Hgt]|Hng].
  - apply wp_bind. eapply wp_upd_inode; [by apply list_lookup_insert_eq|]. cbn [f_inode]. rewrite list_insert_insert_eq.
    set (d2 := set_di_size (off + n) d1) in *. set (ip2 := set_i_d d2 ip).
    change (set_i_d _ (set_i_d d1 ip)) with ip2.
    eapply (wp_iupdate E sb v1 _ i ip2); [done|by apply list_lookup_insert_eq|done|done| |apply Hw|exact Hv1| | |].
    + unfold ip2. cbn [i_d set_i_d]. eapply (grown_dinode_ok sb v1 d d1).
      * apply (fb_layout _ _ (wt_blocks _ _ _ _ _ _ _ _ Hw)).
      * done.
      * apply (ev_same _ _ _ _ _ (wt_ev _ _ _ _ _ _ _ _ Hw)).
      * apply Hw.
      * lia.
    + pose proof (tv_cap _ _ _ Hv1). destruct (ev_fields _ _ _ _ _ (wt_ev _ _ _ _ _ _ _ _ Hw)) as (_ & _ & _ & -> & _).
      rewrite F5. simpl. lia.
    + lia.
    + intros v2 c2 Hup Hv2. apply wp_ret. rewrite s32_small by lia.
      apply (HQ Ho ltac:(lia) v2 d2); [|done]. apply Hyes; [lia|exact Hup].
  - apply wp_skip, wp_ret. rewrite s32_small by lia. apply (HQ Ho ltac:(lia) v1 d1); [|done]. apply Hno. lia.
Qed.
End writei.
