(* ===== verification/FsDir.v ===== *)
(** * Directories: dirlookup and dirlink *)

From S2P Require Import Prelude CString Words ProcData Sync Block Log Tx Fs FsBlocks FsInode FsFile FsRw.
Local Open Scope Z_scope.
Implicit Types (x y : list Z).

(** ** Names *)
(** The name stored in a 14-byte field, or given by a caller: its bytes up to a
    NUL, at most 14. *)
Definition name14 (s : list Z) : list Z := take DIRSIZ (cstr s).
Definition readable (n : nat) (s : list Z) : Prop := terminated s ∨ (n ≤ length s)%nat.

Lemma strncmp_spec p q n : readable n p → readable n q →
  ∃ c, strncmp p q n = Some c ∧ (c = 0 ↔ take n (cstr p) = take n (cstr q)).
Proof.
  unfold readable, terminated. revert p q. induction n as [|n IH]; intros p q Hp Hq; [by exists 0|].
  destruct p as [|a p]; [destruct Hp as [Hp|Hp]; [set_solver|simpl in Hp; lia]|].
  destruct q as [|b q]; [destruct Hq as [Hq|Hq]; [set_solver|simpl in Hq; lia]|]. cbn [strncmp cstr].
  destruct (decide (a ≠ 0 ∧ a = b)) as [[Ha <-]|Hab].
  - destruct (IH p q) as (c & -> & Hc).
    { destruct Hp as [Hp|Hp]; [left; set_solver|right; simpl in Hp; lia]. }
    { destruct Hq as [Hq|Hq]; [left; set_solver|right; simpl in Hq; lia]. }
    exists c. split; [done|]. rewrite !decide_False by done. rewrite !firstn_cons, Hc. split; [congruence|]. intros [= Heq]. exact Heq.
  - exists (a - b). split; [done|]. split.
    + intros Hz. assert (a = b) as -> by lia. destruct (decide (b = 0)); [done|]. destruct Hab; tauto.
    + intros Heq. destruct (decide (a = 0)), (decide (b = 0)); simplify_eq/=; try done. destruct Hab; tauto.
Qed.

(** ** Entries *)
Record dirent := mkde { de_inum : Z; de_name : list Z }.
Definition decode_dirent (x : list Z) : dirent := mkde (default 0 (dirent_inum x)) (name14 (dirent_name x)).
Definition dsize (d : dinode) : nat := (Z.to_nat (di_size d) / 16)%nat.
Definition entry (cur : Z → block) (d : dinode) (j : nat) : dirent := decode_dirent (fbytes cur d (16 * j) 16).
Definition entries (cur : Z → block) (d : dinode) : list dirent := entry cur d <$> seq 0 (dsize d).

Record dir_ok (d : dinode) : Prop := mkdir {
  dr_type : di_type d = T_DIR;
  dr_size : di_size d = 16 * Z.of_nat (dsize d);
  dr_bound : di_size d ≤ MAXFILE * BSIZE
}.

(** The first entry in use with a name, and the first free one. *)
Fixpoint find_entry (l : list dirent) (name : list Z) : option nat :=
  match l with
  | [] => None
  | e :: l' => if decide (de_inum e ≠ 0 ∧ de_name e = name) then Some O else S <$> find_entry l' name
  end.
Fixpoint free_entry (l : list dirent) : nat :=
  match l with [] => O | e :: l' => if decide (de_inum e = 0) then O else S (free_entry l') end.

Lemma find_entry_app l1 l2 name :
  find_entry l1 name = None → find_entry (l1 ++ l2) name = (λ j, length l1 + j)%nat <$> find_entry l2 name.
Proof.
  induction l1 as [|e l1 IH]; simpl; intros Hn.
  - by destruct (find_entry l2 name).
  - destruct (decide (de_inum e ≠ 0 ∧ de_name e = name)); [done|]. destruct (find_entry l1 name); [done|].
    rewrite IH by done. by destruct (find_entry l2 name).
Qed.
Lemma free_entry_bound l : (free_entry l ≤ length l)%nat.
Proof. induction l as [|e l IH]; simpl; [lia|]. case_decide; lia. Qed.
Lemma free_entry_free l e : l !! free_entry l = Some e → de_inum e = 0.
Proof.
  induction l as [|e' l IH]; simpl; [done|]. destruct (decide (de_inum e' = 0)); [by intros [= <-]|]. apply IH.
Qed.

(** Entering a name in the first free entry. *)
Definition link_entry (l : list dirent) (e : dirent) : list dirent :=
  take (free_entry l) l ++ e :: drop (S (free_entry l)) l.
Lemma find_link l e name :
  find_entry l (de_name e) = None → de_inum e ≠ 0 →
  find_entry (link_entry l e) name =
    if decide (name = de_name e) then Some (free_entry l) else find_entry l name.
Proof.
  unfold link_entry. intros Hn Hi. induction l as [|e' l IH].
  - simpl. destruct (decide (name = de_name e)) as [->|Hne]; [by rewrite decide_True|].
    rewrite decide_False by (intros [_ ?]; congruence). done.
  - cbn [free_entry find_entry] in *. destruct (decide (de_inum e' ≠ 0 ∧ de_name e' = de_name e)) as [|Hne']; [done|].
    destruct (find_entry l (de_name e)) as [|] eqn:Hl; [done|]. specialize (IH eq_refl).
    destruct (decide (de_inum e' = 0)) as [Hz|Hz].
    + cbn [take drop app find_entry]. destruct (decide (name = de_name e)) as [->|Hnm].
      * by rewrite decide_True.
      * rewrite decide_False by (intros [_ ?]; congruence). rewrite decide_False by tauto. done.
    + cbn [take drop app find_entry]. destruct (decide (de_inum e' ≠ 0 ∧ de_name e' = name)) as [Hm|Hm].
      * rewrite decide_False; [done|]. intros ->. tauto.
      * rewrite IH. destruct (decide (name = de_name e)); [done|]. done.
Qed.

(** ** Bytes of entries *)
Lemma entries_lookup cur d j : (j < dsize d)%nat → entries cur d !! j = Some (entry cur d j).
Proof. intros Hj. unfold entries. by rewrite list_lookup_fmap, lookup_seq_lt. Qed.
Lemma length_entries cur d : length (entries cur d) = dsize d.
Proof. unfold entries. by rewrite length_fmap, length_seq. Qed.
Lemma entries_drop cur d j : (j < dsize d)%nat → drop j (entries cur d) = entry cur d j :: drop (S j) (entries cur d).
Proof. intros Hj. by apply drop_S, entries_lookup. Qed.

Lemma dirent_inum_16 x : length x = 16%nat → dirent_inum x = Some (default 0 (dirent_inum x)).
Proof. intros Hl. destruct (get_le_Some 2 x 0) as [w Hw]; [lia|]. unfold dirent_inum, get_half. by rewrite Hw. Qed.
Lemma dirent_name_readable x : length x = 16%nat → readable DIRSIZ (dirent_name x).
Proof. intros Hl. right. unfold dirent_name, DIRSIZ. rewrite length_take, length_drop. lia. Qed.

(** The entry dirlink writes. *)
Definition name_field (name : list Z) : list Z := take DIRSIZ (cstr name ++ replicate DIRSIZ 0).
Lemma length_name_field name : length (name_field name) = 14%nat.
Proof. unfold name_field, DIRSIZ. rewrite length_take, length_app, length_replicate. lia. Qed.
Lemma cstr_take_zeros (l : list Z) n m : 0 ∉ l → cstr (take n (l ++ replicate m 0)) = take n l.
Proof.
  revert n. induction l as [|c l IH]; intros n Hn.
  - rewrite app_nil_l, take_nil. by destruct m, n.
  - destruct n as [|n]; [done|]. apply not_elem_of_cons in Hn as [Hc Hn]. simpl.
    rewrite decide_False by done. by rewrite IH.
Qed.
Lemma name14_field name : name14 (name_field name) = name14 name.
Proof.
  unfold name14, name_field. rewrite cstr_take_zeros by apply cstr_nonzero. rewrite take_take. by rewrite Nat.min_id.
Qed.
Lemma decode_bytes inum nm : 0 ≤ inum < 2 ^ 16 → length nm = 14%nat →
  decode_dirent (dirent_bytes inum nm) = mkde inum (name14 nm).
Proof.
  intros Hi Hl. unfold decode_dirent, dirent_bytes, dirent_name. f_equal.
  - unfold dirent_inum, get_half, get_le. rewrite decide_True by (rewrite length_app, length_le_split; lia).
    rewrite drop_0. rewrite take_app_length' by (by rewrite length_le_split). rewrite le_combine_split.
    simpl. by apply Z.mod_small.
  - rewrite drop_app_length' by (by rewrite length_le_split). by rewrite firstn_all2 by (unfold DIRSIZ; lia).
Qed.

(** The directory after the entry was written. *)
Lemma entries_written sb v inum0 d f src e v' d' :
  dir_ok d → (f ≤ dsize d)%nat → length src = 16%nat → decode_dirent src = e →
  f = free_entry (entries (t_cur v) d) → Z.of_nat (16 * f + 16) ≤ MAXFILE * BSIZE →
  written sb v inum0 d (16 * f) src v' d' →
  dir_ok d' ∧ entries (t_cur v') d' = link_entry (entries (t_cur v) d) e.
Proof.
  intros [Dt Ds Db] Hf Hls He Hfe Hmax [W1 W2 W3 W4 W5 W6 _ _ _ _]. rewrite Hls in W1.
  assert (dsize d' = Nat.max (dsize d) (S f) ∧ di_size d' = 16 * Z.of_nat (dsize d')) as [Hds Hds'].
  { rewrite W1, Ds. assert (Z.max (16 * Z.of_nat (dsize d)) (Z.of_nat (16 * f + 16)) =
      16 * Z.of_nat (Nat.max (dsize d) (S f))) as -> by lia.
    assert (dsize d' = Nat.max (dsize d) (S f)) as ->; [|done]. unfold dsize at 1. rewrite W1, Ds.
    replace (Z.to_nat _) with (Nat.max (dsize d) (S f) * 16)%nat by lia. apply Nat.div_mul. lia. }
  split.
  - split; [by rewrite W2|done|]. rewrite W1. lia.
  - assert (∀ j, (j < dsize d')%nat → entry (t_cur v') d' j = if decide (j = f) then e else entry (t_cur v) d j) as Hent.
    { intros j Hj. unfold entry. case_decide as Hjf.
      - subst j. rewrite <- He. f_equal. apply list_eq_nth; [by rewrite length_fbytes|]. intros k.
        destruct (decide (k < 16)%nat) as [Hk|Hk]; [|by rewrite !nth_overflow by (rewrite ?length_fbytes; lia)].
        unfold fbytes. rewrite nth_lookup, list_lookup_fmap, lookup_seq_lt by done.
        cbn [fmap option_fmap option_map default]. rewrite W6 by lia. rewrite decide_True by lia. by replace (16 * f + k - 16 * f)%nat with k by lia.
      - f_equal. unfold fbytes. apply list_fmap_ext. intros i k [-> Hi]%lookup_seq.
        rewrite W6, decide_False by lia. done. }
    apply list_eq. intros j. unfold link_entry. rewrite <- Hfe.
    assert (length (take f (entries (t_cur v) d)) = f) as Htl by (rewrite length_take, length_entries; lia).
    destruct (decide (j < dsize d')%nat) as [Hj|Hj].
    + rewrite entries_lookup, Hent by done. case_decide as Hjf.
      * subst j. rewrite lookup_app_r, Htl, Nat.sub_diag by lia. done.
      * destruct (decide (j < f)%nat).
        -- rewrite lookup_app_l, lookup_take_lt, entries_lookup by lia. done.
        -- rewrite lookup_app_r, Htl by lia. replace (j - f)%nat with (S (j - S f)) by lia.
           change ((e :: ?l) !! S ?k) with (l !! k). rewrite lookup_drop. replace (S f + (j - S f))%nat with j by lia. symmetry. apply entries_lookup. lia.
    + rewrite !lookup_ge_None_2; [done| |rewrite length_entries; lia].
      rewrite length_app, Htl. cbn [length]. rewrite length_drop, length_entries. lia.
Qed.

Section dirs.
Context {S : Type} `{TxLaws S} (E : string → Prop).
Context (dr : Z → option (nat → Z → M (fstate S) (Z * list Z))).
Implicit Types (s : fstate S) (v : tview) (ip : inode).

Definition dir_at (sb : superblock) (v : tview) (s : fstate S) (i : nat) (ip : inode) : Prop :=
  file_at sb v s i ip (di_size (i_d ip)) ∧ dir_ok (i_d ip).
Lemma dir_at_io sb v s i ip c' : dir_at sb v s i ip → tv [] c' v → dir_at sb v (set_f_io c' s) i ip.
Proof. intros [Hf Hd] Hv. split; [by apply file_at_io|done]. Qed.

Lemma wp_read_dirent sb v s i ip j Q :
  dir_at sb v s i ip → (j < dsize (i_d ip))%nat →
  (∀ c', tv [] c' v → Q (fbytes (t_cur v) (i_d ip) (16 * j) 16) (set_f_io c' s)) →
  wp E (read_dirent dr i (Z.of_nat (16 * j))) Q s.
Proof.
  intros [Hf [Dt Ds Db]] Hj HQ. change (MAXFILE * BSIZE) with 78336 in Db. unfold read_dirent, SIZEOF_DIRENT. apply wp_bind.
  eapply (wp_readi E dr sb v s i ip); [exact Hf|rewrite Dt; discriminate|lia|lia|lia|lia|].
  intros _ _ c' Hv'. assert (read_count (i_d ip) (Z.of_nat (16 * j)) 16 = 16)%nat as ->
    by (unfold read_count; lia).
  cbn [fst snd]. rewrite decide_False by lia. apply wp_ret. rewrite Nat2Z.id. by apply HQ.
Qed.

Lemma wp_dirlookup_from sb v s i ip name fuel j Q :
  dir_at sb v s i ip → readable DIRSIZ name → (dsize (i_d ip) - j < fuel)%nat → (j ≤ dsize (i_d ip))%nat →
  let es := entries (t_cur v) (i_d ip) in
  (∀ c', find_entry (drop j es) (name14 name) = None → tv [] c' v → Q None (set_f_io c' s)) →
  (∀ k e m l' c', find_entry (drop j es) (name14 name) = Some k → es !! (j + k)%nat = Some e →
     got (f_inode s) ROOTDEV (de_inum e) m l' → tv [] c' v →
     Q (Some (m, Z.of_nat (16 * (j + k)))) (mkfs sb l' c')) →
  E "iget: no inodes" →
  wp E (dirlookup_from dr fuel i name (Z.of_nat (16 * j))) Q s.
Proof.
  revert s j. induction fuel as [|fuel IH]; intros s j Hd Hr Hfuel Hj es HN HS HE; [lia|].
  pose proof Hd as [Hf [Dt Ds Db]]. change (MAXFILE * BSIZE) with 78336 in Db. pose proof Hf as [F1 F2 F3 F4 F5 F6 F7].
  cbn [dirlookup_from]. eapply wp_the_inode; [exact F2|].
  destruct (decide (Z.of_nat (16 * j) < di_size (i_d ip))) as [Hlt|Hge].
  2:{ apply wp_ret. specialize (HN (f_io s)). replace (set_f_io (f_io s) s) with s in HN by (by destruct s). apply HN; [|done].
      rewrite drop_ge; [done|]. unfold es. rewrite length_entries. lia. }
  assert (j < dsize (i_d ip))%nat as Hj' by lia. set (x := fbytes (t_cur v) (i_d ip) (16 * j) 16).
  assert (length x = 16%nat) as Hlx by apply length_fbytes.
  apply wp_bind. eapply wp_read_dirent; [exact Hd|done|]. intros c1 Hv1. fold x.
  apply wp_bind. eapply wp_of_opt; [by apply dirent_inum_16|].
  set (e := entry (t_cur v) (i_d ip) j). assert (default 0 (dirent_inum x) = de_inum e) as -> by done.
  assert (drop j es = e :: drop (Datatypes.S j) es) as Hdrop by (by apply entries_drop).
  assert (u32 (Z.of_nat (16 * j) + SIZEOF_DIRENT) = Z.of_nat (16 * Datatypes.S j)) as Hoff
    by (unfold SIZEOF_DIRENT; rewrite u32_small; lia).
  assert (¬ (de_inum e ≠ 0 ∧ de_name e = name14 name) →
    wp E (dirlookup_from dr fuel i name (u32 (Z.of_nat (16 * j) + SIZEOF_DIRENT))) Q (set_f_io c1 s)) as Hnext.
  { intros Hnm. rewrite Hoff. apply IH; [by apply dir_at_io|done|lia|lia| | |done].
    - intros c2 Hnone Hv2. apply HN; [|done]. rewrite Hdrop. cbn [find_entry].
      rewrite decide_False by done. fold es in Hnone. by rewrite Hnone.
    - intros k e' m l' c2 Hk He' Hgot Hv2.
      replace (Datatypes.S j + k)%nat with (j + Datatypes.S k)%nat in * by lia.
      eapply (HS (Datatypes.S k)); [|exact He'|done|done]. rewrite Hdrop. cbn [find_entry].
      rewrite decide_False by done. fold es in Hk. by rewrite Hk. }
  destruct (decide (de_inum e = 0)) as [Hz|Hz]; [apply Hnext; tauto|].
  destruct (strncmp_spec name (dirent_name x) DIRSIZ Hr (dirent_name_readable x Hlx)) as (c & Hc & Hc0).
  apply wp_bind. eapply wp_of_opt; [exact Hc|].
  destruct (decide (c = 0)) as [Hcz|Hcz].
  2:{ apply Hnext. intros [_ Hnm]. apply Hcz, Hc0. symmetry. exact Hnm. }
  assert (de_name e = name14 name) as Hnm by (symmetry; by apply Hc0).
  apply wp_bind. rewrite F3. eapply (wp_iget E v); [exact Hv1| |done].
  intros m l' c2 Hgot Hv2. apply wp_ret. cbn [f_inode f_sb set_f_io] in *. rewrite F1.
  specialize (HS O e m l' c2). rewrite Nat.add_0_r in HS. apply HS; [|by apply entries_lookup|done|done].
  rewrite Hdrop. cbn [find_entry]. by rewrite decide_True.
Qed.

Lemma wp_dirlookup sb v s i ip name Q :
  dir_at sb v s i ip → readable DIRSIZ name →
  let es := entries (t_cur v) (i_d ip) in
  (∀ c', find_entry es (name14 name) = None → tv [] c' v → Q None (set_f_io c' s)) →
  (∀ k e m l' c', find_entry es (name14 name) = Some k → es !! k = Some e →
     got (f_inode s) ROOTDEV (de_inum e) m l' → tv [] c' v →
     Q (Some (m, Z.of_nat (16 * k))) (mkfs sb l' c')) →
  E "iget: no inodes" →
  wp E (dirlookup dr i name) Q s.
Proof.
  intros Hd Hr es HN HS HE. pose proof Hd as [Hf [Dt Ds Db]]. unfold dirlookup.
  eapply wp_the_inode; [apply Hf|]. rewrite decide_False by (intros Hn; by apply Hn).
  change 0 with (Z.of_nat (16 * 0)) at 1.
  eapply (wp_dirlookup_from sb v s i ip name _ 0); [done|done| |lia|exact HN|exact HS|done].
  rewrite Ds. unfold SIZEOF_DIRENT. rewrite Z.mul_comm, Z.div_mul by lia. lia.
Qed.

Lemma wp_empty_dirent sb v s i ip fuel j Q :
  dir_at sb v s i ip → (dsize (i_d ip) - j < fuel)%nat → (j ≤ dsize (i_d ip))%nat →
  (∀ c', tv [] c' v →
     Q (Z.of_nat (16 * (j + free_entry (drop j (entries (t_cur v) (i_d ip)))))) (set_f_io c' s)) →
  wp E (empty_dirent dr fuel i (Z.of_nat (16 * j))) Q s.
Proof.
  revert s j. induction fuel as [|fuel IH]; intros s j Hd Hfuel Hj HQ; [lia|].
  pose proof Hd as [Hf [Dt Ds Db]]. change (MAXFILE * BSIZE) with 78336 in Db. pose proof Hf as [F1 F2 F3 F4 F5 F6 F7].
  cbn [empty_dirent]. eapply wp_the_inode; [exact F2|].
  destruct (decide (Z.of_nat (16 * j) < di_size (i_d ip))) as [Hlt|Hge].
  2:{ apply wp_ret. specialize (HQ (f_io s) F6). replace (set_f_io (f_io s) s) with s in HQ by (by destruct s).
      rewrite drop_ge in HQ by (rewrite length_entries; lia). cbn [free_entry] in HQ. by rewrite Nat.add_0_r in HQ. }
  assert (j < dsize (i_d ip))%nat as Hj' by lia.
  apply wp_bind. eapply wp_read_dirent; [exact Hd|done|]. intros c1 Hv1.
  set (x := fbytes (t_cur v) (i_d ip) (16 * j) 16). assert (length x = 16%nat) as Hlx by apply length_fbytes.
  apply wp_bind. eapply wp_of_opt; [by apply dirent_inum_16|].
  rewrite entries_drop in HQ by done. cbn [free_entry] in HQ.
  change (de_inum (entry (t_cur v) (i_d ip) j)) with (default 0 (dirent_inum x)) in HQ.
  destruct (decide (default 0 (dirent_inum x) = 0)) as [Hz|Hz].
  - apply wp_ret. rewrite Nat.add_0_r in HQ. by apply HQ.
  - replace (Z.of_nat (16 * j) + SIZEOF_DIRENT) with (Z.of_nat (16 * Datatypes.S j)) by (unfold SIZEOF_DIRENT; lia).
    apply IH; [by apply dir_at_io|lia|lia|]. intros c2 Hv2.
    replace (Datatypes.S j + free_entry (drop (Datatypes.S j) (entries (t_cur v) (i_d ip))))%nat
      with (j + Datatypes.S (free_entry (drop (Datatypes.S j) (entries (t_cur v) (i_d ip)))))%nat by lia.
    by apply HQ.
Qed.

Context (dw : Z → option (nat → list Z → Z → M (fstate S) Z)) (sleep : chan → string → M (fstate S) unit).

Lemma wp_dirlink sb v s i ip name inum Y Q :
  let d := i_d ip in let es := entries (t_cur v) d in let f := free_entry es in
  dir_at sb v s i ip → terminated name → find_entry es (name14 name) = None → 0 < inum < 2 ^ 16 →
  dinode_ok d → inum_ok sb (i_inum ip) → wroom sb v d Y 1 → Z.of_nat (16 * f + 16) ≤ MAXFILE * BSIZE →
  E "iget: no inodes" → (f = dsize d → E "balloc: out of blocks") →
  (∀ v' d' c', written sb v (i_inum ip) d (16 * f) (dirent_bytes inum (name_field name)) v' d' →
     dir_ok d' → entries (t_cur v') d' = link_entry es (mkde inum (name14 name)) → tv [] c' v' →
     Q 0 (mkfs sb (<[i := set_i_d d' ip]> (f_inode s)) c')) →
  wp E (dirlink dr dw i name inum) Q s.
Proof.
  intros d es f Hd Hterm Hnone Hinum Hdok Hnum Hwr Hmax HE HEb HQ. pose proof Hd as [Hf Hdir].
  change (dir_ok d) in Hdir. pose proof Hdir as [Dt Ds Db]. change (MAXFILE * BSIZE) with 78336 in *.
  assert (f ≤ dsize d)%nat as Hfd by (unfold f, es; rewrite <- (length_entries (t_cur v) d); apply free_entry_bound).
  unfold dirlink. apply wp_bind. eapply wp_dirlookup; [exact Hd|by left| | |done].
  2:{ intros k e m l' c' Hk. fold d es in Hk. congruence. }
  intros c1 _ Hv1. eapply wp_the_inode; [apply Hf|]. apply wp_bind. change 0 with (Z.of_nat (16 * 0)) at 1.
  eapply (wp_empty_dirent sb v _ i ip _ 0); [by apply dir_at_io| |lia|].
  { fold d. rewrite Ds. unfold SIZEOF_DIRENT. rewrite Z.mul_comm, Z.div_mul by lia. lia. }
  intros c2 Hv2. rewrite drop_0, Nat.add_0_l. fold d es f.
  apply wp_bind. eapply wp_of_opt.
  { rewrite strncpy_spec; [|done|by rewrite length_replicate]. rewrite drop_ge by (by rewrite length_replicate).
    rewrite app_nil_r. done. }
  fold (name_field name). set (src := dirent_bytes inum (name_field name)).
  assert (length src = 16%nat) as Hls by (unfold src, dirent_bytes; rewrite length_app, length_le_split, length_name_field; done).
  apply wp_bind. replace SIZEOF_DIRENT with (Z.of_nat (length src)) at 1 by (by rewrite Hls).
  assert (16 * f mod 512 + 16 ≤ 512)%nat as Hal.
  { change 512%nat with (16 * 32)%nat. rewrite Nat.mul_mod_distr_l by lia.
    pose proof (Nat.mod_upper_bound f 32). lia. }
  eapply (wp_writei E dw sb v _ i ip src (Z.of_nat (16 * f)) Y 1);
    [by apply file_at_io; [apply file_at_io|]|fold d; rewrite Dt; discriminate|done|done|fold d; lia|lia|lia| |exact Hwr| | |].
  - rewrite Nat2Z.id, Hls. lia.
  - rewrite Hls. change (MAXFILE * BSIZE) with 78336. fold d. lia.
  - rewrite Hls. fold d. intros _ _ Hlt. apply HEb. lia.
  - intros _ _ v' d' c3 Hw Hv3. rewrite Nat2Z.id in Hw. fold d in Hw. rewrite Hls. rewrite decide_False by (unfold SIZEOF_DIRENT; lia).
    apply wp_ret. cbn [f_inode set_f_io].
    destruct (entries_written sb v (i_inum ip) d f src (mkde inum (name14 name)) v' d') as [H1 H2]; try done.
    + unfold src. rewrite decode_bytes; [by rewrite name14_field|lia|apply length_name_field].
    + eapply HQ; [exact Hw|exact H1|exact H2|exact Hv3].
Qed.

(** A name that is there already is refused. *)
Lemma wp_dirlink_exists sb v s i ip name inum Q :
  dir_at sb v s i ip → readable DIRSIZ name →
  is_Some (find_entry (entries (t_cur v) (i_d ip)) (name14 name)) → E "iget: no inodes" →
  (∀ s', tv [] (f_io s') v → Q (-1) s') →
  wp E (dirlink dr dw i name inum) Q s.
Proof.
  intros Hd Hr [k Hk] HE HQ. unfold dirlink. apply wp_bind. eapply wp_dirlookup; [exact Hd|exact Hr| | |exact HE].
  - intros c' Hn. congruence.
  - intros k' e m l' c' _ _ Hgot Hv'. destruct (got_keep _ _ _ _ _ Hgot) as (ip' & Hi & Hn).
    apply wp_bind. eapply wp_iput_keep; [exact Hi|exact Hn|exact Hv'|]. intros c2 Hv2. by apply wp_ret, HQ.
Qed.
End dirs.

(** The inode number a name stands for. *)
Definition dir_find (l : list dirent) (name : list Z) : option Z :=
  find_entry l name ≫= λ k, de_inum <$> l !! k.
Lemma link_lookup_free l e : link_entry l e !! free_entry l = Some e.
Proof.
  unfold link_entry. pose proof (free_entry_bound l). rewrite lookup_app_r by (rewrite length_take; lia).
  rewrite length_take, Nat.min_l by lia. by rewrite Nat.sub_diag.
Qed.
Lemma link_lookup_other l e k : k ≠ free_entry l → (k < length l)%nat → link_entry l e !! k = l !! k.
Proof.
  intros Hk Hl. unfold link_entry. pose proof (free_entry_bound l).
  destruct (decide (k < free_entry l)%nat).
  - rewrite lookup_app_l by (rewrite length_take; lia). by rewrite lookup_take_lt.
  - rewrite lookup_app_r by (rewrite length_take; lia). rewrite length_take, Nat.min_l by lia.
    replace (k - free_entry l)%nat with (S (k - S (free_entry l))) by lia.
    change ((e :: drop (S (free_entry l)) l) !! S (k - S (free_entry l))) with (drop (S (free_entry l)) l !! (k - S (free_entry l))%nat).
    rewrite lookup_drop. f_equal. lia.
Qed.
Lemma find_entry_Some l name k : find_entry l name = Some k → ∃ e, l !! k = Some e ∧ de_inum e ≠ 0 ∧ de_name e = name.
Proof.
  revert k. induction l as [|e l IH]; intros k; simpl; [done|].
  destruct (decide (de_inum e ≠ 0 ∧ de_name e = name)) as [[H1 H2]|].
  - intros [= <-]. by exists e.
  - destruct (find_entry l name) as [k'|]; [|done]. intros [= <-]. by apply IH.
Qed.
Lemma dir_find_link l e name :
  find_entry l (de_name e) = None → de_inum e ≠ 0 →
  dir_find (link_entry l e) name = if decide (name = de_name e) then Some (de_inum e) else dir_find l name.
Proof.
  intros Hn Hi. unfold dir_find. rewrite find_link by done. case_decide; [simpl; by rewrite link_lookup_free|].
  destruct (find_entry l name) as [k|] eqn:Hk; [|done]. simpl.
  destruct (find_entry_Some _ _ _ Hk) as (e' & He' & Hnz & _). rewrite link_lookup_other; [done| |by eapply lookup_lt_Some].
  intros ->. apply Hnz. by eapply free_entry_free.
Qed.
