(* ===== verification/FsToy.v ===== *)
(** * A small disk in memory

    A store that keeps its blocks in memory and satisfies the laws of [TxIO], and
    a disk of 60 blocks in mkfs's layout on it: a machine to run fs.c on. *)

From S2P Require Import Prelude CString Words ProcData Sync Block Log Tx Fs FsBlocks FsInode FsFile FsRw.
Local Open Scope Z_scope.

Definition fresh (l : list nat) : nat := S (foldr Nat.max O l).
Lemma fresh_notin l : fresh l ∉ l.
Proof.
  assert (∀ x, x ∈ l → (x ≤ foldr Nat.max O l)%nat) as Hle.
  { induction l as [|y l IH]; [set_solver|]. intros x [->|Hx]%elem_of_cons; simpl; [lia|]. specialize (IH x Hx). lia. }
  intros Hin. specialize (Hle _ Hin). unfold fresh in Hle. lia.
Qed.

Definition block_of (b : nat) (v : tview) : option Z :=
  snd <$> list_find (λ p : nat * Z, p.1 = b) (t_held v) ≫= λ p, Some p.2.
Definition with_block {A} (b : nat) (k : Z → M tview A) : M tview A :=
  let! v := getS in match block_of b v with Some n => k n | None => fault end.
#[export] Instance mem_sync : Sync tview := {|
  k_initlock _ := skip; k_acquire _ := skip; k_release _ := skip; k_wakeup _ := skip |}.
#[export] Instance mem_tx : TxIO tview := {|
  tx_bread _ n := let! v := getS in let b := fresh (t_held v).*1 in modS (t_hold b n) ;;; ret b;
  tx_brelse b := with_block b (λ n, modS (t_drop b n));
  tx_log_write b := with_block b (λ n, modS (t_log n));
  tx_data b := with_block b (λ n, gets (λ v, t_cur v n));
  tx_store b x := with_block b (λ n, modS (t_store n x))
|}.

Record mem_ok (v : tview) : Prop := mkmo {
  mo_blocks : ∀ n, t_ours v n → is_block (t_cur v n);
  mo_cap : (size (t_logged v) ≤ t_cap v < NBUF)%nat;
  mo_ids : NoDup (t_held v).*1
}.
Lemma block_of_held b n v : mem_ok v → (b, n) ∈ t_held v → block_of b v = Some n.
Proof.
  intros [_ _ Hnd] Hin. unfold block_of. revert Hnd Hin. generalize (t_held v). intros l.
  assert (NoDup l.*1 → (b, n) ∈ l → ∃ k, list_find (λ p : nat * Z, p.1 = b) l = Some (k, (b, n))) as Hf.
  { induction l as [|[b' n'] l IH]; [set_solver|]. rewrite fmap_cons. intros [Hni Hnd]%list.NoDup_cons Hin.
    simpl. destruct (decide (b' = b)) as [->|Hne].
    - apply elem_of_cons in Hin as [[= ->]|Hin]; [by exists O|].
      destruct Hni. apply list_elem_of_fmap. by exists (b, n).
    - apply elem_of_cons in Hin as [[= ? ?]|Hin]; [congruence|]. destruct (IH Hnd Hin) as [k ->]. by exists (S k). }
  intros Hnd Hin. destruct (Hf Hnd Hin) as [k ->]. done.
Qed.
Lemma wp_with_block {A} E b n v (k : Z → M tview A) Q :
  mem_ok v → (b, n) ∈ t_held v → wp E (k n) Q v → wp E (with_block b k) Q v.
Proof. intros Hm Hin HQ. unfold with_block. apply wp_bind, wp_getS. by rewrite (block_of_held b n). Qed.

Lemma mem_hold b n v : mem_ok v → b ∉ (t_held v).*1 → mem_ok (t_hold b n v).
Proof. intros [H1 H2 H3] Hb. split; [done|done|]. cbn [t_held t_hold]. rewrite fmap_cons. by constructor. Qed.
Lemma remove1_ids (x : nat * Z) l : NoDup l.*1 → NoDup (remove1 x l).*1.
Proof.
  induction l as [|y l IH]; [done|]. rewrite fmap_cons. intros [Hy Hl]%list.NoDup_cons.
  destruct (decide (x = y)) as [->|Hne]; [by rewrite remove1_head|]. rewrite remove1_cons_ne by done.
  rewrite fmap_cons. constructor; [|by apply IH]. rewrite list_elem_of_fmap. intros (z & Hz & Hin).
  apply Hy. rewrite Hz. apply list_elem_of_fmap. exists z. split; [done|].
  assert (NoDup l) as Hnd by (by eapply NoDup_fmap_1). by apply elem_of_remove1 in Hin as [? _].
Qed.

#[export] Instance mem_laws : TxLaws tview.
Proof.
  refine {| tv _ s v := s = v ∧ mem_ok v |}.
  - intros L s v n [_ Hm]. apply Hm.
  - intros L s v [_ Hm]. apply Hm.
  - intros E l L s v Q Hs _ HQ. by apply wp_skip, HQ.
  - intros E l L s v Q Hs _ HQ. by apply wp_skip, HQ.
  - intros E l L s v Q Hs HQ. by apply wp_skip, HQ.
  - intros E ch L s v Q Hs _ HQ. by apply wp_skip, HQ.
  - intros E n L s v Q [-> Hm] _ Hn _ _ HQ. apply wp_bind, wp_getS, wp_bind, wp_modS, wp_ret.
    pose proof (fresh_notin (t_held v).*1). apply HQ; [done|]. split; [done|]. by apply mem_hold.
  - intros E b n L s v Q [-> Hm] _ _ Hin _ HQ. eapply wp_with_block; [done|exact Hin|]. apply wp_modS, HQ.
    split; [done|]. destruct Hm as [H1 H2 H3]. split; [done|done|by apply remove1_ids].
  - intros E b n s v Q [-> Hm] Hin Hn Hsz HQ. eapply wp_with_block; [done|exact Hin|]. apply wp_modS, HQ.
    split; [done|]. destruct Hm as [H1 H2 H3]. split; [done| |done]. cbn [t_logged t_cap t_log].
    rewrite size_union_alt, size_singleton.
    assert (size (t_logged v ∖ {[n]}) ≤ size (t_logged v))%nat by (apply subseteq_size; set_solver). lia.
  - intros E b n L s v Q [-> Hm] Hin HQ. eapply wp_with_block; [done|exact Hin|]. by apply wp_gets.
  - intros E b n x L s v Q [-> Hm] Hin Hx HQ. eapply wp_with_block; [done|exact Hin|]. apply wp_modS, HQ.
    split; [done|]. destruct Hm as [H1 H2 H3]. split; [|done|done]. intros m Hm. cbn [t_cur t_store].
    destruct (decide (n = m)) as [->|Hne]; [by rewrite fn_lookup_insert|].
    rewrite fn_lookup_insert_ne by done. by apply H1.
Defined.

(** ** A disk of 60 blocks *)
Definition toy_sb : superblock := mksb 60 24 8 30 2 32 35.
Definition pad (l : list Z) : block := l ++ replicate (512 - length l) 0.
Definition toy_super : block := pad (concat (le_split 4 <$> [60; 24; 8; 30; 2; 32; 35])).
(** Blocks 0 to 35 are in use. *)
Definition toy_map : block := pad [255; 255; 255; 255; 15].
(** Inode 1 is an empty directory, inode 2 an empty file. *)
Definition toy_dir : dinode := mkdi T_DIR 0 0 1 0 0 493 0 (replicate 26 0).
Definition toy_file : dinode := mkdi T_FILE 0 0 1 0 0 493 0 (replicate 26 0).
Definition toy_inodes : block := pad (replicate 128 0 ++ dinode_bytes toy_dir ++ dinode_bytes toy_file).
Definition toy_cur (n : Z) : block :=
  if decide (n = 1) then toy_super else if decide (n = 32) then toy_inodes
  else if decide (n = 35) then toy_map else zeros.
Definition toy_view : tview := mktview 60 2 32 toy_cur [] ∅ 20 ∅.
Definition toy_entry (inum : Z) (d : dinode) : inode := mkinode ROOTDEV inum 1 3 d.
(** Both inodes are cached and locked; the other entries are free. *)
Definition toy_fs : fstate tview :=
  mkfs toy_sb (toy_entry 1 toy_dir :: toy_entry 2 toy_file ::
    replicate 48 (mkinode 0 0 0 0 toy_file)) toy_view.

Lemma toy_tv : tv [] (f_io toy_fs) toy_view.
Proof.
  split; [done|]. split; [|vm_compute; lia|constructor]. intros n _. cbn [t_cur toy_view]. unfold toy_cur.
  repeat case_decide; reflexivity.
Qed.
Lemma toy_layout : layout toy_sb toy_view.
Proof. split; try (vm_compute; congruence); vm_compute; intuition congruence. Qed.
Lemma toy_used b : 0 ≤ b < 60 → used toy_sb toy_cur b = bool_decide (b < 36).
Proof.
  intros Hb. assert (forallb (λ k, bool_decide (used toy_sb toy_cur (Z.of_nat k) = bool_decide (Z.of_nat k < 36))) (seq 0 60) = true)
    as Hall by (vm_compute; reflexivity).
  rewrite forallb_forall in Hall. specialize (Hall (Z.to_nat b)). rewrite in_seq in Hall.
  specialize (Hall ltac:(lia)). apply bool_decide_eq_true in Hall. by rewrite Z2Nat.id in Hall by lia.
Qed.
Lemma toy_blocks : fs_blocks toy_sb toy_view.
Proof.
  split; [apply toy_layout| |set_solver|done]. intros b Hb.
  assert (data_start toy_sb = 36) as Hd by (vm_compute; reflexivity). rewrite Hd in Hb.
  cbn [t_cur toy_view]. rewrite toy_used by lia. apply bool_decide_eq_true. lia.
Qed.
Lemma toy_empty_ok d : di_addrs d = replicate 26 0 → file_ok toy_sb toy_cur d 0.
Proof.
  intros Hd. assert (footprint toy_cur d = []) as Hf.
  { unfold footprint, slots, iaddr. rewrite Hd. vm_compute. reflexivity. }
  split; [by rewrite Hd| | |].
  - rewrite Hf. set_solver.
  - rewrite Hf. constructor.
  - lia.
Qed.
Lemma toy_dinode_ok d : d = toy_dir ∨ d = toy_file → dinode_ok d.
Proof. intros [->| ->]; (split; [vm_compute; intuition congruence..|done|by repeat constructor]). Qed.
Lemma toy_file_at : file_at toy_sb toy_view toy_fs 1 (toy_entry 2 toy_file) 0.
Proof. split; [done|done|done|apply toy_blocks|done|apply toy_tv|by apply toy_empty_ok]. Qed.
Lemma toy_dir_at : file_at toy_sb toy_view toy_fs 0 (toy_entry 1 toy_dir) 0.
Proof. split; [done|done|done|apply toy_blocks|done|apply toy_tv|by apply toy_empty_ok]. Qed.
Lemma toy_wroom d nb : iaddr d = 0 → (nb < 17)%nat → wroom toy_sb toy_view d {[35]} nb.
Proof.
  intros Hi Hnb. split.
  - cbn. set_solver.
  - intros b Hb. destruct (BBLOCK_range _ _ toy_layout b Hb) as [-> _].
    change (sb_size toy_sb) with 60 in Hb. change (sb_bmapstart toy_sb) with 35.
    rewrite Z.div_small by (change BPB with 4096; lia). set_solver.
  - rewrite size_singleton. cbn [t_cap toy_view]. lia.
Qed.
Lemma toy_entries i ip : f_inode toy_fs !! i = Some ip →
  i = 0%nat ∧ ip = toy_entry 1 toy_dir ∨ i = 1%nat ∧ ip = toy_entry 2 toy_file ∨ i_ref ip = 0.
Proof.
  cbn [toy_fs f_inode]. destruct i as [|[|i]]; cbn [lookup list_lookup]; intros Hi.
  - injection Hi as <-. auto.
  - injection Hi as <-. auto.
  - apply lookup_replicate in Hi as [-> _]. auto.
Qed.
Lemma toy_icache : icache_ok (f_inode toy_fs).
Proof.
  split.
  - reflexivity.
  - intros i ip [[_ ->]|[[_ ->]| ->]]%toy_entries; simpl; lia.
  - intros i j ip jp dev inum [[-> ->]|[[-> ->]|Hi]]%toy_entries [[-> ->]|[[-> ->]|Hj]]%toy_entries (U1 & _ & U2) (U3 & _ & U4);
      simpl in *; lia || done.
Qed.
