(* ===== verification/FsClaims.v ===== *)
(** * The file system: its theorems *)

From S2P Require Import Prelude CString Words ProcData Sync Block Log Tx Fs FsBlocks FsInode FsFile FsRw FsDir FsToy.
Local Open Scope Z_scope.

(** C31. balloc returns the first free block of the disk, marks it in use and no
    other, fills it with zeros and changes no other data; it panics only when
    every block is in use.  bfree undoes exactly the marking, and freeing a free
    block is a panic. *)
Theorem balloc_exact {S} `{TxLaws S} (sb : superblock) (v : tview) (s : fstate S) :
  f_sb s = sb → fs_blocks sb v → t_held v = [] → tv [] (f_io s) v → (size (t_logged v) + 1 < t_cap v)%nat →
  wp (λ e, e = "balloc: out of blocks" ∧ ∀ b, 0 ≤ b < sb_size sb → used sb (t_cur v) b = true)
    (balloc ROOTDEV) (λ b s', ∃ v', tv [] (f_io s') v' ∧ f_inode s' = f_inode s ∧ allocated sb v b v' ∧
      ((size (t_logged v') < t_cap v')%nat →
       wp no_panic (bfree ROOTDEV b) (λ _ s'', ∃ v'', tv [] (f_io s'') v'' ∧
         ∀ b', 0 ≤ b' < sb_size sb → used sb (t_cur v'') b' = used sb (t_cur v) b') s')) s ∧
  ∀ b, 0 ≤ b < sb_size sb → used sb (t_cur v) b = false →
    wp (λ e, e = "freeing free block") (bfree ROOTDEV b) (λ _ _, False) s.
Proof.
  intros Hsb Hfb Hh Hv Hcap. pose proof (tv_cap _ _ _ Hv) as Hc. split.
  - eapply wp_balloc; [exact Hsb|exact Hfb|exact Hv|rewrite Hh; cbn [length]; lia|exact Hcap| |done].
    intros b v' c' Hal Hv'. exists v'. split_and!; [exact Hv'|done|exact Hal|]. intros Hcap'.
    pose proof (fb_layout _ _ Hfb) as Hly. pose proof (data_pos _ _ _ Hly (al_data _ _ _ _ Hal)) as Hb.
    pose proof (tv_cap _ _ _ Hv') as Hc'.
    eapply wp_bfree; [by eapply allocated_blocks|exact Hv'|exact Hb| |exact Hcap'| |].
    + destruct (allocated_fields _ _ _ _ Hal) as (_ & _ & _ & -> & _). rewrite Hh. cbn [length]. lia.
    + intros v'' c'' _ Hfr Hv''. exists v''. split; [exact Hv''|]. intros b' Hb'.
      rewrite (fr_used _ _ _ _ Hfr), (al_used _ _ _ _ Hal) by done. case_bool_decide as He.
      * subst. by rewrite (al_free _ _ _ _ Hal).
      * by rewrite orb_false_r, andb_true_r.
    + rewrite (al_used _ _ _ _ Hal), bool_decide_true, orb_true_r by done. done.
  - intros b Hb Hu. eapply wp_bfree; [exact Hfb|exact Hv|exact Hb|rewrite Hh; cbn [length]; lia|lia| |done]. congruence.
Qed.
Lemma balloc_exact_witness :
  wp (λ e, e = "balloc: out of blocks" ∧ ∀ b, 0 ≤ b < 60 → used toy_sb toy_cur b = true)
    (balloc ROOTDEV) (λ b s', ∃ v', tv [] (f_io s') v' ∧ f_inode s' = f_inode toy_fs ∧
      allocated toy_sb toy_view b v' ∧
      ((size (t_logged v') < t_cap v')%nat →
       wp no_panic (bfree ROOTDEV b) (λ _ s'', ∃ v'', tv [] (f_io s'') v'' ∧
         ∀ b', 0 ≤ b' < 60 → used toy_sb (t_cur v'') b' = used toy_sb toy_cur b') s')) toy_fs.
Proof.
  refine (proj1 (balloc_exact toy_sb toy_view toy_fs eq_refl toy_blocks eq_refl toy_tv _)).
  vm_compute. lia.
Defined.

(** An inode survives its cache entry: after iupdate has written it, an entry
    that was recycled and holds anything at all gets every field back when ilock
    reads it again (signed type, major, minor and link count, owner, mode, size
    and the 26 addresses), and the other inodes of the block are as before. *)
Theorem inode_roundtrip {S} `{TxLaws S} sleep (sb : superblock) (v : tview) (s : fstate S) i ip junk :
  f_sb s = sb → f_inode s !! i = Some ip → i_dev ip = ROOTDEV → inum_ok sb (i_inum ip) → 1 ≤ i_ref ip →
  dinode_ok (i_d ip) → di_type (i_d ip) ≠ 0 →
  fs_blocks sb v → t_held v = [] → tv [] (f_io s) v → (size (t_logged v) < t_cap v)%nat →
  wp no_panic
    (iupdate i ;;; upd_inode i (λ p, mkinode (i_dev p) (i_inum p) (i_ref p) 0 junk) ;;; ilock sleep (Some i))
    (λ _ s', ∃ v', tv [] (f_io s') v' ∧
      f_inode s' !! i = Some (mkinode ROOTDEV (i_inum ip) (i_ref ip) 3 (i_d ip)) ∧
      ∀ inum, inum_ok sb inum → inum ≠ i_inum ip → disk_inode sb (t_cur v') inum = disk_inode sb (t_cur v) inum) s.
Proof.
  intros Hsb Hi Hdev Hnum Href Hd Hty Hfb Hh Hv Hcap. pose proof (tv_cap _ _ _ Hv) as Hc.
  assert (i < length (f_inode s))%nat as Hil by (by eapply lookup_lt_Some).
  apply wp_bind. eapply wp_iupdate; try done; [rewrite Hh; cbn [length]; lia|]. intros v1 c1 Hup Hv1.
  apply wp_bind. eapply wp_upd_inode; [exact Hi|]. pose proof (tv_cap _ _ _ Hv1) as Hc1.
  pose proof (updated_blocks sb v _ _ v1 Hnum Hfb Hup) as Hfb1.
  eapply (wp_ilock _ sleep sb v1 _ i _ (i_d ip)); [exact Hsb|by apply list_lookup_insert_eq|exact Hdev|exact Hnum|
    exact Href|done|exact Hfb1|exact Hv1| | |].
  - destruct (up_put _ _ _ _ _ Hup) as (y & _ & ->). cbn [t_held t_put] in *. rewrite Hh. cbn [length]. lia.
  - intros _. cbn [i_inum]. rewrite (up_inode _ _ _ _ _ Hup), decide_True by done. done.
  - intros c2 Hv2. exists v1. split_and!; [exact Hv2| |].
    + cbn [f_inode set_f_inode set_f_io]. rewrite list_insert_insert_eq, list_lookup_insert_eq by done.
      unfold i_valid, loaded. cbn. by rewrite Hdev.
    + intros inum Hin Hne. by rewrite (up_inode _ _ _ _ _ Hup), decide_False by done.
Qed.
Lemma inode_roundtrip_witness :
  wp no_panic
    (iupdate 1 ;;; upd_inode 1 (λ p, mkinode (i_dev p) (i_inum p) (i_ref p) 0 toy_dir) ;;; ilock (λ _ _, skip) (Some 1%nat))
    (λ _ s', ∃ v', tv [] (f_io s') v' ∧
      f_inode s' !! 1%nat = Some (mkinode ROOTDEV 2 1 3 toy_file) ∧
      ∀ inum, inum_ok toy_sb inum → inum ≠ 2 → disk_inode toy_sb (t_cur v') inum = disk_inode toy_sb toy_cur inum) toy_fs.
Proof.
  apply (inode_roundtrip (λ _ _, skip) toy_sb toy_view toy_fs 1 (toy_entry 2 toy_file) toy_dir);
    [reflexivity|reflexivity|reflexivity|vm_compute; split; congruence|vm_compute; congruence|
     apply toy_dinode_ok; by right|vm_compute; congruence|apply toy_blocks|reflexivity|apply toy_tv|vm_compute; lia].
Defined.

(** The inode cache: an inode has one entry however often it is asked for,
    iget returns that entry and adds one to the number of references of that
    inode and of no other, and it fails only when all 50 entries are in use by
    other inodes. *)
Theorem iget_exact {S} `{TxLaws S} (v : tview) (s : fstate S) dev inum :
  tv [] (f_io s) v → icache_ok (f_inode s) →
  wp (λ e, e = "iget: no inodes" ∧ ∀ ip, ip ∈ f_inode s → i_ref ip ≠ 0 ∧ ¬ in_use dev inum ip)
    (iget dev inum)
    (λ i s', icache_ok (f_inode s') ∧ tv [] (f_io s') v ∧
      (∃ ip, f_inode s' !! i = Some ip ∧ in_use dev inum ip) ∧
      (∀ j jp, f_inode s' !! j = Some jp → in_use dev inum jp → j = i) ∧
      refs (f_inode s') dev inum = refs (f_inode s) dev inum + 1 ∧
      ∀ dev' inum', (dev', inum') ≠ (dev, inum) → refs (f_inode s') dev' inum' = refs (f_inode s) dev' inum') s.
Proof.
  intros Hv Hic. eapply wp_iget; [exact Hv| |done]. intros i l' c' Hgot Hv'.
  destruct (got_ok _ _ _ _ _ Hic Hgot) as (Hok & (ip & Hi & Hu) & Hr & Ho). cbn [f_inode f_io].
  split_and!; [done|done|by exists ip| |done|done].
  intros j jp Hj Hju. by eapply (ic_unique _ Hok).
Qed.
Lemma iget_exact_witness :
  wp (λ e, e = "iget: no inodes" ∧ ∀ ip, ip ∈ f_inode toy_fs → i_ref ip ≠ 0 ∧ ¬ in_use ROOTDEV 2 ip)
    (iget ROOTDEV 2) (λ i s', icache_ok (f_inode s') ∧ tv [] (f_io s') toy_view ∧
      (∃ ip, f_inode s' !! i = Some ip ∧ in_use ROOTDEV 2 ip) ∧
      (∀ j jp, f_inode s' !! j = Some jp → in_use ROOTDEV 2 jp → j = i) ∧
      refs (f_inode s') ROOTDEV 2 = 1 + 1 ∧
      ∀ dev' inum', (dev', inum') ≠ (ROOTDEV, 2) → refs (f_inode s') dev' inum' = refs (f_inode toy_fs) dev' inum') toy_fs.
Proof.
  exact (iget_exact toy_view toy_fs ROOTDEV 2 toy_tv toy_icache).
Defined.

(** C32. What is written to a file is what is read from it: after writei, readi of
    any range inside the file gives the new bytes where they were written and the
    old ones elsewhere, across direct and indirect blocks, existing and newly
    allocated; the file grows to the end of the write, its inode on the disk says
    so, and no block in use by other files and no other inode changes.  The only
    failure is a full disk, and only when the file has to grow; a write past the
    end or over the maximal size returns -1 and does nothing. *)
Theorem write_read {S} `{TxLaws S} dr dw (sb : superblock) (v : tview) (s : fstate S) i ip src off off2 n2 Y nb :
  let d := i_d ip in let n := Z.of_nat (length src) in
  file_at sb v s i ip (di_size d) → di_type d ≠ T_DEV → dinode_ok d → inum_ok sb (i_inum ip) →
  0 ≤ di_size d < 2 ^ 31 → 0 ≤ off < 2 ^ 32 → n < 2 ^ 32 →
  (Z.to_nat off mod 512 + length src ≤ nb * 512)%nat → wroom sb v d Y nb →
  0 ≤ off2 → 0 ≤ n2 → off2 + n2 ≤ Z.max (di_size d) (off + n) →
  (off ≤ di_size d → off + n ≤ MAXFILE * BSIZE →
   wp (λ e, e = "balloc: out of blocks" ∧ di_size d < off + n)
     (let! r := writei dw i src off n in
      let! q := readi dr i off2 n2 in ret (r, q))
     (λ rq s', rq.1 = n ∧ rq.2.1 = n2 ∧
       rq.2.2 = (λ k, if decide (Z.to_nat off ≤ k < Z.to_nat off + length src)%nat
                      then nth (k - Z.to_nat off) src 0 else fbyte (t_cur v) d k) <$> seq (Z.to_nat off2) (Z.to_nat n2) ∧
       ∃ v' d', file_at sb v' s' i (set_i_d d' ip) (di_size d') ∧
         written sb v (i_inum ip) d (Z.to_nat off) src v' d') s) ∧
  (di_size d < off ∨ MAXFILE * BSIZE < off + n →
   wp no_panic (writei dw i src off n) (λ r s', r = -1 ∧ s' = s) s).
Proof.
  intros d n Hfa Hty Hdok Hnum Hsz Hoff Hn Hnb Hwr Ho2 Hn2 Hr2. change (MAXFILE * BSIZE) with 78336 in *. split.
  - intros Ho Hmax. apply wp_bind.
    eapply (wp_writei _ dw sb v s i ip src off Y nb); [exact Hfa|exact Hty|exact Hdok|exact Hnum|exact Hsz|exact Hoff|
      exact Hn|exact Hnb|exact Hwr| | |].
    + change (MAXFILE * BSIZE) with 78336. fold d n. intros. lia.
    + done.
    + intros _ _ v' d' c' Hw Hv'. pose proof Hfa as [F1 F2 F3 F4 F5 F6 F7].
      assert (file_at sb v' (mkfs sb (<[i := set_i_d d' ip]> (f_inode s)) c') i (set_i_d d' ip) (di_size d')) as Hfa'.
      { split; [done| |done|apply Hw|apply Hw|exact Hv'|apply Hw].
        apply list_lookup_insert_eq. by eapply lookup_lt_Some. }
      fold d in Hw. pose proof (wn_size _ _ _ _ _ _ _ _ Hw) as Hws. replace (Z.of_nat (Z.to_nat off + length src)) with (off + n) in Hws by lia.
      apply wp_bind. eapply (wp_readi _ dr sb v' _ i (set_i_d d' ip)); cbn [i_d set_i_d];
        [exact Hfa'|by rewrite (wn_same _ _ _ _ _ _ _ _ Hw)|lia|lia|lia|lia|].
      intros _ _ c2 Hv2. assert (read_count d' off2 n2 = Z.to_nat n2) as -> by (unfold read_count; lia).
      apply wp_ret. cbn [fst snd]. split_and!; [done|lia| |].
      * unfold fbytes. apply list_fmap_ext. intros j k [-> Hj]%lookup_seq. apply (wn_bytes _ _ _ _ _ _ _ _ Hw). lia.
      * exists v', d'. split; [by apply file_at_io|exact Hw].
  - intros Herr. eapply (wp_writei _ dw sb v s i ip src off Y nb); [exact Hfa|exact Hty|exact Hdok|exact Hnum|exact Hsz|exact Hoff|
      exact Hn|exact Hnb|exact Hwr|done| |].
    + change (MAXFILE * BSIZE) with 78336. fold d n. intros. lia.
    + change (MAXFILE * BSIZE) with 78336. fold d n. intros. lia.
Qed.
Lemma write_read_witness :
  wp (λ e, e = "balloc: out of blocks" ∧ 0 < 3)
    (let! r := writei (λ _, None) 1 [7; 8; 9] 0 3 in
     let! q := readi (λ _, None) 1 1 2 in ret (r, q))
    (λ rq s', rq.1 = 3 ∧ rq.2 = (2, [8; 9])) toy_fs.
Proof.
  eapply wp_mono.
  - refine (proj1 (write_read (λ _, None) (λ _, None) toy_sb toy_view toy_fs 1 (toy_entry 2 toy_file)
      [7; 8; 9] 0 1 2 {[35]} 1 toy_file_at _ _ _ _ _ _ _ _ _ _ _) _ _);
      [vm_compute; congruence|apply toy_dinode_ok; by right|vm_compute; split; congruence|vm_compute; split; congruence|
       lia|vm_compute; congruence|vm_compute; lia|apply toy_wroom; [reflexivity|lia]|lia|lia|vm_compute; congruence|
       vm_compute; congruence|vm_compute; congruence].
  - intros [r [q1 q2]] s' (H1 & H2 & H3 & _). cbn [fst snd] in *. split; [exact H1|]. rewrite H2, H3. reflexivity.
Defined.

(** C35. Directories: dirlink enters a new name in the first free entry, or at the
    end, and a lookup afterwards finds that inode under that name (compared on 14
    bytes, as entries store it) and under every other name what was there before;
    a name that exists already is refused with -1 and the disk is not touched. *)
Theorem dirlink_dirlookup {S} `{TxLaws S} dr dw (sb : superblock) (v : tview) (s : fstate S) i ip name name2 inum Y :
  let d := i_d ip in let es := entries (t_cur v) d in
  dir_at sb v s i ip → terminated name → terminated name2 → 0 < inum < 2 ^ 16 →
  dinode_ok d → inum_ok sb (i_inum ip) → wroom sb v d Y 1 →
  Z.of_nat (16 * free_entry es + 16) ≤ MAXFILE * BSIZE →
  (find_entry es (name14 name) = None →
   wp (λ e, e = "iget: no inodes" ∨ e = "balloc: out of blocks" ∧ free_entry es = dsize d)
     (let! r := dirlink dr dw i name inum in
      let! q := dirlookup dr i name2 in ret (r, q))
     (λ rq s', rq.1 = 0 ∧
       match if decide (name14 name2 = name14 name) then Some inum else dir_find es (name14 name2) with
       | Some k => ∃ m off jp, rq.2 = Some (m, off) ∧ f_inode s' !! m = Some jp ∧ in_use ROOTDEV k jp
       | None => rq.2 = None
       end) s) ∧
  (is_Some (find_entry es (name14 name)) →
   wp (λ e, e = "iget: no inodes") (dirlink dr dw i name inum) (λ r s', r = -1 ∧ tv [] (f_io s') v) s).
Proof.
  intros d es Hd Ht Ht2 Hin Hdok Hnum Hwr Hmax. split.
  - intros Hnone. apply wp_bind.
    eapply (wp_dirlink _ dr dw sb v s i ip name inum Y); try done; [by left|by right|].
    intros v' d' c' Hw Hdir Hes Hv'. fold d es in Hw, Hes.
    assert (dir_at sb v' (mkfs sb (<[i := set_i_d d' ip]> (f_inode s)) c') i (set_i_d d' ip)) as Hd'.
    { destruct Hd as [[F1 F2 F3 F4 F5 F6 F7] _]. split; [|exact Hdir].
      split; [done| |done|apply Hw|apply Hw|exact Hv'|apply Hw].
      apply list_lookup_insert_eq. by eapply lookup_lt_Some. }
    pose proof (dir_find_link es (mkde inum (name14 name)) (name14 name2) Hnone ltac:(simpl; lia)) as Hfind.
    cbn [de_name de_inum] in Hfind. rewrite <- Hfind. unfold dir_find.
    apply wp_bind. eapply (wp_dirlookup _ dr sb v' _ i (set_i_d d' ip) name2); [exact Hd'|by left| | |by left];
      cbn [i_d set_i_d]; rewrite Hes.
    + intros c2 Hn2 _. apply wp_ret. cbn [fst snd]. by rewrite Hn2.
    + intros k e m l' c2 Hk He Hgot Hv2. apply wp_ret. cbn [fst snd]. split; [done|]. rewrite Hk. simpl. rewrite He. simpl.
      destruct Hgot as (jp & Hj & Hc). pose proof (lookup_lt_Some _ _ _ Hj) as Hlt.
      destruct Hc as [[Hu ->]|(_ & _ & ->)]; eexists m, _, _; (split_and!; [done|by apply list_lookup_insert_eq|]).
      * destruct Hu as (? & ? & ?). split_and!; simpl; [lia|done|done].
      * split_and!; simpl; [lia|done|done].
  - intros Hsome. eapply wp_dirlink_exists; [exact Hd|by left|exact Hsome|done|]. done.
Qed.
Lemma dirlink_dirlookup_witness :
  wp (λ e, e = "iget: no inodes" ∨ e = "balloc: out of blocks" ∧ 0%nat = 0%nat)
    (let! r := dirlink (λ _, None) (λ _, None) 0 [97; 0] 2 in
     let! q := dirlookup (λ _, None) 0 [97; 0] in ret (r, q))
    (λ rq s', rq.1 = 0 ∧ ∃ m off jp, rq.2 = Some (m, off) ∧ f_inode s' !! m = Some jp ∧ in_use ROOTDEV 2 jp) toy_fs.
Proof.
  refine (proj1 (dirlink_dirlookup (λ _, None) (λ _, None) toy_sb toy_view toy_fs 0 (toy_entry 1 toy_dir)
    [97; 0] [97; 0] 2 {[35]} _ _ _ _ _ _ _ _) _).
  - split; [exact toy_dir_at|]. split; vm_compute; congruence.
  - apply (bool_decide_unpack _). vm_compute. exact I.
  - apply (bool_decide_unpack _). vm_compute. exact I.
  - lia.
  - apply toy_dinode_ok. by left.
  - vm_compute. split; congruence.
  - apply toy_wroom; [reflexivity|lia].
  - vm_compute. congruence.
  - reflexivity.
Defined.
