(* ===== verification/FsTrunc.v ===== *)
(** * Freeing the blocks of a file: itrunc, and the iput that calls it *)

From S2P Require Import Prelude CString Words ProcData Sync Block Log Tx Fs FsBlocks FsInode FsFile FsRw.
Local Open Scope Z_scope.
Implicit Types (x y : list Z).

(** The data blocks of [L] were marked free one after the other; [X] bounds the
    blocks of the transaction. *)
Record frees (sb : superblock) (X : gset Z) (v : tview) (L : list Z) (v' : tview) : Prop := mkfe {
  fe_blocks : fs_blocks sb v';
  fe_fields : t_size v' = t_size v ∧ t_lo v' = t_lo v ∧ t_hi v' = t_hi v ∧ t_held v' = t_held v ∧ t_cap v' = t_cap v;
  fe_used : ∀ b, 0 ≤ b < sb_size sb → used sb (t_cur v') b = used sb (t_cur v) b && negb (bool_decide (b ∈ L));
  fe_cur : ∀ n, n < sb_bmapstart sb ∨ data_start sb ≤ n → t_cur v' n = t_cur v n;
  fe_logged : t_logged v' ⊆ X
}.
(** The transaction has room for the blocks of the free map, and is not full. *)
Record froom (sb : superblock) (v : tview) (X : gset Z) : Prop := mkfroom {
  fm_logged : t_logged v ⊆ X;
  fm_map : ∀ b, 0 ≤ b < sb_size sb → BBLOCK b sb ∈ X;
  fm_size : (size X < t_cap v)%nat
}.

Lemma frees_nil sb X v : fs_blocks sb v → t_logged v ⊆ X → frees sb X v [] v.
Proof. intros Hfb HX. split; [done|done| |done|done]. intros b _. by rewrite andb_true_r. Qed.
Lemma frees_app sb X v L v1 L' v2 : frees sb X v L v1 → frees sb X v1 L' v2 → frees sb X v (L ++ L') v2.
Proof.
  intros [_ (A1 & A2 & A3 & A4 & A5) U1 C1 _] [B (B1 & B2 & B3 & B4 & B5) U2 C2 L2].
  split; [done|split_and!; congruence| | |done].
  - intros b Hb. rewrite U2, U1 by done. rewrite <- andb_assoc. f_equal. rewrite <- negb_orb. f_equal.
    rewrite <- bool_decide_or. apply bool_decide_ext. by rewrite elem_of_app.
  - intros n Hn. by rewrite C2, C1.
Qed.
Lemma freed_frees sb X v b v' :
  fs_blocks sb v → is_data sb b → b ∉ (t_held v).*2 → t_logged v ⊆ X → BBLOCK b sb ∈ X → freed sb v b v' → frees sb X v [b] v'.
Proof.
  intros Hfb Hd Hh HX HB Hf. pose proof (freed_blocks _ _ _ _ Hfb Hd Hh Hf) as Hfb'. destruct Hf as [(y & Hy & ->) Hu].
  pose proof (fb_layout _ _ Hfb) as Hly. pose proof (data_pos _ _ _ Hly Hd) as Hb.
  split; [done|done| | |cbn [t_logged t_put]; set_solver].
  - intros b' Hb'. rewrite Hu by done. do 2 f_equal. apply bool_decide_ext. set_solver.
  - intros n Hn. cbn [t_cur t_put]. apply fn_lookup_insert_ne. pose proof (BBLOCK_range _ _ Hly b Hb). lia.
Qed.

Section trunc.
Context {S : Type} `{TxLaws S} (E : string → Prop).
Implicit Types (s : fstate S) (v : tview) (ip : inode).

Lemma froom_frees sb X v L v' : froom sb v X → frees sb X v L v' → froom sb v' X.
Proof. intros [F1 F2 F3] [_ (_ & _ & _ & _ & E5) _ _ HL]. split; [done|done|by rewrite E5]. Qed.
Lemma froom_size sb v X (c : S) : froom sb v X → tv [] c v →
  (size (t_logged v) < t_cap v)%nat ∧ (size (t_logged v) + 1 < NBUF)%nat.
Proof. intros [F1 F2 F3] Hv. pose proof (subseteq_size _ _ F1). pose proof (tv_cap _ _ _ Hv). lia. Qed.

(** bfree of a block in use that is not held *)
Lemma wp_bfree_used sb X v s b Q :
  fs_blocks sb v → froom sb v X → tv [] (f_io s) v → (length (t_held v) ≤ 1)%nat → is_data sb b →
  used sb (t_cur v) b = true → b ∉ (t_held v).*2 →
  (∀ v' c', frees sb X v [b] v' → tv [] c' v' → Q tt (mkfs sb (f_inode s) c')) →
  wp E (bfree ROOTDEV b) Q s.
Proof.
  intros Hfb Hr Hv Hl Hd Hu Hh HQ. destruct (froom_size _ _ _ _ Hr Hv) as [Hs1 Hs2].
  pose proof (data_pos _ _ _ (fb_layout _ _ Hfb) Hd) as Hb.
  eapply wp_bfree; [exact Hfb|exact Hv|done|lia|done| |congruence].
  intros v' c' _ Hf Hv'. apply (HQ v' c'); [|done]. apply freed_frees; [done|done|done|apply (fm_logged _ _ _ Hr)|by apply (fm_map _ _ _ Hr)|done].
Qed.

(** The loop over the direct addresses: those before [k] are 0. *)
Definition cut (k : nat) (d : dinode) : dinode := set_di_addrs (replicate k 0 ++ drop k (di_addrs d)) d.
Definition nonzero (l : list Z) : list Z := filter (λ a, a ≠ 0) l.
Lemma cut_S k d a : di_addrs d !! k = Some a → 
  set_di_addrs (<[k := 0]> (di_addrs (cut k d))) (cut k d) = cut (Datatypes.S k) d.
Proof.
  intros Ha. unfold cut, set_di_addrs. cbn [di_addrs di_type di_major di_minor di_nlink di_uid di_gid di_mode di_size].
  f_equal. rewrite (drop_S _ _ _ Ha). rewrite insert_app_r_alt by (by rewrite length_replicate).
  rewrite length_replicate, Nat.sub_diag. cbn [insert list_insert]. rewrite replicate_S_end, <- app_assoc. done.
Qed.
Lemma cut_lookup k d a : di_addrs d !! k = Some a → di_addrs (cut k d) !! k = Some a.
Proof.
  intros Ha. cbn [cut set_di_addrs di_addrs]. rewrite lookup_app_r by (by rewrite length_replicate).
  by rewrite length_replicate, Nat.sub_diag, lookup_drop, Nat.add_0_r.
Qed.
Lemma cut_zero k d : di_addrs d !! k = Some 0 → cut k d = cut (Datatypes.S k) d.
Proof.
  intros Ha. rewrite <- (cut_S _ _ _ Ha). rewrite list_insert_id by (by apply cut_lookup). done.
Qed.
Lemma cut_0 d : cut 0 d = d.
Proof. unfold cut. by destruct d. Qed.
Lemma cut_26 d : length (di_addrs d) = 26%nat → cut 26 d = set_di_addrs (replicate 26 0) d.
Proof. intros Hl. unfold cut. rewrite drop_ge by lia. by rewrite app_nil_r. Qed.
Lemma nonzero_take_S (l : list Z) k a : l !! k = Some a → nonzero (take (Datatypes.S k) l) = nonzero (take k l) ++ nonzero [a].
Proof. intros Ha. unfold nonzero. by rewrite (take_S_r _ _ _ Ha), list.filter_app. Qed.
(** A nonzero address at [k] is not one of those before. *)
Lemma nonzero_new (l : list Z) k a : l !! k = Some a → a ≠ 0 → NoDup (nonzero l) → a ∉ nonzero (take k l) ∧ a ∈ nonzero l.
Proof.
  intros Ha Hn. rewrite <- (take_drop_middle _ _ _ Ha) at 1 3. unfold nonzero. rewrite list.filter_app, filter_cons_True by done.
  intros (_ & Hnd & _)%list.NoDup_app. split; [intros Hin; apply (Hnd a Hin); by left|]. set_solver.
Qed.

(** One turn of either loop: the address [a] is 0, or a block to be freed. *)
Lemma wp_bfree_next sb X v L v1 s a (m : M (fstate S) unit) Q :
  frees sb X v L v1 → froom sb v X → tv [] (f_io s) v1 → f_sb s = sb → (length (t_held v) ≤ 1)%nat →
  (a ≠ 0 → is_data sb a ∧ used sb (t_cur v) a = true ∧ a ∉ L ∧ a ∉ (t_held v).*2) →
  (∀ v' c', frees sb X v (L ++ nonzero [a]) v' → tv [] c' v' → a ≠ 0 → wp E m Q (mkfs sb (f_inode s) c')) →
  (frees sb X v (L ++ nonzero [a]) v1 → a = 0 → Q tt s) →
  wp E (if decide (a ≠ 0) then bfree ROOTDEV a ;;; m else skip) Q s.
Proof.
  intros Hf Hr Hv Hsb Hl Ha HQ HN. unfold nonzero in *. pose proof (fe_fields _ _ _ _ _ Hf) as (_ & _ & _ & Hh & _).
  destruct (decide (a ≠ 0)) as [Hn|Hz].
  - destruct (Ha Hn) as (Hd & Hu & HnL & Hnh). apply wp_bind.
    eapply wp_bfree_used; [apply Hf|by eapply froom_frees|exact Hv|by rewrite Hh|exact Hd| |by rewrite Hh|].
    { rewrite (fe_used _ _ _ _ _ Hf), Hu, bool_decide_false; [done|done|]. by eapply data_pos, Hd; apply Hf. }
    intros v' c' Hf' Hv'. apply (HQ v'); [|done|done]. rewrite filter_cons_True by done. by eapply frees_app.
  - apply wp_skip, HN; [|lia]. rewrite filter_cons_False by done. change (filter _ []) with (@nil Z). by rewrite app_nil_r.
Qed.

Lemma wp_bfree_last a Q s :
  wp E (if decide (a ≠ 0) then bfree ROOTDEV a ;;; skip else skip) Q s →
  wp E (if decide (a ≠ 0) then bfree (S := S) ROOTDEV a else skip) Q s.
Proof. destruct (decide (a ≠ 0)); [|done]. unfold wp, bind. by destruct (bfree ROOTDEV a s) as [[[] s']|e| |]. Qed.
Lemma wp_trunc_direct sb X v s i ip Q :
  let L := nonzero (take 25 (di_addrs (i_d ip))) in
  f_inode s !! i = Some ip → i_dev ip = ROOTDEV → f_sb s = sb → length (di_addrs (i_d ip)) = 26%nat →
  fs_blocks sb v → froom sb v X → tv [] (f_io s) v → t_held v = [] →
  NoDup L → (∀ a, a ∈ L → is_data sb a ∧ used sb (t_cur v) a = true) →
  (∀ v' c', frees sb X v L v' → tv [] c' v' → Q tt (mkfs sb (<[i := set_i_d (cut 25 (i_d ip)) ip]> (f_inode s)) c')) →
  wp E (mfor (seq 0 25) (λ k,
    let! a := get_addr i k in
    if decide (a ≠ 0) then bfree (i_dev ip) a ;;; put_addr i k 0 else skip)) Q s.
Proof.
  intros L Hi Hdev Hsb Hlen Hfb Hr Hv Hh Hnd HL HQ. rewrite Hdev. set (d := i_d ip) in *.
  pose proof (lookup_lt_Some _ _ _ Hi) as Hlt.
  set (I := λ rest s1, ∃ k v1, rest = seq k (25 - k) ∧ (k ≤ 25)%nat ∧
    frees sb X v (nonzero (take k (di_addrs d))) v1 ∧ tv [] (f_io s1) v1 ∧ f_sb s1 = sb ∧
    f_inode s1 = <[i := set_i_d (cut k d) ip]> (f_inode s)).
  eapply wp_mono; [apply (wp_mfor E _ _ I)|].
  - exists O, v. rewrite cut_0. split_and!; [done|lia|apply frees_nil; [done|apply Hr]|done|done|].
    replace (set_i_d d ip) with ip by (by destruct ip). by rewrite list_insert_id.
  - intros k rest s1 (k' & v1 & Hseq & Hk & Hf & Hv1 & Hsb1 & Hin1).
    destruct (25 - k')%nat as [|r] eqn:Hkr; [done|]. injection Hseq as -> ->.
    destruct (lookup_lt_is_Some_2 (di_addrs d) k') as [a Ha]; [lia|].
    assert (f_inode s1 !! i = Some (set_i_d (cut k' d) ip)) as Hi1 by (rewrite Hin1; by apply list_lookup_insert_eq).
    eapply wp_get_addr; [exact Hi1|by apply cut_lookup|].
    pose proof (nonzero_take_S _ _ _ Ha) as HLS.
    eapply wp_bfree_next; [exact Hf|exact Hr|exact Hv1|exact Hsb1|rewrite Hh; simpl; lia| | |].
    + intros Hn. destruct (nonzero_new (take 25 (di_addrs d)) k' a) as [H1 H2]; [by rewrite lookup_take_lt by lia|done|done|].
      rewrite take_take, Nat.min_l in H1 by lia. destruct (HL a H2). split_and!; [done..|rewrite Hh; set_solver].
    + intros v2 c2 Hf2 Hv2 Hn. eapply wp_put_addr; [exact Hi1|]. cbn [set_f_inode f_inode i_d set_i_d].
      exists (Datatypes.S k'), v2. rewrite HLS. split_and!; [f_equal; lia|lia|done|done|done|].
      cbn [f_inode set_f_inode]. rewrite Hin1, list_insert_insert_eq. by rewrite (cut_S _ _ _ Ha).
    + intros Hf2 Hz. exists (Datatypes.S k'), v1. rewrite HLS. subst a.
      split_and!; [f_equal; lia|lia|done|done|done|]. rewrite Hin1. by rewrite (cut_zero _ _ Ha).
  - intros [] s' (k & v1 & Hseq & Hk & Hf & Hv1 & Hsb1 & Hin1).
    assert (k = 25)%nat as ->. { destruct (25 - k)%nat eqn:?; [lia|done]. }
    destruct s' as [sb' l' c']. cbn [f_sb f_io f_inode] in *. subst sb' l'. by apply (HQ v1).
Qed.

Lemma wp_trunc_words sb X v s (x : block) Q :
  let L := nonzero (words x) in
  f_sb s = sb → is_block x → fs_blocks sb v → froom sb v X → tv [] (f_io s) v → (length (t_held v) ≤ 1)%nat →
  NoDup L → (∀ a, a ∈ L → is_data sb a ∧ used sb (t_cur v) a = true ∧ a ∉ (t_held v).*2) →
  (∀ v' c', frees sb X v L v' → tv [] c' v' → Q tt (mkfs sb (f_inode s) c')) →
  wp E (mfor (seq 0 128) (λ j,
    let! a := of_opt (get_word x (4 * j)) in
    if decide (a ≠ 0) then bfree ROOTDEV a else skip)) Q s.
Proof.
  intros L Hsb Hx Hfb Hr Hv Hh Hnd HL HQ.
  set (I := λ rest s1, ∃ k v1, rest = seq k (128 - k) ∧ (k ≤ 128)%nat ∧
    frees sb X v (nonzero (take k (words x))) v1 ∧ tv [] (f_io s1) v1 ∧ f_sb s1 = sb ∧ f_inode s1 = f_inode s).
  eapply wp_mono; [apply (wp_mfor E _ _ I)|].
  - exists O, v. split_and!; [done|lia|apply frees_nil; [done|apply Hr]|done|done|done].
  - intros k rest s1 (k' & v1 & Hseq & Hk & Hf & Hv1 & Hsb1 & Hin1).
    destruct (128 - k')%nat as [|r] eqn:Hkr; [done|]. injection Hseq as -> ->.
    destruct (lookup_lt_is_Some_2 (words x) k') as [a Ha]; [rewrite length_words'; lia|].
    apply wp_bind. apply (wp_of_opt _ _ a).
    { rewrite get_word_words; [|exact Hx|lia]. f_equal. apply nth_lookup_Some with (1 := Ha). }
    pose proof (nonzero_take_S _ _ _ Ha) as HLS.
    apply wp_bfree_last. eapply wp_bfree_next; [exact Hf|exact Hr|exact Hv1|exact Hsb1|exact Hh| | |].
    + intros Hn. destruct (nonzero_new (words x) k' a) as [H1 H2]; [done..|]. destruct (HL a H2) as (? & ? & ?). done.
    + intros v2 c2 Hf2 Hv2 Hn. apply wp_skip. exists (Datatypes.S k'), v2. rewrite HLS. split_and!; [f_equal; lia|lia|done|done|done|done].
    + intros Hf2 Hz. exists (Datatypes.S k'), v1. rewrite HLS. split_and!; [f_equal; lia|lia|done|done|done|done].
  - intros [] s' (k & v1 & Hseq & Hk & Hf & Hv1 & Hsb1 & Hin1).
    assert (k = 128)%nat as ->. { destruct (128 - k)%nat eqn:?; [lia|done]. }
    rewrite firstn_all2 in Hf by (by rewrite length_words'). destruct s' as [sb' l' c']. cbn [f_sb f_io f_inode] in *. subst sb' l'. by apply (HQ v1).
Qed.

(** ** itrunc *)
Definition emptied (d : dinode) : dinode := set_di_size 0 (set_di_addrs (replicate 26 0) d).
(** Inode [inum] was [d] and is [d'] on the disk, the blocks of [d] are free; the
    contents of the data blocks and the other inodes are as they were. *)
Record truncated (sb : superblock) (X : gset Z) (v : tview) (inum : Z) (d d' : dinode) (v' : tview) : Prop := mktr {
  tr_blocks : fs_blocks sb v';
  tr_fields : t_held v' = t_held v ∧ t_cap v' = t_cap v;
  tr_used : ∀ b, 0 ≤ b < sb_size sb → used sb (t_cur v') b = used sb (t_cur v) b && negb (bool_decide (b ∈ footprint (t_cur v) d));
  tr_data : ∀ n, is_data sb n → t_cur v' n = t_cur v n;
  tr_inodes : ∀ inum', inum_ok sb inum' →
    disk_inode sb (t_cur v') inum' = if decide (inum' = inum) then Some d' else disk_inode sb (t_cur v) inum';
  tr_logged : t_logged v' ⊆ X
}.

Lemma footprint_parts cur d : length (di_addrs d) = 26%nat →
  footprint cur d = nonzero (take 25 (di_addrs d)) ++
    (if decide (iaddr d = 0) then [] else iaddr d :: nonzero (words (cur (iaddr d)))).
Proof.
  intros Hl. unfold footprint, slots. rewrite <- (take_drop 25 (di_addrs d)) at 1.
  rewrite (drop_S _ (iaddr d) 25) by (by apply addrs_iaddr). rewrite drop_ge by lia. rewrite <- app_assoc, list.filter_app. unfold nonzero.
  f_equal. cbn [app]. destruct (decide (iaddr d = 0)) as [Hz|Hz].
  - rewrite filter_cons_False by (intros Hn; by apply Hn). done.
  - by rewrite filter_cons_True.
Qed.

Lemma wp_trunc_indirect sb X v s i ip Q :
  let a := iaddr (i_d ip) in let L := if decide (a = 0) then [] else a :: nonzero (words (t_cur v a)) in
  f_inode s !! i = Some ip → i_dev ip = ROOTDEV → f_sb s = sb → length (di_addrs (i_d ip)) = 26%nat →
  fs_blocks sb v → froom sb v X → tv [] (f_io s) v → t_held v = [] →
  NoDup L → (∀ b, b ∈ L → is_data sb b ∧ used sb (t_cur v) b = true) →
  (∀ L' v' c', L' ≡ₚ L → frees sb X v L' v' → tv [] c' v' →
    Q tt (mkfs sb (<[i := set_i_d (set_di_addrs (<[25%nat := 0]> (di_addrs (i_d ip))) (i_d ip)) ip]> (f_inode s)) c')) →
  wp E (if decide (a ≠ 0) then
     let! bp := fio (tx_bread (i_dev ip) a) in
     let! x := fio (tx_data bp) in
     mfor (seq 0 (Z.to_nat NINDIRECT)) (λ j,
       let! a := of_opt (get_word x (4 * j)) in
       if decide (a ≠ 0) then bfree (i_dev ip) a else skip) ;;;
     fio (tx_brelse bp) ;;;
     bfree (i_dev ip) a ;;;
     put_addr i (Z.to_nat NDIRECT) 0
   else skip) Q s.
Proof.
  intros a L Hi Hdev Hsb Hlen Hfb Hr Hv Hh Hnd HL HQ. rewrite Hdev. pose proof (fb_layout _ _ Hfb) as Hly.
  destruct (decide (a ≠ 0)) as [Ha|Ha].
  2:{ assert (a = 0) as Hz by lia. apply wp_skip. specialize (HQ [] v (f_io s)). unfold L in HQ. rewrite decide_True in HQ by done.
      subst sb. rewrite (list_insert_id (di_addrs (i_d ip)) 25 0) in HQ by (rewrite <- Hz; by apply addrs_iaddr).
      replace (set_i_d _ ip) with ip in HQ by (destruct ip as [? ? ? ? []]; done). rewrite list_insert_id in HQ by done.
      destruct s. apply HQ; [done| |done]. apply frees_nil; [done|apply (fm_logged _ _ _ Hr)]. }
  unfold L in *. rewrite decide_False in * by done. destruct (HL a) as [Had Hau]; [by left|].
  apply list.NoDup_cons in Hnd as [Hna Hnd]. destruct (froom_size _ _ _ _ Hr Hv) as [Hs1 Hs2].
  eapply wp_hold; [exact Hv|by eapply data_ours|rewrite Hh; set_solver|rewrite Hh; simpl; lia|]. intros bp c1 Hbp Hv1.
  eapply wp_peek; [exact Hv1|by left|]. cbn [t_cur t_hold]. apply wp_bind. change (Z.to_nat NINDIRECT) with 128%nat.
  eapply (wp_trunc_words sb X (t_hold bp a v)); [done| | | |exact Hv1|cbn [t_held t_hold]; rewrite Hh; simpl; lia|done| |].
  { apply (tv_blocks _ _ _ _ Hv). by eapply data_ours. }
  { by apply hold_blocks. }
  { destruct Hr. by split. }
  { intros b Hb. destruct (HL b) as [? ?]; [by right|]. split_and!; [done|done|]. cbn [t_held t_hold]. rewrite Hh. set_solver. }
  intros v2 c2 Hf2 Hv2. pose proof (fe_fields _ _ _ _ _ Hf2) as (E1 & E2 & E3 & E4 & E5). cbn [t_held t_hold] in E4. rewrite Hh in E4.
  apply wp_bind, wp_fio. eapply tx_brelse_law; [exact Hv2|set_solver|set_solver|rewrite E4; by left| |].
  { rewrite (fb_loose _ _ (fe_blocks _ _ _ _ _ Hf2)). set_solver. }
  intros c3 Hv3. set (v3 := t_drop bp a v2) in *.
  assert (frees sb X v (nonzero (words (t_cur v a))) v3) as Hf3.
  { destruct Hf2 as [[Y1 Y2 Y3 Y4] _ Hu Hc Hlg]. split; [|cbn; rewrite E4, remove1_head; by rewrite Hh|exact Hu|exact Hc|exact Hlg].
    split; [by eapply layout_mono|exact Y2|cbn; rewrite E4, remove1_head; set_solver|exact Y4]. }
  apply wp_bind. eapply (wp_bfree_used sb X v3); [apply Hf3|by eapply froom_frees|exact Hv3| |done| | |].
  { destruct (fe_fields _ _ _ _ _ Hf3) as (_ & _ & _ & -> & _). rewrite Hh. simpl. lia. }
  { rewrite (fe_used _ _ _ _ _ Hf3), Hau, bool_decide_false; [done|done|]. by eapply data_pos. }
  { destruct (fe_fields _ _ _ _ _ Hf3) as (_ & _ & _ & -> & _). rewrite Hh. set_solver. }
  intros v4 c4 Hf4 Hv4. eapply wp_put_addr; [exact Hi|]. eapply (HQ (nonzero (words (t_cur v a)) ++ [a])); [|by eapply frees_app|exact Hv4].
  rewrite Permutation_app_comm. done.
Qed.

Lemma emptied_ok d : dinode_ok d → dinode_ok (emptied d).
Proof. intros []. split; cbn; try done. by repeat constructor. Qed.

Lemma wp_itrunc sb X v s i ip Q :
  let d := i_d ip in
  f_inode s !! i = Some ip → i_dev ip = ROOTDEV → f_sb s = sb → dinode_ok d → inum_ok sb (i_inum ip) →
  fs_blocks sb v → froom sb v X → IBLOCK (i_inum ip) sb ∈ X → tv [] (f_io s) v → t_held v = [] →
  file_ok sb (t_cur v) d (di_size d) →
  (∀ v' c', truncated sb X v (i_inum ip) d (emptied d) v' → tv [] c' v' →
    Q tt (mkfs sb (<[i := set_i_d (emptied d) ip]> (f_inode s)) c')) →
  wp E (itrunc i) Q s.
Proof.
  intros d Hi Hdev Hsb Hok Hin Hfb Hr HX Hv Hh [Hlen Hdata Hnd _] HQ. pose proof (lookup_lt_Some _ _ _ Hi) as Hlt.
  pose proof (fb_layout _ _ Hfb) as Hly. rewrite (footprint_parts _ _ Hlen) in Hdata, Hnd.
  apply list.NoDup_app in Hnd as (Hn1 & Hn2 & Hn3).
  assert (25 < length (di_addrs d))%nat as H25 by (rewrite Hlen; lia).
  unfold itrunc. eapply wp_the_inode; [exact Hi|]. apply wp_bind. change (Z.to_nat NDIRECT) with 25%nat.
  eapply wp_trunc_direct; [exact Hi|done|done|done|exact Hfb|exact Hr|exact Hv|exact Hh|exact Hn1| |].
  { intros a Ha. apply Hdata. set_solver. }
  intros v1 c1 Hf1 Hv1. fold d in Hf1. pose proof (fe_fields _ _ _ _ _ Hf1) as (A1 & A2 & A3 & A4 & A5).
  set (ip1 := set_i_d (cut 25 d) ip). assert (iaddr (i_d ip1) = iaddr d) as Hia.
  { cbn [ip1 i_d set_i_d]. unfold iaddr. rewrite !nth_lookup. f_equal. 
    rewrite (addrs_iaddr d Hlen). by apply cut_lookup, addrs_iaddr. }
  assert (∀ n, is_data sb n → t_cur v1 n = t_cur v n) as Hc1.
  { intros n [Hn _]. apply (fe_cur _ _ _ _ _ Hf1). by right. }
  assert (∀ a, iaddr d ≠ 0 → a = iaddr d → t_cur v1 a = t_cur v a) as Hw.
  { intros a Hz ->. apply Hc1, Hdata. rewrite decide_False by done. set_solver. }
  eapply wp_get_addr; [by apply list_lookup_insert_eq|exact (cut_lookup 25 d _ (addrs_iaddr d Hlen))|].
  apply wp_bind. change (i_dev ip) with (i_dev ip1). rewrite <- Hia.
  assert (length (di_addrs (i_d ip1)) = 26%nat) as Hl1.
  { cbn [ip1 i_d set_i_d cut set_di_addrs di_addrs]. rewrite length_app, length_replicate, length_drop, Hlen. done. }
  assert (L_eq : (if decide (iaddr (i_d ip1) = 0) then [] else iaddr (i_d ip1) :: nonzero (words (t_cur v1 (iaddr (i_d ip1))))) =
    (if decide (iaddr d = 0) then [] else iaddr d :: nonzero (words (t_cur v (iaddr d))))).
  { rewrite Hia. destruct (decide (iaddr d = 0)) as [|Hz]; [done|]. by rewrite Hw. }
  eapply (wp_trunc_indirect sb X v1 _ i ip1); [by apply list_lookup_insert_eq|done|done|done|apply Hf1|by eapply froom_frees|exact Hv1|congruence| | |].
  { by rewrite L_eq. }
  { rewrite L_eq. intros b Hb. destruct (Hdata b) as [Hbd Hbu]; [set_solver|]. split; [done|].
    rewrite (fe_used _ _ _ _ _ Hf1), Hbu, bool_decide_false; [done| |by eapply data_pos]. intros Hb1. by eapply Hn2. }
  intros L' v2 c2 HL' Hf2 Hv2. rewrite L_eq in HL'. pose proof (frees_app _ _ _ _ _ _ _ Hf1 Hf2) as Hf.
  pose proof (fe_fields _ _ _ _ _ Hf) as (B1 & B2 & B3 & B4 & B5).
  cbn [f_inode]. rewrite list_insert_insert_eq.
  apply wp_bind. eapply wp_upd_inode; [by apply list_lookup_insert_eq|]. cbn [f_inode set_f_inode]. rewrite list_insert_insert_eq.
  assert (set_di_addrs (<[25%nat := 0]> (di_addrs (i_d ip1))) (i_d ip1) = set_di_addrs (replicate 26 0) d) as Hcut.
  { cbn [ip1 i_d set_i_d]. rewrite (cut_S _ _ _ (addrs_iaddr d Hlen)). by apply cut_26. }
  rewrite Hcut. cbn [i_d set_i_d]. fold (emptied d). set (ip2 := set_i_d (emptied d) (set_i_d _ ip1)).
  destruct (froom_size _ _ _ _ (froom_frees _ _ _ _ _ Hr Hf) Hv2) as [Hs1 Hs2].
  eapply (wp_iupdate E sb v2 _ i ip2); [done|by apply list_lookup_insert_eq|done|done|by apply emptied_ok|apply Hf|exact Hv2|rewrite B4, Hh; simpl; lia|done|].
  intros v3 c3 Hup Hv3. eapply (HQ v3); [|exact Hv3]. pose proof (updated_blocks _ _ _ _ _ Hin (fe_blocks _ _ _ _ _ Hf) Hup) as Hfb3.
  destruct Hup as [(y & Hy & ->) Hup]. change (i_inum ip2) with (i_inum ip) in *. split.
  - exact Hfb3.
  - by cbn.
  - intros b Hb. assert (IBLOCK (i_inum ip) sb ≠ BBLOCK b sb) by (intros Heq; symmetry in Heq; revert Heq; by eapply map_not_inode).
    unfold used at 1. cbn [t_cur t_put]. rewrite fn_lookup_insert_ne by done. fold (used sb (t_cur v2) b).
    rewrite (fe_used _ _ _ _ _ Hf) by done. do 2 f_equal. apply bool_decide_ext. rewrite (footprint_parts _ _ Hlen), !elem_of_app. by rewrite HL'.
  - intros n Hn. cbn [t_cur t_put]. rewrite fn_lookup_insert_ne by (intros Heq; symmetry in Heq; revert Heq; by eapply data_not_inode).
    apply (fe_cur _ _ _ _ _ Hf). right. apply Hn.
  - intros inum' Hin'. rewrite Hup by done. destruct (decide (inum' = i_inum ip)); [done|]. apply disk_inode_frame, (fe_cur _ _ _ _ _ Hf).
    left. by eapply IBLOCK_range.
  - cbn [t_logged t_put]. pose proof (fe_logged _ _ _ _ _ Hf). set_solver.
Qed.

(** ** iput of the last reference to an inode without links *)
Definition discarded (d : dinode) : dinode := set_di_type 0 (emptied d).
Lemma discarded_ok d : dinode_ok d → dinode_ok (discarded d).
Proof. intros Hd%emptied_ok. destruct Hd. split; cbn in *; try done. Qed.

Lemma truncated_update sb X v inum d d1 d2 v1 v2 :
  fs_blocks sb v → inum_ok sb inum → IBLOCK inum sb ∈ X →
  truncated sb X v inum d d1 v1 → updated sb v1 inum d2 v2 → truncated sb X v inum d d2 v2.
Proof.
  intros Hfb Hin HX [T1 T2 T3 T4 T5 T6] Hup. pose proof (updated_blocks _ _ _ _ _ Hin T1 Hup) as Hfb2.
  pose proof (fb_layout _ _ Hfb) as Hly. destruct Hup as [(y & Hy & ->) Hup]. split; [done|done| | | |cbn [t_logged t_put]; set_solver].
  - intros b Hb. assert (IBLOCK inum sb ≠ BBLOCK b sb) by (intros Heq; symmetry in Heq; revert Heq; by eapply map_not_inode).
    unfold used at 1. cbn [t_cur t_put]. rewrite fn_lookup_insert_ne by done. by apply T3.
  - intros n Hn. cbn [t_cur t_put]. rewrite fn_lookup_insert_ne by (intros Heq; symmetry in Heq; revert Heq; by eapply data_not_inode).
    by apply T4.
  - intros inum' Hi'. rewrite Hup, T5 by done. by destruct (decide (inum' = inum)).
Qed.

Lemma wp_iput_last sb X v s i ip Q :
  let d := i_d ip in
  f_inode s !! i = Some ip → i_dev ip = ROOTDEV → f_sb s = sb → dinode_ok d → inum_ok sb (i_inum ip) →
  i_ref ip = 1 → i_valid ip = true → i_busy ip = false → di_nlink d = 0 →
  fs_blocks sb v → froom sb v X → IBLOCK (i_inum ip) sb ∈ X → tv [] (f_io s) v → t_held v = [] →
  file_ok sb (t_cur v) d (di_size d) →
  (∀ v' c', truncated sb X v (i_inum ip) d (discarded d) v' → tv [] c' v' →
    Q tt (mkfs sb (<[i := mkinode ROOTDEV (i_inum ip) 0 0 (discarded d)]> (f_inode s)) c')) →
  wp E (iput i) Q s.
Proof.
  intros d Hi Hdev Hsb Hok Hin Href Hval Hbusy Hnl Hfb Hr HX Hv Hh Hf HQ. pose proof (lookup_lt_Some _ _ _ Hi) as Hlt.
  unfold iput. eapply wp_lock; [exact Hv|set_solver|]. intros c1 Hv1. eapply wp_the_inode; [exact Hi|].
  apply wp_bind. rewrite decide_True by done. rewrite Hbusy. apply wp_bind. eapply wp_upd_inode; [exact Hi|].
  apply wp_bind. eapply wp_unlock; [exact Hv1|]. intros c2 Hv2. cbn [f_inode set_f_inode set_f_io].
  fold (locked ip). apply wp_bind.
  eapply (wp_itrunc sb X v _ i (locked ip)); [by apply list_lookup_insert_eq|done|done|done|done|exact Hfb|exact Hr|done|exact Hv2|done|done|].
  intros v3 c3 Htr Hv3. cbn [f_inode set_f_inode set_f_io f_sb]. rewrite list_insert_insert_eq. change (i_d (locked ip)) with d in *.
  apply wp_bind. eapply wp_upd_inode; [by apply list_lookup_insert_eq|]. cbn [f_inode set_f_inode]. rewrite list_insert_insert_eq.
  change (set_i_d (set_di_type 0 (i_d (set_i_d (emptied d) (locked ip)))) (set_i_d (emptied d) (locked ip))) with (set_i_d (discarded d) (locked ip)).
  destruct (tr_fields _ _ _ _ _ _ _ Htr) as [E1 E2].
  assert (froom sb v3 X) as Hr3 by (destruct Hr; split; [apply Htr|done|by rewrite E2]).
  destruct (froom_size _ _ _ _ Hr3 Hv3) as [Hs1 Hs2]. apply wp_bind.
  eapply (wp_iupdate E sb v3 _ i (set_i_d (discarded d) (locked ip))); [done|by apply list_lookup_insert_eq|done|done|by apply discarded_ok|
    apply Htr|exact Hv3|rewrite E1, Hh; simpl; lia|done|].
  intros v4 c4 Hup Hv4. eapply wp_lock; [exact Hv4|set_solver|]. intros c5 Hv5. apply wp_bind.
  eapply wp_upd_inode; [by apply list_lookup_insert_eq|]. cbn [f_inode set_f_inode set_f_io]. rewrite list_insert_insert_eq.
  apply wp_fio. eapply tx_wakeup_law; [exact Hv5|set_solver|]. intros c6 Hv6. apply wp_bind.
  eapply wp_upd_inode; [by apply list_lookup_insert_eq|]. cbn [f_inode set_f_inode set_f_io]. rewrite list_insert_insert_eq.
  eapply wp_unlock; [exact Hv6|]. intros c7 Hv7. unfold set_f_io, set_f_inode. cbn [f_sb f_inode f_io].
  match goal with |- Q tt (mkfs _ (<[i := ?x]> _) _) => replace x with (mkinode ROOTDEV (i_inum ip) 0 0 (discarded d)) 
    by (unfold locked, set_i_ref, set_i_flags, set_i_d; cbn [i_dev i_inum i_ref i_flags i_d]; by rewrite Hdev, Href) end.
  apply (HQ v4); [|done]. eapply truncated_update; [exact Hfb|done|done|exact Htr|exact Hup].
Qed.
End trunc.
