(* ===== verification/Dirop.v ===== *)
(** * Names of files: create, link and unlink (sysfile.c)

    The parts of these calls inside the transaction, over fs.c.  [name0] is what
    the buffer for the last element of a path holds at first. *)

From S2P Require Import Prelude CString Words ProcData Sync Block Log Tx Fs.
Local Open Scope Z_scope.

Definition set_di_nlink x d :=
  mkdi (di_type d) (di_major d) (di_minor d) x (di_uid d) (di_gid d) (di_mode d) (di_size d) (di_addrs d).
(** ip->major, ip->minor, ip->nlink *)
Definition set_di_dev ma mi nl d :=
  mkdi (di_type d) ma mi nl (di_uid d) (di_gid d) (di_mode d) (di_size d) (di_addrs d).
Definition dot : list Z := [46; 0].
Definition dotdot : list Z := [46; 46; 0].
(** namecmp(name, ".") == 0 || namecmp(name, "..") == 0 *)
Definition is_dots (name : list Z) : option bool :=
  c ← namecmp name dot;
  if decide (c = 0) then Some true else c ← namecmp name dotdot; Some (bool_decide (c = 0)).

Section dirop.
Context {S : Type} `{TxIO S}.
Abbreviation F := (M (fstate S)).
Context (sleep : chan → string → M (fstate S) unit).
Context (dev_read : Z → option (nat → Z → M (fstate S) (Z * list Z))).
Context (dev_write : Z → option (nat → list Z → Z → M (fstate S) Z)).
Context (cwd : nat) (name0 : list Z).

(** ip->nlink++ and ip->nlink-- *)
Definition add_nlink (i : nat) (k : Z) : F unit :=
  upd_inode i (λ ip, set_i_d (set_di_nlink (s16 (di_nlink (i_d ip) + k)) (i_d ip)) ip).

Fixpoint isdirempty_from (fuel : nat) (dp : nat) (off : Z) : F bool :=
  match fuel with
  | O => diverge
  | Datatypes.S fuel' =>
      let! ip := the_inode dp in
      if decide (u32 off < di_size (i_d ip)) then
        let! r := readi dev_read dp (u32 off) SIZEOF_DIRENT in
        if decide (r.1 ≠ SIZEOF_DIRENT) then panic "isdirempty: readi" else
        let! inum := of_opt (dirent_inum r.2) in
        if decide (inum ≠ 0) then ret false else isdirempty_from fuel' dp (s32 (off + SIZEOF_DIRENT))
      else ret true
  end.
Definition isdirempty (dp : nat) : F bool :=
  let! ip := the_inode dp in
  isdirempty_from (Z.to_nat (di_size (i_d ip) / SIZEOF_DIRENT) + 2) dp (2 * SIZEOF_DIRENT).

(** ** unlink *)
Definition unlink_at (dp : nat) (name : list Z) : F Z :=
  ilock sleep (Some dp) ;;;
  let! dots := of_opt (is_dots name) in
  if dots then iunlockput dp ;;; ret (-1) else
  let! r := dirlookup dev_read dp name in
  match r with
  | None => iunlockput dp ;;; ret (-1)
  | Some (ip, off) =>
      ilock sleep (Some ip) ;;;
      let! p := the_inode ip in
      if decide (di_nlink (i_d p) < 1) then panic "unlink: nlink < 1" else
      let! empty := (if decide (di_type (i_d p) = T_DIR) then isdirempty ip else ret true) in
      if negb empty then iunlockput ip ;;; iunlockput dp ;;; ret (-1) else
      let! r := writei dev_write dp (replicate 16 0) off SIZEOF_DIRENT in
      if decide (r ≠ SIZEOF_DIRENT) then panic "unlink: writei" else
      (if decide (di_type (i_d p) = T_DIR) then add_nlink dp (-1) ;;; iupdate dp else skip) ;;;
      iunlockput dp ;;;
      add_nlink ip (-1) ;;;
      iupdate ip ;;;
      iunlockput ip ;;;
      ret 0
  end.
Definition unlink_path (path : list Z) : F Z :=
  let! r := nameiparent sleep dev_read cwd path name0 in
  match r with
  | (None, _) => ret (-1)
  | (Some dp, name) => unlink_at dp name
  end.

(** ** create: the inode, locked *)
Definition create_at (dp : nat) (name : list Z) (type major minor : Z) : F (option nat) :=
  ilock sleep (Some dp) ;;;
  let! r := dirlookup dev_read dp name in
  match r with
  | Some (ip, _) =>
      iunlockput dp ;;;
      ilock sleep (Some ip) ;;;
      let! p := the_inode ip in
      if decide (type = T_FILE ∧ di_type (i_d p) = T_FILE) then ret (Some ip) else iunlockput ip ;;; ret None
  | None =>
      let! d := the_inode dp in
      let! ip := ialloc (i_dev d) type in
      ilock sleep (Some ip) ;;;
      upd_inode ip (λ p, set_i_d (set_di_dev major minor 1 (i_d p)) p) ;;;
      iupdate ip ;;;
      let! p := the_inode ip in
      (if decide (type = T_DIR) then
         add_nlink dp 1 ;;;
         iupdate dp ;;;
         let! r := dirlink dev_read dev_write ip dot (i_inum p) in
         if decide (r < 0) then panic "create dots" else
         let! r := dirlink dev_read dev_write ip dotdot (i_inum d) in
         if decide (r < 0) then panic "create dots" else skip
       else skip) ;;;
      let! r := dirlink dev_read dev_write dp name (i_inum p) in
      if decide (r < 0) then panic "create: dirlink" else
      iunlockput dp ;;;
      ret (Some ip)
  end.
Definition create (path : list Z) (type major minor : Z) : F (option nat) :=
  let! r := nameiparent sleep dev_read cwd path name0 in
  match r with
  | (None, _) => ret None
  | (Some dp, name) => create_at dp name type major minor
  end.

(** ** link *)
(** The label bad: the link count goes back. *)
Definition link_bad (ip : nat) : F Z :=
  ilock sleep (Some ip) ;;;
  add_nlink ip (-1) ;;;
  iupdate ip ;;;
  iunlockput ip ;;;
  ret (-1).
Definition link_at (ip dp : nat) (name : list Z) : F Z :=
  ilock sleep (Some dp) ;;;
  let! d := the_inode dp in
  let! p := the_inode ip in
  if decide (i_dev d ≠ i_dev p) then iunlockput dp ;;; link_bad ip else
  let! r := dirlink dev_read dev_write dp name (i_inum p) in
  if decide (r < 0) then iunlockput dp ;;; link_bad ip else
  iunlockput dp ;;;
  iput ip ;;;
  ret 0.
Definition link_paths (old new : list Z) : F Z :=
  let! r := namei sleep dev_read cwd old in
  match r with
  | None => ret (-1)
  | Some ip =>
      ilock sleep (Some ip) ;;;
      let! p := the_inode ip in
      if decide (di_type (i_d p) = T_DIR) then iunlockput ip ;;; ret (-1) else
      add_nlink ip 1 ;;;
      iupdate ip ;;;
      iunlock (Some ip) ;;;
      let! r := nameiparent sleep dev_read cwd new name0 in
      match r with
      | (None, _) => link_bad ip
      | (Some dp, name) => link_at ip dp name
      end
  end.
End dirop.
