(* ===== verification/FsUnlink.v ===== *)
(** * Removing names: unlink *)

From S2P Require Import Prelude CString Words ProcData Sync Block Log Tx Fs FsBlocks FsInode FsFile FsRw FsDir FsTrunc Dirop.
Local Open Scope Z_scope.
Implicit Types (x y : list Z).

(** ** A file whose blocks did not change *)
Section frame.
Context (sb : superblock) (cur cur' : Z → block) (d : dinode) (sz : Z) (Hf : file_ok sb cur d sz).
Context (Hcur : ∀ n, n ∈ footprint cur d → cur' n = cur n).
Lemma frame_slots : slots cur' d = slots cur d.
Proof.
  unfold slots. f_equal. case_decide as Hi; [done|]. rewrite Hcur; [done|]. by apply iaddr_footprint; [apply Hf|].
Qed.
Lemma frame_footprint : footprint cur' d = footprint cur d.
Proof. unfold footprint. by rewrite frame_slots. Qed.
Lemma frame_byte k : Z.of_nat k < sz → fbyte cur' d k = fbyte cur d k.
Proof.
  intros Hk. unfold fbyte, faddr. rewrite frame_slots. fold (faddr cur d (k / 512)). rewrite Hcur; [done|].
  apply faddr_footprint. eapply (fo_mapped _ _ _ _ Hf). pose proof (Nat.div_mod_eq k 512). lia.
Qed.
Lemma frame_file : (∀ n, n ∈ footprint cur d → used sb cur' n = used sb cur n) → file_ok sb cur' d sz.
Proof.
  intros Hu. destruct Hf as [F1 F2 F3 F4]. split; [done| | |].
  - rewrite frame_footprint. intros a Ha. destruct (F2 a Ha). split; [done|]. by rewrite Hu.
  - by rewrite frame_footprint.
  - intros b Hb. unfold faddr. rewrite frame_slots. by apply F4.
Qed.
Lemma frame_entries : dir_ok d → sz = di_size d → entries cur' d = entries cur d.
Proof.
  intros [_ Hs _] Hsz. unfold entries. apply list_fmap_ext. intros i j [-> Hj]%lookup_seq. unfold entry. f_equal.
  unfold fbytes. apply list_fmap_ext. intros i' k [-> Hk]%lookup_seq. apply frame_byte. lia.
Qed.
End frame.

(** ** Names *)
Lemma is_dots_spec name : readable DIRSIZ name →
  is_dots name = Some (bool_decide (name14 name = name14 dot ∨ name14 name = name14 dotdot)).
Proof.
  intros Hr. unfold is_dots, namecmp.
  destruct (strncmp_spec name dot DIRSIZ Hr) as (c & -> & Hc); [left; unfold terminated, dot; set_solver|].
  destruct (strncmp_spec name dotdot DIRSIZ Hr) as (c' & -> & Hc'); [left; unfold terminated, dotdot; set_solver|].
  cbn [mbind option_bind]. destruct (decide (c = 0)) as [Hz|Hz]; [by rewrite bool_decide_true by (left; by apply Hc)|].
  f_equal. apply bool_decide_ext. rewrite Hc'. unfold name14. split; [by right|]. intros [H1|H1]; [|done]. by destruct Hz; apply Hc.
Qed.

(** ** A directory entry overwritten *)
Definition erased : dirent := mkde 0 [].
Lemma decode_zeros : decode_dirent (replicate 16 0) = erased.
Proof. reflexivity. Qed.

Lemma entry_aligned k : (16 * k mod 512 + 16 ≤ 512)%nat.
Proof.
  change 512%nat with (16 * 32)%nat. rewrite Nat.mul_mod_distr_l by lia. pose proof (Nat.mod_upper_bound k 32). lia.
Qed.

Section entry.
Context (sb : superblock) (v : tview) (d : dinode) (k : nat) (src : list Z).
Context (Hly : layout sb v) (Hf : file_ok sb (t_cur v) d (di_size d)) (Hd : dir_ok d) (Hk : (k < dsize d)%nat).
Definition entry_block : Z := faddr (t_cur v) d (16 * k / 512).
Definition put_entry : tview := t_put entry_block (splice (t_cur v entry_block) (16 * k mod 512) src) v.
Lemma entry_mapped : (16 * k / 512 < 153)%nat ∧ entry_block ≠ 0.
Proof.
  apply (fo_mapped _ _ _ _ Hf). destruct Hd as [_ Ds _]. pose proof (Nat.div_mod_eq (16 * k) 512). lia.
Qed.
Lemma put_entry_entries : length src = 16%nat → length (t_cur v entry_block : list Z) = 512%nat →
  entries (t_cur put_entry) d = <[k := decode_dirent src]> (entries (t_cur v) d).
Proof.
  intros Hs Hl. destruct entry_mapped as [Hbn Hn]. pose proof (entry_aligned k) as Hal. destruct Hd as [_ Ds Db].
  assert (∀ j, (j < dsize d)%nat → entry (t_cur put_entry) d j = if decide (j = k) then decode_dirent src else entry (t_cur v) d j) as Hent.
  { intros j Hj. unfold entry.
    assert (∀ q, (q < 16)%nat → fbyte (t_cur put_entry) d (16 * j + q) =
      if decide (j = k) then nth q src 0 else fbyte (t_cur v) d (16 * j + q)) as Hb.
    { intros q Hq. unfold put_entry. rewrite (overwrite_byte sb v d (di_size d) (16 * k / 512) _ Hf Hn).
      pose proof (Nat.div_mod_eq (16 * j + q) 512) as E1. pose proof (Nat.div_mod_eq (16 * k) 512) as E2.
      pose proof (Nat.mod_upper_bound (16 * j + q) 512 ltac:(lia)).
      destruct (fo_mapped _ _ _ _ Hf ((16 * j + q) / 512)%nat) as [_ Hm]; [lia|].
      destruct (decide ((16 * j + q) / 512 = 16 * k / 512)%nat) as [He|He].
      - rewrite nth_splice by (rewrite Hl, Hs; lia). rewrite Hs. destruct (decide (j = k)) as [->|Hjk].
        + rewrite decide_True by lia. f_equal. lia.
        + rewrite decide_False by lia. unfold fbyte. by rewrite He.
      - rewrite decide_False by done. rewrite decide_False; [done|]. intros ->. apply He.
        by apply (same_block (16 * k) 16 q). }
    case_decide as Hjk; f_equal.
    - apply list_eq_nth; [by rewrite length_fbytes|]. intros q. destruct (decide (q < 16)%nat) as [Hq|Hq].
      + unfold fbytes. rewrite nth_lookup, list_lookup_fmap, lookup_seq_lt by done. cbn [fmap option_fmap option_map default]. rewrite Hb by done.
        done.
      + rewrite !nth_overflow by (rewrite ?length_fbytes; lia). done.
    - unfold fbytes. apply list_fmap_ext. intros i q [-> Hi]%lookup_seq. by apply Hb. }
  apply list_eq. intros j. destruct (decide (j < dsize d)%nat) as [Hj|Hj].
  - rewrite entries_lookup, Hent by done. case_decide as Hjk.
    + subst. by rewrite list_lookup_insert_eq by (by rewrite length_entries).
    + by rewrite list_lookup_insert_ne, entries_lookup.
  - rewrite !lookup_ge_None_2; [done|rewrite length_insert, length_entries; lia|rewrite length_entries; lia].
Qed.
End entry.

Section unlink.
Context {S : Type} `{TxLaws S} (E : string → Prop).
Context (sleep : chan → string → M (fstate S) unit).
Context (dr : Z → option (nat → Z → M (fstate S) (Z * list Z))).
Context (dw : Z → option (nat → list Z → Z → M (fstate S) Z)).
Implicit Types (s : fstate S) (v : tview) (ip : inode).

Lemma wp_isdirempty_from sb v s i ip fuel j Q :
  dir_at sb v s i ip → (dsize (i_d ip) - j < fuel)%nat → (j ≤ 4900)%nat →
  (∀ c', tv [] c' v → Q (bool_decide (Forall (λ e, de_inum e = 0) (drop j (entries (t_cur v) (i_d ip))))) (set_f_io c' s)) →
  wp E (isdirempty_from dr fuel i (Z.of_nat (16 * j))) Q s.
Proof.
  revert s j. induction fuel as [|fuel IH]; intros s j Hd Hfuel Hjb HQ; [lia|].
  pose proof Hd as [Hf [Dt Ds Db]]. change (MAXFILE * BSIZE) with 78336 in Db. pose proof Hf as [F1 F2 F3 F4 F5 F6 F7].
  cbn [isdirempty_from]. eapply wp_the_inode; [exact F2|]. rewrite u32_small by lia.
  destruct (decide (Z.of_nat (16 * j) < di_size (i_d ip))) as [Hlt|Hge].
  2:{ apply wp_ret. specialize (HQ (f_io s) F6). replace (set_f_io (f_io s) s) with s in HQ by (by destruct s).
      rewrite drop_ge in HQ by (rewrite length_entries; lia). by rewrite bool_decide_true in HQ by constructor. }
  assert (j < dsize (i_d ip))%nat as Hj by lia. rewrite entries_drop in HQ by done.
  apply wp_bind. eapply (wp_readi E dr sb v s i ip); [exact Hf|rewrite Dt; discriminate|unfold SIZEOF_DIRENT; lia..| |].
  { unfold SIZEOF_DIRENT. lia. }
  intros _ _ c' Hv'. assert (read_count (i_d ip) (Z.of_nat (16 * j)) SIZEOF_DIRENT = 16)%nat as -> by (unfold read_count, SIZEOF_DIRENT; lia).
  cbn [fst snd]. rewrite decide_False by (unfold SIZEOF_DIRENT; lia). rewrite Nat2Z.id.
  set (x := fbytes (t_cur v) (i_d ip) (16 * j) 16). assert (length x = 16%nat) as Hlx by apply length_fbytes.
  apply wp_bind. eapply wp_of_opt; [by apply dirent_inum_16|].
  change (de_inum (entry (t_cur v) (i_d ip) j)) with (default 0 (dirent_inum x)) in HQ.
  destruct (decide (default 0 (dirent_inum x) ≠ 0)) as [Hz|Hz].
  - apply wp_ret. rewrite bool_decide_false in HQ; [by apply HQ|]. rewrite list.Forall_cons. by intros [? _].
  - rewrite s32_small by (unfold SIZEOF_DIRENT; lia).
    replace (Z.of_nat (16 * j) + SIZEOF_DIRENT) with (Z.of_nat (16 * Datatypes.S j)) by (unfold SIZEOF_DIRENT; lia).
    apply IH; [by apply dir_at_io|lia|lia|]. intros c2 Hv2. specialize (HQ c2 Hv2).
    rewrite (bool_decide_ext _ (Forall (λ e, de_inum e = 0) (drop (Datatypes.S j) (entries (t_cur v) (i_d ip))))) in HQ; [done|].
    rewrite list.Forall_cons. change (de_inum (entry (t_cur v) (i_d ip) j)) with (default 0 (dirent_inum x)). split; [tauto|]. split; [lia|done].
Qed.
(** isdirempty looks at every entry behind the first two. *)
Definition nothing_but_dots (l : list dirent) : Prop := Forall (λ e, de_inum e = 0) (drop 2 l).
#[global] Instance nothing_but_dots_dec l : Decision (nothing_but_dots l).
Proof. unfold nothing_but_dots. apply _. Defined.
Lemma wp_isdirempty sb v s i ip Q :
  dir_at sb v s i ip →
  (∀ c', tv [] c' v → Q (bool_decide (nothing_but_dots (entries (t_cur v) (i_d ip)))) (set_f_io c' s)) →
  wp E (isdirempty dr i) Q s.
Proof.
  intros Hd HQ. pose proof Hd as [Hf [Dt Ds Db]]. unfold isdirempty. eapply wp_the_inode; [apply Hf|].
  change (2 * SIZEOF_DIRENT) with (Z.of_nat (16 * 2)). eapply (wp_isdirempty_from sb v s i ip); [done| |lia|done].
  rewrite Ds. unfold SIZEOF_DIRENT. rewrite Z.mul_comm, Z.div_mul by lia. lia.
Qed.

(** writei of one entry, in place *)
Lemma wp_write_entry sb v s i ip k src Q :
  dir_at sb v s i ip → (k < dsize (i_d ip))%nat → length src = 16%nat → (size (t_logged v) < t_cap v)%nat →
  (∀ c', tv [] c' (put_entry v (i_d ip) k src) → Q SIZEOF_DIRENT (mkfs sb (f_inode s) c')) →
  wp E (writei dw i src (Z.of_nat (16 * k)) SIZEOF_DIRENT) Q s.
Proof.
  intros Hd Hk Hs Hcap HQ. pose proof Hd as [Hf Hdir]. pose proof Hdir as [Dt Ds Db]. pose proof Hf as [F1 F2 F3 F4 F5 F6 F7].
  change (MAXFILE * BSIZE) with 78336 in Db. set (d := i_d ip) in *. destruct (entry_mapped sb v d k F7 Hdir Hk) as [Hbn Hn].
  pose proof (entry_aligned k) as Hal. unfold writei, SIZEOF_DIRENT. eapply wp_the_inode; [exact F2|]. fold d.
  rewrite decide_False by (rewrite Dt; discriminate). rewrite u32_small by lia. rewrite decide_False by lia.
  rewrite decide_False by (change (MAXFILE * BSIZE) with 78336; lia). apply wp_bind.
  change (Z.to_nat (16 / BSIZE) + 3)%nat with 3%nat. cbn [writei_loop]. rewrite decide_True by lia. eapply wp_the_inode; [exact F2|].
  unfold BSIZE. replace (Z.of_nat (16 * k) / 512) with (Z.of_nat (16 * k / 512)) by (by rewrite Nat2Z.inj_div).
  replace (Z.of_nat (16 * k) mod 512) with (Z.of_nat (16 * k mod 512)) by (by rewrite Nat2Z.inj_mod).
  apply wp_bind. eapply (wp_bmap E sb v s i ip (di_size d) ∅); try done. intros a v1 d1 c1 Hbm Hv1.
  destruct (bm_old _ _ _ _ _ _ _ _ _ Hbm Hn) as [-> ->]. destruct (bm_addr _ _ _ _ _ _ _ _ _ Hbm) as [<- _].
  change (faddr (t_cur v) (i_d ip) (16 * k / 512)) with (entry_block v d k).
  destruct (mapped_block _ _ _ _ _ _ _ Hf Hn) as [Hours Hblk]. rewrite F3. fold d (entry_block v d k) in Hours, Hblk.
  change (set_i_d (i_d ip) ip) with (set_i_d d ip). replace (set_i_d d ip) with ip by (unfold d; by destruct ip). rewrite list_insert_id by done.
  eapply wp_hold; [exact Hv1|exact Hours|rewrite F5; apply not_elem_of_nil|rewrite F5; simpl; pose proof (tv_cap _ _ _ F6); lia|].
  intros bp c2 Hbp Hv2. eapply wp_peek; [exact Hv2|by left|]. cbn [t_cur t_hold].
  rewrite Z.min_l by lia. change (16 - 0) with 16. rewrite Nat2Z.id, (firstn_all2 (n := Z.to_nat 16)) by (rewrite Hs; lia).
  eapply wp_put; [exact Hv2| |exact Hours|done|].
  { unfold is_block, BSIZE. rewrite length_splice; [lia|]. rewrite Hs. lia. }
  intros c3 Hv3. cbn [writei_loop]. rewrite decide_False by lia. apply wp_ret. eapply wp_the_inode; [exact F2|]. fold d.
  apply wp_bind. rewrite decide_False by lia. apply wp_skip, wp_ret. rewrite s32_small by lia. by apply HQ.
Qed.

(** ** Locking and releasing *)
Definition opened (d : dinode) (ip : inode) : inode := if i_valid ip then locked ip else loaded d ip.
Lemma opened_fields d ip : (i_valid ip = true → i_d ip = d) →
  i_d (opened d ip) = d ∧ i_dev (opened d ip) = i_dev ip ∧ i_inum (opened d ip) = i_inum ip ∧ i_ref (opened d ip) = i_ref ip ∧
  i_busy (opened d ip) = true ∧ i_valid (opened d ip) = true.
Proof.
  intros Hd. unfold opened. destruct (lor_busy (i_flags ip)) as [H1 H2]. destruct (i_valid ip) eqn:Hv; unfold i_busy, i_valid, locked, loaded, set_i_flags in *; cbn [i_d i_dev i_inum i_ref i_flags].
  - rewrite H1, H2. by rewrite Hd.
  - rewrite !(Z.lor_spec _ I_VALID), H1, H2, Hv. done.
Qed.
Lemma unlocked_fields ip : i_busy (unlocked ip) = false ∧ i_valid (unlocked ip) = i_valid ip.
Proof.
  unfold unlocked, i_busy, i_valid, set_i_flags. cbn [i_flags]. rewrite !Z.ldiff_spec. change (Z.testbit I_BUSY 0) with true. change (Z.testbit I_BUSY 1) with false.
  by rewrite andb_false_r, andb_true_r.
Qed.
(** The inode is [d] on the disk, nobody has it locked and its cached copy, if
    there is one, agrees. *)
Definition ready (sb : superblock) (v : tview) (l : list inode) (inum : Z) (d : dinode) : Prop :=
  disk_inode sb (t_cur v) inum = Some d ∧ di_type d ≠ 0 ∧
  ∀ jp, jp ∈ l → in_use ROOTDEV inum jp → i_busy jp = false ∧ (i_valid jp = true → i_d jp = d).
Lemma ready_insert sb v l inum d i ip : ready sb v l inum d →
  (in_use ROOTDEV inum ip → i_busy ip = false ∧ (i_valid ip = true → i_d ip = d)) → ready sb v (<[i := ip]> l) inum d.
Proof.
  intros (H1 & H2 & H3) Hip. split_and!; [done|done|]. intros jp Hj. apply list_elem_of_lookup in Hj as [j Hj].
  apply list_lookup_insert_cases in Hj as [[_ ->]|[_ Hj]]; [done|]. by apply H3; eapply list_elem_of_lookup_2.
Qed.
Lemma wp_ilock_ready sb v s i ip d Q :
  f_sb s = sb → f_inode s !! i = Some ip → in_use ROOTDEV (i_inum ip) ip → inum_ok sb (i_inum ip) →
  ready sb v (f_inode s) (i_inum ip) d → fs_blocks sb v → t_held v = [] → (size (t_logged v) < NBUF)%nat → tv [] (f_io s) v →
  (∀ c', tv [] c' v → Q tt (mkfs sb (<[i := opened d ip]> (f_inode s)) c')) → wp E (ilock sleep (Some i)) Q s.
Proof.
  intros Hsb Hi Hu Hin (Hd & Hty & Hc) Hfb Hh Hsz Hv HQ. destruct (Hc ip) as [Hb Hval]; [by eapply list_elem_of_lookup_2|done|].
  destruct Hu as (Hr & Hdev & _). eapply wp_ilock; [done|exact Hi|done|done|lia|done|exact Hfb|exact Hv|rewrite Hh; simpl; lia|done|exact HQ].
Qed.
Lemma got_ready sb v l inum t m l' : ready sb v l inum t → got l ROOTDEV inum m l' →
  ∃ mp, l' = <[m := mp]> l ∧ (m < length l)%nat ∧ in_use ROOTDEV inum mp ∧ i_busy mp = false ∧ (i_valid mp = true → i_d mp = t) ∧
    (i_ref mp = 1 ↔ Forall (λ jp, ¬ in_use ROOTDEV inum jp) l).
Proof.
  intros (_ & _ & Hc) (ip & Hi & [[Hu ->]|(Hz & Hno & ->)]); pose proof (lookup_lt_Some _ _ _ Hi) as Hlt.
  - pose proof (list_elem_of_lookup_2 _ _ _ Hi) as Hin. destruct (Hc ip Hin Hu) as [Hb Hv]. pose proof Hu as (Hr & Hd & Hn).
    eexists. split; [done|]. split; [done|]. split; [by split_and!; [simpl; lia|..]|]. split; [done|]. split; [done|].
    split; [simpl; lia|]. rewrite list.Forall_forall. intros Hf. by destruct (Hf ip).
  - eexists. split; [done|]. split; [done|]. split; [by split_and!; [simpl; lia|..]|]. split; [done|]. split; [done|].
    split; [|done]. intros _. by apply list.Forall_forall.
Qed.

Lemma wp_iunlockput_keep v s i ip Q :
  f_inode s !! i = Some ip → i_busy ip = true → 1 ≤ i_ref ip → ¬ (i_ref ip = 1 ∧ di_nlink (i_d ip) = 0) → tv [] (f_io s) v →
  (∀ c', tv [] c' v → Q tt (mkfs (f_sb s) (<[i := set_i_ref (i_ref ip - 1) (unlocked ip)]> (f_inode s)) c')) → wp E (iunlockput i) Q s.
Proof.
  intros Hi Hb Hr Hn Hv HQ. pose proof (lookup_lt_Some _ _ _ Hi). unfold iunlockput. apply wp_bind. eapply wp_iunlock; [exact Hi|done|done|exact Hv|]. intros c1 Hv1.
  eapply wp_iput_keep; [by apply list_lookup_insert_eq| |exact Hv1|].
  { intros (Hr1 & _ & Hl0). by apply Hn. }
  intros c2 Hv2. cbn [f_inode f_sb]. rewrite list_insert_insert_eq. by apply HQ.
Qed.
Lemma wp_iunlockput_last sb X v s i ip Q :
  let d := i_d ip in
  f_inode s !! i = Some ip → i_dev ip = ROOTDEV → f_sb s = sb → dinode_ok d → inum_ok sb (i_inum ip) →
  i_ref ip = 1 → i_valid ip = true → i_busy ip = true → di_nlink d = 0 →
  fs_blocks sb v → froom sb v X → IBLOCK (i_inum ip) sb ∈ X → tv [] (f_io s) v → t_held v = [] →
  file_ok sb (t_cur v) d (di_size d) →
  (∀ v' c', truncated sb X v (i_inum ip) d (discarded d) v' → tv [] c' v' →
    Q tt (mkfs sb (<[i := mkinode ROOTDEV (i_inum ip) 0 0 (discarded d)]> (f_inode s)) c')) →
  wp E (iunlockput i) Q s.
Proof.
  intros d Hi Hdev Hsb Hok Hin Href Hval Hbusy Hnl Hfb Hr HX Hv Hh Hf HQ. pose proof (lookup_lt_Some _ _ _ Hi).
  unfold iunlockput. apply wp_bind. eapply wp_iunlock; [exact Hi|done|lia|exact Hv|]. intros c1 Hv1.
  destruct (unlocked_fields ip) as [U1 U2].
  eapply (wp_iput_last E sb X v _ i (unlocked ip)); cbn [f_inode f_sb f_io]; [by apply list_lookup_insert_eq|done..|by rewrite U2|done|done|exact Hfb|exact Hr|done|exact Hv1|done|done|].
  intros v' c' Htr Hv'. rewrite list_insert_insert_eq. by apply (HQ v').
Qed.
End unlink.
