(* ===== verification/DiropThm.v ===== *)
(** * Removing names: unlink on the disk *)

From S2P Require Import Prelude CString Words ProcData Sync Block Log Tx Fs FsBlocks FsInode FsFile FsRw FsDir FsToy FsTrunc Dirop FsUnlink.
Local Open Scope Z_scope.

(** ** What an update of one data block and some inodes does to the disk *)
(** Block [a] is [y], the inodes are given by [f], other blocks from the free map
    on are as they were; [X] bounds the transaction. *)
Record edited (sb : superblock) (X : gset Z) (v : tview) (a : Z) (y : block) (f : Z → option dinode) (v' : tview) : Prop := mked {
  ed_blocks : fs_blocks sb v';
  ed_fields : t_held v' = t_held v ∧ t_cap v' = t_cap v;
  ed_cur : ∀ n, sb_bmapstart sb ≤ n → t_cur v' n = (<[a := y]> (t_cur v) : Z → block) n;
  ed_inodes : ∀ inum, inum_ok sb inum → disk_inode sb (t_cur v') inum = f inum;
  ed_logged : t_logged v' ⊆ X
}.
Lemma edited_update sb X v a y f v1 inum d v2 :
  edited sb X v a y f v1 → inum_ok sb inum → IBLOCK inum sb ∈ X → updated sb v1 inum d v2 →
  edited sb X v a y (λ n, if decide (n = inum) then Some d else f n) v2.
Proof.
  intros [E1 E2 E3 E4 E5] Hin HX Hup. pose proof (updated_blocks _ _ _ _ _ Hin E1 Hup) as Hfb.
  destruct (IBLOCK_range _ _ (fb_layout _ _ E1) _ Hin) as [_ Hr].
  destruct Hup as [(z & Hz & ->) Hup]. split; [done|done| | |cbn [t_logged t_put]; set_solver].
  - intros n Hn. cbn [t_cur t_put]. rewrite fn_lookup_insert_ne by lia. by apply E3.
  - intros n Hn. rewrite Hup by done. case_decide; [done|]. by apply E4.
Qed.

Section edits.
Context (sb : superblock) (X : gset Z) (v : tview) (d : dinode) (k : nat) (src : list Z).
Context (Hfb : fs_blocks sb v) (Hd : dir_ok d) (Hfd : file_ok sb (t_cur v) d (di_size d)) (Hk : (k < dsize d)%nat).
Let a := entry_block v d k.
Let y : block := splice (t_cur v a) (16 * k mod 512) src.
Lemma block_in_dir : a ∈ footprint (t_cur v) d ∧ is_data sb a.
Proof.
  destruct (entry_mapped sb v d k Hfd Hd Hk) as [_ Hn]. pose proof (faddr_footprint _ _ _ Hn) as Ha. split; [done|]. by apply Hfd.
Qed.
Lemma edited_put : t_logged v ⊆ X → a ∈ X → edited sb X v a y (disk_inode sb (t_cur v)) (put_entry v d k src).
Proof.
  intros HX Ha. destruct block_in_dir as [Hin Hda]. pose proof (fb_layout _ _ Hfb) as Hly.
  destruct (entry_mapped sb v d k Hfd Hd Hk) as [_ Hn]. split.
  - by apply (overwrite_blocks sb v d (di_size d) (16 * k / 512) _ Hly Hfd Hn).
  - done.
  - done.
  - intros inum Hi. apply disk_inode_frame. cbn [put_entry t_cur t_put]. apply fn_lookup_insert_ne. by eapply data_not_inode.
  - cbn [put_entry t_logged t_put]. fold a. set_solver.
Qed.
Context (f : Z → option dinode) (v' : tview) (He : edited sb X v a y f v').
(** The free map and the other file are untouched, the directory has the entry. *)
Lemma edited_used n : 0 ≤ n < sb_size sb → used sb (t_cur v') n = used sb (t_cur v) n.
Proof.
  intros Hn. destruct (BBLOCK_range _ _ (fb_layout _ _ Hfb) n Hn) as [_ Hb]. destruct block_in_dir as [_ Hda].
  unfold used. rewrite (ed_cur _ _ _ _ _ _ _ He) by lia. rewrite fn_lookup_insert_ne; [done|]. by apply (data_not_map _ _ (fb_layout _ _ Hfb)).
Qed.
Lemma edited_data n : is_data sb n → n ≠ a → t_cur v' n = t_cur v n.
Proof.
  intros Hn Hna. pose proof (data_after_map _ _ _ (fb_layout _ _ Hfb) Hn).
  rewrite (ed_cur _ _ _ _ _ _ _ He) by lia. by rewrite fn_lookup_insert_ne.
Qed.
Lemma edited_slots : slots (t_cur v') d = slots (t_cur v) d.
Proof.
  destruct (entry_mapped sb v d k Hfd Hd Hk) as [_ Hn]. pose proof (fb_layout _ _ Hfb) as Hly.
  rewrite <- (overwrite_slots sb v d (di_size d) (16 * k / 512) y Hfd Hn). unfold slots. f_equal. case_decide as Hi; [done|].
  rewrite (ed_cur _ _ _ _ _ _ _ He); [done|].
  destruct (fo_data _ _ _ _ Hfd _ (iaddr_footprint (t_cur v) d (fo_len _ _ _ _ Hfd) Hi)) as [Hid _]. pose proof (data_after_map _ _ _ Hly Hid). lia.
Qed.
Lemma edited_target t : file_ok sb (t_cur v) t (di_size t) → (∀ n, n ∈ footprint (t_cur v) d → n ∉ footprint (t_cur v) t) →
  file_ok sb (t_cur v') t (di_size t) ∧ footprint (t_cur v') t = footprint (t_cur v) t.
Proof.
  intros Hft Hdisj. destruct block_in_dir as [Hin _]. assert (∀ n, n ∈ footprint (t_cur v) t → t_cur v' n = t_cur v n) as Hc.
  { intros n Hn. destruct (fo_data _ _ _ _ Hft n Hn) as [Hnd _]. apply edited_data; [done|]. intros ->. by eapply Hdisj. }
  split; [|by eapply frame_footprint]. eapply frame_file; [exact Hft|exact Hc|]. intros n Hn.
  apply edited_used. eapply data_pos; [apply Hfb|]. by apply (fo_data _ _ _ _ Hft).
Qed.
Lemma edited_dir : length src = 16%nat → length (t_cur v a : list Z) = 512%nat →
  file_ok sb (t_cur v') d (di_size d) ∧ entries (t_cur v') d = <[k := decode_dirent src]> (entries (t_cur v) d).
Proof.
  intros Hs Hl. destruct (entry_mapped sb v d k Hfd Hd Hk) as [_ Hn]. pose proof (fb_layout _ _ Hfb) as Hly.
  set (v1 := put_entry v d k src). pose proof (overwrite_file sb v d (di_size d) (16 * k / 512) y Hly Hfd Hn) as Hf1. change (t_put _ y v) with v1 in Hf1.
  rewrite <- (put_entry_entries sb v d k src Hfd Hd Hk Hs Hl). fold v1.
  assert (∀ n, is_data sb n → t_cur v' n = t_cur v1 n) as Hc.
  { intros n Hnd. pose proof (data_after_map _ _ _ Hly Hnd). by rewrite (ed_cur _ _ _ _ _ _ _ He) by lia. }
  split.
  - eapply frame_file; [exact Hf1| |].
    + intros n Hin. apply Hc. by apply (fo_data _ _ _ _ Hf1).
    + intros n Hin. destruct (fo_data _ _ _ _ Hf1 n Hin) as [Hnd Hu]. rewrite edited_used by (by eapply data_pos).
      symmetry. apply (overwrite_used sb v d (di_size d) (16 * k / 512) y Hly Hfd Hn). by eapply data_pos.
  - eapply frame_entries; [exact Hf1| |done|done]. intros n Hin. apply Hc. by apply (fo_data _ _ _ _ Hf1).
Qed.
End edits.

Lemma s16_small z : - 2 ^ 15 ≤ z < 2 ^ 15 → s16 z = z.
Proof. intros Hz. unfold s16. rewrite Z.mod_small by lia. lia. Qed.
Definition one_less (d : dinode) : dinode := set_di_nlink (di_nlink d - 1) d.
Lemma one_less_ok d : dinode_ok d → 1 ≤ di_nlink d → dinode_ok (one_less d).
Proof. intros [] Hn. split; cbn; lia || done. Qed.
Lemma one_less_file sb cur d sz : file_ok sb cur d sz → file_ok sb cur (one_less d) sz.
Proof. intros [F1 F2 F3 F4]. split; [exact F1|exact F2|exact F3|exact F4]. Qed.
(** The inode of the directory afterwards: it loses the link of a subdirectory. *)
Definition dir_after (t d : dinode) : dinode := if decide (di_type t = T_DIR) then one_less d else d.

Section unlink.
Context {S : Type} `{TxLaws S} (E : string → Prop).
Context (sleep : chan → string → M (fstate S) unit).
Context (dr : Z → option (nat → Z → M (fstate S) (Z * list Z))).
Context (dw : Z → option (nat → list Z → Z → M (fstate S) Z)).
Implicit Types (s : fstate S) (v : tview) (ip : inode).

Lemma wp_seq_skip (m1 m2 : M (fstate S) unit) (Q : unit → fstate S → Prop) s :
  wp E (m1 ;;; m2 ;;; skip) Q s → wp E (m1 ;;; m2) Q s.
Proof.
  unfold wp, bind. destruct (m1 s) as [[[] s1]|e| |]; [|done..]. destruct (m2 s1) as [[[] s2]|e| |]; done.
Qed.
Lemma edited_ext sb X v a y f g v' : (∀ n, f n = g n) → edited sb X v a y f v' → edited sb X v a y g v'.
Proof. intros Hfg [E1 E2 E3 E4 E5]. split; [done..| |done]. intros n Hn. by rewrite E4, Hfg. Qed.
Lemma edited_room sb X v a y f v' : edited sb X v a y f v' → froom sb v X → froom sb v' X.
Proof. intros [_ [_ E2] _ _ E5] [F1 F2 F3]. split; [done|done|by rewrite E2]. Qed.

(** ip->nlink--; iupdate(ip) *)
Lemma wp_nlink_down {A} sb X v0 a y f v1 s m mp (K : M (fstate S) A) Q :
  edited sb X v0 a y f v1 → froom sb v1 X → t_held v1 = [] → tv [] (f_io s) v1 → f_sb s = sb →
  f_inode s !! m = Some mp → i_dev mp = ROOTDEV → inum_ok sb (i_inum mp) → IBLOCK (i_inum mp) sb ∈ X →
  dinode_ok (i_d mp) → 1 ≤ di_nlink (i_d mp) →
  (∀ v2 c', edited sb X v0 a y (λ n, if decide (n = i_inum mp) then Some (one_less (i_d mp)) else f n) v2 → tv [] c' v2 →
     wp E K Q (mkfs sb (<[m := set_i_d (one_less (i_d mp)) mp]> (f_inode s)) c')) →
  wp E (add_nlink m (-1) ;;; iupdate m ;;; K) Q s.
Proof.
  intros He Hr Hh Hv Hsb Hm Hdev Hin HX Hok Hnl HQ. pose proof (lookup_lt_Some _ _ _ Hm).
  apply wp_bind. eapply wp_upd_inode; [exact Hm|]. pose proof (do_nlink _ Hok).
  replace (s16 (di_nlink (i_d mp) + -1)) with (di_nlink (i_d mp) - 1) by (rewrite s16_small; lia). fold (one_less (i_d mp)).
  destruct (froom_size _ _ _ _ Hr Hv) as [Hs1 Hs2]. apply wp_bind.
  eapply (wp_iupdate E sb v1 _ m (set_i_d (one_less (i_d mp)) mp)); [done|by apply list_lookup_insert_eq|done|done|by apply one_less_ok|
    apply He|exact Hv|rewrite Hh; simpl; lia|done|].
  intros v2 c' Hup Hv2. subst sb. apply (HQ v2); [|done]. by eapply edited_update.
Qed.

Lemma wp_unlink_drop sb X v0 a y f v1 s m mp Q :
  let t := i_d mp in
  edited sb X v0 a y f v1 → froom sb v1 X → t_held v1 = [] → tv [] (f_io s) v1 → f_sb s = sb →
  f_inode s !! m = Some mp → in_use ROOTDEV (i_inum mp) mp → i_busy mp = true → i_valid mp = true →
  inum_ok sb (i_inum mp) → IBLOCK (i_inum mp) sb ∈ X → dinode_ok t → 1 ≤ di_nlink t →
  (∀ v2, edited sb X v0 a y (λ n, if decide (n = i_inum mp) then Some (one_less t) else f n) v2 → file_ok sb (t_cur v2) t (di_size t)) →
  (∀ v2 v3 mp' c', edited sb X v0 a y (λ n, if decide (n = i_inum mp) then Some (one_less t) else f n) v2 →
     (if decide (i_ref mp = 1 ∧ di_nlink t = 1) then truncated sb X v2 (i_inum mp) (one_less t) (discarded (one_less t)) v3 else v3 = v2) →
     i_busy mp' = false → tv [] c' v3 → Q 0 (mkfs sb (<[m := mp']> (f_inode s)) c')) →
  wp E (add_nlink m (-1) ;;; iupdate m ;;; iunlockput m ;;; ret 0) Q s.
Proof.
  intros t He Hr Hh Hv Hsb Hm (Hrf & Hdev & _) Hb Hval Hin HX Hok Hnl Hf HQ. pose proof (lookup_lt_Some _ _ _ Hm).
  eapply wp_nlink_down; [exact He|exact Hr|done|exact Hv|done|exact Hm|done..|]. fold t. intros v2 c2 He2 Hv2.
  specialize (Hf _ He2). set (mp1 := set_i_d (one_less t) mp). destruct (ed_fields _ _ _ _ _ _ _ He2) as [E1 E2].
  destruct (ed_fields _ _ _ _ _ _ _ He) as [E3 E4].
  assert (froom sb v2 X) as Hr2 by (destruct Hr; split; [apply He2|done|by rewrite E2, <- E4]).
  specialize (HQ v2). apply wp_bind. destruct (decide (i_ref mp = 1 ∧ di_nlink t = 1)) as [[Hr1 Hn1]|Hkeep].
  - eapply (wp_iunlockput_last E sb X v2 _ m mp1); cbn [f_inode f_sb f_io]; [by apply list_lookup_insert_eq|done|done|by apply one_less_ok|done|done|done|done|
      cbn; lia|apply He2|exact Hr2|done|exact Hv2|congruence|by apply one_less_file|].
    intros v3 c3 Htr Hv3. apply wp_ret. rewrite list_insert_insert_eq. by apply (HQ v3).
  - eapply (wp_iunlockput_keep E v2 _ m mp1); cbn [f_inode f_sb f_io]; [by apply list_lookup_insert_eq|done|cbn; lia| |exact Hv2|].
    { intros [K1 K2]. apply Hkeep. split; [done|]. cbn in K2. lia. }
    intros c3 Hv3. apply wp_ret. rewrite list_insert_insert_eq. apply (HQ v2); [done|done| |done].
    by destruct (unlocked_fields mp1).
Qed.

(** The entry is cleared and the directory released. *)
Lemma wp_unlink_erase {A} sb X v s i ip k ty (K : M (fstate S) A) Q :
  let d := i_d ip in let a := entry_block v d k in
  dir_at sb v s i ip → (k < dsize d)%nat → froom sb v X → a ∈ X → IBLOCK (i_inum ip) sb ∈ X →
  inum_ok sb (i_inum ip) → in_use ROOTDEV (i_inum ip) ip → i_busy ip = true → dinode_ok d → 1 ≤ di_nlink d → (ty = T_DIR → 2 ≤ di_nlink d) →
  (∀ v1 ip' c', edited sb X v a (splice (t_cur v a) (16 * k mod 512) (replicate 16 0))
       (λ n, if decide (ty = T_DIR ∧ n = i_inum ip) then Some (one_less d) else disk_inode sb (t_cur v) n) v1 →
     i_busy ip' = false → tv [] c' v1 → wp E K Q (mkfs sb (<[i := ip']> (f_inode s)) c')) →
  wp E (let! r := writei dw i (replicate 16 0) (Z.of_nat (16 * k)) SIZEOF_DIRENT in
        if decide (r ≠ SIZEOF_DIRENT) then panic "unlink: writei" else
        (if decide (ty = T_DIR) then add_nlink i (-1) ;;; iupdate i else skip) ;;; iunlockput i ;;; K) Q s.
Proof.
  intros d a Hd Hk Hr Ha HX Hin Hu Hb Hok Hnl Hnl2 HQ. pose proof Hd as [Hf Hdir]. pose proof Hf as [F1 F2 F3 F4 F5 F6 F7].
  pose proof (lookup_lt_Some _ _ _ F2). pose proof Hu as (Hrf & _ & _). destruct (froom_size _ _ _ _ Hr F6) as [Hs1 Hs2].
  apply wp_bind. eapply (wp_write_entry E dw sb v s i ip k); [exact Hd|done|done|done|]. intros c1 Hv1. fold d in Hv1.
  rewrite decide_False by (intros Hn; by apply Hn).
  pose proof (edited_put sb X v d k (replicate 16 0) F4 Hdir F7 Hk (fm_logged _ _ _ Hr) Ha) as He. fold a in He.
  assert (∀ v1 ip1 c, edited sb X v a (splice (t_cur v a) (16 * k mod 512) (replicate 16 0))
       (λ n, if decide (ty = T_DIR ∧ n = i_inum ip) then Some (one_less d) else disk_inode sb (t_cur v) n) v1 →
     i_busy ip1 = true → i_ref ip1 = i_ref ip → di_nlink (i_d ip1) ≠ 0 → tv [] c v1 →
     wp E (iunlockput i ;;; K) Q (mkfs sb (<[i := ip1]> (f_inode s)) c)) as Hrel.
  { intros v1 ip1 c He1 Hb1 Hr1 Hn1 Hv. apply wp_bind.
    eapply (wp_iunlockput_keep E v1 _ i ip1); cbn [f_inode f_sb f_io]; [by apply list_lookup_insert_eq|done|lia|tauto|exact Hv|].
    intros c2 Hv2. rewrite list_insert_insert_eq. apply (HQ v1); [done|by destruct (unlocked_fields ip1)|done]. }
  apply wp_bind. destruct (decide (ty = T_DIR)) as [Hty|Hty].
  - specialize (Hnl2 Hty). apply wp_seq_skip. eapply (wp_nlink_down sb X v a _ _ _ _ i ip); [exact He|by eapply edited_room|done|exact Hv1|done|exact F2|done..|].
    intros v2 c2 He2 Hv2. apply wp_skip, (Hrel v2); [|done|done|cbn; fold d; lia|done].
    eapply edited_ext; [|exact He2]. intros n. cbn beta. fold d. by repeat case_decide; naive_solver.
  - apply wp_skip. rewrite <- (list_insert_id (f_inode s) i ip F2). apply (Hrel (put_entry v d k (replicate 16 0))); [|done|done|fold d; lia|done].
    eapply edited_ext; [|exact He]. intros n. cbn beta. rewrite decide_False; [done|]. tauto.
Qed.

(** A referenced directory [i], with links, that nobody has locked; the cache
    agrees with the disk. *)
Record has_dir sb v s i ip d name : Prop := mkhd {
  hd_sb : f_sb s = sb; hd_tv : tv [] (f_io s) v; hd_blocks : fs_blocks sb v; hd_held : t_held v = [];
  hd_ref : f_inode s !! i = Some ip ∧ in_use ROOTDEV (i_inum ip) ip;
  hd_ready : ready sb v (f_inode s) (i_inum ip) d ∧ inum_ok sb (i_inum ip);
  hd_dir : dir_ok d ∧ file_ok sb (t_cur v) d (di_size d) ∧ 1 ≤ di_nlink d;
  hd_name : readable DIRSIZ name
}.
(** Its entry [k] is the name of the inode [t]; the blocks of the two are
    different, the link counts are right, and the transaction has room for the
    blocks of [X]. *)
Record can_unlink sb X v s i ip d name k e t : Prop := mkcu {
  cu_dir : has_dir sb v s i ip d name ∧ dinode_ok d;
  cu_find : find_entry (entries (t_cur v) d) (name14 name) = Some k ∧ entries (t_cur v) d !! k = Some e;
  cu_target : ready sb v (f_inode s) (de_inum e) t ∧ inum_ok sb (de_inum e) ∧ de_inum e ≠ i_inum ip;
  cu_file : dinode_ok t ∧ file_ok sb (t_cur v) t (di_size t) ∧ 1 ≤ di_nlink t;
  cu_subdir : di_type t = T_DIR → 2 ≤ di_nlink d ∧ dir_ok t;
  cu_disjoint : ∀ n, n ∈ footprint (t_cur v) d → n ∉ footprint (t_cur v) t;
  cu_room : froom sb v X ∧ entry_block v d k ∈ X ∧ IBLOCK (i_inum ip) sb ∈ X ∧ IBLOCK (de_inum e) sb ∈ X
}.
(** The directory locked. *)
Lemma has_dir_opened sb v s i ip d name : has_dir sb v s i ip d name →
  let ip1 := opened d ip in
  i_d ip1 = d ∧ i_inum ip1 = i_inum ip ∧ i_ref ip1 = i_ref ip ∧ i_busy ip1 = true ∧ in_use ROOTDEV (i_inum ip1) ip1 ∧
  ∀ c, tv [] c v → dir_at sb v (mkfs sb (<[i := ip1]> (f_inode s)) c) i ip1.
Proof.
  intros [Csb Ctv Cfb Ch [Ci Cu] [(_ & _ & Cr3) Cin] (Cd2 & Cd3 & Cn) Cname] ip1. pose proof (lookup_lt_Some _ _ _ Ci) as Hlt.
  destruct (Cr3 ip) as [Cb Cv]; [by eapply list_elem_of_lookup_2|done|].
  destruct (opened_fields d ip Cv) as (O1 & O2 & O3 & O4 & O5 & O6). pose proof Cu as (U1 & U2 & U3). fold ip1 in O1, O2, O3, O4, O5, O6.
  split; [done|]. split; [done|]. split; [done|]. split; [done|]. split; [split_and!; congruence|]. intros c Hc. split; [|by rewrite O1]. rewrite O1.
  split; [done|by apply list_lookup_insert_eq|by rewrite O2|done|done|done|by rewrite O1].
Qed.
Lemma wp_ilock_dir sb v s i ip d name Q : has_dir sb v s i ip d name →
  (∀ c, tv [] c v → Q tt (mkfs sb (<[i := opened d ip]> (f_inode s)) c)) → wp E (ilock sleep (Some i)) Q s.
Proof.
  intros [Csb Ctv Cfb Ch [Ci Cu] [Cr Cin] _ _] HQ.
  eapply (wp_ilock_ready E sleep sb v s i ip d); [done|exact Ci|done|done|done|done|done|by eapply tv_size|exact Ctv|exact HQ].
Qed.
(** Releasing the directory and returning -1. *)
Lemma wp_give_up sb v s i ip d name c Q : has_dir sb v s i ip d name → tv [] c v →
  (∀ ip' c', i_busy ip' = false → tv [] c' v → Q (-1) (mkfs sb (<[i := ip']> (f_inode s)) c')) →
  wp E (iunlockput i ;;; ret (-1)) Q (mkfs sb (<[i := opened d ip]> (f_inode s)) c).
Proof.
  intros Hd Hv HQ. destruct (has_dir_opened _ _ _ _ _ _ _ Hd) as (O1 & O3 & O4 & O5 & (U1 & _) & _). pose proof Hd as [_ _ _ _ [Ci _] _ (_ & _ & Cn) _].
  apply wp_bind. eapply (wp_iunlockput_keep E v _ i (opened d ip)); cbn [f_inode f_sb f_io];
    [apply list_lookup_insert_eq; by eapply lookup_lt_Some|done|lia|rewrite O1; lia|exact Hv|].
  intros c2 Hv2. apply wp_ret. rewrite list_insert_insert_eq. apply HQ; [by destruct (unlocked_fields (opened d ip))|done].
Qed.
(** The entry [k] of the locked directory is found: [mp] is its inode, with a
    reference more, not locked yet. *)
Lemma wp_find_entry sb v s i ip d name k e t c Q :
  has_dir sb v s i ip d name → find_entry (entries (t_cur v) d) (name14 name) = Some k → entries (t_cur v) d !! k = Some e →
  ready sb v (f_inode s) (de_inum e) t → de_inum e ≠ i_inum ip → E "iget: no inodes" → tv [] c v →
  let l1 := <[i := opened d ip]> (f_inode s) in
  (∀ m mp c', m ≠ i → (m < length (f_inode s))%nat → in_use ROOTDEV (de_inum e) mp → i_busy mp = false → (i_valid mp = true → i_d mp = t) →
     (i_ref mp = 1 ↔ Forall (λ jp, ¬ in_use ROOTDEV (de_inum e) jp) (f_inode s)) → ready sb v (<[m := mp]> l1) (de_inum e) t → tv [] c' v →
     Q (Some (m, Z.of_nat (16 * k))) (mkfs sb (<[m := mp]> l1) c')) →
  wp E (dirlookup dr i name) Q (mkfs sb l1 c).
Proof.
  intros Hd Cf1 Cf2 Ct1 Ct3 HE Hv l1 HQ. destruct (has_dir_opened _ _ _ _ _ _ _ Hd) as (O1 & O3 & O4 & O5 & Hu1 & Hat).
  pose proof Hd as [Csb Ctv Cfb Ch [Ci Cu] _ _ Cname]. pose proof (lookup_lt_Some _ _ _ Ci) as Hlt. pose proof Cu as (U1 & U2 & U3).
  eapply (wp_dirlookup E dr sb v _ i (opened d ip) name); [by apply Hat|done| | |exact HE]; rewrite O1.
  { intros c2 Hn. congruence. }
  intros k' e' m l' c2 Hk He' Hgot Hv2. rewrite Cf1 in Hk. injection Hk as <-. rewrite Cf2 in He'. injection He' as <-. cbn [f_inode] in Hgot.
  assert (ready sb v l1 (de_inum e) t) as Hrt.
  { apply ready_insert; [done|]. intros (_ & _ & Hn). congruence. }
  destruct (got_ready _ _ _ _ _ _ _ Hrt Hgot) as (mp & -> & Hm & Hu & Hb & Hval & Hone). apply HQ; try done.
  - intros ->. destruct Hgot as (jp & Hj & Hc). unfold l1 in Hj. rewrite list_lookup_insert_eq in Hj by done. injection Hj as <-.
    destruct Hc as [[(_ & _ & Hn) _]|(Hz & _ & _)]; [congruence|lia].
  - unfold l1 in Hm. by rewrite length_insert in Hm.
  - rewrite Hone. unfold l1. rewrite !list.Forall_forall. split; intros Hall jp Hj.
    + intros Hju. apply list_elem_of_lookup in Hj as [j Hj]. destruct (decide (j = i)) as [->|Hne].
      * assert (jp = ip) as -> by congruence. destruct Hju as (_ & _ & Hn). congruence.
      * apply (Hall jp); [|done]. apply (list_elem_of_lookup_2 _ j). by rewrite list_lookup_insert_ne.
    + apply list_elem_of_lookup in Hj as [j Hj]. apply list_lookup_insert_cases in Hj as [[_ ->]|[_ Hj]].
      * intros (_ & _ & Hn). congruence.
      * apply Hall. by eapply list_elem_of_lookup_2.
  - by apply ready_insert.
Qed.
(** Both inodes locked, as unlink has them when it has found the entry. *)
Lemma wp_unlink_find {A} sb X v s i ip d name k e t (K : nat → Z → M (fstate S) A) Kd Kn Q :
  can_unlink sb X v s i ip d name k e t → E "iget: no inodes" → ¬ (name14 name = name14 dot ∨ name14 name = name14 dotdot) →
  (∀ m mp c', m ≠ i → (m < length (f_inode s))%nat → i_d mp = t → in_use ROOTDEV (de_inum e) mp → i_busy mp = true → i_valid mp = true →
     (i_ref mp = 1 ↔ Forall (λ jp, ¬ in_use ROOTDEV (de_inum e) jp) (f_inode s)) → tv [] c' v →
     wp E (K m (Z.of_nat (16 * k))) Q (mkfs sb (<[m := mp]> (<[i := opened d ip]> (f_inode s))) c')) →
  wp E (ilock sleep (Some i) ;;; let! dots := of_opt (is_dots name) in if dots then Kd else
        let! r := dirlookup dr i name in
        match r with None => Kn | Some (m, off) => ilock sleep (Some m) ;;; K m off end) Q s.
Proof.
  intros [[Hd Cd1] [Cf1 Cf2] (Ct1 & Ct2 & Ct3) _ _ _ _] HE Hdots HQ.
  pose proof Hd as [Csb Ctv Cfb Ch _ _ _ Cname]. pose proof (tv_size _ _ _ Ctv) as Hsz.
  apply wp_bind. eapply wp_ilock_dir; [exact Hd|]. intros c1 Hv1.
  apply wp_bind. eapply wp_of_opt; [by apply is_dots_spec|]. rewrite bool_decide_false by done.
  apply wp_bind. eapply (wp_find_entry sb v s i ip d name k e t); try done. intros m mp c2 Hmi Hm Hu Hb Hval Hone Hrt Hv2.
  pose proof Hu as (W1 & W2 & W3). destruct (opened_fields t mp Hval) as (P1 & P2 & P3 & P4 & P5 & P6).
  apply wp_bind. eapply (wp_ilock_ready E sleep sb v _ m mp t); cbn [f_sb f_inode f_io];
    [done|apply list_lookup_insert_eq; by rewrite length_insert|by rewrite W3|by rewrite W3|by rewrite W3|done|done|lia|exact Hv2|].
  intros c3 Hv3. rewrite list_insert_insert_eq. apply HQ; try done.
  - split_and!; congruence.
  - by rewrite P4.
Qed.

(** The name is gone, the inode [t] has a link less; [last] says that it was the
    last reference: then the inode is free and so are its blocks. *)
Record unlinked sb v dnum d k tnum t (last : bool) v' : Prop := mkul {
  ul_blocks : fs_blocks sb v';
  ul_dir : disk_inode sb (t_cur v') dnum = Some (dir_after t d);
  ul_entries : file_ok sb (t_cur v') d (di_size d) ∧ entries (t_cur v') d = <[k := erased]> (entries (t_cur v) d);
  ul_target : disk_inode sb (t_cur v') tnum = Some (if last then discarded (one_less t) else one_less t);
  ul_used : ∀ b, 0 ≤ b < sb_size sb →
    used sb (t_cur v') b = used sb (t_cur v) b && negb (last && bool_decide (b ∈ footprint (t_cur v) t));
  ul_inodes : ∀ n, inum_ok sb n → n ≠ dnum → n ≠ tnum → disk_inode sb (t_cur v') n = disk_inode sb (t_cur v) n;
  ul_data : ∀ n, is_data sb n → n ∉ footprint (t_cur v) d → t_cur v' n = t_cur v n
}.
(** The last link, but not the last reference, ... *)
Lemma unlinked_keep sb X v s i ip d name k e t v2 : can_unlink sb X v s i ip d name k e t →
  edited sb X v (entry_block v d k) (splice (t_cur v (entry_block v d k)) (16 * k mod 512) (replicate 16 0))
    (λ n, if decide (n = de_inum e) then Some (one_less t)
          else if decide (di_type t = T_DIR ∧ n = i_inum ip) then Some (one_less d) else disk_inode sb (t_cur v) n) v2 →
  unlinked sb v (i_inum ip) d k (de_inum e) t false v2 ∧ file_ok sb (t_cur v2) t (di_size t) ∧
  footprint (t_cur v2) t = footprint (t_cur v) t ∧ footprint (t_cur v2) d = footprint (t_cur v) d.
Proof.
  intros [[Hd Cd1] [Cf1 Cf2] (Ct1 & Ct2 & Ct3) (Cg1 & Cg2 & Cg3) Csub Cdj Cm] He.
  pose proof Hd as [Csb Ctv Cfb Ch _ [(Cr & _ & _) Cin] (Cd2 & Cd3 & Cn) _]. pose proof (fb_layout _ _ Cfb) as Hly.
  assert (k < dsize d)%nat as Hk by (rewrite <- (length_entries (t_cur v) d); by eapply lookup_lt_Some).
  destruct (block_in_dir sb v d k Cd2 Cd3 Hk) as [Hin Hda].
  assert (length (t_cur v (entry_block v d k) : list Z) = 512%nat) as Hlen.
  { pose proof (tv_blocks _ _ _ _ Ctv (data_ours _ _ Hly _ Hda)) as Hb. unfold is_block, BSIZE in Hb. lia. }
  destruct (edited_dir sb X v d k (replicate 16 0) Cfb Cd2 Cd3 Hk _ v2 He eq_refl Hlen) as [He1 He2]. rewrite decode_zeros in He2.
  destruct (edited_target sb X v d k (replicate 16 0) Cfb Cd2 Cd3 Hk _ v2 He t Cg2 Cdj) as [Ht1 Ht2].
  split; [|split; [done|split; [done|]]].
  2:{ unfold footprint. by rewrite (edited_slots sb X v d k (replicate 16 0) Cfb Cd2 Cd3 Hk _ v2 He). }
  split; [apply He| |done| | | |].
  - rewrite (ed_inodes _ _ _ _ _ _ _ He) by done. rewrite decide_False by congruence. unfold dir_after. repeat case_decide; naive_solver.
  - rewrite (ed_inodes _ _ _ _ _ _ _ He) by done. by rewrite decide_True.
  - intros b Hb. rewrite (edited_used sb X v d k (replicate 16 0) Cfb Cd2 Cd3 Hk _ v2 He) by done. by rewrite andb_true_r.
  - intros n Hn N1 N2. rewrite (ed_inodes _ _ _ _ _ _ _ He) by done. rewrite decide_False by done. rewrite decide_False; [done|]. by intros [_ ?].
  - intros n Hn Hnd. apply (edited_data sb X v d k (replicate 16 0) Cfb Hk _ v2 He); [done|]. by intros ->.
Qed.
(** ... and the last reference. *)
Lemma unlinked_last sb X v dnum d k tnum t v2 v3 :
  unlinked sb v dnum d k tnum t false v2 → layout sb v → dir_ok d → inum_ok sb dnum → inum_ok sb tnum → tnum ≠ dnum →
  footprint (t_cur v2) t = footprint (t_cur v) t → (∀ n, n ∈ footprint (t_cur v2) d → n ∉ footprint (t_cur v) t) →
  truncated sb X v2 tnum (one_less t) (discarded (one_less t)) v3 → unlinked sb v dnum d k tnum t true v3.
Proof.
  intros [U1 U2 [U3 U4] U5 U6 U7 U8] Hly Hd Hdn Htn Hne Hft Hdj [T1 T2 T3 T4 T5 T6].
  change (footprint (t_cur v2) (one_less t)) with (footprint (t_cur v2) t) in T3. rewrite Hft in T3. split.
  - done.
  - by rewrite T5, decide_False by (done || congruence).
  - split.
    + eapply frame_file; [exact U3| |]; intros n Hn; destruct (fo_data _ _ _ _ U3 n Hn) as [Hnd Hnu]; [by apply T4|].
      rewrite T3, bool_decide_false; [by rewrite andb_true_r|by apply Hdj|by eapply data_pos].
    + rewrite <- U4. eapply frame_entries; [exact U3| |done|done]. intros n Hn. apply T4. by apply (fo_data _ _ _ _ U3).
  - by rewrite T5, decide_True.
  - intros b Hb. rewrite T3, U6 by done. by rewrite andb_true_r.
  - intros n Hn N1 N2. rewrite T5, decide_False by done. by apply U7.
  - intros n Hn Hnf. rewrite T4 by done. by apply U8.
Qed.

(** Nothing stays locked that was not. *)
Definition quiet (l l' : list inode) : Prop :=
  ∀ j jp, l' !! j = Some jp → i_busy jp = true → ∃ jp0, l !! j = Some jp0 ∧ i_busy jp0 = true.
Lemma quiet_insert l l' i ip : i_busy ip = false → (∀ j jp, j ≠ i → l' !! j = Some jp → i_busy jp = true → ∃ jp0, l !! j = Some jp0 ∧ i_busy jp0 = true) →
  quiet l (<[i := ip]> l').
Proof. intros Hb Hl j jp Hj Hjb. apply list_lookup_insert_cases in Hj as [[_ ->]|[Hne Hj]]; [congruence|by eapply Hl]. Qed.
Lemma quiet_insert1 l i ip : i_busy ip = false → quiet l (<[i := ip]> l).
Proof. intros Hb. apply quiet_insert; [done|]. eauto. Qed.
Lemma quiet_insert2 l i j ip jp : i_busy ip = false → i_busy jp = false → quiet l (<[i := ip]> (<[j := jp]> l)).
Proof. intros Hi Hj. apply quiet_insert; [done|]. intros ? ? _. by apply quiet_insert1. Qed.

Lemma wp_unlink_none sb v s i ip d name Q :
  has_dir sb v s i ip d name → E "iget: no inodes" →
  (name14 name = name14 dot ∨ name14 name = name14 dotdot ∨ find_entry (entries (t_cur v) d) (name14 name) = None) →
  (∀ l' c', quiet (f_inode s) l' → tv [] c' v → Q (-1) (mkfs sb l' c')) → wp E (unlink_at sleep dr dw i name) Q s.
Proof.
  intros Hd HE Hno HQ. destruct (has_dir_opened _ _ _ _ _ _ _ Hd) as (O1 & O3 & O4 & O5 & Hu1 & Hat). unfold unlink_at.
  assert (∀ c, tv [] c v → wp E (iunlockput i ;;; ret (-1)) Q (mkfs sb (<[i := opened d ip]> (f_inode s)) c)) as Hbad.
  { intros c Hv. eapply wp_give_up; [exact Hd|exact Hv|]. intros ip' c' Hb Hv'. apply HQ; [by apply quiet_insert1|done]. }
  apply wp_bind. eapply wp_ilock_dir; [exact Hd|]. intros c1 Hv1.
  apply wp_bind. eapply wp_of_opt; [apply is_dots_spec, Hd|]. case_bool_decide as Hdots; [by apply Hbad|].
  apply wp_bind. eapply (wp_dirlookup E dr sb v _ i (opened d ip) name); [by apply Hat|apply Hd| | |exact HE]; rewrite O1.
  - intros c2 _ Hv2. by apply Hbad.
  - intros k e m l' c2 Hk. naive_solver.
Qed.

(** What unlink has when it has found the entry: both inodes, locked. *)
Record found sb v s i d ip m mp e t c : Prop := mkfound {
  fd_ne : m ≠ i; fd_lt : (m < length (f_inode s))%nat; fd_d : i_d mp = t; fd_use : in_use ROOTDEV (de_inum e) mp;
  fd_flags : i_busy mp = true ∧ i_valid mp = true;
  fd_one : i_ref mp = 1 ↔ Forall (λ jp, ¬ in_use ROOTDEV (de_inum e) jp) (f_inode s);
  fd_tv : tv [] c v;
  fd_dir : dir_at sb v (mkfs sb (<[m := mp]> (<[i := opened d ip]> (f_inode s))) c) i (opened d ip);
  fd_mp : (<[m := mp]> (<[i := opened d ip]> (f_inode s))) !! m = Some mp
}.
Lemma found_io sb v s i d ip m mp e t c c' : found sb v s i d ip m mp e t c → tv [] c' v → found sb v s i d ip m mp e t c'.
Proof.
  intros [] Hv. split; try done.
  change (mkfs sb ?l c') with (set_f_io c' (mkfs sb l c)). by apply dir_at_io.
Qed.

Lemma wp_unlink_commit sb X v s i ip d name k e t m mp c Q :
  can_unlink sb X v s i ip d name k e t → found sb v s i d ip m mp e t c →
  (∀ v' l' c', quiet (f_inode s) l' → tv [] c' v' →
     unlinked sb v (i_inum ip) d k (de_inum e) t
       (bool_decide (di_nlink t = 1 ∧ Forall (λ jp, ¬ in_use ROOTDEV (de_inum e) jp) (f_inode s))) v' → Q 0 (mkfs sb l' c')) →
  wp E (let! r := writei dw i (replicate 16 0) (Z.of_nat (16 * k)) SIZEOF_DIRENT in
        if decide (r ≠ SIZEOF_DIRENT) then panic "unlink: writei" else
        (if decide (di_type t = T_DIR) then add_nlink i (-1) ;;; iupdate i else skip) ;;; iunlockput i ;;;
        add_nlink m (-1) ;;; iupdate m ;;; iunlockput m ;;; ret 0) Q
    (mkfs sb (<[m := mp]> (<[i := opened d ip]> (f_inode s))) c).
Proof.
  intros Hc [Hmi Hm Hmd Hmu [Hmb Hmv] Hone Hv1 Hdir Hlm] HQ.
  pose proof Hc as [[Hd Cd1] [Cf1 Cf2] (Ct1 & Ct2 & Ct3) (Cg1 & Cg2 & Cg3) Csub Cdj (Cm1 & Cm2 & Cm3 & Cm4)].
  destruct (has_dir_opened _ _ _ _ _ _ _ Hd) as (O1 & O3 & O4 & O5 & Hu1 & Hat). pose proof Hd as [Csb Ctv Cfb Ch [Ci Cu] [_ Cin] (Cd2 & Cd3 & Cn) _].
  pose proof Hmu as (M1 & M2 & M3). pose proof (lookup_lt_Some _ _ _ Ci) as Hlt.
  eapply (wp_unlink_erase sb X v _ i (opened d ip) k (di_type t)); rewrite ?O1, ?O3; try done.
  { rewrite <- (length_entries (t_cur v) d). by eapply lookup_lt_Some. }
  { by rewrite <- O3. }
  { intros Ht. by apply Csub. }
  intros v1 ip' c2 He Hb' Hv2. cbn [f_inode]. rewrite list_insert_insert_ne, list_insert_insert_eq by done.
  destruct (ed_fields _ _ _ _ _ _ _ He) as [E1 E2].
  eapply (wp_unlink_drop sb X v _ _ _ v1 _ m mp); cbn [f_inode f_sb f_io]; rewrite ?Hmd, ?M3; try done.
  { by eapply edited_room. }
  { by rewrite E1. }
  { apply list_lookup_insert_eq. by rewrite length_insert. }
  { intros v2 He2. by apply (unlinked_keep sb X v s i ip d name k e t v2 Hc). }
  intros v2 v3 mp' c3 He2 Htr Hbm Hv3. rewrite list_insert_insert_eq.
  destruct (unlinked_keep sb X v s i ip d name k e t v2 Hc He2) as (Hul & _ & Hft & Hfd).
  apply (HQ v3); [by apply quiet_insert2|done|]. case_bool_decide as Hlast.
  - rewrite decide_True in Htr by (destruct Hlast; split; [by apply Hone|done]).
    eapply unlinked_last; [exact Hul|apply Cfb|done|done|done|done|done| |exact Htr]. intros n. rewrite Hfd. apply Cdj.
  - rewrite decide_False in Htr; [by subst|]. intros [K1 K2]. apply Hlast. split; [done|by apply Hone].
Qed.

Lemma wp_unlink_at sb X v s i ip d name k e t Q :
  can_unlink sb X v s i ip d name k e t → E "iget: no inodes" → ¬ (name14 name = name14 dot ∨ name14 name = name14 dotdot) →
  (di_type t = T_DIR → ¬ nothing_but_dots (entries (t_cur v) t) →
     ∀ l' c', quiet (f_inode s) l' → tv [] c' v → Q (-1) (mkfs sb l' c')) →
  ((di_type t = T_DIR → nothing_but_dots (entries (t_cur v) t)) →
     ∀ v' l' c', quiet (f_inode s) l' → tv [] c' v' →
     unlinked sb v (i_inum ip) d k (de_inum e) t
       (bool_decide (di_nlink t = 1 ∧ Forall (λ jp, ¬ in_use ROOTDEV (de_inum e) jp) (f_inode s))) v' → Q 0 (mkfs sb l' c')) →
  wp E (unlink_at sleep dr dw i name) Q s.
Proof.
  intros Hc HE Hdots HQ1 HQ2. unfold unlink_at. eapply wp_unlink_find; [exact Hc|done|done|].
  intros m mp c1 Hmi Hm Hmd Hmu Hmb Hmv Hone Hv1. pose proof Hc as [[Hd Cd1] _ (Ct1 & Ct2 & Ct3) (Cg1 & Cg2 & Cg3) Csub _ _].
  destruct (has_dir_opened _ _ _ _ _ _ _ Hd) as (O1 & O3 & O4 & O5 & Hu1 & Hat). pose proof Hd as [Csb Ctv Cfb Ch [Ci Cu] _ (Cd2 & Cd3 & Cn) _].
  pose proof (lookup_lt_Some _ _ _ Ci) as Hlt. pose proof Hmu as (M1 & M2 & M3). set (l1 := <[i := opened d ip]> (f_inode s)).
  assert ((<[m := mp]> l1) !! m = Some mp) as Hlm by (apply list_lookup_insert_eq; unfold l1; by rewrite length_insert).
  assert (found sb v s i d ip m mp e t c1) as Hfound.
  { split; try done. destruct (Hat c1 Hv1) as [[F1 F2 F3 F4 F5 F6 F7] HD]. split; [|done]. split; try done. cbn [f_inode]. by rewrite list_lookup_insert_ne. }
  eapply wp_the_inode; [exact Hlm|]. rewrite Hmd. rewrite decide_False by lia.
  pose proof (λ c2 Hv2 Hq, wp_unlink_commit sb X v s i ip d name k e t m mp c2 Q Hc (found_io _ _ _ _ _ _ _ _ _ _ _ c2 Hfound Hv2) (HQ2 Hq)) as Hgo.
  fold l1 in Hgo. revert Hgo. destruct (decide (di_type t = T_DIR)) as [Ht|Ht]; intros Hgo; [|by apply wp_bind, wp_ret, Hgo].
  specialize (Csub Ht) as [_ Cdt]. apply wp_bind.
  eapply (wp_isdirempty E dr sb v _ m mp); [split; rewrite Hmd; [|done]; split; rewrite ?Hmd; done|].
  intros c2 Hv2. rewrite Hmd. destruct (decide (nothing_but_dots (entries (t_cur v) t))) as [Hemp|Hemp];
    [rewrite bool_decide_true by done; by apply Hgo|rewrite bool_decide_false by done; cbn [negb]].
  apply wp_bind. eapply (wp_iunlockput_keep E v _ m mp); cbn [f_inode f_sb f_io set_f_io]; [exact Hlm|done|lia|rewrite Hmd; lia|exact Hv2|].
  intros c3 Hv3. rewrite list_insert_insert_eq. apply wp_bind.
  eapply (wp_iunlockput_keep E v _ i (opened d ip)); cbn [f_inode f_sb f_io]; [|done|destruct Hu1; lia|rewrite O1; lia|exact Hv3|].
  { rewrite list_lookup_insert_ne by done. by apply list_lookup_insert_eq. }
  intros c4 Hv4. apply wp_ret, HQ1; [done|done| |done]. unfold l1. rewrite list_insert_insert_ne, list_insert_insert_eq by done.
  apply quiet_insert2; [by destruct (unlocked_fields mp)|by destruct (unlocked_fields (opened d ip))].
Qed.
End unlink.

(** ** Names after an entry was cleared *)
Lemma find_erase l k name nm : find_entry l name = Some k → nm ≠ name → find_entry (<[k := erased]> l) nm = find_entry l nm.
Proof.
  intros Hk Hne. revert k Hk. induction l as [|e l IH]; intros k Hk; [done|]. cbn [find_entry] in Hk.
  destruct (decide (de_inum e ≠ 0 ∧ de_name e = name)) as [[H1 H2]|Hno].
  - injection Hk as <-. cbn. rewrite (decide_False (P := de_inum e ≠ 0 ∧ de_name e = nm)) by (intros [_ ?]; congruence). done.
  - destruct (find_entry l name) as [k'|] eqn:Hk'; [|done]. injection Hk as <-. cbn. by rewrite IH.
Qed.
Lemma dir_find_erase l k name nm : find_entry l name = Some k → nm ≠ name → dir_find (<[k := erased]> l) nm = dir_find l nm.
Proof.
  intros Hk Hne. unfold dir_find. rewrite (find_erase _ _ name) by done. destruct (find_entry l nm) as [j|] eqn:Hj; [|done]. simpl.
  destruct (find_entry_Some _ _ _ Hj) as (e & He & _ & Hn). destruct (find_entry_Some _ _ _ Hk) as (e' & He' & _ & Hn').
  rewrite list_lookup_insert_ne; [done|]. intros ->. congruence.
Qed.
Lemma dir_find_erased l k name : (k < length l)%nat →
  (∀ j e, l !! j = Some e → de_inum e ≠ 0 → de_name e = name → j = k) → dir_find (<[k := erased]> l) name = None.
Proof.
  intros Hk Hun. unfold dir_find. destruct (find_entry (<[k := erased]> l) name) as [j|] eqn:Hj; [|done].
  destruct (find_entry_Some _ _ _ Hj) as (e & He & Hi & Hn). apply list_lookup_insert_cases in He as [[_ ->]|[Hne He]]; [by destruct Hi|].
  by destruct Hne; eapply eq_sym, Hun.
Qed.
