(* ===== verification/FsCreate.v ===== *)
(** * New files: ialloc, and create for files and devices *)

From S2P Require Import Prelude CString Words ProcData Sync Block Log Tx Fs FsBlocks FsInode FsFile FsRw FsDir FsTrunc Dirop FsUnlink DiropThm.
Local Open Scope Z_scope.
Implicit Types (x y : list Z).

(** Every inode of the disk can be read. *)
Lemma get_dinode_block x inum : is_block x → is_Some (get_dinode x (Z.to_nat (128 * (inum mod IPB)))).
Proof.
  unfold is_block, BSIZE. intros Hx. pose proof (inode_off inum) as Ho. set (o := Z.to_nat (128 * (inum mod IPB))) in *.
  assert (∀ k i, (i + k ≤ 128)%nat → is_Some (get_le k x (o + i))) as Hg.
  { intros k i Hi. destruct (get_le_Some k x (o + i)) as [w Hw]; [lia|]. by exists w. }
  assert (is_Some (get_words x (o + 24) 26)) as [ws Hws].
  { unfold get_words. apply mapM_is_Some. apply list.Forall_forall. intros k Hk. apply elem_of_seq in Hk. unfold get_word, compose. rewrite <- Nat.add_assoc. apply Hg. lia. }
  unfold get_dinode, get_half, get_word in *. rewrite Hws.
  destruct (Hg 2%nat 0%nat) as [a Ha]; [lia|]. rewrite Nat.add_0_r in Ha. rewrite Ha.
  destruct (Hg 2%nat 2%nat) as [b ->]; [lia|]. destruct (Hg 2%nat 4%nat) as [c ->]; [lia|]. destruct (Hg 2%nat 6%nat) as [e ->]; [lia|].
  destruct (Hg 4%nat 8%nat) as [f ->]; [lia|]. destruct (Hg 4%nat 12%nat) as [g ->]; [lia|]. destruct (Hg 4%nat 16%nat) as [h ->]; [lia|].
  destruct (Hg 4%nat 20%nat) as [i ->]; [lia|]. cbn [mbind option_bind]. by eexists.
Qed.

(** A new inode: one link, no contents. *)
Definition blank (ty : Z) : dinode := mkdi ty 0 0 0 DEFAULT_UID DEFAULT_GID DEFAULT_MODE 0 (replicate 26 0).
Definition first_free (sb : superblock) (cur : Z → block) (from inum : Z) : Prop :=
  from ≤ inum < sb_ninodes sb ∧ (di_type <$> disk_inode sb cur inum) = Some 0 ∧
  ∀ n, from ≤ n < inum → (di_type <$> disk_inode sb cur n) ≠ Some 0.

Section ialloc.
Context {S : Type} `{TxLaws S} (E : string → Prop).
Implicit Types (s : fstate S) (v : tview) (ip : inode).

Lemma blank_ok ty ma mi nl : - 2 ^ 15 ≤ ty < 2 ^ 15 → - 2 ^ 15 ≤ ma < 2 ^ 15 → - 2 ^ 15 ≤ mi < 2 ^ 15 → - 2 ^ 15 ≤ nl < 2 ^ 15 →
  dinode_ok (set_di_dev ma mi nl (blank ty)).
Proof. intros. split; cbn; try done. by repeat constructor. Qed.

Lemma wp_ialloc_from sb v s ty fuel inum Q :
  f_sb s = sb → fs_blocks sb v → t_held v = [] → tv [] (f_io s) v → (size (t_logged v) < t_cap v)%nat → - 2 ^ 15 ≤ ty < 2 ^ 15 →
  0 < inum → (Z.to_nat (sb_ninodes sb - inum) < fuel)%nat → E "iget: no inodes" → E "ialloc: no inodes" →
  (∀ n v' m l' c', first_free sb (t_cur v) inum n → updated sb v n (blank ty) v' → got (f_inode s) ROOTDEV n m l' → tv [] c' v' →
     Q m (mkfs sb l' c')) →
  wp E (ialloc_from fuel ROOTDEV ty inum) Q s.
Proof.
  intros Hsb Hfb Hh Hv Hcap Hty Hpos Hfuel HE1 HE2. revert s inum Hsb Hv Hpos Hfuel.
  induction fuel as [|fuel IH]; intros s inum Hsb Hv Hpos Hfuel HQ; [lia|]. cbn [ialloc_from].
  apply wp_bind, wp_gets. rewrite Hsb. destruct (decide (inum < sb_ninodes sb)) as [Hlt|Hge]; [|by apply HE2].
  assert (inum_ok sb inum) as Hin by (unfold inum_ok; lia). pose proof (fb_layout _ _ Hfb) as Hly.
  eapply wp_hold; [exact Hv|by apply IBLOCK_ours|by apply inode_not_held|rewrite Hh; simpl; pose proof (tv_cap _ _ _ Hv); lia|].
  intros bp c1 Hbp Hv1. eapply wp_peek; [exact Hv1|by left|]. cbn [t_cur t_hold].
  pose proof (tv_blocks _ _ _ _ Hv (IBLOCK_ours _ _ Hly _ Hin)) as Hblk. destruct (get_dinode_block _ inum Hblk) as [d Hd].
  apply wp_bind. eapply wp_of_opt; [exact Hd|]. fold (disk_inode sb (t_cur v) inum) in Hd.
  destruct (decide (di_type d = 0)) as [Hz|Hnz].
  - destruct (put_dinode (t_cur v (IBLOCK inum sb)) (Z.to_nat (128 * (inum mod IPB))) (blank ty)) as [y|] eqn:Hy.
    2:{ unfold put_dinode in Hy. rewrite decide_True in Hy; [done|]. unfold is_block, BSIZE in Hblk. pose proof (inode_off inum). lia. }
    apply wp_bind. eapply wp_of_opt; [exact Hy|]. assert (is_block y) as Hyb by (apply (put_dinode_block _ _ _ _ Hblk) in Hy; done).
    eapply wp_put; [exact Hv1|exact Hyb|by apply IBLOCK_ours|done|]. intros c2 Hv2.
    eapply (wp_iget E (t_put (IBLOCK inum sb) y v)); [exact Hv2| |done]. cbn [f_inode f_sb set_f_io]. rewrite Hsb.
    intros m l' c3 Hgot Hv3. eapply (HQ inum); [|split|exact Hgot|exact Hv3].
    + split; [lia|]. rewrite Hd. cbn. rewrite Hz. split; [done|]. lia.
    + by exists y.
    + apply (disk_inode_put sb v inum (blank ty)); [done|done| |done]. apply (blank_ok ty 0 0 0); lia.
  - apply wp_bind. eapply wp_drop; [exact Hv1|rewrite (fb_loose _ _ Hfb); set_solver|]. intros c2 Hv2.
    apply IH; [done|exact Hv2|lia|lia|]. cbn [f_inode set_f_io]. intros n v' m l' c' (F1 & F2 & F3) Hup Hgot Hv'.
    eapply (HQ n); [|done|done|done]. split; [lia|]. split; [done|]. intros n' Hn'.
    destruct (decide (n' = inum)) as [->|]; [|apply F3; lia]. rewrite Hd. cbn. intros [= ?]. congruence.
Qed.
Lemma wp_ialloc sb v s ty Q :
  f_sb s = sb → fs_blocks sb v → t_held v = [] → tv [] (f_io s) v → (size (t_logged v) < t_cap v)%nat → - 2 ^ 15 ≤ ty < 2 ^ 15 →
  E "iget: no inodes" → E "ialloc: no inodes" →
  (∀ n v' m l' c', first_free sb (t_cur v) 1 n → updated sb v n (blank ty) v' → got (f_inode s) ROOTDEV n m l' → tv [] c' v' →
     Q m (mkfs sb l' c')) →
  wp E (ialloc ROOTDEV ty) Q s.
Proof.
  intros Hsb Hfb Hh Hv Hcap Hty HE1 HE2 HQ. unfold ialloc. apply wp_bind, wp_gets. rewrite Hsb.
  eapply wp_ialloc_from; try done; try lia.
Qed.
End ialloc.

(** ** Inodes rewritten: files are as they were *)
Section rewritten.
Context (sb : superblock) (v v' : tview) (d : dinode) (sz : Z) (Hly : layout sb v) (Hf : file_ok sb (t_cur v) d sz).
Context (Hcur : ∀ n, sb_bmapstart sb ≤ n → t_cur v' n = t_cur v n).
Lemma rewritten_footprint : footprint (t_cur v') d = footprint (t_cur v) d.
Proof. unfold footprint. by rewrite (meta_slots sb v v' d sz Hly Hf Hcur). Qed.
Lemma rewritten_entries : dir_ok d → sz = di_size d → entries (t_cur v') d = entries (t_cur v) d.
Proof.
  intros Hd Hs. eapply frame_entries; [exact Hf| |done|done]. intros n Hn. apply Hcur.
  destruct (fo_data _ _ _ _ Hf n Hn) as [Hnd _]. pose proof (data_after_map _ _ _ Hly Hnd). lia.
Qed.
End rewritten.
Lemma updated_cur sb v inum d v' n : layout sb v → inum_ok sb inum → updated sb v inum d v' → sb_bmapstart sb ≤ n → t_cur v' n = t_cur v n.
Proof.
  intros Hly Hi [(y & _ & ->) _] Hn. cbn [t_cur t_put]. apply fn_lookup_insert_ne. destruct (IBLOCK_range _ _ Hly _ Hi). lia.
Qed.
Lemma updated_fields sb v inum d v' : updated sb v inum d v' →
  t_held v' = t_held v ∧ t_cap v' = t_cap v ∧ t_logged v' = {[IBLOCK inum sb]} ∪ t_logged v.
Proof. by intros [(y & _ & ->) _]. Qed.

(** The name stands for the new inode [n], which is [t]. *)
Record created_file sb v dnum d name n t v' d' : Prop := mkcf {
  cf_dir : disk_inode sb (t_cur v') dnum = Some d' ∧ dir_ok d' ∧ file_ok sb (t_cur v') d' (di_size d');
  cf_entries : entries (t_cur v') d' = link_entry (entries (t_cur v) d) (mkde n (name14 name));
  cf_new : disk_inode sb (t_cur v') n = Some t;
  cf_inodes : ∀ n', inum_ok sb n' → n' ≠ dnum → n' ≠ n → disk_inode sb (t_cur v') n' = disk_inode sb (t_cur v) n';
  cf_used : ∀ b, 0 ≤ b < sb_size sb → used sb (t_cur v) b = true → used sb (t_cur v') b = true;
  cf_data : ∀ b, is_data sb b → used sb (t_cur v) b = true → b ∉ footprint (t_cur v) d → t_cur v' b = t_cur v b
}.
Lemma created_intro sb v dnum d name n t v1 d1 v2 f v3 d' : fs_blocks sb v → file_ok sb (t_cur v) d (di_size d) → dir_ok d →
  inum_ok sb dnum → inum_ok sb n → n ≠ dnum → disk_inode sb (t_cur v) dnum = Some d →
  updated sb v n d1 v1 → updated sb v1 n t v2 →
  written sb v2 dnum d f (dirent_bytes n (name_field name)) v3 d' → dir_ok d' →
  entries (t_cur v3) d' = link_entry (entries (t_cur v2) d) (mkde n (name14 name)) →
  created_file sb v dnum d name n t v3 d'.
Proof.
  intros Hfb Hf Hd Hdn Hn Hne Hdisk Hu1 Hu2 Hw Hd' He. pose proof (fb_layout _ _ Hfb) as Hly.
  pose proof (fb_layout _ _ (updated_blocks _ _ _ _ _ Hn Hfb Hu1)) as Hly1.
  assert (∀ b, sb_bmapstart sb ≤ b → t_cur v2 b = t_cur v b) as Hcur.
  { intros b Hb. rewrite (updated_cur sb v1 n t v2), (updated_cur sb v n d1 v1); done. }
  pose proof (rewritten_footprint sb v v2 d _ Hly Hf Hcur) as Hfp. pose proof (meta_used sb v v2 Hly Hcur) as Hus.
  assert (∀ n', inum_ok sb n' → disk_inode sb (t_cur v2) n' = if decide (n' = n) then Some t else disk_inode sb (t_cur v) n') as Hin.
  { intros n' Hn'. rewrite (up_inode _ _ _ _ _ Hu2), (up_inode _ _ _ _ _ Hu1) by done. by case_decide. }
  split.
  - split; [|split; [done|apply Hw]]. apply (wn_disk _ _ _ _ _ _ _ _ Hw). by rewrite Hin, decide_False by (done || congruence).
  - rewrite He. f_equal. by eapply rewritten_entries.
  - rewrite (wn_inodes _ _ _ _ _ _ _ _ Hw) by done. by rewrite Hin, decide_True.
  - intros n' Hn' N1 N2. rewrite (wn_inodes _ _ _ _ _ _ _ _ Hw) by done. by rewrite Hin, decide_False.
  - intros b Hb Hub. apply (wn_used _ _ _ _ _ _ _ _ Hw); [done|]. by rewrite Hus.
  - intros b Hb Hub Hnf. pose proof (data_after_map _ _ _ Hly Hb).
    rewrite (wn_frame _ _ _ _ _ _ _ _ Hw); [apply Hcur; lia|done|rewrite Hus; [done|by eapply data_pos]|by rewrite Hfp].
Qed.

Section create.
Context {S : Type} `{TxLaws S} (E : string → Prop).
Context (sleep : chan → string → M (fstate S) unit).
Context (dr : Z → option (nat → Z → M (fstate S) (Z * list Z))).
Context (dw : Z → option (nat → list Z → Z → M (fstate S) Z)).
Implicit Types (s : fstate S) (v : tview) (ip : inode).

(** A file or a device can be created under a new name: the inodes that are
    referenced are not free, and the transaction has room for the blocks of
    [Y], the new block of the directory and its inode. *)
Record can_create sb Y v s i ip d name ty ma mi : Prop := mkcc {
  cc_dir : has_dir sb v s i ip d name ∧ dinode_ok d;
  cc_name : terminated name ∧ find_entry (entries (t_cur v) d) (name14 name) = None;
  cc_type : ty ≠ 0 ∧ ty ≠ T_DIR ∧ - 2 ^ 15 ≤ ty < 2 ^ 15;
  cc_nums : - 2 ^ 15 ≤ ma < 2 ^ 15 ∧ - 2 ^ 15 ≤ mi < 2 ^ 15;
  cc_cache : ∀ n jp, jp ∈ f_inode s → in_use ROOTDEV n jp → (di_type <$> disk_inode sb (t_cur v) n) ≠ Some 0;
  cc_small : sb_ninodes sb ≤ 2 ^ 16 ∧ Z.of_nat (16 * free_entry (entries (t_cur v) d) + 16) ≤ MAXFILE * BSIZE;
  cc_room : wroom sb v d Y 1 ∧ ∀ n, first_free sb (t_cur v) 1 n → IBLOCK n sb ∈ Y
}.
(** The new inode, on the disk and locked. *)
Lemma wp_create_inode {A} sb Y v s i ip d name ty ma mi c (K : nat → inode → M (fstate S) A) Q :
  can_create sb Y v s i ip d name ty ma mi → tv [] c v → E "iget: no inodes" → E "ialloc: no inodes" →
  let t := set_di_dev ma mi 1 (blank ty) in
  (∀ n m mp v1 v2 c', first_free sb (t_cur v) 1 n → m ≠ i → (m < length (f_inode s))%nat → updated sb v n (blank ty) v1 → updated sb v1 n t v2 →
     i_d mp = t → i_busy mp = true → in_use ROOTDEV n mp → tv [] c' v2 →
     wp E (K m mp) Q (mkfs sb (<[m := mp]> (<[i := opened d ip]> (f_inode s))) c')) →
  wp E (let! m := ialloc ROOTDEV ty in
        ilock sleep (Some m) ;;;
        upd_inode m (λ p, set_i_d (set_di_dev ma mi 1 (i_d p)) p) ;;;
        iupdate m ;;;
        let! p := the_inode m in K m p) Q (mkfs sb (<[i := opened d ip]> (f_inode s)) c).
Proof.
  intros [[Hd Hok] [Hterm Hnone] (Ty0 & Tyd & Tyr) [Hma Hmi] Hcache [Hn16 Hmax] [Hwr HY]] Hv HE1 HE2 t HQ.
  destruct (has_dir_opened _ _ _ _ _ _ _ Hd) as (O1 & O3 & O4 & O5 & (U1 & U2 & _) & Hat).
  pose proof Hd as [Csb Ctv Cfb Ch [Ci Cu] [(Cr & Crt & _) Cin] (Cd2 & Cd3 & Cn) Cname]. pose proof (fb_layout _ _ Cfb) as Hly.
  pose proof (lookup_lt_Some _ _ _ Ci) as Hlt. set (l1 := <[i := opened d ip]> (f_inode s)).
  pose proof Hwr as [W1 W2 W3]. pose proof (size_inds Y d) as Hsi. pose proof (subseteq_size _ _ W1) as Hsl.
  apply wp_bind. eapply (wp_ialloc E sb v); [done|done|done|exact Hv|lia|done|done|done|]. cbn [f_inode].
  intros n v1 m l' c1 Hff Hu1 Hgot Hv1. pose proof Hff as (Hn1 & Hn2 & _). assert (inum_ok sb n) as Hn by (unfold inum_ok; lia).
  assert (∀ jp, jp ∈ l1 → ¬ in_use ROOTDEV n jp) as Hunused.
  { intros jp Hj Hju. apply list_elem_of_lookup in Hj as [j Hj]. apply list_lookup_insert_cases in Hj as [[_ ->]|[_ Hj]].
    - destruct Hju as (_ & _ & Hin). rewrite O3 in Hin. subst n. rewrite Cr in Hn2. cbn in Hn2. congruence.
    - eapply (Hcache n jp); [by eapply list_elem_of_lookup_2|done|done]. }
  destruct Hgot as (jp & Hj & [[Hju _]|(Hz & _ & ->)]); [destruct (Hunused jp); [by eapply list_elem_of_lookup_2|done]|].
  pose proof (lookup_lt_Some _ _ _ Hj) as Hml. assert (m ≠ i) as Hmi'.
  { intros ->. unfold l1 in Hj. rewrite list_lookup_insert_eq in Hj by done. injection Hj as <-. lia. }
  destruct (updated_fields _ _ _ _ _ Hu1) as (E1 & E2 & E3). pose proof (updated_blocks _ _ _ _ _ Hn Cfb Hu1) as Hfb1.
  assert (t_logged v1 ⊆ Y ∪ inds d) as Hlg1 by (rewrite E3; specialize (HY n Hff); set_solver). pose proof (subseteq_size _ _ Hlg1).
  set (np := mkinode ROOTDEV n 1 0 (i_d jp)). apply wp_bind.
  eapply (wp_ilock_ready E sleep sb v1 _ m np (blank ty)); cbn [f_sb f_inode f_io];
    [done|by apply list_lookup_insert_eq|by split_and!|done| |done|congruence|pose proof (tv_cap _ _ _ Hv1); lia|exact Hv1|].
  { split; [rewrite (up_inode _ _ _ _ _ Hu1) by done; by rewrite decide_True|]. split; [done|]. intros kp Hk Hku.
    apply list_elem_of_lookup in Hk as [k Hk]. apply list_lookup_insert_cases in Hk as [[_ ->]|[_ Hk]]; [done|].
    destruct (Hunused kp); [by eapply list_elem_of_lookup_2|done]. }
  intros c2 Hv2. rewrite list_insert_insert_eq. apply wp_bind. eapply wp_upd_inode; [by apply list_lookup_insert_eq|].
  cbn [f_inode set_f_inode]. rewrite list_insert_insert_eq. change (i_d (opened (blank ty) np)) with (blank ty). fold t.
  set (mp := set_i_d t (opened (blank ty) np)). apply wp_bind.
  eapply (wp_iupdate E sb v1 _ m mp); [done|by apply list_lookup_insert_eq|done|done|by apply blank_ok|done|exact Hv2|rewrite E1, Ch; simpl; pose proof (tv_cap _ _ _ Hv2); lia|rewrite E2; lia|].
  intros v2 c3 Hu2 Hv3. eapply wp_the_inode; [by apply list_lookup_insert_eq|]. unfold l1 in *. rewrite length_insert in Hml.
  by apply (HQ n m mp v1 v2 c3).
Qed.

Lemma wp_create_new sb Y v s i ip d name ty ma mi Q :
  can_create sb Y v s i ip d name ty ma mi → E "iget: no inodes" → E "ialloc: no inodes" → E "balloc: out of blocks" →
  let t := set_di_dev ma mi 1 (blank ty) in
  (∀ n m mp ip' v' d' c', first_free sb (t_cur v) 1 n → m ≠ i → (m < length (f_inode s))%nat → i_d mp = t → i_busy mp = true → in_use ROOTDEV n mp →
     i_busy ip' = false → tv [] c' v' → created_file sb v (i_inum ip) d name n t v' d' →
     Q (Some m) (mkfs sb (<[m := mp]> (<[i := ip']> (f_inode s))) c')) →
  wp E (create_at sleep dr dw i name ty ma mi) Q s.
Proof.
  intros Hc HE1 HE2 HE3 t HQ. pose proof Hc as [[Hd Hok] [Hterm Hnone] (Ty0 & Tyd & Tyr) _ _ [Hn16 Hmax] [Hwr HY]].
  destruct (has_dir_opened _ _ _ _ _ _ _ Hd) as (O1 & O3 & O4 & O5 & (U1 & U2 & _) & Hat).
  pose proof Hd as [Csb Ctv Cfb Ch [Ci Cu] [(Cr & Crt & _) Cin] (Cd2 & Cd3 & Cn) Cname]. pose proof (fb_layout _ _ Cfb) as Hly.
  pose proof (lookup_lt_Some _ _ _ Ci) as Hlt. unfold create_at. apply wp_bind. eapply wp_ilock_dir; [exact Hd|]. intros c1 Hv1.
  apply wp_bind. eapply (wp_dirlookup E dr sb v _ i (opened d ip) name); [by apply Hat|done| | |exact HE1]; rewrite O1; [|intros; congruence].
  intros c2 _ Hv2. eapply wp_the_inode; [by apply list_lookup_insert_eq|]. rewrite U2.
  eapply (wp_create_inode sb Y v s i ip d name); [exact Hc|exact Hv2|done|done|]. fold t. intros n m mp v1 v2 c3 Hff Hmi Hm Hu1 Hu2 Hmd Hmb Hmu Hv3.
  pose proof Hff as (Hn1 & Hn2 & _). assert (inum_ok sb n) as Hn by (unfold inum_ok; lia). pose proof Hmu as (M1 & M2 & M3).
  apply wp_bind. rewrite decide_False by done. apply wp_skip. rewrite M3.
  pose proof (updated_blocks _ _ _ _ _ Hn Cfb Hu1) as Hfb1. pose proof (updated_blocks _ _ _ _ _ Hn Hfb1 Hu2) as Hfb2.
  destruct (updated_fields _ _ _ _ _ Hu1) as (E1 & E2 & E3). destruct (updated_fields _ _ _ _ _ Hu2) as (E4 & E5 & E6).
  assert (∀ b, sb_bmapstart sb ≤ b → t_cur v2 b = t_cur v b) as Hcur.
  { intros b Hb. rewrite (updated_cur sb v1 n t v2), (updated_cur sb v n (blank ty) v1); try done. apply Hfb1. }
  pose proof (rewritten_entries sb v v2 d _ Hly Cd3 Hcur Cd2 eq_refl) as Hes. pose proof (meta_file sb v v2 d _ Hly Cd3 Hcur) as Hf2.
  apply wp_bind. eapply (wp_dirlink E dr dw sb v2 _ i (opened d ip) name n Y); rewrite ?O1, ?O3, ?Hes; try done.
  { split; [|by rewrite O1]. rewrite O1. split; try done; [|by rewrite E4, E1|by rewrite O1].
    cbn [f_inode]. rewrite list_lookup_insert_ne by done. by apply list_lookup_insert_eq. }
  { lia. }
  { destruct Hwr as [W1 W2 W3]. split; [|done|by rewrite E5, E2]. rewrite E6, E3. specialize (HY n Hff). set_solver. }
  intros v3 d' c4 Hw Hd' He Hv4. cbn [f_inode]. rewrite decide_False by lia.
  rewrite list_insert_insert_ne, list_insert_insert_eq by done. apply wp_bind.
  assert (di_nlink d' = di_nlink d) as Hnl by (rewrite (wn_same _ _ _ _ _ _ _ _ Hw); done).
  eapply (wp_iunlockput_keep E v3 _ i (set_i_d d' (opened d ip))); cbn [f_inode f_sb f_io set_i_d i_d i_ref].
  { rewrite list_lookup_insert_ne by done. by apply list_lookup_insert_eq. }
  { exact O5. } { lia. } { rewrite Hnl. lia. } { exact Hv4. }
  intros c5 Hv5. rewrite list_insert_insert_ne, list_insert_insert_eq by done. apply wp_ret.
  eapply (HQ n); [done|done|done|done|done|done|by destruct (unlocked_fields (set_i_d d' (opened d ip)))|exact Hv5|].
  eapply (created_intro sb v (i_inum ip) d name n t v1 (blank ty) v2); [done|done|done|done|done| |done|exact Hu1|exact Hu2|exact Hw|done|by rewrite He, Hes].
  intros ->. rewrite Cr in Hn2. cbn in Hn2. congruence.
Qed.

(** The name exists: the inode, locked, if a file was asked for and it is one. *)
Lemma wp_create_old sb v s i ip d name k e t ty ma mi Q :
  has_dir sb v s i ip d name → find_entry (entries (t_cur v) d) (name14 name) = Some k → entries (t_cur v) d !! k = Some e →
  ready sb v (f_inode s) (de_inum e) t → inum_ok sb (de_inum e) → de_inum e ≠ i_inum ip → 1 ≤ di_nlink t → E "iget: no inodes" →
  (∀ m mp ip' c', (m < length (f_inode s))%nat → m ≠ i → i_busy ip' = false → tv [] c' v →
     (ty = T_FILE ∧ di_type t = T_FILE → i_d mp = t → i_busy mp = true → in_use ROOTDEV (de_inum e) mp →
        Q (Some m) (mkfs sb (<[m := mp]> (<[i := ip']> (f_inode s))) c')) ∧
     (¬ (ty = T_FILE ∧ di_type t = T_FILE) → i_busy mp = false → Q None (mkfs sb (<[m := mp]> (<[i := ip']> (f_inode s))) c'))) →
  wp E (create_at sleep dr dw i name ty ma mi) Q s.
Proof.
  intros Hd Cf1 Cf2 Ct1 Ct2 Ct3 Hnl HE HQ. destruct (has_dir_opened _ _ _ _ _ _ _ Hd) as (O1 & O3 & O4 & O5 & (U1 & U2 & _) & Hat).
  pose proof Hd as [Csb Ctv Cfb Ch [Ci Cu] _ (Cd2 & Cd3 & Cn) Cname]. pose proof (tv_size _ _ _ Ctv) as Hsz. pose proof (lookup_lt_Some _ _ _ Ci) as Hlt.
  unfold create_at. apply wp_bind. eapply wp_ilock_dir; [exact Hd|]. intros c1 Hv1.
  apply wp_bind. eapply (wp_find_entry E dr sb v s i ip d name k e t); try done. intros m mp c2 Hmi Hm Hu Hb Hval Hone Hrt Hv2.
  apply wp_bind. eapply (wp_iunlockput_keep E v _ i (opened d ip)); cbn [f_inode f_sb f_io].
  { rewrite list_lookup_insert_ne by done. by apply list_lookup_insert_eq. }
  { done. } { lia. } { rewrite O1. lia. } { exact Hv2. }
  intros c3 Hv3. rewrite list_insert_insert_ne, list_insert_insert_eq by done.
  set (ip' := set_i_ref _ (unlocked (opened d ip))). assert (i_busy ip' = false) as Hbi by (by destruct (unlocked_fields (opened d ip))).
  pose proof Hu as (W1 & W2 & W3). destruct (opened_fields t mp Hval) as (P1 & P2 & P3 & P4 & P5 & P6).
  apply wp_bind. eapply (wp_ilock_ready E sleep sb v _ m mp t); cbn [f_sb f_inode f_io];
    [done|apply list_lookup_insert_eq; by rewrite length_insert|by rewrite W3|by rewrite W3| |done|done|lia|exact Hv3|].
  { rewrite W3. apply ready_insert; [|done]. apply ready_insert; [done|]. intros (_ & _ & Hn). cbn in Hn. congruence. }
  intros c4 Hv4. rewrite list_insert_insert_eq. eapply wp_the_inode; [apply list_lookup_insert_eq; by rewrite length_insert|]. rewrite P1.
  destruct (decide (ty = T_FILE ∧ di_type t = T_FILE)) as [Hty|Hty].
  - apply wp_ret. destruct (HQ m (opened t mp) ip' c4) as [Hq _]; [done..|]. apply Hq; [done|done|done|]. split_and!; congruence.
  - apply wp_bind. eapply (wp_iunlockput_keep E v _ m (opened t mp)); cbn [f_inode f_sb f_io];
      [apply list_lookup_insert_eq; by rewrite length_insert|done|lia|rewrite P1; lia|exact Hv4|].
    intros c5 Hv5. rewrite list_insert_insert_eq. apply wp_ret. apply HQ; [done..|]. by destruct (unlocked_fields (opened t mp)).
Qed.
End create.
