(* ===== verification/DiropMain.v ===== *)
(** * Names of files: the theorems *)

From S2P Require Import Prelude CString Words ProcData Sync Block Log Tx Fs FsBlocks FsInode FsFile FsRw FsDir FsToy FsTrunc Dirop FsUnlink DiropThm FsCreate.
Local Open Scope Z_scope.

(** C33. unlink removes a name and what only that name kept.  It refuses "." and
    "..", a name that is not there and a directory that has entries, with -1 and
    the disk untouched.  Otherwise it clears the entry: the name is not found any
    more and every other name is found as before; the inode has a link less (and
    the directory too, when a directory was removed); if that was the last link
    and no process has the file, its blocks are free, its inode is free, and
    nothing else is; all other inodes and the blocks of other files are as they
    were.  No inode stays locked. *)
Theorem unlink_exact {S} `{TxLaws S} sleep dr dw sb v (s : fstate S) i ip d name :
  has_dir sb v s i ip d name → let es := entries (t_cur v) d in
  (name14 name = name14 dot ∨ name14 name = name14 dotdot ∨ find_entry es (name14 name) = None →
   wp (λ e, e = "iget: no inodes") (unlink_at sleep dr dw i name) (λ r s',
     r = -1 ∧ tv [] (f_io s') v ∧ quiet (f_inode s) (f_inode s')) s) ∧
  (∀ X k e t, can_unlink sb X v s i ip d name k e t → ¬ (name14 name = name14 dot ∨ name14 name = name14 dotdot) →
   wp (λ e, e = "iget: no inodes") (unlink_at sleep dr dw i name) (λ r s', quiet (f_inode s) (f_inode s') ∧
     if decide (di_type t = T_DIR ∧ ¬ nothing_but_dots (entries (t_cur v) t)) then r = -1 ∧ tv [] (f_io s') v
     else r = 0 ∧ ∃ v', tv [] (f_io s') v' ∧
       unlinked sb v (i_inum ip) d k (de_inum e) t
         (bool_decide (di_nlink t = 1 ∧ Forall (λ jp, ¬ in_use ROOTDEV (de_inum e) jp) (f_inode s))) v' ∧
       (∀ nm, nm ≠ name14 name → dir_find (entries (t_cur v') d) nm = dir_find es nm) ∧
       ((∀ j e', es !! j = Some e' → de_inum e' ≠ 0 → de_name e' = name14 name → j = k) →
        dir_find (entries (t_cur v') d) (name14 name) = None)) s).
Proof.
  intros Hd es. split.
  - intros Hno. eapply wp_unlink_none; [exact Hd|done|exact Hno|]. done.
  - intros X k e t Hc Hdots. pose proof (cu_find _ _ _ _ _ _ _ _ _ _ _ Hc) as [Hf He].
    eapply wp_unlink_at; [exact Hc|done|done| |].
    + intros Ht Hne l' c' Hq Hv. split; [done|]. by rewrite decide_True.
    + intros Hemp v' l' c' Hq Hv Hul. split; [done|]. rewrite decide_False by naive_solver. split; [done|]. exists v'.
      destruct (ul_entries _ _ _ _ _ _ _ _ _ Hul) as [_ Hes]. rewrite Hes. split_and!; [done|done| |].
      * intros nm Hne. by eapply dir_find_erase.
      * apply dir_find_erased. by eapply lookup_lt_Some.
Qed.

(** C34. create makes a file or a device under a new name: it takes the first free
    inode of the disk, which becomes a file without contents and with one link,
    and enters the name in the directory; the name then stands for that inode and
    every other name for what it stood for; no other inode and no block in use by
    other files changes; the inode is returned locked and the directory is not
    locked.  If the name exists already the disk is not touched: the inode is
    returned, locked, when a file was asked for and it is one, else nothing. *)
Theorem create_exact {S} `{TxLaws S} sleep dr dw sb v (s : fstate S) i ip d name ty ma mi :
  let es := entries (t_cur v) d in let t := set_di_dev ma mi 1 (blank ty) in
  (∀ Y, can_create sb Y v s i ip d name ty ma mi →
   wp (λ e, e = "iget: no inodes" ∨ e = "ialloc: no inodes" ∨ e = "balloc: out of blocks") (create_at sleep dr dw i name ty ma mi)
     (λ r s', ∃ n m mp v' d', first_free sb (t_cur v) 1 n ∧ r = Some m ∧
       f_inode s' !! m = Some mp ∧ in_use ROOTDEV n mp ∧ i_busy mp = true ∧ i_d mp = t ∧
       tv [] (f_io s') v' ∧ created_file sb v (i_inum ip) d name n t v' d' ∧
       (∀ nm, dir_find (entries (t_cur v') d') nm = if decide (nm = name14 name) then Some n else dir_find es nm) ∧
       quiet (f_inode s) (<[m := unlocked mp]> (f_inode s'))) s) ∧
  (∀ k e t0, has_dir sb v s i ip d name → find_entry es (name14 name) = Some k → es !! k = Some e →
   ready sb v (f_inode s) (de_inum e) t0 → inum_ok sb (de_inum e) → de_inum e ≠ i_inum ip → 1 ≤ di_nlink t0 →
   wp (λ e, e = "iget: no inodes") (create_at sleep dr dw i name ty ma mi) (λ r s', tv [] (f_io s') v ∧
     if decide (ty = T_FILE ∧ di_type t0 = T_FILE)
     then ∃ m mp, r = Some m ∧ f_inode s' !! m = Some mp ∧ in_use ROOTDEV (de_inum e) mp ∧ i_busy mp = true ∧ i_d mp = t0
     else r = None ∧ quiet (f_inode s) (f_inode s')) s).
Proof.
  intros es t. split.
  - intros Y Hc. eapply wp_create_new; [exact Hc|by left|by right; left|by right; right|]. fold t.
    intros n m mp ip' v' d' c' Hff Hmi Hm Hmd Hmb Hmu Hb Hv Hcr. exists n, m, mp, v', d'. cbn [f_inode f_io].
    split; [done|]. split; [done|]. split; [apply list_lookup_insert_eq; by rewrite length_insert|]. split; [done|]. split; [done|]. split; [done|].
    split; [done|]. split; [done|]. split.
    + intros nm. rewrite (cf_entries _ _ _ _ _ _ _ _ _ Hcr). destruct Hff as ([Hn _] & _ & _).
      apply (dir_find_link es (mkde n (name14 name))); [apply (cc_name _ _ _ _ _ _ _ _ _ _ _ Hc)|cbn; lia].
    + rewrite list_insert_insert_eq. apply quiet_insert2; [by destruct (unlocked_fields mp)|done].
  - intros k e t0 Hd Hf He Hr Hin Hne Hnl. eapply wp_create_old; [exact Hd|done|done|exact Hr|done|done|done|done|].
    intros m mp ip' c' Hm Hmi Hb Hv. split.
    + intros Hty Hmd Hmb Hmu. split; [done|]. rewrite decide_True by done. exists m, mp.
      split; [done|]. split; [apply list_lookup_insert_eq; by rewrite length_insert|done].
    + intros Hty Hmb. split; [done|]. rewrite decide_False by done. split; [done|]. by apply quiet_insert2.
Qed.

(** ** A directory with one file

    As the disk of [FsToy]; inode 1 is a directory with the entry a for inode 2, a
    file of 5 bytes. *)
Definition one_map : block := pad [255; 255; 255; 255; 63].
Definition one_dir : dinode := mkdi T_DIR 0 0 1 0 0 493 16 (36 :: replicate 25 0).
Definition one_file : dinode := mkdi T_FILE 0 0 1 0 0 493 5 (37 :: replicate 25 0).
Definition one_cur (n : Z) : block :=
  if decide (n = 1) then toy_super
  else if decide (n = 32) then pad (replicate 128 0 ++ dinode_bytes one_dir ++ dinode_bytes one_file)
  else if decide (n = 35) then one_map
  else if decide (n = 36) then pad (dirent_bytes 2 (name_field [97; 0]))
  else if decide (n = 37) then pad [1; 2; 3; 4; 5] else zeros.
Definition one_view : tview := mktview 60 2 32 one_cur [] ∅ 20 ∅.
(** The directory is referenced, the file is not. *)
Definition one_fs : fstate tview :=
  mkfs toy_sb (mkinode ROOTDEV 1 1 I_VALID one_dir :: replicate 49 (mkinode 0 0 0 0 one_file)) one_view.

Lemma one_tv : tv [] (f_io one_fs) one_view.
Proof.
  split; [done|]. split; [|vm_compute; lia|constructor]. intros n _. cbn [t_cur one_view]. unfold one_cur.
  repeat case_decide; reflexivity.
Qed.
Lemma one_layout : layout toy_sb one_view.
Proof. split; try (vm_compute; congruence); vm_compute; intuition congruence. Qed.
Lemma one_used b : 0 ≤ b < 60 → used toy_sb one_cur b = bool_decide (b < 38).
Proof.
  intros Hb. assert (forallb (λ k, bool_decide (used toy_sb one_cur (Z.of_nat k) = bool_decide (Z.of_nat k < 38))) (seq 0 60) = true)
    as Hall by (vm_compute; reflexivity).
  rewrite forallb_forall in Hall. specialize (Hall (Z.to_nat b)). rewrite in_seq in Hall.
  specialize (Hall ltac:(lia)). apply bool_decide_eq_true in Hall. by rewrite Z2Nat.id in Hall by lia.
Qed.
Lemma one_blocks : fs_blocks toy_sb one_view.
Proof.
  split; [apply one_layout| |set_solver|done]. intros b Hb.
  assert (data_start toy_sb = 36) as Hd by (vm_compute; reflexivity). rewrite Hd in Hb.
  cbn [t_cur one_view]. rewrite one_used by lia. apply bool_decide_eq_true. lia.
Qed.
(** A file of one block. *)
Lemma one_file_ok d a : di_addrs d = a :: replicate 25 0 → 36 ≤ a < 38 → di_size d ≤ 512 → file_ok toy_sb one_cur d (di_size d).
Proof.
  intros Hd Ha Hs. assert (footprint one_cur d = [a]) as Hf.
  { unfold footprint, slots, iaddr. rewrite Hd. cbn [nth replicate]. rewrite decide_True by done. cbn [app].
    rewrite filter_cons_True by lia. f_equal. }
  split; [by rewrite Hd| | |].
  - rewrite Hf. intros b ->%list_elem_of_singleton. split; [change (36 ≤ a < 60); lia|]. rewrite one_used by lia. apply bool_decide_eq_true. lia.
  - rewrite Hf. apply NoDup_singleton.
  - intros bn Hbn. assert (bn = 0)%nat as -> by lia. split; [lia|]. unfold faddr, slots. rewrite Hd. change (slot 0) with 0%nat. cbn [app nth]. lia.
Qed.

Lemma one_has_dir : has_dir toy_sb one_view one_fs 0 (mkinode ROOTDEV 1 1 I_VALID one_dir) one_dir [97; 0].
Proof.
  split; [done|apply one_tv|apply one_blocks|done| | | |].
  - split; [done|]. by split_and!.
  - split; [|vm_compute; intuition congruence]. split; [vm_compute; reflexivity|]. split; [done|].
    intros jp Hj (Hr & _). cbn [one_fs f_inode] in Hj. apply elem_of_cons in Hj as [->|Hj]; [done|]. apply elem_of_replicate in Hj as [-> _]. done.
  - split; [split; vm_compute; congruence|]. split; [by eapply one_file_ok; [done|lia|]|done].
  - left. apply (bool_decide_unpack _). vm_compute. exact I.
Qed.
Lemma one_can_unlink : can_unlink toy_sb {[32; 35; 36]} one_view one_fs 0 (mkinode ROOTDEV 1 1 I_VALID one_dir) one_dir [97; 0]
  0 (mkde 2 [97]) one_file.
Proof.
  split.
  - split; [apply one_has_dir|]. split; [vm_compute; intuition congruence..|done|by repeat constructor].
  - split; vm_compute; reflexivity.
  - split; [|vm_compute; intuition congruence]. split; [vm_compute; reflexivity|]. split; [done|].
    intros jp Hj (Hr & _ & Hn). cbn [one_fs f_inode] in Hj. apply elem_of_cons in Hj as [->|Hj]; [done|]. apply elem_of_replicate in Hj as [-> _]. done.
  - split; [split; [vm_compute; intuition congruence..|done|by repeat constructor]|]. split; [by eapply one_file_ok; [done|lia|]|done].
  - done.
  - vm_compute. set_solver.
  - split; [|vm_compute; set_solver]. split; [set_solver| |vm_compute; lia].
    intros b Hb. destruct (BBLOCK_range _ _ one_layout b Hb) as [-> _]. change (sb_size toy_sb) with 60 in Hb. change (sb_bmapstart toy_sb) with 35.
    rewrite Z.div_small by (change BPB with 4096; lia). set_solver.
Qed.
Lemma unlink_exact_witness :
  wp (λ e, e = "iget: no inodes") (unlink_at (λ _ _, skip) (λ _, None) (λ _, None) 0 [97; 0]) (λ r s', r = 0 ∧
    ∃ v', tv [] (f_io s') v' ∧ used toy_sb (t_cur v') 37 = false ∧ dir_find (entries (t_cur v') one_dir) [97] = None) one_fs.
Proof.
  eapply wp_mono.
  - exact (proj2 (unlink_exact (λ _ _, skip) (λ _, None) (λ _, None) toy_sb one_view one_fs 0 _ one_dir [97; 0] one_has_dir)
      {[32; 35; 36]} 0%nat (mkde 2 [97]) one_file one_can_unlink ltac:(vm_compute; intuition congruence)).
  - intros r s' [_ Hr]. rewrite decide_False in Hr by (intros [Ht _]; vm_compute in Ht; congruence). destruct Hr as (-> & v' & Hv & Hul & _ & Hn).
    split; [done|]. exists v'. split; [done|]. split.
    + rewrite (ul_used _ _ _ _ _ _ _ _ _ Hul) by (vm_compute; intuition congruence). vm_compute. reflexivity.
    + apply Hn. intros [|j] e'; [done|]. vm_compute. done.
Defined.

Lemma one_free n : first_free toy_sb one_cur 1 n → n = 3.
Proof.
  intros (Hn & Hz & Hb). change (sb_ninodes toy_sb) with 8 in Hn.
  assert (n = 1 ∨ n = 2 ∨ n = 3 ∨ 3 < n) as [->|[->|[->|Hgt]]] by lia; [by vm_compute in Hz..|done|].
  destruct (Hb 3); [lia|]. vm_compute. reflexivity.
Qed.
Lemma one_can_create : can_create toy_sb {[32; 35]} one_view one_fs 0 (mkinode ROOTDEV 1 1 I_VALID one_dir) one_dir [98; 0] T_FILE 0 0.
Proof.
  pose proof one_has_dir as [H1 H2 H3 H4 H5 H6 H7 _]. split.
  - split; [|apply (cu_dir _ _ _ _ _ _ _ _ _ _ _ one_can_unlink)]. split; try done. left. apply (bool_decide_unpack _). vm_compute. exact I.
  - split; [apply (bool_decide_unpack _); vm_compute; exact I|vm_compute; reflexivity].
  - vm_compute. intuition congruence.
  - lia.
  - intros n jp Hj (Hr & _ & Hn). cbn [one_fs f_inode] in Hj. apply elem_of_cons in Hj as [->|Hj].
    + cbn in Hn. subst n. vm_compute. congruence.
    + by apply elem_of_replicate in Hj as [-> _].
  - vm_compute. intuition congruence.
  - split; [|intros n ->%one_free; vm_compute; set_solver]. split; [set_solver| |vm_compute; lia].
    intros b Hb. destruct (BBLOCK_range _ _ one_layout b Hb) as [-> _]. change (sb_size toy_sb) with 60 in Hb. change (sb_bmapstart toy_sb) with 35.
    rewrite Z.div_small by (change BPB with 4096; lia). set_solver.
Qed.
Lemma create_exact_witness :
  wp (λ e, e = "iget: no inodes" ∨ e = "ialloc: no inodes" ∨ e = "balloc: out of blocks")
    (create_at (λ _ _, skip) (λ _, None) (λ _, None) 0 [98; 0] T_FILE 0 0) (λ r s', ∃ m v' d', r = Some m ∧ tv [] (f_io s') v' ∧
      dir_find (entries (t_cur v') d') [98] = Some 3 ∧ dir_find (entries (t_cur v') d') [97] = Some 2) one_fs.
Proof.
  eapply wp_mono.
  - exact (proj1 (create_exact (λ _ _, skip) (λ _, None) (λ _, None) toy_sb one_view one_fs 0 _ one_dir [98; 0] T_FILE 0 0) {[32; 35]} one_can_create).
  - intros r s' (n & m & mp & v' & d' & Hff & -> & _ & _ & _ & _ & Hv & _ & Hnm & _). apply one_free in Hff as ->.
    exists m, v', d'. split; [done|]. split; [done|]. rewrite !Hnm. vm_compute. done.
Defined.
