(* ===== verification/Mkfs.v ===== *)
(** * mkfs: the image of a new disk (mkfs.c)

    The image file is a list of sectors.  The calls of the host (open, lseek, write)
    succeed; perror followed by exit, and a failed
    assertion, are panics with the name of the call; the lines mkfs prints are
    left out.  An input file is its name and what the calls of read return. *)

From S2P Require Import Prelude CString Words ProcData Sync Block Log Tx Fs.
Local Open Scope Z_scope.

Definition FSSIZE : Z := 2000.
Definition NINODES : Z := 200.
Definition nbitmap : Z := FSSIZE / (BSIZE * 8) + 1.
Definition ninodeblocks : Z := NINODES / IPB + 1.
Definition nlog : Z := LOGSIZE.
Definition nmeta : Z := 2 + nlog + ninodeblocks + nbitmap.
Definition nblocks : Z := FSSIZE - nmeta.

(** Intel byte order: the bytes as stored, read back as an integer. *)
Definition xshort (x : Z) : Z := le_combine (le_split 2 x).
Definition xint (x : Z) : Z := le_combine (le_split 4 x).
Definition sb : superblock :=
  mksb (xint FSSIZE) (xint nblocks) (xint NINODES) (xint nlog) (xint 2) (xint (2 + nlog)) (xint (2 + nlog + ninodeblocks)).
Definition sb_bytes (sb : superblock) : list Z :=
  concat (le_split 4 <$> [sb_size sb; sb_nblocks sb; sb_ninodes sb; sb_nlog sb; sb_logstart sb; sb_inodestart sb; sb_bmapstart sb]).
Definition zeroes : block := replicate 512 0.

Record image := mkimg { im_img : list block; im_freeinode : Z; im_freeblock : Z }.
Definition set_im_img x s := mkimg x (im_freeinode s) (im_freeblock s).
Definition set_im_freeinode x s := mkimg (im_img s) x (im_freeblock s).
Definition set_im_freeblock x s := mkimg (im_img s) (im_freeinode s) x.

(** Writing a sector; behind the end of the file there are zeros. *)
Definition put_sector (n : nat) (buf : block) (img : list block) : list block :=
  if decide (n < length img)%nat then <[n := buf]> img else img ++ replicate (n - length img) zeroes ++ [buf].
(** The loop of balloc from bit [i] on. *)
Fixpoint mark_bits (n : nat) (i : Z) (buf : list Z) : option (list Z) :=
  match n with
  | O => Some buf
  | S n' => b ← set_bit buf i; mark_bits n' (i + 1) b
  end.

Module Img.
Abbreviation K := (M image).

(** The sector lseek goes to: sec * BSIZE is an unsigned int. *)
Definition sector (sec : Z) : nat := Z.to_nat (u32 (sec * BSIZE) / BSIZE).
Definition wsect (sec : Z) (buf : block) : K unit := modS (λ s, set_im_img (put_sector (sector sec) buf (im_img s)) s).
Definition rsect (sec : Z) : K block :=
  let! img := gets im_img in
  match img !! sector sec with Some b => ret b | None => panic "read" end.

Definition winode (inum : Z) (ip : dinode) : K unit :=
  let bn := IBLOCK inum sb in
  let! buf := rsect bn in
  let! y := of_opt (put_dinode buf (Z.to_nat (128 * (inum mod IPB))) ip) in
  wsect bn y.
Definition rinode (inum : Z) : K dinode :=
  let bn := IBLOCK inum sb in
  let! buf := rsect bn in
  of_opt (get_dinode buf (Z.to_nat (128 * (inum mod IPB)))).

Definition ialloc (type : Z) : K Z :=
  let! inum := gets im_freeinode in
  modS (set_im_freeinode (u32 (inum + 1))) ;;;
  winode inum (mkdi (s16 (xshort type)) 0 0 (s16 (xshort 1)) DEFAULT_UID DEFAULT_GID DEFAULT_MODE (xint 0) (replicate 26 0)) ;;;
  ret inum.

Definition balloc (used : Z) : K unit :=
  if decide (used < BSIZE * 8) then
    let! buf := of_opt (mark_bits (Z.to_nat used) 0 zeroes) in
    wsect (sb_bmapstart sb) buf
  else panic "assert".

(** freeblock++ *)
Definition next_block : K Z :=
  let! b := gets im_freeblock in modS (set_im_freeblock (u32 (b + 1))) ;;; ret b.
(** din.addrs[k], and a new block there if there is none *)
Definition fresh_addr (din : dinode) (k : nat) : K dinode :=
  let! a := of_opt (di_addrs din !! k) in
  if decide (xint a = 0) then
    let! b := next_block in ret (set_di_addrs (<[k := xint b]> (di_addrs din)) din)
  else ret din.
(** Word [k] of the indirect block [x], and a new block there if there is none *)
Definition map_word (x : Z) (k : nat) : K Z :=
  let! indirect := rsect x in
  let! w := of_opt (get_word indirect (4 * k)) in
  let! indirect :=
    (if decide (w = 0) then
       let! b := next_block in
       let! y := of_opt (put_word indirect (4 * k) (xint b)) in
       wsect x y ;;; ret y
     else ret indirect) in
  let! w := of_opt (get_word indirect (4 * k)) in
  ret (xint w).
(** The sector of block [fbn] of the file. *)
Definition map_block (din : dinode) (fbn : Z) : K (dinode * Z) :=
  if decide (fbn < NDIRECT) then
    let! din := fresh_addr din (Z.to_nat fbn) in
    let! a := of_opt (di_addrs din !! Z.to_nat fbn) in
    ret (din, xint a)
  else
    let! din := fresh_addr din (Z.to_nat NDIRECT) in
    let! a := of_opt (di_addrs din !! Z.to_nat NDIRECT) in
    let! x := map_word (xint a) (Z.to_nat (fbn - NDIRECT)) in
    ret (din, x).
Fixpoint iappend_loop (fuel : nat) (din : dinode) (off : Z) (p : list Z) : K (dinode * Z) :=
  match fuel with
  | O => diverge
  | S fuel' =>
      if decide (0 < Z.of_nat (length p)) then
        let fbn := off / BSIZE in
        if decide (fbn < MAXFILE) then
          let! r := map_block din fbn in
          let (din, x) := r in
          let n1 := Z.min (Z.of_nat (length p)) ((fbn + 1) * BSIZE - off) in
          let! buf := rsect x in
          wsect x (splice buf (Z.to_nat (off - fbn * BSIZE)) (take (Z.to_nat n1) p)) ;;;
          iappend_loop fuel' din (u32 (off + n1)) (drop (Z.to_nat n1) p)
        else panic "assert"
      else ret (din, off)
  end.
Definition iappend (inum : Z) (p : list Z) : K unit :=
  let! din := rinode inum in
  let! r := iappend_loop (length p / 512 + 3) din (xint (di_size din)) p in
  let (din, off) := r in
  winode inum (set_di_size (xint off) din).

(** One argument of main: the name (a string) and the pieces read from the file. *)
Definition add_file (rootino : Z) (file : list Z * list (list Z)) : K unit :=
  let (name, chunks) := file in
  if decide (47 ∈ cstr name) then panic "assert" else
  let name := match name with c :: name' => if decide (c = 95) then name' else name | [] => name end in
  let! inum := ialloc T_FILE in
  let! nm := of_opt (strncpy (replicate DIRSIZ 0) name DIRSIZ) in
  iappend rootino (dirent_bytes (xshort inum) nm) ;;;
  mfor chunks (iappend inum).
(** fix size of root inode dir *)
Definition fix_root (rootino : Z) : K unit :=
  let! din := rinode rootino in
  let off := xint (di_size din) in
  let off := u32 ((off / BSIZE + 1) * BSIZE) in
  winode rootino (set_di_size (xint off) din).
Definition main (files : list (list Z * list (list Z))) : K unit :=
  mfor (seq 0 (Z.to_nat FSSIZE)) (λ i, wsect (Z.of_nat i) zeroes) ;;;
  wsect 1 (splice zeroes 0 (sb_bytes sb)) ;;;
  let! rootino := ialloc T_DIR in
  if decide (rootino = ROOTINO) then
    iappend rootino (dirent_bytes (xshort rootino) (46 :: replicate 13 0)) ;;;
    iappend rootino (dirent_bytes (xshort rootino) (46 :: 46 :: replicate 12 0)) ;;;
    mfor files (add_file rootino) ;;;
    fix_root rootino ;;;
    let! used := gets im_freeblock in
    balloc (s32 used)
  else panic "assert".
End Img.
(** The state at the start: an empty image file. *)
Definition start : image := mkimg [] 1 nmeta.
