(* ===== verification/MkfsFile.v ===== *)
(** * mkfs: how a file grows block by block, and iappend *)

From S2P Require Import Prelude CString Words ProcData Sync Block Log Tx Fs FsBlocks FsInode FsFile FsRw Mkfs.
Local Open Scope Z_scope.
Implicit Types (x y : list Z) (cur : Z → block) (d : dinode).

(** The file [d] has [nb] blocks, between the metadata and [fb], and they hold
    [data] followed by zeros. *)
Record grows cur d (data : list Z) (nb : nat) (fb : Z) : Prop := mkgrows {
  gr_ok : dinode_ok d;
  gr_foot : ∀ a, a ∈ footprint cur d → nmeta ≤ a < fb;
  gr_nodup : NoDup (footprint cur d);
  gr_blocks : (nb ≤ 153)%nat ∧ (length data ≤ 512 * nb)%nat;
  gr_map : ∀ bn, (bn < 153)%nat → faddr cur d bn ≠ 0 ↔ (bn < nb)%nat;
  gr_bytes : ∀ k, (k / 512 < nb)%nat → fbyte cur d k = nth k data 0
}.

(** The new blocks of the file are [fb] .. [fb' - 1]. *)
Definition extends cur d (fb : Z) (cur' : Z → block) (d' : dinode) (fb' : Z) : Prop :=
  ∀ a, a ∈ footprint cur' d' ↔ a ∈ footprint cur d ∨ fb ≤ a < fb'.
Lemma extends_one cur d fb cur' d' : footprint cur' d' ≡ₚ fb :: footprint cur d → extends cur d fb cur' d' (fb + 1).
Proof. intros Hfp a. rewrite Hfp, elem_of_cons. assert (fb ≤ a < fb + 1 ↔ a = fb) by lia. tauto. Qed.
Lemma extends_trans cur d fb cur1 d1 fb1 cur2 d2 fb2 : fb ≤ fb1 ≤ fb2 →
  extends cur d fb cur1 d1 fb1 → extends cur1 d1 fb1 cur2 d2 fb2 → extends cur d fb cur2 d2 fb2.
Proof. intros Hle H1 H2 a. rewrite (H2 a), (H1 a). assert (fb ≤ a < fb2 ↔ fb ≤ a < fb1 ∨ fb1 ≤ a < fb2) by lia. tauto. Qed.

Lemma nmeta_eq : nmeta = 84.
Proof. reflexivity. Qed.
Lemma nth_beyond (data : list Z) k n : (length data ≤ 512 * n)%nat → (k / 512 = n)%nat → nth k data 0 = 0.
Proof. intros Hl Hk. apply nth_overflow. pose proof (Nat.div_mod_eq k 512). lia. Qed.
Lemma nth_zeros k : nth k (zeros : list Z) 0 = 0.
Proof.
  destruct (decide (k < 512)%nat) as [Hk|Hk]; [|apply nth_overflow; cbn; lia].
  rewrite nth_lookup. unfold zeros. by rewrite lookup_replicate_2.
Qed.
Lemma slot_lt bn : (bn < 25)%nat → slot bn = bn.
Proof. intros Hb. unfold slot. by rewrite decide_True. Qed.
Lemma slot_ge bn : (25 ≤ bn)%nat → slot bn = S bn.
Proof. intros Hb. unfold slot. by rewrite decide_False by lia. Qed.

(** One slot filled with the new block [fb]: what remains to be shown. *)
Lemma grows_fill cur cur' d d' data nb fb zs :
  grows cur d data nb fb → dinode_ok d' → (nb < 153)%nat → (length data ≤ 512 * nb)%nat → nmeta ≤ fb →
  slots cur' d' = <[slot nb := fb]> (slots cur d) ++ zs → filter (λ a, a ≠ 0) zs = [] → slots cur d !! slot nb = Some 0 →
  (∀ bn, (bn < nb)%nat → cur' (faddr cur d bn) = cur (faddr cur d bn)) → cur' fb = zeros →
  grows cur' d' data (S nb) (fb + 1) ∧ extends cur d fb cur' d' (fb + 1).
Proof.
  intros [G1 G2 G3 [G4 G4'] G5 G6] Hok Hnb Hl Hfb Hs Hzs Hs0 Hc Hz. assert (fb ≠ 0) as Hfb0 by (rewrite nmeta_eq in Hfb; lia).
  pose proof (lookup_lt_Some _ _ _ Hs0) as Hlt.
  assert (footprint cur' d' ≡ₚ fb :: footprint cur d) as Hfp.
  { unfold footprint. rewrite Hs, list.filter_app, Hzs, app_nil_r. by apply filter_grow. }
  assert (∀ bn, (bn < 153)%nat → faddr cur' d' bn = if decide (bn = nb) then fb else faddr cur d bn) as Hfa.
  { intros bn Hbn. unfold faddr. rewrite Hs, !nth_lookup. case_decide as Hd.
    - subst. rewrite lookup_app_l by (by rewrite length_insert). by rewrite list_lookup_insert_eq.
    - assert (slot bn ≠ slot nb) by (unfold slot; repeat case_decide; lia).
      destruct (decide (slot bn < length (slots cur d))%nat) as [Hsl|Hsl].
      + rewrite lookup_app_l by (by rewrite length_insert). by rewrite list_lookup_insert_ne.
      + rewrite lookup_app_r by (rewrite length_insert; lia). rewrite (lookup_ge_None_2 (slots cur d)) by lia.
        destruct (zs !! (slot bn - length (<[slot nb := fb]> (slots cur d)))%nat) as [a|] eqn:Ha; [|done]. simpl.
        destruct (decide (a = 0)) as [|Hn]; [done|]. assert (a ∈ filter (λ a, a ≠ 0) zs) as Hin by (apply list_elem_of_filter; split; [done|by eapply list_elem_of_lookup_2]).
        rewrite Hzs in Hin. set_solver. }
  split; [|by apply extends_one]. split; [done| | |lia| |].
  - intros a. rewrite Hfp. intros [->|Ha]%elem_of_cons; [lia|]. specialize (G2 a Ha). lia.
  - rewrite Hfp. constructor; [|done]. intros Hin. specialize (G2 _ Hin). lia.
  - intros bn Hbn. rewrite Hfa by done. case_decide as Hd; [split; [lia|done]|]. rewrite G5 by done. lia.
  - intros k Hk. unfold fbyte. rewrite Hfa by lia. case_decide as Hd.
    + rewrite Hz, nth_zeros. symmetry. by eapply nth_beyond.
    + rewrite Hc by lia. apply G6. lia.
Qed.

Section grow.
Context cur d (data : list Z) (nb : nat) (fb : Z) (Hg : grows cur d data nb fb).
Lemma grows_len : length (di_addrs d) = 26%nat.
Proof. apply Hg. Qed.
Lemma grows_new : ∀ a, a ∈ footprint cur d → a ≠ fb.
Proof. intros a Ha. pose proof (gr_foot _ _ _ _ _ Hg a Ha). lia. Qed.
Lemma put_addr_ok k b : 0 ≤ b < 2 ^ 32 → dinode_ok (set_di_addrs (<[k := b]> (di_addrs d)) d).
Proof.
  intros Hb. destruct (gr_ok _ _ _ _ _ Hg) as [D1 D2 D3 D4 D5 D6 D7 D8 D9 D10].
  split; cbn; try done; [by rewrite length_insert|]. by apply Forall_insert.
Qed.

(** A new direct block. *)
Lemma grows_direct : (nb < 25)%nat → nmeta ≤ fb < 2 ^ 32 → cur fb = zeros → (length data ≤ 512 * nb)%nat →
  let d' := set_di_addrs (<[nb := fb]> (di_addrs d)) d in
  di_addrs d !! nb = Some 0 ∧ grows cur d' data (S nb) (fb + 1) ∧ extends cur d fb cur d' (fb + 1).
Proof.
  intros Hnb Hfb Hz Hl d'. pose proof grows_len as Hlen. assert (faddr cur d nb = 0) as Hf0.
  { destruct (decide (faddr cur d nb = 0)) as [|Hn]; [done|]. apply (gr_map _ _ _ _ _ Hg) in Hn; lia. }
  pose proof (faddr_direct cur d Hlen nb Hnb) as Ha. rewrite Hf0 in Ha. split; [done|]. assert (iaddr d' = iaddr d) as Hia.
  { unfold iaddr. cbn [d' set_di_addrs di_addrs]. rewrite !nth_lookup, list_lookup_insert_ne by lia. done. }
  eapply (grows_fill cur cur d d' data nb fb []); [done|apply put_addr_ok; rewrite nmeta_eq in Hfb; lia|lia|done|lia| |done| |done|done].
  - rewrite app_nil_r. unfold slots. rewrite Hia, slot_lt by done. rewrite insert_app_l by lia. done.
  - unfold slots. rewrite slot_lt, lookup_app_l by lia. done.
Qed.
(** The indirect block, when the direct ones are used up. *)
Lemma grows_indirect : (nb = 25)%nat → iaddr d = 0 → nmeta ≤ fb < 2 ^ 32 → cur fb = zeros →
  let d' := set_di_addrs (<[25%nat := fb]> (di_addrs d)) d in 
  iaddr d' = fb ∧ grows cur d' data nb (fb + 1) ∧ extends cur d fb cur d' (fb + 1).
Proof.
  intros Hnb Hi0 Hfb Hz d'. pose proof grows_len as Hlen. pose proof Hg as [G1 G2 G3 G4 G5 G6].
  assert (iaddr d' = fb) as Hia by (unfold iaddr; cbn [d' set_di_addrs di_addrs]; by rewrite nth_lookup, list_lookup_insert_eq by lia).
  assert (fb ≠ 0) as Hfb0 by (rewrite nmeta_eq in Hfb; lia).
  assert (slots cur d' = <[25%nat := fb]> (slots cur d) ++ replicate 128 0) as Hs.
  { unfold slots. rewrite Hia, Hi0, decide_False, decide_True, app_nil_r by done. f_equal. rewrite Hz. apply words_zeros. }
  assert (slots cur d !! 25%nat = Some 0) as Hs0 by (rewrite <- Hi0; by apply slots_iaddr).
  assert (footprint cur d' ≡ₚ fb :: footprint cur d) as Hfp.
  { unfold footprint. rewrite Hs, list.filter_app, filter_zeros, app_nil_r. by apply filter_grow. }
  assert (∀ bn, (bn < 153)%nat → faddr cur d' bn = faddr cur d bn) as Hfa.
  { intros bn Hbn. destruct (decide (bn < 25)%nat) as [Hlt|Hge].
    - assert (Some (faddr cur d' bn) = Some (faddr cur d bn)) as [= ->]; [|done].
      rewrite <- (faddr_direct cur d' ltac:(cbn; by rewrite length_insert) bn Hlt), <- (faddr_direct cur d Hlen bn Hlt).
      cbn [d' set_di_addrs di_addrs]. by rewrite list_lookup_insert_ne by lia.
    - rewrite (faddr_no_indirect cur d Hlen bn) by (lia || done). rewrite (faddr_indirect cur d') by (rewrite ?Hia; done || lia || (cbn; by rewrite length_insert)).
      rewrite Hia, Hz, words_zeros. rewrite nth_lookup. by destruct (replicate 128 0 !! (bn - 25)%nat) as [a|] eqn:Ha; [apply lookup_replicate in Ha as [-> _]|]. }
  split; [done|]. split; [|by apply extends_one]. split; [apply put_addr_ok; rewrite nmeta_eq in Hfb; lia| | |done| |].
  - intros a. rewrite Hfp. intros [->|Ha]%elem_of_cons; [lia|]. specialize (G2 a Ha). lia.
  - rewrite Hfp. constructor; [|done]. intros Hin. by eapply grows_new.
  - intros bn Hbn. rewrite Hfa by done. by apply G5.
  - intros k Hk. unfold fbyte. rewrite Hfa by lia. by apply G6.
Qed.
(** A new block, entered in the indirect block. *)
Lemma grows_word y : (25 ≤ nb < 153)%nat → iaddr d ≠ 0 → nmeta ≤ fb → cur fb = zeros → (length data ≤ 512 * nb)%nat →
  words y = <[(nb - 25)%nat := fb]> (words (cur (iaddr d))) → iaddr d < fb ∧ nth (nb - 25) (words (cur (iaddr d))) 0 = 0 ∧
  let cur' : Z → block := <[iaddr d := y]> cur in
  grows cur' d data (S nb) (fb + 1) ∧ extends cur d fb cur' d (fb + 1).
Proof.
  intros Hnb Hi Hfb Hz Hl Hy. pose proof grows_len as Hlen. pose proof Hg as [G1 G2 G3 G4 G5 G6].
  pose proof (G2 _ (iaddr_footprint cur d Hlen Hi)) as Hir. split; [lia|]. assert (faddr cur d nb = 0) as Hf0.
  { destruct (decide (faddr cur d nb = 0)) as [|Hn]; [done|]. apply G5 in Hn; lia. }
  pose proof Hf0 as Hw. rewrite faddr_indirect in Hw by (done || lia). split; [done|]. intros cur'.
  assert (cur' (iaddr d) = y) as Hci by apply fn_lookup_insert.
  eapply (grows_fill cur cur' d d data nb fb []); [done|done|lia|done|done| |done| | |].
  - rewrite app_nil_r. unfold slots. rewrite !decide_False by done. rewrite Hci, Hy, slot_ge by lia.
    rewrite insert_app_r_alt by lia. do 2 f_equal. lia.
  - unfold slots. rewrite decide_False, slot_ge, lookup_app_r by (done || lia). rewrite Hlen.
    replace (S nb - 26)%nat with (nb - 25)%nat by lia.
    destruct (lookup_lt_is_Some_2 (words (cur (iaddr d))) (nb - 25)) as [w Hw']; [rewrite length_words'; lia|].
    rewrite Hw'. rewrite nth_lookup, Hw' in Hw. by simplify_eq/=.
  - intros bn Hbn. apply fn_lookup_insert_ne. intros He. assert (faddr cur d bn ≠ 0) as Hn by (apply G5; lia).
    by apply (faddr_not_iaddr cur d Hlen bn G3 Hn).
  - unfold cur'. rewrite fn_lookup_insert_ne by lia. done.
Qed.
(** Bytes appended in the last block. *)
Lemma grows_write (src : list Z) : let bn := (length data / 512)%nat in
  let a := faddr cur d bn in let cur' : Z → block := <[a := splice (cur a) (length data mod 512) src]> cur in
  (bn < nb)%nat → is_block (cur a) → (length data mod 512 + length src ≤ 512)%nat →
  grows cur' d (data ++ src) nb fb ∧ extends cur d fb cur' d fb.
Proof.
  intros bn a cur' Hbn Hb Hl. pose proof grows_len as Hlen. pose proof Hg as [G1 G2 G3 [G4 G4'] G5 G6].
  assert (a ≠ 0) as Ha by (apply G5; lia). pose proof (faddr_not_iaddr cur d Hlen bn G3 Ha) as Hai. fold a in Hai.
  assert (slots cur' d = slots cur d) as Hs.
  { unfold slots. case_decide; [done|]. unfold cur'. by rewrite fn_lookup_insert_ne. }
  assert (∀ k, faddr cur' d k = faddr cur d k) as Hf by (intros k; unfold faddr; by rewrite Hs).
  assert (footprint cur' d = footprint cur d) as Hfp by (unfold footprint; by rewrite Hs).
  pose proof (Nat.div_mod_eq (length data) 512) as Hdm. fold bn in Hdm.
  split; [|intros a'; rewrite Hfp; split; [by left|intros [?|?]; [done|lia]]]. split; [done|by rewrite Hfp|by rewrite Hfp| | |].
  - rewrite length_app. split; [done|]. assert (512 * bn + 512 ≤ 512 * nb)%nat by lia. lia.
  - intros k Hk. rewrite Hf. by apply G5.
  - intros k Hk. unfold fbyte. rewrite Hf. pose proof (Nat.div_mod_eq k 512) as Hkm. pose proof (Nat.mod_upper_bound k 512).
    destruct (decide (k / 512 = bn)%nat) as [He|He].
    + rewrite He. fold a. unfold cur'. rewrite fn_lookup_insert. unfold is_block, BSIZE in Hb.
      rewrite nth_splice by lia. specialize (G6 k Hk). unfold fbyte in G6. rewrite He in G6. fold a in G6.
      case_decide as Hd; [rewrite app_nth2 by lia; f_equal; lia|].
      rewrite G6. destruct (decide (k < length data)%nat); [by rewrite app_nth1|]. rewrite !nth_overflow; [done|rewrite length_app; lia|lia].
    + assert (faddr cur d (k / 512) ≠ 0) as Hn by (apply G5; lia).
      unfold cur'. rewrite fn_lookup_insert_ne by (intros Heq; apply He; symmetry; by eapply faddr_inj).
      unfold fbyte in G6. rewrite (G6 k Hk).
      destruct (decide (k < length data)%nat); [by rewrite app_nth1|].
      rewrite !nth_overflow; [done| |lia]. rewrite length_app.
      assert (bn < k / 512)%nat; [|lia]. assert (bn ≤ k / 512)%nat by (apply Nat.Div0.div_le_mono; lia). lia.
Qed.
End grow.

(** ** Sectors and inodes *)
Lemma sb_eq : sb = mksb 2000 1916 200 30 2 32 83.
Proof. reflexivity. Qed.
Lemma xint_small z : 0 ≤ z < 2 ^ 32 → xint z = z.
Proof. intros Hz. unfold xint. rewrite le_combine_split. by apply word_small. Qed.

(** The image as the kernel sees it. *)
Definition super_sector : block := splice zeroes 0 (sb_bytes sb).
Definition image_view cur : tview := mktview FSSIZE (sb_logstart sb) (sb_logstart sb + sb_nlog sb) cur [] ∅ 0 ∅.
Lemma image_layout cur : cur 1 = super_sector → layout sb (image_view cur).
Proof.
  intros H1. split; [done|done|split; done|done|done|done|done|]. cbn [image_view t_cur]. rewrite H1. vm_compute. reflexivity.
Qed.
Lemma inode_block inum : inum_ok sb inum → 32 ≤ IBLOCK inum sb < 83.
Proof. intros Hi. by destruct (IBLOCK_range sb _ (image_layout (λ _, super_sector) eq_refl) inum Hi) as [_ H]. Qed.

(** The image has all its sectors, with the contents [cur]. *)
Record im_ok (s : image) cur (fi fb : Z) : Prop := mkio {
  io_len : length (im_img s) = 2000%nat;
  io_cur : ∀ n, 0 ≤ n < FSSIZE → im_img s !! Z.to_nat n = Some (cur n) ∧ is_block (cur n);
  io_fi : im_freeinode s = fi;
  io_fb : im_freeblock s = fb
}.
Lemma sector_small n : 0 ≤ n < FSSIZE → Img.sector n = Z.to_nat n.
Proof.
  intros Hn. unfold Img.sector. change BSIZE with 512. unfold FSSIZE in Hn. rewrite u32_small by lia. by rewrite Z.div_mul.
Qed.

Section img.
Context (E : string → Prop).
Lemma wp_rsect n s cur fi fb Q : im_ok s cur fi fb → 0 ≤ n < FSSIZE → (is_block (cur n) → Q (cur n) s) → wp E (Img.rsect n) Q s.
Proof.
  intros Hs Hn HQ. destruct (io_cur _ _ _ _ Hs n Hn) as [Hl Hb]. unfold Img.rsect. apply wp_bind, wp_gets.
  rewrite sector_small, Hl by done. apply wp_ret. by apply HQ.
Qed.
Lemma wp_wsect n (y : block) s cur fi fb Q : im_ok s cur fi fb → 0 ≤ n < FSSIZE → is_block y →
  (∀ s', im_ok s' (<[n := y]> cur) fi fb → Q tt s') → wp E (Img.wsect n y) Q s.
Proof.
  intros [S1 S2 S3 S4] Hn Hy HQ. unfold Img.wsect. apply wp_modS, HQ. rewrite sector_small by done.
  assert (Z.to_nat n < 2000)%nat by (unfold FSSIZE in Hn; lia).
  unfold put_sector. rewrite decide_True by lia. split; cbn; [by rewrite length_insert| |done|done].
  intros m Hm. destruct (decide (m = n)) as [->|Hne].
  - rewrite list_lookup_insert_eq by lia. by rewrite fn_lookup_insert.
  - rewrite list_lookup_insert_ne by lia. rewrite fn_lookup_insert_ne by done. by apply S2.
Qed.
Lemma wp_next_block s cur fi fb Q : im_ok s cur fi fb → 0 ≤ fb < FSSIZE →
  (∀ s', im_ok s' cur fi (fb + 1) → Q fb s') → wp E Img.next_block Q s.
Proof.
  intros [S1 S2 S3 S4] Hfb HQ. unfold Img.next_block. apply wp_bind, wp_gets. rewrite S4. apply wp_bind, wp_modS, wp_ret, HQ.
  unfold FSSIZE in Hfb. rewrite u32_small by lia. by split.
Qed.
Lemma wp_rinode inum d s cur fi fb Q : im_ok s cur fi fb → inum_ok sb inum → disk_inode sb cur inum = Some d →
  Q d s → wp E (Img.rinode inum) Q s.
Proof.
  intros Hs Hi Hd HQ. pose proof (inode_block _ Hi). unfold Img.rinode. apply wp_bind.
  eapply wp_rsect; [exact Hs|unfold FSSIZE; lia|]. intros _. eapply wp_of_opt; [exact Hd|done].
Qed.
Lemma wp_winode inum d s cur fi fb Q : im_ok s cur fi fb → inum_ok sb inum → dinode_ok d →
  (∀ s' cur', im_ok s' cur' fi fb → (∀ n, n ≠ IBLOCK inum sb → cur' n = cur n) →
    (∀ i, inum_ok sb i → disk_inode sb cur' i = if decide (i = inum) then Some d else disk_inode sb cur i) → Q tt s') →
  wp E (Img.winode inum d) Q s.
Proof.
  intros Hs Hi Hd HQ. pose proof (inode_block _ Hi) as Hib. unfold Img.winode. apply wp_bind.
  eapply wp_rsect; [exact Hs|unfold FSSIZE; lia|]. intros Hb.
  destruct (put_dinode (cur (IBLOCK inum sb)) (Z.to_nat (128 * (inum mod IPB))) d) as [y|] eqn:Hy.
  2:{ unfold put_dinode in Hy. rewrite decide_True in Hy; [done|].
      unfold is_block, BSIZE in Hb. pose proof (inode_off inum). lia. }
  apply wp_bind. eapply wp_of_opt; [done|].
  eapply wp_wsect; [exact Hs|unfold FSSIZE; lia|eapply put_dinode_block; [exact Hb|apply Hd|exact Hy]|].
  intros s' Hs'. eapply HQ; [exact Hs'| |].
  - intros n Hn. by rewrite fn_lookup_insert_ne.
  - by eapply (disk_inode_put sb _ _ _ _ _ (image_layout (λ _, super_sector) eq_refl)).
Qed.
End img.

(** ** The blocks of one file *)
(** Blocks a file of [nb] blocks takes, the indirect one included. *)
Definition need (nb : nat) : Z := if decide (nb ≤ 25)%nat then Z.of_nat nb else Z.of_nat nb + 1.
Definition tight d (nb : nat) : Prop := iaddr d = 0 ↔ (nb ≤ 25)%nat.
(** Only blocks of the file have changed, and the new ones are [fb] .. [fb' - 1]. *)
Record adv cur d (nb : nat) (fb : Z) (cur' : Z → block) (d' : dinode) (nb' : nat) (fb' : Z) : Prop := mkadv {
  ad_meta : d' = set_di_addrs (di_addrs d') d;
  ad_ext : extends cur d fb cur' d' fb';
  ad_frame : ∀ n, n ∉ footprint cur' d' → cur' n = cur n;
  ad_nb : (nb ≤ nb')%nat;
  ad_need : fb' = fb + need nb' - need nb;
  ad_tight : tight d' nb'
}.
Lemma need_mono a b : (a ≤ b)%nat → need a ≤ need b.
Proof. unfold need. repeat case_decide; lia. Qed.
Lemma adv_le cur d nb fb cur' d' nb' fb' : adv cur d nb fb cur' d' nb' fb' → fb ≤ fb'.
Proof. intros [_ _ _ A4 A5 _]. pose proof (need_mono _ _ A4). lia. Qed.
Lemma adv_trans cur d nb fb cur1 d1 nb1 fb1 cur2 d2 nb2 fb2 :
  adv cur d nb fb cur1 d1 nb1 fb1 → adv cur1 d1 nb1 fb1 cur2 d2 nb2 fb2 → adv cur d nb fb cur2 d2 nb2 fb2.
Proof.
  intros HA HB. pose proof (adv_le _ _ _ _ _ _ _ _ HA). pose proof (adv_le _ _ _ _ _ _ _ _ HB).
  destruct HA as [A1 A2 A3 A4 A5 A6], HB as [B1 B2 B3 B4 B5 B6]. split; [|by eapply extends_trans| |lia|lia|done].
  - rewrite B1, A1. by destruct d.
  - intros n Hn. rewrite B3 by done. apply A3. intros Hin. apply Hn, B2. by left.
Qed.
Lemma adv_refl cur d nb fb : tight d nb → adv cur d nb fb cur d nb fb.
Proof. intros Ht. split; [by destruct d| |done|done|lia|done]. intros a. split; [by left|]. intros [?|?]; [done|lia]. Qed.

Section file.
Context (E : string → Prop).
Section one.
Context (s : image) cur d (data : list Z) (nb : nat) (fi fb : Z).
Context (Hs : im_ok s cur fi fb) (Hg : grows cur d data nb fb) (Ht : tight d nb) (Hfb : nmeta ≤ fb ≤ FSSIZE).

Lemma foot_small a : a ∈ footprint cur d → 0 ≤ a < FSSIZE ∧ 0 ≤ a < 2 ^ 32 ∧ a ≠ 0 ∧ a ≠ fb.
Proof. intros Ha. pose proof (gr_foot _ _ _ _ _ Hg a Ha) as Hr. rewrite nmeta_eq in *. unfold FSSIZE in *. lia. Qed.

(** A block that is there already. *)
Lemma wp_map_old bn Q : (bn < nb)%nat → Q (d, faddr cur d bn) s → wp E (Img.map_block d (Z.of_nat bn)) Q s.
Proof.
  intros Hbn HQ. pose proof (grows_len _ _ _ _ _ Hg) as Hlen. pose proof (gr_blocks _ _ _ _ _ Hg) as [Hnb _].
  assert (faddr cur d bn ≠ 0) as Hn by (apply (gr_map _ _ _ _ _ Hg); lia).
  destruct (foot_small _ (faddr_footprint _ _ _ Hn)) as (Ha & Ha' & _). unfold Img.map_block. change NDIRECT with 25.
  case_decide as Hd.
  - rewrite Nat2Z.id. pose proof (faddr_direct cur d Hlen bn ltac:(lia)) as Hl. unfold Img.fresh_addr.
    apply wp_bind, wp_bind. eapply wp_of_opt; [exact Hl|]. rewrite xint_small, decide_False by done. apply wp_ret.
    apply wp_bind. eapply wp_of_opt; [exact Hl|]. apply wp_ret. by rewrite xint_small.
  - change (Z.to_nat 25) with 25%nat. pose proof (addrs_iaddr d Hlen) as Hl.
    assert (iaddr d ≠ 0) as Hi by (intros Hi; apply Hn, faddr_no_indirect; (done || lia)).
    destruct (foot_small _ (iaddr_footprint cur d Hlen Hi)) as (Hi1 & Hi2 & _). unfold Img.fresh_addr.
    apply wp_bind, wp_bind. eapply wp_of_opt; [exact Hl|]. rewrite xint_small, decide_False by done. apply wp_ret.
    apply wp_bind. eapply wp_of_opt; [exact Hl|]. apply wp_bind. unfold Img.map_word. rewrite xint_small by done. apply wp_bind.
    eapply wp_rsect; [exact Hs|done|]. intros Hb. apply wp_bind.
    replace (Z.to_nat (Z.of_nat bn - 25)) with (bn - 25)%nat by lia.
    pose proof (get_word_words _ (bn - 25) Hb ltac:(lia)) as Hw. rewrite <- faddr_indirect in Hw by (done || lia).
    eapply wp_of_opt; [exact Hw|]. rewrite decide_False by done. apply wp_bind, wp_ret, wp_bind.
    eapply wp_of_opt; [exact Hw|]. apply wp_ret, wp_ret. by rewrite xint_small.
Qed.
(** A new entry of the indirect block. *)
Lemma wp_map_word_new Q : (25 ≤ nb < 153)%nat → iaddr d ≠ 0 → fb < FSSIZE → cur fb = zeros →
  (∀ s' cur', im_ok s' cur' fi (fb + 1) → grows cur' d data (S nb) (fb + 1) → extends cur d fb cur' d (fb + 1) →
    (∀ n, n ≠ iaddr d → cur' n = cur n) → Q (faddr cur' d nb) s') →
  wp E (Img.map_word (iaddr d) (nb - 25)) Q s.
Proof.
  intros Hnb Hi Hlt Hz HQ. pose proof (grows_len _ _ _ _ _ Hg) as Hlen. pose proof (gr_blocks _ _ _ _ _ Hg) as [_ Hl].
  destruct (foot_small _ (iaddr_footprint cur d Hlen Hi)) as (Hi1 & Hi2 & _ & Hif). assert (0 ≤ fb < 2 ^ 32) as Hf32 by (unfold FSSIZE in *; rewrite nmeta_eq in Hfb; lia).
  unfold Img.map_word. apply wp_bind. eapply wp_rsect; [exact Hs|done|]. intros Hb.
  destruct (words_put (cur (iaddr d)) (nb - 25) fb Hb ltac:(lia) Hf32) as (y & Hy & Hyb & Hyw).
  destruct (grows_word _ _ _ _ _ Hg y Hnb Hi ltac:(lia) Hz Hl Hyw) as (_ & Hw0 & Hg' & He').
  apply wp_bind. eapply wp_of_opt; [by apply get_word_words; [|lia]|]. rewrite Hw0, decide_True by done.
  apply wp_bind, wp_bind. eapply wp_next_block; [exact Hs|rewrite nmeta_eq in Hfb; lia|]. intros s1 Hs1.
  apply wp_bind. rewrite xint_small by done. eapply wp_of_opt; [exact Hy|]. apply wp_bind.
  eapply wp_wsect; [exact Hs1|done|done|]. intros s2 Hs2. apply wp_ret, wp_bind.
  assert (faddr (<[iaddr d := (y : block)]> cur) d nb = fb) as Hfa.
  { rewrite faddr_indirect by (done || lia). rewrite fn_lookup_insert, Hyw, nth_lookup, list_lookup_insert_eq by (rewrite length_words'; lia). done. }
  eapply wp_of_opt; [by apply get_word_words; [|lia]|]. apply wp_ret.
  rewrite Hyw, nth_lookup, list_lookup_insert_eq by (rewrite length_words'; lia). cbn [from_option default]. unfold id.
  rewrite xint_small by done. rewrite <- Hfa. eapply HQ; [exact Hs2|exact Hg'|exact He'|]. intros n Hn. by rewrite fn_lookup_insert_ne.
Qed.
End one.

Section next.
Context (s : image) cur d (data : list Z) (nb : nat) (fi fb : Z).
Context (Hs : im_ok s cur fi fb) (Hg : grows cur d data nb fb) (Ht : tight d nb) (Hfb : nmeta ≤ fb ≤ FSSIZE).
(** The next block of the file. *)
Lemma wp_map_new Q : (nb < 153)%nat → fb + need (S nb) - need nb ≤ FSSIZE → (∀ n, fb ≤ n < FSSIZE → cur n = zeros) →
  (∀ s' cur' d' fb', im_ok s' cur' fi fb' → grows cur' d' data (S nb) fb' → adv cur d nb fb cur' d' (S nb) fb' →
    Q (d', faddr cur' d' nb) s') →
  wp E (Img.map_block d (Z.of_nat nb)) Q s.
Proof.
  intros Hnb Hroom Hz HQ. pose proof (grows_len _ _ _ _ _ Hg) as Hlen. pose proof (gr_blocks _ _ _ _ _ Hg) as [_ Hl].
  assert (fb < FSSIZE) as Hlt by (revert Hroom; unfold need; repeat case_decide; lia).
  assert (nmeta ≤ fb < 2 ^ 32) as Hf32 by (unfold FSSIZE in *; lia). pose proof Hf32 as Hf32'. rewrite nmeta_eq in Hf32'.
  unfold Img.map_block, Img.fresh_addr. change NDIRECT with 25. case_decide as Hd.
  - rewrite Nat2Z.id. destruct (grows_direct _ _ _ _ _ Hg ltac:(lia) Hf32 (Hz fb ltac:(lia)) Hl) as (Ha & Hg' & He').
    apply wp_bind, wp_bind. eapply wp_of_opt; [exact Ha|]. change (xint 0) with 0. rewrite decide_True by done. apply wp_bind.
    eapply wp_next_block; [exact Hs|lia|]. intros s1 Hs1. apply wp_ret. rewrite xint_small by lia.
    set (d' := set_di_addrs _ d) in *. apply wp_bind.
    assert (faddr cur d' nb = fb) as Hfa.
    { assert (Some (faddr cur d' nb) = Some fb) as [= ?]; [|done].
      rewrite <- (faddr_direct cur d') by ((cbn; by rewrite length_insert) || lia). cbn. apply list_lookup_insert_eq. lia. }
    eapply wp_of_opt; [cbn; apply list_lookup_insert_eq; lia|]. apply wp_ret. rewrite xint_small by lia. rewrite <- Hfa.
    eapply HQ; [exact Hs1|exact Hg'|]. split; [done|exact He'|done|lia| |].
    + unfold need. rewrite !decide_True by lia. lia.
    + unfold tight, iaddr. cbn [d' set_di_addrs di_addrs]. rewrite nth_lookup, list_lookup_insert_ne, <- nth_lookup by lia.
      fold (iaddr d). unfold tight in Ht. lia.
  - change (Z.to_nat 25) with 25%nat. replace (Z.to_nat (Z.of_nat nb - 25)) with (nb - 25)%nat by lia.
    pose proof (addrs_iaddr d Hlen) as Hl'. apply wp_bind, wp_bind. eapply wp_of_opt; [exact Hl'|]. destruct (decide (nb = 25%nat)) as [H25|H25].
    + assert (iaddr d = 0) as Hi0 by (apply Ht; lia). rewrite Hi0. change (xint 0) with 0. rewrite decide_True by done. apply wp_bind.
      eapply wp_next_block; [exact Hs|lia|]. intros s1 Hs1. apply wp_ret. rewrite xint_small by lia.
      destruct (grows_indirect _ _ _ _ _ Hg H25 Hi0 Hf32 (Hz fb ltac:(lia))) as (Hi' & Hg' & He'). set (d' := set_di_addrs _ d) in *.
      apply wp_bind. eapply wp_of_opt; [cbn; apply list_lookup_insert_eq; lia|]. rewrite xint_small by lia. apply wp_bind.
      assert (fb + 1 < FSSIZE) by (revert Hroom; unfold need; rewrite decide_False, decide_True by lia; lia).
      rewrite <- Hi'. eapply (wp_map_word_new s1 cur d' data nb fi (fb + 1)); [done|done|lia|lia|rewrite Hi'; lia|lia|apply Hz; lia|].
      intros s2 cur2 Hs2 Hg2 He2 Hfr. apply wp_ret. eapply HQ; [exact Hs2|exact Hg2|]. split; [done| |  |lia| |].
      * eapply extends_trans; [|exact He'|exact He2]. lia.
      * intros n Hn. apply Hfr. intros ->. apply Hn, iaddr_footprint; [apply Hg2|lia].
      * unfold need. rewrite decide_False, decide_True by lia. lia.
      * unfold tight. lia.
    + assert (iaddr d ≠ 0) as Hi by (intros Hi; apply Ht in Hi; lia).
      destruct (foot_small _ _ _ _ _ Hg Hfb _ (iaddr_footprint cur d Hlen Hi)) as (Hi1 & Hi2 & _). rewrite xint_small, decide_False by done. apply wp_ret.
      apply wp_bind. eapply wp_of_opt; [exact Hl'|]. rewrite xint_small by done. apply wp_bind.
      eapply wp_map_word_new; [exact Hs|exact Hg|done|lia|done|done|apply Hz; lia|].
      intros s2 cur2 Hs2 Hg2 He2 Hfr. apply wp_ret. eapply HQ; [exact Hs2|exact Hg2|]. split; [by destruct d|done| |lia| |].
      * intros n Hn. apply Hfr. intros ->. by apply Hn, iaddr_footprint.
      * unfold need. rewrite !decide_False by lia. lia.
      * unfold tight. lia.
Qed.
End next.

(** ** iappend *)
(** The blocks of a file of [n] bytes. *)
Definition blocks (n : nat) : nat := ((n + 511) / 512)%nat.
Lemma blocks_cases n : (blocks n = n / 512 ∧ n mod 512 = 0 ∨ blocks n = S (n / 512) ∧ 0 < n mod 512)%nat.
Proof.
  unfold blocks. pose proof (Nat.div_mod_eq n 512) as Hd. pose proof (Nat.mod_upper_bound n 512).
  destruct (decide (n mod 512 = 0)%nat) as [Hz|Hz]; [left|right]; (split; [|lia]).
  - symmetry. apply (Nat.div_unique _ _ _ 511); lia.
  - symmetry. apply (Nat.div_unique _ _ _ (n mod 512 - 1)); lia.
Qed.
Lemma blocks_step n m : (0 < m)%nat → (n mod 512 + m ≤ 512)%nat → blocks (n + m) = S (n / 512).
Proof.
  intros Hm Hl. unfold blocks. pose proof (Nat.div_mod_eq n 512). symmetry. apply (Nat.div_unique _ _ _ (n mod 512 + m - 1)); lia.
Qed.
Lemma blocks_mono n m : (n ≤ m)%nat → (blocks n ≤ blocks m)%nat.
Proof. intros Hle. apply Nat.Div0.div_le_mono. lia. Qed.
Lemma blocks_max n : (n ≤ 153 * 512)%nat → (blocks n ≤ 153)%nat.
Proof. intros Hn. apply blocks_mono in Hn. by change (blocks (153 * 512)) with 153%nat in Hn. Qed.

(** The block the next byte of the file is in. *)
Lemma wp_last_block s cur d data fi fb Q : let nb := blocks (length data) in let bn := (length data / 512)%nat in
  im_ok s cur fi fb → grows cur d data nb fb → tight d nb → nmeta ≤ fb → fb + need (S bn) - need nb ≤ FSSIZE →
  (bn < 153)%nat → (∀ n, fb ≤ n < FSSIZE → cur n = zeros) →
  (∀ s' cur' d' fb', im_ok s' cur' fi fb' → grows cur' d' data (S bn) fb' → adv cur d nb fb cur' d' (S bn) fb' →
    Q (d', faddr cur' d' bn) s') →
  wp E (Img.map_block d (Z.of_nat bn)) Q s.
Proof.
  intros nb bn Hs Hg Ht Hfb Hroom Hbn Hz HQ. destruct (blocks_cases (length data)) as [[Hb Hm]|[Hb Hm]]; fold nb bn in Hb.
  - rewrite <- Hb in *. eapply wp_map_new; [exact Hs|exact Hg|exact Ht| |done|done|done|exact HQ].
    split; [done|]. pose proof (need_mono nb (S nb) ltac:(lia)). lia.
  - rewrite <- Hb in *. eapply wp_map_old; [exact Hs|exact Hg|lia|lia|]. eapply HQ; [exact Hs|exact Hg|]. by apply adv_refl.
Qed.
Lemma adv_zeros cur d nb fb cur' d' data nb' fb' : adv cur d nb fb cur' d' nb' fb' → grows cur' d' data nb' fb' →
  (∀ n, fb ≤ n < FSSIZE → cur n = zeros) → ∀ n, fb' ≤ n < FSSIZE → cur' n = zeros.
Proof.
  intros Ha Hg Hz n Hn. pose proof (adv_le _ _ _ _ _ _ _ _ Ha). rewrite (ad_frame _ _ _ _ _ _ _ _ Ha); [apply Hz; lia|].
  intros Hin. pose proof (gr_foot _ _ _ _ _ Hg _ Hin). lia.
Qed.
Lemma adv_write cur d data nb fb src : let bn := (length data / 512)%nat in let a := faddr cur d bn in
  let cur' : Z → block := <[a := splice (cur a) (length data mod 512) src]> cur in
  grows cur d data nb fb → tight d nb → (bn < nb)%nat → is_block (cur a) → (length data mod 512 + length src ≤ 512)%nat →
  grows cur' d (data ++ src) nb fb ∧ adv cur d nb fb cur' d nb fb.
Proof.
  intros bn a cur' Hg Ht Hbn Hb Hl. destruct (grows_write _ _ _ _ _ Hg src Hbn Hb Hl) as [Hg' He]. split; [exact Hg'|].
  split; [by destruct d|exact He| |done|lia|done]. intros n Hn. unfold cur'. apply fn_lookup_insert_ne. intros <-. apply Hn, He. left.
  apply faddr_footprint. destruct (gr_blocks _ _ _ _ _ Hg). apply (gr_map _ _ _ _ _ Hg); lia.
Qed.

Lemma wp_iappend_loop fuel s cur d data p fi fb Q : let nb := blocks (length data) in let nb' := blocks (length (data ++ p)) in
  im_ok s cur fi fb → grows cur d data nb fb → tight d nb → nmeta ≤ fb → fb + need nb' - need nb ≤ FSSIZE →
  (length (data ++ p) ≤ 153 * 512)%nat → (∀ n, fb ≤ n < FSSIZE → cur n = zeros) → (p = [] ∨ length data mod 512 + length p ≤ 512 * fuel)%nat →
  (∀ s' cur' d' fb', im_ok s' cur' fi fb' → grows cur' d' (data ++ p) nb' fb' → adv cur d nb fb cur' d' nb' fb' →
    Q (d', Z.of_nat (length (data ++ p))) s') →
  wp E (Img.iappend_loop (S fuel) d (Z.of_nat (length data)) p) Q s.
Proof.
  revert s cur d data p fb. induction fuel as [|fuel IH]; intros s cur d data p fb nb nb' Hs Hg Ht Hfb Hroom Hmax Hz Hfuel HQ.
  all: cbn [Img.iappend_loop]; case_decide as Hp.
  { destruct Hfuel as [->|Hfuel]; cbn [length] in Hp; lia. }
  1,3: apply wp_ret; destruct p; [|cbn [length] in Hp; lia]; unfold nb' in *; rewrite app_nil_r in *;
    eapply HQ; [exact Hs|exact Hg|by apply adv_refl].
  rewrite length_app in Hmax. set (bn := (length data / 512)%nat). pose proof (Nat.div_mod_eq (length data) 512) as Hdm. fold bn in Hdm.
  pose proof (Nat.mod_upper_bound (length data) 512 ltac:(lia)) as Hub.
  change BSIZE with 512. change MAXFILE with 153. replace (Z.of_nat (length data) / 512) with (Z.of_nat bn) by (unfold bn; by rewrite Nat2Z.inj_div).
  rewrite decide_True by lia.
  set (n1 := Nat.min (length p) (512 - length data mod 512)).
  replace (Z.min _ _) with (Z.of_nat n1) by lia. rewrite Nat2Z.id.
  replace (Z.to_nat (Z.of_nat (length data) - Z.of_nat bn * 512)) with (length data mod 512)%nat by lia.
  assert (length (take n1 p) = n1) as Hn1 by (rewrite length_take; lia).
  assert (blocks (length (data ++ take n1 p)) = S bn) as Hb1 by (rewrite length_app, Hn1; apply blocks_step; lia).
  assert (S bn ≤ nb')%nat as Hle by (rewrite <- Hb1; apply blocks_mono; rewrite !length_app; lia).
  apply wp_bind. eapply (wp_last_block s cur d data fi fb); [done|done|done|done| |lia|done|].
  { fold bn nb. pose proof (need_mono _ _ Hle). lia. }
  fold bn nb. intros s1 cur1 d1 fb1 Hs1 Hg1 Ha1. apply wp_bind. set (a := faddr cur1 d1 bn).
  pose proof (adv_le _ _ _ _ _ _ _ _ Ha1) as Hle1. pose proof (ad_need _ _ _ _ _ _ _ _ Ha1) as Hneed1. pose proof (need_mono _ _ Hle) as Hnm.
  assert (0 ≤ a < FSSIZE) as Har.
  { assert (a ≠ 0) as Hn by (apply (gr_map _ _ _ _ _ Hg1); lia).
    eapply (foot_small _ _ _ _ _ Hg1); [lia|by apply faddr_footprint]. }
  eapply wp_rsect; [exact Hs1|exact Har|]. intros Hblk. apply wp_bind.
  destruct (adv_write _ _ _ _ _ (take n1 p) Hg1 (ad_tight _ _ _ _ _ _ _ _ Ha1) ltac:(fold bn; lia) Hblk ltac:(lia)) as [Hg2 Ha2].
  fold bn in Hg2, Ha2. fold a in Hg2, Ha2. pose proof (adv_trans _ _ _ _ _ _ _ _ _ _ _ _ Ha1 Ha2) as Ha12.
  eapply wp_wsect; [exact Hs1|exact Har| |].
  { unfold is_block, BSIZE in *. rewrite length_splice; lia. }
  intros s2 Hs2. replace (u32 (Z.of_nat (length data) + Z.of_nat n1)) with (Z.of_nat (length (data ++ take n1 p)))
    by (rewrite length_app, Hn1, u32_small; lia).
  assert ((data ++ take n1 p) ++ drop n1 p = data ++ p) as Happ by (by rewrite <- app_assoc, take_drop).
  eapply IH; rewrite ?Hb1, ?Happ; [exact Hs2|exact Hg2|exact (ad_tight _ _ _ _ _ _ _ _ Ha12)|lia|fold nb'; lia|rewrite length_app; lia| | |].
  - exact (adv_zeros _ _ _ _ _ _ _ _ _ Ha12 Hg2 Hz).
  - destruct (decide (length p ≤ 512 - length data mod 512)%nat); [left|right].
    + apply drop_ge. lia.
    + rewrite length_app, Hn1, length_drop. destruct Hfuel as [->|Hfuel]; [cbn [length] in Hp; lia|]. replace (length data + n1)%nat with ((bn + 1) * 512)%nat by lia. rewrite Nat.Div0.mod_mul. lia.
  - intros s' cur' d' fb' Hs' Hg' Ha'. eapply HQ; [exact Hs'|exact Hg'|]. by eapply adv_trans.
Qed.
End file.
