(* ===== verification/MkfsInv.v ===== *)
(** * mkfs: the files of the image *)

From S2P Require Import Prelude CString Words ProcData Sync Block Log Tx Fs FsBlocks FsInode FsFile FsRw Mkfs MkfsFile.
Local Open Scope Z_scope.
Implicit Types (x y : list Z) (cur : Z → block) (d : dinode) (F : list (Z * list Z)) (G : list dinode).

(** ** The blocks in use: the metadata and those of the files, given by type and
    contents *)
Definition fneed (f : Z * list Z) : Z := need (blocks (length f.2)).
Definition total F : Z := foldr (λ f z, fneed f + z) nmeta F.
Lemma need_pos nb : 0 ≤ need nb.
Proof. unfold need. case_decide; lia. Qed.
Lemma total_insert F k f g : F !! k = Some f → total (<[k := g]> F) = total F - fneed f + fneed g.
Proof.
  revert k. induction F as [|f' F IH]; intros [|k] Hk; simplify_eq/=; [lia|]. rewrite IH by done. lia.
Qed.
Lemma total_snoc F g : total (F ++ [g]) = total F + fneed g.
Proof. induction F as [|f F IH]; simpl; lia. Qed.
Lemma total_ge F : nmeta ≤ total F.
Proof. induction F as [|f F IH]; simpl; [lia|]. pose proof (need_pos (blocks (length f.2))). unfold fneed. lia. Qed.

(** What mkfs writes in an inode. *)
Record inode_of d (f : Z * list Z) : Prop := mkino {
  ino_type : di_type d = f.1;
  ino_nlink : di_nlink d = 1;
  ino_owner : di_uid d = DEFAULT_UID ∧ di_gid d = DEFAULT_GID ∧ di_mode d = DEFAULT_MODE;
  ino_size : di_size d = Z.of_nat (length f.2)
}.
(** Inode k + 1 is [G !! k]; it holds the file [F !! k]. *)
Record built cur (fi fb : Z) F G : Prop := mkbu {
  bu_super : cur 1 = super_sector;
  bu_fi : fi = Z.of_nat (length F) + 1 ∧ fi ≤ NINODES ∧ length G = length F;
  bu_fb : fb = total F ∧ fb ≤ FSSIZE;
  bu_zero : ∀ n, fb ≤ n < FSSIZE → cur n = zeros;
  bu_inode : ∀ k d, G !! k = Some d → disk_inode sb cur (Z.of_nat k + 1) = Some d;
  bu_file : ∀ k f d, F !! k = Some f → G !! k = Some d →
    inode_of d f ∧ grows cur d f.2 (blocks (length f.2)) fb ∧ tight d (blocks (length f.2));
  bu_free : ∀ i, fi ≤ i → inum_ok sb i → ∃ d, disk_inode sb cur i = Some d ∧ di_type d = 0;
  bu_disj : ∀ j k dj dk a, G !! j = Some dj → G !! k = Some dk → a ∈ footprint cur dj → a ∈ footprint cur dk → j = k;
  bu_cover : ∀ a, nmeta ≤ a < fb → ∃ k d, G !! k = Some d ∧ a ∈ footprint cur d
}.

Lemma footprint_frame cur cur' d d' : length (di_addrs d) = 26%nat → di_addrs d' = di_addrs d →
  (∀ a, a ∈ footprint cur d → cur' a = cur a) → slots cur' d' = slots cur d ∧ footprint cur' d' = footprint cur d.
Proof.
  intros Hlen Ha Hf. assert (slots cur' d' = slots cur d) as Hs; [|split; [done|unfold footprint; by rewrite Hs]].
  unfold slots, iaddr. rewrite Ha. case_decide as Hd; [done|]. rewrite Hf; [done|]. by apply (iaddr_footprint cur d).
Qed.
Lemma grows_frame cur cur' d d' data nb fb fb' : grows cur d data nb fb → di_addrs d' = di_addrs d → dinode_ok d' → fb ≤ fb' →
  (∀ a, a ∈ footprint cur d → cur' a = cur a) → grows cur' d' data nb fb'.
Proof.
  intros [G1 G2 G3 G4 G5 G6] Ha Hok Hle Hf. destruct (footprint_frame cur cur' d d' (do_len _ G1) Ha Hf) as [Hs Hfp].
  assert (∀ bn, faddr cur' d' bn = faddr cur d bn) as Hfa by (intros bn; unfold faddr; by rewrite Hs).
  split; [done| |by rewrite Hfp|done| |].
  - intros a. rewrite Hfp. intros Hin. specialize (G2 a Hin). lia.
  - intros bn Hbn. rewrite Hfa. by apply G5.
  - intros k Hk. unfold fbyte. rewrite Hfa, Hf; [by apply G6|]. apply faddr_footprint, G5; lia.
Qed.

(** ** One file grows *)
Section grow_file.
Context cur (fi fb : Z) F G (Hb : built cur fi fb F G).
Context (k : nat) (f : Z * list Z) d (Hf : F !! k = Some f) (Hd : G !! k = Some d).
Lemma foot_meta j dj a : G !! j = Some dj → a ∈ footprint cur dj → nmeta ≤ a < fb.
Proof.
  intros Hj Ha. destruct (lookup_lt_is_Some_2 F j) as [fj Hfj].
  { apply lookup_lt_Some in Hj. destruct (bu_fi _ _ _ _ _ Hb) as (_ & _ & <-). done. }
  destruct (bu_file _ _ _ _ _ Hb j fj dj Hfj Hj) as (_ & Hg & _). by apply Hg.
Qed.
Lemma index_inum j dj : G !! j = Some dj → inum_ok sb (Z.of_nat j + 1).
Proof.
  intros Hj. apply lookup_lt_Some in Hj. destruct (bu_fi _ _ _ _ _ Hb) as (-> & Hmax & Hl). unfold inum_ok. rewrite sb_eq.
  cbn [sb_ninodes]. unfold NINODES in Hmax. lia.
Qed.

Context (cur1 : Z → block) (d1 : dinode) (fb1 : Z) (p : list Z) (cur2 : Z → block).
Let data' := f.2 ++ p.
Let d2 := set_di_size (Z.of_nat (length data')) d1.
Context (Hmax : (length data' ≤ 153 * 512)%nat) (Hfit : total (<[k := (f.1, data')]> F) ≤ FSSIZE).
Context (Hg1 : grows cur1 d1 data' (blocks (length data')) fb1).
Context (Ha1 : adv cur d (blocks (length f.2)) fb cur1 d1 (blocks (length data')) fb1).
Context (H2 : ∀ n, n ≠ IBLOCK (Z.of_nat k + 1) sb → cur2 n = cur1 n).
Context (H2i : ∀ i, inum_ok sb i → disk_inode sb cur2 i = if decide (i = Z.of_nat k + 1) then Some d2 else disk_inode sb cur1 i).

Lemma foot2 a : nmeta ≤ a → cur2 a = cur1 a.
Proof. intros Ha. apply H2. pose proof (inode_block _ (index_inum _ _ Hd)). rewrite nmeta_eq in Ha. lia. Qed.
Lemma grown_other j dj a : j ≠ k → G !! j = Some dj → a ∈ footprint cur dj → cur2 a = cur a.
Proof.
  intros Hjk Hj Ha. pose proof (foot_meta _ _ _ Hj Ha) as Hr. rewrite foot2 by lia. apply (ad_frame _ _ _ _ _ _ _ _ Ha1).
  intros Hin. apply (ad_ext _ _ _ _ _ _ _ _ Ha1) in Hin as [Hin|?]; [|lia]. apply Hjk. by eapply (bu_disj _ _ _ _ _ Hb).
Qed.
Lemma grown_meta n : n < nmeta → cur1 n = cur n.
Proof. intros Hn. apply (ad_frame _ _ _ _ _ _ _ _ Ha1). intros Hin. pose proof (gr_foot _ _ _ _ _ Hg1 _ Hin). lia. Qed.
Lemma grown_inode i : inum_ok sb i → i ≠ Z.of_nat k + 1 → disk_inode sb cur2 i = disk_inode sb cur i.
Proof.
  intros Hi Hne. rewrite H2i, decide_False by done. apply disk_inode_frame, grown_meta. pose proof (inode_block _ Hi).
  rewrite nmeta_eq. lia.
Qed.
Lemma d2_ok : dinode_ok d2.
Proof. destruct (gr_ok _ _ _ _ _ Hg1) as [D1 D2 D3 D4 D5 D6 D7 D8 D9 D10]. split; cbn; try done. lia. Qed.
Lemma foot_d2 : footprint cur2 d2 = footprint cur1 d1.
Proof.
  apply footprint_frame; [apply Hg1|done|]. intros a Ha. apply foot2. by apply (gr_foot _ _ _ _ _ Hg1).
Qed.
(** The blocks of each file in the new image. *)
Lemma foot_new j dj : <[k := d2]> G !! j = Some dj →
  j = k ∧ dj = d2 ∨ j ≠ k ∧ G !! j = Some dj ∧ footprint cur2 dj = footprint cur dj.
Proof.
  intros Hj. destruct (decide (j = k)) as [->|Hne].
  - rewrite list_lookup_insert_eq in Hj by (by eapply lookup_lt_Some). left. by simplify_eq.
  - rewrite list_lookup_insert_ne in Hj by done. right. split_and!; [done|done|]. apply footprint_frame; [|done|].
    + destruct (lookup_lt_is_Some_2 F j) as [fj Hfj].
      { apply lookup_lt_Some in Hj. destruct (bu_fi _ _ _ _ _ Hb) as (_ & _ & <-). done. }
      destruct (bu_file _ _ _ _ _ Hb j fj dj Hfj Hj) as (_ & Hg & _). apply Hg.
    + intros a Ha. by eapply grown_other.
Qed.
Lemma foot_disjoint j dj a : j ≠ k → G !! j = Some dj → a ∈ footprint cur dj → a ∉ footprint cur1 d1.
Proof.
  intros Hjk Hj Ha Hin. pose proof (foot_meta _ _ _ Hj Ha). apply (ad_ext _ _ _ _ _ _ _ _ Ha1) in Hin as [Hin|?]; [|lia].
  apply Hjk. by eapply (bu_disj _ _ _ _ _ Hb).
Qed.
Lemma built_file j g dj : <[k := (f.1, data')]> F !! j = Some g → <[k := d2]> G !! j = Some dj →
  inode_of dj g ∧ grows cur2 dj g.2 (blocks (length g.2)) fb1 ∧ tight dj (blocks (length g.2)).
Proof.
  intros Hj Hdj. pose proof (adv_le _ _ _ _ _ _ _ _ Ha1) as Hle. destruct (foot_new _ _ Hdj) as [[-> ->]|(Hne & Hdj' & Hfp)].
  - rewrite list_lookup_insert_eq in Hj by (by eapply lookup_lt_Some). simplify_eq. cbn [snd]. split_and!.
    + destruct (bu_file _ _ _ _ _ Hb _ _ _ Hf Hd) as ([I1 I2 I3 I4] & _). destruct Ha1 as [Hm _ _ _ _ _].
      assert (di_type d1 = di_type d ∧ di_nlink d1 = di_nlink d ∧ di_uid d1 = di_uid d ∧ di_gid d1 = di_gid d ∧ di_mode d1 = di_mode d) as (M1 & M2 & M3 & M4 & M5)
        by (rewrite Hm; done). split; cbn; rewrite ?M1, ?M2, ?M3, ?M4, ?M5; done.
    + eapply grows_frame; [exact Hg1|done|apply d2_ok|lia|]. intros a Ha. apply foot2. by apply (gr_foot _ _ _ _ _ Hg1).
    + exact (ad_tight _ _ _ _ _ _ _ _ Ha1).
  - rewrite list_lookup_insert_ne in Hj by done. destruct (bu_file _ _ _ _ _ Hb _ _ _ Hj Hdj') as (I & Hg & Ht). split_and!; [done| |done].
    eapply grows_frame; [exact Hg|done|apply Hg|done|]. intros a Ha. by eapply grown_other.
Qed.
Lemma built_grow : built cur2 fi fb1 (<[k := (f.1, data')]> F) (<[k := d2]> G).
Proof.
  pose proof (adv_le _ _ _ _ _ _ _ _ Ha1) as Hle. pose proof (total_ge F) as Htg. destruct (bu_fi _ _ _ _ _ Hb) as (Hfi & Hni & Hlg).
  destruct (bu_fb _ _ _ _ _ Hb) as [Hfb Hfs]. assert (fb1 = total (<[k := (f.1, data')]> F)) as Hfb1.
  { rewrite (total_insert _ _ _ _ Hf). unfold fneed. cbn [snd]. rewrite (ad_need _ _ _ _ _ _ _ _ Ha1). lia. }
  split.
  - rewrite H2 by (pose proof (inode_block _ (index_inum _ _ Hd)); lia). rewrite grown_meta by (rewrite nmeta_eq; lia). apply Hb.
  - by rewrite !length_insert.
  - split; [done|]. by rewrite Hfb1.
  - intros n Hn. rewrite foot2 by lia. by eapply (adv_zeros _ _ _ _ _ _ _ _ _ Ha1 Hg1 (bu_zero _ _ _ _ _ Hb)).
  - intros j dj Hj. destruct (foot_new _ _ Hj) as [[-> ->]|(Hne & Hdj & _)].
    + rewrite H2i by (by eapply index_inum). by rewrite decide_True.
    + rewrite grown_inode by (lia || by eapply index_inum). by apply (bu_inode _ _ _ _ _ Hb).
  - apply built_file.
  - intros i Hi Hin. rewrite grown_inode; [by apply (bu_free _ _ _ _ _ Hb)|done|]. apply lookup_lt_Some in Hf. lia.
  - intros i j di dj a Hi Hj Hai Haj. destruct (foot_new _ _ Hi) as [[-> ->]|(Hni' & Hdi & Hfi')], (foot_new _ _ Hj) as [[-> ->]|(Hnj & Hdj & Hfj)].
    + done.
    + rewrite foot_d2 in Hai. rewrite Hfj in Haj. by destruct (foot_disjoint _ _ _ Hnj Hdj Haj).
    + rewrite foot_d2 in Haj. rewrite Hfi' in Hai. by destruct (foot_disjoint _ _ _ Hni' Hdi Hai).
    + rewrite Hfi' in Hai. rewrite Hfj in Haj. by eapply (bu_disj _ _ _ _ _ Hb).
  - intros a Ha. assert (a ∈ footprint cur1 d1 → ∃ j dj, <[k := d2]> G !! j = Some dj ∧ a ∈ footprint cur2 dj) as Hk.
    { intros Hin. exists k, d2. rewrite foot_d2. split; [|done]. apply list_lookup_insert_eq. by eapply lookup_lt_Some. }
    destruct (decide (a < fb)) as [Hlt|Hge].
    + destruct (bu_cover _ _ _ _ _ Hb a ltac:(lia)) as (j & dj & Hj & Hin). destruct (decide (j = k)) as [->|Hne].
      * simplify_eq. apply Hk, (ad_ext _ _ _ _ _ _ _ _ Ha1). by left.
      * exists j, dj. assert (<[k := d2]> G !! j = Some dj) as Hj' by (by rewrite list_lookup_insert_ne). split; [done|].
        destruct (foot_new _ _ Hj') as [[-> _]|(_ & _ & ->)]; done.
    + apply Hk, (ad_ext _ _ _ _ _ _ _ _ Ha1). right. lia.
Qed.
End grow_file.

(** ** A new inode *)
Definition new_inode (type : Z) : dinode :=
  mkdi (s16 (xshort type)) 0 0 (s16 (xshort 1)) DEFAULT_UID DEFAULT_GID DEFAULT_MODE (xint 0) (replicate 26 0).
Lemma new_footprint cur type : footprint cur (new_inode type) = [].
Proof. reflexivity. Qed.
Lemma new_grows cur type fb : 0 ≤ type < 2 ^ 15 → grows cur (new_inode type) [] 0 fb ∧ tight (new_inode type) 0 ∧ inode_of (new_inode type) (type, []).
Proof.
  intros Ht. assert (s16 (xshort type) = type) as He.
  { unfold xshort. rewrite le_combine_split. apply s16_u16. lia. }
  split_and!.
  - split; rewrite ?new_footprint.
    + split; cbn [new_inode di_type di_major di_minor di_nlink di_uid di_gid di_mode di_size di_addrs]; try done.
      * rewrite He. lia.
      * repeat constructor; lia.
    + set_solver.
    + constructor.
    + cbn [length]. lia.
    + intros bn Hbn. split; [|lia]. intros Hn. exfalso. pose proof (faddr_footprint _ _ _ Hn) as Hin. rewrite new_footprint in Hin. set_solver.
    + lia.
  - split; [lia|]. done.
  - by split.
Qed.
Lemma built_alloc cur fi fb F G type (cur' : Z → block) : built cur fi fb F G → 0 ≤ type < 2 ^ 15 → fi < NINODES →
  (∀ n, n ≠ IBLOCK fi sb → cur' n = cur n) →
  (∀ i, inum_ok sb i → disk_inode sb cur' i = if decide (i = fi) then Some (new_inode type) else disk_inode sb cur i) →
  built cur' (fi + 1) fb (F ++ [(type, [])]) (G ++ [new_inode type]).
Proof.
  intros Hb Hty Hfi Hn Hi. pose proof Hb as [B1 (B2 & B2' & B2'') [B3 B3'] B4 B5 B6 B7 B8 B9].
  destruct (new_grows cur' type fb Hty) as (Hg & Ht & Hino).
  assert (inum_ok sb fi) as Hok by (unfold inum_ok; rewrite sb_eq; cbn [sb_ninodes]; unfold NINODES in Hfi; lia).
  pose proof (inode_block _ Hok) as Hib.
  assert (∀ a, nmeta ≤ a → cur' a = cur a) as Hd by (intros a Ha; apply Hn; rewrite nmeta_eq in Ha; lia).
  assert (∀ k d, (G ++ [new_inode type]) !! k = Some d → k = length G ∧ d = new_inode type ∨ G !! k = Some d ∧ footprint cur' d = footprint cur d) as Hcase.
  { intros k d Hk. apply lookup_snoc_Some in Hk as [[Hlt Hk]|[-> <-]]; [right|by left]. split; [done|].
    destruct (lookup_lt_is_Some_2 F k) as [f Hf]; [lia|]. destruct (B6 _ _ _ Hf Hk) as (_ & Hgk & _).
    apply footprint_frame; [apply Hgk|done|]. intros a Ha. apply Hd. by apply (gr_foot _ _ _ _ _ Hgk). }
  split.
  - rewrite Hn by lia. done.
  - rewrite !length_app, B2''. cbn [length]. lia.
  - rewrite total_snoc. unfold fneed. cbn [snd length]. change (need (blocks 0)) with 0. lia.
  - intros n Hn'. rewrite Hd by (pose proof (total_ge F); lia). by apply B4.
  - intros k d Hk. destruct (Hcase _ _ Hk) as [[-> ->]|[Hk' _]].
    + rewrite Hi, decide_True by (lia || (replace (Z.of_nat (length G) + 1) with fi by lia; done)). done.
    + pose proof (lookup_lt_Some _ _ _ Hk'). rewrite Hi, decide_False by (lia || by eapply index_inum). by apply B5.
  - intros k f d Hf Hk. destruct (Hcase _ _ Hk) as [[-> ->]|[Hk' _]].
    + rewrite B2'', lookup_app_r, Nat.sub_diag in Hf by lia. simplify_eq/=. done.
    + pose proof (lookup_lt_Some _ _ _ Hk'). rewrite lookup_app_l in Hf by lia. destruct (B6 _ _ _ Hf Hk') as (I & Hgk & Htk).
      split_and!; [done| |done]. eapply grows_frame; [exact Hgk|done|apply Hgk|done|]. intros a Ha. apply Hd. by apply (gr_foot _ _ _ _ _ Hgk).
  - intros i Hge Hin. rewrite Hi, decide_False by (done || lia). apply B7; [lia|done].
  - intros i j di dj a Hdi Hdj Hai Haj.
    destruct (Hcase _ _ Hdi) as [[-> ->]|[Hdi' Hfi']]; [rewrite new_footprint in Hai; set_solver|].
    destruct (Hcase _ _ Hdj) as [[-> ->]|[Hdj' Hfj']]; [rewrite new_footprint in Haj; set_solver|].
    rewrite Hfi' in Hai. rewrite Hfj' in Haj. by eapply B8.
  - intros a Ha. destruct (B9 a Ha) as (k & d & Hk & Hin). exists k, d. pose proof (lookup_lt_Some _ _ _ Hk) as Hlt.
    assert ((G ++ [new_inode type]) !! k = Some d) as Hk' by (by rewrite lookup_app_l). split; [done|].
    destruct (Hcase _ _ Hk') as [[-> _]|[_ ->]]; [lia|done].
Qed.

(** ** The functions of mkfs on the files *)
(** The image [s] holds the files [F]. *)
Definition holds_files (s : image) F : Prop := ∃ cur fi fb G, im_ok s cur fi fb ∧ built cur fi fb F G.

Section ops.
Context (E : string → Prop).
Lemma wp_ialloc_img type s F Q : holds_files s F → 0 ≤ type < 2 ^ 15 → (length F < 199)%nat →
  (∀ s', holds_files s' (F ++ [(type, [])]) → Q (Z.of_nat (length F) + 1) s') → wp E (Img.ialloc type) Q s.
Proof.
  intros (cur & fi & fb & G & Hs & Hb) Hty Hlen HQ. destruct (bu_fi _ _ _ _ _ Hb) as (Hfi & _ & _).
  assert (fi < NINODES) as Hlt by (unfold NINODES; lia). unfold Img.ialloc. apply wp_bind, wp_gets. rewrite (io_fi _ _ _ _ Hs).
  apply wp_bind, wp_modS, wp_bind. rewrite u32_small by (unfold NINODES in Hlt; lia).
  assert (im_ok (set_im_freeinode (fi + 1) s) cur (fi + 1) fb) as Hs1 by (destruct Hs; by split).
  eapply wp_winode; [exact Hs1| |apply (new_grows cur type fb Hty)|].
  { unfold inum_ok. rewrite sb_eq. cbn [sb_ninodes]. unfold NINODES in Hlt. lia. }
  intros s2 cur2 Hs2 Hn Hi. apply wp_ret. rewrite Hfi. apply HQ. eexists _, _, _, _. split; [exact Hs2|]. by eapply built_alloc.
Qed.
Lemma wp_iappend k f p s F Q : holds_files s F → F !! k = Some f → (length (f.2 ++ p) ≤ 153 * 512)%nat →
  total (<[k := (f.1, f.2 ++ p)]> F) ≤ FSSIZE →
  (∀ s', holds_files s' (<[k := (f.1, f.2 ++ p)]> F) → Q tt s') → wp E (Img.iappend (Z.of_nat k + 1) p) Q s.
Proof.
  intros (cur & fi & fb & G & Hs & Hb) Hf Hmax Hfit HQ. destruct (bu_fi _ _ _ _ _ Hb) as (_ & _ & Hlg). destruct (bu_fb _ _ _ _ _ Hb) as [Hfb Hfs].
  destruct (lookup_lt_is_Some_2 G k) as [d Hd]; [rewrite Hlg; by eapply lookup_lt_Some|].
  destruct (bu_file _ _ _ _ _ Hb _ _ _ Hf Hd) as (Hino & Hg & Ht). pose proof (index_inum _ _ _ _ _ Hb _ _ Hd) as Hok.
  unfold Img.iappend. apply wp_bind. eapply wp_rinode; [exact Hs|exact Hok|by apply (bu_inode _ _ _ _ _ Hb)|].
  rewrite (ino_size _ _ Hino), xint_small by (rewrite length_app in Hmax; lia). apply wp_bind.
  replace (length p / 512 + 3)%nat with (S (length p / 512 + 2)) by lia. pose proof (total_ge F) as Htg.
  eapply (wp_iappend_loop E _ s cur d f.2 p fi fb); [exact Hs|exact Hg|exact Ht|lia| |exact Hmax|apply Hb| |].
  - rewrite (total_insert _ _ _ _ Hf) in Hfit. unfold fneed in Hfit. cbn [snd] in Hfit. lia.
  - right. pose proof (Nat.mod_upper_bound (length f.2) 512 ltac:(lia)). pose proof (Nat.div_mod_eq (length p) 512).
    pose proof (Nat.mod_upper_bound (length p) 512 ltac:(lia)). lia.
  - intros s1 cur1 d1 fb1 Hs1 Hg1 Ha1. rewrite xint_small by lia.
    eapply wp_winode; [exact Hs1|exact Hok|by eapply d2_ok|].
    intros s2 cur2 Hs2 Hn Hi. apply HQ. eexists _, _, _, _. split; [exact Hs2|]. by eapply built_grow.
Qed.
End ops.
