(* ===== verification/MkfsThm.v ===== *)
(** * mkfs: the image it makes is the file system the kernel expects *)

From S2P Require Import Prelude CString Words ProcData Sync Block Log Tx Fs FsBlocks FsInode FsFile FsRw FsDir Mkfs MkfsFile MkfsInv.
Local Open Scope Z_scope.
Implicit Types (x y : list Z) (cur : Z → block) (d : dinode) (F : list (Z * list Z)) (G : list dinode).
Implicit Types (file : list Z * list (list Z)) (files : list (list Z * list (list Z))).

(** ** The files of the image *)
(** A leading underscore of a name is left out. *)
Definition strip (name : list Z) : list Z :=
  match name with c :: name' => if decide (c = 95) then name' else name | [] => name end.
Definition file_name (name : list Z) : list Z := name_field (strip name).
Definition file_entry (k : nat) file : list Z := dirent_bytes (Z.of_nat k + 2) (file_name file.1).
Definition root_bytes files : list Z :=
  dirent_bytes 1 (46 :: replicate 13 0) ++ dirent_bytes 1 (46 :: 46 :: replicate 12 0) ++ concat (imap file_entry files).
Definition image_files files : list (Z * list Z) :=
  (T_DIR, root_bytes files) :: ((λ file, (T_FILE, concat file.2)) <$> files).

(** mkfs is given names without a slash and files that fit. *)
Record mkfs_fits files : Prop := mkfits {
  mf_names : ∀ file, file ∈ files → terminated file.1 ∧ 47 ∉ cstr file.1;
  mf_inodes : (length files ≤ 198)%nat;
  mf_sizes : ∀ file, file ∈ files → (length (concat file.2) ≤ 153 * 512)%nat;
  mf_total : total (image_files files) ≤ FSSIZE
}.
Lemma length_file_name name : length (file_name name) = 14%nat.
Proof. unfold file_name, name_field. rewrite length_take, length_app, length_replicate. unfold DIRSIZ. lia. Qed.
Lemma length_file_entry k file : length (file_entry k file) = 16%nat.
Proof. unfold file_entry, dirent_bytes. by rewrite length_app, length_file_name, length_le_split. Qed.
Lemma length_imap_16 (fn : nat → list Z * list (list Z) → list Z) files : (∀ k file, length (fn k file) = 16%nat) →
  length (concat (imap fn files)) = (16 * length files)%nat.
Proof.
  revert fn. induction files as [|file files IH]; intros fn Hfn; [done|]. cbn [imap concat]. rewrite length_app, Hfn.
  rewrite IH by (intros; apply Hfn). cbn [length]. lia.
Qed.
Lemma length_root_bytes files : length (root_bytes files) = (16 * (length files + 2))%nat.
Proof.
  unfold root_bytes. rewrite !length_app, length_imap_16 by apply length_file_entry. unfold dirent_bytes.
  rewrite !length_app, !length_le_split. cbn [length]. rewrite !length_replicate. lia.
Qed.
Lemma root_bytes_snoc files file : root_bytes (files ++ [file]) = root_bytes files ++ file_entry (length files) file.
Proof.
  unfold root_bytes. rewrite imap_app, concat_app. cbn [imap concat]. rewrite Nat.add_0_r, app_nil_r. by rewrite !app_assoc.
Qed.
Lemma image_files_snoc files file : image_files (files ++ [file]) =
  <[0%nat := (T_DIR, root_bytes files ++ file_entry (length files) file)]> (image_files files) ++ [(T_FILE, concat file.2)].
Proof. unfold image_files. rewrite root_bytes_snoc, fmap_app. done. Qed.
Lemma length_image_files files : length (image_files files) = S (length files).
Proof. cbn [image_files length]. by rewrite length_fmap. Qed.
Lemma blocks_total (f : Z * list Z) (p : list Z) : fneed f ≤ fneed (f.1, f.2 ++ p).
Proof. unfold fneed. cbn [snd]. apply need_mono, blocks_mono. rewrite length_app. lia. Qed.
Lemma total_prefix files files' : total (image_files files) ≤ total (image_files (files ++ files')).
Proof.
  induction files' as [|file files' IH] using rev_ind; [by rewrite app_nil_r|]. rewrite app_assoc, image_files_snoc, total_snoc.
  rewrite (total_insert _ _ (T_DIR, root_bytes (files ++ files'))) by done.
  pose proof (blocks_total (T_DIR, root_bytes (files ++ files')) (file_entry (length (files ++ files')) file)) as Hle. cbn [fst snd] in Hle.
  pose proof (need_pos (blocks (length (concat file.2)))) as Hnp. change (0 ≤ fneed (T_FILE, concat file.2)) in Hnp. lia.
Qed.

Lemma insert_snoc {A} (l : list A) (x y : A) : <[length l := y]> (l ++ [x]) = l ++ [y].
Proof. rewrite insert_app_r_alt, Nat.sub_diag by lia. done. Qed.

(** ** The functions *)
Section run.
Context (E : string → Prop).
(** The pieces of a file one after the other. *)
Lemma wp_chunks k t data chunks s F Q : holds_files s F → F !! k = Some (t, data) →
  (length (data ++ concat chunks) ≤ 153 * 512)%nat → total (<[k := (t, data ++ concat chunks)]> F) ≤ FSSIZE →
  (∀ s', holds_files s' (<[k := (t, data ++ concat chunks)]> F) → Q tt s') →
  wp E (mfor chunks (Img.iappend (Z.of_nat k + 1))) Q s.
Proof.
  revert data s F. induction chunks as [|p chunks IH]; intros data s F Hs Hk Hmax Hfit HQ; cbn [mfor concat] in *.
  - apply wp_skip, HQ. rewrite app_nil_r, list_insert_id; done.
  - rewrite (app_assoc data) in Hmax, Hfit, HQ. pose proof Hmax as Hmax'. rewrite length_app in Hmax'. apply wp_bind.
    eapply (wp_iappend E k (t, data) p); [exact Hs|exact Hk|cbn [snd]; lia| |].
    + cbn [fst snd]. rewrite (total_insert _ _ _ _ Hk). rewrite (total_insert _ _ _ _ Hk) in Hfit. pose proof (blocks_total (t, data ++ p) (concat chunks)) as Hle.
      cbn [fst snd] in Hle. lia.
    + cbn [fst snd]. intros s1 Hs1. eapply (IH (data ++ p)); [exact Hs1|by rewrite list_lookup_insert_eq by (by eapply lookup_lt_Some)|done|..].
      * by rewrite list_insert_insert_eq.
      * by rewrite list_insert_insert_eq.
Qed.
(** One file of the command line. *)
Lemma wp_add_file file files s Q : holds_files s (image_files files) → mkfs_fits (files ++ [file]) →
  (∀ s', holds_files s' (image_files (files ++ [file])) → Q tt s') → wp E (Img.add_file 1 file) Q s.
Proof.
  intros Hs [M1 M2 M3 M4] HQ. destruct file as [name chunks].
  assert ((name, chunks) ∈ files ++ [(name, chunks)]) as Hin by (apply elem_of_app; right; by apply list_elem_of_singleton).
  destruct (M1 _ Hin) as [Hterm Hslash]. cbn [fst] in *.
  specialize (M3 _ Hin). cbn [snd] in M3. rewrite length_app in M2. cbn [length] in M2.
  unfold Img.add_file. rewrite decide_False by done. apply wp_bind.
  pose proof (total_prefix files [(name, chunks)]) as Htp. rewrite image_files_snoc, total_snoc in M4. unfold fneed in M4. cbn [snd] in M4.
  pose proof (need_pos (blocks (length (concat chunks)))) as Hnp.
  eapply wp_ialloc_img; [exact Hs|done|rewrite length_image_files; lia|]. intros s1 Hs1. rewrite length_image_files in *.
  apply wp_bind. eapply wp_of_opt.
  { apply strncpy_spec; [|by rewrite length_replicate]. unfold terminated in *. destruct name as [|c name']; [done|]. case_decide; [subst; by apply elem_of_cons in Hterm as [?|?]|done]. }
  rewrite drop_ge, app_nil_r by (by rewrite length_replicate). change (take DIRSIZ _) with (file_name name). apply wp_bind.
  assert (xshort (Z.of_nat (S (length files)) + 1) = Z.of_nat (length files) + 2) as ->.
  { unfold xshort. rewrite le_combine_split. rewrite Z.mod_small; [lia|]. change (256 ^ Z.of_nat 2) with 65536. lia. }
  change (dirent_bytes (Z.of_nat (length files) + 2) (file_name name)) with (file_entry (length files) (name, chunks)).
  eapply (wp_iappend E 0 (T_DIR, root_bytes files)); [exact Hs1|done| | |].
  - cbn [snd]. rewrite length_app, length_root_bytes, length_file_entry. lia.
  - cbn [fst snd]. rewrite insert_app_l by (rewrite length_image_files; lia). rewrite total_snoc. unfold fneed. cbn [snd length].
    change (need (blocks 0)) with 0. lia.
  - cbn [fst snd]. rewrite insert_app_l by (rewrite length_image_files; lia). set (F' := <[0%nat := _]> (image_files files)).
    assert (length F' = S (length files)) as Hl' by (unfold F'; by rewrite length_insert, length_image_files).
    intros s2 Hs2. eapply (wp_chunks (S (length files)) T_FILE []); [exact Hs2|..].
    + rewrite <- Hl'. by rewrite list_lookup_middle.
    + done.
    + rewrite <- Hl', insert_snoc, total_snoc. unfold fneed. cbn [snd]. exact M4.
    + intros s3 Hs3. apply HQ. rewrite image_files_snoc. fold F'. cbn [snd].
      rewrite <- Hl', insert_snoc in Hs3. exact Hs3.
Qed.
Lemma wp_add_files files s : holds_files s (image_files []) → mkfs_fits files →
  wp E (mfor files (Img.add_file 1)) (λ _ s', holds_files s' (image_files files)) s.
Proof.
  intros Hs Hfit. eapply wp_mono.
  - apply (wp_mfor E files (Img.add_file 1) (λ l s, ∃ done, done ++ l = files ∧ holds_files s (image_files done))).
    + by exists [].
    + intros file l s1 (dn & Hdn & Hs1). assert (mkfs_fits (dn ++ [file])) as Hf.
      { rewrite (cons_middle file) in Hdn. rewrite app_assoc in Hdn. destruct Hfit as [M1 M2 M3 M4]. subst files. split.
        - intros f Hf. apply M1, elem_of_app; by left.
        - rewrite !length_app in *. lia.
        - intros f Hf. apply M3, elem_of_app; by left.
        - etrans; [apply total_prefix|exact M4]. }
      eapply wp_add_file; [exact Hs1|exact Hf|]. intros s2 Hs2. exists (dn ++ [file]). split; [by rewrite <- app_assoc|done].
  - intros [] s' (dn & Hdn & Hs'). rewrite app_nil_r in Hdn. by subst.
Qed.
End run.

(** ** The root directory *)
Definition dirents files : list (list Z) :=
  dirent_bytes 1 (46 :: replicate 13 0) :: dirent_bytes 1 (46 :: 46 :: replicate 12 0) :: imap file_entry files.
Definition root_entries files : list dirent :=
  mkde 1 [46] :: mkde 1 [46; 46] :: imap (λ k file, mkde (Z.of_nat k + 2) (name14 (strip file.1))) files.
Lemma concat_run (L : list (list Z)) j e : Forall (λ e, length e = 16%nat) L → L !! j = Some e → take 16 (drop (16 * j) (concat L)) = e.
Proof.
  revert j. induction L as [|e' L IH]; intros [|j] Hall Hj; try done; apply list.Forall_cons_1 in Hall as [Hl Hall].
  - injection Hj as ->. cbn [concat]. rewrite Nat.mul_0_r, drop_0. by rewrite take_app_length'.
  - cbn [concat]. rewrite drop_app_ge by lia. rewrite Hl.
    replace (16 * S j - 16)%nat with (16 * j)%nat by lia. by apply IH.
Qed.
Lemma length_concat_16 (L : list (list Z)) : Forall (λ e, length e = 16%nat) L → length (concat L) = (16 * length L)%nat.
Proof. induction 1 as [|e L He _ IH]; [done|]. cbn [concat length]. rewrite length_app, IH. lia. Qed.
Lemma entries_concat cur d (L : list (list Z)) : dsize d = length L → Forall (λ e, length e = 16%nat) L →
  (∀ k, (k < 16 * length L)%nat → fbyte cur d k = nth k (concat L) 0) → entries cur d = decode_dirent <$> L.
Proof.
  intros Hs Hall Hb. unfold entries. apply list_eq. intros j. rewrite !list_lookup_fmap, Hs.
  destruct (decide (j < length L)%nat) as [Hj|Hj].
  - rewrite lookup_seq_lt by done. destruct (lookup_lt_is_Some_2 L j Hj) as [e He]. rewrite He. cbn [fmap option_fmap option_map].
    f_equal. unfold entry. f_equal. rewrite <- (concat_run L j e Hall He). pose proof (length_concat_16 L Hall) as Hl.
    apply list_eq_nth; [rewrite length_fbytes, length_take, length_drop; lia|]. intros i.
    destruct (decide (i < 16)%nat) as [Hi|Hi].
    + rewrite !nth_lookup, lookup_take_lt, lookup_drop by done. unfold fbytes. rewrite list_lookup_fmap, lookup_seq_lt by done.
      cbn. rewrite Hb by lia. by rewrite nth_lookup.
    + rewrite !nth_overflow; [done|rewrite length_take; lia|rewrite length_fbytes; lia].
  - rewrite !lookup_ge_None_2; [done|lia|rewrite length_seq; lia].
Qed.
Lemma dirents_16 files : Forall (λ e, length e = 16%nat) (dirents files).
Proof.
  unfold dirents. constructor; [done|]. constructor; [done|]. apply Forall_lookup_2. intros k e He.
  rewrite list_lookup_imap in He. destruct (files !! k) as [file|]; [|done]. injection He as <-. apply (length_file_entry k file).
Qed.
Lemma dirents_decode files : (length files ≤ 198)%nat → decode_dirent <$> dirents files = root_entries files.
Proof.
  intros Hl. unfold dirents, root_entries. rewrite !fmap_cons. do 2 (apply (f_equal2 cons); [reflexivity|]).
  apply list_eq. intros k. rewrite list_lookup_fmap, !list_lookup_imap. destruct (files !! k) as [file|] eqn:Hk; [|done].
  apply lookup_lt_Some in Hk. apply (f_equal Some). transitivity (mkde (Z.of_nat k + 2) (name14 (file_name file.1))).
  - apply decode_bytes; [lia|apply length_file_name].
  - apply (f_equal (mkde _)), name14_field.
Qed.

(** ** The free map *)
Lemma mark_bits_spec n i x : is_block x → 0 ≤ i → i + Z.of_nat n ≤ BPB →
  ∃ y, mark_bits n i x = Some y ∧ is_block y ∧ ∀ bj, 0 ≤ bj < BPB → bit y bj = bit x bj || bool_decide (i ≤ bj < i + Z.of_nat n).
Proof.
  revert i x. induction n as [|n IH]; intros i x Hx Hi Hn; cbn [mark_bits].
  - exists x. split_and!; [done|done|]. intros bj _. rewrite bool_decide_false by lia. by rewrite orb_false_r.
  - destruct (set_bit_spec x i Hx ltac:(lia)) as (y & -> & Hy & Hbit). cbn [mbind option_bind].
    destruct (IH (i + 1) y Hy ltac:(lia) ltac:(lia)) as (z & -> & Hz & Hbz). exists z. split_and!; [done|done|].
    intros bj Hj. rewrite Hbz, Hbit, <- orb_assoc by done. f_equal. repeat case_bool_decide; lia || done.
Qed.
Lemma bit_zeros bj : bit zeroes bj = false.
Proof. unfold bit. rewrite (nth_zeros _ : nth _ zeroes 0 = 0). apply Z.bits_0. Qed.
Lemma bmap_block b : 0 ≤ b < FSSIZE → BBLOCK b sb = 83 ∧ b mod BPB = b.
Proof.
  unfold FSSIZE. intros Hb. unfold BBLOCK. rewrite sb_eq. cbn [sb_bmapstart]. change BPB with 4096.
  rewrite Z.div_small, Z.mod_small by lia. by split.
Qed.

(** ** The image *)
(** The image is a file system: its layout and free map are as the kernel expects
    them, the files are there with their contents, no block is lost or shared, and
    the root directory names the files. *)
Record image_of files cur : Prop := mkig {
  ig_blocks : fs_blocks sb (image_view cur);
  ig_used : ∀ b, 0 ≤ b < FSSIZE → used sb cur b = bool_decide (b < total (image_files files));
  ig_files : ∀ k f, image_files files !! k = Some f → ∃ d, disk_inode sb cur (Z.of_nat k + 1) = Some d ∧
    di_type d = f.1 ∧ di_nlink d = 1 ∧ (di_uid d = DEFAULT_UID ∧ di_gid d = DEFAULT_GID ∧ di_mode d = DEFAULT_MODE) ∧
    (k ≠ O → di_size d = Z.of_nat (length f.2)) ∧
    file_ok sb cur d (Z.of_nat (length f.2)) ∧ fbytes cur d 0 (length f.2) = f.2;
  ig_free : ∀ i, Z.of_nat (length files) + 2 ≤ i → inum_ok sb i → ∃ d, disk_inode sb cur i = Some d ∧ di_type d = 0;
  ig_owner : ∀ a, is_data sb a → used sb cur a = true → exists ! i, 1 ≤ i < Z.of_nat (length files) + 2 ∧
    ∃ d, disk_inode sb cur i = Some d ∧ a ∈ footprint cur d;
  ig_root : ((length files + 2) mod 32 ≠ 0)%nat → ∃ d, disk_inode sb cur ROOTINO = Some d ∧ dir_ok d ∧ file_ok sb cur d (di_size d) ∧
    ∃ n, entries cur d = root_entries files ++ replicate n (mkde 0 [])
}.
Definition root_size files : Z := (Z.of_nat (length (root_bytes files)) / 512 + 1) * 512.
Lemma data_start_eq : data_start sb = nmeta.
Proof. reflexivity. Qed.

Section final.
Context files cur (fi fb : Z) G (Hb : built cur fi fb (image_files files) G) (Hmax : (length files ≤ 198)%nat).
Context (d0 : dinode) (Hd0 : G !! 0%nat = Some d0) (cur' : Z → block).
Context (Hsup : cur' 1 = cur 1) (Hcur : ∀ n, nmeta ≤ n → cur' n = cur n).
Context (Hmap : ∀ b, 0 ≤ b < BPB → bit (cur' 83) b = bool_decide (b < fb)).
Context (Hino : ∀ i, inum_ok sb i → disk_inode sb cur' i = if decide (i = 1) then Some (set_di_size (root_size files) d0) else disk_inode sb cur i).

Lemma final_used b : 0 ≤ b < FSSIZE → used sb cur' b = bool_decide (b < fb).
Proof. intros Hr. unfold used. destruct (bmap_block b Hr) as [-> ->]. apply Hmap. unfold FSSIZE in Hr. change BPB with 4096. lia. Qed.
Lemma final_inode k d : G !! k = Some d → ∃ d', disk_inode sb cur' (Z.of_nat k + 1) = Some d' ∧
  (k ≠ O → d' = d) ∧ (k = O → d' = set_di_size (root_size files) d) ∧ slots cur' d' = slots cur d ∧ footprint cur' d' = footprint cur d.
Proof.
  intros Hk. destruct (lookup_lt_is_Some_2 (image_files files) k) as [f Hf].
  { apply lookup_lt_Some in Hk. destruct (bu_fi _ _ _ _ _ Hb) as (_ & _ & <-). done. }
  destruct (bu_file _ _ _ _ _ Hb _ _ _ Hf Hk) as (_ & Hg & _).
  assert (∀ d', di_addrs d' = di_addrs d → slots cur' d' = slots cur d ∧ footprint cur' d' = footprint cur d) as Hfr.
  { intros d' Ha. apply footprint_frame; [apply Hg|done|]. intros a Hin. apply Hcur. by apply (gr_foot _ _ _ _ _ Hg). }
  rewrite Hino by (by eapply index_inum). destruct (decide (k = O)) as [->|Hne].
  - simplify_eq. rewrite decide_True by lia. eexists. split_and!; [done|done|done|by apply Hfr|by apply Hfr].
  - rewrite decide_False by lia. exists d. split_and!; [by apply (bu_inode _ _ _ _ _ Hb)|done|done|by apply Hfr|by apply Hfr].
Qed.
Lemma final_file k f : image_files files !! k = Some f → ∃ d, disk_inode sb cur' (Z.of_nat k + 1) = Some d ∧
  inode_of (set_di_size (Z.of_nat (length f.2)) d) f ∧ di_size d = (if decide (k = O) then root_size files else Z.of_nat (length f.2)) ∧
  (∀ sz, sz ≤ 512 * Z.of_nat (blocks (length f.2)) → file_ok sb cur' d sz) ∧
  (∀ j, (j / 512 < blocks (length f.2))%nat → fbyte cur' d j = nth j f.2 0).
Proof.
  intros Hf. destruct (lookup_lt_is_Some_2 G k) as [d Hd].
  { apply lookup_lt_Some in Hf. destruct (bu_fi _ _ _ _ _ Hb) as (_ & _ & ->). done. }
  destruct (bu_file _ _ _ _ _ Hb _ _ _ Hf Hd) as ([I1 I2 I3 I4] & Hg & _). destruct (bu_fb _ _ _ _ _ Hb) as [_ Hfs].
  destruct (final_inode _ _ Hd) as (d' & Hd' & Hne & He & Hs & Hfp). exists d'.
  assert (di_addrs d' = di_addrs d) as Ha by (destruct (decide (k = O)) as [Hk|Hk]; [by rewrite (He Hk)|by rewrite (Hne Hk)]).
  assert (∀ bn, faddr cur' d' bn = faddr cur d bn) as Hfa by (intros bn; unfold faddr; by rewrite Hs).
  destruct (gr_blocks _ _ _ _ _ Hg) as [Hbl _]. split_and!; [done| | | |].
  - destruct (decide (k = O)) as [Hk|Hk]; [rewrite (He Hk)|rewrite (Hne Hk)]; by split.
  - case_decide as Hk; [by rewrite (He Hk)|by rewrite (Hne Hk)].
  - intros sz Hsz. split; [by rewrite Ha; apply Hg| |by rewrite Hfp; apply Hg|].
    + intros a. rewrite Hfp. intros Hin. pose proof (gr_foot _ _ _ _ _ Hg _ Hin) as Hr.
      assert (0 ≤ a < FSSIZE) by (rewrite nmeta_eq in Hr; lia). split; [split; [rewrite data_start_eq; lia|rewrite sb_eq; unfold FSSIZE in *; cbn; lia]|].
      rewrite final_used by done. apply bool_decide_true. lia.
    + intros bn Hbn. assert (bn < blocks (length f.2))%nat as Hlt by lia. split; [lia|]. rewrite Hfa. apply (gr_map _ _ _ _ _ Hg); [lia|done].
  - intros j Hj. unfold fbyte. rewrite Hfa, Hcur; [by apply (gr_bytes _ _ _ _ _ Hg)|].
    apply (gr_foot _ _ _ _ _ Hg), faddr_footprint, (gr_map _ _ _ _ _ Hg); [lia|done].
Qed.
Lemma final_owner a : is_data sb a → used sb cur' a = true → exists ! i, 1 ≤ i < Z.of_nat (length files) + 2 ∧
  ∃ d, disk_inode sb cur' i = Some d ∧ a ∈ footprint cur' d.
Proof.
  intros [Ha1 Ha2] Hu. rewrite data_start_eq in Ha1. assert (0 ≤ a < FSSIZE) as Har by (rewrite nmeta_eq in Ha1; split; [lia|exact Ha2]).
  rewrite final_used in Hu by done. apply bool_decide_eq_true in Hu. destruct (bu_fi _ _ _ _ _ Hb) as (_ & _ & HlG). rewrite length_image_files in HlG.
  destruct (bu_cover _ _ _ _ _ Hb a ltac:(lia)) as (k & d & Hk & Hin). pose proof (lookup_lt_Some _ _ _ Hk) as Hlt.
  destruct (final_inode _ _ Hk) as (d' & Hd' & _ & _ & _ & Hfp). exists (Z.of_nat k + 1). split.
  - split; [lia|]. exists d'. split; [done|]. by rewrite Hfp.
  - intros i (Hi & di & Hdi & Hini). destruct (lookup_lt_is_Some_2 G (Z.to_nat (i - 1))) as [di0 Hdi0]; [lia|].
    destruct (final_inode _ _ Hdi0) as (di' & Hdi' & _ & _ & _ & Hfpi). replace (Z.of_nat (Z.to_nat (i - 1)) + 1) with i in Hdi' by lia.
    rewrite Hdi in Hdi'. simplify_eq. rewrite Hfpi in Hini.
    pose proof (bu_disj _ _ _ _ _ Hb _ _ _ _ _ Hk Hdi0 Hin Hini). lia.
Qed.
Lemma final_root : ((length files + 2) mod 32 ≠ 0)%nat → ∃ d, disk_inode sb cur' ROOTINO = Some d ∧ dir_ok d ∧ file_ok sb cur' d (di_size d) ∧
  ∃ n, entries cur' d = root_entries files ++ replicate n (mkde 0 []).
Proof.
  intros Hm. destruct (final_file 0 _ eq_refl) as (d & Hd & [I1 _ _ _] & Hsz & Hok & Hby). cbn [fst snd] in *. exists d. split; [exact Hd|].
  set (m := (length files + 2)%nat) in *. pose proof (length_root_bytes files) as Hlen. fold m in Hlen. rewrite decide_True in Hsz by done.
  unfold root_size in Hsz. rewrite Hlen in *. set (q := (m / 32)%nat). pose proof (Nat.div_mod_eq m 32) as Hdm. fold q in Hdm.
  pose proof (Nat.mod_upper_bound m 32 ltac:(lia)) as Hub.
  assert ((16 * m) / 512 = q)%nat as Hq by (symmetry; apply (Nat.div_unique _ _ _ (16 * (m mod 32))); lia).
  assert (blocks (16 * m) = S q) as Hbl.
  { destruct (blocks_cases (16 * m)) as [[_ Hz]|[-> _]]; [|by rewrite Hq]. pose proof (Nat.div_mod_eq (16 * m) 512). lia. }
  assert (di_size d = Z.of_nat (512 * S q)) as Hsz' by (rewrite Hsz, <- (Nat2Z.inj_div _ 512), Hq; lia).
  assert (dsize d = 32 * S q)%nat as Hds.
  { unfold dsize. rewrite Hsz', Nat2Z.id. symmetry. apply (Nat.div_unique _ _ _ 0); lia. }
  assert (S q ≤ 153)%nat as Hq7 by lia. split_and!.
  - split; [exact I1|rewrite Hds, Hsz'; lia|]. rewrite Hsz'. change (MAXFILE * BSIZE) with 78336. lia.
  - apply Hok. rewrite Hbl, Hsz'. lia.
  - exists (32 * S q - m)%nat. set (L := dirents files ++ replicate (32 * S q - m) (replicate 16 0)).
    assert (length (dirents files) = m) as HlD by (cbn [dirents length]; rewrite length_imap; lia).
    assert (length L = 32 * S q)%nat as HlL by (unfold L; rewrite length_app, length_replicate, HlD; lia).
    assert (Forall (λ e, length e = 16%nat) L) as HL by (apply Forall_app; split; [apply dirents_16|by apply Forall_replicate]).
    rewrite (entries_concat cur' d L).
    + unfold L. rewrite fmap_app, dirents_decode, fmap_replicate by done. f_equal.
    + lia.
    + exact HL.
    + intros k Hk. rewrite Hby by (rewrite Hbl; apply Nat.Div0.div_lt_upper_bound; lia).
      unfold L. rewrite concat_app. change (concat (dirents files)) with (root_bytes files).
      destruct (decide (k < length (root_bytes files))%nat); [by rewrite app_nth1|]. rewrite app_nth2, nth_overflow by lia.
      generalize (k - length (root_bytes files))%nat. intros i. symmetry. rewrite nth_lookup. destruct (concat _ !! i) as [z|] eqn:Hz; [|done].
      apply list_elem_of_lookup_2, list_elem_of_In, in_concat in Hz as (e & He & Hin).
      apply list_elem_of_In, elem_of_replicate in He as [-> _]. by apply list_elem_of_In, elem_of_replicate in Hin as [-> _].
Qed.
Lemma final_image : image_of files cur'.
Proof.
  destruct (bu_fb _ _ _ _ _ Hb) as [Hfb Hfs]. destruct (bu_fi _ _ _ _ _ Hb) as (Hfi & _ & _). rewrite length_image_files in Hfi.
  pose proof (total_ge (image_files files)) as Htg. split.
  - split; [apply image_layout; rewrite Hsup; apply Hb| |cbn; set_solver|done].
    intros b. rewrite data_start_eq. intros Hr. cbn [image_view t_cur]. rewrite final_used by lia. apply bool_decide_true. lia.
  - intros b Hr. rewrite final_used by done. by rewrite Hfb.
  - intros k f Hf. destruct (final_file k f Hf) as (d & Hd & [I1 I2 I3 I4] & Hsz & Hok & Hby). exists d.
    destruct (blocks_cases (length f.2)) as [[Hbl Hm]|[Hbl Hm]]; pose proof (Nat.div_mod_eq (length f.2) 512) as Hdm;
      pose proof (Nat.mod_upper_bound (length f.2) 512 ltac:(lia)).
    all: split_and!; [exact Hd|exact I1|exact I2|apply I3|apply I3|apply I3|intros Hk; by rewrite decide_False in Hsz|apply Hok; lia|].
    all: apply list_eq_nth; [apply length_fbytes|]; intros j; destruct (decide (j < length f.2)%nat) as [Hj|Hj].
    1,3: unfold fbytes; rewrite nth_lookup, list_lookup_fmap, lookup_seq_lt by done; cbn; apply Hby, Nat.Div0.div_lt_upper_bound; lia.
    all: rewrite !nth_overflow; [done|lia|rewrite length_fbytes; lia].
  - intros i Hi Hin. rewrite Hino, decide_False by (done || lia). apply (bu_free _ _ _ _ _ Hb); [lia|done].
  - apply final_owner.
  - apply final_root.
Qed.
End final.

(** ** main *)
Section main.
Context (E : string → Prop).
Lemma wp_zero_image Q : (∀ s, im_ok s (λ _, zeros) 1 nmeta → Q tt s) →
  wp E (mfor (seq 0 (Z.to_nat FSSIZE)) (λ i, Img.wsect (Z.of_nat i) zeroes)) Q start.
Proof.
  intros HQ. eapply wp_mono.
  - apply (wp_mfor E _ _ (λ l s, ∃ m, l = seq m (2000 - m) ∧ (m ≤ 2000)%nat ∧ s = mkimg (replicate m zeroes) 1 nmeta)).
    + exists O. split_and!; [done|lia|done].
    + intros i l s (m & Hl & Hm & ->). destruct (decide (m = 2000%nat)) as [->|Hne]; [done|].
      replace (2000 - m)%nat with (S (2000 - S m)) in Hl by lia. cbn [seq] in Hl. injection Hl as -> ->.
      unfold Img.wsect. apply wp_modS. exists (S m). split_and!; [done|lia|].
      rewrite sector_small by (unfold FSSIZE; lia). rewrite Nat2Z.id. unfold put_sector. cbn [im_img].
      rewrite length_replicate, decide_False, Nat.sub_diag by lia. cbn [replicate app set_im_img im_freeinode im_freeblock].
      unfold set_im_img. cbn [im_freeinode im_freeblock]. f_equal. rewrite <- replicate_S_end. done.
  - intros [] s (m & Hl & Hm & ->). apply HQ. assert (m = 2000%nat) as -> by (destruct (2000 - m)%nat eqn:He; [lia|done]).
    split; cbn [im_img im_freeinode im_freeblock]; [by rewrite length_replicate| |done|done].
    intros n Hn. split; [|done]. apply lookup_replicate_2. unfold FSSIZE in Hn. lia.
Qed.
Lemma zero_inode (cur : Z → block) i : (∀ n, n ≠ 1 → cur n = zeros) → inum_ok sb i → ∃ d, disk_inode sb cur i = Some d ∧ di_type d = 0.
Proof.
  intros Hz Hi. unfold disk_inode. pose proof (inode_block _ Hi). rewrite Hz by lia. change IPB with 4.
  assert (i mod 4 = 0 ∨ i mod 4 = 1 ∨ i mod 4 = 2 ∨ i mod 4 = 3) as Hm by (pose proof (Z.mod_pos_bound i 4); lia).
  destruct Hm as [-> | [-> | [-> | ->]]].
  all: eexists; split; [vm_compute; reflexivity|reflexivity].
Qed.
Lemma built_empty : built (<[1 := super_sector]> (λ _, zeros)) 1 nmeta [] [].
Proof.
  assert (∀ n, n ≠ 1 → (<[1 := super_sector]> (λ _, zeros) : Z → block) n = zeros) as Hz by (intros n Hn; by rewrite fn_lookup_insert_ne).
  split; try done.
  - intros n Hn. apply Hz. rewrite nmeta_eq in Hn. lia.
  - intros i _ Hi. by apply zero_inode.
  - cbn. lia.
Qed.
Lemma wp_dots s : holds_files s [] →
  wp E (Img.ialloc T_DIR) (λ r s1, r = 1 ∧ wp E (Img.iappend 1 (dirent_bytes (xshort 1) (46 :: replicate 13 0))) (λ _ s2,
    wp E (Img.iappend 1 (dirent_bytes (xshort 1) (46 :: 46 :: replicate 12 0))) (λ _ s3, holds_files s3 (image_files [])) s2) s1) s.
Proof.
  intros Hs. eapply wp_ialloc_img; [exact Hs|done|cbn; lia|]. intros s1 Hs1. split; [done|]. cbn [app] in Hs1.
  eapply (wp_iappend E 0 (T_DIR, [])); [exact Hs1|done|apply (Nat.le_trans _ 512); [by apply Nat.leb_le|lia]|done|]. intros s2 Hs2.
  eapply (wp_iappend E 0 (T_DIR, dirent_bytes 1 (46 :: replicate 13 0))); [exact Hs2|done|apply (Nat.le_trans _ 512); [by apply Nat.leb_le|lia]|done|]. intros s3 Hs3. exact Hs3.
Qed.
(** The size of the root directory and the free map. *)
Lemma wp_finish files s : holds_files s (image_files files) → mkfs_fits files →
  wp E (Img.fix_root 1) (λ _ s1, wp E (Img.balloc (s32 (im_freeblock s1)))
    (λ _ s2, ∃ cur fi fb, im_ok s2 cur fi fb ∧ image_of files cur) s1) s.
Proof.
  intros (cur & fi & fb & G & Hs & Hb) Hfit. destruct (bu_fi _ _ _ _ _ Hb) as (Hfi & _ & HlG). destruct (bu_fb _ _ _ _ _ Hb) as [Hfb Hfs].
  pose proof (mf_inodes _ Hfit) as Hni. pose proof (length_root_bytes files) as Hlr. pose proof (total_ge (image_files files)) as Htg. rewrite nmeta_eq in Htg.
  destruct (lookup_lt_is_Some_2 G 0) as [d Hd]; [rewrite HlG, length_image_files; lia|].
  destruct (bu_file _ _ _ _ _ Hb 0 (T_DIR, root_bytes files) d eq_refl Hd) as ([_ _ _ Hsz] & Hg & _). cbn [snd] in Hsz.
  pose proof (index_inum _ _ _ _ _ Hb _ _ Hd) as Hok. change (Z.of_nat 0 + 1) with 1 in Hok. pose proof (bu_inode _ _ _ _ _ Hb _ _ Hd) as Hdi. change (Z.of_nat 0 + 1) with 1 in Hdi.
  assert (Z.of_nat (length (root_bytes files)) / 512 < 7) as Hq by (apply Z.div_lt_upper_bound; lia).
  pose proof (Z.div_pos (Z.of_nat (length (root_bytes files))) 512 ltac:(lia) ltac:(lia)).
  unfold Img.fix_root. apply wp_bind. eapply wp_rinode; [exact Hs|exact Hok|exact Hdi|]. rewrite Hsz, (xint_small (Z.of_nat _)) by lia. change BSIZE with 512.
  rewrite u32_small by lia. rewrite xint_small by lia. fold (root_size files).
  eapply wp_winode; [exact Hs|exact Hok| |].
  { destruct (gr_ok _ _ _ _ _ Hg) as [D1 D2 D3 D4 D5 D6 D7 D8 D9 D10]. split; cbn; try done. unfold root_size. lia. }
  intros s1 cur1 Hs1 Hn1 Hi1. rewrite (io_fb _ _ _ _ Hs1), s32_small by (unfold FSSIZE in *; lia).
  unfold Img.balloc. change BSIZE with 512. rewrite decide_True by (unfold FSSIZE in *; lia). apply wp_bind.
  destruct (mark_bits_spec (Z.to_nat fb) 0 zeroes) as (y & Hy & Hyb & Hbits); [done|lia|change BPB with 4096; unfold FSSIZE in *; lia|].
  eapply wp_of_opt; [exact Hy|]. change (sb_bmapstart sb) with 83.
  eapply wp_wsect; [exact Hs1|done|exact Hyb|]. intros s2 Hs2. eexists _, _, _. split; [exact Hs2|]. pose proof (inode_block _ Hok) as Hib.
  eapply (final_image files cur fi fb G Hb Hni d Hd).
  - rewrite fn_lookup_insert_ne by done. apply Hn1. lia.
  - intros n Hn. rewrite nmeta_eq in Hn. rewrite fn_lookup_insert_ne by lia. apply Hn1. lia.
  - intros b Hr. rewrite fn_lookup_insert, Hbits, bit_zeros by done. apply bool_decide_ext. lia.
  - intros i Hi. rewrite <- Hi1 by done. apply disk_inode_frame, fn_lookup_insert_ne. pose proof (inode_block _ Hi). lia.
Qed.
Lemma wp_mkfs files : mkfs_fits files →
  wp E (Img.main files) (λ _ s, ∃ cur fi fb, im_ok s cur fi fb ∧ image_of files cur) start.
Proof.
  intros Hfit. unfold Img.main. apply wp_bind, wp_zero_image. intros s Hs. apply wp_bind.
  eapply wp_wsect; [exact Hs|done|done|]. intros s1 Hs1. apply wp_bind.
  eapply wp_mono; [apply wp_dots; eexists _, _, _, _; split; [exact Hs1|apply built_empty]|]. intros r s2 [-> Hs2].
  rewrite decide_True by done. apply wp_bind. eapply wp_mono; [exact Hs2|]. intros [] s3 Hs3.
  apply wp_bind. eapply wp_mono; [exact Hs3|]. intros [] s4 Hs4.
  apply wp_bind. eapply wp_mono; [by apply wp_add_files|]. intros [] s5 Hs5.
  apply wp_bind. eapply wp_mono; [by apply wp_finish|]. intros [] s6 Hs6. apply wp_bind, wp_gets. exact Hs6.
Qed.
End main.

(** C36. mkfs, given files whose names have no slash and that fit on the disk, ends
    without a failed assertion and leaves an image that is a file system for the
    kernel: the super block and the layout are as fs.c expects them, the free map
    marks exactly the blocks up to the last one taken, inode k + 1 holds file k
    with its contents and the default owner and mode, other inodes are free, every
    block in use belongs to exactly one file, and the root directory has ".", ".."
    and the names, without a leading underscore and cut at 14 characters (its size
    is rounded up to a block, which is mapped unless the entries fill their last
    block). *)
Theorem mkfs_image files : mkfs_fits files →
  ∃ s cur, Img.main files start = Ok (tt, s) ∧ length (im_img s) = Z.to_nat FSSIZE ∧
    (∀ n, 0 ≤ n < FSSIZE → im_img s !! Z.to_nat n = Some (cur n)) ∧ image_of files cur.
Proof.
  intros Hfit. destruct (wp_total _ _ _ (wp_mkfs _ files Hfit)) as ([] & s & Hrun & cur & fi & fb & Hs & Him).
  exists s, cur. split_and!; [done|apply Hs|intros n Hn; by apply Hs|done].
Qed.
Definition two_files : list (list Z * list (list Z)) := [([95; 99; 97; 116; 0], [[1; 2; 3]; [4]]); ([65; 0], [])].
Lemma mkfs_image_witness : mkfs_fits two_files ∧ ∃ s cur, Img.main two_files start = Ok (tt, s) ∧ length (im_img s) = Z.to_nat FSSIZE ∧
    (∀ n, 0 ≤ n < FSSIZE → im_img s !! Z.to_nat n = Some (cur n)) ∧ image_of two_files cur.
Proof.
  assert (mkfs_fits two_files) as Hf.
  { split.
    - intros file [->|[->|Hf]%elem_of_cons]%elem_of_cons; [split; [unfold terminated; set_solver|]..|set_solver]; cbn; set_solver.
    - cbn. lia.
    - intros file [->|[->|Hf]%elem_of_cons]%elem_of_cons; [apply (Nat.le_trans _ 512); [by apply Nat.leb_le|lia]..|by apply not_elem_of_nil in Hf].
    - by vm_compute. }
  split; [exact Hf|]. apply (mkfs_image two_files Hf).
Defined.
