(* ===== verification/Shell.v ===== *)
(** * The shell's parser (sh.c)

    parsecmd reads a command line held in a buffer and builds a tree of command
    structs.  The state is the buffer, the heap of structs allocated so far and
    the cursor [*ps] that every parsing routine advances.  A pointer into the
    line is its offset in the buffer, a pointer to a struct is its index in the
    heap; [None] is the null pointer.  Allocation succeeds: sh.c does not test
    the result of malloc.  A panic of the shell prints its message and exits.

    The recursive routines and the loops take a fuel; [parse_fuel] is what
    parsecmd gives them. *)

From S2P Require Import Prelude CString.
Local Open Scope Z_scope.

Definition MAXARGS : nat := 10.
(** fcntl.h *)
Definition O_RDONLY : Z := 0.
Definition O_WRONLY : Z := 1.
Definition O_CREATE : Z := 512.

Inductive cmd :=
| Execcmd (argv eargv : list (option nat))
| Redircmd (c : option nat) (file efile : nat) (mode fd : Z)
| Pipecmd (left right : option nat)
| Listcmd (left right : option nat)
| Backcmd (c : option nat).

Record shell := Shell { sh_buf : list Z; sh_heap : list cmd; sh_s : nat }.

Definition set_s (s : nat) : M shell unit := modS (λ st, Shell (sh_buf st) (sh_heap st) s).
(** [*p] and [*p = c] for a pointer into the line *)
Definition load (p : nat) : M shell Z := let! st := getS in of_opt (sh_buf st !! p).
Definition store (p : nat) (c : Z) : M shell unit :=
  let! _ := load p in modS (λ st, Shell (<[p := c]> (sh_buf st)) (sh_heap st) (sh_s st)).
(** malloc of a struct, its fields set *)
Definition new_cmd (c : cmd) : M shell (option nat) :=
  let! st := getS in
  modS (λ st, Shell (sh_buf st) (sh_heap st ++ [c]) (sh_s st)) ;;;
  ret (Some (length (sh_heap st))).
(** [*p] for a pointer to a struct; the null pointer is not dereferenced *)
Definition load_cmd (p : option nat) : M shell cmd :=
  let! st := getS in of_opt (p ≫= λ i, sh_heap st !! i).

(** ** Constructors *)
Definition execcmd : M shell (option nat) :=
  new_cmd (Execcmd (replicate MAXARGS None) (replicate MAXARGS None)).
Definition redircmd (subcmd : option nat) (file efile : nat) (mode fd : Z) : M shell (option nat) :=
  new_cmd (Redircmd subcmd file efile mode fd).
Definition pipecmd (left right : option nat) : M shell (option nat) := new_cmd (Pipecmd left right).
Definition listcmd (left right : option nat) : M shell (option nat) := new_cmd (Listcmd left right).
Definition backcmd (subcmd : option nat) : M shell (option nat) := new_cmd (Backcmd subcmd).

(** ** Tokens *)
Definition whitespace : list Z := [32; 9; 13; 10; 11; 0].
(** ['<' '|' '>' '&' ';' '(' ')'] *)
Definition symbols : list Z := [60; 124; 62; 38; 59; 40; 41; 0].

(** [strchr(set, c) != 0] *)
Definition in_set (set : list Z) (c : Z) : M shell bool :=
  let! r := of_opt (strchr set c) in ret (bool_decide (is_Some r)).

(** [while(s < es && strchr(whitespace, *s)) s++], with [n = es - s] *)
Fixpoint skip_white (n s : nat) : M shell nat :=
  match n with
  | O => ret s
  | S n' =>
      let! c := load s in
      let! w := in_set whitespace c in
      if w : bool then skip_white n' (S s) else ret s
  end.
(** [while(s < es && !strchr(whitespace, *s) && !strchr(symbols, *s)) s++] *)
Fixpoint skip_word (n s : nat) : M shell nat :=
  match n with
  | O => ret s
  | S n' =>
      let! c := load s in
      let! w := in_set whitespace c in
      if w : bool then ret s
      else
        let! y := in_set symbols c in
        if y : bool then ret s else skip_word n' (S s)
  end.

(** The switch of gettoken: the code of the token and the pointer behind it
    (['>' = 62], ['+' = 43], ['a' = 97]). *)
Definition token_at (es s : nat) : M shell (Z * nat) :=
  let! c := load s in
  if decide (c = 0) then ret (0, s)
  else if decide (c ∈ [124; 40; 41; 59; 38; 60]) then ret (c, S s)
  else if decide (c = 62) then
    let! d := load (S s) in
    if decide (d = 62) then ret (43, S (S s)) else ret (62, S s)
  else let! s := skip_word (es - s) s in ret (97, s).

Definition gettoken (es : nat) : M shell (Z * nat * nat) :=
  let! st := getS in
  let! q := skip_white (es - sh_s st) (sh_s st) in
  let! r := token_at es q in
  let! s := skip_white (es - r.2) r.2 in
  set_s s ;;;
  ret (r.1, q, r.2).

Definition peek (es : nat) (toks : list Z) : M shell bool :=
  let! st := getS in
  let! s := skip_white (es - sh_s st) (sh_s st) in
  set_s s ;;;
  let! c := load s in
  if decide (c = 0) then ret false else in_set toks c.

(** ** Commands *)

(** The modes of a redirection, by the code of its token. *)
Definition redir_mode (tok : Z) : option (Z * Z) :=
  if decide (tok = 60) then Some (O_RDONLY, 0)
  else if decide (tok = 62) then Some (Z.lor O_WRONLY O_CREATE, 1)
  else if decide (tok = 43) then Some (Z.lor O_WRONLY O_CREATE, 1)
  else None.

Fixpoint parseredirs (fuel : nat) (es : nat) (c : option nat) : M shell (option nat) :=
  match fuel with
  | O => diverge
  | S fuel' =>
      let! b := peek es [60; 62; 0] in
      if b : bool then
        let! op := gettoken es in
        let! w := gettoken es in
        if decide (w.1.1 ≠ 97) then panic "missing file for redirection"
        else
          match redir_mode op.1.1 with
          | Some (mode, fd) =>
              let! c := redircmd c w.1.2 w.2 mode fd in parseredirs fuel' es c
          | None => parseredirs fuel' es c
          end
      else ret c
  end.

(** [cmd->argv[argc] = q; cmd->eargv[argc] = eq] *)
Definition set_arg (c : option nat) (argc : nat) (q eq : option nat) : M shell unit :=
  let! x := load_cmd c in
  match c, x with
  | Some i, Execcmd argv eargv =>
      if decide (argc < length argv ∧ argc < length eargv)%nat then
        modS (λ st, Shell (sh_buf st)
          (<[i := Execcmd (<[argc := q]> argv) (<[argc := eq]> eargv)]> (sh_heap st)) (sh_s st))
      else fault
  | _, _ => fault
  end.

(** The loop of parseexec: the number of arguments and the outermost command. *)
Fixpoint parseargs (fuel es : nat) (c : option nat) (argc : nat) (r : option nat)
    : M shell (nat * option nat) :=
  match fuel with
  | O => diverge
  | S fuel' =>
      let! b := peek es [124; 41; 38; 59; 0] in
      if b : bool then ret (argc, r)
      else
        let! t := gettoken es in
        if decide (t.1.1 = 0) then ret (argc, r)
        else if decide (t.1.1 ≠ 97) then panic "syntax"
        else
          set_arg c argc (Some t.1.2) (Some t.2) ;;;
          if decide (MAXARGS ≤ S argc)%nat then panic "too many args"
          else
            let! r := parseredirs fuel' es r in
            parseargs fuel' es c (S argc) r
  end.

(** [while(peek(ps, es, "&")) { gettoken(ps, es, 0, 0); cmd = backcmd(cmd); }] *)
Fixpoint parseback (fuel es : nat) (c : option nat) : M shell (option nat) :=
  match fuel with
  | O => diverge
  | S fuel' =>
      let! b := peek es [38; 0] in
      if b : bool then
        let! _ := gettoken es in
        let! c := backcmd c in
        parseback fuel' es c
      else ret c
  end.

Fixpoint parseline (fuel es : nat) : M shell (option nat) :=
  match fuel with
  | O => diverge
  | S fuel' =>
      let! c := parsepipe fuel' es in
      let! c := parseback fuel' es c in
      let! b := peek es [59; 0] in
      if b : bool then
        let! _ := gettoken es in
        let! r := parseline fuel' es in
        listcmd c r
      else ret c
  end
with parsepipe (fuel es : nat) : M shell (option nat) :=
  match fuel with
  | O => diverge
  | S fuel' =>
      let! c := parseexec fuel' es in
      let! b := peek es [124; 0] in
      if b : bool then
        let! _ := gettoken es in
        let! r := parsepipe fuel' es in
        pipecmd c r
      else ret c
  end
with parseexec (fuel es : nat) : M shell (option nat) :=
  match fuel with
  | O => diverge
  | S fuel' =>
      let! b := peek es [40; 0] in
      if b : bool then parseblock fuel' es
      else
        let! c := execcmd in
        let! r := parseredirs fuel' es c in
        let! x := parseargs fuel' es c 0 r in
        set_arg c x.1 None None ;;;
        ret x.2
  end
with parseblock (fuel es : nat) : M shell (option nat) :=
  match fuel with
  | O => diverge
  | S fuel' =>
      let! b := peek es [40; 0] in
      if b : bool then
        let! _ := gettoken es in
        let! c := parseline fuel' es in
        let! b := peek es [41; 0] in
        if b : bool then
          let! _ := gettoken es in
          parseredirs fuel' es c
        else panic "syntax - missing )"
      else panic "parseblock"
  end.

(** [for(i=0; ecmd->argv[i]; i++) *ecmd->eargv[i] = 0] *)
Fixpoint nul_args (argv eargv : list (option nat)) : M shell unit :=
  match argv, eargv with
  | None :: _, _ => skip
  | Some _ :: argv', Some e :: eargv' => store e 0 ;;; nul_args argv' eargv'
  | _, _ => fault
  end.

Fixpoint nulterminate (fuel : nat) (p : option nat) : M shell unit :=
  match fuel with
  | O => diverge
  | S fuel' =>
      match p with
      | None => skip
      | Some _ =>
          let! x := load_cmd p in
          match x with
          | Execcmd argv eargv => nul_args argv eargv
          | Redircmd c _ efile _ _ => nulterminate fuel' c ;;; store efile 0
          | Pipecmd l r => nulterminate fuel' l ;;; nulterminate fuel' r
          | Listcmd l r => nulterminate fuel' l ;;; nulterminate fuel' r
          | Backcmd c => nulterminate fuel' c
          end
      end
  end.

Definition parse_fuel (len : nat) : nat := 4 * len + 4.

Definition parsecmd (s : nat) : M shell (option nat) :=
  let! st := getS in
  let! n := of_opt (strlen (drop s (sh_buf st))) in
  let es := (s + n)%nat in
  set_s s ;;;
  let! c := parseline (parse_fuel n) es in
  let! _ := peek es [0] in
  let! st := getS in
  if decide (sh_s st ≠ es) then panic "syntax"
  else
    nulterminate (S (length (sh_heap st))) c ;;;
    ret c.
