(* ===== verification/ShellSpec.v ===== *)
(** * The language of the shell: tokens, grammar and printing

    The specification sh.c is measured against: how a line splits into tokens
    ([lex]), which sequences of tokens are commands ([gram]) and what they mean
    ([ast]), and how a command is written down ([show], [spell]).  [r_line] is a
    recursive-descent parser on token lists, sound and complete for the grammar;
    it stands between sh.c and the grammar. *)

From S2P Require Import Prelude CString Shell.
Local Open Scope Z_scope.

Notation word := (list Z).

Inductive tok := TWord (w : word) | TLt | TGt | TApp | TBar | TAmp | TSemi | TOpen | TClose.
#[global] Instance tok_eq_dec : EqDecision tok.
Proof. solve_decision. Defined.

Inductive ast :=
| AExec (args : list word)
| ARedir (a : ast) (file : word) (mode fd : Z)
| APipe (a b : ast)
| AList (a b : ast)
| ABack (a : ast).

(** ** Tokens of a line *)
Definition white (c : Z) : Prop := c ∈ [32; 9; 13; 10; 11].
Definition symbol (c : Z) : Prop := c ∈ [60; 124; 62; 38; 59; 40; 41].
(** A character of a word. *)
Definition wordc (c : Z) : Prop := ¬ white c ∧ ¬ symbol c.
#[global] Instance white_dec c : Decision (white c) := _.
#[global] Instance symbol_dec c : Decision (symbol c) := _.
#[global] Instance wordc_dec c : Decision (wordc c) := _.

(** The symbols that are a token on their own. *)
Inductive single : Z → tok → Prop :=
| single_lt : single 60 TLt
| single_bar : single 124 TBar
| single_amp : single 38 TAmp
| single_semi : single 59 TSemi
| single_open : single 40 TOpen
| single_close : single 41 TClose.

(** [l] does not start with a character of [P]. *)
Definition stops (P : Z → Prop) (l : list Z) : Prop :=
  match l with [] => True | c :: _ => ¬ P c end.

Inductive lex : list Z → list tok → Prop :=
| lex_end : lex [] []
| lex_white c l ts : white c → lex l ts → lex (c :: l) ts
| lex_single c t l ts : single c t → lex l ts → lex (c :: l) (t :: ts)
| lex_gt l ts : stops (eq 62) l → lex l ts → lex (62 :: l) (TGt :: ts)
| lex_app l ts : lex l ts → lex (62 :: 62 :: l) (TApp :: ts)
| lex_word w l ts :
    w ≠ [] → Forall wordc w → stops wordc l → lex l ts → lex (w ++ l) (TWord w :: ts).

(** ** The grammar *)
Definition redir : Type := word * Z * Z.

(** The token of a redirection, with the mode and the descriptor it opens. *)
Definition tok_mode (t : tok) : option (Z * Z) :=
  match t with
  | TLt => Some (O_RDONLY, 0)
  | TGt | TApp => Some (Z.lor O_WRONLY O_CREATE, 1)
  | _ => None
  end.

Definition wrap (a : ast) (rs : list redir) : ast :=
  foldl (λ a r, ARedir a r.1.1 r.1.2 r.2) a rs.

Inductive g_redirs : list tok → list redir → Prop :=
| gr_nil : g_redirs [] []
| gr_cons t w m fd ts rs :
    tok_mode t = Some (m, fd) → g_redirs ts rs →
    g_redirs (t :: TWord w :: ts) ((w, m, fd) :: rs).

(** Arguments and redirections, in any order. *)
Inductive g_items : list tok → list word → list redir → Prop :=
| gi_nil : g_items [] [] []
| gi_arg w ts args rs : g_items ts args rs → g_items (TWord w :: ts) (w :: args) rs
| gi_redir t w m fd ts args rs :
    tok_mode t = Some (m, fd) → g_items ts args rs →
    g_items (t :: TWord w :: ts) args ((w, m, fd) :: rs).

Inductive level := Line | Pipe | Cmd.

Inductive gram : level → list tok → ast → Prop :=
| g_simple ts args rs :
    g_items ts args rs → (length args < MAXARGS)%nat → gram Cmd ts (wrap (AExec args) rs)
| g_block ts a ts' rs :
    gram Line ts a → g_redirs ts' rs → gram Cmd (TOpen :: ts ++ TClose :: ts') (wrap a rs)
| g_cmd ts a : gram Cmd ts a → gram Pipe ts a
| g_pipe ts a ts' b :
    gram Cmd ts a → gram Pipe ts' b → gram Pipe (ts ++ TBar :: ts') (APipe a b)
| g_last ts a n : gram Pipe ts a → gram Line (ts ++ replicate n TAmp) (Nat.iter n ABack a)
| g_list ts a n ts' b :
    gram Pipe ts a → gram Line ts' b →
    gram Line (ts ++ replicate n TAmp ++ TSemi :: ts') (AList (Nat.iter n ABack a) b).

(** ** A parser on tokens *)
Fixpoint r_redirs (ts : list tok) : option (list redir * list tok) :=
  match ts with
  | [] => Some ([], [])
  | t :: ts1 =>
      match tok_mode t with
      | None => Some ([], ts)
      | Some (m, fd) =>
          match ts1 with
          | TWord w :: ts2 => '(rs, ts3) ← r_redirs ts2; Some ((w, m, fd) :: rs, ts3)
          | _ => None
          end
      end
  end.

Fixpoint r_items (argc : nat) (ts : list tok) : option (list word * list redir * list tok) :=
  match ts with
  | [] => Some ([], [], [])
  | t :: ts1 =>
      match t with
      | TBar | TClose | TAmp | TSemi => Some ([], [], ts)
      | TOpen => None
      | TWord w =>
          if decide (MAXARGS ≤ S argc)%nat then None
          else '(args, rs, ts2) ← r_items (S argc) ts1; Some (w :: args, rs, ts2)
      | TLt | TGt | TApp =>
          match tok_mode t, ts1 with
          | Some (m, fd), TWord w :: ts2 =>
              '(args, rs, ts3) ← r_items argc ts2; Some (args, (w, m, fd) :: rs, ts3)
          | _, _ => None
          end
      end
  end.

Fixpoint r_back (a : ast) (ts : list tok) : ast * list tok :=
  match ts with TAmp :: ts' => r_back (ABack a) ts' | _ => (a, ts) end.

Fixpoint r_line (fuel : nat) (ts : list tok) : option (ast * list tok) :=
  match fuel with
  | O => None
  | S fuel' =>
      '(a, ts1) ← r_pipe fuel' ts;
      let '(a, ts2) := r_back a ts1 in
      match ts2 with
      | TSemi :: ts3 => '(b, ts4) ← r_line fuel' ts3; Some (AList a b, ts4)
      | _ => Some (a, ts2)
      end
  end
with r_pipe (fuel : nat) (ts : list tok) : option (ast * list tok) :=
  match fuel with
  | O => None
  | S fuel' =>
      '(a, ts1) ← r_cmd fuel' ts;
      match ts1 with
      | TBar :: ts2 => '(b, ts3) ← r_pipe fuel' ts2; Some (APipe a b, ts3)
      | _ => Some (a, ts1)
      end
  end
with r_cmd (fuel : nat) (ts : list tok) : option (ast * list tok) :=
  match fuel with
  | O => None
  | S fuel' =>
      match ts with
      | TOpen :: _ => r_block fuel' ts
      | _ => '(args, rs, ts1) ← r_items 0 ts; Some (wrap (AExec args) rs, ts1)
      end
  end
with r_block (fuel : nat) (ts : list tok) : option (ast * list tok) :=
  match fuel with
  | O => None
  | S fuel' =>
      match ts with
      | TOpen :: ts1 =>
          '(a, ts2) ← r_line fuel' ts1;
          match ts2 with
          | TClose :: ts3 => '(rs, ts4) ← r_redirs ts3; Some (wrap a rs, ts4)
          | _ => None
          end
      | _ => None
      end
  end.

(** ** Printing *)
Definition show_redir (w : word) (fd : Z) : list tok := [if decide (fd = 0) then TLt else TGt; TWord w].
Definition paren (ts : list tok) : list tok := TOpen :: ts ++ [TClose].

(** How tightly a command binds: [0] a simple command or one with redirections,
    [1] a pipe, [2] a command in the background, [3] a list. *)
Definition prec (a : ast) : nat :=
  match a with AExec _ | ARedir _ _ _ _ => 0 | APipe _ _ => 1 | ABack _ => 2 | AList _ _ => 3 end.

(** The tokens of [a] where a command that binds at least as tightly as [k] is
    expected. *)
Fixpoint show (k : nat) (a : ast) : list tok :=
  let ts :=
    match a with
    | AExec args => TWord <$> args
    | ARedir b w _ fd => show 0 b ++ show_redir w fd
    | APipe b c => show 0 b ++ TBar :: show 1 c
    | ABack b => show 2 b ++ [TAmp]
    | AList b c => show 2 b ++ TSemi :: show 3 c
    end in
  if decide (prec a ≤ k)%nat then ts else paren ts.

Definition spell_tok (t : tok) : list Z :=
  match t with
  | TWord w => w
  | TLt => [60] | TGt => [62] | TApp => [62; 62] | TBar => [124] | TAmp => [38]
  | TSemi => [59] | TOpen => [40] | TClose => [41]
  end.
(** Every token followed by a blank. *)
Definition spell (ts : list tok) : list Z := concat ((λ t, spell_tok t ++ [32]) <$> ts).

(** Words that can be written without quotes. *)
Definition word_ok (w : word) : Prop := w ≠ [] ∧ Forall (λ c, wordc c ∧ 0 < c < 256) w.
Definition tok_ok (t : tok) : Prop := match t with TWord w => word_ok w | _ => True end.

(** Commands the shell can express. *)
Fixpoint valid (a : ast) : Prop :=
  match a with
  | AExec args => Forall word_ok args ∧ (length args < MAXARGS)%nat
  | ARedir b w m fd =>
      valid b ∧ word_ok w ∧
      ((m = O_RDONLY ∧ fd = 0) ∨ (m = Z.lor O_WRONLY O_CREATE ∧ fd = 1))
  | APipe b c | AList b c => valid b ∧ valid c
  | ABack b => valid b
  end.

#[global] Instance word_ok_dec w : Decision (word_ok w) := _.
#[global] Instance valid_dec a : Decision (valid a).
Proof. induction a; simpl; apply _. Defined.

(** ** The parser on tokens is sound and complete *)

Lemma wrap_snoc a rs r : wrap a (rs ++ [r]) = ARedir (wrap a rs) r.1.1 r.1.2 r.2.
Proof. unfold wrap. by rewrite foldl_snoc. Qed.

Lemma r_redirs_sound ts rs ts' :
  r_redirs ts = Some (rs, ts') → ∃ ts0, ts = ts0 ++ ts' ∧ g_redirs ts0 rs.
Proof.
  revert rs ts'. induction ts as [ts IH] using (well_founded_induction (well_founded_ltof _ length)).
  intros rs ts'. destruct ts as [|t ts1]; simpl.
  - intros [= <- <-]. exists []. split; [done|constructor].
  - destruct (tok_mode t) as [[m fd]|] eqn:Et.
    + destruct ts1 as [|[w| | | | | | | |] ts2]; try done.
      destruct (r_redirs ts2) as [[rs2 ts3]|] eqn:E2; [|done]. simpl. intros [= <- <-].
      destruct (IH ts2) with (rs := rs2) (ts' := ts3) as (ts0 & -> & Hg);
        [unfold ltof; simpl; lia|done|].
      exists (t :: TWord w :: ts0). split; [done|by constructor].
    + intros [= <- <-]. exists []. split; [done|constructor].
Qed.

Lemma r_items_sound n ts args rs ts' :
  r_items n ts = Some (args, rs, ts') → (n < MAXARGS)%nat →
  ∃ ts0, ts = ts0 ++ ts' ∧ g_items ts0 args rs ∧ (n + length args < MAXARGS)%nat.
Proof.
  revert n args rs ts'. induction ts as [ts IH] using (well_founded_induction (well_founded_ltof _ length)).
  intros n args rs ts' Hr Hn. destruct ts as [|t ts1]; simpl in Hr.
  { simplify_eq. exists []. split_and!; [done|constructor|simpl; lia]. }
  assert (∀ m fd, tok_mode t = Some (m, fd) →
    match ts1 with
    | TWord w :: ts2 => '(args, rs, ts3) ← r_items n ts2; Some (args, (w, m, fd) :: rs, ts3)
    | _ => None
    end = Some (args, rs, ts') →
    ∃ ts0, t :: ts1 = ts0 ++ ts' ∧ g_items ts0 args rs ∧ (n + length args < MAXARGS)%nat) as Hredir.
  { intros m fd Et E. destruct ts1 as [|[w| | | | | | | |] ts2]; try done.
    destruct (r_items n ts2) as [[[args2 rs2] ts3]|] eqn:E2; [|done]. simplify_eq/=.
    destruct (IH ts2) with (n := n) (args := args) (rs := rs2) (ts' := ts')
      as (ts0 & -> & Hg & Hl); [unfold ltof; simpl; lia|done|done|].
    exists (t :: TWord w :: ts0). split_and!; [done|by constructor|done]. }
  destruct t as [w| | | | | | | |]; simplify_eq/=;
    try (exists []; split_and!; [done|constructor|simpl; lia]);
    try (by eapply Hredir).
  destruct (decide (MAXARGS ≤ S n)%nat); [done|].
  destruct (r_items (S n) ts1) as [[[args2 rs2] ts3]|] eqn:E2; [|done]. simplify_eq/=.
  destruct (IH ts1) with (n := S n) (args := args2) (rs := rs) (ts' := ts')
    as (ts0 & -> & Hg & Hl); [unfold ltof; simpl; lia|done|lia|].
  exists (TWord w :: ts0). split_and!; [done|by constructor|lia].
Qed.

Lemma r_back_sound a ts a' ts' :
  r_back a ts = (a', ts') → ∃ n, ts = replicate n TAmp ++ ts' ∧ a' = Nat.iter n ABack a.
Proof.
  revert a. induction ts as [|t ts IH]; intros a; simpl; [intros [= <- <-]; by exists O|].
  destruct t; try (intros [= <- <-]; by exists O).
  intros (n & -> & ->)%IH. exists (S n). split; [done|]. by rewrite Nat.iter_succ_r.
Qed.

Lemma r_sound fuel :
  (∀ ts a ts', r_line fuel ts = Some (a, ts') → ∃ ts0, ts = ts0 ++ ts' ∧ gram Line ts0 a) ∧
  (∀ ts a ts', r_pipe fuel ts = Some (a, ts') → ∃ ts0, ts = ts0 ++ ts' ∧ gram Pipe ts0 a) ∧
  (∀ ts a ts', r_cmd fuel ts = Some (a, ts') → ∃ ts0, ts = ts0 ++ ts' ∧ gram Cmd ts0 a) ∧
  (∀ ts a ts', r_block fuel ts = Some (a, ts') → ∃ ts0, ts = ts0 ++ ts' ∧ gram Cmd ts0 a).
Proof.
  induction fuel as [|fuel (IHl & IHp & IHc & IHb)]; [done|]. split_and!; intros ts a ts'; simpl.
  - destruct (r_pipe fuel ts) as [[a1 ts1]|] eqn:E1; [|done]. simpl.
    apply IHp in E1 as (t1 & -> & G1).
    destruct (r_back a1 ts1) as [a2 ts2] eqn:E2. apply r_back_sound in E2 as (n & -> & ->).
    assert (ts2 = ts' ∧ a = Nat.iter n ABack a1 →
      ∃ ts0, t1 ++ replicate n TAmp ++ ts2 = ts0 ++ ts' ∧ gram Line ts0 a) as Hstop.
    { intros [-> ->]. exists (t1 ++ replicate n TAmp). by rewrite <- app_assoc; split; [|constructor]. }
    destruct ts2 as [|[w| | | | | | | |] ts3]; try (intros [= <- <-]; by apply Hstop).
    destruct (r_line fuel ts3) as [[b ts4]|] eqn:E3; [|done]. intros [= <- <-].
    apply IHl in E3 as (t3 & -> & G3).
    exists (t1 ++ replicate n TAmp ++ TSemi :: t3). split; [by rewrite <- !app_assoc|by constructor].
  - destruct (r_cmd fuel ts) as [[a1 ts1]|] eqn:E1; [|done]. simpl.
    apply IHc in E1 as (t1 & -> & G1).
    destruct ts1 as [|[w| | | | | | | |] ts2];
      try (intros [= <- <-]; exists t1; by split; [|constructor]).
    destruct (r_pipe fuel ts2) as [[b ts3]|] eqn:E3; [|done]. intros [= <- <-].
    apply IHp in E3 as (t3 & -> & G3). exists (t1 ++ TBar :: t3).
    split; [by rewrite <- app_assoc|by constructor].
  - assert (('(args, rs, ts1) ← r_items 0 ts; Some (wrap (AExec args) rs, ts1)) = Some (a, ts') →
      ∃ ts0, ts = ts0 ++ ts' ∧ gram Cmd ts0 a) as Hitems.
    { destruct (r_items 0 ts) as [[[args rs] ts1]|] eqn:E1; [|done]. intros [= <- <-].
      apply r_items_sound in E1 as (ts0 & -> & Hg & Hl); [|unfold MAXARGS; lia].
      exists ts0. split; [done|by constructor]. }
    destruct ts as [|[w| | | | | | | |] ts1]; auto.
  - destruct ts as [|[w| | | | | | | |] ts1]; try done.
    destruct (r_line fuel ts1) as [[b ts2]|] eqn:E1; [|done]. simpl.
    apply IHl in E1 as (t1 & -> & G1).
    destruct ts2 as [|[w| | | | | | | |] ts3]; try done.
    destruct (r_redirs ts3) as [[rs ts4]|] eqn:E2; [|done]. intros [= <- <-].
    apply r_redirs_sound in E2 as (t2 & -> & G2).
    exists (TOpen :: t1 ++ TClose :: t2). split; [|by constructor].
    simpl. by rewrite <- app_assoc.
Qed.

(** What may come after a phrase. *)
Definition follows (k : level) (t : tok) : Prop :=
  match t, k with
  | TClose, _ => True
  | (TAmp | TSemi), (Pipe | Cmd) => True
  | TBar, Cmd => True
  | _, _ => False
  end.
Definition ends (k : level) (rest : list tok) : Prop :=
  match rest with [] => True | t :: _ => follows k t end.

Lemma r_redirs_complete ts rs rest :
  g_redirs ts rs → ends Cmd rest → r_redirs (ts ++ rest) = Some (rs, rest).
Proof.
  intros Hg Hrest. induction Hg as [|t w m fd ts rs Ht Hg IH]; simpl.
  - by destruct rest as [|[] rest].
  - by rewrite Ht, IH.
Qed.

Lemma r_items_complete ts args rs n rest :
  g_items ts args rs → (n + length args < MAXARGS)%nat → ends Cmd rest →
  r_items n (ts ++ rest) = Some (args, rs, rest).
Proof.
  intros Hg Hn Hrest. revert n Hn. induction Hg as [|w ts args rs Hg IH|t w m fd ts args rs Ht Hg IH];
    intros n Hn; simpl in *.
  - by destruct rest as [|[] rest].
  - rewrite decide_False by lia. by rewrite IH by lia.
  - destruct t; simplify_eq/=; by rewrite IH.
Qed.

Lemma r_back_complete a n rest :
  ends Line rest ∨ head rest = Some TSemi →
  r_back a (replicate n TAmp ++ rest) = (Nat.iter n ABack a, rest).
Proof.
  intros Hrest. revert a. induction n as [|n IH]; intros a.
  - destruct rest as [|[] rest]; simpl in *; try done. by destruct Hrest.
  - change (r_back (ABack a) (replicate n TAmp ++ rest) = (Nat.iter (S n) ABack a, rest)).
    by rewrite IH, Nat.iter_succ_r.
Qed.

Definition r_level (k : level) : nat → list tok → option (ast * list tok) :=
  match k with Line => r_line | Pipe => r_pipe | Cmd => r_cmd end.
Definition r_depth (k : level) : nat := match k with Line => 4 | Pipe => 3 | Cmd => 2 end.

Lemma r_cmd_items fuel ts x :
  r_items 0 ts = Some x → r_cmd (S fuel) ts = Some (wrap (AExec x.1.1) x.1.2, x.2).
Proof. destruct x as [[args rs] ts1]. intros E. by destruct ts as [|[] ts]; simpl in *; simplify_eq/=; rewrite ?E. Qed.

Lemma r_complete k ts a :
  gram k ts a → ∀ rest fuel, ends k rest → (4 * length ts + r_depth k ≤ fuel)%nat →
  r_level k fuel (ts ++ rest) = Some (a, rest).
Proof.
  induction 1 as [ts args rs Hg Hl|ts a ts' rs G IH Hr|ts a G IH|ts a ts' b G1 IH1 G2 IH2
    |ts a n G IH|ts a n ts' b G1 IH1 G2 IH2]; intros rest fuel Hrest Hf;
    destruct fuel as [|fuel]; simpl in Hf; try lia.
  - unfold r_level. by rewrite (r_cmd_items _ _ (args, rs, rest)) by (by apply r_items_complete).
  - destruct fuel as [|fuel]; [simpl in Hf; lia|].
    rewrite length_app in Hf. simpl in Hf. simpl. rewrite <- app_assoc. simpl.
    simpl in IH. rewrite IH by (done || lia). simpl. by rewrite (r_redirs_complete _ _ _ Hr).
  - simpl in *. rewrite IH by (lia || by destruct rest as [|[] rest]).
    by destruct rest as [|[] rest].
  - rewrite length_app in Hf. simpl in *. rewrite <- app_assoc. simpl.
    rewrite IH1 by (done || lia). simpl. by rewrite IH2 by (done || lia).
  - rewrite length_app, length_replicate in Hf. simpl in *. rewrite <- app_assoc.
    rewrite IH; [|by destruct n, rest as [|[] rest]|lia].
    simpl. rewrite r_back_complete by auto. by destruct rest as [|[] rest].
  - rewrite !length_app, length_replicate in Hf. simpl in *. rewrite <- !app_assoc.
    rewrite IH1; [|by destruct n|lia].
    simpl. rewrite r_back_complete by auto. simpl. by rewrite IH2 by (done || lia).
Qed.

(** ** Printed commands are in the language *)

Lemma g_items_snoc ts args rs t w m fd :
  g_items ts args rs → tok_mode t = Some (m, fd) →
  g_items (ts ++ [t; TWord w]) args (rs ++ [(w, m, fd)]).
Proof.
  intros Hg Ht. induction Hg; simpl; constructor; try done. constructor.
Qed.
Lemma g_redirs_snoc ts rs t w m fd :
  g_redirs ts rs → tok_mode t = Some (m, fd) → g_redirs (ts ++ [t; TWord w]) (rs ++ [(w, m, fd)]).
Proof. intros Hg Ht. induction Hg; simpl; constructor; try done. constructor. Qed.

Lemma gram_redir ts a t w m fd :
  gram Cmd ts a → tok_mode t = Some (m, fd) →
  gram Cmd (ts ++ [t; TWord w]) (ARedir a w m fd).
Proof.
  intros G Ht. inversion G as [? args rs Hg Hl|ts0 b ts' rs Hg Hr| | | |]; subst.
  - rewrite <- (wrap_snoc _ _ (w, m, fd)). constructor; [|done]. by apply g_items_snoc.
  - rewrite <- (wrap_snoc _ _ (w, m, fd)). simpl. rewrite <- app_assoc. simpl.
    constructor; [done|]. by apply g_redirs_snoc.
Qed.

Lemma g_words args : g_items (TWord <$> args) args [].
Proof. induction args; simpl; by constructor. Qed.

Lemma gram_paren ts a : gram Line ts a → gram Cmd (paren ts) a.
Proof. intros G. apply (g_block _ a [] []); [done|constructor]. Qed.

(** The phrases [show k] prints. *)
Definition shown (k : nat) (ts : list tok) (a : ast) : Prop :=
  match k with
  | 0 => gram Cmd ts a
  | 1 => gram Pipe ts a
  | 2 => ∃ ts0 a0 n, gram Pipe ts0 a0 ∧ ts = ts0 ++ replicate n TAmp ∧ a = Nat.iter n ABack a0
  | _ => gram Line ts a
  end%nat.

Lemma shown_up k k' ts a : shown k ts a → (k ≤ k')%nat → shown k' ts a.
Proof.
  intros H Hk. induction Hk as [|k' Hk IH]; [done|].
  destruct k' as [|[|[|k']]]; simpl in *.
  - by constructor.
  - exists ts, a, O. by rewrite app_nil_r.
  - destruct IH as (ts0 & a0 & n & G & -> & ->). by constructor.
  - done.
Qed.

Lemma shown_paren k ts a : shown 3 ts a → shown k (paren ts) a.
Proof. intros G%gram_paren. apply (shown_up 0); [done|lia]. Qed.

Lemma show_eq k a :
  show k a = if decide (prec a ≤ k)%nat then show 3 a else paren (show 3 a).
Proof. by destruct a. Qed.

Lemma shown_show k a : shown (prec a) (show 3 a) a → shown k (show k a) a.
Proof.
  intros H. rewrite show_eq. destruct (decide (prec a ≤ k)%nat) as [Hk|Hk].
  - by apply (shown_up (prec a)).
  - apply shown_paren, (shown_up (prec a)); [done|]. destruct a; simpl; lia.
Qed.

Lemma show_gram a : valid a → ∀ k, shown k (show k a) a.
Proof.
  intros Hv k. apply shown_show. revert Hv k.
  induction a as [args|b IH w m fd|b IHb c IHc|b IHb c IHc|b IH]; intros Hv k;
    cbn [show prec shown decide]; simpl in Hv.
  - destruct Hv as [_ Hl]. apply (g_simple _ _ []); [apply g_words|done].
  - destruct Hv as (Hb & _ & Hm). apply gram_redir; [apply (shown_show 0), IH; [done|exact 0%nat]|].
    by destruct Hm as [[-> ->]|[-> ->]].
  - destruct Hv as [Hb Hc]. apply g_pipe.
    + apply (shown_show 0), IHb; [done|exact 0%nat].
    + apply (shown_show 1), IHc; [done|exact 0%nat].
  - destruct Hv as [Hb Hc].
    destruct (shown_show 2 b (IHb Hb 0%nat)) as (ts0 & a0 & n & G & -> & ->).
    rewrite <- app_assoc. apply g_list; [done|]. apply (shown_show 3), IHc; [done|exact 0%nat].
  - destruct (shown_show 2 b (IH Hv 0%nat)) as (ts0 & a0 & n & G & -> & ->).
    exists ts0, a0, (S n). split_and!; [done| |done].
    rewrite <- app_assoc. f_equal. change [TAmp] with (replicate 1 TAmp).
    by rewrite <- replicate_add, Nat.add_1_r.
Qed.

(** ** Spelled tokens read back *)

Lemma word_ok_lex w l ts :
  word_ok w → stops wordc l → lex l ts → lex (w ++ l) (TWord w :: ts).
Proof.
  intros [Hne Hw] Hl Hlex. constructor; try done.
  eapply list.Forall_impl; [done|]. by intros c [? _].
Qed.

Lemma lex_blank l ts : lex l ts → lex (32 :: l) ts.
Proof. constructor; [|done]. unfold white. set_solver. Qed.

Lemma stops_blank l : stops wordc (32 :: l).
Proof. intros [H _]. apply H. unfold white. set_solver. Qed.

Lemma lex_spell ts : Forall tok_ok ts → lex (spell ts) ts.
Proof.
  induction 1 as [|t ts Ht Hts IH]; [constructor|].
  unfold spell. cbn [fmap list_fmap concat]. rewrite <- app_assoc.
  apply lex_blank in IH. change ([32] ++ concat _) with (32 :: spell ts).
  destruct t; simpl; try (constructor; [constructor|done]); try by constructor.
  - apply word_ok_lex; [done|apply stops_blank|done].
Qed.

Lemma tok_ok_show k a : Forall tok_ok (show 3 a) → Forall tok_ok (show k a).
Proof.
  intros H. rewrite show_eq. destruct (decide _); [done|].
  constructor; [done|]. apply Forall_app. by repeat constructor.
Qed.

Lemma show_tok_ok k a : valid a → Forall tok_ok (show k a).
Proof.
  intros Hv. apply tok_ok_show. revert Hv.
  induction a as [args|b IH w m fd|b IHb c IHc|b IHb c IHc|b IH]; intros Hv; simpl in Hv;
    cbn [show prec];
    repeat match goal with |- context [decide (?n ≤ ?m)%nat] => rewrite (decide_True (P := (n ≤ m)%nat)) by lia end.
  - destruct Hv as [Ha _]. apply Forall_fmap. by eapply list.Forall_impl.
  - destruct Hv as (Hb & Hw & _). apply Forall_app. split; [by apply tok_ok_show, IH|].
    unfold show_redir. repeat constructor; [by destruct (decide (fd = 0))|apply Hw..].
  - destruct Hv. apply Forall_app. split; [by apply tok_ok_show, IHb|]. constructor; [done|by apply tok_ok_show, IHc].
  - destruct Hv. apply Forall_app. split; [by apply tok_ok_show, IHb|]. constructor; [done|by apply tok_ok_show, IHc].
  - apply Forall_app. split; [by apply tok_ok_show, IH|]. by repeat constructor.
Qed.

Lemma spell_nonzero ts : Forall tok_ok ts → 0 ∉ spell ts.
Proof.
  induction 1 as [|t ts Ht Hts IH]; [apply not_elem_of_nil|].
  unfold spell. cbn [fmap list_fmap concat]. change (concat _) with (spell ts).
  rewrite !elem_of_app. intros [[H|H]|H]; [|set_solver|done].
  destruct t; simpl in *; [|set_solver..]. destruct Ht as [_ Ht]. rewrite list.Forall_forall in Ht.
  specialize (Ht 0 H). lia.
Qed.
