(* ===== verification/ShellLex.v ===== *)
(** * gettoken and peek read the tokens of the line

    The cursor of the parser stands for the tokens that are left ([here]):
    gettoken takes the first of them, peek looks at it, and neither reads
    outside the line and its terminator. *)

From S2P Require Import Prelude CString Shell ShellSpec.
Local Open Scope Z_scope.

Lemma in_set_spec (cs : list Z) (c : Z) st :
  0 ∉ cs → in_set (cs ++ [0]) c st = Ok (bool_decide (c ∈ cs), st).
Proof.
  intros Hcs. unfold in_set.
  assert (∃ r, strchr (cs ++ [0]) c = Some r ∧ (is_Some r ↔ c ∈ cs)) as (r & -> & Hr).
  { induction cs as [|x cs IH]; simpl.
    - exists None. split; [done|]. rewrite is_Some_alt. set_solver.
    - rewrite decide_False by set_solver. destruct (decide (x = c)) as [->|Hne].
      + exists (Some O). split; [done|]. set_solver.
      + destruct IH as (r & -> & Hr); [set_solver|]. exists (S <$> r). split; [by destruct r|].
        rewrite fmap_is_Some, Hr. set_solver. }
  change (Ok (bool_decide (is_Some r), st) = Ok (bool_decide (c ∈ cs), st)).
  by rewrite (bool_decide_ext _ _ Hr).
Qed.

Lemma in_white c st : in_set whitespace c st = Ok (bool_decide (white c), st).
Proof. apply (in_set_spec [32; 9; 13; 10; 11]). set_solver. Qed.
Lemma in_symbols c st : in_set symbols c st = Ok (bool_decide (symbol c), st).
Proof. apply (in_set_spec [60; 124; 62; 38; 59; 40; 41]). set_solver. Qed.

(** ** Tokens of a list of characters *)
Fixpoint drop_while (P : Z → Prop) `{∀ c, Decision (P c)} (l : list Z) : list Z :=
  match l with c :: l' => if decide (P c) then drop_while P l' else l | [] => [] end.

Lemma drop_while_stops (P : Z → Prop) `{∀ c, Decision (P c)} l : stops P (drop_while P l).
Proof. induction l as [|c l IH]; simpl; [done|]. by destruct (decide (P c)). Qed.

Lemma single_spec c t : single c t → symbol c ∧ c ≠ 62.
Proof. unfold symbol. destruct 1; split; set_solver. Qed.
Lemma single_symbol c t : single c t → symbol c.
Proof. by intros []%single_spec. Qed.
Lemma wordc_not_white c : wordc c → ¬ white c.
Proof. by intros [? _]. Qed.
Lemma symbol_not_white c : symbol c → ¬ white c.
Proof. unfold symbol, white. set_solver. Qed.

Lemma lex_drop_white l ts : lex l ts → lex (drop_while white l) ts.
Proof.
  induction 1 as [|c l ts Hc Hl IH|c t l ts Hc Hl IH|l ts Hs Hl IH|l ts Hl IH|w l ts Hw Hc Hs Hl IH]; simpl.
  - constructor.
  - by rewrite decide_True.
  - rewrite decide_False by (by apply symbol_not_white, (single_spec _ t)). by constructor.
  - by constructor.
  - by constructor.
  - destruct w as [|c w]; [done|]. simpl. rewrite decide_False.
    + by apply (lex_word (c :: w)).
    + apply wordc_not_white. by inversion Hc.
Qed.

Lemma drop_word_app w l :
  Forall wordc w → stops wordc l → drop_while wordc (w ++ l) = l.
Proof.
  intros Hw Hs. induction Hw as [|c w Hc Hw IH]; simpl.
  - destruct l as [|c l]; [done|]. simpl in *. by rewrite decide_False.
  - by rewrite decide_True.
Qed.

Lemma lex_length l ts : lex l ts → (length ts ≤ length l)%nat.
Proof.
  induction 1; simpl in *; try lia. rewrite length_app. destruct w; simpl in *; [done|lia].
Qed.

Lemma word_prefix c l :
  wordc c → ∃ w l', c :: l = w ++ l' ∧ w ≠ [] ∧ Forall wordc w ∧ stops wordc l'.
Proof.
  revert c. induction l as [|d l IH]; intros c Hc.
  - exists [c], []. split_and!; try done. by apply Forall_singleton.
  - destruct (decide (wordc d)) as [Hd|Hd].
    + destruct (IH d Hd) as (w & l' & E & Hw & Hf & Hs). exists (c :: w), l'.
      rewrite E. split_and!; try done. by constructor.
    + exists [c], (d :: l). split_and!; try done. by apply Forall_singleton.
Qed.

(** Every line splits into tokens. *)
Lemma lex_total l : ∃ ts, lex l ts.
Proof.
  induction l as [l IH] using (well_founded_induction (well_founded_ltof _ length)).
  unfold ltof in IH. destruct l as [|c l]; [eexists; constructor|]. simpl in IH.
  destruct (IH l) as [ts Hts]; [lia|].
  destruct (decide (white c)); [eexists; by apply lex_white|].
  destruct (decide (symbol c)) as [Hc|Hc].
  - destruct (decide (c = 62)) as [->|].
    + destruct l as [|d l]; [eexists; by apply lex_gt|].
      destruct (decide (d = 62)) as [->|].
      * destruct (IH l) as [ts' Hts']; [simpl; lia|]. eexists. by apply lex_app.
      * eexists. apply lex_gt; [|done]. simpl. congruence.
    + assert (∃ t, single c t) as [t Ht].
      { unfold symbol in Hc. repeat (apply elem_of_cons in Hc as [->|Hc]); try (by eexists; constructor);
          [done|by apply not_elem_of_nil in Hc]. }
      eexists. by eapply lex_single.
  - destruct (word_prefix c l) as (w & l' & E & Hw & Hf & Hs); [done|]. rewrite E.
    destruct (IH l') as [ts' Hts']; [|eexists; by apply lex_word].
    apply (f_equal length) in E. rewrite length_app in E. destruct w; [done|]. simpl in E. lia.
Qed.

(** How the tokens of a line begin, by its first character. *)
Inductive lex_head (c : Z) (l : list Z) : list tok → Prop :=
| lh_white ts : white c → lex l ts → lex_head c l ts
| lh_single t ts : single c t → lex l ts → lex_head c l (t :: ts)
| lh_gt ts : c = 62 → stops (eq 62) l → lex l ts → lex_head c l (TGt :: ts)
| lh_app l' ts : c = 62 → l = 62 :: l' → lex l' ts → lex_head c l (TApp :: ts)
| lh_word w l' ts :
    wordc c → c :: l = w ++ l' → w ≠ [] → Forall wordc w → stops wordc l' → lex l' ts →
    lex_head c l (TWord w :: ts).

Lemma lex_cons c l ts : lex (c :: l) ts → lex_head c l ts.
Proof.
  remember (c :: l) as cl eqn:E. intros H. revert E.
  destruct H as [|c' l' ts Hc Hl|c' t l' ts Hc Hl|l' ts Hs Hl|l' ts Hl|w l' ts Hw Hf Hs Hl]; intros E; simplify_eq.
  - by apply lh_white.
  - by apply lh_single.
  - by apply lh_gt.
  - by eapply lh_app.
  - apply (lh_word _ _ w l'); try done. destruct w as [|d w]; [done|]. simplify_eq/=. by inversion Hf.
Qed.

Lemma symbol_gt : symbol 62.
Proof. unfold symbol. set_solver. Qed.


(** A line splits in one way. *)
Lemma lex_det l ts ts' : lex l ts → lex l ts' → ts = ts'.
Proof.
  revert ts ts'. induction l as [l IH] using (well_founded_induction (well_founded_ltof _ length)).
  unfold ltof in IH. intros ts ts' H H'. destruct l as [|c l].
  { assert (∀ ts, lex [] ts → ts = []) as Hnil.
    { clear. intros ts. remember [] as l eqn:E. destruct 1; try done. by destruct w. }
    by rewrite (Hnil ts), (Hnil ts'). }
  apply lex_cons in H, H'. pose proof symbol_gt as H62.
  destruct H as [ts Hc Hl|t ts Hc Hl|ts -> Hs Hl|l1 ts -> -> Hl|w l1 ts [Hc1 Hc2] E Hw Hf Hs Hl];
    destruct H' as [ts' Hc' Hl'|t' ts' Hc' Hl'|ts' E' Hs' Hl'|l1' ts' E' El Hl'|w' l1' ts' [Hc1' Hc2'] E' Hw' Hf' Hs' Hl'];
    try (by destruct (symbol_not_white 62)); try (by destruct Hs); try (by destruct Hs');
    try (exfalso; match goal with H : single _ _ |- _ => destruct (single_spec _ _ H); by eauto using symbol_not_white end);
    simplify_eq; try (f_equal; eapply IH; eauto; simpl; lia);
    try (exfalso; by eapply symbol_not_white; [|eassumption]; eauto using single_symbol).
  - f_equal; [by destruct Hc; inversion Hc'|]. eapply IH; [|done..]. simpl. lia.
  - by destruct Hs.
  - assert (l1 = l1') as <- by (by rewrite <- (drop_word_app w l1), <- (drop_word_app w' l1'), <- E, <- E').
    rewrite E in E'. apply app_inv_tail in E' as <-. f_equal. eapply IH; eauto.
    rewrite E, length_app. destruct w; [done|]. simpl. lia.
Qed.

(** ** The cursor *)
Section cursor.
Context (line junk : list Z).
Hypothesis line_nonzero : 0 ∉ line.
Notation es := (length line).
Implicit Types (st : shell).

Definition holds (st : shell) : Prop := sh_buf st = line ++ 0 :: junk.
(** The tokens left at the cursor. *)
Definition here (st : shell) (ts : list tok) : Prop :=
  holds st ∧ (sh_s st ≤ es)%nat ∧ lex (drop (sh_s st) line) ts.
(** The pointers [q] and [e] delimit the word [w] of the line. *)
Definition spans (q e : nat) (w : word) : Prop :=
  w ≠ [] ∧ Forall wordc w ∧ stops wordc (drop e line) ∧
  drop q line = w ++ drop e line ∧ e = (q + length w)%nat ∧ (e ≤ es)%nat.

Lemma load_char st s c l : holds st → drop s line = c :: l → load s st = Ok (c, st).
Proof.
  intros Hb Hd. unfold load, bind, getS. rewrite Hb.
  assert (line !! s = Some c) as Hs by (by rewrite <- (Nat.add_0_r s), <- lookup_drop, Hd).
  by rewrite lookup_app_l, Hs by (by eapply lookup_lt_Some).
Qed.
Lemma load_end st s : holds st → drop s line = [] → (s ≤ es)%nat → load s st = Ok (0, st).
Proof.
  intros Hb Hd Hs. apply (f_equal length) in Hd. rewrite length_drop in Hd. simpl in Hd.
  assert (s = es) as -> by lia. unfold load, bind, getS. rewrite Hb.
  by rewrite list_lookup_middle.
Qed.
Lemma drop_next s c l : drop s line = c :: l → drop (S s) line = l ∧ (s < es)%nat.
Proof.
  intros Hd. split.
  - by rewrite <- Nat.add_1_r, <- drop_drop, Hd.
  - apply (f_equal length) in Hd. rewrite length_drop in Hd. simpl in Hd. lia.
Qed.
Lemma char_nonzero s c l : drop s line = c :: l → c ≠ 0.
Proof.
  intros Hd ->. apply line_nonzero. rewrite <- (take_drop s line), Hd. set_solver.
Qed.

Lemma skip_white_spec st s :
  holds st → (s ≤ es)%nat →
  ∃ s', skip_white (es - s) s st = Ok (s', st) ∧ (s ≤ s' ≤ es)%nat ∧
        drop s' line = drop_while white (drop s line).
Proof.
  intros Hb. remember (drop s line) as l eqn:Hl. revert s Hl.
  induction l as [|c l IH]; intros s Hl Hs.
  - assert (es - s = 0)%nat as -> by (apply (f_equal length) in Hl; rewrite length_drop in Hl; simpl in Hl; lia).
    exists s. by split_and!.
  - symmetry in Hl. destruct (drop_next _ _ _ Hl) as [Hn Hlt].
    replace (es - s)%nat with (S (es - S s)) by lia. cbn [skip_white]. unfold bind.
    rewrite (load_char _ _ _ _ Hb Hl), in_white. simpl.
    destruct (decide (white c)) as [Hc|Hc].
    + rewrite bool_decide_true by done.
      destruct (IH (S s)) as (s' & -> & Hs' & Hd); [done|lia|]. exists s'. split_and!; [done|lia..|done].
    + rewrite bool_decide_false by done. exists s. split_and!; [done|lia..|done].
Qed.

Lemma skip_word_spec st s w l :
  holds st → drop s line = w ++ l → Forall wordc w → stops wordc l → (s ≤ es)%nat →
  skip_word (es - s) s st = Ok ((s + length w)%nat, st) ∧ drop (s + length w) line = l ∧
  (s + length w ≤ es)%nat.
Proof.
  intros Hb Hd Hw Hs. revert s Hd. induction Hw as [|c w Hc Hw IH]; intros s Hd Hle; simpl in Hd.
  - rewrite Nat.add_0_r. split_and!; [|done..]. destruct l as [|c l].
    + assert (es - s = 0)%nat as -> by (apply (f_equal length) in Hd; rewrite length_drop in Hd; simpl in Hd; lia).
      done.
    + destruct (drop_next _ _ _ Hd) as [Hn Hlt].
      replace (es - s)%nat with (S (es - S s)) by lia. cbn [skip_word]. unfold bind.
      rewrite (load_char _ _ _ _ Hb Hd), in_white. simpl.
      destruct (decide (white c)); [by rewrite bool_decide_true|].
      rewrite bool_decide_false by done. rewrite in_symbols. rewrite bool_decide_true; [done|].
      destruct (decide (symbol c)); [done|]. by destruct Hs.
  - destruct (drop_next _ _ _ Hd) as [Hn Hlt].
    replace (es - s)%nat with (S (es - S s)) by lia. cbn [skip_word]. unfold bind.
    rewrite (load_char _ _ _ _ Hb Hd), in_white. simpl. destruct Hc as [Hc1 Hc2].
    rewrite bool_decide_false by done. rewrite in_symbols, bool_decide_false by done.
    destruct (IH (S s)) as (-> & Hd' & Hl'); [done|lia|].
    rewrite Nat.add_succ_comm in *. done.
Qed.

(** The code gettoken returns for a token. *)
Definition code (t : tok) : Z :=
  match t with
  | TWord _ => 97 | TLt => 60 | TGt => 62 | TApp => 43 | TBar => 124 | TAmp => 38
  | TSemi => 59 | TOpen => 40 | TClose => 41
  end.

Lemma token_at_end st s :
  holds st → (s ≤ es)%nat → drop s line = [] → token_at es s st = Ok ((0, s), st).
Proof. intros Hb Hs Hd. unfold token_at, bind. by rewrite (load_end _ _ Hb Hd Hs). Qed.

Lemma token_at_spec st s t ts :
  holds st → (s ≤ es)%nat → stops white (drop s line) → lex (drop s line) (t :: ts) →
  ∃ e, token_at es s st = Ok ((code t, e), st) ∧ (s < e ≤ es)%nat ∧ lex (drop e line) ts ∧
       (∀ w, t = TWord w → spans s e w).
Proof.
  intros Hb Hs Hst Hlex. remember (drop s line) as l eqn:Hl. revert Hl.
  inversion Hlex as [|c l' ts' Hc Hl'|c t' l' ts' Hc Hl'|l' ts' Hg Hl'|l' ts' Hl'|w l' ts' Hw Hf Hsw Hl'];
    subst; intros Hl; symmetry in Hl; unfold token_at, bind.
  - by destruct (Hst Hc).
  - destruct (drop_next _ _ _ Hl) as [Hn Hlt]. rewrite (load_char _ _ _ _ Hb Hl).
    exists (S s). rewrite Hn. destruct Hc; split_and!; (done || lia).
  - destruct (drop_next _ _ _ Hl) as [Hn Hlt]. rewrite (load_char _ _ _ _ Hb Hl).
    exists (S s). rewrite Hn. split_and!; [|lia..|done|done]. simpl. destruct l' as [|d l'].
    + by rewrite (load_end _ _ Hb Hn).
    + rewrite (load_char _ _ _ _ Hb Hn). rewrite decide_False; [done|]. simpl in Hg. congruence.
  - destruct (drop_next _ _ _ Hl) as [Hn Hlt]. rewrite (load_char _ _ _ _ Hb Hl).
    destruct (drop_next _ _ _ Hn) as [Hn2 Hlt2].
    exists (S (S s)). rewrite Hn2. split_and!; [|lia..|done|done]. simpl.
    by rewrite (load_char _ _ _ _ Hb Hn).
  - destruct (skip_word_spec st s w l' Hb Hl Hf Hsw Hs) as (Hk & Hd & Hle).
    exists (s + length w)%nat. destruct w as [|c w]; [done|]. simpl in Hl.
    rewrite (load_char _ _ _ _ Hb Hl). rewrite decide_False by (by eapply char_nonzero).
    assert (¬ symbol c) as Hc2 by (by inversion Hf as [|? ? [_ ?]]).
    rewrite decide_False by (clear -Hc2; unfold symbol in Hc2; set_solver).
    rewrite decide_False by (clear -Hc2; unfold symbol in Hc2; set_solver).
    rewrite Hk. cbn [length] in *. split_and!; [done|lia..|by rewrite Hd|].
    intros w' [= <-]. unfold spans. rewrite Hd. split_and!; try done.
Qed.

Lemma gettoken_end st :
  here st [] → ∃ st' q e,
    gettoken es st = Ok ((0, q, e), st') ∧ here st' [] ∧ sh_heap st' = sh_heap st.
Proof.
  intros (Hb & Hs & Hlex). unfold gettoken, bind, getS.
  destruct (skip_white_spec st (sh_s st) Hb Hs) as (q & -> & Hq & Hd).
  apply lex_drop_white in Hlex. rewrite <- Hd in Hlex.
  assert (drop q line = []) as Hnil.
  { pose proof (drop_while_stops white (drop (sh_s st) line)) as Hst. rewrite <- Hd in Hst.
    inversion Hlex as [|c l ts Hc Hl E| | | |]; [done|]. rewrite <- E in Hst. by destruct Hst. }
  rewrite (token_at_end st q Hb) by (done || lia). simpl.
  destruct (skip_white_spec st q Hb) as (s' & -> & Hs' & Hd'); [lia|].
  eexists _, q, q. split; [done|]. split; [|done]. split_and!; simpl; [done|lia|].
  rewrite Hd', Hnil. constructor.
Qed.

Lemma gettoken_next st t ts :
  here st (t :: ts) → ∃ st' q e,
    gettoken es st = Ok ((code t, q, e), st') ∧ here st' ts ∧ sh_heap st' = sh_heap st ∧
    (∀ w, t = TWord w → spans q e w).
Proof.
  intros (Hb & Hs & Hlex). unfold gettoken, bind, getS.
  destruct (skip_white_spec st (sh_s st) Hb Hs) as (q & -> & Hq & Hd).
  apply lex_drop_white in Hlex. rewrite <- Hd in Hlex.
  destruct (token_at_spec st q t ts Hb) as (e & -> & He & Hl & Hw); [lia| |done|].
  { rewrite Hd. apply drop_while_stops. }
  simpl. destruct (skip_white_spec st e Hb) as (s' & -> & Hs' & Hd'); [lia|].
  eexists _, q, e. split; [done|]. split; [|done]. split_and!; simpl; [done|lia|].
  rewrite Hd'. by apply lex_drop_white.
Qed.

(** What peek sees of a token: the first character of a symbol. *)
Definition sees (cs : list Z) (ts : list tok) : bool :=
  match ts with
  | [] | TWord _ :: _ => false
  | TApp :: _ => bool_decide (62 ∈ cs)
  | t :: _ => bool_decide (code t ∈ cs)
  end.

Lemma peek_spec st ts cs :
  here st ts → Forall symbol cs → ∃ st',
    peek es (cs ++ [0]) st = Ok (sees cs ts, st') ∧ here st' ts ∧ sh_heap st' = sh_heap st ∧
    (ts = [] → sh_s st' = es).
Proof.
  intros (Hb & Hs & Hlex) Hcs. unfold peek, bind, getS.
  destruct (skip_white_spec st (sh_s st) Hb Hs) as (q & -> & Hq & Hd).
  apply lex_drop_white in Hlex. rewrite <- Hd in Hlex.
  pose proof (drop_while_stops white (drop (sh_s st) line)) as Hst. rewrite <- Hd in Hst. clear Hd.
  set (st' := Shell (sh_buf st) (sh_heap st) q). exists st'.
  change (set_s q st) with (Ok (tt, st')). cbn match.
  assert (here st' ts) as Hh by (split_and!; [done|simpl; lia|done]).
  assert (∀ c, load q st' = Ok (c, st') → (if decide (c = 0) then ret false else in_set (cs ++ [0]) c) st'
    = Ok (bool_decide (c ∈ cs), st')) as Hin.
  { assert (0 ∉ cs) as Hc0.
    { intros H0. rewrite list.Forall_forall in Hcs. specialize (Hcs 0 H0). unfold symbol in Hcs. set_solver. }
    intros c _. destruct (decide (c = 0)) as [->|Hc]; [by rewrite bool_decide_false|].
    by apply in_set_spec. }
  remember (drop q line) as l eqn:Hl. revert Hl.
  inversion Hlex as [|c l' ts' Hc Hl'|c t' l' ts' Hc Hl'|l' ts' Hg Hl'|l' ts' Hl'|w l' ts' Hw Hf Hsw Hl'];
    subst; intros Hl; symmetry in Hl.
  - rewrite (load_end st' q) by (done || lia). split_and!; try done.
    intros _. simpl. apply (f_equal length) in Hl. rewrite length_drop in Hl. simpl in Hl. lia.
  - by destruct Hst.
  - pose proof (load_char st' q _ _ Hb Hl) as E. rewrite E, (Hin _ E).
    split_and!; try done. by destruct Hc.
  - pose proof (load_char st' q _ _ Hb Hl) as E. by rewrite E, (Hin _ E).
  - pose proof (load_char st' q _ _ Hb Hl) as E. by rewrite E, (Hin _ E).
  - destruct w as [|c w]; [done|].
    pose proof (load_char st' q _ _ Hb Hl) as E. rewrite E, (Hin _ E). split_and!; try done.
    simpl. rewrite bool_decide_false; [done|]. intros Hc. rewrite list.Forall_forall in Hcs.
    inversion Hf as [|? ? [_ Hc2] _]. by apply Hc2, Hcs.
Qed.
End cursor.
