(* ===== verification/ShellRefine.v ===== *)
(** * The routines of sh.c against the parser on tokens

    Every parsing routine agrees with its counterpart of [ShellSpec]: it
    returns when that does, with a heap of structs that represents the command,
    and panics when that fails.  It never faults and never runs out of fuel. *)

From S2P Require Import Prelude CString Shell ShellSpec ShellLex.
Local Open Scope Z_scope.

(** ** Commands in the heap *)

(** argv or eargv of a command with the words [sp]. *)
Definition argv_of (f : nat * nat → nat) (sp : list (nat * nat)) : list (option nat) :=
  (Some ∘ f <$> sp) ++ replicate (MAXARGS - length sp) None.
Definition exec_cell (sp : list (nat * nat)) : cmd := Execcmd (argv_of fst sp) (argv_of snd sp).

(** [repr P h p a]: the struct at [p] represents [a], [P] relating the pointers
    to the start and the end of a word to the word. *)
Fixpoint repr (P : nat → nat → word → Prop) (h : list cmd) (p : nat) (a : ast) : Prop :=
  match a with
  | AExec ws => ∃ sp, h !! p = Some (exec_cell sp) ∧ Forall2 (λ x w, P x.1 x.2 w) sp ws ∧
      (length ws < MAXARGS)%nat
  | ARedir b w m fd => ∃ c q e, h !! p = Some (Redircmd (Some c) q e m fd) ∧ (c < p)%nat ∧
      P q e w ∧ repr P h c b
  | APipe b c => ∃ l r, h !! p = Some (Pipecmd (Some l) (Some r)) ∧ (l < p)%nat ∧ (r < p)%nat ∧
      repr P h l b ∧ repr P h r c
  | AList b c => ∃ l r, h !! p = Some (Listcmd (Some l) (Some r)) ∧ (l < p)%nat ∧ (r < p)%nat ∧
      repr P h l b ∧ repr P h r c
  | ABack b => ∃ c, h !! p = Some (Backcmd (Some c)) ∧ (c < p)%nat ∧ repr P h c b
  end.

(** Redirections [rs] stacked on the command at [c], the last one outermost. *)
Inductive chain (P : nat → nat → word → Prop) (h : list cmd) (c : nat) : nat → list redir → Prop :=
| chain_nil : is_Some (h !! c) → chain P h c c []
| chain_snoc p p' rs q e w m fd :
    chain P h c p rs → h !! p' = Some (Redircmd (Some p) q e m fd) → (p < p')%nat → P q e w →
    chain P h c p' (rs ++ [(w, m, fd)]).

Section heap.
Context (P : nat → nat → word → Prop).
Implicit Types (h : list cmd) (a b : ast).

Lemma repr_impl (Q : nat → nat → word → Prop) h p a :
  (∀ q e w, P q e w → Q q e w) → repr P h p a → repr Q h p a.
Proof.
  intros HPQ. revert p. induction a as [ws|b IH w m fd|b IHb c IHc|b IHb c IHc|b IH]; intros p; simpl.
  - intros (sp & Hp & Hf & Hl). exists sp. split_and!; [done| |done].
    eapply Forall2_impl; [|exact Hf]. intros x w. apply HPQ.
  - intros (c & q & e & Hp & Hlt & Hw & Hr). exists c, q, e. auto.
  - intros (l & r & ? & ? & ? & ? & ?). exists l, r. auto 6.
  - intros (l & r & ? & ? & ? & ? & ?). exists l, r. auto 6.
  - intros (c & ? & ? & ?). exists c. auto.
Qed.

Lemma repr_mono h h' p a : h `prefix_of` h' → repr P h p a → repr P h' p a.
Proof.
  intros Hpre. revert p. induction a as [ws|b IH w m fd|b IHb c IHc|b IHb c IHc|b IH]; intros p; simpl;
    intros; flatten; repeat eexists; eauto using prefix_lookup_Some.
Qed.

Lemma chain_mono h h' c p rs : h `prefix_of` h' → chain P h c p rs → chain P h' c p rs.
Proof.
  intros Hpre. induction 1 as [[x Hx]|]; [|econstructor; eauto using prefix_lookup_Some].
  constructor. eexists. by eapply prefix_lookup_Some.
Qed.

Lemma chain_last h c p rs : chain P h c p rs → (p < length h)%nat.
Proof. destruct 1 as [[x Hx]|]; by eapply lookup_lt_Some. Qed.

(** The command under the redirections may change. *)
Lemma chain_insert h c p rs sp x :
  h !! c = Some (exec_cell sp) → chain P h c p rs → chain P (<[c := x]> h) c p rs.
Proof.
  intros Hc. induction 1 as [|p p' rs q e w m fd Hch IH Hp Hlt Hw].
  - constructor. rewrite list_lookup_insert_eq; [done|]. by eapply lookup_lt_Some.
  - econstructor; [done| |done..]. rewrite list_lookup_insert_ne; [done|].
    intros ->. rewrite Hc in Hp. by unfold exec_cell in Hp.
Qed.

Lemma chain_repr h c p rs a : chain P h c p rs → repr P h c a → repr P h p (wrap a rs).
Proof.
  induction 1 as [|p p' rs q e w m fd Hch IH Hp Hlt Hw]; intros Ha; [done|].
  rewrite wrap_snoc. simpl. eauto 8.
Qed.
End heap.

Lemma argv_of_snoc f sp x :
  (length sp < MAXARGS)%nat → <[length sp := Some (f x)]> (argv_of f sp) = argv_of f (sp ++ [x]).
Proof.
  intros Hl. unfold argv_of. rewrite length_app, fmap_app, <- app_assoc. simpl.
  replace (MAXARGS - length sp)%nat with (S (MAXARGS - (length sp + 1))) by lia. simpl.
  rewrite insert_app_r_alt by (by rewrite length_fmap). by rewrite length_fmap, Nat.sub_diag.
Qed.
Lemma argv_of_end f sp :
  (length sp < MAXARGS)%nat → <[length sp := None]> (argv_of f sp) = argv_of f sp.
Proof.
  intros Hl. unfold argv_of. rewrite insert_app_r_alt by (by rewrite length_fmap).
  rewrite length_fmap, Nat.sub_diag. by replace (MAXARGS - length sp)%nat with (S (MAXARGS - length sp - 1)) by lia.
Qed.
Lemma length_argv_of f sp : (length sp ≤ MAXARGS)%nat → length (argv_of f sp) = MAXARGS.
Proof. intros. unfold argv_of. rewrite length_app, length_fmap, length_replicate. lia. Qed.

(** ** Agreement *)

(** The code returns when the specification does, and panics when it fails. *)
Definition agrees {A B} (m : outcome (A * shell)) (r : option B) (Q : A → shell → B → Prop) : Prop :=
  match r with
  | Some b => ∃ a st, m = Ok (a, st) ∧ Q a st b
  | None => ∃ e, m = Panic e
  end.

Lemma agrees_mono {A B} (m : outcome (A * shell)) (r : option B) (Q Q' : A → shell → B → Prop) :
  agrees m r Q → (∀ a st b, r = Some b → Q a st b → Q' a st b) → agrees m r Q'.
Proof. destruct r as [b|]; simpl; [|done]. intros (a & st & -> & HQ) H. eauto. Qed.

Lemma agrees_bind {A B C D} (m : M shell A) (f : A → M shell C) (r : option B) (g : B → option D) Q Q' st :
  agrees (m st) r Q →
  (∀ a st' b, r = Some b → Q a st' b → agrees (f a st') (g b) Q') →
  agrees (bind m f st) (r ≫= g) Q'.
Proof.
  unfold bind. destruct r as [b|]; simpl.
  - intros (a & st' & -> & HQ) H. eauto.
  - intros [e ->] _. by exists e.
Qed.

(** Redirections in front of the arguments may be read first. *)
Lemma r_items_redirs n ts :
  r_items n ts =
    '(rs, ts1) ← r_redirs ts; '(args, rs2, ts2) ← r_items n ts1; Some (args, rs ++ rs2, ts2).
Proof.
  induction ts as [ts IH] using (well_founded_induction (well_founded_ltof _ length)).
  assert (∀ o : option (list word * list redir * list tok),
    o = '(args, rs2, ts2) ← o; Some (args, [] ++ rs2, ts2)) as Heta by (by intros [[[]]|]).
  destruct ts as [|t ts1]; [done|]. destruct (tok_mode t) as [[m fd]|] eqn:Ht.
  - assert (r_items n (t :: ts1) = match ts1 with
      | TWord w :: ts2 => '(args, rs, ts3) ← r_items n ts2; Some (args, (w, m, fd) :: rs, ts3)
      | _ => None end) as -> by (by destruct t; simplify_eq/=).
    simpl r_redirs. rewrite Ht. destruct ts1 as [|[w| | | | | | | |] ts2]; try done.
    rewrite IH by (unfold ltof; simpl; lia).
    destruct (r_redirs ts2) as [[rs ts3]|]; [|done]. simpl.
    by destruct (r_items n ts3) as [[[args rs2] ts4]|].
  - simpl r_redirs. rewrite Ht. apply Heta.
Qed.

Definition no_redir (ts : list tok) : Prop :=
  match ts with t :: _ => tok_mode t = None | [] => True end.
Lemma r_redirs_stop ts rs ts' : r_redirs ts = Some (rs, ts') → no_redir ts'.
Proof.
  revert rs. induction ts as [ts IH] using (well_founded_induction (well_founded_ltof _ length)).
  intros rs. destruct ts as [|t ts1]; simpl; [by intros [= <- <-]|].
  destruct (tok_mode t) as [[m fd]|] eqn:Ht; [|by intros [= <- <-]].
  destruct ts1 as [|[w| | | | | | | |] ts2]; try done.
  destruct (r_redirs ts2) as [[rs2 ts3]|] eqn:E; [|done]. intros [= <- <-].
  eapply IH; [|exact E]. unfold ltof. simpl. lia.
Qed.
Lemma r_redirs_length ts rs ts' : r_redirs ts = Some (rs, ts') → (length ts' ≤ length ts)%nat.
Proof. intros (ts0 & -> & _)%r_redirs_sound. rewrite length_app. lia. Qed.

Lemma prefix_insert {A} (h h' : list A) i x :
  h `prefix_of` h' → (length h ≤ i)%nat → h `prefix_of` <[i := x]> h'.
Proof.
  intros [k ->] Hi. rewrite insert_app_r_alt by done. by apply prefix_app_r.
Qed.

Section parser.
Context (line junk : list Z).
Hypothesis line_nonzero : 0 ∉ line.
Notation es := (length line).
Notation here := (here line junk).
Notation spans := (spans line).
Implicit Types (st : shell) (ts : list tok).

Lemma here_heap st ts h : here st ts → here (Shell (sh_buf st) h (sh_s st)) ts.
Proof. done. Qed.

(** The characters peek looks for are symbols. *)
Ltac solve_symbols := repeat constructor; unfold symbol; set_solver.

(** peek and gettoken in front of the rest of a routine *)
Lemma agrees_peek {A B} cs (k : bool → M shell A) (r : option B) Q st ts :
  here st ts → Forall symbol cs →
  (∀ st', here st' ts → sh_heap st' = sh_heap st → agrees (k (sees cs ts) st') r Q) →
  agrees (bind (peek es (cs ++ [0])) k st) r Q.
Proof.
  intros Hh Hcs Hk. unfold bind.
  destruct (peek_spec line junk line_nonzero st ts cs Hh Hcs) as (st' & -> & Hh' & Hheap & _). auto.
Qed.
Lemma agrees_gettoken {A B} (k : Z * nat * nat → M shell A) (r : option B) Q st t ts :
  here st (t :: ts) →
  (∀ st' q e, here st' ts → sh_heap st' = sh_heap st → (∀ w, t = TWord w → spans q e w) →
     agrees (k (code t, q, e) st') r Q) →
  agrees (bind (gettoken es) k st) r Q.
Proof.
  intros Hh Hk. unfold bind.
  destruct (gettoken_next line junk line_nonzero st t ts Hh) as (st' & q & e & -> & Hh' & Hheap & Hw). auto.
Qed.
Lemma agrees_gettoken_end {A B} (k : Z * nat * nat → M shell A) (r : option B) Q st :
  here st [] →
  (∀ st' q e, here st' [] → sh_heap st' = sh_heap st → agrees (k (0, q, e) st') r Q) →
  agrees (bind (gettoken es) k st) r Q.
Proof.
  intros Hh Hk. unfold bind.
  destruct (gettoken_end line junk st Hh) as (st' & q & e & -> & Hh' & Hheap). auto.
Qed.

Definition redirs_done (c0 : nat) (rs0 : list redir) (st : shell) (p : option nat) (st' : shell)
    (b : list redir * list tok) : Prop :=
  here st' b.2 ∧ sh_heap st `prefix_of` sh_heap st' ∧
  ∃ c', p = Some c' ∧ chain spans (sh_heap st') c0 c' (rs0 ++ b.1).

Lemma parseredirs_agrees fuel : ∀ ts st c0 c rs0,
  here st ts → (length ts < fuel)%nat → chain spans (sh_heap st) c0 c rs0 →
  agrees (parseredirs fuel es (Some c) st) (r_redirs ts) (redirs_done c0 rs0 st).
Proof.
  induction fuel as [|fuel IH]; intros ts st c0 c rs0 Hh Hf Hch; [lia|]. cbn [parseredirs].
  apply (agrees_peek [60; 62] _ _ _ st ts); [done|solve_symbols|].
  intros st1 Hh1 E1.
  destruct ts as [|t ts]; [|destruct (tok_mode t) as [[m fd]|] eqn:Ht].
  - exists (Some c), st1. split; [done|]. split_and!; [done|by rewrite E1|].
    exists c. rewrite app_nil_r, E1. done.
  - assert (sees [60; 62] (t :: ts) = true) as -> by (by destruct t).
    simpl r_redirs. rewrite Ht.
    apply (agrees_gettoken _ _ _ _ t ts); [done|]. intros st2 q0 e0 Hh2 E2 _.
    destruct ts as [|u ts].
    { apply agrees_gettoken_end; [done|]. intros st3 q e Hh3 E3. by eexists. }
    apply (agrees_gettoken _ _ _ _ u ts); [done|]. intros st3 q e Hh3 E3 Hw.
    destruct u as [w| | | | | | | |]; try (by eexists).
    cbn [fst snd code]. destruct (decide (97 ≠ 97)); [done|].
    assert (redir_mode (code t) = Some (m, fd)) as -> by (by destruct t; simplify_eq/=).
    set (st4 := Shell (sh_buf st3) (sh_heap st3 ++ [Redircmd (Some c) q e m fd]) (sh_s st3)).
    change (agrees (parseredirs fuel es (Some (length (sh_heap st3))) st4)
      ('(rs, ts3) ← r_redirs ts; Some ((w, m, fd) :: rs, ts3)) (redirs_done c0 rs0 st)).
    assert (sh_heap st3 = sh_heap st) as E by congruence.
    specialize (IH ts st4 c0 (length (sh_heap st3)) (rs0 ++ [(w, m, fd)])).
    assert (agrees (parseredirs fuel es (Some (length (sh_heap st3))) st4) (r_redirs ts)
      (redirs_done c0 (rs0 ++ [(w, m, fd)]) st4)) as Hrec.
    { apply IH; [done|simpl in Hf; lia|]. simpl. apply (chain_snoc _ _ _ c _ _ q e).
      - rewrite E. by eapply chain_mono, Hch; apply prefix_app_r.
      - by rewrite list_lookup_middle.
      - rewrite E. by eapply chain_last.
      - by apply Hw. }
    clear IH. destruct (r_redirs ts) as [[rs ts3]|]; [|done]. simpl in *.
    destruct Hrec as (p & st' & -> & (Hh' & Hpre & c' & -> & Hch')). eexists _, _. split; [done|].
    split_and!; [done|etrans; [|done]; rewrite <- E; by apply prefix_app_r|].
    exists c'. split; [done|]. simpl in *. by rewrite <- app_assoc in Hch'.
  - assert (sees [60; 62] (t :: ts) = false) as -> by (by destruct t).
    simpl r_redirs. rewrite Ht. exists (Some c), st1. split; [done|]. split_and!; [done|by rewrite E1|].
    exists c. rewrite app_nil_r, E1. done.
Qed.

(** [cmd->argv[argc] = q; cmd->eargv[argc] = eq] on a command under construction *)
Lemma set_arg_exec st c sp q e :
  sh_heap st !! c = Some (exec_cell sp) → (length sp < MAXARGS)%nat →
  set_arg (Some c) (length sp) (Some q) (Some e) st =
    Ok (tt, Shell (sh_buf st) (<[c := exec_cell (sp ++ [(q, e)])]> (sh_heap st)) (sh_s st)).
Proof.
  intros Hc Hl. unfold set_arg, load_cmd, bind, getS. simpl. rewrite Hc. simpl.
  rewrite decide_True by (rewrite !length_argv_of; lia). unfold modS, exec_cell.
  pose proof (argv_of_snoc fst sp (q, e) Hl) as E1. pose proof (argv_of_snoc snd sp (q, e) Hl) as E2.
  simpl in E1, E2. by rewrite E1, E2.
Qed.
Lemma set_arg_last st c sp :
  sh_heap st !! c = Some (exec_cell sp) → (length sp < MAXARGS)%nat →
  set_arg (Some c) (length sp) None None st = Ok (tt, st).
Proof.
  intros Hc Hl. unfold set_arg, load_cmd, bind, getS. simpl. rewrite Hc. simpl.
  rewrite decide_True by (rewrite !length_argv_of; lia). unfold modS.
  rewrite !argv_of_end by done. change (Execcmd _ _) with (exec_cell sp).
  rewrite list_insert_id by done. by destruct st.
Qed.

(** The command under construction at [c], in a heap that extends [h0]. *)
Definition building (h0 : list cmd) (c : nat) (sp : list (nat * nat)) (ws : list word) (p : nat)
    (rs : list redir) (h : list cmd) : Prop :=
  h0 `prefix_of` h ∧ (length h0 ≤ c)%nat ∧ h !! c = Some (exec_cell sp) ∧
  Forall2 (λ x w, spans x.1 x.2 w) sp ws ∧ (length ws < MAXARGS)%nat ∧ chain spans h c p rs.

Lemma building_redirs h0 c sp ws p rs p' rs' h h' :
  building h0 c sp ws p rs h → h `prefix_of` h' → chain spans h' c p' (rs ++ rs') →
  building h0 c sp ws p' (rs ++ rs') h'.
Proof.
  intros (Hp & Hl & Hc & Hw & Hn & _) Hpre Hch.
  split_and!; try done; [by etrans|by eapply prefix_lookup_Some].
Qed.

Definition args_done (h0 : list cmd) (c : nat) (ws : list word) (rs : list redir)
    (x : nat * option nat) (st' : shell) (b : list word * list redir * list tok) : Prop :=
  here st' b.2 ∧ ∃ sp' p', x = (length sp', Some p') ∧
    building h0 c sp' (ws ++ b.1.1) p' (rs ++ b.1.2) (sh_heap st').

Lemma parseargs_agrees fuel : ∀ ts st h0 c sp ws p rs,
  here st ts → no_redir ts → (length ts < fuel)%nat →
  building h0 c sp ws p rs (sh_heap st) →
  agrees (parseargs fuel es (Some c) (length sp) (Some p) st) (r_items (length ws) ts)
    (args_done h0 c ws rs).
Proof.
  induction fuel as [|fuel IH]; intros ts st h0 c sp ws p rs Hh Hnr Hf Hb; [lia|]. cbn [parseargs].
  assert (length sp = length ws) as Hlen by (destruct Hb as (_ & _ & _ & Hw & _); by eapply Forall2_length).
  apply (agrees_peek [124; 41; 38; 59] _ _ _ st ts); [done|solve_symbols|].
  intros st1 Hh1 E1.
  assert (args_done h0 c ws rs (length sp, Some p) st1 ([], [], ts)) as Hstop.
  { split; [done|]. exists sp, p. split; [done|]. simpl. by rewrite E1, !app_nil_r. }
  destruct ts as [|t ts].
  { apply agrees_gettoken_end; [done|]. intros st2 q e Hh2 E2. eexists _, _. split; [done|].
    destruct Hstop as (_ & sp' & p' & ? & Hb'). split; [done|]. exists sp', p'. by rewrite E2. }
  destruct t as [w| | | | | | | |]; try done; try (eexists _, _; by split; [reflexivity|exact Hstop]).
  - apply (agrees_gettoken _ _ _ _ (TWord w) ts); [done|]. intros st2 q e Hh2 E2 Hw.
    cbn [fst snd code]. destruct (decide (97 = 0)); [done|]. destruct (decide (97 ≠ 97)); [done|].
    assert (sh_heap st2 = sh_heap st) as E by congruence.
    destruct Hb as (Hp & Hl & Hc & Hws & Hn & Hch). cbn [r_items].
    unfold bind at 1. rewrite (set_arg_exec st2 c sp q e) by (congruence || lia). cbn match.
    rewrite Hlen. destruct (decide (MAXARGS ≤ S (length ws))%nat) as [Hm|Hm]; [by eexists|].
    set (st3 := Shell (sh_buf st2) (<[c:=exec_cell (sp ++ [(q, e)])]> (sh_heap st2)) (sh_s st2)).
    assert (building h0 c (sp ++ [(q, e)]) (ws ++ [w]) p rs (sh_heap st3)) as Hb3.
    { split_and!; simpl; rewrite ?E.
      - by apply prefix_insert.
      - done.
      - apply list_lookup_insert_eq. by eapply lookup_lt_Some.
      - apply Forall2_app; [done|]. constructor; [by apply Hw|constructor].
      - rewrite length_app. simpl. lia.
      - by eapply chain_insert. }
    replace (S (length ws)) with (length (ws ++ [w])) by (rewrite length_app; simpl; lia).
    rewrite r_items_redirs. simpl in Hf.
    assert (agrees (parseredirs fuel es (Some p) st3) (r_redirs ts) (redirs_done c rs st3)) as Hr.
    { apply parseredirs_agrees; [done|lia|]. by destruct Hb3 as (_ & _ & _ & _ & _ & ?). }
    unfold bind. destruct (r_redirs ts) as [[rs' ts1]|] eqn:Er; simpl in Hr;
      [|destruct Hr as [err ->]; by exists err].
    destruct Hr as (r' & st4 & -> & Hh4 & Hpre & p' & -> & Hch').
    pose proof (building_redirs _ _ _ _ _ _ _ _ _ _ Hb3 Hpre Hch') as Hb4.
    specialize (IH ts1 st4 h0 c (sp ++ [(q, e)]) (ws ++ [w]) p' (rs ++ rs') Hh4 (r_redirs_stop _ _ _ Er)).
    assert (length (sp ++ [(q, e)]) = S (length ws)) as El by (rewrite length_app; simpl; lia).
    pose proof (r_redirs_length _ _ _ Er). simpl in Hb4.
    apply (IH ltac:(lia)) in Hb4 as IH'. clear IH.
    rewrite El, length_app, Nat.add_1_r in IH'. rewrite length_app, Nat.add_1_r. simpl.
    destruct (r_items (S (length ws)) ts1) as [[[args rs2] ts2]|]; simpl in *; [|done].
    destruct IH' as (x & st5 & -> & Hh5 & sp' & p5 & -> & Hb5). eexists _, _. split; [done|].
    split; [done|]. exists sp', p5. split; [done|]. simpl in *. by rewrite <- !app_assoc in Hb5.
  - apply (agrees_gettoken _ _ _ _ TOpen ts); [done|]. intros st2 q e Hh2 E2 Hw. by eexists.
Qed.

(** ** The recursive routines *)

Definition cmd_done (st : shell) (p : option nat) (st' : shell) (b : ast * list tok) : Prop :=
  here st' b.2 ∧ sh_heap st `prefix_of` sh_heap st' ∧
  ∃ i, p = Some i ∧ repr spans (sh_heap st') i b.1.

Lemma repr_lt h p a : repr spans h p a → (p < length h)%nat.
Proof. destruct a; simpl; intros; flatten; by eapply lookup_lt_Some. Qed.

Lemma parseback_agrees fuel : ∀ ts st0 st p a,
  (length ts < fuel)%nat → cmd_done st0 p st (a, ts) →
  agrees (parseback fuel es p st) (Some (r_back a ts)) (cmd_done st0).
Proof.
  induction fuel as [|fuel IH]; intros ts st0 st p a Hf (Hh & Hpre & i & -> & Hr); [lia|].
  cbn [parseback].
  apply (agrees_peek [38] _ _ _ st ts); [done|solve_symbols|].
  intros st1 Hh1 E1.
  assert (cmd_done st0 (Some i) st1 (a, ts)) as Hstop by (split_and!; [done|by rewrite E1|exists i; by rewrite E1]).
  destruct ts as [|[w| | | | | | | |] ts]; try (eexists _, _; by split; [reflexivity|exact Hstop]).
  apply (agrees_gettoken _ _ _ _ TAmp ts); [done|]. intros st2 q e Hh2 E2 _.
  cbn [r_back]. assert (sh_heap st2 = sh_heap st) as E by congruence.
  set (st3 := Shell (sh_buf st2) (sh_heap st2 ++ [Backcmd (Some i)]) (sh_s st2)).
  change (agrees (parseback fuel es (Some (length (sh_heap st2))) st3) (Some (r_back (ABack a) ts)) (cmd_done st0)).
  apply IH; [simpl in Hf; lia|]. split_and!; [done|simpl; rewrite E; by apply prefix_app_r|].
  eexists. split; [done|]. exists i. simpl. rewrite E. split_and!.
  - by rewrite list_lookup_middle.
  - by eapply repr_lt.
  - eapply repr_mono; [|done]. by apply prefix_app_r.
Qed.

Lemma r_back_length a ts : (length (r_back a ts).2 ≤ length ts)%nat.
Proof.
  destruct (r_back a ts) as [a' ts'] eqn:E. apply r_back_sound in E as (n & -> & _).
  simpl. rewrite length_app. lia.
Qed.
Lemma r_pipe_length fuel ts a ts' : r_pipe fuel ts = Some (a, ts') → (length ts' ≤ length ts)%nat.
Proof. intros (ts0 & -> & _)%r_sound. rewrite length_app. lia. Qed.
Lemma r_line_length fuel ts a ts' : r_line fuel ts = Some (a, ts') → (length ts' ≤ length ts)%nat.
Proof. intros (ts0 & -> & _)%r_sound. rewrite length_app. lia. Qed.
Lemma r_cmd_length fuel ts a ts' : r_cmd fuel ts = Some (a, ts') → (length ts' ≤ length ts)%nat.
Proof. intros (ts0 & -> & _)%r_sound. rewrite length_app. lia. Qed.

(** A command made of two that are in the heap. *)
Lemma new_pair st0 st1 st mk amk i j a b ts ts1 :
  (∀ P h p a b, repr P h p (amk a b) = ∃ l r, h !! p = Some (mk (Some l) (Some r)) ∧
     (l < p)%nat ∧ (r < p)%nat ∧ repr P h l a ∧ repr P h r b) →
  cmd_done st0 (Some i) st1 (a, ts1) → sh_heap st1 `prefix_of` sh_heap st →
  here st ts → repr spans (sh_heap st) j b →
  ∃ p st', new_cmd (mk (Some i) (Some j)) st = Ok (p, st') ∧ cmd_done st0 p st' (amk a b, ts).
Proof.
  intros Hmk (_ & Hpre & i' & [= <-] & Hi) Hpre1 Hh Hj.
  eexists _, _. split; [done|]. split_and!; [done| |].
  - simpl. etrans; [done|]. etrans; [done|]. by apply prefix_app_r.
  - eexists. split; [done|]. simpl. rewrite Hmk. exists i, j. split_and!.
    + by rewrite list_lookup_middle.
    + apply repr_lt in Hi. apply prefix_length in Hpre1. simpl in *. lia.
    + by eapply repr_lt.
    + eapply repr_mono; [|exact Hi]. etrans; [done|]. by apply prefix_app_r.
    + eapply repr_mono; [|done]. by apply prefix_app_r.
Qed.

Lemma cmd_done_refl st p a ts :
  here st ts → repr spans (sh_heap st) p a → cmd_done st (Some p) st (a, ts).
Proof. intros. split_and!; [done|done|by exists p]. Qed.

Lemma parse_exec_agrees fuel ts st :
  here st ts → (length ts < fuel)%nat → head ts ≠ Some TOpen →
  agrees (parseexec (S fuel) es st)
    ('(args, rs, ts1) ← r_items 0 ts; Some (wrap (AExec args) rs, ts1)) (cmd_done st).
Proof.
  intros Hh Hf Hopen. cbn [parseexec].
  apply (agrees_peek [40] _ _ _ st ts); [done|solve_symbols|].
  intros st1 Hh1 E1. assert (sees [40] ts = false) as -> by (by destruct ts as [|[] ts]).
  set (st2 := Shell (sh_buf st1) (sh_heap st1 ++ [exec_cell []]) (sh_s st1)).
  set (c := length (sh_heap st1)).
  change (agrees ((let! r := parseredirs fuel es (Some c) in
    let! x := parseargs fuel es (Some c) 0 r in
    (set_arg (Some c) x.1 None None ;;; ret x.2)) st2)
    ('(args, rs, ts1) ← r_items 0 ts; Some (wrap (AExec args) rs, ts1)) (cmd_done st)).
  assert (building (sh_heap st) c [] [] c [] (sh_heap st2)) as Hb.
  { unfold c. split_and!; simpl; rewrite ?E1.
    - by apply prefix_app_r.
    - done.
    - by rewrite list_lookup_middle.
    - constructor.
    - unfold MAXARGS. lia.
    - constructor. rewrite list_lookup_middle by done. eauto. }
  assert (agrees (parseredirs fuel es (Some c) st2) (r_redirs ts) (redirs_done c [] st2)) as Hr.
  { apply parseredirs_agrees; [done|lia|]. by destruct Hb as (_ & _ & _ & _ & _ & ?). }
  rewrite r_items_redirs. unfold bind. destruct (r_redirs ts) as [[rs ts1]|] eqn:Er; simpl in Hr;
    [|destruct Hr as [err ->]; by exists err].
  destruct Hr as (r' & st3 & -> & Hh3 & Hpre & p & -> & Hch).
  pose proof (building_redirs _ _ _ _ _ _ _ _ _ _ Hb Hpre Hch) as Hb3.
  pose proof (r_redirs_length _ _ _ Er) as Hlen.
  pose proof (parseargs_agrees fuel ts1 st3 _ c [] [] p rs Hh3 (r_redirs_stop _ _ _ Er) ltac:(lia) Hb3) as Ha.
  cbn [length] in Ha. simpl.
  destruct (r_items 0 ts1) as [[[args rs2] ts2]|]; simpl in *; [|destruct Ha as [err ->]; by exists err].
  destruct Ha as (x & st4 & -> & Hh4 & sp & p4 & -> & Hb4). cbn [fst snd].
  destruct Hb4 as (Hp4 & Hl4 & Hc4 & Hw4 & Hn4 & Hch4). simpl in *.
  rewrite set_arg_last by (done || by rewrite (Forall2_length Hw4)).
  eexists _, _. split; [done|]. split_and!; [done|done|]. exists p4. split; [done|].
  apply (chain_repr _ _ c); [done|]. simpl. eauto.
Qed.

Lemma parse_agrees fuel : ∀ ts st, here st ts →
  ((4 * length ts + 4 ≤ fuel)%nat →
     agrees (parseline fuel es st) (r_line fuel ts) (cmd_done st)) ∧
  ((4 * length ts + 3 ≤ fuel)%nat →
     agrees (parsepipe fuel es st) (r_pipe fuel ts) (cmd_done st)) ∧
  ((4 * length ts + 2 ≤ fuel)%nat →
     agrees (parseexec fuel es st) (r_cmd fuel ts) (cmd_done st)) ∧
  ((4 * length ts + 1 ≤ fuel)%nat → head ts = Some TOpen →
     agrees (parseblock fuel es st) (r_block fuel ts) (cmd_done st)).
Proof.
  induction fuel as [|fuel IH]; intros ts st Hh; [split_and!; intros; lia|].
  split_and!; intros Hf.
  - cbn [parseline r_line]. eapply agrees_bind; [by apply (IH ts st Hh); lia|].
    intros p st1 [a ts1] Er Hd. pose proof (r_pipe_length _ _ _ _ Er) as Hl.
    unfold bind at 1. destruct (parseback_agrees fuel ts1 st st1 p a ltac:(lia) Hd) as (p2 & st2 & -> & Hd2).
    cbn match. pose proof (r_back_length a ts1) as Hl2.
    destruct (r_back a ts1) as [a2 ts2]. cbn [snd] in Hl2.
    pose proof Hd2 as (Hh2 & Hpre2 & i & -> & Hi).
    apply (agrees_peek [59] _ _ _ st2 ts2); [done|solve_symbols|].
    intros st3 Hh3 E3.
    assert (cmd_done st (Some i) st3 (a2, ts2)) as Hd3 by (split_and!; [done|by rewrite E3|exists i; by rewrite E3]).
    destruct ts2 as [|[w| | | | | | | |] ts3]; try (eexists _, _; by split; [reflexivity|exact Hd3]).
    apply (agrees_gettoken _ _ _ _ TSemi ts3); [done|]. intros st4 q e Hh4 E4 _.
    simpl in Hl2. eapply agrees_bind; [apply (IH ts3 st4 Hh4); lia|].
    intros p5 st5 [b ts5] Er5 (Hh5 & Hpre5 & j & -> & Hj).
    apply (new_pair st st3 st5 Listcmd AList i j a2 b ts5 (TSemi :: ts3)); try done. by rewrite <- E4.
  - cbn [parsepipe r_pipe]. eapply agrees_bind; [by apply (IH ts st Hh); lia|].
    intros p st2 [a ts2] Er Hd. pose proof (r_cmd_length _ _ _ _ Er) as Hl.
    pose proof Hd as (Hh2 & Hpre2 & i & -> & Hi).
    apply (agrees_peek [124] _ _ _ st2 ts2); [done|solve_symbols|].
    intros st3 Hh3 E3.
    assert (cmd_done st (Some i) st3 (a, ts2)) as Hd3 by (split_and!; [done|by rewrite E3|exists i; by rewrite E3]).
    destruct ts2 as [|[w| | | | | | | |] ts3]; try (eexists _, _; by split; [reflexivity|exact Hd3]).
    apply (agrees_gettoken _ _ _ _ TBar ts3); [done|]. intros st4 q e Hh4 E4 _.
    simpl in Hl. eapply agrees_bind; [apply (IH ts3 st4 Hh4); lia|].
    intros p5 st5 [b ts5] Er5 (Hh5 & Hpre5 & j & -> & Hj).
    apply (new_pair st st3 st5 Pipecmd APipe i j a b ts5 (TBar :: ts3)); try done. by rewrite <- E4.
  - destruct (decide (head ts = Some TOpen)) as [Ho|Ho].
    + destruct ts as [|[] ts]; try done. cbn [parseexec r_cmd].
      apply (agrees_peek [40] _ _ _ st (TOpen :: ts)); [done|solve_symbols|].
      intros st1 Hh1 E1. eapply agrees_mono; [apply (IH (TOpen :: ts) st1 Hh1); [lia|done]|].
      intros p st' b _. unfold cmd_done. by rewrite E1.
    + assert (r_cmd (S fuel) ts = '(args, rs, ts1) ← r_items 0 ts; Some (wrap (AExec args) rs, ts1)) as ->
        by (by destruct ts as [|[] ts]).
      apply parse_exec_agrees; [done|lia|done].
  - intros Ho. destruct ts as [|[] ts]; try done. cbn [parseblock r_block].
    apply (agrees_peek [40] _ _ _ st (TOpen :: ts)); [done|solve_symbols|].
    intros st1 Hh1 E1. apply (agrees_gettoken _ _ _ _ TOpen ts); [done|]. intros st2 q e Hh2 E2 _.
    simpl in Hf. eapply agrees_bind; [apply (IH ts st2 Hh2); lia|].
    intros p st3 [a ts3] Er (Hh3 & Hpre3 & i & -> & Hi). pose proof (r_line_length _ _ _ _ Er) as Hl.
    apply (agrees_peek [41] _ _ _ st3 ts3); [done|solve_symbols|].
    intros st4 Hh4 E4.
    destruct ts3 as [|[w| | | | | | | |] ts4]; try (by eexists).
    apply (agrees_gettoken _ _ _ _ TClose ts4); [done|]. intros st5 q5 e5 Hh5 E5 _.
    simpl in Hl. assert (sh_heap st5 = sh_heap st3) as E by congruence.
    pose proof (parseredirs_agrees fuel ts4 st5 i i [] Hh5 ltac:(lia)) as Hr.
    assert (chain spans (sh_heap st5) i i []) as Hch.
    { constructor. rewrite E. apply lookup_lt_is_Some. by eapply repr_lt. }
    specialize (Hr Hch). destruct (r_redirs ts4) as [[rs ts6]|]; simpl in Hr; [|done].
    destruct Hr as (p6 & st6 & -> & Hh6 & Hpre6 & c6 & -> & Hch6). eexists _, _. split; [done|].
    split_and!; [done|simpl; etrans; [|done]; rewrite E; by etrans; [rewrite <- E1, <- E2|]|].
    exists c6. split; [done|]. apply (chain_repr _ _ i); [done|].
    eapply repr_mono; [done|]. by rewrite E.
Qed.
End parser.
