(* ===== verification/ShellThm.v ===== *)
(** * The shell understands its language

    parsecmd accepts exactly the lines of the grammar, and the structs it
    leaves behind, with the words of the line cut off in place, mean what the
    grammar says. *)

From S2P Require Import Prelude CString Shell ShellSpec ShellLex ShellRefine.
Local Open Scope Z_scope.

Lemma cstr_app_nul (w l : list Z) : 0 ∉ w → cstr (w ++ 0 :: l) = w.
Proof.
  induction w as [|c w IH]; intros Hw; simpl; [done|].
  rewrite decide_False by set_solver. f_equal. apply IH. set_solver.
Qed.

(** ** nulterminate *)
Section cut.
Context (line junk : list Z).
Hypothesis line_nonzero : 0 ∉ line.
Notation es := (length line).
Notation spans := (spans line).

(** The characters of the words are still there. *)
Definition intact (buf : list Z) : Prop :=
  (es < length buf)%nat ∧ ∀ i c, line !! i = Some c → wordc c → buf !! i = Some c.
(** The word from [q] to [e] is cut off. *)
Definition cut (buf : list Z) (q e : nat) (w : word) : Prop := spans q e w ∧ buf !! e = Some 0.
(** Some ends of words are overwritten, nothing else changes. *)
Definition cuts (st st' : shell) : Prop :=
  sh_heap st' = sh_heap st ∧ sh_s st' = sh_s st ∧ intact (sh_buf st') ∧
  (∀ i, sh_buf st !! i = Some 0 → sh_buf st' !! i = Some 0).

Lemma cuts_refl st : intact (sh_buf st) → cuts st st.
Proof. intros. by split_and!. Qed.
Lemma cuts_trans st1 st2 st3 : cuts st1 st2 → cuts st2 st3 → cuts st1 st3.
Proof. intros (? & ? & ? & ?) (? & ? & ? & ?). split_and!; [congruence..|done|auto]. Qed.
Lemma cut_later st st' q e w : cuts st st' → cut (sh_buf st) q e w → cut (sh_buf st') q e w.
Proof. intros (_ & _ & _ & Hz) [Hs He]. split; auto. Qed.
Lemma repr_later st st' h p a :
  cuts st st' → repr (cut (sh_buf st)) h p a → repr (cut (sh_buf st')) h p a.
Proof. intros Hc. apply repr_impl. intros q e w. by apply cut_later. Qed.

Lemma store_cuts st q e w :
  intact (sh_buf st) → spans q e w →
  ∃ st', store e 0 st = Ok (tt, st') ∧ cuts st st' ∧ cut (sh_buf st') q e w.
Proof.
  intros [Hl Hi] Hs. pose proof Hs as (_ & _ & Hstop & _ & _ & He).
  destruct (lookup_lt_is_Some_2 (sh_buf st) e) as [x Hx]; [lia|].
  eexists. split; [unfold store, load, bind, getS; by rewrite Hx|].
  assert (<[e := 0]> (sh_buf st) !! e = Some 0) as Hz by (rewrite list_lookup_insert_eq; [done|lia]).
  split; [split_and!|]; simpl; [done|done| | |].
  - split; [by rewrite length_insert|]. intros i c Hc Hw. rewrite list_lookup_insert_ne; [by apply Hi|].
    intros <-. assert (drop e line = c :: drop (S e) line) as E by (by apply drop_S).
    rewrite E in Hstop. by destruct Hstop.
  - intros i H0. destruct (decide (e = i)) as [<-|]; [done|]. by rewrite list_lookup_insert_ne.
  - done.
Qed.

Lemma nul_args_cuts sp ws k1 k2 st :
  intact (sh_buf st) → Forall2 (λ x w, spans x.1 x.2 w) sp ws →
  ∃ st', nul_args ((Some ∘ fst <$> sp) ++ None :: k1) ((Some ∘ snd <$> sp) ++ k2) st = Ok (tt, st') ∧
    cuts st st' ∧ Forall2 (λ x w, cut (sh_buf st') x.1 x.2 w) sp ws.
Proof.
  intros Hi Hf. revert st Hi. induction Hf as [|[q e] w sp ws Hs Hf IH]; intros st Hi; simpl.
  { exists st. split_and!; [done|by apply cuts_refl|constructor]. }
  destruct (store_cuts st q e w Hi Hs) as (st1 & E1 & Hc1 & Hw1). unfold bind. rewrite E1.
  destruct (IH st1) as (st2 & E2 & Hc2 & Hw2); [by destruct Hc1 as (_ & _ & ? & _)|].
  exists st2. split_and!; [exact E2|by eapply cuts_trans|]. constructor; [|done]. by eapply cut_later.
Qed.

Lemma nulterminate_cuts fuel : ∀ p a st,
  repr spans (sh_heap st) p a → (p < fuel)%nat → intact (sh_buf st) →
  ∃ st', nulterminate fuel (Some p) st = Ok (tt, st') ∧ cuts st st' ∧
    repr (cut (sh_buf st')) (sh_heap st) p a.
Proof.
  induction fuel as [|fuel IH]; intros p a st Hr Hp Hi; [lia|]. cbn [nulterminate].
  assert (∀ l r b c, (l < fuel)%nat → (r < fuel)%nat → repr spans (sh_heap st) l b → repr spans (sh_heap st) r c →
    ∃ st', (nulterminate fuel (Some l) ;;; nulterminate fuel (Some r)) st = Ok (tt, st') ∧ cuts st st' ∧
      repr (cut (sh_buf st')) (sh_heap st) l b ∧ repr (cut (sh_buf st')) (sh_heap st) r c) as Hpair.
  { intros l r b c Hl Hr' Hb Hc. unfold bind.
    destruct (IH l b st Hb Hl Hi) as (st1 & -> & Hc1 & Hb1). pose proof Hc1 as (E1 & _ & Hi1 & _).
    destruct (IH r c st1) as (st2 & -> & Hc2 & Hb2); [by rewrite E1|done..|].
    exists st2. split_and!; [done|by eapply cuts_trans|by eapply repr_later|by rewrite <- E1]. }
  assert (∀ x, sh_heap st !! p = Some x → load_cmd (Some p) st = Ok (x, st)) as Hload.
  { intros x Hx. unfold load_cmd, bind, getS. simpl. by rewrite Hx. }
  unfold bind at 1. destruct a as [ws|b w m fd|b c|b c|b]; simpl in Hr.
  - destruct Hr as (sp & Hx & Hf & Hl). rewrite (Hload _ Hx). cbn [exec_cell]. cbn match.
    unfold argv_of. replace (MAXARGS - length sp)%nat with (S (MAXARGS - length sp - 1))
      by (rewrite (Forall2_length Hf); lia). cbn [replicate].
    destruct (nul_args_cuts sp ws (replicate (MAXARGS - length sp - 1) None)
      (None :: replicate (MAXARGS - length sp - 1) None) st Hi Hf) as (st' & -> & Hc & Hf').
    exists st'. split_and!; [done..|]. simpl. eauto.
  - destruct Hr as (c & q & e & Hx & Hlt & Hs & Hb). rewrite (Hload _ Hx). cbn match. unfold bind.
    destruct (IH c b st Hb) as (st1 & -> & Hc1 & Hb1); [lia|done|]. pose proof Hc1 as (E1 & _ & Hi1 & _).
    destruct (store_cuts st1 q e w Hi1 Hs) as (st2 & -> & Hc2 & Hw2).
    exists st2. split_and!; [done|by eapply cuts_trans|]. simpl.
    exists c, q, e. split_and!; [done..|by eapply repr_later].
  - destruct Hr as (l & r & Hx & Hl & Hr & Hb & Hc). rewrite (Hload _ Hx). cbn match.
    destruct (Hpair l r b c) as (st' & -> & ? & ? & ?); [lia..|done|done|].
    exists st'. split_and!; [done..|]. simpl. eauto 8.
  - destruct Hr as (l & r & Hx & Hl & Hr & Hb & Hc). rewrite (Hload _ Hx). cbn match.
    destruct (Hpair l r b c) as (st' & -> & ? & ? & ?); [lia..|done|done|].
    exists st'. split_and!; [done..|]. simpl. eauto 8.
  - destruct Hr as (c & Hx & Hlt & Hb). rewrite (Hload _ Hx). cbn match.
    destruct (IH c b st Hb) as (st1 & -> & Hc1 & Hb1); [lia|done|].
    exists st1. split_and!; [done..|]. simpl. eauto.
Qed.

(** A word that is cut off is a C string. *)
Lemma cut_cstr buf q e w : intact buf → cut buf q e w → cstr (drop q buf) = w.
Proof.
  intros [Hl Hi] [(Hw & Hf & _ & Hd & -> & He) H0].
  assert (drop q buf = w ++ drop (q + length w) buf) as ->.
  { rewrite <- (take_drop (length w) (drop q buf)), drop_drop. f_equal.
    apply list_eq. intros i. destruct (decide (i < length w)%nat) as [Hlt|Hge].
    - rewrite lookup_take_lt, lookup_drop by done.
      destruct (lookup_lt_is_Some_2 w i Hlt) as [c Hc]. rewrite Hc. apply Hi.
      + rewrite <- lookup_drop, Hd. by apply lookup_app_l_Some.
      + rewrite list.Forall_forall in Hf. apply Hf. by eapply list_elem_of_lookup_2.
    - rewrite !lookup_ge_None_2; [done|lia|rewrite length_take; lia]. }
  rewrite (drop_S buf 0 (q + length w)) by done. apply cstr_app_nul.
  intros Hin. apply line_nonzero. rewrite <- (take_drop q line), Hd. set_solver.
Qed.
End cut.

(** ** parsecmd *)
Notation denotes st := (repr (λ q _ w, cstr (drop q (sh_buf st)) = w) (sh_heap st)).

Section parsecmd.
Context (line junk : list Z).
Hypothesis line_nonzero : 0 ∉ line.
Notation es := (length line).

Lemma strlen_line : strlen (line ++ 0 :: junk) = Some es.
Proof.
  rewrite strlen_spec by (unfold terminated; set_solver). by rewrite cstr_app_nul.
Qed.

Lemma intact_line : intact line (line ++ 0 :: junk).
Proof.
  split; [rewrite length_app; simpl; lia|]. intros i c Hi _. by apply lookup_app_l_Some.
Qed.

(** The outcome of parsecmd, by the parser on tokens. *)
Lemma parsecmd_outcome st ts :
  sh_buf st = line ++ 0 :: junk → lex line ts →
  match r_line (parse_fuel es) ts with
  | Some (a, []) => ∃ i st', parsecmd 0 st = Ok (Some i, st') ∧ denotes st' i a
  | _ => ∃ e, parsecmd 0 st = Panic e
  end.
Proof.
  intros Hb Hlex. unfold parsecmd.
  rewrite (bind_Ok getS _ st st st), (bind_Ok (of_opt _) _ st es st)
    by (done || by rewrite drop_0, Hb, strlen_line).
  set (st0 := Shell (sh_buf st) (sh_heap st) 0). change (0 + es)%nat with es.
  rewrite (bind_Ok (set_s 0) _ st tt st0) by done.
  assert (here line junk st0 ts) as Hh by (split_and!; [done|simpl; lia|done]).
  pose proof (lex_length _ _ Hlex) as Hlen.
  pose proof (proj1 (parse_agrees line junk line_nonzero (parse_fuel es) ts st0 Hh) ltac:(unfold parse_fuel; lia)) as Ha.
  destruct (r_line (parse_fuel es) ts) as [[a ts']|]; simpl in Ha;
    [|destruct Ha as [err E]; exists err; by apply bind_Panic].
  destruct Ha as (p & st1 & E1 & (Hh1 & _ & i & -> & Hr)). simpl in Hh1, Hr.
  rewrite (bind_Ok _ _ _ _ _ E1).
  destruct (peek_spec line junk line_nonzero st1 ts' [] Hh1 (list.Forall_nil_2 _)) as (st2 & Ep & Hh2 & E2 & Hend).
  rewrite (bind_Ok _ _ _ _ _ Ep), (bind_Ok getS _ st2 st2 st2) by done.
  rewrite <- E2 in Hr. destruct Hh2 as (Hb2 & Hs2 & Hl2).
  destruct ts' as [|t ts'].
  - destruct (decide (sh_s st2 ≠ es)) as [Hn|_]; [by destruct Hn; apply Hend|].
    destruct (nulterminate_cuts line (S (length (sh_heap st2))) i a st2 Hr) as (st3 & E3 & Hc & Hr3).
    + apply repr_lt in Hr. lia.
    + rewrite Hb2. apply intact_line.
    + exists i, st3. rewrite (bind_Ok _ _ _ _ _ E3). split; [done|].
      pose proof Hc as (Eh & _ & Hi3 & _). rewrite Eh.
      eapply repr_impl; [|exact Hr3]. intros q e w. by apply cut_cstr.
  - destruct (decide (sh_s st2 ≠ es)) as [_|Hn]; [by eexists|]. exfalso. apply Hn. intros E.
    rewrite E, drop_ge in Hl2 by lia. inversion Hl2 as [| | | | |w l ? Hw]. by destruct w.
Qed.
End parsecmd.

(** C37. parsecmd accepts exactly the language of the shell.  On every line it
    ends without reading or writing outside the line: either it returns a tree
    of structs whose words, cut off in place in the line, spell the one command
    the grammar reads in the tokens of the line, or it panics and the grammar
    has no reading of the line. *)
Theorem parsecmd_grammar line junk st :
  0 ∉ line → sh_buf st = line ++ 0 :: junk →
  ∃ ts, lex line ts ∧ (∀ ts', lex line ts' → ts' = ts) ∧
  match parsecmd 0 st with
  | Ok (p, st') => ∃ i a, p = Some i ∧ denotes st' i a ∧ gram Line ts a ∧ ∀ a', gram Line ts a' → a' = a
  | Panic _ => ∀ a, ¬ gram Line ts a
  | Fault | Diverge => False
  end.
Proof.
  intros Hnz Hb. destruct (lex_total line) as [ts Hlex]. exists ts. split; [done|].
  split; [by intros ts' Hlex'; eapply lex_det|].
  pose proof (parsecmd_outcome line junk Hnz st ts Hb Hlex) as H. pose proof (lex_length _ _ Hlex) as Hlen.
  assert (∀ a, gram Line ts a → r_line (parse_fuel (length line)) ts = Some (a, [])) as Hcomp.
  { intros a G. pose proof (r_complete _ _ _ G [] (parse_fuel (length line)) I) as E.
    rewrite app_nil_r in E. apply E. unfold parse_fuel. simpl. lia. }
  destruct (r_line _ ts) as [[a [|t ts']]|] eqn:Er.
  - destruct H as (i & st' & -> & Hd). exists i, a. split_and!; [done..| |].
    + apply r_sound in Er as (ts0 & -> & G). by rewrite app_nil_r.
    + intros a' G%Hcomp. congruence.
  - destruct H as [e ->]. intros a' G%Hcomp. congruence.
  - destruct H as [e ->]. intros a' G%Hcomp. congruence.
Qed.

(** "(a b<c)>d &;e|f" *)
Definition sample_line : list Z := [40; 97; 32; 98; 60; 99; 41; 62; 100; 32; 38; 59; 101; 124; 102].
Definition sample_shell : shell := Shell (sample_line ++ [0; 7; 7]) [] 0.

Lemma parsecmd_grammar_witness :
  0 ∉ sample_line ∧
  ∃ ts, lex sample_line ts ∧ (∀ ts', lex sample_line ts' → ts' = ts) ∧
  match parsecmd 0 sample_shell with
  | Ok (p, st') => ∃ i a, p = Some i ∧ denotes st' i a ∧ gram Line ts a ∧ ∀ a', gram Line ts a' → a' = a
  | Panic _ => ∀ a, ¬ gram Line ts a
  | Fault | Diverge => False
  end.
Proof.
  assert (0 ∉ sample_line) as H0 by (apply (bool_decide_unpack _); vm_compute; exact I).
  split; [exact H0|]. exact (parsecmd_grammar sample_line [7; 7] sample_shell H0 eq_refl).
Defined.

(** C40. Parsing undoes printing: every command made of words, pipes, lists,
    background jobs and redirections, nested to any depth and with up to nine
    arguments, is written as a line from which parsecmd rebuilds it. *)
Theorem parsecmd_show a junk h s :
  valid a →
  ∃ i st', parsecmd 0 (Shell (spell (show 3 a) ++ 0 :: junk) h s) = Ok (Some i, st') ∧ denotes st' i a.
Proof.
  intros Hv. pose proof (show_tok_ok 3 a Hv) as Hok. pose proof (lex_spell _ Hok) as Hlex.
  pose proof (spell_nonzero _ Hok) as Hnz.
  pose proof (parsecmd_outcome _ junk Hnz (Shell (spell (show 3 a) ++ 0 :: junk) h s) _ eq_refl Hlex) as H.
  pose proof (r_complete _ _ _ (show_gram a Hv 3) [] (parse_fuel (length (spell (show 3 a)))) I) as E.
  rewrite app_nil_r in E. simpl in E. rewrite E in H; [done|].
  pose proof (lex_length _ _ Hlex). unfold parse_fuel. lia.
Qed.

(** { a b } in the background, its output in [o]; then [c | d < i] *)
Definition sample_ast : ast :=
  AList (ABack (ARedir (AList (AExec [[97]; [98]]) (ABack (AExec []))) [111] 513 1))
        (APipe (AExec [[99]]) (ARedir (AExec [[100]]) [105] 0 0)).
Lemma parsecmd_show_witness :
  valid sample_ast ∧
  ∃ i st', parsecmd 0 (Shell (spell (show 3 sample_ast) ++ 0 :: []) [] 0) = Ok (Some i, st') ∧
    denotes st' i sample_ast.
Proof.
  assert (valid sample_ast) as Hv by (apply (bool_decide_unpack _); vm_compute; exact I).
  split; [exact Hv|]. exact (parsecmd_show sample_ast [] [] 0 Hv).
Defined.
