(* ===== verification/Vm.v ===== *)
(** * Physical pages and page tables (kalloc.c, vm.c, mmu.h, memlayout.h)

    Physical memory is a map from page addresses to the bytes of the page.  The
    kernel reaches all of it through its own mapping at KERNBASE: a kernel
    pointer [v] points into the page of [v2p v].  A pointer outside the pages of
    the map faults, the null pointer does.  [end_] and [data] are the symbols of
    the linker script; locks are those of [Sync].  [readi] of loaduvm is a
    parameter that yields the bytes read.  Console output and the registers that
    seginit, switchkvm and switchuvm set are not modelled here. *)

From S2P Require Import Prelude CString ProcData Sync Words.
Local Open Scope Z_scope.

(** ** memlayout.h and mmu.h *)
Definition EXTMEM : Z := 0x100000.
Definition PHYSTOP : Z := 0xE000000.
Definition DEVSPACE : Z := 0xFE000000.
Definition KERNBASE : Z := 0x80000000.
Definition KERNLINK : Z := KERNBASE + EXTMEM.
Definition v2p (a : Z) : Z := u32 (a - KERNBASE).
Definition p2v (a : Z) : Z := u32 (a + KERNBASE).

Definition PGSIZE : Z := 4096.
Definition NPDENTRIES : Z := 1024.
Definition NPTENTRIES : Z := 1024.
Definition PTE_P : Z := 1.
Definition PTE_W : Z := 2.
Definition PTE_U : Z := 4.
Definition PDX (va : Z) : Z := Z.land (Z.shiftr va 22) 0x3FF.
Definition PTX (va : Z) : Z := Z.land (Z.shiftr va 12) 0x3FF.
Definition PTE_ADDR (pte : Z) : Z := Z.ldiff pte 0xFFF.
Definition PTE_FLAGS (pte : Z) : Z := Z.land pte 0xFFF.
Definition PGROUNDUP (sz : Z) : Z := Z.ldiff (u32 (sz + PGSIZE - 1)) (PGSIZE - 1).
Definition PGROUNDDOWN (a : Z) : Z := Z.ldiff a (PGSIZE - 1).

Record kmem (C : Type) := mkkmem {
  km_world : C  (* the locks *);
  km_use_lock : bool;
  km_freelist : Z;
  km_mem : gmap Z (list Z)  (* the pages of physical memory *)
}.
Arguments mkkmem {C}.
Arguments km_world {C}.
Arguments km_use_lock {C}.
Arguments km_freelist {C}.
Arguments km_mem {C}.
Definition set_km_world {C} (x : C) (s : kmem C) : kmem C := mkkmem x (km_use_lock s) (km_freelist s) (km_mem s).
Definition set_km_use_lock {C} x (s : kmem C) : kmem C := mkkmem (km_world s) x (km_freelist s) (km_mem s).
Definition set_km_freelist {C} x (s : kmem C) : kmem C := mkkmem (km_world s) (km_use_lock s) x (km_mem s).
Definition set_km_mem {C} x (s : kmem C) : kmem C := mkkmem (km_world s) (km_use_lock s) (km_freelist s) x.

Section vm.
Context {C : Type} `{Sync C}.
Abbreviation V := (M (kmem C)).
Context (end_ data : Z).

(** ** Accesses through kernel pointers *)
Definition page_of (v : Z) : Z := v2p v - v2p v mod PGSIZE.
Definition off_of (v : Z) : nat := Z.to_nat (v2p v mod PGSIZE).

Definition load_page (v : Z) : V (list Z) :=
  let! s := getS in of_opt (if decide (v < KERNBASE) then None else km_mem s !! page_of v).
Definition store_page (v : Z) (x : list Z) : V unit :=
  let! _ := load_page v in modS (λ s, set_km_mem (<[page_of v := x]> (km_mem s)) s).

(** [*p] and [*p = w] for a pointer to a word *)
Definition ld32 (p : Z) : V Z := let! x := load_page p in of_opt (get_word x (off_of p)).
Definition st32 (p w : Z) : V unit :=
  let! x := load_page p in
  let! y := of_opt (put_word x (off_of p) w) in
  store_page p y.
(** [n] bytes from [p], and bytes stored at [p], inside a page *)
Definition ld_bytes (p : Z) (n : nat) : V (list Z) :=
  let! x := load_page p in
  of_opt (if decide (off_of p + n ≤ length x)%nat then Some (take n (drop (off_of p) x)) else None).
Definition st_bytes (p : Z) (l : list Z) : V unit :=
  let! x := load_page p in
  let! y := of_opt (if decide (off_of p + length l ≤ length x)%nat then Some (splice x (off_of p) l) else None) in
  store_page p y.
(** memset of a whole page *)
Definition memset_page (v c : Z) : V unit :=
  let! x := load_page v in
  let! y := of_opt (memset v x c (Z.to_nat PGSIZE)) in
  store_page v y.

(** ** kalloc.c *)
Definition kworld {A} (m : M C A) : V A := zoom km_world set_km_world m.

Definition kmem_acquire : V unit :=
  let! s := getS in if km_use_lock s then kworld (k_acquire "kmem") else skip.
Definition kmem_release : V unit :=
  let! s := getS in if km_use_lock s then kworld (k_release "kmem") else skip.

Definition kfree (v : Z) : V unit :=
  if decide (v mod PGSIZE ≠ 0 ∨ v < end_ ∨ PHYSTOP ≤ v2p v) then panic "kfree"
  else
    memset_page v 1 ;;;
    kmem_acquire ;;;
    let! s := getS in
    st32 v (km_freelist s) ;;;
    modS (set_km_freelist v) ;;;
    kmem_release.

(** The null pointer is [0]. *)
Definition kalloc : V Z :=
  kmem_acquire ;;;
  let! s := getS in
  let r := km_freelist s in
  (if decide (r ≠ 0) then
     let! n := ld32 r in modS (set_km_freelist n)
   else skip) ;;;
  kmem_release ;;;
  ret r.

(** [for(; p + PGSIZE <= vend; p += PGSIZE) kfree(p)] *)
Fixpoint freerange_from (fuel : nat) (p vend : Z) : V unit :=
  match fuel with
  | O => diverge
  | S fuel' =>
      if decide (u32 (p + PGSIZE) ≤ vend) then
        kfree p ;;; freerange_from fuel' (u32 (p + PGSIZE)) vend
      else skip
  end.
Definition freerange (vstart vend : Z) : V unit :=
  freerange_from (S (Z.to_nat (vend / PGSIZE))) (PGROUNDUP vstart) vend.
Definition kinit1 (vstart vend : Z) : V unit :=
  kworld (k_initlock "kmem") ;;;
  modS (set_km_use_lock false) ;;;
  freerange vstart vend.
Definition kinit2 (vstart vend : Z) : V unit :=
  freerange vstart vend ;;; modS (set_km_use_lock true).

(** ** vm.c *)

(** The address of the page table entry, or [0]. *)
Definition walkpgdir (pgdir va : Z) (alloc : bool) : V Z :=
  let pde := pgdir + 4 * PDX va in
  let! e := ld32 pde in
  if decide (Z.land e PTE_P ≠ 0) then ret (p2v (PTE_ADDR e) + 4 * PTX va)
  else if alloc then
    let! pgtab := kalloc in
    if decide (pgtab = 0) then ret 0
    else
      memset_page pgtab 0 ;;;
      st32 pde (Z.lor (Z.lor (Z.lor (v2p pgtab) PTE_P) PTE_W) PTE_U) ;;;
      ret (pgtab + 4 * PTX va)
  else ret 0.

(** One turn per page from [a] to [last]. *)
Fixpoint mappages_from (fuel : nat) (pgdir a last pa perm : Z) : V Z :=
  match fuel with
  | O => diverge
  | S fuel' =>
      let! pte := walkpgdir pgdir a true in
      if decide (pte = 0) then ret (-1)
      else
        let! e := ld32 pte in
        if decide (Z.land e PTE_P ≠ 0) then panic "remap"
        else
          st32 pte (Z.lor (Z.lor pa perm) PTE_P) ;;;
          if decide (a = last) then ret 0
          else mappages_from fuel' pgdir (u32 (a + PGSIZE)) last (u32 (pa + PGSIZE)) perm
  end.
Definition mappages (pgdir va size pa perm : Z) : V Z :=
  let a := PGROUNDDOWN va in
  let last := PGROUNDDOWN (u32 (va + size - 1)) in
  mappages_from (S (Z.to_nat (u32 (last - a) / PGSIZE))) pgdir a last pa perm.

(** virt, phys_start, phys_end, perm *)
Definition kmap : list (Z * Z * Z * Z) :=
  [ (KERNBASE, 0, EXTMEM, PTE_W);
    (KERNLINK, v2p KERNLINK, v2p data, 0);
    (data, v2p data, PHYSTOP, PTE_W);
    (DEVSPACE, DEVSPACE, 0, PTE_W) ].

(** The loop over kmap: [false] when a mapping fails. *)
Fixpoint map_kernel (ks : list (Z * Z * Z * Z)) (pgdir : Z) : V bool :=
  match ks with
  | [] => ret true
  | (virt, phys_start, phys_end, perm) :: ks' =>
      let! r := mappages pgdir virt (u32 (phys_end - phys_start)) phys_start perm in
      if decide (r < 0) then ret false else map_kernel ks' pgdir
  end.
Definition setupkvm : V Z :=
  let! pgdir := kalloc in
  if decide (pgdir = 0) then ret 0
  else
    memset_page pgdir 0 ;;;
    if decide (DEVSPACE < p2v PHYSTOP) then panic "PHYSTOP too high"
    else
      let! ok := map_kernel kmap pgdir in
      ret (if ok : bool then pgdir else 0).

Definition inituvm (pgdir : Z) (init : list Z) (sz : Z) : V unit :=
  if decide (PGSIZE ≤ sz) then panic "inituvm: more than a page"
  else
    let! mem := kalloc in
    memset_page mem 0 ;;;
    let! _ := mappages pgdir 0 PGSIZE (v2p mem) (Z.lor PTE_W PTE_U) in
    st_bytes mem (take (Z.to_nat sz) init).

Fixpoint loaduvm_from (fuel : nat) (readi : Z → Z → V (list Z)) (pgdir addr offset sz i : Z) : V Z :=
  match fuel with
  | O => diverge
  | S fuel' =>
      if decide (i < sz) then
        let! pte := walkpgdir pgdir (u32 (addr + i)) false in
        if decide (pte = 0) then panic "loaduvm: address should exist"
        else
          let! e := ld32 pte in
          let pa := PTE_ADDR e in
          let n := if decide (sz - i < PGSIZE) then sz - i else PGSIZE in
          let! got := readi (u32 (offset + i)) n in
          st_bytes (p2v pa) got ;;;
          if decide (Z.of_nat (length got) ≠ n) then ret (-1)
          else loaduvm_from fuel' readi pgdir addr offset sz (u32 (i + PGSIZE))
      else ret 0
  end.
Definition loaduvm (readi : Z → Z → V (list Z)) (pgdir addr offset sz : Z) : V Z :=
  if decide (addr mod PGSIZE ≠ 0) then panic "loaduvm: addr must be page aligned"
  else loaduvm_from (S (Z.to_nat (sz / PGSIZE + 1))) readi pgdir addr offset sz 0.

(** [for(; a < oldsz; a += PGSIZE)] of deallocuvm *)
Fixpoint deallocuvm_from (fuel : nat) (pgdir a oldsz : Z) : V unit :=
  match fuel with
  | O => diverge
  | S fuel' =>
      if decide (a < oldsz) then
        let! pte := walkpgdir pgdir a false in
        if decide (pte = 0) then
          deallocuvm_from fuel' pgdir (u32 (a + (NPTENTRIES - 1) * PGSIZE + PGSIZE)) oldsz
        else
          let! e := ld32 pte in
          (if decide (Z.land e PTE_P ≠ 0) then
             let pa := PTE_ADDR e in
             if decide (pa = 0) then panic "kfree"
             else kfree (p2v pa) ;;; st32 pte 0
           else skip) ;;;
          deallocuvm_from fuel' pgdir (u32 (a + PGSIZE)) oldsz
      else skip
  end.
Definition deallocuvm (pgdir oldsz newsz : Z) : V Z :=
  if decide (oldsz ≤ newsz) then ret oldsz
  else
    deallocuvm_from (S (Z.to_nat (oldsz / PGSIZE + 1))) pgdir (PGROUNDUP newsz) oldsz ;;;
    ret newsz.

(** [for(; a < newsz; a += PGSIZE)] of allocuvm *)
Fixpoint allocuvm_from (fuel : nat) (pgdir a oldsz newsz : Z) : V Z :=
  match fuel with
  | O => diverge
  | S fuel' =>
      if decide (a < newsz) then
        let! mem := kalloc in
        if decide (mem = 0) then
          let! _ := deallocuvm pgdir newsz oldsz in ret 0
        else
          memset_page mem 0 ;;;
          let! _ := mappages pgdir a PGSIZE (v2p mem) (Z.lor PTE_W PTE_U) in
          allocuvm_from fuel' pgdir (u32 (a + PGSIZE)) oldsz newsz
      else ret newsz
  end.
Definition allocuvm (pgdir oldsz newsz : Z) : V Z :=
  if decide (KERNBASE ≤ newsz) then ret 0
  else if decide (newsz < oldsz) then ret oldsz
  else allocuvm_from (S (Z.to_nat (newsz / PGSIZE + 1))) pgdir (PGROUNDUP oldsz) oldsz newsz.

Definition freevm (pgdir : Z) : V unit :=
  if decide (pgdir = 0) then panic "freevm: no pgdir"
  else
    let! _ := deallocuvm pgdir KERNBASE 0 in
    mfor (seqZ 0 NPDENTRIES) (λ i,
      let! e := ld32 (pgdir + 4 * i) in
      if decide (Z.land e PTE_P ≠ 0) then kfree (p2v (PTE_ADDR e)) else skip) ;;;
    kfree pgdir.

Definition clearpteu (pgdir uva : Z) : V unit :=
  let! pte := walkpgdir pgdir uva false in
  if decide (pte = 0) then panic "clearpteu"
  else let! e := ld32 pte in st32 pte (Z.ldiff e PTE_U).

(** The loop of copyuvm: [false] is the jump to bad. *)
Fixpoint copyuvm_from (fuel : nat) (pgdir d i sz : Z) : V bool :=
  match fuel with
  | O => diverge
  | S fuel' =>
      if decide (i < sz) then
        let! pte := walkpgdir pgdir i false in
        if decide (pte = 0) then panic "copyuvm: pte should exist"
        else
          let! e := ld32 pte in
          if decide (Z.land e PTE_P = 0) then panic "copyuvm: page not present"
          else
            let pa := PTE_ADDR e in
            let flags := PTE_FLAGS e in
            let! mem := kalloc in
            if decide (mem = 0) then ret false
            else
              let! x := ld_bytes (p2v pa) (Z.to_nat PGSIZE) in
              st_bytes mem x ;;;
              let! r := mappages d i PGSIZE (v2p mem) flags in
              if decide (r < 0) then ret false
              else copyuvm_from fuel' pgdir d (u32 (i + PGSIZE)) sz
      else ret true
  end.
Definition copyuvm (pgdir sz : Z) : V Z :=
  let! d := setupkvm in
  if decide (d = 0) then ret 0
  else
    let! ok := copyuvm_from (S (Z.to_nat (sz / PGSIZE + 1))) pgdir d 0 sz in
    if ok : bool then ret d
    else freevm d ;;; ret 0.

Definition uva2ka (pgdir uva : Z) : V Z :=
  let! pte := walkpgdir pgdir uva false in
  let! e := ld32 pte in
  if decide (Z.land e PTE_P = 0) then ret 0
  else if decide (Z.land e PTE_U = 0) then ret 0
  else ret (p2v (PTE_ADDR e)).

Fixpoint copyout_from (fuel : nat) (pgdir va : Z) (buf : list Z) (len : Z) : V Z :=
  match fuel with
  | O => diverge
  | S fuel' =>
      if decide (0 < len) then
        let va0 := PGROUNDDOWN va in
        let! pa0 := uva2ka pgdir va0 in
        if decide (pa0 = 0) then ret (-1)
        else
          let n := Z.min (PGSIZE - (va - va0)) len in
          st_bytes (pa0 + (va - va0)) (take (Z.to_nat n) buf) ;;;
          copyout_from fuel' pgdir (u32 (va0 + PGSIZE)) (drop (Z.to_nat n) buf) (len - n)
      else ret 0
  end.
Definition copyout (pgdir va : Z) (p : list Z) (len : Z) : V Z :=
  copyout_from (S (S (Z.to_nat (len / PGSIZE + 1)))) pgdir va p len.
End vm.
