(* ===== verification/VmPages.v ===== *)
(** * Pages: accesses, the free list, kalloc and kfree

    [usable pa]: a page of physical memory above the kernel.  [chain]: the free
    list threaded through the first words of the free pages.  [kok s l]: every
    usable page is there and the free list of [s] is [l]. *)

From S2P Require Import Prelude CString ProcData Sync Words Vm.
Local Open Scope Z_scope.

(** ** Addresses *)

(** The kernel pointer to the physical address [pa]. *)
Definition kp (pa : Z) : Z := pa + KERNBASE.
Definition frame (pa : Z) : Prop := 0 ≤ pa < PHYSTOP ∧ pa mod PGSIZE = 0.

Lemma ldiff_low a k : 0 ≤ k → Z.ldiff a (2 ^ k - 1) = a - a mod 2 ^ k.
Proof.
  intros Hk. replace (2 ^ k - 1) with (Z.ones k) by (rewrite Z.ones_equiv; lia).
  rewrite Z.ldiff_ones_r, Z.shiftr_div_pow2, Z.shiftl_mul_pow2 by done.
  rewrite (Z.div_mod a (2 ^ k)) at 2 by lia. lia.
Qed.
Lemma PGROUNDDOWN_spec a : PGROUNDDOWN a = a - a mod PGSIZE.
Proof. apply (ldiff_low a 12). lia. Qed.
Lemma PTE_ADDR_spec e : PTE_ADDR e = e - e mod PGSIZE.
Proof. apply (ldiff_low e 12). lia. Qed.
Lemma land_low a k : 0 ≤ k → Z.land a (2 ^ k - 1) = a mod 2 ^ k.
Proof.
  intros Hk. replace (2 ^ k - 1) with (Z.ones k) by (rewrite Z.ones_equiv; lia). by apply Z.land_ones.
Qed.
Lemma PTE_FLAGS_spec e : PTE_FLAGS e = e mod PGSIZE.
Proof. apply (land_low e 12). lia. Qed.
Lemma PDX_spec va : 0 ≤ va < 2 ^ 32 → PDX va = va / PGSIZE / 1024.
Proof.
  intros Hva. unfold PDX. rewrite (land_low _ 10), Z.shiftr_div_pow2 by lia. unfold PGSIZE.
  rewrite Z.div_div by lia. change (2 ^ 22) with (4096 * 1024). rewrite Z.mod_small; [done|].
  split; [apply Z.div_pos; lia|]. apply Z.div_lt_upper_bound; lia.
Qed.
Lemma PTX_spec va : PTX va = (va / PGSIZE) mod 1024.
Proof. unfold PTX. by rewrite (land_low _ 10), Z.shiftr_div_pow2 by lia. Qed.

Lemma p2v_frame pa : frame pa → p2v pa = kp pa.
Proof. intros [H _]. unfold p2v, kp, KERNBASE, PHYSTOP in *. apply u32_small. lia. Qed.
Lemma v2p_kp pa k : frame pa → 0 ≤ k < PGSIZE → v2p (kp pa + k) = pa + k.
Proof. intros [H _] Hk. unfold v2p, kp, KERNBASE, PHYSTOP, PGSIZE in *. rewrite u32_small; lia. Qed.
Lemma v2p_kp0 pa : frame pa → v2p (kp pa) = pa.
Proof. intros H. rewrite <- (Z.add_0_r (kp pa)), v2p_kp by (done || unfold PGSIZE; lia). lia. Qed.
Lemma kp_mod pa k : frame pa → 0 ≤ k < PGSIZE → (pa + k) mod PGSIZE = k.
Proof. intros [_ Hm] Hk. by rewrite <- Zplus_mod_idemp_l, Hm, Z.mod_small. Qed.
Lemma page_of_kp pa k : frame pa → 0 ≤ k < PGSIZE → page_of (kp pa + k) = pa.
Proof. intros Hf Hk. unfold page_of. rewrite v2p_kp, kp_mod by done. lia. Qed.
Lemma off_of_kp pa k : frame pa → 0 ≤ k < PGSIZE → off_of (kp pa + k) = Z.to_nat k.
Proof. intros Hf Hk. unfold off_of. by rewrite v2p_kp, kp_mod by done. Qed.
Lemma kp_ge pa k : frame pa → 0 ≤ k → ¬ kp pa + k < KERNBASE.
Proof. intros [H _] Hk. unfold kp, PHYSTOP in *. lia. Qed.
Lemma kp_nonzero pa : frame pa → kp pa ≠ 0.
Proof. intros [H _]. unfold kp, KERNBASE. lia. Qed.
Lemma kp_aligned pa : frame pa → kp pa mod PGSIZE = 0.
Proof.
  intros [_ Hm]. unfold kp. change KERNBASE with (524288 * PGSIZE). by rewrite Z_mod_plus_full.
Qed.

(** ** Accesses *)
Definition full (x : list Z) : Prop := length x = Z.to_nat PGSIZE.
Lemma PGSIZE_nat : Z.to_nat PGSIZE = (4 * 1024)%nat.
Proof. reflexivity. Qed.
#[global] Opaque PGSIZE.
Lemma PGSIZE_eq : PGSIZE = 4096.
Proof. reflexivity. Qed.

(** The page at [pa] holds the words [f]. *)
Definition tab (mem : gmap Z (list Z)) (pa : Z) (f : Z → Z) : Prop :=
  ∃ x, mem !! pa = Some x ∧ full x ∧
    ∀ k, 0 ≤ k < 1024 → get_word x (Z.to_nat (4 * k)) = Some (f k).

Section access.
Context {C : Type} (E : string → Prop).
Implicit Types (s : kmem C).

Lemma wp_load_page v x Q s :
  KERNBASE ≤ v → km_mem s !! page_of v = Some x → Q x s → wp E (load_page v) Q s.
Proof.
  intros Hv Hx HQ. apply wp_bind, wp_getS. rewrite decide_False by lia.
  by apply (wp_of_opt E _ x).
Qed.
Lemma wp_store_page v x y Q s :
  KERNBASE ≤ v → km_mem s !! page_of v = Some x →
  Q tt (set_km_mem (<[page_of v := y]> (km_mem s)) s) → wp E (store_page v y) Q s.
Proof. intros Hv Hx HQ. apply wp_bind, (wp_load_page _ x); [done..|]. by apply wp_modS. Qed.

Lemma wp_ld32 pa k f Q s :
  frame pa → 0 ≤ k < 1024 → tab (km_mem s) pa f → Q (f k) s → wp E (ld32 (kp pa + 4 * k)) Q s.
Proof.
  intros Hf Hk (x & Hx & Hl & Hw) HQ. pose proof PGSIZE_eq as HP.
  apply wp_bind, (wp_load_page _ x).
  - pose proof (kp_ge pa (4 * k) Hf). lia.
  - rewrite page_of_kp by (done || lia). done.
  - rewrite off_of_kp by (done || lia). by apply (wp_of_opt E _ (f k)); [apply Hw|].
Qed.

Lemma wp_st32 pa k w f Q s :
  frame pa → 0 ≤ k < 1024 → tab (km_mem s) pa f → 0 ≤ w < 2 ^ 32 →
  (∀ y, let mem' := <[pa := y]> (km_mem s) in
     tab mem' pa (λ j, if decide (j = k) then w else f j) → Q tt (set_km_mem mem' s)) →
  wp E (st32 (kp pa + 4 * k) w) Q s.
Proof.
  intros Hf Hk (x & Hx & Hl & Hw) Hr HQ. pose proof PGSIZE_eq as HP.
  assert (KERNBASE ≤ kp pa + 4 * k) as Hge by (pose proof (kp_ge pa (4 * k) Hf); lia).
  assert (page_of (kp pa + 4 * k) = pa) as Hp by (apply page_of_kp; [done|lia]).
  destruct (put_le_Some 4 x (Z.to_nat (4 * k)) w) as [y Hy].
  { rewrite Hl, HP. lia. }
  apply wp_bind, (wp_load_page _ x); [done|by rewrite Hp|].
  apply wp_bind. rewrite off_of_kp by (done || lia). apply (wp_of_opt E _ y); [done|].
  apply (wp_store_page _ x); [done|by rewrite Hp|]. rewrite Hp. apply HQ.
  exists y. split_and!; [apply lookup_insert_eq|unfold full; by rewrite (length_put_le _ _ _ _ _ Hy)|].
  intros j Hj. destruct (decide (j = k)) as [->|Hne].
  - rewrite (get_put_word _ _ _ _ Hy). by rewrite u32_small.
  - rewrite <- (Hw j) by done. apply (get_put_le_ne 4 4 _ _ _ _ _ Hy). lia.
Qed.

Lemma wp_memset_page pa c x Q s :
  frame pa → km_mem s !! pa = Some x → full x →
  Q tt (set_km_mem (<[pa := replicate (Z.to_nat PGSIZE) (u8 c)]> (km_mem s)) s) →
  wp E (memset_page (kp pa) c) Q s.
Proof.
  intros Hf Hx Hl HQ. pose proof PGSIZE_eq as HP.
  assert (KERNBASE ≤ kp pa) as Hge by (pose proof (kp_ge pa 0 Hf); lia).
  assert (page_of (kp pa) = pa) as Hp by (rewrite <- (Z.add_0_r (kp pa)); apply page_of_kp; [done|lia]).
  apply wp_bind, (wp_load_page _ x); [done|by rewrite Hp|]. apply wp_bind.
  apply (wp_of_opt E _ (replicate (Z.to_nat PGSIZE) (u8 c))).
  { rewrite memset_spec, decide_True by (unfold full in Hl; lia).
    by rewrite drop_ge, app_nil_r by (unfold full in Hl; lia). }
  apply (wp_store_page _ x); [done|by rewrite Hp|]. by rewrite Hp.
Qed.

Lemma wp_ld_bytes pa k n x Q s :
  frame pa → 0 ≤ k < PGSIZE → km_mem s !! pa = Some x → (Z.to_nat k + n ≤ length x)%nat →
  Q (take n (drop (Z.to_nat k) x)) s → wp E (ld_bytes (kp pa + k) n) Q s.
Proof.
  intros Hf Hk Hx Hn HQ. apply wp_bind, (wp_load_page _ x).
  - pose proof (kp_ge pa k Hf). lia.
  - by rewrite page_of_kp.
  - rewrite off_of_kp by done. rewrite decide_True by done. by apply (wp_of_opt E _ _ _ _ eq_refl).
Qed.
Lemma wp_st_bytes pa k b x Q s :
  frame pa → 0 ≤ k < PGSIZE → km_mem s !! pa = Some x → (Z.to_nat k + length b ≤ length x)%nat →
  Q tt (set_km_mem (<[pa := splice x (Z.to_nat k) b]> (km_mem s)) s) →
  wp E (st_bytes (kp pa + k) b) Q s.
Proof.
  intros Hf Hk Hx Hn HQ. assert (KERNBASE ≤ kp pa + k) as Hge by (pose proof (kp_ge pa k Hf); lia).
  apply wp_bind, (wp_load_page _ x); [done|by rewrite page_of_kp|].
  apply wp_bind. rewrite off_of_kp by done. rewrite decide_True by done.
  apply (wp_of_opt E _ _ _ _ eq_refl), (wp_store_page _ x); [done|by rewrite page_of_kp|].
  by rewrite page_of_kp.
Qed.
End access.

(** Every page holds some words, a cleared one only zeros. *)
Lemma tab_full mem pa x : mem !! pa = Some x → full x → ∃ f, tab mem pa f.
Proof.
  intros Hx Hl. exists (λ k, default 0 (get_word x (Z.to_nat (4 * k)))), x. split_and!; [done..|].
  intros k Hk. destruct (get_le_Some 4 x (Z.to_nat (4 * k))) as [w Hw].
  - rewrite Hl, PGSIZE_eq. lia.
  - unfold get_word. by rewrite Hw.
Qed.
Lemma le_combine_zero n : le_combine (replicate n 0) = 0.
Proof. induction n as [|n IH]; simpl; [done|]. by rewrite IH. Qed.
Lemma tab_zero mem pa :
  mem !! pa = Some (replicate (Z.to_nat PGSIZE) 0) → tab mem pa (λ _, 0).
Proof.
  intros Hx. eexists. split_and!; [done|apply length_replicate|]. intros k Hk.
  unfold get_word, get_le. rewrite decide_True by (rewrite length_replicate, PGSIZE_eq; lia).
  by rewrite drop_replicate, take_replicate, le_combine_zero.
Qed.
Lemma tab_frame mem mem' pa f : mem' !! pa = mem !! pa → tab mem pa f → tab mem' pa f.
Proof. unfold tab. by intros ->. Qed.
Lemma tab_ext mem pa f g : (∀ k, 0 ≤ k < 1024 → f k = g k) → tab mem pa f → tab mem pa g.
Proof. intros Hfg (x & Hx & Hl & Hw). exists x. split_and!; [done..|]. intros k Hk. by rewrite Hw, Hfg. Qed.
Lemma full_replicate c : full (replicate (Z.to_nat PGSIZE) c).
Proof. apply length_replicate. Qed.

(** ** The free list *)
Fixpoint chain (mem : gmap Z (list Z)) (p : Z) (l : list Z) : Prop :=
  match l with
  | [] => p = 0
  | pa :: l' => p = kp pa ∧ ∃ f, tab mem pa f ∧ chain mem (f 0) l'
  end.

Lemma chain_frame mem mem' p l :
  (∀ pa, pa ∈ l → mem' !! pa = mem !! pa) → chain mem p l → chain mem' p l.
Proof.
  revert p. induction l as [|pa l IH]; intros p Hm; simpl; [done|].
  intros (-> & f & Hf & Hc). split; [done|]. exists f. split.
  - eapply tab_frame; [|done]. apply Hm. set_solver.
  - apply IH; [|done]. intros q Hq. apply Hm. set_solver.
Qed.

Section kalloc.
Context {C : Type} `{SyncLaws C} (end_ : Z) (L : list string) (kmem_free : "kmem" ∉ L).
Implicit Types (s : kmem C) (l : list Z).

Definition usable (pa : Z) : Prop := frame pa ∧ end_ ≤ kp pa.

Record kok s l : Prop := mkkok {
  kok_sync : holds L (km_world s);
  kok_pages : ∀ pa, usable pa → ∃ x, km_mem s !! pa = Some x ∧ full x;
  kok_chain : chain (km_mem s) (km_freelist s) l;
  kok_usable : Forall usable l;
  kok_nodup : NoDup l
}.

Lemma kok_page s l pa : kok s l → pa ∈ l → usable pa.
Proof. intros [_ _ _ Hu _]. rewrite list.Forall_forall in Hu. auto. Qed.

(** The memory may change outside the free list. *)
Lemma kok_mem s l mem' :
  kok s l → (∀ pa, pa ∈ l → mem' !! pa = km_mem s !! pa) →
  (∀ pa, usable pa → ∃ x, mem' !! pa = Some x ∧ full x) → kok (set_km_mem mem' s) l.
Proof. intros [Hs Hp Hc Hu Hn] Hm Hp'. split; simpl; try done. by eapply chain_frame. Qed.

Lemma kok_insert s l pa y :
  kok s l → pa ∉ l → full y → kok (set_km_mem (<[pa := y]> (km_mem s)) s) l.
Proof.
  intros Hk Hpa Hy. apply kok_mem; [done| |].
  - intros q Hq. apply lookup_insert_ne. intros ->. done.
  - intros q Hq. destruct (decide (pa = q)) as [->|Hne].
    + exists y. by rewrite lookup_insert_eq.
    + rewrite lookup_insert_ne by done. by apply (kok_pages _ _ Hk).
Qed.

Lemma wp_kmem_acquire E Q s :
  holds L (km_world s) →
  (∀ w', (if km_use_lock s then holds ("kmem" :: L) w' else holds L w') → Q tt (set_km_world w' s)) →
  wp E kmem_acquire Q s.
Proof.
  intros Hh HQ. apply wp_bind, wp_getS. destruct (km_use_lock s) eqn:Hu.
  - apply wp_zoom, (k_acquire_law E "kmem" L); [done..|]. auto.
  - apply wp_skip. specialize (HQ (km_world s) Hh). by destruct s.
Qed.
Lemma wp_kmem_release E Q s :
  (if km_use_lock s then holds ("kmem" :: L) (km_world s) else holds L (km_world s)) →
  (∀ w', holds L w' → Q tt (set_km_world w' s)) → wp E kmem_release Q s.
Proof.
  intros Hh HQ. apply wp_bind, wp_getS. destruct (km_use_lock s) eqn:Hu.
  - by apply wp_zoom, (k_release_law E "kmem" L).
  - apply wp_skip. specialize (HQ (km_world s) Hh). by destruct s.
Qed.

Lemma wp_kalloc E Q s l :
  kok s l →
  (l = [] → ∀ s', kok s' [] → km_mem s' = km_mem s → Q 0 s') →
  (∀ pa l' s', l = pa :: l' → kok s' l' → km_mem s' = km_mem s → usable pa → pa ∉ l' → Q (kp pa) s') →
  wp E kalloc Q s.
Proof.
  intros [Hs Hp Hc Hu Hn] Hnone Hsome. apply wp_bind, wp_kmem_acquire; [done|]. intros w' Hw'.
  apply wp_bind, wp_getS, wp_bind. simpl. destruct l as [|pa l']; simpl in Hc.
  - rewrite decide_False by lia. apply wp_skip, wp_bind, wp_kmem_release; [done|]. intros w2 Hw2.
    apply wp_ret. rewrite Hc. apply Hnone; [done| |done]. split; simpl; try done.
  - destruct Hc as (Hr & f & Hf & Hc). apply list.Forall_cons in Hu as [Hpa Hu].
    apply list.NoDup_cons in Hn as [Hnin Hn].
    rewrite Hr, decide_True by (apply kp_nonzero, Hpa).
    apply wp_bind. replace (kp pa) with (kp pa + 4 * 0) at 1 by lia.
    apply (wp_ld32 E pa 0 f); [apply Hpa|lia|done|]. apply wp_modS, wp_bind, wp_kmem_release; [done|].
    intros w2 Hw2. by apply wp_ret, (Hsome pa l').
Qed.

Lemma chain_range mem p l : Forall usable l → chain mem p l → 0 ≤ p < 2 ^ 32.
Proof.
  destruct l as [|pa l]; simpl; [intros _ ->; lia|].
  intros [[[Hr _] _] _]%list.Forall_cons (-> & _). unfold kp, KERNBASE, PHYSTOP in *. lia.
Qed.

Lemma wp_kfree E Q s l pa :
  kok s l → usable pa → pa ∉ l →
  (∀ s' y, kok s' (pa :: l) → full y → km_mem s' = <[pa := y]> (km_mem s) → Q tt s') →
  wp E (kfree end_ (kp pa)) Q s.
Proof.
  intros Hk Hpa Hnin HQ. pose proof Hpa as [Hf He]. pose proof PGSIZE_eq as HP.
  unfold kfree. rewrite decide_False.
  2: { rewrite kp_aligned, v2p_kp0 by done. destruct Hf as [Hf _]. lia. }
  destruct (kok_pages _ _ Hk pa Hpa) as (x & Hx & Hl).
  apply wp_bind, (wp_memset_page E pa 1 x); [done..|].
  set (s1 := set_km_mem _ s). assert (kok s1 l) as Hk1 by (apply kok_insert; [done..|apply full_replicate]).
  destruct Hk1 as [Hs Hp Hc Hu Hn].
  apply wp_bind, wp_kmem_acquire; [done|]. intros w' Hw'.
  apply wp_bind, wp_getS, wp_bind. change (km_freelist (set_km_world w' s1)) with (km_freelist s1).
  replace (kp pa) with (kp pa + 4 * 0) at 1 by lia.
  destruct (tab_full (km_mem s1) pa (replicate (Z.to_nat PGSIZE) (u8 1))) as [f Hf1];
    [apply lookup_insert_eq|apply full_replicate|].
  apply (wp_st32 E pa 0 _ f); [done|lia|done|by eapply chain_range|].
  intros y mem' Ht. apply wp_bind, wp_modS, wp_kmem_release; [done|]. intros w2 Hw2.
  apply (HQ _ y).
  - split; simpl; try done.
    + intros q Hq. unfold mem'. destruct (decide (pa = q)) as [->|Hne].
      * destruct Ht as (z & Hz & Hlz & _). eauto.
      * rewrite lookup_insert_ne by done. by apply Hp.
    + split; [done|]. eexists. split; [exact Ht|]. simpl.
      eapply chain_frame; [|exact Hc]. intros q Hq. apply lookup_insert_ne. intros ->. done.
    + by constructor.
    + by constructor.
  - destruct Ht as (z & Hz & Hlz & _). unfold mem' in Hz. rewrite lookup_insert_eq in Hz. by injection Hz as ->.
  - simpl. unfold mem'. apply insert_insert_eq.
Qed.
End kalloc.
