(* ===== verification/VmSpace.v ===== *)
(** * Address spaces: walkpgdir and mappages

    [aspace]: a page directory with its page tables and the entries they hold,
    by virtual page number.  [as_ok mem A]: the memory represents [A].  [vm]
    ties the free list, an address space and the pages [O] that belong to
    others: no page has two owners. *)

From S2P Require Import Prelude CString ProcData Sync Words Vm VmPages.
Local Open Scope Z_scope.

(** ** Entries *)
Lemma lor_low t f : t mod PGSIZE = 0 → 0 ≤ f < PGSIZE → Z.lor t f = t + f.
Proof.
  rewrite PGSIZE_eq. intros Ht Hf. rewrite <- Z.add_lor_land.
  enough (Z.land t f = 0) by lia. apply Z.bits_inj'. intros i Hi. rewrite Z.land_spec, Z.bits_0.
  destruct (decide (i < 12)) as [Hlt|Hge].
  - rewrite <- (Z.mod_pow2_bits_low t 12 i) by done. change (2 ^ 12) with 4096. by rewrite Ht, Z.bits_0.
  - rewrite <- (Z.mod_small f (2 ^ 12)) by (change (2 ^ 12) with 4096; lia).
    rewrite Z.mod_pow2_bits_high by lia. apply andb_false_r.
Qed.
Lemma land_P e : Z.land e PTE_P = e mod 2.
Proof. apply (land_low e 1). lia. Qed.

(** ** Address spaces *)
Record aspace := mkas { as_dir : Z; as_tabs : gmap Z Z; as_map : gmap Z Z }.
Definition set_as_map (m : gmap Z Z) (A : aspace) : aspace := mkas (as_dir A) (as_tabs A) m.
Definition frames (A : aspace) : list Z := as_dir A :: (map_to_list (as_tabs A)).*2.

(** The words of the directory and of the [i]-th table. *)
Definition pde_of (A : aspace) (i : Z) : Z :=
  match as_tabs A !! i with Some t => t + 7 | None => 0 end.
Definition pt_of (A : aspace) (i j : Z) : Z := default 0 (as_map A !! (1024 * i + j)).
(** The pointer to the entry of page [n], or null. *)
Definition pte_ptr (A : aspace) (n : Z) : Z :=
  match as_tabs A !! (n / 1024) with Some t => kp t + 4 * (n mod 1024) | None => 0 end.
(** The map after the entry of [n] is set to [w]. *)
Definition set_entry (n w : Z) (m : gmap Z Z) : gmap Z Z :=
  if decide (w = 0) then delete n m else <[n := w]> m.

Lemma elem_of_frames A q : q ∈ frames A ↔ q = as_dir A ∨ ∃ i, as_tabs A !! i = Some q.
Proof.
  unfold frames. rewrite elem_of_cons, list_elem_of_fmap. split; (intros [->|H]; [by left|right]).
  - destruct H as ([i t] & -> & Hin). exists i. by apply elem_of_map_to_list in Hin.
  - destruct H as [i Hi]. exists (i, q). by rewrite elem_of_map_to_list.
Qed.

Section space.
Context {C : Type} `{SyncLaws C} (end_ : Z) (L : list string) (kmem_free : "kmem" ∉ L).
Notation usable := (usable end_).
Notation kok := (kok end_ L).
Implicit Types (s : kmem C) (l O : list Z) (A : aspace).

Record as_ok (mem : gmap Z (list Z)) A : Prop := mkasok {
  ao_usable : ∀ q, q ∈ frames A → usable q;
  ao_dir : tab mem (as_dir A) (pde_of A);
  ao_tabs i t : as_tabs A !! i = Some t → 0 ≤ i < 1024 ∧ tab mem t (pt_of A i);
  ao_map n w : as_map A !! n = Some w → is_Some (as_tabs A !! (n / 1024)) ∧ 0 ≤ w < 2 ^ 32 ∧ w mod 2 = 1
}.

Lemma as_ok_frame mem mem' A :
  (∀ q, q ∈ frames A → mem' !! q = mem !! q) → as_ok mem A → as_ok mem' A.
Proof.
  intros Hm [Hu Hd Ht Hw]. split; try done.
  - eapply tab_frame; [|done]. apply Hm, elem_of_frames. by left.
  - intros i t Hi. destruct (Ht i t Hi) as [Hr Htab]. split; [done|].
    eapply tab_frame; [|done]. apply Hm, elem_of_frames. eauto.
Qed.

(** [s] has the free list [l] and the address space [A]; the pages [O] are
    in use elsewhere. *)
Record vm s l A O : Prop := mkvm {
  vm_kok : kok s l;
  vm_as : as_ok (km_mem s) A;
  vm_sep : NoDup (O ++ frames A ++ l)
}.

Lemma vm_frames_nodup s l A O : vm s l A O → NoDup (frames A).
Proof. intros [_ _ (_ & _ & (Hn & _)%list.NoDup_app)%list.NoDup_app]. done. Qed.
Lemma vm_frame_not_free s l A O q : vm s l A O → q ∈ frames A → q ∉ l.
Proof. intros [_ _ (_ & _ & (_ & Hn & _)%list.NoDup_app)%list.NoDup_app]. auto. Qed.
Lemma vm_other_not_frame s l A O q : vm s l A O → q ∈ O → q ∉ frames A ∧ q ∉ l.
Proof.
  intros [_ _ (_ & Hn & _)%list.NoDup_app] Hq. specialize (Hn q Hq).
  rewrite elem_of_app in Hn. tauto.
Qed.

Lemma vm_table s l A O n t :
  vm s l A O → as_tabs A !! (n / 1024) = Some t → usable t ∧ t ∉ l ∧ t ≠ as_dir A ∧ 0 ≤ n / 1024 < 1024 ∧ tab (km_mem s) t (pt_of A (n / 1024)).
Proof.
  intros Hv Ht. pose proof (vm_as _ _ _ _ Hv) as Ha.
  assert (t ∈ frames A) as Hin by (apply elem_of_frames; eauto).
  destruct (ao_tabs _ _ Ha _ _ Ht) as [Hi Htab].
  split_and!; [by apply (ao_usable _ _ Ha)|by eapply vm_frame_not_free| |lia..|done].
  pose proof (vm_frames_nodup _ _ _ _ Hv) as Hn. unfold frames in Hn.
  apply list.NoDup_cons in Hn as [Hn _]. intros ->. apply Hn.
  apply list_elem_of_fmap. exists (n / 1024, as_dir A). by rewrite elem_of_map_to_list.
Qed.

(** Two tables at different places are different pages. *)
Lemma vm_tables_inj s l A O i j t :
  vm s l A O → as_tabs A !! i = Some t → as_tabs A !! j = Some t → i = j.
Proof.
  intros Hv Hi Hj. pose proof (vm_frames_nodup _ _ _ _ Hv) as [_ Hn]%list.NoDup_cons.
  apply elem_of_map_to_list in Hi, Hj. apply list_elem_of_lookup in Hi as [a Ha], Hj as [b Hb].
  assert (a = b) as ->.
  { eapply (NoDup_lookup _ _ _ t Hn); rewrite list_lookup_fmap; [by rewrite Ha|by rewrite Hb]. }
  congruence.
Qed.

(** ** walkpgdir *)
Lemma page_number va : 0 ≤ va < 2 ^ 32 → 0 ≤ va / PGSIZE / 1024 < 1024.
Proof.
  intros Hva. rewrite PGSIZE_eq, Z.div_div by lia. split; [apply Z.div_pos; lia|].
  apply Z.div_lt_upper_bound; lia.
Qed.
Lemma odd_entry t f : frame t → f mod 2 = 1 → (t + f) mod 2 = 1.
Proof.
  intros [_ Hm] Hf. rewrite PGSIZE_eq in Hm.
  rewrite <- Zplus_mod_idemp_l. enough (t mod 2 = 0) as -> by (by rewrite Z.add_0_l).
  rewrite (Z.div_mod t 4096), Hm by lia. replace (4096 * (t / 4096) + 0) with (0 + t / 4096 * 2048 * 2) by lia.
  by rewrite Z_mod_plus_full.
Qed.

(** The table is there, or the rest of the routine runs. *)
Lemma wp_pgdir_walk E s l A O va alloc Q :
  vm s l A O → 0 ≤ va < 2 ^ 32 →
  (is_Some (as_tabs A !! (va / PGSIZE / 1024)) → Q (pte_ptr A (va / PGSIZE)) s) →
  (as_tabs A !! (va / PGSIZE / 1024) = None →
     wp E (if alloc : bool then
       let! pgtab := kalloc in
       if decide (pgtab = 0) then ret 0
       else
         memset_page pgtab 0 ;;;
         st32 (kp (as_dir A) + 4 * (va / PGSIZE / 1024)) (Z.lor (Z.lor (Z.lor (v2p pgtab) PTE_P) PTE_W) PTE_U) ;;;
         ret (pgtab + 4 * ((va / PGSIZE) mod 1024))
     else ret 0) Q s) →
  wp E (walkpgdir (kp (as_dir A)) va alloc) Q s.
Proof.
  intros Hv Hva Hsome Hnone. pose proof (vm_as _ _ _ _ Hv) as Ha. pose proof (page_number va Hva) as Hn.
  assert (usable (as_dir A)) as [Hdf _] by (apply (ao_usable _ _ Ha), elem_of_frames; by left).
  unfold walkpgdir. rewrite PDX_spec, PTX_spec by done.
  apply wp_bind, (wp_ld32 _ _ _ (pde_of A)); [done|done|apply (ao_dir _ _ Ha)|].
  unfold pte_ptr in Hsome. unfold pde_of. destruct (as_tabs A !! (va / PGSIZE / 1024)) as [t|] eqn:Ht.
  - destruct (vm_table _ _ _ _ _ t Hv Ht) as ([Hf _] & _ & _ & _ & _).
    rewrite land_P, odd_entry by done. rewrite decide_True by done.
    pose proof PGSIZE_eq as HP. rewrite PTE_ADDR_spec, kp_mod by (done || lia).
    replace (t + 7 - 7) with t by lia. rewrite p2v_frame by done. apply wp_ret, Hsome. eauto.
  - rewrite decide_False by (rewrite land_P; tauto). auto.
Qed.

Lemma wp_walkpgdir E s l A O va Q :
  vm s l A O → 0 ≤ va < 2 ^ 32 → Q (pte_ptr A (va / PGSIZE)) s →
  wp E (walkpgdir (kp (as_dir A)) va false) Q s.
Proof.
  intros Hv Hva HQ. eapply wp_pgdir_walk; [done..|]. intros Hn. apply wp_ret.
  unfold pte_ptr in HQ. by rewrite Hn in HQ.
Qed.

(** ** Writing an entry *)
Lemma div_mod_1024 n j : 0 ≤ j < 1024 → (1024 * n + j) / 1024 = n ∧ (1024 * n + j) mod 1024 = j.
Proof.
  intros Hj. rewrite Z.mul_comm, Z.add_comm. rewrite Z.div_add, Z_mod_plus_full by lia.
  rewrite Z.div_small, Z.mod_small by done. lia.
Qed.

Lemma set_entry_lookup n w m k :
  set_entry n w m !! k = if decide (k = n) then (if decide (w = 0) then None else Some w) else m !! k.
Proof.
  unfold set_entry. destruct (decide (w = 0)), (decide (k = n)) as [->|Hne];
    [apply lookup_delete_eq|by apply lookup_delete_ne|apply lookup_insert_eq|by apply lookup_insert_ne].
Qed.

Lemma wp_set_pte E s l A O n t w Q :
  vm s l A O → as_tabs A !! (n / 1024) = Some t → 0 ≤ w < 2 ^ 32 → w = 0 ∨ w mod 2 = 1 →
  (∀ s', vm s' l (set_as_map (set_entry n w (as_map A)) A) O →
     (∀ q, q ≠ t → km_mem s' !! q = km_mem s !! q) → Q tt s') →
  wp E (st32 (pte_ptr A n) w) Q s.
Proof.
  intros Hv Ht Hw Hodd HQ. pose proof (vm_as _ _ _ _ Hv) as Ha.
  destruct (vm_table _ _ _ _ n t Hv Ht) as ((Hf & _) & Hfree & Hd & Hi & Htab).
  unfold pte_ptr. rewrite Ht. apply (wp_st32 _ _ _ _ (pt_of A (n / 1024))); [done| |done|done|].
  { apply Z.mod_pos_bound. lia. }
  intros y mem' Htab'. apply HQ.
  2: { intros q Hq. simpl. unfold mem'. by apply lookup_insert_ne. }
  set (A' := set_as_map _ A).
  assert (full y) as Hy.
  { destruct Htab' as (z & Hz & Hl & _). unfold mem' in Hz. rewrite lookup_insert_eq in Hz. by injection Hz as ->. }
  split; [by apply kok_insert, Hy; [apply Hv|]| |apply Hv]. simpl. split.
  - apply (ao_usable _ _ Ha).
  - eapply tab_frame, (ao_dir _ _ Ha). unfold mem'. by apply lookup_insert_ne.
  - intros i t' Hi'. change (as_tabs A !! i = Some t') in Hi'.
    destruct (ao_tabs _ _ Ha i t' Hi') as [Hir Htab0]. split; [done|].
    destruct (decide (t' = t)) as [->|Hne].
    + rewrite (vm_tables_inj _ _ _ _ i (n / 1024) t Hv Hi' Ht).
      eapply tab_ext, Htab'. intros j Hj. unfold pt_of, A'. simpl. rewrite set_entry_lookup.
      destruct (decide (j = n mod 1024)) as [->|Hnj].
      * rewrite <- Z.div_mod by lia. rewrite (decide_True (P := n = n)) by done.
        destruct (decide (w = 0)) as [->|]; done.
      * rewrite decide_False; [done|]. intros E1. apply Hnj. rewrite <- E1. symmetry. by apply div_mod_1024.
    + eapply tab_frame; [unfold mem'; by apply lookup_insert_ne|].
      eapply tab_ext, Htab0. intros j Hj. unfold pt_of, A'. simpl. rewrite set_entry_lookup, decide_False; [done|].
      intros E1. apply Hne. destruct (div_mod_1024 i j Hj) as [E2 _]. rewrite E1 in E2. subst i. congruence.
  - intros k w' Hk. unfold A' in Hk. simpl in Hk. rewrite set_entry_lookup in Hk.
    destruct (decide (k = n)) as [->|]; [|by apply (ao_map _ _ Ha)].
    destruct (decide (w = 0)); [done|]. injection Hk as <-. split_and!; [exists t; exact Ht|lia..].
Qed.

Lemma pte_ptr_nonzero s l A O n :
  vm s l A O → is_Some (as_tabs A !! (n / 1024)) → pte_ptr A n ≠ 0.
Proof.
  intros Hv [t Ht]. destruct (vm_table _ _ _ _ n t Hv Ht) as (((Hf & _) & _) & _).
  unfold pte_ptr. rewrite Ht. unfold kp, KERNBASE. pose proof (Z.mod_pos_bound n 1024). lia.
Qed.
Lemma wp_get_pte E s l A O n Q :
  vm s l A O → is_Some (as_tabs A !! (n / 1024)) → Q (default 0 (as_map A !! n)) s →
  wp E (ld32 (pte_ptr A n)) Q s.
Proof.
  intros Hv [t Ht] HQ. destruct (vm_table _ _ _ _ n t Hv Ht) as ((Hf & _) & _ & _ & _ & Htab).
  unfold pte_ptr. rewrite Ht. apply (wp_ld32 _ _ _ (pt_of A (n / 1024))); [done|apply Z.mod_pos_bound; lia|done|].
  unfold pt_of. by rewrite <- Z.div_mod by lia.
Qed.

(** ** walkpgdir with alloc *)

(** Tables were added, taken from the free list. *)
Record grew s l A s' l' A' O : Prop := mkgrew {
  gr_vm : vm s' l' A' O;
  gr_dir : as_dir A' = as_dir A;
  gr_tabs : as_tabs A ⊆ as_tabs A';
  gr_new : ∃ new, l = new ++ l' ∧ frames A' ≡ₚ new ++ frames A;
  gr_mem q : q ∉ frames A' → km_mem s' !! q = km_mem s !! q
}.

Lemma grew_refl s l A O : vm s l A O → grew s l A s l A O.
Proof. intros Hv. split; try done. by exists []. Qed.
Lemma grew_frames s l A s' l' A' O q : grew s l A s' l' A' O → q ∈ frames A → q ∈ frames A'.
Proof. intros [_ _ _ (new & _ & Hp) _]. rewrite Hp. set_solver. Qed.
Lemma grew_trans s1 l1 A1 s2 l2 A2 s3 l3 A3 O :
  grew s1 l1 A1 s2 l2 A2 O → grew s2 l2 A2 s3 l3 A3 O → grew s1 l1 A1 s3 l3 A3 O.
Proof.
  intros H1 H2.
  split; [apply H2|rewrite (gr_dir _ _ _ _ _ _ _ H2); apply H1|etrans; [apply H1|apply H2]| |].
  - destruct (gr_new _ _ _ _ _ _ _ H1) as (n1 & -> & P1), (gr_new _ _ _ _ _ _ _ H2) as (n2 & -> & P2).
    exists (n1 ++ n2). rewrite <- app_assoc. split; [done|]. rewrite P2, P1. solve_Permutation.
  - intros q Hq. rewrite (gr_mem _ _ _ _ _ _ _ H2) by done. apply (gr_mem _ _ _ _ _ _ _ H1).
    intros Hin. apply Hq. by eapply grew_frames.
Qed.

Lemma wp_walkpgdir_alloc E s l A O va Q :
  vm s l A O → 0 ≤ va < 2 ^ 32 →
  (l = [] → as_tabs A !! (va / PGSIZE / 1024) = None → ∀ s', vm s' [] A O → km_mem s' = km_mem s → Q 0 s') →
  (∀ s' l' A', grew s l A s' l' A' O → as_map A' = as_map A → (length l ≤ S (length l'))%nat →
     is_Some (as_tabs A' !! (va / PGSIZE / 1024)) → Q (pte_ptr A' (va / PGSIZE)) s') →
  wp E (walkpgdir (kp (as_dir A)) va true) Q s.
Proof.
  intros Hv Hva Hnone Hsome. pose proof (vm_as _ _ _ _ Hv) as Ha. pose proof (page_number va Hva) as Hn.
  assert (usable (as_dir A)) as [Hdf _] by (apply (ao_usable _ _ Ha), elem_of_frames; by left).
  eapply wp_pgdir_walk; [done..|intros Hs; apply (Hsome s l A); [by apply grew_refl|done|lia|done]|].
  intros Ht. set (i := va / PGSIZE / 1024) in *.
  apply wp_bind, (wp_kalloc end_ L kmem_free _ _ _ l); [apply Hv| |].
  { intros -> s' Hk' Hm'. rewrite decide_True by done. apply wp_ret, Hnone; [done..| |done].
    split; [done|by rewrite Hm'|apply Hv]. }
  intros pa l' s1 -> Hk1 Hm1 Hpa Hnin. pose proof Hpa as [Hpf _].
  rewrite decide_False by (by apply kp_nonzero).
  destruct (kok_pages _ _ _ _ Hk1 pa Hpa) as (x & Hx & Hxl).
  apply wp_bind, (wp_memset_page _ _ _ x); [done..|]. set (s2 := set_km_mem _ s1).
  assert (pa ∉ frames A) as Hpn.
  { intros Hin. apply (vm_frame_not_free _ _ _ _ _ Hv Hin). set_solver. }
  assert (pa ≠ as_dir A) as Hpd by (intros ->; apply Hpn, elem_of_frames; by left).
  assert (tab (km_mem s2) (as_dir A) (pde_of A)) as Hd2.
  { eapply tab_frame, (ao_dir _ _ Ha). simpl. rewrite lookup_insert_ne by done. by rewrite Hm1. }
  assert (Z.lor (Z.lor (Z.lor (v2p (kp pa)) PTE_P) PTE_W) PTE_U = pa + 7) as ->.
  { rewrite v2p_kp0 by done. rewrite <- !Z.lor_assoc. pose proof PGSIZE_eq. apply lor_low; [apply Hpf|]. simpl. lia. }
  apply wp_bind, (wp_st32 _ _ _ _ (pde_of A)); [done|done|done| |].
  { destruct Hpf as [Hr _]. unfold PHYSTOP in Hr. lia. }
  intros y mem' Hd3. apply wp_ret.
  set (A' := mkas (as_dir A) (<[i := pa]> (as_tabs A)) (as_map A)).
  assert (frames A' ≡ₚ pa :: frames A) as Hfr.
  { unfold frames, A'. simpl. rewrite map_to_list_insert by done. simpl. constructor. }
  assert (pte_ptr A' (va / PGSIZE) = kp pa + 4 * ((va / PGSIZE) mod 1024)) as <-.
  { unfold pte_ptr, A'. simpl. fold i. by rewrite lookup_insert_eq. }
  apply (Hsome _ l' A'); [|done|simpl; lia|fold i; unfold A'; simpl; by rewrite lookup_insert_eq].
  assert (full y) as Hy.
  { destruct Hd3 as (z & Hz & Hl & _). unfold mem' in Hz. rewrite lookup_insert_eq in Hz. by injection Hz as ->. }
  assert (as_dir A ∉ l') as Hdl.
  { intros Hin. apply (vm_frame_not_free _ _ _ _ (as_dir A) Hv); [apply elem_of_frames; by left|set_solver]. }
  assert (∀ q, q ≠ pa → q ≠ as_dir A → mem' !! q = km_mem s !! q) as Hrest.
  { intros q Hq1 Hq2. unfold mem'. rewrite lookup_insert_ne by done. simpl.
    rewrite lookup_insert_ne by done. by rewrite Hm1. }
  split; [|done|by apply insert_subseteq|exists [pa]; by rewrite Hfr|].
  2: { intros q Hq. rewrite Hfr in Hq. apply Hrest; [set_solver|]. intros ->. apply Hq.
       apply list.elem_of_cons. right. apply elem_of_frames. by left. }
  split.
  - apply (kok_insert end_ L s2 l'); [apply (kok_insert end_ L s1 l'); [done|done|apply full_replicate]|done|done].
  - split.
    + intros q Hq. rewrite Hfr in Hq. apply elem_of_cons in Hq as [->|Hq]; [done|]. by apply (ao_usable _ _ Ha).
    + eapply tab_ext, Hd3. intros j Hj. unfold pde_of, A'. simpl.
      destruct (decide (j = i)) as [->|Hne]; [by rewrite lookup_insert_eq|]. by rewrite lookup_insert_ne.
    + intros j t Hj. unfold A' in Hj. simpl in Hj.
      destruct (decide (i = j)) as [<-|Hne].
      * rewrite lookup_insert_eq in Hj. injection Hj as <-. split; [done|].
        eapply (tab_ext _ _ (λ _, 0)).
        -- intros k Hk. unfold pt_of, A'. simpl. destruct (as_map A !! _) as [w|] eqn:Ew; [|done].
           apply (ao_map _ _ Ha) in Ew as ([t Et] & _). rewrite (proj1 (div_mod_1024 i k Hk)) in Et. congruence.
        -- apply tab_zero. simpl. unfold mem'. rewrite lookup_insert_ne by done. apply lookup_insert_eq.
      * rewrite lookup_insert_ne in Hj by done. destruct (ao_tabs _ _ Ha j t Hj) as [Hjr Hjt].
        split; [done|]. eapply tab_frame, Hjt. apply Hrest.
        -- intros ->. apply Hpn, elem_of_frames. eauto.
        -- destruct (vm_table _ _ _ _ (1024 * j) t Hv) as (_ & _ & ? & _); [|done].
           pose proof (div_mod_1024 j 0 ltac:(lia)) as [E1 _]. by rewrite Z.add_0_r in E1; rewrite E1.
    + intros n w Hw. destruct (ao_map _ _ Ha n w Hw) as ([t Et] & Hrw). split; [|done].
      unfold A'. simpl. destruct (decide (i = n / 1024)) as [->|]; [by rewrite lookup_insert_eq|].
      rewrite lookup_insert_ne by done. eauto.
  - pose proof (vm_sep _ _ _ _ Hv) as Hs. eapply NoDup_Permutation_proper; [|exact Hs].
    rewrite Hfr. solve_Permutation.
Qed.

(** ** mappages *)
Definition entry (pa perm : Z) : Z := Z.lor (Z.lor pa perm) PTE_P.

Lemma lor_range a b k : 0 ≤ k → 0 ≤ a < 2 ^ k → 0 ≤ b < 2 ^ k → 0 ≤ Z.lor a b < 2 ^ k.
Proof.
  intros Hk Ha Hb. rewrite <- (Z.mod_small a (2 ^ k)), <- (Z.mod_small b (2 ^ k)) by done.
  rewrite <- !Z.land_ones, <- Z.land_lor_distr_l, Z.land_ones by done. apply Z.mod_pos_bound. lia.
Qed.
Lemma entry_range pa perm : 0 ≤ pa < 2 ^ 32 → 0 ≤ perm < PGSIZE → 0 ≤ entry pa perm < 2 ^ 32.
Proof. rewrite PGSIZE_eq. intros. unfold entry, PTE_P. repeat apply lor_range; lia. Qed.
Lemma entry_odd pa perm : entry pa perm mod 2 = 1.
Proof.
  rewrite <- land_P. unfold entry, PTE_P. rewrite Z.land_lor_distr_l, (land_low _ 1) by lia.
  pose proof (Z.mod_pos_bound (Z.lor pa perm) (2 ^ 1)). assert (Z.lor pa perm mod 2 ^ 1 = 0 ∨ Z.lor pa perm mod 2 ^ 1 = 1) as [->| ->] by lia; done.
Qed.
Lemma entry_addr pa perm : pa mod PGSIZE = 0 → 0 ≤ perm < PGSIZE → PTE_ADDR (entry pa perm) = pa.
Proof.
  intros Hpa Hp. unfold entry. rewrite <- Z.lor_assoc. pose proof PGSIZE_eq as HP.
  assert (0 ≤ Z.lor perm PTE_P < PGSIZE) as Hr.
  { rewrite HP in *. unfold PTE_P. apply (lor_range _ _ 12); lia. }
  rewrite lor_low by done. rewrite PTE_ADDR_spec, <- Zplus_mod_idemp_l, Hpa, Z.mod_small by lia. lia.
Qed.

(** [k] pages from number [n] on are mapped to consecutive frames from [pa] on. *)
Definition mapped (n k pa perm : Z) (m m' : gmap Z Z) : Prop :=
  ∀ j, m' !! j = if decide (n ≤ j < n + k) then Some (entry (pa + (j - n) * PGSIZE) perm) else m !! j.

Lemma mapped_nil n pa perm m : mapped n 0 pa perm m m.
Proof. intros j. rewrite decide_False by lia. done. Qed.
Lemma mapped_cons n k pa perm m m' :
  0 ≤ k → mapped (n + 1) k (pa + PGSIZE) perm (set_entry n (entry pa perm) m) m' →
  mapped n (k + 1) pa perm m m'.
Proof.
  intros Hk Hm j. rewrite Hm, set_entry_lookup. pose proof (entry_odd pa perm) as Ho.
  destruct (decide (j = n)) as [->|Hj].
  - rewrite (decide_False (P := n + 1 ≤ n < n + 1 + k)), (decide_True (P := n ≤ n < n + (k + 1))) by lia.
    destruct (decide (n = n)); [|done].
    destruct (decide (entry pa perm = 0)) as [E|]; [by rewrite E in Ho|]. do 2 f_equal. lia.
  - destruct (decide (n ≤ j < n + (k + 1))), (decide (n + 1 ≤ j < n + 1 + k)); try lia; [|done].
    do 2 f_equal. lia.
Qed.

Lemma wp_mappages_from E fuel O : ∀ s l A n k pa perm Q,
  vm s l A O → 0 ≤ n → 0 < k → n + k ≤ 2 ^ 20 → 0 ≤ pa → pa mod PGSIZE = 0 → pa + k * PGSIZE ≤ 2 ^ 32 →
  0 ≤ perm < PGSIZE → (Z.to_nat (k - 1) < fuel)%nat →
  (∀ j, n ≤ j < n + k → as_map A !! j = None) →
  (∀ s' l' A', grew s l A s' l' A' O → mapped n k pa perm (as_map A) (as_map A') →
     (length l ≤ length l' + Z.to_nat k)%nat → Q 0 s') →
  (∀ s' A' k', 0 ≤ k' < k → grew s l A s' [] A' O → mapped n k' pa perm (as_map A) (as_map A') →
     (length l ≤ Z.to_nat k')%nat → Q (-1) s') →
  wp E (mappages_from fuel (kp (as_dir A)) (n * PGSIZE) ((n + k - 1) * PGSIZE) pa perm) Q s.
Proof.
  pose proof PGSIZE_eq as HP.
  induction fuel as [|fuel IH]; intros s l A n k pa perm Q Hv Hn Hk Hnk Hpa Hpm Hpk Hperm Hf Hfree Hok Hfail; [lia|].
  cbn [mappages_from]. assert (n * PGSIZE / PGSIZE = n) as En by (rewrite HP; apply Z.div_mul; lia).
  apply wp_bind, (wp_walkpgdir_alloc _ _ l A O); [done|rewrite HP; lia| |]; rewrite En.
  { intros -> Hnone s' Hv' Hm'. rewrite decide_True by done. apply wp_ret, (Hfail s' A 0); [lia| |apply mapped_nil|done].
    split; try done. - by exists []. - intros q _. by rewrite Hm'. }
  intros s1 l1 A1 Hg Hm1 Hlen [t Ht]. pose proof (gr_vm _ _ _ _ _ _ _ Hg) as Hv1.
  rewrite decide_False by (by eapply pte_ptr_nonzero).
  apply wp_bind, (wp_get_pte _ _ l1 A1 O); [done..|eauto|]. rewrite Hm1, Hfree by lia.
  rewrite decide_False by (rewrite land_P; tauto).
  apply wp_bind, (wp_set_pte _ _ l1 A1 O n t); [done|done|apply entry_range; [rewrite HP in Hpk; lia|done]|right; apply entry_odd|].
  intros s2 Hv2 Hm2. set (A2 := set_as_map _ A1) in *. change (Z.lor (Z.lor pa perm) PTE_P) with (entry pa perm) in *.
  assert (grew s l A s2 l1 A2 O) as Hg2.
  { split; [done|apply Hg|apply Hg|apply Hg|]. intros q Hq.
    rewrite Hm2; [by apply (gr_mem _ _ _ _ _ _ _ Hg)|]. intros ->. apply Hq, elem_of_frames. right. exists (n / 1024). exact Ht. }
  assert (as_map A2 = set_entry n (entry pa perm) (as_map A)) as Em2 by (unfold A2; simpl; by rewrite Hm1).
  assert (as_dir A = as_dir A2) as Ed by (symmetry; apply Hg).
  destruct (decide (n * PGSIZE = (n + k - 1) * PGSIZE)) as [Hl|Hl].
  { assert (k = 1) as -> by (rewrite HP in Hl; lia). apply wp_ret, (Hok s2 l1 A2); [done| |lia].
    apply (mapped_cons _ 0); [lia|]. rewrite <- Em2. apply mapped_nil. }
  assert (1 < k) as Hk1 by (rewrite HP in Hl; lia).
  rewrite (u32_small (n * PGSIZE + PGSIZE)) by (rewrite HP; lia).
  rewrite (u32_small (pa + PGSIZE)) by (rewrite HP in Hpk |- *; lia).
  replace (n * PGSIZE + PGSIZE) with ((n + 1) * PGSIZE) by lia.
  replace ((n + k - 1) * PGSIZE) with ((n + 1 + (k - 1) - 1) * PGSIZE) by lia. rewrite Ed.
  apply (IH s2 l1 A2); try done; try lia.
  - rewrite <- Zplus_mod_idemp_r, Z_mod_same_full, Z.add_0_r. done.
  - intros j Hj. rewrite Em2, set_entry_lookup, decide_False by lia. apply Hfree. lia.
  - intros s' l' A' Hg' Hmap Hl'. apply (Hok s' l' A'); [by eapply grew_trans| |lia].
    replace k with (k - 1 + 1) by lia. apply mapped_cons; [lia|]. by rewrite <- Em2.
  - intros s' A' k' Hk' Hg' Hmap Hl'. apply (Hfail s' A' (k' + 1)); [lia|by eapply grew_trans| |lia].
    apply mapped_cons; [lia|]. by rewrite <- Em2.
Qed.

(** The pages that the bytes from [va] to [va + size - 1] are on. *)
Definition pages_of (va size : Z) : Z := (va + size - 1) / PGSIZE - va / PGSIZE + 1.

Lemma wp_mappages E s l A O va size pa perm Q :
  vm s l A O → 0 ≤ va → 0 < size → va + size ≤ 2 ^ 32 →
  0 ≤ pa → pa mod PGSIZE = 0 → pa + pages_of va size * PGSIZE ≤ 2 ^ 32 → 0 ≤ perm < PGSIZE →
  let n := va / PGSIZE in let k := pages_of va size in
  (∀ j, n ≤ j < n + k → as_map A !! j = None) →
  (∀ s' l' A', grew s l A s' l' A' O → mapped n k pa perm (as_map A) (as_map A') →
     (length l ≤ length l' + Z.to_nat k)%nat → Q 0 s') →
  (∀ s' A' k', 0 ≤ k' < k → grew s l A s' [] A' O → mapped n k' pa perm (as_map A) (as_map A') →
     (length l ≤ Z.to_nat k')%nat → Q (-1) s') →
  wp E (mappages (kp (as_dir A)) va size pa perm) Q s.
Proof.
  intros Hv Hva Hsz Hend Hpa Hpm Hpk Hperm n k Hfree Hok Hfail. pose proof PGSIZE_eq as HP.
  unfold mappages. rewrite (u32_small (va + size - 1)) by lia. rewrite !PGROUNDDOWN_spec.
  assert (∀ x, x - x mod PGSIZE = x / PGSIZE * PGSIZE) as Hround.
  { intros x. rewrite (Z.div_mod x PGSIZE) at 1 by (rewrite HP; lia). lia. }
  rewrite !Hround. assert (va / PGSIZE ≤ (va + size - 1) / PGSIZE) as Hle by (apply Z.div_le_mono; rewrite ?HP; lia).
  assert ((va + size - 1) / PGSIZE < 2 ^ 20) as Hlt by (apply Z.div_lt_upper_bound; rewrite ?HP; lia).
  assert (0 ≤ va / PGSIZE) as Hn by (apply Z.div_pos; rewrite ?HP; lia).
  fold n. replace ((va + size - 1) / PGSIZE) with (n + k - 1) by (unfold n, k, pages_of; lia).
  replace (u32 ((n + k - 1) * PGSIZE - n * PGSIZE) / PGSIZE) with (k - 1).
  - apply (wp_mappages_from E _ O s l A); try done; unfold n, k, pages_of in *; lia.
  - rewrite u32_small by (rewrite HP; unfold n, k, pages_of in *; lia).
    replace ((n + k - 1) * PGSIZE - n * PGSIZE) with ((k - 1) * PGSIZE) by lia. symmetry. apply Z.div_mul. rewrite HP. lia.
Qed.
End space.
