(* ===== verification/VmUser.v ===== *)
(** * User memory: allocuvm, deallocuvm, freevm, setupkvm

    The pages below KERNBASE that an address space maps belong to its process.
    [pm]: they are usable pages, distinct from each other, from the page tables,
    from the free list and from the pages [O] of others. *)

From S2P Require Import Prelude CString ProcData Sync Words Vm VmPages VmSpace.
Local Open Scope Z_scope.

(** The number of pages below KERNBASE, and of pages that [sz] bytes take. *)
Definition UPAGES : Z := 2 ^ 19.
Definition pgs (sz : Z) : Z := (sz + PGSIZE - 1) / PGSIZE.

Definition umap (m : gmap Z Z) : gmap Z Z := filter (λ p, p.1 < UPAGES) m.
(** The frames of the user pages. *)
Definition ufr (A : aspace) : list Z := PTE_ADDR <$> (map_to_list (umap (as_map A))).*2.
(** The user pages of [A] are those below page [n]. *)
Definition sized (A : aspace) (n : Z) : Prop :=
  ∀ j, 0 ≤ j < UPAGES → is_Some (as_map A !! j) ↔ j < n.

Lemma PGROUNDUP_spec sz : 0 ≤ sz → sz + PGSIZE ≤ 2 ^ 32 → PGROUNDUP sz = pgs sz * PGSIZE.
Proof.
  intros Hs Hr. unfold PGROUNDUP, pgs. pose proof PGSIZE_eq as HP.
  rewrite u32_small by (rewrite HP in *; lia). set (x := sz + PGSIZE - 1).
  change (Z.ldiff x (PGSIZE - 1)) with (PGROUNDDOWN x). rewrite PGROUNDDOWN_spec.
  rewrite (Z.div_mod x PGSIZE) at 1 by (rewrite HP; lia). lia.
Qed.
Lemma pgs_lt n sz : 0 ≤ n → n * PGSIZE < sz ↔ n < pgs sz.
Proof.
  intros Hn. unfold pgs. pose proof PGSIZE_eq as HP. rewrite HP. split; intros Hl.
  - enough (n + 1 ≤ (sz + 4096 - 1) / 4096) by lia. apply Z.div_le_lower_bound; lia.
  - assert (4096 * (n + 1) ≤ sz + 4096 - 1); [|lia].
    etrans; [|apply (Z.mul_div_le (sz + 4096 - 1) 4096); lia]. nia.
Qed.
Lemma pgs_range sz : 0 ≤ sz ≤ KERNBASE → 0 ≤ pgs sz ≤ UPAGES.
Proof.
  unfold pgs, KERNBASE, UPAGES. rewrite PGSIZE_eq. intros Hs. split; [apply Z.div_pos; lia|].
  enough ((sz + 4096 - 1) / 4096 < 2 ^ 19 + 1) by lia. apply Z.div_lt_upper_bound; lia.
Qed.
Lemma pgs_mono a b : a ≤ b → pgs a ≤ pgs b.
Proof. intros. unfold pgs. rewrite PGSIZE_eq. apply Z.div_le_mono; lia. Qed.

(** The fuel of the loops over pages is enough. *)
Lemma pgs_fuel sz : pgs sz ≤ sz / PGSIZE + 1.
Proof.
  unfold pgs. rewrite PGSIZE_eq. replace (sz + 4096 - 1) with (sz - 1 + 1 * 4096) by lia.
  rewrite Z.div_add by lia. pose proof (Z.div_le_mono (sz - 1) sz 4096). lia.
Qed.

Lemma umap_ext m m' : (∀ j, j < UPAGES → m !! j = m' !! j) → umap m = umap m'.
Proof.
  intros Hm. apply map_eq. intros j. unfold umap. rewrite !map_lookup_filter.
  destruct (decide (j < UPAGES)) as [Hj|Hj]; [by rewrite (Hm j Hj)|].
  destruct (m !! j), (m' !! j); simpl; rewrite ?option_guard_False by done; done.
Qed.
Lemma ufr_ext A A' : (∀ j, j < UPAGES → as_map A !! j = as_map A' !! j) → ufr A = ufr A'.
Proof. intros Hm. unfold ufr. by rewrite (umap_ext _ _ Hm). Qed.
Lemma ufr_add A A' n w :
  as_map A' = <[n := w]> (as_map A) → n < UPAGES → as_map A !! n = None →
  ufr A' ≡ₚ PTE_ADDR w :: ufr A.
Proof.
  intros Em Hn Hm. unfold ufr, umap. rewrite Em, map_filter_insert_True by done.
  rewrite map_to_list_insert; [done|]. rewrite map_lookup_filter, Hm. done.
Qed.
Lemma elem_of_ufr A q :
  q ∈ ufr A ↔ ∃ j w, j < UPAGES ∧ as_map A !! j = Some w ∧ PTE_ADDR w = q.
Proof.
  unfold ufr. rewrite list_elem_of_fmap. split.
  - intros (w & -> & Hw). apply list_elem_of_fmap in Hw as ([j w'] & -> & Hin).
    apply elem_of_map_to_list, map_lookup_filter_Some in Hin as [Hj Hlt]. eauto.
  - intros (j & w & Hj & Hw & <-). exists w. split; [done|]. apply list_elem_of_fmap.
    exists (j, w). split; [done|]. apply elem_of_map_to_list, map_lookup_filter_Some. done.
Qed.

Section user.
Context {C : Type} `{SyncLaws C} (end_ : Z) (L : list string) (kmem_free : "kmem" ∉ L).
Notation usable := (usable end_).
Notation kok := (kok end_ L).
Notation vm := (vm end_ L).
Notation grew := (grew end_ L).
Implicit Types (s : kmem C) (l O : list Z) (A : aspace).

Record pm s l A O : Prop := mkpm {
  pm_vm : vm s l A (ufr A ++ O);
  pm_usable : Forall usable (ufr A)
}.

(** A page leaves the free list. *)
Lemma vm_take s l A O pa s' :
  vm s (pa :: l) A O → kok s' l → km_mem s' = km_mem s → vm s' l A (pa :: O).
Proof.
  intros [_ Ha Hn] Hk Hm. split; [done|by rewrite Hm|].
  eapply NoDup_Permutation_proper; [|exact Hn]. solve_Permutation.
Qed.
(** A page no list refers to changes. *)
Lemma vm_insert s l A O pa x :
  vm s l A O → pa ∉ l → pa ∉ frames A → full x → vm (set_km_mem (<[pa := x]> (km_mem s)) s) l A O.
Proof.
  intros [Hk Ha Hn] Hl Hf Hx. split; [by apply kok_insert| |done]. simpl.
  eapply as_ok_frame, Ha. intros q Hq. apply lookup_insert_ne. intros ->. done.
Qed.
Lemma vm_perm s l A O O' : O ≡ₚ O' → vm s l A O → vm s l A O'.
Proof.
  intros Hp [Hk Ha Hn]. split; [done..|]. eapply NoDup_Permutation_proper, Hn. by rewrite Hp.
Qed.

(** [n] to [N] are new pages, full of zeros; everything else is as before. *)
Record allocated (n N : Z) s l A s' l' A' O : Prop := mkallocated {
  al_pm : pm s' l' A' O;
  al_dir : as_dir A' = as_dir A;
  al_old j : j < n ∨ N ≤ j → as_map A' !! j = as_map A !! j;
  al_new j : n ≤ j < N → ∃ pa, as_map A' !! j = Some (entry pa (Z.lor PTE_W PTE_U)) ∧ pa ∈ l ∧
    frame pa ∧ km_mem s' !! pa = Some (replicate (Z.to_nat PGSIZE) 0);
  al_pages : frames A' ++ ufr A' ++ l' ≡ₚ frames A ++ ufr A ++ l;
  al_mem q : q ∈ ufr A ++ O → km_mem s' !! q = km_mem s !! q;
  al_len : (length l ≤ length l' + 2 * Z.to_nat (N - n))%nat
}.

(** mappages of one page *)
Lemma wp_map_one E s l A O n pa perm Q :
  vm s l A O → 0 ≤ n < 2 ^ 20 → frame pa → 0 ≤ perm < PGSIZE → as_map A !! n = None →
  (∀ s' l' A', grew s l A s' l' A' O → as_map A' = <[n := entry pa perm]> (as_map A) →
     (length l ≤ S (length l'))%nat → Q 0 s') →
  (l = [] → ∀ s' A', grew s l A s' [] A' O → as_map A' = as_map A → Q (-1) s') →
  wp E (mappages (kp (as_dir A)) (n * PGSIZE) PGSIZE pa perm) Q s.
Proof.
  intros Hv Hn [Hpr Hpm] Hperm Hfree Hok Hfail. pose proof PGSIZE_eq as HP.
  assert (n * PGSIZE / PGSIZE = n) as En by (rewrite HP; apply Z.div_mul; lia).
  assert (pages_of (n * PGSIZE) PGSIZE = 1) as Ek.
  { unfold pages_of. rewrite En. replace (n * PGSIZE + PGSIZE - 1) with (PGSIZE - 1 + n * PGSIZE) by lia.
    rewrite Z.div_add by (rewrite HP; lia). rewrite Z.div_small by (rewrite HP; lia). lia. }
  unfold PHYSTOP in Hpr.
  apply (wp_mappages end_ L kmem_free E s l A O); rewrite ?En, ?Ek; try done; try (rewrite HP; lia); try lia.
  - intros j Hj. by replace j with n by lia.
  - intros s' l' A' Hg Hm Hl. apply (Hok s' l' A'); [done| |lia]. apply map_eq. intros j. rewrite Hm.
    destruct (decide (n ≤ j < n + 1)) as [Hj|Hj].
    + replace j with n by lia. rewrite lookup_insert_eq. do 2 f_equal. lia.
    + by rewrite lookup_insert_ne by lia.
  - intros s' A' k' Hk' Hg Hm Hl. assert (k' = 0) as -> by lia. apply (Hfail ltac:(destruct l; [done|simpl in Hl; lia]) s' A'); [done|].
    apply map_eq. intros j. rewrite Hm, decide_False by lia. done.
Qed.

Lemma grew_usable s l A s' l' A' O :
  grew s l A s' l' A' O → l' ⊆ l.
Proof. intros [_ _ _ (new & -> & _) _]. set_solver. Qed.

Lemma WU_range : 0 ≤ Z.lor PTE_W PTE_U < PGSIZE.
Proof. rewrite PGSIZE_eq. by vm_compute. Qed.

(** ** allocuvm *)
Lemma wp_allocuvm_from E fuel O oldsz newsz : ∀ s l A n Q,
  pm s l A O → 0 ≤ n → n ≤ pgs newsz → 0 ≤ newsz < KERNBASE →
  (∀ j, n ≤ j < UPAGES → as_map A !! j = None) →
  (Z.to_nat (pgs newsz - n) < fuel)%nat → (2 * Z.to_nat (pgs newsz - n) ≤ length l)%nat →
  (∀ s' l' A', allocated n (pgs newsz) s l A s' l' A' O → Q newsz s') →
  wp E (allocuvm_from end_ fuel (kp (as_dir A)) (n * PGSIZE) oldsz newsz) Q s.
Proof.
  pose proof PGSIZE_eq as HP.
  induction fuel as [|fuel IH]; intros s l A n Q Hp Hn HnN Hnew Hfree Hf Hl HQ; [lia|].
  pose proof (pgs_range newsz ltac:(lia)) as HN. unfold UPAGES in HN.
  cbn [allocuvm_from]. destruct (decide (n * PGSIZE < newsz)) as [Hlt|Hge].
  2: { apply wp_ret, (HQ s l A). assert (n = pgs newsz) as -> by (rewrite pgs_lt in Hge; lia).
       split; try done; [intros j Hj; lia|lia]. }
  apply pgs_lt in Hlt; [|done]. destruct Hp as [Hv Hu].
  apply wp_bind, (wp_kalloc end_ L kmem_free _ _ _ l); [apply Hv|intros ->; simpl in Hl; lia|].
  intros pa l1 s1 -> Hk1 Hm1 Hpa Hnin. rewrite decide_False by (apply kp_nonzero, Hpa).
  pose proof (vm_take _ _ _ _ _ _ Hv Hk1 Hm1) as Hv1.
  destruct (kok_pages _ _ _ _ Hk1 pa Hpa) as (x & Hx & Hxl).
  destruct (vm_other_not_frame _ _ _ _ _ _ pa Hv1) as [Hnf _]; [set_solver|].
  apply wp_bind, (wp_memset_page _ _ _ x); [apply Hpa|done..|]. set (s2 := set_km_mem _ s1).
  assert (vm s2 l1 A (pa :: ufr A ++ O)) as Hv2 by (apply vm_insert; [done..|apply full_replicate]).
  rewrite v2p_kp0 by apply Hpa.
  apply wp_bind, (wp_map_one E s2 l1 A (pa :: ufr A ++ O)); [done|lia|apply Hpa|apply WU_range|apply Hfree; unfold UPAGES; lia| |].
  2: { intros ->. simpl in Hl. lia. }
  intros s3 l3 A3 Hg Em Hl3. rewrite (u32_small (n * PGSIZE + PGSIZE)) by (rewrite HP; lia).
  replace (n * PGSIZE + PGSIZE) with ((n + 1) * PGSIZE) by lia. rewrite <- (gr_dir _ _ _ _ _ _ _ _ _ Hg).
  assert (PTE_ADDR (entry pa (Z.lor PTE_W PTE_U)) = pa) as Epa by (apply entry_addr, WU_range; apply Hpa).
  assert (ufr A3 ≡ₚ pa :: ufr A) as Huf.
  { rewrite (ufr_add A A3 _ _ Em) by (unfold UPAGES; lia || (apply Hfree; unfold UPAGES; lia)). by rewrite Epa. }
  assert (pm s3 l3 A3 O) as Hp3.
  { split; [|rewrite Huf; by constructor]. eapply vm_perm; [|apply Hg]. by rewrite Huf. }
  simpl in Hl. eapply (IH s3 l3 A3 (n + 1)); [done|lia..|done| |lia|lia|].
  { intros j Hj. rewrite Em, lookup_insert_ne by lia. apply Hfree. lia. }
  intros s' l' A' [Hp' Hd' Hold' Hnew' Hpg' Hmem' Hlen']. apply (HQ s' l' A').
  assert (∀ q, q ∈ pa :: ufr A ++ O → km_mem s3 !! q = km_mem s2 !! q) as Hm3.
  { intros q Hq. apply (gr_mem _ _ _ _ _ _ _ _ _ Hg). by destruct (vm_other_not_frame _ _ _ _ _ _ q (gr_vm _ _ _ _ _ _ _ _ _ Hg) Hq). }
  assert (l3 ⊆ pa :: l1) as Hl31 by (pose proof (grew_usable _ _ _ _ _ _ _ Hg); set_solver).
  split; [done|by rewrite Hd', (gr_dir _ _ _ _ _ _ _ _ _ Hg)| | | | |simpl in *; lia].
  - intros j Hj. rewrite Hold' by lia. rewrite Em, lookup_insert_ne by lia. done.
  - intros j Hj. destruct (decide (j = n)) as [->|Hne].
    + exists pa. split_and!; [|set_solver|apply Hpa|].
      * rewrite Hold' by lia. by rewrite Em, lookup_insert_eq.
      * rewrite Hmem' by (rewrite Huf; set_solver). rewrite Hm3 by set_solver. apply lookup_insert_eq.
    + destruct (Hnew' j) as (pa' & ? & ? & ? & ?); [lia|]. exists pa'. split_and!; [done|set_solver|done..].
  - rewrite Hpg', Huf. destruct (gr_new _ _ _ _ _ _ _ _ _ Hg) as (new & -> & Hfr). rewrite Hfr. solve_Permutation.
  - intros q Hq. rewrite Hmem' by (rewrite Huf; set_solver). rewrite Hm3 by set_solver.
    simpl. rewrite lookup_insert_ne; [by rewrite Hm1|]. intros ->.
    pose proof (vm_sep _ _ _ _ _ _ Hv1) as Hs. simpl in Hs. apply list.NoDup_cons in Hs as [Hs _]. set_solver.
Qed.

Lemma wp_allocuvm E s l A O oldsz newsz Q :
  pm s l A O → 0 ≤ oldsz ≤ newsz → newsz < KERNBASE → sized A (pgs oldsz) →
  (2 * Z.to_nat (pgs newsz - pgs oldsz) ≤ length l)%nat →
  (∀ s' l' A', allocated (pgs oldsz) (pgs newsz) s l A s' l' A' O → Q newsz s') →
  wp E (allocuvm end_ (kp (as_dir A)) oldsz newsz) Q s.
Proof.
  intros Hp Hold Hnew Hsz Hl HQ. unfold allocuvm. rewrite !decide_False by lia.
  pose proof PGSIZE_eq as HP. rewrite PGROUNDUP_spec by (unfold KERNBASE in Hnew; rewrite ?HP; lia).
  pose proof (pgs_range oldsz ltac:(lia)) as HN. pose proof (pgs_mono oldsz newsz ltac:(lia)) as Hmono.
  apply (wp_allocuvm_from E _ O oldsz newsz s l A); [done|lia..| | |done|done].
  - intros j Hj. destruct (as_map A !! j) eqn:Ej; [|done].
    assert (j < pgs oldsz) by (apply Hsz; [lia|eauto]). lia.
  - pose proof (pgs_fuel newsz). lia.
Qed.

(** ** deallocuvm *)
Hypothesis end_kernel : KERNBASE < end_.

(** The pages from [n] to [N] are gone and back on the free list. *)
Record deallocated (n N : Z) s l A s' l' A' O : Prop := mkdeallocated {
  de_pm : pm s' l' A' O;
  de_dir : as_dir A' = as_dir A;
  de_tabs : as_tabs A' = as_tabs A;
  de_map j : as_map A' !! j = if decide (n ≤ j < N) then None else as_map A !! j;
  de_free : ∃ freed, l' ≡ₚ freed ++ l ∧ ufr A ≡ₚ freed ++ ufr A';
  de_mem q : q ∈ ufr A' ++ O → km_mem s' !! q = km_mem s !! q
}.

(** The user pages from [n] on have no gaps. *)
Definition dense (n : Z) A : Prop :=
  ∀ j k, n ≤ j ≤ k → k < UPAGES → is_Some (as_map A !! k) → is_Some (as_map A !! j).

Lemma usable_nonzero pa : usable pa → pa ≠ 0.
Proof. intros [_ He] ->. unfold kp in He. lia. Qed.

(** Freeing the page of an entry and clearing the entry. *)
Lemma wp_free_entry E s l A O n w Q :
  pm s l A O → 0 ≤ n < UPAGES → as_map A !! n = Some w →
  (∀ s' A', pm s' (PTE_ADDR w :: l) A' O → as_dir A' = as_dir A → as_tabs A' = as_tabs A →
     as_map A' = delete n (as_map A) → ufr A ≡ₚ PTE_ADDR w :: ufr A' →
     (∀ q, q ∈ ufr A' ++ O → km_mem s' !! q = km_mem s !! q) → Q tt s') →
  wp E (kfree end_ (p2v (PTE_ADDR w)) ;;; st32 (pte_ptr A n) 0) Q s.
Proof.
  intros [Hv Hu] Hn Hw HQ. set (pa := PTE_ADDR w) in *. set (A' := set_as_map (delete n (as_map A)) A).
  assert (ufr A ≡ₚ pa :: ufr A') as Huf.
  { rewrite (ufr_add A' A n w); [done| |lia|].
    - unfold A'. simpl. by rewrite insert_delete_id.
    - unfold A'. simpl. apply lookup_delete_eq. }
  rewrite Huf in Hu. apply list.Forall_cons in Hu as [Hpa Hu'].
  destruct (vm_other_not_frame _ _ _ _ _ _ pa Hv) as [Hnf Hnl].
  { rewrite Huf. set_solver. }
  rewrite p2v_frame by apply Hpa.
  apply wp_bind, (wp_kfree end_ L kmem_free _ _ _ l); [apply Hv|done|done|]. intros s1 y Hk1 Hy Hm1.
  assert (vm s1 (pa :: l) A (ufr A' ++ O)) as Hv1.
  { split; [done| |].
    - rewrite Hm1. eapply as_ok_frame, Hv. intros q Hq. apply lookup_insert_ne. intros ->. done.
    - eapply NoDup_Permutation_proper, (vm_sep _ _ _ _ _ _ Hv). rewrite Huf. solve_Permutation. }
  destruct (ao_map _ _ _ (vm_as _ _ _ _ _ _ Hv) n w Hw) as ([t Ht] & _ & _).
  apply (wp_set_pte end_ L _ _ (pa :: l) A (ufr A' ++ O) n t); [done|done|lia|by left|].
  intros s2 Hv2 Hm2. assert (set_entry n 0 (as_map A) = delete n (as_map A)) as E0 by done.
  rewrite E0 in Hv2. apply (HQ s2 A'); try done.
  intros q Hq. destruct (vm_other_not_frame _ _ _ _ _ _ q Hv1 Hq) as [Hqf Hql].
  rewrite Hm2, Hm1, lookup_insert_ne; [done| |]; intros ->; [set_solver|].
  apply Hqf, elem_of_frames. eauto.
Qed.

Lemma wp_deallocuvm_from E fuel O oldsz : ∀ s l A n Q,
  pm s l A O → 0 ≤ n → 0 ≤ oldsz ≤ KERNBASE → dense n A → (Z.to_nat (pgs oldsz - n) < fuel)%nat →
  (∀ s' l' A', deallocated n (pgs oldsz) s l A s' l' A' O → Q tt s') →
  wp E (deallocuvm_from end_ fuel (kp (as_dir A)) (n * PGSIZE) oldsz) Q s.
Proof.
  pose proof PGSIZE_eq as HP.
  induction fuel as [|fuel IH]; intros s l A n Q Hp Hn Hold Hd Hf HQ; [lia|].
  pose proof (pgs_range oldsz Hold) as HN. unfold UPAGES in HN.
  assert (∀ n', n ≤ n' → (∀ j, n ≤ j < n' → as_map A !! j = None) → ∀ s' l' A',
    deallocated n' (pgs oldsz) s l A s' l' A' O → deallocated n (pgs oldsz) s l A s' l' A' O) as Hskip.
  { intros n' Hn' Hnone s' l' A' [Hp' Hd' Ht' Hm' Hf' Hmem']. split; try done. intros j. rewrite Hm'.
    destruct (decide (n' ≤ j < pgs oldsz)), (decide (n ≤ j < pgs oldsz)); try done; [lia|].
    apply Hnone. lia. }
  cbn [deallocuvm_from]. destruct (decide (n * PGSIZE < oldsz)) as [Hlt|Hge].
  2: { rewrite pgs_lt in Hge by done. apply wp_skip, (HQ s l A). split; try done.
       - intros j. rewrite decide_False by lia. done.
       - by exists []. }
  apply pgs_lt in Hlt; [|done].
  assert (n * PGSIZE / PGSIZE = n) as En by (rewrite HP; apply Z.div_mul; lia).
  apply wp_bind, (wp_walkpgdir end_ L _ _ l A (ufr A ++ O)); [apply Hp|rewrite HP; lia|]. rewrite En.
  destruct (as_tabs A !! (n / 1024)) as [t|] eqn:Ht.
  - rewrite decide_False by (eapply pte_ptr_nonzero; [apply Hp|eauto]).
    apply wp_bind, (wp_get_pte end_ L _ _ l A (ufr A ++ O)); [apply Hp|eauto|].
    rewrite (u32_small (n * PGSIZE + PGSIZE)) by (rewrite HP; lia).
    replace (n * PGSIZE + PGSIZE) with ((n + 1) * PGSIZE) by lia.
    destruct (as_map A !! n) as [w|] eqn:Hw; cbn [default from_option id].
    + destruct (ao_map _ _ _ (vm_as _ _ _ _ _ _ (pm_vm _ _ _ _ Hp)) n w Hw) as (_ & _ & Hodd).
      rewrite land_P, Hodd. rewrite (decide_True (P := 1 ≠ 0)) by done.
      assert (usable (PTE_ADDR w)) as Hpa.
      { pose proof (pm_usable _ _ _ _ Hp) as Hu. rewrite list.Forall_forall in Hu. apply Hu, elem_of_ufr.
        exists n, w. unfold UPAGES. split_and!; [lia|done|done]. }
      rewrite decide_False by (by apply usable_nonzero).
      apply wp_bind, (wp_free_entry E s l A O n w); [done|unfold UPAGES; lia|done|].
      intros s1 A1 Hp1 Hd1 Ht1 Hm1 Hu1 Hmem1. rewrite <- Hd1.
      apply (IH s1 (PTE_ADDR w :: l) A1 (n + 1)); [done|lia|done| |lia|].
      { intros j k Hj Hk. rewrite Hm1, !lookup_delete_ne by lia. apply Hd; [lia|done]. }
      intros s' l' A' [Hp' Hd' Ht' Hm' (freed & Hl' & Hu') Hmem']. apply (HQ s' l' A').
      split; [done|congruence|congruence| | |].
      * intros j. rewrite Hm', Hm1. destruct (decide (j = n)) as [->|Hne].
        -- rewrite lookup_delete_eq. rewrite (decide_True (P := n ≤ n < pgs oldsz)) by lia. by destruct (decide _).
        -- rewrite lookup_delete_ne by done. destruct (decide (n + 1 ≤ j < pgs oldsz)), (decide (n ≤ j < pgs oldsz)); try done; lia.
      * exists (PTE_ADDR w :: freed). rewrite Hl', Hu1, Hu'. split; solve_Permutation.
      * intros q Hq. rewrite Hmem' by done. apply Hmem1. rewrite Hu'. set_solver.
    + rewrite decide_False by (rewrite land_P; tauto). apply wp_bind, wp_skip.
      apply (IH s l A (n + 1)); [done|lia|done| |lia|].
      { intros j k Hj Hk. apply Hd; [lia|done]. }
      intros s' l' A' HD. apply (HQ s' l' A'). eapply Hskip, HD; [lia|].
      intros j Hj. by replace j with n by lia.
  - rewrite decide_True by (unfold pte_ptr; by rewrite Ht).
    rewrite u32_small by (rewrite HP; unfold NPTENTRIES; lia).
    replace (n * PGSIZE + (NPTENTRIES - 1) * PGSIZE + PGSIZE) with ((n + 1024) * PGSIZE) by (unfold NPTENTRIES; lia).
    assert (∀ j, n ≤ j < UPAGES → as_map A !! j = None) as Hnone.
    { intros j Hj. destruct (as_map A !! j) eqn:Ej; [|done]. exfalso.
      destruct (Hd n j) as [w Hw]; [lia|lia|eauto|].
      destruct (ao_map _ _ _ (vm_as _ _ _ _ _ _ (pm_vm _ _ _ _ Hp)) n w Hw) as ([t Et] & _). congruence. }
    apply (IH s l A (n + 1024)); [done|lia|done| |lia|].
    { intros j k Hj Hk. apply Hd; [lia|done]. }
    intros s' l' A' [Hp' Hd' Ht' Hm' Hf' Hmem']. apply (HQ s' l' A'). split; try done.
    intros j. rewrite Hm'. destruct (decide (n + 1024 ≤ j < pgs oldsz)), (decide (n ≤ j < pgs oldsz)); try done; [lia|].
    apply Hnone. unfold UPAGES. lia.
Qed.

Lemma wp_deallocuvm E s l A O oldsz newsz Q :
  pm s l A O → 0 ≤ newsz < oldsz → oldsz ≤ KERNBASE → dense (pgs newsz) A →
  (∀ s' l' A', deallocated (pgs newsz) (pgs oldsz) s l A s' l' A' O → Q newsz s') →
  wp E (deallocuvm end_ (kp (as_dir A)) oldsz newsz) Q s.
Proof.
  intros Hp Hnew Hold Hd HQ. unfold deallocuvm. rewrite decide_False by lia.
  pose proof PGSIZE_eq as HP. rewrite PGROUNDUP_spec by (unfold KERNBASE in Hold; rewrite ?HP; lia).
  pose proof (pgs_range newsz ltac:(lia)) as HN.
  apply wp_bind, (wp_deallocuvm_from E _ O oldsz s l A); [done|lia|lia|done| |].
  - pose proof (pgs_fuel oldsz). lia.
  - intros s' l' A' HD. by apply wp_ret, (HQ s' l' A').
Qed.
End user.
