(* ===== verification/VmCopy.v ===== *)
(** * Whole address spaces: freevm, setupkvm, copyuvm *)

From S2P Require Import Prelude CString ProcData Sync Words Vm VmPages VmSpace VmUser.
Local Open Scope Z_scope.

(** The kernel's part of every page table. *)
Definition kernel_entry (data j : Z) : option Z :=
  let pa := (j - UPAGES) * PGSIZE in
  if decide (UPAGES ≤ j < UPAGES + 256) then Some (entry pa PTE_W)
  else if decide (UPAGES + 256 ≤ j < data / PGSIZE) then Some (entry pa 0)
  else if decide (data / PGSIZE ≤ j < UPAGES + PHYSTOP / PGSIZE) then Some (entry pa PTE_W)
  else if decide (DEVSPACE / PGSIZE ≤ j < 2 ^ 20) then Some (entry (j * PGSIZE) PTE_W)
  else None.

(** Tables that the loop of freevm has not come to. *)
Definition tabs_left (r : list Z) (ts : gmap Z Z) : gmap Z Z := filter (λ p, p.1 ∈ r) ts.

Lemma tabs_left_cons i r ts :
  i ∉ r → tabs_left (i :: r) ts = match ts !! i with Some t => <[i := t]> (tabs_left r ts) | None => tabs_left r ts end.
Proof.
  intros Hi. apply map_eq. intros j. destruct (ts !! i) as [t|] eqn:Ht.
  - destruct (decide (i = j)) as [<-|Hne].
    + rewrite lookup_insert_eq. apply map_lookup_filter_Some. split; [done|]. simpl. set_solver.
    + rewrite lookup_insert_ne by done. unfold tabs_left. rewrite !map_lookup_filter.
      destruct (ts !! j); [|done]. simpl. destruct (decide (j ∈ r)).
      * rewrite !option_guard_True by set_solver. done.
      * rewrite !option_guard_False by set_solver. done.
  - unfold tabs_left. rewrite !map_lookup_filter. destruct (ts !! j) as [t|] eqn:Hj; [|done]. simpl.
    assert (i ≠ j) by congruence. destruct (decide (j ∈ r)).
    * rewrite !option_guard_True by set_solver. done.
    * rewrite !option_guard_False by set_solver. done.
Qed.

Section copy.
Context {C : Type} `{SyncLaws C} (end_ data : Z) (L : list string) (kmem_free : "kmem" ∉ L).
Hypothesis end_kernel : KERNBASE < end_.
Notation usable := (usable end_).
Notation kok := (kok end_ L).
Notation vm := (vm end_ L).
Notation pm := (pm end_ L).
Notation grew := (grew end_ L).
Implicit Types (s : kmem C) (l O : list Z) (A : aspace).

(** ** freevm *)
Record freeing (A : aspace) s0 l0 O (r : list Z) s : Prop := mkfreeing {
  fr_left : NoDup r ∧ ∀ i, i ∈ r → 0 ≤ i < 1024;
  fr_free : ∃ l, kok s l ∧ (map_to_list (tabs_left r (as_tabs A))).*2 ++ l ≡ₚ (map_to_list (as_tabs A)).*2 ++ l0;
  fr_dir : tab (km_mem s) (as_dir A) (pde_of A);
  fr_mem : ∀ q, q ∈ O → km_mem s !! q = km_mem s0 !! q
}.

Lemma wp_free_tables E s0 l0 A O r :
  vm s0 l0 A O → freeing A s0 l0 O r s0 →
  wp E (mfor r (λ i,
      let! e := ld32 (kp (as_dir A) + 4 * i) in
      if decide (Z.land e PTE_P ≠ 0) then kfree end_ (p2v (PTE_ADDR e)) else skip))
    (λ _ s', freeing A s0 l0 O [] s') s0.
Proof.
  intros Hv Hstart. apply (wp_mfor E _ _ (freeing A s0 l0 O)); [done|]. clear r Hstart.
  intros i r s [[Hnd Hr] (l & Hk & Hperm) Hdir Hmem].
  assert (usable (as_dir A)) as Hdu by (apply (ao_usable _ _ _ (vm_as _ _ _ _ _ _ Hv)), elem_of_frames; by left).
  apply list.NoDup_cons in Hnd as [Hi Hnd]. assert (0 ≤ i < 1024) as Hir by (apply Hr; set_solver).
  apply wp_bind, (wp_ld32 _ _ _ (pde_of A)); [apply Hdu|done|done|].
  rewrite tabs_left_cons in Hperm by done. destruct (as_tabs A !! i) as [t|] eqn:Ht.
  2: { assert (pde_of A i = 0) as -> by (unfold pde_of; by rewrite Ht). rewrite decide_False by (rewrite land_P; tauto). apply wp_skip.
       split; [split; [done|set_solver]|eauto|done|done]. }
  assert (usable t) as Htu by (apply (ao_usable _ _ _ (vm_as _ _ _ _ _ _ Hv)), elem_of_frames; eauto).
  assert (pde_of A i = t + 7) as -> by (unfold pde_of; by rewrite Ht).
  rewrite land_P, odd_entry by (done || apply Htu). rewrite decide_True by done.
  pose proof PGSIZE_eq as HP. rewrite PTE_ADDR_spec, kp_mod by (apply Htu || lia).
  replace (t + 7 - 7) with t by lia. rewrite p2v_frame by apply Htu.
  assert (tabs_left r (as_tabs A) !! i = None) as Hnone.
  { unfold tabs_left. rewrite map_lookup_filter, Ht. simpl. by rewrite option_guard_False. }
  rewrite map_to_list_insert in Hperm by done. simpl in Hperm.
  pose proof (vm_sep _ _ _ _ _ _ Hv) as Hs.
  assert (O ++ frames A ++ l0 ≡ₚ O ++ as_dir A :: t :: (map_to_list (tabs_left r (as_tabs A))).*2 ++ l) as Hperm2.
  { unfold frames. simpl. by rewrite <- Hperm. }
  rewrite Hperm2 in Hs.
  apply list.NoDup_app in Hs as (_ & HO & Hs). apply list.NoDup_cons in Hs as [Hd Hs]. apply list.NoDup_cons in Hs as [Ht' _].
  apply (wp_kfree end_ L kmem_free _ _ _ l); [done|done|set_solver|]. intros s' y Hk' Hy Hm'.
  split.
  - split; [done|set_solver].
  - exists (t :: l). split; [done|]. rewrite <- Hperm. solve_Permutation.
  - eapply tab_frame, Hdir. rewrite Hm'. apply lookup_insert_ne. set_solver.
  - intros q Hq. rewrite Hm', lookup_insert_ne by (intros ->; apply (HO q Hq); set_solver). by apply Hmem.
Qed.

Lemma ufr_none A : (∀ j, j < UPAGES → as_map A !! j = None) → ufr A = [].
Proof.
  intros Hn. unfold ufr. assert (umap (as_map A) = ∅) as ->; [|by rewrite map_to_list_empty].
  apply map_eq. intros j. rewrite lookup_empty. unfold umap. rewrite map_lookup_filter.
  destruct (decide (j < UPAGES)); [by rewrite Hn|]. destruct (as_map A !! j); [|done]. simpl. by rewrite option_guard_False.
Qed.

(** The tables and the directory, once no user page is left. *)
Lemma wp_free_space E s l A O r Q :
  vm s l A O → NoDup r → (∀ i, i ∈ r ↔ 0 ≤ i < 1024) →
  (∀ s' l', kok s' l' → l' ≡ₚ frames A ++ l → (∀ q, q ∈ O → km_mem s' !! q = km_mem s !! q) → Q tt s') →
  wp E (mfor r (λ i,
      let! e := ld32 (kp (as_dir A) + 4 * i) in
      if decide (Z.land e PTE_P ≠ 0) then kfree end_ (p2v (PTE_ADDR e)) else skip) ;;;
    kfree end_ (kp (as_dir A))) Q s.
Proof.
  intros Hv Hnd Hr HQ. apply wp_bind. eapply wp_mono; [apply (wp_free_tables E s l A O); [done|]|].
  - split; [split; [done|apply Hr]| |apply Hv|done].
    + exists l. split; [apply Hv|]. assert (tabs_left r (as_tabs A) = as_tabs A) as Er; [|by rewrite Er].
      apply map_eq. intros j. unfold tabs_left. rewrite map_lookup_filter.
      destruct (as_tabs A !! j) as [t|] eqn:Ej; [|reflexivity].
      destruct (ao_tabs _ _ _ (vm_as _ _ _ _ _ _ Hv) _ _ Ej) as [Hj _]. cbn [mbind option_bind fst].
      rewrite option_guard_True; [reflexivity|]. by apply Hr.
  - intros [] s2 [_ (l2 & Hk2 & Hperm2) Hdir2 Hmem2].
    assert (tabs_left [] (as_tabs A) = ∅) as E0.
    { apply map_empty. intros j. apply eq_None_not_Some. intros [x [_ Hx]%map_lookup_filter_Some].
      by apply not_elem_of_nil in Hx. }
    rewrite E0, map_to_list_empty in Hperm2. cbn [fmap list_fmap app] in Hperm2.
    assert (usable (as_dir A)) as Hdu by (apply (ao_usable _ _ _ (vm_as _ _ _ _ _ _ Hv)), elem_of_frames; by left).
    pose proof (vm_sep _ _ _ _ _ _ Hv) as Hs. unfold frames in Hs. cbn [app] in Hs. rewrite <- Hperm2 in Hs.
    apply list.NoDup_app in Hs as (_ & HO & Hs). apply list.NoDup_cons in Hs as [Hnl _].
    apply (wp_kfree end_ L kmem_free _ _ _ l2); [exact Hk2|exact Hdu|exact Hnl|]. intros s3 y Hk3 Hy Hm3.
    apply (HQ s3 (as_dir A :: l2)); [exact Hk3| |].
    + unfold frames. by rewrite Hperm2.
    + intros q Hq. rewrite Hm3, lookup_insert_ne; [by apply Hmem2|].
      intros E1. apply (HO q Hq). rewrite <- E1. apply list_elem_of_here.
Qed.

Lemma pgs_0 : pgs 0 = 0.
Proof. by vm_compute. Qed.
Lemma pgs_KERNBASE : pgs KERNBASE = UPAGES.
Proof. by vm_compute. Qed.

Lemma wp_freevm E s l A O Q :
  pm s l A O → dense 0 A →
  (∀ s' l', kok s' l' → l' ≡ₚ frames A ++ ufr A ++ l →
     (∀ q, q ∈ O → km_mem s' !! q = km_mem s !! q) → Q tt s') →
  wp E (freevm end_ (kp (as_dir A))) Q s.
Proof.
  intros Hp Hd HQ. pose proof (vm_as _ _ _ _ _ _ (pm_vm _ _ _ _ _ _ Hp)) as Ha.
  assert (usable (as_dir A)) as Hdu by (apply (ao_usable _ _ _ Ha), elem_of_frames; by left).
  unfold freevm. rewrite decide_False by (apply kp_nonzero, Hdu).
  apply wp_bind, (wp_deallocuvm end_ L kmem_free end_kernel _ s l A O); [done|unfold KERNBASE; lia|lia|by rewrite pgs_0|].
  rewrite pgs_0, pgs_KERNBASE. intros s1 l1 A1 [Hp1 Hd1 Ht1 Hm1 (freed & Hl1 & Hu1) Hmem1].
  assert (ufr A1 = []) as Hu0.
  { apply ufr_none. intros j Hj. rewrite Hm1.
    destruct (decide (0 ≤ j < UPAGES)); [reflexivity|]. destruct (as_map A !! j) as [w|] eqn:Ej; [|reflexivity].
    apply (ao_map _ _ _ Ha) in Ej as ([t Et] & _). apply (ao_tabs _ _ _ Ha) in Et as [Hr _].
    assert (j / 1024 < 0) by (apply Z.div_lt_upper_bound; lia). lia. }
  rewrite Hu0, app_nil_r in Hu1. destruct Hp1 as [Hv1 _]. rewrite Hu0 in Hv1, Hmem1. cbn [app] in Hv1, Hmem1.
  rewrite <- Hd1. apply (wp_free_space E s1 l1 A1 O); [exact Hv1|apply NoDup_seqZ| |].
  { intros i. rewrite elem_of_seqZ. unfold NPDENTRIES. lia. } intros s' l' Hk' Hl' Hm'.
  apply (HQ s' l'); [exact Hk'| |intros q Hq; rewrite Hm' by done; by apply Hmem1].
  rewrite Hl', Hl1, Hu1. unfold frames. by rewrite Hd1, Ht1.
Qed.

(** ** setupkvm *)
Implicit Types (ks : list (Z * Z * Z * Z)).

Definition seg_pages (g : Z * Z * Z * Z) : Z := u32 (g.1.2 - g.1.1.2) / PGSIZE.
Definition in_seg (g : Z * Z * Z * Z) (j : Z) : Prop :=
  g.1.1.1 / PGSIZE ≤ j < g.1.1.1 / PGSIZE + seg_pages g.
(** The entry of page [j] in the mappings [ks]. *)
Fixpoint seg_entry ks (j : Z) : option Z :=
  match ks with
  | [] => None
  | g :: ks' =>
      if decide (g.1.1.1 / PGSIZE ≤ j < g.1.1.1 / PGSIZE + seg_pages g)
      then Some (entry (g.1.1.2 + (j - g.1.1.1 / PGSIZE) * PGSIZE) g.2) else seg_entry ks' j
  end.
Record seg_ok (g : Z * Z * Z * Z) : Prop := mksegok {
  sg_virt : 0 ≤ g.1.1.1 ∧ g.1.1.1 mod PGSIZE = 0;
  sg_phys : 0 ≤ g.1.1.2 ∧ g.1.1.2 mod PGSIZE = 0;
  sg_size : 0 < u32 (g.1.2 - g.1.1.2) ∧ u32 (g.1.2 - g.1.1.2) mod PGSIZE = 0;
  sg_top : g.1.1.1 + u32 (g.1.2 - g.1.1.2) ≤ 2 ^ 32 ∧ g.1.1.2 + u32 (g.1.2 - g.1.1.2) ≤ 2 ^ 32;
  sg_perm : 0 ≤ g.2 < PGSIZE
}.
Fixpoint apart ks : Prop :=
  match ks with [] => True | g :: ks' => (∀ j, in_seg g j → seg_entry ks' j = None) ∧ apart ks' end.

Lemma pages_of_aligned va size :
  va mod PGSIZE = 0 → size mod PGSIZE = 0 → pages_of va size = size / PGSIZE.
Proof.
  rewrite PGSIZE_eq. unfold pages_of. rewrite PGSIZE_eq. intros Hva Hs.
  rewrite (Z.div_mod va 4096), (Z.div_mod size 4096), Hva, Hs by lia.
  replace (4096 * (va / 4096) + 0 + (4096 * (size / 4096) + 0) - 1) with (4095 + (va / 4096 + size / 4096 - 1) * 4096) by lia.
  rewrite Z.div_add by lia. rewrite !Z.add_0_r, !(Z.mul_comm 4096), !Z.div_mul by lia. change (4095 / 4096) with 0. lia.
Qed.

Lemma wp_map_kernel E O ks : ∀ s l A Q,
  vm s l A O → Forall seg_ok ks → apart ks → (∀ j, is_Some (seg_entry ks j) → as_map A !! j = None) →
  (∀ s' l' A', grew s l A s' l' A' O →
     (∀ j, as_map A' !! j = match seg_entry ks j with Some w => Some w | None => as_map A !! j end) → Q true s') →
  (∀ s' A', grew s l A s' [] A' O → Q false s') →
  wp E (map_kernel ks (kp (as_dir A))) Q s.
Proof.
  induction ks as [|g ks IH]; intros s l A Q Hv Hok Hap Hfresh Ht Hf.
  { apply wp_ret, (Ht s l A); [by apply grew_refl|done]. }
  apply list.Forall_cons in Hok as [[[Hv1 Hv2] [Hp1 Hp2] [Hz1 Hz2] [Ht1 Ht2] Hperm] Hok]. destruct Hap as [Hap1 Hap].
  assert (pages_of g.1.1.1 (u32 (g.1.2 - g.1.1.2)) = seg_pages g) as Ek by (by apply pages_of_aligned).
  assert (seg_pages g * PGSIZE = u32 (g.1.2 - g.1.1.2)) as Em.
  { unfold seg_pages. rewrite (Z.div_mod (u32 (g.1.2 - g.1.1.2)) PGSIZE) at 2 by (rewrite PGSIZE_eq; lia). lia. }
  destruct g as [[[virt ps] pe] perm]. cbn [map_kernel]. cbn [fst snd] in *.
  apply wp_bind, (wp_mappages end_ L kmem_free E s l A O); rewrite ?Ek, ?Em; try done; try lia.
  - intros j Hj. apply Hfresh. cbn [seg_entry fst snd]. rewrite decide_True by done. eauto.
  - intros s1 l1 A1 Hg1 Hm1 _. rewrite (decide_False (P := 0 < 0)) by lia.
    rewrite <- (gr_dir _ _ _ _ _ _ _ _ _ Hg1).
    apply (IH s1 l1 A1); [apply Hg1|done|done| | |].
    + intros j Hj. rewrite Hm1. destruct (decide _) as [Hin|Hout].
      * rewrite (Hap1 j Hin) in Hj. by destruct Hj.
      * apply Hfresh. cbn [seg_entry fst snd]. by destruct (decide _).
    + intros s' l' A' Hg Hm. apply (Ht s' l' A'); [by eapply grew_trans|]. intros j. rewrite Hm, Hm1.
      cbn [seg_entry fst snd]. destruct (decide _) as [Hin|Hout]; [|done]. by rewrite (Hap1 j Hin).
    + intros s' A' Hg. apply (Hf s' A'). by eapply grew_trans.
  - intros s1 A1 k' _ Hg1 _ _. rewrite (decide_True (P := -1 < 0)) by lia. apply wp_ret. by apply (Hf s1 A1).
Qed.

Hypothesis data_aligned : data mod PGSIZE = 0.
Hypothesis data_range : KERNLINK < data < KERNBASE + PHYSTOP.

Lemma kmap_ok : Forall seg_ok (kmap data) ∧ apart (kmap data) ∧ ∀ j, seg_entry (kmap data) j = kernel_entry data j.
Proof.
  assert (∃ dp, data = dp * 4096 ∧ data / PGSIZE = dp) as (dp & Ed & Edp).
  { exists (data / 4096). rewrite PGSIZE_eq in *. split; [|done]. rewrite (Z.div_mod data 4096) at 1 by lia. lia. }
  assert (u32 (data - KERNBASE) = (dp - 524288) * 4096) as Ev.
  { unfold KERNLINK, KERNBASE, EXTMEM, PHYSTOP in *. rewrite u32_small; lia. }
  assert (524544 < dp < 581632) as Hdp.
  { unfold KERNLINK, KERNBASE, EXTMEM, PHYSTOP in *. lia. }
  pose proof PGSIZE_eq as HP. unfold kmap, v2p. rewrite Ev.
  change (u32 (KERNLINK - KERNBASE)) with 1048576.
  set (g1 := (KERNBASE, 0, EXTMEM, PTE_W)). set (g2 := (KERNLINK, 1048576, (dp - 524288) * 4096, 0)).
  set (g3 := (data, (dp - 524288) * 4096, PHYSTOP, PTE_W)). set (g4 := (DEVSPACE, DEVSPACE, 0, PTE_W)).
  assert (u32 (g1.1.2 - g1.1.1.2) = 256 * 4096) as S1 by reflexivity.
  assert (u32 (g2.1.2 - g2.1.1.2) = (dp - 524544) * 4096) as S2 by (simpl; rewrite u32_small; lia).
  assert (u32 (g3.1.2 - g3.1.1.2) = (581632 - dp) * 4096) as S3 by (simpl; unfold PHYSTOP; rewrite u32_small; lia).
  assert (u32 (g4.1.2 - g4.1.1.2) = 8192 * 4096) as S4 by reflexivity.
  assert (seg_pages g1 = 256 ∧ seg_pages g2 = dp - 524544 ∧ seg_pages g3 = 581632 - dp ∧ seg_pages g4 = 8192)
    as (P1 & P2 & P3 & P4).
  { unfold seg_pages. rewrite S1, S2, S3, S4, HP, !Z.div_mul by lia. done. }
  assert (g1.1.1.1 / PGSIZE = 524288 ∧ g2.1.1.1 / PGSIZE = 524544 ∧ g3.1.1.1 / PGSIZE = dp ∧ g4.1.1.1 / PGSIZE = 1040384)
    as (V1 & V2 & V3 & V4) by (rewrite HP; split_and!; [reflexivity..|by rewrite <- HP|reflexivity]).
  split_and!.
  - assert (∀ x, x * 4096 mod PGSIZE = 0) as Hmod by (intros x; rewrite HP; apply Z_mod_mult).
    assert (0 ≤ 0 < PGSIZE ∧ 0 ≤ PTE_W < PGSIZE) as [HZ HW] by (rewrite HP; unfold PTE_W; lia).
    repeat apply list.Forall_cons_2; [| | | |apply list.Forall_nil_2]; split;
      rewrite ?S1, ?S2, ?S3, ?S4; cbn [fst snd g1 g2 g3 g4]; try done; split;
      try apply Hmod; try (rewrite HP; reflexivity); try done;
      unfold KERNLINK, KERNBASE, EXTMEM, PHYSTOP, DEVSPACE in *; lia.
  - cbn [apart seg_entry]. unfold in_seg. rewrite P1, P2, P3, P4, V1, V2, V3, V4.
    split_and!; try done; intros j Hj; by repeat (destruct (decide _); [lia|]).
  - intros j. unfold kernel_entry. cbn [seg_entry]. rewrite P1, P2, P3, P4, V1, V2, V3, V4, Edp, HP.
    change UPAGES with 524288. change (PHYSTOP / 4096) with 57344. change (DEVSPACE / 4096) with 1040384.
    cbn [fst snd g1 g2 g3 g4]. change DEVSPACE with (1040384 * 4096).
    repeat match goal with |- context [decide ?P] => destruct (decide P) end; try lia; do 2 f_equal; lia.
Qed.

(** A directory without tables. *)
Lemma vm_empty s l O pa :
  kok s l → NoDup (O ++ pa :: l) → usable pa → tab (km_mem s) pa (λ _, 0) → vm s l (mkas pa ∅ ∅) O.
Proof.
  intros Hk Hs Hpa Ht.
  assert (frames (mkas pa ∅ ∅) = [pa]) as Ef by (unfold frames; simpl; by rewrite map_to_list_empty).
  split; [done| |by rewrite Ef]. split.
  - rewrite Ef. intros q Hq. apply list_elem_of_singleton in Hq as ->. done.
  - simpl. eapply tab_ext, Ht. intros k _. unfold pde_of. simpl. by rewrite lookup_empty.
  - intros i t Ht'. simpl in Ht'. by rewrite lookup_empty in Ht'.
  - intros n w Hw. simpl in Hw. by rewrite lookup_empty in Hw.
Qed.

(** An address space has at most 1024 page tables. *)
Lemma frames_length mem A : as_ok end_ mem A → (length (frames A) ≤ 1025)%nat.
Proof.
  intros Ha. unfold frames. simpl. rewrite length_fmap, length_map_to_list.
  rewrite <- size_dom. apply le_n_S. change 1024%nat with (Z.to_nat 1024). rewrite <- (length_seqZ 0 1024).
  rewrite <- (size_list_to_set (C := gset Z) (seqZ 0 1024)) by apply NoDup_seqZ.
  apply subseteq_size. intros i Hi. apply elem_of_dom in Hi as [t Ht].
  apply elem_of_list_to_set, elem_of_seqZ. destruct (ao_tabs _ _ _ Ha i t Ht) as [? _]. lia.
Qed.

(** With more than 1025 free pages setupkvm succeeds. *)
Lemma wp_setupkvm E s l O Q :
  kok s l → NoDup (O ++ l) →
  (∀ s' l', kok s' l' → l' ⊆ l → (∀ q, q ∈ O → km_mem s' !! q = km_mem s !! q) → (length l ≤ 1025)%nat → Q 0 s') →
  (∀ s' l' D, vm s' l' D O → (∀ j, as_map D !! j = kernel_entry data j) → frames D ++ l' ≡ₚ l →
     (∀ q, q ∈ O → km_mem s' !! q = km_mem s !! q) → Q (kp (as_dir D)) s') →
  wp E (setupkvm data) Q s.
Proof.
  intros Hk Hs Hnone Hsome. destruct kmap_ok as (Hok & Hap & Hent).
  apply wp_bind, (wp_kalloc end_ L kmem_free _ _ _ l); [done| |].
  { intros -> s' Hk' Hm'. rewrite decide_True by done. apply wp_ret, (Hnone s' []); [done|done| |simpl; lia].
    intros q _. by rewrite Hm'. }
  intros pa l1 s1 -> Hk1 Hm1 Hpa Hnin. rewrite decide_False by (apply kp_nonzero, Hpa).
  destruct (kok_pages _ _ _ _ Hk1 pa Hpa) as (x & Hx & Hxl).
  apply wp_bind, (wp_memset_page _ _ _ x); [apply Hpa|done..|]. set (s2 := set_km_mem _ s1).
  rewrite decide_False by (unfold p2v, DEVSPACE, PHYSTOP, KERNBASE; rewrite u32_small; lia).
  assert (vm s2 l1 (mkas pa ∅ ∅) O) as Hv2.
  { apply vm_empty; [apply kok_insert; [done|done|apply full_replicate]|done|done|].
    apply tab_zero. apply lookup_insert_eq. }
  assert (∀ q, q ∈ O → km_mem s2 !! q = km_mem s !! q) as Hm2.
  { intros q Hq. simpl. rewrite lookup_insert_ne; [by rewrite Hm1|]. intros <-.
    apply list.NoDup_app in Hs as (_ & HO & _). apply (HO pa Hq). apply list_elem_of_here. }
  assert (∀ s' l' A', grew s2 l1 (mkas pa ∅ ∅) s' l' A' O →
    frames A' ++ l' ≡ₚ pa :: l1 ∧ ∀ q, q ∈ O → km_mem s' !! q = km_mem s !! q) as Hgrew.
  { intros s' l' A' Hg. destruct (gr_new _ _ _ _ _ _ _ _ _ Hg) as (new & -> & Hfr). split_and!.
    - rewrite Hfr. unfold frames. cbn [as_dir as_tabs]. rewrite map_to_list_empty. cbn [fmap list_fmap]. solve_Permutation.
    - intros q Hq. rewrite (gr_mem _ _ _ _ _ _ _ _ _ Hg); [by apply Hm2|].
      by destruct (vm_other_not_frame _ _ _ _ _ _ q (gr_vm _ _ _ _ _ _ _ _ _ Hg) Hq). }
  apply wp_bind. change (kp pa) with (kp (as_dir (mkas pa ∅ ∅))).
  apply (wp_map_kernel E O (kmap data) s2 l1); [done|done|done|done| |].
  - intros s' l' A' Hg Hm. destruct (Hgrew s' l' A' Hg) as (? & ?). apply wp_ret.
    rewrite <- (gr_dir _ _ _ _ _ _ _ _ _ Hg). apply (Hsome s' l' A'); [apply Hg| |done..].
    intros j. rewrite Hm, Hent. by destruct (kernel_entry data j).
  - intros s' A' Hg. destruct (Hgrew s' [] A' Hg) as (Hp & ?). apply wp_ret, (Hnone s' []); [apply Hg|apply list_subseteq_nil|done|].
    rewrite <- Hp, app_nil_r. eapply frames_length, (vm_as _ _ _ _ _ _ (gr_vm _ _ _ _ _ _ _ _ _ Hg)).
Qed.

(** ** copyuvm *)

(** The child [D] has copies of the first [n] user pages of [P]. *)
Record copying (P : aspace) s0 l0 O (n : Z) D s l : Prop := mkcopying {
  cy_pm : pm s l D O;
  cy_sized : sized D n;
  cy_kernel j : UPAGES ≤ j → as_map D !! j = kernel_entry data j;
  cy_copy j : 0 ≤ j < n → ∃ w pa, as_map P !! j = Some w ∧ frame pa ∧
    as_map D !! j = Some (entry pa (PTE_FLAGS w)) ∧ km_mem s !! pa = km_mem s0 !! PTE_ADDR w;
  cy_fresh : frames D ++ ufr D ++ l ≡ₚ l0;
  cy_count : length (ufr D) = Z.to_nat n;
  cy_mem q : q ∈ O → km_mem s !! q = km_mem s0 !! q
}.

(** What a failed copy leaves: a child to free, pages of others as they were; there
    were at most [k] free pages. *)
Definition copy_failed s0 l0 O (k : nat) d s : Prop :=
  (length l0 ≤ k)%nat ∧ ∃ D O' l, d = as_dir D ∧ pm s l D (O' ++ O) ∧ dense 0 D ∧ frames D ++ ufr D ++ l ⊆ l0 ∧
    ∀ q, q ∈ O → km_mem s !! q = km_mem s0 !! q.

Lemma sized_dense D n : sized D n → dense 0 D.
Proof.
  intros Hs j k Hjk Hk H1. apply Hs; [lia|]. apply Hs in H1; lia.
Qed.

Lemma PTE_FLAGS_range w : 0 ≤ PTE_FLAGS w < PGSIZE.
Proof. rewrite PTE_FLAGS_spec. apply Z.mod_pos_bound. rewrite PGSIZE_eq. lia. Qed.

Lemma splice_all (x y : list Z) : length x = length y → splice x 0 y = y.
Proof. intros Hl. unfold splice. rewrite take_0, drop_ge by lia. by rewrite app_nil_r. Qed.

Lemma copying_step P s0 l0 O n D s l w pa s1 s' l' D' x :
  copying P s0 l0 O n D s (pa :: l) → 0 ≤ n < UPAGES → as_map P !! n = Some w → usable pa → full x →
  km_mem s0 !! PTE_ADDR w = Some x → km_mem s1 = <[pa := x]> (km_mem s) →
  grew s1 l D s' l' D' (pa :: ufr D ++ O) →
  as_map D' = <[n := entry pa (PTE_FLAGS w)]> (as_map D) →
  copying P s0 l0 O (n + 1) D' s' l'.
Proof.
  intros [Hp Hz Hker Hcp Hfr Hct Hmem] Hn Hw Hpa Hx Hsrc Es1 Hg Em.
  assert (PTE_ADDR (entry pa (PTE_FLAGS w)) = pa) as Epa by (apply entry_addr, PTE_FLAGS_range; apply Hpa).
  assert (as_map D !! n = None) as Hnone.
  { apply eq_None_not_Some. intros Hs. apply Hz in Hs; [lia|done]. }
  assert (ufr D' ≡ₚ pa :: ufr D) as Huf by (rewrite (ufr_add D D' _ _ Em) by (done || lia); by rewrite Epa).
  assert (∀ q, q ∈ pa :: ufr D ++ O → km_mem s' !! q = <[pa := x]> (km_mem s) !! q) as Hm'.
  { intros q Hq. rewrite <- Es1. apply (gr_mem _ _ _ _ _ _ _ _ _ Hg).
    by destruct (vm_other_not_frame _ _ _ _ _ _ q (gr_vm _ _ _ _ _ _ _ _ _ Hg) Hq). }
  pose proof (vm_sep _ _ _ _ _ _ (pm_vm _ _ _ _ _ _ Hp)) as Hs.
  assert (∀ q, q ∈ ufr D ++ O → q ≠ pa) as Hne.
  { intros q Hq ->. apply list.NoDup_app in Hs as (_ & Hs & _). apply (Hs pa Hq). set_solver. }
  split.
  - split; [|rewrite Huf; constructor; [done|apply Hp]]. eapply vm_perm; [|apply Hg]. by rewrite Huf.
  - intros j Hj. rewrite Em. destruct (decide (j = n)) as [->|Hjn].
    + rewrite lookup_insert_eq. split; [lia|eauto].
    + rewrite lookup_insert_ne by done. rewrite (Hz j Hj). lia.
  - intros j Hj. rewrite Em, lookup_insert_ne by lia. by apply Hker.
  - intros j Hj. rewrite Em. destruct (decide (j = n)) as [->|Hjn].
    + exists w, pa. rewrite lookup_insert_eq. split_and!; [done|apply Hpa|done|].
      rewrite Hm', lookup_insert_eq by set_solver. by rewrite Hsrc.
    + destruct (Hcp j) as (w' & pa' & Hw' & Hpf' & HD' & Hc'); [lia|]. exists w', pa'.
      rewrite lookup_insert_ne by done. split_and!; [done..|].
      assert (pa' ∈ ufr D) as Hin.
      { apply elem_of_ufr. eexists j, _. split_and!; [lia|exact HD'|]. apply entry_addr, PTE_FLAGS_range. apply Hpf'. }
      rewrite Hm', lookup_insert_ne by (set_solver || (symmetry; apply Hne; set_solver)). done.
  - destruct (gr_new _ _ _ _ _ _ _ _ _ Hg) as (new & El & Hfr'). rewrite Hfr', Huf, <- Hfr, El. solve_Permutation.
  - rewrite Huf. cbn [length]. rewrite Hct. lia.
  - intros q Hq. rewrite Hm', lookup_insert_ne by (set_solver || (symmetry; apply Hne; set_solver)). by apply Hmem.
Qed.

Section parent.
Context (P : aspace) (s0 : kmem C) (l0 O : list Z) (sz : Z).
Hypothesis P_ok : as_ok end_ (km_mem s0) P.
Hypothesis P_nodup : NoDup (frames P).
Hypothesis P_frames : frames P ++ ufr P ⊆ O.
Hypothesis P_usable : Forall usable (ufr P).
Hypothesis P_sized : sized P (pgs sz).
Hypothesis sz_range : 0 ≤ sz ≤ KERNBASE.
Notation copying := (copying P s0 l0 O).

(** The parent is still there. *)
Lemma copying_parent n D s l : copying n D s l → vm s l P [].
Proof.
  intros [Hp _ _ _ _ _ Hmem]. split; [apply Hp| |].
  - eapply as_ok_frame, P_ok. intros q Hq. apply Hmem. set_solver.
  - change ([] ++ frames P ++ l) with (frames P ++ l). apply list.NoDup_app. split_and!; [done| |].
    + intros q Hq. assert (q ∈ ufr D ++ O) as Hin by set_solver.
      by destruct (vm_other_not_frame _ _ _ _ _ _ q (pm_vm _ _ _ _ _ _ Hp) Hin).
    + apply (kok_nodup _ _ _ _ (vm_kok _ _ _ _ _ _ (pm_vm _ _ _ _ _ _ Hp))).
Qed.

Lemma copying_failed n D s l O' s' l' D' :
  copying n D s l → n ≤ pgs sz → (length l ≤ 1)%nat → pm s' l' D' (O' ++ O) → as_dir D' = as_dir D → as_map D' = as_map D →
  frames D' ++ ufr D' ++ l' ⊆ l0 → (∀ q, q ∈ O → km_mem s' !! q = km_mem s !! q) →
  copy_failed s0 l0 O (1026 + Z.to_nat (pgs sz)) (as_dir D) s'.
Proof.
  intros [Hp Hz Hker Hcp Hfr Hct Hmem] Hn Hl Hp' Hd Hm Hsub Hmem'. split.
  { pose proof (frames_length _ _ (vm_as _ _ _ _ _ _ (pm_vm _ _ _ _ _ _ Hp))). apply Permutation_length in Hfr.
    rewrite !length_app in Hfr. lia. }
  exists D', O', l'.
  split; [by symmetry|]. split; [done|]. split; [|split; [done|]].
  - apply (sized_dense _ n). intros j. rewrite Hm. apply Hz.
  - intros q Hq. rewrite Hmem' by done. by apply Hmem.
Qed.

Lemma wp_copyuvm_from E fuel : ∀ n D s l Q,
  copying n D s l → 0 ≤ n ≤ pgs sz → (Z.to_nat (pgs sz - n) < fuel)%nat →
  (∀ D' s' l', copying (pgs sz) D' s' l' → as_dir D' = as_dir D → Q true s') →
  (∀ s', copy_failed s0 l0 O (1026 + Z.to_nat (pgs sz)) (as_dir D) s' → Q false s') →
  wp E (copyuvm_from fuel (kp (as_dir P)) (kp (as_dir D)) (n * PGSIZE) sz) Q s.
Proof.
  pose proof PGSIZE_eq as HP. pose proof (pgs_range sz sz_range) as HN.
  induction fuel as [|fuel IH]; intros n D s l Q Hc Hn Hf Ht Hbad; [lia|].
  cbn [copyuvm_from]. destruct (decide (n * PGSIZE < sz)) as [Hlt|Hge].
  2: { apply wp_ret. rewrite pgs_lt in Hge by lia. replace n with (pgs sz) in Hc by lia. by eapply Ht. }
  apply pgs_lt in Hlt; [|lia]. unfold UPAGES in HN.
  assert (n * PGSIZE / PGSIZE = n) as En by (rewrite HP; apply Z.div_mul; lia).
  pose proof (copying_parent n D s l Hc) as HvP.
  apply wp_bind, (wp_walkpgdir end_ L _ _ l P []); [done|rewrite HP; lia|]. rewrite En.
  destruct (proj2 (P_sized n ltac:(unfold UPAGES; lia)) Hlt) as [w Hw].
  destruct (ao_map _ _ _ (vm_as _ _ _ _ _ _ HvP) n w Hw) as (Htab & Hwr & Hodd).
  rewrite decide_False by (by eapply pte_ptr_nonzero).
  apply wp_bind, (wp_get_pte end_ L _ _ l P []); [done..|]. rewrite Hw. cbn [default from_option id].
  rewrite land_P, Hodd. rewrite (decide_False (P := 1 = 0)) by done.
  assert (PTE_ADDR w ∈ ufr P) as Hin by (apply elem_of_ufr; exists n, w; unfold UPAGES; split_and!; [lia|done..]).
  assert (usable (PTE_ADDR w)) as Hsu by (rewrite list.Forall_forall in P_usable; by apply P_usable).
  pose proof Hc as [Hp Hz Hker Hcp Hfr Hct Hmem].
  apply wp_bind, (wp_kalloc end_ L kmem_free _ _ _ l); [apply Hp| |].
  { intros -> s1 Hk1 Hm1. rewrite decide_True by done. apply wp_ret, Hbad.
    eapply (copying_failed n D s [] [] s1 [] D); try done; [lia|simpl; lia| | |].
    - destruct Hp as [[_ Ha Hs] Hu]. split; [|done]. split; [done|by rewrite Hm1|done].
    - by rewrite Hfr.
    - intros q _. by rewrite Hm1. }
  intros pa l1 s1 -> Hk1 Hm1 Hpa Hnin. rewrite decide_False by (apply kp_nonzero, Hpa).
  pose proof (vm_take _ _ _ _ _ _ _ _ (pm_vm _ _ _ _ _ _ Hp) Hk1 Hm1) as Hv1.
  destruct (kok_pages _ _ _ _ Hk1 _ Hsu) as (x & Hx & Hxl). destruct (kok_pages _ _ _ _ Hk1 _ Hpa) as (y & Hy & Hyl).
  assert (km_mem s0 !! PTE_ADDR w = Some x) as Hx0.
  { rewrite <- Hmem by set_solver. by rewrite <- Hm1. }
  rewrite p2v_frame by apply Hsu. replace (kp (PTE_ADDR w)) with (kp (PTE_ADDR w) + 0) by lia.
  unfold full in Hxl, Hyl.
  apply wp_bind, (wp_ld_bytes _ _ 0 _ x); [apply Hsu|rewrite HP; lia|done|rewrite Hxl; lia|].
  rewrite drop_0, take_ge by lia.
  apply wp_bind. replace (kp pa) with (kp pa + 0) at 1 by lia.
  apply (wp_st_bytes _ _ 0 _ y); [apply Hpa|rewrite HP; lia|done|rewrite Hxl, Hyl; lia|].
  change (Z.to_nat 0) with 0%nat. rewrite splice_all by congruence. rewrite Hm1. set (s2 := set_km_mem _ s1).
  destruct (vm_other_not_frame _ _ _ _ _ _ pa Hv1) as [Hnf _]; [apply list_elem_of_here|].
  assert (vm s2 l1 D (pa :: ufr D ++ O)) as Hv2.
  { unfold s2. rewrite <- Hm1. by apply vm_insert. }
  rewrite v2p_kp0 by apply Hpa.
  assert (as_map D !! n = None) as Hnone.
  { apply eq_None_not_Some. intros Hs. apply Hz in Hs; unfold UPAGES in *; lia. }
  apply wp_bind, (wp_map_one end_ L kmem_free E s2 l1 D (pa :: ufr D ++ O)); [done|lia|apply Hpa|apply PTE_FLAGS_range|done| |].
  - intros s3 l3 D3 Hg Em _. rewrite (decide_False (P := 0 < 0)) by lia.
    rewrite (u32_small (n * PGSIZE + PGSIZE)) by (rewrite HP; lia).
    replace (n * PGSIZE + PGSIZE) with ((n + 1) * PGSIZE) by lia. rewrite <- (gr_dir _ _ _ _ _ _ _ _ _ Hg).
    apply (IH (n + 1) D3 s3 l3); [|lia|lia|rewrite (gr_dir _ _ _ _ _ _ _ _ _ Hg); done..].
    by apply (copying_step P s0 l0 O n D s l1 w pa s2 s3 l3 D3 x); [|unfold UPAGES; lia|..].
  - intros -> s3 D3 Hg Em. rewrite (decide_True (P := -1 < 0)) by lia. apply wp_ret, Hbad.
    assert (ufr D3 = ufr D) as Eu by (apply ufr_ext; intros j _; by rewrite Em).
    destruct (gr_new _ _ _ _ _ _ _ _ _ Hg) as (new & Enew & Hfr3).
    symmetry in Enew. apply app_nil in Enew as [-> _]. cbn [app] in Hfr3.
    eapply (copying_failed n D s [pa] [pa] s3 [] D3); [done|lia|simpl; lia| |apply Hg|done| |].
    + split; [|rewrite Eu; apply Hp]. eapply vm_perm; [|apply Hg]. rewrite Eu. solve_Permutation.
    + rewrite Eu, Hfr3, <- Hfr. clear. set_solver.
    + intros q Hq. rewrite (gr_mem _ _ _ _ _ _ _ _ _ Hg).
      * unfold s2. simpl. apply lookup_insert_ne. intros <-.
        pose proof (vm_sep _ _ _ _ _ _ Hv1) as Hs. simpl in Hs. apply list.NoDup_cons in Hs as [Hs _]. set_solver.
      * assert (q ∈ pa :: ufr D ++ O) as Hq' by set_solver.
        by destruct (vm_other_not_frame _ _ _ _ _ _ q (gr_vm _ _ _ _ _ _ _ _ _ Hg) Hq').
Qed.
End parent.

Lemma kernel_entry_user j : j < UPAGES → kernel_entry data j = None.
Proof.
  intros Hj. assert (UPAGES ≤ data / PGSIZE) as Hd.
  { rewrite PGSIZE_eq. apply Z.div_le_lower_bound; [lia|]. unfold UPAGES, KERNLINK, KERNBASE, EXTMEM in *. lia. }
  assert (UPAGES ≤ DEVSPACE / PGSIZE) as Hv by (rewrite PGSIZE_eq; vm_compute; congruence).
  unfold kernel_entry. by repeat (rewrite decide_False by lia).
Qed.

Lemma wp_copyuvm E s l P O sz Q :
  pm s l P O → sized P (pgs sz) → 0 ≤ sz ≤ KERNBASE →
  let O' := frames P ++ ufr P ++ O in
  (∀ s' l' D, copying P s l O' (pgs sz) D s' l' → Q (kp (as_dir D)) s') →
  (∀ s' l', kok s' l' → l' ⊆ l → (length l ≤ 1026 + Z.to_nat (pgs sz))%nat → (∀ q, q ∈ O' → km_mem s' !! q = km_mem s !! q) → Q 0 s') →
  wp E (copyuvm end_ data (kp (as_dir P)) sz) Q s.
Proof.
  intros [Hv Hu] Hz Hsz O' Hok Hbad. pose proof (pgs_range sz Hsz) as HN.
  assert (NoDup (O' ++ l)) as Hs.
  { eapply NoDup_Permutation_proper, (vm_sep _ _ _ _ _ _ Hv). unfold O'. solve_Permutation. }
  apply wp_bind, (wp_setupkvm E s l O'); [apply Hv|done| |].
  { intros s' l' Hk' Hl' Hm' Hle. rewrite decide_True by done. apply wp_ret, (Hbad s' l'); [done|done|lia|done]. }
  intros s1 l1 D Hv1 Hm1 Hl1 Hmem1.
  assert (usable (as_dir D)) as Hdu by (apply (ao_usable _ _ _ (vm_as _ _ _ _ _ _ Hv1)), elem_of_frames; by left).
  rewrite decide_False by (apply kp_nonzero, Hdu).
  assert (ufr D = []) as Eu by (apply ufr_none; intros j Hj; rewrite Hm1; by apply kernel_entry_user).
  assert (copying P s l O' 0 D s1 l1) as Hc0.
  { split; rewrite ?Eu; [|intros j Hj|done|intros j Hj| |done|exact Hmem1].
    - split; rewrite Eu; [done|constructor].
    - rewrite Hm1, kernel_entry_user by lia. split; [by intros []|lia].
    - lia.
    - cbn [app]. done. }
  apply wp_bind. change 0 with (0 * PGSIZE) at 1.
  apply (wp_copyuvm_from P s l O' sz (vm_as _ _ _ _ _ _ Hv)) with (l := l1) (n := 0); try done.
  - by eapply vm_frames_nodup.
  - unfold O'. clear. set_solver.
  - lia.
  - pose proof (pgs_fuel sz). lia.
  - intros D' s' l' Hc Hd. apply wp_ret. rewrite <- Hd. by apply (Hok s' l').
  - intros s2 (Hle & D2 & O2 & l2 & Hd2 & Hp2 & Hdn2 & Hsub2 & Hmem2). apply wp_bind. rewrite Hd2.
    apply (wp_freevm E s2 l2 D2 (O2 ++ O')); [done|done|]. intros s3 l3 Hk3 Hl3 Hm3.
    apply wp_ret, (Hbad s3 l3); [done| |done|].
    + rewrite Hl3. done.
    + intros q Hq. rewrite Hm3 by (apply elem_of_app; by right). by apply Hmem2.
Qed.
End copy.
