(* ===== verification/VmThm.v ===== *)
(** * Memory: the theorems about kalloc.c and vm.c

    Stated on what the processor sees: [mmu] walks the page tables in memory as
    the hardware does, [byte_at] reads memory through it. *)

From S2P Require Import Prelude CString ProcData Sync Words Vm VmPages VmSpace VmUser VmCopy.
Local Open Scope Z_scope.

(** ** The processor's view *)
Definition mem_word (mem : gmap Z (list Z)) (pa k : Z) : option Z :=
  x ← mem !! pa; get_word x (Z.to_nat (4 * k)).
(** The physical address of [va] under the page directory [cr3]. *)
Definition mmu (mem : gmap Z (list Z)) (cr3 va : Z) : option Z :=
  pde ← mem_word mem cr3 (va / PGSIZE / 1024);
  if decide (pde mod 2 = 1) then
    pte ← mem_word mem (PTE_ADDR pde) ((va / PGSIZE) mod 1024);
    if decide (pte mod 2 = 1) then Some (PTE_ADDR pte + va mod PGSIZE) else None
  else None.
Definition byte_at (mem : gmap Z (list Z)) (cr3 va : Z) : option Z :=
  pa ← mmu mem cr3 va;
  x ← mem !! (pa - pa mod PGSIZE);
  x !! Z.to_nat (pa mod PGSIZE).

Lemma tab_word mem pa f k : tab mem pa f → 0 ≤ k < 1024 → mem_word mem pa k = Some (f k).
Proof. intros (x & Hx & _ & Hw) Hk. unfold mem_word. rewrite Hx. by apply Hw. Qed.

Lemma mmu_spec end_ mem A va :
  as_ok end_ mem A → 0 ≤ va < 2 ^ 32 →
  mmu mem (as_dir A) va = (λ w, PTE_ADDR w + va mod PGSIZE) <$> as_map A !! (va / PGSIZE).
Proof.
  intros Ha Hva. pose proof (page_number va Hva) as Hi. unfold mmu.
  rewrite (tab_word _ _ _ _ (ao_dir _ _ _ Ha) Hi). cbn [mbind option_bind]. unfold pde_of.
  destruct (as_tabs A !! (va / PGSIZE / 1024)) as [t|] eqn:Ht.
  - assert (frame t) as Hf.
    { apply (ao_usable _ _ _ Ha). apply elem_of_frames. eauto. }
    destruct (decide _) as [_|Hn]; [|by destruct Hn; apply odd_entry].
    pose proof PGSIZE_eq as HP. rewrite PTE_ADDR_spec, kp_mod by (done || lia).
    replace (t + 7 - 7) with t by lia. destruct (ao_tabs _ _ _ Ha _ _ Ht) as [_ Htab].
    rewrite (tab_word _ _ _ _ Htab) by (apply Z.mod_pos_bound; lia). cbn [mbind option_bind].
    unfold pt_of. rewrite <- Z.div_mod by lia.
    destruct (as_map A !! (va / PGSIZE)) as [w|] eqn:Hw; [|done]. simpl.
    destruct (ao_map _ _ _ Ha _ _ Hw) as (_ & _ & Ho). by rewrite decide_True.
  - destruct (decide _) as [Hd|_]; [done|].
    destruct (as_map A !! (va / PGSIZE)) as [w|] eqn:Hw; [|done].
    destruct (ao_map _ _ _ Ha _ _ Hw) as ([t Et] & _). congruence.
Qed.

(** The byte at an address of a mapped page. *)
Lemma byte_at_spec end_ mem A va w :
  as_ok end_ mem A → 0 ≤ va < 2 ^ 32 → as_map A !! (va / PGSIZE) = Some w →
  byte_at mem (as_dir A) va = mem !! PTE_ADDR w ≫= λ x, x !! Z.to_nat (va mod PGSIZE).
Proof.
  intros Ha Hva Hw. unfold byte_at. rewrite (mmu_spec _ _ _ _ Ha Hva), Hw. simpl.
  pose proof PGSIZE_eq as HP. assert (0 ≤ va mod PGSIZE < PGSIZE) as Hm by (apply Z.mod_pos_bound; lia).
  assert ((PTE_ADDR w + va mod PGSIZE) mod PGSIZE = va mod PGSIZE) as ->.
  { rewrite PTE_ADDR_spec. replace (w - w mod PGSIZE) with (w / PGSIZE * PGSIZE).
    - by rewrite Z.add_comm, Z_mod_plus_full, Z.mod_mod by lia.
    - rewrite (Z.div_mod w PGSIZE) at 2 by lia. lia. }
  by replace (PTE_ADDR w + va mod PGSIZE - va mod PGSIZE) with (PTE_ADDR w) by lia.
Qed.

(** ** kalloc.c *)
Section kinit.
Context {C : Type} `{SyncLaws C} (end_ : Z) (L : list string) (kmem_free : "kmem" ∉ L).
Notation usable := (usable end_).
Notation kok := (kok end_ L).
Implicit Types (s : kmem C).

(** The pages of [n] page numbers from [a] on. *)
Definition run (a n : Z) : list Z := (λ i, i * PGSIZE) <$> seqZ a n.
Lemma elem_of_run a n q : q ∈ run a n ↔ ∃ i, q = i * PGSIZE ∧ a ≤ i < a + n.
Proof. unfold run. rewrite list_elem_of_fmap. setoid_rewrite elem_of_seqZ. naive_solver. Qed.

Lemma wp_freerange_from E fuel vend : ∀ s l a n Q,
  kok s l → 0 ≤ a → 0 ≤ n → (∀ i, a ≤ i < a + n → usable (i * PGSIZE) ∧ i * PGSIZE ∉ l) →
  (a + n) * PGSIZE ≤ PHYSTOP → kp ((a + n) * PGSIZE) ≤ vend < kp ((a + n + 1) * PGSIZE) →
  (Z.to_nat n < fuel)%nat →
  (∀ s', kok s' (reverse (run a n) ++ l) → Q tt s') →
  wp E (freerange_from end_ fuel (kp (a * PGSIZE)) vend) Q s.
Proof.
  pose proof PGSIZE_eq as HP.
  induction fuel as [|fuel IH]; intros s l a n Q Hk Ha Hn Hu Htop Hend Hf HQ; [lia|]. cbn [freerange_from].
  assert (u32 (kp (a * PGSIZE) + PGSIZE) = kp ((a + 1) * PGSIZE)) as ->.
  { unfold kp, KERNBASE, PHYSTOP in *. rewrite u32_small; rewrite HP in *; lia. }
  destruct (decide (kp ((a + 1) * PGSIZE) ≤ vend)) as [Hle|Hgt].
  - assert (0 < n) as Hpos by (unfold kp in *; rewrite HP in *; lia).
    destruct (Hu a) as [Hua Hnin]; [lia|].
    apply wp_bind, (wp_kfree end_ L kmem_free _ _ _ l); [done..|]. intros s1 y Hk1 _ _.
    apply (IH s1 (a * PGSIZE :: l) (a + 1) (n - 1)); [done|lia|lia| | | |lia|].
    + intros i Hi. destruct (Hu i) as [Hui Hni]; [lia|]. split; [done|]. apply not_elem_of_cons. split; [|done].
      rewrite HP. lia.
    + by replace (a + 1 + (n - 1)) with (a + n) by lia.
    + by replace (a + 1 + (n - 1)) with (a + n) by lia.
    + intros s' Hk'. apply HQ. unfold run in *. rewrite (seqZ_cons a n) by lia. rewrite fmap_cons, reverse_cons, <- app_assoc.
      by rewrite <- Z.add_1_r, <- Z.sub_1_r.
  - assert (n = 0) as -> by (unfold kp in *; rewrite HP in *; lia). apply wp_skip. by apply HQ.
Qed.

Lemma wp_freerange E s l a n vstart vend Q :
  kok s l → PGROUNDUP vstart = kp (a * PGSIZE) → 0 ≤ a → 0 ≤ n →
  (∀ i, a ≤ i < a + n → usable (i * PGSIZE) ∧ i * PGSIZE ∉ l) → vend = kp ((a + n) * PGSIZE) → (a + n) * PGSIZE ≤ PHYSTOP →
  (∀ s', kok s' (reverse (run a n) ++ l) → Q tt s') → wp E (freerange end_ vstart vend) Q s.
Proof.
  intros Hk Hs Ha Hn Hu -> Htop HQ. unfold freerange. rewrite Hs. pose proof PGSIZE_eq as HP.
  apply (wp_freerange_from E _ _ s l a n); [done|done|done|done|done| | |done].
  - unfold kp. rewrite HP. lia.
  - assert (n ≤ kp ((a + n) * PGSIZE) / PGSIZE); [|lia]. unfold kp. rewrite HP.
    apply Z.div_le_lower_bound; unfold KERNBASE; lia.
Qed.
End kinit.

Definition TOP : Z := 57344.
Lemma kp_PHYSTOP : PHYSTOP = TOP * PGSIZE.
Proof. rewrite PGSIZE_eq. reflexivity. Qed.

(** The pages above the kernel are those from some page number on. *)
Lemma usable_from end_ :
  KERNBASE ≤ end_ → end_ ≤ kp PHYSTOP → ∃ a, PGROUNDUP end_ = kp (a * PGSIZE) ∧ 0 ≤ a ≤ TOP ∧
    ∀ pa, usable end_ pa ↔ ∃ i, pa = i * PGSIZE ∧ a ≤ i < TOP.
Proof.
  intros Hge Hle. pose proof PGSIZE_eq as HP. pose proof kp_PHYSTOP as HT.
  rewrite PGROUNDUP_spec by (unfold kp, KERNBASE, PHYSTOP in *; rewrite ?HP; lia).
  exists (pgs end_ - UPAGES). assert (KERNBASE = UPAGES * PGSIZE) as HK by (rewrite HP; reflexivity).
  assert (∀ n, 0 ≤ n → n * PGSIZE < end_ ↔ n < pgs end_) as Hlt by (intros; by apply pgs_lt).
  split; [unfold kp; lia|]. split.
  - split.
    + enough (UPAGES ≤ pgs end_) by lia. unfold pgs. rewrite HK, HP in Hge. rewrite HP.
      apply Z.div_le_lower_bound; lia.
    + enough (pgs end_ < TOP + UPAGES + 1) by lia. unfold kp in Hle. rewrite HT, HK, HP in Hle. unfold pgs. rewrite HP.
      apply Z.div_lt_upper_bound; lia.
  - intros pa. split.
    + intros [[[Hr1 Hr2] Hm] He]. exists (pa / PGSIZE).
      assert (pa = pa / PGSIZE * PGSIZE) as Ep.
      { rewrite (Z.div_mod pa PGSIZE) at 1 by (rewrite HP; lia). lia. }
      assert (0 ≤ pa / PGSIZE) by (apply Z.div_pos; rewrite ?HP; lia).
      split; [done|]. split.
      * enough (¬ pa / PGSIZE + UPAGES < pgs end_) by lia. rewrite <- Hlt by (unfold UPAGES; lia).
        unfold kp in He. rewrite Ep, HK in He. lia.
      * apply Z.div_lt_upper_bound; rewrite ?HP; [lia|]. rewrite HT, HP in Hr2. lia.
    + intros (i & -> & Hi1 & Hi2). assert (¬ i + UPAGES < pgs end_) as Hn by lia.
      assert (0 ≤ pgs end_) as H0 by (unfold pgs; apply Z.div_pos; rewrite ?HP; unfold KERNBASE in *; lia).
      assert (¬ (i + UPAGES) * PGSIZE < end_) as Hn2.
      { destruct (decide (0 ≤ i + UPAGES)); [by rewrite Hlt|]. intros _. apply Hn. lia. }
      split; [split|].
      * rewrite HT. unfold kp in Hle. rewrite HT, HK, HP in Hle. rewrite HK, HP in Hge. rewrite HP in Hn2. rewrite HP. split; [|lia].
        enough (0 ≤ i) by lia. destruct (decide (0 ≤ i)); [done|]. exfalso. apply Hn2. lia.
      * apply Z_mod_mult.
      * unfold kp. rewrite HK. lia.
Qed.

(** kinit1 and kinit2 free every page above the kernel. *)
Lemma wp_kinit {C} `{SyncLaws C} end_ L mid (s : kmem C) :
  "kmem" ∉ L → KERNBASE ≤ end_ ≤ mid → mid mod PGSIZE = 0 → mid ≤ kp PHYSTOP →
  holds L (km_world s) → km_freelist s = 0 →
  (∀ pa, usable end_ pa → ∃ x, km_mem s !! pa = Some x ∧ full x) →
  wp no_panic (kinit1 end_ end_ mid ;;; kinit2 end_ mid (kp PHYSTOP))
    (λ _ s', ∃ l, kok end_ L s' l ∧ ∀ pa, pa ∈ l ↔ usable end_ pa) s.
Proof.
  intros HL Hend Hmid Htop Hh Hf Hpages. pose proof PGSIZE_eq as HP.
  destruct (usable_from end_) as (a & Ea & Har & Hu); [lia|lia|].
  assert (∃ m, mid = kp (m * PGSIZE) ∧ 0 ≤ m ≤ TOP) as (m & -> & Hm).
  { exists (mid / PGSIZE - UPAGES). assert (KERNBASE = UPAGES * PGSIZE) as HK by (rewrite HP; reflexivity).
    assert (mid = mid / PGSIZE * PGSIZE) as Em by (rewrite (Z.div_mod mid PGSIZE) at 1 by (rewrite HP; lia); lia).
    split; [unfold kp; lia|]. unfold kp in Htop. rewrite kp_PHYSTOP, HK in Htop. rewrite HK in Hend.
    rewrite HP in *. lia. }
  assert (a ≤ m) as Ham.
  { assert (PGROUNDUP end_ = pgs end_ * PGSIZE) as E1
      by (apply PGROUNDUP_spec; unfold kp, KERNBASE, PHYSTOP in *; rewrite ?HP; lia).
    assert (pgs end_ * PGSIZE < end_ + PGSIZE) as E2.
    { unfold pgs. pose proof (Z.mul_div_le (end_ + PGSIZE - 1) PGSIZE ltac:(rewrite HP; lia)). lia. }
    unfold kp in *. rewrite HP in *. lia. }
  assert (kok end_ L (set_km_use_lock false s) []) as Hk0.
  { split; simpl; try done; constructor. }
  apply wp_bind, wp_bind, wp_zoom, (k_initlock_law _ "kmem" L); [done|done|]. intros w' Hw'.
  apply wp_bind, wp_modS.
  apply (wp_freerange end_ L HL _ _ [] a (m - a)); [by destruct Hk0; split|done|lia|lia| | | |].
  { intros i Hi. split; [apply Hu; exists i; split; [done|lia]|apply not_elem_of_nil]. }
  { by replace (a + (m - a)) with m by lia. }
  { rewrite kp_PHYSTOP, HP. lia. }
  intros s1 Hk1. rewrite app_nil_r in Hk1.
  assert (PGROUNDUP (kp (m * PGSIZE)) = kp (m * PGSIZE)) as Ekm.
  { rewrite PGROUNDUP_spec by (unfold kp, KERNBASE, PHYSTOP in *; rewrite HP in *; unfold TOP in *; lia).
    unfold pgs, kp. change KERNBASE with (UPAGES * 4096). rewrite HP.
    replace (m * 4096 + UPAGES * 4096 + 4096 - 1) with (4095 + (m + UPAGES) * 4096) by lia.
    rewrite Z.div_add by lia. change (4095 / 4096) with 0. lia. }
  apply wp_bind, (wp_freerange end_ L HL _ _ (reverse (run a (m - a))) m (TOP - m)); [done|done|lia|lia| | | |].
  { intros i Hi. split; [apply Hu; exists i; split; [done|lia]|]. rewrite elem_of_reverse, elem_of_run.
    intros (j & Ej & Hj). rewrite HP in Ej. lia. }
  { replace (m + (TOP - m)) with TOP by lia. by rewrite kp_PHYSTOP. }
  { rewrite kp_PHYSTOP, HP. lia. }
  intros s2 Hk2. apply wp_modS. eexists. split; [destruct Hk2; by split|].
  intros pa. rewrite Hu, elem_of_app, !elem_of_reverse, !elem_of_run. split.
  + intros [(i & -> & Hi)|(i & -> & Hi)]; exists i; (split; [done|lia]).
  + intros (i & -> & Hi). destruct (decide (i < m)); [right|left]; exists i; (split; [done|lia]).
Qed.

(** C18. The page allocator: kinit1 and kinit2 put every page between the end of
    the kernel and PHYSTOP on the free list, once; kalloc hands out a page of
    the list and takes it off, and returns 0 exactly when no page is free; kfree
    puts a page back and changes no other page, and panics on an address that is
    not a page of that range. *)
Theorem page_allocator {C} `{SyncLaws C} end_ L mid :
  "kmem" ∉ L → KERNBASE ≤ end_ ≤ mid → mid mod PGSIZE = 0 → mid ≤ kp PHYSTOP →
  (∀ s : kmem C, holds L (km_world s) → km_freelist s = 0 →
     (∀ pa, usable end_ pa → ∃ x, km_mem s !! pa = Some x ∧ full x) →
     wp no_panic (kinit1 end_ end_ mid ;;; kinit2 end_ mid (kp PHYSTOP))
       (λ _ s', ∃ l, kok end_ L s' l ∧ ∀ pa, pa ∈ l ↔ usable end_ pa) s) ∧
  (∀ (s : kmem C) l, kok end_ L s l →
     wp no_panic kalloc (λ r s', km_mem s' = km_mem s ∧
       match l with
       | [] => r = 0 ∧ kok end_ L s' []
       | pa :: l' => r = kp pa ∧ r ≠ 0 ∧ kok end_ L s' l' ∧ usable end_ pa ∧ pa ∉ l'
       end) s) ∧
  (∀ (s : kmem C) l v, kok end_ L s l →
     (v mod PGSIZE ≠ 0 ∨ v < end_ ∨ PHYSTOP ≤ v2p v → kfree end_ v s = Panic "kfree") ∧
     (∀ pa, v = kp pa → usable end_ pa → pa ∉ l →
        wp no_panic (kfree end_ v) (λ _ s', kok end_ L s' (pa :: l) ∧
          ∀ q, q ≠ pa → km_mem s' !! q = km_mem s !! q) s)).
Proof.
  intros HL Hend Hmid Htop. pose proof PGSIZE_eq as HP. split_and!.
  - intros s. by apply wp_kinit.
  - intros s l Hk. apply (wp_kalloc end_ L HL _ _ _ l); [done| |].
    + intros -> s' Hk' Hm. done.
    + intros pa l' s' -> Hk' Hm Hpa Hn. split_and!; try done. apply kp_nonzero, Hpa.
  - intros s l v Hk. split.
    + intros Hv. unfold kfree. by rewrite decide_True.
    + intros pa -> Hpa Hn. apply (wp_kfree end_ L HL _ _ _ l); [done..|]. intros s' y Hk' _ Hm.
      split; [done|]. intros q Hq. rewrite Hm. by apply lookup_insert_ne.
Qed.

(** mappages maps exactly the pages of its range: when none of them is mapped,
    it either returns 0, the processor then takes each of their addresses to the
    frames from [pa] on and every other address where it went before, or it
    returns -1, because no page for a page table was left, with some first pages
    of the range mapped.  It takes only page tables from the free list and
    changes no page of anybody else.  If the first page is mapped, it panics. *)
Theorem mappages_exact {C} `{SyncLaws C} end_ L (s : kmem C) l A O va size pa perm :
  "kmem" ∉ L → vm end_ L s l A O → 0 ≤ va → 0 < size → va + size ≤ 2 ^ 32 →
  0 ≤ pa → pa mod PGSIZE = 0 → pa + pages_of va size * PGSIZE ≤ 2 ^ 32 → 0 ≤ perm < PGSIZE →
  ((∀ j, va / PGSIZE ≤ j < va / PGSIZE + pages_of va size → as_map A !! j = None) →
   wp no_panic (mappages (kp (as_dir A)) va size pa perm) (λ r s', ∃ l' A' k,
     vm end_ L s' l' A' O ∧ as_dir A' = as_dir A ∧ (∃ new, l = new ++ l' ∧ frames A' ≡ₚ new ++ frames A) ∧
     (∀ q, q ∉ frames A' → km_mem s' !! q = km_mem s !! q) ∧
     (∀ a, 0 ≤ a < 2 ^ 32 → mmu (km_mem s') (as_dir A) a =
        if decide (va / PGSIZE ≤ a / PGSIZE < va / PGSIZE + k)
        then Some (pa + (a / PGSIZE - va / PGSIZE) * PGSIZE + a mod PGSIZE)
        else mmu (km_mem s) (as_dir A) a) ∧
     ((r = 0 ∧ k = pages_of va size) ∨ (r = -1 ∧ 0 ≤ k < pages_of va size ∧ l' = []))) s) ∧
  (∀ w, as_map A !! (va / PGSIZE) = Some w → mappages (kp (as_dir A)) va size pa perm s = Panic "remap").
Proof.
  intros HL Hv Hva Hsz Hend Hpa Hpm Hpk Hperm. pose proof PGSIZE_eq as HP. split.
  - intros Hfree.
    assert (∀ s' l' A' k, 0 ≤ k ≤ pages_of va size → grew end_ L s l A s' l' A' O →
      mapped (va / PGSIZE) k pa perm (as_map A) (as_map A') →
      vm end_ L s' l' A' O ∧ as_dir A' = as_dir A ∧ (∃ new, l = new ++ l' ∧ frames A' ≡ₚ new ++ frames A) ∧
      (∀ q, q ∉ frames A' → km_mem s' !! q = km_mem s !! q) ∧
      (∀ a, 0 ≤ a < 2 ^ 32 → mmu (km_mem s') (as_dir A) a =
        if decide (va / PGSIZE ≤ a / PGSIZE < va / PGSIZE + k)
        then Some (pa + (a / PGSIZE - va / PGSIZE) * PGSIZE + a mod PGSIZE)
        else mmu (km_mem s) (as_dir A) a)) as Hpost.
    { intros s' l' A' k Hk Hg Hm. split_and!; try apply Hg. intros a Ha.
      rewrite <- (gr_dir _ _ _ _ _ _ _ _ _ Hg) at 1.
      rewrite (mmu_spec _ _ _ _ (vm_as _ _ _ _ _ _ (gr_vm _ _ _ _ _ _ _ _ _ Hg)) Ha).
      rewrite (mmu_spec _ _ _ _ (vm_as _ _ _ _ _ _ Hv) Ha), Hm.
      destruct (decide _) as [Hin|Hout]; [|done]. simpl. rewrite entry_addr; [done| |done].
      by rewrite <- Zplus_mod_idemp_l, Hpm, Z.add_0_l, Z_mod_mult. }
    apply (wp_mappages end_ L HL no_panic s l A O); [done..| |].
    + intros s' l' A' Hg Hm _. exists l', A', (pages_of va size).
      destruct (Hpost s' l' A' (pages_of va size)) as (? & ? & ? & ? & ?); [|done|done|].
      * unfold pages_of. pose proof (Z.div_le_mono va (va + size - 1) PGSIZE ltac:(rewrite HP; lia) ltac:(lia)). lia.
      * split_and!; try done. by left.
    + intros s' A' k' Hk' Hg Hm _. exists [], A', k'.
      destruct (Hpost s' [] A' k') as (? & ? & ? & ? & ?); [lia|done|done|]. split_and!; try done. by right.
  - intros w Hw. unfold mappages. cbn [mappages_from].
    assert (PGROUNDDOWN va / PGSIZE = va / PGSIZE) as Ep.
    { rewrite PGROUNDDOWN_spec. replace (va - va mod PGSIZE) with (va / PGSIZE * PGSIZE).
      - apply Z.div_mul. rewrite HP. lia.
      - rewrite (Z.div_mod va PGSIZE) at 2 by (rewrite HP; lia). lia. }
    assert (0 ≤ PGROUNDDOWN va < 2 ^ 32) as Hr.
    { rewrite PGROUNDDOWN_spec. pose proof (Z.mod_pos_bound va PGSIZE ltac:(rewrite HP; lia)).
      pose proof (Z.mod_le va PGSIZE Hva ltac:(rewrite HP; lia)). lia. }
    destruct (ao_map _ _ _ (vm_as _ _ _ _ _ _ Hv) _ _ Hw) as (Htab & _ & Ho).
    assert (wp (λ e, e = "remap") (walkpgdir (kp (as_dir A)) (PGROUNDDOWN va) true)
      (λ p s', p = pte_ptr A (va / PGSIZE) ∧ s' = s) s) as Hwalk.
    { eapply wp_pgdir_walk; [done|done| |]; rewrite Ep; [done|]. intros Hn. rewrite Hn in Htab. by destruct Htab. }
    unfold wp in Hwalk. unfold bind at 1. destruct (walkpgdir _ _ true s) as [[p s']|e| |]; [|by subst|done|done].
    destruct Hwalk as [-> ->]. rewrite decide_False by (by eapply pte_ptr_nonzero).
    assert (wp no_panic (ld32 (pte_ptr A (va / PGSIZE))) (λ e s', e = w ∧ s' = s) s) as Hld.
    { eapply wp_get_pte; [done|done|]. by rewrite Hw. }
    unfold wp in Hld. unfold bind at 1. destruct (ld32 _ s) as [[e s']|e| |]; [|done..].
    destruct Hld as [-> ->]. rewrite land_P, Ho. by rewrite decide_True.
Qed.

(** ** A small machine: 1200 pages above the kernel, whose locks are free *)
Definition after {S A} (m : M S A) (s : S) : S := match m s with Ok (_, s') => s' | _ => s end.
Lemma after_ok {S A} (m : M S A) (Q : S → Prop) s : wp no_panic m (λ _ s', Q s') s → Q (after m s).
Proof. unfold wp, after. by destruct (m s) as [[? ?]|?| |]. Qed.

Definition toy_first : Z := TOP - 1200.
Definition toy_end : Z := kp (toy_first * PGSIZE).
Definition toy_page : list Z := replicate (Z.to_nat PGSIZE) 0.
Definition toy_mem : gmap Z (list Z) := list_to_map ((λ i, (i * PGSIZE, toy_page)) <$> seqZ toy_first 1200).
Definition toy_boot : kmem unit := mkkmem tt false 0 toy_mem.
Definition toy_ready : kmem unit := after (freerange toy_end toy_end (kp PHYSTOP)) toy_boot.
(** A page directory, and two pages of user memory under it. *)
Definition toy_dir : kmem unit := after (let! p := kalloc in memset_page p 0) toy_ready.
Definition toy_space : aspace := mkas ((TOP - 1) * PGSIZE) ∅ ∅.
Definition toy_user : kmem unit := after (allocuvm toy_end (kp (as_dir toy_space)) 0 (2 * PGSIZE)) toy_dir.

Lemma toy_usable i : usable toy_end (i * PGSIZE) ↔ toy_first ≤ i < TOP.
Proof.
  pose proof PGSIZE_eq as HP. unfold usable, frame, toy_end, kp. rewrite kp_PHYSTOP, Z_mod_mult, HP.
  unfold toy_first, TOP. lia.
Qed.
Lemma toy_pages pa : usable toy_end pa → ∃ x, toy_mem !! pa = Some x ∧ full x.
Proof.
  intros Hu. pose proof Hu as [[Hr Hm] _]. pose proof PGSIZE_eq as HP.
  assert (pa = pa / PGSIZE * PGSIZE) as Ep by (rewrite (Z.div_mod pa PGSIZE) at 1 by (rewrite HP; lia); lia).
  rewrite Ep in Hu. apply toy_usable in Hu. exists toy_page. split; [|apply full_replicate].
  apply elem_of_list_to_map.
  - rewrite <- list_fmap_compose. apply NoDup_fmap_2; [|apply NoDup_seqZ]. intros i j. simpl. rewrite HP. lia.
  - apply list_elem_of_fmap. exists (pa / PGSIZE). split; [by rewrite <- Ep|]. apply elem_of_seqZ. unfold toy_first, TOP in *. lia.
Qed.

#[local] Opaque toy_mem toy_page freerange allocuvm.
Definition toy_list : list Z := reverse (run toy_first 1199).
Lemma toy_reverse : reverse (run toy_first 1200) = (TOP - 1) * PGSIZE :: toy_list.
Proof.
  unfold toy_list, run. change 1200 with (1199 + 1). rewrite seqZ_app by lia. rewrite fmap_app, reverse_app. reflexivity.
Qed.

Lemma toy_ready_ok : kok toy_end [] toy_ready ((TOP - 1) * PGSIZE :: toy_list).
Proof.
  rewrite <- toy_reverse. unfold toy_ready.
  refine (after_ok (freerange toy_end toy_end (kp PHYSTOP)) (λ s, kok toy_end [] s (reverse (run toy_first 1200))) toy_boot _).
  apply (wp_freerange toy_end [] (not_elem_of_nil _) no_panic toy_boot [] toy_first 1200 toy_end (kp PHYSTOP)).
  - split; simpl; try done; [apply toy_pages|constructor..].
  - unfold toy_end. pose proof PGSIZE_eq as HP.
    rewrite PGROUNDUP_spec by (unfold kp, KERNBASE, toy_first, TOP; rewrite HP; lia).
    unfold pgs, kp. change KERNBASE with (UPAGES * 4096). rewrite HP.
    replace (toy_first * 4096 + UPAGES * 4096 + 4096 - 1) with (4095 + (toy_first + UPAGES) * 4096) by lia.
    rewrite Z.div_add by lia. change (4095 / 4096) with 0. lia.
  - unfold toy_first, TOP. lia.
  - lia.
  - intros i Hi. split; [apply toy_usable; unfold toy_first, TOP in *; lia|apply not_elem_of_nil].
  - rewrite kp_PHYSTOP. f_equal.
  - rewrite kp_PHYSTOP. rewrite PGSIZE_eq. unfold toy_first, TOP. lia.
  - intros s' Hk. by rewrite app_nil_r in Hk.
Qed.

(** A page directory on any machine. *)
Lemma wp_new_dir E (s : kmem unit) pa l :
  kok toy_end [] s (pa :: l) →
  wp E (let! p := kalloc in memset_page p 0) (λ _ s', vm toy_end [] s' l (mkas pa ∅ ∅) []) s.
Proof.
  intros Hk. apply wp_bind, (wp_kalloc toy_end [] (not_elem_of_nil _) _ _ _ (pa :: l) Hk); [done|].
  intros q l' s' E1 Hk' Hm Hpa Hn. injection E1 as <- <-.
  destruct (kok_pages _ _ _ _ Hk' _ Hpa) as (x & Hx & Hl).
  apply (wp_memset_page _ _ _ x); [apply Hpa|done|done|].
  apply vm_empty; [apply kok_insert; [done|done|apply full_replicate]| |done|].
  - apply (kok_nodup _ _ _ _ Hk).
  - apply tab_zero, lookup_insert_eq.
Qed.

Lemma toy_dir_ok : pm toy_end [] toy_dir toy_list toy_space [].
Proof.
  assert (ufr toy_space = []) as Eu by (apply ufr_none; done).
  split; rewrite Eu; [|constructor].
  exact (after_ok (let! p := kalloc in memset_page p 0) (λ s, vm toy_end [] s toy_list toy_space []) toy_ready
    (wp_new_dir no_panic toy_ready _ toy_list toy_ready_ok)).
Qed.
#[local] Opaque toy_ready toy_dir.
Lemma toy_list_length : length toy_list = 1199%nat.
Proof. unfold toy_list, run. by rewrite length_reverse, length_fmap, length_seqZ. Qed.

Lemma toy_user_ok : ∃ l P, pm toy_end [] toy_user l P [] ∧ sized P 2 ∧ as_dir P = as_dir toy_space ∧
  (∀ j, 0 ≤ j < 2 → ∃ pa, as_map P !! j = Some (entry pa (Z.lor PTE_W PTE_U))) ∧ (1195 ≤ length l)%nat.
Proof.
  unfold toy_user.
  refine (after_ok (allocuvm toy_end (kp (as_dir toy_space)) 0 (2 * PGSIZE))
    (λ s, ∃ l P, pm toy_end [] s l P [] ∧ sized P 2 ∧ as_dir P = as_dir toy_space ∧
      (∀ j, 0 ≤ j < 2 → ∃ pa, as_map P !! j = Some (entry pa (Z.lor PTE_W PTE_U))) ∧ (1195 ≤ length l)%nat) toy_dir _).
  pose proof PGSIZE_eq as HP. assert (pgs (2 * PGSIZE) = 2) as E2 by (unfold pgs; rewrite HP; reflexivity).
  apply (wp_allocuvm toy_end [] (not_elem_of_nil _) _ toy_dir toy_list toy_space []).
  - apply toy_dir_ok.
  - rewrite HP. lia.
  - rewrite HP. unfold KERNBASE. lia.
  - rewrite pgs_0. intros j Hj. simpl. rewrite lookup_empty. split; [by intros []|lia].
  - rewrite toy_list_length, E2, pgs_0. simpl. lia.
  - rewrite E2, pgs_0. intros s' l' A' [Hp Hd Hold Hnew _ _ Hlen]. exists l', A'. split; [done|].
    split; [|split; [done|split; [|rewrite toy_list_length in Hlen; lia]]].
    2: { intros j Hj. destruct (Hnew j) as (pa & ? & _); [lia|eauto]. }
    intros j Hj. destruct (decide (j < 2)).
    + destruct (Hnew j) as (pa & -> & _); [lia|]. split; [done|eauto].
    + rewrite Hold by lia. simpl. rewrite lookup_empty. split; [by intros []|lia].
Qed.

Lemma page_allocator_witness :
  wp no_panic (kinit1 toy_end toy_end (kp (TOP * PGSIZE)) ;;; kinit2 toy_end (kp (TOP * PGSIZE)) (kp PHYSTOP))
    (λ _ s', ∃ l, kok toy_end [] s' l ∧ ∀ pa, pa ∈ l ↔ usable toy_end pa) toy_boot.
Proof.
  pose proof PGSIZE_eq as HP.
  refine (proj1 (page_allocator (C := unit) toy_end [] (kp (TOP * PGSIZE)) (not_elem_of_nil _) _ _ _)
    toy_boot I eq_refl toy_pages).
  - unfold toy_end, kp, KERNBASE, toy_first, TOP. rewrite HP. lia.
  - unfold kp. change KERNBASE with (UPAGES * 4096). rewrite <- HP. rewrite <- Z.mul_add_distr_r. apply Z_mod_mult.
  - rewrite kp_PHYSTOP. lia.
Defined.

Lemma mappages_exact_witness :
  pages_of 5000 5000 = 2 ∧
  wp no_panic (mappages (kp (as_dir toy_space)) 5000 5000 0 PTE_W) (λ r _, r = 0 ∨ r = -1) toy_dir.
Proof.
  pose proof PGSIZE_eq as HP.
  assert (pages_of 5000 5000 = 2) as Ek by (unfold pages_of; rewrite HP; reflexivity). split; [exact Ek|].
  destruct toy_dir_ok as [Hv _].
  eapply wp_mono; [refine (proj1 (mappages_exact toy_end [] toy_dir toy_list toy_space _ 5000 5000 0 PTE_W
    (not_elem_of_nil _) Hv _ _ _ _ _ _ _) _)|].
  - lia.
  - lia.
  - lia.
  - lia.
  - apply Z.mod_0_l. rewrite HP. lia.
  - rewrite Ek, HP. lia.
  - rewrite HP. unfold PTE_W. lia.
  - intros j _. apply lookup_empty.
  - intros r s' (l' & A' & k & _ & _ & _ & _ & _ & [[? _]|[? _]]); [by left|by right].
Defined.

(** ** User memory *)
Section user_memory.
Context {C : Type} `{SyncLaws C} (end_ : Z) (L : list string).
Implicit Types (s : kmem C) (A : aspace).

Lemma va_page va n : 0 ≤ va → va < n * PGSIZE ↔ va / PGSIZE < n.
Proof.
  intros Hva. pose proof PGSIZE_eq as HP. split; intros Hl.
  - apply Z.div_lt_upper_bound; rewrite ?HP in *; lia.
  - pose proof (Z.div_mod va PGSIZE ltac:(rewrite HP; lia)). pose proof (Z.mod_pos_bound va PGSIZE ltac:(rewrite HP; lia)).
    rewrite HP in *. lia.
Qed.

(** A user page whose entry and frame are as before reads as before. *)
Lemma byte_at_same s l A O s' l' A' O' va w :
  pm end_ L s l A O → pm end_ L s' l' A' O' → as_dir A' = as_dir A → 0 ≤ va < KERNBASE →
  as_map A !! (va / PGSIZE) = Some w → as_map A' !! (va / PGSIZE) = Some w →
  km_mem s' !! PTE_ADDR w = km_mem s !! PTE_ADDR w →
  byte_at (km_mem s') (as_dir A) va = byte_at (km_mem s) (as_dir A) va.
Proof.
  intros Hp Hp' Hd Hva Hw Hw' Hm. unfold KERNBASE in Hva.
  rewrite <- Hd at 1. rewrite (byte_at_spec end_ _ A' va w (vm_as _ _ _ _ _ _ (pm_vm _ _ _ _ _ _ Hp'))) by (done || lia).
  rewrite (byte_at_spec end_ _ A va w (vm_as _ _ _ _ _ _ (pm_vm _ _ _ _ _ _ Hp))) by (done || lia). by rewrite Hm.
Qed.

(** What allocuvm leaves of user memory. *)
Definition grown_to s l A O oldsz newsz s' l' A' : Prop :=
  pm end_ L s' l' A' O ∧ as_dir A' = as_dir A ∧ sized A' (pgs newsz) ∧
  frames A' ++ ufr A' ++ l' ≡ₚ frames A ++ ufr A ++ l ∧ (∀ q, q ∈ O → km_mem s' !! q = km_mem s !! q) ∧
  ∀ va, 0 ≤ va < pgs newsz * PGSIZE →
    byte_at (km_mem s') (as_dir A) va =
      if decide (va < pgs oldsz * PGSIZE) then byte_at (km_mem s) (as_dir A) va else Some 0.

Lemma allocated_grown s l A O oldsz newsz s' l' A' :
  pm end_ L s l A O → sized A (pgs oldsz) → 0 ≤ oldsz ≤ newsz → newsz < KERNBASE →
  allocated end_ L (pgs oldsz) (pgs newsz) s l A s' l' A' O → grown_to s l A O oldsz newsz s' l' A'.
Proof.
  intros Hp Hz Hsz Hk [Hp' Hd Hold Hnew Hpg Hmem _]. pose proof PGSIZE_eq as HP.
  pose proof (pgs_range oldsz ltac:(lia)) as Ho. pose proof (pgs_range newsz ltac:(lia)) as Hn.
  pose proof (pgs_mono oldsz newsz ltac:(lia)) as Hle.
  split_and!; [done|done| |done|intros q Hq; apply Hmem; set_solver|].
  - intros j Hj. destruct (decide (pgs oldsz ≤ j < pgs newsz)) as [Hin|Hout].
    + destruct (Hnew j Hin) as (pa & -> & _). split; [lia|eauto].
    + rewrite Hold by lia. rewrite (Hz j Hj). lia.
  - intros va Hva. assert (0 ≤ va / PGSIZE) as Hpos0 by (apply Z.div_pos; rewrite ?HP; lia).
    assert (0 ≤ va < KERNBASE) as Hvk.
    { split; [lia|]. unfold KERNBASE, UPAGES in *. rewrite HP in *. lia. }
    destruct (decide (va < pgs oldsz * PGSIZE)) as [Hlo|Hhi]; [rewrite va_page in Hlo by lia|rewrite va_page in Hhi by lia].
    + destruct (proj2 (Hz (va / PGSIZE) ltac:(lia)) Hlo) as [w Hw].
      eapply byte_at_same; [done..|by rewrite Hold by lia|]. apply Hmem, elem_of_app. left.
      apply elem_of_ufr. exists (va / PGSIZE), w. split_and!; [lia|done|done].
    + destruct (Hnew (va / PGSIZE)) as (pa & Hw & _ & Hf & Hz0); [destruct Hva as [_ Hva]; rewrite va_page in Hva by lia; lia|].
      rewrite <- Hd. unfold KERNBASE in Hvk.
      rewrite (byte_at_spec end_ _ A' va _ (vm_as _ _ _ _ _ _ (pm_vm _ _ _ _ _ _ Hp')) ltac:(lia) Hw).
      rewrite entry_addr by (apply Hf || apply WU_range). rewrite Hz0. simpl.
      apply lookup_replicate. split; [done|]. pose proof (Z.mod_pos_bound va PGSIZE ltac:(rewrite HP; lia)). lia.
Qed.
End user_memory.

(** C10. User memory grows and shrinks without loss: with enough free pages
    allocuvm returns the new size, the new pages read as zeros, the bytes below
    are as before, no page of others changes, and every page is still either
    free, a page table or user memory of the process; deallocuvm back to the
    old size returns it, unmaps the pages above and leaves the bytes below. *)
Theorem allocuvm_deallocuvm {C} `{SyncLaws C} end_ L (s : kmem C) l A O oldsz newsz :
  "kmem" ∉ L → KERNBASE < end_ → pm end_ L s l A O → sized A (pgs oldsz) →
  0 ≤ oldsz < newsz → newsz < KERNBASE → (2 * Z.to_nat (pgs newsz - pgs oldsz) ≤ length l)%nat →
  wp no_panic (allocuvm end_ (kp (as_dir A)) oldsz newsz) (λ r s', r = newsz ∧ ∃ l' A',
    grown_to end_ L s l A O oldsz newsz s' l' A') s ∧
  wp no_panic
    (let! r := allocuvm end_ (kp (as_dir A)) oldsz newsz in deallocuvm end_ (kp (as_dir A)) r oldsz)
    (λ r s', r = oldsz ∧ ∃ l' A', pm end_ L s' l' A' O ∧ as_dir A' = as_dir A ∧
       frames A' ++ ufr A' ++ l' ≡ₚ frames A ++ ufr A ++ l ∧
       (∀ q, q ∈ O → km_mem s' !! q = km_mem s !! q) ∧
       (∀ va, 0 ≤ va < KERNBASE → mmu (km_mem s') (as_dir A) va = mmu (km_mem s) (as_dir A) va) ∧
       (∀ va, 0 ≤ va < pgs oldsz * PGSIZE → byte_at (km_mem s') (as_dir A) va = byte_at (km_mem s) (as_dir A) va)) s.
Proof.
  intros HL Hend Hp Hz Hsz Hk Hl. pose proof PGSIZE_eq as HP.
  pose proof (pgs_range oldsz ltac:(lia)) as Ho. pose proof (pgs_range newsz ltac:(lia)) as Hn.
  pose proof (pgs_mono oldsz newsz ltac:(lia)) as Hle. split.
  - apply (wp_allocuvm end_ L HL _ s l A O); try done; [lia|]. intros s' l' A' Hal. split; [done|].
    exists l', A'. eapply allocated_grown; try done. lia.
  - apply wp_bind, (wp_allocuvm end_ L HL _ s l A O); try done; [lia|]. intros s1 l1 A1 Hal.
    assert (grown_to end_ L s l A O oldsz newsz s1 l1 A1) as (Hp1 & Hd1 & Hz1 & Hpg1 & Hm1 & _)
      by (eapply allocated_grown; try done; lia).
    rewrite <- Hd1. apply (wp_deallocuvm end_ L HL Hend _ s1 l1 A1 O); [done|lia|lia| |].
    { intros j k Hj Hk' Hs. apply Hz1; [lia|]. apply Hz1 in Hs; lia. }
    intros s2 l2 A2 [Hp2 Hd2 Ht2 Hmap2 (freed & Hl2 & Hu2) Hm2]. split; [done|]. exists l2, A2.
    assert (∀ j, j < UPAGES → as_map A2 !! j = as_map A !! j) as Hmap.
    { intros j Hj. rewrite Hmap2. destruct (decide (pgs oldsz ≤ j < pgs newsz)) as [Hin|Hout].
      - symmetry. apply eq_None_not_Some. intros Hs. apply Hz in Hs; lia.
      - apply (al_old _ _ _ _ _ _ _ _ _ _ _ Hal). lia. }
    split_and!; [done|congruence| | | |].
    + unfold frames. rewrite Ht2, Hd2, Hl2. unfold frames in Hpg1. rewrite <- Hpg1, Hu2. solve_Permutation.
    + intros q Hq. rewrite Hm2 by set_solver. by apply Hm1.
    + intros va Hva. unfold KERNBASE in Hva. rewrite Hd1. rewrite <- (eq_trans Hd2 Hd1) at 1.
      rewrite (mmu_spec end_ _ A2 va (vm_as _ _ _ _ _ _ (pm_vm _ _ _ _ _ _ Hp2))) by lia.
      rewrite (mmu_spec end_ _ A va (vm_as _ _ _ _ _ _ (pm_vm _ _ _ _ _ _ Hp))) by lia.
      rewrite Hmap; [done|]. unfold UPAGES. apply Z.div_lt_upper_bound; rewrite ?HP; lia.
    + intros va Hva. assert (0 ≤ va / PGSIZE) as Hpos0 by (apply Z.div_pos; rewrite ?HP; lia).
      assert (va / PGSIZE < pgs oldsz) as Hlo by (apply va_page; lia).
      destruct (proj2 (Hz (va / PGSIZE) ltac:(lia)) Hlo) as [w Hw]. rewrite Hd1.
      eapply (byte_at_same end_ L s l A O s2 l2 A2 O); [done|done|congruence| |done|by rewrite Hmap by lia|].
      * split; [lia|]. unfold KERNBASE, UPAGES in *. rewrite HP in *. lia.
      * rewrite Hm2.
        -- apply (al_mem _ _ _ _ _ _ _ _ _ _ _ Hal), elem_of_app. left. apply elem_of_ufr. exists (va / PGSIZE), w. split_and!; [lia|done..].
        -- apply elem_of_app. left. apply elem_of_ufr. exists (va / PGSIZE), w. rewrite Hmap by lia. split_and!; [lia|done..].
Qed.

Lemma allocuvm_deallocuvm_witness :
  wp no_panic (allocuvm toy_end (kp (as_dir toy_space)) 0 (2 * PGSIZE)) (λ r s', r = 2 * PGSIZE ∧ ∃ l' A',
    grown_to toy_end [] toy_dir toy_list toy_space [] 0 (2 * PGSIZE) s' l' A') toy_dir.
Proof.
  pose proof PGSIZE_eq as HP. assert (pgs (2 * PGSIZE) = 2) as E2 by (unfold pgs; rewrite HP; reflexivity).
  refine (proj1 (allocuvm_deallocuvm toy_end [] toy_dir toy_list toy_space [] 0 (2 * PGSIZE)
    (not_elem_of_nil _) _ toy_dir_ok _ _ _ _)).
  - unfold toy_end, kp, toy_first, TOP. rewrite HP. lia.
  - rewrite pgs_0. intros j Hj. simpl. rewrite lookup_empty. split; [by intros []|lia].
  - rewrite HP. lia.
  - rewrite HP. unfold KERNBASE. lia.
  - rewrite toy_list_length, E2, pgs_0. simpl. lia.
Defined.
