(* ===== verification/VmCopyThm.v ===== *)
(** * Memory: the theorems about copying an address space and about running
    out of pages (vm.c) *)

From S2P Require Import Prelude CString ProcData Sync Words Vm VmPages VmSpace VmUser VmCopy VmThm.
Local Open Scope Z_scope.

(** ** fork's copy *)

(** C9. fork's copy of the address space is exact and private.  With more than
    1026 free pages besides those of the user memory (a page directory, its 1024
    possible page tables and one page of slack) copyuvm succeeds; it returns 0
    only when there are fewer (a page it could not map is then lost).  On success
    it returns a page directory in which every page below the size is mapped with the
    parent's flags to a frame that was free before, every user byte reads as the
    parent's does, nothing above is mapped and the kernel half is the kernel's own
    map; the pages it took are those of the new address space.  Either way no page
    of the parent or of anybody else changes. *)
Theorem copyuvm_isolates {C} `{SyncLaws C} end_ data L (s : kmem C) l P O sz :
  "kmem" ∉ L → KERNBASE < end_ → data mod PGSIZE = 0 → KERNLINK < data < KERNBASE + PHYSTOP →
  pm end_ L s l P O → sized P (pgs sz) → 0 ≤ sz ≤ KERNBASE →
  wp no_panic (copyuvm end_ data (kp (as_dir P)) sz) (λ r s',
    (∀ q, q ∈ frames P ++ ufr P ++ O → km_mem s' !! q = km_mem s !! q) ∧
    ((r = 0 ∧ (length l ≤ 1026 + Z.to_nat (pgs sz))%nat ∧ ∃ l', kok end_ L s' l' ∧ l' ⊆ l) ∨
     ∃ D l', r = kp (as_dir D) ∧ r ≠ 0 ∧ pm end_ L s' l' D (frames P ++ ufr P ++ O) ∧ frames D ++ ufr D ++ l' ≡ₚ l ∧
       (∀ n, 0 ≤ n < pgs sz → ∃ w pa, as_map P !! n = Some w ∧ as_map D !! n = Some (entry pa (PTE_FLAGS w))) ∧
       (∀ va, 0 ≤ va < pgs sz * PGSIZE →
          byte_at (km_mem s') (as_dir D) va = byte_at (km_mem s) (as_dir P) va ∧
          ∃ pa, mmu (km_mem s') (as_dir D) va = Some pa ∧ pa - pa mod PGSIZE ∈ l) ∧
       (∀ va, pgs sz * PGSIZE ≤ va < KERNBASE → mmu (km_mem s') (as_dir D) va = None) ∧
       (∀ va, KERNBASE ≤ va < 2 ^ 32 → mmu (km_mem s') (as_dir D) va =
          (λ w, PTE_ADDR w + va mod PGSIZE) <$> kernel_entry data (va / PGSIZE)))) s.
Proof.
  intros HL Hend Hda Hdr Hp Hz Hsz. pose proof PGSIZE_eq as HP. pose proof (pgs_range sz Hsz) as Hn.
  apply (wp_copyuvm end_ data L HL Hend Hda Hdr _ s l P O sz); [done..| |].
  2: { intros s' l' Hk Hl Hle Hm. split; [done|]. left. eauto. }
  intros s' l' D [Hp' Hz' Hker Hcp Hfr Hct Hm]. split; [done|]. right. exists D, l'.
  pose proof (vm_as _ _ _ _ _ _ (pm_vm _ _ _ _ _ _ Hp')) as Hok'.
  pose proof (vm_as _ _ _ _ _ _ (pm_vm _ _ _ _ _ _ Hp)) as Hok.
  assert (pgs sz * PGSIZE ≤ KERNBASE) as Htop.
  { unfold UPAGES in Hn. unfold KERNBASE. rewrite HP. lia. }
  split_and!; [done|apply kp_nonzero, (ao_usable _ _ _ Hok'), elem_of_frames; by left|done|done| | | |].
  - intros n Hn'. destruct (Hcp n Hn') as (w & pa & Hw & _ & HD & _). eauto.
  - intros va Hva. assert (0 ≤ va / PGSIZE) as Hpos by (apply Z.div_pos; rewrite ?HP; lia).
    assert (va / PGSIZE < pgs sz) as Hlt by (apply va_page; lia).
    destruct (Hcp (va / PGSIZE)) as (w & pa & Hw & Hf & HD & Hc); [lia|].
    assert (PTE_ADDR (entry pa (PTE_FLAGS w)) = pa) as Epa by (apply entry_addr, PTE_FLAGS_range; apply Hf).
    assert (0 ≤ va < 2 ^ 32) as Hv32 by (unfold KERNBASE in Htop; lia). split.
    + rewrite (byte_at_spec end_ _ D va _ Hok' Hv32 HD), (byte_at_spec end_ _ P va _ Hok Hv32 Hw).
      by rewrite Epa, Hc.
    + exists (pa + va mod PGSIZE). rewrite (mmu_spec end_ _ D va Hok' Hv32), HD. simpl. rewrite Epa. split; [done|].
      assert ((pa + va mod PGSIZE) mod PGSIZE = va mod PGSIZE) as ->.
      { rewrite <- Zplus_mod_idemp_l. rewrite (proj2 Hf), Z.add_0_l. apply Z.mod_mod. rewrite HP. lia. }
      replace (pa + va mod PGSIZE - va mod PGSIZE) with pa by lia. rewrite <- Hfr. apply elem_of_app. right.
      apply elem_of_app. left. apply elem_of_ufr. exists (va / PGSIZE), (entry pa (PTE_FLAGS w)). split_and!; [lia|done..].
  - intros va Hva. unfold KERNBASE in Hva. rewrite (mmu_spec end_ _ D va Hok') by lia.
    assert (as_map D !! (va / PGSIZE) = None) as ->; [|done].
    assert (0 ≤ va / PGSIZE) as Hpos by (apply Z.div_pos; rewrite ?HP; lia).
    assert (¬ va / PGSIZE < pgs sz) as Hge by (rewrite <- va_page by lia; lia).
    apply eq_None_not_Some. intros Hs. apply Hz' in Hs; [lia|].
    unfold UPAGES. split; [lia|]. apply Z.div_lt_upper_bound; rewrite ?HP; lia.
  - intros va Hva. rewrite (mmu_spec end_ _ D va Hok') by (unfold KERNBASE in Hva; lia). rewrite Hker; [done|].
    unfold UPAGES. apply Z.div_le_lower_bound; unfold KERNBASE in Hva; rewrite ?HP; lia.
Qed.

Lemma copyuvm_isolates_witness : ∃ l P, as_dir P = as_dir toy_space ∧
  wp no_panic (copyuvm toy_end (KERNBASE + 0x110000) (kp (as_dir P)) (2 * PGSIZE)) (λ r s',
    ∀ q, q ∈ frames P ++ ufr P → km_mem s' !! q = km_mem toy_user !! q) toy_user ∧ pm toy_end [] toy_user l P [].
Proof.
  pose proof PGSIZE_eq as HP. assert (pgs (2 * PGSIZE) = 2) as E2 by (unfold pgs; rewrite HP; reflexivity).
  destruct toy_user_ok as (l & P & Hp & Hz & Hd & _). exists l, P. split; [done|]. split; [|done].
  eapply wp_mono; [refine (copyuvm_isolates toy_end (KERNBASE + 0x110000) [] toy_user l P [] (2 * PGSIZE)
    (not_elem_of_nil _) _ _ _ Hp _ _)|].
  - unfold toy_end, kp, toy_first, TOP. rewrite HP. lia.
  - rewrite HP. reflexivity.
  - unfold KERNLINK, KERNBASE, EXTMEM, PHYSTOP. lia.
  - by rewrite E2.
  - rewrite HP. unfold KERNBASE. lia.
  - intros r s' [Hm _] q Hq. apply Hm. rewrite app_nil_r. done.
Defined.

(** ** The last page *)

(** No table is added when no page is free. *)
Lemma grew_nil {C} `{SyncLaws C} end_ L (s : kmem C) A s' A' O :
  grew end_ L s [] A s' [] A' O → as_tabs A' = as_tabs A.
Proof.
  intros [_ _ Ht (new & En & Hfr) _]. symmetry in En. apply app_nil in En as [-> _].
  symmetry. apply map_subseteq_size_eq; [done|]. apply Permutation_length in Hfr. unfold frames in Hfr.
  simpl in Hfr. rewrite !length_fmap, !length_map_to_list in Hfr. lia.
Qed.

(** loaduvm panics at an address without a page table. *)
Lemma loaduvm_panics {C} `{SyncLaws C} end_ L (s : kmem C) l A O n readi off sz :
  vm end_ L s l A O → 0 ≤ n < 2 ^ 20 → as_tabs A !! (n / 1024) = None → 0 < sz →
  loaduvm readi (kp (as_dir A)) (n * PGSIZE) off sz s = Panic "loaduvm: address should exist".
Proof.
  intros Hv Hn Htab Hsz. pose proof PGSIZE_eq as HP.
  assert (n * PGSIZE / PGSIZE = n) as En by (rewrite HP; apply Z.div_mul; lia).
  unfold loaduvm. rewrite decide_False by (rewrite Z_mod_mult; intros Hd; by apply Hd).
  cbn [loaduvm_from]. rewrite decide_True by done. rewrite Z.add_0_r, u32_small by (rewrite HP; lia).
  assert (wp no_panic (walkpgdir (kp (as_dir A)) (n * PGSIZE) false) (λ p s', p = 0 ∧ s' = s) s) as Hwalk.
  { apply (wp_walkpgdir end_ L _ _ l A O); [done|rewrite HP; lia|]. rewrite En. unfold pte_ptr. by rewrite Htab. }
  unfold wp in Hwalk. unfold bind. destruct (walkpgdir _ _ false s) as [[p s']|e| |]; [|done..].
  destruct Hwalk as [-> ->]. by rewrite decide_True.
Qed.

(** C19. allocuvm does not look at what mappages returns: with one free page left
    and no page table for the new page, it takes the page, cannot map it, and
    still returns the new size.  The address space is as before, so the new
    page is not there; the page is lost to the free list; and loaduvm at that
    address, exec's next step, panics. *)
Theorem allocuvm_last_page {C} `{SyncLaws C} end_ L (s : kmem C) pa A O n :
  "kmem" ∉ L → pm end_ L s [pa] A O → 0 ≤ n → (n + 1) * PGSIZE < KERNBASE → as_tabs A !! (n / 1024) = None →
  wp no_panic (allocuvm end_ (kp (as_dir A)) (n * PGSIZE) ((n + 1) * PGSIZE)) (λ r s',
    r = (n + 1) * PGSIZE ∧ pm end_ L s' [] A (pa :: O) ∧
    (∀ va, 0 ≤ va < 2 ^ 32 → mmu (km_mem s') (as_dir A) va = mmu (km_mem s) (as_dir A) va) ∧
    (∀ va, n * PGSIZE ≤ va < (n + 1) * PGSIZE → mmu (km_mem s') (as_dir A) va = None) ∧
    (∀ readi off sz, 0 < sz →
       loaduvm readi (kp (as_dir A)) (n * PGSIZE) off sz s' = Panic "loaduvm: address should exist")) s.
Proof.
  intros HL [Hv Hu] Hn Htop Htab. pose proof PGSIZE_eq as HP. unfold KERNBASE in Htop. rewrite HP in Htop.
  assert (n * PGSIZE / PGSIZE = n) as En by (rewrite HP; apply Z.div_mul; lia).
  assert (as_map A !! n = None) as Hnone.
  { apply eq_None_not_Some. intros [w Hw]. destruct (ao_map _ _ _ (vm_as _ _ _ _ _ _ Hv) _ _ Hw) as ([t Et] & _). congruence. }
  unfold allocuvm. rewrite !decide_False by (unfold KERNBASE; rewrite HP; lia).
  rewrite PGROUNDUP_spec by (rewrite HP; lia).
  assert (pgs (n * PGSIZE) = n) as ->.
  { unfold pgs. replace (n * PGSIZE + PGSIZE - 1) with (PGSIZE - 1 + n * PGSIZE) by lia.
    rewrite Z.div_add by (rewrite HP; lia). rewrite Z.div_small by (rewrite HP; lia). lia. }
  assert (∃ f, Z.to_nat ((n + 1) * PGSIZE / PGSIZE + 1) = S f) as [f ->].
  { rewrite Z.div_mul by (rewrite HP; lia). exists (Z.to_nat (n + 1)). lia. }
  cbn [allocuvm_from]. rewrite decide_True by (rewrite HP; lia).
  apply wp_bind, (wp_kalloc end_ L HL _ _ _ [pa]); [apply Hv|done|].
  intros p l1 s1 Ep Hk1 Hm1 Hpa _. injection Ep as <- <-. rewrite decide_False by (apply kp_nonzero, Hpa).
  pose proof (vm_take _ _ _ _ _ _ _ _ Hv Hk1 Hm1) as Hv1.
  destruct (kok_pages _ _ _ _ Hk1 pa Hpa) as (x & Hx & Hxl).
  destruct (vm_other_not_frame _ _ _ _ _ _ pa Hv1) as [Hnf _]; [apply list_elem_of_here|].
  apply wp_bind, (wp_memset_page _ _ _ x); [apply Hpa|done..|]. set (s2 := set_km_mem _ s1).
  assert (vm end_ L s2 [] A (pa :: ufr A ++ O)) as Hv2 by (apply vm_insert; [done|apply not_elem_of_nil|done|apply full_replicate]).
  rewrite v2p_kp0 by apply Hpa.
  apply wp_bind, (wp_map_one end_ L HL _ s2 [] A (pa :: ufr A ++ O)); [done|lia|apply Hpa|apply WU_range|done| |].
  - intros s3 l3 A3 Hg Em _. exfalso. destruct (gr_new _ _ _ _ _ _ _ _ _ Hg) as (new & Enew & _).
    symmetry in Enew. apply app_nil in Enew as [_ ->]. pose proof (grew_nil _ _ _ _ _ _ _ Hg) as Et.
    destruct (ao_map _ _ _ (vm_as _ _ _ _ _ _ (gr_vm _ _ _ _ _ _ _ _ _ Hg)) n (entry pa (Z.lor PTE_W PTE_U))) as ([t Et'] & _).
    { by rewrite Em, lookup_insert_eq. }
    rewrite Et in Et'. congruence.
  - intros _ s3 A3 Hg Em. rewrite (u32_small (n * PGSIZE + PGSIZE)) by (rewrite HP; lia).
    rewrite decide_False by (rewrite HP; lia). apply wp_ret. split; [done|].
    assert (A3 = A) as ->.
    { pose proof (grew_nil _ _ _ _ _ _ _ Hg) as Et. pose proof (gr_dir _ _ _ _ _ _ _ _ _ Hg) as Ed.
      destruct A, A3. simpl in *. congruence. }
    pose proof (gr_vm _ _ _ _ _ _ _ _ _ Hg) as Hv3. pose proof (vm_as _ _ _ _ _ _ Hv3) as Hok3.
    split_and!.
    + split; [|done]. eapply vm_perm; [|exact Hv3]. solve_Permutation.
    + intros va Hva. by rewrite (mmu_spec end_ _ A va Hok3 Hva), (mmu_spec end_ _ A va (vm_as _ _ _ _ _ _ Hv) Hva).
    + intros va Hva. rewrite (mmu_spec end_ _ A va Hok3) by (rewrite HP in Hva; lia).
      replace (va / PGSIZE) with n; [by rewrite Hnone|]. rewrite HP in Hva |- *. apply (Z.div_unique va 4096 n (va - n * 4096)); lia.
    + intros readi off sz Hsz. apply (loaduvm_panics end_ L _ [] A (pa :: ufr A ++ O)); [done|lia|done|done].
Qed.

(** The machine with only the last page of its free list left. *)
Definition toy_last : kmem unit := set_km_freelist (kp (toy_first * PGSIZE)) toy_dir.
Lemma free_chain_last mem p l pa : chain mem p (l ++ [pa]) → chain mem (kp pa) [pa].
Proof.
  revert p. induction l as [|q l IH]; intros p; cbn [app].
  - intros (-> & f & Hf & Hc). split; [done|]. exists f. done.
  - intros (_ & f & _ & Hc). by eapply IH.
Qed.
Lemma toy_list_snoc : ∃ l, toy_list = l ++ [toy_first * PGSIZE].
Proof.
  unfold toy_list, run. change 1199 with (1 + 1198). rewrite seqZ_app by lia. rewrite fmap_app, reverse_app. eauto.
Qed.
Lemma pm_last {C} `{SyncLaws C} end_ L (s : kmem C) l pa A O :
  pm end_ L s (l ++ [pa]) A O → pm end_ L (set_km_freelist (kp pa) s) [pa] A O.
Proof.
  intros [[Hk Ha Hs] Hu]. split; [|done]. split; [|exact Ha|].
  - destruct Hk as [H1 H2 H3 H4 H5]. split; [exact H1|exact H2|by eapply free_chain_last| |apply NoDup_singleton].
    apply list.Forall_app in H4. apply H4.
  - eapply sublist_NoDup; [exact Hs|]. repeat apply sublist_app; try done. by apply sublist_inserts_l.
Qed.
Lemma toy_last_ok : pm toy_end [] toy_last [toy_first * PGSIZE] toy_space [].
Proof.
  destruct toy_list_snoc as [l El]. apply (pm_last _ _ _ l). rewrite <- El. exact toy_dir_ok.
Qed.

Lemma allocuvm_last_page_witness :
  wp no_panic (allocuvm toy_end (kp (as_dir toy_space)) (0 * PGSIZE) ((0 + 1) * PGSIZE)) (λ r s',
    r = (0 + 1) * PGSIZE ∧ mmu (km_mem s') (as_dir toy_space) 0 = None) toy_last.
Proof.
  pose proof PGSIZE_eq as HP.
  eapply wp_mono; [refine (allocuvm_last_page toy_end [] toy_last (toy_first * PGSIZE) toy_space [] 0
    (not_elem_of_nil _) toy_last_ok _ _ _)|].
  - lia.
  - unfold KERNBASE. rewrite HP. lia.
  - reflexivity.
  - intros r s' (Hr & _ & _ & Hn & _). split; [done|]. apply Hn. rewrite HP. lia.
Defined.
