(* ===== verification/VmOut.v ===== *)
(** * Memory: writing through a page table that is not the current one
    (uva2ka, clearpteu and copyout of vm.c) *)

From S2P Require Import Prelude CString ProcData Sync Words Vm VmPages VmSpace VmUser VmCopy VmThm.
Local Open Scope Z_scope.

Lemma lookup_splice_in (x : list Z) d l i :
  (d + length l ≤ length x)%nat → (d ≤ i < d + length l)%nat → splice x d l !! i = l !! (i - d)%nat.
Proof.
  intros Hl Hi. unfold splice. rewrite lookup_app_r by (rewrite length_take; lia).
  rewrite length_take, Nat.min_l by lia. by rewrite lookup_app_l by lia.
Qed.

Section out.
Context {C : Type} `{SyncLaws C} (end_ : Z) (L : list string).
Implicit Types (s : kmem C) (l O : list Z) (A : aspace).

Lemma ufr_inj s l A O i j w w' :
  pm end_ L s l A O → i < UPAGES → j < UPAGES → as_map A !! i = Some w → as_map A !! j = Some w' →
  PTE_ADDR w = PTE_ADDR w' → i = j.
Proof.
  intros [Hv _] Hi Hj Hw Hw' Ew. destruct (decide (i = j)) as [|Hne]; [done|]. exfalso.
  set (A' := set_as_map (delete i (as_map A)) A).
  assert (ufr A ≡ₚ PTE_ADDR w :: ufr A') as Huf.
  { rewrite (ufr_add A' A i w); [done| |lia|]; unfold A'; simpl; [by rewrite insert_delete_id|apply lookup_delete_eq]. }
  pose proof (vm_sep _ _ _ _ _ _ Hv) as Hs. rewrite Huf in Hs. simpl in Hs. apply list.NoDup_cons in Hs as [Hs _].
  apply Hs. do 2 (apply elem_of_app; left). apply elem_of_ufr. exists j, w'. split_and!; [done| |done].
  unfold A'. simpl. by rewrite lookup_delete_ne.
Qed.

(** A write into a user page, seen by the processor. *)
Lemma user_write s l A O va w x b :
  pm end_ L s l A O → 0 ≤ va < KERNBASE → as_map A !! (va / PGSIZE) = Some w →
  km_mem s !! PTE_ADDR w = Some x → full x → va mod PGSIZE + Z.of_nat (length b) ≤ PGSIZE →
  let s1 := set_km_mem (<[PTE_ADDR w := splice x (Z.to_nat (va mod PGSIZE)) b]> (km_mem s)) s in
  pm end_ L s1 l A O ∧
  ∀ a, 0 ≤ a < KERNBASE → byte_at (km_mem s1) (as_dir A) a =
    if decide (va ≤ a < va + Z.of_nat (length b)) then b !! Z.to_nat (a - va) else byte_at (km_mem s) (as_dir A) a.
Proof.
  intros Hp Hva Hw Hx Hl Hb s1. pose proof PGSIZE_eq as HP.
  assert (∀ a, 0 ≤ a → a < KERNBASE → a / PGSIZE < UPAGES) as Hpg.
  { intros a Ha1 Ha2. unfold UPAGES, KERNBASE in *. apply Z.div_lt_upper_bound; rewrite ?HP; lia. }
  assert (∀ a, a = PGSIZE * (a / PGSIZE) + a mod PGSIZE) as Hdm by (intros a; apply Z.div_mod; rewrite HP; lia).
  assert (∀ a, 0 ≤ a mod PGSIZE < PGSIZE) as Hmod by (intros a; apply Z.mod_pos_bound; rewrite HP; lia).
  pose proof (Hmod va) as Hva2. pose proof (Hdm va) as Hva3. unfold full in Hl.
  assert (Z.to_nat (va mod PGSIZE) + length b ≤ length x)%nat as Hfit by (rewrite Hl; lia).
  assert (PTE_ADDR w ∈ ufr A ++ O) as Hin.
  { apply elem_of_app. left. apply elem_of_ufr. exists (va / PGSIZE), w. split_and!; [apply Hpg; lia|done..]. }
  destruct (vm_other_not_frame _ _ _ _ _ _ _ (pm_vm _ _ _ _ _ _ Hp) Hin) as [Hnf Hnl].
  assert (pm end_ L s1 l A O) as Hp1.
  { destruct Hp as [Hv Hu]. split; [|done]. apply vm_insert; [done..|]. unfold full. by rewrite length_splice. }
  split; [done|]. intros a Ha.
  pose proof (vm_as _ _ _ _ _ _ (pm_vm _ _ _ _ _ _ Hp)) as Hok. pose proof (vm_as _ _ _ _ _ _ (pm_vm _ _ _ _ _ _ Hp1)) as Hok1.
  assert (0 ≤ a < 2 ^ 32) as Ha32 by (unfold KERNBASE in Ha; lia). pose proof (Hmod a) as Ha2. pose proof (Hdm a) as Ha3.
  destruct (as_map A !! (a / PGSIZE)) as [w'|] eqn:Hw'.
  - rewrite (byte_at_spec end_ _ A a w' Hok1 Ha32 Hw'), (byte_at_spec end_ _ A a w' Hok Ha32 Hw').
    destruct (decide (a / PGSIZE = va / PGSIZE)) as [Ep|Hne].
    + rewrite Ep in Hw'. replace w' with w by congruence. unfold s1. simpl. rewrite lookup_insert_eq, Hx. simpl.
      assert (a - va = a mod PGSIZE - va mod PGSIZE) as Ed by (rewrite Hva3, Ha3 at 1; rewrite Ep; lia).
      destruct (decide _) as [Hr|Hr].
      * rewrite lookup_splice_in by lia. f_equal. lia.
      * apply lookup_splice_out; [done|]. lia.
    + rewrite decide_False.
      * unfold s1. simpl. rewrite lookup_insert_ne; [done|]. intros Ew. apply Hne.
        eapply (ufr_inj s l A O _ _ w' w); [done|apply Hpg; lia|apply Hpg; lia|done..].
      * intros Hr. apply Hne. rewrite HP in *. apply Z.le_antisymm.
        -- apply Z.lt_succ_r, Z.div_lt_upper_bound; lia.
        -- apply Z.div_le_mono; lia.
  - rewrite decide_False.
    + unfold byte_at. by rewrite (mmu_spec end_ _ A a Hok1 Ha32), (mmu_spec end_ _ A a Hok Ha32), Hw'.
    + intros Hr. assert (a / PGSIZE = va / PGSIZE) as Ep; [|congruence]. rewrite HP in *. apply Z.le_antisymm.
      * apply Z.lt_succ_r, Z.div_lt_upper_bound; lia.
      * apply Z.div_le_mono; lia.
Qed.

(** The bytes [b] were written at [va]. *)
Definition wrote s s' A va (b : list Z) : Prop :=
  ∀ a, 0 ≤ a < KERNBASE → byte_at (km_mem s') (as_dir A) a =
    if decide (va ≤ a < va + Z.of_nat (length b)) then b !! Z.to_nat (a - va) else byte_at (km_mem s) (as_dir A) a.
Lemma user_wrote_nil s A va : wrote s s A va [].
Proof. intros a _. rewrite decide_False; [done|]. simpl. lia. Qed.
Lemma user_wrote_app s s1 s2 A va va' b b' :
  wrote s s1 A va b → wrote s1 s2 A va' b' → (b' = [] ∨ va' = va + Z.of_nat (length b)) → wrote s s2 A va (b ++ b').
Proof.
  intros H1 H2 Hb a Ha. rewrite (H2 a Ha), (H1 a Ha), length_app.
  destruct Hb as [->| ->].
  - rewrite app_nil_r. simpl. rewrite (decide_False (P := va' ≤ a < _)) by lia. by rewrite Nat.add_0_r.
  - repeat match goal with |- context [decide ?P] => destruct (decide P) end; try lia; [| |done].
    + rewrite lookup_app_r by lia. f_equal. lia.
    + by rewrite lookup_app_l by lia.
Qed.

Definition user_page A (j : Z) : Prop := ∃ w, as_map A !! j = Some w ∧ Z.land w PTE_U ≠ 0.
(** A page that is mapped, but not for the user: the guard page below the stack. *)
Definition guard_page A (j : Z) : Prop := ∃ w, as_map A !! j = Some w ∧ Z.land w PTE_U = 0.

Lemma wp_uva2ka E s l A O va w Q :
  vm end_ L s l A O → 0 ≤ va < 2 ^ 32 → as_map A !! (va / PGSIZE) = Some w →
  Q (if decide (Z.land w PTE_U = 0) then 0 else p2v (PTE_ADDR w)) s → wp E (uva2ka (kp (as_dir A)) va) Q s.
Proof.
  intros Hv Hva Hw HQ. destruct (ao_map _ _ _ (vm_as _ _ _ _ _ _ Hv) _ _ Hw) as (Htab & _ & Hodd).
  apply wp_bind, (wp_walkpgdir end_ L _ _ l A O); [done..|].
  apply wp_bind, (wp_get_pte end_ L _ _ l A O); [done..|]. rewrite Hw. simpl. rewrite land_P, Hodd.
  rewrite (decide_False (P := 1 = 0)) by done. destruct (decide _); by apply wp_ret.
Qed.

(** How many of [len] bytes from [va] lie below page [j]. *)
Definition below (va len j : Z) : Z := Z.max 0 (Z.min len (j * PGSIZE - va)).

Lemma wp_copyout_from E fuel l A O j : ∀ s va buf len Q,
  pm end_ L s l A O → 0 ≤ va → len = Z.of_nat (length buf) → va + len ≤ KERNBASE →
  (∀ i, va / PGSIZE ≤ i < j → user_page A i) → va / PGSIZE ≤ j → va + len ≤ j * PGSIZE ∨ guard_page A j →
  (0 < fuel)%nat → va mod PGSIZE + len ≤ (Z.of_nat fuel - 1) * PGSIZE →
  (∀ s', pm end_ L s' l A O → wrote s s' A va (take (Z.to_nat (below va len j)) buf) →
     (∀ q, q ∉ ufr A → km_mem s' !! q = km_mem s !! q) →
     Q (if decide (below va len j = len) then 0 else -1) s') →
  wp E (copyout_from fuel (kp (as_dir A)) va buf len) Q s.
Proof.
  pose proof PGSIZE_eq as HP.
  induction fuel as [|fuel IH]; intros s va buf len Q Hp Hva Hlen Htop Hus Hj Hstop Hf0 Hf HQ; [lia|].
  cbn [copyout_from]. destruct (decide (0 < len)) as [Hpos|Hz].
  2: { assert (below va len j = 0) as Eb by (unfold below; lia). rewrite Eb in HQ.
       rewrite (decide_True (P := 0 = len)) in HQ by lia. apply wp_ret, HQ; [done|apply user_wrote_nil|done]. }
  assert (va = PGSIZE * (va / PGSIZE) + va mod PGSIZE) as Hdm by (apply Z.div_mod; rewrite HP; lia).
  assert (0 ≤ va mod PGSIZE < PGSIZE) as Hmod by (apply Z.mod_pos_bound; rewrite HP; lia).
  assert (0 ≤ va / PGSIZE < UPAGES) as Hpg.
  { unfold UPAGES, KERNBASE in *. split; [apply Z.div_pos|apply Z.div_lt_upper_bound]; rewrite ?HP; lia. }
  rewrite PGROUNDDOWN_spec. set (i := va / PGSIZE) in *. set (o := va mod PGSIZE) in *.
  replace (va - (va - o)) with o by lia. replace (va - o) with (i * PGSIZE) by lia.
  assert (i * PGSIZE / PGSIZE = i) as Ei by (apply Z.div_mul; rewrite HP; lia).
  assert (∃ w, as_map A !! i = Some w) as [w Hw].
  { destruct (decide (i < j)) as [Hlt|Hge]; [destruct (Hus i) as (w & ? & _); [lia|eauto]|].
    assert (i = j) as Eij by lia. destruct Hstop as [Hs|(w & ? & _)]; [lia|rewrite Eij; eauto]. }
  apply wp_bind, (wp_uva2ka _ _ l A (ufr A ++ O) _ w); [apply Hp|unfold UPAGES in Hpg; rewrite HP; lia|by rewrite Ei|].
  destruct (decide (i < j)) as [Hlt|Hge].
  - destruct (Hus i) as (w1 & Hw1 & HU); [lia|]. replace w1 with w in HU by congruence.
    rewrite (decide_False (P := Z.land w PTE_U = 0)) by done.
    assert (PTE_ADDR w ∈ ufr A) as Hin by (apply elem_of_ufr; exists i, w; split_and!; [lia|done..]).
    assert (usable end_ (PTE_ADDR w)) as Hpa.
    { pose proof (pm_usable _ _ _ _ _ _ Hp) as Hu. rewrite list.Forall_forall in Hu. by apply Hu. }
    rewrite p2v_frame by apply Hpa. rewrite decide_False by (apply kp_nonzero, Hpa).
    set (n := Z.min (PGSIZE - o) len).
    destruct (kok_pages _ _ _ _ (vm_kok _ _ _ _ _ _ (pm_vm _ _ _ _ _ _ Hp)) _ Hpa) as (x & Hx & Hxl).
    assert (length (take (Z.to_nat n) buf) = Z.to_nat n) as Hln by (rewrite length_take; lia).
    destruct (user_write s l A O va w x (take (Z.to_nat n) buf)) as [Hp1 Hw1']; [done|lia|done|done|done|rewrite Hln; fold o; lia|].
    apply wp_bind, (wp_st_bytes _ _ o _ x); [apply Hpa|done|done|rewrite Hln; unfold full in Hxl; rewrite Hxl; lia|].
    set (s1 := set_km_mem _ s) in *.
    rewrite (u32_small (i * PGSIZE + PGSIZE)) by (unfold UPAGES in Hpg; rewrite HP; lia).
    replace (i * PGSIZE + PGSIZE) with ((i + 1) * PGSIZE) by lia.
    assert ((i + 1) * PGSIZE / PGSIZE = i + 1) as Ei1 by (apply Z.div_mul; rewrite HP; lia).
    assert ((i + 1) * PGSIZE mod PGSIZE = 0) as Em1 by apply Z_mod_mult.
    assert ((i + 1) * PGSIZE ≤ j * PGSIZE) as Hle by (rewrite HP; lia).
    assert (below va len j = n + below ((i + 1) * PGSIZE) (len - n) j) as Eb by (unfold below; lia).
    destruct (decide (len = n)) as [Eln|Hln2].
    { (* the last piece *)
      destruct fuel as [|fuel]; [rewrite HP in *; lia|]. cbn [copyout_from]. rewrite decide_False by lia.
      assert (below va len j = n) as Eb1 by (rewrite Eb; unfold below; lia). rewrite Eb1 in HQ.
      rewrite (decide_True (P := n = len)) in HQ by done. apply wp_ret, HQ; [done|done|].
      intros q Hq. unfold s1. simpl. apply lookup_insert_ne. intros <-. done. }
    assert (n = PGSIZE - o) as En by lia.
    apply (IH s1); rewrite ?Ei1, ?Em1; [done|lia|rewrite length_drop; lia|lia|intros i' Hi'; apply Hus; lia|lia| | | |].
    + destruct Hstop; [left; lia|by right].
    + destruct fuel; [rewrite HP in *; lia|lia].
    + rewrite HP in *. lia.
    + intros s' Hp' Hwr Hm'.
      assert ((if decide (below ((i + 1) * PGSIZE) (len - n) j = len - n) then 0 else -1) =
              (if decide (below va len j = len) then 0 else -1)) as ->.
      { rewrite Eb. repeat match goal with |- context [decide ?P] => destruct (decide P) end; lia. }
      apply HQ; [done| |].
      * rewrite Eb. replace (take (Z.to_nat (n + below ((i + 1) * PGSIZE) (len - n) j)) buf)
          with (take (Z.to_nat n) buf ++ take (Z.to_nat (below ((i + 1) * PGSIZE) (len - n) j)) (drop (Z.to_nat n) buf)).
        -- eapply user_wrote_app; [exact Hw1'|exact Hwr|]. right. rewrite Hln. lia.
        -- rewrite Z2Nat.inj_add by (unfold below; lia). apply take_take_drop.
      * intros q Hq. rewrite Hm' by done. unfold s1. simpl. apply lookup_insert_ne. intros <-. done.
  - assert (i = j) as Eij by lia. destruct Hstop as [Hs|(w1 & Hw1 & HU)]; [lia|].
    rewrite <- Eij in Hw1. replace w1 with w in HU by congruence. rewrite (decide_True (P := Z.land w PTE_U = 0)), (decide_True (P := 0 = 0)) by done.
    assert (below va len j = 0) as Eb by (unfold below; rewrite <- Eij; lia). rewrite Eb in HQ.
    rewrite (decide_False (P := 0 = len)) in HQ by lia. apply wp_ret, HQ; [done|apply user_wrote_nil|done].
Qed.

Lemma ldiff_U w : 0 ≤ w < 2 ^ 32 → w mod 2 = 1 →
  0 ≤ Z.ldiff w PTE_U < 2 ^ 32 ∧ Z.ldiff w PTE_U mod 2 = 1 ∧ Z.land (Z.ldiff w PTE_U) PTE_U = 0 ∧
  PTE_ADDR (Z.ldiff w PTE_U) = PTE_ADDR w.
Proof.
  intros Hw Ho. split_and!.
  - apply Z.ldiff_nonneg. lia.
  - enough (0 ≤ Z.ldiff w PTE_U ≤ w) by lia. apply Z.ldiff_le; [lia|].
    apply Z.bits_inj'. intros n _. rewrite !Z.ldiff_spec, Z.bits_0. by destruct (Z.testbit w n), (Z.testbit PTE_U n).
  - rewrite <- Ho, <- !land_P. unfold PTE_P, PTE_U. apply Z.bits_inj'. intros n Hn.
    rewrite !Z.land_spec, Z.ldiff_spec.
    destruct (decide (n = 0)) as [->|Hne]; [by rewrite andb_true_r|].
    rewrite (Z.bits_above_log2 1 n) by (simpl; lia). by rewrite !andb_false_r.
  - apply Z.land_ldiff.
  - unfold PTE_ADDR. apply Z.bits_inj'. intros n Hn. rewrite !Z.ldiff_spec. unfold PTE_U.
    destruct (decide (n = 2)) as [->|Hne]; [by rewrite !andb_false_r|].
    destruct (decide (n < 2)).
    + assert (n = 0 ∨ n = 1) as [-> | ->] by lia; by rewrite !andb_true_r.
    + rewrite (Z.bits_above_log2 4 n) by (simpl; lia). by rewrite !andb_true_r.
Qed.

(** The address space with page [j] hidden from the user. *)
Definition hidden A (j w : Z) : aspace := set_as_map (<[j := Z.ldiff w PTE_U]> (as_map A)) A.
Lemma hidden_ufr A j w :
  j < UPAGES → as_map A !! j = Some w → 0 ≤ w < 2 ^ 32 → w mod 2 = 1 → ufr (hidden A j w) ≡ₚ ufr A.
Proof.
  intros Hj Hw Hr Ho. set (A' := set_as_map (delete j (as_map A)) A).
  rewrite (ufr_add A' (hidden A j w) j (Z.ldiff w PTE_U)).
  - rewrite (ufr_add A' A j w); [|by unfold A'; simpl; rewrite insert_delete_id|done|apply lookup_delete_eq].
    by rewrite (proj2 (proj2 (proj2 (ldiff_U w Hr Ho)))).
  - unfold A', hidden. simpl. by rewrite insert_delete_eq.
  - done.
  - apply lookup_delete_eq.
Qed.

Lemma wp_clearpteu E s l A O j w Q :
  pm end_ L s l A O → 0 ≤ j < UPAGES → as_map A !! j = Some w →
  (∀ s', pm end_ L s' l (hidden A j w) O → (∀ q, q ∉ frames A → km_mem s' !! q = km_mem s !! q) → Q tt s') →
  wp E (clearpteu (kp (as_dir A)) (j * PGSIZE)) Q s.
Proof.
  intros [Hv Hu] Hj Hw HQ. pose proof PGSIZE_eq as HP.
  assert (j * PGSIZE / PGSIZE = j) as Ej by (apply Z.div_mul; rewrite HP; lia).
  destruct (ao_map _ _ _ (vm_as _ _ _ _ _ _ Hv) _ _ Hw) as ([t Ht] & Hr & Ho).
  destruct (ldiff_U w Hr Ho) as (Hr' & Ho' & _ & Ea).
  apply wp_bind, (wp_walkpgdir end_ L _ _ l A (ufr A ++ O)); [done|unfold UPAGES in Hj; rewrite HP; lia|]. rewrite Ej.
  rewrite decide_False by (eapply pte_ptr_nonzero; eauto).
  apply wp_bind, (wp_get_pte end_ L _ _ l A (ufr A ++ O)); [done|eauto|]. rewrite Hw. simpl.
  apply (wp_set_pte end_ L _ _ l A (ufr A ++ O) j t); [done|done|done|by right|]. intros s' Hv' Hm'.
  pose proof (hidden_ufr A j w ltac:(lia) Hw Hr Ho) as Huf.
  assert (set_entry j (Z.ldiff w PTE_U) (as_map A) = <[j := Z.ldiff w PTE_U]> (as_map A)) as Es.
  { unfold set_entry. rewrite decide_False; [done|]. intros E0. by rewrite E0 in Ho'. }
  rewrite Es in Hv'. apply HQ.
  - split; [|by rewrite Huf]. eapply vm_perm; [|exact Hv']. by rewrite Huf.
  - intros q Hq. apply Hm'. intros ->. apply Hq, elem_of_frames. eauto.
Qed.

(** Hiding a page changes no byte. *)
Lemma hidden_bytes s s' l A O j w a :
  pm end_ L s l A O → 0 ≤ j < UPAGES → as_map A !! j = Some w → pm end_ L s' l (hidden A j w) O →
  (∀ q, q ∉ frames A → km_mem s' !! q = km_mem s !! q) → 0 ≤ a < KERNBASE →
  byte_at (km_mem s') (as_dir A) a = byte_at (km_mem s) (as_dir A) a.
Proof.
  intros Hp Hj Hw Hp' Hm Ha. assert (0 ≤ a < 2 ^ 32) as Ha32 by (unfold KERNBASE in Ha; lia).
  pose proof (vm_as _ _ _ _ _ _ (pm_vm _ _ _ _ _ _ Hp)) as Hok. pose proof (vm_as _ _ _ _ _ _ (pm_vm _ _ _ _ _ _ Hp')) as Hok'.
  destruct (ao_map _ _ _ Hok _ _ Hw) as (_ & Hr & Ho). destruct (ldiff_U w Hr Ho) as (_ & _ & _ & Ea).
  assert (∀ w', as_map A !! (a / PGSIZE) = Some w' → km_mem s' !! PTE_ADDR w' = km_mem s !! PTE_ADDR w') as Hpg.
  { intros w' Hw'. apply Hm.
    destruct (vm_other_not_frame _ _ _ _ _ _ (PTE_ADDR w') (pm_vm _ _ _ _ _ _ Hp)) as [Hnf _]; [|done].
    apply elem_of_app. left. apply elem_of_ufr. exists (a / PGSIZE), w'. split_and!; [|done..].
    unfold UPAGES, KERNBASE in *. apply Z.div_lt_upper_bound; rewrite PGSIZE_eq; lia. }
  change (as_dir A) with (as_dir (hidden A j w)) at 1.
  destruct (as_map A !! (a / PGSIZE)) as [w'|] eqn:Hw'.
  - rewrite (byte_at_spec end_ _ A a w' Hok Ha32 Hw').
    destruct (decide (a / PGSIZE = j)) as [Ej|Hne].
    + rewrite (byte_at_spec end_ _ (hidden A j w) a (Z.ldiff w PTE_U) Hok' Ha32) by (simpl; by rewrite Ej, lookup_insert_eq).
      rewrite Ej in Hw'. replace w' with w in * by congruence. by rewrite Ea, Hpg.
    + rewrite (byte_at_spec end_ _ (hidden A j w) a w' Hok' Ha32) by (simpl; by rewrite lookup_insert_ne).
      by rewrite Hpg.
  - unfold byte_at. rewrite (mmu_spec end_ _ A a Hok Ha32), (mmu_spec end_ _ (hidden A j w) a Hok' Ha32). simpl.
    rewrite lookup_insert_ne by congruence. by rewrite Hw'.
Qed.
End out.

(** C11. copyout writes exactly its bytes into another process's memory: the bytes
    that lie below page [j], where the pages before [j] are the user's and [j] is
    either past the end or not the user's, are what the processor then reads
    there; no other user byte and no other page changes; it returns 0 when they
    were all of them and -1 otherwise.  clearpteu, which makes exec's guard page,
    turns a page into one that stops copyout and changes no byte. *)
Theorem copyout_exact {C} `{SyncLaws C} end_ L (s : kmem C) l A O va buf len j :
  pm end_ L s l A O → 0 ≤ va → len = Z.of_nat (length buf) → va + len ≤ KERNBASE → va / PGSIZE ≤ j < UPAGES →
  (∀ i, va / PGSIZE ≤ i < j → user_page A i) →
  (va + len ≤ j * PGSIZE ∨ guard_page A j →
   wp no_panic (copyout (kp (as_dir A)) va buf len) (λ r s',
     pm end_ L s' l A O ∧ (∀ q, q ∉ ufr A → km_mem s' !! q = km_mem s !! q) ∧
     r = (if decide (below va len j = len) then 0 else -1) ∧
     ∀ a, 0 ≤ a < KERNBASE → byte_at (km_mem s') (as_dir A) a =
       if decide (va ≤ a < va + below va len j) then buf !! Z.to_nat (a - va)
       else byte_at (km_mem s) (as_dir A) a) s) ∧
  (∀ w, as_map A !! j = Some w →
   wp no_panic (clearpteu (kp (as_dir A)) (j * PGSIZE)) (λ _ s', ∃ A',
     pm end_ L s' l A' O ∧ as_dir A' = as_dir A ∧ guard_page A' j ∧ (∀ i, i ≠ j → as_map A' !! i = as_map A !! i) ∧
     ∀ a, 0 ≤ a < KERNBASE → byte_at (km_mem s') (as_dir A) a = byte_at (km_mem s) (as_dir A) a) s).
Proof.
  intros Hp Hva Hlen Htop Hj Hus. pose proof PGSIZE_eq as HP. split.
  - intros Hstop. unfold copyout. apply (wp_copyout_from end_ L _ _ l A O j s); [done|done|done|done|done|lia|done|lia| |].
    + pose proof (Z.mod_pos_bound va PGSIZE ltac:(rewrite HP; lia)).
      pose proof (Z.div_mod len PGSIZE ltac:(rewrite HP; lia)). pose proof (Z.mod_pos_bound len PGSIZE ltac:(rewrite HP; lia)).
      assert (0 ≤ len / PGSIZE) by (apply Z.div_pos; rewrite ?HP; lia). rewrite HP in *. lia.
    + intros s' Hp' Hwr Hm. split_and!; [done|done|done|]. intros a Ha. rewrite (Hwr a Ha), length_take.
      assert (0 ≤ below va len j ≤ len) as Hb by (unfold below; lia).
      rewrite Nat.min_l, Z2Nat.id by lia. destruct (decide _); [|done]. apply lookup_take_lt. lia.
  - intros w Hw. assert (0 ≤ va / PGSIZE) by (apply Z.div_pos; rewrite ?HP; lia).
    apply (wp_clearpteu end_ L _ s l A O j w); [done|lia|done|]. intros s' Hp' Hm. exists (hidden A j w).
    destruct (ao_map _ _ _ (vm_as _ _ _ _ _ _ (pm_vm _ _ _ _ _ _ Hp)) _ _ Hw) as (_ & Hr & Ho).
    split_and!; [done|done| | |].
    + exists (Z.ldiff w PTE_U). split; [apply lookup_insert_eq|by apply ldiff_U].
    + intros i Hi. by apply lookup_insert_ne.
    + intros a Ha. by eapply hidden_bytes; [..|exact Ha]; [exact Hp| |exact Hw|exact Hp'|]; [lia|].
Qed.

Lemma entry_U pa : Z.land (entry pa (Z.lor PTE_W PTE_U)) PTE_U ≠ 0.
Proof.
  intros E0. assert (Z.testbit (Z.land (entry pa (Z.lor PTE_W PTE_U)) PTE_U) 2 = false) as E1 by (by rewrite E0, Z.bits_0).
  unfold entry in E1. rewrite Z.land_spec, !Z.lor_spec in E1. simpl in E1. by rewrite !orb_true_r in E1.
Qed.

Lemma copyout_exact_witness :
  wp no_panic (copyout (kp (as_dir toy_space)) 4000 (replicate 200 7) 200) (λ r s',
    r = 0 ∧ byte_at (km_mem s') (as_dir toy_space) 4100 = Some 7) toy_user.
Proof.
  pose proof PGSIZE_eq as HP. destruct toy_user_ok as (l & P & Hp & Hz & Hd & Hent & _). rewrite <- Hd.
  assert (4000 / PGSIZE = 0) as E0 by (rewrite HP; reflexivity).
  assert (below 4000 200 2 = 200) as Eb by (unfold below; rewrite HP; reflexivity).
  eapply wp_mono; [refine (proj1 (copyout_exact toy_end [] toy_user l P [] 4000 (replicate 200 7) 200 2 Hp _ _ _ _ _) _)|].
  - lia.
  - reflexivity.
  - unfold KERNBASE. lia.
  - rewrite E0. unfold UPAGES. lia.
  - rewrite E0. intros i Hi. destruct (Hent i) as [pa Hpa]; [lia|]. eexists. split; [exact Hpa|apply entry_U].
  - left. rewrite HP. lia.
  - intros r s' (_ & _ & Hr & Hb). rewrite Eb in *. rewrite decide_True in Hr by done. split; [exact Hr|].
    rewrite Hb by (unfold KERNBASE; lia). rewrite decide_True by lia. reflexivity.
Defined.
