(* ===== verification/Exec.v ===== *)
(** * exec (exec.c, elf.h)

    The state is physical memory with its allocator ([Vm]) and the process that
    calls exec.  The rest of the kernel is the world of the allocator's locks;
    the file system is a part of it, reached through the class [ExecFs], whose
    operations are those of fs.c and log.c.  An argument is the bytes from its
    pointer on.  [junk] is what the stack holds where the header is read to. *)

From S2P Require Import Prelude CString ProcData Sync Words Fs Vm.
Local Open Scope Z_scope.

(** The file system, as exec uses it. *)
Class ExecFs (C : Type) := {
  x_begin_op : M C unit;
  x_end_op : M C unit;
  x_namei : list Z → M C (option nat);
  x_ilock : nat → M C unit;
  x_stati : nat → M C stat;
  x_readi : nat → Z → Z → M C (Z * list Z);
  x_iunlockput : nat → M C unit
}.

(** elf.h: the fields that exec reads *)
Definition ELF_MAGIC : Z := 0x464C457F.
Definition ELF_PROG_LOAD : Z := 1.
Record elfhdr := mkelf { elf_magic : Z; elf_entry : Z; elf_phoff : Z; elf_phnum : Z }.
Definition SIZEOF_ELFHDR : Z := 52.
Definition get_elfhdr (x : list Z) : option elfhdr :=
  magic ← get_word x 0; entry ← get_word x 24; phoff ← get_word x 28; phnum ← get_half x 44;
  Some (mkelf magic entry phoff phnum).
Record proghdr := mkph { ph_type : Z; ph_off : Z; ph_vaddr : Z; ph_filesz : Z; ph_memsz : Z }.
Definition SIZEOF_PROGHDR : Z := 32.
Definition get_proghdr (x : list Z) : option proghdr :=
  type ← get_word x 0; off ← get_word x 4; vaddr ← get_word x 8; filesz ← get_word x 16; memsz ← get_word x 20;
  Some (mkph type off vaddr filesz memsz).

Definition MAXARG : Z := 32.
(** The bits of the file mode. *)
Definition o_x (m : Z) : bool := Z.testbit m 0.
Definition g_x (m : Z) : bool := Z.testbit m 3.
Definition u_x (m : Z) : bool := Z.testbit m 6.
Definition setuid_bit (m : Z) : bool := Z.testbit m 9.

(** The permission check. *)
Definition may_exec (st : stat) (p : proc) : bool :=
  if decide (st_uid st = p_uid p ∧ u_x (st_mode st) = true) then true
  else if decide (st_gid st = p_gid p ∧ g_x (st_mode st) = true) then true
  else o_x (st_mode st).

(** The last element of a path. *)
Fixpoint last_elem (last s : list Z) : option (list Z) :=
  match s with
  | [] => None
  | c :: s' => if decide (c = 0) then Some last else last_elem (if decide (c = 47) then s' else last) s'
  end.

(** Memory, the process, and the page directory the processor uses. *)
Record xstate (C : Type) := mkx { x_km : kmem C; x_proc : proc; x_cr3 : Z }.
Arguments mkx {C}.
Arguments x_km {C}.
Arguments x_proc {C}.
Arguments x_cr3 {C}.
Definition set_x_km {C} (k : kmem C) (s : xstate C) : xstate C := mkx k (x_proc s) (x_cr3 s).
Definition set_x_proc {C} (p : proc) (s : xstate C) : xstate C := mkx (x_km s) p (x_cr3 s).
Definition set_x_cr3 {C} (a : Z) (s : xstate C) : xstate C := mkx (x_km s) (x_proc s) a.

Section exec.
Context {C : Type} `{Sync C} `{ExecFs C} (end_ data : Z) (junk : list Z).
Abbreviation X := (M (xstate C)).

Definition vm_ {A} (m : M (kmem C) A) : X A := zoom x_km set_x_km m.
Definition fs_ {A} (m : M C A) : X A := vm_ (kworld m).
(** readi of loaduvm: the bytes that were read. *)
Definition file_bytes (ip : nat) (off n : Z) : M (kmem C) (list Z) :=
  let! r := kworld (x_readi ip off n) in ret r.2.

(** The loop over the program headers: [None] is the jump to bad. *)
Fixpoint load_segments (n : nat) (ip : nat) (pgdir off sz : Z) : X (option Z) :=
  match n with
  | O => ret (Some sz)
  | S n' =>
      let! r := fs_ (x_readi ip (u32 off) SIZEOF_PROGHDR) in
      if decide (r.1 ≠ SIZEOF_PROGHDR) then ret None
      else
        let! ph := of_opt (get_proghdr r.2) in
        if decide (ph_type ph ≠ ELF_PROG_LOAD) then load_segments n' ip pgdir (off + SIZEOF_PROGHDR) sz
        else if decide (ph_memsz ph < ph_filesz ph) then ret None
        else
          let! sz := vm_ (allocuvm end_ pgdir sz (u32 (ph_vaddr ph + ph_memsz ph))) in
          if decide (sz = 0) then ret None
          else
            let! q := vm_ (loaduvm (file_bytes ip) pgdir (ph_vaddr ph) (ph_off ph) (ph_filesz ph)) in
            if decide (q < 0) then ret None
            else load_segments n' ip pgdir (off + SIZEOF_PROGHDR) sz
  end.

(** The loop over the arguments: the stack pointer and the pointers of ustack. *)
Fixpoint push_args (argv : list (list Z)) (pgdir argc sp : Z) (ustack : list Z) : X (option (Z * list Z)) :=
  match argv with
  | [] => ret (Some (sp, ustack))
  | a :: argv' =>
      if decide (MAXARG ≤ argc) then ret None
      else
        let! n := of_opt (strlen a) in
        let sp := Z.ldiff (u32 (sp - (Z.of_nat n + 1))) 3 in
        let! r := vm_ (copyout pgdir sp (take (S n) a) (Z.of_nat n + 1)) in
        if decide (r < 0) then ret None
        else push_args argv' pgdir (argc + 1) sp (ustack ++ [sp])
  end.

(** bad: [ip] while the file is still locked *)
Definition exec_bad (pgdir : Z) (ip : option nat) : X Z :=
  (if decide (pgdir ≠ 0) then vm_ (freevm end_ pgdir) else skip) ;;;
  match ip with
  | Some i => fs_ (x_iunlockput i) ;;; fs_ x_end_op ;;; ret (-1)
  | None => ret (-1)
  end.

(** switchuvm: the task segment is not part of the state, and popcli restores
    what pushcli changes. *)
Definition switchuvm_x : X unit :=
  let! p := gets x_proc in
  if decide (p_pgdir p = 0) then panic "switchuvm: no pgdir" else modS (set_x_cr3 (v2p (p_pgdir p))).

(** The stack: its two pages, the arguments and the words above them.  The size
    and the stack pointer, or the jump to bad. *)
Definition exec_stack (argv : list (list Z)) (pgdir sz : Z) : X (option (Z * Z)) :=
  let sz := PGROUNDUP sz in
  let! sz := vm_ (allocuvm end_ pgdir sz (u32 (sz + 2 * PGSIZE))) in
  if decide (sz = 0) then ret None
  else
    vm_ (clearpteu pgdir (u32 (sz - 2 * PGSIZE))) ;;;
    let! r := push_args argv pgdir 0 sz [] in
    match r with
    | None => ret None
    | Some (sp, args) =>
        let argc := Z.of_nat (length args) in
        let ustack := [0xffffffff; argc; u32 (sp - (argc + 1) * 4)] ++ args ++ [0] in
        let sp := u32 (sp - (3 + argc + 1) * 4) in
        let! q := vm_ (copyout pgdir sp (concat (le_split 4 <$> ustack)) ((3 + argc + 1) * 4)) in
        if decide (q < 0) then ret None else ret (Some (sz, sp))
    end.

(** The commitment to the new image. *)
Definition exec_commit (path : list Z) (st : stat) (elf : elfhdr) (pgdir sz sp : Z) : X Z :=
  let! last := of_opt (last_elem path path) in
  let! p := gets x_proc in
  let! name := of_opt (safestrcpy (p_name p) last 16) in
  let oldpgdir := p_pgdir p in
  let p := set_p_sz sz (set_p_pgdir pgdir (set_p_name name p)) in
  let f := p_frame p in
  let f := mktf (tf_eax f) (tf_cs f) (tf_ds f) (tf_es f) (tf_ss f) (tf_eflags f) sp (elf_entry elf) in
  let p := set_p_frame f p in
  let p := if setuid_bit (st_mode st) then set_p_uid (st_uid st) p else p in
  modS (set_x_proc p) ;;;
  switchuvm_x ;;;
  vm_ (freevm end_ oldpgdir) ;;;
  ret 0.

(** From the check of the header on. *)
Definition exec_run (path : list Z) (argv : list (list Z)) (i : nat) (st : stat) (elf : elfhdr) : X Z :=
  let! pgdir := vm_ (setupkvm data) in
  if decide (pgdir = 0) then exec_bad 0 (Some i)
  else
    let! sz := load_segments (Z.to_nat (elf_phnum elf)) i pgdir (elf_phoff elf) 0 in
    match sz with
    | None => exec_bad pgdir (Some i)
    | Some sz =>
        fs_ (x_iunlockput i) ;;;
        fs_ x_end_op ;;;
        let! r := exec_stack argv pgdir sz in
        match r with
        | None => exec_bad pgdir None
        | Some (sz, sp) => exec_commit path st elf pgdir sz sp
        end
    end.

Definition exec (path : list Z) (argv : list (list Z)) : X Z :=
  fs_ x_begin_op ;;;
  let! ip := fs_ (x_namei path) in
  match ip with
  | None => fs_ x_end_op ;;; ret (-1)
  | Some i =>
      fs_ (x_ilock i) ;;;
      let! st := fs_ (x_stati i) in
      let! p := gets x_proc in
      if may_exec st p then
        let! r := fs_ (x_readi i 0 SIZEOF_ELFHDR) in
        if decide (u32 r.1 < SIZEOF_ELFHDR) then exec_bad 0 (Some i)
        else
          let! elf := of_opt (get_elfhdr (r.2 ++ drop (length r.2) junk)) in
          if decide (elf_magic elf ≠ ELF_MAGIC) then exec_bad 0 (Some i)
          else exec_run path argv i st elf
      else exec_bad 0 (Some i)
  end.
End exec.
