(* ===== verification/ExecVm.v ===== *)
(** * exec: what the file system promises, and loading a segment *)

From S2P Require Import Prelude CString ProcData Sync Words Fs Vm VmPages VmSpace VmUser VmCopy VmThm VmOut Exec.
Local Open Scope Z_scope.

(** ** The interface of the file system *)

(** The program file: its path, inode, contents and status. *)
Record progfile := mkprog { pf_path : list Z; pf_ino : nat; pf_data : list Z; pf_stat : stat }.
(** Outside a transaction; inside; with the inode found; with the inode locked. *)
Inductive phase := Idle | InOp | Found | Locked.

(** What readi returns for a file with the contents [data]. *)
Definition file_read (data : list Z) (off n : Z) : Z * list Z :=
  if decide (Z.of_nat (length data) < off) then (-1, [])
  else let n := Z.min n (Z.of_nat (length data) - off) in (n, take (Z.to_nat n) (drop (Z.to_nat off) data)).

(** [fs_at f ph]: the kernel with the file system in phase [ph] on file [f]. *)
Class ExecFsLaws (C : Type) `{Sync C} `{ExecFs C} := {
  fs_at : progfile → phase → SyncLaws C;
  begin_op_law f E w Q : @holds _ _ (fs_at f Idle) [] w →
    (∀ w', @holds _ _ (fs_at f InOp) [] w' → Q tt w') → wp E x_begin_op Q w;
  namei_law f E w Q : @holds _ _ (fs_at f InOp) [] w →
    (∀ w', @holds _ _ (fs_at f Found) [] w' → Q (Some (pf_ino f)) w') → wp E (x_namei (pf_path f)) Q w;
  ilock_law f E w Q : @holds _ _ (fs_at f Found) [] w →
    (∀ w', @holds _ _ (fs_at f Locked) [] w' → Q tt w') → wp E (x_ilock (pf_ino f)) Q w;
  stati_law f E w Q : @holds _ _ (fs_at f Locked) [] w →
    (∀ w', @holds _ _ (fs_at f Locked) [] w' → Q (pf_stat f) w') → wp E (x_stati (pf_ino f)) Q w;
  readi_law f E off n w Q : @holds _ _ (fs_at f Locked) [] w → 0 ≤ off → 0 ≤ n → off + n < 2 ^ 32 →
    (∀ w', @holds _ _ (fs_at f Locked) [] w' → Q (file_read (pf_data f) off n) w') → wp E (x_readi (pf_ino f) off n) Q w;
  iunlockput_law f E w Q : @holds _ _ (fs_at f Locked) [] w →
    (∀ w', @holds _ _ (fs_at f InOp) [] w' → Q tt w') → wp E (x_iunlockput (pf_ino f)) Q w;
  end_op_law f E w Q : @holds _ _ (fs_at f InOp) [] w →
    (∀ w', @holds _ _ (fs_at f Idle) [] w' → Q tt w') → wp E x_end_op Q w
}.

(** The address spaces do not depend on the world. *)
Lemma pm_world {C} `{Sync C} (S1 S2 : SyncLaws C) end_ L (s : kmem C) l A O w :
  @pm C _ S1 end_ L s l A O → @holds _ _ S2 L w → @pm C _ S2 end_ L (set_km_world w s) l A O.
Proof.
  intros [[[_ H2 H3 H4 H5] Ha Hs] Hu] Hw. split; [|done]. split; [|done|done]. split; done.
Qed.
Lemma kok_world {C} `{Sync C} (S1 S2 : SyncLaws C) end_ L (s : kmem C) l w :
  @kok C _ S1 end_ L s l → @holds _ _ S2 L w → @kok C _ S2 end_ L (set_km_world w s) l.
Proof. intros [_ H2 H3 H4 H5] Hw. by split. Qed.

(** ** loaduvm *)
Section load.
Context {C : Type} `{SyncLaws C} `{ExecFs C} (end_ : Z) (L : list string) (ip : nat) (data : list Z).
Context (E : string → Prop).
Hypothesis readi_ok : ∀ w off n Q, holds L w → 0 ≤ off → 0 ≤ n → off + n < 2 ^ 32 →
  (∀ w', holds L w' → Q (file_read data off n) w') → wp E (x_readi ip off n) Q w.
Implicit Types (s : kmem C) (l O : list Z) (A : aspace).

Lemma file_read_full off n : 0 ≤ off → 0 ≤ n → off + n ≤ Z.of_nat (length data) →
  file_read data off n = (n, take (Z.to_nat n) (drop (Z.to_nat off) data)).
Proof. intros. unfold file_read. rewrite decide_False by lia. by rewrite Z.min_l by lia. Qed.

Lemma wp_loaduvm_from fuel l A O va foff sz : ∀ s k Q,
  pm end_ L s l A O → 0 ≤ k → 0 ≤ va → va mod PGSIZE = 0 → 0 ≤ sz → va + sz ≤ KERNBASE →
  (∀ i, va / PGSIZE ≤ i → i * PGSIZE < va + sz → is_Some (as_map A !! i)) →
  0 ≤ foff → foff + sz ≤ Z.of_nat (length data) → foff + sz < 2 ^ 32 - PGSIZE → sz ≤ (k + Z.of_nat fuel - 1) * PGSIZE → (0 < fuel)%nat →
  (∀ s', pm end_ L s' l A O → (∀ q, q ∉ ufr A → km_mem s' !! q = km_mem s !! q) →
     wrote s s' A (va + k * PGSIZE) (take (Z.to_nat (sz - k * PGSIZE)) (drop (Z.to_nat (foff + k * PGSIZE)) data)) → Q 0 s') →
  wp E (loaduvm_from fuel (file_bytes ip) (kp (as_dir A)) va foff sz (k * PGSIZE)) Q s.
Proof.
  pose proof PGSIZE_eq as HP. induction fuel as [|fuel IH]; intros s k Q Hp Hk Hva Hal Hsz Htop Hmap Hf0 Hf1 Hf2 Hfuel Hpos HQ; [lia|].
  cbn [loaduvm_from]. destruct (decide (k * PGSIZE < sz)) as [Hlt|Hge].
  2: { apply wp_ret, HQ; [done|done|]. replace (Z.to_nat (sz - k * PGSIZE)) with 0%nat by lia. rewrite take_0. apply user_wrote_nil. }
  assert (va = va / PGSIZE * PGSIZE) as Eva by (rewrite (Z.div_mod va PGSIZE) at 1 by (rewrite HP; lia); lia).
  set (j := va / PGSIZE) in *. assert (va + k * PGSIZE = (j + k) * PGSIZE) as Ea by lia.
  assert (0 ≤ j) as Hj0 by (apply Z.div_pos; rewrite ?HP; lia).
  assert ((j + k) * PGSIZE / PGSIZE = j + k) as Ej by (apply Z.div_mul; rewrite HP; lia).
  assert ((j + k) * PGSIZE mod PGSIZE = 0) as Em by apply Z_mod_mult.
  unfold KERNBASE in Htop. rewrite (u32_small (va + k * PGSIZE)) by lia. rewrite Ea.
  destruct (Hmap (j + k)) as [w Hw]; [lia|lia|].
  destruct (ao_map _ _ _ (vm_as _ _ _ _ _ _ (pm_vm _ _ _ _ _ _ Hp)) _ _ Hw) as (Htab & _ & _).
  apply wp_bind, (wp_walkpgdir end_ L _ _ l A (ufr A ++ O)); [apply Hp|rewrite <- Ea; lia|]. rewrite Ej.
  rewrite decide_False by (eapply pte_ptr_nonzero; [apply Hp|done]).
  apply wp_bind, (wp_get_pte end_ L _ _ l A (ufr A ++ O)); [apply Hp|done|]. rewrite Hw. cbn [default from_option id].
  set (n := if decide (sz - k * PGSIZE < PGSIZE) then sz - k * PGSIZE else PGSIZE).
  assert (0 < n ≤ PGSIZE ∧ n ≤ sz - k * PGSIZE) as [Hn1 Hn2] by (unfold n; destruct (decide _); rewrite HP in *; lia).
  rewrite (u32_small (foff + k * PGSIZE)) by (rewrite HP in *; lia).
  apply wp_bind, wp_bind, wp_zoom, readi_ok; [apply Hp|lia|lia|rewrite HP in *; lia|]. intros w' Hw'.
  rewrite file_read_full by lia. apply wp_ret. cbn [snd].
  set (got := take (Z.to_nat n) (drop (Z.to_nat (foff + k * PGSIZE)) data)).
  assert (length got = Z.to_nat n) as Hgl by (unfold got; rewrite length_take, length_drop; lia).
  pose proof (pm_world _ _ end_ L s l A O w' Hp Hw') as Hp1. set (s1 := set_km_world w' s) in *.
  assert (j + k < UPAGES) as Hju by (unfold UPAGES; rewrite HP in *; lia).
  assert (PTE_ADDR w ∈ ufr A) as Hin by (apply elem_of_ufr; exists (j + k), w; done).
  assert (usable end_ (PTE_ADDR w)) as Hpa.
  { pose proof (pm_usable _ _ _ _ _ _ Hp) as Hu. rewrite list.Forall_forall in Hu. by apply Hu. }
  destruct (kok_pages _ _ _ _ (vm_kok _ _ _ _ _ _ (pm_vm _ _ _ _ _ _ Hp1)) _ Hpa) as (x & Hx & Hxl).
  destruct (user_write end_ L s1 l A O ((j + k) * PGSIZE) w x got) as [Hp2 Hw2]; [done|rewrite <- Ea; unfold KERNBASE; lia|by rewrite Ej|done|done|rewrite Em, Hgl; lia|].
  rewrite Em in Hp2, Hw2. rewrite p2v_frame by apply Hpa. replace (kp (PTE_ADDR w)) with (kp (PTE_ADDR w) + 0) by lia.
  apply wp_bind, (wp_st_bytes _ _ 0 _ x); [apply Hpa|rewrite HP; lia|done|rewrite Hgl; unfold full in Hxl; rewrite Hxl; simpl; lia|].
  set (s2 := set_km_mem _ s1) in *. rewrite decide_False by (rewrite Hgl; lia).
  rewrite (u32_small (k * PGSIZE + PGSIZE)) by (rewrite HP in *; lia). replace (k * PGSIZE + PGSIZE) with ((k + 1) * PGSIZE) by lia.
  apply (IH s2 (k + 1)); try done; [lia|rewrite HP in *; lia|destruct fuel; [rewrite HP in *; lia|lia]|].
  intros s' Hp' Hm' Hwr. apply HQ; [done| |].
  - intros q Hq. rewrite Hm' by done. unfold s2. simpl. apply lookup_insert_ne. intros <-. done.
  - rewrite Ea. replace (take (Z.to_nat (sz - k * PGSIZE)) (drop (Z.to_nat (foff + k * PGSIZE)) data))
      with (got ++ take (Z.to_nat (sz - (k + 1) * PGSIZE)) (drop (Z.to_nat (foff + (k + 1) * PGSIZE)) data)).
    + eapply (user_wrote_app s s2); [exact Hw2|exact Hwr|]. destruct (decide (n = PGSIZE)) as [En|Hne].
      * right. rewrite Hgl. lia.
      * left. replace (Z.to_nat (sz - (k + 1) * PGSIZE)) with 0%nat; [apply take_0|]. unfold n in Hne. destruct (decide _); lia.
    + unfold got. destruct (decide (n = PGSIZE)) as [En|Hne].
      * rewrite En. replace (Z.to_nat (foff + (k + 1) * PGSIZE)) with (Z.to_nat (foff + k * PGSIZE) + Z.to_nat PGSIZE)%nat by lia.
        rewrite <- drop_drop, take_take_drop. f_equal. lia.
      * assert (n = sz - k * PGSIZE) as En by (unfold n in *; destruct (decide _); lia).
        replace (Z.to_nat (sz - (k + 1) * PGSIZE)) with 0%nat by lia. by rewrite take_0, app_nil_r, En.
Qed.

Lemma wp_loaduvm l A O va foff sz s Q :
  pm end_ L s l A O → 0 ≤ va → va mod PGSIZE = 0 → 0 ≤ sz → va + sz ≤ KERNBASE →
  (∀ i, va / PGSIZE ≤ i → i * PGSIZE < va + sz → is_Some (as_map A !! i)) →
  0 ≤ foff → foff + sz ≤ Z.of_nat (length data) → foff + sz < 2 ^ 32 - PGSIZE →
  (∀ s', pm end_ L s' l A O → (∀ q, q ∉ ufr A → km_mem s' !! q = km_mem s !! q) →
     wrote s s' A va (take (Z.to_nat sz) (drop (Z.to_nat foff) data)) → Q 0 s') →
  wp E (loaduvm (file_bytes ip) (kp (as_dir A)) va foff sz) Q s.
Proof.
  intros Hp Hva Hal Hsz Htop Hmap Hf0 Hf1 Hf2 HQ. pose proof PGSIZE_eq as HP. unfold loaduvm.
  rewrite decide_False by (intros Hd; by apply Hd). change 0 with (0 * PGSIZE) at 1.
  apply (wp_loaduvm_from _ l A O va foff sz s 0); try done; try lia.
  - pose proof (Z.div_mod sz PGSIZE ltac:(rewrite HP; lia)). pose proof (Z.mod_pos_bound sz PGSIZE ltac:(rewrite HP; lia)).
    assert (0 ≤ sz / PGSIZE) by (apply Z.div_pos; rewrite ?HP; lia). rewrite HP in *. lia.
  - intros s' Hp' Hm Hw. apply HQ; [done|done|]. rewrite Z.mul_0_l, !Z.add_0_r, Z.sub_0_r in Hw. done.
Qed.
End load.

(** ** exec: the arguments on the new stack *)

(** The bytes [bs] are at the address [a] of an address space. *)
Definition bytes_at (mem : gmap Z (list Z)) (cr3 a : Z) (bs : list Z) : Prop :=
  ∀ i, 0 ≤ i < Z.of_nat (length bs) → byte_at mem cr3 (a + i) = bs !! Z.to_nat i.
(** Words in memory. *)
Definition words_bytes (ws : list Z) : list Z := concat (le_split 4 <$> ws).
Lemma length_words_bytes ws : length (words_bytes ws) = (4 * length ws)%nat.
Proof.
  unfold words_bytes. induction ws as [|w ws IH]; [done|]. rewrite fmap_cons. cbn [concat].
  rewrite length_app, IH, length_le_split. simpl. lia.
Qed.

(** Where the arguments go, downwards from [sp], and where the stack then ends. *)
Fixpoint arg_ptrs (argv : list (list Z)) (sp : Z) : list Z :=
  match argv with
  | [] => []
  | a :: argv' => let sp := Z.ldiff (sp - (Z.of_nat (length a) + 1)) 3 in sp :: arg_ptrs argv' sp
  end.
Fixpoint args_end (argv : list (list Z)) (sp : Z) : Z :=
  match argv with
  | [] => sp
  | a :: argv' => args_end argv' (Z.ldiff (sp - (Z.of_nat (length a) + 1)) 3)
  end.

Lemma ldiff_3 x : Z.ldiff x 3 = x - x mod 4.
Proof. apply (ldiff_low x 2). lia. Qed.
Lemma arg_below sp n : 0 ≤ n → sp - n - 4 ≤ Z.ldiff (sp - (n + 1)) 3 ≤ sp - (n + 1).
Proof. intros Hn. rewrite ldiff_3. pose proof (Z.mod_pos_bound (sp - (n + 1)) 4 ltac:(lia)). lia. Qed.
Lemma args_end_le argv sp : args_end argv sp ≤ sp.
Proof.
  revert sp. induction argv as [|a argv IH]; intros sp; simpl; [lia|].
  specialize (IH (Z.ldiff (sp - (Z.of_nat (length a) + 1)) 3)). pose proof (arg_below sp (Z.of_nat (length a)) ltac:(lia)). lia.
Qed.
Lemma length_arg_ptrs argv sp : length (arg_ptrs argv sp) = length argv.
Proof. revert sp. induction argv as [|a argv IH]; intros sp; simpl; [done|]. by rewrite IH. Qed.
Lemma args_aligned argv sp : sp mod 4 = 0 → args_end argv sp mod 4 = 0.
Proof.
  revert sp. induction argv as [|a argv IH]; intros sp Hsp; simpl; [done|]. apply IH. rewrite ldiff_3, Zminus_mod_idemp_r.
  set (x := sp - _). by rewrite Z.sub_diag.
Qed.

Lemma strlen_nul a junk : 0 ∉ a → strlen (a ++ 0 :: junk) = Some (length a).
Proof.
  induction a as [|c a IH]; intros Hz; cbn [app strlen]; [by rewrite decide_True|].
  rewrite decide_False by set_solver. by rewrite IH by set_solver.
Qed.

Section args.
Context {C : Type} `{SyncLaws C} (end_ : Z) (L : list string) (E : string → Prop).
Implicit Types (s : xstate C) (l O : list Z) (A : aspace).

(** copyout into one user page *)
Lemma wp_copyout_page (s : kmem C) l A O pg va buf len Q :
  pm end_ L s l A O → 0 ≤ pg < UPAGES → user_page A pg → pg * PGSIZE ≤ va → len = Z.of_nat (length buf) → 0 < len →
  va + len ≤ (pg + 1) * PGSIZE →
  (∀ s' : kmem C, pm end_ L s' l A O → (∀ q, q ∉ ufr A → km_mem s' !! q = km_mem s !! q) → wrote s s' A va buf → Q 0 s') →
  wp E (copyout (kp (as_dir A)) va buf len) Q s.
Proof.
  intros Hp Hpg Hus Hlo Hlen Hpos Hhi HQ. pose proof PGSIZE_eq as HP.
  assert (va / PGSIZE = pg) as Epg.
  { symmetry. apply (Z.div_unique va PGSIZE pg (va - PGSIZE * pg)); [left; rewrite HP in *; lia|lia]. }
  assert (0 ≤ va) as Hva by (rewrite HP in *; lia).
  assert (below va len (pg + 1) = len) as Eb by (unfold below; lia).
  unfold copyout. apply (wp_copyout_from end_ L _ _ l A O (pg + 1) s); try done.
  - unfold KERNBASE, UPAGES in *. rewrite HP in *. lia.
  - rewrite Epg. intros i Hi. by replace i with pg by lia.
  - lia.
  - by left.
  - lia.
  - pose proof (Z.mod_pos_bound va PGSIZE ltac:(rewrite HP; lia)). pose proof (Z.div_mod len PGSIZE ltac:(rewrite HP; lia)).
    pose proof (Z.mod_pos_bound len PGSIZE ltac:(rewrite HP; lia)). assert (0 ≤ len / PGSIZE) by (apply Z.div_pos; rewrite ?HP; lia).
    rewrite HP in *. lia.
  - intros s' Hp' Hwr Hm. rewrite Eb in Hwr |- *. rewrite decide_True by done. apply HQ; [done|done|].
    rewrite take_ge in Hwr by lia. done.
Qed.

(** What the loop over the arguments leaves. *)
Record pushed (argv : list (list Z)) A sp s s' : Prop := mkpushed {
  pu_other q : q ∉ ufr A → km_mem (x_km s') !! q = km_mem (x_km s) !! q;
  pu_same a : 0 ≤ a < KERNBASE → a < args_end argv sp ∨ sp ≤ a →
    byte_at (km_mem (x_km s')) (as_dir A) a = byte_at (km_mem (x_km s)) (as_dir A) a;
  pu_args k b p : argv !! k = Some b → arg_ptrs argv sp !! k = Some p →
    bytes_at (km_mem (x_km s')) (as_dir A) p (b ++ [0])
}.

Lemma wp_push_args l A O pg : ∀ argv junks s argc sp us Q,
  pm end_ L (x_km s) l A O → 0 ≤ pg < UPAGES → user_page A pg → pg * PGSIZE ≤ args_end argv sp → sp ≤ (pg + 1) * PGSIZE →
  Forall (λ a, 0 ∉ a) argv → length junks = length argv → 0 ≤ argc → argc + Z.of_nat (length argv) ≤ MAXARG →
  (∀ s', pm end_ L (x_km s') l A O → x_proc s' = x_proc s → x_cr3 s' = x_cr3 s → pushed argv A sp s s' →
     Q (Some (args_end argv sp, us ++ arg_ptrs argv sp)) s') →
  wp E (push_args (zip_with (λ a j, a ++ 0 :: j) argv junks) (kp (as_dir A)) argc sp us) Q s.
Proof.
  pose proof PGSIZE_eq as HP.
  induction argv as [|a argv IH]; intros [|jk junks] s argc sp us Q Hp Hpg Hus Hlo Hhi Hz Hj Hargc Hmax HQ; try done; cbn [zip_with push_args].
  { apply wp_ret. cbn [arg_ptrs] in HQ. rewrite app_nil_r in HQ. apply HQ; [done|done|done|]. split; [done|done|]. intros k b p Hk. done. }
  apply list.Forall_cons in Hz as [Ha Hz]. cbn [length] in *. rewrite decide_False by lia.
  apply wp_bind, (wp_of_opt _ _ (length a)); [by apply strlen_nul|]. cbn [args_end arg_ptrs] in *.
  pose proof (arg_below sp (Z.of_nat (length a)) ltac:(lia)) as Hb. set (sp' := Z.ldiff (sp - (Z.of_nat (length a) + 1)) 3) in *.
  pose proof (args_end_le argv sp') as Hle.
  rewrite (u32_small (sp - (Z.of_nat (length a) + 1))) by (unfold UPAGES in Hpg; rewrite HP in *; lia). fold sp'.
  assert (take (S (length a)) (a ++ 0 :: jk) = a ++ [0]) as Et.
  { change (0 :: jk) with ([0] ++ jk). rewrite app_assoc. rewrite take_app_length'; [done|]. rewrite length_app. simpl. lia. }
  rewrite Et. apply wp_bind, wp_zoom.
  assert (Z.of_nat (length a) + 1 = Z.of_nat (length (a ++ [0]))) as El by (rewrite length_app; simpl; lia).
  apply (wp_copyout_page (x_km s) l A O pg); [done|done|done|lia|done|lia|lia|].
  intros k1 Hp1 Hm1 Hw1. rewrite (decide_False (P := 0 < 0)) by lia.
  apply IH; [done|done|done|lia|lia|done|lia|lia|lia|]. cbn [x_km set_x_km x_proc x_cr3].
  intros s' Hp' Hproc Hcr3 [Hoth Hsame Hargs]. rewrite <- app_assoc. cbn [app]. apply HQ; [done|done|done|]. cbn [x_km set_x_km] in *.
  assert (∀ i, 0 ≤ i → i < KERNBASE → sp' ≤ i → byte_at (km_mem (x_km s')) (as_dir A) i = byte_at (km_mem k1) (as_dir A) i) as Hup.
  { intros i Hi1 Hi2 Hi3. apply Hsame; [done|by right]. }
  assert (sp ≤ KERNBASE) as Hspk by (unfold KERNBASE, UPAGES in *; rewrite HP in *; lia).
  assert (0 ≤ sp') as Hsp0 by (rewrite HP in *; lia).
  split.
  - intros q Hq. rewrite Hoth by done. by apply Hm1.
  - cbn [args_end]. fold sp'. intros i Hi [Hlow|Hhigh].
    + rewrite Hsame by (done || by left). rewrite (Hw1 i Hi), decide_False by lia. done.
    + rewrite Hup by lia. rewrite (Hw1 i Hi), decide_False by lia. done.
  - intros [|k] b p Hk Hpk; cbn [lookup list_lookup arg_ptrs] in Hk, Hpk; fold sp' in Hpk; [|by apply (Hargs k b p)].
    injection Hk as <-. injection Hpk as <-. intros i Hi. rewrite Hup by lia. rewrite (Hw1 (sp' + i)) by lia.
    rewrite decide_True by lia. f_equal. lia.
Qed.
End args.
