(* ===== verification/ExecLoad.v ===== *)
(** * exec: loading the segments of the program *)

From S2P Require Import Prelude CString ProcData Sync Words Fs Vm VmPages VmSpace VmUser VmCopy VmThm VmOut Exec ExecVm.
Local Open Scope Z_scope.

(** The program headers of a file. *)
Definition headers (data : list Z) (off : Z) (phs : list proghdr) : Prop :=
  0 ≤ off ∧ off + SIZEOF_PROGHDR * Z.of_nat (length phs) ≤ Z.of_nat (length data) ∧
  ∀ i ph, phs !! i = Some ph →
    get_proghdr (take (Z.to_nat SIZEOF_PROGHDR) (drop (Z.to_nat (off + SIZEOF_PROGHDR * Z.of_nat i)) data)) = Some ph.

(** The segments to load, in ascending order from [sz] on and below [top]. *)
Fixpoint loadable (data : list Z) (phs : list proghdr) (sz top : Z) : Prop :=
  match phs with
  | [] => sz ≤ top
  | ph :: phs' =>
      if decide (ph_type ph = ELF_PROG_LOAD) then
        0 ≤ ph_filesz ph ≤ ph_memsz ph ∧ 0 < ph_memsz ph ∧ ph_vaddr ph mod PGSIZE = 0 ∧ sz ≤ ph_vaddr ph ∧
        0 ≤ ph_off ph ∧ ph_off ph + ph_filesz ph ≤ Z.of_nat (length data) ∧
        loadable data phs' (ph_vaddr ph + ph_memsz ph) top
      else loadable data phs' sz top
  end.
Fixpoint segs_end (phs : list proghdr) (sz : Z) : Z :=
  match phs with
  | [] => sz
  | ph :: phs' => segs_end phs' (if decide (ph_type ph = ELF_PROG_LOAD) then ph_vaddr ph + ph_memsz ph else sz)
  end.

(** Memory with the bytes [bs] put at [va]. *)
Definition put (f : Z → option Z) (va : Z) (bs : list Z) : Z → option Z :=
  λ a, if decide (va ≤ a < va + Z.of_nat (length bs)) then bs !! Z.to_nat (a - va) else f a.
(** The image of a program: its segments over zeros. *)
Fixpoint image (data : list Z) (phs : list proghdr) (f : Z → option Z) : Z → option Z :=
  match phs with
  | [] => f
  | ph :: phs' =>
      image data phs'
        (if decide (ph_type ph = ELF_PROG_LOAD)
         then put f (ph_vaddr ph) (take (Z.to_nat (ph_filesz ph)) (drop (Z.to_nat (ph_off ph)) data)) else f)
  end.

Lemma loadable_top data phs sz top : loadable data phs sz top → sz ≤ top.
Proof.
  revert sz. induction phs as [|ph phs IH]; intros sz; simpl; [done|].
  destruct (decide (ph_type ph = ELF_PROG_LOAD)); [|apply IH]. intros (? & ? & _ & ? & _ & _ & Hl). apply IH in Hl. lia.
Qed.
Lemma segs_end_top data phs sz top : loadable data phs sz top → sz ≤ segs_end phs sz ≤ top.
Proof.
  revert sz. induction phs as [|ph phs IH]; intros sz; cbn [loadable segs_end]; [lia|].
  destruct (decide (ph_type ph = ELF_PROG_LOAD)); [|apply IH]. intros (? & ? & _ & ? & _ & _ & Hl). apply IH in Hl. lia.
Qed.
Lemma headers_cons data off ph phs :
  headers data off (ph :: phs) →
  0 ≤ off ∧ off + SIZEOF_PROGHDR ≤ Z.of_nat (length data) ∧
  get_proghdr (take (Z.to_nat SIZEOF_PROGHDR) (drop (Z.to_nat off) data)) = Some ph ∧ headers data (off + SIZEOF_PROGHDR) phs.
Proof.
  intros (H0 & H1 & H2). cbn [length] in H1. unfold SIZEOF_PROGHDR in *. split_and!; [done|lia| |].
  - specialize (H2 0%nat ph eq_refl). by rewrite Z.add_0_r in H2.
  - unfold headers, SIZEOF_PROGHDR. split; [lia|]. split; [lia|]. intros i p Hi. specialize (H2 (S i) p Hi).
    by replace (off + 32 + 32 * Z.of_nat i) with (off + 32 * Z.of_nat (S i)) by lia.
Qed.

Section segments.
Context {C : Type} `{SyncLaws C} (end_ : Z) (L : list string).
Context (kmem_free : "kmem" ∉ L) (E : string → Prop).
Implicit Types (s : xstate C) (l O : list Z) (A : aspace).

(** The address space [A] of [s] has [sz] bytes of user memory that read as [f],
    and at least [n] pages are free. *)
Record loaded s l A O (sz : Z) (f : Z → option Z) (n : nat) : Prop := mkloaded {
  ld_pm : pm end_ L (x_km s) l A O;
  ld_sized : sized A (pgs sz);
  ld_user j : 0 ≤ j < pgs sz → user_page A j;
  ld_bytes a : 0 ≤ a < pgs sz * PGSIZE → byte_at (km_mem (x_km s)) (as_dir A) a = f a;
  ld_free : (n ≤ length l)%nat
}.

Lemma loaded_world s l A O sz f n w :
  loaded s l A O sz f n → holds L w → loaded (set_x_km (set_km_world w (x_km s)) s) l A O sz f n.
Proof. intros [Hp Hz Hu Hb Hl] Hw. split; [by apply (pm_world _ _)|done..]. Qed.

(** allocuvm of exec *)
Lemma wp_exec_alloc s l A O sz f n newsz Q :
  loaded s l A O sz f n → (∀ a, sz ≤ a → f a = Some 0) → 0 ≤ sz ≤ newsz → newsz < KERNBASE →
  (2 * Z.to_nat (pgs newsz - pgs sz) ≤ n)%nat →
  (∀ k l' A', loaded (set_x_km k s) l' A' O newsz f (n - 2 * Z.to_nat (pgs newsz - pgs sz)) → as_dir A' = as_dir A →
     (∀ j, UPAGES ≤ j → as_map A' !! j = as_map A !! j) →
     frames A' ++ ufr A' ++ l' ≡ₚ frames A ++ ufr A ++ l →
     (∀ q, q ∈ O → km_mem k !! q = km_mem (x_km s) !! q) → Q newsz (set_x_km k s)) →
  wp E (vm_ (allocuvm end_ (kp (as_dir A)) sz newsz)) Q s.
Proof.
  intros [Hp Hz Hu Hb Hl] Hf Hsz Hk Hn HQ. pose proof PGSIZE_eq as HP. apply wp_zoom.
  pose proof (pgs_range newsz ltac:(lia)) as Hr. pose proof (pgs_range sz ltac:(lia)) as Hr0.
  apply (wp_allocuvm end_ L kmem_free _ (x_km s) l A O); [done|done|done|done|lia|]. intros k l' A' Hal.
  destruct (allocated_grown end_ L (x_km s) l A O sz newsz k l' A' Hp Hz Hsz Hk Hal) as (Hp' & Hd & Hz' & Hpg & Hm & Hb').
  apply (HQ k l' A'); [|done| |done|done].
  - split; [done|done| | |pose proof (al_len _ _ _ _ _ _ _ _ _ _ _ Hal); lia].
    { intros j Hj. destruct (decide (j < pgs sz)) as [Hlo|Hhi].
      - destruct (Hu j) as (w & Hw & Hwu); [lia|]. exists w. by rewrite (al_old _ _ _ _ _ _ _ _ _ _ _ Hal) by lia.
      - destruct (al_new _ _ _ _ _ _ _ _ _ _ _ Hal j ltac:(lia)) as (pa & ? & _). eexists. split; [done|apply entry_U]. }
    cbn [x_km set_x_km]. intros a Ha.
    rewrite Hd, (Hb' a Ha). destruct (decide (a < pgs sz * PGSIZE)) as [Hlo|Hhi]; [apply Hb; lia|].
    rewrite Hf; [done|]. assert (¬ a / PGSIZE < pgs sz) as Hge by (rewrite <- va_page by lia; lia).
    destruct (decide (sz ≤ a)) as [|Hlt]; [done|]. exfalso.
    assert (a < sz) as Hlt' by lia. pose proof (Z.mul_div_le a PGSIZE ltac:(rewrite HP; lia)) as Hda.
    apply Hge. apply pgs_lt; [apply Z.div_pos; rewrite ?HP; lia|]. lia.
  - intros j Hj. apply (al_old _ _ _ _ _ _ _ _ _ _ _ Hal). right. lia.
Qed.

Context `{ExecFs C} (ip : nat) (data : list Z).
Hypothesis readi_ok : ∀ w off n Q, holds L w → 0 ≤ off → 0 ≤ n → off + n < 2 ^ 32 →
  (∀ w', holds L w' → Q (file_read data off n) w') → wp E (x_readi ip off n) Q w.
Hypothesis data_small : Z.of_nat (length data) < 2 ^ 31.

Lemma wp_load_segments O top : ∀ phs s l A off sz f n Q,
  loaded s l A O sz f n → (∀ a, sz ≤ a → f a = Some 0) → headers data off phs → 0 ≤ sz →
  loadable data phs sz top → top < KERNBASE → (2 * Z.to_nat (pgs top - pgs sz) ≤ n)%nat →
  (∀ k l' A', loaded (set_x_km k s) l' A' O (segs_end phs sz) (image data phs f) (n - 2 * Z.to_nat (pgs (segs_end phs sz) - pgs sz)) →
     as_dir A' = as_dir A → (∀ j, UPAGES ≤ j → as_map A' !! j = as_map A !! j) →
     frames A' ++ ufr A' ++ l' ≡ₚ frames A ++ ufr A ++ l →
     (∀ q, q ∈ O → km_mem k !! q = km_mem (x_km s) !! q) →
     (∀ a, segs_end phs sz ≤ a → image data phs f a = Some 0) → Q (Some (segs_end phs sz)) (set_x_km k s)) →
  wp E (load_segments end_ (length phs) ip (kp (as_dir A)) off sz) Q s.
Proof.
  pose proof PGSIZE_eq as HP.
  induction phs as [|ph phs IH]; intros s l A off sz f n Q Hld Hf Hh Hsz Hlo Htop Hn HQ; cbn [length load_segments].
  { apply wp_ret. cbn [segs_end image] in HQ. rewrite Z.sub_diag in HQ. specialize (HQ (x_km s) l A).
    replace (set_x_km (x_km s) s) with s in HQ by (by destruct s). apply HQ; try done. by rewrite Nat.sub_0_r. }
  apply headers_cons in Hh as (Hoff & Hend & Hget & Hh). unfold SIZEOF_PROGHDR in *.
  rewrite (u32_small off) by lia. apply wp_bind, wp_zoom, wp_zoom, readi_ok; [apply Hld|lia|lia|lia|]. intros w Hw.
  rewrite file_read_full by lia. cbn [fst snd]. rewrite (decide_False (P := 32 ≠ 32)) by (intros Hx; by apply Hx).
  pose proof (loaded_world s l A O sz f n w Hld Hw) as Hld1. set (s1 := set_x_km (set_km_world w (x_km s)) s) in *.
  apply wp_bind, (wp_of_opt _ _ ph); [done|]. cbn [loadable segs_end image] in *.
  destruct (decide (ph_type ph = ELF_PROG_LOAD)) as [Hty|Hty].
  2: { rewrite decide_True by done. apply (IH s1 l A (off + 32) sz f n); try done. }
  rewrite decide_False by (intros Hx; by apply Hx). destruct Hlo as (Hfs & Hms & Hal & Hvl & Ho0 & Ho1 & Hlo).
  pose proof (loadable_top _ _ _ _ Hlo) as Hvt. pose proof (segs_end_top _ _ _ _ Hlo) as Hse.
  pose proof (pgs_mono sz (ph_vaddr ph + ph_memsz ph) ltac:(lia)) as M1.
  pose proof (pgs_mono (ph_vaddr ph + ph_memsz ph) top ltac:(lia)) as M2.
  pose proof (pgs_mono (ph_vaddr ph + ph_memsz ph) (segs_end phs (ph_vaddr ph + ph_memsz ph)) ltac:(lia)) as M3.
  rewrite decide_False by lia. unfold KERNBASE in Htop.
  rewrite (u32_small (ph_vaddr ph + ph_memsz ph)) by lia.
  apply wp_bind, (wp_exec_alloc s1 l A O sz f n); [done|done|lia|unfold KERNBASE; lia|lia|].
  intros k2 l2 A2 Hld2 Hd2 Hker2 Hpg2 Hm2. rewrite decide_False by lia. set (s2 := set_x_km k2 s1) in *.
  set (bs := take (Z.to_nat (ph_filesz ph)) (drop (Z.to_nat (ph_off ph)) data)) in *.
  rewrite <- Hd2. pose proof Hld2 as [Hp2 Hz2 Hu2 Hb2 Hl2]. pose proof (pgs_range (ph_vaddr ph + ph_memsz ph) ltac:(unfold KERNBASE; lia)) as Hr2.
  apply wp_bind, wp_zoom, (wp_loaduvm end_ L ip data E readi_ok l2 A2 O); [done|lia|done|lia|unfold KERNBASE; lia| |done|done|rewrite HP; lia|].
  { intros i Hi1 Hi2. assert (i < pgs (ph_vaddr ph + ph_memsz ph)) as Hi.
    { assert (0 ≤ i) by (transitivity (ph_vaddr ph / PGSIZE); [apply Z.div_pos; rewrite ?HP; lia|done]). apply pgs_lt; [done|]. lia. }
    apply Hz2; [|done]. assert (0 ≤ ph_vaddr ph / PGSIZE) by (apply Z.div_pos; rewrite ?HP; lia). lia. }
  intros k3 Hp3 Hm3 Hw3. rewrite (decide_False (P := 0 < 0)) by lia. rewrite <- Hd2 in HQ.
  assert (length bs = Z.to_nat (ph_filesz ph)) as Hlb by (unfold bs; rewrite length_take, length_drop; lia).
  assert (∀ q, q ∈ O → km_mem k3 !! q = km_mem (x_km s) !! q) as HmO.
  { intros q Hq. rewrite Hm3; [by apply Hm2|]. pose proof (vm_sep _ _ _ _ _ _ (pm_vm _ _ _ _ _ _ Hp2)) as Hs.
    rewrite <- app_assoc in Hs. apply list.NoDup_app in Hs as (_ & Hs & _). intros Hu. apply (Hs q Hu). set_solver. }
  apply (IH (set_x_km k3 s2) l2 A2 (off + 32) (ph_vaddr ph + ph_memsz ph) (put f (ph_vaddr ph) bs) (n - 2 * Z.to_nat (pgs (ph_vaddr ph + ph_memsz ph) - pgs sz))%nat);
    [|..|done|unfold KERNBASE; lia|lia|].
  - split; [done|done|done| |done]. cbn [x_km set_x_km]. intros a Ha. unfold put.
    rewrite (Hw3 a) by (unfold KERNBASE, UPAGES in *; rewrite HP in *; lia). destruct (decide _); [done|]. by apply Hb2.
  - intros a Ha. unfold put. rewrite decide_False by lia. apply Hf. lia.
  - done.
  - lia.
  - intros k l' A' Hld' Hd' Hker' Hpg' Hm' Hz'. apply (HQ k l' A').
    + destruct Hld' as [? ? ? ? Hl']. split; [done..|]. lia.
    + done.
    + intros j Hj. by rewrite Hker', Hker2.
    + by rewrite Hpg', Hpg2.
    + intros q Hq. rewrite Hm' by done. by apply HmO.
    + done.
Qed.
End segments.

(** ** exec: the stack of the new image *)

(** The words at the stack pointer: the return address, argc, argv, and argv's words. *)
Definition stack_words (argv : list (list Z)) (top : Z) : list Z :=
  let n := Z.of_nat (length argv) in
  [0xffffffff; n; args_end argv top - (n + 1) * 4] ++ arg_ptrs argv top ++ [0].
Definition stack_sp (argv : list (list Z)) (top : Z) : Z :=
  args_end argv top - (4 + Z.of_nat (length argv)) * 4.

Lemma length_stack_words argv top : length (words_bytes (stack_words argv top)) = (4 * (4 + length argv))%nat.
Proof. rewrite length_words_bytes. unfold stack_words. rewrite !length_app, length_arg_ptrs. simpl. lia. Qed.

Lemma arg_ptrs_range argv top k p :
  arg_ptrs argv top !! k = Some p → ∃ b, argv !! k = Some b ∧ args_end argv top ≤ p ∧ p + Z.of_nat (length b) < top.
Proof.
  revert top k. induction argv as [|a argv IH]; intros top [|k] Hk; cbn [arg_ptrs lookup list_lookup] in Hk; try done.
  - injection Hk as <-. exists a. pose proof (arg_below top (Z.of_nat (length a)) ltac:(lia)).
    cbn [args_end]. pose proof (args_end_le argv (Z.ldiff (top - (Z.of_nat (length a) + 1)) 3)). split_and!; [done|lia|lia].
  - destruct (IH _ _ Hk) as (b & Hb & Hlo & Hhi). exists b. cbn [args_end].
    pose proof (arg_below top (Z.of_nat (length a)) ltac:(lia)). split_and!; [done|lia|lia].
Qed.

Lemma pgs_mul n : pgs (n * PGSIZE) = n.
Proof.
  unfold pgs. rewrite PGSIZE_eq. replace (n * 4096 + 4096 - 1) with (4095 + n * 4096) by lia.
  rewrite Z.div_add by lia. change (4095 / 4096) with 0. lia.
Qed.

Section stack.
Context {C : Type} `{SyncLaws C} (end_ : Z) (L : list string).
Context (kmem_free : "kmem" ∉ L) (E : string → Prop).
Implicit Types (s : xstate C) (l O : list Z) (A : aspace).

(** [n] pages of the program that read as [f], a guard page, and a page for the
    stack with the arguments. *)
Record stacked s l A O (n : Z) (f : Z → option Z) (argv : list (list Z)) : Prop := mkstacked {
  sd_pm : pm end_ L (x_km s) l A O;
  sd_sized : sized A (n + 2);
  sd_user j : 0 ≤ j < n ∨ j = n + 1 → user_page A j;
  sd_guard : guard_page A n;
  sd_image a : 0 ≤ a < n * PGSIZE → byte_at (km_mem (x_km s)) (as_dir A) a = f a;
  sd_args k b p : argv !! k = Some b → arg_ptrs argv ((n + 2) * PGSIZE) !! k = Some p →
    bytes_at (km_mem (x_km s)) (as_dir A) p (b ++ [0]);
  sd_words : bytes_at (km_mem (x_km s)) (as_dir A) (stack_sp argv ((n + 2) * PGSIZE))
    (words_bytes (stack_words argv ((n + 2) * PGSIZE)))
}.

Lemma hidden_lookup A j w i : as_map (hidden A j w) !! i = if decide (i = j) then Some (Z.ldiff w PTE_U) else as_map A !! i.
Proof.
  unfold hidden. cbn [as_map set_as_map]. destruct (decide (i = j)) as [->|]; [by rewrite lookup_insert_eq|by rewrite lookup_insert_ne].
Qed.

Lemma wp_exec_stack argv junks s l A O sz f m Q :
  let n := pgs sz in let top := (n + 2) * PGSIZE in
  loaded end_ L s l A O sz f m → (∀ a, sz ≤ a → f a = Some 0) → 0 ≤ sz → top < KERNBASE → (4 ≤ m)%nat →
  Forall (λ a, 0 ∉ a) argv → length junks = length argv → Z.of_nat (length argv) ≤ MAXARG →
  (n + 1) * PGSIZE ≤ stack_sp argv top →
  (∀ s' l' A', stacked s' l' A' O n f argv → as_dir A' = as_dir A → (∀ j, UPAGES ≤ j → as_map A' !! j = as_map A !! j) →
     frames A' ++ ufr A' ++ l' ≡ₚ frames A ++ ufr A ++ l → x_proc s' = x_proc s →
     (∀ q, q ∈ O → km_mem (x_km s') !! q = km_mem (x_km s) !! q) → Q (Some (top, stack_sp argv top)) s') →
  wp E (exec_stack end_ (zip_with (λ a j, a ++ 0 :: j) argv junks) (kp (as_dir A)) sz) Q s.
Proof.
  intros n top Hld Hf Hsz Htop Hm Hz Hj Hmax Hsp HQ. pose proof PGSIZE_eq as HP.
  assert (0 ≤ n) as Hn0 by (apply Z.div_pos; rewrite ?HP; lia).
  assert (n + 2 < UPAGES) as Hnu by (unfold UPAGES, KERNBASE, top in *; rewrite HP in *; lia).
  assert (sz ≤ n * PGSIZE) as Hszn.
  { destruct (decide (sz ≤ n * PGSIZE)) as [|Hgt]; [done|]. assert (n < n) by (apply pgs_lt; lia). lia. }
  unfold exec_stack. unfold KERNBASE in Htop. rewrite PGROUNDUP_spec by (rewrite HP in *; unfold top in *; lia). fold n.
  replace (n * PGSIZE + 2 * PGSIZE) with top by (unfold top; lia). rewrite (u32_small top) by (unfold top; rewrite HP in *; lia).
  assert (loaded end_ L s l A O (n * PGSIZE) f m) as Hld1 by (destruct Hld as [? ? ? ? ?]; split; rewrite ?pgs_mul; done).
  assert (pgs top = n + 2) as Etop by apply pgs_mul.
  apply wp_bind, (wp_exec_alloc end_ L kmem_free E s l A O _ f m); [done|intros a Ha; apply Hf; lia|unfold top; rewrite HP in *; lia|done| |].
  { rewrite Etop, pgs_mul. lia. }
  intros k2 l2 A2 [Hp2 Hz2 Hu2 Hb2 Hl2] Hd2 Hker2 Hpg2 Hm2. rewrite Etop in *.
  rewrite decide_False by (unfold top; rewrite HP in *; lia).
  replace (top - 2 * PGSIZE) with (n * PGSIZE) by (unfold top; lia). rewrite (u32_small (n * PGSIZE)) by (unfold top in *; rewrite HP in *; lia).
  destruct (Hu2 n) as (w & Hw & _); [lia|].
  assert (0 ≤ w < 2 ^ 32 ∧ w mod 2 = 1) as [Hwr Hwo] by apply (ao_map _ _ _ (vm_as _ _ _ _ _ _ (pm_vm _ _ _ _ _ _ Hp2)) _ _ Hw).
  rewrite <- Hd2. apply wp_bind, wp_zoom, (wp_clearpteu end_ L E _ l2 A2 O n w); [done|lia|done|]. intros k3 Hp3 Hm3.
  pose proof (hidden_ufr A2 n w ltac:(lia) Hw Hwr Hwo) as Huf. set (A3 := hidden A2 n w) in *.
  set (s3 := set_x_km k3 (set_x_km k2 s)) in *.
  assert (user_page A3 (n + 1)) as Hst.
  { destruct (Hu2 (n + 1)) as (w' & Hw' & Hwu); [lia|]. exists w'. unfold A3. by rewrite hidden_lookup, decide_False by lia. }
  assert (stack_sp argv top ≤ args_end argv top) as Hspe by (unfold stack_sp; lia).
  pose proof (args_end_le argv top) as Hae. change (as_dir A2) with (as_dir A3).
  apply wp_bind, (wp_push_args end_ L E l2 A3 O (n + 1) argv junks s3); [done|lia|done|lia|unfold top; lia|done|done|lia|lia|].
  intros s4 Hp4 Hpr4 _ [Hoth4 Hsame4 Hargs4]. cbn [app]. rewrite length_arg_ptrs.
  assert (u32 (args_end argv top - (Z.of_nat (length argv) + 1) * 4) = args_end argv top - (Z.of_nat (length argv) + 1) * 4) as ->
    by (apply u32_small; unfold stack_sp, top in *; rewrite HP in *; lia).
  assert (u32 (args_end argv top - (3 + Z.of_nat (length argv) + 1) * 4) = stack_sp argv top) as ->
    by (rewrite u32_small; unfold stack_sp, top in *; rewrite HP in *; lia).
  pose proof (length_stack_words argv top) as Hlw. unfold words_bytes in Hlw. unfold stack_words in Hlw. cbn [app] in Hlw.
  apply wp_bind, wp_zoom, (wp_copyout_page end_ L E _ l2 A3 O (n + 1)); [done|lia|done|lia|rewrite Hlw; lia|lia|unfold stack_sp, top in *; lia|].
  intros k5 Hp5 Hm5 Hw5. rewrite (decide_False (P := 0 < 0)) by lia. apply wp_ret.
  assert (∀ a, 0 ≤ a < n * PGSIZE → byte_at (km_mem k5) (as_dir A3) a = f a) as Himg.
  { intros a Ha. assert (0 ≤ a < KERNBASE) as Hak by (unfold KERNBASE, top in *; rewrite HP in *; lia).
    rewrite (Hw5 a Hak), decide_False by (rewrite HP in *; lia).
    rewrite Hsame4 by (done || left; rewrite HP in *; lia). change (as_dir A3) with (as_dir A2).
    rewrite <- (Hb2 a) by (rewrite HP in *; lia). eapply hidden_bytes; [exact Hp2| |exact Hw|exact Hp3|exact Hm3|done]. lia. }
  assert (∀ q, q ∈ O → q ∉ ufr A3 ∧ q ∉ frames A2) as Hsep.
  { intros q Hq. pose proof (pm_vm _ _ _ _ _ _ Hp3) as Hv. destruct (vm_other_not_frame _ _ _ _ _ _ q Hv) as [Hnf _]; [set_solver|].
    split; [|exact Hnf]. pose proof (vm_sep _ _ _ _ _ _ Hv) as Hs. rewrite <- app_assoc in Hs.
    apply list.NoDup_app in Hs as (_ & Hs & _). intros Hu. apply (Hs q Hu). set_solver. }
  apply (HQ _ l2 A3).
  - split; cbn [x_km set_x_km]; [done| | | |done| |].
    + intros j Hjr. unfold A3. rewrite hidden_lookup. destruct (decide (j = n)) as [->|]; [split; [lia|eauto]|by apply Hz2].
    + intros j Hjr. destruct (Hu2 j) as (w' & Hw' & Hwu); [lia|]. exists w'. unfold A3. by rewrite hidden_lookup, decide_False by lia.
    + exists (Z.ldiff w PTE_U). unfold A3. rewrite hidden_lookup, decide_True by done. split; [done|by apply ldiff_U].
    + intros k b p Hk Hpk i Hi. destruct (arg_ptrs_range argv top k p Hpk) as (b' & Hb' & Hlo & Hhi).
      rewrite Hk in Hb'. injection Hb' as <-. rewrite length_app in Hi. simpl in Hi.
      rewrite Hw5 by (unfold KERNBASE, top in *; rewrite HP in *; lia).
      rewrite decide_False by (rewrite Hlw; unfold stack_sp in *; lia). apply (Hargs4 k b p); [done|done|rewrite length_app; simpl; lia].
    + intros i Hi. rewrite length_stack_words in Hi. rewrite Hw5 by (unfold KERNBASE, stack_sp, top in *; rewrite HP in *; lia).
      rewrite decide_True by (rewrite Hlw; fold top; lia). f_equal. fold top. lia.
  - done.
  - intros j Hjr. unfold A3. rewrite hidden_lookup, decide_False by lia. by apply Hker2.
  - rewrite Huf, <- Hpg2. done.
  - exact Hpr4.
  - cbn [x_km set_x_km]. intros q Hq. destruct (Hsep q Hq) as [Hq1 Hq2]. rewrite Hm5, Hoth4 by done.
    unfold s3. cbn [x_km set_x_km]. rewrite Hm3 by done. by apply Hm2.
Qed.
End stack.
