(* ===== verification/ExecThm.v ===== *)
(** * exec: the new image replaces the old one *)

From S2P Require Import Prelude CString ProcData Sync Words Fs Vm VmPages VmSpace VmUser VmCopy VmThm VmOut Exec ExecVm ExecLoad.
Local Open Scope Z_scope.

(** ** The name *)
Lemma last_elem_base last base rest : 0 ∉ base → 47 ∉ base → last_elem last (base ++ 0 :: rest) = Some last.
Proof.
  induction base as [|c base IH]; intros Hz Hs; cbn [app last_elem]; [by rewrite decide_True|].
  rewrite !decide_False by set_solver. apply IH; set_solver.
Qed.
Lemma last_elem_dir last dir t : 0 ∉ dir → last_elem last (dir ++ 47 :: t) = last_elem t t.
Proof.
  revert last. induction dir as [|c dir IH]; intros last Hz; cbn [app last_elem].
  - by rewrite decide_False, decide_True by done.
  - rewrite decide_False by set_solver. apply IH. set_solver.
Qed.

(** The path [path] ends in the element [base]. *)
Definition path_base (path base : list Z) : Prop :=
  0 ∉ base ∧ 47 ∉ base ∧ ∃ rest, path = base ++ 0 :: rest ∨ ∃ dir, 0 ∉ dir ∧ path = dir ++ 47 :: base ++ 0 :: rest.
Lemma last_elem_spec path base :
  path_base path base → ∃ rest, last_elem path path = Some (base ++ 0 :: rest).
Proof.
  intros (Hz & Hs & rest & [->|(dir & Hd & ->)]); exists rest; [by apply last_elem_base|].
  rewrite last_elem_dir by done. by apply last_elem_base.
Qed.

(** ** The process *)
Definition exec_proc (st : stat) (entry pgdir sz sp : Z) (name : list Z) (p : proc) : proc :=
  let f := p_frame p in
  set_p_frame (mktf (tf_eax f) (tf_cs f) (tf_ds f) (tf_es f) (tf_ss f) (tf_eflags f) sp entry)
    (set_p_uid (if setuid_bit (st_mode st) then st_uid st else p_uid p)
      (set_p_sz sz (set_p_pgdir pgdir (set_p_name name p)))).

Section commit.
Context {C : Type} `{SyncLaws C} (end_ : Z) (L : list string).
Context (kmem_free : "kmem" ∉ L) (end_kernel : KERNBASE < end_) (E : string → Prop).
Implicit Types (s : xstate C) (l O : list Z) (A : aspace).

(** Two address spaces side by side: what one owns is others' to the other. *)
Lemma pm_exchange (s : kmem C) l D P O :
  pm end_ L s l D (frames P ++ ufr P ++ O) → as_ok end_ (km_mem s) P → Forall (usable end_) (ufr P) →
  pm end_ L s l P (frames D ++ ufr D ++ O).
Proof.
  intros [[Hk _ Hs] _] Ha Hu. split; [|done]. split; [done|done|].
  eapply NoDup_Permutation_proper, Hs. solve_Permutation.
Qed.
(** The pages of [A] are as before. *)
Lemma pm_keep (s s' : kmem C) l l' A O O' :
  pm end_ L s l A O → kok end_ L s' l' → NoDup ((ufr A ++ O') ++ frames A ++ l') →
  (∀ q, q ∈ frames A → km_mem s' !! q = km_mem s !! q) → pm end_ L s' l' A O'.
Proof.
  intros [[_ Ha _] Hu] Hk Hs Hm. split; [|done]. split; [done| |done]. by eapply as_ok_frame.
Qed.
Lemma byte_at_keep (s s' : kmem C) l l' A O O' a :
  pm end_ L s l A O → pm end_ L s' l' A O' → (∀ q, q ∈ ufr A → km_mem s' !! q = km_mem s !! q) → 0 ≤ a < KERNBASE →
  byte_at (km_mem s') (as_dir A) a = byte_at (km_mem s) (as_dir A) a.
Proof.
  intros Hp Hp' Hm Ha. destruct (as_map A !! (a / PGSIZE)) as [w|] eqn:Hw.
  - eapply byte_at_same; [exact Hp|exact Hp'|done..|]. apply Hm, elem_of_ufr. exists (a / PGSIZE), w. split_and!; [|done..].
    unfold UPAGES, KERNBASE in *. apply Z.div_lt_upper_bound; rewrite PGSIZE_eq; lia.
  - unfold KERNBASE in Ha. unfold byte_at. rewrite (mmu_spec end_ _ A a (vm_as _ _ _ _ _ _ (pm_vm _ _ _ _ _ _ Hp))) by lia.
    rewrite (mmu_spec end_ _ A a (vm_as _ _ _ _ _ _ (pm_vm _ _ _ _ _ _ Hp'))) by lia. by rewrite Hw.
Qed.
Lemma stacked_keep s s' l l' A O O' n f argv :
  stacked end_ L s l A O n f argv → pm end_ L (x_km s') l' A O' → 0 ≤ n → (n + 2) * PGSIZE ≤ KERNBASE →
  0 ≤ stack_sp argv ((n + 2) * PGSIZE) →
  (∀ q, q ∈ ufr A → km_mem (x_km s') !! q = km_mem (x_km s) !! q) → stacked end_ L s' l' A O' n f argv.
Proof.
  intros [Hp Hz Hu Hg Hi Ha Hw] Hp' Hn Htop Hsp Hm. pose proof PGSIZE_eq as HP.
  pose proof (args_end_le argv ((n + 2) * PGSIZE)) as Hae.
  assert (∀ a, 0 ≤ a < KERNBASE → byte_at (km_mem (x_km s')) (as_dir A) a = byte_at (km_mem (x_km s)) (as_dir A) a) as Hb
    by (intros a Hak; by eapply byte_at_keep).
  split; [done..| | |].
  - intros a Hr. rewrite Hb; [by apply Hi|]. rewrite HP in *. lia.
  - intros k b p Hk Hpk i Hi'. destruct (arg_ptrs_range _ _ _ _ Hpk) as (b' & Hb' & Hlo & Hhi).
    rewrite Hk in Hb'. injection Hb' as <-. rewrite Hb; [by apply (Ha k b p)|].
    rewrite length_app in Hi'. simpl in Hi'. unfold stack_sp in Hsp. lia.
  - intros i Hi'. rewrite Hb; [by apply Hw|]. rewrite length_stack_words in Hi'. unfold stack_sp in *. lia.
Qed.

Lemma wp_exec_commit path base st elf s l D P O n f argv sz sp Q :
  stacked end_ L s l D (frames P ++ ufr P ++ O) n f argv → 0 ≤ n → (n + 2) * PGSIZE ≤ KERNBASE →
  0 ≤ stack_sp argv ((n + 2) * PGSIZE) →
  as_ok end_ (km_mem (x_km s)) P → Forall (usable end_) (ufr P) → dense 0 P →
  p_pgdir (x_proc s) = kp (as_dir P) → length (p_name (x_proc s)) = 16%nat → path_base path base →
  (∀ s' l' name, stacked end_ L s' l' D O n f argv → l' ≡ₚ frames P ++ ufr P ++ l →
     (∀ q, q ∈ O → km_mem (x_km s') !! q = km_mem (x_km s) !! q) → x_cr3 s' = as_dir D →
     cstr name = take 15 base → length name = 16%nat →
     x_proc s' = exec_proc st (elf_entry elf) (kp (as_dir D)) sz sp name (x_proc s) → Q 0 s') →
  wp E (exec_commit end_ path st elf (kp (as_dir D)) sz sp) Q s.
Proof.
  intros Hst Hn Htop Hsp Hok Hu Hdn Hpg Hnm Hpath HQ. unfold exec_commit.
  destruct (last_elem_spec _ _ Hpath) as [rest Hlast]. destruct Hpath as (Hz & _).
  apply wp_bind, (wp_of_opt _ _ _ _ _ Hlast). apply wp_bind, wp_gets.
  destruct (safestrcpy_loop_spec (p_name (x_proc s)) (base ++ 0 :: rest) 16) as (name & Hcp & Hnl & Hcs & _); [lia|lia|left; unfold terminated; set_solver|].
  apply wp_bind, (wp_of_opt _ _ name); [done|]. cbn zeta.
  set (p' := if setuid_bit (st_mode st) then _ else _).
  assert (p' = exec_proc st (elf_entry elf) (kp (as_dir D)) sz sp name (x_proc s)) as Ep
    by (unfold p', exec_proc; destruct (setuid_bit _), (x_proc s); done).
  apply wp_bind, wp_modS. rewrite Ep. unfold switchuvm_x. apply wp_bind, wp_bind, wp_gets.
  assert (usable end_ (as_dir D)) as Hdu.
  { apply (ao_usable _ _ _ (vm_as _ _ _ _ _ _ (pm_vm _ _ _ _ _ _ (sd_pm _ _ _ _ _ _ _ _ _ Hst)))), elem_of_frames. by left. }
  change (p_pgdir (x_proc (set_x_proc _ s))) with (kp (as_dir D)).
  rewrite decide_False by (apply kp_nonzero, Hdu). apply wp_modS. rewrite v2p_kp0 by apply Hdu.
  pose proof (pm_exchange _ _ _ _ _ (sd_pm _ _ _ _ _ _ _ _ _ Hst) Hok Hu) as Hex.
  rewrite Hpg. apply wp_bind, wp_zoom, (wp_freevm end_ L kmem_free end_kernel E _ l P (frames D ++ ufr D ++ O)); [done|done|].
  intros k l' Hk Hl' Hm. apply wp_ret.
  assert (pm end_ L k l' D O) as Hp'.
  { eapply pm_keep; [apply Hst|done| |intros q Hq; apply Hm; set_solver].
    eapply NoDup_Permutation_proper, (vm_sep _ _ _ _ _ _ (pm_vm _ _ _ _ _ _ Hex)). rewrite Hl'. solve_Permutation. }
  apply (HQ _ l' name); [|done|intros q Hq; apply Hm; set_solver|done| |congruence|done].
  - eapply stacked_keep; [exact Hst|exact Hp'|done..|]. intros q Hq. apply Hm. set_solver.
  - rewrite Hcs. f_equal. clear -Hz. induction base as [|c base IH]; cbn [app cstr]; [done|].
    rewrite decide_False by set_solver. f_equal. apply IH. set_solver.
Qed.
End commit.

(** ** The whole of exec *)

(** A program that may be run: its header, its program headers, its segments. *)
Record runnable (f : progfile) (p : proc) (elf : elfhdr) (phs : list proghdr) : Prop := mkrunnable {
  rn_perm : may_exec (pf_stat f) p = true;
  rn_len : SIZEOF_ELFHDR ≤ Z.of_nat (length (pf_data f)) < 2 ^ 31;
  rn_elf : get_elfhdr (take (Z.to_nat SIZEOF_ELFHDR) (pf_data f)) = Some elf;
  rn_magic : elf_magic elf = ELF_MAGIC;
  rn_phnum : elf_phnum elf = Z.of_nat (length phs);
  rn_headers : headers (pf_data f) (elf_phoff elf) phs
}.

Section whole.
Context {C : Type} `{ExecFsLaws C} (end_ data : Z) (junk : list Z) (E : string → Prop).
Hypothesis junk_len : length junk = Z.to_nat SIZEOF_ELFHDR.
Implicit Types (s : xstate C) (l O : list Z) (A : aspace) (f : progfile).
Notation pm_at f ph := (@pm C _ (fs_at f ph) end_ []).

(** Nothing but the world has changed, and the file system is in phase [ph]. *)
Definition ready f ph s0 s : Prop :=
  ∃ w, s = set_x_km (set_km_world w (x_km s0)) s0 ∧ @holds _ _ (fs_at f ph) [] w.
Lemma ready_pm f ph ph' s s' l A O : pm_at f ph (x_km s) l A O → ready f ph' s s' → pm_at f ph' (x_km s') l A O.
Proof. intros Hp (w & -> & Hw). by eapply pm_world. Qed.
Lemma ready_refl f ph s l A O : pm_at f ph (x_km s) l A O → ready f ph s s.
Proof.
  intros Hp. exists (km_world (x_km s)). split; [by destruct s as [[] ? ?]|].
  apply (kok_sync _ _ _ _ (vm_kok _ _ _ _ _ _ (pm_vm _ _ _ _ _ _ Hp))).
Qed.
Lemma wp_fs_step {T : Type} f ph ph' (m : M C T) (a : T) s0 s Q :
  (∀ w R, @holds _ _ (fs_at f ph) [] w → (∀ w', @holds _ _ (fs_at f ph') [] w' → R a w') → wp E m R w) →
  ready f ph s0 s → (∀ s', ready f ph' s0 s' → Q a s') → wp E (fs_ m) Q s.
Proof.
  intros Hm (w & -> & Hw) HQ. apply wp_zoom, wp_zoom, Hm; [done|]. intros w' Hw'. apply HQ. by exists w'.
Qed.

(** The way out before an image is built. *)
Lemma wp_exec_bad_file f s0 s Q :
  ready f Locked s0 s → (∀ s', ready f Idle s0 s' → Q (-1) s') → wp E (exec_bad end_ 0 (Some (pf_ino f))) Q s.
Proof.
  intros Hr HQ. unfold exec_bad. rewrite decide_False by (intros Hx; by apply Hx). apply wp_bind, wp_skip.
  apply wp_bind, (wp_fs_step f Locked InOp _ tt s0 s); [intros; by apply (iunlockput_law f)|done|]. intros s1 Hr1.
  apply wp_bind, (wp_fs_step f InOp Idle _ tt s0 s1); [intros; by apply (end_op_law f)|done|]. intros s2 Hr2.
  by apply wp_ret, HQ.
Qed.

(** Up to the permission check. *)
Lemma wp_exec_open f argv s Q :
  ready f Idle s s →
  (∀ s1, ready f Locked s s1 → may_exec (pf_stat f) (x_proc s) = true →
     wp E (let! r := fs_ (x_readi (pf_ino f) 0 SIZEOF_ELFHDR) in
           if decide (u32 r.1 < SIZEOF_ELFHDR) then exec_bad end_ 0 (Some (pf_ino f))
           else
             let! elf := of_opt (get_elfhdr (r.2 ++ drop (length r.2) junk)) in
             if decide (elf_magic elf ≠ ELF_MAGIC) then exec_bad end_ 0 (Some (pf_ino f))
             else exec_run end_ data (pf_path f) argv (pf_ino f) (pf_stat f) elf) Q s1) →
  (∀ s1, may_exec (pf_stat f) (x_proc s) = false → ready f Idle s s1 → Q (-1) s1) →
  wp E (exec end_ data junk (pf_path f) argv) Q s.
Proof.
  intros Hr Hok Hbad. unfold exec.
  apply wp_bind, (wp_fs_step f Idle InOp _ tt s s); [intros; by apply (begin_op_law f)|done|]. intros s1 Hr1.
  apply wp_bind, (wp_fs_step f InOp Found _ (Some (pf_ino f)) s s1); [intros; by apply (namei_law f)|done|]. intros s2 Hr2.
  apply wp_bind, (wp_fs_step f Found Locked _ tt s s2); [intros; by apply (ilock_law f)|done|]. intros s3 Hr3.
  apply wp_bind, (wp_fs_step f Locked Locked _ (pf_stat f) s s3); [intros; by apply (stati_law f)|done|]. intros s4 Hr4.
  apply wp_bind, wp_gets. pose proof Hr4 as (w & E4 & _). rewrite E4 at 1. cbn [x_proc set_x_km].
  destruct (may_exec (pf_stat f) (x_proc s)) eqn:Hm; [by apply Hok|].
  apply (wp_exec_bad_file f s); [done|]. intros s5 Hr5. by apply Hbad.
Qed.

(** Up to the check of the header. *)
Lemma wp_exec_header f argv s elf Q :
  ready f Idle s s → may_exec (pf_stat f) (x_proc s) = true →
  SIZEOF_ELFHDR ≤ Z.of_nat (length (pf_data f)) → get_elfhdr (take (Z.to_nat SIZEOF_ELFHDR) (pf_data f)) = Some elf →
  (∀ s1, ready f Locked s s1 → elf_magic elf = ELF_MAGIC →
     wp E (exec_run end_ data (pf_path f) argv (pf_ino f) (pf_stat f) elf) Q s1) →
  (∀ s1, elf_magic elf ≠ ELF_MAGIC → ready f Idle s s1 → Q (-1) s1) →
  wp E (exec end_ data junk (pf_path f) argv) Q s.
Proof.
  intros Hr Hmay Hlen Helf Hok Hbad. apply (wp_exec_open f); [done| |by rewrite Hmay].
  intros s1 Hr1 _. unfold SIZEOF_ELFHDR in *.
  apply wp_bind, (wp_fs_step f Locked Locked _ (file_read (pf_data f) 0 52) s s1); [intros; by apply (readi_law f)|done|].
  intros s2 Hr2. rewrite file_read_full by lia. cbn [fst snd]. rewrite u32_small, decide_False by lia.
  change (Z.to_nat 0) with 0%nat. rewrite drop_0. rewrite (drop_ge junk), app_nil_r by (rewrite length_take; lia).
  apply wp_bind, (wp_of_opt _ _ elf); [done|]. destruct (decide (elf_magic elf = ELF_MAGIC)) as [Hmg|Hmg].
  - rewrite decide_False by (intros Hx; by apply Hx). by apply Hok.
  - rewrite decide_True by done. apply (wp_exec_bad_file f s); [done|]. intros s3 Hr3. by apply Hbad.
Qed.

(** setupkvm of exec *)
Hypothesis data_aligned : data mod PGSIZE = 0.
Hypothesis data_range : KERNLINK < data < KERNBASE + PHYSTOP.
Notation loaded_at f ph := (@loaded C _ (fs_at f ph) end_ []).
Definition others (P : aspace) O : list Z := frames P ++ ufr P ++ O.

Lemma wp_exec_setup f s s1 l P O (Q : Z → xstate C → Prop) :
  pm_at f Idle (x_km s) l P O → ready f Locked s s1 → (1025 < length l)%nat →
  (∀ k l' D, loaded_at f Locked (set_x_km k s1) l' D (others P O) 0 (λ _, Some 0) (length l - 1025)%nat →
     (∀ j, as_map D !! j = kernel_entry data j) → frames D ++ ufr D ++ l' ≡ₚ l →
     (∀ q, q ∈ others P O → km_mem k !! q = km_mem (x_km s) !! q) → kp (as_dir D) ≠ 0 → Q (kp (as_dir D)) (set_x_km k s1)) →
  wp E (vm_ (setupkvm data)) Q s1.
Proof.
  intros Hp Hr Hl HQ. pose proof (ready_pm f Idle Locked s s1 l P O Hp Hr) as Hp1.
  assert (km_mem (x_km s1) = km_mem (x_km s)) as Em by (destruct Hr as (w & -> & _); done).
  apply wp_zoom, (@wp_setupkvm C _ (fs_at f Locked) end_ data [] (not_elem_of_nil _) data_aligned data_range E _ l (others P O)).
  - apply Hp1.
  - eapply NoDup_Permutation_proper, (vm_sep _ _ _ _ _ _ (pm_vm _ _ _ _ _ _ Hp1)). unfold others. solve_Permutation.
  - intros k l' _ _ _ Hn. lia.
  - intros k l' D Hv Hker Hfr Hm.
    assert (ufr D = []) as Eu by (apply ufr_none; intros j Hj; rewrite Hker; by apply kernel_entry_user).
    apply (HQ k l' D); [|done|by rewrite Eu|intros q Hq; by rewrite Hm, Em|].
    + split; cbn [x_km set_x_km]; rewrite ?pgs_0.
      * split; rewrite Eu; [done|constructor].
      * intros j Hj. rewrite Hker, kernel_entry_user by (done || lia). split; [by intros []|lia].
      * intros j Hj. lia.
      * intros a Ha. lia.
      * pose proof (frames_length _ _ _ (vm_as _ _ _ _ _ _ Hv)). rewrite <- Hfr, length_app. lia.
    + eapply kp_nonzero, (ao_usable _ _ _ (vm_as _ _ _ _ _ _ Hv)), elem_of_frames. by left.
Qed.

Lemma loaded_phase f ph ph' s s' l A O sz g n :
  loaded_at f ph s l A O sz g n → ready f ph' s s' → loaded_at f ph' s' l A O sz g n.
Proof.
  intros [Hp Hz Hu Hb Hl] Hr. pose proof (ready_pm f ph ph' s s' l A O Hp Hr) as Hp'. destruct Hr as (w & -> & _). by split.
Qed.

Context (end_kernel : KERNBASE < end_).
Lemma wp_exec_run f argv junks elf phs base s s1 l P O Q :
  let n := pgs (segs_end phs 0) in let top := (n + 2) * PGSIZE in
  pm_at f Idle (x_km s) l P O → dense 0 P → p_pgdir (x_proc s) = kp (as_dir P) → length (p_name (x_proc s)) = 16%nat →
  runnable f (x_proc s) elf phs → loadable (pf_data f) phs 0 (segs_end phs 0) → path_base (pf_path f) base →
  top < KERNBASE → (1025 + 2 * Z.to_nat (n + 2) ≤ length l)%nat →
  Forall (λ a, 0 ∉ a) argv → length junks = length argv → Z.of_nat (length argv) ≤ MAXARG →
  (n + 1) * PGSIZE ≤ stack_sp argv top → ready f Locked s s1 →
  (∀ s' l' D name, @stacked C _ (fs_at f Idle) end_ [] s' l' D O n (image (pf_data f) phs (λ _, Some 0)) argv →
     (∀ j, UPAGES ≤ j → as_map D !! j = kernel_entry data j) → frames D ++ ufr D ++ l' ≡ₚ others P l →
     (∀ q, q ∈ O → km_mem (x_km s') !! q = km_mem (x_km s) !! q) → x_cr3 s' = as_dir D → cstr name = take 15 base →
     length name = 16%nat →
     x_proc s' = exec_proc (pf_stat f) (elf_entry elf) (kp (as_dir D)) top (stack_sp argv top) name (x_proc s) → Q 0 s') →
  wp E (exec_run end_ data (pf_path f) (zip_with (λ a j, a ++ 0 :: j) argv junks) (pf_ino f) (pf_stat f) elf) Q s1.
Proof.
  intros n top Hp Hdn Hpg Hnm [Hperm Hlen Helf Hmg Hnum Hhd] Hload Hpath Htop Hfree Hz Hj Hmax Hsp Hr HQ.
  pose proof PGSIZE_eq as HP. pose proof (segs_end_top _ _ _ _ Hload) as [Hse _].
  assert (0 ≤ n) as Hn0 by (apply Z.div_pos; rewrite ?HP; lia).
  assert (segs_end phs 0 < KERNBASE) as Hsek.
  { destruct (decide (segs_end phs 0 ≤ n * PGSIZE)) as [|Hgt]; [unfold top in *; rewrite HP in *; lia|]. assert (n < n) by (apply pgs_lt; lia). lia. }
  pose proof (ready_pm f Idle Locked s s1 l P O Hp Hr) as Hp1. pose proof Hr as (w1 & Es1 & _).
  assert (x_proc s1 = x_proc s) as Epr by (by rewrite Es1).
  unfold exec_run. apply wp_bind, (wp_exec_setup f s s1 l P O); [done|done|lia|].
  intros k2 l2 D2 Hld2 Hker2 Hpg2 Hm2 Hnz. rewrite decide_False by done. rewrite Hnum, Nat2Z.id.
  apply wp_bind, (@wp_load_segments C _ (fs_at f Locked) end_ [] (not_elem_of_nil _) E _ (pf_ino f) (pf_data f)
    ltac:(intros; by apply (readi_law f)) ltac:(lia) (others P O) (segs_end phs 0) phs _ l2 D2 _ 0 (λ _, Some 0) (length l - 1025)%nat);
    [done|done|done|lia|done|done|rewrite pgs_0; lia|].
  intros k3 l3 D3 Hld3 Hd3 Hker3 Hpg3 Hm3 Hz3. rewrite pgs_0 in Hld3. fold n in Hld3. set (s3 := set_x_km k3 _) in *.
  apply wp_bind, (wp_fs_step f Locked InOp _ tt s3 s3); [intros; by apply (iunlockput_law f)|eapply ready_refl; apply Hld3|]. intros s4 Hr4.
  apply wp_bind, (wp_fs_step f InOp Idle _ tt s3 s4); [intros; by apply (end_op_law f)|done|]. intros s5 Hr5.
  pose proof (loaded_phase f _ _ s3 s5 _ _ _ _ _ _ Hld3 Hr5) as Hld5. rewrite <- Hd3.
  apply wp_bind, (@wp_exec_stack C _ (fs_at f Idle) end_ [] (not_elem_of_nil _) E argv junks s5 l3 D3 (others P O) (segs_end phs 0)
    (image (pf_data f) phs (λ _, Some 0)) (length l - 1025 - 2 * Z.to_nat (n - 0))%nat);
    [exact Hld5|done|lia|done|fold n; lia|done|done|done|done|].
  intros s6 l6 D6 Hst6 Hd6 Hker6 Hpg6 Hpr6 Hm6. fold n top in Hst6 |- *. rewrite <- Hd6.
  assert (x_proc s6 = x_proc s) as Epr6.
  { rewrite Hpr6. destruct Hr5 as (w & -> & _). exact Epr. }
  assert (∀ q, q ∈ others P O → km_mem (x_km s6) !! q = km_mem (x_km s) !! q) as Hmem.
  { intros q Hq. rewrite Hm6 by done. transitivity (km_mem k3 !! q); [destruct Hr5 as (w & -> & _); done|].
    rewrite Hm3 by done. by apply Hm2. }
  apply (@wp_exec_commit C _ (fs_at f Idle) end_ [] (not_elem_of_nil _) end_kernel E (pf_path f) base _ _ s6 l6 D6 P O n (image (pf_data f) phs (λ _, Some 0)) argv);
    rewrite ?Epr6; [exact Hst6|done|fold top; lia|fold top; rewrite HP in *; lia| |apply Hp|done..|].
  { eapply as_ok_frame, (vm_as _ _ _ _ _ _ (pm_vm _ _ _ _ _ _ Hp)). intros q Hq. apply Hmem. unfold others. set_solver. }
  intros s' l' name Hst' Hl' Hm' Hcr Hcs Hnl Hpr'. apply (HQ s' l' D6 name); [done| | | |done..].
  - intros j Hjr. by rewrite Hker6, Hker3.
  - rewrite Hl'. unfold others. transitivity (frames P ++ ufr P ++ frames D6 ++ ufr D6 ++ l6); [solve_Permutation|].
    by rewrite Hpg6, Hpg3, Hpg2.
  - intros q Hq. rewrite Hm' by done. apply Hmem. unfold others. set_solver.
Qed.
End whole.
