(* ===== verification/ExecMain.v ===== *)
(** * exec: the theorems *)

From S2P Require Import Prelude CString ProcData Sync Words Fs Vm VmPages VmSpace VmUser VmCopy VmThm VmOut Exec ExecVm ExecLoad ExecThm.
Local Open Scope Z_scope.

(** C12. exec replaces the image of the process.  For a program file the process
    may run, whose segments are page aligned, in ascending order and inside the
    file, with enough free pages and arguments that fit the stack page, exec
    returns 0 and: the new address space reads as the segments over zeros, then
    an inaccessible guard page, then the stack page, on which the words at the
    stack pointer are a return address, argc, argv, the pointers of the
    arguments and a zero, and every pointer leads to its argument; above KERNBASE
    it is the kernel's map; the process starts at the entry of the program
    with that stack, has the owner's uid when the file is setuid, and is named by
    the last element of the path; the processor already uses the new directory
    when the old image is freed, all pages of which are free again; no page of
    others has changed. *)
Theorem exec_image {C} `{ExecFsLaws C} end_ data junk f argv junks elf phs base (s : xstate C) l P O :
  let n := pgs (segs_end phs 0) in let top := (n + 2) * PGSIZE in
  KERNBASE < end_ → data mod PGSIZE = 0 → KERNLINK < data < KERNBASE + PHYSTOP →
  length junk = Z.to_nat SIZEOF_ELFHDR →
  @pm C _ (fs_at f Idle) end_ [] (x_km s) l P O → dense 0 P →
  p_pgdir (x_proc s) = kp (as_dir P) → length (p_name (x_proc s)) = 16%nat →
  runnable f (x_proc s) elf phs → loadable (pf_data f) phs 0 (segs_end phs 0) → path_base (pf_path f) base →
  top < KERNBASE → (1025 + 2 * Z.to_nat (n + 2) ≤ length l)%nat →
  Forall (λ a, 0 ∉ a) argv → length junks = length argv → Z.of_nat (length argv) ≤ MAXARG →
  (n + 1) * PGSIZE ≤ stack_sp argv top →
  wp no_panic (exec end_ data junk (pf_path f) (zip_with (λ a j, a ++ 0 :: j) argv junks)) (λ r s',
    r = 0 ∧ ∃ l' D name,
      @stacked C _ (fs_at f Idle) end_ [] s' l' D O n (image (pf_data f) phs (λ _, Some 0)) argv ∧
      (∀ j, UPAGES ≤ j → as_map D !! j = kernel_entry data j) ∧
      frames D ++ ufr D ++ l' ≡ₚ frames P ++ ufr P ++ l ∧
      (∀ q, q ∈ O → km_mem (x_km s') !! q = km_mem (x_km s) !! q) ∧
      x_cr3 s' = as_dir D ∧ cstr name = take 15 base ∧ length name = 16%nat ∧
      x_proc s' = exec_proc (pf_stat f) (elf_entry elf) (kp (as_dir D)) top (stack_sp argv top) name (x_proc s)) s.
Proof.
  intros n top Hend Hda Hdr Hjk Hp Hdn Hpg Hnm Hrun Hload Hpath Htop Hfree Hz Hj Hmax Hsp. pose proof Hrun as [Hperm Hlen Helf Hmg _ _].
  apply (wp_exec_header end_ data junk no_panic Hjk f _ s elf); [by eapply ready_refl|done|lia|done| |done].
  intros s1 Hr1 _.
  apply (wp_exec_run end_ data junk no_panic Hjk Hda Hdr Hend f argv junks elf phs base s s1 l P O); try done.
  intros s' l' D name Hst Hker Hpages Hm Hcr Hcs Hnl Hpr. split; [done|]. exists l', D, name. done.
Qed.

(** A program that must not run leaves the process as it was: when the
    permission check fails, the file is shorter than a header, or the header does
    not have the magic number, exec returns -1 outside the transaction, with every page, the free list, the
    process and the page directory unchanged. *)
Theorem exec_refused {C} `{ExecFsLaws C} end_ data junk f argv elf (s : xstate C) l P O :
  length junk = Z.to_nat SIZEOF_ELFHDR → @pm C _ (fs_at f Idle) end_ [] (x_km s) l P O →
  may_exec (pf_stat f) (x_proc s) = false ∨ Z.of_nat (length (pf_data f)) < SIZEOF_ELFHDR ∨
    (SIZEOF_ELFHDR ≤ Z.of_nat (length (pf_data f)) ∧
     get_elfhdr (take (Z.to_nat SIZEOF_ELFHDR) (pf_data f)) = Some elf ∧ elf_magic elf ≠ ELF_MAGIC) →
  wp no_panic (exec end_ data junk (pf_path f) argv) (λ r s',
    r = -1 ∧ @pm C _ (fs_at f Idle) end_ [] (x_km s') l P O ∧ x_proc s' = x_proc s ∧ x_cr3 s' = x_cr3 s ∧
    km_mem (x_km s') = km_mem (x_km s) ∧ km_freelist (x_km s') = km_freelist (x_km s)) s.
Proof.
  intros Hjk Hp Hbad.
  assert (∀ s1, ready f Idle s s1 → -1 = -1 ∧ @pm C _ (fs_at f Idle) end_ [] (x_km s1) l P O ∧ x_proc s1 = x_proc s ∧
    x_cr3 s1 = x_cr3 s ∧ km_mem (x_km s1) = km_mem (x_km s) ∧ km_freelist (x_km s1) = km_freelist (x_km s)) as Hout.
  { intros s1 Hr. split; [done|]. split; [by eapply ready_pm|]. by destruct Hr as (w & -> & _). }
  assert (ready f Idle s s) as Hr0 by (by eapply ready_refl).
  destruct (may_exec (pf_stat f) (x_proc s)) eqn:Hmay.
  - destruct Hbad as [|[Hlen|(Hlen & Helf & Hmg)]]; [done| |].
    { apply (wp_exec_open end_ data junk no_panic f argv s); [done| |auto]. intros s1 Hr1 _. unfold SIZEOF_ELFHDR in *.
      apply wp_bind, (wp_fs_step no_panic f Locked Locked _ (file_read (pf_data f) 0 52) s s1);
        [intros; by apply (readi_law f)|done|]. intros s2 Hr2.
      unfold file_read. rewrite (decide_False (P := Z.of_nat (length (pf_data f)) < 0)) by lia. cbn [fst snd].
      rewrite u32_small, decide_True by lia. by apply (wp_exec_bad_file end_ no_panic f s). }
    apply (wp_exec_header end_ data junk no_panic Hjk f argv s elf); [done..| |auto]. intros s1 _ Hm. done.
  - apply (wp_exec_open end_ data junk no_panic f argv s); [done| |auto]. intros s1 _ Hm. congruence.
Qed.

(** C13. A program file can stop the kernel: when the first segment is to be
    loaded at an address that is not page aligned, exec does not fail, it panics. *)
Theorem exec_unaligned_panics {C} `{ExecFsLaws C} end_ data junk f argv elf ph phs (s : xstate C) l P O :
  data mod PGSIZE = 0 → KERNLINK < data < KERNBASE + PHYSTOP → length junk = Z.to_nat SIZEOF_ELFHDR →
  @pm C _ (fs_at f Idle) end_ [] (x_km s) l P O → runnable f (x_proc s) elf (ph :: phs) →
  ph_type ph = ELF_PROG_LOAD → ph_filesz ph ≤ ph_memsz ph → 0 < ph_vaddr ph + ph_memsz ph < KERNBASE →
  ph_vaddr ph mod PGSIZE ≠ 0 → (1026 + 2 * Z.to_nat (pgs (ph_vaddr ph + ph_memsz ph)) ≤ length l)%nat →
  exec end_ data junk (pf_path f) argv s = Panic "loaduvm: addr must be page aligned".
Proof.
  intros Hda Hdr Hjk Hp Hrun Hty Hsz Hend Hal Hfree. pose proof Hrun as [Hperm Hlen Helf Hmg Hnum Hhd].
  set (msg := "loaduvm: addr must be page aligned").
  assert (wp (eq msg) (exec end_ data junk (pf_path f) argv) (λ _ _, False) s) as Hwp.
  2: { unfold wp in Hwp. destruct (exec _ _ _ _ _ s) as [[? ?]|e| |]; [done|by subst|done|done]. }
  apply (wp_exec_header end_ data junk (eq msg) Hjk f _ s elf); [by eapply ready_refl|done|lia|done| |done].
  intros s1 Hr1 _. unfold exec_run.
  apply wp_bind, (wp_exec_setup end_ data junk (eq msg) Hjk Hda Hdr f s s1 l P O); [done|done|lia|].
  intros k l2 D2 Hld Hker Hpg Hm Hnz. rewrite decide_False by done. rewrite Hnum, Nat2Z.id. cbn [length].
  apply wp_bind. cbn [load_segments]. apply headers_cons in Hhd as (Hoff & Hoe & Hget & _). unfold SIZEOF_PROGHDR, KERNBASE in *.
  rewrite (u32_small (elf_phoff elf)) by lia.
  apply wp_bind, (wp_fs_step (eq msg) f Locked Locked _ (file_read (pf_data f) (elf_phoff elf) 32) (set_x_km k s1) (set_x_km k s1));
    [intros; apply (readi_law f); try done; lia|eapply ready_refl; apply Hld|]. intros s3 Hr3.
  pose proof (loaded_phase end_ f _ _ _ s3 _ _ _ _ _ _ Hld Hr3) as Hld3.
  rewrite file_read_full by lia. cbn [fst snd]. rewrite decide_False by (intros Hx; by apply Hx).
  apply wp_bind, (wp_of_opt _ _ ph); [done|]. rewrite decide_False by (intros Hx; by apply Hx). rewrite decide_False by lia.
  rewrite u32_small by lia.
  apply wp_bind, (@wp_exec_alloc C _ (fs_at f Locked) end_ [] (not_elem_of_nil _) (eq msg) s3 l2 D2 (others P O) 0 (λ _, Some 0) (length l - 1025)%nat);
    [exact Hld3|done|lia|unfold KERNBASE; lia|rewrite pgs_0; lia|].
  intros k4 l4 D4 _ _ _ _ _. rewrite decide_False by lia. apply wp_bind, wp_zoom.
  unfold loaduvm. by rewrite decide_True by done.
Qed.

(** ** A file system with one program *)
Definition one_file : Type := progfile * phase.
#[export] Instance one_sync : Sync one_file := {|
  k_initlock _ := skip; k_acquire _ := skip; k_release _ := skip; k_wakeup _ := skip |}.
Definition to_phase (ph : phase) : M one_file unit := modS (λ w, (w.1, ph)).
#[export] Instance one_fs : ExecFs one_file := {|
  x_begin_op := to_phase InOp;
  x_end_op := to_phase Idle;
  x_namei path := let! f := gets fst in if decide (path = pf_path f) then to_phase Found ;;; ret (Some (pf_ino f)) else ret None;
  x_ilock _ := to_phase Locked;
  x_stati _ := gets (λ w, pf_stat w.1);
  x_readi _ off n := gets (λ w, file_read (pf_data w.1) off n);
  x_iunlockput _ := to_phase InOp |}.
Definition one_at (f : progfile) (ph : phase) : SyncLaws one_file.
Proof. refine {| holds _ w := w = (f, ph) |}; intros; apply wp_skip; auto. Defined.
#[export] Instance one_laws : ExecFsLaws one_file.
Proof.
  refine {| fs_at := one_at |}; intros * Hw HQ;
    repeat match goal with H : @holds _ _ (one_at _ _) _ _ |- _ => hnf in H; subst end;
    try (apply wp_modS, HQ; done); try (apply wp_gets, HQ; done).
  - apply wp_bind, wp_gets. cbn [fst]. rewrite decide_True by done. apply wp_bind, wp_modS, wp_ret, HQ. done.
  - intros ? ? HQ'. apply wp_gets, HQ'. done.
Defined.

(** The machine of [toy_user] with another world. *)
Definition toy_in {C} (w : C) (s : kmem unit) : kmem C := mkkmem w (km_use_lock s) (km_freelist s) (km_mem s).
Lemma toy_in_pm f s l A O : pm toy_end [] s l A O → @pm one_file _ (fs_at f Idle) toy_end [] (toy_in (f, Idle) s) l A O.
Proof. intros [[[_ H2 H3 H4 H5] Ha Hs] Hu]. split; [|done]. split; [|done|done]. by split. Qed.

(** A program of one segment with four bytes of code and four of zeros, for all
    to execute, setuid to the user 7. *)
Definition toy_data (vaddr : Z) : list Z :=
  words_bytes [ELF_MAGIC; 0; 0; 0; 0; 0; 2; SIZEOF_ELFHDR; 0; 0; 0; 1; 0] ++
  words_bytes [ELF_PROG_LOAD; 84; vaddr; 0; 4; 8; 0; 0] ++ [11; 12; 13; 14].
Definition toy_prog (vaddr mode : Z) : progfile :=
  mkprog [47; 98; 105; 110; 47; 97; 0] 5 (toy_data vaddr) (mkstat 2 1 5 1 7 7 mode 88).
Definition toy_argv : list (list Z) := [[97]; [98; 99; 100; 101]].
Definition toy_proc (pgdir : Z) : proc :=
  mkproc 8192 pgdir 0 RUNNING 3 None 0 zero_frame 0 K_none ChNull 0 [] None (replicate 16 0) 0 1 1 0 0 None 0 0.
Definition toy_exec (vaddr mode : Z) : xstate one_file :=
  mkx (toy_in (toy_prog vaddr mode, Idle) toy_user) (toy_proc (kp (as_dir toy_space))) (as_dir toy_space).
Definition toy_elf : elfhdr := mkelf ELF_MAGIC 2 SIZEOF_ELFHDR 1.
Definition toy_ph (vaddr : Z) : proghdr := mkph ELF_PROG_LOAD 84 vaddr 4 8.
Lemma toy_runnable vaddr mode pgdir :
  vaddr = 0 ∨ vaddr = 5 → o_x mode = true → runnable (toy_prog vaddr mode) (toy_proc pgdir) toy_elf [toy_ph vaddr].
Proof.
  intros Hv Ho. split; [|split; [by vm_compute|done]|done|done|done|].
  - unfold may_exec. rewrite !decide_False by (intros [? _]; done). exact Ho.
  - split; [done|]. split; [by vm_compute|]. intros [|i] ph Hi; [|done]. injection Hi as <-.
    destruct Hv as [->| ->]; vm_compute; reflexivity.
Qed.
Lemma toy_exec_ok vaddr mode : ∃ l P, as_dir P = as_dir toy_space ∧ sized P 2 ∧ (1195 ≤ length l)%nat ∧
  @pm one_file _ (fs_at (toy_prog vaddr mode) Idle) toy_end [] (x_km (toy_exec vaddr mode)) l P [].
Proof.
  destruct toy_user_ok as (l & P & Hp & Hz & Hd & _ & Hl). exists l, P. split; [done|]. split; [done|]. split; [done|].
  by apply toy_in_pm.
Qed.
Lemma toy_path_base vaddr mode : path_base (pf_path (toy_prog vaddr mode)) [97].
Proof.
  split; [set_solver|]. split; [set_solver|]. exists []. right. exists [47; 98; 105; 110]. split; [set_solver|done].
Qed.
#[local] Opaque exec toy_user.

Lemma exec_image_witness :
  wp no_panic (exec toy_end (KERNBASE + 0x110000) (replicate 52 0) (pf_path (toy_prog 0 513))
      [[97; 0]; [98; 99; 100; 101; 0]]) (λ r s',
    r = 0 ∧ p_uid (x_proc s') = 7 ∧ tf_eip (p_frame (x_proc s')) = 2 ∧ tf_esp (p_frame (x_proc s')) = 12252 ∧
    byte_at (km_mem (x_km s')) (x_cr3 s') 3 = Some 14) (toy_exec 0 513).
Proof.
  pose proof PGSIZE_eq as HP. destruct (toy_exec_ok 0 513) as (l & P & Hd & Hz & Hl & Hp).
  assert (pgs (segs_end [toy_ph 0] 0) = 1) as En by (unfold pgs; rewrite HP; reflexivity).
  eapply wp_mono; [refine (exec_image toy_end (KERNBASE + 0x110000) (replicate 52 0) (toy_prog 0 513) toy_argv [[]; []]
    toy_elf [toy_ph 0] [97] (toy_exec 0 513) l P [] _ _ _ _ Hp _ _ _ _ _ (toy_path_base 0 513) _ _ _ _ _ _)|].
  - unfold toy_end, kp, toy_first, TOP. rewrite HP. lia.
  - rewrite HP. reflexivity.
  - by vm_compute.
  - reflexivity.
  - apply (sized_dense _ _ Hz).
  - cbn. by rewrite Hd.
  - reflexivity.
  - apply toy_runnable; [by left|reflexivity].
  - cbn [loadable segs_end]. rewrite decide_True by done. cbn [ph_filesz ph_memsz ph_vaddr ph_off toy_ph].
    rewrite (Z.mod_0_l PGSIZE) by (rewrite HP; lia). split_and!; try done; lia.
  - rewrite En, HP. unfold KERNBASE. lia.
  - rewrite En. lia.
  - unfold toy_argv. repeat constructor; set_solver.
  - reflexivity.
  - by vm_compute.
  - rewrite En, HP. by vm_compute.
  - intros r s' (-> & l' & D & name & Hst & _ & _ & _ & Hcr & _ & _ & Hpr). rewrite En in *.
    split; [done|]. rewrite Hpr, Hcr. split; [done|]. split; [done|]. split; [cbn; rewrite HP; by vm_compute|].
    rewrite (sd_image _ _ _ _ _ _ _ _ _ Hst) by (rewrite HP; lia). by vm_compute.
Defined.

Lemma exec_refused_witness :
  wp no_panic (exec toy_end (KERNBASE + 0x110000) (replicate 52 0) (pf_path (toy_prog 0 0)) []) (λ r s',
    r = -1 ∧ x_proc s' = toy_proc (kp (as_dir toy_space))) (toy_exec 0 0).
Proof.
  destruct (toy_exec_ok 0 0) as (l & P & _ & _ & _ & Hp).
  eapply wp_mono; [refine (exec_refused toy_end (KERNBASE + 0x110000) (replicate 52 0) (toy_prog 0 0) []
    toy_elf (toy_exec 0 0) l P [] eq_refl Hp (or_introl _))|].
  - by vm_compute.
  - intros r s' (-> & _ & Hpr & _). done.
Defined.

Lemma exec_unaligned_panics_witness :
  exec toy_end (KERNBASE + 0x110000) (replicate 52 0) (pf_path (toy_prog 5 513)) [] (toy_exec 5 513) =
  Panic "loaduvm: addr must be page aligned".
Proof.
  pose proof PGSIZE_eq as HP. destruct (toy_exec_ok 5 513) as (l & P & _ & _ & Hl & Hp).
  assert (pgs (5 + 8) = 1) as En by (unfold pgs; rewrite HP; reflexivity).
  refine (exec_unaligned_panics toy_end (KERNBASE + 0x110000) (replicate 52 0) (toy_prog 5 513) []
    toy_elf (toy_ph 5) [] (toy_exec 5 513) l P [] _ _ eq_refl Hp _ eq_refl _ _ _ _).
  - rewrite HP. reflexivity.
  - by vm_compute.
  - apply toy_runnable; [by right|reflexivity].
  - by vm_compute.
  - by vm_compute.
  - rewrite HP. by vm_compute.
  - cbn [ph_vaddr ph_memsz toy_ph]. rewrite En. lia.
Defined.
