(* ===== verification/File.v ===== *)
(** * The file table (file.c, file.h, pipealloc of pipe.c)

    The state has the table of open files, the open files and current directory
    of every process, and the memory, stack pointer and number of the process
    that makes the system call.  Inodes, pipes and the log are the world, reached
    through the class [FileIO]: its operations are those of fs.c, log.c, pipe.c
    and sysfile.c that the code calls, and a pointer to an inode or a pipe is a
    number.  User memory is the bytes from address 0 to proc->sz; an access
    outside of it is a fault. *)

From S2P Require Import Prelude CString ProcData Sync Words Log Fs.
Local Open Scope Z_scope.

Definition NFILE : nat := 100.

(** struct file *)
Inductive fdtype := FD_NONE | FD_PIPE | FD_INODE.
#[export] Instance fdtype_eq_dec : EqDecision fdtype.
Proof. solve_decision. Defined.
Record file := mkfile {
  fl_type : fdtype;
  fl_ref : Z  (* reference count *);
  fl_readable : bool;
  fl_writable : bool;
  fl_pipe : option nat;
  fl_ip : option nat;
  fl_off : Z
}.
Definition set_fl_type x f := mkfile x (fl_ref f) (fl_readable f) (fl_writable f) (fl_pipe f) (fl_ip f) (fl_off f).
Definition set_fl_ref x f := mkfile (fl_type f) x (fl_readable f) (fl_writable f) (fl_pipe f) (fl_ip f) (fl_off f).
Definition set_fl_off x f := mkfile (fl_type f) (fl_ref f) (fl_readable f) (fl_writable f) (fl_pipe f) (fl_ip f) x.

(** The part of a process that refers to files. *)
Record fproc := mkfp { fp_ofile : list (option nat); fp_cwd : option nat }.
Definition set_fp_ofile x p := mkfp x (fp_cwd p).
Definition set_fp_cwd x p := mkfp (fp_ofile p) x.

Record fsys (C : Type) := mkfsys {
  y_file : list file;       (* ftable.file *)
  y_procs : list fproc;
  y_cur : nat;              (* proc *)
  y_mem : list Z;           (* its memory, proc->sz bytes *)
  y_esp : Z;                (* proc->tf->esp *)
  y_world : C
}.
Arguments mkfsys {C}.
Arguments y_file {C}.
Arguments y_procs {C}.
Arguments y_cur {C}.
Arguments y_mem {C}.
Arguments y_esp {C}.
Arguments y_world {C}.
Definition set_y_file {C} x (s : fsys C) := mkfsys x (y_procs s) (y_cur s) (y_mem s) (y_esp s) (y_world s).
Definition set_y_procs {C} x (s : fsys C) := mkfsys (y_file s) x (y_cur s) (y_mem s) (y_esp s) (y_world s).
Definition set_y_mem {C} x (s : fsys C) := mkfsys (y_file s) (y_procs s) (y_cur s) x (y_esp s) (y_world s).
Definition set_y_world {C} (x : C) (s : fsys C) := mkfsys (y_file s) (y_procs s) (y_cur s) (y_mem s) (y_esp s) x.

(** What file.c and sysfile.c call. *)
Class FileIO (C : Type) := {
  io_begin_op : M C unit;
  io_end_op : M C unit;
  io_namei : list Z → M C (option nat);
  io_create : list Z → Z → Z → Z → M C (option nat);
  io_link : list Z → list Z → M C Z;         (* sys_link and sys_unlink inside begin_op and end_op *)
  io_unlink : list Z → M C Z;
  io_chown : list Z → Z → Z → M C Z;
  io_idup : nat → M C unit;
  io_ilock : nat → M C unit;
  io_iunlock : nat → M C unit;
  io_iput : nat → M C unit;
  io_iunlockput : nat → M C unit;
  io_type : nat → M C Z;                     (* ip->type *)
  io_stati : nat → M C stat;
  io_readi : nat → Z → Z → M C (Z * list Z);
  io_writei : nat → list Z → Z → Z → M C Z;
  io_pipe : M C (option nat);                (* kalloc, and the new pipe in the page *)
  io_pipeclose : nat → bool → M C unit;
  io_piperead : nat → Z → M C (Z * list Z);
  io_pipewrite : nat → list Z → Z → M C Z
}.

(** The first free entry. *)
Fixpoint find_free (l : list file) : option nat :=
  match l with
  | [] => None
  | f :: l' => if decide (fl_ref f = 0) then Some 0%nat else S <$> find_free l'
  end.

(** filewrite: the most that one transaction writes *)
Definition FW_MAX : Z := (LOGSIZE - 1 - 1 - 2) / 2 * 512.

Section file.
Context {C : Type} `{Sync C} `{FileIO C}.
Abbreviation Y := (M (fsys C)).

Definition io_ {A} (m : M C A) : Y A := zoom y_world set_y_world m.
Definition the_file (i : nat) : Y file := let! l := gets y_file in of_opt (l !! i).
Definition put_file (i : nat) (f : file) : Y unit := modS (λ s, set_y_file (<[i := f]> (y_file s)) s).

(** User memory: [y_mem] are the bytes below proc->sz, and pages are mapped whole.
    A store into the rest of the last page goes unseen, one behind it faults.
    (Loads are from inside the buffers that argptr has checked.) *)
Definition mapped_end (sz : Z) : Z := (sz + 4095) / 4096 * 4096.
Definition load_user (addr n : Z) : Y (list Z) :=
  let! m := gets y_mem in
  if decide (0 ≤ addr ∧ addr + n ≤ Z.of_nat (length m))
  then ret (take (Z.to_nat n) (drop (Z.to_nat addr) m)) else fault.
Definition store_user (addr : Z) (bytes : list Z) : Y unit :=
  let! m := gets y_mem in
  if decide (bytes = []) then skip
  else if decide (0 ≤ addr ∧ addr + Z.of_nat (length bytes) ≤ mapped_end (Z.of_nat (length m)))
  then modS (set_y_mem (take (length m) (splice m (Z.to_nat addr) bytes))) else fault.

Definition fileinit : Y unit := io_ (k_initlock "ftable").

Definition filealloc : Y (option nat) :=
  io_ (k_acquire "ftable") ;;;
  let! l := gets y_file in
  match find_free l with
  | Some i =>
      let! f := the_file i in
      put_file i (set_fl_ref 1 f) ;;;
      io_ (k_release "ftable") ;;;
      ret (Some i)
  | None => io_ (k_release "ftable") ;;; ret None
  end.

Definition filedup (i : nat) : Y nat :=
  io_ (k_acquire "ftable") ;;;
  let! f := the_file i in
  if decide (fl_ref f < 1) then panic "filedup"
  else
    put_file i (set_fl_ref (s32 (fl_ref f + 1)) f) ;;;
    io_ (k_release "ftable") ;;;
    ret i.

Definition fileclose (i : nat) : Y unit :=
  io_ (k_acquire "ftable") ;;;
  let! f := the_file i in
  if decide (fl_ref f < 1) then panic "fileclose"
  else
    let ref := s32 (fl_ref f - 1) in
    if decide (0 < ref) then put_file i (set_fl_ref ref f) ;;; io_ (k_release "ftable")
    else
      put_file i (set_fl_type FD_NONE (set_fl_ref 0 f)) ;;;
      io_ (k_release "ftable") ;;;
      match fl_type f with
      | FD_PIPE => let! p := of_opt (fl_pipe f) in io_ (io_pipeclose p (fl_writable f))
      | FD_INODE =>
          let! ip := of_opt (fl_ip f) in
          io_ io_begin_op ;;; io_ (io_iput ip) ;;; io_ io_end_op
      | FD_NONE => skip
      end.

Definition filestat (i : nat) : Y (option stat) :=
  let! f := the_file i in
  if decide (fl_type f = FD_INODE) then
    let! ip := of_opt (fl_ip f) in
    io_ (io_ilock ip) ;;;
    let! st := io_ (io_stati ip) in
    io_ (io_iunlock ip) ;;;
    ret (Some st)
  else ret None.

Definition fileread (i : nat) (addr n : Z) : Y Z :=
  let! f := the_file i in
  if fl_readable f then
    match fl_type f with
    | FD_PIPE =>
        let! p := of_opt (fl_pipe f) in
        let! r := io_ (io_piperead p n) in
        store_user addr r.2 ;;; ret r.1
    | FD_INODE =>
        let! ip := of_opt (fl_ip f) in
        io_ (io_ilock ip) ;;;
        let! r := io_ (io_readi ip (fl_off f) (u32 n)) in
        store_user addr r.2 ;;;
        whenb (bool_decide (0 < r.1)) (put_file i (set_fl_off (u32 (fl_off f + r.1)) f)) ;;;
        io_ (io_iunlock ip) ;;;
        ret r.1
    | FD_NONE => panic "fileread"
    end
  else ret (-1).

(** The loop of filewrite: how much was written. *)
Fixpoint filewrite_from (fuel : nat) (k : nat) (addr n i : Z) : Y Z :=
  if decide (i < n) then
    match fuel with
    | O => diverge
    | S fuel' =>
        let n1 := n - i in
        let n1 := if decide (FW_MAX < n1) then FW_MAX else n1 in
        io_ io_begin_op ;;;
        let! f := the_file k in
        let! ip := of_opt (fl_ip f) in
        io_ (io_ilock ip) ;;;
        let! src := load_user (u32 (addr + i)) n1 in
        let! r := io_ (io_writei ip src (fl_off f) n1) in
        whenb (bool_decide (0 < r)) (put_file k (set_fl_off (u32 (fl_off f + r)) f)) ;;;
        io_ (io_iunlock ip) ;;;
        io_ io_end_op ;;;
        if decide (r < 0) then ret i
        else if decide (r ≠ n1) then panic "short filewrite"
        else filewrite_from fuel' k addr n (i + r)
    end
  else ret i.

Definition filewrite (k : nat) (addr n : Z) : Y Z :=
  let! f := the_file k in
  if fl_writable f then
    match fl_type f with
    | FD_PIPE =>
        let! p := of_opt (fl_pipe f) in
        let! src := load_user addr (Z.max 0 n) in
        io_ (io_pipewrite p src n)
    | FD_INODE =>
        let! i := filewrite_from (Z.to_nat (n / FW_MAX + 1)) k addr n 0 in
        ret (if decide (i = n) then n else -1)
    | FD_NONE => panic "filewrite"
    end
  else ret (-1).

(** pipealloc: the read end and the write end *)
Definition pipealloc : Y (option (nat * nat)) :=
  let! f0 := filealloc in
  match f0 with
  | None => ret None
  | Some r =>
      let! f1 := filealloc in
      match f1 with
      | None => fileclose r ;;; ret None
      | Some w =>
          let! p := io_ io_pipe in
          match p with
          | None => fileclose r ;;; fileclose w ;;; ret None
          | Some p =>
              let! f := the_file r in
              put_file r (mkfile FD_PIPE (fl_ref f) true false (Some p) (fl_ip f) (fl_off f)) ;;;
              let! f := the_file w in
              put_file w (mkfile FD_PIPE (fl_ref f) false true (Some p) (fl_ip f) (fl_off f)) ;;;
              ret (Some (r, w))
          end
      end
  end.
End file.
