(* ===== verification/FileInv.v ===== *)
(** * The file table: who owns what

    An open file owns one reference to an inode or one end of a pipe; a current
    directory owns a reference to an inode.  [FileLaws] states what the code below
    promises while the kernel owns a multiset of such objects; [fcore] says that
    the count of every entry of the table is the number of references to it and
    that the world has exactly the objects that the entries own. *)

From stdpp Require Import gmultiset.
From S2P Require Import Prelude CString ProcData Sync Block Words Log Fs File.
Local Open Scope Z_scope.

(** ** The interface of inodes, pipes and the log *)
Inductive obj := OPipe (p : nat) (w : bool) | OInode (i : nat).
#[export] Instance obj_eq_dec : EqDecision obj.
Proof. solve_decision. Defined.
#[export] Instance obj_countable : Countable obj.
Proof.
  refine (inj_countable' (λ o, match o with OPipe p w => inl (p, w) | OInode i => inr i end)
    (λ x, match x with inl (p, w) => OPipe p w | inr i => OInode i end) _). by intros [].
Defined.

(** What the kernel owns, whether it is in a transaction, the inode it has
    locked, and the contents of the regular files it owns a reference to. *)
Record fview := mkfv { fv_objs : gmultiset obj; fv_op : bool; fv_lock : option nat; fv_data : gmap nat (list Z) }.

(** A resource of the disk or of a cache has run out. *)
Definition exhausted (e : string) : Prop :=
  e ∈ ["balloc: out of blocks"; "ialloc: no inodes"; "iget: no inodes"; "bget: no buffers"; "dirlink";
       "create: dirlink"; "create dots"; "too big a transaction"].

(** readi on a regular file, with the arithmetic of unsigned integers. *)
Definition readi_of (data : list Z) (off n : Z) : Z * list Z :=
  let size := Z.of_nat (length data) in
  if decide (size < off ∨ u32 (off + n) < off) then (-1, [])
  else let n := if decide (size < u32 (off + n)) then size - off else n in
       (n, take (Z.to_nat n) (drop (Z.to_nat off) data)).
Definition MAXBYTES : Z := MAXFILE * BSIZE.
(** The other files keep their contents. *)
Definition same_data (X : gmultiset obj) (D D' : gmap nat (list Z)) : Prop :=
  ∀ i, OInode i ∈ X → D' !! i = D !! i.

(** What is assumed of the inodes of fs.c and the pipes of pipe.c, stated from
    what those files do: the objects that the open files own, and the contents of
    files.  Fs, Dirop and Pipe model that code in its own terms; they are not
    made into an instance of this class, so the theorems over it hold of any
    inode and pipe layer with these laws. *)
Class FileLaws (C : Type) `{Sync C} `{FileIO C} := {
  fio_at : fview → SyncLaws C;
  io_begin_op_law E X D w Q : @holds _ _ (fio_at (mkfv X false None D)) [] w →
    (∀ w', @holds _ _ (fio_at (mkfv X true None D)) [] w' → Q tt w') → wp E io_begin_op Q w;
  io_end_op_law E X D w Q : @holds _ _ (fio_at (mkfv X true None D)) [] w →
    (∀ w', @holds _ _ (fio_at (mkfv X false None D)) [] w' → Q tt w') → wp E io_end_op Q w;
  io_namei_law (E : string → Prop) path X D w Q : (∀ e, exhausted e → E e) →
    @holds _ _ (fio_at (mkfv X true None D)) [] w →
    (∀ w', @holds _ _ (fio_at (mkfv X true None D)) [] w' → Q None w') →
    (∀ i D' w', same_data X D D' → @holds _ _ (fio_at (mkfv ({[+ OInode i +]} ⊎ X) true None D')) [] w' → Q (Some i) w') →
    wp E (io_namei path) Q w;
  io_create_law (E : string → Prop) path ty ma mi X D w Q : (∀ e, exhausted e → E e) →
    @holds _ _ (fio_at (mkfv X true None D)) [] w →
    (∀ w', @holds _ _ (fio_at (mkfv X true None D)) [] w' → Q None w') →
    (∀ i D' w', same_data X D D' → @holds _ _ (fio_at (mkfv ({[+ OInode i +]} ⊎ X) true (Some i) D')) [] w' → Q (Some i) w') →
    wp E (io_create path ty ma mi) Q w;
  io_link_law (E : string → Prop) old new X D w Q : (∀ e, exhausted e → E e) →
    @holds _ _ (fio_at (mkfv X true None D)) [] w →
    (∀ r D' w', same_data X D D' → @holds _ _ (fio_at (mkfv X true None D')) [] w' → Q r w') → wp E (io_link old new) Q w;
  io_unlink_law (E : string → Prop) path X D w Q : (∀ e, exhausted e → E e) →
    @holds _ _ (fio_at (mkfv X true None D)) [] w →
    (∀ r D' w', same_data X D D' → @holds _ _ (fio_at (mkfv X true None D')) [] w' → Q r w') → wp E (io_unlink path) Q w;
  io_chown_law (E : string → Prop) path u g X D w Q : (∀ e, exhausted e → E e) →
    @holds _ _ (fio_at (mkfv X false None D)) [] w →
    (∀ r w', @holds _ _ (fio_at (mkfv X false None D)) [] w' → Q r w') → wp E (io_chown path u g) Q w;
  io_idup_law E i X b D w Q : @holds _ _ (fio_at (mkfv X b None D)) [] w → OInode i ∈ X →
    (∀ w', @holds _ _ (fio_at (mkfv ({[+ OInode i +]} ⊎ X) b None D)) [] w' → Q tt w') → wp E (io_idup i) Q w;
  io_ilock_law E i X b D w Q : @holds _ _ (fio_at (mkfv X b None D)) [] w → OInode i ∈ X →
    (∀ w', @holds _ _ (fio_at (mkfv X b (Some i) D)) [] w' → Q tt w') → wp E (io_ilock i) Q w;
  io_iunlock_law E i X b D w Q : @holds _ _ (fio_at (mkfv X b (Some i) D)) [] w →
    (∀ w', @holds _ _ (fio_at (mkfv X b None D)) [] w' → Q tt w') → wp E (io_iunlock i) Q w;
  io_iput_law E i X D w Q : @holds _ _ (fio_at (mkfv ({[+ OInode i +]} ⊎ X) true None D)) [] w →
    (∀ w', @holds _ _ (fio_at (mkfv X true None D)) [] w' → Q tt w') → wp E (io_iput i) Q w;
  io_iunlockput_law E i X D w Q : @holds _ _ (fio_at (mkfv ({[+ OInode i +]} ⊎ X) true (Some i) D)) [] w →
    (∀ w', @holds _ _ (fio_at (mkfv X true None D)) [] w' → Q tt w') → wp E (io_iunlockput i) Q w;
  io_type_law E i X b D w Q : @holds _ _ (fio_at (mkfv X b (Some i) D)) [] w →
    (∀ ty w', @holds _ _ (fio_at (mkfv X b (Some i) D)) [] w' → Q ty w') → wp E (io_type i) Q w;
  io_stati_law E i X b D w Q : @holds _ _ (fio_at (mkfv X b (Some i) D)) [] w →
    (∀ st w', @holds _ _ (fio_at (mkfv X b (Some i) D)) [] w' → Q st w') → wp E (io_stati i) Q w;
  io_readi_law (E : string → Prop) i off n X b D w Q : (∀ e, exhausted e → E e) →
    @holds _ _ (fio_at (mkfv X b (Some i) D)) [] w → 0 ≤ off < 2 ^ 32 → 0 ≤ n < 2 ^ 32 →
    (∀ data, D !! i = Some data →
       ∀ w', @holds _ _ (fio_at (mkfv X b (Some i) D)) [] w' → Q (readi_of data off n) w') →
    (D !! i = None → 0 ≤ n < 2 ^ 31 ∧ ∀ r bytes w', -1 ≤ r ≤ n → length bytes = Z.to_nat r →
       @holds _ _ (fio_at (mkfv X b (Some i) D)) [] w' → Q (r, bytes) w') →
    wp E (io_readi i off n) Q w;
  io_writei_law (E : string → Prop) i src off n X D w Q : (∀ e, exhausted e → E e) →
    @holds _ _ (fio_at (mkfv X true (Some i) D)) [] w → n = Z.of_nat (length src) → n < 2 ^ 31 → 0 ≤ off < 2 ^ 32 →
    (∀ data w', D !! i = Some data → off ≤ Z.of_nat (length data) → off + n ≤ MAXBYTES →
       @holds _ _ (fio_at (mkfv X true (Some i) (<[i := splice data (Z.to_nat off) src]> D))) [] w' → Q n w') →
    (∀ data w', D !! i = Some data → ¬ (off ≤ Z.of_nat (length data) ∧ off + n ≤ MAXBYTES) →
       @holds _ _ (fio_at (mkfv X true (Some i) D)) [] w' → Q (-1) w') →
    (∀ r w', D !! i = None → r = n ∨ r = -1 → @holds _ _ (fio_at (mkfv X true (Some i) D)) [] w' → Q r w') →
    wp E (io_writei i src off n) Q w;
  io_pipe_law E X D w Q : @holds _ _ (fio_at (mkfv X false None D)) [] w →
    (∀ w', @holds _ _ (fio_at (mkfv X false None D)) [] w' → Q None w') →
    (∀ p w', @holds _ _ (fio_at (mkfv ({[+ OPipe p false; OPipe p true +]} ⊎ X) false None D)) [] w' → Q (Some p) w') →
    wp E io_pipe Q w;
  io_pipeclose_law E p wr X D w Q : @holds _ _ (fio_at (mkfv ({[+ OPipe p wr +]} ⊎ X) false None D)) [] w →
    (∀ w', @holds _ _ (fio_at (mkfv X false None D)) [] w' → Q tt w') → wp E (io_pipeclose p wr) Q w;
  io_piperead_law E p n X D w Q : @holds _ _ (fio_at (mkfv X false None D)) [] w → OPipe p false ∈ X →
    (∀ r bytes w', -1 ≤ r ≤ Z.max 0 n → length bytes = Z.to_nat r → @holds _ _ (fio_at (mkfv X false None D)) [] w' → Q (r, bytes) w') →
    wp E (io_piperead p n) Q w;
  io_pipewrite_law E p src n X D w Q : @holds _ _ (fio_at (mkfv X false None D)) [] w → OPipe p true ∈ X →
    (∀ r w', @holds _ _ (fio_at (mkfv X false None D)) [] w' → Q r w') → wp E (io_pipewrite p src n) Q w
}.

(** ** The objects of the table *)
Definition file_obj (f : file) : gmultiset obj :=
  match fl_type f with
  | FD_NONE => ∅
  | FD_PIPE => match fl_pipe f with Some p => {[+ OPipe p (fl_writable f) +]} | None => ∅ end
  | FD_INODE => match fl_ip f with Some i => {[+ OInode i +]} | None => ∅ end
  end.
Definition objs (l : list file) : gmultiset obj := ⋃+ (file_obj <$> l).
Record file_ok (f : file) : Prop := mkfok {
  fk_free : fl_ref f = 0 → fl_type f = FD_NONE;
  fk_pipe : fl_type f = FD_PIPE → is_Some (fl_pipe f) ∧ fl_readable f = negb (fl_writable f);
  fk_ip : fl_type f = FD_INODE → is_Some (fl_ip f);
  fk_off : 0 ≤ fl_off f < 2 ^ 32
}.


(** One summand changes. *)
Lemma unions_insert {A B} `{Countable B} (g : A → gmultiset B) (l : list A) i x y :
  l !! i = Some x → ⋃+ (g <$> <[i := y]> l) ⊎ g x = ⋃+ (g <$> l) ⊎ g y.
Proof.
  revert i. induction l as [|z l IH]; intros [|i] Hi; try done.
  - injection Hi as ->. change (<[0%nat := y]> (x :: l)) with (y :: l). rewrite !fmap_cons, !gmultiset_disj_union_list_cons.
    generalize (⋃+ (g <$> l)). clear. intros X. multiset_solver.
  - change (<[S i := y]> (z :: l)) with (z :: <[i := y]> l). rewrite !fmap_cons, !gmultiset_disj_union_list_cons. specialize (IH i Hi).
    revert IH. generalize (⋃+ (g <$> <[i := y]> l)), (⋃+ (g <$> l)). clear. intros X Y IH. multiset_solver.
Qed.
Lemma unions_elem {A B} `{Countable B} (g : A → gmultiset B) (l : list A) i x : l !! i = Some x → g x ⊆ ⋃+ (g <$> l).
Proof.
  revert i. induction l as [|z l IH]; intros [|i] Hi; try done; rewrite fmap_cons, gmultiset_disj_union_list_cons.
  - injection Hi as ->. clear. multiset_solver.
  - specialize (IH i Hi). revert IH. clear. multiset_solver.
Qed.
Lemma unions_size {A B} `{Countable B} (g : A → gmultiset B) (l : list A) n :
  Forall (λ x, size (g x) ≤ n)%nat l → (size (⋃+ (g <$> l)) ≤ n * length l)%nat.
Proof.
  induction 1 as [|x l Hx Hl IH]; [cbn [fmap list_fmap]; rewrite gmultiset_disj_union_list_nil, gmultiset_size_empty; lia|].
  rewrite fmap_cons, gmultiset_disj_union_list_cons, gmultiset_size_disj_union. cbn [length]. lia.
Qed.
Lemma objs_insert l i f f' : l !! i = Some f → objs (<[i := f']> l) ⊎ file_obj f = objs l ⊎ file_obj f'.
Proof. apply unions_insert. Qed.
Lemma objs_elem l i f : l !! i = Some f → file_obj f ⊆ objs l.
Proof. apply unions_elem. Qed.
Lemma find_free_Some l i : find_free l = Some i → ∃ f, l !! i = Some f ∧ fl_ref f = 0.
Proof.
  revert i. induction l as [|f l IH]; intros i Hf; cbn [find_free] in Hf; [done|]. destruct (decide (fl_ref f = 0)) as [H0|].
  - injection Hf as <-. eauto.
  - destruct (find_free l) as [k|]; [|done]. injection Hf as <-. by apply IH.
Qed.
Lemma find_free_None l : find_free l = None → Forall (λ f, fl_ref f ≠ 0) l.
Proof.
  induction l as [|f l IH]; cbn [find_free]; [constructor|]. destruct (decide (fl_ref f = 0)); [done|].
  destruct (find_free l); [done|]. constructor; auto.
Qed.

(** ** The file table: each operation keeps the counts *)

(** A state with another table and another world. *)
Definition upd {C} (s : fsys C) (l : list file) (w : C) : fsys C :=
  mkfsys l (y_procs s) (y_cur s) (y_mem s) (y_esp s) w.
Lemma upd_id {C} (s : fsys C) : upd s (y_file s) (y_world s) = s.
Proof. by destruct s. Qed.

(** An entry after filedup and after fileclose. *)
Definition dup1 (f : file) : file := set_fl_ref (fl_ref f + 1) f.
Definition close1 (f : file) : file :=
  if decide (fl_ref f = 1) then set_fl_type FD_NONE (set_fl_ref 0 f) else set_fl_ref (fl_ref f - 1) f.

Lemma mult_size (i : nat) (D : gmultiset nat) : (multiplicity i D ≤ size D)%nat.
Proof.
  assert (multiplicity i D *: {[+ i +]} ⊆ D) as Hs.
  { intros j. rewrite multiplicity_scalar_mul, multiplicity_singleton. destruct (decide (j = i)) as [->|]; lia. }
  apply gmultiset_subseteq_size in Hs. rewrite gmultiset_size_scalar_mul, gmultiset_size_singleton in Hs. lia.
Qed.

Section ops.
Context {C : Type} `{FileLaws C}.
Notation hat X b k dt L w := (@holds C _ (fio_at (mkfv X b k dt)) L w).
Implicit Types (s : fsys C) (l : list file) (D : gmultiset nat) (R X : gmultiset obj) (w : C) (dt : gmap nat (list Z)).

Lemma hat_eq X Y b k dt L w : X = Y → hat X b k dt L w → hat Y b k dt L w.
Proof. by intros ->. Qed.

(** [D]: the references to entries of the table; [R]: what the kernel owns
    besides the objects of the table. *)
Record fcore l w D R b k dt : Prop := mkfcore {
  fc_len : length l = NFILE;
  fc_ref i f : l !! i = Some f → fl_ref f = Z.of_nat (multiplicity i D);
  fc_dom i : i ∈ D → (i < NFILE)%nat;
  fc_ok : Forall file_ok l;
  fc_world : hat (objs l ⊎ R) b k dt [] w
}.

Lemma fcore_file l w D R b k dt i : fcore l w D R b k dt → i ∈ D → ∃ f, l !! i = Some f ∧ file_ok f ∧ 1 ≤ fl_ref f.
Proof.
  intros [Hl Hr Hd Hok _] Hi. destruct (lookup_lt_is_Some_2 l i) as [f Hf]; [rewrite Hl; by apply Hd|].
  exists f. split; [done|]. split; [by eapply Forall_lookup_1|]. rewrite (Hr i f Hf).
  rewrite elem_of_multiplicity in Hi. lia.
Qed.
Lemma fcore_world l w w' D R b k dt b' k' dt' :
  fcore l w D R b k dt → hat (objs l ⊎ R) b' k' dt' [] w' → fcore l w' D R b' k' dt'.
Proof. intros [] Hw. by split. Qed.
(** An entry changes with the references to it. *)
Lemma fcore_insert l w D R b k dt i f f' D' w' R' b' k' dt' :
  fcore l w D R b k dt → l !! i = Some f → file_ok f' → fl_ref f' = Z.of_nat (multiplicity i D') →
  (∀ j, j ≠ i → multiplicity j D' = multiplicity j D) →
  hat (objs (<[i := f']> l) ⊎ R') b' k' dt' [] w' → fcore (<[i := f']> l) w' D' R' b' k' dt'.
Proof.
  intros [Hl Hr Hd Hok _] Hf Hok' Hr' Hne Hw. assert (i < length l)%nat as Hlt by (by eapply lookup_lt_Some).
  split; [by rewrite length_insert| | |by apply Forall_insert|done].
  - intros j g Hj. destruct (decide (j = i)) as [->|Hji].
    + rewrite list_lookup_insert_eq in Hj by done. by injection Hj as <-.
    + rewrite list_lookup_insert_ne in Hj by done. rewrite Hne by done. by apply Hr.
  - intros j Hj. destruct (decide (j = i)) as [->|Hji]; [by rewrite Hl in Hlt|]. apply Hd.
    rewrite elem_of_multiplicity in Hj |- *. by rewrite <- Hne.
Qed.

(** ** Locks and user memory *)
Lemma wp_ftable_acquire E s l w X b k dt Q :
  hat X b k dt [] w → (∀ w', hat X b k dt ["ftable"] w' → Q tt (upd s l w')) → wp E (io_ (k_acquire "ftable")) Q (upd s l w).
Proof. intros Hw HQ. apply wp_zoom, (@k_acquire_law C _ (fio_at (mkfv X b k dt)) E "ftable" []); [done|set_solver|done]. Qed.
Lemma wp_ftable_release E s l w X b k dt Q :
  hat X b k dt ["ftable"] w → (∀ w', hat X b k dt [] w' → Q tt (upd s l w')) → wp E (io_ (k_release "ftable")) Q (upd s l w).
Proof. intros Hw HQ. by apply wp_zoom, (@k_release_law C _ (fio_at (mkfv X b k dt)) E "ftable" []). Qed.
Lemma wp_the_file E s l w i f Q : l !! i = Some f → Q f (upd s l w) → wp E (the_file i) Q (upd s l w).
Proof. intros Hf HQ. apply wp_bind, wp_gets. by apply (wp_of_opt _ _ f). Qed.
Lemma wp_put_file E s l w i f Q : Q tt (upd s (<[i := f]> l) w) → wp E (put_file i f) Q (upd s l w).
Proof. intros HQ. by apply wp_modS. Qed.

(** ** filealloc, filedup, fileclose *)
Lemma wp_filealloc E s l w D R b k dt Q :
  fcore l w D R b k dt →
  (∀ w', fcore l w' D R b k dt → Forall (λ f, fl_ref f ≠ 0) l → Q None (upd s l w')) →
  (∀ i f w', i ∉ D → l !! i = Some f → fl_type f = FD_NONE → fcore (<[i := set_fl_ref 1 f]> l) w' ({[+ i +]} ⊎ D) R b k dt →
     Q (Some i) (upd s (<[i := set_fl_ref 1 f]> l) w')) →
  wp E filealloc Q (upd s l w).
Proof.
  intros Hc Hnone Hsome. unfold filealloc.
  eapply wp_bind, wp_ftable_acquire; [apply Hc|]. intros w1 Hw1. apply wp_bind, wp_gets. cbn [y_file upd].
  destruct (find_free l) as [i|] eqn:Hfree.
  - apply find_free_Some in Hfree as (f & Hf & Hr0).
    assert (multiplicity i D = 0%nat) as Hm by (pose proof (fc_ref _ _ _ _ _ _ _ Hc i f Hf); lia).
    assert (file_ok f) as [Hk1 Hk2 Hk3 Hk4] by (eapply Forall_lookup_1; [apply Hc|done]).
    apply wp_bind, (wp_the_file _ _ _ _ _ f); [done|]. apply wp_bind, wp_put_file.
    eapply wp_bind, wp_ftable_release; [exact Hw1|]. intros w2 Hw2. apply wp_ret, Hsome; [|done|by apply Hk1|].
    { rewrite elem_of_multiplicity. lia. }
    eapply fcore_insert; [exact Hc|exact Hf| | | |].
    + split; cbn [fl_ref fl_type set_fl_ref]; [done|by rewrite Hk1..|done].
    + rewrite multiplicity_disj_union, multiplicity_singleton_eq, Hm. done.
    + intros j Hj. by rewrite multiplicity_disj_union, multiplicity_singleton_ne by done.
    + eapply hat_eq; [|exact Hw2]. pose proof (objs_insert l i f (set_fl_ref 1 f) Hf) as Ho.
      unfold file_obj in Ho. cbn [fl_type set_fl_ref] in Ho. rewrite (Hk1 Hr0) in Ho. clear -Ho.
      rewrite !(right_id_L ∅ (⊎)) in Ho. by rewrite Ho.
  - eapply wp_bind, wp_ftable_release; [exact Hw1|]. intros w2 Hw2. apply wp_ret, Hnone; [by eapply fcore_world|].
    by apply find_free_None.
Qed.

Lemma wp_filedup E s l w D R b k dt i Q :
  fcore l w D R b k dt → i ∈ D → (size D < 4096)%nat →
  (∀ f w', l !! i = Some f → fcore (<[i := dup1 f]> l) w' ({[+ i +]} ⊎ D) R b k dt → Q i (upd s (<[i := dup1 f]> l) w')) →
  wp E (filedup i) Q (upd s l w).
Proof.
  intros Hc Hi Hsz HQ. destruct (fcore_file _ _ _ _ _ _ _ _ Hc Hi) as (f & Hf & [Hk1 Hk2 Hk3 Hk4] & Hr1). unfold filedup.
  eapply wp_bind, wp_ftable_acquire; [apply Hc|]. intros w1 Hw1. apply wp_bind, (wp_the_file _ _ _ _ _ f); [done|].
  pose proof (fc_ref _ _ _ _ _ _ _ Hc i f Hf) as Hr. rewrite decide_False by lia.
  pose proof (mult_size i D) as Hle.
  rewrite s32_small by lia. apply wp_bind, wp_put_file. fold (dup1 f).
  eapply wp_bind, wp_ftable_release; [exact Hw1|]. intros w2 Hw2. apply wp_ret, HQ; [done|].
  eapply fcore_insert; [exact Hc|exact Hf| | | |].
  - split; cbn [fl_ref fl_type dup1 set_fl_ref]; [lia|done..].
  - rewrite multiplicity_disj_union, multiplicity_singleton_eq. cbn. lia.
  - intros j Hj. by rewrite multiplicity_disj_union, multiplicity_singleton_ne by done.
  - eapply hat_eq; [|exact Hw2]. pose proof (objs_insert l i f (dup1 f) Hf) as Ho.
    change (file_obj (dup1 f)) with (file_obj f) in Ho. f_equal. by apply (inj (.⊎ file_obj f)) in Ho.
Qed.

Lemma wp_fileclose E s l w D R b k dt i f Q :
  fcore l w ({[+ i +]} ⊎ D) R b k dt → (size D < 4096)%nat → l !! i = Some f → fl_type f = FD_NONE ∨ (b = false ∧ k = None) →
  (∀ w', fcore (<[i := close1 f]> l) w' D R b k dt → Q tt (upd s (<[i := close1 f]> l) w')) →
  wp E (fileclose i) Q (upd s l w).
Proof.
  intros Hc Hsz Hf Hcase HQ. assert (i ∈ {[+ i +]} ⊎ D) as Hi by multiset_solver.
  destruct (fcore_file _ _ _ _ _ _ _ _ Hc Hi) as (f' & Hf' & [Hk1 Hk2 Hk3 Hk4] & Hr1).
  rewrite Hf in Hf'. injection Hf' as <-. unfold fileclose.
  eapply wp_bind, wp_ftable_acquire; [apply Hc|]. intros w1 Hw1. apply wp_bind, (wp_the_file _ _ _ _ _ f); [done|].
  pose proof (fc_ref _ _ _ _ _ _ _ Hc i f Hf) as Hr. rewrite multiplicity_disj_union, multiplicity_singleton_eq in Hr.
  rewrite decide_False by lia.
  pose proof (mult_size i D) as Hle.
  rewrite s32_small by lia. pose proof (objs_insert l i f (close1 f) Hf) as Ho.
  assert (∀ w', hat (objs (<[i := close1 f]> l) ⊎ R) b k dt [] w' → fcore (<[i := close1 f]> l) w' D R b k dt) as Hins.
  { intros w' Hw'. eapply fcore_insert; [exact Hc|exact Hf| | | |done].
    - unfold close1. destruct (decide (fl_ref f = 1)); split; cbn [fl_ref fl_type set_fl_ref set_fl_type]; (done || lia).
    - unfold close1. destruct (decide (fl_ref f = 1)); cbn [fl_ref set_fl_ref set_fl_type]; lia.
    - intros j Hj. by rewrite multiplicity_disj_union, multiplicity_singleton_ne by done. }
  assert (close1 f = if decide (fl_ref f = 1) then set_fl_type FD_NONE (set_fl_ref 0 f) else set_fl_ref (fl_ref f - 1) f) as Ec by done.
  destruct (decide (0 < fl_ref f - 1)) as [Hgt|Hlast].
  { rewrite decide_False in Ec by lia. rewrite <- Ec. apply wp_bind, wp_put_file.
    eapply wp_ftable_release; [exact Hw1|]. intros w2 Hw2. apply HQ, Hins. eapply hat_eq; [|exact Hw2]. f_equal.
    rewrite Ec in Ho. change (file_obj (set_fl_ref _ f)) with (file_obj f) in Ho. apply (inj (.⊎ file_obj f)) in Ho. by rewrite Ec. }
  rewrite decide_True in Ec by lia. rewrite <- Ec. apply wp_bind, wp_put_file. eapply wp_bind, wp_ftable_release; [exact Hw1|].
  intros w2 Hw2. assert (file_obj (close1 f) = ∅) as Eo by (by rewrite Ec). rewrite Eo, (right_id_L ∅ (⊎)) in Ho. rewrite <- Ho in Hw2.
  unfold file_obj in Hw2. destruct (fl_type f) eqn:Hty.
  - apply wp_skip, HQ, Hins. eapply hat_eq; [|exact Hw2]. by rewrite (right_id_L ∅ (⊎)).
  - destruct Hcase as [|[-> ->]]; [done|]. destruct (Hk2 eq_refl) as [[p Hp] _]. rewrite Hp in Hw2 |- *.
    apply wp_bind, (wp_of_opt _ _ p); [done|]. eapply wp_zoom, io_pipeclose_law; [eapply hat_eq; [|exact Hw2]|].
    + by rewrite (comm_L (⊎) _ {[+ _ +]}), <- (assoc_L (⊎)).
    + intros w3 Hw3. by apply HQ, Hins.
  - destruct Hcase as [|[-> ->]]; [done|]. destruct (Hk3 eq_refl) as [ip Hip]. rewrite Hip in Hw2 |- *.
    apply wp_bind, (wp_of_opt _ _ ip); [done|]. eapply wp_bind, wp_zoom, io_begin_op_law; [exact Hw2|]. intros w3 Hw3.
    eapply wp_bind, wp_zoom, io_iput_law; [eapply hat_eq; [|exact Hw3]|].
    + by rewrite (comm_L (⊎) _ {[+ _ +]}), <- (assoc_L (⊎)).
    + intros w4 Hw4. eapply wp_zoom, io_end_op_law; [exact Hw4|]. intros w5 Hw5. by apply HQ, Hins.
Qed.
End ops.
