(* ===== verification/FileRw.v ===== *)
(** * fileread and filewrite *)

From stdpp Require Import gmultiset.
From S2P Require Import Prelude CString ProcData Sync Block Words Log Fs File FileInv.
Local Open Scope Z_scope.

(** A state with other user memory, too. *)
Definition updm {C} (s : fsys C) (l : list file) (w : C) (m : list Z) : fsys C :=
  mkfsys l (y_procs s) (y_cur s) m (y_esp s) w.

Lemma readi_of_bound data off n : 0 ≤ off < 2 ^ 32 → 0 ≤ n < 2 ^ 31 →
  -1 ≤ (readi_of data off n).1 ≤ n ∧ length (readi_of data off n).2 = Z.to_nat (readi_of data off n).1.
Proof.
  intros Ho Hn. unfold readi_of. destruct (decide (_ ∨ _)) as [|Hno]; cbn [fst snd]; [split; [lia|done]|].
  assert (off + n < 2 ^ 32) as Hw.
  { destruct (decide (off + n < 2 ^ 32)) as [|Hge]; [done|]. exfalso. apply Hno. right.
    unfold u32. rewrite <- (Z_mod_plus_full _ (-1)), Z.mod_small; lia. }
  rewrite u32_small in * by lia. destruct (decide _); cbn [fst snd]; rewrite length_take, length_drop; lia.
Qed.

Lemma mapped_end_ge sz : sz ≤ mapped_end sz.
Proof. unfold mapped_end. pose proof (Z.div_mod (sz + 4095) 4096 ltac:(lia)). pose proof (Z.mod_pos_bound (sz + 4095) 4096 ltac:(lia)). lia. Qed.

Section rw.
Context {C : Type} `{FileLaws C} (E : string → Prop) (E_exhausted : ∀ e, exhausted e → E e).
Notation hat X b k dt L w := (@holds C _ (fio_at (mkfv X b k dt)) L w).
Implicit Types (s : fsys C) (l : list file) (D : gmultiset nat) (R X : gmultiset obj) (w : C) (dt : gmap nat (list Z)).

Lemma wp_store_user s addr bytes Q :
  0 ≤ addr → addr + Z.of_nat (length bytes) ≤ Z.of_nat (length (y_mem s)) →
  Q tt (set_y_mem (splice (y_mem s) (Z.to_nat addr) bytes) s) → wp E (store_user addr bytes) Q s.
Proof.
  intros Ha Hb HQ. apply wp_bind, wp_gets. destruct (decide (bytes = [])) as [->|Hne].
  - apply wp_skip. unfold splice in HQ. cbn [length app] in HQ. rewrite Nat.add_0_r, take_drop in HQ. by destruct s.
  - pose proof (mapped_end_ge (Z.of_nat (length (y_mem s)))). rewrite decide_True by lia. apply wp_modS. rewrite take_ge; [done|]. rewrite length_splice; lia.
Qed.
Lemma wp_load_user s addr n Q :
  0 ≤ addr → addr + n ≤ Z.of_nat (length (y_mem s)) →
  Q (take (Z.to_nat n) (drop (Z.to_nat addr) (y_mem s))) s → wp E (load_user addr n) Q s.
Proof. intros Ha Hb HQ. apply wp_bind, wp_gets. rewrite decide_True by done. by apply wp_ret. Qed.

(** An open file of the table has its object. *)
Lemma own_inode l w D R b k dt i f ip :
  fcore l w D R b k dt → l !! i = Some f → fl_type f = FD_INODE → fl_ip f = Some ip → OInode ip ∈ objs l ⊎ R.
Proof.
  intros Hc Hf Hty Hip. pose proof (objs_elem l i f Hf) as Ho. unfold file_obj in Ho. rewrite Hty, Hip in Ho.
  apply gmultiset_elem_of_disj_union. left. by apply gmultiset_singleton_subseteq_l.
Qed.
Lemma own_pipe l w D R b k dt i f p :
  fcore l w D R b k dt → l !! i = Some f → fl_type f = FD_PIPE → fl_pipe f = Some p → OPipe p (fl_writable f) ∈ objs l ⊎ R.
Proof.
  intros Hc Hf Hty Hip. pose proof (objs_elem l i f Hf) as Ho. unfold file_obj in Ho. rewrite Hty, Hip in Ho.
  apply gmultiset_elem_of_disj_union. left. by apply gmultiset_singleton_subseteq_l.
Qed.
(** Only the offset of an entry changes. *)
Lemma fcore_off l w D R b k dt i f o w' b' k' dt' :
  fcore l w D R b k dt → l !! i = Some f → 0 ≤ o < 2 ^ 32 → hat (objs l ⊎ R) b' k' dt' [] w' →
  fcore (<[i := set_fl_off o f]> l) w' D R b' k' dt'.
Proof.
  intros Hc Hf Ho Hw. assert (file_ok f) as [Hk1 Hk2 Hk3 Hk4] by (eapply Forall_lookup_1; [apply Hc|done]).
  eapply fcore_insert; [exact Hc|exact Hf|by split|apply (fc_ref _ _ _ _ _ _ _ Hc i f Hf)|done|].
  eapply hat_eq; [|exact Hw]. f_equal. pose proof (objs_insert l i f (set_fl_off o f) Hf) as Hi.
  change (file_obj (set_fl_off o f)) with (file_obj f) in Hi. by apply (inj (.⊎ file_obj f)) in Hi.
Qed.
Lemma set_off_id f : set_fl_off (fl_off f) f = f.
Proof. by destruct f. Qed.

(** ** fileread *)
Lemma wp_fileread_inode s l w m D R dt i f ip addr n Q :
  fcore l w D R false None dt → l !! i = Some f → fl_type f = FD_INODE → fl_ip f = Some ip → fl_readable f = true →
  0 ≤ n < 2 ^ 31 → 0 ≤ addr → addr + n ≤ Z.of_nat (length m) →
  (∀ r bytes w' o, -1 ≤ r ≤ n → length bytes = Z.to_nat r → o = (if decide (0 < r) then u32 (fl_off f + r) else fl_off f) →
     (∀ data, dt !! ip = Some data → (r, bytes) = readi_of data (fl_off f) n) →
     fcore (<[i := set_fl_off o f]> l) w' D R false None dt →
     Q r (updm s (<[i := set_fl_off o f]> l) w' (splice m (Z.to_nat addr) bytes))) →
  wp E (fileread i addr n) Q (updm s l w m).
Proof.
  intros Hc Hf Hty Hip Hrd Hn Ha Hm HQ. unfold fileread. apply wp_bind, wp_bind, wp_gets. apply (wp_of_opt _ _ f); [done|].
  assert (0 ≤ fl_off f < 2 ^ 32) as Hoff by (eapply fk_off, Forall_lookup_1; [apply Hc|done]).
  rewrite Hrd, Hty. apply wp_bind, (wp_of_opt _ _ ip); [done|].
  eapply wp_bind, wp_zoom, io_ilock_law; [apply Hc|by eapply own_inode|]. intros w1 Hw1. rewrite u32_small by lia.
  assert (∀ r bytes w2, -1 ≤ r ≤ n → length bytes = Z.to_nat r → hat (objs l ⊎ R) false (Some ip) dt [] w2 →
    (∀ data, dt !! ip = Some data → (r, bytes) = readi_of data (fl_off f) n) →
    wp E (store_user addr bytes ;;;
      whenb (bool_decide (0 < r)) (put_file i (set_fl_off (u32 (fl_off f + r)) f)) ;;; io_ (io_iunlock ip) ;;; ret r) Q (updm s l w2 m)) as Hrest.
  { intros r bytes w2 Hr Hl Hw2 Hd. apply wp_bind, wp_store_user; [done|cbn; lia|].
    set (o := if decide (0 < r) then u32 (fl_off f + r) else fl_off f).
    apply wp_bind. assert (wp E (whenb (bool_decide (0 < r)) (put_file i (set_fl_off (u32 (fl_off f + r)) f)))
      (λ _ s', s' = updm s (<[i := set_fl_off o f]> l) w2 (splice m (Z.to_nat addr) bytes))
      (set_y_mem (splice (y_mem (updm s l w2 m)) (Z.to_nat addr) bytes) (updm s l w2 m))) as Hput.
    { unfold o. destruct (decide (0 < r)); [rewrite bool_decide_true by done|rewrite bool_decide_false by done].
      - by apply wp_modS.
      - apply wp_skip. rewrite set_off_id, list_insert_id by done. done. }
    eapply wp_mono; [exact Hput|]. intros _ s' ->.
    eapply wp_bind, wp_zoom, io_iunlock_law; [exact Hw2|]. intros w3 Hw3. apply wp_ret, (HQ r bytes w3 o); try done.
    eapply fcore_off; [exact Hc|done| |done]. unfold o. destruct (decide (0 < r)); [apply u32_range|done]. }
  apply wp_bind, wp_zoom, (io_readi_law E ip (fl_off f) n (objs l ⊎ R) false dt); [done|done|done|lia| |].
  - intros data Hd w2 Hw2. destruct (readi_of_bound data (fl_off f) n Hoff Hn) as [Hb Hl].
    apply Hrest; [done|done|done|]. intros data' Hd'. replace data' with data by congruence. by destruct (readi_of _ _ _).
  - intros Hd. split; [done|]. intros r bytes w2 Hr Hl Hw2. apply Hrest; [done|done|done|]. intros data Hd'. congruence.
Qed.

Lemma wp_fileread_pipe s l w m D R dt i f p addr n Q :
  fcore l w D R false None dt → l !! i = Some f → fl_type f = FD_PIPE → fl_pipe f = Some p → fl_readable f = true →
  0 ≤ n < 2 ^ 31 → 0 ≤ addr → addr + n ≤ Z.of_nat (length m) →
  (∀ r bytes w', -1 ≤ r ≤ n → length bytes = Z.to_nat r → fcore l w' D R false None dt →
     Q r (updm s l w' (splice m (Z.to_nat addr) bytes))) →
  wp E (fileread i addr n) Q (updm s l w m).
Proof.
  intros Hc Hf Hty Hp Hrd Hn Ha Hm HQ. unfold fileread. apply wp_bind, wp_bind, wp_gets. apply (wp_of_opt _ _ f); [done|].
  assert (file_ok f) as [_ Hk _ _] by (eapply Forall_lookup_1; [apply Hc|done]). destruct (Hk Hty) as [_ Hw]. rewrite Hrd in Hw.
  rewrite Hrd, Hty. apply wp_bind, (wp_of_opt _ _ p); [done|].
  eapply wp_bind, wp_zoom, io_piperead_law; [apply Hc| |].
  { pose proof (own_pipe _ _ _ _ _ _ _ _ _ _ Hc Hf Hty Hp) as Ho. by destruct (fl_writable f). }
  intros r bytes w1 Hr Hl Hw1. cbn [fst snd]. apply wp_bind, wp_store_user; [done|cbn; lia|].
  apply wp_ret, (HQ r bytes w1); [lia|done|]. by eapply fcore_world.
Qed.

(** ** filewrite *)

(** What the loop has done to the contents of a regular file when it has written
    the bytes from [i] to [j] of the [n] at [addr]. *)
Definition wrote_part dt dt' ip (off off' : Z) (m : list Z) (addr n i j : Z) : Prop :=
  match dt !! ip with
  | None => dt' = dt
  | Some data =>
      let new := take (Z.to_nat (j - i)) (drop (Z.to_nat (addr + i)) m) in
      dt' = <[ip := splice data (Z.to_nat off) new]> dt ∧ off' = off + (j - i) ∧
      (off ≤ Z.of_nat (length data) → off + (n - i) ≤ MAXBYTES → j = n)
  end.

Lemma splice_next (x a b : list Z) d : (d ≤ length x)%nat → splice (splice x d a) (d + length a) b = splice x d (a ++ b).
Proof.
  intros Hd. unfold splice.
  replace (take (d + length a) (take d x ++ a ++ drop (d + length a) x)) with (take d x ++ a).
  2: { rewrite app_assoc, take_app_length'; [done|]. rewrite length_app, length_take. lia. }
  replace (drop (d + length a + length b) (take d x ++ a ++ drop (d + length a) x)) with (drop (d + length (a ++ b)) x).
  2: { rewrite app_assoc, drop_app_ge by (rewrite length_app, length_take; lia).
       rewrite drop_drop. f_equal. rewrite !length_app, length_take. lia. }
  by rewrite <- !app_assoc.
Qed.

Lemma splice_nil (x : list Z) d : splice x d [] = x.
Proof. unfold splice. cbn [length app]. by rewrite Nat.add_0_r, take_drop. Qed.
Lemma length_splice_le (x a : list Z) d : (d ≤ length x)%nat → (d + length a ≤ length (splice x d a))%nat.
Proof. intros. unfold splice. rewrite !length_app, length_take. lia. Qed.

Lemma wrote_part_nil dt ip off m addr n i : i = n ∨ (∀ data, dt !! ip = Some data → ¬ (off ≤ Z.of_nat (length data) ∧ off + (n - i) ≤ MAXBYTES)) →
  wrote_part dt dt ip off off m addr n i i.
Proof.
  intros Hi. unfold wrote_part. destruct (dt !! ip) as [data|] eqn:Hd; [|done]. rewrite Z.sub_diag. cbn zeta. rewrite take_0, splice_nil.
  rewrite insert_id by done. split_and!; [done|lia|]. intros Hx1 Hx2. destruct Hi as [|Hi]; [done|]. exfalso. by eapply Hi.
Qed.
Lemma wrote_part_step dt dt2 ip off off2 m addr n i n1 j data :
  dt !! ip = Some data → 0 ≤ off → 0 ≤ addr → 0 ≤ i → 0 < n1 → i + n1 ≤ j → addr + j ≤ Z.of_nat (length m) → off ≤ Z.of_nat (length data) →
  wrote_part (<[ip := splice data (Z.to_nat off) (take (Z.to_nat n1) (drop (Z.to_nat (addr + i)) m))]> dt) dt2 ip (off + n1) off2 m addr n (i + n1) j →
  wrote_part dt dt2 ip off off2 m addr n i j.
Proof.
  intros Hd Ho Ha Hi Hn1 Hj Hm Hlen. unfold wrote_part. rewrite Hd, lookup_insert_eq. cbn zeta. set (a := take (Z.to_nat n1) _).
  assert (length a = Z.to_nat n1) as Hla by (unfold a; rewrite length_take, length_drop; lia).
  intros (-> & -> & Hend). rewrite insert_insert_eq. split_and!; [|lia|].
  - f_equal. replace (Z.to_nat (off + n1)) with (Z.to_nat off + length a)%nat by lia. rewrite splice_next by lia. f_equal.
    unfold a. replace (Z.to_nat (addr + (i + n1))) with (Z.to_nat (addr + i) + Z.to_nat n1)%nat by lia.
    rewrite <- drop_drop, take_take_drop. f_equal. lia.
  - intros _ Hx. apply Hend; [|lia]. pose proof (length_splice_le data a (Z.to_nat off) ltac:(lia)). lia.
Qed.

Lemma FW_MAX_eq : FW_MAX = 6656.
Proof. reflexivity. Qed.

Lemma wp_filewrite_from fuel s m D R k addr n ip : ∀ l w dt i f Q,
  fcore l w D R false None dt → l !! k = Some f → fl_type f = FD_INODE → fl_ip f = Some ip →
  0 ≤ i ≤ Z.max 0 n → n < 2 ^ 31 → 0 ≤ addr → addr + Z.max 0 n ≤ Z.of_nat (length m) → Z.of_nat (length m) < 2 ^ 32 →
  n - i ≤ Z.of_nat fuel * FW_MAX →
  (∀ j w' dt' o, fcore (<[k := set_fl_off o f]> l) w' D R false None dt' → i ≤ j ≤ Z.max 0 n →
     wrote_part dt dt' ip (fl_off f) o m addr (Z.max 0 n) i j → Q j (updm s (<[k := set_fl_off o f]> l) w' m)) →
  wp E (filewrite_from fuel k addr n i) Q (updm s l w m).
Proof.
  induction fuel as [|fuel IH]; intros l w dt i f Q Hc Hf Hty Hip Hi Hn Ha Hm Hm32 Hfuel HQ; cbn [filewrite_from].
  { rewrite decide_False by lia. apply wp_ret. specialize (HQ i w dt (fl_off f)). rewrite set_off_id, list_insert_id in HQ by done.
    apply HQ; [done|lia|]. apply wrote_part_nil. left. lia. }
  destruct (decide (i < n)) as [Hlt|Hge].
  2: { apply wp_ret. specialize (HQ i w dt (fl_off f)). rewrite set_off_id, list_insert_id in HQ by done.
    apply HQ; [done|lia|]. apply wrote_part_nil. left. lia. }
  rewrite FW_MAX_eq in *. set (n1 := if decide (6656 < n - i) then 6656 else n - i).
  assert (0 < n1 ≤ n - i ∧ (n1 = 6656 ∨ n1 = n - i)) as [Hn1 Hn1'] by (unfold n1; destruct (decide _); lia).
  assert (0 ≤ fl_off f < 2 ^ 32) as Hoff by (eapply fk_off, Forall_lookup_1; [apply Hc|done]).
  eapply wp_bind, wp_zoom, io_begin_op_law; [apply Hc|]. intros w1 Hw1.
  apply wp_bind, wp_bind, wp_gets. apply (wp_of_opt _ _ f); [done|]. apply wp_bind, (wp_of_opt _ _ ip); [done|].
  eapply wp_bind, wp_zoom, io_ilock_law; [exact Hw1|by eapply own_inode|]. intros w2 Hw2.
  rewrite u32_small by lia. apply wp_bind, wp_load_user; [lia|cbn; lia|]. cbn [y_mem updm set_y_world].
  set (src := take (Z.to_nat n1) (drop (Z.to_nat (addr + i)) m)).
  assert (n1 = Z.of_nat (length src)) as Hsl by (unfold src; rewrite length_take, length_drop; lia).
  assert (∀ r w3 dt3, hat (objs l ⊎ R) true (Some ip) dt3 [] w3 → r = n1 ∨ r = -1 →
    let o := if decide (0 < r) then u32 (fl_off f + r) else fl_off f in
    (∀ w4, fcore (<[k := set_fl_off o f]> l) w4 D R false None dt3 →
       wp E (if decide (r < 0) then ret i else if decide (r ≠ n1) then panic "short filewrite" else filewrite_from fuel k addr n (i + r)) Q
         (updm s (<[k := set_fl_off o f]> l) w4 m)) →
    wp E (whenb (bool_decide (0 < r)) (put_file k (set_fl_off (u32 (fl_off f + r)) f)) ;;; io_ (io_iunlock ip) ;;; io_ io_end_op ;;;
       if decide (r < 0) then ret i else if decide (r ≠ n1) then panic "short filewrite" else filewrite_from fuel k addr n (i + r)) Q
       (updm s l w3 m)) as Hrest.
  { intros r w3 dt3 Hw3 Hr o Hk. apply wp_bind.
    assert (wp E (whenb (bool_decide (0 < r)) (put_file k (set_fl_off (u32 (fl_off f + r)) f)))
      (λ _ s', s' = updm s (<[k := set_fl_off o f]> l) w3 m) (updm s l w3 m)) as Hput.
    { unfold o. destruct (decide (0 < r)); [rewrite bool_decide_true by done; by apply wp_modS|rewrite bool_decide_false by done].
      apply wp_skip. by rewrite set_off_id, list_insert_id by done. }
    eapply wp_mono; [exact Hput|]. intros _ s' ->.
    eapply wp_bind, wp_zoom, io_iunlock_law; [exact Hw3|]. intros w4 Hw4.
    eapply wp_bind, wp_zoom, io_end_op_law; [exact Hw4|]. intros w5 Hw5. apply Hk.
    eapply fcore_off; [exact Hc|done| |done]. unfold o. destruct (decide (0 < r)); [apply u32_range|done]. }
  assert (i + n1 ≤ Z.max 0 n) as Hin by lia.
  apply wp_bind, wp_zoom, (io_writei_law E ip src (fl_off f) n1 (objs l ⊎ R) dt); [done|done|done|lia|done| | |].
  - intros data w3 Hd Hle Hmax Hw3. assert (MAXBYTES < 2 ^ 31) as Hmb by done.
    apply (Hrest n1 _ _ Hw3 (or_introl eq_refl)). rewrite (decide_True (P := 0 < n1)) by lia. rewrite u32_small by lia.
    intros w4 Hc4. rewrite (decide_False (P := n1 < 0)) by lia. rewrite (decide_False (P := n1 ≠ n1)) by (intros Hx; by apply Hx).
    set (f' := set_fl_off (fl_off f + n1) f) in *.
    eapply (IH _ w4 _ (i + n1) f'); [exact Hc4|apply list_lookup_insert_eq; by eapply lookup_lt_Some|done|done|lia|done|done|done|done|lia|].
    intros j w' dt' o Hc' Hj Hpart. rewrite list_insert_insert_eq in Hc' |- *.
    change (set_fl_off o f') with (set_fl_off o f) in *. apply (HQ j w' dt' o); [done|lia|].
    apply (wrote_part_step dt dt' ip (fl_off f) o m addr (Z.max 0 n) i n1 j data); [exact Hd|lia..|exact Hpart].
  - intros data w3 Hd Hno Hw3. apply (Hrest (-1) _ _ Hw3 (or_intror eq_refl)). rewrite (decide_False (P := 0 < -1)) by lia.
    rewrite set_off_id, list_insert_id by done. intros w4 Hc4. rewrite (decide_True (P := -1 < 0)) by lia. apply wp_ret.
    specialize (HQ i w4 dt (fl_off f)). rewrite set_off_id, list_insert_id in HQ by done. apply HQ; [done|lia|].
    apply wrote_part_nil. right. intros data' Hd' [H1' H2']. apply Hno. replace data' with data in * by congruence. lia.
  - intros r w3 Hd Hr Hw3. apply (Hrest r _ _ Hw3 Hr). destruct Hr as [->| ->].
    + rewrite (decide_True (P := 0 < n1)) by lia. intros w4 Hc4. rewrite (decide_False (P := n1 < 0)) by lia.
      rewrite (decide_False (P := n1 ≠ n1)) by (intros Hx; by apply Hx). set (f' := set_fl_off (u32 (fl_off f + n1)) f) in *.
      eapply (IH _ w4 _ (i + n1) f'); [exact Hc4|apply list_lookup_insert_eq; by eapply lookup_lt_Some|done|done|lia|done|done|done|done|lia|].
      intros j w' dt' o Hc' Hj Hpart. rewrite list_insert_insert_eq in Hc' |- *.
      change (set_fl_off o f') with (set_fl_off o f) in *.
      unfold wrote_part in Hpart. rewrite Hd in Hpart. subst dt'. apply (HQ j w' dt o); [done|lia|].
      unfold wrote_part. by rewrite Hd.
    + rewrite (decide_False (P := 0 < -1)) by lia. rewrite set_off_id, list_insert_id by done. intros w4 Hc4.
      rewrite (decide_True (P := -1 < 0)) by lia. apply wp_ret.
      specialize (HQ i w4 dt (fl_off f)). rewrite set_off_id, list_insert_id in HQ by done. apply HQ; [done|lia|].
      unfold wrote_part. by rewrite Hd.
Qed.
End rw.
