(* ===== verification/Sysfile.v ===== *)
(** * System calls on files (syscall.c, sysfile.c)

    The arguments of a system call are words above the stack pointer of the
    process, fetched from its memory and checked against proc->sz; a string is
    handed on as the bytes from its pointer to the end of that memory. *)

From S2P Require Import Prelude CString ProcData Sync Words Log Fs Exec File.
Local Open Scope Z_scope.

(** fcntl.h *)
Definition O_RDONLY : Z := 0x000.
Definition O_WRONLY : Z := 0x001.
Definition O_RDWR : Z := 0x002.
Definition O_CREATE : Z := 0x200.

(** Where a NUL byte is, before the end of memory. *)
Fixpoint find_nul (s : list Z) : option nat :=
  match s with
  | [] => None
  | c :: s' => if decide (c = 0) then Some 0%nat else S <$> find_nul s'
  end.
(** The first free descriptor. *)
Fixpoint find_fd (l : list (option nat)) : option nat :=
  match l with
  | [] => None
  | None :: _ => Some 0%nat
  | Some _ :: l' => S <$> find_fd l'
  end.

(** struct stat in memory: offsets and widths of its fields *)
Definition SIZEOF_STAT : Z := 32.
Definition put_stat (st : stat) (x : list Z) : list Z :=
  let x := splice x 0 (le_split 2 (st_type st)) in
  let x := splice x 4 (le_split 4 (st_dev st)) in
  let x := splice x 8 (le_split 4 (st_ino st)) in
  let x := splice x 12 (le_split 2 (st_nlink st)) in
  let x := splice x 16 (le_split 4 (st_uid st)) in
  let x := splice x 20 (le_split 4 (st_gid st)) in
  let x := splice x 24 (le_split 4 (st_mode st)) in
  splice x 28 (le_split 4 (st_size st)).

Section calls.
Context {C : Type} `{Sync C} `{FileIO C}.
Abbreviation Y := (M (fsys C)).

Definition the_proc : Y fproc := let! l := gets y_procs in let! i := gets y_cur in of_opt (l !! i).
Definition put_proc (p : fproc) : Y unit := modS (λ s, set_y_procs (<[y_cur s := p]> (y_procs s)) s).
Definition proc_sz : Y Z := gets (λ s, Z.of_nat (length (y_mem s))).

(** ** syscall.c *)
Definition fetchint (addr : Z) : Y (option Z) :=
  let! sz := proc_sz in
  if decide (sz ≤ addr ∨ sz < u32 (addr + 4)) then ret None
  else
    let! m := gets y_mem in
    let! w := of_opt (get_word m (Z.to_nat addr)) in
    ret (Some (s32 w)).

(** The length of the string and the bytes from its start. *)
Definition fetchstr (addr : Z) : Y (option (nat * list Z)) :=
  let! sz := proc_sz in
  if decide (sz ≤ addr) then ret None
  else
    let! m := gets y_mem in
    let s := drop (Z.to_nat addr) m in
    ret ((λ n, (n, s)) <$> find_nul s).

Definition argint (n : Z) : Y (option Z) :=
  let! esp := gets y_esp in fetchint (u32 (esp + 4 + 4 * n)).

Definition argptr (n size : Z) : Y (option Z) :=
  let! i := argint n in
  match i with
  | None => ret None
  | Some i =>
      let! sz := proc_sz in
      if decide (sz ≤ u32 i ∨ sz < u32 (u32 i + size)) then ret None else ret (Some (u32 i))
  end.

Definition argstr (n : Z) : Y (option (nat * list Z)) :=
  let! addr := argint n in
  match addr with
  | None => ret None
  | Some addr => fetchstr (u32 addr)
  end.

(** ** sysfile.c *)
Definition argfd (n : Z) : Y (option (nat * nat)) :=
  let! fd := argint n in
  match fd with
  | None => ret None
  | Some fd =>
      if decide (fd < 0 ∨ Z.of_nat NOFILE ≤ fd) then ret None
      else
        let! p := the_proc in
        let! f := of_opt (fp_ofile p !! Z.to_nat fd) in
        ret ((λ f, (Z.to_nat fd, f)) <$> f)
  end.

Definition fdalloc (f : nat) : Y (option nat) :=
  let! p := the_proc in
  match find_fd (fp_ofile p) with
  | Some fd => put_proc (set_fp_ofile (<[fd := Some f]> (fp_ofile p)) p) ;;; ret (Some fd)
  | None => ret None
  end.

(** proc->ofile[fd] = 0 *)
Definition clear_fd (fd : nat) : Y unit :=
  let! p := the_proc in put_proc (set_fp_ofile (<[fd := None]> (fp_ofile p)) p).

Definition sys_dup : Y Z :=
  let! a := argfd 0 in
  match a with
  | None => ret (-1)
  | Some (_, f) =>
      let! fd := fdalloc f in
      match fd with
      | None => ret (-1)
      | Some fd => let! _ := filedup f in ret (Z.of_nat fd)
      end
  end.

(** The arguments of read and write: the file, the buffer and the count. *)
Definition rw_args : Y (option (nat * Z * Z)) :=
  let! a := argfd 0 in
  match a with
  | None => ret None
  | Some (_, f) =>
      let! n := argint 2 in
      match n with
      | None => ret None
      | Some n => let! p := argptr 1 n in ret ((λ p, (f, p, n)) <$> p)
      end
  end.
Definition sys_read : Y Z :=
  let! a := rw_args in
  match a with
  | None => ret (-1)
  | Some (f, p, n) => fileread f p n
  end.
Definition sys_write : Y Z :=
  let! a := rw_args in
  match a with
  | None => ret (-1)
  | Some (f, p, n) => filewrite f p n
  end.

Definition sys_close : Y Z :=
  let! a := argfd 0 in
  match a with
  | None => ret (-1)
  | Some (fd, f) => clear_fd fd ;;; fileclose f ;;; ret 0
  end.

Definition sys_fstat : Y Z :=
  let! a := argfd 0 in
  match a with
  | None => ret (-1)
  | Some (_, f) =>
      let! p := argptr 1 SIZEOF_STAT in
      match p with
      | None => ret (-1)
      | Some p =>
          let! st := filestat f in
          match st with
          | None => ret (-1)
          | Some st =>
              let! x := load_user p SIZEOF_STAT in
              store_user p (put_stat st x) ;;;
              ret 0
          end
      end
  end.

(** link and unlink inside the transaction are [link_paths] and [unlink_path] of
    Dirop; each of their returns is preceded by end_op. *)
Definition sys_link : Y Z :=
  let! old := argstr 0 in
  match old with
  | None => ret (-1)
  | Some (_, old) =>
      let! new := argstr 1 in
      match new with
      | None => ret (-1)
      | Some (_, new) => io_ io_begin_op ;;; let! r := io_ (io_link old new) in io_ io_end_op ;;; ret r
      end
  end.
Definition sys_unlink : Y Z :=
  let! path := argstr 0 in
  match path with
  | None => ret (-1)
  | Some (_, path) => io_ io_begin_op ;;; let! r := io_ (io_unlink path) in io_ io_end_op ;;; ret r
  end.

(** The inode that open works on, locked. *)
Definition open_inode (path : list Z) (omode : Z) : Y (option nat) :=
  if decide (Z.land omode O_CREATE ≠ 0) then io_ (io_create path T_FILE 0 0)
  else
    let! ip := io_ (io_namei path) in
    match ip with
    | None => ret None
    | Some ip =>
        io_ (io_ilock ip) ;;;
        let! ty := io_ (io_type ip) in
        if decide (ty = T_DIR ∧ omode ≠ O_RDONLY) then io_ (io_iunlockput ip) ;;; ret None
        else ret (Some ip)
    end.

Definition sys_open : Y Z :=
  let! path := argstr 0 in
  match path with
  | None => ret (-1)
  | Some (_, path) =>
      let! omode := argint 1 in
      match omode with
      | None => ret (-1)
      | Some omode =>
          io_ io_begin_op ;;;
          let! ip := open_inode path omode in
          match ip with
          | None => io_ io_end_op ;;; ret (-1)
          | Some ip =>
              let! f := filealloc in
              match f with
              | None => io_ (io_iunlockput ip) ;;; io_ io_end_op ;;; ret (-1)
              | Some f =>
                  let! fd := fdalloc f in
                  match fd with
                  | None => fileclose f ;;; io_ (io_iunlockput ip) ;;; io_ io_end_op ;;; ret (-1)
                  | Some fd =>
                      io_ (io_iunlock ip) ;;;
                      io_ io_end_op ;;;
                      let! g := the_file f in
                      put_file f (mkfile FD_INODE (fl_ref g) (bool_decide (Z.land omode O_WRONLY = 0))
                        (bool_decide (Z.land omode O_WRONLY ≠ 0 ∨ Z.land omode O_RDWR ≠ 0)) (fl_pipe g) (Some ip) 0) ;;;
                      ret (Z.of_nat fd)
                  end
              end
          end
      end
  end.

(** The end of mkdir and mknod. *)
Definition created (ip : option nat) : Y Z :=
  match ip with
  | None => io_ io_end_op ;;; ret (-1)
  | Some ip => io_ (io_iunlockput ip) ;;; io_ io_end_op ;;; ret 0
  end.
Definition sys_mkdir : Y Z :=
  io_ io_begin_op ;;;
  let! path := argstr 0 in
  match path with
  | None => created None
  | Some (_, path) => let! ip := io_ (io_create path T_DIR 0 0) in created ip
  end.
Definition sys_mknod : Y Z :=
  io_ io_begin_op ;;;
  let! path := argstr 0 in
  match path with
  | None => created None
  | Some (_, path) =>
      let! major := argint 1 in
      match major with
      | None => created None
      | Some major =>
          let! minor := argint 2 in
          match minor with
          | None => created None
          | Some minor => let! ip := io_ (io_create path T_DEV (s16 major) (s16 minor)) in created ip
          end
      end
  end.

Definition sys_chdir : Y Z :=
  io_ io_begin_op ;;;
  let! path := argstr 0 in
  match path with
  | None => io_ io_end_op ;;; ret (-1)
  | Some (_, path) =>
      let! ip := io_ (io_namei path) in
      match ip with
      | None => io_ io_end_op ;;; ret (-1)
      | Some ip =>
          io_ (io_ilock ip) ;;;
          let! ty := io_ (io_type ip) in
          if decide (ty ≠ T_DIR) then io_ (io_iunlockput ip) ;;; io_ io_end_op ;;; ret (-1)
          else
            io_ (io_iunlock ip) ;;;
            let! p := the_proc in
            let! cwd := of_opt (fp_cwd p) in
            io_ (io_iput cwd) ;;;
            io_ io_end_op ;;;
            put_proc (set_fp_cwd (Some ip) p) ;;;
            ret 0
      end
  end.

Definition sys_pipe : Y Z :=
  let! fd := argptr 0 8 in
  match fd with
  | None => ret (-1)
  | Some fd =>
      let! fs := pipealloc in
      match fs with
      | None => ret (-1)
      | Some (rf, wf) =>
          let! fd0 := fdalloc rf in
          match fd0 with
          | None => fileclose rf ;;; fileclose wf ;;; ret (-1)
          | Some fd0 =>
              let! fd1 := fdalloc wf in
              match fd1 with
              | None => clear_fd fd0 ;;; fileclose rf ;;; fileclose wf ;;; ret (-1)
              | Some fd1 =>
                  store_user fd (le_split 4 (Z.of_nat fd0)) ;;;
                  store_user (u32 (fd + 4)) (le_split 4 (Z.of_nat fd1)) ;;;
                  ret 0
              end
          end
      end
  end.

Definition sys_chown : Y Z :=
  let! path := argstr 0 in
  match path with
  | None => ret (-1)
  | Some (_, path) =>
      let! owner := argint 1 in
      match owner with
      | None => ret (-2)
      | Some owner =>
          if decide (owner < 0 ∨ 32767 < owner) then ret (-2)
          else
            let! group := argint 1 in
            match group with
            | None => ret (-3)
            | Some group =>
                if decide (group < 0 ∨ 32767 < group) then ret (-3) else io_ (io_chown path owner group)
            end
      end
  end.

(** sys_exec: the arguments, [None] for the returns of -1 *)
Fixpoint exec_argv (fuel : nat) (uargv i : Z) : Y (option (list (list Z))) :=
  match fuel with
  | O => ret None
  | S fuel' =>
      let! uarg := fetchint (u32 (uargv + 4 * i)) in
      match uarg with
      | None => ret None
      | Some uarg =>
          if decide (uarg = 0) then ret (Some [])
          else
            let! a := fetchstr (u32 uarg) in
            match a with
            | None => ret None
            | Some (_, a) => let! l := exec_argv fuel' uargv (i + 1) in ret (cons a <$> l)
            end
      end
  end.
Definition exec_args : Y (option (list Z * list (list Z))) :=
  let! path := argstr 0 in
  match path with
  | None => ret None
  | Some (_, path) =>
      let! uargv := argint 1 in
      match uargv with
      | None => ret None
      | Some uargv => let! l := exec_argv (Z.to_nat MAXARG) (u32 uargv) 0 in ret (pair path <$> l)
      end
  end.

(** ** fork and exit: the files and the current directory *)
Definition put_proc_at (j : nat) (p : fproc) : Y unit := modS (λ s, set_y_procs (<[j := p]> (y_procs s)) s).
Definition fork_fd (j fd : nat) : Y unit :=
  let! p := the_proc in
  let! f := of_opt (fp_ofile p !! fd) in
  match f with
  | None => skip
  | Some f =>
      let! f := filedup f in
      let! l := gets y_procs in
      let! np := of_opt (l !! j) in
      put_proc_at j (set_fp_ofile (<[fd := Some f]> (fp_ofile np)) np)
  end.
Definition fork_share (j : nat) : Y unit :=
  mfor (seq 0 NOFILE) (fork_fd j) ;;;
  let! p := the_proc in
  let! cwd := of_opt (fp_cwd p) in
  io_ (io_idup cwd) ;;;
  let! l := gets y_procs in
  let! np := of_opt (l !! j) in
  put_proc_at j (set_fp_cwd (Some cwd) np).

Definition exit_fd (fd : nat) : Y unit :=
  let! p := the_proc in
  let! f := of_opt (fp_ofile p !! fd) in
  match f with
  | None => skip
  | Some f => fileclose f ;;; clear_fd fd
  end.
Definition exit_close : Y unit :=
  mfor (seq 0 NOFILE) exit_fd ;;;
  io_ io_begin_op ;;;
  let! p := the_proc in
  let! cwd := of_opt (fp_cwd p) in
  io_ (io_iput cwd) ;;;
  io_ io_end_op ;;;
  let! p := the_proc in
  put_proc (set_fp_cwd None p).
End calls.
