(* ===== verification/SysfileInv.v ===== *)
(** * Descriptors: every reference is counted *)

From stdpp Require Import gmultiset.
From S2P Require Import Prelude CString ProcData Sync Block Words Log Fs Exec File FileInv FileRw Sysfile.
Local Open Scope Z_scope.

(** ** The arguments *)

(** The [n]th argument word, when it is inside the memory [m]. *)
Definition arg_word (m : list Z) (esp n : Z) : option Z :=
  let a := u32 (esp + 4 + 4 * n) in
  if decide (a + 4 ≤ Z.of_nat (length m)) then s32 <$> get_word m (Z.to_nat a) else None.

(** ** References from descriptors and current directories *)
Definition oref (o : option nat) : gmultiset nat := match o with Some f => {[+ f +]} | None => ∅ end.
Definition opens (l : list (option nat)) : gmultiset nat := ⋃+ (oref <$> l).
Definition descs (ps : list fproc) : gmultiset nat := ⋃+ ((λ p, opens (fp_ofile p)) <$> ps).
Definition cwd_obj (p : fproc) : gmultiset obj := match fp_cwd p with Some i => {[+ OInode i +]} | None => ∅ end.
Definition cwds (ps : list fproc) : gmultiset obj := ⋃+ (cwd_obj <$> ps).

Lemma opens_size l : (size (opens l) ≤ length l)%nat.
Proof.
  rewrite <- (Nat.mul_1_l (length l)). apply unions_size, list.Forall_forall. intros [f|] _; cbn [oref].
  - by rewrite gmultiset_size_singleton.
  - rewrite gmultiset_size_empty. lia.
Qed.
Lemma descs_size ps : Forall (λ p, length (fp_ofile p) = NOFILE) ps → (size (descs ps) ≤ NOFILE * length ps)%nat.
Proof.
  intros Hl. apply unions_size. eapply list.Forall_impl; [exact Hl|]. intros p Hp. cbn beta in *. rewrite <- Hp. apply opens_size.
Qed.
Lemma union_swap (X Y P P0 O O' : gmultiset nat) : X ⊎ P0 = Y ⊎ P → P ⊎ O = P0 ⊎ O' → X ⊎ O = Y ⊎ O'.
Proof. intros Hx1 Hx2. multiset_solver. Qed.
(** A descriptor changes. *)
Lemma descs_fd ps j p fd o o' :
  ps !! j = Some p → fp_ofile p !! fd = Some o →
  descs (<[j := set_fp_ofile (<[fd := o']> (fp_ofile p)) p]> ps) ⊎ oref o = descs ps ⊎ oref o'.
Proof.
  intros Hj Hfd. pose proof (unions_insert (λ p, opens (fp_ofile p)) ps j p (set_fp_ofile (<[fd := o']> (fp_ofile p)) p) Hj) as H1.
  cbn [fp_ofile set_fp_ofile] in H1. pose proof (unions_insert oref (fp_ofile p) fd o o' Hfd) as H2.
  exact (union_swap _ _ _ _ _ _ H1 H2).
Qed.
Lemma descs_elem ps j p fd f : ps !! j = Some p → fp_ofile p !! fd = Some (Some f) → f ∈ descs ps.
Proof.
  intros Hj Hfd. pose proof (unions_elem (λ p, opens (fp_ofile p)) ps j p Hj) as H1.
  pose proof (unions_elem oref (fp_ofile p) fd (Some f) Hfd) as H2. cbn [oref] in H2.
  apply gmultiset_singleton_subseteq_l. etrans; [exact H2|exact H1].
Qed.
Lemma cwds_ofile ps j p x : ps !! j = Some p → cwds (<[j := set_fp_ofile x p]> ps) = cwds ps.
Proof.
  intros Hj. pose proof (unions_insert cwd_obj ps j p (set_fp_ofile x p) Hj) as Hi.
  change (cwd_obj (set_fp_ofile x p)) with (cwd_obj p) in Hi. by apply (inj (.⊎ cwd_obj p)) in Hi.
Qed.
Lemma descs_cwd ps j p x : ps !! j = Some p → descs (<[j := set_fp_cwd x p]> ps) = descs ps.
Proof.
  intros Hj. pose proof (unions_insert (λ p, opens (fp_ofile p)) ps j p (set_fp_cwd x p) Hj) as Hi.
  by apply (inj (.⊎ opens (fp_ofile p))) in Hi.
Qed.
Lemma find_fd_Some l fd : find_fd l = Some fd → l !! fd = Some None ∧ ∀ j, (j < fd)%nat → ∃ f, l !! j = Some (Some f).
Proof.
  revert fd. induction l as [|[f|] l IH]; intros fd Hf; cbn [find_fd] in Hf; [done| |].
  - destruct (find_fd l) as [k|]; [|done]. injection Hf as <-. destruct (IH k eq_refl) as [H1 H2]. split; [done|].
    intros [|j] Hj; [by exists f|]. apply H2. lia.
  - injection Hf as <-. split; [done|]. lia.
Qed.

(** ** The invariant *)
Definition live_types (l : list file) : Prop := Forall (λ f, fl_ref f ≠ 0 → fl_type f ≠ FD_NONE) l.
Record procs_ok (ps : list fproc) (cur : nat) : Prop := mkpo {
  po_len : (length ps ≤ NPROC)%nat;
  po_fds : Forall (λ p, length (fp_ofile p) = NOFILE) ps;
  po_cur : ∃ p c, ps !! cur = Some p ∧ fp_cwd p = Some c
}.

Lemma find_nul_Some s n : find_nul s = Some n → ∃ a rest, s = a ++ 0 :: rest ∧ length a = n ∧ 0 ∉ a.
Proof.
  revert n. induction s as [|c s IH]; intros n Hf; cbn [find_nul] in Hf; [done|]. destruct (decide (c = 0)) as [->|Hc].
  - injection Hf as <-. exists [], s. split_and!; [done|done|set_solver].
  - destruct (find_nul s) as [k|]; [|done]. injection Hf as <-. destruct (IH k eq_refl) as (a & rest & -> & <- & Hz).
    exists (c :: a), rest. split_and!; [done|done|set_solver].
Qed.
Lemma find_nul_None s : find_nul s = None → 0 ∉ s.
Proof.
  induction s as [|c s IH]; cbn [find_nul]; [set_solver|]. destruct (decide (c = 0)); [done|].
  destruct (find_nul s); [done|]. set_solver.
Qed.

Section args.
Context {C : Type} `{Sync C} `{FileIO C} (E : string → Prop).
Implicit Types s : fsys C.
Definition mem_ok s : Prop := Z.of_nat (length (y_mem s)) < 2 ^ 31.

Lemma fetchint_eq s addr : mem_ok s → 0 ≤ addr < 2 ^ 32 →
  fetchint addr s =
    Ok (if decide (addr + 4 ≤ Z.of_nat (length (y_mem s))) then s32 <$> get_word (y_mem s) (Z.to_nat addr) else None, s).
Proof.
  unfold mem_ok. intros Hm Ha. unfold fetchint, proc_sz, gets, bind. set (len := Z.of_nat (length (y_mem s))) in *.
  destruct (decide (addr + 4 ≤ len)) as [Hin|Hout].
  - rewrite decide_False by (rewrite u32_small; lia). destruct (get_le_Some 4 (y_mem s) (Z.to_nat addr)) as [w Hw]; [lia|].
    unfold get_word. by rewrite Hw.
  - rewrite decide_True; [done|]. destruct (decide (len ≤ addr)); [by left|right]. rewrite u32_small; lia.
Qed.
Lemma argint_eq s n : mem_ok s → argint n s = Ok (arg_word (y_mem s) (y_esp s) n, s).
Proof. intros Hm. unfold argint, gets, bind. rewrite fetchint_eq by (done || apply u32_range). done. Qed.
Lemma wp_argint s n Q : mem_ok s → Q (arg_word (y_mem s) (y_esp s) n) s → wp E (argint n) Q s.
Proof. intros Hm HQ. by eapply wp_Ok; [apply argint_eq|]. Qed.

(** The pointer of a buffer of [size] bytes. *)
Definition arg_buf (m : list Z) (esp n size : Z) : option Z :=
  i ← arg_word m esp n;
  if decide (u32 i < Z.of_nat (length m) ∧ u32 i + size ≤ Z.of_nat (length m)) then Some (u32 i) else None.
Lemma argptr_eq s n size : mem_ok s → 0 ≤ size < 2 ^ 31 → argptr n size s = Ok (arg_buf (y_mem s) (y_esp s) n size, s).
Proof.
  intros Hm Hs. unfold argptr. rewrite (bind_Ok _ _ _ _ _ (argint_eq s n Hm)). unfold arg_buf.
  destruct (arg_word _ _ _) as [i|]; [|done]. cbn [mbind option_bind]. unfold proc_sz, gets, bind. pose proof (u32_range i) as Hi.
  unfold mem_ok in Hm. set (len := Z.of_nat (length (y_mem s))) in *. destruct (decide (len ≤ u32 i)) as [Hge|Hlt].
  { rewrite decide_True by (by left). by rewrite decide_False by lia. }
  rewrite (u32_small (u32 i + size)) by lia. destruct (decide (u32 i + size ≤ len)).
  - rewrite decide_False by lia. by rewrite decide_True by lia.
  - rewrite decide_True by lia. by rewrite decide_False by lia.
Qed.
Lemma wp_argptr s n size Q : mem_ok s →
  (∀ r, (∀ p, r = Some p → 0 ≤ p < Z.of_nat (length (y_mem s)) ∧ (0 ≤ size < 2 ^ 31 → p + size ≤ Z.of_nat (length (y_mem s)))) → Q r s) →
  wp E (argptr n size) Q s.
Proof.
  intros Hm HQ. destruct (decide (0 ≤ size < 2 ^ 31)) as [Hs|Hs].
  - eapply wp_Ok; [by apply argptr_eq|]. apply HQ. unfold arg_buf. intros p.
    destruct (arg_word _ _ _) as [i|]; [|done]. cbn [mbind option_bind]. pose proof (u32_range i).
    destruct (decide _); [|done]. intros [= <-]. lia.
  - unfold argptr. apply wp_bind, wp_argint; [done|]. destruct (arg_word _ _ _) as [i|]; [|by apply wp_ret, HQ].
    apply wp_bind, wp_gets. pose proof (u32_range i). destruct (decide _) as [|Hno]; apply wp_ret, HQ; [done|].
    intros p [= <-]. split; [lia|done].
Qed.

Lemma wp_fetchstr s addr Q :
  (∀ r, (∀ n x, r = Some (n, x) → ∃ a rest, x = a ++ 0 :: rest ∧ length a = n ∧ 0 ∉ a ∧ x = drop (Z.to_nat addr) (y_mem s)) → Q r s) →
  wp E (fetchstr addr) Q s.
Proof.
  intros HQ. unfold fetchstr. apply wp_bind, wp_gets. destruct (decide _); [by apply wp_ret, HQ|].
  apply wp_bind, wp_gets. apply wp_ret, HQ. intros k0 x Hx. destruct (find_nul _) as [k|] eqn:Hk; [|done].
  injection Hx as <- <-. destruct (find_nul_Some _ _ Hk) as (a & rest & Ea & Hl & Hz). eauto 6.
Qed.
Lemma wp_argstr s n Q : mem_ok s →
  (∀ r, (∀ k x, r = Some (k, x) → ∃ a rest, x = a ++ 0 :: rest ∧ length a = k ∧ 0 ∉ a) → Q r s) → wp E (argstr n) Q s.
Proof.
  intros Hm HQ. unfold argstr. apply wp_bind, wp_argint; [done|]. destruct (arg_word _ _ _) as [i|]; [|by apply wp_ret, HQ].
  apply wp_fetchstr. intros r Hr. apply HQ. intros k x Hx. destruct (Hr k x Hx) as (a & rest & ? & ? & ? & _). eauto.
Qed.
Lemma wp_argfd s n p Q : mem_ok s → y_procs s !! y_cur s = Some p → length (fp_ofile p) = NOFILE →
  (∀ r, (∀ fd f, r = Some (fd, f) → arg_word (y_mem s) (y_esp s) n = Some (Z.of_nat fd) ∧ fp_ofile p !! fd = Some (Some f)) → Q r s) →
  wp E (argfd n) Q s.
Proof.
  intros Hm Hp Hl HQ. unfold argfd. apply wp_bind, wp_argint; [done|]. destruct (arg_word _ _ _) as [i|]; [|by apply wp_ret, HQ].
  destruct (decide _) as [|Hno]; [by apply wp_ret, HQ|]. unfold the_proc. apply wp_bind, wp_bind, wp_gets, wp_bind, wp_gets.
  apply (wp_of_opt _ _ p); [done|].
  destruct (lookup_lt_is_Some_2 (fp_ofile p) (Z.to_nat i)) as [o Ho]; [rewrite Hl; lia|].
  apply wp_bind, (wp_of_opt _ _ o); [done|]. apply wp_ret, HQ. intros fd f. destruct o as [g|]; [|done]. intros [= <- <-].
  split; [|done]. f_equal. lia.
Qed.
End args.

(** ** Every call keeps the counts *)

Section calls.
Context {C : Type} `{FileLaws C} (E : string → Prop) (E_exhausted : ∀ e, exhausted e → E e).
Notation hat X b k dt L w := (@holds C _ (fio_at (mkfv X b k dt)) L w).
Implicit Types (s : fsys C) (l : list file) (D : gmultiset nat) (R X : gmultiset obj) (w : C) (dt : gmap nat (list Z)).

(** Between calls: the count of every entry of the table is the number of
    descriptors that refer to it, an entry in use has an object, and the kernel
    owns the objects of the entries and the current directories, nothing else. *)
Record fsys_ok s : Prop := mkfsok {
  so_core : ∃ dt, fcore (y_file s) (y_world s) (descs (y_procs s)) (cwds (y_procs s)) false None dt;
  so_live : live_types (y_file s);
  so_procs : procs_ok (y_procs s) (y_cur s);
  so_mem : mem_ok s
}.

Lemma fd_live_insert l i f : live_types l → (fl_ref f ≠ 0 → fl_type f ≠ FD_NONE) → live_types (<[i := f]> l).
Proof. intros. by apply Forall_insert. Qed.
Lemma live_lookup l i f : live_types l → l !! i = Some f → fl_ref f ≠ 0 → fl_type f ≠ FD_NONE.
Proof. intros Hl Hf. exact (Forall_lookup_1 _ _ _ _ Hl Hf). Qed.
Lemma procs_put ps cur p p' : procs_ok ps cur → ps !! cur = Some p → length (fp_ofile p') = length (fp_ofile p) →
  is_Some (fp_cwd p') → procs_ok (<[cur := p']> ps) cur.
Proof.
  intros [Hl Hf _] Hp Hlen [c Hc]. split.
  - by rewrite length_insert.
  - apply Forall_insert; [done|]. rewrite Hlen. exact (Forall_lookup_1 _ _ _ _ Hf Hp).
  - exists p', c. split; [|done]. apply list_lookup_insert_eq. by eapply lookup_lt_Some.
Qed.
Lemma procs_size ps cur : procs_ok ps cur → (size (descs ps) ≤ 1024)%nat.
Proof. intros [Hl Hf _]. pose proof (descs_size ps Hf). unfold NOFILE, NPROC in *. lia. Qed.

(** The parts of a good state. *)
Lemma fsys_parts s : fsys_ok s → ∃ dt p c, fcore (y_file s) (y_world s) (descs (y_procs s)) (cwds (y_procs s)) false None dt ∧
  y_procs s !! y_cur s = Some p ∧ fp_cwd p = Some c ∧ length (fp_ofile p) = NOFILE ∧ (size (descs (y_procs s)) ≤ 1024)%nat.
Proof.
  intros [[dt Hc] _ Hp _]. pose proof Hp as [_ Hf (p & c & Hl & Hcw)]. exists dt, p, c. split_and!; [done..| |by eapply procs_size].
  exact (Forall_lookup_1 _ _ _ _ Hf Hl).
Qed.

(** ** fdalloc *)
Lemma wp_fdalloc s f p Q :
  y_procs s !! y_cur s = Some p → 
  (find_fd (fp_ofile p) = None → Q None s) →
  (∀ fd, find_fd (fp_ofile p) = Some fd →
     Q (Some fd) (set_y_procs (<[y_cur s := set_fp_ofile (<[fd := Some f]> (fp_ofile p)) p]> (y_procs s)) s)) →
  wp E (fdalloc f) Q s.
Proof.
  intros Hp Hn Hs. unfold fdalloc, the_proc. apply wp_bind, wp_bind, wp_gets, wp_bind, wp_gets. apply (wp_of_opt _ _ p); [done|].
  destruct (find_fd (fp_ofile p)) as [fd|]; [|apply wp_ret; auto]. apply wp_bind, wp_modS, wp_ret. auto.
Qed.
Lemma wp_clear_fd s fd p Q :
  y_procs s !! y_cur s = Some p →
  Q tt (set_y_procs (<[y_cur s := set_fp_ofile (<[fd := None]> (fp_ofile p)) p]> (y_procs s)) s) → wp E (clear_fd fd) Q s.
Proof.
  intros Hp HQ. unfold clear_fd, the_proc. apply wp_bind, wp_bind, wp_gets, wp_bind, wp_gets. apply (wp_of_opt _ _ p); [done|].
  by apply wp_modS.
Qed.
(** The references after a descriptor is filled or cleared. *)
Lemma descs_fill ps j p fd f : ps !! j = Some p → fp_ofile p !! fd = Some None →
  descs (<[j := set_fp_ofile (<[fd := Some f]> (fp_ofile p)) p]> ps) = {[+ f +]} ⊎ descs ps.
Proof.
  intros Hj Hfd. pose proof (descs_fd ps j p fd None (Some f) Hj Hfd) as Hd. cbn [oref] in Hd.
  rewrite (right_id_L ∅ (⊎)) in Hd. by rewrite (comm_L (⊎) {[+ _ +]}).
Qed.
Lemma descs_clear ps j p fd f : ps !! j = Some p → fp_ofile p !! fd = Some (Some f) →
  {[+ f +]} ⊎ descs (<[j := set_fp_ofile (<[fd := None]> (fp_ofile p)) p]> ps) = descs ps.
Proof.
  intros Hj Hfd. pose proof (descs_fd ps j p fd (Some f) None Hj Hfd) as Hd. cbn [oref] in Hd.
  rewrite (right_id_L ∅ (⊎)) in Hd. by rewrite (comm_L (⊎) {[+ _ +]}).
Qed.

(** ** dup and close *)
Lemma wp_sys_dup s p : fsys_ok s → y_procs s !! y_cur s = Some p →
  wp E sys_dup (λ r s', fsys_ok s' ∧ y_mem s' = y_mem s ∧
    ((r = -1 ∧ s' = s) ∨
     ∃ fd0 fd f, arg_word (y_mem s) (y_esp s) 0 = Some (Z.of_nat fd0) ∧ fp_ofile p !! fd0 = Some (Some f) ∧
       find_fd (fp_ofile p) = Some fd ∧ r = Z.of_nat fd ∧
       y_procs s' = <[y_cur s := set_fp_ofile (<[fd := Some f]> (fp_ofile p)) p]> (y_procs s) ∧
       ∃ g, y_file s !! f = Some g ∧ y_file s' = <[f := dup1 g]> (y_file s))) s.
Proof.
  intros Hok Hp. destruct (fsys_parts s Hok) as (dt & p' & c & Hc & Hp' & Hcw & Hlen & Hsz). rewrite Hp in Hp'. injection Hp' as <-.
  unfold sys_dup. apply wp_bind, (wp_argfd E s 0 p); [apply Hok|done|done|]. intros [[fd0 f]|] Ha; [|apply wp_ret; auto].
  destruct (Ha fd0 f eq_refl) as [Harg Hfd0]. apply wp_bind, (wp_fdalloc s f p); [done|intros _; apply wp_ret; auto|].
  intros fd Hfree. destruct (find_fd_Some _ _ Hfree) as [Hnone _].
  set (ps := <[y_cur s := _]> (y_procs s)). apply wp_bind. rewrite <- (upd_id (set_y_procs ps s)).
  eapply wp_filedup; [exact Hc|by eapply descs_elem|lia|]. intros g w' Hg Hc'. apply wp_ret.
  assert (1 ≤ fl_ref g) as Hg1.
  { destruct (fcore_file _ _ _ _ _ _ _ f Hc) as (g' & Hg' & _ & ?); [by eapply descs_elem|]. cbn in Hg. congruence. }
  split; [|split; [done|]].
  - split; cbn [y_file y_procs y_world y_cur upd set_y_procs].
    + exists dt. unfold ps. rewrite (descs_fill _ _ p), cwds_ofile by done. exact Hc'.
    + apply fd_live_insert; [apply Hok|]. intros _. apply (live_lookup _ _ _ (so_live _ Hok) Hg). lia.
    + eapply procs_put; [apply Hok|done|by cbn; rewrite length_insert|cbn; by eexists].
    + apply Hok.
  - right. exists fd0, fd, f. split_and!; try done. exists g. done.
Qed.

Lemma close1_live f : (fl_ref f ≠ 0 → fl_type f ≠ FD_NONE) → 1 ≤ fl_ref f → fl_ref (close1 f) ≠ 0 → fl_type (close1 f) ≠ FD_NONE.
Proof. intros Hf Hr. unfold close1. destruct (decide _); cbn; [done|]. intros _. apply Hf. lia. Qed.

Lemma wp_sys_close s p : fsys_ok s → y_procs s !! y_cur s = Some p →
  wp E sys_close (λ r s', fsys_ok s' ∧ y_mem s' = y_mem s ∧
    ((r = -1 ∧ s' = s) ∨
     ∃ fd f g, arg_word (y_mem s) (y_esp s) 0 = Some (Z.of_nat fd) ∧ fp_ofile p !! fd = Some (Some f) ∧ r = 0 ∧
       y_procs s' = <[y_cur s := set_fp_ofile (<[fd := None]> (fp_ofile p)) p]> (y_procs s) ∧
       y_file s !! f = Some g ∧ y_file s' = <[f := close1 g]> (y_file s))) s.
Proof.
  intros Hok Hp. destruct (fsys_parts s Hok) as (dt & p' & c & Hc & Hp' & Hcw & Hlen & Hsz). rewrite Hp in Hp'. injection Hp' as <-.
  unfold sys_close. apply wp_bind, (wp_argfd E s 0 p); [apply Hok|done|done|]. intros [[fd f]|] Ha; [|apply wp_ret; auto].
  destruct (Ha fd f eq_refl) as [Harg Hfd]. destruct (fcore_file _ _ _ _ _ _ _ f Hc) as (g & Hg & _ & Hg1); [by eapply descs_elem|].
  apply wp_bind, (wp_clear_fd s fd p); [done|]. set (ps := <[y_cur s := _]> (y_procs s)).
  assert ({[+ f +]} ⊎ descs ps = descs (y_procs s)) as Hds by (by apply descs_clear).
  rewrite <- Hds in Hc. apply wp_bind. rewrite <- (upd_id (set_y_procs ps s)).
  eapply wp_fileclose; [exact Hc| |exact Hg|by right|].
  { rewrite <- Hds, gmultiset_size_disj_union in Hsz. lia. }
  intros w' Hc'. apply wp_ret. split; [|split; [done|]].
  - split; cbn [y_file y_procs y_world y_cur upd set_y_procs].
    + exists dt. unfold ps in *. rewrite cwds_ofile by done. exact Hc'.
    + apply fd_live_insert; [apply Hok|]. apply close1_live; [|done]. apply (live_lookup _ _ _ (so_live _ Hok) Hg).
    + eapply procs_put; [apply Hok|done|by cbn; rewrite length_insert|cbn; by eexists].
    + apply Hok.
  - right. exists fd, f, g. done.
Qed.

(** ** read, write and fstat *)
Lemma fsys_files s l w m dt : fsys_ok s → fcore l w (descs (y_procs s)) (cwds (y_procs s)) false None dt → live_types l →
  length m = length (y_mem s) → fsys_ok (updm s l w m).
Proof.
  intros [_ _ Hp Hm] Hc Hl Hlen. split; cbn [y_file y_procs y_world y_cur updm]; [by exists dt|done|done|].
  unfold mem_ok in *. cbn [y_mem updm]. by rewrite Hlen.
Qed.
Lemma updm_id s : updm s (y_file s) (y_world s) (y_mem s) = s.
Proof. by destruct s. Qed.
(** The file that a descriptor refers to. *)
Lemma open_file s dt p fd f : fsys_ok s → fcore (y_file s) (y_world s) (descs (y_procs s)) (cwds (y_procs s)) false None dt →
  y_procs s !! y_cur s = Some p → fp_ofile p !! fd = Some (Some f) → ∃ g, y_file s !! f = Some g ∧ file_ok g ∧ fl_type g ≠ FD_NONE.
Proof.
  intros Hok Hc Hp Hfd. destruct (fcore_file _ _ _ _ _ _ _ f Hc) as (g & Hg & Hgk & Hg1); [by eapply descs_elem|].
  exists g. split_and!; [done|done|]. apply (live_lookup _ _ _ (so_live _ Hok) Hg). lia.
Qed.

Lemma wp_rw_args s p Q : fsys_ok s → y_procs s !! y_cur s = Some p → Q None s →
  (∀ fd f a n, fp_ofile p !! fd = Some (Some f) → arg_word (y_mem s) (y_esp s) 2 = Some n → 0 ≤ a < Z.of_nat (length (y_mem s)) →
     (0 ≤ n < 2 ^ 31 → a + n ≤ Z.of_nat (length (y_mem s))) → Q (Some (f, a, n)) s) →
  wp E rw_args Q s.
Proof.
  intros Hok Hp Hn Hs. destruct (fsys_parts s Hok) as (dt & p' & c & _ & Hp' & _ & Hlen & _). rewrite Hp in Hp'. injection Hp' as <-.
  unfold rw_args. apply wp_bind, (wp_argfd E s 0 p); [apply Hok|done|done|]. intros [[fd f]|] Ha; [|by apply wp_ret].
  destruct (Ha fd f eq_refl) as [_ Hfd]. apply wp_bind, wp_argint; [apply Hok|].
  destruct (arg_word (y_mem s) (y_esp s) 2) as [n|] eqn:Hw; [|by apply wp_ret].
  apply wp_bind, wp_argptr; [apply Hok|]. intros [a|] Hb; [|by apply wp_ret]. destruct (Hb a eq_refl) as [Hb1 Hb2].
  apply wp_ret. by apply (Hs fd f a n).
Qed.
Lemma arg_word_range m esp n v : arg_word m esp n = Some v → - 2 ^ 31 ≤ v < 2 ^ 31.
Proof. unfold arg_word. destruct (decide _); [|done]. destruct (get_word _ _); [|done]. intros [= <-]. apply s32_range. Qed.

Lemma length_splice_fit (m b : list Z) d : (d + length b ≤ length m)%nat → length (splice m d b) = length m.
Proof. intros. unfold splice. rewrite !length_app, length_take, length_drop. lia. Qed.

Lemma wp_sys_read s : fsys_ok s → (∀ n, arg_word (y_mem s) (y_esp s) 2 = Some n → 0 ≤ n) → wp E sys_read (λ _ s', fsys_ok s') s.
Proof.
  intros Hok Hpos. destruct (fsys_parts s Hok) as (dt & p & c & Hc & Hp & _ & _ & _). unfold sys_read.
  apply wp_bind, (wp_rw_args s p); [done|done|by apply wp_ret|]. intros fd f a n Hfd Hn Ha Hb.
  pose proof (arg_word_range _ _ _ _ Hn) as Hnr. specialize (Hpos n Hn). specialize (Hb ltac:(lia)).
  destruct (open_file s dt p fd f Hok Hc Hp Hfd) as (g & Hg & [_ Hk2 Hk3 _] & Hty). rewrite <- (updm_id s) at 1.
  destruct (fl_readable g) eqn:Hrd.
  2: { unfold fileread. apply wp_bind, wp_bind, wp_gets, (wp_of_opt _ _ g); [done|]. rewrite Hrd. apply wp_ret. by rewrite updm_id. }
  destruct (fl_type g) eqn:Ht; [done| |].
  - destruct (Hk2 eq_refl) as [[q Hq] _].
    eapply (wp_fileread_pipe E s (y_file s)); [exact Hc|exact Hg|done|exact Hq|done|lia|lia|done|].
    intros r bytes w' Hr Hl Hc'. eapply fsys_files; [done|exact Hc'|apply Hok|]. apply length_splice_fit. lia.
  - destruct (Hk3 eq_refl) as [ip Hip].
    eapply (wp_fileread_inode E E_exhausted s (y_file s)); [exact Hc|exact Hg|done|exact Hip|done|lia|lia|done|].
    intros r bytes w' o Hr Hl _ _ Hc'. eapply fsys_files; [done|exact Hc'| |apply length_splice_fit; lia].
    apply fd_live_insert; [apply Hok|]. intros _. cbn. by rewrite Ht.
Qed.

Lemma wp_sys_write s : fsys_ok s → wp E sys_write (λ _ s', fsys_ok s') s.
Proof.
  intros Hok. destruct (fsys_parts s Hok) as (dt & p & c & Hc & Hp & _ & _ & _). unfold sys_write.
  apply wp_bind, (wp_rw_args s p); [done|done|by apply wp_ret|]. intros fd f a n Hfd Hn Ha Hb.
  pose proof (arg_word_range _ _ _ _ Hn) as Hnr. pose proof (so_mem _ Hok) as Hm. unfold mem_ok in Hm.
  destruct (open_file s dt p fd f Hok Hc Hp Hfd) as (g & Hg & [_ Hk2 Hk3 _] & Hty).
  unfold filewrite. apply wp_bind, wp_bind, wp_gets, (wp_of_opt _ _ g); [done|].
  destruct (fl_writable g) eqn:Hwr; [|by apply wp_ret]. destruct (fl_type g) eqn:Ht; [done| |].
  - destruct (Hk2 eq_refl) as [[q Hq] _]. apply wp_bind, (wp_of_opt _ _ q); [done|]. apply wp_bind, wp_load_user; [lia|lia|].
    eapply wp_zoom, io_pipewrite_law; [apply Hc| |].
    + rewrite <- Hwr. by eapply own_pipe.
    + intros r w' Hw'. rewrite <- (updm_id s). change (set_y_world w' (updm s _ _ _)) with (updm s (y_file s) w' (y_mem s)).
      eapply fsys_files; [done| |apply Hok|done]. by eapply fcore_world.
  - destruct (Hk3 eq_refl) as [ip Hip]. apply wp_bind. rewrite <- (updm_id s) at 1.
    eapply (wp_filewrite_from E E_exhausted _ s (y_mem s) _ _ f a n ip (y_file s) (y_world s) dt 0 g); [exact Hc|exact Hg|done|done|lia|lia|lia|lia|lia| |].
    { rewrite FW_MAX_eq. pose proof (Z.div_mod n 6656 ltac:(lia)). pose proof (Z.mod_pos_bound n 6656 ltac:(lia)).
      destruct (decide (0 ≤ n)) as [Hpos|Hneg]; [assert (0 ≤ n / 6656) by (apply Z.div_pos; lia); lia|lia]. }
    intros j w' dt' o Hc' _ _. apply wp_ret. eapply fsys_files; [done|exact Hc'| |done].
    apply fd_live_insert; [apply Hok|]. intros _. cbn. by rewrite Ht.
Qed.

Lemma length_put_stat st x : length x = 32%nat → length (put_stat st x) = 32%nat.
Proof.
  intros Hx. unfold put_stat.
  repeat (rewrite length_splice_fit; [|rewrite length_le_split; repeat (rewrite length_splice_fit; [|rewrite length_le_split]); lia]). done.
Qed.

Lemma wp_sys_fstat s : fsys_ok s → wp E sys_fstat (λ _ s', fsys_ok s') s.
Proof.
  intros Hok. destruct (fsys_parts s Hok) as (dt & p & c & Hc & Hp & _ & Hlen & _). unfold sys_fstat.
  apply wp_bind, (wp_argfd E s 0 p); [apply Hok|done|done|]. intros [[fd f]|] Ha; [|by apply wp_ret].
  destruct (Ha fd f eq_refl) as [_ Hfd]. apply wp_bind, wp_argptr; [apply Hok|]. intros [a|] Hb; [|by apply wp_ret].
  destruct (Hb a eq_refl) as [Hb1 Hb2]. specialize (Hb2 ltac:(unfold SIZEOF_STAT; lia)).
  destruct (open_file s dt p fd f Hok Hc Hp Hfd) as (g & Hg & [_ _ Hk3 _] & _).
  unfold filestat. apply wp_bind, wp_bind, wp_bind, wp_gets, (wp_of_opt _ _ g); [done|].
  destruct (decide (fl_type g = FD_INODE)) as [Ht|]; [|apply wp_ret; by apply wp_ret].
  destruct (Hk3 Ht) as [ip Hip]. apply wp_bind, (wp_of_opt _ _ ip); [done|].
  eapply wp_bind, wp_zoom, io_ilock_law; [apply Hc|by eapply own_inode|]. intros w1 Hw1.
  eapply wp_bind, wp_zoom, io_stati_law; [exact Hw1|]. intros st w2 Hw2.
  eapply wp_bind, wp_zoom, io_iunlock_law; [exact Hw2|]. intros w3 Hw3. apply wp_ret.
  apply wp_bind, wp_load_user; [lia|done|]. cbn [y_mem set_y_world]. unfold SIZEOF_STAT in *.
  set (x := take _ _). assert (length x = 32%nat) as Hx by (unfold x; rewrite length_take, length_drop; lia).
  apply wp_bind, wp_store_user; [lia|rewrite length_put_stat by done; cbn [y_mem set_y_world]; lia|]. apply wp_ret.
  change (fsys_ok (updm s (y_file s) w3 (splice (y_mem s) (Z.to_nat a) (put_stat st x)))).
  eapply fsys_files; [done|by eapply fcore_world|apply Hok|]. apply length_splice_fit. rewrite length_put_stat by done. lia.
Qed.
End calls.
