(* ===== verification/SysfileOpen.v ===== *)
(** * open, mkdir, mknod, chdir, pipe, and the files of fork and exit *)

From stdpp Require Import gmultiset.
From S2P Require Import Prelude CString ProcData Sync Block Words Log Fs Exec File FileInv FileRw Sysfile SysfileInv.
Local Open Scope Z_scope.

Lemma union_comm_nat (x r : nat) (D : gmultiset nat) : {[+ x +]} ⊎ ({[+ r +]} ⊎ D) = {[+ r +]} ⊎ ({[+ x +]} ⊎ D).
Proof. multiset_solver. Qed.

Section opening.
Context {C : Type} `{FileLaws C} (E : string → Prop) (E_exhausted : ∀ e, exhausted e → E e).
Notation hat X b k dt L w := (@holds C _ (fio_at (mkfv X b k dt)) L w).
Implicit Types (s : fsys C) (l : list file) (D : gmultiset nat) (R X : gmultiset obj) (w : C) (dt : gmap nat (list Z)).

(** An object more, or less, besides those of the table. *)
Lemma hat_in l R x b k dt w : hat ({[+ x +]} ⊎ (objs l ⊎ R)) b k dt [] w → hat (objs l ⊎ ({[+ x +]} ⊎ R)) b k dt [] w.
Proof. apply hat_eq. by rewrite (assoc_L (⊎)), (comm_L (⊎) {[+ x +]} (objs l)), <- (assoc_L (⊎)). Qed.
Lemma hat_out l R x b k dt w : hat (objs l ⊎ ({[+ x +]} ⊎ R)) b k dt [] w → hat ({[+ x +]} ⊎ (objs l ⊎ R)) b k dt [] w.
Proof. apply hat_eq. by rewrite (assoc_L (⊎)), (comm_L (⊎) (objs l)), <- (assoc_L (⊎)). Qed.
Lemma fcore_extra l w w' D R R' b k dt b' k' dt' :
  fcore l w D R b k dt → hat (objs l ⊎ R') b' k' dt' [] w' → fcore l w' D R' b' k' dt'.
Proof. intros [] Hw. by split. Qed.

Lemma wp_begin s l w D R dt Q : fcore l w D R false None dt → (∀ w', fcore l w' D R true None dt → Q tt (upd s l w')) →
  wp E (io_ io_begin_op) Q (upd s l w).
Proof. intros Hc HQ. eapply wp_zoom, io_begin_op_law; [apply Hc|]. intros w' Hw'. apply HQ. by eapply fcore_world. Qed.
Lemma wp_end s l w D R dt Q : fcore l w D R true None dt → (∀ w', fcore l w' D R false None dt → Q tt (upd s l w')) →
  wp E (io_ io_end_op) Q (upd s l w).
Proof. intros Hc HQ. eapply wp_zoom, io_end_op_law; [apply Hc|]. intros w' Hw'. apply HQ. by eapply fcore_world. Qed.
Lemma wp_drop_inode s l w D R dt ip Q : fcore l w D ({[+ OInode ip +]} ⊎ R) true (Some ip) dt →
  (∀ w', fcore l w' D R true None dt → Q tt (upd s l w')) → wp E (io_ (io_iunlockput ip)) Q (upd s l w).
Proof.
  intros Hc HQ. eapply wp_zoom, io_iunlockput_law; [apply hat_out, Hc|]. intros w' Hw'. apply HQ. by eapply fcore_extra.
Qed.
Lemma wp_unlock_inode s l w D R b dt ip Q : fcore l w D R b (Some ip) dt →
  (∀ w', fcore l w' D R b None dt → Q tt (upd s l w')) → wp E (io_ (io_iunlock ip)) Q (upd s l w).
Proof. intros Hc HQ. eapply wp_zoom, io_iunlock_law; [apply Hc|]. intros w' Hw'. apply HQ. by eapply fcore_world. Qed.
Lemma wp_namei s l w D R dt path Q : fcore l w D R true None dt →
  (∀ w', fcore l w' D R true None dt → Q None (upd s l w')) →
  (∀ ip w' dt', fcore l w' D ({[+ OInode ip +]} ⊎ R) true None dt' → Q (Some ip) (upd s l w')) →
  wp E (io_ (io_namei path)) Q (upd s l w).
Proof.
  intros Hc Hn Hs. eapply wp_zoom, io_namei_law; [done|apply Hc| |].
  - intros w' Hw'. apply Hn. by eapply fcore_world.
  - intros ip dt' w' _ Hw'. eapply (Hs ip w' dt'), fcore_extra; [exact Hc|by apply hat_in].
Qed.
Lemma wp_create s l w D R dt path ty ma mi Q : fcore l w D R true None dt →
  (∀ w', fcore l w' D R true None dt → Q None (upd s l w')) →
  (∀ ip w' dt', fcore l w' D ({[+ OInode ip +]} ⊎ R) true (Some ip) dt' → Q (Some ip) (upd s l w')) →
  wp E (io_ (io_create path ty ma mi)) Q (upd s l w).
Proof.
  intros Hc Hn Hs. eapply wp_zoom, io_create_law; [done|apply Hc| |].
  - intros w' Hw'. apply Hn. by eapply fcore_world.
  - intros ip dt' w' _ Hw'. eapply (Hs ip w' dt'), fcore_extra; [exact Hc|by apply hat_in].
Qed.
Lemma wp_lock_inode s l w D R b dt ip Q : fcore l w D ({[+ OInode ip +]} ⊎ R) b None dt →
  (∀ w', fcore l w' D ({[+ OInode ip +]} ⊎ R) b (Some ip) dt → Q tt (upd s l w')) → wp E (io_ (io_ilock ip)) Q (upd s l w).
Proof.
  intros Hc HQ. eapply wp_zoom, io_ilock_law; [apply Hc| |].
  - clear. set (X := objs l). clearbody X. multiset_solver.
  - intros w' Hw'. apply HQ. by eapply fcore_world.
Qed.
Lemma wp_type s l w D R b dt ip Q : fcore l w D R b (Some ip) dt →
  (∀ ty w', fcore l w' D R b (Some ip) dt → Q ty (upd s l w')) → wp E (io_ (io_type ip)) Q (upd s l w).
Proof. intros Hc HQ. eapply wp_zoom, io_type_law; [apply Hc|]. intros ty w' Hw'. apply HQ. by eapply fcore_world. Qed.

(** A good state again. *)
Lemma fsys_upd s l w dt : fsys_ok s → fcore l w (descs (y_procs s)) (cwds (y_procs s)) false None dt → live_types l → fsys_ok (upd s l w).
Proof. intros Hok Hc Hl. exact (fsys_files s l w (y_mem s) dt Hok Hc Hl eq_refl). Qed.

(** ** open *)
Lemma wp_open_inode s l w D R dt path omode Q : fcore l w D R true None dt →
  (∀ w' dt', fcore l w' D R true None dt' → Q None (upd s l w')) →
  (∀ ip w' dt', fcore l w' D ({[+ OInode ip +]} ⊎ R) true (Some ip) dt' → Q (Some ip) (upd s l w')) →
  wp E (open_inode path omode) Q (upd s l w).
Proof.
  intros Hc Hn Hs. unfold open_inode. destruct (decide _); [eapply wp_create; [done|intros; by eapply Hn|done]|].
  eapply wp_bind, wp_namei; [exact Hc|intros w' Hw'; apply wp_ret; by eapply Hn|]. intros ip w1 dt1 Hc1.
  eapply wp_bind, wp_lock_inode; [exact Hc1|]. intros w2 Hc2. eapply wp_bind, wp_type; [exact Hc2|]. intros ty w3 Hc3.
  destruct (decide _); [|apply wp_ret; by eapply Hs].
  eapply wp_bind, wp_drop_inode; [exact Hc3|]. intros w4 Hc4. apply wp_ret. by eapply Hn.
Qed.

Lemma wp_sys_open s : fsys_ok s → wp E sys_open (λ _ s', fsys_ok s') s.
Proof.
  intros Hok. destruct (fsys_parts s Hok) as (dt & p & c & Hc & Hp & Hcw & Hlen & Hsz). unfold sys_open.
  apply wp_bind, wp_argstr; [apply Hok|]. intros [[k path]|] _; [|by apply wp_ret].
  apply wp_bind, wp_argint; [apply Hok|]. destruct (arg_word _ _ _) as [omode|]; [|by apply wp_ret].
  rewrite <- (upd_id s). set (l := y_file s) in *. pose proof (so_live _ Hok) as Hlive. fold l in Hlive.
  eapply wp_bind, wp_begin; [exact Hc|]. intros w1 Hc1. eapply wp_bind, wp_open_inode; [exact Hc1| |].
  { intros w2 dt2 Hc2. eapply wp_bind, wp_end; [exact Hc2|]. intros w3 Hc3. apply wp_ret. by eapply fsys_upd. }
  intros ip w2 dt2 Hc2. eapply wp_bind, wp_filealloc; [exact Hc2| |].
  { intros w3 Hc3 _. eapply wp_bind, wp_drop_inode; [exact Hc3|]. intros w4 Hc4. eapply wp_bind, wp_end; [exact Hc4|]. intros w5 Hc5.
    apply wp_ret. by eapply fsys_upd. }
  intros f g w3 Hnew Hg Hty Hc3. set (g1 := set_fl_ref 1 g) in *. set (l1 := <[f := g1]> l) in *.
  assert (f < length l)%nat as Hlt by (by eapply lookup_lt_Some).
  assert (l1 !! f = Some g1) as Hg1 by (by apply list_lookup_insert_eq).
  apply wp_bind, (wp_fdalloc E (upd s l1 w3) f p); [done| |].
  - intros _. eapply wp_bind, (wp_fileclose E s l1); [exact Hc3|lia|exact Hg1|by left|].
    intros w4 Hc4. eapply wp_bind, wp_drop_inode; [exact Hc4|]. intros w5 Hc5. eapply wp_bind, wp_end; [exact Hc5|]. intros w6 Hc6.
    apply wp_ret. eapply fsys_upd; [done|exact Hc6|]. unfold l1. rewrite list_insert_insert_eq. by apply fd_live_insert.
  - intros fd Hfree. destruct (find_fd_Some _ _ Hfree) as [Hnone _]. set (ps := <[y_cur (upd s l1 w3) := _]> _).
    change (set_y_procs ps (upd s l1 w3)) with (upd (set_y_procs ps s) l1 w3).
    eapply wp_bind, wp_unlock_inode; [exact Hc3|]. intros w4 Hc4. eapply wp_bind, wp_end; [exact Hc4|]. intros w5 Hc5.
    apply wp_bind, (wp_the_file E (set_y_procs ps s) l1 w5 f g1); [done|]. set (g2 := mkfile _ _ _ _ _ _ _).
    apply wp_bind, wp_put_file, wp_ret.
    assert (descs ps = {[+ f +]} ⊎ descs (y_procs s)) as Hds by (by apply descs_fill).
    split; cbn [y_file y_procs y_world y_cur upd set_y_procs].
    + exists dt2. unfold ps. cbn [y_procs y_cur upd]. rewrite cwds_ofile by done. fold ps. change (<[y_cur s := _]> (y_procs s)) with ps.
      rewrite Hds. eapply fcore_insert; [exact Hc5|exact Hg1| |apply (fc_ref _ _ _ _ _ _ _ Hc5 f g1 Hg1)|done|].
      * split; cbn; [done|done|by eexists|lia].
      * pose proof (objs_insert l1 f g1 g2 Hg1) as Ho. unfold file_obj in Ho. cbn in Ho. rewrite Hty in Ho.
        eapply hat_eq; [|apply Hc5]. revert Ho. set (A := objs l1). set (B := objs (<[f := g2]> l1)). clearbody A B. clear.
        rewrite (right_id_L ∅ (⊎)). intros ->. by rewrite <- (assoc_L (⊎)).
    + unfold l1. rewrite list_insert_insert_eq. by apply fd_live_insert.
    + eapply procs_put; [apply Hok|done|by cbn; rewrite length_insert|cbn; by eexists].
    + apply Hok.
Qed.

(** ** mkdir, mknod, chdir, chown *)
Lemma wp_created s l w dt R ip : fsys_ok s → live_types l →
  match ip with
  | None => R = ∅ ∧ fcore l w (descs (y_procs s)) (cwds (y_procs s)) true None dt
  | Some i => fcore l w (descs (y_procs s)) ({[+ OInode i +]} ⊎ cwds (y_procs s)) true (Some i) dt
  end → wp E (created ip) (λ _ s', fsys_ok s') (upd s l w).
Proof.
  intros Hok Hl Hc. destruct ip as [i|]; cbn [created].
  - eapply wp_bind, wp_drop_inode; [exact Hc|]. intros w1 Hc1. eapply wp_bind, wp_end; [exact Hc1|]. intros w2 Hc2. apply wp_ret. by eapply fsys_upd.
  - destruct Hc as [_ Hc]. eapply wp_bind, wp_end; [exact Hc|]. intros w2 Hc2. apply wp_ret. by eapply fsys_upd.
Qed.
Lemma wp_create_call s l w dt path ty ma mi : fsys_ok s → live_types l →
  fcore l w (descs (y_procs s)) (cwds (y_procs s)) true None dt →
  wp E (let! ip := io_ (io_create path ty ma mi) in created ip) (λ _ s', fsys_ok s') (upd s l w).
Proof.
  intros Hok Hl Hc. eapply wp_bind, wp_create; [exact Hc| |].
  - intros w1 Hc1. by eapply (wp_created s l w1 dt ∅ None).
  - intros ip w1 dt1 Hc1. by eapply (wp_created s l w1 dt1 ∅ (Some ip)).
Qed.
Lemma mem_upd s l w : fsys_ok s → mem_ok (upd s l w).
Proof. intros Hok. apply Hok. Qed.

Lemma wp_sys_mkdir s : fsys_ok s → wp E sys_mkdir (λ _ s', fsys_ok s') s.
Proof.
  intros Hok. destruct (fsys_parts s Hok) as (dt & p & c & Hc & Hp & Hcw & Hlen & Hsz). unfold sys_mkdir.
  rewrite <- (upd_id s). eapply wp_bind, wp_begin; [exact Hc|]. intros w1 Hc1.
  apply wp_bind, wp_argstr; [by apply mem_upd|]. intros [[k path]|] _.
  - eapply wp_create_call; [done|apply Hok|exact Hc1].
  - eapply (wp_created s _ w1 dt ∅ None); [done|apply Hok|done].
Qed.
Lemma wp_sys_mknod s : fsys_ok s → wp E sys_mknod (λ _ s', fsys_ok s') s.
Proof.
  intros Hok. destruct (fsys_parts s Hok) as (dt & p & c & Hc & Hp & Hcw & Hlen & Hsz). unfold sys_mknod.
  rewrite <- (upd_id s). eapply wp_bind, wp_begin; [exact Hc|]. intros w1 Hc1.
  assert (wp E (created None) (λ _ s', fsys_ok s') (upd s (y_file s) w1)) as Hbad
    by (eapply (wp_created s _ w1 dt ∅ None); [done|apply Hok|done]).
  apply wp_bind, wp_argstr; [by apply mem_upd|]. intros [[k path]|] _; [|done].
  apply wp_bind, wp_argint; [by apply mem_upd|]. destruct (arg_word _ _ _) as [major|]; [|done].
  apply wp_bind, wp_argint; [by apply mem_upd|]. destruct (arg_word _ _ _) as [minor|]; [|done].
  eapply wp_create_call; [done|apply Hok|exact Hc1].
Qed.
(** A call that is one operation inside a transaction. *)
Lemma wp_op_call s (m : M C Z) : fsys_ok s →
  (∀ X (D : gmap nat (list Z)) w Q, @holds _ _ (fio_at (mkfv X true None D)) [] w →
    (∀ r (D' : gmap nat (list Z)) w', same_data X D D' → @holds _ _ (fio_at (mkfv X true None D')) [] w' → Q r w') → wp E m Q w) →
  wp E (io_ io_begin_op ;;; let! r := io_ m in io_ io_end_op ;;; ret r) (λ _ s', fsys_ok s') s.
Proof.
  intros Hok Hm. destruct (fsys_parts s Hok) as (dt & p & c & Hc & _).
  rewrite <- (upd_id s). eapply wp_bind, wp_begin; [exact Hc|]. intros w1 Hc1.
  eapply wp_bind, wp_zoom, Hm; [apply Hc1|]. intros r dt2 w2 _ Hw2.
  eapply wp_bind, (wp_end s (y_file s) w2); [eapply fcore_world; [exact Hc1|exact Hw2]|]. intros w3 Hc3. apply wp_ret. eapply fsys_upd; [done|exact Hc3|apply Hok].
Qed.
Lemma wp_sys_link s : fsys_ok s → wp E sys_link (λ _ s', fsys_ok s') s.
Proof.
  intros Hok. unfold sys_link. apply wp_bind, wp_argstr; [apply Hok|]. intros [[k old]|] _; [|by apply wp_ret].
  apply wp_bind, wp_argstr; [apply Hok|]. intros [[k' new]|] _; [|by apply wp_ret].
  apply wp_op_call; [done|]. intros X D w Q Hw HQ. by eapply io_link_law.
Qed.
Lemma wp_sys_unlink s : fsys_ok s → wp E sys_unlink (λ _ s', fsys_ok s') s.
Proof.
  intros Hok. unfold sys_unlink. apply wp_bind, wp_argstr; [apply Hok|]. intros [[k path]|] _; [|by apply wp_ret].
  apply wp_op_call; [done|]. intros X D w Q Hw HQ. by eapply io_unlink_law.
Qed.
Lemma wp_sys_chown s : fsys_ok s → wp E sys_chown (λ _ s', fsys_ok s') s.
Proof.
  intros Hok. destruct (fsys_parts s Hok) as (dt & p & c & Hc & _). unfold sys_chown.
  apply wp_bind, wp_argstr; [apply Hok|]. intros [[k path]|] _; [|by apply wp_ret].
  apply wp_bind, wp_argint; [apply Hok|]. destruct (arg_word _ _ _) as [u|] eqn:Ha; [|by apply wp_ret].
  destruct (decide _); [by apply wp_ret|]. apply wp_bind, wp_argint; [apply Hok|]. rewrite Ha.
  destruct (decide _); [by apply wp_ret|]. rewrite <- (upd_id s). eapply wp_zoom, io_chown_law; [done|apply Hc|].
  intros r w' Hw'. eapply (fsys_upd s); [done|by eapply fcore_world|apply Hok].
Qed.

Lemma wp_sys_chdir s : fsys_ok s → wp E sys_chdir (λ _ s', fsys_ok s') s.
Proof.
  intros Hok. destruct (fsys_parts s Hok) as (dt & p & c & Hc & Hp & Hcw & Hlen & Hsz). unfold sys_chdir.
  rewrite <- (upd_id s). eapply wp_bind, wp_begin; [exact Hc|]. intros w1 Hc1.
  assert (∀ w2 dt2, fcore (y_file s) w2 (descs (y_procs s)) (cwds (y_procs s)) true None dt2 →
    wp E (io_ io_end_op ;;; ret (-1)) (λ _ s', fsys_ok s') (upd s (y_file s) w2)) as Hbad.
  { intros w2 dt2 Hc2. eapply wp_bind, wp_end; [exact Hc2|]. intros w3 Hc3. apply wp_ret. eapply fsys_upd; [done|exact Hc3|apply Hok]. }
  apply wp_bind, wp_argstr; [by apply mem_upd|]. intros [[k path]|] _; [|by eapply Hbad].
  eapply wp_bind, wp_namei; [exact Hc1|intros; by eapply Hbad|]. intros ip w2 dt2 Hc2.
  eapply wp_bind, wp_lock_inode; [exact Hc2|]. intros w3 Hc3. eapply wp_bind, wp_type; [exact Hc3|]. intros ty w4 Hc4.
  destruct (decide _); [eapply wp_bind, wp_drop_inode; [exact Hc4|]; intros w5 Hc5; by eapply Hbad|].
  eapply wp_bind, wp_unlock_inode; [exact Hc4|]. intros w5 Hc5. unfold the_proc.
  apply wp_bind, wp_bind, wp_gets, wp_bind, wp_gets. apply (wp_of_opt _ _ p); [done|]. apply wp_bind, (wp_of_opt _ _ c); [done|].
  set (ps := <[y_cur s := set_fp_cwd (Some ip) p]> (y_procs s)).
  assert ({[+ OInode ip +]} ⊎ cwds (y_procs s) = {[+ OInode c +]} ⊎ cwds ps) as Hcs.
  { pose proof (unions_insert cwd_obj (y_procs s) (y_cur s) p (set_fp_cwd (Some ip) p) Hp) as Hi.
    unfold cwd_obj at 2 4 in Hi. cbn [fp_cwd set_fp_cwd] in Hi. rewrite Hcw in Hi.
    rewrite (comm_L (⊎) {[+ OInode ip +]}), (comm_L (⊎) {[+ OInode c +]}). symmetry. exact Hi. }
  rewrite Hcs in Hc5. eapply wp_bind, wp_zoom, io_iput_law; [apply hat_out, Hc5|]. intros w6 Hw6.
  eapply wp_bind, wp_zoom, io_end_op_law; [exact Hw6|]. intros w7 Hw7. apply wp_bind, wp_modS, wp_ret.
  change (fsys_ok (upd (set_y_procs ps s) (y_file s) w7)). split; cbn [y_file y_procs y_world y_cur upd set_y_procs].
  - exists dt2. unfold ps. rewrite descs_cwd by done. by eapply fcore_extra.
  - apply Hok.
  - eapply procs_put; [apply Hok|done|done|by eexists].
  - apply Hok.
Qed.

(** ** pipe *)
Lemma wp_pipealloc s l w D R dt Q : fcore l w D R false None dt → (size D < 2048)%nat → live_types l →
  (∀ l' w', fcore l' w' D R false None dt → live_types l' → Q None (upd s l' w')) →
  (∀ r x l' w' fr fx, fcore l' w' ({[+ r +]} ⊎ ({[+ x +]} ⊎ D)) R false None dt → live_types l' →
     l' !! r = Some fr → l' !! x = Some fx → r ≠ x → fl_ref fr = 1 → fl_ref fx = 1 → Q (Some (r, x)) (upd s l' w')) →
  wp E pipealloc Q (upd s l w).
Proof.
  intros Hc Hsz Hlive Hn Hs. unfold pipealloc. eapply wp_bind, wp_filealloc; [exact Hc|intros w1 Hc1 _; by apply wp_ret, Hn|].
  intros r g w1 Hr Hg Hty Hc1. set (l1 := <[r := set_fl_ref 1 g]> l) in *.
  assert (l1 !! r = Some (set_fl_ref 1 g)) as Hl1 by (apply list_lookup_insert_eq; by eapply lookup_lt_Some).
  eapply wp_bind, wp_filealloc; [exact Hc1| |].
  { intros w2 Hc2 _. eapply wp_bind, wp_fileclose; [exact Hc2|lia|exact Hl1|by right|]. intros w3 Hc3. apply wp_ret, Hn; [done|].
    unfold l1. rewrite list_insert_insert_eq. by apply fd_live_insert. }
  intros x h w2 Hx Hh Hhty Hc2. set (l2 := <[x := set_fl_ref 1 h]> l1) in *.
  assert (r ≠ x) as Hne by (intros ->; apply Hx; clear; multiset_solver).
  assert (l !! x = Some h) as Hh' by (by rewrite <- Hh; symmetry; apply list_lookup_insert_ne).
  assert (l2 !! r = Some (set_fl_ref 1 g)) as Hl2r by (unfold l2; by rewrite list_lookup_insert_ne).
  assert (l2 !! x = Some (set_fl_ref 1 h)) as Hl2x by (apply list_lookup_insert_eq; by eapply lookup_lt_Some).
  rewrite (union_comm_nat x r) in Hc2. eapply wp_bind, wp_zoom, io_pipe_law; [apply Hc2| |].
  - intros w3 Hw3. change (set_y_world w3 (upd s l2 w2)) with (upd s l2 w3).
    eapply wp_bind, (wp_fileclose E s l2); [by eapply fcore_world|rewrite gmultiset_size_disj_union, gmultiset_size_singleton; lia|exact Hl2r|by right|].
    intros w4 Hc4. eapply wp_bind, wp_fileclose; [exact Hc4|lia| |by right|].
    { rewrite list_lookup_insert_ne by done. exact Hl2x. }
    intros w5 Hc5. apply wp_ret, Hn; [done|]. unfold l2, l1.
    rewrite (list_insert_insert_ne _ r x) by done. rewrite !list_insert_insert_eq.
    apply fd_live_insert; [by apply fd_live_insert|done].
  - intros p w3 Hw3. change (set_y_world w3 (upd s l2 w2)) with (upd s l2 w3).
    apply wp_bind, (wp_the_file E s l2 w3 r _ _ Hl2r). set (fr := mkfile FD_PIPE _ true false _ _ _). apply wp_bind, wp_put_file.
    assert (<[r := fr]> l2 !! x = Some (set_fl_ref 1 h)) as Hl3x by (by rewrite list_lookup_insert_ne).
    apply wp_bind, (wp_the_file E s _ w3 x _ _ Hl3x). set (fx := mkfile FD_PIPE _ false true _ _ _). apply wp_bind, wp_put_file, wp_ret.
    set (l3 := <[r := fr]> l2) in *. assert (r < length l2)%nat as Hltr by (by eapply lookup_lt_Some).
    assert (x < length l3)%nat as Hltx by (by eapply lookup_lt_Some).
    apply (Hs r x (<[x := fx]> l3) w3 fr fx); [| | | |done|done|done].
    + assert (fcore l3 w3 ({[+ r +]} ⊎ ({[+ x +]} ⊎ D)) ({[+ OPipe p true +]} ⊎ R) false None dt) as Hc3.
      { eapply fcore_insert; [exact Hc2|exact Hl2r| |apply (fc_ref _ _ _ _ _ _ _ Hc2 r _ Hl2r)|done|].
        - assert (file_ok g) as Hgk by (eapply Forall_lookup_1; [apply Hc|exact Hg]). split; cbn; [done|split; [by eexists|done]|done|apply Hgk].
        - pose proof (objs_insert l2 r _ fr Hl2r) as Ho. unfold file_obj in Ho. cbn in Ho. rewrite Hty in Ho. rewrite (right_id_L ∅ (⊎)) in Ho.
          eapply hat_eq; [|exact Hw3]. rewrite Ho. set (A := objs l2). clearbody A. clear. multiset_solver. }
      eapply fcore_insert; [exact Hc3|exact Hl3x| |apply (fc_ref _ _ _ _ _ _ _ Hc3 x _ Hl3x)|done|].
      * assert (file_ok h) as Hgk by (eapply Forall_lookup_1; [apply Hc|exact Hh']). split; cbn; [done|split; [by eexists|done]|done|apply Hgk].
      * pose proof (objs_insert l3 x _ fx Hl3x) as Ho. unfold file_obj in Ho. cbn in Ho. rewrite Hhty in Ho. rewrite (right_id_L ∅ (⊎)) in Ho.
        eapply hat_eq; [|apply Hc3]. rewrite Ho. set (A := objs l3). clearbody A. clear. multiset_solver.
    + unfold l3, l2, l1. rewrite (list_insert_insert_ne _ r x) by done. rewrite !list_insert_insert_eq.
      by apply fd_live_insert; [apply fd_live_insert|].
    + rewrite list_lookup_insert_ne by done. by apply list_lookup_insert_eq.
    + by apply list_lookup_insert_eq.
Qed.
End opening.
