(* ===== verification/SysfileFork.v ===== *)
(** * pipe, and the files of fork and exit *)

From stdpp Require Import gmultiset.
From S2P Require Import Prelude CString ProcData Sync Block Words Log Fs Exec File FileInv FileRw Sysfile SysfileInv SysfileOpen.
Local Open Scope Z_scope.

Section forking.
Context {C : Type} `{FileLaws C} (E : string → Prop) (E_exhausted : ∀ e, exhausted e → E e).
Notation hat X b k dt L w := (@holds C _ (fio_at (mkfv X b k dt)) L w).
Implicit Types (s : fsys C) (l : list file) (D : gmultiset nat) (R X : gmultiset obj) (w : C) (dt : gmap nat (list Z)).

(** ** pipe *)
Lemma fcore_refs_eq l w D D' R b k dt : fcore l w D R b k dt → D = D' → fcore l w D' R b k dt.
Proof. by intros ? <-. Qed.

(** Both ends are closed again. *)
Lemma wp_close_both s l w dt r x fr fx : fsys_ok s → (size (descs (y_procs s)) ≤ 1024)%nat →
  fcore l w ({[+ r +]} ⊎ ({[+ x +]} ⊎ descs (y_procs s))) (cwds (y_procs s)) false None dt → live_types l →
  l !! r = Some fr → l !! x = Some fx → r ≠ x → fl_ref fr = 1 → fl_ref fx = 1 →
  wp E (fileclose r ;;; fileclose x ;;; ret (-1)) (λ _ s', fsys_ok s') (upd s l w).
Proof.
  intros Hok Hsz Hc Hl Hr Hx Hne Hr1 Hx1.
  eapply wp_bind, wp_fileclose; [exact Hc|rewrite gmultiset_size_disj_union, gmultiset_size_singleton; lia|exact Hr|by right|].
  intros w1 Hc1. eapply wp_bind, wp_fileclose; [exact Hc1|lia|rewrite list_lookup_insert_ne; [exact Hx|done]|by right|].
  intros w2 Hc2. apply wp_ret. eapply fsys_upd; [done|exact Hc2|].
  apply fd_live_insert; [apply fd_live_insert; [done|]|]; apply close1_live; try lia; by eapply live_lookup.
Qed.

Lemma wp_sys_pipe s : fsys_ok s → wp E sys_pipe (λ _ s', fsys_ok s') s.
Proof.
  intros Hok. destruct (fsys_parts s Hok) as (dt & p & c & Hc & Hp & Hcw & Hlen & Hsz). unfold sys_pipe.
  apply wp_bind, wp_argptr; [apply Hok|]. intros [a|] Hb; [|by apply wp_ret]. destruct (Hb a eq_refl) as [Hb1 Hb2].
  specialize (Hb2 ltac:(lia)). pose proof (so_mem _ Hok) as Hm. unfold mem_ok in Hm. rewrite <- (upd_id s).
  eapply wp_bind, wp_pipealloc; [exact Hc|lia|apply Hok|intros l' w' Hc' Hl'; apply wp_ret; by eapply fsys_upd|].
  intros r x l' w' fr fx Hc' Hl' Hr Hx Hne Hr1 Hx1.
  apply wp_bind, (wp_fdalloc E (upd s l' w') r p); [done|intros _; by eapply wp_close_both|].
  intros fd0 Hfree0. destruct (find_fd_Some _ _ Hfree0) as [Hn0 _]. assert (fd0 < length (fp_ofile p))%nat as Hlt0 by (by eapply lookup_lt_Some).
  set (p1 := set_fp_ofile (<[fd0 := Some r]> (fp_ofile p)) p). set (ps1 := <[y_cur (upd s l' w') := p1]> (y_procs (upd s l' w'))).
  change (y_cur (upd s l' w')) with (y_cur s) in *. change (y_procs (upd s l' w')) with (y_procs s) in *.
  assert (y_cur s < length (y_procs s))%nat as Hltc by (by eapply lookup_lt_Some).
  assert (ps1 !! y_cur s = Some p1) as Hp1 by (by apply list_lookup_insert_eq).
  change (set_y_procs ps1 (upd s l' w')) with (upd (set_y_procs ps1 s) l' w').
  apply wp_bind, (wp_fdalloc E (upd (set_y_procs ps1 s) l' w') x p1); [done| |].
  - intros _. apply wp_bind, (wp_clear_fd E _ fd0 p1); [done|].
    change (set_y_procs _ (upd (set_y_procs ps1 s) l' w')) with
      (upd (set_y_procs (<[y_cur s := set_fp_ofile (<[fd0 := None]> (fp_ofile p1)) p1]> ps1) s) l' w').
    assert (<[y_cur s := set_fp_ofile (<[fd0 := None]> (fp_ofile p1)) p1]> ps1 = y_procs s) as ->.
    { unfold ps1. rewrite list_insert_insert_eq. cbn [fp_ofile set_fp_ofile p1]. rewrite list_insert_insert_eq, (list_insert_id (fp_ofile p)) by done.
      apply list_insert_id. rewrite Hp. by destruct p. }
    replace (set_y_procs (y_procs s) s) with s by (by destruct s). by eapply wp_close_both.
  - intros fd1 Hfree1. destruct (find_fd_Some _ _ Hfree1) as [Hn1 _].
    set (p2 := set_fp_ofile (<[fd1 := Some x]> (fp_ofile p1)) p1). set (ps2 := <[_ := p2]> _).
    change (set_y_procs ps2 (upd (set_y_procs ps1 s) l' w')) with (upd (set_y_procs ps2 s) l' w').
    apply wp_bind, wp_store_user; [lia|rewrite length_le_split; cbn; lia|].
    apply wp_bind, wp_store_user; [apply u32_range|rewrite u32_small, length_le_split by lia; cbn [y_mem upd set_y_procs set_y_mem];
      rewrite length_splice_fit by (rewrite length_le_split; lia); lia|]. apply wp_ret.
    assert (fcore l' w' (descs ps2) (cwds ps2) false None dt) as Hc2.
    { assert (cwds ps2 = cwds (y_procs s)) as -> by (etrans; [exact (cwds_ofile ps1 _ p1 _ Hp1)|exact (cwds_ofile _ _ p _ Hp)]).
      eapply fcore_refs_eq; [exact Hc'|]. symmetry. etrans; [exact (descs_fill ps1 (y_cur s) p1 fd1 x Hp1 Hn1)|].
      unfold ps1, p1. rewrite (descs_fill _ _ p fd0 r) by done. apply union_comm_nat. }
    split; cbn [y_file y_procs y_world y_cur upd set_y_procs set_y_mem]; [by exists dt|done| |].
    + unfold ps2. change (y_cur _) with (y_cur s). change (y_procs _) with ps1. unfold ps1. rewrite list_insert_insert_eq.
      eapply procs_put; [apply Hok|done|cbn; by rewrite !length_insert|cbn; by eexists].
    + unfold mem_ok. cbn [y_mem set_y_mem]. rewrite !length_splice_fit; rewrite ?length_le_split; [done|cbn; lia|].
      rewrite u32_small by lia. cbn [y_mem upd set_y_procs]. rewrite length_splice_fit; rewrite ?length_le_split; lia.
Qed.

(** ** exit *)

(** A good state in which the current process may have exited. *)
Record fsys_idle s : Prop := mkfidle {
  id_core : ∃ dt, fcore (y_file s) (y_world s) (descs (y_procs s)) (cwds (y_procs s)) false None dt;
  id_live : live_types (y_file s);
  id_len : (length (y_procs s) ≤ NPROC)%nat;
  id_fds : Forall (λ p, length (fp_ofile p) = NOFILE) (y_procs s);
  id_mem : mem_ok s
}.
Lemma fsys_ok_idle s : fsys_ok s → fsys_idle s.
Proof. intros [? ? [? ? _] ?]. by split. Qed.
Lemma fsys_idle_ok s p c : fsys_idle s → y_procs s !! y_cur s = Some p → fp_cwd p = Some c → fsys_ok s.
Proof. intros [? ? ? ? ?] Hp Hc. split; [done|done| |done]. split; [done|done|by exists p, c]. Qed.

Lemma wp_exit_fd s p fd Q : fsys_ok s → y_procs s !! y_cur s = Some p → (fd < NOFILE)%nat →
  (∀ s', fsys_ok s' → y_procs s' = <[y_cur s := set_fp_ofile (<[fd := None]> (fp_ofile p)) p]> (y_procs s) → y_cur s' = y_cur s → Q tt s') →
  wp E (exit_fd fd) Q s.
Proof.
  intros Hok Hp Hfd HQ. destruct (fsys_parts s Hok) as (dt & p' & c & Hc & Hp' & Hcw & Hlen & Hsz). rewrite Hp in Hp'. injection Hp' as <-.
  unfold exit_fd, the_proc. apply wp_bind, wp_bind, wp_gets, wp_bind, wp_gets. apply (wp_of_opt _ _ p); [done|].
  destruct (lookup_lt_is_Some_2 (fp_ofile p) fd) as [o Ho]; [by rewrite Hlen|]. apply wp_bind, (wp_of_opt _ _ o); [done|].
  destruct o as [f|]; [|apply wp_skip, HQ; [done| |done]; rewrite (list_insert_id (fp_ofile p)) by done; rewrite list_insert_id; [done|by destruct p]].
  destruct (fcore_file _ _ _ _ _ _ _ f Hc) as (g & Hg & _ & Hg1); [by eapply descs_elem|].
  set (ps := <[y_cur s := set_fp_ofile (<[fd := None]> (fp_ofile p)) p]> (y_procs s)) in *.
  assert ({[+ f +]} ⊎ descs ps = descs (y_procs s)) as Hds by (by apply descs_clear).
  rewrite <- Hds in Hc. apply wp_bind. rewrite <- (upd_id s).
  eapply wp_fileclose; [exact Hc|rewrite <- Hds, gmultiset_size_disj_union in Hsz; lia|exact Hg|by right|].
  intros w' Hc'. apply (wp_clear_fd E _ fd p); [done|]. apply HQ; [|done|done].
  split; cbn [y_file y_procs y_world y_cur upd set_y_procs].
  - exists dt. assert (cwds ps = cwds (y_procs s)) as Hcs by (by apply cwds_ofile). fold ps. rewrite Hcs. exact Hc'.
  - apply fd_live_insert; [apply Hok|]. apply close1_live; [|done]. apply (live_lookup _ _ _ (so_live _ Hok) Hg).
  - eapply procs_put; [apply Hok|done|by cbn; rewrite length_insert|cbn; by eexists].
  - apply Hok.
Qed.
Lemma wp_exit_fds n : ∀ k s p Q, fsys_ok s → y_procs s !! y_cur s = Some p → (k + n ≤ NOFILE)%nat →
  (∀ s' p', fsys_ok s' → y_procs s' = <[y_cur s := p']> (y_procs s) → y_cur s' = y_cur s → fp_cwd p' = fp_cwd p →
     length (fp_ofile p') = length (fp_ofile p) →
     (∀ fd, fp_ofile p' !! fd = if decide (k ≤ fd < k + n)%nat then Some None else fp_ofile p !! fd) → Q tt s') →
  wp E (mfor (seq k n) exit_fd) Q s.
Proof.
  induction n as [|n IH]; intros k s p Q Hok Hp Hk HQ; cbn [seq mfor].
  - apply wp_skip, (HQ s p); [done|by rewrite list_insert_id|done|done|done|]. intros fd. by rewrite decide_False by lia.
  - apply wp_bind, (wp_exit_fd s p); [done|done|lia|]. intros s1 Hok1 Hps1 Hcur1. set (p1 := set_fp_ofile _ p) in *.
    assert (y_cur s < length (y_procs s))%nat as Hlt by (by eapply lookup_lt_Some).
    destruct (fsys_parts s Hok) as (_ & p' & _ & _ & Hp' & _ & Hlen & _). rewrite Hp in Hp'. injection Hp' as <-.
    apply (IH (S k) s1 p1); [done|rewrite Hps1, Hcur1; by apply list_lookup_insert_eq|lia|].
    intros s2 p2 Hok2 Hps2 Hcur2 Hcw2 Hl2 Hfd2. apply (HQ s2 p2); [done|by rewrite Hps2, Hps1, Hcur1, list_insert_insert_eq|congruence|done| |].
    { rewrite Hl2. cbn. by rewrite length_insert. }
    intros fd. rewrite Hfd2. destruct (decide (S k ≤ fd < S k + n)%nat) as [Hin|Hout]; [by rewrite decide_True by lia|].
    cbn [fp_ofile set_fp_ofile p1]. destruct (decide (fd = k)) as [->|Hne].
    + rewrite decide_True by lia. apply list_lookup_insert_eq. rewrite Hlen. lia.
    + rewrite decide_False by lia. by apply list_lookup_insert_ne.
Qed.

Lemma wp_exit_close s p Q : fsys_ok s → y_procs s !! y_cur s = Some p →
  (∀ s', fsys_idle s' → y_procs s' = <[y_cur s := mkfp (replicate NOFILE None) None]> (y_procs s) → Q tt s') → wp E exit_close Q s.
Proof.
  intros Hok Hp HQ. unfold exit_close. apply wp_bind, (wp_exit_fds NOFILE 0 s p); [done|done|lia|].
  intros s1 p1 Hok1 Hps1 Hcur1 Hcw1 Hl1 Hfd1. destruct (fsys_parts s1 Hok1) as (dt & p' & c & Hc & Hp' & Hcw & Hlen & Hsz).
  assert (y_cur s < length (y_procs s))%nat as Hlt by (by eapply lookup_lt_Some).
  assert (p' = p1) as -> by (rewrite Hps1, Hcur1, list_lookup_insert_eq in Hp' by done; congruence).
  assert (fp_ofile p1 = replicate NOFILE None) as Hnil.
  { apply list_eq_same_length with NOFILE; [by rewrite length_replicate|done|]. intros i x y Hi Hx Hy.
    rewrite Hfd1, decide_True in Hx by lia. rewrite lookup_replicate_2 in Hy by done. congruence. }
  rewrite <- (upd_id s1). eapply wp_bind, wp_begin; [exact Hc|]. intros w2 Hc2. unfold the_proc.
  apply wp_bind, wp_bind, wp_gets, wp_bind, wp_gets. apply (wp_of_opt _ _ p1); [done|]. apply wp_bind, (wp_of_opt _ _ c); [done|].
  set (ps := <[y_cur s1 := set_fp_cwd None p1]> (y_procs s1)).
  assert (cwds (y_procs s1) = {[+ OInode c +]} ⊎ cwds ps) as Hcs.
  { pose proof (unions_insert cwd_obj (y_procs s1) (y_cur s1) p1 (set_fp_cwd None p1) Hp') as Hi.
    unfold cwd_obj at 2 4 in Hi. cbn [fp_cwd set_fp_cwd] in Hi. rewrite Hcw, (right_id_L ∅ (⊎)) in Hi.
    rewrite (comm_L (⊎) {[+ OInode c +]}). symmetry. exact Hi. }
  rewrite Hcs in Hc2. eapply wp_bind, wp_zoom, io_iput_law; [apply hat_out, Hc2|]. intros w3 Hw3.
  eapply wp_bind, wp_zoom, io_end_op_law; [exact Hw3|]. intros w4 Hw4.
  apply wp_bind, wp_bind, wp_gets, wp_bind, wp_gets. apply (wp_of_opt _ _ p1); [done|]. apply wp_modS.
  change (Q tt (upd (set_y_procs ps s1) (y_file s1) w4)). apply HQ.
  - split; cbn [y_file y_procs y_world y_cur upd set_y_procs].
    + exists dt. unfold ps at 1. rewrite descs_cwd by done. by eapply fcore_extra.
    + apply Hok1.
    + unfold ps. rewrite length_insert. apply Hok1.
    + apply Forall_insert; [apply Hok1|done].
    + apply Hok1.
  - cbn [y_procs upd set_y_procs]. unfold ps. rewrite Hps1, Hcur1, list_insert_insert_eq. f_equal. unfold set_fp_cwd. by rewrite Hnil.
Qed.

(** ** fork *)
Lemma wp_fork_fd s p j np fd Q : fsys_ok s → y_procs s !! y_cur s = Some p → y_procs s !! j = Some np → j ≠ y_cur s →
  (fd < NOFILE)%nat → fp_ofile np !! fd = Some None →
  (∀ s' o, fp_ofile p !! fd = Some o → fsys_ok s' → y_procs s' = <[j := set_fp_ofile (<[fd := o]> (fp_ofile np)) np]> (y_procs s) →
     y_cur s' = y_cur s → Q tt s') →
  wp E (fork_fd j fd) Q s.
Proof.
  intros Hok Hp Hj Hne Hfd Hnone HQ. destruct (fsys_parts s Hok) as (dt & p' & c & Hc & Hp' & Hcw & Hlen & Hsz). rewrite Hp in Hp'. injection Hp' as <-.
  unfold fork_fd, the_proc. apply wp_bind, wp_bind, wp_gets, wp_bind, wp_gets. apply (wp_of_opt _ _ p); [done|].
  destruct (lookup_lt_is_Some_2 (fp_ofile p) fd) as [o Ho]; [by rewrite Hlen|]. apply wp_bind, (wp_of_opt _ _ o); [done|].
  destruct o as [f|].
  2: { apply wp_skip, (HQ s None); [done|done| |done]. rewrite (list_insert_id (fp_ofile np)) by done. rewrite list_insert_id; [done|by destruct np]. }
  apply wp_bind. rewrite <- (upd_id s). eapply wp_filedup; [exact Hc|exact (descs_elem _ _ _ _ _ Hp Ho)|lia|]. intros g w' Hg Hc'.
  assert (1 ≤ fl_ref g) as Hg1.
  { destruct (fcore_file _ _ _ _ _ _ _ f Hc) as (g' & Hg' & _ & ?); [exact (descs_elem _ _ _ _ _ Hp Ho)|]. congruence. }
  apply wp_bind, wp_gets, wp_bind, (wp_of_opt _ _ np); [done|]. apply wp_modS, (HQ _ (Some f)); [done| |done|done].
  set (ps := <[j := _]> (y_procs _)). split; cbn [y_file y_procs y_world y_cur upd set_y_procs].
  - exists dt. assert (cwds ps = cwds (y_procs s)) as -> by (by apply cwds_ofile).
    eapply fcore_refs_eq; [exact Hc'|]. symmetry. by apply descs_fill.
  - apply fd_live_insert; [apply Hok|]. intros _. apply (live_lookup _ _ _ (so_live _ Hok) Hg). lia.
  - destruct (so_procs _ Hok) as [Hl Hf _]. split.
    + unfold ps. by rewrite length_insert.
    + apply Forall_insert; [done|]. cbn. rewrite length_insert. exact (Forall_lookup_1 _ _ _ _ Hf Hj).
    + exists p, c. split; [|done]. unfold ps. by rewrite list_lookup_insert_ne.
  - apply Hok.
Qed.
Lemma wp_fork_fds n : ∀ k s p j np Q, fsys_ok s → y_procs s !! y_cur s = Some p → y_procs s !! j = Some np → j ≠ y_cur s →
  (k + n ≤ NOFILE)%nat → (∀ fd, (k ≤ fd < k + n)%nat → fp_ofile np !! fd = Some None) →
  (∀ s' np', fsys_ok s' → y_procs s' = <[j := np']> (y_procs s) → y_cur s' = y_cur s → fp_cwd np' = fp_cwd np →
     (∀ fd, fp_ofile np' !! fd = if decide (k ≤ fd < k + n)%nat then fp_ofile p !! fd else fp_ofile np !! fd) → Q tt s') →
  wp E (mfor (seq k n) (fork_fd j)) Q s.
Proof.
  induction n as [|n IH]; intros k s p j np Q Hok Hp Hj Hne Hk Hnil HQ; cbn [seq mfor].
  - apply wp_skip, (HQ s np); [done|by rewrite list_insert_id|done|done|]. intros fd. by rewrite decide_False by lia.
  - apply wp_bind, (wp_fork_fd s p j np k); [done|done|done|done|lia|apply Hnil; lia|]. intros s1 o Ho Hok1 Hps1 Hcur1.
    set (np1 := set_fp_ofile _ np) in *. assert (j < length (y_procs s))%nat as Hlt by (by eapply lookup_lt_Some).
    assert (k < length (fp_ofile np))%nat as Hltk by (eapply lookup_lt_Some, Hnil; lia).
    apply (IH (S k) s1 p j np1); [done|rewrite Hps1, Hcur1; by rewrite list_lookup_insert_ne|rewrite Hps1; by apply list_lookup_insert_eq|congruence|lia| |].
    { intros fd Hfd. cbn. rewrite list_lookup_insert_ne by lia. apply Hnil. lia. }
    intros s2 np2 Hok2 Hps2 Hcur2 Hcw2 Hfd2. apply (HQ s2 np2); [done|by rewrite Hps2, Hps1, list_insert_insert_eq|congruence|done|].
    intros fd. rewrite Hfd2. destruct (decide (S k ≤ fd < S k + n)%nat) as [Hin|Hout]; [by rewrite decide_True by lia|].
    cbn [fp_ofile set_fp_ofile np1]. destruct (decide (fd = k)) as [->|Hnk].
    + rewrite decide_True by lia. rewrite Ho. by apply list_lookup_insert_eq.
    + rewrite decide_False by lia. by apply list_lookup_insert_ne.
Qed.

Lemma wp_fork_files s p j np Q : fsys_ok s → y_procs s !! y_cur s = Some p → y_procs s !! j = Some np → j ≠ y_cur s →
  np = mkfp (replicate NOFILE None) None →
  (∀ s', fsys_ok s' → y_procs s' = <[j := p]> (y_procs s) → Q tt s') → wp E (fork_share j) Q s.
Proof.
  intros Hok Hp Hj Hne -> HQ. unfold fork_share. apply wp_bind, (wp_fork_fds NOFILE 0 s p j _ _ Hok Hp Hj Hne); [lia| |].
  { intros fd Hfd. apply lookup_replicate_2. lia. }
  intros s1 np1 Hok1 Hps1 Hcur1 Hcw1 Hfd1. destruct (fsys_parts s1 Hok1) as (dt & p' & c & Hc & Hp' & Hcw & Hlen & Hsz).
  assert (p' = p) as -> by (rewrite Hps1, Hcur1, list_lookup_insert_ne in Hp' by done; congruence).
  assert (j < length (y_procs s))%nat as Hlt by (by eapply lookup_lt_Some).
  assert (y_procs s1 !! j = Some np1) as Hj1 by (rewrite Hps1; by apply list_lookup_insert_eq).
  assert (fp_ofile np1 = fp_ofile p) as Heq.
  { apply list_eq. intros fd. rewrite Hfd1. destruct (decide _) as [|Hout]; [done|]. cbn [fp_ofile].
    rewrite !lookup_ge_None_2; [done|rewrite Hlen; lia|rewrite length_replicate; lia]. }
  unfold the_proc. apply wp_bind, wp_bind, wp_gets, wp_bind, wp_gets. apply (wp_of_opt _ _ p); [done|]. apply wp_bind, (wp_of_opt _ _ c); [done|].
  rewrite <- (upd_id s1). eapply wp_bind, wp_zoom, io_idup_law; [apply Hc| |].
  { pose proof (unions_elem cwd_obj (y_procs s1) (y_cur s1) p Hp') as Hel. unfold cwd_obj at 1 in Hel. rewrite Hcw in Hel.
    apply gmultiset_elem_of_disj_union. right. by apply gmultiset_singleton_subseteq_l. }
  intros w2 Hw2. apply wp_bind, wp_gets, wp_bind, (wp_of_opt _ _ np1); [done|]. apply wp_modS.
  set (ps := <[j := set_fp_cwd (Some c) np1]> (y_procs s1)).
  change (Q tt (upd (set_y_procs ps s1) (y_file s1) w2)). apply HQ.
  - split; cbn [y_file y_procs y_world y_cur upd set_y_procs].
    + exists dt. unfold ps at 1. rewrite descs_cwd by done. eapply fcore_extra; [exact Hc|]. eapply hat_eq; [|exact Hw2].
      pose proof (unions_insert cwd_obj (y_procs s1) j np1 (set_fp_cwd (Some c) np1) Hj1) as Hi.
      unfold cwd_obj at 2 4 in Hi. cbn [fp_cwd set_fp_cwd] in Hi. rewrite Hcw1 in Hi. cbn [fp_cwd] in Hi. rewrite (right_id_L ∅ (⊎)) in Hi.
      fold ps in Hi. fold (cwds ps) (cwds (y_procs s1)) in Hi. rewrite Hi. set (A := objs _). set (B := cwds (y_procs s1)). clearbody A B. clear. multiset_solver.
    + apply Hok1.
    + destruct (so_procs _ Hok1) as [Hl Hf _]. split; [unfold ps; by rewrite length_insert|apply Forall_insert; [done|cbn; by rewrite Heq]|].
      exists p, c. split; [|done]. unfold ps. rewrite list_lookup_insert_ne; [done|]. by rewrite Hcur1.
    + apply Hok1.
  - cbn [y_procs upd set_y_procs]. unfold ps. rewrite Hps1, list_insert_insert_eq. f_equal. unfold set_fp_cwd. rewrite Heq, <- Hcw. by destruct p.
Qed.
End forking.
