(* ===== verification/SysfileThm.v ===== *)
(** * Files and descriptors: the theorems *)

From stdpp Require Import gmultiset.
From S2P Require Import Prelude CString ProcData Sync Block Words Log Fs Exec File FileInv FileRw Sysfile SysfileInv SysfileOpen SysfileFork.
Local Open Scope Z_scope.

(** The calls on files, and the parts of fork and exit that concern files. *)
Inductive fcall :=
| FDup | FClose | FRead | FWrite | FFstat | FOpen | FMkdir | FMknod | FChdir | FPipe | FChown | FLink | FUnlink
| FFork (j : nat) (* into the free slot [j] *) | FExit.

Section steps.
Context {C : Type} `{Sync C} `{FileIO C}.
Definition fdo (c : fcall) : M (fsys C) Z :=
  match c with
  | FDup => sys_dup | FClose => sys_close | FRead => sys_read | FWrite => sys_write | FFstat => sys_fstat
  | FOpen => sys_open | FMkdir => sys_mkdir | FMknod => sys_mknod | FChdir => sys_chdir | FPipe => sys_pipe
  | FChown => sys_chown | FLink => sys_link | FUnlink => sys_unlink | FFork j => fork_share j ;;; ret 0 | FExit => exit_close ;;; ret 0
  end.
(** read is not given a negative count; fork has found a free slot. *)
Definition allowed (c : fcall) (s : fsys C) : Prop :=
  match c with
  | FRead => ∀ n, arg_word (y_mem s) (y_esp s) 2 = Some n → 0 ≤ n
  | FFork j => j ≠ y_cur s ∧ y_procs s !! j = Some (mkfp (replicate NOFILE None) None)
  | _ => True
  end.
(** The current process has not exited. *)
Definition runs (s : fsys C) : Prop := ∃ p c, y_procs s !! y_cur s = Some p ∧ fp_cwd p = Some c.

(** User programs do anything to their memory and stack pointer, the scheduler
    picks any process, and processes make calls with whatever arguments. *)
Inductive fstep : fsys C → fsys C → Prop :=
| fs_user s cur m esp : Z.of_nat (length m) < 2 ^ 31 → fstep s (mkfsys (y_file s) (y_procs s) cur m esp (y_world s))
| fs_call s s' c r : runs s → allowed c s → fdo c s = Ok (r, s') → fstep s s'.
End steps.

Section keep.
Context {C : Type} `{FileLaws C}.
Lemma fdo_keeps (s : fsys C) c : fsys_idle s → runs s → allowed c s → wp exhausted (fdo c) (λ _ s', fsys_idle s') s.
Proof.
  intros Hid (p & cw & Hp & Hcw) Ha. pose proof (fsys_idle_ok s p cw Hid Hp Hcw) as Hok.
  assert (∀ m : M (fsys C) Z, wp exhausted m (λ _ s', fsys_ok s') s → wp exhausted m (λ _ s', fsys_idle s') s) as Hm.
  { intros m Hm. eapply wp_mono; [exact Hm|]. intros ? s'. apply fsys_ok_idle. }
  destruct c as [| | | | | | | | | | | | |jc|]; cbn [fdo].
  - apply Hm. eapply wp_mono; [by eapply wp_sys_dup|]. by intros r s' [? _].
  - apply Hm. eapply wp_mono; [by eapply wp_sys_close|]. by intros r s' [? _].
  - apply Hm. by apply wp_sys_read.
  - apply Hm. by apply wp_sys_write.
  - apply Hm. by apply wp_sys_fstat.
  - apply Hm. by apply wp_sys_open.
  - apply Hm. by apply wp_sys_mkdir.
  - apply Hm. by apply wp_sys_mknod.
  - apply Hm. by apply wp_sys_chdir.
  - apply Hm. by apply wp_sys_pipe.
  - apply Hm. by apply wp_sys_chown.
  - apply Hm. by apply wp_sys_link.
  - apply Hm. by apply wp_sys_unlink.
  - destruct Ha as [Hne Hj]. apply wp_bind, (wp_fork_files _ s p jc _ _ Hok Hp Hj Hne eq_refl). intros s' Hok' _. by apply wp_ret, fsys_ok_idle.
  - apply wp_bind, (wp_exit_close _ s p _ Hok Hp). intros s' Hid' _. by apply wp_ret.
Qed.
Lemma fstep_keeps (s s' : fsys C) : fstep s s' → fsys_idle s → fsys_idle s'.
Proof.
  intros [s1 cur m esp Hm|s1 s2 c r Hr Ha Hdo] Hid.
  - destruct Hid as [? ? ? ? _]. by split.
  - pose proof (fdo_keeps _ _ Hid Hr Ha) as Hw. unfold wp in Hw. by rewrite Hdo in Hw.
Qed.
End keep.

(** C14. Descriptors never dangle and nothing leaks, over inodes and pipes that keep
    the promises of [FileLaws].  Whatever user programs do with their memory, their
    arguments and their calls (dup, close, read, write, fstat, open, mkdir, mknod,
    link, unlink, chdir, pipe, chown, fork and exit), except for read with a negative
    count, in every state they reach the count of an entry of the file table is the
    number of descriptors that refer to it, an entry in use has an inode or a pipe
    and a free one has not, and the kernel owns exactly the inode references and
    pipe ends of the entries in use and of the current directories; so no call
    faults or loops, and the only panics are those of [exhausted]: the disk, the
    inode cache, the buffer cache or the log is full. *)
Theorem descriptors_counted {C} `{FileLaws C} (s0 s : fsys C) :
  fsys_idle s0 → rtc fstep s0 s →
  fsys_idle s ∧ (runs s → ∀ c, allowed c s → wp exhausted (fdo c) (λ _ s', fsys_idle s') s).
Proof.
  intros Hid Hrtc. assert (fsys_idle s) as Hs.
  { induction Hrtc as [|s1 s2 s3 Hst _ IH]; [done|]. apply IH. by eapply fstep_keeps. }
  split; [done|]. intros Hr c Ha. by apply fdo_keeps.
Qed.

(** ** The arguments of system calls *)

(** C15. The arguments of a system call are taken from the memory of the process
    and from nowhere else: for every stack pointer, the argument words are those
    above it that lie inside the memory, also where the address wraps around;
    a buffer of [size] bytes is accepted exactly when all of it lies inside; a
    string is accepted only with its NUL inside; the arguments of exec are such
    strings and fewer than MAXARG; and no fetch faults or changes anything. *)
Theorem args_safe {C} `{Sync C} `{FileIO C} (s : fsys C) n size :
  Z.of_nat (length (y_mem s)) < 2 ^ 31 → 0 ≤ size < 2 ^ 31 →
  argint n s = Ok (arg_word (y_mem s) (y_esp s) n, s) ∧
  argptr n size s = Ok (arg_buf (y_mem s) (y_esp s) n size, s) ∧
  wp no_panic (argstr n) (λ r s', s' = s ∧ ∀ k x, r = Some (k, x) → ∃ a rest, x = a ++ 0 :: rest ∧ length a = k ∧ 0 ∉ a) s ∧
  wp no_panic exec_args (λ r s', s' = s ∧ ∀ path argv, r = Some (path, argv) →
    (length argv < Z.to_nat MAXARG)%nat ∧
    Forall (λ x, ∃ a rest d, x = a ++ 0 :: rest ∧ 0 ∉ a ∧ x = drop d (y_mem s)) argv) s.
Proof.
  intros Hm Hs. assert (mem_ok s) as Hmo by done. split; [by apply argint_eq|]. split; [by apply argptr_eq|]. split.
  { apply wp_argstr; [done|]. intros r Hr. done. }
  assert (∀ fuel uargv i (Q : option (list (list Z)) → fsys C → Prop),
    (∀ r, (∀ argv, r = Some argv → (length argv < fuel)%nat ∧ Forall (λ x, ∃ a rest d, x = a ++ 0 :: rest ∧ 0 ∉ a ∧ x = drop d (y_mem s)) argv) → Q r s) →
    wp no_panic (exec_argv fuel uargv i) Q s) as Hloop.
  { induction fuel as [|fuel IH]; intros uargv i Q HQ; cbn [exec_argv]; [by apply wp_ret, HQ|].
    apply wp_bind. eapply wp_Ok; [by apply fetchint_eq, u32_range|]. destruct (decide _); [|by apply wp_ret, HQ].
    destruct (get_word _ _) as [v|]; cbn [fmap option_fmap option_map]; [|by apply wp_ret, HQ].
    destruct (decide (s32 v = 0)). { apply wp_ret, HQ. intros argv [= <-]. split; [simpl; lia|constructor]. }
    apply wp_bind, wp_fetchstr. intros [[k x]|] Hx; [|by apply wp_ret, HQ]. destruct (Hx k x eq_refl) as (a & rest & Ea & _ & Hz & Ed).
    apply wp_bind, IH. intros r Hr. apply wp_ret, HQ. intros argv. destruct r as [argv'|]; [|done]. intros [= <-].
    destruct (Hr argv' eq_refl) as [Hl Hf]. split; [simpl; lia|]. constructor; [|done]. by exists a, rest, (Z.to_nat (u32 (s32 v))). }
  unfold exec_args. apply wp_bind, wp_argstr; [done|]. intros [[k path]|] _; [|by apply wp_ret].
  apply wp_bind, wp_argint; [done|]. destruct (arg_word _ _ _) as [u|]; [|by apply wp_ret].
  apply wp_bind, Hloop. intros r Hr. apply wp_ret. split; [done|]. intros path' argv. destruct r as [argv'|]; [|done].
  intros [= _ <-]. by apply Hr.
Qed.

(** ** Contents *)
Section contents.
Context {C : Type} `{FileLaws C}.
Lemma wp_filewrite_file (s : fsys C) D R dt k f ip data addr n Q :
  fcore (y_file s) (y_world s) D R false None dt → y_file s !! k = Some f → fl_type f = FD_INODE → fl_ip f = Some ip → fl_writable f = true →
  dt !! ip = Some data → fl_off f ≤ Z.of_nat (length data) → 0 ≤ n < 2 ^ 31 → 0 ≤ addr → addr + n ≤ Z.of_nat (length (y_mem s)) →
  Z.of_nat (length (y_mem s)) < 2 ^ 31 →
  (∀ j w', 0 ≤ j ≤ n → (fl_off f + n ≤ MAXBYTES → j = n) → 
     let new := take (Z.to_nat j) (drop (Z.to_nat addr) (y_mem s)) in
     let l := <[k := set_fl_off (fl_off f + j) f]> (y_file s) in
     fcore l w' D R false None (<[ip := splice data (Z.to_nat (fl_off f)) new]> dt) →
     Q (if decide (j = n) then n else -1) (upd s l w')) →
  wp exhausted (filewrite k addr n) Q s.
Proof.
  intros Hc Hf Hty Hip Hwr Hd Hoff Hn Ha Hb Hm HQ. unfold filewrite.
  apply wp_bind, wp_bind, wp_gets, (wp_of_opt _ _ f); [done|]. rewrite Hwr, Hty. apply wp_bind. rewrite <- (updm_id s) at 1.
  eapply (wp_filewrite_from exhausted (λ e He, He) _ s (y_mem s) _ _ k addr n ip (y_file s) (y_world s) dt 0 f);
    [exact Hc|exact Hf|done|done|lia|lia|lia|lia|lia| |].
  { rewrite FW_MAX_eq. pose proof (Z.div_mod n 6656 ltac:(lia)). pose proof (Z.mod_pos_bound n 6656 ltac:(lia)).
    assert (0 ≤ n / 6656) by (apply Z.div_pos; lia). lia. }
  intros j w' dt' o Hc' Hj Hpart. apply wp_ret. unfold wrote_part in Hpart. rewrite Hd in Hpart. cbn zeta in Hpart.
  rewrite Z.sub_0_r, Z.add_0_r, Z.max_r in * by lia. destruct Hpart as (-> & -> & Hend). rewrite Z.sub_0_r in *.
  apply (HQ j w'); [lia|intros Hx; by apply Hend|exact Hc'].
Qed.
End contents.

(** C16. What is written through one descriptor is read through another.  filewrite
    writes [n] bytes of user memory at the offset of the file, in pieces that
    are a transaction each, and moves the offset behind them; fileread through
    another entry for the same inode then stores the bytes of the new contents at
    its own offset, up to the end of the file, and moves it.  When the file would
    get too large, filewrite returns -1 after the pieces that fit. *)
Theorem filewrite_fileread {C} `{FileLaws C} (s : fsys C) D R dt k f ip data addr n k2 f2 addr2 n2 :
  fcore (y_file s) (y_world s) D R false None dt →
  y_file s !! k = Some f → fl_type f = FD_INODE → fl_ip f = Some ip → fl_writable f = true →
  y_file s !! k2 = Some f2 → k2 ≠ k → fl_type f2 = FD_INODE → fl_ip f2 = Some ip → fl_readable f2 = true →
  dt !! ip = Some data → fl_off f ≤ Z.of_nat (length data) ≤ MAXBYTES → Z.of_nat (length (y_mem s)) < 2 ^ 31 →
  0 ≤ n < 2 ^ 31 → 0 ≤ addr → addr + n ≤ Z.of_nat (length (y_mem s)) →
  0 ≤ n2 < 2 ^ 31 → 0 ≤ addr2 → addr2 + n2 ≤ Z.of_nat (length (y_mem s)) →
  wp exhausted (filewrite k addr n) (λ r s', ∃ j, 0 ≤ j ≤ n ∧ (fl_off f + n ≤ MAXBYTES → j = n) ∧
    r = (if decide (j = n) then n else -1) ∧ y_mem s' = y_mem s ∧
    y_file s' = <[k := set_fl_off (fl_off f + j) f]> (y_file s) ∧
    fcore (y_file s') (y_world s') D R false None
      (<[ip := splice data (Z.to_nat (fl_off f)) (take (Z.to_nat j) (drop (Z.to_nat addr) (y_mem s)))]> dt)) s ∧
  (fl_off f + n ≤ MAXBYTES → fl_off f2 + n2 ≤ Z.of_nat (length data) →
   wp exhausted (let! r := filewrite k addr n in let! q := fileread k2 addr2 n2 in ret (r, q)) (λ rq s',
     rq = (n, n2) ∧
     y_mem s' = splice (y_mem s) (Z.to_nat addr2) (take (Z.to_nat n2) (drop (Z.to_nat (fl_off f2))
       (splice data (Z.to_nat (fl_off f)) (take (Z.to_nat n) (drop (Z.to_nat addr) (y_mem s)))))) ∧
     y_file s' !! k2 = Some (set_fl_off (if decide (0 < n2) then fl_off f2 + n2 else fl_off f2) f2)) s).
Proof.
  intros Hc Hf Hty Hip Hwr Hf2 Hne Hty2 Hip2 Hrd Hd [Hoff Hdm] Hm Hn Ha Hb Hn2 Ha2 Hb2. split.
  - eapply wp_filewrite_file; try done. intros j w' Hj Hend new l Hc'. by exists j.
  - intros Hmax Hend2. apply wp_bind. eapply wp_filewrite_file; try done. intros j w' Hj Hend new l Hc'.
    specialize (Hend Hmax). subst j. rewrite decide_True by done.
    assert (l !! k2 = Some f2) as Hl2 by (unfold l; by rewrite list_lookup_insert_ne).
    assert (0 ≤ fl_off f2 < 2 ^ 32) as Ho2 by (eapply fk_off, Forall_lookup_1; [apply Hc|exact Hf2]).
    assert (0 ≤ fl_off f < 2 ^ 32) as Ho1 by (eapply fk_off, Forall_lookup_1; [apply Hc|exact Hf]).
    set (data' := splice data _ new) in *.
    assert (length data ≤ length data')%nat as Hld by (unfold data', splice; rewrite !length_app, length_take, length_drop; lia).
    apply wp_bind. change (upd s l w') with (updm s l w' (y_mem s)).
    eapply (wp_fileread_inode exhausted (λ e He, He) s l w' (y_mem s) D R _ k2 f2 ip addr2 n2); [exact Hc'|done..|].
    intros r bytes w2 o Hr Hl Ho Hread Hc2. specialize (Hread data' (lookup_insert_eq _ _ _)). apply wp_ret.
    assert (readi_of data' (fl_off f2) n2 = (n2, take (Z.to_nat n2) (drop (Z.to_nat (fl_off f2)) data'))) as Ere.
    { unfold readi_of. assert (0 ≤ fl_off f2 + n2 < 2 ^ 32) as Hsum by (change MAXBYTES with 78336 in *; lia).
      rewrite u32_small by done. rewrite decide_False by lia. by rewrite decide_False by lia. }
    rewrite Ere in Hread. injection Hread as -> ->. split; [done|]. split; [done|]. cbn [y_file updm].
    rewrite list_lookup_insert_eq by (by eapply lookup_lt_Some). do 2 f_equal. rewrite Ho. destruct (decide (0 < n2)); [|done].
    apply u32_small. change MAXBYTES with 78336 in *. lia.
Qed.

(** ** A negative count *)
Lemma wp_cases {S A} (E : string → Prop) (m : M S A) Q (s : S) : wp E m Q s →
  (∃ a s', m s = Ok (a, s') ∧ Q a s') ∨ ∃ e, m s = Panic e ∧ E e.
Proof. unfold wp. destruct (m s) as [[a s']|e| |]; [eauto|eauto|done|done]. Qed.
Lemma io_Ok {C A} (m : M C A) (s : fsys C) a w : m (y_world s) = Ok (a, w) → io_ m s = Ok (a, set_y_world w s).
Proof. unfold io_, zoom. by intros ->. Qed.
Lemma io_Panic {C A} (m : M C A) (s : fsys C) e : m (y_world s) = Panic e → io_ m s = Panic e.
Proof. unfold io_, zoom. by intros ->. Qed.

(** C17. read does not check its count: with a count of -1 at the start of a file,
    argptr accepts any buffer that does not start at address 0, readi takes the
    count for 2^32 - 1 and copies the whole file; when that reaches beyond the last
    page of the process, the kernel faults (unless reading the file panics before
    that because the buffer cache is exhausted). *)
Theorem read_negative_faults {C} `{FileLaws C} (s : fsys C) D R dt p fd f g ip data a :
  fcore (y_file s) (y_world s) D R false None dt → Z.of_nat (length (y_mem s)) < 2 ^ 31 →
  y_procs s !! y_cur s = Some p → (fd < NOFILE)%nat → fp_ofile p !! fd = Some (Some f) → y_file s !! f = Some g →
  fl_type g = FD_INODE → fl_ip g = Some ip → fl_readable g = true → fl_off g = 0 → dt !! ip = Some data →
  arg_word (y_mem s) (y_esp s) 0 = Some (Z.of_nat fd) → arg_word (y_mem s) (y_esp s) 1 = Some a →
  arg_word (y_mem s) (y_esp s) 2 = Some (-1) → 0 < a < Z.of_nat (length (y_mem s)) →
  Z.of_nat (length data) < 2 ^ 31 → mapped_end (Z.of_nat (length (y_mem s))) < a + Z.of_nat (length data) →
  sys_read s = Fault ∨ ∃ e, sys_read s = Panic e ∧ exhausted e.
Proof.
  intros Hc Hm Hp Hfd Hof Hg Hty Hip Hrd Hoff Hd A0 A1 A2 Ha Hdl Hover.
  assert (mem_ok s) as Hmo by done.
  assert (rw_args s = Ok (Some (f, a, -1), s)) as Hargs.
  { unfold rw_args, argfd. erewrite bind_Ok; [|erewrite bind_Ok; [|by apply argint_eq]; rewrite A0].
    2: { rewrite decide_False by (unfold NOFILE in *; lia). unfold the_proc, gets, bind, of_opt. rewrite Hp. cbn.
         rewrite Nat2Z.id, Hof. reflexivity. }
    cbn [fmap option_fmap option_map]. erewrite bind_Ok; [|by apply argint_eq]. rewrite A2.
    erewrite bind_Ok; [|unfold argptr; erewrite bind_Ok; [|by apply argint_eq]; rewrite A1; unfold proc_sz, gets, bind;
      rewrite (u32_small a) by lia; rewrite (u32_small (a + -1)) by lia; rewrite decide_False by lia; reflexivity]. reflexivity. }
  unfold sys_read. rewrite (bind_Ok _ _ _ _ _ Hargs). unfold fileread.
  assert (the_file f s = Ok (g, s)) as Hfile by (unfold the_file, gets, bind, of_opt; by rewrite Hg).
  rewrite (bind_Ok _ _ _ _ _ Hfile), Hrd, Hty, Hip. rewrite (bind_Ok _ _ s ip s) by done.
  destruct (wp_cases exhausted (io_ilock ip) (λ _ w', @holds C _ (fio_at (mkfv (objs (y_file s) ⊎ R) false (Some ip) dt)) [] w') (y_world s))
    as [([] & w1 & El & Hw1)|(e & El & He)].
  { eapply io_ilock_law; [apply Hc|by eapply own_inode|done]. }
  2: { right. exists e. split; [|done]. by apply bind_Panic, io_Panic. }
  rewrite (bind_Ok _ _ _ _ _ (io_Ok _ _ _ _ El)). rewrite Hoff. change (u32 (-1)) with (2 ^ 32 - 1).
  destruct (wp_cases exhausted (io_readi ip 0 (2 ^ 32 - 1)) (λ r _, r = readi_of data 0 (2 ^ 32 - 1)) w1) as [(r & w2 & Er & ->)|(e & Er & He)].
  { eapply io_readi_law; [done|exact Hw1|lia|lia| |congruence]. intros data' Hd' w' _. by replace data' with data by congruence. }
  2: { right. exists e. split; [|done]. by apply bind_Panic, io_Panic. }
  left. rewrite (bind_Ok _ _ _ _ _ (io_Ok _ (set_y_world w1 s) _ _ Er)).
  assert (readi_of data 0 (2 ^ 32 - 1) = (Z.of_nat (length data), data)) as ->.
  { unfold readi_of. rewrite Z.add_0_l, u32_small by lia. rewrite decide_False by lia. rewrite decide_True by lia.
    rewrite Z.sub_0_r, Nat2Z.id, drop_0, take_ge by lia. done. }
  cbn [fst snd]. unfold bind at 1, store_user, bind at 1, gets. cbn [y_mem set_y_world].
  pose proof (mapped_end_ge (Z.of_nat (length (y_mem s)))).
  rewrite decide_False by (intros ->; simpl in *; lia). by rewrite decide_False by lia.
Qed.

(** ** A world that is its own view *)
#[export] Instance view_sync : Sync fview := {|
  k_initlock _ := skip; k_acquire _ := skip; k_release _ := skip; k_wakeup _ := skip |}.
Definition v_set_op (b : bool) (v : fview) : fview := mkfv (fv_objs v) b (fv_lock v) (fv_data v).
Definition v_set_lock (k : option nat) (v : fview) : fview := mkfv (fv_objs v) (fv_op v) k (fv_data v).
Definition v_add (X : gmultiset obj) (v : fview) : fview := mkfv (X ⊎ fv_objs v) (fv_op v) (fv_lock v) (fv_data v).
Definition v_del (o : obj) (v : fview) : fview := mkfv (fv_objs v ∖ {[+ o +]}) (fv_op v) (fv_lock v) (fv_data v).
Definition v_write (i : nat) (src : list Z) (off n : Z) (v : fview) : outcome (Z * fview) :=
  match fv_data v !! i with
  | None => Ok (-1, v)
  | Some data =>
      if decide (off ≤ Z.of_nat (length data) ∧ off + n ≤ MAXBYTES)
      then Ok (n, mkfv (fv_objs v) (fv_op v) (fv_lock v) (<[i := splice data (Z.to_nat off) src]> (fv_data v)))
      else Ok (-1, v)
  end.
#[export] Instance view_io : FileIO fview := {|
  io_begin_op := modS (v_set_op true);
  io_end_op := modS (v_set_op false);
  io_namei _ := ret None;
  io_create _ _ _ _ := ret None;
  io_link _ _ := ret 0;
  io_unlink _ := ret 0;
  io_chown _ _ _ := ret 0;
  io_idup i := modS (v_add {[+ OInode i +]});
  io_ilock i := modS (v_set_lock (Some i));
  io_iunlock _ := modS (v_set_lock None);
  io_iput i := modS (v_del (OInode i));
  io_iunlockput i := modS (λ v, v_set_lock None (v_del (OInode i) v));
  io_type _ := ret T_FILE;
  io_stati _ := ret (mkstat 2 1 1 1 0 0 0 0);
  io_readi i off n := gets (λ v, match fv_data v !! i with Some data => readi_of data off n | None => (0, []) end);
  io_writei i src off n := v_write i src off n;
  io_pipe := modS (v_add {[+ OPipe 0 false; OPipe 0 true +]}) ;;; ret (Some 0%nat);
  io_pipeclose p w := modS (v_del (OPipe p w));
  io_piperead _ _ := ret (0, []);
  io_pipewrite _ _ n := ret n |}.
Definition view_at (v : fview) : SyncLaws fview.
Proof. refine {| holds _ w := w = v |}; intros; apply wp_skip; auto. Defined.
Lemma del_add (o : obj) (X : gmultiset obj) : ({[+ o +]} ⊎ X) ∖ {[+ o +]} = X.
Proof. multiset_solver. Qed.

#[export] Instance view_laws : FileLaws fview.
Proof.
  refine {| fio_at := view_at |}; intros;
    repeat match goal with H : @holds _ _ (view_at _) _ _ |- _ => hnf in H; subst end;
    try (match goal with HQ : ∀ w', _ → ?Q tt w' |- _ => apply wp_modS, HQ; done end);
    try (match goal with HQ : ∀ w', _ → ?Q tt w' |- _ =>
      apply wp_modS, HQ; hnf; unfold v_del, v_set_lock; cbn [fv_objs fv_op fv_lock fv_data]; by rewrite del_add end);
    try (match goal with HQ : ∀ w', _ → ?Q None w' |- _ => apply wp_ret, HQ; done end);
    try (match goal with HQ : ∀ r w', _ → ?Q r w' |- _ => apply wp_ret, HQ; done end);
    try (match goal with HQ : ∀ r D' w', _ → _ → ?Q r w' |- _ => apply wp_ret; eapply HQ; done end).
  - rename select (∀ data, D !! i = Some data → _) into Hs. rename select (D !! i = None → _) into Hn. apply wp_gets. cbn [fv_data].
    destruct (D !! i) as [data|] eqn:Hd; [by apply Hs|]. destruct (Hn eq_refl) as [Hr Hq]. apply Hq; [lia|done|done].
  - unfold wp. cbn. unfold v_write. cbn [fv_data]. destruct (D !! i) as [data|] eqn:Hd.
    + destruct (decide _) as [[Hx Hy]|Hno]; match goal with HQ : ∀ data w', _ = Some data → _ |- _ => by eapply HQ end.
    + match goal with HQ : ∀ r w', _ = None → _ |- _ => eapply HQ; [done|by right|done] end.
  - apply wp_bind, wp_modS, wp_ret. rename select (∀ p w', _) into Hs. by apply Hs.
  - apply wp_ret. rename select (∀ r bytes w', _) into Hs. apply Hs; [lia|done|done].
Defined.

(** One process with a file open for writing as 0 and for reading as 1; its
    memory starts with the arguments of a call, the stack pointer is 0. *)
Definition toy_free : file := mkfile FD_NONE 0 false false None None 0.
Definition toy_w : file := mkfile FD_INODE 1 false true None (Some 0%nat) 0.
Definition toy_r : file := mkfile FD_INODE 1 true false None (Some 0%nat) 0.
Definition toy_fp : fproc := mkfp (Some 0%nat :: Some 1%nat :: replicate 14 None) (Some 1%nat).
Definition toy_user_mem (fd a n : Z) : list Z := replicate 4 0 ++ le_split 4 fd ++ le_split 4 a ++ le_split 4 n ++ replicate 48 7.
Definition toy_contents : gmap nat (list Z) := {[ 0%nat := replicate 5000 5 ]}.
Definition toy_sys (fd a n : Z) : fsys fview :=
  mkfsys (toy_w :: toy_r :: replicate 98 toy_free) [toy_fp] 0 (toy_user_mem fd a n) 0
    (mkfv {[+ OInode 0; OInode 0; OInode 1 +]} false None toy_contents).

Lemma toy_descs : descs [toy_fp] = {[+ 0%nat; 1%nat +]}.
Proof. vm_compute. reflexivity. Qed.
Lemma toy_objs : objs (toy_w :: toy_r :: replicate 98 toy_free) ⊎ cwds [toy_fp] = {[+ OInode 0; OInode 0; OInode 1 +]}.
Proof. vm_compute. reflexivity. Qed.
Lemma toy_core fd a n :
  fcore (y_file (toy_sys fd a n)) (y_world (toy_sys fd a n)) (descs [toy_fp]) (cwds [toy_fp]) false None toy_contents.
Proof.
  split; cbn [y_file y_world toy_sys].
  - reflexivity.
  - rewrite toy_descs. intros [|[|i]] f Hf; [injection Hf as <-; reflexivity..|].
    change (replicate 98 toy_free !! i = Some f) in Hf. apply lookup_replicate in Hf as [-> _].
    rewrite multiplicity_disj_union, !multiplicity_singleton_ne by done. done.
  - rewrite toy_descs. intros i Hi. unfold NFILE. assert (i = 0%nat ∨ i = 1%nat) by multiset_solver. lia.
  - constructor; [split; cbn; (done || lia || by eexists)|]. constructor; [split; cbn; (done || lia || by eexists)|].
    apply Forall_replicate. split; cbn; (done || lia).
  - rewrite toy_objs. reflexivity.
Qed.

Lemma toy_idle fd a n : fsys_idle (toy_sys fd a n).
Proof.
  split; cbn [y_file y_world y_procs toy_sys].
  - exists toy_contents. apply (toy_core fd a n).
  - constructor; [done|]. constructor; [done|]. by apply Forall_replicate.
  - unfold NPROC. simpl. lia.
  - by repeat constructor.
  - unfold mem_ok, toy_sys, y_mem, toy_user_mem. rewrite !length_app, !length_le_split, !length_replicate. lia.
Qed.

Lemma descriptors_counted_witness : wp exhausted (fdo FClose) (λ _ s', fsys_idle s') (toy_sys 1 20 3).
Proof.
  refine (proj2 (descriptors_counted (toy_sys 0 20 3) (toy_sys 1 20 3) (toy_idle 0 20 3) _) _ FClose I).
  - apply rtc_once. exact (fs_user (toy_sys 0 20 3) 0 (toy_user_mem 1 20 3) 0 eq_refl).
  - exists toy_fp, 1%nat. split; reflexivity.
Defined.

Lemma args_safe_witness :
  argint 1 (toy_sys 0 20 3) = Ok (Some 20, toy_sys 0 20 3) ∧ argptr 1 44 (toy_sys 0 20 3) = Ok (Some 20, toy_sys 0 20 3) ∧
  argptr 1 45 (toy_sys 0 20 3) = Ok (None, toy_sys 0 20 3).
Proof.
  split; [|split].
  - exact (proj1 (args_safe (toy_sys 0 20 3) 1 44 eq_refl ltac:(lia))).
  - exact (proj1 (proj2 (args_safe (toy_sys 0 20 3) 1 44 eq_refl ltac:(lia)))).
  - exact (proj1 (proj2 (args_safe (toy_sys 0 20 3) 1 45 eq_refl ltac:(lia)))).
Defined.

Lemma filewrite_fileread_witness :
  wp exhausted (let! r := filewrite 0 16 3 in let! q := fileread 1 40 5 in ret (r, q)) (λ rq s',
    rq = (3, 5) ∧ take 5 (drop 40 (y_mem s')) = [7; 7; 7; 5; 5]) (toy_sys 0 0 0).
Proof.
  eapply wp_mono; [refine (proj2 (filewrite_fileread (toy_sys 0 0 0) _ _ toy_contents 0 toy_w 0 (replicate 5000 5) 16 3 1 toy_r 40 5
    (toy_core 0 0 0) eq_refl eq_refl eq_refl eq_refl eq_refl _ eq_refl eq_refl eq_refl eq_refl _ eq_refl _ _ _ _ _ _) _ _)|].
  - done.
  - by vm_compute.
  - lia.
  - lia.
  - by vm_compute.
  - lia.
  - lia.
  - by vm_compute.
  - by vm_compute.
  - by vm_compute.
  - intros rq s' (-> & Hm & _). split; [done|]. rewrite Hm. reflexivity.
Defined.

Lemma read_negative_faults_witness :
  sys_read (toy_sys 1 60 (-1)) = Fault ∨ ∃ e, sys_read (toy_sys 1 60 (-1)) = Panic e ∧ exhausted e.
Proof.
  refine (read_negative_faults (toy_sys 1 60 (-1)) _ _ toy_contents toy_fp 1 1 toy_r 0 (replicate 5000 5) 60
    (toy_core 1 60 (-1)) eq_refl eq_refl _ eq_refl eq_refl eq_refl eq_refl eq_refl eq_refl eq_refl eq_refl eq_refl eq_refl _ eq_refl eq_refl).
  - unfold NOFILE. lia.
  - by vm_compute.
Defined.

(** chown never looks at its third argument: the group is set to the owner. *)
Theorem sys_chown_ignores_group {C} `{Sync C} `{FileIO C} (s : fsys C) k path u :
  Z.of_nat (length (y_mem s)) < 2 ^ 31 → argstr 0 s = Ok (Some (k, path), s) →
  arg_word (y_mem s) (y_esp s) 1 = Some u → 0 ≤ u ≤ 32767 → sys_chown s = io_ (io_chown path u u) s.
Proof.
  intros Hm Hp Hu Hr. assert (mem_ok s) as Hmo by done. unfold sys_chown. rewrite (bind_Ok _ _ _ _ _ Hp).
  rewrite (bind_Ok _ _ _ _ _ (argint_eq s 1 Hmo)), Hu. rewrite decide_False by lia.
  rewrite (bind_Ok _ _ _ _ _ (argint_eq s 1 Hmo)), Hu. by rewrite decide_False by lia.
Qed.
