(* ===== verification/Grep.v ===== *)
(** * The pattern matcher of grep.c

    A pointer into a string is the list of the bytes from it on; reading past
    the object is [None].  The matcher recurses on the pattern, its loops run
    over the text. *)

From S2P Require Import Prelude CString.
Local Open Scope Z_scope.

(** [matchhere] is the call [matchhere(re, .)] of the loop's body. *)
Fixpoint matchstar (matchhere : list Z → option bool) (c : Z) (text : list Z) : option bool :=
  match matchhere text with
  | Some false =>
      match text with
      | [] => None
      | t :: text' => if decide (t ≠ 0 ∧ (t = c ∨ c = 46)) then matchstar matchhere c text' else Some false
      end
  | r => r
  end.
Fixpoint matchhere (re text : list Z) {struct re} : option bool :=
  match re with
  | [] => None
  | r0 :: re1 =>
      if decide (r0 = 0) then Some true
      else
        match re1 with
        | [] => None
        | r1 :: re2 =>
            if decide (r1 = 42) then matchstar (matchhere re2) r0 text
            else
              match text with
              | [] => None
              | t :: text1 =>
                  if decide (r0 = 36 ∧ r1 = 0) then Some (bool_decide (t = 0))
                  else if decide (t ≠ 0 ∧ (r0 = 46 ∨ r0 = t)) then matchhere re1 text1
                  else Some false
              end
        end
  end.
(** [do { if(matchhere(re, text)) return 1; } while( *text++ != 0)] *)
Fixpoint match_from (matchhere : list Z → option bool) (text : list Z) : option bool :=
  match matchhere text with
  | Some false =>
      match text with
      | [] => None
      | t :: text' => if decide (t = 0) then Some false else match_from matchhere text'
      end
  | r => r
  end.
Definition match_ (re text : list Z) : option bool :=
  match re with
  | [] => None
  | r0 :: re' => if decide (r0 = 94) then matchhere re' text else match_from (matchhere re) text
  end.

(** ** What a pattern means *)
Inductive elem := One (c : Z) | Many (c : Z) | Eol.
(** One character of a pattern: a dot stands for any. *)
Definition sat (c x : Z) : Prop := c = 46 ∨ x = c.

Fixpoint parse (re : list Z) : list elem :=
  match re with
  | [] => []
  | c :: re1 =>
      match re1 with
      | [] => [if decide (c = 36) then Eol else One c]
      | r :: re2 => if decide (r = 42) then Many c :: parse re2 else One c :: parse re1
      end
  end.

(** The pattern [es] matches at the beginning of a text. *)
Inductive matches : list elem → list Z → Prop :=
  | m_nil t : matches [] t
  | m_eol : matches [Eol] []
  | m_one c x es t : sat c x → matches es t → matches (One c :: es) (x :: t)
  | m_many c u es t : Forall (sat c) u → matches es t → matches (Many c :: es) (u ++ t).

Definition selects (re text : list Z) : Prop :=
  match re with
  | [] => True
  | c :: re' =>
      if decide (c = 94) then matches (parse re') text
      else ∃ u v, text = u ++ v ∧ matches (parse re) v
  end.

(** A decision of [P]. *)
Definition decides (r : option bool) (P : Prop) : Prop := ∃ b, r = Some b ∧ (b = true ↔ P).

Lemma decides_iff r P Q : decides r P → (P ↔ Q) → decides r Q.
Proof. intros (b & -> & Hb) HPQ. exists b. naive_solver. Qed.
Lemma decides_true P : P → decides (Some true) P.
Proof. exists true. naive_solver. Qed.
Lemma decides_false (P : Prop) : ¬ P → decides (Some false) P.
Proof. exists false. naive_solver. Qed.

(** A repetition takes one more character or none. *)
Lemma matches_many c es t :
  matches (Many c :: es) t ↔ matches es t ∨ ∃ x t', t = x :: t' ∧ sat c x ∧ matches (Many c :: es) t'.
Proof.
  split.
  - inversion 1 as [| | |c' u es' t' Hu Ht]; subst. destruct u as [|x u]; [by left|].
    apply list.Forall_cons in Hu as [Hx Hu]. right. exists x, (u ++ t'). split; [done|]. split; [done|]. by constructor.
  - intros [Ht|(x & t' & -> & Hx & Ht)]; [by apply (m_many c [])|].
    inversion Ht as [| | |c' u es' t'' Hu Ht']; subst. apply (m_many c (x :: u)); [|done]. by constructor.
Qed.

Section text.
Context (junk : list Z).
Notation mem s := (s ++ 0 :: junk).

Lemma matchstar_spec here c es :
  (∀ text, 0 ∉ text → decides (here (mem text)) (matches es text)) →
  ∀ text, 0 ∉ text → decides (matchstar here c (mem text)) (matches (Many c :: es) text).
Proof.
  intros Hhere. induction text as [|t text IH]; intros Hz.
  - destruct (Hhere [] Hz) as (b & Hb & Hm). cbn [app matchstar] in *. rewrite Hb. eapply decides_iff; [|symmetry; apply matches_many].
    destruct b; [apply decides_true; left; by apply Hm|].
    rewrite decide_False by tauto. apply decides_false. intros [Hx|(x & t' & ? & _)]; [|done]. by apply Hm in Hx.
  - destruct (Hhere (t :: text) Hz) as (b & Hb & Hm). cbn [app matchstar] in *. rewrite Hb.
    eapply decides_iff; [|symmetry; apply matches_many].
    destruct b; [apply decides_true; left; by apply Hm|].
    apply not_elem_of_cons in Hz as [Ht Hz]. destruct (decide (t ≠ 0 ∧ (t = c ∨ c = 46))) as [[_ Hs]|Hn].
    + eapply decides_iff; [by apply IH|]. unfold sat. split; [intros Hx; right; exists t, text; tauto|].
      intros [Hx|(x & t' & [= <- <-] & _ & Hx)]; [|done]. by apply Hm in Hx.
    + apply decides_false. unfold sat. intros [Hx|(x & t' & [= <- <-] & Hs & _)]; [by apply Hm in Hx|].
      apply Hn. split; [congruence|tauto].
Qed.

Lemma matchhere_spec junk' n : ∀ re text, (length re ≤ n)%nat → 0 ∉ re → 0 ∉ text →
  decides (matchhere (re ++ 0 :: junk') (mem text)) (matches (parse re) text).
Proof.
  induction n as [|n IH]; intros [|c [|r re]] text Hn Hr Ht; simpl in Hn; try lia;
    try (apply decides_true; constructor).
  - cbn [app matchhere parse]. rewrite decide_False by set_solver. rewrite decide_False by done.
    destruct text as [|t text]; cbn [app]; destruct (decide (c = 36)) as [->|Hc].
    + rewrite decide_True by done. apply decides_true. constructor.
    + rewrite !decide_False by tauto. apply decides_false. by inversion 1.
    + rewrite decide_True by done. rewrite bool_decide_eq_false_2 by set_solver.
      apply decides_false. by inversion 1.
    + rewrite (decide_False (P := c = 36 ∧ 0 = 0)) by tauto. destruct (decide (t ≠ 0 ∧ (c = 46 ∨ c = t))) as [[_ Hs]|Hs].
      * apply decides_true. constructor; [unfold sat; naive_solver|constructor].
      * apply decides_false. inversion 1 as [| |? ? ? ? Hsat _|]; subst. apply Hs. unfold sat in Hsat.
        split; [set_solver|naive_solver].
  - cbn [app matchhere parse]. rewrite decide_False by set_solver.
    destruct (decide (r = 42)) as [->|Hr42].
    + apply matchstar_spec; [|done]. intros u Hu. apply IH; [lia|set_solver|done].
    + destruct text as [|t text]; cbn [app].
      * rewrite (decide_False (P := c = 36 ∧ r = 0)) by set_solver. rewrite decide_False by tauto.
        apply decides_false. by inversion 1.
      * rewrite (decide_False (P := c = 36 ∧ r = 0)) by set_solver.
        destruct (decide (t ≠ 0 ∧ (c = 46 ∨ c = t))) as [[_ Hs]|Hs].
        -- eapply decides_iff; [apply (IH (r :: re)); [simpl; lia|set_solver|set_solver]|].
           split; [intros Hm; constructor; [unfold sat; naive_solver|done]|]. by inversion 1.
        -- apply decides_false. inversion 1 as [| |? ? ? ? Hsat _|]; subst. apply Hs. unfold sat in Hsat.
           split; [set_solver|naive_solver].
Qed.

Lemma match_from_spec here (P : list Z → Prop) :
  (∀ text, 0 ∉ text → decides (here (mem text)) (P text)) →
  ∀ text, 0 ∉ text → decides (match_from here (mem text)) (∃ u v, text = u ++ v ∧ P v).
Proof.
  intros Hhere. induction text as [|t text IH]; intros Hz.
  - destruct (Hhere [] Hz) as (b & Hb & Hm). cbn [app match_from] in *. rewrite Hb. destruct b.
    + apply decides_true. exists [], []. split; [done|by apply Hm].
    + rewrite decide_True by done. apply decides_false. intros (u & v & Huv & Hv).
      symmetry in Huv. apply app_nil in Huv as [-> ->]. by apply Hm in Hv.
  - destruct (Hhere (t :: text) Hz) as (b & Hb & Hm). cbn [app match_from] in *. rewrite Hb. destruct b.
    + apply decides_true. exists [], (t :: text). split; [done|by apply Hm].
    + apply not_elem_of_cons in Hz as [Ht Hz]. rewrite decide_False by congruence.
      eapply decides_iff; [by apply IH|]. split.
      * intros (u & v & -> & Hv). by exists (t :: u), v.
      * intros ([|x u] & v & Huv & Hv); simpl in Huv; [subst v; by apply Hm in Hv|].
        injection Huv as <- ->. eauto.
Qed.
End text.

Lemma match_spec re text junk junk' :
  0 ∉ re → 0 ∉ text → decides (match_ (re ++ 0 :: junk') (text ++ 0 :: junk)) (selects re text).
Proof.
  intros Hr Ht. destruct re as [|c re]; cbn [app match_ selects].
  - destruct text; simpl; by apply decides_true.
  - destruct (decide (c = 94)) as [->|Hc].
    + apply (matchhere_spec junk junk' (length re)); [done|set_solver|done].
    + apply (match_from_spec junk _ (matches (parse (c :: re)))); [|done].
      intros u Hu. by apply (matchhere_spec junk junk' (length (c :: re)) (c :: re)).
Qed.

(** C39. The matcher of grep ends on every pattern and text, reads no byte past
    their terminators, and decides the meaning of the pattern: anchors at both
    ends, dots, and repetitions of a character. *)
Theorem match_decides re text junk junk' :
  0 ∉ re → 0 ∉ text → decides (match_ (re ++ 0 :: junk') (text ++ 0 :: junk)) (selects re text).
Proof. apply match_spec. Qed.

Lemma match_decides_witness :
  selects [94; 97; 46; 42; 98; 36] [97; 120; 121; 98] ∧
  decides (match_ ([94; 97; 46; 42; 98; 36] ++ 0 :: [7]) ([97; 120; 121; 98] ++ 0 :: [])) (selects [94; 97; 46; 42; 98; 36] [97; 120; 121; 98]).
Proof.
  assert (decides (match_ ([94; 97; 46; 42; 98; 36] ++ 0 :: [7]) ([97; 120; 121; 98] ++ 0 :: []))
    (selects [94; 97; 46; 42; 98; 36] [97; 120; 121; 98])) as Hd.
  { apply match_decides; intros Hin; vm_compute in Hin; set_solver. }
  split; [|exact Hd]. destruct Hd as (b & Hb & Hs). vm_compute in Hb. apply Hs. congruence.
Defined.
