(* ===== verification/GrepLoop.v ===== *)
(** * grep.c: reading, splitting into lines, printing

    The input is the chunks that [read] delivers: a call returns the next chunk,
    or its first bytes when it asks for fewer, and 0 at the end.  Output is what
    was written to descriptor 1.  Offsets into buf stand for the pointers. *)

From S2P Require Import Prelude CString Grep.
Local Open Scope Z_scope.

Record gio := mkgio { io_in : list (list Z); io_out : list Z; io_buf : list Z }.
Definition BUFSZ : nat := 1024.

Definition store_buf (i : nat) (c : Z) : M gio unit :=
  let! s := getS in
  if decide (i < length (io_buf s))%nat
  then modS (λ s, mkgio (io_in s) (io_out s) (<[i := c]> (io_buf s))) else fault.
(** read(fd, buf+m, n) *)
Definition read (m n : nat) : M gio nat :=
  let! s := getS in
  match io_in s with
  | [] => ret O
  | c :: cs =>
      let got := take n c in
      let rest := if decide (length c ≤ n)%nat then cs else drop n c :: cs in
      if decide (m + length got ≤ length (io_buf s))%nat
      then modS (λ s, mkgio rest (io_out s) (splice (io_buf s) m got)) ;;; ret (length got) else fault
  end.
(** write(1, buf+p, n) *)
Definition write (p n : nat) : M gio unit :=
  modS (λ s, mkgio (io_in s) (io_out s ++ take n (drop p (io_buf s))) (io_buf s)).

(** [while((q = strchr(p, newline)) != 0)]: the last [p] *)
Fixpoint grep_lines (fuel : nat) (pattern : list Z) (p : nat) : M gio nat :=
  match fuel with
  | O => diverge
  | S fuel' =>
      let! s := getS in
      let! q := of_opt (strchr (drop p (io_buf s)) 10) in
      match q with
      | None => ret p
      | Some k =>
          let q := (p + k)%nat in
          store_buf q 0 ;;;
          let! s := getS in
          let! r := of_opt (match_ pattern (drop p (io_buf s))) in
          (if r : bool then store_buf q 10 ;;; write p (q + 1 - p) else skip) ;;;
          grep_lines fuel' pattern (q + 1)
      end
  end.
Fixpoint grep_from (fuel : nat) (pattern : list Z) (m : nat) : M gio unit :=
  match fuel with
  | O => diverge
  | S fuel' =>
      let! n := read m (BUFSZ - m - 1) in
      if decide (0 < n)%nat then
        let m := (m + n)%nat in
        store_buf m 0 ;;;
        let! p := grep_lines (S BUFSZ) pattern 0 in
        let m := if decide (p = 0)%nat then O else m in
        if decide (0 < m)%nat then
          let m := (m - p)%nat in
          let! s := getS in
          let! b := of_opt (umemmove (io_buf s) 0 p m) in
          modS (λ s, mkgio (io_in s) (io_out s) b) ;;;
          grep_from fuel' pattern m
        else grep_from fuel' pattern m
      else skip
  end.
Definition grep (pattern : list Z) : M gio unit :=
  let! s := getS in grep_from (S (length (io_in s) + length (concat (io_in s)))) pattern 0.

(** ** Lines *)

(** The complete lines of a text, and what follows the last newline. *)
Fixpoint lines (d : list Z) : list (list Z) * list Z :=
  match d with
  | [] => ([], [])
  | c :: d' =>
      if decide (c = 10) then ([] :: (lines d').1, (lines d').2)
      else match (lines d').1 with
           | [] => ([], c :: (lines d').2)
           | l :: ls => ((c :: l) :: ls, (lines d').2)
           end
  end.
Definition unlines (ls : list (list Z)) : list Z := concat ((λ l, l ++ [10]) <$> ls).

Lemma lines_prefix r d : 10 ∉ r →
  lines (r ++ d) = match (lines d).1 with
                   | [] => ([], r ++ (lines d).2)
                   | l :: ls => ((r ++ l) :: ls, (lines d).2)
                   end.
Proof.
  induction r as [|c r IH]; intros Hr; cbn [app lines].
  - destruct (lines d) as [[|l ls] t]; done.
  - apply not_elem_of_cons in Hr as [Hc Hr]. rewrite decide_False by congruence. rewrite IH by done.
    by destruct (lines d) as [[|l ls] t].
Qed.
Lemma lines_line l d : 10 ∉ l → lines (l ++ 10 :: d) = (l :: (lines d).1, (lines d).2).
Proof.
  intros Hl. rewrite lines_prefix by done. cbn [lines]. rewrite decide_True by done. simpl. by rewrite app_nil_r.
Qed.
Lemma lines_none r : 10 ∉ r → lines r = ([], r).
Proof. intros Hr. rewrite <- (app_nil_r r) at 1. rewrite lines_prefix by done. simpl. by rewrite app_nil_r. Qed.
Lemma lines_unlines ls d : Forall (λ l, 10 ∉ l) ls → lines (unlines ls ++ d) = (ls ++ (lines d).1, (lines d).2).
Proof.
  unfold unlines. induction ls as [|l ls IH]; intros Hl; cbn [fmap list_fmap concat app].
  - by destruct (lines d).
  - apply list.Forall_cons in Hl as [Hl Hls]. rewrite <- !app_assoc. cbn [app]. rewrite lines_line by done.
    by rewrite IH.
Qed.
Lemma lines_split d : ∃ ls r, d = unlines ls ++ r ∧ Forall (λ l, 10 ∉ l) ls ∧ 10 ∉ r.
Proof.
  induction d as [|c d (ls & r & -> & Hls & Hr)]; [exists [], []; split_and!; [done|constructor|set_solver]|].
  destruct (decide (c = 10)) as [->|Hc].
  - exists ([] :: ls), r. split_and!; [done|constructor; [set_solver|done]|done].
  - destruct ls as [|l ls].
    + exists [], (c :: r). split_and!; [done|constructor|set_solver].
    + apply list.Forall_cons in Hls as [Hl Hls]. exists ((c :: l) :: ls), r.
      split_and!; [done|constructor; [set_solver|done]|done].
Qed.

Lemma strchr_found l d : 10 ∉ l → 0 ∉ l → strchr (l ++ 10 :: d) 10 = Some (Some (length l)).
Proof.
  induction l as [|c l IH]; intros H1 H2; cbn [app strchr].
  - by rewrite decide_False, decide_True by done.
  - rewrite !decide_False by set_solver. by rewrite IH by set_solver.
Qed.
Lemma strchr_none r d : 10 ∉ r → 0 ∉ r → strchr (r ++ 0 :: d) 10 = Some None.
Proof.
  induction r as [|c r IH]; intros H1 H2; cbn [app strchr]; [by rewrite decide_True|].
  rewrite !decide_False by set_solver. by rewrite IH by set_solver.
Qed.

Section loop.
Context (re junk : list Z) (f : list Z → bool).
Hypothesis re_nul : 0 ∉ re.
Hypothesis f_selects : ∀ l, 0 ∉ l → f l = true ↔ selects re l.
Notation pattern := (re ++ 0 :: junk).
(** The lines that are printed. *)
Definition printed (ls : list (list Z)) : list Z := unlines (List.filter f ls).
Lemma printed_app ls ls' : printed (ls ++ ls') = printed ls ++ printed ls'.
Proof. unfold printed, unlines. by rewrite List.filter_app, fmap_app, concat_app. Qed.

Lemma match_line l d : 0 ∉ l → match_ pattern (l ++ 0 :: d) = Some (f l).
Proof.
  intros Hl. destruct (match_spec re l d junk re_nul Hl) as (b & -> & Hb). f_equal.
  apply eq_true_iff_eq. by rewrite Hb, f_selects.
Qed.

Lemma insert_at (x : list Z) y c d n : n = length x → <[n := d]> (x ++ c :: y) = x ++ d :: y.
Proof. intros ->. by rewrite insert_app_r_alt, Nat.sub_diag by done. Qed.
Lemma drop_at (x y : list Z) n : n = length x → drop n (x ++ y) = y.
Proof. intros ->. by rewrite drop_app_length. Qed.

Lemma wp_store_buf E s x c y d n Q :
  io_buf s = x ++ c :: y → n = length x →
  Q tt (mkgio (io_in s) (io_out s) (x ++ d :: y)) → wp E (store_buf n d) Q s.
Proof.
  intros Hb Hn HQ. apply wp_bind, wp_getS. rewrite Hb, decide_True by (rewrite length_app; simpl; lia).
  apply wp_modS. by rewrite Hb, (insert_at x y c d n Hn).
Qed.

Lemma wp_grep_lines E post r ls : ∀ fuel pre s Q,
  io_buf s = pre ++ (unlines ls ++ r) ++ 0 :: post → Forall (λ l, 10 ∉ l) ls → 10 ∉ r → 0 ∉ unlines ls ++ r →
  (length ls < fuel)%nat →
  (∀ pre', length pre' = (length pre + length (unlines ls))%nat →
     Q (length pre') (mkgio (io_in s) (io_out s ++ printed ls) (pre' ++ r ++ 0 :: post))) →
  wp E (grep_lines fuel pattern (length pre)) Q s.
Proof.
  induction ls as [|l ls IH]; intros [|fuel] pre s Q Hb Hls Hr Hz Hf HQ; try (simpl in Hf; lia); cbn [grep_lines].
  - apply wp_bind, wp_getS, wp_bind. simpl in Hb, Hz. rewrite Hb, drop_app_length.
    apply (wp_of_opt _ _ None); [by apply strchr_none|]. apply wp_ret.
    specialize (HQ pre). rewrite <- Hb in HQ. unfold printed in HQ. simpl in HQ. rewrite app_nil_r in HQ.
    destruct s. apply HQ. lia.
  - apply list.Forall_cons in Hls as [Hl Hls].
    assert (unlines (l :: ls) = l ++ 10 :: unlines ls) as Eu by (unfold unlines; simpl; by rewrite <- app_assoc).
    rewrite Eu in Hb, Hz, HQ. rewrite <- app_assoc in Hb, Hz. cbn [app] in Hb, Hz.
    assert (0 ∉ l ∧ 0 ∉ unlines ls ++ r) as [Hzl Hz'] by set_solver. rewrite <- app_assoc in Hb. cbn [app] in Hb.
    apply wp_bind, wp_getS, wp_bind. rewrite Hb, drop_app_length.
    apply (wp_of_opt _ _ (Some (length l))); [by apply strchr_found|]. rewrite app_assoc in Hb.
    apply wp_bind, (wp_store_buf _ _ (pre ++ l) 10 ((unlines ls ++ r) ++ 0 :: post)); [rewrite Hb, <- !app_assoc; done|by rewrite length_app|].
    apply wp_bind, wp_getS, wp_bind. cbn [io_buf io_in io_out]. rewrite <- app_assoc, drop_app_length.
    apply (wp_of_opt _ _ (f l)); [by apply match_line|]. apply wp_bind.
    assert (∀ c, wp E (grep_lines fuel pattern (length pre + length l + 1)) Q
      (mkgio (io_in s) (io_out s ++ printed [l]) ((pre ++ l) ++ c :: (unlines ls ++ r) ++ 0 :: post))) as Hrest.
    { intros c.
      replace (length pre + length l + 1)%nat with (length (pre ++ l ++ [c])) by (rewrite !length_app; simpl; lia).
      apply IH; [cbn [io_buf]; rewrite <- !app_assoc; done|done|done|done|simpl in Hf; lia|].
      intros pre' Hp'. cbn [io_in io_out]. rewrite <- app_assoc, <- printed_app. apply HQ. rewrite Hp', !length_app. simpl. lia. }
    destruct (f l) eqn:Hfl.
    + assert (printed [l] = l ++ [10]) as Ep.
      { unfold printed, unlines. simpl. rewrite Hfl. simpl. by rewrite app_nil_r. }
      apply wp_bind, (wp_store_buf _ _ (pre ++ l) 0 ((unlines ls ++ r) ++ 0 :: post)); [cbn [io_buf]; by rewrite <- !app_assoc|by rewrite length_app|].
      apply wp_modS. cbn [io_buf io_in io_out].
      replace (take (length pre + length l + 1 - length pre) (drop (length pre) ((pre ++ l) ++ 10 :: (unlines ls ++ r) ++ 0 :: post)))
        with (printed [l]); [apply Hrest|].
      rewrite Ep, <- app_assoc, drop_app_length. replace (length pre + length l + 1 - length pre)%nat with (length (l ++ [10])) by (rewrite length_app; simpl; lia).
      change (10 :: (unlines ls ++ r) ++ 0 :: post) with ([10] ++ (unlines ls ++ r) ++ 0 :: post). rewrite app_assoc. by rewrite take_app_length.
    + assert (printed [l] = []) as Ep.
      { unfold printed, unlines. simpl. by rewrite Hfl. }
      apply wp_skip. specialize (Hrest 0). rewrite Ep, app_nil_r in Hrest. by rewrite <- app_assoc in Hrest.
Qed.

Lemma umemmove_down (pre r y : list Z) :
  umemmove (pre ++ r ++ y) 0 (length pre) (length r) = Some (r ++ drop (length r) (pre ++ r ++ y)).
Proof.
  unfold umemmove. rewrite !length_app, decide_True by lia. f_equal.
  rewrite (copy_is_splice (pre ++ r ++ y) 0 (length pre) (length r) (copy_up (pre ++ r ++ y) 0 (length pre) (length r)));
    rewrite ?length_app; try lia; [|by rewrite length_copy_up, !length_app|intros j; apply copy_up_nth; rewrite ?length_app; lia].
  by rewrite drop_app_length, take_app_length.
Qed.

(** No line is too long for the buffer. *)
Definition short (d : list Z) : Prop :=
  Forall (λ l, length l ≤ 1022)%nat (lines d).1 ∧ (length (lines d).2 ≤ 1022)%nat.
Lemma short_prefix r d : 10 ∉ r → short (r ++ d) → (length r ≤ 1022)%nat.
Proof.
  intros Hr [Hl Ht]. rewrite lines_prefix in Hl, Ht by done. destruct (lines d) as [[|l ls] t]; simpl in *.
  - rewrite length_app in Ht. lia.
  - apply list.Forall_cons in Hl as [Hl _]. rewrite length_app in Hl. lia.
Qed.
Lemma short_unlines ls d : Forall (λ l, 10 ∉ l) ls → short (unlines ls ++ d) → short d.
Proof.
  intros Hls [Hl Ht]. rewrite lines_unlines in Hl, Ht by done. apply list.Forall_app in Hl as [_ Hl]. by split.
Qed.
Lemma unlines_length ls : (length ls ≤ length (unlines ls))%nat.
Proof.
  induction ls as [|l ls IH]; [done|]. unfold unlines in *. rewrite fmap_cons. cbn [concat length].
  rewrite !length_app. cbn [length]. lia.
Qed.

(** The file from here on: everything that was asked for, up to its end. *)
Definition file_of (s : gio) (d : list Z) : Prop := io_in s = [d] ∨ (io_in s = [] ∧ d = []).

Lemma wp_read E s u post d n Q :
  io_buf s = u ++ post → file_of s d → (n ≤ length post)%nat →
  (∀ s', file_of s' (drop n d) → io_out s' = io_out s → io_buf s' = u ++ take n d ++ drop (length (take n d)) post →
     Q (length (take n d)) s') →
  wp E (read (length u) n) Q s.
Proof.
  intros Hb Hin Hn HQ. apply wp_bind, wp_getS. destruct Hin as [Hin|[Hin ->]]; rewrite Hin.
  - rewrite decide_True by (rewrite Hb, length_app, length_take; lia). apply wp_bind, wp_modS, wp_ret.
    apply HQ; [|done|].
    + destruct (decide (length d ≤ n)%nat) as [Hle|Hgt]; [right|by left]. cbn [io_in]. by rewrite drop_ge.
    + cbn [io_buf]. rewrite Hb. unfold splice. rewrite take_app_length, <- drop_drop, drop_app_length. done.
  - rewrite take_nil in HQ. apply wp_ret, HQ; [right; by rewrite drop_nil|done|by rewrite Hb].
Qed.

Lemma wp_grep_from E fuel : ∀ s u post d Q,
  io_buf s = u ++ post → length (io_buf s) = BUFSZ → 10 ∉ u → 0 ∉ u ++ d → (length u ≤ 1022)%nat →
  file_of s d → short (u ++ d) → (length d < fuel)%nat →
  (∀ s', io_out s' = io_out s ++ printed (lines (u ++ d)).1 → Q tt s') →
  wp E (grep_from fuel pattern (length u)) Q s.
Proof.
  induction fuel as [|fuel IH]; intros s u post d Q Hb Hlen Hu Hz Hu2 Hin Hsh Hf HQ; [lia|]. cbn [grep_from].
  set (n := (BUFSZ - length u - 1)%nat). assert (length u + length post = 1024)%nat as Hpost.
  { rewrite <- length_app, <- Hb, Hlen. done. }
  assert (n = 1023 - length u)%nat as En by (unfold n, BUFSZ; lia).
  apply wp_bind, (wp_read _ s u post d n); [done|done|lia|]. intros s1 Hin1 Ho1 Hb1.
  destruct (decide (0 < length (take n d))%nat) as [Hpos|Hz0].
  2: { assert (d = []) as ->. { destruct d; [done|]. rewrite length_take in Hz0. simpl in Hz0. lia. }
       apply wp_skip, HQ. rewrite Ho1, app_nil_r, lines_none by done. unfold printed. simpl. by rewrite app_nil_r. }
  set (got := take n d) in *. assert (length got ≤ n)%nat as Hgn by (unfold got; rewrite length_take; lia).
  assert (d = got ++ drop n d) as Ed by (symmetry; apply take_drop).
  destruct (drop (length got) post) as [|c post1] eqn:Epost.
  { exfalso. apply (f_equal length) in Epost. rewrite length_drop in Epost. simpl in Epost. lia. }
  apply wp_bind, (wp_store_buf _ s1 (u ++ got) c post1 0); [by rewrite Hb1, app_assoc|by rewrite length_app|].
  destruct (lines_split (u ++ got)) as (ls & r & Eug & Hls & Hr).
  assert (length (u ++ got) = length u + length got)%nat as Hlug by apply length_app.
  assert (length (u ++ got) = length (unlines ls) + length r)%nat as Hlug2 by (rewrite Eug; apply length_app).
  apply wp_bind. change 0%nat with (length (@nil Z)) at 2.
  apply (wp_grep_lines E post1 r ls (S BUFSZ) []); [cbn [io_buf app]; by rewrite Eug|done|done| | |].
  { rewrite <- Eug. rewrite Ed in Hz. clear - Hz. set_solver. }
  { pose proof (unlines_length ls). unfold BUFSZ. lia. }
  cbn [length io_in io_out]. intros pre' Hpre'. rewrite Ho1. set (s2 := mkgio _ _ _).
  assert (u ++ d = unlines ls ++ r ++ drop n d) as Eud by (rewrite Ed at 1; by rewrite app_assoc, Eug, <- app_assoc).
  assert (printed (lines (u ++ d)).1 = printed ls ++ printed (lines (r ++ drop n d)).1) as Epr
    by (rewrite Eud, lines_unlines by done; cbn [fst]; by rewrite printed_app).
  rewrite Epr in HQ. rewrite Eud in Hsh. pose proof (short_unlines _ _ Hls Hsh) as Hsh'.
  assert (length (io_buf s2) = BUFSZ) as Hlen2.
  { cbn [io_buf s2]. rewrite length_app, Hpre', length_app. simpl. apply (f_equal length) in Epost.
    rewrite length_drop in Epost. simpl in Epost. unfold BUFSZ. lia. }
  assert (0 ∉ r ++ drop n d) as Hz2 by (rewrite Eud in Hz; clear - Hz; set_solver).
  destruct (decide (length pre' = 0)%nat) as [Ep|Ep].
  - (* no newline: the end of the file *)
    rewrite (decide_False (P := (0 < 0)%nat)) by lia. change 0%nat with (length (@nil Z)).
    assert (drop n d = []) as Edr.
    { pose proof (short_prefix _ _ Hr Hsh'). apply drop_ge. unfold got in *. rewrite length_take in Hlug. lia. }
    destruct ls as [|l ls]; [|simpl in Hpre'; unfold unlines in Hpre'; simpl in Hpre'; rewrite !length_app in Hpre'; simpl in Hpre'; lia].
    rewrite Edr, app_nil_r in *. rewrite lines_none in HQ by done.
    apply (IH s2 [] (io_buf s2) []); [done|done|set_solver|set_solver|simpl; lia|done|split; [constructor|simpl; lia]| |].
    + simpl. unfold got in Hpos. rewrite length_take in Hpos. lia.
    + intros s' Ho'. apply HQ. rewrite Ho'. cbn [io_out s2]. by rewrite <- app_assoc.
  - rewrite decide_True by lia.
    replace (length u + length got - length pre')%nat with (length r) by lia.
    apply wp_bind, wp_getS, wp_bind, (wp_of_opt _ _ _ _ _ (umemmove_down pre' r (0 :: post1))).
    apply wp_bind, wp_modS.
    apply (IH _ r (drop (length r) (pre' ++ r ++ 0 :: post1)) (drop n d)); [done| |done|done|lia|done|done| |].
    + cbn [io_buf] in *. rewrite length_app, length_drop. unfold BUFSZ in *. cbn [io_buf s2] in Hlen2.
      rewrite Hlen2. rewrite length_app, length_app in Hlen2. lia.
    + rewrite length_drop. unfold got in Hpos. rewrite length_take in Hpos. lia.
    + intros s' Ho'. apply HQ. rewrite Ho'. cbn [io_out s2]. by rewrite app_assoc.
Qed.
End loop.

(** grep prints exactly the selected lines of a file: when every line fits in
    the buffer, it ends and writes, in order, the lines the pattern selects; what
    follows the last newline is not looked at. *)
Theorem grep_exact re junk f data s :
  0 ∉ re → 0 ∉ data → (∀ l, 0 ∉ l → f l = true ↔ selects re l) → short data →
  io_in s = [data] → length (io_buf s) = BUFSZ →
  wp no_panic (grep (re ++ 0 :: junk)) (λ _ s', io_out s' = io_out s ++ unlines (List.filter f (lines data).1)) s.
Proof.
  intros Hre Hz Hf Hsh Hin Hlen. apply wp_bind, wp_getS. rewrite Hin. change 0%nat with (length (@nil Z)).
  apply (wp_grep_from re junk f Hre Hf _ _ s [] (io_buf s) data); try done; [set_solver|simpl; lia|by left|].
  cbn [concat length]. rewrite length_app. simpl. lia.
Qed.

Definition grep_a (ins : list (list Z)) : outcome (list Z) :=
  match grep [97; 0] (mkgio ins [] (replicate BUFSZ 0)) with
  | Ok (_, s) => Ok (io_out s) | Panic e => Panic e | Fault => Fault | Diverge => Diverge
  end.

Lemma grep_exact_witness :
  wp no_panic (grep [97; 0]) (λ _ s', io_out s' = [98; 97; 10]) (mkgio [[98; 97; 10; 99; 10; 97]] [] (replicate BUFSZ 0)).
Proof.
  assert (∀ l, 0 ∉ l → bool_decide (match_ ([97] ++ [0]) (l ++ [0]) = Some true) = true ↔ selects [97] l) as Hf.
  { intros l Hl. destruct (match_spec [97] l [] [] ltac:(set_solver) Hl) as (b & Hb & Hs). rewrite Hb, bool_decide_eq_true.
    rewrite <- Hs. split; [by intros [= ->]|by intros ->]. }
  eapply wp_mono; [refine (grep_exact [97] [] _ [98; 97; 10; 99; 10; 97] (mkgio [[98; 97; 10; 99; 10; 97]] [] (replicate BUFSZ 0)) _ _ Hf _ _ _)|].
  - set_solver.
  - set_solver.
  - split; [|vm_compute; lia]. vm_compute. repeat constructor.
  - reflexivity.
  - reflexivity.
  - intros _ s' ->. reflexivity.
Defined.

(** grep loses a line that arrives in two pieces, as lines do through a pipe
    from a program that writes character by character: after a read without a
    newline it empties the buffer, although the buffer is not full.  The same
    bytes in one piece are printed. *)
Theorem grep_loses_split_line : grep_a [[97; 10]] = Ok [97; 10] ∧ grep_a [[97]; [10]] = Ok [].
Proof. split; vm_compute; reflexivity. Qed.
