(* ===== verification/Wc.v ===== *)
(** * wc.c: counting lines, words and characters

    The counters are ints.  The input is the chunks that [read] delivers, at most
    512 bytes at a time. *)

From S2P Require Import Prelude CString.
Local Open Scope Z_scope.

Record counts := mkcounts { wc_l : Z; wc_w : Z; wc_c : Z; wc_inword : bool }.

Definition spaces : list Z := [32; 13; 9; 10; 11; 0].
(** The body of the loop over the bytes that were read. *)
Definition wc_byte (st : counts) (b : Z) : counts :=
  let c := s32 (wc_c st + 1) in
  let l := if decide (b = 10) then s32 (wc_l st + 1) else wc_l st in
  match strchr spaces b with
  | Some (Some _) => mkcounts l (wc_w st) c false
  | _ => if wc_inword st then mkcounts l (wc_w st) c true else mkcounts l (s32 (wc_w st + 1)) c true
  end.
(** [while((n = read(fd, buf, sizeof(buf))) > 0)] *)
Fixpoint wc_loop (fuel : nat) (ins : list (list Z)) (st : counts) : option counts :=
  match fuel with
  | O => None
  | S fuel' =>
      match ins with
      | [] => Some st
      | chunk :: ins' =>
          let got := take 512 chunk in
          if decide (length got = 0)%nat then Some st
          else wc_loop fuel' (if decide (length chunk ≤ 512)%nat then ins' else drop 512 chunk :: ins') (foldl wc_byte st got)
      end
  end.
Definition wc (ins : list (list Z)) : option counts :=
  wc_loop (S (length (concat ins))) ins (mkcounts 0 0 0 false).

(** ** Words *)
Definition is_space (b : Z) : bool := bool_decide (b ∈ [32; 13; 9; 10; 11]).
(** The stretches between spaces. *)
Fixpoint fields (d : list Z) : list (list Z) :=
  match d with
  | [] => [[]]
  | b :: d' =>
      if is_space b then [] :: fields d'
      else match fields d' with f :: fs => (b :: f) :: fs | [] => [[b]] end
  end.
Definition nonempty (f : list Z) : bool := match f with [] => false | _ => true end.
Definition words (d : list Z) : list (list Z) := List.filter nonempty (fields d).

Lemma strchr_space b : (∃ k, strchr spaces b = Some (Some k)) ↔ is_space b = true.
Proof.
  unfold is_space. rewrite bool_decide_eq_true. unfold spaces. cbn [strchr].
  repeat match goal with |- context [decide ?P] => destruct (decide P) as [?|?]; try lia end; subst;
    simpl; split; intros Hx; try (by eexists); try set_solver; destruct Hx as [k Hk]; try done; set_solver.
Qed.

Definition count_step (inword : bool) (b : Z) : bool * Z :=
  if is_space b then (false, 0) else (true, if inword then 0 else 1).
Fixpoint word_starts (inword : bool) (d : list Z) : Z :=
  match d with
  | [] => 0
  | b :: d' => (count_step inword b).2 + word_starts (count_step inword b).1 d'
  end.

Lemma fields_cons d : ∃ f fs, fields d = f :: fs.
Proof. destruct d as [|b d]; simpl; [eauto|]. destruct (is_space b); [eauto|]. destruct (fields d); eauto. Qed.
Lemma word_starts_words d :
  word_starts false d = Z.of_nat (length (words d)) ∧
  word_starts true d = Z.of_nat (length (List.filter nonempty (tail (fields d)))).
Proof.
  unfold words. induction d as [|b d [IHf IHt]]; [done|]. cbn [word_starts fields]. unfold count_step.
  destruct (is_space b); cbn [fst snd].
  - simpl. lia.
  - destruct (fields_cons d) as (f & fs & Ef). rewrite Ef in *. cbn [tail List.filter nonempty length] in *. lia.
Qed.

Lemma wc_byte_spec d : ∀ l w c inw,
  0 ≤ l ≤ c → 0 ≤ w ≤ c → c + Z.of_nat (length d) < 2 ^ 31 →
  ∃ inw', foldl wc_byte (mkcounts l w c inw) d =
    mkcounts (l + Z.of_nat (length (List.filter (λ b, bool_decide (b = 10)) d))) (w + word_starts inw d)
      (c + Z.of_nat (length d)) inw'.
Proof.
  induction d as [|b d IH]; intros l w c inw Hl Hw Hc; cbn [foldl word_starts List.filter length].
  { exists inw. f_equal; lia. }
  cbn [length] in Hc. unfold wc_byte at 2. cbn [wc_l wc_w wc_c wc_inword].
  rewrite (s32_small (c + 1)), (s32_small (l + 1)), (s32_small (w + 1)) by lia. unfold count_step.
  pose proof (strchr_space b) as Hs.
  set (l' := if decide (b = 10) then l + 1 else l). assert (0 ≤ l' ≤ c + 1) as Hl' by (unfold l'; destruct (decide (b = 10)); lia).
  assert (∀ x, l' + Z.of_nat (length x) = l + Z.of_nat (length (if bool_decide (b = 10) then b :: x else x))) as El.
  { intros x. unfold l'. destruct (decide (b = 10)); [rewrite bool_decide_eq_true_2 by done|rewrite bool_decide_eq_false_2 by done]; simpl; lia. }
  destruct (is_space b) eqn:Eb; cbn [fst snd].
  - destruct (proj2 Hs eq_refl) as [k Hk]. rewrite Hk. destruct (IH l' w (c + 1) false) as [inw' ->]; [lia..|].
    exists inw'. rewrite El. f_equal; lia.
  - assert (∀ k, strchr spaces b ≠ Some (Some k)) as Hk by (intros k Hk; assert (false = true) by (apply Hs; eauto); done).
    destruct (strchr spaces b) as [[k|]|]; [by destruct (Hk k)| |]; destruct inw.
    1, 3: destruct (IH l' w (c + 1) true) as [inw' ->]; [lia..|]; exists inw'; rewrite El; f_equal; lia.
    all: destruct (IH l' (w + 1) (c + 1) true) as [inw' ->]; [lia..|]; exists inw'; rewrite El; f_equal; lia.
Qed.

(** The chunks of the input do not matter. *)
Lemma wc_loop_spec fuel : ∀ ins st,
  Forall (λ x, x ≠ []) ins → (length (concat ins) < fuel)%nat → wc_loop fuel ins st = Some (foldl wc_byte st (concat ins)).
Proof.
  induction fuel as [|fuel IH]; intros ins st Hne Hf; [lia|]. cbn [wc_loop]. destruct ins as [|x ins]; [done|].
  apply list.Forall_cons in Hne as [Hx Hne]. cbn [concat] in *. rewrite length_app in Hf.
  assert (length x ≠ 0)%nat as Hlx by (by destruct x).
  rewrite decide_False by (rewrite length_take; lia). destruct (decide (length x ≤ 512)%nat) as [Hle|Hgt].
  - rewrite IH; [|done|lia]. rewrite take_ge by lia. by rewrite foldl_app.
  - rewrite IH; cbn [concat].
    + rewrite <- foldl_app, app_assoc, take_drop. done.
    + constructor; [|done]. intros E. apply (f_equal length) in E. rewrite length_drop in E. simpl in E. lia.
    + rewrite length_app, length_drop. lia.
Qed.

(** wc counts right, however the input is cut up: whatever pieces read
    delivers, the loop ends with the number of newlines, of maximal stretches
    without spaces, and of bytes, as long as an int holds them. *)
Theorem wc_counts ins data :
  Forall (λ x, x ≠ []) ins → concat ins = data → Z.of_nat (length data) < 2 ^ 31 →
  ∃ inw, wc ins = Some (mkcounts (Z.of_nat (length (List.filter (λ b, bool_decide (b = 10)) data)))
    (Z.of_nat (length (words data))) (Z.of_nat (length data)) inw).
Proof.
  intros Hne <- Hlen. unfold wc. rewrite wc_loop_spec by (done || lia).
  destruct (wc_byte_spec (concat ins) 0 0 0 false) as [inw ->]; [lia..|]. exists inw.
  rewrite (proj1 (word_starts_words (concat ins))). do 2 f_equal; lia.
Qed.

Lemma wc_counts_witness : ∃ inw, wc [[104; 105; 32]; [32; 121]; [111; 10]] = Some (mkcounts 1 2 7 inw).
Proof.
  refine (wc_counts [[104; 105; 32]; [32; 121]; [111; 10]] [104; 105; 32; 32; 121; 111; 10] _ eq_refl _).
  - repeat constructor; done.
  - vm_compute. reflexivity.
Defined.
