(* ===== verification/Umalloc.v ===== *)
(** * The allocator of user programs (umalloc.c)

    Memory is a map from the addresses of 8-byte units, each a pair of words: a
    header is a unit, its first word the pointer and its second the size.  An
    access outside the program's memory faults.  [sbrk] is the system call:
    sys_sbrk with growproc, whose success on growth depends on the free memory
    of the machine, given here by a list of answers. *)

From S2P Require Import Prelude.
Local Open Scope Z_scope.

(** sizeof(Header) *)
Definition HDR : Z := 8.

Record heap := mkheap {
  h_mem : gmap Z (Z * Z);
  h_freep : Z;
  h_brk : Z  (* proc->sz *);
  h_grants : list bool  (* whether the next growths find memory *)
}.
Definition set_h_mem x (s : heap) : heap := mkheap x (h_freep s) (h_brk s) (h_grants s).
Definition set_h_freep x (s : heap) : heap := mkheap (h_mem s) x (h_brk s) (h_grants s).

(** [p->s], [p->s.ptr = v], [p->s.size = v] *)
Definition ld (p : Z) : M heap (Z * Z) := let! s := getS in of_opt (h_mem s !! p).
Definition st (p : Z) (x : Z * Z) : M heap unit := modS (λ s, set_h_mem (<[p := x]> (h_mem s)) s).
Definition set_ptr (p v : Z) : M heap unit := let! x := ld p in st p (v, x.2).
Definition set_size (p v : Z) : M heap unit := let! x := ld p in st p (x.1, v).
(** [p + n] for a [Header *p] *)
Definition plus (p n : Z) : Z := u32 (p + HDR * n).

(** The addresses of [n] units from [a] on. *)
Definition region (a n : Z) : list Z := (λ i, a + HDR * i) <$> seqZ 0 n.

Definition sbrk (n : Z) : M heap Z :=
  let! s := getS in
  let old := h_brk s in
  if decide (0 < n) then
    match h_grants s with
    | true :: g =>
        if decide (old + n < 2 ^ 31) then
          modS (λ s, mkheap (list_to_map ((λ a, (a, (0, 0))) <$> region old (n / HDR)) ∪ h_mem s) (h_freep s) (old + n) g) ;;;
          ret old
        else modS (λ s, mkheap (h_mem s) (h_freep s) old g) ;;; ret (u32 (-1))
    | _ :: g => modS (λ s, mkheap (h_mem s) (h_freep s) old g) ;;; ret (u32 (-1))
    | [] => ret (u32 (-1))
    end
  else if decide (n < 0) then
    let new := u32 (old + n) in
    if decide (old ≤ new) then ret old
    else if decide (new = 0) then ret (u32 (-1))
    else modS (λ s, mkheap (filter (λ x, x.1 < new) (h_mem s)) (h_freep s) new (h_grants s)) ;;; ret old
  else ret old.

Section alloc.
Context (base : Z).

(** The loop of free: the free block [bp] belongs behind. *)
Fixpoint free_place (fuel : nat) (bp p : Z) : M heap Z :=
  match fuel with
  | O => diverge
  | S fuel' =>
      let! x := ld p in
      if decide (p < bp ∧ bp < x.1) then ret p
      else if decide (x.1 ≤ p ∧ (p < bp ∨ bp < x.1)) then ret p
      else free_place fuel' bp x.1
  end.

Definition free (ap : Z) : M heap unit :=
  let bp := plus ap (-1) in
  let! s := getS in
  let! p := free_place (S (S (size (h_mem s)))) bp (h_freep s) in
  let! xp := ld p in
  let! xb := ld bp in
  (if decide (plus bp xb.2 = xp.1) then
     let! xn := ld xp.1 in
     set_size bp (u32 (xb.2 + xn.2)) ;;; set_ptr bp xn.1
   else set_ptr bp xp.1) ;;;
  let! xp := ld p in
  (if decide (plus p xp.2 = bp) then
     let! xb := ld bp in
     set_size p (u32 (xp.2 + xb.2)) ;;; set_ptr p xb.1
   else set_ptr p bp) ;;;
  modS (set_h_freep p).

Definition morecore (nu : Z) : M heap Z :=
  let nu := if decide (nu < 4096) then 4096 else nu in
  let! p := sbrk (s32 (u32 (nu * HDR))) in
  if decide (p = u32 (-1)) then ret 0
  else
    set_size p nu ;;;
    free (plus p 1) ;;;
    gets h_freep.

(** The loop of malloc. *)
Fixpoint malloc_loop (fuel : nat) (nunits prevp p : Z) : M heap Z :=
  match fuel with
  | O => diverge
  | S fuel' =>
      let! x := ld p in
      if decide (nunits ≤ x.2) then
        let! r :=
          (if decide (x.2 = nunits) then set_ptr prevp x.1 ;;; ret p
           else
             set_size p (u32 (x.2 - nunits)) ;;;
             let p := plus p (u32 (x.2 - nunits)) in
             set_size p nunits ;;; ret p) in
        modS (set_h_freep prevp) ;;;
        ret (plus r 1)
      else
        let! freep := gets h_freep in
        if decide (p = freep) then
          let! p := morecore nunits in
          if decide (p = 0) then ret 0
          else let! x := ld p in malloc_loop fuel' nunits p x.1
        else malloc_loop fuel' nunits p x.1
  end.
Definition units_for (nbytes : Z) : Z := u32 (nbytes + HDR - 1) / HDR + 1.
Definition malloc (nbytes : Z) : M heap Z :=
  let nunits := units_for nbytes in
  let! s := getS in
  (if decide (h_freep s = 0) then
     set_ptr base base ;;; modS (set_h_freep base) ;;; set_size base 0
   else skip) ;;;
  let! prevp := gets h_freep in
  let! x := ld prevp in
  malloc_loop (4 * size (h_mem s) + 9) nunits prevp x.1.
End alloc.
