(* ===== verification/UmallocHeap.v ===== *)
(** * umalloc.c: the heap as a list of blocks

    [hok s fr al]: the ring that starts at [base] links the free blocks [fr] in
    the order of their addresses, no two of them adjacent; [al] are the blocks
    in use, with their sizes in their headers; together they are all the memory
    between [lo] and the break. *)

From S2P Require Import Prelude Umalloc.
Local Open Scope Z_scope.

Implicit Types (b : Z * Z) (ns fr al : list (Z * Z)) (mem : gmap Z (Z * Z)).

Definition units (l : list (Z * Z)) : list Z := concat ((λ b, region b.1 b.2) <$> l).
(** The address of the first of the nodes [ns], [z] when there is none. *)
Definition hnext ns (z : Z) : Z := match ns with [] => z | n :: _ => n.1 end.
(** The nodes [ns] are linked, the last one to [z]. *)
Fixpoint seg mem ns (z : Z) : Prop :=
  match ns with
  | [] => True
  | n :: ns' => mem !! n.1 = Some (hnext ns' z, n.2) ∧ seg mem ns' z
  end.
(** There is room between a node and the next. *)
Fixpoint gaps ns : Prop :=
  match ns with
  | n :: ns' => match ns' with m :: _ => n.1 + HDR * n.2 < m.1 | [] => True end ∧ gaps ns'
  | [] => True
  end.

(** ** Regions *)
Lemma elem_of_region a n u : u ∈ region a n ↔ ∃ i, u = a + HDR * i ∧ 0 ≤ i < n.
Proof. unfold region. rewrite list_elem_of_fmap. setoid_rewrite elem_of_seqZ. naive_solver lia. Qed.
Lemma region_split a n m : 0 ≤ n → 0 ≤ m → region a (n + m) = region a n ++ region (a + HDR * n) m.
Proof.
  intros Hn Hm. unfold region. rewrite seqZ_app by done. rewrite fmap_app. f_equal.
  rewrite Z.add_0_l. replace n with (n + 0) at 1 by lia. rewrite <- fmap_add_seqZ, <- list_fmap_compose.
  apply list_fmap_ext. intros _ i _. simpl. lia.
Qed.
Lemma NoDup_region a n : NoDup (region a n).
Proof. unfold region, HDR. apply NoDup_fmap_2; [intros i j; lia|apply NoDup_seqZ]. Qed.

Lemma units_app l l' : units (l ++ l') = units l ++ units l'.
Proof. unfold units. by rewrite fmap_app, concat_app. Qed.
Lemma units_cons b l : units (b :: l) = region b.1 b.2 ++ units l.
Proof. done. Qed.
Lemma units_one b : units [b] = region b.1 b.2.
Proof. apply app_nil_r. Qed.
Lemma elem_of_units u l : u ∈ units l ↔ ∃ b, b ∈ l ∧ u ∈ region b.1 b.2.
Proof.
  induction l as [|b l IH]; [split; [intros Hu; by apply elem_of_nil in Hu|intros (b & Hb & _); by apply elem_of_nil in Hb]|].
  rewrite units_cons, elem_of_app, IH. setoid_rewrite elem_of_cons. naive_solver.
Qed.
#[export] Instance units_perm : Proper ((≡ₚ) ==> (≡ₚ)) units.
Proof. intros l l' Hl. unfold units. by rewrite Hl. Qed.
(** Two adjacent blocks make one. *)
Lemma units_join a x y l : 0 ≤ x → 0 ≤ y → units ((a, x) :: (a + HDR * x, y) :: l) = units ((a, x + y) :: l).
Proof. intros Hx Hy. rewrite !units_cons. cbn [fst snd]. by rewrite region_split, <- app_assoc by done. Qed.

(** ** Segments *)
Lemma seg_app mem ns ns' z : seg mem (ns ++ ns') z ↔ seg mem ns (hnext ns' z) ∧ seg mem ns' z.
Proof.
  induction ns as [|n ns IH]; simpl; [tauto|]. rewrite IH.
  replace (hnext (ns ++ ns') z) with (hnext ns (hnext ns' z)) by (by destruct ns). tauto.
Qed.
Lemma seg_frame mem mem' ns z : (∀ a, a ∈ ns.*1 → mem' !! a = mem !! a) → seg mem ns z → seg mem' ns z.
Proof.
  induction ns as [|n ns IH]; intros Hm; simpl; [done|]. intros [Hn Hs]. split.
  - rewrite Hm by (simpl; set_solver). done.
  - apply IH; [|done]. intros a Ha. apply Hm. simpl. set_solver.
Qed.
Lemma seg_lookup mem ns z n : seg mem ns z → n ∈ ns → ∃ p, mem !! n.1 = Some (p, n.2).
Proof.
  induction ns as [|m ns IH]; intros Hs Hn; [by apply elem_of_nil in Hn|].
  destruct Hs as [Hm Hs]. apply elem_of_cons in Hn as [->|Hn]; [eauto|by apply IH].
Qed.

Lemma gaps_app_inv ns n ns' : gaps (ns ++ n :: ns') → gaps (ns ++ [n]) ∧ gaps (n :: ns').
Proof.
  induction ns as [|m ns IH]; simpl; [tauto|]. intros [Hm Hg]. destruct (IH Hg) as [H1 H2]. split; [|done].
  split; [|done]. by destruct ns.
Qed.
Lemma gaps_app ns n ns' : gaps (ns ++ [n]) → gaps (n :: ns') → gaps (ns ++ n :: ns').
Proof.
  induction ns as [|m ns IH]; simpl; [tauto|]. intros [Hm Hg] H2. split; [|by apply IH]. by destruct ns.
Qed.
Lemma gaps_lt n ns : Forall (λ m, 0 ≤ m.2) (n :: ns) → gaps (n :: ns) → Forall (λ m, n.1 < m.1) ns.
Proof.
  revert n. induction ns as [|m ns IH]; intros n Hp Hg; [constructor|].
  apply list.Forall_cons in Hp as [Hn Hp]. destruct Hg as [Hg1 Hg]. assert (n.1 < m.1) as Hnm by (unfold HDR in *; lia).
  constructor; [done|]. eapply list.Forall_impl; [by apply (IH m)|]. simpl. lia.
Qed.
Lemma gaps_before ns n : Forall (λ m, 0 ≤ m.2) ns → gaps (ns ++ [n]) → Forall (λ m, m.1 < n.1) ns.
Proof.
  induction ns as [|m ns IH]; intros Hp Hg; [constructor|]. apply list.Forall_cons in Hp as [Hm Hp].
  pose proof Hg as [_ Hg']. constructor; [|by apply IH].
  destruct ns as [|m' ns]; [destruct Hg as [Hg _]; simpl in Hg; unfold HDR in *; lia|].
  destruct Hg as [Hg1 _]. simpl in Hg1. assert (m'.1 < n.1) as Hm' by (apply IH in Hg'; [|done]; by apply list.Forall_cons in Hg' as [? _]).
  unfold HDR in *. lia.
Qed.

(** Where an address falls in the ring. *)
Lemma place_split bp ns : Forall (λ m, 0 ≤ m.2) ns → gaps ns → bp ∉ ns.*1 → ns ≠ [] → hnext ns 0 < bp →
  ∃ A n B, ns = A ++ n :: B ∧ n.1 < bp ∧ (B = [] ∨ bp < hnext B 0).
Proof.
  induction ns as [|n ns IH]; intros Hp Hg Hbp Hne Hlt; [done|]. simpl in Hlt. destruct ns as [|m ns].
  - exists [], n, []. split_and!; [done|done|by left].
  - destruct (decide (m.1 < bp)) as [Hm|Hm].
    + apply list.Forall_cons in Hp as [_ Hp]. destruct Hg as [_ Hg].
      destruct (IH Hp Hg) as (A & n' & B & -> & Hn' & HB); [set_solver|done|done|]. exists (n :: A), n', B. done.
    + exists [], n, (m :: ns). split_and!; [done|done|]. right. simpl.
      assert (m.1 ≠ bp) by (simpl in Hbp; set_solver). lia.
Qed.

(** ** Accesses *)
Lemma wp_ld E s p x Q : h_mem s !! p = Some x → Q x s → wp E (ld p) Q s.
Proof. intros Hx HQ. apply wp_bind, wp_getS. by apply (wp_of_opt _ _ x). Qed.
Lemma wp_set_ptr E s p v x Q :
  h_mem s !! p = Some x → Q tt (set_h_mem (<[p := (v, x.2)]> (h_mem s)) s) → wp E (set_ptr p v) Q s.
Proof. intros Hx HQ. apply wp_bind, (wp_ld _ _ _ x); [done|]. by apply wp_modS. Qed.
Lemma wp_set_size E s p v x Q :
  h_mem s !! p = Some x → Q tt (set_h_mem (<[p := (x.1, v)]> (h_mem s)) s) → wp E (set_size p v) Q s.
Proof. intros Hx HQ. apply wp_bind, (wp_ld _ _ _ x); [done|]. by apply wp_modS. Qed.
Lemma plus_small p n : 0 ≤ p + HDR * n < 2 ^ 32 → plus p n = p + HDR * n.
Proof. apply u32_small. Qed.
Lemma hnext_mem mem ns z : ns ≠ [] → seg mem ns z → is_Some (mem !! hnext ns z).
Proof. destruct ns as [|n ns]; [done|]. intros _ [Hn _]. simpl. eauto. Qed.

Section heap.
Context (base lo : Z).
Hypothesis base_pos : 0 < base.
Hypothesis base_lo : base < lo.

Record hok (s : heap) fr al : Prop := mkhok {
  ho_seg : seg (h_mem s) ((base, 0) :: fr) base;
  ho_freep : h_freep s ∈ ((base, 0) :: fr).*1;
  ho_gaps : gaps ((base, 0) :: fr);
  ho_sizes : Forall (λ b, 0 < b.2) (fr ++ al);
  ho_al : Forall (λ b, ∃ p, h_mem s !! b.1 = Some (p, b.2)) al;
  ho_brk : ∃ n, 0 ≤ n ∧ h_brk s = lo + HDR * n ∧ units (fr ++ al) ≡ₚ region lo n;
  ho_mapped : ∀ u, u ∈ units (fr ++ al) → is_Some (h_mem s !! u);
  ho_range : h_brk s < 2 ^ 31
}.

(** ** What the invariant says of a block *)
Lemma hok_block s fr al b : hok s fr al → b ∈ fr ++ al →
  0 < b.2 ∧ lo ≤ b.1 ∧ b.1 + HDR * b.2 ≤ h_brk s ∧ ∃ i, b.1 = lo + HDR * i.
Proof.
  intros Hk Hb. assert (0 < b.2) as Hp by (pose proof (ho_sizes _ _ _ Hk) as Hs; rewrite list.Forall_forall in Hs; by apply Hs).
  destruct (ho_brk _ _ _ Hk) as (k & Hk0 & Ebrk & Hu).
  assert (∀ i, 0 ≤ i < b.2 → ∃ j, b.1 + HDR * i = lo + HDR * j ∧ 0 ≤ j < k) as Hin.
  { intros i Hi. apply elem_of_region. rewrite <- Hu. apply elem_of_units. exists b. split; [done|].
    apply elem_of_region. eauto. }
  destruct (Hin 0) as (j & Ej & Hj); [lia|]. destruct (Hin (b.2 - 1)) as (j' & Ej' & Hj'); [lia|]. unfold HDR in *.
  split_and!; [done|lia|lia|]. exists j. lia.
Qed.
Lemma hok_nodup s fr al : hok s fr al → NoDup (units (fr ++ al)).
Proof. intros Hk. destruct (ho_brk _ _ _ Hk) as (k & _ & _ & ->). apply NoDup_region. Qed.
Lemma hok_node s fr al n : hok s fr al → n ∈ (base, 0) :: fr → 0 ≤ n.2 ∧ base ≤ n.1 ∧ n.1 + HDR * n.2 < 2 ^ 31.
Proof.
  intros Hk Hn. pose proof (ho_range _ _ _ Hk) as Hr. destruct (ho_brk _ _ _ Hk) as (k & Hk0 & Ebrk & _).
  apply elem_of_cons in Hn as [->|Hn]; [simpl; unfold HDR in *; lia|].
  destruct (hok_block s fr al n Hk) as (? & ? & ? & _); [set_solver|]. lia.
Qed.
Lemma hok_nodes s fr al : hok s fr al → Forall (λ n, 0 ≤ n.2) ((base, 0) :: fr).
Proof. intros Hk. apply list.Forall_forall. intros n Hn. by apply (hok_node s fr al n Hk). Qed.

(** Blocks are apart. *)
Lemma block_apart s fr al b b' l : hok s fr al → fr ++ al ≡ₚ b :: b' :: l → b.1 < b'.1 → b.1 + HDR * b.2 ≤ b'.1.
Proof.
  intros Hk Hp Hlt. destruct (hok_block s fr al b Hk) as (Hb & _ & _ & i & Ei); [rewrite Hp; set_solver|].
  destruct (hok_block s fr al b' Hk) as (Hb' & _ & _ & j & Ej); [rewrite Hp; set_solver|].
  destruct (decide (b.1 + HDR * b.2 ≤ b'.1)) as [|Hn]; [done|]. exfalso.
  pose proof (hok_nodup _ _ _ Hk) as Hnd. rewrite Hp, !units_cons in Hnd.
  apply list.NoDup_app in Hnd as (_ & Hd & _). apply (Hd b'.1).
  - apply elem_of_region. exists (j - i). unfold HDR in *. lia.
  - apply elem_of_app. left. apply elem_of_region. exists 0. lia.
Qed.

(** The nodes of the ring are in memory, so there are not more of them. *)
Lemma ring_length s fr al : hok s fr al → (S (length fr) ≤ size (h_mem s))%nat.
Proof.
  intros Hk. set (ns := (base, 0) :: fr). change (S (length fr)) with (length ns).
  assert (NoDup ns.*1) as Hnd.
  { pose proof (hok_nodes _ _ _ Hk) as Hp. pose proof (ho_gaps _ _ _ Hk) as Hg. fold ns in Hp, Hg. clear Hk. revert Hp Hg.
    generalize ns. clear. intros ns. induction ns as [|n ns IH]; intros Hp Hg; [constructor|]. simpl. constructor.
    - intros Hin. apply list_elem_of_fmap in Hin as (m & Em & Hm). pose proof (gaps_lt n ns Hp Hg) as Hlt.
      rewrite list.Forall_forall in Hlt. specialize (Hlt m Hm). lia.
    - apply list.Forall_cons in Hp as [_ Hp]. destruct Hg as [_ Hg]. by apply IH. }
  rewrite <- (length_fmap fst ns). rewrite <- (size_list_to_set (C := gset Z) (ns.*1)) by done.
  rewrite <- size_dom. apply subseteq_size. intros a Ha. apply elem_of_list_to_set, list_elem_of_fmap in Ha as (n & -> & Hn).
  apply elem_of_dom. destruct (seg_lookup _ _ _ n (ho_seg _ _ _ Hk) Hn) as [p Hp]. eauto.
Qed.
End heap.

(** ** umalloc.c: free *)

Section free.
Context (base lo : Z).
Hypothesis base_pos : 0 < base.
Hypothesis base_lo : base < lo.
Notation hok := (hok base lo).
Implicit Types (s : heap).

(** The search goes on from [p] to [q]. *)
Definition skips (bp p q : Z) : Prop := ¬ (p < bp ∧ bp < q) ∧ ¬ (q ≤ p ∧ (p < bp ∨ bp < q)).

Lemma wp_ring_walk E s bp R z Q : ∀ W fuel,
  seg (h_mem s) (W ++ R) z →
  (∀ W1 w W2, W = W1 ++ w :: W2 → skips bp w.1 (hnext (W2 ++ R) z)) →
  (∀ fuel', fuel = (length W + fuel')%nat → wp E (free_place fuel' bp (hnext R z)) Q s) →
  (length W ≤ fuel)%nat → wp E (free_place fuel bp (hnext (W ++ R) z)) Q s.
Proof.
  induction W as [|w W IH]; intros fuel Hs Hskip HQ Hf; [by apply HQ|].
  destruct fuel as [|fuel]; [simpl in Hf; lia|]. cbn [app hnext free_place]. destruct Hs as [Hw Hs].
  apply wp_bind, (wp_ld _ _ _ _ _ Hw). cbn [fst]. destruct (Hskip [] w W eq_refl) as [H1 H2].
  rewrite !decide_False by done. apply IH; [done| | |simpl in Hf; lia].
  - intros W1 w' W2 ->. by apply (Hskip (w :: W1)).
  - intros fuel' ->. by apply HQ.
Qed.

Lemma wp_free_place E s A n B bp p fuel Q :
  let ns := A ++ n :: B in
  seg (h_mem s) ns base → gaps ns → Forall (λ m, 0 ≤ m.2) ns → hnext ns 0 = base →
  n.1 < bp → (B = [] ∨ bp < hnext B 0) → base < bp → p ∈ ns.*1 → (length ns < fuel)%nat →
  Q n.1 s → wp E (free_place fuel bp p) Q s.
Proof.
  intros ns Hs Hg Hp Hbase Hn HB Hbp Hin Hf HQ.
  assert (Forall (λ m, m.1 < n.1) A) as HA.
  { apply list.Forall_app in Hp as [Hp _]. apply gaps_before; [done|]. by apply gaps_app_inv in Hg as [Hg _]. }
  assert (Forall (λ m, bp < m.1) B) as HBs.
  { destruct B as [|m B]; [constructor|]. destruct HB as [|HB]; [done|]. simpl in HB. constructor; [done|].
    apply list.Forall_app in Hp as [_ Hp]. apply list.Forall_cons in Hp as [_ Hp].
    apply gaps_app_inv in Hg as [_ [_ Hg]]. eapply list.Forall_impl; [by apply gaps_lt|]. simpl. lia. }
  rewrite list.Forall_forall in HA, HBs.
  assert (∀ fuel', (0 < fuel')%nat → wp E (free_place fuel' bp n.1) Q s) as Hstop.
  { intros [|fuel'] Hf'; [lia|]. cbn [free_place]. apply seg_app in Hs as [_ [Hnm _]].
    apply wp_bind, (wp_ld _ _ _ _ _ Hnm). cbn [fst]. destruct B as [|m B]; cbn [hnext].
    - rewrite decide_False by lia. assert (base ≤ n.1).
      { destruct A as [|a A]; [unfold ns in Hbase; simpl in Hbase; lia|]. unfold ns in Hbase. simpl in Hbase.
        specialize (HA a ltac:(set_solver)). lia. }
      rewrite decide_True by lia. by apply wp_ret.
    - destruct HB as [|HB]; [done|]. simpl in HB. rewrite decide_True by lia. by apply wp_ret. }
  assert (∀ W X fuel', A = X ++ W → (length W < fuel')%nat → wp E (free_place fuel' bp (hnext (W ++ n :: B) base)) Q s) as Hup.
  { intros W X fuel' EA Hf'. apply wp_ring_walk; [| | |lia].
    - unfold ns in Hs. rewrite EA, <- app_assoc in Hs. by apply seg_app in Hs as [_ Hs].
    - intros W1 w W2 EW. assert (w.1 < n.1) by (apply HA; rewrite EA, EW; set_solver).
      assert (hnext (W2 ++ n :: B) base ≤ n.1) as Hnx.
      { destruct W2 as [|w2 W2]; simpl; [lia|]. specialize (HA w2). rewrite EA, EW in HA. specialize (HA ltac:(set_solver)). lia. }
      assert (w.1 < hnext (W2 ++ n :: B) base) as Hwx.
      { unfold ns in Hg, Hp. rewrite EA, EW in Hg, Hp. replace ((X ++ W1 ++ w :: W2) ++ n :: B) with ((X ++ W1) ++ w :: W2 ++ n :: B) in Hg, Hp by (by rewrite <- !app_assoc).
        apply gaps_app_inv in Hg as [_ [Hg _]]. apply list.Forall_app in Hp as [_ Hp]. apply list.Forall_cons in Hp as [Hp _].
        destruct (W2 ++ n :: B) as [|y Y] eqn:EY; [by destruct W2|]. simpl. unfold HDR in Hg. lia. }
      unfold skips. lia.
    - intros f' ->. apply Hstop. lia. }
  apply list_elem_of_fmap in Hin as (y & -> & Hy). unfold ns in Hy. apply elem_of_app in Hy as [Hy|Hy].
  - apply list_elem_of_split in Hy as (X & W & EA). change y.1 with (hnext ((y :: W) ++ n :: B) base).
    apply (Hup (y :: W) X); [done|]. unfold ns in Hf. rewrite EA, !length_app in Hf. simpl in *. lia.
  - apply elem_of_cons in Hy as [->|Hy]; [apply Hstop; lia|].
    apply list_elem_of_split in Hy as (X & W & EB). change y.1 with (hnext (y :: W ++ []) base). change (y :: W ++ []) with ((y :: W) ++ []).
    unfold ns in Hf. rewrite EB, !length_app in Hf. simpl in Hf. rewrite length_app in Hf. simpl in Hf.
    apply wp_ring_walk; [| | |simpl; lia].
    + unfold ns in Hs. apply seg_app in Hs as [_ [_ Hs]]. rewrite EB in Hs. apply seg_app in Hs as [_ Hs]. by rewrite app_nil_r.
    + intros W1 w W2 EW. rewrite app_nil_r. assert (bp < w.1) by (apply HBs; rewrite EB, EW; set_solver).
      unfold skips. destruct W2 as [|w2 W2]; simpl; [lia|].
      unfold ns in Hg, Hp. rewrite EB, EW in Hg, Hp.
      replace (A ++ n :: X ++ W1 ++ w :: w2 :: W2) with ((A ++ n :: X ++ W1) ++ w :: w2 :: W2) in Hg, Hp by (by rewrite <- !app_assoc; simpl; rewrite <- !app_assoc).
      apply gaps_app_inv in Hg as [_ [Hg _]]. apply list.Forall_app in Hp as [_ Hp]. apply list.Forall_cons in Hp as [Hp _].
      unfold HDR in Hg. lia.
    + intros f' Ef. cbn [hnext]. rewrite <- Hbase. replace (hnext ns 0) with (hnext (A ++ n :: B) base) by (unfold ns; by destruct A).
      apply (Hup A []); [done|]. simpl in Ef. lia.
Qed.

(** The nodes of the ring are not in blocks in use. *)
Lemma node_not_used s fr al a : hok s fr al → a ∈ ((base, 0) :: fr).*1 → a ∉ units al.
Proof.
  intros Hk Ha Hu. simpl in Ha. apply elem_of_cons in Ha as [->|Ha].
  - apply elem_of_units in Hu as (b & Hb & Hr). destruct (hok_block _ _ _ _ _ b Hk) as (_ & ? & _ & _); [set_solver|].
    apply elem_of_region in Hr as (i & ? & ?). unfold HDR in *. lia.
  - apply list_elem_of_fmap in Ha as (m & -> & Hm). pose proof (hok_nodup _ _ _ _ _ Hk) as Hnd. rewrite units_app in Hnd.
    apply list.NoDup_app in Hnd as (_ & Hd & _). apply (Hd m.1); [|done]. apply elem_of_units. exists m. split; [done|].
    destruct (hok_block _ _ _ _ _ m Hk) as (? & _); [set_solver|]. apply elem_of_region. exists 0. lia.
Qed.
Lemma header_unit b : 0 < b.2 → b.1 ∈ region b.1 b.2.
Proof. intros Hb. apply elem_of_region. exists 0. lia. Qed.

(** The state of a ring in which the node [n] comes before the freed block. *)
Record around s fr al A n B bp sz : Prop := mkaround {
  ar_ok : hok s fr ((bp, sz) :: al);
  ar_ring : (base, 0) :: fr = A ++ n :: B;
  ar_lt : n.1 < bp;
  ar_gt : B = [] ∨ bp < hnext B 0
}.

Lemma around_ex s fr al bp sz : hok s fr ((bp, sz) :: al) → ∃ A n B, around s fr al A n B bp sz.
Proof.
  intros Hk. destruct (place_split bp ((base, 0) :: fr)) as (A & n & B & E & Hn & HB).
  - by eapply hok_nodes.
  - apply Hk.
  - intros Hin. eapply node_not_used in Hin; [|done]. apply Hin. rewrite units_cons. apply elem_of_app. left.
    apply (header_unit (bp, sz)). destruct (hok_block _ _ _ _ _ (bp, sz) Hk) as (? & _); [set_solver|]. done.
  - done.
  - destruct (hok_block _ _ _ _ _ (bp, sz) Hk) as (_ & ? & _); [set_solver|]. simpl in *. lia.
  - by exists A, n, B.
Qed.

Section around.
Context s fr al A n B bp sz (Har : around s fr al A n B bp sz).

Lemma ar_block : 0 < sz ∧ lo ≤ bp ∧ bp + HDR * sz < 2 ^ 31.
Proof.
  pose proof (ar_ok _ _ _ _ _ _ _ _ Har) as Hk. destruct (hok_block _ _ _ _ _ (bp, sz) Hk) as (? & ? & ? & _); [set_solver|].
  pose proof (ho_range _ _ _ _ _ Hk). simpl in *. lia.
Qed.
Lemma ar_nodes : Forall (λ m, m.1 < n.1) A ∧ Forall (λ m, bp < m.1) B ∧ gaps (A ++ [n]) ∧ gaps (n :: B) ∧ gaps B ∧
  Forall (λ m, 0 ≤ m.2) (A ++ n :: B).
Proof.
  pose proof (ar_ok _ _ _ _ _ _ _ _ Har) as Hk. pose proof (hok_nodes base lo base_pos base_lo _ _ _ Hk) as Hp.
  pose proof (ho_gaps _ _ _ _ _ Hk) as Hg. rewrite (ar_ring _ _ _ _ _ _ _ _ Har) in *.
  pose proof (gaps_app_inv _ _ _ Hg) as [Hg1 Hg2]. split_and!; [| |done|done|apply Hg2|done].
  - apply list.Forall_app in Hp as [Hp _]. by apply gaps_before.
  - destruct (ar_gt _ _ _ _ _ _ _ _ Har) as [->|HB]; [constructor|]. destruct B as [|m B']; [constructor|]. simpl in HB.
    constructor; [done|]. apply list.Forall_app in Hp as [_ Hp]. apply list.Forall_cons in Hp as [_ Hp].
    eapply list.Forall_impl; [apply gaps_lt; [done|apply Hg2]|]. simpl. lia.
Qed.

Lemma ar_free m : m ∈ B ∨ (m ∈ A ++ [n] ∧ m ≠ (base, 0)) → m ∈ fr.
Proof.
  pose proof (ar_ring _ _ _ _ _ _ _ _ Har) as Er. intros Hm.
  destruct A as [|a A']; cbn [app] in Er; injection Er as <- ->; set_solver.
Qed.

(** The freed block is behind [n] and before the nodes of [B]. *)
Lemma ar_left : n.1 + HDR * n.2 ≤ bp.
Proof.
  pose proof (ar_ok _ _ _ _ _ _ _ _ Har) as Hk. pose proof (ar_lt _ _ _ _ _ _ _ _ Har) as Hlt.
  destruct (decide (n = (base, 0))) as [->|Hn]; [simpl in *; lia|].
  assert (n ∈ fr) as Hin by (apply ar_free; right; set_solver).
  apply list_elem_of_split in Hin as (X & Y & Ef).
  change bp with (bp, sz).1. apply (block_apart base lo base_pos base_lo s fr ((bp, sz) :: al) n (bp, sz) (X ++ Y ++ al)); [done| |done].
  rewrite Ef. solve_Permutation.
Qed.
Lemma ar_right m : m ∈ B → bp + HDR * sz ≤ m.1.
Proof.
  intros Hm. pose proof (ar_ok _ _ _ _ _ _ _ _ Har) as Hk.
  assert (m ∈ fr) as Hin by (apply ar_free; by left). apply list_elem_of_split in Hin as (X & Y & Ef).
  change (bp + HDR * sz) with ((bp, sz).1 + HDR * (bp, sz).2).
  apply (block_apart base lo base_pos base_lo s fr ((bp, sz) :: al) (bp, sz) m (X ++ Y ++ al)); [done| |].
  - rewrite Ef. solve_Permutation.
  - destruct ar_nodes as (_ & HB & _). rewrite list.Forall_forall in HB. by apply HB.
Qed.

(** What is behind the freed block, once it is merged with its successor. *)
Record behind (B' : list (Z * Z)) (sz' : Z) : Prop := mkbehind {
  be_size : sz ≤ sz';
  be_seg : seg (h_mem s) B' base;
  be_gaps : gaps ((bp, sz') :: B');
  be_sub m : m ∈ B' → m ∈ B;
  be_units : units ((bp, sz') :: B') = units ((bp, sz) :: B);
  be_top : bp + HDR * sz' < 2 ^ 31;
  be_len : (length B' ≤ length B)%nat
}.

Lemma ar_seg : seg (h_mem s) A n.1 ∧ h_mem s !! n.1 = Some (hnext B base, n.2) ∧ seg (h_mem s) B base.
Proof.
  pose proof (ho_seg _ _ _ _ _ (ar_ok _ _ _ _ _ _ _ _ Har)) as Hs. rewrite (ar_ring _ _ _ _ _ _ _ _ Har) in Hs.
  apply seg_app in Hs as [HA [Hn HB]]. done.
Qed.
Lemma ar_top m : m ∈ B → m.1 + HDR * m.2 < 2 ^ 31 ∧ 0 < m.2.
Proof.
  intros Hm. pose proof (ar_ok _ _ _ _ _ _ _ _ Har) as Hk.
  destruct (hok_block _ _ _ _ _ m Hk) as (? & _ & ? & _).
  - apply elem_of_app. left. apply ar_free. by left.
  - pose proof (ho_range _ _ _ _ _ Hk). lia.
Qed.

Lemma wp_merge_next E q Q :
  h_mem s !! bp = Some (q, sz) →
  (∀ B' sz', behind B' sz' → Q tt (set_h_mem (<[bp := (hnext B' base, sz')]> (h_mem s)) s)) →
  wp E (if decide (plus bp sz = hnext B base) then
          let! xn := ld (hnext B base) in set_size bp (u32 (sz + xn.2)) ;;; set_ptr bp xn.1
        else set_ptr bp (hnext B base)) Q s.
Proof.
  intros Hbp HQ. pose proof ar_block as (Hsz & Hlo & Htop). destruct ar_nodes as (_ & HB & _ & _ & Hgb & _).
  destruct ar_seg as (_ & _ & Hs). pose proof ar_top as Htp. pose proof ar_right as Hrt. rewrite plus_small by (unfold HDR in *; lia).
  assert (B = [] ∨ ∃ m B2, B = m :: B2) as EB by (destruct B; eauto).
  destruct (decide (bp + HDR * sz = hnext B base)) as [Heq|Hne].
  - destruct EB as [EB|(m & B2 & EB)]; rewrite EB in Heq, Hs, Hgb, Htp |- *; [simpl in Heq; unfold HDR in *; lia|].
    cbn [hnext] in *. destruct Hs as [Hm Hs].
    destruct (Htp m ltac:(set_solver)) as [Hmt Hmp]. assert (bp + HDR * (sz + m.2) = m.1 + HDR * m.2) as Ee by (unfold HDR in *; lia).
    assert (u32 (sz + m.2) = sz + m.2) as Eu by (apply u32_small; unfold HDR in *; lia).
    apply wp_bind, (wp_ld _ _ _ _ _ Hm). cbn [fst snd]. rewrite Eu.
    apply wp_bind, (wp_set_size _ _ _ _ _ _ Hbp). eapply wp_set_ptr; [apply lookup_insert_eq|].
    cbn [h_mem set_h_mem fst snd]. rewrite insert_insert_eq.
    apply (HQ B2 (sz + m.2)). split; [lia|done| |intros m' Hm'; rewrite EB; apply elem_of_cons; by right| |lia|rewrite EB; simpl; lia].
    + split; [|apply Hgb]. destruct B2 as [|m2 B2]; [done|]. destruct Hgb as [Hgb _]. cbn [fst snd]. lia.
    + rewrite <- units_join by lia. rewrite Heq, EB. by destruct m.
  - apply (wp_set_ptr _ _ _ _ _ _ Hbp). apply (HQ B sz). split; [lia|done| |done|done|done|lia].
    split; [|done]. destruct EB as [->|(m & B2 & EB)]; [done|]. rewrite EB in Hne, Hrt |- *. cbn [fst snd].
    pose proof (Hrt m ltac:(set_solver)). simpl in Hne. lia.
Qed.

(** The blocks that [n] and the freed block become: one, or two. *)
Definition joins (B' X : list (Z * Z)) (sz' : Z) (x : Z * Z) : Prop :=
  X = [(n.1, n.2 + sz')] ∧ n.1 + HDR * n.2 = bp ∧ x = (hnext B' base, n.2 + sz') ∨
  X = [n; (bp, sz')] ∧ n.1 + HDR * n.2 < bp ∧ x = (bp, n.2).
Lemma freed_list B' sz' X x : behind B' sz' → joins B' X sz' x →
  ∃ fr', (base, 0) :: fr' = A ++ X ++ B' ∧ ∀ m, m ∈ fr' → m ∈ fr ∨ m = (bp, sz') ∨ m = (n.1, n.2 + sz').
Proof.
  intros [Hsz' Hseg Hgap Hsub Hun Htop Hlen] HX. pose proof (ar_ring _ _ _ _ _ _ _ _ Har) as Er. pose proof ar_block as (Hsz & Hlo & _).
  destruct A as [|a A']; cbn [app] in *.
  - injection Er as En ->. destruct HX as [(-> & Heq & _)|(-> & _ & _)].
    + rewrite <- En in Heq. simpl in Heq. lia.
    + exists ((bp, sz') :: B'). split; [by rewrite <- En|]. intros m Hm.
      apply elem_of_cons in Hm as [->|Hm]; [tauto|]. left. by apply Hsub.
  - injection Er as <- ->. eexists. split; [done|]. intros m Hm.
    apply elem_of_app in Hm as [Hm|Hm]; [left; set_solver|]. apply elem_of_app in Hm as [Hm|Hm]; [|left; apply Hsub in Hm; set_solver].
    destruct HX as [(-> & _)|(-> & _)]; set_solver.
Qed.
Lemma freed_units B' sz' X x fr' : behind B' sz' → joins B' X sz' x → (base, 0) :: fr' = A ++ X ++ B' →
  units fr' ≡ₚ units fr ++ region bp sz.
Proof.
  intros [Hsz' Hseg Hgap Hsub Hun Htop Hlen] HX Er'. pose proof (ar_ring _ _ _ _ _ _ _ _ Har) as Er. pose proof ar_block as (Hsz & Hlo & _).
  destruct ar_nodes as (_ & _ & _ & _ & _ & Hpos). assert (0 ≤ n.2) as Hn0.
  { rewrite list.Forall_forall in Hpos. specialize (Hpos n ltac:(set_solver)). simpl in Hpos. lia. }
  assert (∀ l, units ((base, 0) :: l) = units l) as Hb0 by done. rewrite <- (Hb0 fr'), Er', <- (Hb0 fr), Er, !units_app.
  assert (units X ++ units B' ≡ₚ units (n :: B) ++ region bp sz) as Hx; [|rewrite Hx; solve_Permutation].
  rewrite units_cons in Hun. cbn [fst snd] in Hun. rewrite units_cons in Hun. cbn [fst snd] in Hun.
  destruct HX as [(-> & Heq & _)|(-> & _ & _)].
  + rewrite units_one, (units_cons n B). cbn [fst snd]. rewrite region_split by lia.
    rewrite Heq, <- app_assoc, Hun. solve_Permutation.
  + rewrite (units_cons n [_]), units_one, (units_cons n B). cbn [fst snd]. rewrite <- app_assoc, Hun. solve_Permutation.
Qed.
Lemma freed_frame x y u : u ∈ units al → (<[n.1 := x]> (<[bp := y]> (h_mem s))) !! u = h_mem s !! u.
Proof.
  pose proof (ar_ok _ _ _ _ _ _ _ _ Har) as Hk. pose proof (ar_ring _ _ _ _ _ _ _ _ Har) as Er.
  pose proof ar_block as (Hsz & Hlo & _).
  intros Hu. rewrite !lookup_insert_ne; [done| |].
  - intros <-. pose proof (hok_nodup _ _ _ _ _ Hk) as Hnd. rewrite units_app, units_cons in Hnd.
    apply list.NoDup_app in Hnd as (_ & _ & Hnd). apply list.NoDup_app in Hnd as (_ & Hd & _).
    apply (Hd bp); [apply (header_unit (bp, sz)); done|done].
  - intros <-. eapply node_not_used; [exact Hk| |rewrite units_cons; apply elem_of_app; by right].
    rewrite Er, fmap_app. apply elem_of_app. right. apply list_elem_of_here.
Qed.
Lemma freed_ok B' sz' X x :
  behind B' sz' →
  joins B' X sz' x →
  let s' := set_h_freep n.1 (set_h_mem (<[n.1 := x]> (<[bp := (hnext B' base, sz')]> (h_mem s))) s) in
  ∃ fr', hok s' fr' al ∧ ((∃ b, b ∈ fr' ∧ sz ≤ b.2) ∧ (length fr' ≤ S (length fr))%nat) ∧ ∀ u, u ∈ units al → h_mem s' !! u = h_mem s !! u.
Proof.
  intros Hbeh HX s'. pose proof Hbeh as [Hsz' Hseg Hgap Hsub Hun Htop Hlen]. pose proof (ar_ok _ _ _ _ _ _ _ _ Har) as Hk.
  pose proof (ar_lt _ _ _ _ _ _ _ _ Har) as Hlt. pose proof (ar_ring _ _ _ _ _ _ _ _ Har) as Er.
  pose proof ar_block as (Hsz & Hlo & _). destruct ar_nodes as (HA & HB & HgA & Hgn & _ & Hpos).
  destruct ar_seg as (HsA & Hsn & HsB). rewrite list.Forall_forall in HA, HB.
  assert (sz ≤ n.2 + sz' ∧ 0 ≤ n.2) as [Hn2 Hn0].
  { rewrite list.Forall_forall in Hpos. specialize (Hpos n ltac:(set_solver)). simpl in Hpos. lia. }
  destruct (freed_list _ _ _ _ Hbeh HX) as (fr' & Er' & Hmem). pose proof (freed_units _ _ _ _ _ Hbeh HX Er') as Hunits.
  assert (∀ u, u ∈ units al → h_mem s' !! u = h_mem s !! u) as Hframe by (intros u; apply freed_frame).
  exists fr'. split; [|split; [|done]].
  2: { split; [|apply (f_equal length) in Er, Er'; rewrite !length_app in Er, Er'; simpl in Er, Er';
         destruct HX as [(-> & _)|(-> & _)]; simpl in Er'; lia].
       assert ((n.1, n.2 + sz') ∈ fr' ∨ (bp, sz') ∈ fr') as [Hin|Hin]; [|eexists; split; [exact Hin|simpl; lia]..].
       assert (∀ m, m ≠ (base, 0) → m ∈ A ++ X ++ B' → m ∈ fr') as Hin by (intros m Hm; rewrite <- Er'; set_solver).
       destruct HX as [(EX & _)|(EX & _)]; [left|right]; apply Hin; try (rewrite EX; set_solver); intros [= ? ?]; lia. }
  assert (∀ a, a ∈ A.*1 → a < n.1) as HA1 by (intros a Ha; apply list_elem_of_fmap in Ha as (m & -> & Hm); by apply HA).
  assert (∀ a, a ∈ B'.*1 → bp < a) as HB1 by (intros a Ha; apply list_elem_of_fmap in Ha as (m & -> & Hm); by apply HB, Hsub).
  split.
  - (* the links *)
    rewrite Er'. apply seg_app. split; [|apply seg_app; split].
    + assert (hnext (X ++ B') base = n.1) as -> by (by destruct HX as [(-> & _)|(-> & _)]).
      eapply seg_frame; [|exact HsA]. intros a Ha. unfold s'. simpl. specialize (HA1 a Ha).
      rewrite !lookup_insert_ne by lia. done.
    + unfold s'. cbn [h_mem set_h_freep set_h_mem]. destruct HX as [(-> & _ & ->)|(-> & _ & ->)]; cbn [seg fst snd hnext].
      * rewrite lookup_insert_eq. done.
      * rewrite lookup_insert_eq, lookup_insert_ne, lookup_insert_eq by lia. done.
    + eapply seg_frame; [|exact Hseg]. intros a Ha. unfold s'. simpl. specialize (HB1 a Ha). rewrite !lookup_insert_ne by lia. done.
  - rewrite Er', !fmap_app. apply elem_of_app. right. apply elem_of_app. left.
    destruct HX as [(-> & _)|(-> & _)]; simpl; set_solver.
  - rewrite Er'. destruct HX as [(-> & Heq & _)|(-> & Hgp & _)]; cbn [app].
    + apply gaps_app.
      * clear - HgA. induction A as [|a A' IH]; [done|]. destruct HgA as [H1 H2]. split; [|by apply IH]. by destruct A'.
      * destruct Hgap as [Hg1 Hg2]. split; [|done]. destruct B' as [|m B2]; [done|]. cbn [fst snd] in *. unfold HDR in *. lia.
    + apply gaps_app; [done|]. split; [|done]. done.
  - (* sizes *)
    pose proof (ho_sizes _ _ _ _ _ Hk) as Hss. apply list.Forall_app in Hss as [Hs1 Hs2]. apply list.Forall_cons in Hs2 as [_ Hs2].
    apply list.Forall_app. split; [|done]. apply list.Forall_forall. intros m Hm.
    rewrite list.Forall_forall in Hs1. destruct (Hmem m Hm) as [Hf|[->| ->]]; [by apply Hs1|simpl; lia..].
  - (* the blocks in use *)
    pose proof (ho_al _ _ _ _ _ Hk) as Hal. apply list.Forall_cons in Hal as [_ Hal]. rewrite list.Forall_forall in Hal |- *.
    intros b Hb. destruct (Hal b Hb) as [p Hp]. exists p. rewrite Hframe; [done|]. apply elem_of_units. exists b. split; [done|].
    apply header_unit. pose proof (ho_sizes _ _ _ _ _ Hk) as Hss. rewrite list.Forall_forall in Hss. apply Hss. set_solver.
  - destruct (ho_brk _ _ _ _ _ Hk) as (k & Hk0 & Ebrk & Hu). exists k. split_and!; [done|done|].
    rewrite <- Hu, !units_app, Hunits, units_cons. cbn [fst snd]. solve_Permutation.
  - intros u Hu. assert (is_Some (h_mem s !! u)) as Hx.
    { apply (ho_mapped _ _ _ _ _ Hk). rewrite units_app, units_cons. rewrite units_app, Hunits in Hu. cbn [fst snd].
      clear - Hu. rewrite !elem_of_app in *. tauto. }
    unfold s'. simpl. by rewrite !lookup_insert_is_Some'; right; right.
  - apply Hk.
Qed.

Lemma wp_free_around E Q :
  (∀ s' fr', hok s' fr' al → h_brk s' = h_brk s → h_grants s' = h_grants s → ((∃ b, b ∈ fr' ∧ sz ≤ b.2) ∧ (length fr' ≤ S (length fr))%nat) →
     (∀ u, u ∈ units al → h_mem s' !! u = h_mem s !! u) → Q tt s') →
  wp E (free (bp + HDR)) Q s.
Proof.
  intros HQ. pose proof (ar_ok _ _ _ _ _ _ _ _ Har) as Hk. pose proof ar_block as (Hsz & Hlo & Htop).
  pose proof (ar_lt _ _ _ _ _ _ _ _ Har) as Hlt. destruct ar_nodes as (_ & _ & _ & Hgn & _ & Hpos). destruct ar_seg as (_ & Hsn & _).
  pose proof (ar_ring _ _ _ _ _ _ _ _ Har) as Er. pose proof ar_left as Hleft.
  unfold free. assert (plus (bp + HDR) (-1) = bp) as -> by (rewrite plus_small; unfold HDR in *; lia).
  apply wp_bind, wp_getS, wp_bind.
  apply (wp_free_place E s A n B bp (h_freep s)).
  { rewrite <- Er. apply Hk. }
  { rewrite <- Er. apply Hk. }
  { done. }
  { by rewrite <- Er. }
  { done. }
  { apply Har. }
  { lia. }
  { rewrite <- Er. apply Hk. }
  { rewrite <- Er. cbn [length]. pose proof (ring_length base lo base_pos base_lo _ _ _ Hk). lia. }
  pose proof (ho_al _ _ _ _ _ Hk) as Hal. apply list.Forall_cons in Hal as [[q Hq] _]. cbn [fst snd] in Hq.
  apply wp_bind, (wp_ld _ _ _ _ _ Hsn), wp_bind, (wp_ld _ _ _ _ _ Hq). cbn [fst snd].
  apply wp_bind, (wp_merge_next _ q); [done|]. intros B' sz' Hbe.
  apply wp_bind. eapply (wp_ld _ _ n.1); [cbn [h_mem set_h_mem]; rewrite lookup_insert_ne by lia; exact Hsn|]. cbn [fst snd].
  assert (0 ≤ n.1 + HDR * n.2 < 2 ^ 32 ∧ 0 ≤ n.2 ∧ 0 ≤ n.1) as (Hr & Hn0 & Hn1).
  { rewrite list.Forall_forall in Hpos. specialize (Hpos n ltac:(set_solver)). simpl in Hpos.
    destruct (hok_node base lo base_pos base_lo _ _ _ n Hk) as (_ & ? & ?); [rewrite Er; set_solver|]. unfold HDR in *. lia. }
  rewrite (plus_small n.1 n.2) by done. apply wp_bind.
  destruct (decide (n.1 + HDR * n.2 = bp)) as [Heq|Hne].
  - apply wp_bind. eapply (wp_ld _ _ bp); [cbn [h_mem set_h_mem]; apply lookup_insert_eq|]. cbn [fst snd].
    pose proof (be_top _ _ Hbe) as Hbt. pose proof (be_size _ _ Hbe) as Hbs.
    rewrite u32_small by (unfold HDR in *; lia).
    apply wp_bind. eapply wp_set_size; [cbn [h_mem set_h_mem]; rewrite lookup_insert_ne by lia; exact Hsn|].
    eapply wp_set_ptr; [apply lookup_insert_eq|]. cbn [h_mem set_h_mem fst snd]. rewrite insert_insert_eq. apply wp_modS.
    destruct (freed_ok B' sz' [(n.1, n.2 + sz')] (hnext B' base, n.2 + sz') Hbe) as (fr' & Hk' & Hb & Hf); [by left|].
    by apply (HQ _ fr').
  - eapply wp_set_ptr; [cbn [h_mem set_h_mem]; rewrite lookup_insert_ne by lia; exact Hsn|]. cbn [fst snd]. apply wp_modS.
    destruct (freed_ok B' sz' [n; (bp, sz')] (bp, n.2) Hbe) as (fr' & Hk' & Hb & Hf); [right; split; [done|]; split; [lia|done]|].
    by apply (HQ _ fr').
Qed.
End around.

(** free gives a block back: it becomes free, merged with its neighbours. *)
Lemma wp_free E s fr al bp sz Q :
  hok s fr ((bp, sz) :: al) →
  (∀ s' fr', hok s' fr' al → h_brk s' = h_brk s → h_grants s' = h_grants s → ((∃ b, b ∈ fr' ∧ sz ≤ b.2) ∧ (length fr' ≤ S (length fr))%nat) →
     (∀ u, u ∈ units al → h_mem s' !! u = h_mem s !! u) → Q tt s') →
  wp E (free (bp + HDR)) Q s.
Proof.
  intros Hk HQ. destruct (around_ex _ _ _ _ _ Hk) as (A & n & B & Har). by eapply wp_free_around.
Qed.
End free.
