(* ===== verification/UmallocThm.v ===== *)
(** * umalloc.c: malloc, and the theorems about the allocator *)

From S2P Require Import Prelude Umalloc UmallocHeap.
Local Open Scope Z_scope.

Section malloc.
Context (base lo : Z).
Hypothesis base_pos : 0 < base.
Hypothesis base_lo : base < lo.
Notation hok := (hok base lo).
Implicit Types (b m q : Z * Z) (ns fr al : list (Z * Z)) (s : heap).

(** ** morecore *)

(** The memory that a growth adds. *)
Lemma lookup_grown a n (mem : gmap Z (Z * Z)) u :
  (list_to_map ((λ a, (a, (0, 0))) <$> region a n) ∪ mem) !! u =
  if decide (u ∈ region a n) then Some (0, 0) else mem !! u.
Proof.
  destruct (decide (u ∈ region a n)) as [Hin|Hout].
  - apply lookup_union_Some_l, elem_of_list_to_map.
    + rewrite <- list_fmap_compose. simpl. rewrite list_fmap_id. apply NoDup_region.
    + apply list_elem_of_fmap. eauto.
  - rewrite lookup_union_r; [done|]. apply not_elem_of_list_to_map. rewrite <- list_fmap_compose. simpl. by rewrite list_fmap_id.
Qed.

Lemma grown_ok s fr al nu g :
  hok s fr al → 0 < nu → h_brk s + HDR * nu < 2 ^ 31 →
  let mem := list_to_map ((λ a, (a, (0, 0))) <$> region (h_brk s) nu) ∪ h_mem s in
  hok (mkheap (<[h_brk s := (0, nu)]> mem) (h_freep s) (h_brk s + HDR * nu) g) fr ((h_brk s, nu) :: al) ∧
  ∀ u, u ∈ units al → <[h_brk s := (0, nu)]> mem !! u = h_mem s !! u.
Proof.
  intros Hk Hnu Htop mem. destruct (ho_brk _ _ _ _ _ Hk) as (k & Hk0 & Ebrk & Hu).
  assert (∀ u, u < h_brk s → <[h_brk s := (0, nu)]> mem !! u = h_mem s !! u) as Hold.
  { intros u Hlt. unfold mem. rewrite lookup_insert_ne by lia. rewrite lookup_grown, decide_False; [done|].
    intros Hin. apply elem_of_region in Hin as (i & ? & ?). unfold HDR in *. lia. }
  assert (∀ u, u ∈ units (fr ++ al) → u < h_brk s) as Hlow.
  { intros u Hin. rewrite Hu in Hin. apply elem_of_region in Hin as (i & ? & ?). unfold HDR in *. lia. }
  assert (∀ b, b ∈ fr ++ al → b.1 < h_brk s) as Hlb.
  { intros b Hb. destruct (hok_block _ _ _ _ _ b Hk Hb) as (? & _ & ? & _). unfold HDR in *. lia. }
  split; [|intros u Hin; apply Hold, Hlow; rewrite units_app; set_solver]. split.
  - eapply seg_frame; [|apply Hk]. intros a Ha. apply Hold. apply elem_of_cons in Ha as [->|Ha]; [simpl; unfold HDR in *; lia|].
    apply list_elem_of_fmap in Ha as (m & -> & Hm). apply Hlb. set_solver.
  - apply Hk.
  - apply Hk.
  - pose proof (ho_sizes _ _ _ _ _ Hk) as Hs. apply list.Forall_app in Hs as [H1 H2]. apply list.Forall_app. split; [done|].
    by constructor.
  - cbn [h_mem]. constructor; [exists 0; apply lookup_insert_eq|]. pose proof (ho_al _ _ _ _ _ Hk) as Hal.
    rewrite list.Forall_forall in Hal |- *. intros b Hb. rewrite Hold by (apply Hlb; set_solver). by apply Hal.
  - exists (k + nu). cbn [h_brk]. split_and!; [lia|unfold HDR in *; lia|]. rewrite region_split by lia.
    rewrite units_app, units_cons. rewrite units_app in Hu. rewrite <- Hu, <- Ebrk. cbn [fst snd]. solve_Permutation.
  - intros u Hin. cbn [h_mem]. apply lookup_insert_is_Some'. right. unfold mem. rewrite lookup_grown.
    destruct (decide _) as [|Hn]; [eauto|]. apply (ho_mapped _ _ _ _ _ Hk). rewrite units_app, units_cons in Hin. cbn [fst snd] in Hin.
    rewrite units_app. rewrite !elem_of_app in *. tauto.
  - done.
Qed.

(** The kernel has no memory for [nu] more units. *)
Definition refused s nu : Prop :=
  match h_grants s with true :: _ => 2 ^ 31 ≤ h_brk s + HDR * Z.max nu 4096 | _ => True end.
(** morecore has no memory, or adds a free block of at least [nu] units. *)
Lemma wp_morecore E s fr al nu Q :
  hok s fr al → 0 < nu → HDR * nu < 2 ^ 31 →
  (∀ s', hok s' fr al → refused s nu → h_mem s' = h_mem s → h_brk s' = h_brk s → Q 0 s') →
  (∀ s' fr', hok s' fr' al → (∃ b, b ∈ fr' ∧ nu ≤ b.2) → (length fr' ≤ S (length fr))%nat → h_brk s ≤ h_brk s' →
     (∀ u, u ∈ units al → h_mem s' !! u = h_mem s !! u) → Q (h_freep s') s') →
  wp E (morecore nu) Q s.
Proof.
  intros Hk Hnu Hmax Hno Hyes. unfold morecore. set (nu' := if decide (nu < 4096) then 4096 else nu).
  assert (nu ≤ nu' ∧ HDR * nu' < 2 ^ 31) as [Hle Htop].
  { unfold nu'. destruct (decide (nu < 4096)); unfold HDR in *. lia. lia. }
  assert (s32 (u32 (nu' * HDR)) = HDR * nu') as ->.
  { rewrite s32_u32, s32_small by (unfold HDR in *; lia). lia. }
  assert (∀ g, hok (mkheap (h_mem s) (h_freep s) (h_brk s) g) fr al) as Hg by (intros g; by destruct Hk).
  assert (∀ g, refused s nu → wp E (if decide (u32 (-1) = u32 (-1)) then ret 0 else set_size (u32 (-1)) nu' ;;; free (plus (u32 (-1)) 1) ;;; gets h_freep)
    Q (mkheap (h_mem s) (h_freep s) (h_brk s) g)) as Hrefuse.
  { intros g Href. rewrite decide_True by done. by apply wp_ret, Hno. }
  apply wp_bind, wp_bind, wp_getS. rewrite decide_True by (unfold HDR in *; lia). cbv zeta.
  assert (0 ≤ h_brk s < 2 ^ 31) as Hbr.
  { destruct (ho_brk _ _ _ _ _ Hk) as (k & ? & Eb & _). pose proof (ho_range _ _ _ _ _ Hk). unfold HDR in *. lia. }
  destruct (h_grants s) as [|[] g] eqn:Eg.
  - apply wp_ret. rewrite decide_True by done. apply wp_ret, Hno; [done| |done..]. unfold refused. by rewrite Eg.
  - destruct (decide (h_brk s + HDR * nu' < 2 ^ 31)) as [Hfit|Hnf]; [|apply wp_bind, wp_modS, wp_ret, Hrefuse].
    2: { unfold refused. rewrite Eg. assert (Z.max nu 4096 = nu') as -> by (unfold nu'; destruct (decide (nu < 4096)); lia). lia. }
    apply wp_bind, wp_modS, wp_ret. rewrite decide_False by (change (u32 (-1)) with 4294967295; lia).
    replace (HDR * nu' / HDR) with nu' by (rewrite Z.mul_comm, Z.div_mul; done || (unfold HDR; lia)).
    destruct (grown_ok s fr al nu' g Hk ltac:(lia) Hfit) as [Hk1 Hf1]. cbv zeta in Hk1, Hf1.
    apply wp_bind. eapply (wp_set_size _ _ (h_brk s)).
    { cbn [h_mem]. rewrite lookup_grown, decide_True; [done|]. apply elem_of_region. exists 0. unfold HDR in *. lia. }
    cbn [fst snd set_h_mem h_mem h_freep h_brk h_grants].
    assert (plus (h_brk s) 1 = h_brk s + HDR) as -> by (rewrite plus_small; unfold HDR in *; lia).
    apply wp_bind, (wp_free base lo base_pos base_lo _ _ _ _ _ _ _ Hk1). cbn [h_brk h_mem]. intros s' fr' Hk' Eb _ [(b & Hb & Hbs) Hl] Hf.
    apply wp_gets, (Hyes s' fr'); [done|exists b; split; [done|lia]|done|unfold HDR in *; lia|].
    intros u Hin. by rewrite Hf, Hf1.
  - apply wp_bind, wp_modS, wp_ret, Hrefuse. unfold refused. by rewrite Eg.
Qed.

(** ** Taking a block *)
Lemma taken_ok s al T m B X A q start nunits mem' :
  hok s (T ++ m :: B) al → (base, 0) :: T = A ++ [q] →
  (X = [] ∧ start = m.1 ∧ nunits = m.2 ∨
   X = [(m.1, m.2 - nunits)] ∧ start = m.1 + HDR * (m.2 - nunits) ∧ 0 < nunits < m.2) →
  seg mem' ((base, 0) :: T ++ X ++ B) base → (∀ u, u ∈ units al → mem' !! u = h_mem s !! u) →
  (∃ p, mem' !! start = Some (p, nunits)) → (∀ u, is_Some (h_mem s !! u) → is_Some (mem' !! u)) →
  hok (set_h_freep q.1 (set_h_mem mem' s)) (T ++ X ++ B) ((start, nunits) :: al).
Proof.
  intros Hk EA HX Hseg Hframe Hstart Hmap. destruct (ho_brk _ _ _ _ _ Hk) as (k & Hk0 & Ebrk & Hu).
  pose proof (ho_sizes _ _ _ _ _ Hk) as Hs. apply list.Forall_app in Hs as [Hs1 Hs2].
  apply list.Forall_app in Hs1 as [HsT Hs1]. apply list.Forall_cons in Hs1 as [Hm HsB].
  assert (units ((T ++ X ++ B) ++ (start, nunits) :: al) ≡ₚ units ((T ++ m :: B) ++ al)) as Hun.
  { rewrite !units_app, !units_cons. cbn [fst snd]. assert (units X ++ region start nunits = region m.1 m.2) as <-; [|solve_Permutation].
    destruct HX as [(-> & -> & ->)|(-> & -> & ?)]; [done|]. rewrite units_one. cbn [fst snd]. rewrite <- region_split by lia. f_equal. lia. }
  split; cbn [h_mem h_freep h_brk set_h_mem set_h_freep].
  - done.
  - change ((base, 0) :: T ++ X ++ B) with (((base, 0) :: T) ++ X ++ B). rewrite EA, !fmap_app. cbn. set_solver.
  - pose proof (ho_gaps _ _ _ _ _ Hk) as Hg. change ((base, 0) :: T ++ m :: B) with (((base, 0) :: T) ++ m :: B) in Hg.
    change ((base, 0) :: T ++ X ++ B) with (((base, 0) :: T) ++ X ++ B). rewrite EA in *.
    apply gaps_app_inv in Hg as [Hg1 [HgB HgB']]. rewrite <- app_assoc in Hg1. apply gaps_app_inv in Hg1 as [Hg1 Hg2]. cbn [app] in *.
    destruct HX as [(-> & _ & _)|(-> & _ & ?)]; cbn [app].
    + rewrite <- app_assoc. apply gaps_app; [done|]. split; [|done]. destruct B as [|b B]; [done|]. destruct Hg2 as [Hg2 _].
      unfold HDR in *. lia.
    + rewrite <- app_assoc. apply gaps_app; [done|]. destruct Hg2 as [Hg2 _]. split; [done|]. split; [|done].
      destruct B as [|b B]; [done|]. cbn [fst snd]. unfold HDR in *. lia.
  - apply list.Forall_app. split; [|constructor; [simpl; destruct HX as [(_ & _ & ->)|(_ & _ & ?)]; [done|lia]|done]].
    apply list.Forall_app. split; [done|]. apply list.Forall_app. split; [|done].
    destruct HX as [(-> & _)|(-> & _ & ?)]; [constructor|]. constructor; [simpl; lia|constructor].
  - constructor; [done|]. pose proof (ho_al _ _ _ _ _ Hk) as Hal. rewrite list.Forall_forall in Hal, Hs2 |- *. intros b Hb.
    rewrite Hframe; [by apply Hal|]. apply elem_of_units. exists b. split; [done|]. by apply header_unit, Hs2.
  - exists k. split_and!; [done|done|]. by rewrite Hun.
  - intros u Hin. rewrite Hun in Hin. by apply Hmap, (ho_mapped _ _ _ _ _ Hk).
  - apply Hk.
Qed.

Definition took s al nunits r s' : Prop :=
  ∃ start fr', r = start + HDR ∧ hok s' fr' ((start, nunits) :: al) ∧ h_brk s ≤ h_brk s' ∧
    ∀ u, u ∈ units al → h_mem s' !! u = h_mem s !! u.

Lemma wp_take E s al T m B A q nunits Q :
  hok s (T ++ m :: B) al → (base, 0) :: T = A ++ [q] → 0 < nunits ≤ m.2 →
  (∀ r s', took s al nunits r s' → Q r s') →
  wp E (let! r :=
          (if decide (m.2 = nunits) then set_ptr q.1 (hnext B base) ;;; ret m.1
           else
             set_size m.1 (u32 (m.2 - nunits)) ;;;
             let p := plus m.1 (u32 (m.2 - nunits)) in
             set_size p nunits ;;; ret p) in
        modS (set_h_freep q.1) ;;; ret (plus r 1)) Q s.
Proof.
  intros Hk EA Hn HQ. destruct (hok_block base lo s (T ++ m :: B) al m Hk) as (Hm & Hmlo & Hmtop & _); [set_solver|].
  pose proof (ho_range _ _ _ _ _ Hk) as Hr. pose proof (ho_seg _ _ _ _ _ Hk) as Hs.
  change ((base, 0) :: T ++ m :: B) with (((base, 0) :: T) ++ m :: B) in Hs. rewrite EA, <- app_assoc in Hs.
  apply seg_app in Hs as [HsA [Hq [Hmm HsB]]]. cbn [hnext app] in HsA, Hq.
  pose proof (ho_gaps _ _ _ _ _ Hk) as Hg. change ((base, 0) :: T ++ m :: B) with (((base, 0) :: T) ++ m :: B) in Hg.
  pose proof (hok_nodes base lo base_pos base_lo _ _ _ Hk) as Hp. change ((base, 0) :: T ++ m :: B) with (((base, 0) :: T) ++ m :: B) in Hp.
  rewrite EA in Hg, Hp. pose proof (gaps_app_inv _ _ _ Hg) as [Hg1 Hg2]. apply list.Forall_app in Hp as [Hp1 Hp2].
  pose proof (gaps_before _ _ Hp1 Hg1) as HAm. pose proof (gaps_lt _ _ Hp2 Hg2) as HmB.
  rewrite <- app_assoc in Hg1. apply gaps_app_inv in Hg1 as [Hg1 _]. apply list.Forall_app in Hp1 as [Hp1 _].
  pose proof (gaps_before _ _ Hp1 Hg1) as HAq. rewrite list.Forall_forall in HAm, HmB, HAq.
  assert (q.1 < m.1) as Hqm by (apply HAm; set_solver).
  assert (∀ a, a ∈ A.*1 → a < q.1) as HA1 by (intros a Ha; apply list_elem_of_fmap in Ha as (b & -> & Hb); by apply HAq).
  assert (∀ a, a ∈ B.*1 → m.1 < a) as HB1 by (intros a Ha; apply list_elem_of_fmap in Ha as (b & -> & Hb); by apply HmB).
  assert (∀ u, u ∈ region m.1 m.2 → u ∉ units al) as Hmal.
  { intros u Hu Hal. pose proof (hok_nodup _ _ _ _ _ Hk) as Hnd. rewrite units_app in Hnd. apply list.NoDup_app in Hnd as (_ & Hd & _).
    apply (Hd u); [|done]. rewrite units_app, units_cons. rewrite !elem_of_app. tauto. }
  assert (q.1 ∉ units al) as Hqal.
  { apply (node_not_used base lo base_pos base_lo s (T ++ m :: B) al); [done|].
    change ((base, 0) :: T ++ m :: B) with (((base, 0) :: T) ++ m :: B). rewrite EA, !fmap_app. cbn. set_solver. }
  apply wp_bind. destruct (decide (m.2 = nunits)) as [Heq|Hne].
  - apply wp_bind, (wp_set_ptr _ _ _ _ _ _ Hq), wp_ret, wp_bind, wp_modS, wp_ret. cbn [fst snd]. apply HQ.
    rewrite plus_small by (unfold HDR in *; lia). exists m.1, (T ++ [] ++ B). split; [unfold HDR; lia|]. split; [|split; [simpl; lia|]].
    2: { intros u Hu. simpl. apply lookup_insert_ne. intros <-. done. }
    apply (taken_ok s al T m B [] A); [done|done|left; done| | | |].
    + change ((base, 0) :: T ++ [] ++ B) with (((base, 0) :: T) ++ B). rewrite EA, <- app_assoc. apply seg_app. split; [|split].
      * eapply seg_frame; [|exact HsA]. intros a Ha. specialize (HA1 a Ha). apply lookup_insert_ne. lia.
      * apply lookup_insert_eq.
      * eapply seg_frame; [|exact HsB]. intros a Ha. specialize (HB1 a Ha). apply lookup_insert_ne. lia.
    + intros u Hu. apply lookup_insert_ne. intros <-. done.
    + rewrite lookup_insert_ne by lia. rewrite Hmm, Heq. eauto.
    + intros u Hu. apply lookup_insert_is_Some'. by right.
  - set (r0 := m.2 - nunits). assert (0 < r0) as Hr0 by (unfold r0; lia). rewrite u32_small by (unfold HDR in *; lia).
    set (start := m.1 + HDR * r0). assert (plus m.1 r0 = start) as -> by (apply plus_small; unfold start, HDR in *; lia).
    assert (start ∈ region m.1 m.2) as Hst by (apply elem_of_region; exists r0; unfold start; lia).
    assert (start ≠ m.1) as Hsm by (unfold start, HDR; lia).
    destruct (ho_mapped _ _ _ _ _ Hk start) as [x Hx].
    { rewrite !units_app, units_cons. rewrite !elem_of_app. tauto. }
    apply wp_bind, (wp_set_size _ _ _ _ _ _ Hmm). cbn [fst snd].
    apply wp_bind. eapply (wp_set_size _ _ start _ x); [simpl; by rewrite lookup_insert_ne|].
    apply wp_ret, wp_bind, wp_modS, wp_ret, HQ. cbn [h_mem set_h_mem].
    assert (∀ u, u ∈ units al → <[start := (x.1, nunits)]> (<[m.1 := (hnext B base, r0)]> (h_mem s)) !! u = h_mem s !! u) as Hframe.
    { intros u Hu. rewrite !lookup_insert_ne; [done| |]; intros <-; eapply Hmal; try exact Hu; [|done].
      apply elem_of_region. exists 0. lia. }
    exists start, (T ++ [(m.1, r0)] ++ B). split; [rewrite plus_small; unfold start, HDR in *; lia|]. split; [|split; [simpl; lia|done]].
    apply (taken_ok s al T m B [(m.1, r0)] A); [done|done|right; split_and!; [done|done|lia|lia]| |done| |].
    + change ((base, 0) :: T ++ [(m.1, r0)] ++ B) with (((base, 0) :: T) ++ (m.1, r0) :: B). rewrite EA, <- app_assoc.
      assert (∀ a, a ∈ B.*1 → start < a) as HB2.
      { intros a Ha. apply list_elem_of_fmap in Ha as (b & -> & Hb). destruct B as [|b0 B0]; [by apply elem_of_nil in Hb|].
        destruct Hg2 as [Hg3 Hg4]. apply list.Forall_cons in Hp2 as [_ Hp2]. pose proof (gaps_lt _ _ Hp2 Hg4) as Hlt.
        rewrite list.Forall_forall in Hlt. unfold start, HDR in *. apply elem_of_cons in Hb as [->|Hb]; [lia|]. specialize (Hlt b Hb). simpl in Hlt. lia. }
      apply seg_app. split; [|split; [|split]]; cbn [hnext fst snd app].
      * eapply seg_frame; [|exact HsA]. intros a Ha. specialize (HA1 a Ha). rewrite !lookup_insert_ne; [done|lia|unfold start, HDR in *; lia].
      * rewrite !lookup_insert_ne; [exact Hq|lia|unfold start, HDR in *; lia].
      * rewrite lookup_insert_ne, lookup_insert_eq by done. done.
      * eapply seg_frame; [|exact HsB]. intros a Ha. specialize (HB1 a Ha). specialize (HB2 a Ha). rewrite !lookup_insert_ne by lia. done.
    + rewrite lookup_insert_eq. eauto.
    + intros u Hu. apply lookup_insert_is_Some'. right. apply lookup_insert_is_Some'. by right.
Qed.

(** ** The search *)
Section search.
Context (E : string → Prop) (s : heap) (fr al : list (Z * Z)) (nunits : Z) (Q : Z → heap → Prop).
Hypothesis Hk : hok s fr al.
Hypothesis Hn : 0 < nunits.
Hypothesis HQ : ∀ r s', took s al nunits r s' → Q r s'.
Notation small := (λ m : Z * Z, m.2 < nunits).
(** The search is back where it started. *)
Definition all_seen (fuel : nat) : M heap Z :=
  let! p := morecore nunits in
  if decide (p = 0) then ret 0 else let! x := ld p in malloc_loop fuel nunits p x.1.

Lemma wp_ring_scan : ∀ Y A q fuel,
  (base, 0) :: fr = A ++ q :: Y → (length Y < fuel)%nat →
  (∀ Y1 m Y2 f', Y = Y1 ++ m :: Y2 → m.1 = h_freep s → Forall small (Y1 ++ [m]) → (fuel ≤ f' + length Y)%nat → wp E (all_seen f') Q s) →
  (∀ f' pr, (fuel = f' + length Y)%nat → Forall small Y → (∀ m, m ∈ Y → m.1 ≠ h_freep s) → wp E (malloc_loop f' nunits pr base) Q s) →
  wp E (malloc_loop fuel nunits q.1 (hnext Y base)) Q s.
Proof.
  induction Y as [|m Y IH]; intros A q fuel Er Hf Hhit Hend.
  { apply Hend; [simpl; lia|constructor|]. intros m Hm. by apply elem_of_nil in Hm. }
  destruct fuel as [|fuel]; [simpl in Hf; lia|]. cbn [malloc_loop hnext].
  pose proof (ho_seg _ _ _ _ _ Hk) as Hs. rewrite Er in Hs. apply seg_app in Hs as [_ [_ [Hm _]]].
  apply wp_bind, (wp_ld _ _ _ _ _ Hm). cbn [fst snd]. destruct (decide (nunits ≤ m.2)) as [Hle|Hgt].
  - destruct A as [|a A']; cbn [app] in Er; injection Er as <- Ef.
    + apply (wp_take E s al [] m Y [] (base, 0)); [by rewrite <- Ef|done|lia|done].
    + apply (wp_take E s al (A' ++ [q]) m Y ((base, 0) :: A') q); [|done|lia|done]. by rewrite <- app_assoc; cbn [app]; rewrite <- Ef.
  - apply wp_bind, wp_gets. destruct (decide (m.1 = h_freep s)) as [Hh|Hne].
    + apply (Hhit [] m Y fuel); [done|done|constructor; [lia|constructor]|simpl; lia].
    + apply (IH (A ++ [q]) m); [by rewrite <- app_assoc|simpl in Hf; lia| |].
      * intros Y1 m' Y2 f' -> Hm' Hsm Hf'. apply (Hhit (m :: Y1) m' Y2 f'); [done|done|constructor; [lia|done]|simpl in *; lia].
      * intros f' pr -> Hsm Hnf. apply Hend; [simpl; lia|constructor; [lia|done]|]. intros m' Hm'.
        apply elem_of_cons in Hm' as [->|Hm']; [done|by apply Hnf].
Qed.

(** One round through the ring finds a block or sees that all are too small. *)
Lemma wp_round fuel x :
  h_mem s !! h_freep s = Some x → (2 * length fr + 3 ≤ fuel)%nat →
  (∀ f', (fuel ≤ f' + 2 * length fr + 2)%nat → Forall small fr → wp E (all_seen f') Q s) →
  wp E (malloc_loop fuel nunits (h_freep s) x.1) Q s.
Proof.
  intros Hx Hf Hall. pose proof (ho_freep _ _ _ _ _ Hk) as Hin. apply list_elem_of_fmap in Hin as (q & Eq & Hq).
  pose proof (ho_gaps _ _ _ _ _ Hk) as Hg. pose proof (hok_nodes base lo base_pos base_lo _ _ _ Hk) as Hp.
  apply list_elem_of_split in Hq as (A & Y & Er). pose proof (ho_seg _ _ _ _ _ Hk) as Hs. rewrite Er in Hs, Hg, Hp.
  apply seg_app in Hs as [_ [Hqm _]]. rewrite Eq, Hqm in Hx. injection Hx as <-. cbn [fst]. rewrite Eq.
  apply gaps_app_inv in Hg as [HgA HgY]. apply list.Forall_app in Hp as [HpA HpY].
  pose proof (gaps_lt _ _ HpY HgY) as HY. pose proof (gaps_before _ _ HpA HgA) as HA. rewrite list.Forall_forall in HY, HA.
  pose proof (f_equal length Er) as El. rewrite length_app in El. simpl in El.
  apply (wp_ring_scan Y A q fuel Er); [lia| |].
  { intros Y1 m Y2 f' -> Hm _ _. specialize (HY m ltac:(set_solver)). lia. }
  intros f' pr Ef HsY _. destruct f' as [|f']; [lia|]. cbn [malloc_loop].
  pose proof (ho_seg _ _ _ _ _ Hk) as [Hb _]. cbn [fst snd] in Hb. apply wp_bind, (wp_ld _ _ _ _ _ Hb). cbn [fst snd].
  rewrite decide_False by lia. apply wp_bind, wp_gets. destruct (decide (base = h_freep s)) as [Hbf|Hbf].
  { apply Hall; [lia|]. destruct A as [|a A']; cbn [app] in Er; injection Er as E1 E2; [by rewrite E2|].
    exfalso. specialize (HA a ltac:(set_solver)). rewrite <- E1 in HA. simpl in HA. lia. }
  destruct A as [|a A']; cbn [app] in Er; injection Er as E1 E2; [rewrite <- E1 in Eq; simpl in Eq; lia|].
  apply (wp_ring_scan fr [] (base, 0) f' eq_refl); [simpl in El; lia| |].
  - intros Y1 m Y2 f'' EY Hm Hsm Hf''. apply Hall; [simpl in El; lia|].
    assert (m = q) as ->.
    { assert (m ∈ A' ++ q :: Y) as Hin by (rewrite <- E2, EY; set_solver). apply elem_of_app in Hin as [Hin|Hin].
      - specialize (HA m ltac:(set_solver)). lia.
      - apply elem_of_cons in Hin as [->|Hin]; [done|]. specialize (HY m Hin). lia. }
    assert (Y1 ++ q :: Y2 = A' ++ q :: Y) as Eyy by congruence.
    rewrite EY. assert (Forall small Y2) as Hs2.
    { rewrite list.Forall_forall in HsY |- *. intros m Hm2.
      assert (m ∈ A' ++ q :: Y) as Hin by (rewrite <- Eyy; set_solver). assert (q.1 < m.1) as Hlt.
      { pose proof (ho_gaps _ _ _ _ _ Hk) as Hg'. pose proof (hok_nodes base lo base_pos base_lo _ _ _ Hk) as Hp'.
        rewrite EY in Hg', Hp'. change ((base, 0) :: Y1 ++ q :: Y2) with (((base, 0) :: Y1) ++ q :: Y2) in Hg', Hp'.
        apply gaps_app_inv in Hg' as [_ Hg']. apply list.Forall_app in Hp' as [_ Hp']. pose proof (gaps_lt _ _ Hp' Hg') as Hlt.
        rewrite list.Forall_forall in Hlt. by apply Hlt. }
      apply elem_of_app in Hin as [Hin|Hin]; [specialize (HA m ltac:(set_solver)); lia|].
      apply elem_of_cons in Hin as [->|Hin]; [lia|]. by apply HsY. }
    change (Y1 ++ q :: Y2) with (Y1 ++ [q] ++ Y2). rewrite app_assoc. apply list.Forall_app. done.
  - intros f'' pr' _ _ Hnf. exfalso. apply (Hnf q); [rewrite E2; set_solver|done].
Qed.
End search.

Lemma wp_malloc_loop E s fr al nunits fuel x Q :
  hok s fr al → 0 < nunits → HDR * nunits < 2 ^ 31 → h_mem s !! h_freep s = Some x → (4 * length fr + 8 ≤ fuel)%nat →
  (∀ r s', took s al nunits r s' → Q r s') →
  (∀ s', hok s' fr al → refused s nunits → h_mem s' = h_mem s → h_brk s' = h_brk s → Q 0 s') →
  wp E (malloc_loop fuel nunits (h_freep s) x.1) Q s.
Proof.
  intros Hk Hn Hmax Hx Hf HQ Hno. eapply wp_round; try done; [lia|]. intros f' Hf' Hsm. apply wp_bind.
  apply (wp_morecore E s fr al); [done..| |].
  - intros s' Hk' Href Hm Hb. rewrite decide_True by done. by apply wp_ret, Hno.
  - intros s' fr' Hk' (b & Hb & Hbs) Hlen Hbrk Hframe.
    pose proof (ho_freep _ _ _ _ _ Hk') as Hin. apply list_elem_of_fmap in Hin as (q & Eq & Hq).
    destruct (hok_node base lo base_pos base_lo _ _ _ q Hk' Hq) as (_ & Hq1 & _). rewrite decide_False by lia.
    destruct (seg_lookup _ _ _ q (ho_seg _ _ _ _ _ Hk') Hq) as [y Hy]. rewrite <- Eq in Hy.
    apply wp_bind, (wp_ld _ _ _ _ _ Hy). apply (wp_round E s' fr' al); try done; [|lia|].
    + intros r s2 (start & fr2 & Er & Hk2 & Hb2 & Hf2). apply HQ. exists start, fr2. split_and!; [done|done|lia|].
      intros u Hu. by rewrite Hf2, Hframe.
    + intros f2 _ Hsm'. exfalso. rewrite list.Forall_forall in Hsm'. specialize (Hsm' b Hb). simpl in Hsm'. lia.
Qed.

(** Before the first call. *)
Definition fresh s : Prop := h_freep s = 0 ∧ is_Some (h_mem s !! base) ∧ h_brk s = lo ∧ lo < 2 ^ 31.
Definition heap_ok s fr al : Prop := hok s fr al ∨ (fresh s ∧ fr = [] ∧ al = []).

Lemma units_for_spec nbytes : 0 ≤ nbytes ≤ 2 ^ 31 - 16 →
  0 < units_for nbytes ∧ HDR * units_for nbytes < 2 ^ 31 ∧ nbytes ≤ HDR * (units_for nbytes - 1).
Proof.
  intros Hn. unfold units_for, HDR. rewrite u32_small by lia. pose proof (Z.div_mod (nbytes + 8 - 1) 8 ltac:(lia)).
  pose proof (Z.mod_pos_bound (nbytes + 8 - 1) 8 ltac:(lia)). lia.
Qed.

Lemma wp_malloc E s fr al nbytes Q :
  heap_ok s fr al → 0 ≤ nbytes ≤ 2 ^ 31 - 16 →
  (∀ r s', took s al (units_for nbytes) r s' → Q r s') →
  (∀ s', hok s' fr al → refused s (units_for nbytes) → h_brk s' = h_brk s → (∀ u, u ∈ units al → h_mem s' !! u = h_mem s !! u) → Q 0 s') →
  wp E (malloc base nbytes) Q s.
Proof.
  intros Hh Hnb HQ Hno. destruct (units_for_spec nbytes Hnb) as (Hn & Hmax & _). unfold malloc. cbv zeta.
  apply wp_bind, wp_getS, wp_bind. destruct Hh as [Hk|((Hf & [x Hx] & Hb & Hl) & -> & ->)].
  - pose proof (ho_freep _ _ _ _ _ Hk) as Hin. apply list_elem_of_fmap in Hin as (q & Eq & Hq).
    destruct (hok_node base lo base_pos base_lo _ _ _ q Hk Hq) as (_ & Hq1 & _). rewrite decide_False by lia.
    destruct (seg_lookup _ _ _ q (ho_seg _ _ _ _ _ Hk) Hq) as [y Hy]. rewrite <- Eq in Hy.
    apply wp_skip, wp_bind, wp_gets, wp_bind, (wp_ld _ _ _ _ _ Hy).
    apply (wp_malloc_loop E s fr al); try done.
    + pose proof (ring_length base lo base_pos base_lo _ _ _ Hk). lia.
    + intros s' Hk' Href Hm Hb. apply Hno; [done|done|done|]. intros u _. by rewrite Hm.
  - rewrite decide_True by done. apply wp_bind, (wp_set_ptr _ _ _ _ _ _ Hx), wp_bind, wp_modS.
    eapply wp_set_size; [apply lookup_insert_eq|]. cbn [h_mem set_h_mem set_h_freep fst snd h_freep h_brk h_grants]. rewrite insert_insert_eq.
    set (s1 := set_h_mem _ _). assert (hok s1 [] []) as Hk1.
    { split; unfold s1; cbn [h_mem h_freep h_brk set_h_mem set_h_freep app].
      - split; [apply lookup_insert_eq|done].
      - apply list_elem_of_here.
      - done.
      - constructor.
      - constructor.
      - exists 0. rewrite Hb. split_and!; [done|unfold HDR; lia|done].
      - intros u Hu. by apply elem_of_nil in Hu.
      - by rewrite Hb. }
    apply wp_bind, wp_gets, wp_bind. eapply wp_ld; [apply lookup_insert_eq|].
    apply (wp_malloc_loop E s1 [] []); try done; [apply lookup_insert_eq|simpl; lia| |].
    + intros r s' (start & fr' & Er & Hk' & Hb' & Hf'). apply HQ. exists start, fr'. split_and!; [done|done|done|].
      intros u Hu. by apply elem_of_nil in Hu.
    + intros s' Hk' Href Hm Hb'. apply Hno; [done|done|done|]. intros u Hu. by apply elem_of_nil in Hu.
Qed.

Lemma hok_perm s fr al al' : al ≡ₚ al' → hok s fr al → hok s fr al'.
Proof.
  intros Hp [H1 H2 H3 H4 H5 (k & ? & ? & H6) H7 H8]. split; try done; try (by rewrite <- Hp).
  - exists k. by rewrite <- Hp.
  - intros u Hu. apply H7. by rewrite Hp.
Qed.
End malloc.

(** C38. The allocator of user programs is sound for requests of at most 2^31 - 16
    bytes (larger ones break it, [malloc_overflow]).  malloc ends, and either returns 0,
    only when the kernel refuses memory, with nothing changed, or returns the
    payload of a block of its own, large enough, that shares no byte with any
    block in use.  free makes a block free again, merged with free neighbours,
    so that blocks and free memory always tile the heap.  Neither changes a byte
    of the other blocks in use, and every state they lead to is again one they
    work in. *)
Theorem umalloc_sound base lo s fr al :
  0 < base → base < lo → heap_ok base lo s fr al →
  (∀ nbytes, 0 ≤ nbytes ≤ 2 ^ 31 - 16 → wp no_panic (malloc base nbytes) (λ r s',
     (∀ u, u ∈ units al → h_mem s' !! u = h_mem s !! u) ∧
     ((r = 0 ∧ refused s (units_for nbytes) ∧ hok base lo s' fr al ∧ h_brk s' = h_brk s) ∨
      ∃ start n fr', r = start + HDR ∧ r ≠ 0 ∧ nbytes ≤ HDR * (n - 1) ∧ hok base lo s' fr' ((start, n) :: al) ∧
        (∀ u, u ∈ region start n → u ∉ units al) ∧
        ∃ k, h_brk s' = lo + HDR * k ∧ units fr' ++ region start n ++ units al ≡ₚ region lo k)) s) ∧
  (∀ start n al', al ≡ₚ (start, n) :: al' → wp no_panic (free (start + HDR)) (λ _ s', ∃ fr',
     hok base lo s' fr' al' ∧ units fr' ≡ₚ region start n ++ units fr ∧ gaps ((base, 0) :: fr') ∧
     ∀ u, u ∈ units al' → h_mem s' !! u = h_mem s !! u) s).
Proof.
  intros Hbase Hlo Hh. split.
  - intros nbytes Hnb. destruct (units_for_spec nbytes Hnb) as (Hn & _ & Hpay).
    apply (wp_malloc base lo Hbase Hlo _ s fr al); [done|done| |].
    + intros r s' (start & fr' & -> & Hk & _ & Hframe). split; [done|]. right. exists start, (units_for nbytes), fr'.
      destruct (hok_block base lo s' fr' _ (start, units_for nbytes) Hk) as (_ & Hst & _); [set_solver|]. simpl in Hst.
      pose proof (hok_nodup _ _ _ _ _ Hk) as Hnd. rewrite units_app, units_cons in Hnd. cbn [fst snd] in Hnd.
      apply list.NoDup_app in Hnd as (_ & _ & Hnd). apply list.NoDup_app in Hnd as (_ & Hd & _).
      split_and!; [done|unfold HDR; lia|done|done|done|].
      destruct (ho_brk _ _ _ _ _ Hk) as (k & _ & Ek & Hu). exists k. split; [done|]. rewrite <- Hu, units_app, units_cons. done.
    + intros s' Hk Href Hb Hframe. split; [done|]. left. done.
  - intros start n al' Hp. destruct Hh as [Hk|(_ & _ & ->)]; [|by apply Permutation_nil_cons in Hp].
    apply (hok_perm base lo s fr al ((start, n) :: al') Hp) in Hk.
    apply (wp_free base lo Hbase Hlo _ s fr al' start n); [done|]. intros s' fr' Hk' Hb _ _ Hframe. exists fr'.
    split_and!; [done| |apply Hk'|done].
    destruct (ho_brk _ _ _ _ _ Hk) as (k & Hk0 & Ek & Hu), (ho_brk _ _ _ _ _ Hk') as (k' & Hk0' & Ek' & Hu').
    assert (k' = k) as -> by (unfold HDR in *; lia). rewrite <- Hu, !units_app, units_cons in Hu'. cbn [fst snd] in Hu'.
    apply (Permutation_app_inv_r (units al')). rewrite Hu'. solve_Permutation.
Qed.

(** A program that has not allocated yet. *)
Definition toy_heap (grants : list bool) : heap := mkheap {[ 3000 := (0, 0) ]} 0 8192 grants.

Lemma umalloc_sound_witness :
  wp no_panic (malloc 3000 100) (λ r s', r = 0 ∨ ∃ start n fr', r = start + HDR ∧ 100 ≤ HDR * (n - 1) ∧ hok 3000 8192 s' fr' [(start, n)])
    (toy_heap [true]).
Proof.
  eapply wp_mono; [refine (proj1 (umalloc_sound 3000 8192 (toy_heap [true]) [] [] _ _ _) 100 _)|].
  - lia.
  - lia.
  - right. split; [|done]. split; [done|]. split; [exists (0, 0); apply lookup_singleton_eq|]. split; [done|lia].
  - lia.
  - intros r s' [_ [(? & _)|(start & n & fr' & ? & _ & ? & ? & _)]]; [by left|]. right. exists start, n, fr'. done.
Defined.

Definition outcome_value {A} (r : outcome (A * heap)) : outcome A :=
  match r with Ok (a, _) => Ok a | Panic e => Panic e | Fault => Fault | Diverge => Diverge end.

(** malloc does not survive large requests.  For 2^31 bytes the amount it passes
    to sbrk is negative as an int; sbrk then reports success without adding
    memory, and malloc faults writing the header of a block that is not there.
    For 2^32 - 1 bytes the rounding wraps around: malloc returns a block of one
    unit, a header without payload, and the pointer it returns is the header of
    the block in use behind it. *)
Theorem malloc_overflow :
  outcome_value (malloc 3000 (2 ^ 31) (toy_heap [true; true])) = Fault ∧
  units_for (2 ^ 32 - 1) = 1 ∧
  ∃ p q, outcome_value ((let! q := malloc 3000 100 in let! p := malloc 3000 (2 ^ 32 - 1) in ret (p, q)) (toy_heap [true; true])) = Ok (p, q) ∧
    p = q - HDR.
Proof.
  split; [vm_compute; reflexivity|]. split; [vm_compute; reflexivity|]. exists 40848, 40856. split; [vm_compute; reflexivity|done].
Qed.
